(* ===== verification/_CoqProject ===== *)
-Q . S2P
Prelude.v
GoStrings.v
GoRegexp.v
GoNet.v
GoPath.v
GoCrypto.v
GoTime.v
Resource.v
Power.v
Subnet.v
Lease.v
Dhcp.v
Store.v
OsImage.v
Libvirt.v
Machine.v
Hypervisor.v
Vm.v
VmStore.v
RuntimeSync.v
VmDeploy.v
VmFence.v
VmProtocol.v
ApiResource.v
VmRequest.v
VmApi.v
VmReject.v
CascadeRace.v
BareMetal.v
BareMetalApi.v
Handler.v
HwInfo.v
TargetDisk.v
Curtin.v
PxeCallback.v
PxeEvidence.v
PxeInventory.v
PxeState.v
Tftp.v
Auth.v
AuthSafe.v
CloudInit.v
PxeFiles.v
PxeTarget.v
Windows.v
PxeBoot.v
MachineApi.v
MachineSafe.v
PowerCycle.v
Dns.v
DnsSafe.v
Rfc2136.v
DnsSync.v
Provider.v
SealedSeed.v
ProviderSafe.v
OsImageApi.v
OsImageSafe.v
BootEnv.v
BootEnvSafe.v
SshKey.v
Yaml.v
Provision.v
Scripts.v
CloudConfig.v
NetConfig.v
UserData.v
UserDataSafe.v
WolAgent.v
Loops.v
ClusterApi.v
VmSql.v
HvApi.v
Config.v
