(* ===== verification/Prelude.v ===== *)
(** * gomi: a verified model of the provisioning control plane

    gomi is a control plane that installs operating systems on bare-metal
    machines and on libvirt virtual machines.  This library models the core of
    its Go code, file by file, and proves what makes it correct.  Paths below are
    relative to src/.

    ** The program's parts and how they interact

    Operators describe _subnets_, _machines_, _hypervisors_ and _virtual
    machines_ through an HTTP API; each has a service over a store interface
    with in-memory and SQL backends.  Machines and virtual machines are both
    _nodes_ (internal/node): they have MAC addresses, a provisioning token and an
    installation type.  The application runtime (internal/app) reconciles the
    network-boot services with the stored nodes: it starts and stops the _DHCP
    server_ (internal/pxe), whose _lease pool_ hands out addresses, and gives it
    static reservations, the registered MACs and those that should boot from
    disk.  A booting node loads its first stage from the _TFTP server_, reads
    boot scripts over HTTP, installs, and reports back with its provisioning
    token.  A _runtime synchronisation_ (internal/vm) asks the hypervisors what
    the domains look like and folds the answers into the stored records; a
    deployment and a synchronisation race for the same record, which the
    completion token of a deployment decides.  _Power_ (internal/power) switches
    machines on and off by IPMI, webhook or Wake-on-LAN; switching off by
    Wake-on-LAN is a signed datagram to an agent on the machine
    (cmd/wol-daemon).  The names and addresses of the nodes are served by an
    embedded _name server_ or sent to another one (internal/infra/dns).  A
    _provider_ for the Cluster API (providers/cluster-api) turns objects of a
    Kubernetes cluster into requests to the control plane, for virtual machines
    and for _claims_ on enrolled bare-metal hosts, whose bootstrap it seals for
    the host's key.

    ** The files

    The language and its library:
    - [Prelude]: errors as values ([error], [errors_Is]), results of fallible
      functions ([result]) and of functions that may panic ([outcome]), record
      update, integers of fixed width, time, list lemmas and automation.
    - [GoStrings], [GoRegexp], [GoNet], [GoPath], [GoCrypto], [GoTime]: what the
      code uses of packages strings, strconv and sort, regexp (a derivative
      matcher, proved against the declarative meaning of patterns), net (MAC and
      IP grammars), path, net/url's query escaping, encoding/binary,
      crypto/sha256, crypto/hmac, and the RFC 3339 form of a time.
    - [Handler]: request handlers over a store they share with other requests,
      one step per operation, with a calculus of what a handler does ([does]).

    The components:
    - [Resource]: internal/resource, internal/node.  The class [Node] is the Go
      interface, [NodeLaws] what its clients rely on.
    - [Power]: internal/power and cmd/wol-daemon/daemon.go.  State: the replay
      cache ([ShutdownReplayCache]); [Run] is the daemon's receive loop over the
      datagrams that arrive.
    - [Subnet]: internal/subnet, description and validation.
    - [Lease]: internal/pxe/lease.go.  State: [leasePool]; [Allocate], [Release],
      [SetTTL], [UpdateReservations], [newLeasePool] (restart).
    - [Dhcp]: internal/pxe/dhcp.go.  State: [Server]; [handler] answers one
      message, [Reconfigure] and the table updates change the server.
    - [Store]: the store interface ([ResourceStore], [StoreLaws]) and the
      map-backed store of internal/infra/memory that satisfies it.
    - [OsImage]: internal/osimage: records, capabilities, validation, service.
    - [Machine]: internal/machine: record, validation, node instance, [SyncState],
      and the service, for any store that keeps the laws.
    - [Hypervisor]: internal/hypervisor with the token stores of
      internal/infra/memory/metadata_store.go.  State: [HvState].
    - [Vm]: internal/vm types, phase, validate, host_impl, scheduler.
    - [VmStore]: internal/vm/store.go and service.go with the in-memory store of
      internal/infra/memory/vm_store.go and provisioning_attempt.go.  The store
      is a record of operations, [VMStore], whose optional interfaces are
      options; [memory_vms] is the in-memory one.
    - [Libvirt]: internal/libvirt: domain configuration, its XML, volumes.
    - [RuntimeSync]: internal/vm/runtime_sync.go, migrate.go and the parts of
      internal/libvirt they read.
    - [VmDeploy]: internal/vm/deploy.go, domain_config.go, nocloud_seed.go,
      cloud_image*.go, pxe_url.go: a deployment is a run in a monad whose state
      is the stores and the log of host calls; [VmFence] and [VmProtocol] prove
      what it writes and in which order it calls the host.
    - [ApiResource], [VmRequest], [VmApi], [VmReject], [CascadeRace]:
      internal/infra/api/resource.go (paging, custom methods), the requests and
      handlers of virtual machines (vm.go, vm_reinstall.go, vm_power.go,
      vm_lease.go, windows_deploy.go, cascade.go) and their races.
    - [BareMetal], [BareMetalApi]: internal/baremetal with its SQL store
      (baremetal_store.go, baremetal_deployment.go), and the handlers of
      api/baremetal*.go.  State: [Db], the tables of hosts and machines.
    - [HwInfo], [TargetDisk], [Curtin], [PxeCallback], [PxeEvidence],
      [PxeInventory]: internal/hwinfo and the callbacks of an installer in
      internal/infra/pxehttp: hardware reports, choice of the disk, curtin's
      configuration with its shell commands, deploy events, completion.
    - [Auth], [AuthSafe]: internal/auth, internal/setupadmin, api/auth.go,
      api/middleware.go and the table of routes of api/server.go.
    - [PxeState]: internal/app/pxe_state.go, pxe_manager.go, network.go.  State:
      [Runtime]; [reconcilePXE] is one reconciliation.
    - [Tftp]: internal/pxe/tftp.go.  [serveRRQ] is one transfer.
    - [PxeFiles], [PxeTarget], [PxeBoot], [Windows]: the files, the boot scripts
      and the endpoints of Windows of internal/infra/pxehttp, and api/files.go.
    - [Yaml], [Provision], [Scripts], [CloudConfig], [NetConfig], [UserData],
      [UserDataSafe]: internal/provision and the user data, network
      configuration and seeds of internal/infra/pxehttp.  Maps are edited as
      values of [Yaml]; documents are read and written by package yaml.
    - [CloudInit], [SshKey]: internal/cloudinit, internal/sshkey, their stores
      and handlers.
    - [MachineApi], [MachineSafe], [PowerCycle]: machine.go, machine_redeploy.go,
      machine_power.go, windows_wol.go and cascade.go of internal/infra/api, each
      statement a step, and the goroutine that power-cycles a machine.
    - [OsImageApi], [OsImageSafe]: api/osimage*.go over sql/osimage_store.go.
      Calls of the file system are a log.
    - [BootEnv], [BootEnvSafe]: internal/bootenv and api/bootenv.go.  State:
      [MState], the manager's; a build is a handler over it.
    - [Dns], [DnsSafe], [Rfc2136], [DnsSync]: internal/infra/dns.  State:
      [EmbeddedServer] with its file [Disk]; [RFC2136Controller] with what the
      name server has, [Remote].
    - [WolAgent]: cmd/wol-daemon/main.go and api/machine_power_events.go: the
      agent's settings and its reports.
    - [Provider], [SealedSeed], [ProviderSafe]: providers/cluster-api: a
      reconciliation is a sequence of calls of two servers, kept in a log.
    - [ClusterApi]: internal/infra/clusterapi and api/cluster_api.go, the view of
      the management cluster and the changes an administrator makes to it.
    - [Loops]: internal/app/sync.go, windows_sync.go, bootstrap.go: the rounds
      that run beside the server, one statement at a time.
    - [VmSql], [HvApi]: the SQL tables of virtual machines and of hypervisors
      (sql/vm_store.go, provisioning_attempt.go, hypervisor_store.go), and
      api/hypervisor.go.
    - [Config]: internal/infra/config.

    ** What the theorems show

    - Addresses ([Lease], [Dhcp]): in every reachable pool no address is leased
      to two clients or to a client while reserved for another
      ([leases_exclusive]); one allocation is specified on every branch, its
      failure exactly when nothing is free ([allocate_spec]); a lease is kept for
      its lifetime and survives a restart; a DHCP reply promises no more than the
      pool keeps ([dhcp_reply_honoured]) and boot information goes to registered
      MACs only.
    - Power off ([Power]): the packet format as an iff ([shutdown_packet_spec]),
      the round trip, no replay over any run of the daemon
      ([shutdown_no_replay]), and the whole path from the controller's executor
      to the daemon's acceptance ([wol_power_off_end_to_end]).
    - Records ([Machine], [Hypervisor], [VmStore]): invariants over any sequence
      of service calls (valid machines, single-use registration tokens, sound
      agent tokens), fencing of stale deployments ([stale_deploy_fenced]),
      compare-and-swap of provisioning callbacks, status writes that never
      resurrect a record, completion of a deployment on every branch.
    - Synchronisation ([RuntimeSync]): one machine on every branch, convergence,
      a whole round, equivalence of the memoised list with the plain one, the
      merge of leased addresses, migration.
    - Deployment ([VmDeploy], [VmFence], [VmProtocol]): writes only to the own
      record, each time just read with the own token; calls of the host in the
      order of a protocol automaton, on the own domain and volumes, and none after
      a failure; domain configurations that describe the machine.
    - Requests for virtual machines ([VmApi], [VmReject], [CascadeRace]): a
      deletion that is confirmed has removed domain and storage, or the machine
      was missing and its host out of reach; a refused request changed nothing but
      memory the in-memory store shares; power-off ends, paging lists everything
      once, and no interleaving of creations with the deletion of a hypervisor
      leaves a machine on a hypervisor that is gone.  [VmSql] carries the theorems
      about the service over to the SQL table.
    - Claims ([BareMetal], [BareMetalApi], [PxeEvidence]): the tables stay
      consistent under every sequence of statements, a claim is used once, a host
      changes hands only by release, it is rebooted only when its identity is
      safe, and the callbacks of installers are among the statements assumed.
    - Installation ([TargetDisk], [Curtin], [PxeInventory]): only a fixed whole
      disk reported under the current attempt is partitioned, the partitions fit,
      and no value can change the command of an installer it is put into.
    - Authority ([AuthSafe]): routes that change state need the role for it,
      nobody raises himself, and a login admits as long as its session is stored.
    - Network boot ([PxeState], [Tftp]): the DHCP server runs exactly when it
      should and serves the current subnet; it registers exactly the stored
      nodes; provisioning wins over local boot; TFTP stays below its root and
      transfers a file exactly.
    - Files ([PxeFiles], [OsImageSafe], [BootEnvSafe]): what is sent and what is
      written stays below its directory; an image or a boot environment is
      published by the handlers only after its data was verified; one build of an
      environment runs at a time.
    - Seeds ([UserDataSafe], [CloudInit], [Windows]): the commands of a document
      and the report of completion are served, secrets of seed media are not; the
      disk of a Windows attempt is claimed once.
    - Machines and loops ([MachineSafe], [PowerCycle], [Loops]): enrolled hosts
      are out of reach of ordinary requests, a machine is switched on after it was
      seen stopped, the power cycle ends, and each round writes the records its
      specification says, within its columns.
    - Names ([DnsSafe], [DnsSync]): answers and transfers are those of the
      inventory and of the records kept by hand; records survive a
      restart; a name server kept up to date from outside converges.
    - Cluster API ([ProviderSafe], [ClusterApi], [WolAgent], [HvApi]): each call
      of the provider is justified by what it read; what it seals is accepted; a
      change meets the version its author saw; the agent and its control plane
      understand each other; a registration token is redeemed once.

    Behaviour of the code that falls short of its intention is stated as a lemma
    that exhibits it (for instance [reservation_of_leased_address_duplicates],
    [scan_wraps], [sync_loses_redeploy_window], [migrate_resurrects_deleted],
    [static_ipv6_machine_panics], [interrupted_release_is_stuck],
    [late_completion_ends_redeploy], [two_first_admins],
    [settings_take_claim_back], [refused_reinstall_edits_row]).

    ** Modelling decisions

    - A struct is a [Record] with the source's fields; a struct pointer that may
      be nil is an [option]; a slice is a [list], nil and empty slices being the
      same.  The services copy records in and out of their stores, so pointers
      are values.  Where a handler assigns to what the in-memory store shares with
      the record it handed out, before it may still refuse, the assignment is made
      in the store too ([write_through] of [VmApi]).
    - A Go string type with named constants (phases, modes, actions) stays an open
      string, as it is in the code, with the constants as definitions.
    - A Go map is a [gmap]; iteration whose order the code does not fix is only
      used where the result does not depend on it, is sorted as the code does, or
      has the order as a parameter ([zone_order] and [type_order] of [Dns]).
    - Readings of the clock are arguments: one for each reading where the code
      takes several and they may differ, a single one for an operation that runs
      under a mutex ([Lease]).  Random bytes are a function from the number of
      bytes to a result, so a failing source is included.
    - Commands, HTTP exchanges, sockets, name resolution, host interfaces and
      libvirt calls are arguments of the definitions that use them: any answer
      they may give is covered.  HTTP and packet libraries are not interpreted: a
      DHCP reply is the list of modifiers the code passes to the packet library.
    - What other goroutines do to a store between two accesses of one operation
      is an argument where it matters ([RuntimeSync], [VmStore], and every handler
      in the style of [Handler] or of [BareMetalApi]).  In [VmDeploy] and [VmApi]
      an operation of the virtual machine service is one step; [VmFence] proves its
      theorem over the store [Racing], in which others also write between the read
      and the write of one operation.
    - From packages yaml, json, bcrypt and net/url: encoders, hashes and the
      parsing of URLs are parameters.  What is assumed of them is named: [YamlLaws]
      (a map read back has its keys, lists and the strings in lists),
      [JsonColumns] (a document reads back), [canonical_laws] (canonical names are
      stable), the parsing of whole seconds by ParseDuration, that a JSON patch is
      applied only if its tests hold, and that SQL orders names by bytes.
    - Logging is not modelled.  Error texts are those of the code, but for
      a duration rendered inside one.

    ** Fuel and bounds

    Recursion is structural except for a few loops with a fuel argument:
    - [scan] (the search for a free address) gets two more than the number of
      used addresses: of that many consecutive candidates one is free or past the
      end of the range, and [allocate_spec] proves the answer exact;
    - the magic packet's loop gets its sixteen copies plus the final test, the
      IPv6 reader one step for each of the eight groups;
    - TFTP's [send_blocks] gets one more than the length of the file: each block
      consumes at least one byte ([tftp_transfer_exact] proves that it ends with a
      result);
    - trimming, matching and unquoting recurse on the length of their input, the
      reading of a command line on the number of its arguments;
    - the rounds of a power cycle, of waits and of the paging of the Cluster API are
      arguments; [power_cycle_ends] says how many are enough.
    Integers are [Z] with the wrap-around of their width written out wherever the
    code's arithmetic can reach it (addresses as uint32, timestamps as int64,
    block numbers as uint16).

    ** What is not modelled

    Sockets and process set-up (ListenAndServe, the main functions but for the
    agent's settings); the copying of boot assets; the handlers of subnets, DNS
    records, discovery, migration and system information, which decode a request
    and call what is modelled; the SQL tables other than those named, which keep
    the interfaces of the in-memory stores, and the text of SQL, its dialects and
    migrations; PowerDNS beyond the calls of its client; XML read back from
    libvirt; the relay of consoles; dead code (an Ubuntu autoinstall document that
    nothing calls); generated deep copies; the web interface. *)
From stdpp Require Export base gmap strings list fin_maps sorting pretty.
From Stdlib Require Export ZArith Lia.

(** ** Scope, errors and results *)

Declare Scope go_scope.
Delimit Scope go_scope with go.
Global Open Scope go_scope.

(** Go's [==] on comparable values, as a boolean. *)
Notation "x ==? y" := (bool_decide (x = y)) (at level 70, no associativity) : go_scope.
Notation "x !=? y" := (negb (bool_decide (x = y))) (at level 70, no associativity) : go_scope.

(** The error values of the program.  The two sentinels of internal/resource,
    the two of package context, a typed libvirt error (its numeric code is what
    [errors.As] inspects), plain errors ([errors.New] and [fmt.Errorf] without
    [%w]) and wrapped ones: [ErrWrap pre e post] is
    [fmt.Errorf "pre%wpost" e], [ErrWrap2 pre e mid e2 post] wraps two errors.  A
    sentinel made with [errors.New] is identified with its text. *)
Inductive error : Type :=
| ErrNotFound
| ErrAlreadyExists
| ErrCanceled
| ErrDeadlineExceeded
| ErrLibvirt (code : Z) (msg : string)
| ErrNew (msg : string)
| ErrWrap (pre : string) (e : error) (post : string)
| ErrWrap2 (pre : string) (e : error) (mid : string) (e2 : error) (post : string).

Global Instance error_eq_dec : EqDecision error.
Proof. solve_decision. Defined.

(** [err.Error()]. *)
Fixpoint Error (e : error) : string :=
  match e with
  | ErrNotFound => "not found"
  | ErrAlreadyExists => "already exists"
  | ErrCanceled => "context canceled"
  | ErrDeadlineExceeded => "context deadline exceeded"
  | ErrLibvirt _ msg => msg
  | ErrNew msg => msg
  | ErrWrap pre e post => pre +:+ Error e +:+ post
  | ErrWrap2 pre e mid e2 post => pre +:+ Error e +:+ mid +:+ Error e2 +:+ post
  end.

(** [errors.Is err target]: the target is the error or one it wraps. *)
Fixpoint errors_Is (e target : error) : bool :=
  (e ==? target) ||
  match e with
  | ErrWrap _ e' _ => errors_Is e' target
  | ErrWrap2 _ e1 _ e2 _ => errors_Is e1 target || errors_Is e2 target
  | _ => false
  end.

(** [errors.As] for a libvirt error: the code of the first one wrapped. *)
Fixpoint errors_As_libvirt (e : error) : option Z :=
  match e with
  | ErrLibvirt code _ => Some code
  | ErrWrap _ e' _ => errors_As_libvirt e'
  | ErrWrap2 _ e1 _ e2 _ =>
      match errors_As_libvirt e1 with Some code => Some code | None => errors_As_libvirt e2 end
  | _ => None
  end.

(** A Go function returning [(T, error)]. *)
Inductive result (A : Type) : Type :=
| Ok (a : A)
| Err (e : error).
Arguments Ok {A} a.
Arguments Err {A} e.

Global Instance result_eq_dec {A} `{EqDecision A} : EqDecision (result A).
Proof. solve_decision. Defined.

Global Instance result_bind : MBind result := fun A B f r =>
  match r with Ok a => f a | Err e => Err e end.
Global Instance result_ret : MRet result := fun A a => Ok a.
Global Instance result_fmap : FMap result := fun A B f r =>
  match r with Ok a => Ok (f a) | Err e => Err e end.

(** A Go function returning only [error]: [None] is [nil]. *)
Definition check (o : option error) : result unit :=
  match o with None => Ok tt | Some e => Err e end.

(** [if !c { return err }] as a step of an error-returning function. *)
Definition ensure (c : bool) (e : error) : result unit :=
  if c then Ok tt else Err e.

(** [injection] without simplification. *)
Lemma Ok_inj {A} (a b : A) : Ok a = Ok b → a = b.
Proof. congruence. Qed.

Lemma ensure_Ok c e : ensure c e = Ok tt ↔ c = true.
Proof. unfold ensure. destruct c; naive_solver. Qed.

Lemma check_Ok o : check o = Ok tt ↔ o = None.
Proof. unfold check. destruct o; naive_solver. Qed.

Lemma seq_Ok (r k : result unit) : (_ ← r; k) = Ok tt ↔ r = Ok tt ∧ k = Ok tt.
Proof. destruct r as [[]|]; simpl; naive_solver. Qed.

(** A computation that may end in a run-time panic. *)
Inductive outcome (A : Type) : Type :=
| Returns (a : A)
| Panics.
Arguments Returns {A} a.
Arguments Panics {A}.

Global Instance outcome_bind : MBind outcome := fun A B f r =>
  match r with Returns a => f a | Panics => Panics end.
Global Instance outcome_ret : MRet outcome := fun A a => Returns a.

Lemma bind_Returns_inv {A B} (f : A → outcome B) (o : outcome A) (b : B) :
  mbind f o = Returns b → ∃ a, o = Returns a ∧ f a = Returns b.
Proof. destruct o as [a|]; [|done]. intros H. by exists a. Qed.

(** Enter the continuation of a computation that has returned. *)
Ltac step_return :=
  repeat (lazymatch goal with
          | |- context [ mbind ?f (Returns ?a) ] => change (mbind f (Returns a)) with (f a)
          end; cbv beta zeta).

(** ** Functional record update

    A Go struct is a [Record]; [r <| f := v |>] is a copy of [r] with field [f]
    assigned, Go's [r.f = v] on a struct value.  A record lists its fields once,
    as a [Fields] instance: the constructor applied to its projections,
    pointwise in the record. *)

Definition fpure {R A : Type} (a : A) : R → A := fun _ => a.
Definition fapp {R A B : Type} (f : R → A → B) (x : R → A) : R → B :=
  fun r => f r (x r).

Class Fields (R : Type) := rebuild : R → R.

Infix "<*>" := fapp (at level 61, left associativity) : go_scope.

Class Field {R T : Type} (proj : R → T) := assign : T → R → R.
Arguments assign {R T} proj {_} _ !_ /.

(** Derive the assignment of one field from the [Fields] instance of its record:
    abstract the projection in the rebuilt record and put the value there. *)
Ltac build_field :=
  lazymatch goal with
  | |- @Field ?R ?T ?p =>
      let i := constr:(_ : Fields R) in
      let body := eval red in i in
      lazymatch (eval pattern p in body) with
      | ?f _ =>
          let g := eval cbv beta delta [fapp fpure] in
            (fun (v : T) (r : R) => f (fun _ => v) r) in
          exact g
      end
  end.
Global Hint Extern 0 (Field _) => build_field : typeclass_instances.

Notation "r <| f := v |>" := (assign f v r)
  (at level 1, left associativity, f at next level, v at level 200) : go_scope.

(** ** Integers of fixed width *)

Open Scope Z_scope.

(** [uint32(n)] and [uint64(n)]: truncation; [int64(n)]: two's complement. *)
Definition uint32 (n : Z) : Z := n `mod` 2 ^ 32.
Definition uint64 (n : Z) : Z := n `mod` 2 ^ 64.
Definition int64 (n : Z) : Z := (n + 2 ^ 63) `mod` 2 ^ 64 - 2 ^ 63.

Definition min_int64 : Z := - 2 ^ 63.
Definition max_int64 : Z := 2 ^ 63 - 1.

Lemma int64_range (n : Z) : min_int64 <= int64 n <= max_int64.
Proof.
  unfold int64, min_int64, max_int64. pose proof (Z.mod_pos_bound (n + 2 ^ 63) (2 ^ 64) ltac:(lia)). lia.
Qed.

Lemma int64_small (n : Z) : min_int64 <= n <= max_int64 → int64 n = n.
Proof.
  unfold int64, min_int64, max_int64. intros H. rewrite Z.mod_small; lia.
Qed.

Lemma int64_uint64 (n : Z) : min_int64 <= n <= max_int64 → int64 (uint64 n) = n.
Proof.
  intros H. rewrite <- (int64_small n) at 2 by done. unfold int64, uint64.
  f_equal. rewrite Zplus_mod_idemp_l. done.
Qed.

Lemma uint64_int64 (n : Z) : uint64 (int64 n) = uint64 n.
Proof.
  unfold uint64, int64. rewrite Zminus_mod_idemp_l. f_equal. lia.
Qed.

Lemma uint64_idemp (n : Z) : uint64 (uint64 n) = uint64 n.
Proof. unfold uint64. by rewrite Z.mod_mod by lia. Qed.

(** ** Time

    A [time.Time] is the number of nanoseconds since Go's zero time (January 1,
    year 1), so that [IsZero] is a comparison with [0]; a [time.Duration] is a
    number of nanoseconds.  [Sub] saturates at the range of [int64], as package
    time documents. *)

Definition Time : Type := Z.
Definition Duration : Type := Z.

Definition Second : Duration := 1000000000.
Definition Minute : Duration := 60 * Second.
Definition Hour : Duration := 60 * Minute.

Definition time_IsZero (t : Time) : bool := t =? 0.
Definition time_Sub (t u : Time) : Duration := Z.max min_int64 (Z.min max_int64 (t - u)).
Definition time_Add (t : Time) (d : Duration) : Time := t + d.
Definition time_After (t u : Time) : bool := u <? t.
Definition time_Before (t u : Time) : bool := t <? u.

(** Seconds from the zero time to the Unix epoch. *)
Definition unixToInternal : Z := 62135596800.
(** [time.Unix(sec, 0)] and [t.Unix()]. *)
Definition time_Unix (sec : Z) : Time := (sec + unixToInternal) * Second.
Definition time_unix_seconds (t : Time) : Z := t `div` Second - unixToInternal.

Lemma time_Sub_exact (t u : Time) :
  min_int64 <= t - u <= max_int64 → time_Sub t u = t - u.
Proof. unfold time_Sub. lia. Qed.

(** Comparing a saturated difference with a duration that fits in [int64] is
    comparing the exact difference. *)
Lemma time_Sub_gt (t u : Time) (d : Duration) :
  min_int64 <= d < max_int64 → (time_Sub t u >? d) = (t - u >? d).
Proof. unfold time_Sub. intros H. apply Bool.eq_iff_eq_true. lia. Qed.

Lemma time_Sub_lt (t u : Time) (d : Duration) :
  min_int64 < d <= max_int64 → (time_Sub t u <? d) = (t - u <? d).
Proof. unfold time_Sub. intros H. apply Bool.eq_iff_eq_true. lia. Qed.

(** ** Automation *)

Create HintDb gomi.
Create Rewrite HintDb gomi.

(** Split every [if] on a boolean test, reflecting decided equalities. *)
Ltac case_tests :=
  repeat first
    [ progress simplify_eq/=
    | case_bool_decide
    | case_decide
    | match goal with
      | |- context [ if ?b then _ else _ ] => let E := fresh "E" in destruct b eqn:E
      | H : context [ if ?b then _ else _ ] |- _ =>
          let E := fresh "E" in destruct b eqn:E
      end ].

(** Step through the binds of an error-returning function in a hypothesis. *)
Ltac inv_binds :=
  repeat match goal with
  | H : mbind _ ?r = Ok _ |- _ =>
      let E := fresh "E" in destruct r eqn:E; simpl in H; [| discriminate H]
  | H : Ok _ = Ok _ |- _ => injection H as H; subst
  | H : Err _ = Ok _ |- _ => discriminate H
  | H : ensure ?c _ = Ok _ |- _ => unfold ensure in H; destruct c eqn:?; [| discriminate H]
  | H : check ?o = Ok _ |- _ => unfold check in H; destruct o eqn:?; [discriminate H |]
  end.

(** ** Lists and maps *)

Section lists.
Context {A : Type}.
Implicit Types l : list A.

Lemma drop_lastn_length l (n : nat) :
  (n <= length l)%nat → length (drop (length l - n) l) = n.
Proof. intros H. rewrite length_drop. lia. Qed.

Lemma existsb_elem_of (f : A → bool) l :
  existsb f l = true ↔ ∃ x, x ∈ l ∧ f x = true.
Proof.
  rewrite existsb_exists. split; intros (x & Hx & Hf); exists x; split; auto;
    by apply list_elem_of_In.
Qed.

Lemma find_some_elem_of (f : A → bool) l (x : A) :
  List.find f l = Some x → x ∈ l ∧ f x = true.
Proof. intros H. apply List.find_some in H. by rewrite list_elem_of_In. Qed.

Lemma ex_elem_cons (P : A → Prop) (y : A) l :
  (∃ x, x ∈ y :: l ∧ P x) ↔ P y ∨ ∃ x, x ∈ l ∧ P x.
Proof. setoid_rewrite elem_of_cons. naive_solver. Qed.

(** The elements a fallible map produces. *)
Lemma elem_of_mapM {B} (f : A → option B) l (k : list B) (y : B) :
  mapM f l = Some k → y ∈ k ↔ ∃ x, x ∈ l ∧ f x = Some y.
Proof.
  intros E%mapM_Some. induction E as [|x z l k Hxz E IH]; [set_solver|].
  rewrite elem_of_cons, IH. split.
  - intros [->|(x' & Hx & Hf)]; [exists x|exists x']; set_solver.
  - intros (x' & [->|Hx]%elem_of_cons & Hf); [left; congruence|right; eauto].
Qed.
End lists.

(** Go's first-seen de-duplication loop: keep each value the first time it is
    met, given those already met. *)
Fixpoint dedup_from {A} `{EqDecision A} (seen : list A) (l : list A) : list A :=
  match l with
  | [] => []
  | x :: l' =>
      if decide (x ∈ seen) then dedup_from seen l'
      else x :: dedup_from (x :: seen) l'
  end.

Section dedup.
Context {A : Type} `{EqDecision A}.
Implicit Types l seen : list A.

Lemma elem_of_dedup_from l : ∀ seen x,
  x ∈ dedup_from seen l ↔ x ∈ l ∧ x ∉ seen.
Proof.
  induction l as [|y l IH]; intros seen x; simpl; [set_solver|].
  case_decide; rewrite ?elem_of_cons, IH; [set_solver|].
  destruct (decide (x = y)); set_solver.
Qed.

Lemma NoDup_dedup_from l : ∀ seen, NoDup (dedup_from seen l).
Proof.
  induction l as [|y l IH]; intros seen; simpl; [constructor|].
  case_decide; [done|]. constructor; [|done].
  rewrite elem_of_dedup_from. set_solver.
Qed.

Lemma dedup_from_NoDup_id l : ∀ seen,
  NoDup l → (∀ x, x ∈ l → x ∉ seen) → dedup_from seen l = l.
Proof.
  induction l as [|y l IH]; intros seen Hnd Hs; simpl; [done|].
  apply NoDup_cons in Hnd as [Hy Hnd].
  rewrite decide_False by set_solver. f_equal. apply IH; set_solver.
Qed.

Lemma dedup_from_sublist l : ∀ seen, sublist (dedup_from seen l) l.
Proof.
  induction l as [|y l IH]; intros seen; simpl; [constructor|].
  case_decide; constructor; auto.
Qed.
End dedup.
