(* ===== verification/GoStrings.v ===== *)
(** * Package strings: the string functions the program uses

    A Go string is a sequence of bytes, here a [string] (its [ascii] characters
    are bytes).  [TrimSpace] removes the Unicode white space Go's
    [unicode.IsSpace] accepts, in its UTF-8 encoding.  [ToLower] and
    [EqualFold] are exact on ASCII and on the non-ASCII runes that map to an
    ASCII letter (U+0130, U+017F, U+212A), hence exact whenever the result is
    compared with an ASCII literal; other non-ASCII runes are left as they
    are. *)
From S2P Require Import Prelude.
From Stdlib Require Export Ascii.

Abbreviation bytes := (list ascii).

Definition to_bytes (s : string) : bytes := String.list_ascii_of_string s.
Definition of_bytes (l : bytes) : string := String.string_of_list_ascii l.

Lemma of_to_bytes (s : string) : of_bytes (to_bytes s) = s.
Proof. apply String.string_of_list_ascii_of_string. Qed.

Lemma to_of_bytes (l : bytes) : to_bytes (of_bytes l) = l.
Proof. apply String.list_ascii_of_string_of_list_ascii. Qed.

#[export] Hint Rewrite of_to_bytes to_of_bytes : gomi.

Global Instance to_bytes_inj : Inj (=) (=) to_bytes.
Proof. intros s t H. by rewrite <- (of_to_bytes s), H, of_to_bytes. Qed.

Global Instance of_bytes_inj : Inj (=) (=) of_bytes.
Proof. intros s t H. by rewrite <- (to_of_bytes s), H, to_of_bytes. Qed.

Lemma to_bytes_app (s t : string) : to_bytes (s +:+ t) = to_bytes s ++ to_bytes t.
Proof. induction s as [|c s IH]; [done|]. unfold to_bytes in *. simpl. by f_equal. Qed.

Lemma of_bytes_app (l k : bytes) : of_bytes (l ++ k) = of_bytes l +:+ of_bytes k.
Proof. apply (inj to_bytes). by rewrite to_bytes_app, !to_of_bytes. Qed.

Lemma to_bytes_nil_inv (s : string) : to_bytes s = [] ↔ s = "".
Proof. destruct s; simpl; split; intros; congruence. Qed.

(** [len(s)]. *)
Definition len (s : string) : Z := Z.of_nat (String.length s).

Lemma length_to_bytes (s : string) : length (to_bytes s) = String.length s.
Proof. induction s as [|c s IH]; [done|]. unfold to_bytes in *. simpl. by f_equal. Qed.

Lemma len_length (s : string) : len s = Z.of_nat (length (to_bytes s)).
Proof. unfold len. by rewrite length_to_bytes. Qed.

(** The value of a byte. *)
Definition byte_val (c : ascii) : Z := Z.of_N (N_of_ascii c).
(** [byte(n)]: truncation to eight bits. *)
Definition byte_of (n : Z) : ascii := ascii_of_N (Z.to_N (n `mod` 256)).

Lemma byte_val_range (c : ascii) : 0 <= byte_val c < 256.
Proof. unfold byte_val. pose proof (N_ascii_bounded c). lia. Qed.

Lemma byte_val_of (n : Z) : byte_val (byte_of n) = n `mod` 256.
Proof.
  unfold byte_val, byte_of.
  pose proof (Z.mod_pos_bound n 256 ltac:(lia)).
  rewrite N_ascii_embedding by lia. lia.
Qed.

Lemma byte_of_val (c : ascii) : byte_of (byte_val c) = c.
Proof.
  unfold byte_of. rewrite Z.mod_small by apply byte_val_range.
  unfold byte_val. rewrite N2Z.id. apply ascii_N_embedding.
Qed.

Global Instance byte_val_inj : Inj (=) (=) byte_val.
Proof. intros a b H. by rewrite <- (byte_of_val a), H, byte_of_val. Qed.

(** ** White space and trimming *)

(** One-, two- and three-byte encodings of white space. *)
Definition space1 (a : ascii) : bool :=
  let n := byte_val a in ((9 <=? n) && (n <=? 13)) || (n =? 32).
Definition space2 (a b : ascii) : bool :=
  (byte_val a =? 0xC2) && ((byte_val b =? 0x85) || (byte_val b =? 0xA0)).
Definition space3 (a b c : ascii) : bool :=
  let x := byte_val a in let y := byte_val b in let z := byte_val c in
  ((x =? 0xE1) && (y =? 0x9A) && (z =? 0x80))
  || ((x =? 0xE2) && (y =? 0x80)
      && (((0x80 <=? z) && (z <=? 0x8A)) || (z =? 0xA8) || (z =? 0xA9) || (z =? 0xAF)))
  || ((x =? 0xE2) && (y =? 0x81) && (z =? 0x9F))
  || ((x =? 0xE3) && (y =? 0x80) && (z =? 0x80)).

(** Remove one leading (resp., on the reversed bytes, trailing) white-space
    rune. *)
Definition strip_left (l : bytes) : option bytes :=
  match l with
  | a :: l1 =>
      if space1 a then Some l1 else
      match l1 with
      | b :: l2 =>
          if space2 a b then Some l2 else
          match l2 with
          | c :: l3 => if space3 a b c then Some l3 else None
          | [] => None
          end
      | [] => None
      end
  | [] => None
  end.

Definition strip_right (l : bytes) : option bytes :=
  match l with
  | a :: l1 =>
      if space1 a then Some l1 else
      match l1 with
      | b :: l2 =>
          if space2 b a then Some l2 else
          match l2 with
          | c :: l3 => if space3 c b a then Some l3 else None
          | [] => None
          end
      | [] => None
      end
  | [] => None
  end.

Section strip_all.
Context (strip : bytes → option bytes).

Fixpoint strip_fuel (n : nat) (l : bytes) : bytes :=
  match n with
  | O => l
  | S n => match strip l with Some l' => strip_fuel n l' | None => l end
  end.

(** Strip until nothing is left to strip; every step shortens the list, so
    its length is enough fuel ([strip_all_fixed]). *)
Definition strip_all (l : bytes) : bytes := strip_fuel (length l) l.

Context (strip_shorter : ∀ l l', strip l = Some l' → (length l' < length l)%nat).
Context (strip_suffix : ∀ l l', strip l = Some l' → l' `suffix_of` l).

Lemma strip_fuel_fixed n : ∀ l,
  (length l <= n)%nat → strip (strip_fuel n l) = None.
Proof.
  induction n as [|n IH]; intros l Hn; simpl.
  - destruct (strip l) as [l'|] eqn:E; [|done].
    apply strip_shorter in E. lia.
  - destruct (strip l) as [l'|] eqn:E; [|done].
    apply IH. apply strip_shorter in E. lia.
Qed.

Lemma strip_all_fixed l : strip (strip_all l) = None.
Proof. by apply strip_fuel_fixed. Qed.

Lemma strip_all_id l : strip l = None → strip_all l = l.
Proof. unfold strip_all. intros H. destruct (length l); simpl; [done|]. by rewrite H. Qed.

Lemma strip_fuel_suffix n : ∀ l, strip_fuel n l `suffix_of` l.
Proof.
  induction n as [|n IH]; intros l; simpl; [done|].
  destruct (strip l) as [l'|] eqn:E; [|done].
  trans l'; [apply IH | by apply strip_suffix].
Qed.

Lemma strip_all_suffix l : strip_all l `suffix_of` l.
Proof. apply strip_fuel_suffix. Qed.
End strip_all.

Lemma strip_left_shorter l l' : strip_left l = Some l' → (length l' < length l)%nat.
Proof. destruct l as [|a [|b [|c l]]]; simpl; intros; case_tests; lia. Qed.
Lemma strip_right_shorter l l' : strip_right l = Some l' → (length l' < length l)%nat.
Proof. destruct l as [|a [|b [|c l]]]; simpl; intros; case_tests; lia. Qed.

Lemma strip_left_suffix l l' : strip_left l = Some l' → l' `suffix_of` l.
Proof.
  destruct l as [|a [|b [|c l]]]; simpl; intros; case_tests;
    by eauto using suffix_cons_r.
Qed.
Lemma strip_right_suffix l l' : strip_right l = Some l' → l' `suffix_of` l.
Proof.
  destruct l as [|a [|b [|c l]]]; simpl; intros; case_tests;
    by eauto using suffix_cons_r.
Qed.

(** A prefix of a list with no leading white space has none either. *)
Lemma strip_left_prefix l k : strip_left (l ++ k) = None → strip_left l = None.
Proof.
  intros H. destruct l as [|a [|b [|c l]]]; simpl in *; case_tests; done.
Qed.

Definition trim_left (l : bytes) : bytes := strip_all strip_left l.
Definition trim_right (l : bytes) : bytes := reverse (strip_all strip_right (reverse l)).

(** [strings.TrimSpace]. *)
Definition TrimSpace (s : string) : string := of_bytes (trim_right (trim_left (to_bytes s))).

Lemma trim_left_fixed l : strip_left (trim_left l) = None.
Proof. apply strip_all_fixed, strip_left_shorter. Qed.

Lemma trim_right_fixed l : strip_right (reverse (trim_right l)) = None.
Proof.
  unfold trim_right. rewrite reverse_involutive.
  apply strip_all_fixed, strip_right_shorter.
Qed.

Lemma trim_right_prefix l : ∃ k, l = trim_right l ++ k.
Proof.
  unfold trim_right.
  destruct (strip_all_suffix strip_right strip_right_suffix (reverse l)) as [k Hk].
  exists (reverse k). rewrite <- reverse_app, <- Hk. by rewrite reverse_involutive.
Qed.

Lemma trim_right_id l : strip_right (reverse l) = None → trim_right l = l.
Proof.
  unfold trim_right. intros H. rewrite strip_all_id by done. apply reverse_involutive.
Qed.

(** No white space at either end: what [TrimSpace] returns, and what it leaves
    unchanged. *)
Definition trimmed (s : string) : Prop :=
  strip_left (to_bytes s) = None ∧ strip_right (reverse (to_bytes s)) = None.

Lemma TrimSpace_trimmed (s : string) : trimmed (TrimSpace s).
Proof.
  unfold trimmed, TrimSpace. rewrite to_of_bytes. split; [|apply trim_right_fixed].
  destruct (trim_right_prefix (trim_left (to_bytes s))) as [k Hk].
  eapply strip_left_prefix. rewrite <- Hk. apply trim_left_fixed.
Qed.

Lemma TrimSpace_id (s : string) : trimmed s → TrimSpace s = s.
Proof.
  intros [Hl Hr]. unfold TrimSpace, trim_left.
  rewrite strip_all_id, trim_right_id by done. apply of_to_bytes.
Qed.

Lemma TrimSpace_idemp (s : string) : TrimSpace (TrimSpace s) = TrimSpace s.
Proof. apply TrimSpace_id, TrimSpace_trimmed. Qed.

#[export] Hint Rewrite TrimSpace_idemp : gomi.
#[export] Hint Resolve TrimSpace_trimmed : gomi.

(** A string whose first and last bytes are printable ASCII is trimmed. *)
Definition graphic (c : ascii) : bool := (33 <=? byte_val c) && (byte_val c <=? 126).

Lemma strip_left_graphic l :
  match l with [] => True | a :: _ => graphic a = true end → strip_left l = None.
Proof.
  destruct l as [|a l1]; [done|]. unfold graphic, strip_left, space1, space2, space3.
  intros H. replace (_ || _) with false by lia.
  destruct l1 as [|b l2]; [done|]. replace (_ && _) with false by lia.
  destruct l2 as [|c l3]; [done|]. by replace (_ || _) with false by lia.
Qed.

Lemma strip_right_graphic l :
  match l with [] => True | a :: _ => graphic a = true end → strip_right l = None.
Proof.
  destruct l as [|a l1]; [done|]. unfold graphic, strip_right, space1, space2, space3.
  intros H. replace (_ || _) with false by lia.
  destruct l1 as [|b l2]; [done|]. replace (_ && _) with false by lia.
  destruct l2 as [|c l3]; [done|]. by replace (_ || _) with false by lia.
Qed.

Lemma graphic_ends (a b : ascii) (l : bytes) : graphic a = true → graphic b = true → TrimSpace (of_bytes (a :: l ++ [b])) = of_bytes (a :: l ++ [b]).
Proof.
  intros Ha Hb. apply TrimSpace_id. split; rewrite to_of_bytes; [by apply strip_left_graphic|].
  apply strip_right_graphic. by rewrite reverse_cons, reverse_app.
Qed.

Lemma graphic_trimmed (s : string) : Forall (fun c => graphic c = true) (to_bytes s) → trimmed s.
Proof.
  intros H. split; [apply strip_left_graphic | apply strip_right_graphic].
  - destruct H; done.
  - apply Forall_reverse in H. destruct H; done.
Qed.

(** ** Case mapping *)

Definition is_upper (c : ascii) : bool := (65 <=? byte_val c) && (byte_val c <=? 90).
Definition is_lower (c : ascii) : bool := (97 <=? byte_val c) && (byte_val c <=? 122).
Definition is_digit (c : ascii) : bool := (48 <=? byte_val c) && (byte_val c <=? 57).
Definition lower_ascii (c : ascii) : ascii :=
  if is_upper c then byte_of (byte_val c + 32) else c.

(** U+0130 is the bytes C4 B0, U+017F is C5 BF, U+212A is E2 84 AA. *)
Definition rune_0130 (a b : ascii) : bool := (byte_val a =? 0xC4) && (byte_val b =? 0xB0).
Definition rune_017F (a b : ascii) : bool := (byte_val a =? 0xC5) && (byte_val b =? 0xBF).
Definition rune_212A (a b c : ascii) : bool :=
  (byte_val a =? 0xE2) && (byte_val b =? 0x84) && (byte_val c =? 0xAA).

Fixpoint lower_bytes (l : bytes) : bytes :=
  match l with
  | [] => []
  | a :: l1 =>
      match l1 with
      | b :: l2 =>
          if rune_0130 a b then "i"%char :: lower_bytes l2 else
          match l2 with
          | c :: l3 => if rune_212A a b c then "k"%char :: lower_bytes l3
                       else lower_ascii a :: lower_bytes l1
          | [] => lower_ascii a :: lower_bytes l1
          end
      | [] => lower_ascii a :: lower_bytes l1
      end
  end.

(** [strings.ToLower]. *)
Definition ToLower (s : string) : string := of_bytes (lower_bytes (to_bytes s)).

Fixpoint fold_bytes (l : bytes) : bytes :=
  match l with
  | [] => []
  | a :: l1 =>
      match l1 with
      | b :: l2 =>
          if rune_017F a b then "s"%char :: fold_bytes l2 else
          match l2 with
          | c :: l3 => if rune_212A a b c then "k"%char :: fold_bytes l3
                       else lower_ascii a :: fold_bytes l1
          | [] => lower_ascii a :: fold_bytes l1
          end
      | [] => lower_ascii a :: fold_bytes l1
      end
  end.

(** [strings.EqualFold]: equality under simple case folding. *)
Definition EqualFold (s t : string) : bool :=
  fold_bytes (to_bytes s) ==? fold_bytes (to_bytes t).

(** Lower-casing a string of ASCII bytes with no upper-case letter changes
    nothing. *)
Definition lower_plain (c : ascii) : bool := (byte_val c <? 128) && negb (is_upper c).

Lemma lower_bytes_id l : Forall (fun c => lower_plain c = true) l → lower_bytes l = l.
Proof.
  assert (Hstep : ∀ a l1, lower_plain a = true →
    lower_bytes (a :: l1) = a :: lower_bytes l1).
  { intros a l1 Ha. unfold lower_plain in Ha.
    assert (Hlo : lower_ascii a = a) by (unfold lower_ascii; case_tests; [lia|done]).
    simpl. rewrite Hlo. unfold rune_0130, rune_212A.
    destruct l1 as [|b [|c l3]]; [done| |];
      repeat match goal with
      | |- context [ if ?t then _ else _ ] => replace t with false by lia
      end; done. }
  induction 1 as [|a l Ha _ IH]; [done|]. by rewrite Hstep, IH.
Qed.

Lemma ToLower_id (s : string) :
  Forall (fun c => lower_plain c = true) (to_bytes s) → ToLower s = s.
Proof. intros H. unfold ToLower. by rewrite lower_bytes_id, of_to_bytes. Qed.

(** ** Searching *)

(** [strings.HasPrefix]. *)
Definition HasPrefix (s p : string) : bool := String.prefix p s.

(** [strings.HasSuffix]. *)
Definition HasSuffix (s p : string) : bool :=
  bool_decide (drop (length (to_bytes s) - length (to_bytes p)) (to_bytes s) = to_bytes p).

(** [strings.Contains]. *)
Fixpoint Contains (s sub : string) : bool :=
  String.prefix sub s ||
  match s with
  | EmptyString => false
  | String _ s' => Contains s' sub
  end.

(** [strings.ContainsAny]. *)
Definition ContainsAny (s chars : string) : bool :=
  existsb (fun c => bool_decide (c ∈ to_bytes chars)) (to_bytes s).

(** ** Hexadecimal *)

Definition hex_digit (n : Z) : ascii :=
  if n <? 10 then byte_of (48 + n) else byte_of (87 + n).

(** [hex.EncodeToString]. *)
Definition hex_encode (l : bytes) : string :=
  of_bytes (l ≫= fun c => [hex_digit (byte_val c `div` 16); hex_digit (byte_val c `mod` 16)]).

Lemma hex_encode_length (l : bytes) :
  String.length (hex_encode l) = (2 * length l)%nat.
Proof.
  unfold hex_encode. rewrite <- length_to_bytes, to_of_bytes.
  induction l as [|c l IH]; [done|]. csimpl in *. lia.
Qed.

Lemma graphic_hex_digit (n : Z) : 0 <= n < 16 → graphic (hex_digit n) = true.
Proof.
  intros H. unfold hex_digit, graphic.
  destruct (n <? 10) eqn:E; rewrite byte_val_of, Z.mod_small; lia.
Qed.

Lemma graphic_hex_encode (l : bytes) : Forall (fun c => graphic c = true) (to_bytes (hex_encode l)).
Proof.
  unfold hex_encode. rewrite to_of_bytes. induction l as [|c l IH]; [constructor|].
  csimpl. pose proof (byte_val_range c).
  repeat constructor; [apply graphic_hex_digit..|exact IH].
  - split; [apply Z.div_pos; lia|apply Z.div_lt_upper_bound; lia].
  - apply Z.mod_pos_bound. lia.
Qed.

Lemma TrimSpace_hex (l : bytes) : TrimSpace (hex_encode l) = hex_encode l.
Proof. apply TrimSpace_id, graphic_trimmed, graphic_hex_encode. Qed.

Lemma hex_digit_val (n : Z) : 0 <= n < 16 →
  byte_val (hex_digit n) = if n <? 10 then 48 + n else 87 + n.
Proof.
  intros H. unfold hex_digit. destruct (n <? 10) eqn:E; rewrite byte_val_of, Z.mod_small; lia.
Qed.

Lemma hex_digit_inj (n m : Z) : 0 <= n < 16 → 0 <= m < 16 → hex_digit n = hex_digit m → n = m.
Proof.
  intros Hn Hm E%(f_equal byte_val). rewrite !hex_digit_val in E by done.
  destruct (n <? 10) eqn:?, (m <? 10) eqn:?; lia.
Qed.

Lemma hex_encode_inj (l k : bytes) : hex_encode l = hex_encode k → l = k.
Proof.
  unfold hex_encode. intros E%(f_equal to_bytes). rewrite !to_of_bytes in E. revert k E.
  induction l as [|c l IH]; intros [|d k]; csimpl; try done. intros [= E1 E2 E3].
  pose proof (byte_val_range c). pose proof (byte_val_range d).
  apply hex_digit_inj in E1, E2; try (apply Z.mod_pos_bound; lia);
    try (split; [apply Z.div_pos; lia|apply Z.div_lt_upper_bound; lia]).
  f_equal; [|by apply IH]. rewrite <- (byte_of_val c), <- (byte_of_val d). f_equal.
  rewrite (Z.div_mod (byte_val c) 16), (Z.div_mod (byte_val d) 16) by lia. congruence.
Qed.

(** The decimal rendering of an integer, as [strconv.Itoa] and [%d]. *)
Definition Itoa (n : Z) : string := pretty n.

(** ** Escaping *)

(** [url.QueryEscape]. *)
Definition query_unreserved (c : ascii) : bool :=
  is_upper c || is_lower c || is_digit c || bool_decide (c ∈ to_bytes "-_.~").
Definition upper_hex (n : Z) : ascii := if n <? 10 then byte_of (48 + n) else byte_of (55 + n).
Definition QueryEscape (s : string) : string :=
  of_bytes (to_bytes s ≫= fun c =>
    if query_unreserved c then [c]
    else if c ==? " "%char then ["+"%char]
    else ["%"%char; upper_hex (byte_val c `div` 16); upper_hex (byte_val c `mod` 16)]).

Example QueryEscape_mac : QueryEscape "aa:bb" = "aa%3Abb".
Proof. vm_compute. reflexivity. Qed.

(** [fmt]'s [%q], on strings of printable characters and ASCII control ones. *)
Definition quote_byte (c : ascii) : bytes :=
  let v := byte_val c in
  let bs := byte_of 92 in
  if (v =? 34) || (v =? 92) then [bs; c]
  else if v =? 7 then [bs; "a"%char] else if v =? 8 then [bs; "b"%char]
  else if v =? 12 then [bs; "f"%char] else if v =? 10 then [bs; "n"%char]
  else if v =? 13 then [bs; "r"%char] else if v =? 9 then [bs; "t"%char]
  else if v =? 11 then [bs; "v"%char]
  else if (v <? 32) || (v =? 127) then [bs; "x"%char; hex_digit (v `div` 16); hex_digit (v `mod` 16)]
  else [c].
Definition Quote (s : string) : string :=
  of_bytes ([byte_of 34] ++ (to_bytes s ≫= quote_byte) ++ [byte_of 34]).

(** ** Sorting *)

(** [sort.Strings], and the keys of a set of strings, sorted. *)
Definition sort_Strings (l : list string) : list string := merge_sort String.le l.
Definition sorted_set (s : gset string) : list string := sort_Strings (elements s).

Lemma elem_of_sorted_set x (s : gset string) : x ∈ sorted_set s ↔ x ∈ s.
Proof. unfold sorted_set, sort_Strings. rewrite merge_sort_Permutation. apply elem_of_elements. Qed.

Lemma sorted_set_sorted (s : gset string) : StronglySorted String.le (sorted_set s) ∧ NoDup (sorted_set s).
Proof.
  split; [apply StronglySorted_merge_sort; apply _|].
  unfold sorted_set, sort_Strings. rewrite merge_sort_Permutation. apply NoDup_elements.
Qed.
