(* ===== verification/GoRegexp.v ===== *)
(** * Package regexp: the patterns the program compiles

    The syntax the program's patterns use, a matcher by derivatives
    (executable, linear in the input) and its correctness against the
    declarative meaning of a pattern.  Patterns are over bytes: every class in
    the program is a set of ASCII characters, so a multi-byte rune never
    matches one. *)
From S2P Require Import Prelude GoStrings.

Inductive regexp : Type :=
| Void
| Eps
| Cls (p : ascii → bool)
| Cat (r s : regexp)
| Alt (r s : regexp)
| Star (r : regexp).

(** The byte sequences a pattern describes. *)
Inductive matches : regexp → bytes → Prop :=
| matches_Eps : matches Eps []
| matches_Cls p c : p c = true → matches (Cls p) [c]
| matches_Cat r s l k : matches r l → matches s k → matches (Cat r s) (l ++ k)
| matches_Alt_l r s l : matches r l → matches (Alt r s) l
| matches_Alt_r r s l : matches s l → matches (Alt r s) l
| matches_Star_nil r : matches (Star r) []
| matches_Star_app r l k : matches r l → matches (Star r) k → matches (Star r) (l ++ k).

#[export] Hint Constructors matches : gomi.

(** Constructors that drop the trivial parts, so derivatives stay small. *)
Definition mkCat (r s : regexp) : regexp :=
  match r with
  | Void => Void
  | Eps => s
  | _ => Cat r s
  end.

Definition mkAlt (r s : regexp) : regexp :=
  match r with
  | Void => s
  | _ => match s with Void => r | _ => Alt r s end
  end.

Fixpoint nullable (r : regexp) : bool :=
  match r with
  | Void | Cls _ => false
  | Eps | Star _ => true
  | Cat r s => nullable r && nullable s
  | Alt r s => nullable r || nullable s
  end.

Fixpoint deriv (c : ascii) (r : regexp) : regexp :=
  match r with
  | Void | Eps => Void
  | Cls p => if p c then Eps else Void
  | Cat r s =>
      let d := mkCat (deriv c r) s in
      if nullable r then mkAlt d (deriv c s) else d
  | Alt r s => mkAlt (deriv c r) (deriv c s)
  | Star r => mkCat (deriv c r) (Star r)
  end.

(** Does the whole input match? *)
Fixpoint match_all (r : regexp) (l : bytes) : bool :=
  match l with
  | [] => nullable r
  | c :: l => match_all (deriv c r) l
  end.

(** [MatchString] for a pattern written [^r$]. *)
Definition MatchString (r : regexp) (s : string) : bool := match_all r (to_bytes s).

(** ** Pattern notation *)

Definition Any : regexp := Cls (fun _ => true).
(** [r+], [r?], [r{0,n}] and a literal. *)
Definition Plus (r : regexp) : regexp := Cat r (Star r).
Definition Opt (r : regexp) : regexp := Alt Eps r.
Fixpoint UpTo (n : nat) (r : regexp) : regexp :=
  match n with
  | O => Eps
  | S n => Alt Eps (Cat r (UpTo n r))
  end.
Fixpoint Lit_bytes (l : bytes) : regexp :=
  match l with
  | [] => Eps
  | c :: l => Cat (Cls (fun x => bool_decide (x = c))) (Lit_bytes l)
  end.
Definition Lit (s : string) : regexp := Lit_bytes (to_bytes s).

(** ** Inversion *)

Lemma matches_Void_inv l : ¬ matches Void l.
Proof. inversion 1. Qed.

Lemma matches_Eps_iff l : matches Eps l ↔ l = [].
Proof. split; [by inversion 1|]. intros ->. constructor. Qed.

Lemma matches_Cls_iff p l : matches (Cls p) l ↔ ∃ c, l = [c] ∧ p c = true.
Proof.
  split; [inversion 1; eauto|]. intros (c & -> & ?). by constructor.
Qed.

Lemma matches_Cat_iff r s l :
  matches (Cat r s) l ↔ ∃ l1 l2, l = l1 ++ l2 ∧ matches r l1 ∧ matches s l2.
Proof.
  split; [inversion 1; subst; eauto 6|]. intros (l1 & l2 & -> & ? & ?). by constructor.
Qed.

Lemma matches_Alt_iff r s l : matches (Alt r s) l ↔ matches r l ∨ matches s l.
Proof. split; [inversion 1; subst; auto|]. intros [?|?]; auto with gomi. Qed.

Lemma matches_Star_cons_inv r c l :
  matches (Star r) (c :: l) →
  ∃ l1 l2, l = l1 ++ l2 ∧ matches r (c :: l1) ∧ matches (Star r) l2.
Proof.
  intros H. remember (Star r) as q eqn:Hq. remember (c :: l) as k eqn:Hk.
  revert c l Hk. induction H as [| | | | | |r' l1 l2 H1 _ H2 IH2]; intros c' l' Hk; try discriminate.
  injection Hq as ->. destruct l1 as [|c1 l1]; [by apply IH2|].
  simplify_eq/=. eauto.
Qed.

Lemma matches_Cat_Void s l : ¬ matches (Cat Void s) l.
Proof.
  rewrite matches_Cat_iff. intros (? & ? & _ & H & _). by apply matches_Void_inv in H.
Qed.

Lemma matches_Cat_Eps s l : matches (Cat Eps s) l ↔ matches s l.
Proof.
  rewrite matches_Cat_iff. setoid_rewrite matches_Eps_iff. split.
  - by intros (? & ? & -> & -> & ?).
  - intros H. by exists [], l.
Qed.

Lemma mkCat_spec r s l : matches (mkCat r s) l ↔ matches (Cat r s) l.
Proof.
  destruct r; simpl; try done.
  - split; intros H; exfalso; [by apply matches_Void_inv in H|by apply matches_Cat_Void in H].
  - by rewrite matches_Cat_Eps.
Qed.

Lemma mkAlt_spec r s l : matches (mkAlt r s) l ↔ matches (Alt r s) l.
Proof.
  rewrite matches_Alt_iff. pose proof (matches_Void_inv l).
  destruct r, s; simpl; rewrite ?matches_Alt_iff; tauto.
Qed.

Lemma nullable_spec r : nullable r = true ↔ matches r [].
Proof.
  induction r as [| |p|r IHr s IHs|r IHr s IHs|r IHr]; simpl.
  - split; [done|]. intros H. by apply matches_Void_inv in H.
  - by rewrite matches_Eps_iff.
  - rewrite matches_Cls_iff. split; [done|]. by intros (c & ? & _).
  - rewrite andb_true_iff, IHr, IHs, matches_Cat_iff. split.
    + intros [??]. by exists [], [].
    + intros (l1 & l2 & Hl & ? & ?). symmetry in Hl. by apply app_nil in Hl as [-> ->].
  - by rewrite orb_true_iff, IHr, IHs, matches_Alt_iff.
  - split; [constructor|done].
Qed.

(** A non-empty match of [Cat] starts in the first part, or in the second when
    the first can be empty. *)
Lemma matches_Cat_cons_iff r s c l :
  matches (Cat r s) (c :: l) ↔
  (∃ l1 l2, l = l1 ++ l2 ∧ matches r (c :: l1) ∧ matches s l2)
  ∨ matches r [] ∧ matches s (c :: l).
Proof.
  rewrite matches_Cat_iff. split.
  - intros ([|c1 l1] & l2 & Hl & ? & ?); simplify_eq/=; eauto 6.
  - intros [(l1 & l2 & -> & ? & ?) | [? ?]]; [by exists (c :: l1), l2 | by exists [], (c :: l)].
Qed.

Lemma matches_Star_cons_iff r c l :
  matches (Star r) (c :: l) ↔
  ∃ l1 l2, l = l1 ++ l2 ∧ matches r (c :: l1) ∧ matches (Star r) l2.
Proof.
  split; [apply matches_Star_cons_inv|]. intros (l1 & l2 & -> & H1 & H2).
  by apply (matches_Star_app r (c :: l1) l2).
Qed.

Lemma deriv_spec r c : ∀ l, matches (deriv c r) l ↔ matches r (c :: l).
Proof.
  induction r as [| |p|r IHr s IHs|r IHr s IHs|r IHr]; intros l; simpl.
  - pose proof (matches_Void_inv l). pose proof (matches_Void_inv (c :: l)). tauto.
  - pose proof (matches_Void_inv l). rewrite matches_Eps_iff. split; [tauto|discriminate].
  - rewrite matches_Cls_iff. pose proof (matches_Void_inv l).
    destruct (p c) eqn:E; rewrite ?matches_Eps_iff; split; try tauto.
    + intros ->. eauto.
    + by intros (c' & ? & _); simplify_eq.
    + intros (c' & ? & ?). congruence.
  - rewrite matches_Cat_cons_iff. setoid_rewrite <- IHr. rewrite <- matches_Cat_iff.
    destruct (nullable r) eqn:E.
    + rewrite mkAlt_spec, matches_Alt_iff, mkCat_spec, IHs. apply nullable_spec in E. tauto.
    + rewrite mkCat_spec. assert (¬ matches r []) by (rewrite <- nullable_spec; congruence).
      tauto.
  - by rewrite mkAlt_spec, !matches_Alt_iff, IHr, IHs.
  - rewrite mkCat_spec, matches_Cat_iff, matches_Star_cons_iff. by setoid_rewrite IHr.
Qed.

Lemma match_all_spec l : ∀ r, match_all r l = true ↔ matches r l.
Proof.
  induction l as [|c l IH]; intros r; simpl; [apply nullable_spec|].
  by rewrite IH, deriv_spec.
Qed.

(** The matcher decides the pattern's meaning. *)
Lemma MatchString_spec r (s : string) : MatchString r s = true ↔ matches r (to_bytes s).
Proof. apply match_all_spec. Qed.

(** ** Meaning of the derived forms over a class *)

Lemma matches_Cat_Cls_cons p s c l :
  matches (Cat (Cls p) s) (c :: l) ↔ p c = true ∧ matches s l.
Proof.
  rewrite matches_Cat_cons_iff, matches_Cls_iff. setoid_rewrite matches_Cls_iff. split.
  - intros [(l1 & l2 & -> & (? & ? & ?) & ?) | [(? & ? & _) _]]; by simplify_eq/=.
  - intros [? ?]. left. exists [], l. eauto.
Qed.

Lemma matches_Cat_Cls_nil p s : ¬ matches (Cat (Cls p) s) [].
Proof.
  rewrite matches_Cat_iff. setoid_rewrite matches_Cls_iff.
  intros (l1 & l2 & H & (c & -> & _) & _). done.
Qed.

Lemma matches_UpTo_Cls n p : ∀ l,
  matches (UpTo n (Cls p)) l ↔ (length l <= n)%nat ∧ Forall (fun c => p c = true) l.
Proof.
  induction n as [|n IH]; intros l; simpl.
  - rewrite matches_Eps_iff. destruct l; simpl; [naive_solver|]. split; [done|]. intros [? _]. lia.
  - rewrite matches_Alt_iff, matches_Eps_iff. destruct l as [|c l]; simpl.
    + split; [|by left]. split; [lia|constructor].
    + rewrite matches_Cat_Cls_cons, IH, Forall_cons. intuition (try discriminate; lia).
Qed.

Lemma matches_Star_Cls p : ∀ l, matches (Star (Cls p)) l ↔ Forall (fun c => p c = true) l.
Proof.
  induction l as [|c l IH]; [split; constructor|].
  rewrite matches_Star_cons_iff, Forall_cons, <- IH. setoid_rewrite matches_Cls_iff. split.
  - intros (l1 & l2 & -> & (? & ? & ?) & ?). by simplify_eq/=.
  - intros [? ?]. exists [], l. eauto.
Qed.

Lemma matches_Lit_bytes k : ∀ l, matches (Lit_bytes k) l ↔ l = k.
Proof.
  induction k as [|c k IH]; intros l; simpl; [apply matches_Eps_iff|].
  destruct l as [|x l].
  - split; [intros H; by apply matches_Cat_Cls_nil in H|done].
  - rewrite matches_Cat_Cls_cons, IH, bool_decide_eq_true. naive_solver.
Qed.
