(* ===== verification/GoNet.v ===== *)
(** * Package net: hardware addresses and IP addresses

    [ParseMAC] and [HardwareAddr.String]; [ParseIP] with its two grammars
    (dotted decimal and colon hexadecimal, as net/netip reads them), [To4], and
    the dotted form of an IPv4 address.  An IPv4 address is its big-endian
    value, [binary.BigEndian.Uint32] of its four bytes. *)
From S2P Require Import Prelude GoStrings.

(** ** Characters *)

Definition hex_val (c : ascii) : option Z :=
  let n := byte_val c in
  if is_digit c then Some (n - 48)
  else if (97 <=? n) && (n <=? 102) then Some (n - 87)
  else if (65 <=? n) && (n <=? 70) then Some (n - 55)
  else None.

Definition dec_val (c : ascii) : option Z :=
  if is_digit c then Some (byte_val c - 48) else None.

(** ** Hardware addresses *)

Definition HardwareAddr : Type := bytes.

(** [xtoi2 s e]: two hexadecimal digits, followed by [e] unless the string
    ends there. *)
Definition xtoi2 (l : bytes) (e : option ascii) : option ascii :=
  match l with
  | a :: b :: rest =>
      match hex_val a, hex_val b with
      | Some x, Some y =>
          match rest with
          | [] => Some (byte_of (16 * x + y))
          | c :: _ => if bool_decide (Some c = e) then Some (byte_of (16 * x + y)) else None
          end
      | _, _ => None
      end
  | _ => None
  end.

(** The loop of the colon and hyphen forms: [n] octets, three bytes apart. *)
Fixpoint mac_octets (n : nat) (l : bytes) (sep : ascii) : option HardwareAddr :=
  match n with
  | O => Some []
  | S n =>
      o ← xtoi2 l (Some sep);
      os ← mac_octets n (drop 3 l) sep;
      Some (o :: os)
  end.

(** The loop of the dotted form: [n] pairs of octets, five bytes apart. *)
Fixpoint mac_pairs (n : nat) (l : bytes) : option HardwareAddr :=
  match n with
  | O => Some []
  | S n =>
      o1 ← xtoi2 (take 2 l) None;
      o2 ← xtoi2 (drop 2 l) (Some "."%char);
      os ← mac_pairs n (drop 5 l);
      Some (o1 :: o2 :: os)
  end.

Definition mac_length_ok (n : nat) : bool :=
  bool_decide (n = 6%nat) || bool_decide (n = 8%nat) || bool_decide (n = 20%nat).

(** [net.ParseMAC]; [None] is the error "invalid MAC address". *)
Definition ParseMAC (s : string) : option HardwareAddr :=
  let l := to_bytes s in
  let len := length l in
  if bool_decide (len < 14)%nat then None else
  match l !! 2%nat, l !! 4%nat with
  | Some c2, Some c4 =>
      if bool_decide (c2 = ":"%char) || bool_decide (c2 = "-"%char) then
        if bool_decide ((len + 1) `mod` 3 = 0)%nat then
          let n := ((len + 1) / 3)%nat in
          if mac_length_ok n then mac_octets n l c2 else None
        else None
      else if bool_decide (c4 = "."%char) then
        if bool_decide ((len + 1) `mod` 5 = 0)%nat then
          let n := (2 * (len + 1) / 5)%nat in
          if mac_length_ok n then mac_pairs (n / 2)%nat l else None
        else None
      else None
  | _, _ => None
  end.

(** [HardwareAddr.String]: lower-case octets joined by colons. *)
Fixpoint mac_bytes (hw : HardwareAddr) : bytes :=
  match hw with
  | [] => []
  | [o] => [hex_digit (byte_val o `div` 16); hex_digit (byte_val o `mod` 16)]
  | o :: os =>
      hex_digit (byte_val o `div` 16) :: hex_digit (byte_val o `mod` 16)
      :: ":"%char :: mac_bytes os
  end.
Definition mac_String (hw : HardwareAddr) : string := of_bytes (mac_bytes hw).

(** ** IP addresses *)

(** [strings.Split(s, sep)] for a one-byte separator. *)
Fixpoint split_bytes (sep : ascii) (l : bytes) : list bytes :=
  match l with
  | [] => [[]]
  | c :: l =>
      if bool_decide (c = sep) then [] :: split_bytes sep l
      else match split_bytes sep l with
           | [] => [[c]]
           | f :: fs => (c :: f) :: fs
           end
  end.

(** A decimal octet: at least one digit, no leading zero, at most 255. *)
Fixpoint dec_digits (acc : Z) (l : bytes) : option Z :=
  match l with
  | [] => Some acc
  | c :: l =>
      d ← dec_val c;
      let v := acc * 10 + d in
      if 255 <? v then None else dec_digits v l
  end.
Definition parse_octet (l : bytes) : option Z :=
  match l with
  | [] => None
  | [c] => dec_digits 0 l
  | c :: _ => if bool_decide (c = "0"%char) then None else dec_digits 0 l
  end.

(** [netip.parseIPv4Fields]. *)
Definition parse_ipv4 (l : bytes) : option bytes :=
  match split_bytes "."%char l with
  | [a; b; c; d] =>
      x ← parse_octet a; y ← parse_octet b; z ← parse_octet c; w ← parse_octet d;
      Some [byte_of x; byte_of y; byte_of z; byte_of w]
  | _ => None
  end.

(** The leading hexadecimal group: its value, its length and the rest; [None]
    when it has no digit or more than four. *)
Fixpoint hex_group (off : nat) (acc : Z) (l : bytes) : option (Z * nat * bytes) :=
  match l with
  | c :: l' =>
      match hex_val c with
      | Some d => if bool_decide (3 < off)%nat then None
                  else hex_group (S off) (acc * 16 + d) l'
      | None => if bool_decide (off = 0%nat) then None else Some (acc, off, l)
      end
  | [] => if bool_decide (off = 0%nat) then None else Some (acc, off, [])
  end.

(** The loop of [netip.parseIPv6]: [ip] holds the bytes parsed so far,
    [ellipsis] the position of [::].  Each round consumes a group, so eight
    rounds fill the address. *)
Fixpoint ipv6_groups (fuel : nat) (ip : bytes) (ellipsis : option nat) (s : bytes)
  : option (bytes * option nat * bytes) :=
  match fuel with
  | O => Some (ip, ellipsis, s)
  | S fuel =>
      if bool_decide (16 <= length ip)%nat then Some (ip, ellipsis, s) else
      '(acc, _, rest) ← hex_group 0 0 s;
      match rest with
      | "."%char :: _ =>
          if bool_decide (ellipsis = None) && negb (bool_decide (length ip = 12%nat)) then None
          else if bool_decide (16 < length ip + 4)%nat then None
          else v4 ← parse_ipv4 s; Some (ip ++ v4, ellipsis, [])
      | _ =>
          let ip' := ip ++ [byte_of (acc `div` 256); byte_of acc] in
          match rest with
          | [] => Some (ip', ellipsis, [])
          | c :: rest1 =>
              if negb (bool_decide (c = ":"%char)) then None else
              match rest1 with
              | [] => None
              | c1 :: rest2 =>
                  if bool_decide (c1 = ":"%char) then
                    if bool_decide (ellipsis = None) then
                      match rest2 with
                      | [] => Some (ip', Some (length ip'), [])
                      | _ => ipv6_groups fuel ip' (Some (length ip')) rest2
                      end
                    else None
                  else ipv6_groups fuel ip' ellipsis rest1
              end
          end
      end
  end.

Definition zeros (n : nat) : bytes := replicate n (byte_of 0).

(** [netip.parseIPv6], for addresses without a zone ([net.ParseIP] rejects the
    others). *)
Definition parse_ipv6 (l : bytes) : option bytes :=
  if bool_decide ("%"%char ∈ l) then None else
  let '(ellipsis, s) :=
    match l with
    | ":"%char :: ":"%char :: rest => (Some 0%nat, rest)
    | _ => (None, l)
    end in
  if bool_decide (ellipsis = Some 0%nat) && bool_decide (s = []) then Some (zeros 16) else
  '(ip, ell, rest) ← ipv6_groups 8 [] ellipsis s;
  match rest with
  | _ :: _ => None
  | [] =>
      if bool_decide (length ip < 16)%nat then
        e ← ell;
        Some (take e ip ++ zeros (16 - length ip) ++ drop e ip)
      else if bool_decide (ell = None) then Some ip else None
  end.

Definition v4_in_v6_prefix : bytes := zeros 10 ++ [byte_of 255; byte_of 255].

(** The first of ['.'], [':'] and ['%'] decides the grammar. *)
Fixpoint parse_addr (l whole : bytes) : option bytes :=
  match l with
  | [] => None
  | c :: l' =>
      if bool_decide (c = "."%char) then v4 ← parse_ipv4 whole; Some (v4_in_v6_prefix ++ v4)
      else if bool_decide (c = ":"%char) then parse_ipv6 whole
      else if bool_decide (c = "%"%char) then None
      else parse_addr l' whole
  end.

(** A [net.IP] is a byte slice; [nil] is the empty one. *)
Definition IP : Type := bytes.

(** [net.ParseIP]: the sixteen-byte form, or [None] for [nil]. *)
Definition ParseIP (s : string) : option IP := parse_addr (to_bytes s) (to_bytes s).

(** [binary.BigEndian.Uint32] of four bytes. *)
Definition be32 (l : bytes) : option Z :=
  match l with
  | [a; b; c; d] =>
      Some (byte_val a * 2 ^ 24 + byte_val b * 2 ^ 16 + byte_val c * 2 ^ 8 + byte_val d)
  | _ => None
  end.

(** [ip.To4()], as its big-endian value. *)
Definition To4 (ip : IP) : option Z :=
  if bool_decide (length ip = 4%nat) then be32 ip
  else if bool_decide (length ip = 16%nat) && bool_decide (take 12 ip = v4_in_v6_prefix)
  then be32 (drop 12 ip)
  else None.

(** [net.ParseIP(s).To4()]; [To4] of a nil IP is nil. *)
Definition parse4 (s : string) : option Z := ParseIP s ≫= To4.

(** [net.CIDRMask(ones, 8 * n)]. *)
Fixpoint cidr_mask (ones : Z) (n : nat) : bytes :=
  match n with
  | O => []
  | S n => byte_of (256 - 2 ^ (8 - Z.min 8 ones)) :: cidr_mask (Z.max 0 (ones - 8)) n
  end.

(** [net.dtoi] on a whole string of digits; the value is below 0xFFFFFF. *)
Fixpoint dtoi (acc : Z) (l : bytes) : option Z :=
  match l with
  | [] => Some acc
  | c :: l => d ← dec_val c; let v := acc * 10 + d in if 16777215 <=? v then None else dtoi v l
  end.

(** The part of a string before the first separator, and after it. *)
Fixpoint cut (sep : ascii) (l : bytes) : option (bytes * bytes) :=
  match l with
  | [] => None
  | c :: l => if bool_decide (c = sep) then Some ([], l)
              else '(a, b) ← cut sep l; Some (c :: a, b)
  end.

(** Whether [netip.ParseAddr] reads an IPv4 address: a dot comes before a colon. *)
Fixpoint is_ipv4_syntax (l : bytes) : bool :=
  match l with
  | [] => false
  | c :: l => if bool_decide (c = "."%char) then true
              else if bool_decide (c = ":"%char) then false else is_ipv4_syntax l
  end.

(** [net.ParseCIDR]: the mask of the network; [None] is the error. *)
Definition ParseCIDR (s : string) : option bytes :=
  '(addr, mask) ← cut "/"%char (to_bytes s);
  _ ← parse_addr addr addr;
  let bits := if is_ipv4_syntax addr then 32 else 128 in
  match mask with
  | [] => None
  | _ => n ← dtoi 0 mask; if bits <? n then None else Some (cidr_mask n (Z.to_nat (bits / 8)))
  end.

Definition octet (n : Z) (i : Z) : Z := (n `div` 2 ^ (8 * i)) `mod` 256.

(** [net.IP.String] of an IPv4 address. *)
Definition ip4_String (n : Z) : string :=
  Itoa (octet n 3) +:+ "." +:+ Itoa (octet n 2) +:+ "."
  +:+ Itoa (octet n 1) +:+ "." +:+ Itoa (octet n 0).

Example ParseIP_v4 : parse4 "192.168.0.10" = Some 3232235530.
Proof. vm_compute. reflexivity. Qed.
Example ParseIP_mapped : parse4 "::ffff:10.0.0.1" = Some 167772161.
Proof. vm_compute. reflexivity. Qed.
Example ParseIP_leading_zero : parse4 "10.0.0.01" = None.
Proof. vm_compute. reflexivity. Qed.
Example ParseIP_v6 : is_Some (ParseIP "fe80::1") ∧ parse4 "fe80::1" = None.
Proof. vm_compute. eauto. Qed.
Example ip4_String_ex : ip4_String 3232235530 = "192.168.0.10".
Proof. vm_compute. reflexivity. Qed.
Example ParseCIDR_ex :
  ParseCIDR "10.0.0.0/22" = Some (byte_of <$> [255; 255; 252; 0])
  ∧ ParseCIDR "10.0.0.0/33" = None ∧ ParseCIDR "10.0.0.0" = None
  ∧ length <$> ParseCIDR "fd00::/64" = Some 16%nat.
Proof. vm_compute. auto. Qed.
Example ParseMAC_ex :
  mac_String <$> ParseMAC "AA-BB-CC-00-11-22" = Some "aa:bb:cc:00:11:22"
  ∧ mac_String <$> ParseMAC "aabb.cc00.1122" = Some "aa:bb:cc:00:11:22"
  ∧ ParseMAC "aa:bb:cc:00:11" = None.
Proof. vm_compute. auto. Qed.

(** ** The printed forms parse back *)

(** Check a decidable fact of every byte value by computation. *)
Definition all_bytes (f : Z → bool) : bool := forallb f (seqZ 0 256).

Lemma all_bytes_spec f : all_bytes f = true → ∀ n, 0 <= n < 256 → f n = true.
Proof.
  unfold all_bytes. rewrite forallb_forall. intros H n Hn. apply H.
  apply list_elem_of_In, elem_of_seqZ. lia.
Qed.

(** Both hexadecimal digits of an octet read back as the octet, are lower-case
    and printable. *)
Lemma hex_digits_octet (n : Z) : 0 <= n < 256 →
  hex_val (hex_digit (n `div` 16)) = Some (n `div` 16)
  ∧ hex_val (hex_digit (n `mod` 16)) = Some (n `mod` 16).
Proof.
  intros Hn.
  pose proof (all_bytes_spec (fun n =>
    bool_decide (hex_val (hex_digit (n `div` 16)) = Some (n `div` 16)
      ∧ hex_val (hex_digit (n `mod` 16)) = Some (n `mod` 16))) eq_refl n Hn) as H.
  simpl in H. by apply bool_decide_eq_true in H.
Qed.

Lemma hex_digits_plain (n : Z) : 0 <= n < 256 →
  (graphic (hex_digit (n `div` 16)) && graphic (hex_digit (n `mod` 16))
   && lower_plain (hex_digit (n `div` 16)) && lower_plain (hex_digit (n `mod` 16))) = true.
Proof.
  apply (all_bytes_spec (fun n =>
    graphic (hex_digit (n `div` 16)) && graphic (hex_digit (n `mod` 16))
    && lower_plain (hex_digit (n `div` 16)) && lower_plain (hex_digit (n `mod` 16)))).
  vm_compute. reflexivity.
Qed.

Lemma xtoi2_digits (o : ascii) (rest : bytes) (e : option ascii) :
  match rest with [] => True | c :: _ => Some c = e end →
  xtoi2 (hex_digit (byte_val o `div` 16) :: hex_digit (byte_val o `mod` 16) :: rest) e = Some o.
Proof.
  intros He. unfold xtoi2.
  destruct (hex_digits_octet (byte_val o) (byte_val_range o)) as [-> ->].
  rewrite <- Z.div_mod, byte_of_val by lia.
  destruct rest; [done|]. by rewrite bool_decide_eq_true_2.
Qed.

Lemma mac_octets_cons n l sep o os :
  xtoi2 l (Some sep) = Some o → mac_octets n (drop 3 l) sep = Some os →
  mac_octets (S n) l sep = Some (o :: os).
Proof. intros H1 H2. cbn -[xtoi2]. by rewrite H1; simpl; rewrite H2. Qed.

Lemma mac_octets_String hw : mac_octets (length hw) (mac_bytes hw) ":"%char = Some hw.
Proof.
  induction hw as [|o [|o' hw] IH]; [done| |].
  - by apply mac_octets_cons; [apply xtoi2_digits|].
  - apply mac_octets_cons; [by apply xtoi2_digits | exact IH].
Qed.

Lemma length_mac_bytes hw : length (mac_bytes hw) = (3 * length hw - 1)%nat.
Proof.
  induction hw as [|o [|o' hw] IH]; [done..|].
  change (length (mac_bytes (o :: o' :: hw))) with (3 + length (mac_bytes (o' :: hw)))%nat.
  rewrite IH. simpl. lia.
Qed.

Lemma mac_bytes_sep o o' hw : mac_bytes (o :: o' :: hw) !! 2%nat = Some ":"%char.
Proof. done. Qed.

Lemma length_mac_octets n : ∀ l sep hw, mac_octets n l sep = Some hw → length hw = n.
Proof.
  induction n as [|n IH]; intros l sep hw; simpl; [by intros [= <-]|].
  destruct (xtoi2 l (Some sep)); [|done]. simpl.
  destruct (mac_octets n (drop 3 l) sep) eqn:E; [|done]. intros [= <-]. simpl. f_equal. eauto.
Qed.

Lemma length_mac_pairs n : ∀ l hw, mac_pairs n l = Some hw → length hw = (2 * n)%nat.
Proof.
  induction n as [|n IH]; intros l hw; cbn [mac_pairs]; [by intros [= <-]|].
  destruct (xtoi2 (take 2 l) None); [|done]. cbn [mbind option_bind].
  destruct (xtoi2 (drop 2 l) _); [|done]. cbn [mbind option_bind].
  destruct (mac_pairs n (drop 5 l)) eqn:E; [|done]. intros [= <-]. simpl.
  rewrite (IH _ _ E). lia.
Qed.

(** A parsed hardware address has 6, 8 or 20 octets. *)
Lemma ParseMAC_length s hw : ParseMAC s = Some hw → mac_length_ok (length hw) = true.
Proof.
  unfold ParseMAC. cbv zeta. case_bool_decide; [done|].
  destruct (to_bytes s !! 2%nat) as [c2|]; [|done]. destruct (to_bytes s !! 4%nat) as [c4|]; [|done].
  destruct (_ || _).
  { destruct (bool_decide _); [|done]. destruct (mac_length_ok _) eqn:Hok; [|done].
    by intros ->%length_mac_octets. }
  destruct (bool_decide _); [|done]. destruct (bool_decide _); [|done].
  destruct (mac_length_ok _) eqn:Hok; [|done].
  intros ->%length_mac_pairs. revert Hok. unfold mac_length_ok.
  rewrite !orb_true_iff, !bool_decide_eq_true.
  by intros [[-> | ->] | ->]; [left; left|left; right|right].
Qed.

(** [ParseMAC] reads back what [HardwareAddr.String] prints. *)
Lemma ParseMAC_String hw :
  mac_length_ok (length hw) = true → ParseMAC (mac_String hw) = Some hw.
Proof.
  intros Hok. unfold ParseMAC, mac_String. rewrite to_of_bytes, length_mac_bytes.
  assert (Hlen : (6 <= length hw)%nat).
  { unfold mac_length_ok in Hok. rewrite !orb_true_iff, !bool_decide_eq_true in Hok. lia. }
  destruct hw as [|o [|o' hw]]; [simpl in *; lia..|].
  rewrite mac_bytes_sep. set (h := o :: o' :: hw) in *.
  rewrite bool_decide_eq_false_2 by lia.
  destruct (mac_bytes h !! 4%nat) as [c4|] eqn:E4.
  2:{ apply lookup_ge_None in E4. rewrite length_mac_bytes in E4. lia. }
  replace (3 * length h - 1 + 1)%nat with (length h * 3)%nat by lia.
  rewrite Nat.Div0.mod_mul, Nat.div_mul by lia. simpl orb.
  rewrite bool_decide_eq_true_2, Hok by done. apply mac_octets_String.
Qed.

Lemma mac_String_plain hw :
  Forall (fun c => graphic c = true ∧ lower_plain c = true) (to_bytes (mac_String hw)).
Proof.
  unfold mac_String. rewrite to_of_bytes.
  assert (H2 : ∀ o, graphic (hex_digit (byte_val o `div` 16)) = true ∧ lower_plain (hex_digit (byte_val o `div` 16)) = true
    ∧ graphic (hex_digit (byte_val o `mod` 16)) = true ∧ lower_plain (hex_digit (byte_val o `mod` 16)) = true).
  { intros o. pose proof (hex_digits_plain _ (byte_val_range o)) as H.
    rewrite !andb_true_iff in H. tauto. }
  induction hw as [|o [|o' hw] IH]; [constructor| |].
  - destruct (H2 o) as (?&?&?&?). repeat constructor; done.
  - destruct (H2 o) as (?&?&?&?). repeat (constructor; [done|]). exact IH.
Qed.

(** A printed hardware address is already in the normal form the program keys
    its MAC tables by. *)
Lemma mac_String_normal hw : ToLower (TrimSpace (mac_String hw)) = mac_String hw.
Proof.
  pose proof (mac_String_plain hw) as H.
  rewrite TrimSpace_id, ToLower_id; [done|..].
  - eapply Forall_impl; [exact H|]. by intros ? [_ ?].
  - apply graphic_trimmed. eapply Forall_impl; [exact H|]. by intros ? [? _].
Qed.

(** Each printed octet is digits only and reads back. *)
Lemma Itoa_octet (n : Z) : 0 <= n < 256 →
  parse_octet (to_bytes (Itoa n)) = Some n ∧ "."%char ∉ to_bytes (Itoa n).
Proof.
  intros Hn.
  assert (Hall : all_bytes (fun n => bool_decide
    (parse_octet (to_bytes (Itoa n)) = Some n ∧ "."%char ∉ to_bytes (Itoa n))) = true)
    by (vm_compute; reflexivity).
  exact (bool_decide_unpack _ (Is_true_eq_left _ (all_bytes_spec _ Hall n Hn))).
Qed.

Lemma split_bytes_single sep l : sep ∉ l → split_bytes sep l = [l].
Proof.
  induction l as [|c l IH]; intros H; [done|]. simpl.
  rewrite bool_decide_eq_false_2 by set_solver. rewrite IH by set_solver. done.
Qed.

Lemma split_bytes_app sep l k : sep ∉ l → split_bytes sep (l ++ sep :: k) = l :: split_bytes sep k.
Proof.
  induction l as [|c l IH]; intros H; simpl.
  - by rewrite bool_decide_eq_true_2.
  - rewrite bool_decide_eq_false_2 by set_solver. rewrite IH by set_solver. done.
Qed.

Lemma octet_range n i : 0 <= octet n i < 256.
Proof. unfold octet. apply Z.mod_pos_bound. lia. Qed.

Lemma octets_value (n : Z) : 0 <= n < 2 ^ 32 →
  octet n 3 * 2 ^ 24 + octet n 2 * 2 ^ 16 + octet n 1 * 2 ^ 8 + octet n 0 = n.
Proof.
  unfold octet. intros Hn. change (8 * 3) with 24. change (8 * 2) with 16.
  change (8 * 1) with 8. change (8 * 0) with 0. change (2 ^ 0) with 1. rewrite Z.div_1_r.
  change (2 ^ 24) with (256 * (256 * 256)). change (2 ^ 16) with (256 * 256). change (2 ^ 8) with 256.
  rewrite <- !Z.div_div by lia.
  assert (n / 256 / 256 / 256 < 256) by (repeat apply Z.div_lt_upper_bound; lia).
  assert (0 <= n / 256 / 256 / 256) by (repeat apply Z.div_pos; lia).
  rewrite (Z.mod_small (n / 256 / 256 / 256)) by lia.
  pose proof (Z.div_mod (n / 256 / 256) 256 ltac:(lia)).
  pose proof (Z.div_mod (n / 256) 256 ltac:(lia)).
  pose proof (Z.div_mod n 256 ltac:(lia)). lia.
Qed.

Lemma to_bytes_ip4 n :
  to_bytes (ip4_String n) =
  to_bytes (Itoa (octet n 3)) ++ "."%char :: to_bytes (Itoa (octet n 2))
  ++ "."%char :: to_bytes (Itoa (octet n 1)) ++ "."%char :: to_bytes (Itoa (octet n 0)).
Proof. unfold ip4_String. by rewrite !to_bytes_app. Qed.

Lemma parse_ipv4_String n :
  parse_ipv4 (to_bytes (ip4_String n)) =
  Some [byte_of (octet n 3); byte_of (octet n 2); byte_of (octet n 1); byte_of (octet n 0)].
Proof.
  rewrite to_bytes_ip4. unfold parse_ipv4.
  rewrite !split_bytes_app, split_bytes_single by apply Itoa_octet, octet_range.
  repeat (rewrite (proj1 (Itoa_octet _ (octet_range _ _))); simpl). done.
Qed.

(** The dotted grammar is chosen by the first separator. *)
Lemma parse_addr_digits l whole k :
  Forall (fun c => is_digit c = true) l →
  parse_addr (l ++ "."%char :: k) whole = (v4 ← parse_ipv4 whole; Some (v4_in_v6_prefix ++ v4)).
Proof.
  induction 1 as [|c l Hc _ IH]; [done|]. simpl.
  rewrite !bool_decide_eq_false_2; [done|..]; intros ->; by vm_compute in Hc.
Qed.

Lemma Itoa_digits (n : Z) : 0 <= n < 256 → Forall (fun c => is_digit c = true) (to_bytes (Itoa n)).
Proof.
  intros Hn. apply Forall_forall. intros c Hc.
  assert (Hall : all_bytes (fun n => forallb is_digit (to_bytes (Itoa n))) = true)
    by (vm_compute; reflexivity).
  pose proof (all_bytes_spec _ Hall n Hn) as H. cbv beta in H.
  rewrite forallb_forall in H. by apply H, list_elem_of_In.
Qed.

(** A dotted address reads back as the address: what the lease store persists
    is what the pool restores. *)
Lemma parse4_ip4_String (n : Z) : 0 <= n < 2 ^ 32 → parse4 (ip4_String n) = Some n.
Proof.
  intros Hn. unfold parse4, ParseIP.
  assert (Hs : parse_addr (to_bytes (ip4_String n)) (to_bytes (ip4_String n)) =
    (v4 ← parse_ipv4 (to_bytes (ip4_String n)); Some (v4_in_v6_prefix ++ v4))).
  { rewrite to_bytes_ip4 at 1. apply parse_addr_digits, Itoa_digits, octet_range. }
  rewrite Hs, parse_ipv4_String. simpl. unfold To4, be32. simpl.
  rewrite !byte_val_of, !(Z.mod_small (octet _ _)) by apply octet_range.
  f_equal. by apply octets_value.
Qed.

Lemma be32_range l n : be32 l = Some n → 0 <= n < 2 ^ 32.
Proof.
  destruct l as [|a [|b [|c [|d [|]]]]]; simpl; try discriminate. intros [= <-].
  pose proof (byte_val_range a). pose proof (byte_val_range b).
  pose proof (byte_val_range c). pose proof (byte_val_range d). lia.
Qed.

Lemma parse4_range (s : string) n : parse4 s = Some n → 0 <= n < 2 ^ 32.
Proof.
  unfold parse4, To4. destruct (ParseIP s); simpl; [|done]. intros; case_tests; eauto using be32_range.
Qed.

(** ** Letter case

    [ParseMAC] does not depend on the letter case of its input, and what it accepts
    has no surrounding white space; so the normal form a MAC table is keyed by
    parses to the address the original string does. *)

Definition mac_char (c : ascii) : bool :=
  bool_decide (is_Some (hex_val c)) || bool_decide (c = ":"%char) || bool_decide (c = "-"%char) || bool_decide (c = "."%char).

Lemma ascii_all (P : ascii → bool) : forallb P (byte_of <$> seqZ 0 256) = true → ∀ c, P c = true.
Proof.
  intros H c. rewrite forallb_forall in H. apply H. apply list_elem_of_In, list_elem_of_fmap.
  exists (byte_val c). split; [by rewrite byte_of_val|]. apply elem_of_seqZ. pose proof (byte_val_range c). lia.
Qed.

Lemma lower_ascii_hex c : hex_val (lower_ascii c) = hex_val c.
Proof.
  assert (H : bool_decide (hex_val (lower_ascii c) = hex_val c) = true); [|by apply bool_decide_eq_true in H].
  revert c. apply (ascii_all (fun c => bool_decide (hex_val (lower_ascii c) = hex_val c))). vm_compute. reflexivity.
Qed.

Lemma lower_ascii_sep sep c : sep = ":"%char ∨ sep = "-"%char ∨ sep = "."%char →
  bool_decide (lower_ascii c = sep) = bool_decide (c = sep).
Proof.
  intros Hs. apply Bool.eqb_prop. revert c.
  apply (ascii_all (fun c => Bool.eqb (bool_decide (lower_ascii c = sep)) (bool_decide (c = sep)))).
  destruct Hs as [->|[->| ->]]; vm_compute; reflexivity.
Qed.

Lemma mac_char_plain c : mac_char c = true → graphic c = true ∧ byte_val c < 128 ∧ lower_plain (lower_ascii c) = true
  ∧ graphic (lower_ascii c) = true.
Proof.
  intros H.
  assert (Hall : negb (mac_char c) || (graphic c && (byte_val c <? 128) && lower_plain (lower_ascii c) && graphic (lower_ascii c)) = true).
  { clear H. revert c. apply (ascii_all (fun c => negb (mac_char c) || (graphic c && (byte_val c <? 128) && lower_plain (lower_ascii c) && graphic (lower_ascii c)))).
    vm_compute. reflexivity. }
  rewrite H in Hall. simpl in Hall. rewrite !andb_true_iff in Hall. destruct Hall as [[[? ?] ?] ?]. split_and!; try done. lia.
Qed.

Lemma xtoi2_lower l e : e = None ∨ e = Some ":"%char ∨ e = Some "-"%char ∨ e = Some "."%char →
  xtoi2 (lower_ascii <$> l) e = xtoi2 l e.
Proof.
  intros He. destruct l as [|a [|b [|c l]]]; [done..| |]; cbn [fmap list_fmap xtoi2]; rewrite !lower_ascii_hex; [done|].
  destruct (hex_val a), (hex_val b); try done.
  assert (bool_decide (Some (lower_ascii c) = e) = bool_decide (Some c = e)) as ->; [|done].
  destruct e as [sep|]; [|by rewrite !bool_decide_eq_false_2 by done].
  assert (Hx : ∀ x : ascii, bool_decide (Some x = Some sep) = bool_decide (x = sep))
    by (intros; apply bool_decide_ext; naive_solver).
  rewrite !Hx.
  apply lower_ascii_sep. naive_solver.
Qed.

Lemma mac_octets_lower n sep : sep = ":"%char ∨ sep = "-"%char →
  ∀ l, mac_octets n (lower_ascii <$> l) sep = mac_octets n l sep.
Proof.
  intros Hs. induction n as [|n IH]; intros l; [done|]. cbn [mac_octets].
  rewrite xtoi2_lower by naive_solver. by rewrite <- fmap_drop, IH.
Qed.

Lemma mac_pairs_lower n : ∀ l, mac_pairs n (lower_ascii <$> l) = mac_pairs n l.
Proof.
  induction n as [|n IH]; intros l; [done|]. cbn [mac_pairs].
  rewrite <- fmap_take, <- !fmap_drop, !xtoi2_lower by naive_solver. by rewrite IH.
Qed.

Lemma ParseMAC_lower_map l : ParseMAC (of_bytes (lower_ascii <$> l)) = ParseMAC (of_bytes l).
Proof.
  unfold ParseMAC. rewrite !to_of_bytes, length_fmap, !list_lookup_fmap. cbv zeta.
  destruct (bool_decide _); [done|]. destruct (l !! 2%nat) as [c2|]; [|done]. destruct (l !! 4%nat) as [c4|]; [|done].
  cbn [fmap option_fmap option_map]. rewrite !lower_ascii_sep by naive_solver.
  destruct (bool_decide (c2 = ":"%char) || bool_decide (c2 = "-"%char)) eqn:Ec.
  - rewrite orb_true_iff, !bool_decide_eq_true in Ec.
    assert (lower_ascii c2 = c2) as -> by (by destruct Ec as [->| ->]).
    by rewrite mac_octets_lower.
  - by rewrite mac_pairs_lower.
Qed.

Lemma hex_mac_char c : is_Some (hex_val c) → mac_char c = true.
Proof. intros H. unfold mac_char. by rewrite bool_decide_eq_true_2. Qed.

Lemma xtoi2_chars l e o : xtoi2 l e = Some o →
  ∃ a b rest, l = a :: b :: rest ∧ mac_char a = true ∧ mac_char b = true ∧ (rest = [] ∨ ∃ c r, rest = c :: r ∧ e = Some c).
Proof.
  destruct l as [|a [|b rest]]; [done..|]. cbn [xtoi2].
  destruct (hex_val a) eqn:Ea; [|done]. destruct (hex_val b) eqn:Eb; [|done].
  intros H. exists a, b, rest. split_and!; [done|by apply hex_mac_char; rewrite Ea|by apply hex_mac_char; rewrite Eb|].
  destruct rest as [|c rest]; [by left|]. case_bool_decide as E; [|done]. right. eauto.
Qed.

Lemma mac_octets_chars n sep : mac_char sep = true → ∀ l hw, mac_octets n l sep = Some hw →
  (n ≠ 0 → length l = 3 * n - 1)%nat → (n = 0 → l = [])%nat → Forall (fun c => mac_char c = true) l.
Proof.
  intros Hsep. induction n as [|n IH]; intros l hw Hm Hl H0; [by rewrite H0|]. cbn [mac_octets] in Hm.
  destruct (xtoi2 l (Some sep)) as [o|] eqn:Ex; [|done]. cbn [mbind option_bind] in Hm.
  destruct (mac_octets n (drop 3 l) sep) as [os|] eqn:Em; [|done].
  destruct (xtoi2_chars _ _ _ Ex) as (a & b & rest & -> & Ha & Hb & Hrest).
  specialize (Hl ltac:(lia)). cbn [length] in Hl. constructor; [done|]. constructor; [done|].
  destruct Hrest as [->|(c & r & -> & [= ->])]; [constructor|]. constructor; [done|].
  change (drop 3 (a :: b :: c :: r)) with r in Em. cbn [length] in Hl. apply (IH _ _ Em); [lia|]. intros ->. simpl in Hl. lia.
Qed.

Lemma mac_pairs_chars n : ∀ l hw, mac_pairs n l = Some hw →
  (n ≠ 0 → length l = 5 * n - 1)%nat → (n = 0 → l = [])%nat → Forall (fun c => mac_char c = true) l.
Proof.
  induction n as [|n IH]; intros l hw Hm Hl H0; [by rewrite H0|]. cbn [mac_pairs] in Hm.
  destruct (xtoi2 (take 2 l) None) as [o1|] eqn:E1; [|done]. cbn [mbind option_bind] in Hm.
  destruct (xtoi2 (drop 2 l) (Some "."%char)) as [o2|] eqn:E2; [|done]. cbn [mbind option_bind] in Hm.
  destruct (mac_pairs n (drop 5 l)) as [os|] eqn:Em; [|done].
  specialize (Hl ltac:(lia)).
  destruct (xtoi2_chars _ _ _ E1) as (a & b & r1 & Ht & Ha & Hb & _).
  destruct (xtoi2_chars _ _ _ E2) as (c & d & rest & Hd & Hc & Hdd & Hrest).
  destruct l as [|a' [|b' l]]; [done..|]. change (drop 2 (a' :: b' :: l)) with l in Hd. injection Ht as -> -> _. subst l.
  cbn [length] in Hl. do 4 (constructor; [done|]).
  destruct Hrest as [->|(e & r & -> & [= <-])]; [constructor|]. constructor; [done|].
  cbn [length] in Hl. change (drop 5 (a :: b :: c :: d :: "."%char :: r)) with r in Em.
  apply (IH _ _ Em); [lia|]. intros ->. simpl in Hl. lia.
Qed.

Lemma ParseMAC_chars s hw : ParseMAC s = Some hw → Forall (fun c => mac_char c = true) (to_bytes s).
Proof.
  unfold ParseMAC. cbv zeta. set (l := to_bytes s). destruct (bool_decide (length l < 14)%nat); [done|].
  destruct (l !! 2%nat) as [c2|]; [|done]. destruct (l !! 4%nat) as [c4|]; [|done].
  destruct (bool_decide (c2 = ":"%char) || _) eqn:Ec.
  - destruct (bool_decide ((length l + 1) `mod` 3 = 0)%nat) eqn:Hmod; [|done]. apply bool_decide_eq_true in Hmod.
    destruct (mac_length_ok _); [|done]. intros Hm.
    apply orb_true_iff in Ec. rewrite !bool_decide_eq_true in Ec.
    pose proof (Nat.div_mod_eq (length l + 1) 3) as Hd.
    eapply mac_octets_chars; [|exact Hm|lia|intros H0; lia]. by destruct Ec as [->| ->].
  - destruct (bool_decide (c4 = "."%char)); [|done]. 
    destruct (bool_decide ((length l + 1) `mod` 5 = 0)%nat) eqn:Hmod; [|done]. apply bool_decide_eq_true in Hmod.
    destruct (mac_length_ok _) eqn:Hok; [|done]. intros Hm.
    pose proof (Nat.div_mod_eq (length l + 1) 5) as Hd.
    assert (Hq : (2 * (length l + 1) / 5 = 2 * ((length l + 1) / 5))%nat).
    { rewrite Hd, Hmod, Nat.add_0_r at 1. replace (2 * (5 * ((length l + 1) / 5)))%nat with (2 * ((length l + 1) / 5) * 5)%nat by lia.
      by rewrite Nat.div_mul. }
    rewrite Hq in Hm. replace (2 * ((length l + 1) / 5) / 2)%nat with ((length l + 1) / 5)%nat in Hm
      by (by rewrite (Nat.mul_comm 2), Nat.div_mul).
    eapply mac_pairs_chars; [exact Hm|lia|intros H0; lia].
Qed.

(** Lower-casing ASCII bytes. *)
Lemma lower_bytes_ascii l : Forall (fun c => byte_val c < 128) l → lower_bytes l = lower_ascii <$> l.
Proof.
  induction 1 as [|a l Ha Hl IH]; [done|]. rewrite fmap_cons, <- IH. cbn [lower_bytes].
  unfold rune_0130, rune_212A.
  destruct l as [|b [|c l]]; [done| |];
    repeat match goal with |- context [if ?t then _ else _] => replace t with false by lia end; done.
Qed.

(** The normal form of an accepted MAC: parsing ignores it, and it is a fixed point. *)
Lemma ParseMAC_normal s hw : ParseMAC s = Some hw →
  ParseMAC (ToLower (TrimSpace s)) = Some hw ∧ TrimSpace s = s
  ∧ TrimSpace (ToLower (TrimSpace s)) = ToLower (TrimSpace s)
  ∧ ToLower (TrimSpace (ToLower (TrimSpace s))) = ToLower (TrimSpace s).
Proof.
  intros Hp. pose proof (ParseMAC_chars _ _ Hp) as Hc.
  assert (Ht : TrimSpace s = s).
  { apply TrimSpace_id, graphic_trimmed. eapply Forall_impl; [exact Hc|]. intros c H. apply mac_char_plain, H. }
  assert (Hlow : ToLower s = of_bytes (lower_ascii <$> to_bytes s)).
  { unfold ToLower. rewrite lower_bytes_ascii; [done|]. eapply Forall_impl; [exact Hc|]. intros c H. apply mac_char_plain, H. }
  assert (Ht' : TrimSpace (ToLower s) = ToLower s).
  { apply TrimSpace_id, graphic_trimmed. rewrite Hlow, to_of_bytes. apply Forall_fmap.
    eapply Forall_impl; [exact Hc|]. intros c H. apply mac_char_plain, H. }
  rewrite Ht, Ht'. split_and!; [|done..|].
  - rewrite Hlow, ParseMAC_lower_map, of_to_bytes. done.
  - apply ToLower_id. rewrite Hlow, to_of_bytes. apply Forall_fmap.
    eapply Forall_impl; [exact Hc|]. intros c H. apply mac_char_plain, H.
Qed.
