(* ===== verification/GoPath.v ===== *)
(** * Packages path, strconv and more of strings and net

    Slash-separated paths ([path.Clean], [fs.ValidPath]), [strconv.Atoi],
    [net.SplitHostPort], and the string functions that cut, trim and replace. *)
From S2P Require Import Prelude GoStrings GoNet.

(** ** Paths *)

(** [path.Clean]: the elements of the path are pushed on a stack; empty and [.]
    elements are dropped, [..] removes the element before it, stays at the front of
    a relative path and disappears at the front of a rooted one. *)
Definition split_path (l : bytes) : list bytes := split_bytes "/"%char l.

Definition dot : bytes := to_bytes ".".
Definition dotdot : bytes := to_bytes "..".

Definition clean_step (rooted : bool) (stack : list bytes) (e : bytes) : list bytes :=
  if (e ==? []) || (e ==? dot) then stack
  else if e ==? dotdot then
    match stack with
    | top :: rest => if top ==? dotdot then e :: stack else rest
    | [] => if rooted then [] else [e]
    end
  else e :: stack.

Fixpoint join_path (es : list bytes) : bytes :=
  match es with
  | [] => []
  | [e] => e
  | e :: es => e ++ "/"%char :: join_path es
  end.

Definition path_Clean (s : string) : string :=
  let l := to_bytes s in
  let rooted := match l with c :: _ => c ==? "/"%char | [] => false end in
  let body := join_path (reverse (fold_left (clean_step rooted) (split_path l) [])) in
  let out := if rooted then "/"%char :: body else body in
  if out ==? [] then "." else of_bytes out.

(** [utf8.ValidString]: the table of well-formed byte sequences. *)
Definition cont (c : ascii) : bool := (0x80 <=? byte_val c) && (byte_val c <=? 0xBF).
Definition between (lo hi : Z) (c : ascii) : bool := (lo <=? byte_val c) && (byte_val c <=? hi).

Fixpoint utf8_valid (l : bytes) : bool :=
  match l with
  | [] => true
  | a :: l1 =>
      if byte_val a <? 0x80 then utf8_valid l1 else
      match l1 with
      | [] => false
      | b :: l2 =>
          if between 0xC2 0xDF a then cont b && utf8_valid l2 else
          match l2 with
          | [] => false
          | c :: l3 =>
              let three := (between 0xE0 0xE0 a && between 0xA0 0xBF b) || (between 0xE1 0xEC a && cont b)
                           || (between 0xED 0xED a && between 0x80 0x9F b) || (between 0xEE 0xEF a && cont b) in
              if between 0xE0 0xEF a then three && cont c && utf8_valid l3 else
              match l3 with
              | [] => false
              | d :: l4 =>
                  let four := (between 0xF0 0xF0 a && between 0x90 0xBF b) || (between 0xF1 0xF3 a && cont b)
                              || (between 0xF4 0xF4 a && between 0x80 0x8F b) in
                  four && cont c && cont d && utf8_valid l4
              end
          end
      end
  end.

(** [fs.ValidPath]. *)
Definition ValidPath (s : string) : bool :=
  utf8_valid (to_bytes s) &&
  ((s ==? ".") || forallb (fun e => (e !=? []) && (e !=? dot) && (e !=? dotdot)) (split_path (to_bytes s))).

(** [filepath.Join] of two non-empty paths. *)
Definition filepath_Join (root rel : string) : string := path_Clean (root +:+ "/" +:+ rel).

(** ** Numbers *)

(** [strconv.Atoi]: an optional sign and decimal digits, within [int64]. *)
Fixpoint atoi_digits (acc : Z) (l : bytes) : option Z :=
  match l with
  | [] => Some acc
  | c :: l => if is_digit c then atoi_digits (acc * 10 + (byte_val c - 48)) l else None
  end.
Definition Atoi (s : string) : option Z :=
  let '(neg, digits) := match to_bytes s with
                        | c :: l => if c ==? "-"%char then (true, l) else if c ==? "+"%char then (false, l) else (false, c :: l)
                        | [] => (false, [])
                        end in
  match digits with
  | [] => None
  | _ => n ← atoi_digits 0 digits;
         let v := if neg : bool then - n else n in
         if (min_int64 <=? v) && (v <=? max_int64) then Some v else None
  end.

(** What [Itoa] writes, [Atoi] reads. *)
Lemma pretty_N_char_val (x : N) : (x < 10)%N → is_digit (pretty_N_char x) = true ∧ byte_val (pretty_N_char x) - 48 = Z.of_N x.
Proof.
  intros H. assert (x = 0 ∨ x = 1 ∨ x = 2 ∨ x = 3 ∨ x = 4 ∨ x = 5 ∨ x = 6 ∨ x = 7 ∨ x = 8 ∨ x = 9)%N by lia.
  naive_solver.
Qed.

Lemma pretty_N_go_digits (x : N) : ∀ s, Forall (fun c => is_digit c = true) (to_bytes s) →
  Forall (fun c => is_digit c = true) (to_bytes (pretty_N_go x s))
  ∧ atoi_digits 0 (to_bytes (pretty_N_go x s)) = atoi_digits (Z.of_N x) (to_bytes s)
  ∧ (s ≠ "" ∨ (0 < x)%N → pretty_N_go x s ≠ "").
Proof.
  induction (N.lt_wf_0 x) as [x _ IH]. intros s Hs. destruct (decide (x = 0)%N) as [->|Hx].
  { rewrite pretty_N_go_0. split_and!; try done. by intros [?|?%N.lt_irrefl]. }
  rewrite pretty_N_go_step by lia. assert (Hm : (x `mod` 10 < 10)%N) by (by apply N.mod_lt).
  destruct (pretty_N_char_val _ Hm) as [Hd Hv]. destruct (IH (x `div` 10)%N ltac:(apply N.div_lt; lia) (String (pretty_N_char (x `mod` 10)) s))
    as (I1 & I2 & I3); [by constructor|]. split_and!; [done| |intros _; apply I3; by left].
  rewrite I2. change (to_bytes (String ?c s)) with (c :: to_bytes s). cbn [atoi_digits]. rewrite Hd. f_equal. rewrite Hv.
  pose proof (N.div_mod x 10 ltac:(lia)). lia.
Qed.

Lemma Itoa_nonneg (n : Z) : 0 <= n →
  Forall (fun c => is_digit c = true) (to_bytes (Itoa n)) ∧ atoi_digits 0 (to_bytes (Itoa n)) = Some n ∧ Itoa n ≠ "".
Proof.
  intros Hn. destruct n as [|p|p]; [split_and!; [by repeat constructor|done|done]| |lia].
  destruct (pretty_N_go_digits (Npos p) "") as (H1 & H2 & H3); [done|].
  change (Itoa (Z.pos p)) with (pretty_N_go (Npos p) ""). split_and!; [done|done|]. apply H3. right. lia.
Qed.

Lemma Atoi_Itoa (n : Z) : 0 <= n <= max_int64 → Atoi (Itoa n) = Some n.
Proof.
  intros [H0 H1]. destruct (Itoa_nonneg n H0) as (Hd & Ha & Hne). unfold Atoi.
  destruct (to_bytes (Itoa n)) as [|c l] eqn:E; [by apply to_bytes_nil_inv in E|]. inversion Hd as [|? ? Hc _].
  rewrite !bool_decide_eq_false_2 by (intros ->; discriminate Hc). rewrite Ha. cbn [mbind option_bind].
  unfold min_int64, max_int64 in *. by replace (_ && _) with true by lia.
Qed.

(** ** Cutting and trimming *)

(** [strings.TrimPrefix] and [strings.TrimSuffix]. *)
Definition TrimPrefix (s p : string) : string :=
  if HasPrefix s p then of_bytes (drop (String.length p) (to_bytes s)) else s.
Definition TrimSuffix (s p : string) : string :=
  if HasSuffix s p then of_bytes (take (String.length s - String.length p) (to_bytes s)) else s.

Lemma HasPrefix_app (p s : string) : HasPrefix (p +:+ s) p = true.
Proof. unfold HasPrefix. induction p as [|c p IH]; simpl; [by destruct s|]. rewrite IH. by destruct (ascii_dec c c). Qed.

Lemma HasSuffix_app (s p : string) : HasSuffix (s +:+ p) p = true.
Proof.
  unfold HasSuffix. apply bool_decide_eq_true. rewrite to_bytes_app, length_app, Nat.add_sub, drop_app_length. done.
Qed.

Lemma TrimPrefix_app (p s : string) : TrimPrefix (p +:+ s) p = s.
Proof.
  unfold TrimPrefix. rewrite HasPrefix_app, to_bytes_app, <- length_to_bytes, drop_app_length. apply of_to_bytes.
Qed.

(** [strings.TrimLeft], [strings.TrimRight] and [strings.Trim] for a set of ASCII
    characters. *)
Fixpoint drop_while (f : ascii → bool) (l : bytes) : bytes :=
  match l with c :: l' => if f c then drop_while f l' else l | [] => [] end.
Definition in_set (cutset : string) (c : ascii) : bool := existsb (fun d => c ==? d) (to_bytes cutset).
Definition TrimLeft (s cutset : string) : string := of_bytes (drop_while (in_set cutset) (to_bytes s)).
Definition TrimRight (s cutset : string) : string :=
  of_bytes (reverse (drop_while (in_set cutset) (reverse (to_bytes s)))).
Definition Trim (s cutset : string) : string := TrimRight (TrimLeft s cutset) cutset.

(** [strings.Split] at a one-byte separator, and [strings.Join]. *)
Definition Split (s : string) (sep : ascii) : list string := of_bytes <$> split_bytes sep (to_bytes s).
Fixpoint Join (es : list string) (sep : string) : string :=
  match es with
  | [] => ""
  | [e] => e
  | e :: es => e +:+ sep +:+ Join es sep
  end.

(** [strings.ReplaceAll] of one byte by a string. *)
Definition ReplaceByte (s : string) (old : ascii) (new : string) : string :=
  of_bytes (to_bytes s ≫= fun c => if c ==? old then to_bytes new else [c]).

(** ** Hosts and ports *)

Fixpoint drop_slashes (l : bytes) : bytes :=
  match l with c :: l' => if c ==? "/"%char then drop_slashes l' else l | [] => [] end.

(** [strings.TrimRight(s, "/")]. *)
Definition TrimRight_slash (s : string) : string := of_bytes (reverse (drop_slashes (reverse (to_bytes s)))).

(** Position of the first and of the last byte equal to [c]. *)
Fixpoint index_byte (c : ascii) (l : bytes) : option nat :=
  match l with
  | [] => None
  | x :: l => if x ==? c then Some 0%nat else S <$> index_byte c l
  end.
Definition last_index_byte (c : ascii) (l : bytes) : option nat :=
  (fun i => length l - 1 - i)%nat <$> index_byte c (reverse l).

(** [net.SplitHostPort], with the texts of its errors. *)
Definition addr_error (addr why : string) : error :=
  ErrNew (if addr ==? "" then why else "address " +:+ addr +:+ ": " +:+ why).

Definition addr_fail {A} (addr why : string) : result A := Err (addr_error addr why).

(** The host before the last colon at [i], and from where on brackets are refused. *)
Definition host_part (s : string) (l : bytes) (i : nat) : result (bytes * nat * nat) :=
  match l with
  | [] => addr_fail s "missing port in address"
  | c :: _ =>
      if c ==? "["%char then
        match index_byte "]"%char l with
        | None => addr_fail s "missing ']' in address"
        | Some e =>
            if bool_decide (S e = length l) then addr_fail s "missing port in address"
            else if bool_decide (S e = i) then Ok (take (e - 1) (drop 1 l), 1%nat, S e)
            else if (l !! S e) ==? Some ":"%char then addr_fail s "too many colons in address"
            else addr_fail s "missing port in address"
        end
      else if index_byte ":"%char (take i l) ==? None then Ok (take i l, 0%nat, 0%nat)
      else addr_fail s "too many colons in address"
  end.

Definition SplitHostPort (s : string) : result (string * string) :=
  let l := to_bytes s in
  match last_index_byte ":"%char l with
  | None => addr_fail s "missing port in address"
  | Some i =>
      '(host, j, k) ← host_part s l i;
      if index_byte "["%char (drop j l) !=? None then addr_fail s "unexpected '[' in address"
      else if index_byte "]"%char (drop k l) !=? None then addr_fail s "unexpected ']' in address"
      else Ok (of_bytes host, of_bytes (drop (S i) l))
  end.

(** [net.JoinHostPort]. *)
Definition JoinHostPort (host port : string) : string :=
  if index_byte ":"%char (to_bytes host) ==? None then host +:+ ":" +:+ port
  else "[" +:+ host +:+ "]:" +:+ port.

(** ** Lemmas on paths *)

(** An element that names an entry of its directory. *)
Definition proper (e : bytes) : Prop := e ≠ [] ∧ e ≠ dot ∧ e ≠ dotdot.

Lemma split_bytes_ne sep l : split_bytes sep l ≠ [].
Proof. destruct l as [|c l]; [done|]. simpl. case_bool_decide; [done|]. by destruct (split_bytes sep l). Qed.

Lemma split_bytes_app_sep sep a b : split_bytes sep (a ++ sep :: b) = split_bytes sep a ++ split_bytes sep b.
Proof.
  induction a as [|c a IH]; simpl; [by rewrite bool_decide_eq_true_2|].
  case_bool_decide; [by rewrite IH|]. rewrite IH. pose proof (split_bytes_ne sep a) as Hne.
  by destruct (split_bytes sep a).
Qed.

Lemma join_split l : join_path (split_path l) = l.
Proof.
  unfold split_path. induction l as [|c l IH]; [done|]. simpl. pose proof (split_bytes_ne "/"%char l) as Hne.
  case_bool_decide as Hc.
  - subst c. destruct (split_bytes "/"%char l) as [|e es]; [done|].
    change (join_path ([] :: e :: es)) with ("/"%char :: join_path (e :: es)). by rewrite IH.
  - destruct (split_bytes "/"%char l) as [|e [|e' es]]; [done|simpl in *; congruence|].
    change (join_path ((c :: e) :: e' :: es)) with (c :: (e ++ "/"%char :: join_path (e' :: es))).
    change (join_path (e :: e' :: es)) with (e ++ "/"%char :: join_path (e' :: es)) in IH. by rewrite IH.
Qed.

Lemma clean_proper rooted es : Forall proper es → ∀ stack, fold_left (clean_step rooted) es stack = reverse es ++ stack.
Proof.
  induction 1 as [|e es (H1 & H2 & H3) _ IH]; intros stack; [done|]. cbn [fold_left].
  unfold clean_step at 2. rewrite !bool_decide_eq_false_2 by done. cbn [orb]. rewrite IH, reverse_cons, <- app_assoc. done.
Qed.

