(* ===== verification/GoCrypto.v ===== *)
(** * encoding/binary, crypto/sha256 and crypto/hmac

    Big-endian integers of [n] bytes, SHA-256 over byte strings with 32-bit
    words as integers modulo 2^32, and HMAC-SHA256. *)
From S2P Require Import Prelude GoStrings.

(** ** Big-endian integers *)

(** The [n] low bytes of [v], most significant first. *)
Fixpoint be_encode (n : nat) (v : Z) : bytes :=
  match n with
  | O => []
  | S n => byte_of (v `div` 2 ^ (8 * Z.of_nat n)) :: be_encode n v
  end.

Fixpoint be_decode (l : bytes) : Z :=
  match l with
  | [] => 0
  | c :: l => byte_val c * 2 ^ (8 * Z.of_nat (length l)) + be_decode l
  end.

Lemma length_be_encode n v : length (be_encode n v) = n.
Proof. induction n; simpl; auto. Qed.

Lemma be_decode_encode n v : be_decode (be_encode n v) = v `mod` 2 ^ (8 * Z.of_nat n).
Proof.
  induction n as [|n IH].
  - change (8 * Z.of_nat 0) with 0. rewrite Z.mod_1_r. done.
  - cbn [be_encode be_decode]. rewrite length_be_encode, IH, byte_val_of.
    replace (8 * Z.of_nat (S n)) with (8 * Z.of_nat n + 8) by lia.
    rewrite Z.pow_add_r by lia. change (2 ^ 8) with 256.
    set (k := 2 ^ (8 * Z.of_nat n)). assert (0 < k) by (apply Z.pow_pos_nonneg; lia).
    rewrite (Z.mul_comm (_ `mod` 256)), Z.add_comm, Z.rem_mul_r by lia. done.
Qed.

(** ** SHA-256 *)

Section sha256.
Definition w32 (x : Z) : Z := x `mod` 2 ^ 32.
Definition add32 (x y : Z) : Z := w32 (x + y).
Definition not32 (x : Z) : Z := Z.lxor x (2 ^ 32 - 1).
Definition shr (x n : Z) : Z := Z.shiftr x n.
Definition rotr (x n : Z) : Z := Z.lor (Z.shiftr x n) (w32 (Z.shiftl x (32 - n))).

Definition Ch (x y z : Z) : Z := Z.lxor (Z.land x y) (Z.land (not32 x) z).
Definition Maj (x y z : Z) : Z := Z.lxor (Z.lxor (Z.land x y) (Z.land x z)) (Z.land y z).
Definition Sigma0 (x : Z) : Z := Z.lxor (Z.lxor (rotr x 2) (rotr x 13)) (rotr x 22).
Definition Sigma1 (x : Z) : Z := Z.lxor (Z.lxor (rotr x 6) (rotr x 11)) (rotr x 25).
Definition sigma0 (x : Z) : Z := Z.lxor (Z.lxor (rotr x 7) (rotr x 18)) (shr x 3).
Definition sigma1 (x : Z) : Z := Z.lxor (Z.lxor (rotr x 17) (rotr x 19)) (shr x 10).

(** The constants as FIPS 180-4 defines them: the first 32 bits of the fractional
    parts of the cube roots of the first 64 primes, and of the square roots of the
    first eight. *)
Definition is_prime (n : nat) : bool := forallb (fun d => negb (Nat.modulo n d =? 0)%nat) (seq 2 (n - 2)).
Definition primes : list Z := Z.of_nat <$> List.filter is_prime (seq 2 310).

(** The integer cube root, bit by bit from the top: the largest [r] below
    [2 ^ n] with [r ^ 3 <= x]. *)
Fixpoint cube_root (n : nat) (r x : Z) : Z :=
  match n with
  | O => r
  | S n => let r' := r + 2 ^ Z.of_nat n in cube_root n (if r' ^ 3 <=? x then r' else r) x
  end.

Definition K256 : list Z :=
  Eval vm_compute in (fun p => w32 (cube_root 40 0 (p * 2 ^ 96))) <$> primes.

Definition state256 : Type := list Z.
Definition H256 : state256 :=
  Eval vm_compute in (fun p => w32 (Z.sqrt (p * 2 ^ 64))) <$> take 8 primes.

(** The message schedule, kept as a window of the last sixteen words, newest
    last: produce the next word and slide. *)
Definition next_word (w : list Z) : Z :=
  let at_ i := nth i w 0 in
  add32 (add32 (sigma1 (at_ 14%nat)) (at_ 9%nat)) (add32 (sigma0 (at_ 1%nat)) (at_ 0%nat)).

Definition round256 (s : state256) (k w : Z) : state256 :=
  match s with
  | [a; b; c; d; e; f; g; h] =>
      let t1 := add32 (add32 h (Sigma1 e)) (add32 (Ch e f g) (add32 k w)) in
      let t2 := add32 (Sigma0 a) (Maj a b c) in
      [add32 t1 t2; a; b; c; add32 d t1; e; f; g]
  | _ => s
  end.

Fixpoint rounds256 (ks : list Z) (w : list Z) (s : state256) : state256 :=
  match ks with
  | [] => s
  | k :: ks =>
      let s' := round256 s k (nth 0 w 0) in
      rounds256 ks (drop 1 w ++ [next_word w]) s'
  end.

Definition block_words (l : bytes) : list Z :=
  (fun i => be_decode (take 4 (drop (4 * i) l))) <$> seq 0 16.

Definition compress256 (s : state256) (block : bytes) : state256 :=
  zip_with add32 s (rounds256 K256 (block_words block) s).

Fixpoint blocks256 (fuel : nat) (l : bytes) (s : state256) : state256 :=
  match fuel with
  | O => s
  | S fuel =>
      match l with
      | [] => s
      | _ => blocks256 fuel (drop 64 l) (compress256 s (take 64 l))
      end
  end.

(** Padding: the bit 1, zeros up to 56 modulo 64, the length in bits. *)
Definition pad256 (l : bytes) : bytes :=
  let n := length l in
  let z := ((55 - Z.of_nat n) `mod` 64)%Z in
  l ++ byte_of 0x80 :: replicate (Z.to_nat z) (byte_of 0)
    ++ be_encode 8 (8 * Z.of_nat n).

(** [sha256.Sum256]: one block of fuel per 64 bytes of padded input. *)
Definition sha256 (l : bytes) : bytes :=
  let p := pad256 l in
  blocks256 (length p / 64)%nat p H256 ≫= be_encode 4.
End sha256.

(** ** HMAC *)

Definition xor_byte (x : Z) (c : ascii) : ascii := byte_of (Z.lxor (byte_val c) x).

(** [hmac.New(sha256.New, key)], [Write(msg)], [Sum(nil)]. *)
Definition hmac_sha256 (key msg : bytes) : bytes :=
  let k := if bool_decide (64 < length key)%nat then sha256 key else key in
  let k := k ++ replicate (64 - length k) (byte_of 0) in
  sha256 ((xor_byte 0x5c <$> k) ++ sha256 ((xor_byte 0x36 <$> k) ++ msg)).

(** Test vectors (FIPS 180-2 and RFC 4231). *)
Example sha256_abc :
  hex_encode (sha256 (to_bytes "abc")) =
  "ba7816bf8f01cfea414140de5dae2223b00361a396177a9cb410ff61f20015ad".
Proof. vm_compute. reflexivity. Qed.
Example hmac_sha256_jefe :
  hex_encode (hmac_sha256 (to_bytes "Jefe") (to_bytes "what do ya want for nothing?")) =
  "5bdcc146bf60754e6a042426089575c75a003f089d2739839dec58b964ec3843".
Proof. vm_compute. reflexivity. Qed.

(** ** A digest is 32 bytes *)

Lemma length_round256 s k w : length (round256 s k w) = length s.
Proof. by destruct s as [|? [|? [|? [|? [|? [|? [|? [|? [|]]]]]]]]]. Qed.

Lemma length_rounds256 ks : ∀ w s, length (rounds256 ks w s) = length s.
Proof. induction ks as [|k ks IH]; intros w s; simpl; [done|]. by rewrite IH, length_round256. Qed.

Lemma length_compress256 s b : length (compress256 s b) = length s.
Proof. unfold compress256. rewrite length_zip_with, length_rounds256. lia. Qed.

Lemma length_blocks256 fuel : ∀ l s, length (blocks256 fuel l s) = length s.
Proof.
  induction fuel as [|fuel IH]; intros l s; [done|]. simpl.
  destruct l; [done|]. by rewrite IH, length_compress256.
Qed.

Lemma length_words_bytes (s : list Z) : length (s ≫= be_encode 4) = (4 * length s)%nat.
Proof.
  induction s as [|x s IH]; [done|]. rewrite bind_cons, length_app, length_be_encode, IH.
  simpl. lia.
Qed.

Lemma length_sha256 l : length (sha256 l) = 32%nat.
Proof. unfold sha256. by rewrite length_words_bytes, length_blocks256. Qed.

Lemma length_hmac_sha256 key msg : length (hmac_sha256 key msg) = 32%nat.
Proof. apply length_sha256. Qed.

Lemma be_encode_mod n : ∀ v, be_encode n (v `mod` 2 ^ (8 * Z.of_nat n)) = be_encode n v.
Proof.
  assert (Hgen : ∀ m v, (n <= m)%nat → be_encode n (v `mod` 2 ^ (8 * Z.of_nat m)) = be_encode n v);
    [|intros v; by apply Hgen].
  induction n as [|n IH]; intros m v Hm; [done|]. cbn [be_encode]. f_equal; [|apply IH; lia].
  apply (inj byte_val). rewrite !byte_val_of.
  replace (8 * Z.of_nat m) with (8 * Z.of_nat n + (8 + 8 * (Z.of_nat m - Z.of_nat n - 1))) by lia.
  rewrite Z.pow_add_r by lia.
  set (k := 2 ^ (8 * Z.of_nat n)). assert (0 < k) by (apply Z.pow_pos_nonneg; lia).
  set (q := 2 ^ (8 + _)). assert (Hq : q = 256 * 2 ^ (8 * (Z.of_nat m - Z.of_nat n - 1))).
  { unfold q. rewrite Z.pow_add_r by lia. done. }
  assert (0 < 2 ^ (8 * (Z.of_nat m - Z.of_nat n - 1))) by (apply Z.pow_pos_nonneg; lia).
  rewrite Z.rem_mul_r by lia. rewrite (Z.mul_comm k), Z.div_add by lia.
  rewrite (Z.div_small (v `mod` k)) by (apply Z.mod_pos_bound; lia).
  rewrite Z.add_0_l, Hq, Z.rem_mul_r by lia.
  rewrite Z.mul_comm, Z.mod_add by lia. by rewrite Z.mod_mod by lia.
Qed.

Lemma be_decode_range l : 0 <= be_decode l < 2 ^ (8 * Z.of_nat (length l)).
Proof.
  induction l as [|c l IH]; [done|]. cbn [be_decode length].
  replace (8 * Z.of_nat (S (length l))) with (8 * Z.of_nat (length l) + 8) by lia.
  rewrite Z.pow_add_r by lia. change (2 ^ 8) with 256.
  pose proof (byte_val_range c). nia.
Qed.

Lemma be_encode_decode l : be_encode (length l) (be_decode l) = l.
Proof.
  induction l as [|c l IH]; [done|]. cbn [be_encode be_decode length].
  pose proof (be_decode_range l).
  assert (0 < 2 ^ (8 * Z.of_nat (length l))) by (apply Z.pow_pos_nonneg; lia).
  f_equal.
  - rewrite Z.div_add_l, Z.div_small, Z.add_0_r by lia. apply byte_of_val.
  - rewrite <- be_encode_mod, Z.add_comm, Z.mod_add by lia. by rewrite be_encode_mod.
Qed.
