(* ===== verification/GoTime.v ===== *)
(** * Package time: dates in UTC and their RFC 3339 form *)
From S2P Require Import Prelude GoStrings GoPath.

Definition nanos_per_day : Z := 86400 * Second.

(** The proleptic Gregorian date of a day number, day 0 being January 1 of year 1:
    years are counted from March 1, in cycles of 400 years. *)
Definition civil (day : Z) : Z * Z * Z :=
  let z := day + 306 in
  let era := z `div` 146097 in
  let doe := z `mod` 146097 in
  let yoe := (doe - doe `div` 1460 + doe `div` 36524 - doe `div` 146096) `div` 365 in
  let doy := doe - (365 * yoe + yoe `div` 4 - yoe `div` 100) in
  let mp := (5 * doy + 2) `div` 153 in
  let d := doy - (153 * mp + 2) `div` 5 + 1 in
  let m := if mp <? 10 then mp + 3 else mp - 9 in
  (yoe + era * 400 + (if m <=? 2 then 1 else 0), m, d).

(** [n] with at least [w] digits. *)
Definition pad (w : nat) (n : Z) : string :=
  let s := Itoa n in of_bytes (replicate (w - String.length s) "0"%char ++ to_bytes s).

(** [Format(time.RFC3339Nano)] of a time in UTC: the fraction is trimmed of its
    trailing zeros and left out when nothing remains. *)
Definition RFC3339Nano (t : Time) : string :=
  let '(y, m, d) := civil (t `div` nanos_per_day) in
  let r := t `mod` nanos_per_day in
  let s := r `div` Second in
  let frac := TrimRight (pad 9 (r `mod` Second)) "0" in
  pad 4 y +:+ "-" +:+ pad 2 m +:+ "-" +:+ pad 2 d +:+ "T" +:+ pad 2 (s `div` 3600) +:+ ":"
  +:+ pad 2 ((s `mod` 3600) `div` 60) +:+ ":" +:+ pad 2 (s `mod` 60)
  +:+ (if frac ==? "" then "" else "." +:+ frac) +:+ "Z".

Example RFC3339Nano_ex :
  RFC3339Nano 0 = "0001-01-01T00:00:00Z"
  ∧ RFC3339Nano (time_Unix 1700000000) = "2023-11-14T22:13:20Z"
  ∧ RFC3339Nano (time_Unix 951827696 + 120000000) = "2000-02-29T12:34:56.12Z".
Proof. vm_compute. done. Qed.
