(* ===== verification/Resource.v ===== *)
(** * internal/resource and internal/node

    What machines and virtual machines share: the IP assignment rule, the
    provisioning credentials, the normal form of cloud-init references, the
    Windows host-name rule, and the [node.Node] interface both implement. *)
From S2P Require Import Prelude GoStrings GoRegexp GoNet.

(** ** Types *)

Definition IPAssignmentMode : Type := string.
Definition IPAssignmentDHCP : IPAssignmentMode := "dhcp".
Definition IPAssignmentStatic : IPAssignmentMode := "static".

Definition InstallType : Type := string.
Definition InstallWindows : InstallType := "windows".
Definition InstallPreseed : InstallType := "preseed".
Definition InstallCurtin : InstallType := "curtin".

(** ** Operations *)

Definition ValidateIPAssignment (mode : IPAssignmentMode) (staticIP : string) : option error :=
  if (mode !=? "") && (mode !=? IPAssignmentDHCP) && (mode !=? IPAssignmentStatic)
  then Some (ErrNew ("unsupported ipAssignment: " +:+ mode))
  else if (mode ==? IPAssignmentStatic) && (ParseIP (TrimSpace staticIP) ==? None)
  then Some (ErrNew "ip is required when ipAssignment is static")
  else None.

(** The outcome of [cryptorand.Read] on a buffer of [n] bytes is an argument:
    the bytes read, or the error. *)
Definition GenerateProvisioningToken (read : nat → result bytes) : result string :=
  buf ← read 32%nat; Ok (hex_encode buf).

Definition GenerateProvisioningAttemptID (read : nat → result bytes) : result string :=
  buf ← read 16%nat; Ok ("attempt-" +:+ hex_encode buf).

(** The closure of [NormalizeCloudInitRefs]: the output and the set of
    references seen so far. *)
Definition appendRef (st : list string * gset string) (raw : string) : list string * gset string :=
  let '(out, seen) := st in
  let ref := TrimSpace raw in
  if ref ==? "" then st
  else if bool_decide (ref ∈ seen) then st
  else (out ++ [ref], {[ref]} ∪ seen).

Definition NormalizeCloudInitRefs (legacyRef : string) (refs : list string) : list string :=
  fst (fold_left appendRef refs (appendRef ([], ∅) legacyRef)).

Definition ResolveCloudInitRef (lastDeployed legacyRef : string) (refs : list string) : string :=
  let ref := TrimSpace lastDeployed in
  if ref !=? "" then ref else
  match List.find (fun raw => TrimSpace raw !=? "") refs with
  | Some raw => TrimSpace raw
  | None => TrimSpace legacyRef
  end.

Fixpoint validateRefs (seen : gset string) (refs : list string) : option error :=
  match refs with
  | [] => None
  | raw :: refs =>
      let ref := TrimSpace raw in
      if ref ==? "" then validateRefs seen refs
      else if bool_decide (ref ∈ seen)
      then Some (ErrNew ("spec.cloudInitRef/spec.cloudInitRefs must not contain duplicates: " +:+ ref))
      else validateRefs ({[ref]} ∪ seen) refs
  end.

Definition ValidateCloudInitRefs (legacyRef : string) (refs : list string) : option error :=
  let ref := TrimSpace legacyRef in
  validateRefs (if ref !=? "" then {[ref]} else ∅) refs.

Definition is_alnum (c : ascii) : bool := is_upper c || is_lower c || is_digit c.
Definition is_dash (c : ascii) : bool := c ==? "-"%char.

(** [^[A-Za-z0-9](?:[A-Za-z0-9-]{0,13}[A-Za-z0-9])?$] and [^[0-9]+$]. *)
Definition windowsHostnamePattern : regexp :=
  Cat (Cls is_alnum)
    (Opt (Cat (UpTo 13 (Cls (fun c => is_alnum c || is_dash c))) (Cls is_alnum))).
Definition windowsNumericHostnamePattern : regexp := Plus (Cls is_digit).

Definition ValidateWindowsHostname (name : string) : option error :=
  if negb (MatchString windowsHostnamePattern name)
     || MatchString windowsNumericHostnamePattern name
  then Some (ErrNew "Windows computer name must be 1-15 letters, digits, or hyphens, start and end with a letter or digit, and not be all digits")
  else None.

(** ** The node interface *)

Record InstallCompleteReport := mkInstallCompleteReport {
  icr_IP : string;
  icr_MAC : string;
  icr_Hostname : string }.

(** [node.Node]: what PXE, DHCP and DNS need of a machine or a virtual
    machine.  A method with a pointer receiver that mutates returns the new
    value. *)
Class Node (T : Type) := {
  ResourceName : T → string;
  NodeDisplayName : T → string;
  PrimaryMAC : T → string;
  AllMACs : T → list string;
  PXEInstallType : T → InstallType;
  IsProvisioningActive : T → bool;
  ProvisionToken : T → string;
  MarkProvisionComplete : T → string → Time → T;
  CloudInitRefForDeploy : T → string;
  CloudInitInline : T → InstallType → string;
  OSImageVariantRef : T → string;
  GetIPAssignment : T → IPAssignmentMode;
  StaticIP : T → string;
  GetSubnetRef : T → string;
  ApplyInstallCompleteReport : T → InstallCompleteReport → T }.

(** What the rest of the program relies on: completing a provisioning attempt
    ends it and keeps the node's identity, token and addresses; a MAC a node
    reports is in normal form; the primary MAC is one of its MACs unless it
    has none. *)
Class NodeLaws (T : Type) `{Node T} : Prop := {
  complete_inactive t src now : IsProvisioningActive (MarkProvisionComplete t src now) = false;
  complete_token t src now : ProvisionToken (MarkProvisionComplete t src now) = ProvisionToken t;
  complete_name t src now : ResourceName (MarkProvisionComplete t src now) = ResourceName t;
  complete_macs t src now : AllMACs (MarkProvisionComplete t src now) = AllMACs t;
  macs_nonempty t mac : mac ∈ AllMACs t → mac ≠ "";
  macs_NoDup t : NoDup (AllMACs t);
  primary_mac t : PrimaryMAC t = default "" (head (AllMACs t));
  report_static t r : GetIPAssignment t = IPAssignmentStatic →
    StaticIP (ApplyInstallCompleteReport t r) = StaticIP t }.

(** ** Cloud-init references *)

(** Reference definition: trim, drop the empty ones, keep first occurrences. *)
Definition clean_refs (raws : list string) : list string :=
  filter (fun r => r ≠ "") (TrimSpace <$> raws).

Lemma clean_refs_cons raw raws :
  clean_refs (raw :: raws) =
  if decide (TrimSpace raw = "") then clean_refs raws else TrimSpace raw :: clean_refs raws.
Proof.
  unfold clean_refs. rewrite fmap_cons. rewrite filter_cons. by repeat case_decide.
Qed.

(** The de-duplicating loop computes [dedup_from] of the cleaned input. *)
Lemma fold_appendRef raws : ∀ out (seen : list string),
  fst (fold_left appendRef raws (out, list_to_set seen)) = out ++ dedup_from seen (clean_refs raws).
Proof.
  induction raws as [|raw raws IH]; intros out seen; [by rewrite app_nil_r|].
  cbn [fold_left]. unfold appendRef at 2. rewrite clean_refs_cons.
  case_bool_decide; case_decide; try done.
  cbn [dedup_from]. case_bool_decide as Hin; rewrite elem_of_list_to_set in Hin.
  - by rewrite decide_True, IH.
  - rewrite decide_False by done. change ({[TrimSpace raw]} ∪ list_to_set seen : gset string)
      with (list_to_set (TrimSpace raw :: seen) : gset string).
    by rewrite IH, <- app_assoc.
Qed.

Lemma NormalizeCloudInitRefs_eq legacy refs :
  NormalizeCloudInitRefs legacy refs = dedup_from [] (clean_refs (legacy :: refs)).
Proof. apply (fold_appendRef (legacy :: refs) [] []). Qed.

Lemma elem_of_clean_refs r raws : r ∈ clean_refs raws ↔ r ≠ "" ∧ ∃ raw, raw ∈ raws ∧ r = TrimSpace raw.
Proof.
  unfold clean_refs. rewrite list_elem_of_filter, list_elem_of_fmap. naive_solver.
Qed.

(** Cleaning already clean references changes nothing. *)
Lemma clean_refs_id raws :
  Forall (fun r => r ≠ "" ∧ TrimSpace r = r) raws → clean_refs raws = raws.
Proof.
  induction 1 as [|r raws [Hne Ht] _ IH]; [done|].
  rewrite clean_refs_cons, Ht, decide_False by done. by rewrite IH.
Qed.

Lemma NormalizeCloudInitRefs_clean legacy refs :
  Forall (fun r => r ≠ "" ∧ TrimSpace r = r) (NormalizeCloudInitRefs legacy refs).
Proof.
  rewrite NormalizeCloudInitRefs_eq. apply Forall_forall. intros r Hr.
  apply elem_of_dedup_from in Hr as [Hr _]. apply elem_of_clean_refs in Hr as (Hne & raw & _ & ->).
  split; [done|]. apply TrimSpace_idemp.
Qed.

Lemma NormalizeCloudInitRefs_NoDup legacy refs : NoDup (NormalizeCloudInitRefs legacy refs).
Proof. rewrite NormalizeCloudInitRefs_eq. apply NoDup_dedup_from. Qed.

(** The validation loop accepts exactly the inputs whose cleaned references are
    pairwise distinct. *)
Lemma validateRefs_spec refs : ∀ seen : list string,
  validateRefs (list_to_set seen) refs = None ↔
  NoDup (clean_refs refs) ∧ ∀ r, r ∈ clean_refs refs → r ∉ seen.
Proof.
  induction refs as [|raw refs IH]; intros seen.
  { split; [|done]. intros _. split; [constructor|set_solver]. }
  cbn [validateRefs]. rewrite clean_refs_cons.
  case_bool_decide; case_decide; try done.
  case_bool_decide as Hin; rewrite elem_of_list_to_set in Hin.
  - split; [done|]. intros [_ Hs]. exfalso. by apply (Hs (TrimSpace raw)); [left|].
  - change ({[TrimSpace raw]} ∪ list_to_set seen : gset string)
      with (list_to_set (TrimSpace raw :: seen) : gset string).
    rewrite IH, NoDup_cons. set_solver.
Qed.

Lemma ValidateCloudInitRefs_empty_legacy refs :
  ValidateCloudInitRefs "" refs = None ↔ NoDup (clean_refs refs).
Proof.
  unfold ValidateCloudInitRefs. change (TrimSpace "") with "". simpl.
  rewrite (validateRefs_spec refs []). set_solver.
Qed.

(** The cloud-init references a create or reinstall stores are the trimmed
    non-blank inputs, legacy reference first, each once, in first-seen order;
    they pass [ValidateCloudInitRefs], and normalising them again changes
    nothing. *)
Lemma normalize_refs_correct (legacy : string) (refs : list string) :
  let out := NormalizeCloudInitRefs legacy refs in
  out = dedup_from [] (clean_refs (legacy :: refs))
  ∧ (∀ r, r ∈ out ↔ r ≠ "" ∧ ∃ raw, raw ∈ legacy :: refs ∧ r = TrimSpace raw)
  ∧ NoDup out
  ∧ ValidateCloudInitRefs "" out = None
  ∧ NormalizeCloudInitRefs "" out = out.
Proof.
  intros out.
  assert (Hc : clean_refs out = out) by apply clean_refs_id, NormalizeCloudInitRefs_clean.
  assert (Hn : NoDup out) by apply NormalizeCloudInitRefs_NoDup.
  split_and!; [apply NormalizeCloudInitRefs_eq| |done|..].
  - intros r. unfold out. rewrite NormalizeCloudInitRefs_eq, elem_of_dedup_from.
    rewrite elem_of_clean_refs. set_solver.
  - by rewrite ValidateCloudInitRefs_empty_legacy, Hc.
  - rewrite NormalizeCloudInitRefs_eq, clean_refs_cons. simpl. rewrite Hc.
    apply dedup_from_NoDup_id; [done|set_solver].
Qed.

(** ** Windows host names *)

Lemma Opt_spec r l : matches (Opt r) l ↔ l = [] ∨ matches r l.
Proof. unfold Opt. by rewrite matches_Alt_iff, matches_Eps_iff. Qed.

Lemma windowsHostname_tail l :
  matches (Opt (Cat (UpTo 13 (Cls (fun c => is_alnum c || is_dash c))) (Cls is_alnum))) l ↔
  (length l <= 14)%nat ∧ Forall (fun c => is_alnum c || is_dash c = true) l
  ∧ (∀ c, last l = Some c → is_alnum c = true).
Proof.
  rewrite Opt_spec, matches_Cat_iff. setoid_rewrite matches_UpTo_Cls. setoid_rewrite matches_Cls_iff.
  split.
  - intros [-> | (l1 & l2 & -> & [Hlen Hall] & (c & -> & Hc))].
    { split_and!; simpl; [lia|constructor|done]. }
    split_and!.
    + rewrite length_app. simpl. lia.
    + apply Forall_app. split; [done|]. repeat constructor. by rewrite Hc.
    + intros c'. rewrite last_snoc. congruence.
  - intros (Hlen & Hall & Hlast). destruct (last l) as [c|] eqn:El.
    + right. apply last_Some in El as [l' ->]. apply Forall_app in Hall as [Hall _].
      rewrite length_app in Hlen. simpl in Hlen.
      exists l', [c]. split_and!; [done..|lia|done|]. eauto.
    + left. by apply last_None.
Qed.

(** A Windows computer name is accepted exactly when it has 1 to 15
    letters, digits or hyphens, begins and ends with a letter or digit, and is
    not all digits. *)
Lemma windows_hostname_rule (name : string) :
  ValidateWindowsHostname name = None ↔
  1 <= len name <= 15
  ∧ Forall (fun c => is_alnum c || is_dash c = true) (to_bytes name)
  ∧ (∀ c, head (to_bytes name) = Some c → is_alnum c = true)
  ∧ (∀ c, last (to_bytes name) = Some c → is_alnum c = true)
  ∧ ¬ Forall (fun c => is_digit c = true) (to_bytes name).
Proof.
  unfold ValidateWindowsHostname. rewrite len_length.
  assert (Hnum : MatchString windowsNumericHostnamePattern name = true ↔
    to_bytes name ≠ [] ∧ Forall (fun c => is_digit c = true) (to_bytes name)).
  { rewrite MatchString_spec. unfold windowsNumericHostnamePattern, Plus.
    destruct (to_bytes name) as [|c l].
    - split; [intros H; by apply matches_Cat_Cls_nil in H|by intros [? _]].
    - rewrite matches_Cat_Cls_cons, matches_Star_Cls, Forall_cons. naive_solver. }
  assert (Hpat : MatchString windowsHostnamePattern name = true ↔
    ∃ c l, to_bytes name = c :: l ∧ is_alnum c = true ∧ (length l <= 14)%nat
      ∧ Forall (fun c => is_alnum c || is_dash c = true) l
      ∧ (∀ c, last l = Some c → is_alnum c = true)).
  { rewrite MatchString_spec. unfold windowsHostnamePattern.
    destruct (to_bytes name) as [|c l].
    - split; [intros H; by apply matches_Cat_Cls_nil in H|by intros (?&?&?&_)].
    - rewrite matches_Cat_Cls_cons, windowsHostname_tail. naive_solver. }
  transitivity (MatchString windowsHostnamePattern name = true
    ∧ ¬ (MatchString windowsNumericHostnamePattern name = true)).
  { destruct (MatchString windowsHostnamePattern name),
      (MatchString windowsNumericHostnamePattern name); simpl; intuition congruence. }
  rewrite Hpat, Hnum. split.
  - intros [(c & l & -> & Hc & Hlen & Hall & Hlast) Hn]. simpl. split_and!; [lia|lia|..].
    + constructor; [by rewrite Hc|done].
    + by intros ? [= <-].
    + intros c'. destruct l as [|d l]; simpl; [congruence|]. apply Hlast.
    + intros Hd. by apply Hn.
  - intros (Hlen & Hall & Hhd & Hlast & Hn). destruct (to_bytes name) as [|c l]; [simpl in *; lia|].
    split; [|by intros [_ ?]]. exists c, l. simpl in *. apply Forall_cons in Hall as [_ Hall].
    split_and!; [done|by apply Hhd|lia|done|].
    intros c' Hc'. apply Hlast. destruct l; [done|exact Hc'].
Qed.
