(* ===== verification/Power.v ===== *)
(** * internal/power: power configuration, dispatch, and the Wake-on-LAN protocol

    The configuration types and their validation, the executor's dispatch on the
    power type, the magic packet, the signed shutdown packet and the nonce cache
    that stops replays.  Running a command, an HTTP exchange and sending a
    datagram are arguments of the definitions that use them. *)
From S2P Require Import Prelude GoStrings GoNet GoCrypto.

(** ** types.go *)

Definition Action : Type := string.
Definition ActionPowerOn : Action := "power-on".
Definition ActionPowerOff : Action := "power-off".

Definition PowerType : Type := string.
Definition PowerTypeIPMI : PowerType := "ipmi".
Definition PowerTypeWebhook : PowerType := "webhook".
Definition PowerTypeWoL : PowerType := "wol".
Definition PowerTypeManual : PowerType := "manual".

Definition PowerState : Type := string.
Definition PowerStateUnknown : PowerState := "unknown".
Definition PowerStateRunning : PowerState := "running".
Definition PowerStateStopped : PowerState := "stopped".

Record IPMIConfig := mkIPMIConfig {
  ipmi_Host : string; ipmi_Username : string; ipmi_Password : string; ipmi_Interface : string }.

Record WebhookConfig := mkWebhookConfig {
  wh_PowerOnURL : string; wh_PowerOffURL : string; wh_StatusURL : string; wh_BootOrderURL : string;
  wh_Headers : gmap string string; wh_BodyExtras : gmap string string }.

Record WoLConfig := mkWoLConfig {
  wol_WakeMAC : string; wol_BroadcastIP : string; wol_Port : Z;
  wol_ShutdownTarget : string; wol_ShutdownUDPPort : Z;
  wol_HMACSecret : string; wol_Token : string; wol_TokenTTLSeconds : Z }.
Global Instance WoLConfig_fields : Fields WoLConfig :=
  fpure mkWoLConfig <*> wol_WakeMAC <*> wol_BroadcastIP <*> wol_Port <*> wol_ShutdownTarget
    <*> wol_ShutdownUDPPort <*> wol_HMACSecret <*> wol_Token <*> wol_TokenTTLSeconds.

Definition DefaultWoLShutdownUDPPort : Z := 40000.
Definition DefaultWoLShutdownTTLSeconds : Z := 60.

Definition BootDevice : Type := string.
Definition BootOrder : Type := list BootDevice.
Definition DefaultBIOSBootOrder : BootOrder := ["pxe-ipv4"; "disk"].

(** [ManualConfig] has no fields: a pointer to it is present or not. *)
Record PowerConfig := mkPowerConfig {
  pc_Type : PowerType; pc_IPMI : option IPMIConfig; pc_Webhook : option WebhookConfig;
  pc_WoL : option WoLConfig; pc_Manual : option unit }.
Global Instance PowerConfig_fields : Fields PowerConfig :=
  fpure mkPowerConfig <*> pc_Type <*> pc_IPMI <*> pc_Webhook <*> pc_WoL <*> pc_Manual.

Record MachineInfo := mkMachineInfo {
  mi_Name : string; mi_Hostname : string; mi_MAC : string; mi_IP : string; mi_Power : PowerConfig }.

Global Instance IPMIConfig_eq_dec : EqDecision IPMIConfig.
Proof. solve_decision. Defined.
Global Instance WebhookConfig_eq_dec : EqDecision WebhookConfig.
Proof. solve_decision. Defined.
Global Instance WoLConfig_eq_dec : EqDecision WoLConfig.
Proof. solve_decision. Defined.
Global Instance PowerConfig_eq_dec : EqDecision PowerConfig.
Proof. solve_decision. Defined.

(** ** validate.go *)

Definition generateToken (read : nat → result bytes) (n : nat) : result string :=
  b ← read n; Ok (hex_encode b).

(** [if strings.TrimSpace(x) == "" { x = generated }]. *)
Definition fill_secret (read : nat → result bytes) (n : nat) (what cur : string) : result string :=
  if TrimSpace cur ==? "" then
    match generateToken read n with
    | Ok t => Ok t
    | Err e => Err (ErrWrap ("failed to generate WoL " +:+ what +:+ ": ") e "")
    end
  else Ok cur.

(** [FillWoLDefaults(cfg *PowerConfig)]: the configuration after the call.  The
    two reads of randomness are the token's and the secret's. *)
Definition FillWoLDefaults (read_token read_secret : nat → result bytes) (cfg : PowerConfig)
  : result PowerConfig :=
  if pc_Type cfg !=? PowerTypeWoL then Ok cfg else
  match pc_WoL cfg with
  | None => Ok cfg
  | Some w =>
      token ← fill_secret read_token 16 "token" (wol_Token w);
      secret ← fill_secret read_secret 32 "hmac secret" (wol_HMACSecret w);
      let w := w <| wol_Token := token |> <| wol_HMACSecret := secret |> in
      let w := if wol_BroadcastIP w ==? "" then w <| wol_BroadcastIP := "255.255.255.255" |> else w in
      let w := if wol_Port w =? 0 then w <| wol_Port := 9 |> else w in
      let w := if wol_ShutdownUDPPort w =? 0
               then w <| wol_ShutdownUDPPort := DefaultWoLShutdownUDPPort |> else w in
      let w := if wol_TokenTTLSeconds w =? 0
               then w <| wol_TokenTTLSeconds := DefaultWoLShutdownTTLSeconds |> else w in
      Ok (cfg <| pc_WoL := Some w |>)
  end.

Definition ValidatePowerConfig (cfg : PowerConfig) : option error :=
  if pc_Type cfg ==? PowerTypeIPMI then
    match pc_IPMI cfg with
    | None => Some (ErrNew "power.ipmi is required for ipmi type")
    | Some i => if TrimSpace (ipmi_Host i) ==? ""
                then Some (ErrNew "power.ipmi.host is required") else None
    end
  else if pc_Type cfg ==? PowerTypeWebhook then
    match pc_Webhook cfg with
    | None => Some (ErrNew "power.webhook is required for webhook type")
    | Some w => if (TrimSpace (wh_PowerOnURL w) ==? "") || (TrimSpace (wh_PowerOffURL w) ==? "")
                then Some (ErrNew "power.webhook.powerOnURL and powerOffURL are required") else None
    end
  else if pc_Type cfg ==? PowerTypeWoL then
    match pc_WoL cfg with
    | None => Some (ErrNew "power.wol is required for wol type")
    | Some w => if TrimSpace (wol_WakeMAC w) ==? ""
                then Some (ErrNew "power.wol.wakeMAC is required: set the MAC address of the target machine for Wake-on-LAN")
                else None
    end
  else if pc_Type cfg ==? PowerTypeManual then None
  else Some (ErrNew ("unsupported power type: " +:+ pc_Type cfg)).

(** ** shutdown.go: the signed shutdown packet *)

Record ShutdownPacket := mkShutdownPacket {
  sp_MachineName : string; sp_Token : string; sp_Timestamp : Time; sp_Nonce : bytes }.

Definition RequestID (p : ShutdownPacket) : string := hex_encode (sp_Nonce p).

(** Slicing and indexing panic outside the slice. *)
Definition slice (l : bytes) (i j : nat) : outcome bytes :=
  if bool_decide (i <= j ∧ j <= length l)%nat then Returns (take (j - i) (drop i l)) else Panics.
Definition index (l : bytes) (i : nat) : outcome ascii :=
  match l !! i with Some c => Returns c | None => Panics end.

Definition magicLen : nat := 4.
Definition timestampLen : nat := 8.
Definition nonceLen : nat := 12.
Definition sigLen : nat := 32.
Definition headerLen : nat := (magicLen + timestampLen + nonceLen)%nat.

Definition ParseAndVerifyShutdownPacket (data : bytes) (secret : string) (now : Time) (ttl : Duration)
  : outcome (result ShutdownPacket) :=
  if bool_decide (length data < headerLen + 2 + sigLen)%nat
  then Returns (Err (ErrNew "packet too short")) else
  magic ← slice data 0 magicLen;
  if of_bytes magic !=? "GOMI" then Returns (Err (ErrNew "invalid magic")) else
  tsb ← slice data magicLen (magicLen + timestampLen);
  let ts := time_Unix (int64 (be_decode tsb)) in
  nonce ← slice data (magicLen + timestampLen) headerLen;
  nl ← index data headerLen;
  let nameLen := Z.to_nat (byte_val nl) in
  let pos := (headerLen + 1)%nat in
  if bool_decide (Z.of_nat (pos + nameLen) > Z.of_nat (length data) - Z.of_nat sigLen)
  then Returns (Err (ErrNew "invalid name length")) else
  name ← slice data pos (pos + nameLen);
  let pos := (pos + nameLen)%nat in
  tl ← index data pos;
  let tokenLen := Z.to_nat (byte_val tl) in
  let pos := (pos + 1)%nat in
  if bool_decide (Z.of_nat (pos + tokenLen) > Z.of_nat (length data) - Z.of_nat sigLen)
  then Returns (Err (ErrNew "invalid token length")) else
  token ← slice data pos (pos + tokenLen);
  let pos := (pos + tokenLen)%nat in
  body ← slice data 0 pos;
  sig ← slice data pos (pos + sigLen);
  if hmac_sha256 (to_bytes secret) body !=? sig then Returns (Err (ErrNew "invalid signature")) else
  let diff := time_Sub now ts in
  if (diff <? - ttl) || (diff >? ttl)
  then Returns (Err (ErrNew "timestamp outside ttl window"))
  else Returns (Ok (mkShutdownPacket (of_bytes name) (of_bytes token) ts nonce)).

(** ** executor.go: packets *)

Definition shutdown_body (machineName token : string) (now : Time) (nonce : bytes) : bytes :=
  to_bytes "GOMI" ++ be_encode 8 (uint64 (time_unix_seconds now)) ++ nonce
  ++ [byte_of (len machineName)] ++ to_bytes machineName
  ++ [byte_of (len token)] ++ to_bytes token.

(** [read 12] is the nonce read; the result is the packet and its request id. *)
Definition buildShutdownPacketWithRequestID (read : nat → result bytes)
  (machineName token secret : string) (now : Time) : result (bytes * string) :=
  if (255 <? len machineName) || (255 <? len token)
  then Err (ErrNew "machineName/token too long") else
  nonce ← read nonceLen;
  let body := shutdown_body machineName token now nonce in
  Ok (body ++ hmac_sha256 (to_bytes secret) body, hex_encode nonce).

Definition buildShutdownPacket (read : nat → result bytes)
  (machineName token secret : string) (now : Time) : result bytes :=
  '(packet, _) ← buildShutdownPacketWithRequestID read machineName token secret now; Ok packet.

(** [copy(dst[i:], src)] on a slice of fixed length. *)
Definition copy_at (dst : bytes) (i : nat) (src : bytes) : bytes :=
  take i dst ++ take (length dst - i) src ++ drop (i + length src) dst.

(** [for i := i0; i < len(packet); i += len(mac) { copy(packet[i:], mac) }]. *)
Fixpoint fill_macs (fuel : nat) (i : nat) (mac packet : bytes) : bytes :=
  match fuel with
  | O => packet
  | S fuel =>
      if bool_decide (i < length packet)%nat
      then fill_macs fuel (i + length mac) mac (copy_at packet i mac)
      else packet
  end.

(** Sixteen copies fill the packet, so sixteen rounds (and the test that ends
    the loop) are enough. *)
Definition buildWakePacket (macAddress : string) : result bytes :=
  match ParseMAC macAddress with
  | None => Err (ErrWrap "parse mac: " (ErrNew ("address " +:+ macAddress +:+ ": invalid MAC address")) "")
  | Some mac =>
      let packet := replicate (6 + 16 * length mac) (byte_of 0) in
      let packet := fold_left (fun p i => <[i := byte_of 255]> p) (seq 0 6) packet in
      Ok (fill_macs 17 6 mac packet)
  end.

(** ** shutdown_replay.go *)

Record ShutdownReplayCache := mkReplayCache {
  rc_retention : Duration; rc_seen : gmap bytes Time }.

Definition NewShutdownReplayCache (ttl : Duration) : ShutdownReplayCache :=
  mkReplayCache (int64 (2 * ttl)) ∅.

(** [Seen]: evict, test, record; the answer and the new cache. *)
Definition Seen (c : ShutdownReplayCache) (nonce : bytes) (now : Time) : bool * ShutdownReplayCache :=
  let kept := filter (fun kt : bytes * Time => ¬ (time_Sub now kt.2 > rc_retention c)) (rc_seen c) in
  match kept !! nonce with
  | Some _ => (true, mkReplayCache (rc_retention c) kept)
  | None => (false, mkReplayCache (rc_retention c) (<[nonce := now]> kept))
  end.

(** ** executor.go: dispatch

    [run] is [exec.Command(...).CombinedOutput()] on an argument vector, [post]
    an HTTP POST (target, headers set on top of the JSON content type, body
    object) giving the response status, [get_status] the GET of a status URL
    giving the decoded status field, [ping] the exit of the ping command,
    [send] one UDP datagram.  JSON values in a webhook body are strings, or the
    boot order. *)

Inductive jvalue : Type :=
| JString (s : string)
| JList (l : list string).

Global Instance jvalue_eq_dec : EqDecision jvalue.
Proof. solve_decision. Defined.

Definition NormalizeAction (raw : string) : result Action :=
  let a := ToLower (TrimSpace raw) in
  if (a ==? "on") || (a ==? "power-on") || (a ==? "power_on") then Ok ActionPowerOn
  else if (a ==? "off") || (a ==? "power-off") || (a ==? "power_off") then Ok ActionPowerOff
  else Err (ErrNew ("unknown action: " +:+ raw)).

Section executor.
Context (run : list string → string * option error).
Context (post : string → gmap string string → gmap string jvalue → result Z).
Context (get_status : string → gmap string string → result string).
Context (ping : string → option error).
Context (send : nat → string → bytes → option error).
Context (ctx_done : nat → bool) (ctx_err : error).
Context (newUUID : string) (timestamp : string).
Context (read : nat → result bytes) (now : Time).

Definition ipmi_interface (cfg : IPMIConfig) : string :=
  if TrimSpace (ipmi_Interface cfg) ==? "" then "lanplus" else ipmi_Interface cfg.

Definition ipmi_args (cfg : IPMIConfig) (cmd : string) : list string :=
  ["ipmitool"; "-I"; ipmi_interface cfg; "-H"; ipmi_Host cfg; "-U"; ipmi_Username cfg;
   "-P"; ipmi_Password cfg; "chassis"; "power"; cmd].

Definition executeIPMI (cfg : IPMIConfig) (action : Action) : option error :=
  let go cmd :=
    match run (ipmi_args cfg cmd) with
    | (output, Some e) => Some (ErrWrap "ipmitool failed: " e (": " +:+ TrimSpace output))
    | (_, None) => None
    end in
  if action ==? ActionPowerOn then go "on"
  else if action ==? ActionPowerOff then go "off"
  else Some (ErrNew ("unsupported ipmi action: " +:+ action)).

Definition checkIPMIStatus (cfg : IPMIConfig) : PowerState * option error :=
  match run (ipmi_args cfg "status") with
  | (output, Some e) =>
      (PowerStateUnknown, Some (ErrWrap "ipmitool status failed: " e (": " +:+ TrimSpace output)))
  | (output, None) =>
      let out := ToLower (TrimSpace output) in
      if Contains out "is on" then (PowerStateRunning, None)
      else if Contains out "is off" then (PowerStateStopped, None)
      else (PowerStateUnknown, None)
  end.

Definition checkWebhookStatus (cfg : WebhookConfig) : PowerState * option error :=
  match get_status (wh_StatusURL cfg) (wh_Headers cfg) with
  | Err e => (PowerStateUnknown, Some e)
  | Ok status =>
      let s := ToLower status in
      if s ==? "running" then (PowerStateRunning, None)
      else if s ==? "stopped" then (PowerStateStopped, None)
      else (PowerStateUnknown, None)
  end.

Definition checkICMP (ip : string) : PowerState * option error :=
  if TrimSpace ip ==? "" then (PowerStateUnknown, None)
  else match ping ip with
       | Some _ => (PowerStateStopped, None)
       | None => (PowerStateRunning, None)
       end.

Definition CheckStatus (m : MachineInfo) : PowerState * option error :=
  let cfg := mi_Power m in
  if pc_Type cfg ==? PowerTypeIPMI then
    match pc_IPMI cfg with
    | None => (PowerStateUnknown, Some (ErrNew "ipmi config missing"))
    | Some i => checkIPMIStatus i
    end
  else if pc_Type cfg ==? PowerTypeWebhook then
    match pc_Webhook cfg with
    | Some w => if TrimSpace (wh_StatusURL w) !=? "" then checkWebhookStatus w else checkICMP (mi_IP m)
    | None => checkICMP (mi_IP m)
    end
  else if (pc_Type cfg ==? PowerTypeWoL) || (pc_Type cfg ==? PowerTypeManual) then checkICMP (mi_IP m)
  else (PowerStateUnknown, None).

(** The payload wins over the configured extras. *)
Definition merge_payload (payload : gmap string jvalue) (extras : gmap string string) : gmap string jvalue :=
  map_fold (fun k v merged => match merged !! k with
                              | Some _ => merged
                              | None => <[k := JString v]> merged
                              end) payload extras.

Definition postWebhookJSON (target : string) (cfg : WebhookConfig) (payload : gmap string jvalue)
  : option error :=
  match post target (wh_Headers cfg) (merge_payload payload (wh_BodyExtras cfg)) with
  | Err e => Some e
  | Ok status =>
      if (status <? 200) || (300 <=? status)
      then Some (ErrNew ("webhook returned status " +:+ Itoa status)) else None
  end.

Definition machine_payload (m : MachineInfo) : gmap string jvalue :=
  {[ "machineId" := JString (mi_Name m); "hostname" := JString (mi_Hostname m);
     "mac" := JString (mi_MAC m); "ip" := JString (mi_IP m);
     "requestId" := JString newUUID; "timestamp" := JString timestamp ]}.

Definition executeWebhook (m : MachineInfo) (cfg : WebhookConfig) (action : Action) : option error :=
  if action ==? ActionPowerOn
  then postWebhookJSON (wh_PowerOnURL cfg) cfg (<["action" := JString action]> (machine_payload m))
  else if action ==? ActionPowerOff
  then postWebhookJSON (wh_PowerOffURL cfg) cfg (<["action" := JString action]> (machine_payload m))
  else Some (ErrNew ("unsupported webhook action: " +:+ action)).

Definition configureWebhookBootOrder (m : MachineInfo) (cfg : WebhookConfig) (order : BootOrder)
  : option error :=
  let target := TrimSpace (wh_BootOrderURL cfg) in
  if target ==? "" then Some (ErrNew "webhook bootOrderURL is required for boot order automation")
  else if order ==? [] then Some (ErrNew "boot order must not be empty")
  else postWebhookJSON target cfg
         (<["action" := JString "set-boot-order"]> (<["bootOrder" := JList order]> (machine_payload m))).

Definition ConfigureBootOrder (m : MachineInfo) (order : BootOrder) : option error :=
  let cfg := mi_Power m in
  if pc_Type cfg ==? PowerTypeWebhook then
    match pc_Webhook cfg with
    | None => Some (ErrNew "webhook config missing")
    | Some w => configureWebhookBootOrder m w order
    end
  else if (pc_Type cfg ==? PowerTypeIPMI) || (pc_Type cfg ==? PowerTypeWoL) || (pc_Type cfg ==? PowerTypeManual)
  then Some (ErrNew ("power type " +:+ pc_Type cfg +:+ " does not support boot order automation"))
  else Some (ErrNew ("unsupported power type " +:+ pc_Type cfg)).

(** [net.JoinHostPort]. *)
Definition JoinHostPort (host port : string) : string :=
  if Contains host ":" then "[" +:+ host +:+ "]:" +:+ port else host +:+ ":" +:+ port.

(** The retry loop: round [i] waits (unless its delay is zero), during which
    the context may end, then sends.  The result is the error and the number
    of datagrams sent. *)
Fixpoint send_rounds (target : string) (payload : bytes) (delays : list Duration)
  (i : nat) (sent : bool) (count : nat) (lastErr : option error) : option error * nat :=
  match delays with
  | [] => (if sent then None else lastErr, count)
  | delay :: delays =>
      if (0 <? delay) && ctx_done i
      then (if sent then None else Some ctx_err, count)
      else match send i target payload with
           | Some e => send_rounds target payload delays (S i) sent count (Some e)
           | None => send_rounds target payload delays (S i) true (S count) lastErr
           end
  end.

Definition sendUDPWithDelays (target : string) (payload : bytes) (delays : list Duration)
  : option error * nat :=
  match delays with
  | [] => match send 0 target payload with Some e => (Some e, 0%nat) | None => (None, 1%nat) end
  | _ => send_rounds target payload delays 0 false 0 None
  end.

Definition wolPowerOnRetryDelays : list Duration :=
  [0; 1 * Second; 2 * Second; 4 * Second; 8 * Second].

Definition executeWoL (m : MachineInfo) (cfg : WoLConfig) (action : Action) : string * option error :=
  if action ==? ActionPowerOn then
    match buildWakePacket (wol_WakeMAC cfg) with
    | Err e => ("", Some e)
    | Ok packet =>
        let addr := JoinHostPort (wol_BroadcastIP cfg) (Itoa (wol_Port cfg)) in
        ("", fst (sendUDPWithDelays addr packet wolPowerOnRetryDelays))
    end
  else if action ==? ActionPowerOff then
    if (TrimSpace (wol_HMACSecret cfg) ==? "") || (TrimSpace (wol_Token cfg) ==? "")
    then ("", Some (ErrNew "WoL power-off requires hmacSecret and token; set power.wol.hmacSecret and power.wol.token in the machine config to enable remote shutdown"))
    else
      let target := TrimSpace (wol_ShutdownTarget cfg) in
      let target := if target ==? "" then TrimSpace (mi_IP m) else target in
      if target ==? "" then
        ("", Some (ErrNew "WoL power-off requires shutdownTarget; set power.wol.shutdownTarget to the IP/hostname of the target machine's shutdown agent"))
      else
        match buildShutdownPacketWithRequestID read (mi_Name m) (wol_Token cfg) (wol_HMACSecret cfg) now with
        | Err e => ("", Some e)
        | Ok (packet, requestID) =>
            let port := if wol_ShutdownUDPPort cfg =? 0 then DefaultWoLShutdownUDPPort
                        else wol_ShutdownUDPPort cfg in
            (requestID, send 0 (JoinHostPort target (Itoa port)) packet)
        end
  else ("", Some (ErrNew ("unsupported wol action: " +:+ action))).

(** The first component is [ActionResult.RequestID]. *)
Definition ExecuteWithResult (m : MachineInfo) (action : Action) : string * option error :=
  let cfg := mi_Power m in
  if pc_Type cfg ==? PowerTypeIPMI then
    match pc_IPMI cfg with
    | None => ("", Some (ErrNew "ipmi config missing"))
    | Some i => ("", executeIPMI i action)
    end
  else if pc_Type cfg ==? PowerTypeWebhook then
    match pc_Webhook cfg with
    | None => ("", Some (ErrNew "webhook config missing"))
    | Some w => ("", executeWebhook m w action)
    end
  else if pc_Type cfg ==? PowerTypeWoL then
    match pc_WoL cfg with
    | None => ("", Some (ErrNew "wol config missing"))
    | Some w => executeWoL m w action
    end
  else if pc_Type cfg ==? PowerTypeManual then
    ("", Some (ErrNew ("manual power type does not support automated " +:+ action)))
  else ("", Some (ErrNew ("unsupported power type " +:+ pc_Type cfg))).

Definition Execute (m : MachineInfo) (action : Action) : option error :=
  snd (ExecuteWithResult m action).
End executor.

(** ** cmd/wol-daemon: one iteration of the receive loop

    A datagram [data] has been read; [t_parse] and [t_seen] are the two clock
    readings of the iteration.  The result is the packet handed to the shutdown
    callback, if any, and the replay cache. *)
Record DaemonConfig := mkDaemonConfig {
  dc_HMACSecret : string; dc_ExpectedToken : string; dc_TTL : Duration }.

Definition daemon_ttl (cfg : DaemonConfig) : Duration :=
  if dc_TTL cfg <=? 0 then 60 * Second else dc_TTL cfg.

Definition daemon_step (cfg : DaemonConfig) (cache : ShutdownReplayCache)
  (data : bytes) (t_parse t_seen : Time) : outcome (option ShutdownPacket * ShutdownReplayCache) :=
  r ← ParseAndVerifyShutdownPacket data (dc_HMACSecret cfg) t_parse (daemon_ttl cfg);
  match r with
  | Err _ => Returns (None, cache)
  | Ok packet =>
      if (dc_ExpectedToken cfg !=? "") && (sp_Token packet !=? dc_ExpectedToken cfg)
      then Returns (None, cache)
      else
        let '(seen, cache') := Seen cache (sp_Nonce packet) t_seen in
        if seen then Returns (None, cache') else Returns (Some packet, cache')
  end.

(** The whole loop, on the sequence of what [ReadFrom] gives it: a read timeout
    with the state of the context, a read error, or a datagram with its two clock
    readings and the outcome of the shutdown callback, should it be called.  The
    result is the packets handed to the callback, in order, and how [Run]
    returned, [None] while it is still running. *)
Inductive daemon_event : Type :=
| EvTimeout (ctx_done : bool)
| EvError (e : error)
| EvPacket (data : bytes) (t_parse t_seen : Time) (callback : option error).

Fixpoint daemon_loop (cfg : DaemonConfig) (cache : ShutdownReplayCache) (evs : list daemon_event)
  : outcome (list ShutdownPacket * option (option error)) :=
  match evs with
  | [] => Returns ([], None)
  | EvTimeout done :: evs => if done then Returns ([], Some None) else daemon_loop cfg cache evs
  | EvError e :: _ => Returns ([], Some (Some e))
  | EvPacket data t_parse t_seen callback :: evs =>
      r ← daemon_step cfg cache data t_parse t_seen;
      match r with
      | (None, cache) => daemon_loop cfg cache evs
      | (Some p, cache) =>
          match callback with
          | Some e => Returns ([p], Some (Some (ErrWrap "shutdown callback failed: " e "")))
          | None =>
              rest ← daemon_loop cfg cache evs;
              Returns (p :: rest.1, rest.2)
          end
      end
  end.

Definition Run (cfg : DaemonConfig) (evs : list daemon_event)
  : outcome (list ShutdownPacket * option (option error)) :=
  daemon_loop cfg (NewShutdownReplayCache (daemon_ttl cfg)) evs.

(** ** Slices *)

Lemma slice_Returns l i j :
  (i <= j <= length l)%nat → slice l i j = Returns (take (j - i) (drop i l)).
Proof. intros H. unfold slice. by rewrite bool_decide_eq_true_2 by lia. Qed.

Lemma index_Returns l i : (i < length l)%nat → ∃ c, index l i = Returns c ∧ l !! i = Some c.
Proof. intros H. unfold index. destruct (lookup_lt_is_Some_2 _ _ H) as [c ->]. eauto. Qed.

(** A slice extends the prefix that ends where it starts. *)
Lemma slice_take l i j x :
  (i <= j <= length l)%nat → slice l i j = Returns x ↔ take j l = take i l ++ x.
Proof.
  intros H. rewrite slice_Returns by done.
  replace j with (i + (j - i))%nat at 2 by lia. rewrite <- take_take_drop.
  split; [congruence|]. intros ->%app_inv_head. done.
Qed.

Lemma index_take l i c :
  (i < length l)%nat → index l i = Returns c ↔ take (S i) l = take i l ++ [c].
Proof.
  intros H. destruct (index_Returns l i H) as (d & -> & Hd).
  rewrite (take_S_r _ _ d) by done. split; [congruence|]. intros E%app_inv_head. congruence.
Qed.

Lemma length_slice l i j x : slice l i j = Returns x → length x = (j - i)%nat ∧ (i <= j <= length l)%nat.
Proof.
  unfold slice. case_bool_decide; [|done]. intros [= <-].
  rewrite length_take, length_drop. lia.
Qed.

(** ** The shutdown packet *)

Definition packet_body (p : ShutdownPacket) : bytes :=
  shutdown_body (sp_MachineName p) (sp_Token p) (sp_Timestamp p) (sp_Nonce p).

(** What a sender may sign: field lengths fit their length bytes, the nonce has
    its size, the timestamp is a whole number of seconds in range. *)
Definition packet_ok (p : ShutdownPacket) : Prop :=
  len (sp_MachineName p) <= 255 ∧ len (sp_Token p) <= 255 ∧ length (sp_Nonce p) = nonceLen
  ∧ ∃ sec, min_int64 <= sec <= max_int64 ∧ sp_Timestamp p = time_Unix sec.

Definition fresh (p : ShutdownPacket) (now : Time) (ttl : Duration) : Prop :=
  - ttl <= now - sp_Timestamp p <= ttl.

Lemma time_unix_seconds_Unix sec : time_unix_seconds (time_Unix sec) = sec.
Proof.
  unfold time_unix_seconds, time_Unix. rewrite Z.div_mul by (unfold Second; lia). lia.
Qed.

(** The parser's freshness test is the symmetric window. *)
Lemma fresh_test p now ttl : 0 <= ttl < max_int64 →
  ((time_Sub now (sp_Timestamp p) <? - ttl) || (time_Sub now (sp_Timestamp p) >? ttl)) = false
  ↔ fresh p now ttl.
Proof.
  intros Ht. unfold fresh, max_int64 in *.
  rewrite time_Sub_lt, time_Sub_gt by (unfold min_int64, max_int64; lia). lia.
Qed.

(** Take the outermost slice or index of the goal, whose bounds hold. *)
Ltac take_slice :=
  lazymatch goal with
  | |- mbind ?f (slice ?l ?i ?j) ≠ _ =>
      let H := fresh in
      pose proof (slice_Returns l i j ltac:(lia)) as H; rewrite H; clear H; step_return
  | |- mbind ?f (index ?l ?i) ≠ _ =>
      let c := fresh "c" in let H := fresh in
      destruct (index_Returns l i ltac:(lia)) as (c & H & _); rewrite H; clear H; step_return
  end.

(** Parsing never indexes or slices outside the datagram. *)
Lemma parse_total data secret now ttl :
  ParseAndVerifyShutdownPacket data secret now ttl ≠ Panics.
Proof.
  unfold ParseAndVerifyShutdownPacket, headerLen, magicLen, timestampLen, nonceLen, sigLen.
  case_bool_decide as Hlen; [done|]. take_slice.
  case_bool_decide; cbv beta iota delta [negb]; [|done]. do 3 take_slice.
  case_bool_decide; [done|]. do 2 take_slice.
  case_bool_decide; [done|]. do 3 take_slice.
  by repeat case_match.
Qed.

(** The pieces the parser cuts out of a datagram, put together again. *)
Lemma parsed_body (data magic tsb nonce name token body : bytes) (nl tl : ascii) (n k : nat) :
  n = Z.to_nat (byte_val nl) → k = Z.to_nat (byte_val tl) → of_bytes magic = "GOMI" →
  slice data 0 4 = Returns magic → slice data 4 12 = Returns tsb → slice data 12 24 = Returns nonce →
  index data 24 = Returns nl → slice data 25 (25 + n) = Returns name →
  index data (25 + n) = Returns tl → slice data (25 + n + 1) (25 + n + 1 + k) = Returns token →
  slice data 0 (25 + n + 1 + k) = Returns body →
  let p := mkShutdownPacket (of_bytes name) (of_bytes token) (time_Unix (int64 (be_decode tsb))) nonce in
  body = packet_body p ∧ packet_ok p.
Proof.
  intros Hn Hk Hmagic E1 E2 E3 E4 E5 E6 E7 E8. pose proof (byte_val_range nl). pose proof (byte_val_range tl).
  pose proof (length_slice _ _ _ _ E2) as [L2 _]. pose proof (length_slice _ _ _ _ E3) as [L3 _].
  pose proof (length_slice _ _ _ _ E5) as [L5 _]. pose proof (length_slice _ _ _ _ E7) as [L7 _].
  pose proof (length_slice _ _ _ _ E8) as [_ L8]. pose proof (be_decode_range tsb) as Hts. rewrite L2 in Hts. split.
  - apply slice_take in E1, E2, E3, E5, E7, E8; try lia.
    apply index_take in E4, E6; try lia. rewrite take_0, app_nil_l in E1, E8.
    replace (S (25 + n)) with (25 + n + 1)%nat in E6 by lia.
    rewrite <- E8, E7, E6, E5, E4, E3, E2, E1. rewrite <- !app_assoc.
    unfold packet_body, shutdown_body; cbn [sp_MachineName sp_Token sp_Timestamp sp_Nonce].
    rewrite time_unix_seconds_Unix, !len_length, !to_of_bytes, L5, L7.
    replace (Z.of_nat (25 + n - 25)) with (byte_val nl) by lia.
    replace (Z.of_nat (25 + n + 1 + k - (25 + n + 1))) with (byte_val tl) by lia.
    rewrite !byte_of_val. rewrite <- Hmagic, to_of_bytes. do 2 f_equal.
    rewrite <- (be_encode_decode tsb) at 1. rewrite L2. change (12 - 4)%nat with 8%nat.
    rewrite uint64_int64. unfold uint64. rewrite Z.mod_small by exact Hts. done.
  - unfold packet_ok. cbn [sp_MachineName sp_Token sp_Timestamp sp_Nonce]. rewrite !len_length, !to_of_bytes.
    split_and!; [lia|lia|exact L3|]. eexists. split; [|done]. apply int64_range.
Qed.

(** Name what a read of the datagram returned. *)
Ltac open_read x E :=
  intros (x & E & ?H)%bind_Returns_inv;
  lazymatch goal with H : _ = Returns _ |- _ => revert H end; cbv beta zeta.

(** What an accepted datagram contains. *)
Lemma parse_sound data secret now ttl p :
  0 <= ttl < max_int64 →
  ParseAndVerifyShutdownPacket data secret now ttl = Returns (Ok p) →
  packet_ok p ∧ fresh p now ttl ∧
  ∃ rest, data = packet_body p ++ hmac_sha256 (to_bytes secret) (packet_body p) ++ rest.
Proof.
  intros Httl. unfold ParseAndVerifyShutdownPacket, headerLen, magicLen, timestampLen, nonceLen, sigLen.
  change (4 + 8 + 12)%nat with 24%nat. change (4 + 8)%nat with 12%nat. change (24 + 1)%nat with 25%nat.
  case_bool_decide as Hlen; [done|].
  open_read magic E1. case_bool_decide as Hmagic; [|done]. cbv beta iota delta [negb].
  open_read tsb E2. open_read nonce E3. open_read nl E4. case_bool_decide as Hnl; [done|].
  open_read name E5. open_read tlen E6. case_bool_decide as Htl; [done|].
  open_read token E7. open_read body E8. open_read mac E9.
  case_bool_decide as Hsig; [|done]. cbv beta iota delta [negb].
  case_match eqn:Hfresh; [done|]. intros [= <-].
  destruct (parsed_body data magic tsb nonce name token body nl tlen _ _ eq_refl eq_refl Hmagic E1 E2 E3 E4 E5 E6 E7 E8)
    as [Hbody Hok].
  split_and!; [exact Hok|by apply fresh_test|]. rewrite <- Hbody, Hsig.
  apply slice_take in E8, E9; [|lia..]. rewrite take_0, app_nil_l in E8.
  eexists. rewrite app_assoc, <- E8, <- E9. symmetry. apply take_drop.
Qed.

(** The middle of a concatenation. *)
Lemma slice_mid l a b c i j :
  l = a ++ b ++ c → i = length a → j = (i + length b)%nat → slice l i j = Returns b.
Proof.
  intros -> -> ->. rewrite slice_Returns by (rewrite !length_app; lia).
  rewrite drop_app_length. replace (length a + length b - length a)%nat with (length b) by lia.
  by rewrite take_app_length.
Qed.

Lemma index_mid l a x c i : l = a ++ x :: c → i = length a → index l i = Returns x.
Proof. intros -> ->. unfold index. by rewrite list_lookup_middle. Qed.

(** Read the piece [b] that follows the prefix [a] of the datagram. *)
Ltac read_piece Ld a b :=
  lazymatch goal with
  | |- mbind _ (slice ?l ?i ?j) = _ => erewrite (slice_mid l a b _ i j)
  | |- mbind _ (index ?l ?i) = _ => erewrite (index_mid l a b _ i)
  end;
  [ step_return
  | rewrite Ld; rewrite <- ?app_assoc; reflexivity
  | rewrite ?length_app; first [lia | simpl; lia] .. ].

(** The length byte of a short string, and the timestamp, read back. *)
Lemma byte_val_len (s : string) : len s <= 255 → byte_val (byte_of (len s)) = Z.of_nat (length (to_bytes s)).
Proof. intros H. rewrite byte_val_of, Z.mod_small; rewrite len_length in *; lia. Qed.

Lemma decode_timestamp (sec : Z) : min_int64 <= sec <= max_int64 →
  time_Unix (int64 (be_decode (be_encode 8 (uint64 (time_unix_seconds (time_Unix sec)))))) = time_Unix sec.
Proof.
  intros Hsec. rewrite be_decode_encode, time_unix_seconds_Unix.
  change (_ `mod` _) with (uint64 (uint64 sec)). by rewrite uint64_idemp, int64_uint64.
Qed.

(** Every fresh packet a holder of the secret signs is accepted, whatever
    follows the signature. *)
Lemma parse_complete secret now ttl p rest :
  0 <= ttl < max_int64 → packet_ok p → fresh p now ttl →
  ParseAndVerifyShutdownPacket
    (packet_body p ++ hmac_sha256 (to_bytes secret) (packet_body p) ++ rest) secret now ttl
  = Returns (Ok p).
Proof.
  intros Httl (Hname & Htok & Hnonce & sec & Hsec & Hts) Hfresh.
  set (sig := hmac_sha256 (to_bytes secret) (packet_body p)).
  assert (Lsig : length sig = 32%nat) by apply length_hmac_sha256.
  set (data := packet_body p ++ sig ++ rest).
  destruct p as [name token ts nonce]. cbn [sp_MachineName sp_Token sp_Timestamp sp_Nonce] in *.
  set (tsb := be_encode 8 (uint64 (time_unix_seconds ts))) in *.
  assert (Ltsb : length tsb = 8%nat) by apply length_be_encode.
  pose proof (byte_val_len name Hname) as Vn. pose proof (byte_val_len token Htok) as Vt.
  set (nm := to_bytes name) in *. set (tk := to_bytes token) in *.
  assert (Ld : data = to_bytes "GOMI" ++ tsb ++ nonce ++ [byte_of (len name)] ++ nm
                      ++ [byte_of (len token)] ++ tk ++ sig ++ rest).
  { unfold data, packet_body, shutdown_body.
    cbn [sp_MachineName sp_Token sp_Timestamp sp_Nonce]. by rewrite <- !app_assoc. }
  unfold ParseAndVerifyShutdownPacket, headerLen, magicLen, timestampLen, nonceLen, sigLen in *.
  assert (Llen : length data = (4 + 8 + 12 + 1 + length nm + 1 + length tk + 32 + length rest)%nat).
  { rewrite Ld, !length_app, Hnonce, Ltsb, Lsig. simpl. lia. }
  rewrite bool_decide_eq_false_2 by lia.
  read_piece Ld (@nil ascii) (to_bytes "GOMI"). rewrite of_to_bytes, bool_decide_eq_true_2 by done.
  cbv beta iota delta [negb].
  read_piece Ld (to_bytes "GOMI") tsb.
  read_piece Ld (to_bytes "GOMI" ++ tsb) nonce.
  read_piece Ld (to_bytes "GOMI" ++ tsb ++ nonce) (byte_of (len name)). rewrite Vn, Nat2Z.id.
  rewrite bool_decide_eq_false_2 by lia.
  read_piece Ld (to_bytes "GOMI" ++ tsb ++ nonce ++ [byte_of (len name)]) nm.
  read_piece Ld (to_bytes "GOMI" ++ tsb ++ nonce ++ [byte_of (len name)] ++ nm) (byte_of (len token)).
  rewrite Vt, Nat2Z.id. rewrite bool_decide_eq_false_2 by lia.
  read_piece Ld (to_bytes "GOMI" ++ tsb ++ nonce ++ [byte_of (len name)] ++ nm ++ [byte_of (len token)]) tk.
  set (p := mkShutdownPacket _ _ _ _) in *.
  assert (Lb : length (packet_body p) = (4 + 8 + 12 + 1 + length nm + 1 + length tk)%nat).
  { revert Llen. unfold data. rewrite !length_app. lia. }
  assert (Ed : data = packet_body p ++ sig ++ rest) by done.
  read_piece Ed (@nil ascii) (packet_body p).
  read_piece Ed (packet_body p) sig.
  rewrite bool_decide_eq_true_2 by done. cbv beta iota delta [negb].
  assert (Ets : time_Unix (int64 (be_decode tsb)) = ts) by (unfold tsb; rewrite Hts; by apply decode_timestamp).
  rewrite Ets. change ts with (sp_Timestamp p). rewrite (proj2 (fresh_test p now ttl Httl) Hfresh).
  unfold nm, tk. rewrite !of_to_bytes. done.
Qed.

(** A shutdown packet is accepted exactly when it is a body followed by the
    HMAC of that body under the shared secret (and possibly more bytes), its
    fields are those of the body, and its timestamp is within the ttl of the
    clock on either side.  No datagram makes the parser panic. *)
Lemma shutdown_packet_spec (data : bytes) (secret : string) (now : Time) (ttl : Duration)
  (Httl : 0 <= ttl < max_int64) :
  ParseAndVerifyShutdownPacket data secret now ttl ≠ Panics ∧
  ∀ p, ParseAndVerifyShutdownPacket data secret now ttl = Returns (Ok p) ↔
    packet_ok p ∧ fresh p now ttl ∧
    ∃ rest, data = packet_body p ++ hmac_sha256 (to_bytes secret) (packet_body p) ++ rest.
Proof.
  split; [apply parse_total|]. intros p. split; [by apply parse_sound|].
  intros (Hok & Hf & rest & ->). by apply parse_complete.
Qed.

Definition sample_packet : ShutdownPacket :=
  mkShutdownPacket "node-1" "tok" (time_Unix 1700000000) (replicate 12 (byte_of 7)).

Lemma shutdown_packet_spec_witness :
  ParseAndVerifyShutdownPacket
    (packet_body sample_packet ++ hmac_sha256 (to_bytes "secret") (packet_body sample_packet) ++ [])
    "secret" (time_Unix 1700000042) (60 * Second) = Returns (Ok sample_packet).
Proof.
  refine (proj2 (proj2 (shutdown_packet_spec _ "secret" (time_Unix 1700000042) (60 * Second) _) _) _).
  - vm_compute. split; [discriminate|reflexivity].
  - split; [|split].
    + unfold packet_ok. split_and!; [vm_compute; discriminate..|reflexivity|].
      exists 1700000000. split; [vm_compute; split; discriminate|reflexivity].
    + unfold fresh. vm_compute. split; discriminate.
    + by exists [].
Defined.

Lemma build_parse (read : nat → result bytes) (name token secret : string)
  (sent now : Time) (ttl : Duration) (packet : bytes) (reqid : string)
  (Hread : ∀ n b, read n = Ok b → length b = n)
  (Hsent : min_int64 <= time_unix_seconds sent <= max_int64)
  (Httl : 0 <= ttl < max_int64)
  (Hnow : - ttl <= now - time_Unix (time_unix_seconds sent) <= ttl)
  (Hbuild : buildShutdownPacketWithRequestID read name token secret sent = Ok (packet, reqid)) :
  ∃ p, ParseAndVerifyShutdownPacket packet secret now ttl = Returns (Ok p)
     ∧ sp_MachineName p = name ∧ sp_Token p = token ∧ RequestID p = reqid
     ∧ sp_Timestamp p <= sent < sp_Timestamp p + Second.
Proof.
  unfold buildShutdownPacketWithRequestID in Hbuild.
  destruct ((255 <? len name) || (255 <? len token)) eqn:Hlong; [done|].
  destruct (read nonceLen) as [nonce|] eqn:Hn; [|done]. apply Hread in Hn.
  cbv beta iota zeta delta [mbind result_bind] in Hbuild.
  assert (packet = shutdown_body name token sent nonce
            ++ hmac_sha256 (to_bytes secret) (shutdown_body name token sent nonce)
          ∧ reqid = hex_encode nonce) as [-> ->] by (split; congruence).
  set (p := mkShutdownPacket name token (time_Unix (time_unix_seconds sent)) nonce).
  assert (Hb : packet_body p = shutdown_body name token sent nonce).
  { unfold packet_body, shutdown_body; simpl. by rewrite time_unix_seconds_Unix. }
  exists p. rewrite <- Hb. split.
  - rewrite <- (app_nil_r (hmac_sha256 _ _)). apply parse_complete; [done| |done].
    unfold packet_ok; simpl. split_and!; [lia..|done|]. by eexists.
  - split_and!; try done; unfold time_Unix, time_unix_seconds, Second; simpl.
    + pose proof (Z.mul_div_le sent 1000000000). unfold time_Unix, time_unix_seconds, Second. lia.
    + pose proof (Z.mul_succ_div_gt sent 1000000000).
      unfold time_Unix, time_unix_seconds, Second. lia.
Qed.

(** What the power executor builds for a machine, its shutdown agent accepts
    and reads back: the packet built at [sent] with the machine's token and
    secret is accepted at any time within the ttl of the whole second it was
    stamped with, and gives back the name, the token and the nonce whose
    hexadecimal form is the request id the executor reported. *)
Lemma shutdown_packet_roundtrip (read : nat → result bytes) (name token secret : string)
  (sent now : Time) (ttl : Duration) (packet : bytes) (reqid : string)
  (Hread : ∀ n b, read n = Ok b → length b = n)
  (Hsent : min_int64 <= time_unix_seconds sent <= max_int64)
  (Httl : 0 <= ttl < max_int64)
  (Hnow : - ttl <= now - time_Unix (time_unix_seconds sent) <= ttl)
  (Hbuild : buildShutdownPacketWithRequestID read name token secret sent = Ok (packet, reqid)) :
  ∃ p, ParseAndVerifyShutdownPacket packet secret now ttl = Returns (Ok p)
     ∧ sp_MachineName p = name ∧ sp_Token p = token ∧ RequestID p = reqid
     ∧ sp_Timestamp p <= sent < sp_Timestamp p + Second.
Proof. by eapply build_parse. Qed.

Lemma shutdown_packet_roundtrip_witness :
  ∃ p, ParseAndVerifyShutdownPacket
         (packet_body sample_packet ++ hmac_sha256 (to_bytes "secret") (packet_body sample_packet))
         "secret" (time_Unix 1700000042) (60 * Second) = Returns (Ok p)
     ∧ sp_MachineName p = "node-1".
Proof.
  destruct (shutdown_packet_roundtrip (fun n => Ok (replicate n (byte_of 7))) "node-1" "tok" "secret"
    (time_Unix 1700000000) (time_Unix 1700000042) (60 * Second)
    (packet_body sample_packet ++ hmac_sha256 (to_bytes "secret") (packet_body sample_packet))
    (hex_encode (replicate 12 (byte_of 7)))) as (p & H & Hn & _).
  - intros n b [= <-]. apply length_replicate.
  - vm_compute; split; discriminate.
  - vm_compute; split; [discriminate|reflexivity].
  - vm_compute; split; discriminate.
  - vm_compute. reflexivity.
  - exists p. split; [exact H|exact Hn].
Defined.

(** ** Replay *)

Lemma Seen_cases c nonce now b c' :
  Seen c nonce now = (b, c') →
  rc_retention c' = rc_retention c
  ∧ (∀ n s, rc_seen c' !! n = Some s →
       (rc_seen c !! n = Some s) ∨ (n = nonce ∧ s = now ∧ b = false))
  ∧ (∀ n s, rc_seen c !! n = Some s → ¬ (time_Sub now s > rc_retention c) → rc_seen c' !! n = Some s)
  ∧ (b = false → rc_seen c' !! nonce = Some now ∧
       ∀ s, rc_seen c !! nonce = Some s → time_Sub now s > rc_retention c).
Proof.
  unfold Seen. set (kept := filter _ _).
  assert (Hk : ∀ n s, kept !! n = Some s ↔
    rc_seen c !! n = Some s ∧ ¬ (time_Sub now s > rc_retention c)).
  { intros n s. unfold kept. by rewrite map_lookup_filter_Some. }
  destruct (kept !! nonce) as [s0|] eqn:E; intros [= <- <-]; cbn [rc_retention rc_seen].
  - split_and!; [done|..].
    + intros n s H%Hk. naive_solver.
    + intros n s ? ?. by apply Hk.
    + done.
  - assert (Hnone : ∀ s, rc_seen c !! nonce = Some s → time_Sub now s > rc_retention c).
    { intros s Hs. destruct (decide (time_Sub now s > rc_retention c)); [done|].
      assert (kept !! nonce = Some s) by (by apply Hk). congruence. }
    split_and!; [done|..].
    + intros n s. rewrite lookup_insert_Some. intros [[<- <-]|[? H%Hk]]; naive_solver.
    + intros n s ? ?. rewrite lookup_insert_ne; [by apply Hk|]. intros <-. naive_solver.
    + intros _. split; [by rewrite lookup_insert_eq|done].
Qed.

Section replay.
Context (cfg : DaemonConfig) (skew delay : Duration).
Abbreviation ttl := (daemon_ttl cfg).

(** The daemon reads a monotone clock, twice per datagram, at most [delay]
    apart; a packet it accepts is dated at most [skew] ahead of that clock. *)
Fixpoint clocked (clock : Time) (evs : list daemon_event) : Prop :=
  match evs with
  | [] => True
  | EvPacket data t_parse t_seen _ :: evs =>
      clock <= t_parse <= t_seen ∧ t_seen <= t_parse + delay
      ∧ (∀ p, ParseAndVerifyShutdownPacket data (dc_HMACSecret cfg) t_parse ttl = Returns (Ok p) →
              sp_Timestamp p <= t_parse + skew)
      ∧ clocked t_seen evs
  | _ :: evs => clocked clock evs
  end.

(** A packet that can no longer be accepted once the clock reads [clock]: its
    nonce is remembered since a time close enough to its timestamp, or it is
    stale. *)
Definition spent (cache : ShutdownReplayCache) (clock : Time) (p : ShutdownPacket) : Prop :=
  (∃ s, rc_seen cache !! sp_Nonce p = Some s ∧ sp_Timestamp p <= s + skew)
  ∨ sp_Timestamp p + ttl + delay < clock.

Context (Httl : 0 <= ttl < 2 ^ 62) (Hskew : skew + delay <= ttl).

(** One datagram: spent packets stay spent and are not handed out again; the
    packet handed out becomes spent. *)
Lemma daemon_step_spent cache clock data t_parse t_seen cb evs o cache' :
  rc_retention cache = 2 * ttl →
  clocked clock (EvPacket data t_parse t_seen cb :: evs) →
  daemon_step cfg cache data t_parse t_seen = Returns (o, cache') →
  rc_retention cache' = 2 * ttl
  ∧ (∀ p, spent cache clock p → spent cache' t_seen p ∧ o ≠ Some p)
  ∧ (∀ p, o = Some p → spent cache' t_seen p).
Proof.
  intros Hret ([Hc Hp] & Hd & Hs & _). unfold daemon_step.
  intros (r & Hparse & H)%bind_Returns_inv. revert H. cbv beta.
  assert (Hgap : ∀ s, time_Sub t_seen s > 2 * ttl → s + 2 * ttl < t_seen).
  { intros s Hg. pose proof (time_Sub_gt t_seen s (2 * ttl)) as E.
    unfold min_int64, max_int64 in E. lia. }
  assert (Hsame : ∀ p, spent cache clock p → spent cache t_seen p).
  { intros p [?|?]; [by left|right; lia]. }
  destruct r as [q|e]; [|intros [= <- <-]; naive_solver].
  destruct (_ && _); [intros [= <- <-]; naive_solver|].
  assert (Httl' : 0 <= ttl < max_int64) by (unfold max_int64; lia).
  pose proof (parse_sound _ _ _ _ _ Httl' Hparse) as (_ & Hfresh & _).
  unfold fresh in Hfresh. specialize (Hs q Hparse).
  destruct (Seen cache (sp_Nonce q) t_seen) as [b c'] eqn:ES.
  destruct (Seen_cases _ _ _ _ _ ES) as (Hr & Hold & Hkeep & Hnew). rewrite Hret in *.
  assert (Hstay : ∀ p, spent cache clock p → spent c' t_seen p).
  { intros p [(s & Hs1 & Hs2)|?]; [|right; lia].
    destruct (decide (time_Sub t_seen s > 2 * ttl)) as [Hg|Hg]; [|left; eauto].
    right. apply Hgap in Hg. lia. }
  destruct b; intros [= <- <-]; [naive_solver|]. destruct (Hnew eq_refl) as [Hin Hout].
  split_and!; [done| |].
  - intros p Hsp. split; [by apply Hstay|]. intros [= <-].
    destruct Hsp as [(s & Hs1 & Hs2)|?]; [|lia]. apply Hout, Hgap in Hs1. lia.
  - intros p [= <-]. left. exists t_seen. split; [done|lia].
Qed.

Lemma daemon_loop_NoDup evs : ∀ cache clock ps fin,
  rc_retention cache = 2 * ttl → clocked clock evs →
  daemon_loop cfg cache evs = Returns (ps, fin) →
  NoDup ps ∧ ∀ p, spent cache clock p → p ∉ ps.
Proof.
  induction evs as [|ev evs IH]; intros cache clock ps fin Hret Hck; simpl.
  { intros [= <- <-]. split; [constructor|set_solver]. }
  destruct ev as [done|e|data t_parse t_seen cb].
  - destruct done; [intros [= <- <-]; split; [constructor|set_solver]|]. by apply IH.
  - intros [= <- <-]. split; [constructor|set_solver].
  - intros ([o cache'] & Hstep & H)%bind_Returns_inv. revert H. cbv beta iota.
    destruct (daemon_step_spent _ _ _ _ _ _ _ _ _ Hret Hck Hstep) as (Hret' & Hold & Hnew).
    destruct Hck as (_ & _ & _ & Hck').
    destruct o as [p|].
    + destruct cb as [e|].
      { intros [= <- <-]. split; [apply NoDup_singleton|]. intros q [_ Hq]%Hold. set_solver. }
      intros ([ps' fin'] & Hrest & H)%bind_Returns_inv. injection H as <- <-.
      destruct (IH _ _ _ _ Hret' Hck' Hrest) as [Hnd Hin]. simpl. split.
      * constructor; [|done]. apply Hin. by apply Hnew.
      * intros q [Hq Hne]%Hold. apply Hin in Hq. set_solver.
    + intros Hrest. destruct (IH _ _ _ _ Hret' Hck' Hrest) as [Hnd Hin].
      split; [done|]. intros q [Hq _]%Hold. by apply Hin.
Qed.

(** C3: replay safety of the shutdown daemon.  However often and in whatever
    order captured datagrams are sent again (with bytes appended or not), each
    signed packet is handed to the shutdown callback at most once.  The nonce
    cache keeps a nonce for twice the ttl of its own clock, which is enough as
    long as the sender's clock is ahead by [skew], an iteration takes [delay],
    and the two together are at most the ttl. *)
Theorem shutdown_no_replay (start : Time) (evs : list daemon_event)
  (ps : list ShutdownPacket) (fin : option (option error))
  (Hclock : clocked start evs) (Hrun : Run cfg evs = Returns (ps, fin)) : NoDup ps.
Proof.
  eapply daemon_loop_NoDup; [|exact Hclock|exact Hrun].
  unfold NewShutdownReplayCache; simpl. apply int64_small. unfold min_int64, max_int64. lia.
Qed.
End replay.

Definition sample_datagram : bytes :=
  packet_body sample_packet ++ hmac_sha256 (to_bytes "secret") (packet_body sample_packet).

Lemma shutdown_no_replay_witness :
  Run (mkDaemonConfig "secret" "tok" 0)
    [EvPacket sample_datagram (time_Unix 1700000001) (time_Unix 1700000002) None;
     EvTimeout false;
     EvPacket (sample_datagram ++ [byte_of 0]) (time_Unix 1700000003) (time_Unix 1700000003) None]
  = Returns ([sample_packet], None) ∧ NoDup [sample_packet].
Proof.
  assert (Hrun : Run (mkDaemonConfig "secret" "tok" 0)
    [EvPacket sample_datagram (time_Unix 1700000001) (time_Unix 1700000002) None;
     EvTimeout false;
     EvPacket (sample_datagram ++ [byte_of 0]) (time_Unix 1700000003) (time_Unix 1700000003) None]
    = Returns ([sample_packet], None)) by (vm_compute; reflexivity).
  split; [exact Hrun|].
  refine (shutdown_no_replay (mkDaemonConfig "secret" "tok" 0) 0 Second _ _ 0 _ _ _ _ Hrun).
  - vm_compute; split; [discriminate|reflexivity].
  - vm_compute; discriminate.
  - assert (Hp : ∀ data t p,
      (ParseAndVerifyShutdownPacket data "secret" t (60 * Second) = Returns (Ok sample_packet)) →
      ParseAndVerifyShutdownPacket data "secret" t (60 * Second) = Returns (Ok p) →
      time_Unix 1700000000 <= t → sp_Timestamp p <= t + 0).
    { intros data t p H1 H2 Ht. rewrite H1 in H2. injection H2 as <-. rewrite Z.add_0_r. exact Ht. }
    change (daemon_ttl (mkDaemonConfig "secret" "tok" 0)) with (60 * Second) in *.
    split; [vm_compute; split; discriminate|]. split; [vm_compute; discriminate|].
    split; [intros p H; refine (Hp _ _ _ _ H _); vm_compute; [reflexivity|discriminate]|].
    split; [vm_compute; split; discriminate|]. split; [vm_compute; discriminate|].
    split; [|exact I]. intros p H; refine (Hp _ _ _ _ H _); vm_compute; [reflexivity|discriminate].
Defined.

(** ** The magic packet *)

Lemma copy_at_fits pre (mid src suf : bytes) :
  length mid = length src → copy_at (pre ++ mid ++ suf) (length pre) src = pre ++ src ++ suf.
Proof.
  intros E. unfold copy_at. rewrite take_app_length. f_equal.
  rewrite !length_app, take_ge by lia. f_equal.
  rewrite drop_app_add, <- E. by rewrite drop_app_length.
Qed.

(** Filling [k] blank slots of the length of [mac]. *)
Lemma fill_macs_blank mac z k : ∀ fuel pre,
  mac ≠ [] → (k < fuel)%nat →
  fill_macs fuel (length pre) mac (pre ++ replicate (k * length mac) z)
  = pre ++ mjoin (replicate k mac).
Proof.
  induction k as [|k IH]; intros [|fuel] pre Hmac Hf; try lia; cbn [fill_macs].
  - rewrite bool_decide_eq_false_2; [done|]. rewrite !app_nil_r. lia.
  - assert (length mac ≠ 0)%nat by (by destruct mac).
    rewrite bool_decide_eq_true_2 by (rewrite length_app, length_replicate; simpl; lia).
    replace (S k * length mac)%nat with (length mac + k * length mac)%nat by lia.
    rewrite replicate_add, copy_at_fits by apply length_replicate.
    rewrite <- length_app, app_assoc, IH by (done || lia). by rewrite <- app_assoc.
Qed.

(** The Wake-on-LAN packet for any MAC address [net.ParseMAC] accepts is six
    bytes 0xFF followed by sixteen copies of the address; any other string is
    refused. *)
Lemma wake_packet_spec (s : string) :
  buildWakePacket s =
  match ParseMAC s with
  | None => Err (ErrWrap "parse mac: " (ErrNew ("address " +:+ s +:+ ": invalid MAC address")) "")
  | Some mac => Ok (replicate 6 (byte_of 255) ++ mjoin (replicate 16 mac))
  end.
Proof.
  unfold buildWakePacket. destruct (ParseMAC s) as [mac|] eqn:E; [|done]. f_equal.
  rewrite replicate_add. change (fold_left _ _ _) with
    (replicate 6 (byte_of 255) ++ replicate (16 * length mac) (byte_of 0)).
  apply (fill_macs_blank mac (byte_of 0) 16 17 (replicate 6 (byte_of 255))); [|lia].
  apply ParseMAC_length in E. by destruct mac.
Qed.

(** ** Wake-on-LAN defaults *)

Lemma fill_secret_kept read n what cur : TrimSpace cur ≠ "" → fill_secret read n what cur = Ok cur.
Proof. intros H. unfold fill_secret. by rewrite bool_decide_eq_false_2. Qed.

(** A generated secret is not blank: it is the hexadecimal form of at least one
    byte. *)
Lemma fill_secret_usable read n what cur t :
  (∀ k b, read k = Ok b → length b = k) → (0 < n)%nat →
  fill_secret read n what cur = Ok t → TrimSpace t ≠ "" ∧ (TrimSpace cur ≠ "" → t = cur).
Proof.
  intros Hread Hn. unfold fill_secret, generateToken. case_bool_decide as Hb; [|by intros [= <-]].
  destruct (read n) as [b|] eqn:E; [|done]. intros [= <-]. split; [|done].
  apply Hread in E. rewrite TrimSpace_hex. intros H%(f_equal to_bytes)%(f_equal length).
  rewrite length_to_bytes, hex_encode_length in H. simpl in H. lia.
Qed.

(** Validation looks at nothing the defaults fill. *)
Lemma FillWoLDefaults_validate read1 read2 cfg cfg' :
  FillWoLDefaults read1 read2 cfg = Ok cfg' → ValidatePowerConfig cfg' = ValidatePowerConfig cfg.
Proof.
  unfold FillWoLDefaults. destruct (negb _); [congruence|].
  destruct (pc_WoL cfg) as [w|] eqn:Ew; [|congruence].
  destruct (fill_secret read1 _ _ _) as [tok|]; [|done].
  destruct (fill_secret read2 _ _ _) as [sec|]; [|done]. cbn [mbind result_bind].
  set (w' := if wol_TokenTTLSeconds _ =? 0 then _ else _).
  assert (Hmac : wol_WakeMAC w' = wol_WakeMAC w).
  { unfold w'. by repeat (case_match; simpl). }
  clearbody w'. intros [= <-]. unfold ValidatePowerConfig; simpl. by rewrite Ew, Hmac.
Qed.

(** What [FillWoLDefaults] leaves of a Wake-on-LAN configuration. *)
Record wol_filled (w w' : WoLConfig) : Prop := {
  filled_mac : wol_WakeMAC w' = wol_WakeMAC w;
  filled_target : wol_ShutdownTarget w' = wol_ShutdownTarget w;
  filled_token : TrimSpace (wol_Token w') ≠ "" ∧ (TrimSpace (wol_Token w) ≠ "" → wol_Token w' = wol_Token w);
  filled_secret : TrimSpace (wol_HMACSecret w') ≠ ""
    ∧ (TrimSpace (wol_HMACSecret w) ≠ "" → wol_HMACSecret w' = wol_HMACSecret w);
  filled_broadcast : wol_BroadcastIP w' = (if wol_BroadcastIP w ==? "" then "255.255.255.255" else wol_BroadcastIP w);
  filled_port : wol_Port w' = (if wol_Port w =? 0 then 9 else wol_Port w);
  filled_udp : wol_ShutdownUDPPort w' = (if wol_ShutdownUDPPort w =? 0 then 40000 else wol_ShutdownUDPPort w);
  filled_ttl : wol_TokenTTLSeconds w' = (if wol_TokenTTLSeconds w =? 0 then 60 else wol_TokenTTLSeconds w) }.

(** Filling the Wake-on-LAN defaults of a configuration keeps every value
    that was set and gives every other one its default; the generated secrets are
    usable; validation judges the result as it judged the input; filling again
    (with any randomness) changes nothing.  Another power type is left as it is. *)
Lemma fill_wol_defaults_spec (read1 read2 : nat → result bytes) (cfg cfg' : PowerConfig)
  (Hread1 : ∀ k b, read1 k = Ok b → length b = k) (Hread2 : ∀ k b, read2 k = Ok b → length b = k)
  (Hfill : FillWoLDefaults read1 read2 cfg = Ok cfg') :
  (pc_Type cfg ≠ PowerTypeWoL → cfg' = cfg)
  ∧ (∀ w, pc_Type cfg = PowerTypeWoL → pc_WoL cfg = Some w →
       ∃ w', cfg' = cfg <| pc_WoL := Some w' |> ∧ wol_filled w w')
  ∧ ValidatePowerConfig cfg' = ValidatePowerConfig cfg
  ∧ ∀ r1 r2, FillWoLDefaults r1 r2 cfg' = Ok cfg'.
Proof.
  destruct cfg as [ty ipmi wh wol man]. unfold FillWoLDefaults in Hfill. simpl in Hfill.
  case_bool_decide as Hty; simpl in Hfill; cycle 1.
  { injection Hfill as <-. split_and!; [done..|]. intros. unfold FillWoLDefaults; simpl.
    by rewrite bool_decide_eq_false_2. }
  subst ty. destruct wol as [w|]; [|by injection Hfill as <-].
  destruct (fill_secret read1 _ _ _) as [tok|] eqn:Et; [|done].
  destruct (fill_secret read2 _ _ _) as [sec|] eqn:Es; [|done]. simpl in Hfill.
  apply fill_secret_usable in Et as [Ht Ht']; [|done|lia].
  apply fill_secret_usable in Es as [Hs Hs']; [|done|lia].
  destruct w as [mac bip port tgt udp s t ttl]; simpl in *.
  assert (Hw : ∃ w', cfg' = mkPowerConfig PowerTypeWoL ipmi wh (Some w') man
    ∧ wol_filled (mkWoLConfig mac bip port tgt udp s t ttl) w').
  { exists (mkWoLConfig mac (if bip ==? "" then "255.255.255.255" else bip) (if port =? 0 then 9 else port)
      tgt (if udp =? 0 then 40000 else udp) sec tok (if ttl =? 0 then 60 else ttl)).
    split; [|by constructor].
    destruct (bip ==? ""); simpl in *; destruct (port =? 0); simpl in *;
      destruct (udp =? 0); simpl in *; destruct (ttl =? 0); simpl in *; by injection Hfill as <-. }
  destruct Hw as (w' & -> & Hw). split_and!; [done|..].
  - intros w _ [= <-]. by exists w'.
  - unfold ValidatePowerConfig; simpl. by rewrite (filled_mac _ _ Hw).
  - intros r1 r2. unfold FillWoLDefaults; simpl.
    destruct Hw as [E1 E2 [E3 _] [E4 _] E5 E6 E7 E8]; simpl in *.
    rewrite !fill_secret_kept by done. destruct w' as [mac' bip' port' tgt' udp' s' t' ttl']; simpl in *.
    rewrite bool_decide_eq_false_2 by (subst; case_bool_decide; done). simpl.
    replace (port' =? 0) with false by (subst; destruct (port =? 0) eqn:?; lia). simpl.
    replace (udp' =? 0) with false by (subst; destruct (udp =? 0) eqn:?; lia). simpl.
    by replace (ttl' =? 0) with false by (subst; destruct (ttl =? 0) eqn:?; lia).
Qed.

Lemma fill_wol_defaults_spec_witness :
  ∃ w', wol_filled (mkWoLConfig "aa:bb:cc:dd:ee:ff" "" 0 "" 0 "s3cret" "" 0) w'.
Proof.
  set (cfg := mkPowerConfig PowerTypeWoL None None
                (Some (mkWoLConfig "aa:bb:cc:dd:ee:ff" "" 0 "" 0 "s3cret" "" 0)) None).
  set (read := fun n : nat => Ok (replicate n (byte_of 7))).
  assert (Hread : ∀ k b, read k = Ok b → length b = k).
  { intros k b H. injection H as <-. apply length_replicate. }
  destruct (FillWoLDefaults read read cfg) as [cfg'|e] eqn:E; [|vm_compute in E; discriminate E].
  destruct (fill_wol_defaults_spec read read cfg cfg' Hread Hread E) as (_ & H & _).
  destruct (H _ eq_refl eq_refl) as (w' & _ & Hw). exists w'. exact Hw.
Defined.

(** ** Sending *)

Section sending.
Context (send : nat → string → bytes → option error) (ctx_done : nat → bool) (ctx_err : error).

(** The datagrams that leave: those of the rounds before the context ends. *)
Lemma send_rounds_spec target payload delays : ∀ i sent count lastErr err n,
  send_rounds send ctx_done ctx_err target payload delays i sent count lastErr = (err, n) →
  (sent = true → err = None) ∧ (count <= n <= count + length delays)%nat
  ∧ (err = None ∧ sent = false ∧ lastErr ≠ None → count < n)%nat
  ∧ (sent = false → (count < n)%nat → err = None).
Proof.
  induction delays as [|d delays IH]; intros i sent count lastErr err n; simpl.
  { intros [= <- <-]. destruct sent; split_and!; intros; try lia; naive_solver. }
  destruct ((0 <? d) && ctx_done i).
  { intros [= <- <-]. destruct sent; split_and!; intros; try lia; naive_solver. }
  destruct (send i target payload) as [e|].
  - intros H%IH. destruct H as (H1 & H2 & H3 & H4). split_and!; try lia; auto. naive_solver.
  - intros H%IH. destruct H as (H1 & H2 & H3 & H4). split_and!; try lia; auto.
Qed.
End sending.

(** ** Webhook bodies *)

Lemma merge_payload_spec payload extras :
  merge_payload payload extras = payload ∪ (JString <$> extras).
Proof.
  unfold merge_payload.
  apply (map_fold_weak_ind (fun merged extras => merged = payload ∪ (JString <$> extras))).
  - by rewrite fmap_empty, map_union_empty.
  - intros k v extras' merged Hk ->. rewrite fmap_insert.
    assert (Hk' : (JString <$> extras') !! k = None) by (by rewrite lookup_fmap, Hk).
    destruct (payload !! k) as [x|] eqn:E.
    + rewrite (lookup_union_Some_l _ _ _ _ E). apply map_eq. intros k'.
      destruct (decide (k' = k)) as [->|?]; [by rewrite !(lookup_union_Some_l _ _ _ _ E)|].
      by rewrite !lookup_union, lookup_insert_ne.
    + rewrite (proj2 (lookup_union_None _ _ _) (conj E Hk')). by rewrite insert_union_r.
Qed.

(** A webhook power request goes to the URL of its action, with the
    configured headers, and carries the machine's identity and the action: the
    configured extras are added but can replace none of these keys.  The request
    succeeds exactly on a 2xx status. *)
Lemma webhook_request_spec (post : string → gmap string string → gmap string jvalue → result Z)
  (uuid ts : string) (m : MachineInfo) (cfg : WebhookConfig) (action : Action)
  (Haction : action = ActionPowerOn ∨ action = ActionPowerOff) :
  ∃ body, (∀ k v, machine_payload uuid ts m !! k = Some v → body !! k = Some v)
    ∧ body !! "action" = Some (JString action)
    ∧ (∀ k v, wh_BodyExtras cfg !! k = Some v → machine_payload uuid ts m !! k = None → k ≠ "action" →
         body !! k = Some (JString v))
    ∧ executeWebhook post uuid ts m cfg action =
        match post (if action ==? ActionPowerOn then wh_PowerOnURL cfg else wh_PowerOffURL cfg)
                   (wh_Headers cfg) body with
        | Err e => Some e
        | Ok st => if (200 <=? st) && (st <? 300) then None
                   else Some (ErrNew ("webhook returned status " +:+ Itoa st))
        end.
Proof.
  set (payload := <["action" := JString action]> (machine_payload uuid ts m)).
  assert (Hact : machine_payload uuid ts m !! "action" = None) by reflexivity.
  exists (merge_payload payload (wh_BodyExtras cfg)). rewrite merge_payload_spec. split_and!.
  - intros k v Hk. apply lookup_union_Some_l. unfold payload.
    rewrite lookup_insert_ne; [done|]. intros <-. congruence.
  - apply lookup_union_Some_l. apply lookup_insert_eq.
  - intros k v Hk Hm Hne. rewrite lookup_union_r; [by rewrite lookup_fmap, Hk|].
    unfold payload. by rewrite lookup_insert_ne.
  - unfold executeWebhook, postWebhookJSON.
    assert (E : ∀ url, match post url (wh_Headers cfg) (merge_payload payload (wh_BodyExtras cfg)) with
      | Ok st => if (st <? 200) || (300 <=? st) then Some (ErrNew ("webhook returned status " +:+ Itoa st)) else None
      | Err e => Some e end =
      match post url (wh_Headers cfg) (payload ∪ (JString <$> wh_BodyExtras cfg)) with
      | Ok st => if (200 <=? st) && (st <? 300) then None else Some (ErrNew ("webhook returned status " +:+ Itoa st))
      | Err e => Some e end).
    { intros url. rewrite merge_payload_spec. destruct (post _ _ _) as [st|]; [|done].
      destruct (st <? 200) eqn:E1, (300 <=? st) eqn:E2; simpl;
        destruct (200 <=? st) eqn:E3, (st <? 300) eqn:E4; simpl; lia || done. }
    destruct Haction as [-> | ->]; apply E.
Qed.

Lemma webhook_request_spec_witness :
  executeWebhook (fun _ _ body => if body !! "machineId" ==? Some (JString "node-1") then Ok 200 else Ok 500)
    "u" "t" (mkMachineInfo "node-1" "h" "m" "i" (mkPowerConfig PowerTypeWebhook None None None None))
    (mkWebhookConfig "on" "off" "" "" ∅ {[ "machineId" := "evil" ]}) ActionPowerOn = None.
Proof.
  destruct (webhook_request_spec
    (fun _ _ body => if body !! "machineId" ==? Some (JString "node-1") then Ok 200 else Ok 500)
    "u" "t" (mkMachineInfo "node-1" "h" "m" "i" (mkPowerConfig PowerTypeWebhook None None None None))
    (mkWebhookConfig "on" "off" "" "" ∅ {[ "machineId" := "evil" ]}) ActionPowerOn (or_introl eq_refl))
    as (body & H & _ & _ & ->).
  rewrite (H "machineId" (JString "node-1")) by (vm_compute; reflexivity). vm_compute. reflexivity.
Defined.

(** A Wake-on-LAN send reports success exactly when a datagram left; it sends
    at most one per round, and an ended context stops it. *)
Lemma wol_send_reports (send : nat → string → bytes → option error) (ctx_done : nat → bool)
  (ctx_err : error) (target : string) (payload : bytes) (delays : list Duration) :
  let '(err, n) := sendUDPWithDelays send ctx_done ctx_err target payload delays in
  (err = None ↔ 0 < n)%nat ∧ (n <= Nat.max 1 (length delays))%nat.
Proof.
  destruct (sendUDPWithDelays _ _ _ _ _ _) as [err n] eqn:E. unfold sendUDPWithDelays in E.
  destruct delays as [|d delays].
  { destruct (send _ _ _); injection E as <- <-; simpl; split; [naive_solver lia|lia|naive_solver lia|lia]. }
  cbn [send_rounds] in E. destruct (_ && _).
  { injection E as <- <-. simpl. split; [naive_solver lia|lia]. }
  destruct (send _ _ _) as [e|]; apply send_rounds_spec in E as (H1 & H2 & H3 & H4);
    cbn [length]; (split; [split|]); try lia.
  - intros ->. apply H3. done.
  - intros. by apply H4.
  - intros. by apply H1.
Qed.

(** Powering off a Wake-on-LAN machine works end to end.  The executor sends
    one datagram to the shutdown port of the target; an agent that holds the same
    secret (and expects the same token, or none), receives it within the ttl and
    has not seen its nonce hands it to its shutdown callback, for this machine and
    under the request id the executor returned. *)
Lemma wol_power_off_end_to_end
  (run : list string → string * option error)
  (post : string → gmap string string → gmap string jvalue → result Z)
  (send : nat → string → bytes → option error)
  (ctx_done : nat → bool) (ctx_err : error) (uuid ts : string)
  (read : nat → result bytes) (sent t1 t2 : Time) (m : MachineInfo) (w : WoLConfig) (nonce : bytes)
  (dcfg : DaemonConfig) (cache : ShutdownReplayCache)
  (Htype : pc_Type (mi_Power m) = PowerTypeWoL) (Hw : pc_WoL (mi_Power m) = Some w)
  (Hsecret : TrimSpace (wol_HMACSecret w) ≠ "") (Htoken : TrimSpace (wol_Token w) ≠ "")
  (Htarget : TrimSpace (wol_ShutdownTarget w) ≠ "")
  (Hlen : len (mi_Name m) <= 255 ∧ len (wol_Token w) <= 255)
  (Hread : ∀ n b, read n = Ok b → length b = n) (Hnonce : read 12%nat = Ok nonce)
  (Hsent : min_int64 <= time_unix_seconds sent <= max_int64)
  (Hsame : dc_HMACSecret dcfg = wol_HMACSecret w)
  (Hexp : dc_ExpectedToken dcfg = "" ∨ dc_ExpectedToken dcfg = wol_Token w)
  (Httl : 0 <= daemon_ttl dcfg < max_int64)
  (Hwindow : - daemon_ttl dcfg <= t1 - time_Unix (time_unix_seconds sent) <= daemon_ttl dcfg)
  (Hunseen : rc_seen cache !! nonce = None) :
  ∃ packet p cache',
    ExecuteWithResult run post send ctx_done ctx_err uuid ts read sent m ActionPowerOff =
      (RequestID p, send 0%nat (JoinHostPort (TrimSpace (wol_ShutdownTarget w))
         (Itoa (if wol_ShutdownUDPPort w =? 0 then 40000 else wol_ShutdownUDPPort w))) packet)
    ∧ daemon_step dcfg cache packet t1 t2 = Returns (Some p, cache')
    ∧ sp_MachineName p = mi_Name m ∧ sp_Nonce p = nonce.
Proof.
  destruct (buildShutdownPacketWithRequestID read (mi_Name m) (wol_Token w) (wol_HMACSecret w) sent)
    as [[packet reqid]|e] eqn:Hb; cycle 1.
  { unfold buildShutdownPacketWithRequestID in Hb. replace (_ || _) with false in Hb by lia.
    unfold nonceLen in Hb. rewrite Hnonce in Hb. discriminate. }
  destruct (build_parse _ _ _ _ _ t1 _ _ _ Hread Hsent Httl Hwindow Hb) as (p & Hp & Hn & Ht & Hr & _).
  assert (sp_Nonce p = nonce) as Hpn.
  { apply hex_encode_inj. unfold RequestID in Hr. rewrite Hr.
    unfold buildShutdownPacketWithRequestID in Hb. replace (_ || _) with false in Hb by lia.
    unfold nonceLen in Hb. rewrite Hnonce in Hb. simpl in Hb. congruence. }
  destruct (Seen cache nonce t2) as [b cache'] eqn:ES.
  exists packet, p, cache'. split_and!; try done.
  - unfold ExecuteWithResult, executeWoL. rewrite Htype, Hw. cbn -[TrimSpace].
    rewrite (bool_decide_eq_false_2 (TrimSpace (wol_HMACSecret w) = "")),
      (bool_decide_eq_false_2 (TrimSpace (wol_Token w) = "")),
      (bool_decide_eq_false_2 (TrimSpace (wol_ShutdownTarget w) = "")) by done.
    rewrite Hb. cbn -[TrimSpace]. rewrite Hr.
    change (PowerTypeWoL ==? PowerTypeIPMI) with false. change (PowerTypeWoL ==? PowerTypeWebhook) with false.
    change (PowerTypeWoL ==? PowerTypeWoL) with true. change (ActionPowerOff ==? ActionPowerOn) with false.
    change (ActionPowerOff ==? ActionPowerOff) with true.
    cbn -[TrimSpace]. by rewrite (bool_decide_eq_false_2 (TrimSpace (wol_ShutdownTarget w) = "")).
  - unfold daemon_step. rewrite Hsame, Hp. step_return. cbv beta iota. rewrite Hpn, ES, Ht.
    assert (b = false) as ->.
    { unfold Seen in ES. rewrite (proj2 (map_lookup_filter_None _ _ _)) in ES by (by left). congruence. }
    destruct Hexp as [E | E]; rewrite E; [done|].
    rewrite (bool_decide_eq_true_2 (wol_Token w = wol_Token w)) by done.
    by rewrite andb_false_r.
Qed.

Lemma wol_power_off_end_to_end_witness :
  ∃ packet p cache',
    daemon_step (mkDaemonConfig "s3cret" "" 0) (NewShutdownReplayCache (60 * Second)) packet
      (time_Unix 1700000005) (time_Unix 1700000006) = Returns (Some p, cache')
    ∧ sp_MachineName p = "node-1".
Proof.
  destruct (wol_power_off_end_to_end (fun _ => ("", None)) (fun _ _ _ => Ok 200) (fun _ _ _ => None)
    (fun _ => false) ErrCanceled "u" "t" (fun n => Ok (replicate n (byte_of 7)))
    (time_Unix 1700000000) (time_Unix 1700000005) (time_Unix 1700000006)
    (mkMachineInfo "node-1" "h" "m" "10.0.0.5" (mkPowerConfig PowerTypeWoL None None
       (Some (mkWoLConfig "aa:bb:cc:dd:ee:ff" "" 9 "10.0.0.5" 0 "s3cret" "tok" 60)) None))
    (mkWoLConfig "aa:bb:cc:dd:ee:ff" "" 9 "10.0.0.5" 0 "s3cret" "tok" 60)
    (replicate 12 (byte_of 7)) (mkDaemonConfig "s3cret" "" 0) (NewShutdownReplayCache (60 * Second)))
    as (packet & p & cache' & _ & Hd & Hn & _).
  - reflexivity.
  - reflexivity.
  - vm_compute; discriminate.
  - vm_compute; discriminate.
  - vm_compute; discriminate.
  - vm_compute; split; discriminate.
  - intros n b H. injection H as <-. apply length_replicate.
  - reflexivity.
  - vm_compute; split; discriminate.
  - reflexivity.
  - left. reflexivity.
  - vm_compute. split; [discriminate|reflexivity].
  - vm_compute; split; discriminate.
  - reflexivity.
  - exists packet, p, cache'. split; [exact Hd|exact Hn].
Defined.
