(* ===== verification/Subnet.v ===== *)
(** * internal/subnet: subnet descriptions and their validation *)
From S2P Require Import Prelude GoStrings GoNet.

Record AddressRange := mkAddressRange { ar_Start : string; ar_End : string }.

Record DHCPReservation := mkDHCPReservation { dr_MAC : string; dr_IP : string; dr_Hostname : string }.

Record SubnetSpec := mkSubnetSpec {
  ss_CIDR : string;
  ss_PXEInterface : string;
  ss_PXEAddressRange : option AddressRange;
  ss_DefaultGateway : string;
  ss_DNSServers : list string;
  ss_DNSSearchDomains : list string;
  ss_VLANID : Z;
  ss_ReservedRanges : list AddressRange;
  ss_Reservations : list DHCPReservation;
  ss_LeaseTime : Z;
  ss_DomainName : string;
  ss_NTPServers : list string }.

Record Subnet := mkSubnet {
  sn_Name : string; sn_Spec : SubnetSpec; sn_CreatedAt : Time; sn_UpdatedAt : Time }.

Global Instance AddressRange_eq_dec : EqDecision AddressRange.
Proof. solve_decision. Defined.
Global Instance DHCPReservation_eq_dec : EqDecision DHCPReservation.
Proof. solve_decision. Defined.
Global Instance SubnetSpec_eq_dec : EqDecision SubnetSpec.
Proof. solve_decision. Defined.

(** ** Validation *)

Definition is_ip (s : string) : bool := ParseIP s !=? None.

(** One byte of a label at position [i] of [n]; a byte of a multi-byte character
    is none of the accepted ones. *)
Definition label_char_ok (n i : nat) (c : ascii) : bool :=
  is_lower c || is_upper c || is_digit c
  || ((c ==? "-"%char) && bool_decide (0 < i)%nat && bool_decide (i < n - 1)%nat).

Definition label_ok (label : bytes) : bool :=
  negb (bool_decide (length label = 0%nat) || bool_decide (63 < length label)%nat)
  && forallb (fun ic => label_char_ok (length label) ic.1 ic.2) (imap pair label).

Definition isValidDomainName (name : string) : bool :=
  if 253 <? len name then false
  else forallb label_ok (split_bytes "."%char (to_bytes name)).

(** [for _, x := range xs { if bad(x) { return err(x) } }]. *)
Definition first_bad (bad : string → bool) (err : string → error) (xs : list string) : option error :=
  err <$> List.find bad xs.

Definition range_error (what : string) (r : AddressRange) : option error :=
  if negb (is_ip (ar_Start r)) then Some (ErrNew (what +:+ ".start is invalid: " +:+ ar_Start r))
  else if negb (is_ip (ar_End r)) then Some (ErrNew (what +:+ ".end is invalid: " +:+ ar_End r))
  else None.

Fixpoint reserved_ranges_error (i : Z) (rs : list AddressRange) : option error :=
  match rs with
  | [] => None
  | r :: rs =>
      match range_error ("spec.reservedRanges[" +:+ Itoa i +:+ "]") r with
      | Some e => Some e
      | None => reserved_ranges_error (i + 1) rs
      end
  end.

(** The error of [net.ParseCIDR] is a [*net.ParseError]. *)
Definition cidr_error (s : string) : error := ErrNew ("invalid CIDR address: " +:+ s).

Definition ValidateSubnet (s : Subnet) : option error :=
  let spec := sn_Spec s in
  match
    _ ← ensure (TrimSpace (sn_Name s) !=? "") (ErrNew "name is required");
    _ ← ensure (TrimSpace (ss_CIDR spec) !=? "") (ErrNew "spec.cidr is required");
    _ ← ensure (ss_DNSServers spec !=? []) (ErrNew "spec.dnsServers is required");
    _ ← ensure (ParseCIDR (ss_CIDR spec) !=? None)
          (ErrWrap "spec.cidr is invalid: " (cidr_error (ss_CIDR spec)) "");
    let gw := TrimSpace (ss_DefaultGateway spec) in
    _ ← ensure ((gw ==? "") || is_ip gw) (ErrNew ("spec.defaultGateway is invalid: " +:+ gw));
    _ ← check (first_bad (fun d => negb (is_ip d))
                 (fun d => ErrNew ("spec.dnsServers contains invalid IP: " +:+ d)) (ss_DNSServers spec));
    _ ← check (ss_PXEAddressRange spec ≫= range_error "spec.pxeAddressRange");
    _ ← check (reserved_ranges_error 0 (ss_ReservedRanges spec));
    let lt := ss_LeaseTime spec in
    _ ← ensure ((lt =? 0) || ((60 <=? lt) && (lt <=? 604800)))
          (ErrNew ("spec.leaseTime must be 0 (default) or between 60 and 604800 seconds: " +:+ Itoa lt));
    let dn := TrimSpace (ss_DomainName spec) in
    _ ← ensure ((dn ==? "") || isValidDomainName dn) (ErrNew ("spec.domainName is invalid: " +:+ dn));
    check (first_bad (fun n => negb (is_ip n))
             (fun n => ErrNew ("spec.ntpServers contains invalid IP: " +:+ n)) (ss_NTPServers spec))
  with
  | Ok _ => None
  | Err e => Some e
  end.

(** ** What validation guarantees *)

Lemma first_bad_None bad err xs : first_bad bad err xs = None ↔ Forall (fun x => bad x = false) xs.
Proof.
  unfold first_bad. rewrite fmap_None. split.
  - intros H. apply Forall_forall. intros x Hx. by apply (find_none _ _ H), list_elem_of_In.
  - intros H. destruct (List.find bad xs) as [x|] eqn:E; [|done].
    apply find_some_elem_of in E as [Hx Hb]. rewrite Forall_forall in H. by rewrite H in Hb.
Qed.

Lemma range_error_None what r :
  range_error what r = None ↔ is_ip (ar_Start r) = true ∧ is_ip (ar_End r) = true.
Proof. unfold range_error. destruct (is_ip (ar_Start r)), (is_ip (ar_End r)); simpl; naive_solver. Qed.

(** The DHCP lease time of a valid subnet is the default or between a minute and
    a week. *)
Lemma ValidateSubnet_lease_time s :
  ValidateSubnet s = None → ss_LeaseTime (sn_Spec s) = 0 ∨ 60 <= ss_LeaseTime (sn_Spec s) <= 604800.
Proof.
  unfold ValidateSubnet. destruct (mbind _ _) eqn:E; [|done]. intros _. inv_binds. lia.
Qed.
