(* ===== verification/Lease.v ===== *)
(** * internal/pxe/lease.go: the DHCP lease pool

    The pool of dynamically assigned IPv4 addresses, its static reservations,
    expiry and reclamation.  An address is the value of its four bytes; [None]
    is a nil [net.IP], on which [binary.BigEndian.Uint32] panics.  The calls to
    the lease store are made in goroutines of their own: an operation returns
    the list of calls it issues.  An operation runs under the pool's mutex; its
    readings of the clock are taken as one. *)
From S2P Require Import Prelude GoStrings GoNet.

(** ** Data *)

Record DHCPLease := mkDHCPLease {
  dl_MAC : string; dl_IP : string; dl_Hostname : string; dl_PXEClient : bool; dl_LeasedAt : Time }.

Record leaseEntry := mkLeaseEntry { le_ip : option Z; le_leasedAt : Time }.

Inductive store_call : Type :=
| StoreUpsert (l : DHCPLease)
| StoreDelete (mac : string).

(** [lp_store] tells whether the pool has a store. *)
Record leasePool := mkLeasePool {
  lp_start : option Z; lp_end : option Z;
  lp_leases : gmap string leaseEntry;
  lp_reservations : gmap string (option Z);
  lp_store : bool;
  lp_ttl : Duration }.
Global Instance leasePool_fields : Fields leasePool :=
  fpure mkLeasePool <*> lp_start <*> lp_end <*> lp_leases <*> lp_reservations <*> lp_store <*> lp_ttl.

Global Instance leaseEntry_eq_dec : EqDecision leaseEntry.
Proof. solve_decision. Defined.
Global Instance DHCPLease_eq_dec : EqDecision DHCPLease.
Proof. solve_decision. Defined.
Global Instance store_call_eq_dec : EqDecision store_call.
Proof. solve_decision. Defined.
Global Instance leasePool_eq_dec : EqDecision leasePool.
Proof. solve_decision. Defined.

(** ** Operations *)

Definition expired (p : leasePool) (now leasedAt : Time) : bool :=
  if (lp_ttl p <=? 0) || time_IsZero leasedAt then false
  else time_Sub now leasedAt >? lp_ttl p.

Definition inRange (p : leasePool) (ip : option Z) : bool :=
  match ip, lp_start p, lp_end p with
  | Some n, Some s, Some e => (s <=? n) && (n <=? e)
  | _, _, _ => false
  end.

(** [ip.String()]. *)
Definition ip_String (ip : option Z) : string :=
  match ip with Some n => ip4_String n | None => "<nil>" end.

Definition persistAsync (p : leasePool) (now : Time) (mac : string) (ip : option Z)
  (hostname : string) (pxeClient : bool) : list store_call :=
  if lp_store p then [StoreUpsert (mkDHCPLease mac (ip_String ip) hostname pxeClient now)] else [].

Definition deleteLeaseAsync (p : leasePool) (mac : string) : list store_call :=
  if lp_store p then [StoreDelete mac] else [].

(** One record of the store: restored, or skipped and deleted from the store
    unless its key is blank. *)
Definition restore_one (now : Time) (st : leasePool * list store_call) (l : DHCPLease)
  : leasePool * list store_call :=
  let '(p, calls) := st in
  let key := ToLower (TrimSpace (dl_MAC l)) in
  let ip := parse4 (dl_IP l) in
  if (key ==? "") || (ip ==? None) || negb (inRange p ip) || expired p now (dl_LeasedAt l)
  then (p, if key !=? "" then calls ++ [StoreDelete key] else calls)
  else (p <| lp_leases := <[key := mkLeaseEntry ip (dl_LeasedAt l)]> (lp_leases p) |>, calls).

(** [listed] is the outcome of [store.List], [None] without a store. *)
Definition restore (now : Time) (listed : option (result (list DHCPLease))) (p : leasePool)
  : leasePool * list store_call :=
  match listed with
  | None | Some (Err _) => (p, [])
  | Some (Ok leases) => fold_left (restore_one now) leases (p, [])
  end.

Definition newLeasePool (now : Time) (listed : option (result (list DHCPLease)))
  (start end_ : string) (ttl : Duration) : leasePool * list store_call :=
  restore now listed
    (mkLeasePool (parse4 start) (parse4 end_) ∅ ∅ (bool_decide (is_Some listed)) ttl).

Definition SetTTL (p : leasePool) (ttl : Duration) : leasePool := p <| lp_ttl := ttl |>.

Definition UpdateReservations (p : leasePool) (r : gmap string (option Z)) : leasePool :=
  p <| lp_reservations := r |>.

(** The addresses in use: [Uint32] panics on the first nil one. *)
Definition used_addresses (p : leasePool) : outcome (gset Z) :=
  match mapM (fun kv : string * leaseEntry => le_ip kv.2) (map_to_list (lp_leases p)),
        mapM (fun kv : string * option Z => kv.2) (map_to_list (lp_reservations p)) with
  | Some leased, Some reserved => Returns (list_to_set (leased ++ reserved))
  | _, _ => Panics
  end.

(** [for n := startN; n <= endN; n++] on [uint32]. *)
Inductive scan_result : Type :=
| ScanFound (n : Z)
| ScanExhausted
| ScanFuel.

Fixpoint scan (fuel : nat) (used : gset Z) (n endN : Z) : scan_result :=
  match fuel with
  | O => ScanFuel
  | S fuel =>
      if n <=? endN then
        if bool_decide (n ∈ used) then scan fuel used (uint32 (n + 1)) endN else ScanFound n
      else ScanExhausted
  end.

(** [binary.BigEndian.Uint32] of an address. *)
Definition Uint32 (ip : option Z) : outcome Z :=
  match ip with Some n => Returns n | None => Panics end.

(** Whether the client's own lease is renewed. *)
Definition renewable (p : leasePool) (now : Time) (e : leaseEntry) : bool :=
  inRange p (le_ip e) && negb (expired p now (le_leasedAt e)).

(** Drop the expired leases; the keys are deleted from the store too. *)
Definition reclaim (now : Time) (p : leasePool) : leasePool * list store_call :=
  let dead := filter (fun kv : string * leaseEntry => expired p now (le_leasedAt kv.2) = true)
                (map_to_list (lp_leases p)) in
  (p <| lp_leases := filter (fun kv : string * leaseEntry => expired p now (le_leasedAt kv.2) = false)
                       (lp_leases p) |>,
   dead ≫= fun kv => deleteLeaseAsync p kv.1).

(** The first free address, lowest first.  Every address passed over is in use,
    so one round more than there are addresses in use reaches a free one or the
    end. *)
Definition pick (p : leasePool) (now : Time) (key hostname : string) (pxeClient : bool)
  (calls : list store_call) : outcome (option Z * leasePool * list store_call) :=
  startN ← Uint32 (lp_start p);
  endN ← Uint32 (lp_end p);
  let '(p, reclaimed) := reclaim now p in
  used ← used_addresses p;
  match scan (S (S (size used))) used startN endN with
  | ScanFound n =>
      Returns (Some n, p <| lp_leases := <[key := mkLeaseEntry (Some n) now]> (lp_leases p) |>,
               calls ++ reclaimed ++ persistAsync p now key (Some n) hostname pxeClient)
  | ScanExhausted => Returns (None, p, calls ++ reclaimed)
  | ScanFuel => Panics
  end.

Definition Allocate (p : leasePool) (now : Time) (mac : HardwareAddr) (hostname : string) (pxeClient : bool)
  : outcome (option Z * leasePool * list store_call) :=
  let key := mac_String mac in
  match lp_reservations p !! key with
  | Some ip =>
      Returns (ip, p <| lp_leases := <[key := mkLeaseEntry ip now]> (lp_leases p) |>,
               persistAsync p now key ip hostname pxeClient)
  | None =>
      match lp_leases p !! key with
      | Some e =>
          if renewable p now e then
            Returns (le_ip e, p <| lp_leases := <[key := mkLeaseEntry (le_ip e) now]> (lp_leases p) |>,
                     persistAsync p now key (le_ip e) hostname pxeClient)
          else pick (p <| lp_leases := delete key (lp_leases p) |>) now key hostname pxeClient
                 (deleteLeaseAsync p key)
      | None => pick p now key hostname pxeClient []
      end
  end.

Definition Release (p : leasePool) (mac : HardwareAddr) : leasePool * list store_call :=
  let key := mac_String mac in
  (p <| lp_leases := delete key (lp_leases p) |>, deleteLeaseAsync p key).

(** ** Invariants *)

(** The pool has an IPv4 range that does not reach 255.255.255.255, and every
    recorded address is an IPv4 one. *)
Record pool_wf (p : leasePool) : Prop := {
  wf_range : ∃ s e, lp_start p = Some s ∧ lp_end p = Some e ∧ 0 <= s ∧ e < 2 ^ 32 - 1;
  wf_leases : ∀ k e, lp_leases p !! k = Some e → is_Some (le_ip e);
  wf_reservations : ∀ k ip, lp_reservations p !! k = Some ip → is_Some ip }.

(** No address has two holders: leases are pairwise distinct, and a reserved
    address is leased, and reserved, only for the MAC it is reserved for. *)
Record exclusive (p : leasePool) : Prop := {
  ex_leases : ∀ k1 k2 e1 e2, lp_leases p !! k1 = Some e1 → lp_leases p !! k2 = Some e2 →
    le_ip e1 = le_ip e2 → k1 = k2;
  ex_reserved : ∀ k1 k2 e ip, lp_leases p !! k1 = Some e → lp_reservations p !! k2 = Some ip →
    le_ip e = ip → k1 = k2;
  ex_reservations : ∀ k1 k2 ip, lp_reservations p !! k1 = Some ip → lp_reservations p !! k2 = Some ip →
    k1 = k2 }.

(** ** The scan *)

Definition above (n : Z) (used : gset Z) : gset Z := filter (fun x => n <= x) used.

Lemma above_S n used :
  n ∈ used → (size (above (n + 1) used) < size (above n used))%nat.
Proof.
  intros H. apply subset_size. unfold above. set_unfold. split; [naive_solver lia|].
  intros Hs. destruct (Hs n) as [? _]; [split; [lia|done]|lia].
Qed.

Lemma scan_spec fuel : ∀ used n endN,
  0 <= n → endN < 2 ^ 32 - 1 → (size (above n used) < fuel)%nat →
  (∃ k, scan fuel used n endN = ScanFound k ∧ n <= k <= endN ∧ (k ∉ used) ∧ (∀ j, n <= j < k → j ∈ used))
  ∨ (scan fuel used n endN = ScanExhausted ∧ ∀ j, n <= j <= endN → j ∈ used).
Proof.
  induction fuel as [|fuel IH]; intros used n endN Hn He Hf; [lia|]. simpl.
  destruct (n <=? endN) eqn:Hle; [|right; split; [done|lia]].
  case_bool_decide as Hin; [|left; exists n; split_and!; [done|lia|lia|done|lia]].
  replace (uint32 (n + 1)) with (n + 1) by (unfold uint32; rewrite Z.mod_small; lia).
  pose proof (above_S n used Hin).
  destruct (IH used (n + 1) endN) as [(k & Hs & Hk & Hu & Hj)|[Hs Hj]]; [lia..| |].
  - left. exists k. split_and!; [done|lia|lia|done|]. intros j Hjk.
    destruct (decide (j = n)) as [->|]; [done|]. apply Hj. lia.
  - right. split; [done|]. intros j Hjk. destruct (decide (j = n)) as [->|]; [done|]. apply Hj. lia.
Qed.

Lemma above_size n used : (size (above n used) <= size used)%nat.
Proof. apply subseteq_size. unfold above. set_solver. Qed.

(** The set of used addresses of a well-formed pool. *)
Lemma used_addresses_spec p : pool_wf p →
  ∃ used, used_addresses p = Returns used ∧
    ∀ n, n ∈ used ↔ (∃ k e, lp_leases p !! k = Some e ∧ le_ip e = Some n)
                  ∨ (∃ k, lp_reservations p !! k = Some (Some n)).
Proof.
  intros [_ Hl Hr]. unfold used_addresses.
  assert (is_Some (mapM (fun kv : string * leaseEntry => le_ip kv.2) (map_to_list (lp_leases p)))) as [l1 E1].
  { apply mapM_is_Some, Forall_forall. intros [k e] H%elem_of_map_to_list. by apply (Hl k). }
  assert (is_Some (mapM (fun kv : string * option Z => kv.2) (map_to_list (lp_reservations p)))) as [l2 E2].
  { apply mapM_is_Some, Forall_forall. intros [k e] H%elem_of_map_to_list. by apply (Hr k). }
  rewrite E1, E2. eexists. split; [done|]. intros n. rewrite elem_of_list_to_set, elem_of_app.
  rewrite (elem_of_mapM _ _ _ _ E1), (elem_of_mapM _ _ _ _ E2). f_equiv.
  - split.
    + intros ([k e] & Hk%elem_of_map_to_list & He). by exists k, e.
    + intros (k & e & Hk & He). exists (k, e). by rewrite elem_of_map_to_list.
  - split.
    + intros ([k e] & Hk%elem_of_map_to_list & He). exists k. simpl in He. congruence.
    + intros (k & Hk). exists (k, Some n). by rewrite elem_of_map_to_list.
Qed.

(** ** Allocation *)

(** No live holder and no reservation. *)
Definition free (p : leasePool) (n : Z) : Prop :=
  (∀ k e, lp_leases p !! k = Some e → le_ip e ≠ Some n)
  ∧ (∀ k, lp_reservations p !! k ≠ Some (Some n)).

(** The same pool with fewer leases. *)
Record shrinks (p p' : leasePool) : Prop := {
  sh_start : lp_start p' = lp_start p;
  sh_end : lp_end p' = lp_end p;
  sh_reservations : lp_reservations p' = lp_reservations p;
  sh_store : lp_store p' = lp_store p;
  sh_ttl : lp_ttl p' = lp_ttl p;
  sh_leases : lp_leases p' ⊆ lp_leases p }.

Lemma shrinks_lookup p p' k e : shrinks p p' → lp_leases p' !! k = Some e → lp_leases p !! k = Some e.
Proof. intros [_ _ _ _ _ H] Hk. exact (lookup_weaken _ _ _ _ Hk H). Qed.

Lemma shrinks_wf p p' : shrinks p p' → pool_wf p → pool_wf p'.
Proof.
  intros H [(s & e & Hs & He & ?) Hl Hr]. pose proof H as [E1 E2 E3 _ _ _]. constructor.
  - exists s, e. by rewrite E1, E2.
  - intros k e' Hk. apply (Hl k). eapply shrinks_lookup; eauto.
  - by rewrite E3.
Qed.

Lemma shrinks_exclusive p p' : shrinks p p' → exclusive p → exclusive p'.
Proof.
  intros H [H1 H2 H3]. pose proof H as [_ _ E3 _ _ _]. constructor.
  - intros; eapply H1; eauto using shrinks_lookup.
  - rewrite E3. intros; eapply H2; eauto using shrinks_lookup.
  - by rewrite E3.
Qed.

Lemma shrinks_delete p key : shrinks p (p <| lp_leases := delete key (lp_leases p) |>).
Proof. constructor; try done. simpl. apply delete_subseteq. Qed.

Lemma shrinks_reclaim now p : shrinks p (reclaim now p).1.
Proof. constructor; try done. simpl. apply map_filter_subseteq. Qed.

(** After reclamation the leases are exactly the unexpired ones. *)
Lemma reclaim_leases now p k e :
  lp_leases (reclaim now p).1 !! k = Some e ↔
  lp_leases p !! k = Some e ∧ expired p now (le_leasedAt e) = false.
Proof. simpl. rewrite map_lookup_filter_Some. done. Qed.

#[export] Hint Resolve shrinks_delete shrinks_reclaim : gomi.

(** Give [key] the address [n]. *)
Definition grant (p : leasePool) (key : string) (n : Z) (now : Time) : leasePool :=
  p <| lp_leases := <[key := mkLeaseEntry (Some n) now]> (lp_leases p) |>.

Lemma grant_wf p key n now : pool_wf p → pool_wf (grant p key n now).
Proof.
  intros [Hrange Hl Hr]. constructor; [done| |done]. intros k e. simpl.
  rewrite lookup_insert_Some. intros [[_ <-]|[_ H]]; [done|]. by apply (Hl k).
Qed.

(** Giving an address nobody else holds keeps the pool exclusive. *)
Lemma grant_exclusive p key n now :
  exclusive p →
  (∀ k e, lp_leases p !! k = Some e → le_ip e = Some n → k = key) →
  (∀ k, lp_reservations p !! k = Some (Some n) → k = key) →
  exclusive (grant p key n now).
Proof.
  intros [H1 H2 H3] Hl Hr. constructor; simpl.
  - intros k1 k2 e1 e2. rewrite !lookup_insert_Some. intros [[<- <-]|[? ?]] [[<- <-]|[? ?]]; simpl; eauto.
    intros E. symmetry. eauto.
  - intros k1 k2 e ip. rewrite lookup_insert_Some. intros [[<- <-]|[? ?]]; simpl; eauto.
    intros Hk <-. symmetry. eauto.
  - done.
Qed.

Lemma pick_spec p now key hostname pxe calls :
  pool_wf p →
  let p1 := (reclaim now p).1 in
  ∃ o p' calls', pick p now key hostname pxe calls = Returns (o, p', calls') ∧
  match o with
  | Some n => inRange p (Some n) = true ∧ free p1 n ∧ p' = grant p1 key n now
              ∧ ∀ j, inRange p (Some j) = true → j < n → ¬ free p1 j
  | None => p' = p1 ∧ ∀ j, inRange p (Some j) = true → ¬ free p1 j
  end.
Proof.
  intros Hwf p1. pose proof (wf_range p Hwf) as (s & e & Hs & He & Hs0 & He1).
  unfold pick. rewrite Hs, He. cbn [Uint32]. step_return.
  destruct (used_addresses_spec p1) as (used & Hu & Hin); [eapply shrinks_wf; eauto with gomi|].
  assert (Hfree : ∀ n, n ∉ used ↔ free p1 n).
  { intros n. rewrite Hin. unfold free. naive_solver. }
  assert (Hrg : ∀ n, inRange p (Some n) = true ↔ s <= n <= e).
  { intros n. unfold inRange. rewrite Hs, He. lia. }
  destruct (reclaim now p) as [p1' reclaimed] eqn:Er. simpl in p1. subst p1. rewrite Hu. step_return.
  pose proof (above_size s used).
  destruct (scan_spec (S (S (size used))) used s e) as [(k & -> & Hk & Hku & Hj)|[-> Hj]]; [lia..| |].
  - do 3 eexists. split; [done|]. cbv iota. rewrite Hrg, <- Hfree. split_and!; [lia|lia|done|done|].
    intros j Hjr%Hrg Hjk. rewrite <- Hfree. intros Hn. apply Hn, Hj. lia.
  - do 3 eexists. split; [done|]. split; [done|]. intros j Hjr%Hrg. rewrite <- Hfree. intros Hn.
    by apply Hn, Hj.
Qed.

(** The state the scan starts from: the client's own unusable lease dropped, the
    expired ones reclaimed. *)
Definition cleared (p : leasePool) (now : Time) (key : string) : leasePool :=
  (reclaim now (p <| lp_leases := delete key (lp_leases p) |>)).1.

Lemma shrinks_trans p q r : shrinks p q → shrinks q r → shrinks p r.
Proof. intros [] []. constructor; try congruence. etrans; eauto. Qed.

Lemma shrinks_cleared p now key : shrinks p (cleared p now key).
Proof. eapply shrinks_trans; [apply shrinks_delete|apply shrinks_reclaim]. Qed.

Lemma cleared_leases p now key k e :
  lp_leases (cleared p now key) !! k = Some e ↔
  k ≠ key ∧ lp_leases p !! k = Some e ∧ expired p now (le_leasedAt e) = false.
Proof. unfold cleared. rewrite reclaim_leases. simpl. rewrite lookup_delete_Some. naive_solver. Qed.

(** The three ways an allocation ends. *)
Inductive allocated (p : leasePool) (now : Time) (key : string) : option Z → leasePool → Prop :=
| alloc_reserved n :
    lp_reservations p !! key = Some (Some n) → allocated p now key (Some n) (grant p key n now)
| alloc_renewed n e :
    lp_reservations p !! key = None → lp_leases p !! key = Some e → le_ip e = Some n →
    inRange p (Some n) = true → expired p now (le_leasedAt e) = false →
    allocated p now key (Some n) (grant p key n now)
| alloc_lowest n :
    lp_reservations p !! key = None →
    (∀ e, lp_leases p !! key = Some e → renewable p now e = false) →
    inRange p (Some n) = true → free (cleared p now key) n →
    (∀ j, inRange p (Some j) = true → j < n → ¬ free (cleared p now key) j) →
    allocated p now key (Some n) (grant (cleared p now key) key n now)
| alloc_exhausted :
    lp_reservations p !! key = None →
    (∀ e, lp_leases p !! key = Some e → renewable p now e = false) →
    (∀ j, inRange p (Some j) = true → ¬ free (cleared p now key) j) →
    allocated p now key None (cleared p now key).

Lemma Allocate_allocated p now mac hostname pxe :
  pool_wf p →
  ∃ o p' calls, Allocate p now mac hostname pxe = Returns (o, p', calls)
    ∧ allocated p now (mac_String mac) o p'.
Proof.
  intros Hwf. unfold Allocate. set (key := mac_String mac).
  destruct (lp_reservations p !! key) as [ip|] eqn:Hr.
  { destruct (wf_reservations p Hwf _ _ Hr) as [n ->]. do 3 eexists. split; [done|].
    by apply alloc_reserved. }
  set (q := p <| lp_leases := delete key (lp_leases p) |>).
  assert (Hq : pool_wf q) by (eapply shrinks_wf; [apply shrinks_delete|done]).
  assert (Hpick : ∀ calls, (∀ e, lp_leases p !! key = Some e → renewable p now e = false) →
    ∃ o p' calls', pick q now key hostname pxe calls = Returns (o, p', calls') ∧ allocated p now key o p').
  { intros calls Hnr. destruct (pick_spec q now key hostname pxe calls Hq) as (o & p' & calls' & Hp & Ho).
    exists o, p', calls'. split; [done|]. destruct o as [n|].
    - destruct Ho as (? & ? & -> & ?). by apply alloc_lowest.
    - destruct Ho as (-> & ?). by apply alloc_exhausted. }
  destruct (lp_leases p !! key) as [e|] eqn:Hl.
  - destruct (renewable p now e) eqn:Hren.
    + destruct (wf_leases p Hwf _ _ Hl) as [n Hn]. do 3 eexists. split; [done|].
      unfold renewable in Hren. rewrite Hn in *. apply andb_true_iff in Hren as [? ?%negb_true_iff].
      by eapply alloc_renewed.
    + apply Hpick. congruence.
  - destruct (Hpick []) as (o & p' & calls' & Hp & Ha); [done|].
    assert (q = p) as Hqp.
    { unfold q. destruct p; simpl in *. by rewrite delete_id. }
    rewrite Hqp in Hp. eauto.
Qed.

Lemma allocated_wf p now key o p' : pool_wf p → allocated p now key o p' → pool_wf p'.
Proof.
  intros Hwf [n ? | n e ? ? ? ? ? | n ? ? ? ? ? | ? ? ?];
    repeat apply grant_wf; eauto using shrinks_wf, shrinks_cleared.
Qed.

Lemma allocated_exclusive p now key o p' :
  pool_wf p → exclusive p → allocated p now key o p' → exclusive p'.
Proof.
  intros Hwf [H1 H2 H3] Ha. destruct Ha as [n Hr | n e Hr Hl Hn Hin Hx | n Hr Hnr Hin [Hf1 Hf2] Hmin | ? ? ?].
  - apply grant_exclusive; [done| |].
    + intros k e Hk He. by eapply H2.
    + intros k Hk. by eapply H3.
  - apply grant_exclusive; [done| |].
    + intros k e' Hk He. eapply H1; eauto. congruence.
    + intros k Hk. symmetry. by eapply H2.
  - apply grant_exclusive; [by eapply shrinks_exclusive; [apply shrinks_cleared|]| |].
    + intros k e Hk He. by destruct (Hf1 k e Hk).
    + intros k Hk. by destruct (Hf2 k).
  - by eapply shrinks_exclusive; [apply shrinks_cleared|].
Qed.

(** C2: what allocation returns, on every branch.  It never panics on a
    well-formed pool.  A reserved client gets its reservation; a client with an
    unexpired lease in range keeps its address; any other client gets the lowest
    address of the range that is neither reserved nor under an unexpired lease of
    another client, and only if there is none is it refused. *)
Theorem allocate_spec (p : leasePool) (now : Time) (mac : HardwareAddr) (hostname : string) (pxe : bool)
  (Hwf : pool_wf p) :
  ∃ o p' calls, Allocate p now mac hostname pxe = Returns (o, p', calls)
    ∧ pool_wf p' ∧ allocated p now (mac_String mac) o p'.
Proof.
  destruct (Allocate_allocated p now mac hostname pxe Hwf) as (o & p' & calls & H & Ha).
  exists o, p', calls. eauto using allocated_wf.
Qed.

Definition sample_pool : leasePool :=
  mkLeasePool (parse4 "10.0.0.10") (parse4 "10.0.0.12")
    {[ "aa:aa:aa:aa:aa:aa" := mkLeaseEntry (parse4 "10.0.0.10") (time_Unix 1700000000);
       "bb:bb:bb:bb:bb:bb" := mkLeaseEntry (parse4 "10.0.0.12") (time_Unix 1600000000) ]}
    {[ "cc:cc:cc:cc:cc:cc" := parse4 "10.0.0.11" ]} true Hour.

Lemma sample_pool_wf : pool_wf sample_pool.
Proof.
  constructor.
  - exists 167772170, 167772172. repeat split; vm_compute; (reflexivity || discriminate).
  - intros k e. cbn. rewrite lookup_insert_Some, lookup_singleton_Some.
    intros [[_ <-]|[_ [_ <-]]]; eexists; vm_compute; reflexivity.
  - intros k ip. cbn. rewrite lookup_singleton_Some. intros [_ <-]. eexists. vm_compute. reflexivity.
Qed.

Lemma sample_pool_exclusive : exclusive sample_pool.
Proof.
  constructor; cbn.
  - intros k1 k2 e1 e2. rewrite !lookup_insert_Some, !lookup_singleton_Some.
    intros [[<- <-]|[_ [<- <-]]] [[<- <-]|[_ [<- <-]]]; vm_compute; (reflexivity || discriminate).
  - intros k1 k2 e ip. rewrite !lookup_insert_Some, !lookup_singleton_Some.
    intros [[<- <-]|[_ [<- <-]]] [<- <-]; vm_compute; discriminate.
  - intros k1 k2 ip. rewrite !lookup_singleton_Some. naive_solver.
Qed.

Definition mac_dd : HardwareAddr := replicate 6 (byte_of 221).

(** A new client at a time the second lease has expired gets its address: the
    first is leased, the second reserved. *)
Lemma allocate_spec_witness :
  ∃ p' calls, Allocate sample_pool (time_Unix 1700000100) mac_dd "h" true
    = Returns (parse4 "10.0.0.12", p', calls) ∧ pool_wf p'.
Proof.
  destruct (allocate_spec sample_pool (time_Unix 1700000100) mac_dd "h" true sample_pool_wf)
    as (o & p' & calls & H & Hwf & _).
  exists p', calls. split; [|exact Hwf]. rewrite H. vm_compute in H. injection H as <- _ _.
  vm_compute. reflexivity.
Defined.

(** ** The life of a pool *)

(** New reservations that hand no address of a current lease to somebody else. *)
Record compatible (p : leasePool) (r : gmap string (option Z)) : Prop := {
  co_ipv4 : ∀ k ip, r !! k = Some ip → is_Some ip;
  co_distinct : ∀ k1 k2 ip, r !! k1 = Some ip → r !! k2 = Some ip → k1 = k2;
  co_leases : ∀ k1 k2 e, lp_leases p !! k1 = Some e → r !! k2 = Some (le_ip e) → k1 = k2 }.

Inductive pool_step (p : leasePool) : leasePool → Prop :=
| step_allocate now mac hostname pxe o p' calls :
    Allocate p now mac hostname pxe = Returns (o, p', calls) → pool_step p p'
| step_release mac : pool_step p (Release p mac).1
| step_ttl ttl : pool_step p (SetTTL p ttl)
| step_reserve r : compatible p r → pool_step p (UpdateReservations p r).

Definition pool_inv (p : leasePool) : Prop := pool_wf p ∧ exclusive p.

Lemma pool_step_inv p p' : pool_inv p → pool_step p p' → pool_inv p'.
Proof.
  intros [Hwf Hex] Hstep. destruct Hstep as [now mac h px o p' calls Ha|mac|ttl|r [Hr1 Hr2 Hr3]].
  - destruct (Allocate_allocated p now mac h px Hwf) as (o' & q & calls' & Ha' & Hal).
    rewrite Ha in Ha'. injection Ha' as <- <- <-.
    split; eauto using allocated_wf, allocated_exclusive.
  - split; [eapply shrinks_wf|eapply shrinks_exclusive]; eauto; apply shrinks_delete.
  - destruct Hwf, Hex. by split.
  - destruct Hwf as [? ? _], Hex as [? _ _]. split; constructor; try done; simpl.
    intros k1 k2 e ip Hk1 Hk2 <-. eauto.
Qed.

Lemma pool_reachable_inv p0 p : pool_inv p0 → rtc pool_step p0 p → pool_inv p.
Proof. intros H. induction 1; eauto using pool_step_inv. Qed.

(** C1: no two clients ever hold the same address.  From any pool in which they do
    not, however allocations, releases, changes of the ttl and (compatible)
    updates of the reservations are interleaved, every two leases are of different
    addresses, a reserved address is leased only by the client it is reserved for,
    and the next allocation returns an address no other client holds. *)
Theorem leases_exclusive (p0 p : leasePool) (Hwf : pool_wf p0) (Hex : exclusive p0)
  (Hreach : rtc pool_step p0 p) :
  exclusive p ∧
  ∀ now mac hostname pxe, ∃ o p' calls,
    Allocate p now mac hostname pxe = Returns (o, p', calls)
    ∧ ∀ n, o = Some n →
        (∀ k e, lp_leases p' !! k = Some e → le_ip e = Some n → k = mac_String mac)
        ∧ (∀ k, lp_reservations p' !! k = Some (Some n) → k = mac_String mac).
Proof.
  destruct (pool_reachable_inv p0 p (conj Hwf Hex) Hreach) as [Hwf' Hex'].
  split; [done|]. intros now mac h px.
  destruct (Allocate_allocated p now mac h px Hwf') as (o & p' & calls & Ha & Hal).
  exists o, p', calls. split; [done|]. intros n ->.
  destruct (pool_step_inv p p') as [_ [E1 E2 E3]]; [done|by eapply step_allocate|].
  assert (Hme : ∃ e, lp_leases p' !! mac_String mac = Some e ∧ le_ip e = Some n).
  { inversion Hal; subst; simpl; eexists; rewrite lookup_insert_eq; done. }
  destruct Hme as (e0 & Hk0 & Hn0). split.
  - intros k e Hk He. eapply E1; eauto. congruence.
  - intros k Hk. symmetry. by eapply E2.
Qed.

Lemma leases_exclusive_witness : exclusive (SetTTL (Release sample_pool mac_dd).1 0).
Proof.
  apply (leases_exclusive sample_pool (SetTTL (Release sample_pool mac_dd).1 0)
           sample_pool_wf sample_pool_exclusive).
  eapply rtc_l; [apply (step_release _ mac_dd)|]. eapply rtc_l; [apply step_ttl|]. apply rtc_refl.
Defined.

(** A sequence of client requests: what each is given, and the final pool. *)
Definition request : Type := Time * HardwareAddr * string * bool.
Fixpoint serve (p : leasePool) (rs : list request) : outcome (list (option Z) * leasePool) :=
  match rs with
  | [] => Returns ([], p)
  | (now, mac, hostname, pxe) :: rs =>
      r ← Allocate p now mac hostname pxe;
      rest ← serve r.1.2 rs;
      Returns (r.1.1 :: rest.1, rest.2)
  end.

(** The client [key] holds [n] under a lease renewed at [t] or later. *)
Definition holds (p : leasePool) (key : string) (n : Z) (t : Time) : Prop :=
  ∃ e, lp_leases p !! key = Some e ∧ le_ip e = Some n ∧ t <= le_leasedAt e
     ∧ (inRange p (Some n) = true ∨ lp_reservations p !! key = Some (Some n)).

Lemma expired_within p now leasedAt :
  now <= leasedAt + lp_ttl p → expired p now leasedAt = false.
Proof.
  intros Hn. unfold expired. destruct (lp_ttl p <=? 0) eqn:E; [done|]. simpl.
  destruct (time_IsZero leasedAt); [done|]. unfold time_Sub, min_int64, max_int64. lia.
Qed.

(** Within the ttl an allocation leaves the holder its address, and gives it to
    nobody else. *)
Lemma allocated_holds p now key key' n t o p' :
  pool_inv p → holds p key n t → t <= now <= t + lp_ttl p →
  (lp_reservations p !! key = None ∨ lp_reservations p !! key = Some (Some n)) →
  allocated p now key' o p' →
  holds p' key n t ∧ (o = Some n ↔ key' = key).
Proof.
  intros [Hwf [E1 E2 E3]] (e & Hk & He & Ht & Hor) Hnow Hres Ha.
  assert (Hx : expired p now (le_leasedAt e) = false) by (apply expired_within; lia).
  destruct (decide (key' = key)) as [->|Hne].
  - assert (Hren : lp_reservations p !! key = None → renewable p now e = true).
    { intros Hr. unfold renewable. rewrite He, Hx. destruct Hor as [-> |]; [done|congruence]. }
    assert (o = Some n ∧ p' = grant p key n now) as [-> ->].
    { destruct Ha as [n' Hr|n' e' Hr Hl Hn' ? ?|n' Hr Hnr ? ? ?|Hr Hnr ?].
      - destruct Hres as [?|?]; [congruence|]. assert (n' = n) by congruence. by subst.
      - assert (e' = e) by congruence; subst e'. assert (n' = n) by congruence. by subst.
      - rewrite (Hnr e Hk) in Hren. by discriminate Hren.
      - rewrite (Hnr e Hk) in Hren. by discriminate Hren. }
    split; [|done]. exists (mkLeaseEntry (Some n) now). simpl. rewrite lookup_insert_eq.
    split_and!; [done..|lia|done].
  - assert (Hcl : lp_leases (cleared p now key') !! key = Some e) by (by apply cleared_leases).
    split.
    + exists e. destruct Ha; simpl; rewrite ?lookup_insert_ne by done; eauto.
    + split; [|done]. intros ->. exfalso. inversion Ha as [n' Hr|n' e' Hr Hl Hn' ? ?|n' Hr Hnr ? [Hf _] ?|]; subst.
      * apply Hne. symmetry. by eapply E2.
      * apply Hne. eapply E1; eauto. congruence.
      * by apply (Hf key e Hcl).
Qed.

Lemma allocated_static p now key o p' : allocated p now key o p' →
  lp_ttl p' = lp_ttl p ∧ lp_reservations p' = lp_reservations p.
Proof. by destruct 1. Qed.

(** A client that is given an address keeps it for the ttl.  Whatever other
    requests are served until then, none of them is answered with that address
    unless it is the client's own, and every one of the client's own is. *)
Lemma lease_kept_for_ttl (p : leasePool) (t : Time) (mac : HardwareAddr) (hostname : string) (pxe : bool)
  (n : Z) (p1 : leasePool) (calls : list store_call) (rs : list request)
  (Hwf : pool_wf p) (Hex : exclusive p)
  (Hgiven : Allocate p t mac hostname pxe = Returns (Some n, p1, calls))
  (Htimes : Forall (fun r : request => t <= r.1.1.1 <= t + lp_ttl p) rs) :
  ∃ answers p2, serve p1 rs = Returns (answers, p2)
    ∧ Forall2 (fun (r : request) o => o = Some n ↔ mac_String r.1.1.2 = mac_String mac) rs answers.
Proof.
  destruct (Allocate_allocated p t mac hostname pxe Hwf) as (o & q & calls' & Ha & Hal).
  rewrite Hgiven in Ha. injection Ha as <- <- <-.
  set (key := mac_String mac) in *.
  assert (Hh : holds p1 key n t ∧ (lp_reservations p1 !! key = None ∨ lp_reservations p1 !! key = Some (Some n))).
  { destruct (allocated_static _ _ _ _ _ Hal) as [_ ->]. unfold holds.
    inversion Hal; subst; simpl; rewrite lookup_insert_eq; split; eauto; eexists; split_and!; eauto; simpl; lia. }
  assert (Hinv : pool_inv p1) by (split; eauto using allocated_wf, allocated_exclusive).
  destruct (allocated_static _ _ _ _ _ Hal) as [Et _]. rewrite <- Et in Htimes.
  clear - Hinv Hh Htimes. revert p1 Hinv Hh Htimes.
  induction rs as [|[[[now m] h] px] rs IH]; intros p Hinv [Hh Hres] Htimes.
  { exists [], p. split; [done|constructor]. }
  apply Forall_cons in Htimes as [Ht Htimes]. simpl in Ht.
  destruct (Allocate_allocated p now m h px (proj1 Hinv)) as (o & q & calls & Ha & Hal).
  destruct (allocated_holds p now key (mac_String m) n t o q Hinv Hh Ht Hres Hal) as [Hh' Ho].
  destruct (allocated_static _ _ _ _ _ Hal) as [Et Er].
  destruct (IH q) as (answers & p2 & Hs & Hf);
    [by eapply pool_step_inv; [|eapply step_allocate]|by rewrite Er|by rewrite Et|].
  exists (o :: answers), p2. simpl. rewrite Ha. step_return. simpl. rewrite Hs. split; [done|].
  constructor; done.
Qed.

Definition mac_ee : HardwareAddr := replicate 6 (byte_of 238).

Lemma lease_kept_for_ttl_witness :
  ∃ p1 calls answers p2,
    Allocate sample_pool (time_Unix 1700000100) mac_dd "h" true = Returns (parse4 "10.0.0.12", p1, calls)
    ∧ serve p1 [(time_Unix 1700000200, mac_ee, "i", false); (time_Unix 1700000300, mac_dd, "h", true)]
      = Returns (answers, p2)
    ∧ answers = [None; parse4 "10.0.0.12"].
Proof.
  destruct (Allocate sample_pool (time_Unix 1700000100) mac_dd "h" true) as [[[o p1] calls]|] eqn:E;
    [|vm_compute in E; discriminate E].
  assert (Ho : o = Some 167772172) by (vm_compute in E; injection E as <- _ _; reflexivity). subst o.
  destruct (lease_kept_for_ttl sample_pool (time_Unix 1700000100) mac_dd "h" true 167772172 p1 calls
    [(time_Unix 1700000200, mac_ee, "i", false); (time_Unix 1700000300, mac_dd, "h", true)]
    sample_pool_wf sample_pool_exclusive) as (answers & p2 & Hs & _).
  - exact E.
  - repeat constructor; vm_compute; discriminate.
  - exists p1, calls, answers, p2.
    split; [vm_compute; reflexivity|]. split; [exact Hs|].
    vm_compute in E. injection E as <- _. vm_compute in Hs. injection Hs as <- _. reflexivity.
Defined.

(** ** Restarting *)

Definition lease_key (l : DHCPLease) : string := ToLower (TrimSpace (dl_MAC l)).

(** Whether a stored lease is taken over. *)
Definition restorable (p : leasePool) (now : Time) (l : DHCPLease) : bool :=
  (lease_key l !=? "") && inRange p (parse4 (dl_IP l)) && negb (expired p now (dl_LeasedAt l)).

Lemma restore_one_spec now p calls l :
  restore_one now (p, calls) l =
  if restorable p now l
  then (p <| lp_leases := <[lease_key l := mkLeaseEntry (parse4 (dl_IP l)) (dl_LeasedAt l)]> (lp_leases p) |>, calls)
  else (p, if lease_key l !=? "" then calls ++ [StoreDelete (lease_key l)] else calls).
Proof.
  unfold restore_one, restorable. change (ToLower (TrimSpace (dl_MAC l))) with (lease_key l).
  destruct (bool_decide (lease_key l = "")) eqn:E1; [done|].
  destruct (parse4 (dl_IP l)) as [n|]; cbn [andb orb negb bool_decide inRange]; [|done].
  rewrite bool_decide_eq_false_2 by done. simpl.
  destruct (match lp_start p with Some _ => _ | None => _ end), (expired p now _); done.
Qed.

(** Restoring a list of stored leases with distinct keys. *)
Lemma restore_fold now ls : ∀ p calls,
  NoDup (lease_key <$> ls) → (∀ l, l ∈ ls → lp_leases p !! lease_key l = None) →
  let '(p', calls') := fold_left (restore_one now) ls (p, calls) in
  lp_start p' = lp_start p ∧ lp_end p' = lp_end p ∧ lp_reservations p' = lp_reservations p
  ∧ lp_ttl p' = lp_ttl p
  ∧ (∀ k e, lp_leases p' !! k = Some e ↔ lp_leases p !! k = Some e ∨
       ∃ l, l ∈ ls ∧ restorable p now l = true ∧ k = lease_key l
            ∧ e = mkLeaseEntry (parse4 (dl_IP l)) (dl_LeasedAt l))
  ∧ (∀ k, StoreDelete k ∈ calls' ↔ StoreDelete k ∈ calls ∨
       ∃ l, l ∈ ls ∧ restorable p now l = false ∧ k = lease_key l ∧ k ≠ "").
Proof.
  induction ls as [|l ls IH]; intros p calls Hnd Hfresh.
  { simpl. split_and!; try done; set_solver. }
  rewrite fmap_cons, NoDup_cons in Hnd. destruct Hnd as [Hl Hnd].
  cbn [fold_left]. rewrite restore_one_spec.
  assert (Hother : ∀ l', l' ∈ ls → lease_key l' ≠ lease_key l).
  { intros l' Hl' E. apply Hl. rewrite <- E. by apply list_elem_of_fmap_2. }
  destruct (restorable p now l) eqn:Hr.
  - set (p1 := p <| lp_leases := _ |>).
    specialize (IH p1 calls Hnd). destruct (fold_left _ ls (p1, calls)) as [p' calls'].
    destruct IH as (H1 & H2 & H3 & H4 & H5 & H6).
    { intros l' Hl'. simpl. rewrite lookup_insert_ne; [apply Hfresh; set_solver|].
      intros E. by apply (Hother l'). }
    assert (Hp1 : ∀ l', restorable p1 now l' = restorable p now l') by done.
    split_and!; try done.
    + intros k e. rewrite H5. setoid_rewrite Hp1. simpl. rewrite lookup_insert_Some. split.
      * intros [[[<- <-]|[? ?]]|(l' & ? & ? & ? & ?)]; [right|by left|right; set_solver].
        exists l. set_solver.
      * intros [Hk|(l' & [->|Hl']%elem_of_cons & ? & -> & ->)]; [|by left; left|right; eauto].
        destruct (decide (lease_key l = k)) as [<-|?]; [|left; right; done].
        rewrite (Hfresh l) in Hk by set_solver. done.
    + intros k. rewrite H6, ex_elem_cons. setoid_rewrite Hp1. rewrite Hr. clear. naive_solver.
  - specialize (IH p (if lease_key l !=? "" then calls ++ [StoreDelete (lease_key l)] else calls) Hnd).
    destruct (fold_left _ ls (p, _)) as [p' calls'].
    destruct IH as (H1 & H2 & H3 & H4 & H5 & H6); [set_solver|]. split_and!; try done.
    + intros k e. rewrite H5, ex_elem_cons, Hr. clear. naive_solver.
    + intros k. rewrite H6, ex_elem_cons, Hr. clear. case_bool_decide as E; simpl.
      * clear -E. naive_solver.
      * rewrite elem_of_app, list_elem_of_singleton. clear -E. naive_solver.
Qed.

(** After a restart the pool holds exactly the stored leases that are in the
    range and within their ttl, with the address and the issue time they were
    stored with, and the others are deleted from the store; if the stored
    addresses are pairwise distinct, so are those of the new pool. *)
Lemma restart_spec (now : Time) (ls : list DHCPLease) (start end_ : string) (ttl : Duration)
  (s e : Z) (Hstart : parse4 start = Some s) (Hend : parse4 end_ = Some e) (He : e < 2 ^ 32 - 1)
  (Hkeys : NoDup (lease_key <$> ls))
  (Hips : ∀ l1 l2, l1 ∈ ls → l2 ∈ ls → parse4 (dl_IP l1) = parse4 (dl_IP l2) → lease_key l1 = lease_key l2) :
  let '(p, calls) := newLeasePool now (Some (Ok ls)) start end_ ttl in
  pool_wf p ∧ exclusive p
  ∧ (∀ k en, lp_leases p !! k = Some en ↔
       ∃ l, l ∈ ls ∧ restorable p now l = true ∧ k = lease_key l
            ∧ en = mkLeaseEntry (parse4 (dl_IP l)) (dl_LeasedAt l))
  ∧ (∀ k, StoreDelete k ∈ calls ↔
       ∃ l, l ∈ ls ∧ restorable p now l = false ∧ k = lease_key l ∧ k ≠ "").
Proof.
  unfold newLeasePool, restore. set (p0 := mkLeasePool _ _ _ _ _ _).
  pose proof (restore_fold now ls p0 [] Hkeys ltac:(done)) as H.
  destruct (fold_left _ ls (p0, [])) as [p calls]. destruct H as (H1 & H2 & H3 & H4 & H5 & H6).
  assert (Hr : ∀ l, restorable p now l = restorable p0 now l).
  { intros l. unfold restorable, inRange, expired. by rewrite H1, H2, H4. }
  simpl in *. setoid_rewrite Hr.
  assert (Hl : ∀ k en, lp_leases p !! k = Some en ↔
       ∃ l, l ∈ ls ∧ restorable p0 now l = true ∧ k = lease_key l
            ∧ en = mkLeaseEntry (parse4 (dl_IP l)) (dl_LeasedAt l)).
  { intros k en. rewrite H5, lookup_empty. naive_solver. }
  split_and!; try done; [| |intros k; rewrite H6; set_solver].
  - constructor.
    + exists s, e. rewrite H1, H2. pose proof (parse4_range _ _ Hstart). split_and!; [done..|lia|lia].
    + intros k en (l & _ & Hres & _ & ->)%Hl. simpl. revert Hres. unfold restorable.
      destruct (parse4 (dl_IP l)); [done|]. simpl. by rewrite andb_false_r.
    + rewrite H3. intros k ip. by rewrite lookup_empty.
  - constructor; [|by rewrite H3; intros ???? _; rewrite lookup_empty|by rewrite H3; intros ???; rewrite lookup_empty].
    intros k1 k2 e1 e2 (l1 & ? & _ & -> & ->)%Hl (l2 & ? & _ & -> & ->)%Hl. simpl. by apply Hips.
Qed.

Lemma restart_spec_witness :
  let l := mkDHCPLease "AA:AA:AA:AA:AA:AA" "10.0.0.11" "h" true (time_Unix 1700000000) in
  lp_leases (newLeasePool (time_Unix 1700000100) (Some (Ok [l])) "10.0.0.10" "10.0.0.20" Hour).1
    !! "aa:aa:aa:aa:aa:aa" = Some (mkLeaseEntry (parse4 "10.0.0.11") (time_Unix 1700000000)).
Proof.
  intros l.
  pose proof (restart_spec (time_Unix 1700000100) [l] "10.0.0.10" "10.0.0.20" Hour 167772170 167772180
    ltac:(vm_compute; reflexivity) ltac:(vm_compute; reflexivity) ltac:(vm_compute; reflexivity)
    ltac:(apply NoDup_singleton)
    ltac:(intros l1 l2 ->%list_elem_of_singleton ->%list_elem_of_singleton _; reflexivity)) as H.
  destruct (newLeasePool _ _ _ _ _) as [p calls] eqn:E. destruct H as (_ & _ & H & _). apply H.
  exists l. split; [by left|]. split; [|split; [vm_compute; reflexivity|reflexivity]].
  vm_compute in E. injection E as <- _. vm_compute. reflexivity.
Defined.

(** A granted lease survives a restart.  Every address of the range an
    allocation returns is written to the store, and a pool started from what was
    written, before the ttl is over, has the lease again: same client, same
    address, same issue time. *)
Lemma lease_survives_restart (p : leasePool) (t now : Time) (mac : HardwareAddr) (hostname : string)
  (pxe : bool) (n : Z) (p1 : leasePool) (calls : list store_call) (start end_ : string)
  (Hwf : pool_wf p) (Hstore : lp_store p = true) (Hmac : mac ≠ [])
  (Hstart : parse4 start = lp_start p) (Hend : parse4 end_ = lp_end p)
  (Hgiven : Allocate p t mac hostname pxe = Returns (Some n, p1, calls))
  (Hin : inRange p (Some n) = true) (Hnow : now <= t + lp_ttl p) :
  let l := mkDHCPLease (mac_String mac) (ip4_String n) hostname pxe t in
  StoreUpsert l ∈ calls
  ∧ lp_leases (newLeasePool now (Some (Ok [l])) start end_ (lp_ttl p)).1 !! mac_String mac
    = Some (mkLeaseEntry (Some n) t)
  ∧ lp_leases p1 !! mac_String mac = Some (mkLeaseEntry (Some n) t).
Proof.
  intros l. split_and!.
  - revert Hgiven. unfold Allocate, pick, persistAsync. rewrite Hstore.
    destruct (lp_reservations p !! mac_String mac); [by intros [= -> <- <-]; left|].
    assert (Hpick : ∀ q c, lp_store q = true →
      pick q t (mac_String mac) hostname pxe c = Returns (Some n, p1, calls) → StoreUpsert l ∈ calls).
    { intros q c Hq. unfold pick.
      intros (s & _ & (e & _ & H)%bind_Returns_inv)%bind_Returns_inv. revert H.
      destruct (reclaim t q) as [q1 rec] eqn:Er. unfold reclaim in Er. injection Er as <- <-.
      intros (used & _ & H)%bind_Returns_inv. revert H. cbv beta.
      destruct (scan _ _ _ _); intros [= -> <- <-]. unfold persistAsync; simpl. rewrite Hq.
      rewrite !elem_of_app. right; right. by left. }
    destruct (lp_leases p !! mac_String mac) as [e|]; [|by apply Hpick].
    destruct (renewable p t e); [by intros [= -> <- <-]; left|]. by apply Hpick.
  - unfold newLeasePool, restore. cbn [fold_left]. rewrite restore_one_spec.
    assert (Hkey : lease_key l = mac_String mac) by apply mac_String_normal.
    assert (Hip : parse4 (ip4_String n) = Some n).
    { apply parse4_ip4_String. destruct (wf_range p Hwf) as (s & e & Hs & He & ? & ?).
      unfold inRange in Hin. rewrite Hs, He in Hin. lia. }
    set (q := mkLeasePool _ _ _ _ _ _).
    assert (Hr : restorable q now l = true).
    { unfold restorable. rewrite Hkey. unfold l, inRange, q. cbn [dl_IP dl_LeasedAt lp_start lp_end].
      rewrite Hip, Hstart, Hend. rewrite bool_decide_eq_false_2.
      - change (match lp_start p with Some _ => _ | None => _ end) with (inRange p (Some n)). rewrite Hin.
        rewrite expired_within; [done|exact Hnow].
      - intros H%to_bytes_nil_inv%(f_equal length). unfold mac_String in H. rewrite to_of_bytes in H.
        rewrite length_mac_bytes in H. destruct mac; [done|simpl in H; lia]. }
    rewrite Hr, Hkey. cbn [fst]. simpl. rewrite lookup_insert_eq. by rewrite Hip.
  - destruct (Allocate_allocated p t mac hostname pxe Hwf) as (o & q & calls' & Ha & Hal).
    rewrite Hgiven in Ha. injection Ha as <- <- <-. inversion Hal; subst; simpl; apply lookup_insert_eq.
Qed.

Lemma lease_survives_restart_witness :
  let l := mkDHCPLease (mac_String mac_dd) (ip4_String 167772172) "h" true (time_Unix 1700000100) in
  lp_leases (newLeasePool (time_Unix 1700000200) (Some (Ok [l])) "10.0.0.10" "10.0.0.12" Hour).1
    !! mac_String mac_dd = Some (mkLeaseEntry (Some 167772172) (time_Unix 1700000100)).
Proof.
  intros l.
  destruct (Allocate sample_pool (time_Unix 1700000100) mac_dd "h" true) as [[[o p1] calls]|] eqn:E;
    [|vm_compute in E; discriminate E].
  assert (Ho : o = Some 167772172) by (vm_compute in E; injection E as <- _ _; reflexivity). subst o.
  destruct (lease_survives_restart sample_pool (time_Unix 1700000100) (time_Unix 1700000200) mac_dd "h" true
    167772172 p1 calls "10.0.0.10" "10.0.0.12" sample_pool_wf) as (_ & H & _).
  - reflexivity.
  - discriminate.
  - reflexivity.
  - reflexivity.
  - exact E.
  - vm_compute. reflexivity.
  - vm_compute. discriminate.
  - exact H.
Defined.

(** ** Where the pool falls short

    The hypotheses of the theorems above are needed: three reachable situations
    in which they fail. *)

Definition mac_aa : HardwareAddr := replicate 6 (byte_of 170).

(** Reserving for one client the address another one is leasing gives both the
    same address: neither the reservation branch nor the renewal branch of
    [Allocate] looks at the other's claim. *)
Lemma reservation_of_leased_address_duplicates :
  match serve (UpdateReservations sample_pool {[ mac_String mac_dd := parse4 "10.0.0.10" ]})
          [(time_Unix 1700000100, mac_dd, "new", false); (time_Unix 1700000200, mac_aa, "old", false)] with
  | Returns (answers, _) => answers = [parse4 "10.0.0.10"; parse4 "10.0.0.10"]
  | Panics => False
  end.
Proof. vm_compute. reflexivity. Qed.

(** A reservation whose address is not an IPv4 one (a nil [To4]) makes every
    allocation that has to search the range panic. *)
Lemma nil_reservation_panics p now mac hostname pxe k :
  lp_reservations p !! k = Some None →
  lp_reservations p !! mac_String mac = None → lp_leases p !! mac_String mac = None →
  Allocate p now mac hostname pxe = Panics.
Proof.
  intros Hk Hr Hl. unfold Allocate, pick. rewrite Hr, Hl.
  destruct (lp_start p), (lp_end p); try done. cbn [Uint32]. step_return.
  assert (Hq : lp_reservations (reclaim now p).1 = lp_reservations p) by done.
  destruct (reclaim now p) as [q rec]. simpl in Hq.
  assert (Hn : mapM (fun kv : string * option Z => kv.2) (map_to_list (lp_reservations p)) = None).
  { apply mapM_None, Exists_exists. exists (k, None). by rewrite elem_of_map_to_list. }
  assert (Hu : used_addresses q = Panics).
  { unfold used_addresses. rewrite Hq, Hn. by destruct (mapM _ (map_to_list (lp_leases q))). }
  by rewrite Hu.
Qed.

(** On a full range that ends at 255.255.255.255 the loop counter wraps to 0 and
    an address outside the range is handed out. *)
Lemma scan_wraps :
  match Allocate (mkLeasePool (parse4 "255.255.255.255") (parse4 "255.255.255.255")
                    {[ mac_String mac_aa := mkLeaseEntry (parse4 "255.255.255.255") 0 ]} ∅ false 0)
          1 mac_dd "h" false with
  | Returns (o, _, _) => o = parse4 "0.0.0.0"
  | Panics => False
  end.
Proof. vm_compute. reflexivity. Qed.
