(* ===== verification/Dhcp.v ===== *)
(** * internal/pxe/dhcp.go: the DHCP server

    The server's state, its reconfiguration, and the handler of DISCOVER and
    REQUEST messages in full and proxy mode.  The packet library is not part of
    the program: a request is the fields the code reads of it, and a reply is the
    list of modifiers the code passes to [dhcpv4.NewReplyFromRequest], whose
    error is an argument.  The handler reads the server's fields and its pool
    under the lock; it is run here against the server it read. *)
From S2P Require Import Prelude GoStrings GoNet Subnet Lease.

(** ** Messages *)

Inductive MessageType : Type :=
| MessageTypeDiscover | MessageTypeOffer | MessageTypeRequest | MessageTypeAck | MessageTypeOther.

Global Instance MessageType_eq_dec : EqDecision MessageType.
Proof. solve_decision. Defined.

(** Values of option 93. *)
Definition INTEL_X86PC : Z := 0.
Definition EFI_BC : Z := 7.
Definition EFI_X86_64 : Z := 9.

(** What the server reads of a request; an absent address is [None], the
    unspecified one is 0. *)
Record DHCPv4 := mkDHCPv4 {
  rq_MessageType : MessageType;
  rq_ClientHWAddr : HardwareAddr;
  rq_HostName : string;
  rq_ClassIdentifier : string;
  rq_UserClass : list string;
  rq_ClientArch : list Z;
  rq_GatewayIPAddr : option Z;
  rq_ClientIPAddr : option Z }.

Inductive Modifier : Type :=
| WithMessageType (t : MessageType)
| WithServerIP (ip : option Z)
| WithYourIP (ip : Z)
| OptIPAddressLeaseTime (d : Duration)
| OptServerIdentifier (ip : option Z)
| WithNetmask (mask : bytes)
| WithRouter (ip : option Z)
| WithDNS (ips : list (option Z))
| OptDomainName (s : string)
| WithDomainSearchList (l : list string)
| OptNTPServers (ips : list (option Z))
| WithBootInfo (ip : option Z) (bootFile : string).

Global Instance Modifier_eq_dec : EqDecision Modifier.
Proof. solve_decision. Defined.

Record BootConfig := mkBootConfig {
  bc_BIOSBootFile : string; bc_UEFIBootFile : string; bc_UEFILocalBootFile : string; bc_IPXEScript : string }.

(** ** State *)

Record Server := mkServer {
  sv_mode : string;
  sv_iface : string;
  sv_serverIP : option Z;
  sv_subnet : SubnetSpec;
  sv_boot : BootConfig;
  sv_registeredMACs : gset string;
  sv_localBootMACs : gset string;
  sv_leases : option leasePool;
  sv_store : bool }.
Global Instance Server_fields : Fields Server :=
  fpure mkServer <*> sv_mode <*> sv_iface <*> sv_serverIP <*> sv_subnet <*> sv_boot
    <*> sv_registeredMACs <*> sv_localBootMACs <*> sv_leases <*> sv_store.

Definition defaultLeaseTime : Duration := 1 * Hour.

Definition leaseTTL (spec : SubnetSpec) : Duration :=
  if 0 <? ss_LeaseTime spec then int64 (ss_LeaseTime spec * Second) else 0.

(** [if strings.TrimSpace(x) == "" { x = d }]. *)
Definition or_default (x d : string) : string := if TrimSpace x ==? "" then d else x.

Definition normalizeBootConfig (c : BootConfig) : BootConfig :=
  mkBootConfig (or_default (bc_BIOSBootFile c) "undionly.kpxe")
    (or_default (bc_UEFIBootFile c) "ipxe.efi")
    (or_default (bc_UEFILocalBootFile c) "grub-localbootx64.efi")
    (bc_IPXEScript c).

(** [listed] is what [store.List] gives when the pool is built, [None] without a
    store. *)
Definition NewServer (now : Time) (listed : option (result (list DHCPLease)))
  (mode iface : string) (serverIP : option Z) (spec : SubnetSpec) (boot : BootConfig)
  : Server * list store_call :=
  let s := mkServer mode iface serverIP spec (normalizeBootConfig boot) ∅ ∅ None (bool_decide (is_Some listed)) in
  match ss_PXEAddressRange spec with
  | Some r =>
      if mode ==? "full" then
        let '(pool, calls) := newLeasePool now listed (ar_Start r) (ar_End r) (leaseTTL spec) in
        (s <| sv_leases := Some pool |>, calls)
      else (s, [])
  | None => (s, [])
  end.

Definition Reconfigure (now : Time) (listed : option (result (list DHCPLease))) (s : Server) (spec : SubnetSpec)
  : Server * list store_call :=
  let oldRange := ss_PXEAddressRange (sv_subnet s) in
  let oldTTL := leaseTTL (sv_subnet s) in
  let s := s <| sv_subnet := spec |> in
  if sv_mode s !=? "full" then (s, []) else
  let keep :=
    match sv_leases s with
    | Some pool => if leaseTTL spec =? oldTTL then s
                   else s <| sv_leases := Some (SetTTL pool (leaseTTL spec)) |>
    | None => s
    end in
  let rebuild (r : AddressRange) :=
    let '(pool, calls) := newLeasePool now listed (ar_Start r) (ar_End r) (leaseTTL spec) in
    (s <| sv_leases := Some pool |>, calls) in
  match oldRange, ss_PXEAddressRange spec with
  | None, Some r => rebuild r
  | Some _, None => (s <| sv_leases := None |>, [])
  | Some o, Some r => if (ar_Start o !=? ar_Start r) || (ar_End o !=? ar_End r) then rebuild r else (keep, [])
  | None, None => (keep, [])
  end.

(** [deleted] is the outcome of the direct [store.Delete]. *)
Definition ReleaseLease (s : Server) (mac : string) (deleted : option error)
  : option error * Server * list store_call :=
  match ParseMAC (TrimSpace mac) with
  | None =>
      (Some (ErrWrap ("release lease: parse mac " +:+ Quote mac +:+ ": ")
               (ErrNew ("address " +:+ TrimSpace mac +:+ ": invalid MAC address")) ""), s, [])
  | Some hw =>
      match sv_leases s with
      | Some pool =>
          let '(pool, calls) := Release pool hw in (None, s <| sv_leases := Some pool |>, calls)
      | None => if sv_store s then (deleted, s, [StoreDelete (mac_String hw)]) else (None, s, [])
      end
  end.

Definition Server_UpdateReservations (s : Server) (r : gmap string (option Z)) : Server :=
  match sv_leases s with
  | Some pool => s <| sv_leases := Some (UpdateReservations pool r) |>
  | None => s
  end.

Definition normalizeMACSet (macs : gset string) : gset string :=
  filter (fun mac => mac ≠ "") (set_map (fun raw => ToLower (TrimSpace raw)) macs).

Definition UpdateRegisteredMACs (s : Server) (macs : gset string) : Server :=
  s <| sv_registeredMACs := normalizeMACSet macs |>.

Definition UpdateLocalBootMACs (s : Server) (macs : gset string) : Server :=
  s <| sv_localBootMACs := normalizeMACSet macs |>.

(** ** Classifying a client *)

Definition vendorClass (req : DHCPv4) : string := rq_ClassIdentifier req.

Definition isPXEClient (req : DHCPv4) : bool :=
  HasPrefix (vendorClass req) "PXEClient" || HasPrefix (vendorClass req) "iPXE".

Definition isIPXEClient (req : DHCPv4) : bool :=
  HasPrefix (ToLower (vendorClass req)) "ipxe"
  || existsb (fun uc => Contains (ToLower (TrimSpace uc)) "ipxe") (rq_UserClass req).

Definition clientArch (req : DHCPv4) : Z :=
  match rq_ClientArch req with a :: _ => a | [] => INTEL_X86PC end.

Definition selectBootFile (req : DHCPv4) (arch : Z) (boot : BootConfig) (localBoot : bool) : string :=
  if isIPXEClient req && (TrimSpace (bc_IPXEScript boot) !=? "") then
    let script := bc_IPXEScript boot in
    let mac := ToLower (TrimSpace (mac_String (rq_ClientHWAddr req))) in
    if mac ==? "" then script else
    let sep := if Contains script "?" then "&" else "?" in
    script +:+ sep +:+ "mac=" +:+ QueryEscape mac
  else if (arch =? EFI_BC) || (arch =? EFI_X86_64) then
    if localBoot && (TrimSpace (bc_UEFILocalBootFile boot) !=? "")
    then bc_UEFILocalBootFile boot else bc_UEFIBootFile boot
  else bc_BIOSBootFile boot.

Definition containsMAC (mac : HardwareAddr) (macs : gset string) : bool :=
  if macs ==? ∅ then false else bool_decide (ToLower (TrimSpace (mac_String mac)) ∈ macs).

Definition isLocalBootMAC (mac : HardwareAddr) (localBootMACs : gset string) : bool :=
  containsMAC mac localBootMACs.

(** ** Replies *)

Definition response_type (req : DHCPv4) : MessageType :=
  if rq_MessageType req ==? MessageTypeRequest then MessageTypeAck else MessageTypeOffer.

(** The addresses of a list that parse, in their four-byte form (nil for IPv6). *)
Definition parsed_ips (l : list string) : list (option Z) :=
  l ≫= fun s => match ParseIP s with Some ip => [To4 ip] | None => [] end.

(** The reply modifiers of full mode for the address [ip]. *)
Definition full_modifiers (s : Server) (req : DHCPv4) (spec : SubnetSpec) (boot : BootConfig)
  (registered localBoot : bool) (ip : Z) : list Modifier :=
  let leaseTime := if 0 <? ss_LeaseTime spec then int64 (ss_LeaseTime spec * Second) else defaultLeaseTime in
  [WithMessageType (response_type req); WithServerIP (sv_serverIP s); WithYourIP ip;
   OptIPAddressLeaseTime leaseTime; OptServerIdentifier (sv_serverIP s)]
  ++ match ParseCIDR (ss_CIDR spec) with Some mask => [WithNetmask mask] | None => [] end
  ++ (if ss_DefaultGateway spec !=? "" then
        match ParseIP (ss_DefaultGateway spec) with Some gw => [WithRouter (To4 gw)] | None => [] end
      else [])
  ++ (if parsed_ips (ss_DNSServers spec) ==? [] then [] else [WithDNS (parsed_ips (ss_DNSServers spec))])
  ++ (if ss_DomainName spec !=? "" then [OptDomainName (ss_DomainName spec)] else [])
  ++ (if ss_DNSSearchDomains spec ==? [] then [] else [WithDomainSearchList (ss_DNSSearchDomains spec)])
  ++ (if parsed_ips (ss_NTPServers spec) ==? [] then [] else [OptNTPServers (parsed_ips (ss_NTPServers spec))])
  ++ (if registered && isPXEClient req
      then [WithBootInfo (sv_serverIP s) (selectBootFile req (clientArch req) boot localBoot)] else []).

Section handler.
(** The error of [dhcpv4.NewReplyFromRequest]. *)
Context (reply_error : DHCPv4 → list Modifier → option error).

Definition new_reply (req : DHCPv4) (mods : list Modifier) : result (option (list Modifier)) :=
  match reply_error req mods with Some e => Err e | None => Ok (Some mods) end.

(** A reply, [Ok None] when there is none, and the pool and store calls. *)
Definition handleFull (now : Time) (s : Server) (req : DHCPv4) (spec : SubnetSpec) (boot : BootConfig)
  (registered localBoot : bool) (pool : option leasePool)
  : outcome (result (option (list Modifier)) * option leasePool * list store_call) :=
  match pool with
  | None => Returns (Err (ErrNew "full mode requires a lease pool"), None, [])
  | Some pool =>
      r ← Allocate pool now (rq_ClientHWAddr req) (rq_HostName req) (isPXEClient req);
      let '(assignedIP, pool, calls) := r in
      match assignedIP with
      | None => Returns (Err (ErrNew ("lease pool exhausted for " +:+ mac_String (rq_ClientHWAddr req))), Some pool, calls)
      | Some ip => Returns (new_reply req (full_modifiers s req spec boot registered localBoot ip), Some pool, calls)
      end
  end.

Definition handleProxy (s : Server) (req : DHCPv4) (boot : BootConfig) (registered localBoot : bool)
  : result (option (list Modifier)) :=
  if negb registered || negb (isPXEClient req) then Ok None
  else new_reply req
    [WithMessageType (response_type req); WithServerIP (sv_serverIP s); OptServerIdentifier (sv_serverIP s);
     WithBootInfo (sv_serverIP s) (selectBootFile req (clientArch req) boot localBoot)].

(** Where the reply goes: address and port. *)
Definition destination (req : DHCPv4) : Z * Z :=
  let specified (ip : option Z) := match ip with Some n => if n =? 0 then None else Some n | None => None end in
  match specified (rq_GatewayIPAddr req), specified (rq_ClientIPAddr req) with
  | Some gw, _ => (gw, 67)
  | None, Some c => (c, 68)
  | None, None => (4294967295, 68)
  end.

(** The reply sent, if any, with its destination. *)
Definition handler (now : Time) (s : Server) (req : DHCPv4)
  : outcome (option (list Modifier * (Z * Z)) * Server * list store_call) :=
  if (rq_MessageType req !=? MessageTypeDiscover) && (rq_MessageType req !=? MessageTypeRequest)
  then Returns (None, s, []) else
  let registered := containsMAC (rq_ClientHWAddr req) (sv_registeredMACs s) in
  let localBoot := isLocalBootMAC (rq_ClientHWAddr req) (sv_localBootMACs s) in
  r ← (if sv_mode s ==? "proxy"
       then Returns (handleProxy s req (sv_boot s) registered localBoot, sv_leases s, [])
       else handleFull now s req (sv_subnet s) (sv_boot s) registered localBoot (sv_leases s));
  let '(resp, leases, calls) := r in
  let s := s <| sv_leases := leases |> in
  match resp with
  | Err _ | Ok None => Returns (None, s, calls)
  | Ok (Some mods) => Returns (Some (mods, destination req), s, calls)
  end.
End handler.

(** ** What an allocation leaves, whatever the pool *)

Lemma pick_entry p now key hostname pxe calls n p' calls' :
  pick p now key hostname pxe calls = Returns (Some n, p', calls') →
  lp_leases p' !! key = Some (mkLeaseEntry (Some n) now).
Proof.
  unfold pick. intros (s & _ & (e & _ & H)%bind_Returns_inv)%bind_Returns_inv. revert H.
  destruct (reclaim now p) as [q rec]. intros (used & _ & H)%bind_Returns_inv. revert H. cbv beta.
  destruct (scan _ _ _ _); intros [= <- <- <-]. simpl. apply lookup_insert_eq.
Qed.

Lemma Allocate_entry p now mac hostname pxe n p' calls :
  Allocate p now mac hostname pxe = Returns (Some n, p', calls) →
  lp_leases p' !! mac_String mac = Some (mkLeaseEntry (Some n) now).
Proof.
  unfold Allocate. destruct (lp_reservations p !! _) as [ip|].
  { intros [= -> <- <-]. simpl. apply lookup_insert_eq. }
  destruct (lp_leases p !! _) as [e|]; [|apply pick_entry].
  destruct (renewable p now e) eqn:Hr; [|apply pick_entry].
  intros H. injection H as Hn <- <-. simpl. rewrite Hn. apply lookup_insert_eq.
Qed.

(** Allocation changes nothing but the leases. *)
Lemma pick_static p now key hostname pxe calls o p' calls' :
  pick p now key hostname pxe calls = Returns (o, p', calls') →
  lp_start p' = lp_start p ∧ lp_end p' = lp_end p ∧ lp_ttl p' = lp_ttl p
  ∧ lp_reservations p' = lp_reservations p.
Proof.
  unfold pick. intros (s & _ & (e & _ & H)%bind_Returns_inv)%bind_Returns_inv. revert H.
  pose proof (shrinks_reclaim now p) as Hs. destruct (reclaim now p) as [q rec]. simpl in Hs.
  intros (used & _ & H)%bind_Returns_inv. revert H. cbv beta.
  destruct (scan _ _ _ _); intros [= <- <- <-]; simpl; by destruct Hs.
Qed.

Lemma Allocate_static p now mac hostname pxe o p' calls :
  Allocate p now mac hostname pxe = Returns (o, p', calls) →
  lp_start p' = lp_start p ∧ lp_end p' = lp_end p ∧ lp_ttl p' = lp_ttl p
  ∧ lp_reservations p' = lp_reservations p.
Proof.
  unfold Allocate. destruct (lp_reservations p !! _) as [ip|]; [by intros [= _ <- _]|].
  destruct (lp_leases p !! _) as [e|]; [|apply pick_static].
  destruct (renewable p now e); [by intros [= _ <- _]|]. intros H%pick_static. exact H.
Qed.

(** ** The pool always matches the subnet *)

Definition pool_matches (spec : SubnetSpec) (pool : leasePool) : Prop :=
  ∃ r, ss_PXEAddressRange spec = Some r
     ∧ lp_start pool = parse4 (ar_Start r) ∧ lp_end pool = parse4 (ar_End r)
     ∧ lp_ttl pool = leaseTTL spec.

Definition server_ok (s : Server) : Prop :=
  match sv_leases s with
  | Some pool => sv_mode s = "full" ∧ pool_matches (sv_subnet s) pool
  | None => sv_mode s ≠ "full" ∨ ss_PXEAddressRange (sv_subnet s) = None
  end.

Lemma restore_one_static now p calls l :
  let q := (restore_one now (p, calls) l).1 in
  lp_start q = lp_start p ∧ lp_end q = lp_end p ∧ lp_ttl q = lp_ttl p.
Proof. rewrite restore_one_spec. by destruct (restorable p now l). Qed.

Lemma restore_fold_static now ls : ∀ p calls,
  let q := (fold_left (restore_one now) ls (p, calls)).1 in
  lp_start q = lp_start p ∧ lp_end q = lp_end p ∧ lp_ttl q = lp_ttl p.
Proof.
  induction ls as [|l ls IH]; intros p calls; [done|]. cbn [fold_left].
  pose proof (restore_one_static now p calls l) as (E1 & E2 & E3).
  destruct (restore_one now (p, calls) l) as [q c]. destruct (IH q c) as (F1 & F2 & F3).
  simpl in *. split_and!; congruence.
Qed.

Lemma newLeasePool_matches now listed spec r :
  ss_PXEAddressRange spec = Some r →
  pool_matches spec (newLeasePool now listed (ar_Start r) (ar_End r) (leaseTTL spec)).1.
Proof.
  intros Hr. exists r. split; [done|]. unfold newLeasePool, restore.
  destruct listed as [[ls|]|]; try done. apply restore_fold_static.
Qed.

Inductive server_step (reply_error : DHCPv4 → list Modifier → option error) (s : Server) : Server → Prop :=
| sstep_handle now req out s' calls :
    handler reply_error now s req = Returns (out, s', calls) → server_step reply_error s s'
| sstep_reconfigure now listed spec : server_step reply_error s (Reconfigure now listed s spec).1
| sstep_release mac deleted : server_step reply_error s (ReleaseLease s mac deleted).1.2
| sstep_reservations r : server_step reply_error s (Server_UpdateReservations s r)
| sstep_registered macs : server_step reply_error s (UpdateRegisteredMACs s macs)
| sstep_localboot macs : server_step reply_error s (UpdateLocalBootMACs s macs).

Lemma Reconfigure_ok now listed s spec : server_ok s → server_ok (Reconfigure now listed s spec).1.
Proof.
  intros Hok. unfold Reconfigure. simpl.
  case_bool_decide as Hm; simpl; cycle 1.
  { unfold server_ok in *. simpl. destruct (sv_leases s) as [pool|]; [naive_solver|by left]. }
  assert (Hreb : ∀ r, ss_PXEAddressRange spec = Some r →
    server_ok (let '(pool, calls) := newLeasePool now listed (ar_Start r) (ar_End r) (leaseTTL spec) in
               (s <| sv_subnet := spec |> <| sv_leases := Some pool |>, calls)).1).
  { intros r Hr. pose proof (newLeasePool_matches now listed spec r Hr).
    destruct (newLeasePool _ _ _ _ _) as [pool calls]. by split. }
  destruct (ss_PXEAddressRange (sv_subnet s)) as [o|] eqn:Eo,
    (ss_PXEAddressRange spec) as [r|] eqn:Er; [| |by apply Hreb|].
  - destruct (_ || _) eqn:Hne; [by apply Hreb|]. apply orb_false_iff in Hne as [H1 H2].
    apply negb_false_iff, bool_decide_eq_true in H1, H2. unfold server_ok in *. simpl.
    destruct (sv_leases s) as [pool|] eqn:El; simpl; [|naive_solver].
    destruct Hok as (_ & o' & E1 & E2 & E3 & E4). rewrite Eo in E1. injection E1 as <-.
    destruct (leaseTTL spec =? leaseTTL (sv_subnet s)) eqn:Ht; simpl; rewrite ?El.
    + split; [done|]. exists r. rewrite <- H1, <- H2. split_and!; try done. lia.
    + split; [done|]. exists r. simpl. by rewrite <- H1, <- H2.
  - unfold server_ok. simpl. by right.
  - unfold server_ok in *. simpl. destruct (sv_leases s) as [pool|] eqn:El; simpl.
    + destruct Hok as (_ & o' & E1 & _). congruence.
    + rewrite El. by right.
Qed.

Lemma handler_leases reply_error now s req out s' calls :
  handler reply_error now s req = Returns (out, s', calls) →
  s' = s ∨ (sv_mode s ≠ "proxy" ∧ ∃ pool pool' o,
     sv_leases s = Some pool ∧ s' = s <| sv_leases := Some pool' |>
     ∧ Allocate pool now (rq_ClientHWAddr req) (rq_HostName req) (isPXEClient req) = Returns (o, pool', calls)).
Proof.
  assert (Hid : s <| sv_leases := sv_leases s |> = s) by (by destruct s).
  unfold handler. destruct (_ && _); [intros [= _ <- _]; by left|].
  case_bool_decide as Hm.
  - step_return. cbv iota. rewrite Hid.
    destruct (handleProxy _ _ _ _ _ _) as [[mods|]|]; intros [= _ <- _]; by left.
  - unfold handleFull. destruct (sv_leases s) as [pool|] eqn:El; [|intros [= _ <- _]; by left].
    intros (r & H1 & H)%bind_Returns_inv. revert H1 H.
    intros ([[o p'] c] & Ha & H1)%bind_Returns_inv. revert H1. cbv beta iota.
    intros H1 H2. right. split; [done|]. exists pool, p', o. split; [done|].
    destruct o as [ip|]; injection H1 as <-; revert H2; cbv beta iota.
    + unfold new_reply. destruct (reply_error _ _); intros [= _ <- <-]; by split.
    + intros [= _ <- <-]. by split.
Qed.

Lemma server_step_ok reply_error s s' : server_ok s → server_step reply_error s s' → server_ok s'.
Proof.
  intros Hok Hstep. destruct Hstep as [now req out s' calls H|now listed spec|mac deleted|r|macs|macs].
  - apply handler_leases in H as [->|(_ & pool & pool' & o & El & -> & Ha)]; [done|].
    unfold server_ok in *. rewrite El in Hok. simpl. destruct Hok as (Hm & r & E1 & E2 & E3 & E4).
    apply Allocate_static in Ha as (F1 & F2 & F3 & _). split; [done|]. exists r.
    by rewrite F1, F2, F3.
  - by apply Reconfigure_ok.
  - unfold ReleaseLease. destruct (ParseMAC _); [|done].
    unfold server_ok in *. destruct (sv_leases s) as [pool|] eqn:El; simpl; [done|].
    destruct (sv_store s); simpl; by rewrite El.
  - unfold server_ok, Server_UpdateReservations in *. destruct (sv_leases s) eqn:El; simpl; [done|].
    by rewrite El.
  - done.
  - done.
Qed.

Lemma server_reachable_ok reply_error s s' : server_ok s → rtc (server_step reply_error) s s' → server_ok s'.
Proof. intros H. induction 1; eauto using server_step_ok. Qed.

Lemma NewServer_ok now listed mode iface ip spec boot :
  server_ok (NewServer now listed mode iface ip spec boot).1.
Proof.
  unfold NewServer, server_ok. destruct (ss_PXEAddressRange spec) as [r|] eqn:Er; simpl; [|by right].
  case_bool_decide as Hm; simpl; [|by left].
  pose proof (newLeasePool_matches now listed spec r Er).
  destruct (newLeasePool _ _ _ _ _) as [pool calls]. by split.
Qed.

(** What a reply of full mode is made of. *)
Lemma handler_full_reply reply_error now s req mods dst s' calls :
  sv_mode s ≠ "proxy" →
  handler reply_error now s req = Returns (Some (mods, dst), s', calls) →
  ∃ pool pool' ip, sv_leases s = Some pool ∧ s' = s <| sv_leases := Some pool' |>
    ∧ Allocate pool now (rq_ClientHWAddr req) (rq_HostName req) (isPXEClient req) = Returns (Some ip, pool', calls)
    ∧ dst = destination req
    ∧ mods = full_modifiers s req (sv_subnet s) (sv_boot s)
               (containsMAC (rq_ClientHWAddr req) (sv_registeredMACs s))
               (containsMAC (rq_ClientHWAddr req) (sv_localBootMACs s)) ip.
Proof.
  intros Hm. unfold handler. destruct (_ && _); [done|].
  rewrite bool_decide_eq_false_2 by done. unfold handleFull.
  destruct (sv_leases s) as [pool|]; [|done].
  intros (r & ([[o p'] c] & Ha & H1)%bind_Returns_inv & H)%bind_Returns_inv. revert H1 H. cbv beta iota.
  destruct o as [ip|]; intros [= <-]; cbv beta iota; [|done].
  unfold new_reply. destruct (reply_error _ _); [done|]. intros [= <- <- <- <-]. by exists pool, p', ip.
Qed.

Lemma full_modifiers_your_ip s req spec boot registered localBoot ip m :
  m ∈ full_modifiers s req spec boot registered localBoot ip →
  match m with
  | WithYourIP ip' => ip' = ip
  | OptIPAddressLeaseTime d => d = if 0 <? ss_LeaseTime spec then int64 (ss_LeaseTime spec * Second) else defaultLeaseTime
  | WithMessageType t => t = response_type req
  | WithBootInfo _ f => registered = true ∧ isPXEClient req = true
                        ∧ f = selectBootFile req (clientArch req) boot localBoot
  | _ => True
  end.
Proof.
  unfold full_modifiers. rewrite !elem_of_app.
  intros [H|[H|[H|[H|[H|[H|[H|H]]]]]]].
  - rewrite !elem_of_cons, elem_of_nil in H. by destruct H as [->|[->|[->|[->|[->|[]]]]]].
  - destruct (ParseCIDR _); [|by rewrite elem_of_nil in H]. by apply list_elem_of_singleton in H as ->.
  - destruct (negb _); [|by rewrite elem_of_nil in H]. destruct (ParseIP _); [|by rewrite elem_of_nil in H].
    by apply list_elem_of_singleton in H as ->.
  - destruct (bool_decide _); [by rewrite elem_of_nil in H|]. by apply list_elem_of_singleton in H as ->.
  - destruct (negb _); [|by rewrite elem_of_nil in H]. by apply list_elem_of_singleton in H as ->.
  - destruct (bool_decide _); [by rewrite elem_of_nil in H|]. by apply list_elem_of_singleton in H as ->.
  - destruct (bool_decide _); [by rewrite elem_of_nil in H|]. by apply list_elem_of_singleton in H as ->.
  - destruct registered, (isPXEClient req); simpl in H; try (by rewrite elem_of_nil in H).
    by apply list_elem_of_singleton in H as ->.
Qed.

(** C5: an address offered or acknowledged by the full-mode server is recorded,
    and stays the client's for the lease time the reply advertises.  In every
    state the server reaches, by whatever messages and reconfigurations, a reply
    carries exactly one address and one lease time; the pool has the lease with
    the time of the reply, and does not expire it before that lease time is over. *)
Theorem dhcp_reply_honoured (reply_error : DHCPv4 → list Modifier → option error)
  (t0 : Time) (listed : option (result (list DHCPLease))) (mode iface : string) (ip0 : option Z)
  (spec : SubnetSpec) (boot : BootConfig) (s : Server) (now : Time) (req : DHCPv4)
  (mods : list Modifier) (dst : Z * Z) (s' : Server) (calls : list store_call)
  (Hreach : rtc (server_step reply_error) (NewServer t0 listed mode iface ip0 spec boot).1 s)
  (Hmode : sv_mode s ≠ "proxy")
  (Hreply : handler reply_error now s req = Returns (Some (mods, dst), s', calls)) :
  ∃ pool ip d, sv_leases s' = Some pool ∧ pool_matches (sv_subnet s') pool
    ∧ (∀ ip', WithYourIP ip' ∈ mods ↔ ip' = ip)
    ∧ (∀ d', OptIPAddressLeaseTime d' ∈ mods ↔ d' = d)
    ∧ lp_leases pool !! mac_String (rq_ClientHWAddr req) = Some (mkLeaseEntry (Some ip) now)
    ∧ ∀ t, t <= now + d → expired pool t now = false.
Proof.
  assert (Hok : server_ok s) by (eapply server_reachable_ok; [apply NewServer_ok|done]).
  assert (Hok' : server_ok s') by (eapply server_step_ok; [done|by eapply sstep_handle]).
  destruct (handler_full_reply _ _ _ _ _ _ _ _ Hmode Hreply)
    as (pool & pool' & ip & El & -> & Ha & _ & ->).
  unfold server_ok in Hok'. simpl in Hok'. destruct Hok' as (_ & Hmatch).
  set (d := if 0 <? ss_LeaseTime (sv_subnet s) then int64 (ss_LeaseTime (sv_subnet s) * Second) else defaultLeaseTime).
  exists pool', ip, d. split_and!; [done|done|..].
  - intros ip'. split; [apply full_modifiers_your_ip|]. intros ->. unfold full_modifiers. set_solver.
  - intros d'. split; [apply full_modifiers_your_ip|]. intros ->. unfold full_modifiers. set_solver.
  - by eapply Allocate_entry.
  - intros t Ht. destruct Hmatch as (r & _ & _ & _ & Httl). unfold leaseTTL in Httl.
    destruct (0 <? ss_LeaseTime (sv_subnet s)) eqn:E.
    + apply expired_within. rewrite Httl. exact Ht.
    + unfold expired. by rewrite Httl.
Qed.

Definition sample_spec : SubnetSpec :=
  mkSubnetSpec "10.0.0.0/24" "" (Some (mkAddressRange "10.0.0.10" "10.0.0.20")) "10.0.0.1" ["10.0.0.1"] [] 0 []
    [] 600 "lab.test" [].

Definition sample_discover (vendor : string) : DHCPv4 :=
  mkDHCPv4 MessageTypeDiscover mac_dd "h" vendor [] [EFI_X86_64] None None.

Lemma dhcp_reply_honoured_witness :
  ∃ pool, lp_leases pool !! mac_String mac_dd = Some (mkLeaseEntry (Some 167772170) (time_Unix 1700000000))
    ∧ expired pool (time_Unix 1700000600) (time_Unix 1700000000) = false.
Proof.
  set (s := (NewServer 0 None "full" "eth0" (Some 167772161) sample_spec (mkBootConfig "" "" "" "")).1).
  destruct (handler (fun _ _ => None) (time_Unix 1700000000) s (sample_discover "")) as [[[o s'] calls]|] eqn:E;
    [|vm_compute in E; discriminate E].
  destruct o as [[mods dst]|]; [|vm_compute in E; discriminate E].
  destruct (dhcp_reply_honoured (fun _ _ => None) 0 None "full" "eth0" (Some 167772161) sample_spec
    (mkBootConfig "" "" "" "") s (time_Unix 1700000000) (sample_discover "") mods dst s' calls)
    as (pool & ip & d & Hp & _ & Hip & Hd & Hl & Hx).
  - apply rtc_refl.
  - discriminate.
  - exact E.
  - exists pool. vm_compute in E. injection E as <- _ _ _.
    assert (ip = 167772170) as -> by (symmetry; apply Hip; set_solver).
    assert (d = 600 * Second) as -> by (symmetry; apply Hd; set_solver).
    split; [exact Hl|]. apply Hx. vm_compute. discriminate.
Defined.

(** Boot information goes only to registered PXE clients.  A message that is
    neither a DISCOVER nor a REQUEST is ignored.  In proxy mode the server answers
    exactly the registered PXE clients (when the packet library builds the reply),
    offers them no address and changes nothing.  In every mode a reply that names
    a boot file goes to a registered PXE client, and the file is the one selected
    for its firmware, iPXE stage and local-boot flag. *)
Lemma dhcp_boot_only_registered (reply_error : DHCPv4 → list Modifier → option error)
  (now : Time) (s : Server) (req : DHCPv4) (out : option (list Modifier * (Z * Z))) (s' : Server)
  (calls : list store_call) (Hrun : handler reply_error now s req = Returns (out, s', calls)) :
  let registered := containsMAC (rq_ClientHWAddr req) (sv_registeredMACs s) in
  let asks := bool_decide (rq_MessageType req = MessageTypeDiscover ∨ rq_MessageType req = MessageTypeRequest) in
  (asks = false → out = None ∧ s' = s ∧ calls = [])
  ∧ (sv_mode s = "proxy" → s' = s ∧ calls = []
       ∧ (registered && isPXEClient req = false → out = None)
       ∧ (registered && isPXEClient req = true → asks = true → (∀ mods, reply_error req mods = None) → is_Some out)
       ∧ ∀ mods dst ip, out = Some (mods, dst) → WithYourIP ip ∉ mods)
  ∧ ∀ mods dst ip file, out = Some (mods, dst) → WithBootInfo ip file ∈ mods →
      registered = true ∧ isPXEClient req = true
      ∧ file = selectBootFile req (clientArch req) (sv_boot s)
                 (containsMAC (rq_ClientHWAddr req) (sv_localBootMACs s)).
Proof.
  intros registered asks.
  assert (Hasks : (rq_MessageType req !=? MessageTypeDiscover) && (rq_MessageType req !=? MessageTypeRequest) = negb asks).
  { unfold asks. destruct (rq_MessageType req); reflexivity. }
  assert (Hproxy : sv_mode s = "proxy" → asks = true →
    s' = s ∧ calls = [] ∧
    out = match handleProxy reply_error s req (sv_boot s) registered
                  (containsMAC (rq_ClientHWAddr req) (sv_localBootMACs s)) with
          | Ok (Some mods) => Some (mods, destination req) | _ => None end).
  { intros Hm Ha. revert Hrun. unfold handler. rewrite Hasks, Ha. cbn [negb].
    rewrite bool_decide_eq_true_2 by done. step_return. cbv iota.
    assert (s <| sv_leases := sv_leases s |> = s) as -> by (by destruct s).
    unfold isLocalBootMAC. fold registered.
    destruct (handleProxy _ _ _ _ _ _) as [[mods|]|]; intros [= <- <- <-]; done. }
  assert (Hno : asks = false → out = None ∧ s' = s ∧ calls = []).
  { intros Ha. revert Hrun. unfold handler. rewrite Hasks, Ha. by intros [= <- <- <-]. }
  split; [done|]. split.
  - intros Hm. destruct asks eqn:Ha; cycle 1.
    { destruct (Hno eq_refl) as (-> & -> & ->). split_and!; done. }
    destruct (Hproxy Hm eq_refl) as (-> & -> & ->). unfold handleProxy.
    split; [done|]. split; [done|]. destruct registered, (isPXEClient req); simpl; split_and!; try done.
    + intros _ _ Hr. unfold new_reply. rewrite Hr. eauto.
    + intros mods dst ip. unfold new_reply. destruct (reply_error _ _); [done|]. intros [= <- <-]. set_solver.
  - intros mods dst ip file -> Hin. destruct asks eqn:Ha; [|by destruct (Hno eq_refl)].
    destruct (decide (sv_mode s = "proxy")) as [Hm|Hm].
    + destruct (Hproxy Hm eq_refl) as (_ & _ & Ho). revert Ho. unfold handleProxy.
      destruct registered, (isPXEClient req); simpl; try done. unfold new_reply.
      destruct (reply_error _ _); [done|]. intros [= -> _]. split_and!; [done..|]. set_solver.
    + destruct (handler_full_reply _ _ _ _ _ _ _ _ Hm Hrun) as (pool & pool' & ip' & _ & _ & _ & _ & ->).
      by apply full_modifiers_your_ip in Hin.
Qed.

Lemma dhcp_boot_only_registered_witness :
  let s := mkServer "proxy" "eth0" (Some 167772161) sample_spec (normalizeBootConfig (mkBootConfig "" "" "" ""))
             {[ mac_String mac_dd ]} ∅ None false in
  ∃ out, handler (fun _ _ => None) 0 s (sample_discover "PXEClient:Arch:00009") = Returns (out, s, [])
    ∧ is_Some out.
Proof.
  intros s.
  destruct (handler (fun _ _ => None) 0 s (sample_discover "PXEClient:Arch:00009")) as [[[out s'] calls]|] eqn:E;
    [|vm_compute in E; discriminate E].
  destruct (dhcp_boot_only_registered (fun _ _ => None) 0 s (sample_discover "PXEClient:Arch:00009") out s' calls E)
    as (_ & Hp & _).
  destruct (Hp eq_refl) as (-> & -> & _ & Hs & _). exists out. split; [reflexivity|].
  apply Hs; [vm_compute; reflexivity|vm_compute; reflexivity|reflexivity].
Defined.

(** ** A valid subnet that stops the server

    [ValidateSubnet] accepts an IPv6 address range: [net.ParseIP] succeeds on it.
    [newLeasePool] keeps a nil start, and the first client that needs an address
    makes [Allocate] panic. *)
Definition ipv6_range_subnet : Subnet :=
  mkSubnet "lab"
    (mkSubnetSpec "10.0.0.0/24" "" (Some (mkAddressRange "fd00::10" "fd00::20")) "" ["10.0.0.1"] [] 0 [] [] 0 "" [])
    0 0.

Lemma valid_ipv6_range_panics :
  ValidateSubnet ipv6_range_subnet = None
  ∧ handler (fun _ _ => None) 1
      (NewServer 0 None "full" "eth0" (Some 167772161) (sn_Spec ipv6_range_subnet) (mkBootConfig "" "" "" "")).1
      (sample_discover "") = Panics.
Proof. split; vm_compute; reflexivity. Qed.
