(* ===== verification/Store.v ===== *)
(** * The store interface and the generic in-memory store

    Every resource has a [Store] interface with the same four operations, and an
    in-memory backend that is a map from a key to the resource.  [ResourceStore]
    is the interface the services are written against, [StoreLaws] what they rely
    on, and [mem] the map-backed implementation, which satisfies the laws. *)
From S2P Require Import Prelude GoStrings.

(** ** The interface *)

Class ResourceStore (S T : Type) := {
  st_key : T → string;
  st_Upsert : S → T → result S;
  st_Get : S → string → result T;
  st_List : S → result (list T);
  st_Delete : S → string → result S }.

(** [store_ok] is the representation invariant of the store. *)
Class StoreLaws (S T : Type) `{ResourceStore S T} := {
  store_ok : S → Prop;
  upsert_ok s x s' : store_ok s → st_Upsert s x = Ok s' → store_ok s';
  delete_ok s n s' : store_ok s → st_Delete s n = Ok s' → store_ok s';
  get_key s n x : store_ok s → st_Get s n = Ok x → st_key x = n;
  get_upsert s x s' : store_ok s → st_Upsert s x = Ok s' → st_Get s' (st_key x) = Ok x;
  get_upsert_ne s x s' n : store_ok s → st_Upsert s x = Ok s' → n ≠ st_key x → st_Get s' n = st_Get s n;
  get_delete s n s' : store_ok s → st_Delete s n = Ok s' → st_Get s' n = Err ErrNotFound;
  get_delete_ne s n s' n' : store_ok s → st_Delete s n = Ok s' → n' ≠ n → st_Get s' n' = st_Get s n';
  list_get s l x : store_ok s → st_List s = Ok l → x ∈ l ↔ st_Get s (st_key x) = Ok x }.

(** ** The map-backed store

    The key of a stored resource is one of its own fields; [List] sorts by it,
    byte-wise as Go compares strings.  Pointers inside a resource are part of its
    value: a caller that gets a resource and assigns through one of its pointers
    is not modelled as changing the stored copy. *)

Class Keyed (T : Type) := key_of : T → string.

Section mem.
Context {T : Type} `{Keyed T}.
Implicit Types (m : gmap string T) (x : T).

Definition key_le (x y : T) : Prop := String.le (key_of x) (key_of y).
Global Instance key_le_dec : RelDecision key_le.
Proof. intros x y. unfold key_le. apply _. Defined.
Global Instance key_le_trans : Transitive key_le.
Proof. intros x y z. unfold key_le. apply transitivity. Qed.
Global Instance key_le_total : Total key_le.
Proof. intros x y. unfold key_le. apply total; apply _. Qed.

Definition mem_upsert (m : gmap string T) (x : T) : result (gmap string T) :=
  Ok (<[key_of x := x]> m).

Definition mem_insert (m : gmap string T) (x : T) : result (gmap string T) :=
  match m !! key_of x with
  | Some _ => Err ErrAlreadyExists
  | None => Ok (<[key_of x := x]> m)
  end.

Definition mem_get (m : gmap string T) (n : string) : result T :=
  match m !! n with Some x => Ok x | None => Err ErrNotFound end.

Definition mem_values (m : gmap string T) : list T := snd <$> map_to_list m.

Definition mem_list (m : gmap string T) : result (list T) := Ok (merge_sort key_le (mem_values m)).

(** The elements satisfying a test, sorted. *)
Definition mem_list_where (f : T → bool) (m : gmap string T) : result (list T) :=
  Ok (merge_sort key_le (filter (fun x => f x = true) (mem_values m))).

Definition mem_delete (m : gmap string T) (n : string) : result (gmap string T) :=
  match m !! n with Some _ => Ok (delete n m) | None => Err ErrNotFound end.

(** [all[offset:end]] panics on a negative offset; [int] is 64 bits wide. *)
Definition mem_page (m : gmap string T) (offset limit : Z) : outcome (list T * Z) :=
  let all := merge_sort key_le (mem_values m) in
  let total := Z.of_nat (length all) in
  if (limit <=? 0) || (total <=? offset) then Returns ([], total) else
  let end_ := int64 (offset + limit) in
  let end_ := if total <? end_ then total else end_ in
  if (0 <=? offset) && (offset <=? end_)
  then Returns (take (Z.to_nat (end_ - offset)) (drop (Z.to_nat offset) all), total)
  else Panics.

(** Every resource is filed under its own key. *)
Definition mem_ok (m : gmap string T) : Prop := ∀ n x, m !! n = Some x → key_of x = n.

Lemma elem_of_mem_values m x : mem_ok m → x ∈ mem_values m ↔ m !! key_of x = Some x.
Proof.
  intros Hok. unfold mem_values. rewrite list_elem_of_fmap. split.
  - intros ([n y] & -> & Hy%elem_of_map_to_list). simpl. by rewrite (Hok _ _ Hy).
  - intros Hx. exists (key_of x, x). by rewrite elem_of_map_to_list.
Qed.

Lemma mem_values_NoDup m : mem_ok m → NoDup (key_of <$> mem_values m).
Proof.
  intros Hok. unfold mem_values. rewrite <- list_fmap_compose.
  rewrite (list_fmap_ext _ fst); [apply NoDup_fst_map_to_list|].
  intros i [n x] Hi%list_elem_of_lookup_2%elem_of_map_to_list. simpl. by apply Hok.
Qed.

Lemma mem_list_perm m : mem_list m = Ok (merge_sort key_le (mem_values m))
  ∧ merge_sort key_le (mem_values m) ≡ₚ mem_values m
  ∧ StronglySorted key_le (merge_sort key_le (mem_values m)).
Proof. split; [done|]. split; [apply merge_sort_Permutation|apply StronglySorted_merge_sort; apply _]. Qed.

Global Instance mem_store : ResourceStore (gmap string T) T := {|
  st_key := key_of;
  st_Upsert := mem_upsert;
  st_Get := mem_get;
  st_List := mem_list;
  st_Delete := mem_delete |}.

Lemma mem_get_Ok m n x : mem_get m n = Ok x ↔ m !! n = Some x.
Proof. unfold mem_get. destruct (m !! n); naive_solver. Qed.

Global Instance mem_store_laws : StoreLaws (gmap string T) T.
Proof.
  refine {| store_ok := mem_ok |}; simpl.
  - intros m x m' Hok [= <-] n y. rewrite lookup_insert_Some. intros [[<- <-]|[_ Hy]]; [done|by apply Hok].
  - intros m n m' Hok. unfold mem_delete. destruct (m !! n); [|done]. intros [= <-] n' y.
    rewrite lookup_delete_Some. intros [_ Hy]. by apply Hok.
  - intros m n x Hok Hx%mem_get_Ok. by apply Hok.
  - intros m x m' _ [= <-]. apply mem_get_Ok. apply lookup_insert_eq.
  - intros m x m' n _ [= <-] Hn. unfold mem_get. by rewrite lookup_insert_ne.
  - intros m n m' _. unfold mem_delete. destruct (m !! n); [|done]. intros [= <-].
    unfold mem_get. by rewrite lookup_delete_eq.
  - intros m n m' n' _. unfold mem_delete. destruct (m !! n); [|done]. intros [= <-] Hn.
    unfold mem_get. by rewrite lookup_delete_ne.
  - intros m l x Hok [= <-]. rewrite merge_sort_Permutation, elem_of_mem_values by done.
    by rewrite mem_get_Ok.
Defined.

(** Inserting never overwrites, and otherwise stores. *)
Lemma mem_insert_spec m x :
  match mem_insert m x with
  | Ok m' => m !! key_of x = None ∧ m' = <[key_of x := x]> m
  | Err e => e = ErrAlreadyExists ∧ is_Some (m !! key_of x)
  end.
Proof. unfold mem_insert. destruct (m !! key_of x); simpl; eauto. Qed.

(** Pages of a given size cover the sorted list: the page at [offset] is the
    [limit] resources from there on, and the total is the size of the store. *)
Lemma mem_page_spec m (offset limit : Z) :
  0 <= offset → 0 <= limit → offset + limit <= max_int64 →
  mem_page m offset limit =
  Returns (take (Z.to_nat limit) (drop (Z.to_nat offset) (merge_sort key_le (mem_values m))),
           Z.of_nat (size m)).
Proof.
  intros Ho Hl Hm. unfold mem_page. set (all := merge_sort key_le (mem_values m)).
  assert (Hsize : Z.of_nat (length all) = Z.of_nat (size m)).
  { unfold all. rewrite merge_sort_Permutation. unfold mem_values. rewrite length_fmap.
    by rewrite length_map_to_list. }
  rewrite Hsize. destruct (limit <=? 0) eqn:El; simpl.
  { replace limit with 0 by lia. done. }
  destruct (Z.of_nat (size m) <=? offset) eqn:Et.
  { rewrite drop_ge by lia. by rewrite take_nil. }
  rewrite int64_small by (unfold min_int64, max_int64 in *; lia).
  destruct (Z.of_nat (size m) <? offset + limit) eqn:Ee.
  - replace (_ && _) with true by lia. f_equal. f_equal.
    rewrite !take_ge by (rewrite length_drop; lia). done.
  - replace (_ && _) with true by lia. f_equal. f_equal. f_equal. lia.
Qed.
End mem.

(** ** A store seen through a function that keeps the keys *)

Section view.
Context {T U : Type} `{KT : Keyed T} `{KU : Keyed U} (f : T → U) (Hkey : ∀ x, key_of (f x) = key_of x).

Lemma mem_ok_view m : mem_ok m → mem_ok (f <$> m).
Proof. intros Hok n x. rewrite lookup_fmap. intros (y & Hy & ->)%fmap_Some. rewrite Hkey. by apply Hok. Qed.
Lemma mem_values_view (m : gmap string T) : f <$> mem_values m ≡ₚ mem_values (f <$> m).
Proof. unfold mem_values. rewrite map_to_list_fmap, <- !list_fmap_compose. by apply Permutation_refl'. Qed.

(** Sorting commutes with it: keys are unique. *)
Lemma sort_view m l : mem_ok m → (∀ x, x ∈ l → x ∈ mem_values m) → f <$> merge_sort key_le l = merge_sort key_le (f <$> l).
Proof.
  intros Hok Hl. apply (StronglySorted_unique_strong key_le).
  - intros x y Hx Hy Hxy Hyx.
    assert (Hf : ∀ z, z ∈ f <$> l → (f <$> m) !! key_of z = Some z).
    { intros z (t & -> & Ht)%list_elem_of_fmap. rewrite lookup_fmap, Hkey. apply Hl, elem_of_mem_values in Ht; [|done]. by rewrite Ht. }
    rewrite merge_sort_Permutation in Hx. rewrite merge_sort_Permutation in Hy. apply Hf in Hx, Hy.
    assert (key_of x = key_of y) as E by (apply (anti_symm String.le); done). rewrite E in Hx. congruence.
  - assert (Hs : StronglySorted key_le (merge_sort key_le l)) by (apply StronglySorted_merge_sort; apply _).
    induction Hs as [|t ts _ IH Ht]; [constructor|]. rewrite fmap_cons. constructor; [done|]. apply Forall_fmap. eapply Forall_impl; [exact Ht|].
    intros t'. unfold key_le. cbn. by rewrite !Hkey.
  - apply StronglySorted_merge_sort; apply _.
  - by rewrite !merge_sort_Permutation.
Qed.

(** The order of a list of a store's resources does not matter to its sorting. *)
Lemma sort_permuted (m : gmap string U) (l l' : list U) : mem_ok m → l ≡ₚ l' → (∀ x, x ∈ l → x ∈ mem_values m) → merge_sort key_le l = merge_sort key_le l'.
Proof.
  intros Hok Hp Hl. apply (StronglySorted_unique_strong key_le).
  - intros x y Hx Hy Hxy Hyx. rewrite merge_sort_Permutation in Hx. rewrite merge_sort_Permutation, <- Hp in Hy.
    apply Hl, elem_of_mem_values in Hx; [|done]. apply Hl, elem_of_mem_values in Hy; [|done].
    assert (key_of x = key_of y) as E by (apply (anti_symm String.le); done). rewrite E in Hx. congruence.
  - apply StronglySorted_merge_sort; apply _.
  - apply StronglySorted_merge_sort; apply _.
  - by rewrite !merge_sort_Permutation.
Qed.

Lemma mem_list_view m : mem_ok m → f <$> merge_sort key_le (mem_values m) = merge_sort key_le (mem_values (f <$> m)).
Proof.
  intros Hok. rewrite (sort_view m) by done. apply (sort_permuted (f <$> m)); [by apply mem_ok_view|apply mem_values_view|].
  intros x. by rewrite mem_values_view.
Qed.

(** Tests that agree select the same. *)
Lemma mem_list_where_view (test : T → bool) (test' : U → bool) m : mem_ok m → (∀ x, x ∈ mem_values m → test x = test' (f x)) →
  f <$> merge_sort key_le (filter (fun x => test x = true) (mem_values m)) = merge_sort key_le (filter (fun x => test' x = true) (mem_values (f <$> m))).
Proof.
  intros Hok Ht. rewrite (sort_view m) by (try done; intros x [_ Hx]%list_elem_of_filter; exact Hx).
  assert (Hf : f <$> filter (fun x => test x = true) (mem_values m) = filter (fun x => test' x = true) (f <$> mem_values m)).
  { induction (mem_values m) as [|x l IH]; [done|]. rewrite fmap_cons, !filter_cons, <- (Ht x) by left.
    destruct (decide (test x = true)); rewrite ?fmap_cons, IH; try done; intros; apply Ht; by right. }
  rewrite Hf. apply (sort_permuted (f <$> m)); [by apply mem_ok_view|by rewrite mem_values_view|].
  intros x [_ Hx]%list_elem_of_filter. by rewrite <- mem_values_view.
Qed.
End view.
