(* ===== verification/OsImage.v ===== *)
(** * internal/osimage: the catalogue of OS images

    The image record with its manifest, which deployment targets an image
    supports, validation (with the rules for Windows images and for Ubuntu
    bare-metal images), and the service over a store. *)
From S2P Require Import Prelude GoStrings GoRegexp GoNet GoPath Store.

(** ** types.go *)

Definition ImageFormat : Type := string.
Definition FormatWIM : ImageFormat := "wim".
Definition FormatQCOW2 : ImageFormat := "qcow2".
Definition FormatISO : ImageFormat := "iso".
Definition FormatSquashFS : ImageFormat := "squashfs".

Definition Variant : Type := string.
Definition VariantCloud : Variant := "cloud".
Definition VariantBareMetal : Variant := "baremetal".
Definition VariantServer : Variant := "server".
Definition VariantDesktop : Variant := "desktop".

Definition DeploymentTarget : Type := string.
Definition DeploymentTargetVM : DeploymentTarget := "vm".
Definition DeploymentTargetBareMetal : DeploymentTarget := "baremetal".

Definition SourceType : Type := string.
Definition SourceUpload : SourceType := "upload".
Definition SourceURL : SourceType := "url".

Record WindowsPE := mkWindowsPE { wp_Wimboot : string; wp_BCD : string; wp_BootSDI : string; wp_BootWIM : string }.
Record WindowsImage := mkWindowsImage { wi_ImageIndex : Z; wi_WinPE : WindowsPE }.

Record Capabilities := mkCapabilities { cp_DeployTargets : list DeploymentTarget }.

Record CloudInit := mkCloudInit { ci_Datasource : string; ci_SeedTransport : string; ci_DefaultUser : string }.

Record Partition := mkPartition { pt_Number : Z; pt_Filesystem : string; pt_PartUUID : string }.

Record RootArtifact := mkRootArtifact {
  ra_Format : ImageFormat;
  ra_Compression : string;
  ra_Path : string;
  ra_SHA256 : string;
  ra_UncompressedSizeBytes : Z;
  ra_PartitionTable : string;
  ra_RootPartition : Partition;
  ra_BootPartition : option Partition;
  ra_EFIPartition : option Partition;
  ra_BIOSBootPartition : option Partition }.

Record TargetKernel := mkTargetKernel { tk_Version : string; tk_Flavor : string; tk_Source : string }.

Record Bundle := mkBundle {
  bd_ID : string; bd_Type : string; bd_KernelVersion : string; bd_Path : string; bd_SHA256 : string;
  bd_ProvidesModules : list string; bd_ProvidesFirmwarePrefixes : list string }.

Record BuildMetadata := mkBuildMetadata {
  bm_CreatedAt : string; bm_BuilderVersion : string; bm_SourceImageURL : string; bm_SourceImageSHA256 : string;
  bm_AptSuite : string; bm_AptSnapshot : string; bm_PackageManager : string; bm_ModulePackages : list string;
  bm_FirmwareDirs : list string; bm_PackageLocks : list string }.

Record Manifest := mkManifest {
  mf_Windows : option WindowsImage;
  mf_Name : string;
  mf_OSFamily : string;
  mf_OSVersion : string;
  mf_Arch : string;
  mf_BootModes : list string;
  mf_Capabilities : Capabilities;
  mf_CloudInit : CloudInit;
  mf_Root : RootArtifact;
  mf_TargetKernel : TargetKernel;
  mf_Bundles : list Bundle;
  mf_Build : BuildMetadata }.

Record OSImage := mkOSImage {
  oi_Name : string;
  oi_OSFamily : string;
  oi_OSVersion : string;
  oi_Arch : string;
  oi_Format : ImageFormat;
  oi_Source : SourceType;
  oi_Variant : Variant;
  oi_URL : string;
  oi_Checksum : string;
  oi_SizeBytes : Z;
  oi_Description : string;
  oi_Manifest : option Manifest;
  oi_Ready : bool;
  oi_LocalPath : string;
  oi_Error : string;
  oi_CreatedAt : Time;
  oi_UpdatedAt : Time }.
Global Instance OSImage_fields : Fields OSImage :=
  fpure mkOSImage <*> oi_Name <*> oi_OSFamily <*> oi_OSVersion <*> oi_Arch <*> oi_Format <*> oi_Source
    <*> oi_Variant <*> oi_URL <*> oi_Checksum <*> oi_SizeBytes <*> oi_Description <*> oi_Manifest <*> oi_Ready
    <*> oi_LocalPath <*> oi_Error <*> oi_CreatedAt <*> oi_UpdatedAt.
Global Instance OSImage_keyed : Keyed OSImage := oi_Name.

(** ** capabilities.go *)

Definition EffectiveImageFormat (img : OSImage) : ImageFormat :=
  match oi_Manifest img with
  | Some m => if ra_Format (mf_Root m) !=? "" then ra_Format (mf_Root m) else oi_Format img
  | None => oi_Format img
  end.

Definition declared_targets (img : OSImage) : list DeploymentTarget :=
  match oi_Manifest img with Some m => cp_DeployTargets (mf_Capabilities m) | None => [] end.

Definition HasExplicitDeploymentTargets (img : OSImage) : bool := declared_targets img !=? [].

Definition SupportsDeploymentTarget (img : OSImage) (target : DeploymentTarget) : bool :=
  if target ==? "" then false
  else if HasExplicitDeploymentTargets img then existsb (fun c => EqualFold c target) (declared_targets img)
  else
  let format := EffectiveImageFormat img in
  if format ==? FormatWIM then
    EqualFold (oi_OSFamily img) "windows" && (match oi_Manifest img with Some m => bool_decide (is_Some (mf_Windows m)) | None => false end)
    && ((target ==? DeploymentTargetVM) || (target ==? DeploymentTargetBareMetal))
  else if target ==? DeploymentTargetVM then
    (format ==? FormatQCOW2) && ((oi_Variant img ==? "") || (oi_Variant img ==? VariantCloud))
  else if target ==? DeploymentTargetBareMetal then
    if format ==? FormatQCOW2 then
      if oi_Variant img ==? VariantBareMetal then true
      else match oi_Manifest img with
           | Some m => (TrimSpace (ra_Path (mf_Root m)) !=? "") && (0 <? pt_Number (ra_RootPartition (mf_Root m)))
           | None => false
           end
    else if format ==? FormatSquashFS then
      match oi_Manifest img with Some m => TrimSpace (ra_Path (mf_Root m)) !=? "" | None => false end
    else false
  else false.

(** ** windows.go *)

Definition WindowsArtifacts (m : option Manifest) : list string :=
  match m with
  | Some m =>
      match mf_Windows m with
      | Some w => let p := wi_WinPE w in
                  [ra_Path (mf_Root m); wp_Wimboot p; wp_BCD p; wp_BootSDI p; wp_BootWIM p]
      | None => []
      end
  | None => []
  end.

(** [^[A-Za-z0-9._/-]+$] *)
Definition artifact_char (c : ascii) : bool :=
  is_upper c || is_lower c || is_digit c || existsb (fun d => c ==? d) (to_bytes "._/-").
Definition windowsArtifactPathPattern : regexp := Plus (Cls artifact_char).

Definition bad_artifact (raw : string) : bool :=
  negb (MatchString windowsArtifactPathPattern raw)
  || ContainsAny raw (of_bytes [byte_of 92; byte_of 13; byte_of 10; byte_of 0])
  || HasPrefix raw "/" || (path_Clean raw !=? raw) || (raw ==? ".") || (raw ==? "..") || HasPrefix raw "../".

Fixpoint check_artifacts (seen : gset string) (paths : list string) : result unit :=
  match paths with
  | [] => Ok tt
  | raw :: paths =>
      if bad_artifact raw then Err (ErrNew ("Windows artifact must be a clean relative path: " +:+ Quote raw))
      else if bool_decide (raw ∈ seen) then Err (ErrNew "Windows artifact paths must be distinct")
      else check_artifacts ({[ raw ]} ∪ seen) paths
  end.

Definition validateWindowsImage (img : OSImage) : result unit :=
  let windows := EqualFold (TrimSpace (oi_OSFamily img)) "windows" in
  let format := EffectiveImageFormat img in
  let w := m ← oi_Manifest img; mw ← mf_Windows m; Some (m, mw) in
  if negb windows && (format !=? FormatWIM) && negb (bool_decide (is_Some w)) then Ok tt else
  _ ← ensure (negb (windows && (oi_OSFamily img !=? TrimSpace (oi_OSFamily img))))
        (ErrNew "Windows osFamily must not contain surrounding whitespace");
  match w with
  | Some (m, mw) =>
      _ ← ensure (windows && (format ==? FormatWIM))
            (ErrNew "Windows deployment requires osFamily windows, format wim, and manifest.windows");
      _ ← ensure (oi_Source img !=? SourceURL)
            (ErrNew "Windows images require upload source so companion WinPE artifacts can be uploaded");
      _ ← ensure ((oi_Format img ==? FormatWIM) && (ra_Format (mf_Root m) ==? FormatWIM))
            (ErrNew "Windows image and manifest.root format must both be wim");
      _ ← ensure ((oi_Arch img ==? "amd64") || (oi_Arch img ==? "x86_64"))
            (ErrNew "Windows deployment supports only amd64");
      _ ← ensure ((mf_OSFamily m ==? "") || EqualFold (mf_OSFamily m) "windows")
            (ErrNew "Windows manifest OS family must match image");
      _ ← ensure ((mf_Arch m ==? "") || (mf_Arch m ==? "amd64") || (mf_Arch m ==? "x86_64"))
            (ErrNew "Windows manifest architecture must be amd64");
      _ ← ensure ((ra_Compression (mf_Root m) ==? "") || (ra_Compression (mf_Root m) ==? "none"))
            (ErrNew "Windows WIM must not use external compression");
      _ ← ensure (mf_BootModes m ==? ["uefi"])
            (ErrNew "Windows deployment requires manifest.bootModes [uefi]");
      _ ← ensure (0 <? wi_ImageIndex mw) (ErrNew "manifest.windows.imageIndex must be positive");
      check_artifacts ∅ (WindowsArtifacts (oi_Manifest img))
  | None => Err (ErrNew "Windows deployment requires osFamily windows, format wim, and manifest.windows")
  end.

(** [lstat] gives whether the entry is a regular file, and its size. *)
Definition WindowsArtifactsReady (lstat : string → option (bool * Z)) (img : OSImage) (directory : string) : option error :=
  (fun rel => ErrNew ("Windows artifact is missing or not a nonempty regular file: " +:+ rel))
  <$> List.find (fun rel => match lstat (filepath_Join directory rel) with
                            | Some (regular, size) => negb regular || (size =? 0)
                            | None => true
                            end) (WindowsArtifacts (oi_Manifest img)).

(** ** validate.go *)

Definition ErrInvalidName : error := ErrNew "name is required".
Definition ErrInvalidOSFamily : error := ErrNew "osFamily is required".
Definition ErrInvalidOSVersion : error := ErrNew "osVersion is required".

Definition parseMajorMinorVersion (version : string) : option (Z * Z) :=
  match Split (TrimSpace version) "."%char with
  | a :: b :: _ => major ← Atoi a; minor ← Atoi b; Some (major, minor)
  | _ => None
  end.

Definition ubuntuRequiresBareMetalExtraModules (version : string) : bool :=
  match parseMajorMinorVersion version with
  | None => true
  | Some (major, minor) => (major <? 25) || ((major =? 25) && (minor <? 10))
  end.

Definition provides_extra_modules (kernel pkg : string) : bool :=
  let pkg := TrimSpace pkg in
  (pkg ==? "linux-modules-extra-{kernel_release}") || ((kernel !=? "") && (pkg ==? "linux-modules-extra-" +:+ kernel)).

Definition validateBareMetalQCOW2ModuleMetadata (img : OSImage) : result unit :=
  match oi_Manifest img with
  | None => Ok tt
  | Some m =>
      if negb (EqualFold (TrimSpace (oi_OSFamily img)) "ubuntu") then Ok tt
      else if negb (ubuntuRequiresBareMetalExtraModules (oi_OSVersion img)) then Ok tt
      else ensure (existsb (provides_extra_modules (TrimSpace (tk_Version (mf_TargetKernel m)))) (bm_ModulePackages (mf_Build m)))
             (ErrNew "ubuntu bare-metal qcow2 images require manifest.build.modulePackages to provide linux-modules-extra for the target kernel")
  end.

Definition manifestDeclaresDeploymentTarget (img : OSImage) (target : DeploymentTarget) : bool :=
  existsb (fun c => c ==? target) (declared_targets img).

Definition known_format (f : ImageFormat) : bool :=
  (f ==? "") || (f ==? FormatQCOW2) || (f ==? FormatSquashFS) || (f ==? FormatWIM).

Definition root_path_set (img : OSImage) : bool :=
  match oi_Manifest img with Some m => TrimSpace (ra_Path (mf_Root m)) !=? "" | None => false end.

Definition ValidateOSImage (img : OSImage) : result unit :=
  let format := EffectiveImageFormat img in
  _ ← ensure (TrimSpace (oi_Name img) !=? "") ErrInvalidName;
  _ ← ensure (TrimSpace (oi_OSFamily img) !=? "") ErrInvalidOSFamily;
  _ ← ensure (TrimSpace (oi_OSVersion img) !=? "") ErrInvalidOSVersion;
  _ ← ensure (known_format (oi_Format img)) (ErrNew ("unsupported format: " +:+ oi_Format img));
  _ ← ensure (known_format format) (ErrNew ("unsupported format: " +:+ format));
  _ ← check ((fun t => ErrNew ("unsupported deployment target: " +:+ t))
             <$> List.find (fun t => (t !=? DeploymentTargetVM) && (t !=? DeploymentTargetBareMetal)) (declared_targets img));
  _ ← ensure (negb ((format !=? FormatQCOW2) && (format !=? FormatWIM) && manifestDeclaresDeploymentTarget img DeploymentTargetVM))
        (ErrNew ("deployment target " +:+ DeploymentTargetVM +:+ " requires qcow2 image, got " +:+ format));
  _ ← ensure ((oi_Source img ==? "") || (oi_Source img ==? SourceUpload) || (oi_Source img ==? SourceURL))
        (ErrNew ("unsupported source: " +:+ oi_Source img));
  _ ← ensure (bool_decide (oi_Variant img ∈ [""; VariantCloud; VariantBareMetal; VariantServer; VariantDesktop]))
        (ErrNew ("unsupported variant: " +:+ oi_Variant img));
  _ ← ensure (negb ((oi_Source img ==? SourceURL) && (TrimSpace (oi_URL img) ==? ""))) (ErrNew "url is required for url source");
  _ ← (if (format ==? FormatQCOW2) && SupportsDeploymentTarget img DeploymentTargetBareMetal then
         _ ← ensure (root_path_set img) (ErrNew "manifest.root.path is required for bare-metal qcow2 images");
         _ ← ensure (match oi_Manifest img with Some m => 0 <? pt_Number (ra_RootPartition (mf_Root m)) | None => false end)
               (ErrNew "manifest.root.rootPartition.number is required for bare-metal qcow2 images");
         validateBareMetalQCOW2ModuleMetadata img
       else Ok tt);
  _ ← ensure (negb ((format ==? FormatSquashFS) && manifestDeclaresDeploymentTarget img DeploymentTargetBareMetal)
              || root_path_set img) (ErrNew "manifest.root.path is required for bare-metal squashfs images");
  validateWindowsImage img.

(** ** service.go *)

Section service.
Context {S : Type} `{ResourceStore S OSImage}.

Definition Create (s : S) (now : Time) (img : OSImage) : result (S * OSImage) :=
  let img := img <| oi_CreatedAt := now |> <| oi_UpdatedAt := now |> in
  let img := if oi_Format img ==? "" then img <| oi_Format := FormatQCOW2 |> else img in
  let img := if oi_Source img ==? "" then img <| oi_Source := SourceUpload |> else img in
  _ ← ValidateOSImage img;
  s ← st_Upsert s img;
  Ok (s, img).

Definition UpdateStatus (s : S) (now : Time) (name : string) (ready : bool) (localPath errMsg : string) : result (S * OSImage) :=
  img ← st_Get s name;
  let img := img <| oi_Ready := ready |> <| oi_LocalPath := localPath |> <| oi_Error := errMsg |> <| oi_UpdatedAt := now |> in
  s ← st_Upsert s img;
  Ok (s, img).

Definition UpdateChecksum (s : S) (now : Time) (name checksum : string) : result (S * OSImage) :=
  img ← st_Get s name;
  let img := img <| oi_Checksum := checksum |> <| oi_UpdatedAt := now |> in
  s ← st_Upsert s img;
  Ok (s, img).

Definition Delete (s : S) (name : string) : result S := st_Delete s name.
End service.
