(* ===== verification/Libvirt.v ===== *)
(** * internal/libvirt: domains and volumes on a hypervisor

    The configuration of a domain and the tree it is rendered to (the XML text
    itself is not modelled), the volumes of the default storage pool, the
    addresses of a domain, and the flags of an undefine.  The RPC library is a
    parameter: an operation takes the answers of the calls it makes, and the
    storage pool is a [StoragePool], a state with the calls the code makes on it. *)
From S2P Require Import Prelude GoStrings GoNet GoPath.

(** ** types.go *)

Definition DomainState : Type := string.
Definition StateRunning : DomainState := "running".
Definition StateShutoff : DomainState := "shutoff".
Definition StatePaused : DomainState := "paused".
Definition StateCrashed : DomainState := "crashed".
Definition StateUnknown : DomainState := "unknown".

Definition ParseDomainState (raw : string) : DomainState :=
  if raw ==? "running" then StateRunning
  else if (raw ==? "shut off") || (raw ==? "shutoff") then StateShutoff
  else if raw ==? "paused" then StatePaused
  else if raw ==? "crashed" then StateCrashed
  else StateUnknown.

Record InterfaceInfo := mkInterfaceInfo { if_Name : string; if_MAC : string; if_IPAddresses : list string }.

(** errors.go: the numbers of the libvirt errors [ErrNoDomain] and [ErrNoStorageVol]. *)
Definition ErrNoDomain : Z := 42.
Definition IsDomainNotFoundError (e : error) : bool :=
  match errors_As_libvirt e with Some code => code =? ErrNoDomain | None => false end.

Definition ErrNoStorageVol : Z := 50.
Definition IsVolumeNotFoundError (e : error) : bool :=
  match errors_As_libvirt e with Some code => code =? ErrNoStorageVol | None => false end.

Record LibvirtConfig := mkLibvirtConfig { lc_Host : string; lc_Port : Z }.

Definition LibvirtConfig_Validate (c : LibvirtConfig) : option error :=
  if lc_Host c ==? "" then Some (ErrNew "libvirt host is required") else None.

Record NetworkConfig := mkNetworkConfig { nc_Bridge : string; nc_MAC : string; nc_Queues : Z }.

Record DomainConfig := mkDomainConfig {
  dc_Name : string;
  dc_Firmware : string;
  dc_TPM : bool;
  dc_NICModel : string;
  dc_VCPU : Z;
  dc_MemoryMB : Z;
  dc_DiskPath : string;
  dc_DiskFormat : string;
  dc_DiskSizeGB : Z;
  dc_Networks : list NetworkConfig;
  dc_CloudInit : string;
  dc_BootDev : string;
  dc_BootFallback : string;
  dc_SMBIOSSerial : string;
  dc_CPUPinning : gmap Z string;
  dc_CPUMode : string;
  dc_IOThreads : Z;
  dc_DiskBus : string;
  dc_NetQueues : Z }.
Global Instance DomainConfig_fields : Fields DomainConfig :=
  fpure mkDomainConfig <*> dc_Name <*> dc_Firmware <*> dc_TPM <*> dc_NICModel <*> dc_VCPU <*> dc_MemoryMB
    <*> dc_DiskPath <*> dc_DiskFormat <*> dc_DiskSizeGB <*> dc_Networks <*> dc_CloudInit <*> dc_BootDev
    <*> dc_BootFallback <*> dc_SMBIOSSerial <*> dc_CPUPinning <*> dc_CPUMode <*> dc_IOThreads <*> dc_DiskBus
    <*> dc_NetQueues.

(** The device a domain boots from first. *)
Definition primary_boot (c : DomainConfig) : string := if dc_BootDev c !=? "" then dc_BootDev c else "hd".

Definition DomainConfig_Validate (c : DomainConfig) : result unit :=
  _ ← ensure (dc_Name c !=? "") (ErrNew "domain name is required");
  _ ← ensure (0 <? dc_VCPU c) (ErrNew "vcpu must be positive");
  _ ← ensure (0 <? dc_MemoryMB c) (ErrNew "memoryMB must be positive");
  _ ← ensure (dc_DiskPath c !=? "") (ErrNew "disk path is required");
  _ ← ensure (dc_DiskFormat c !=? "") (ErrNew "disk format is required");
  _ ← ensure (dc_DiskFormat c ==? "qcow2")
        (ErrNew ("unsupported disk format: " +:+ dc_DiskFormat c +:+ " (must be qcow2)"));
  _ ← ensure ((dc_Firmware c ==? "") || (dc_Firmware c ==? "uefi")) (ErrNew ("unsupported firmware: " +:+ dc_Firmware c));
  _ ← ensure (negb (dc_TPM c && (dc_Firmware c !=? "uefi"))) (ErrNew "TPM requires UEFI");
  _ ← ensure ((dc_NICModel c ==? "") || (dc_NICModel c ==? "virtio") || (dc_NICModel c ==? "e1000e"))
        (ErrNew ("unsupported NIC model: " +:+ dc_NICModel c));
  _ ← (if dc_BootFallback c !=? "" then
         _ ← ensure ((dc_BootFallback c ==? "hd") || (dc_BootFallback c ==? "network"))
               (ErrNew ("unsupported boot fallback: " +:+ dc_BootFallback c));
         ensure (dc_BootFallback c !=? primary_boot c) (ErrNew "boot fallback must differ from primary boot device")
       else Ok tt);
  ensure (bool_decide (dc_CPUMode c ∈ [""; "host-passthrough"; "host-model"; "maximum"]))
    (ErrNew ("unsupported cpu mode: " +:+ dc_CPUMode c)).

(** ** xml.go: the domain as a tree

    Attributes the code always sets to the same value are left to the renderer:
    the records keep what depends on the configuration. *)

Record xmlDriver := mkXmlDriver { xd_Name : string; xd_Type : string; xd_IOThread : string }.
Record xmlDisk := mkXmlDisk {
  xk_Type : string; xk_Device : string; xk_Driver : xmlDriver; xk_Source : string; xk_Target : string * string;
  xk_ReadOnly : bool }.
Record xmlInterface := mkXmlInterface {
  xi_Type : string; xi_Bridge : string; xi_MAC : option string; xi_Model : string; xi_Driver : option (string * Z) }.
Record xmlOS := mkXmlOS {
  xo_SecureBootOff : bool; xo_Firmware : string; xo_Type : string * string * string; xo_Boot : list string;
  xo_SMBIOS : option string }.
Global Instance xmlOS_fields : Fields xmlOS :=
  fpure mkXmlOS <*> xo_SecureBootOff <*> xo_Firmware <*> xo_Type <*> xo_Boot <*> xo_SMBIOS.
Record xmlDevices := mkXmlDevices {
  xv_TPM : option (string * string * string); xv_Controllers : list (string * string); xv_Disks : list xmlDisk;
  xv_Interfaces : list xmlInterface }.
Record xmlDomain := mkXmlDomain {
  xm_Type : string; xm_Name : string; xm_Memory : string * Z; xm_VCPU : Z; xm_IOThreads : Z; xm_CPU : option string;
  xm_CPUTune : gmap Z string; xm_OS : xmlOS; xm_SysInfo : option (string * string); xm_Devices : xmlDevices }.

(** The bus and the device name of the first disk. *)
Definition disk_target (c : DomainConfig) : string * string :=
  if dc_DiskBus c ==? "scsi" then ("sda", "scsi")
  else if dc_DiskBus c ==? "sata" then ("sda", "sata")
  else ("vda", "virtio").

Definition domain_interface (c : DomainConfig) (n : NetworkConfig) : xmlInterface :=
  let queues := if nc_Queues n =? 0 then dc_NetQueues c else nc_Queues n in
  mkXmlInterface "bridge" (nc_Bridge n) (if nc_MAC n !=? "" then Some (nc_MAC n) else None)
    (if dc_NICModel c !=? "" then dc_NICModel c else "virtio")
    (if 0 <? queues then Some ("vhost", queues) else None).

Definition GenerateDomainXML (c : DomainConfig) : result xmlDomain :=
  match DomainConfig_Validate c with
  | Err e => Err (ErrWrap "invalid domain config: " e "")
  | Ok _ =>
      let boot := primary_boot c :: (if dc_BootFallback c !=? "" then [dc_BootFallback c] else []) in
      let uefi := dc_Firmware c ==? "uefi" in
      let serial := dc_SMBIOSSerial c !=? "" in
      let os := mkXmlOS uefi (if uefi then "efi" else "") ("x86_64", if uefi then "q35" else "pc", "hvm") boot
                  (if serial then Some "sysinfo" else None) in
      let os_disk := mkXmlDisk "file" "disk"
                       (mkXmlDriver "qemu" (dc_DiskFormat c) (if 0 <? dc_IOThreads c then "1" else ""))
                       (dc_DiskPath c) (disk_target c) false in
      let seed := mkXmlDisk "file" "disk" (mkXmlDriver "qemu" "raw" "") (dc_CloudInit c) ("vdb", "virtio") true in
      Ok (mkXmlDomain "kvm" (dc_Name c) ("MiB", dc_MemoryMB c) (dc_VCPU c)
            (if 0 <? dc_IOThreads c then dc_IOThreads c else 0)
            (if dc_CPUMode c !=? "" then Some (dc_CPUMode c) else None) (dc_CPUPinning c) os
            (if serial then Some ("serial", dc_SMBIOSSerial c) else None)
            (mkXmlDevices (if dc_TPM c then Some ("tpm-crb", "emulator", "2.0") else None)
               (if dc_DiskBus c ==? "scsi" then [("scsi", "virtio-scsi")] else [])
               (os_disk :: (if dc_CloudInit c !=? "" then [seed] else []))
               (domain_interface c <$> dc_Networks c)))
  end.

(** ** undefine.go

    [xml.Unmarshal] of the domain gives whether it has an NVRAM, its firmware and
    the backends of its TPMs (type and persistent_state). *)

Definition DomainUndefineManagedSave : Z := 1.
Definition DomainUndefineSnapshotsMetadata : Z := 2.
Definition DomainUndefineNvram : Z := 4.
Definition DomainUndefineTpm : Z := 32.
Definition libvirtVersionTPMUndefine : Z := 8009000.

Fixpoint tpm_flags (version : Z) (flags : Z) (tpms : list (string * string)) : result Z :=
  match tpms with
  | [] => Ok flags
  | (type, persistent) :: tpms =>
      if type !=? "emulator" then tpm_flags version flags tpms
      else if libvirtVersionTPMUndefine <=? version then tpm_flags version (Z.lor flags DomainUndefineTpm) tpms
      else if persistent ==? "yes" then Err (ErrNew "removing persistent emulator TPM state requires libvirt 8.9 or newer")
      else tpm_flags version flags tpms
  end.

Definition domainUndefineFlags (parsed : result (bool * string * list (string * string))) (version : Z) : result Z :=
  match parsed with
  | Err e => Err (ErrWrap "parse domain cleanup configuration: " e "")
  | Ok (nvram, firmware, tpms) =>
      let flags := Z.lor DomainUndefineManagedSave DomainUndefineSnapshotsMetadata in
      let flags := if nvram || (firmware ==? "efi") then Z.lor flags DomainUndefineNvram else flags in
      tpm_flags version flags tpms
  end.

(** ** inspection.go *)

(** The numbers of [golibvirt.DomainState]. *)
Definition mapDomainState (state : Z) : DomainState :=
  if state =? 1 then StateRunning else if state =? 5 then StateShutoff else if state =? 3 then StatePaused
  else if state =? 6 then StateCrashed else StateUnknown.

Definition appendUnique (items : list string) (value : string) : list string :=
  if bool_decide (value ∈ items) then items else items ++ [value].

(** An interface as the address queries report it: name, hardware address (an
    optional string), addresses. *)
Record DomainInterface := mkDomainInterface { di_Name : string; di_Hwaddr : list string; di_Addrs : list string }.

Definition optStringValue (values : list string) : string := match values with [] => "" | v :: _ => TrimSpace v end.

Definition iface_key (mac name : string) : string := if mac ==? "" then name else mac.

Definition add_address (current : InterfaceInfo) (addr : string) : InterfaceInfo :=
  let ip := TrimSpace addr in
  if ip ==? "" then current
  else mkInterfaceInfo (if_Name current) (if_MAC current) (appendUnique (if_IPAddresses current) ip).

Definition add_iface (byKey : gmap string InterfaceInfo) (i : DomainInterface) : gmap string InterfaceInfo :=
  let name := TrimSpace (di_Name i) in
  let mac := optStringValue (di_Hwaddr i) in
  let key := iface_key mac name in
  if key ==? "" then byKey else
  let current := default (mkInterfaceInfo "" "" []) (byKey !! key) in
  let current := mkInterfaceInfo (if if_Name current ==? "" then name else if_Name current)
                   (if if_MAC current ==? "" then mac else if_MAC current) (if_IPAddresses current) in
  <[key := fold_left add_address (di_Addrs i) current]> byKey.

(** The interfaces of the parsed XML: target device and MAC. *)
Definition parseDomainInterfacesFromXML (parsed : option (list (string * string))) : list InterfaceInfo :=
  match parsed with
  | None => []
  | Some l => (fun i => mkInterfaceInfo (TrimSpace i.1) (ToLower (TrimSpace i.2)) []) <$> l
  end.

Definition add_nic (byKey : gmap string InterfaceInfo) (nic : InterfaceInfo) : gmap string InterfaceInfo :=
  let key := iface_key (if_MAC nic) (if_Name nic) in
  if key ==? "" then byKey else <[key := nic]> byKey.

Definition iface_le (a b : InterfaceInfo) : Prop :=
  if decide (if_Name a = if_Name b) then String.le (if_MAC a) (if_MAC b) else String.le (if_Name a) (if_Name b).
Global Instance iface_le_dec : RelDecision iface_le.
Proof. intros a b. unfold iface_le. case_decide; apply _. Defined.

(** [lookup] and [xml] are the answers to the look-up and to the description;
    [sources] those of the three address queries, an empty list for a failed one. *)
Definition DomainInterfaces (lookup : option error) (xml : option (list (string * string)))
  (sources : list (list DomainInterface)) (name : string) : result (list InterfaceInfo) :=
  match lookup with
  | Some e => Err (ErrWrap ("lookup domain " +:+ name +:+ ": ") e "")
  | None =>
      let byKey := fold_left add_nic (parseDomainInterfacesFromXML xml) ∅ in
      let byKey := fold_left add_iface (mjoin sources) byKey in
      Ok (merge_sort iface_le
            ((fun i => mkInterfaceInfo (if_Name i) (if_MAC i) (sort_Strings (if_IPAddresses i))) <$> (map_to_list byKey).*2))
  end.

(** ** storage.go *)

Definition volumeFileName (name format : string) : string :=
  let format := if format ==? "" then "qcow2" else format in
  let suffix := "." +:+ format in
  if HasSuffix name suffix then name else name +:+ suffix.

(** A volume as the code describes it to libvirt: name, capacity, format and an
    optional backing file with its format. *)
Record Volume := mkVolume { vl_Name : string; vl_Capacity : Z; vl_Format : string; vl_Backing : option (string * string) }.

(** The calls on the default storage pool. *)
Class StoragePool (H : Type) := {
  StoragePoolLookup : H → option error;
  StorageVolLookupByName : H → string → option error;
  StorageVolCreateXML : H → Volume → H * option error;
  StorageVolUpload : H → string → bytes → H * option error;
  StorageVolDelete : H → string → H * option error }.

(** What the code relies on: [volumes] are the files of the pool, which a look-up
    finds, a successful creation adds, a successful deletion removes, and nothing
    else changes. *)
Class StoragePoolLaws (H : Type) `{StoragePool H} := {
  volumes : H → gset string;
  lookup_volumes h n : StorageVolLookupByName h n = None ↔ n ∈ volumes h;
  create_volumes h v : volumes (StorageVolCreateXML h v).1
    = match (StorageVolCreateXML h v).2 with None => {[ vl_Name v ]} ∪ volumes h | Some _ => volumes h end;
  upload_volumes h n r : volumes (StorageVolUpload h n r).1 = volumes h;
  delete_volumes h n : volumes (StorageVolDelete h n).1
    = match (StorageVolDelete h n).2 with None => volumes h ∖ {[ n ]} | Some _ => volumes h end }.

Section storage.
Context {H : Type} `{StoragePool H}.

Definition pool_error (e : error) : error := ErrWrap "lookup storage pool 'default': " e "".
Definition bad_format (format : string) : error :=
  ErrNew ("unsupported disk format: " +:+ format +:+ " (must be qcow2 or raw)").
Definition raw_or_qcow2 (format : string) : bool := (format ==? "qcow2") || (format ==? "raw").

Definition create_xml (h : H) (v : Volume) (what : string) : H * option error :=
  match StorageVolCreateXML h v with
  | (h, Some e) => (h, Some (ErrWrap what e ""))
  | (h, None) => (h, None)
  end.

Definition CreateVolume (h : H) (name : string) (sizeGB : Z) (format : string) : H * option error :=
  match StoragePoolLookup h with
  | Some e => (h, Some (pool_error e))
  | None =>
      if negb (raw_or_qcow2 format) then (h, Some (bad_format format))
      else create_xml h (mkVolume (volumeFileName name format) (int64 (sizeGB * 1024 * 1024 * 1024)) format None)
             ("create volume " +:+ name +:+ ": ")
  end.

Definition CreateOverlayVolume (h : H) (name : string) (sizeGB : Z) (backingPath backingFormat : string) : H * option error :=
  match StoragePoolLookup h with
  | Some e => (h, Some (pool_error e))
  | None =>
      let backingFormat := if backingFormat ==? "" then "qcow2" else backingFormat in
      create_xml h (mkVolume (name +:+ ".qcow2") (int64 (sizeGB * 1024 * 1024 * 1024)) "qcow2" (Some (backingPath, backingFormat)))
        ("create overlay volume " +:+ name +:+ ": ")
  end.

Definition VolumeExists (h : H) (name format : string) : result bool :=
  match StoragePoolLookup h with
  | Some e => Err (pool_error e)
  | None =>
      match StorageVolLookupByName h (volumeFileName name format) with
      | None => Ok true
      | Some e => if IsVolumeNotFoundError e then Ok false
                  else Err (ErrWrap ("lookup storage volume " +:+ volumeFileName name format +:+ ": ") e "")
      end
  end.

Definition CreateVolumeFromReader (h : H) (ctx : option error) (name : string) (sizeBytes : Z) (format : string) (r : bytes)
  : H * option error :=
  match ctx, StoragePoolLookup h with
  | Some e, _ => (h, Some e)
  | None, Some e => (h, Some (pool_error e))
  | None, None =>
      if negb (raw_or_qcow2 format) then (h, Some (bad_format format))
      else if sizeBytes <=? 0 then (h, Some (ErrNew "volume size must be positive"))
      else
      let volName := volumeFileName name format in
      match create_xml h (mkVolume volName sizeBytes format None) ("create volume " +:+ volName +:+ ": ") with
      | (h, Some e) => (h, Some e)
      | (h, None) =>
          match StorageVolUpload h volName r with
          | (h, Some e) => ((StorageVolDelete h volName).1, Some (ErrWrap ("upload volume " +:+ volName +:+ ": ") e ""))
          | (h, None) => (h, None)
          end
      end
  end.

(** The files that may belong to the volume [name]. *)
Definition volume_candidates (name : string) : list string :=
  [name +:+ ".qcow2"; name +:+ ".img"; name +:+ ".raw"; name +:+ "-cidata.raw"].

Fixpoint delete_each (h : H) (names : list string) : H * option error :=
  match names with
  | [] => (h, None)
  | n :: names =>
      match StorageVolLookupByName h n with
      | Some _ => delete_each h names
      | None =>
          match StorageVolDelete h n with
          | (h, Some e) => (h, Some (ErrWrap ("delete volume " +:+ n +:+ ": ") e ""))
          | (h, None) => delete_each h names
          end
      end
  end.

Definition DeleteVolume (h : H) (name : string) : H * option error :=
  match StoragePoolLookup h with
  | Some e => (h, Some (pool_error e))
  | None => delete_each h (volume_candidates name)
  end.
End storage.

(** Deleting a volume removes its files and no other. *)
Section storage_laws.
Context {H : Type} `{StoragePoolLaws H}.

Lemma delete_each_spec names : ∀ h,
  let '(h', e) := delete_each h names in
  volumes h' ⊆ volumes h ∧ volumes h ⊆ volumes h' ∪ list_to_set names
  ∧ (e = None → ∀ n, n ∈ names → n ∉ volumes h').
Proof.
  induction names as [|n names IH]; intros h; [simpl; split_and!; set_solver|]. cbn [delete_each].
  destruct (StorageVolLookupByName h n) as [e|] eqn:El.
  - specialize (IH h). destruct (delete_each h names) as [h' r]. destruct IH as (I1 & I2 & I3).
    assert (n ∉ volumes h) by (rewrite <- lookup_volumes, El; done). split_and!; [set_solver..|].
    intros Hr m [->|Hm]%elem_of_cons; [set_solver|by apply I3].
  - pose proof (delete_volumes h n) as Hd. destruct (StorageVolDelete h n) as [h1 [e|]]; simpl in Hd.
    { rewrite Hd. split_and!; [set_solver..|done]. }
    specialize (IH h1). destruct (delete_each h1 names) as [h' r]. destruct IH as (I1 & I2 & I3).
    split_and!; [set_solver| |].
    + intros x Hx. destruct (decide (x = n)); set_solver.
    + intros Hr m [->|Hm]%elem_of_cons; [set_solver|by apply I3].
Qed.
End storage_laws.

(** A pool that is a map from file names to volumes, with every call succeeding
    where libvirt's would. *)
Definition NoVolume (n : string) : error := ErrLibvirt ErrNoStorageVol ("Storage volume not found: no storage vol with matching name '" +:+ n +:+ "'").
Global Instance map_pool : StoragePool (gmap string Volume) := {|
  StoragePoolLookup := fun _ => None;
  StorageVolLookupByName h n := match h !! n with Some _ => None | None => Some (NoVolume n) end;
  StorageVolCreateXML h v := match h !! vl_Name v with
                             | Some _ => (h, Some (ErrNew ("storage volume '" +:+ vl_Name v +:+ "' exists already")))
                             | None => (<[vl_Name v := v]> h, None)
                             end;
  StorageVolUpload h n r := (h, None);
  StorageVolDelete h n := match h !! n with Some _ => (delete n h, None) | None => (h, Some (NoVolume n)) end |}.
Global Instance map_pool_laws : StoragePoolLaws (gmap string Volume).
Proof.
  refine {| volumes h := dom h |}; simpl.
  - intros h n. rewrite elem_of_dom. destruct (h !! n); naive_solver.
  - intros h v. destruct (h !! vl_Name v); simpl; [done|]. by rewrite dom_insert_L.
  - done.
  - intros h n. destruct (h !! n) eqn:E; simpl; [by rewrite dom_delete_L|done].
Defined.
