(* ===== verification/Machine.v ===== *)
(** * internal/machine: bare-metal machines

    The machine record, its phases and validation, its implementation of the
    node interface, the reconciliation of a provisioning attempt, and the service
    that creates, changes and reinstalls machines over a store. *)
From Stdlib Require Import SpecFloat.
From S2P Require Import Prelude GoStrings GoRegexp GoNet GoPath Resource Power Store.

(** ** types.go *)

Definition Firmware : Type := string.
Definition FirmwareUEFI : Firmware := "uefi".
Definition FirmwareBIOS : Firmware := "bios".

Definition OSType : Type := string.

Definition Phase : Type := string.
Definition PhaseDiscovered : Phase := "Discovered".
Definition PhaseReady : Phase := "Ready".
Definition PhaseProvisioning : Phase := "Provisioning".
Definition PhaseError : Phase := "Error".

Definition Role : Type := string.
Definition RoleHypervisor : Role := "hypervisor".

Record OSPreset := mkOSPreset {
  os_Family : OSType; os_Version : string; os_ImageRef : string; os_InstallConfig : gmap string string }.

Record NetworkConfig := mkNetworkConfig { nc_Domain : string }.

Record LoginUserSpec := mkLoginUserSpec { lu_Username : string; lu_Password : string }.

Record ProvisionTiming := mkProvisionTiming {
  pt_Source : string; pt_Name : string; pt_EventType : string; pt_Message : string; pt_Result : string;
  pt_Timestamp : option Time; pt_StartedAt : option Time; pt_FinishedAt : option Time;
  pt_DurationMillis : Z; pt_MonotonicSeconds : spec_float }.

Record ProvisionProgress := mkProvisionProgress {
  pp_Active : bool;
  pp_AttemptID : string;
  pp_InventoryID : string;
  pp_StartedAt : option Time;
  pp_DeadlineAt : option Time;
  pp_FinishedAt : option Time;
  pp_CompletedAt : option Time;
  pp_Trigger : string;
  pp_RequestedBy : string;
  pp_Message : string;
  pp_Artifacts : gmap string string;
  pp_CompletionToken : string;
  pp_CompletionSource : string;
  pp_LastSignalAt : option Time;
  pp_CurtinConfig : bytes;
  pp_FailureReason : string;
  pp_LogURL : string;
  pp_Timings : list ProvisionTiming }.
Global Instance ProvisionProgress_fields : Fields ProvisionProgress :=
  fpure mkProvisionProgress <*> pp_Active <*> pp_AttemptID <*> pp_InventoryID <*> pp_StartedAt
    <*> pp_DeadlineAt <*> pp_FinishedAt <*> pp_CompletedAt <*> pp_Trigger <*> pp_RequestedBy
    <*> pp_Message <*> pp_Artifacts <*> pp_CompletionToken <*> pp_CompletionSource <*> pp_LastSignalAt
    <*> pp_CurtinConfig <*> pp_FailureReason <*> pp_LogURL <*> pp_Timings.

(** [ProvisionProgress{}]. *)
Definition zero_progress : ProvisionProgress :=
  mkProvisionProgress false "" "" None None None None "" "" "" ∅ "" "" None [] "" "" [].

Record SealedBootstrap := mkSealedBootstrap {
  sb_Cleanup : bool; sb_Owner : string; sb_KeyFingerprint : string; sb_Envelope : bytes }.

Record Machine := mkMachine {
  m_SealedBootstrap : option SealedBootstrap;
  m_Name : string;
  m_Hostname : string;
  m_MAC : string;
  m_IP : string;
  m_Arch : string;
  m_Firmware : Firmware;
  m_Power : PowerConfig;
  m_Network : NetworkConfig;
  m_OSPreset : OSPreset;
  m_TargetDisk : string;
  m_CloudInitRef : string;
  m_CloudInitRefs : list string;
  m_IPAssignment : IPAssignmentMode;
  m_SubnetRef : string;
  m_Role : Role;
  m_BridgeName : string;
  m_SSHKeyRefs : list string;
  m_LoginUser : option LoginUserSpec;
  m_Phase : Phase;
  m_Provision : option ProvisionProgress;
  m_LastPowerAction : string;
  m_LastDeployedCloudInitRef : string;
  m_LastError : string;
  m_PowerState : PowerState;
  m_PowerStateAt : option Time;
  m_CreatedAt : Time;
  m_UpdatedAt : Time }.
Global Instance Machine_fields : Fields Machine :=
  fpure mkMachine <*> m_SealedBootstrap <*> m_Name <*> m_Hostname <*> m_MAC <*> m_IP <*> m_Arch
    <*> m_Firmware <*> m_Power <*> m_Network <*> m_OSPreset <*> m_TargetDisk <*> m_CloudInitRef
    <*> m_CloudInitRefs <*> m_IPAssignment <*> m_SubnetRef <*> m_Role <*> m_BridgeName
    <*> m_SSHKeyRefs <*> m_LoginUser <*> m_Phase <*> m_Provision <*> m_LastPowerAction
    <*> m_LastDeployedCloudInitRef <*> m_LastError <*> m_PowerState <*> m_PowerStateAt
    <*> m_CreatedAt <*> m_UpdatedAt.

Global Instance spec_float_eq_dec : EqDecision spec_float.
Proof. solve_decision. Defined.
Global Instance OSPreset_eq_dec : EqDecision OSPreset.
Proof. solve_decision. Defined.
Global Instance NetworkConfig_eq_dec : EqDecision NetworkConfig.
Proof. solve_decision. Defined.
Global Instance LoginUserSpec_eq_dec : EqDecision LoginUserSpec.
Proof. solve_decision. Defined.
Global Instance ProvisionTiming_eq_dec : EqDecision ProvisionTiming.
Proof. solve_decision. Defined.
Global Instance ProvisionProgress_eq_dec : EqDecision ProvisionProgress.
Proof. solve_decision. Defined.
Global Instance SealedBootstrap_eq_dec : EqDecision SealedBootstrap.
Proof. solve_decision. Defined.
Global Instance Machine_eq_dec : EqDecision Machine.
Proof. solve_decision. Defined.

Global Instance Machine_keyed : Keyed Machine := m_Name.

(** ** phase.go *)

Definition validTransitions : list (Phase * list Phase) :=
  [ (PhaseDiscovered, [PhaseReady; PhaseProvisioning; PhaseError]);
    (PhaseReady, [PhaseProvisioning; PhaseError]);
    (PhaseProvisioning, [PhaseReady; PhaseError]);
    (PhaseError, [PhaseReady; PhaseProvisioning; PhaseDiscovered]) ].

Definition CanTransition (from to : Phase) : bool :=
  match List.find (fun e => e.1 ==? from) validTransitions with
  | None => false
  | Some (_, targets) => existsb (fun t => t ==? to) targets
  end.

(** ** validate.go and windows.go *)

Definition CanonicalArch (arch : string) : string :=
  let a := ToLower (TrimSpace arch) in
  if (a ==? "amd64") || (a ==? "x86_64") then "amd64"
  else if (a ==? "arm64") || (a ==? "aarch64") then "arm64"
  else if (a ==? "i386") || (a ==? "386") || (a ==? "x86") then "i386"
  else "".

(** [filepath.Base]: trailing slashes are dropped, then everything up to the last
    slash. *)
Fixpoint until_slash (l : bytes) : bytes :=
  match l with c :: l' => if c ==? "/"%char then [] else c :: until_slash l' | [] => [] end.
Definition filepath_Base (path : string) : string :=
  match to_bytes path with
  | [] => "."
  | l => match until_slash (drop_slashes (reverse l)) with
         | [] => "/"
         | b => of_bytes (reverse b)
         end
  end.

(** [-part[0-9]+$], anywhere; [^/dev/(sd|vd|xvd)[a-z]+$];
    [^/dev/nvme[0-9]+n[0-9]+$]; [^/dev/mmcblk[0-9]+$]. *)
Definition partSuffixPattern : regexp := Cat (Star Any) (Cat (Lit "-part") (Plus (Cls is_digit))).
Definition scsiDiskPattern : regexp :=
  Cat (Lit "/dev/") (Cat (Alt (Lit "sd") (Alt (Lit "vd") (Lit "xvd"))) (Plus (Cls is_lower))).
Definition nvmeDiskPattern : regexp :=
  Cat (Lit "/dev/nvme") (Cat (Plus (Cls is_digit)) (Cat (Lit "n") (Plus (Cls is_digit)))).
Definition mmcDiskPattern : regexp := Cat (Lit "/dev/mmcblk") (Plus (Cls is_digit)).

Definition IsWholeDiskPath (path : string) : bool :=
  let path := TrimSpace path in
  if path ==? "" then false
  else if HasPrefix path "/dev/disk/by-id/" || HasPrefix path "/dev/disk/by-path/"
  then negb (MatchString partSuffixPattern (filepath_Base path))
  else MatchString scsiDiskPattern path || MatchString nvmeDiskPattern path || MatchString mmcDiskPattern path.

(** [^[a-z_][a-z0-9_-]{0,31}$]. *)
Definition linuxUsernamePattern : regexp :=
  Cat (Cls (fun c => is_lower c || (c ==? "_"%char)))
    (UpTo 31 (Cls (fun c => is_lower c || is_digit c || (c ==? "_"%char) || (c ==? "-"%char)))).

Definition ValidateLoginUser (u : option LoginUserSpec) : option error :=
  match u with
  | None => None
  | Some u =>
      let name := TrimSpace (lu_Username u) in
      if name ==? "" then Some (ErrNew "loginUser.username is required when loginUser is set")
      else if negb (MatchString linuxUsernamePattern name)
      then Some (ErrNew ("loginUser.username is invalid: " +:+ Quote name))
      else None
  end.

Definition display_name (m : Machine) : string :=
  let h := TrimSpace (m_Hostname m) in if h !=? "" then h else m_Name m.

Definition validateWindowsTarget (m : Machine) : result unit :=
  _ ← check (ValidateWindowsHostname (display_name m));
  _ ← ensure ((m_Firmware m ==? FirmwareUEFI) && (CanonicalArch (m_Arch m) ==? "amd64"))
        (ErrNew "Windows deployment requires amd64 UEFI target");
  _ ← ensure (m_Role m !=? RoleHypervisor) (ErrNew "Windows hypervisor-role machines are unsupported");
  _ ← ensure (m_SealedBootstrap m ==? None) (ErrNew "Windows sealed bootstrap is unsupported");
  _ ← ensure (m_TargetDisk m ==? "")
        (ErrNew "Windows cannot use Linux targetDisk paths; exactly one fixed disk is required");
  _ ← ensure ((os_InstallConfig (m_OSPreset m) ==? ∅) && (m_CloudInitRef m ==? "")
              && (m_CloudInitRefs m ==? []) && (m_SSHKeyRefs m ==? []) && (m_LoginUser m ==? None))
        (ErrNew "Windows deployment does not support cloud-init, SSH keys, loginUser, or Linux installConfig; finish account setup in Windows OOBE");
  ensure (m_IPAssignment m !=? IPAssignmentStatic) (ErrNew "Windows deployment currently requires DHCP").

Definition ErrInvalidName : error := ErrNew "name is required".
Definition ErrInvalidMAC : error := ErrNew "mac is invalid".

Definition isWindows (m : Machine) : bool := EqualFold (os_Family (m_OSPreset m)) "windows".

Definition ValidateMachine (m : Machine) : result unit :=
  _ ← ensure (TrimSpace (m_Name m) !=? "") ErrInvalidName;
  _ ← ensure (ParseMAC (m_MAC m) !=? None) ErrInvalidMAC;
  _ ← ensure (CanonicalArch (m_Arch m) !=? "") (ErrNew ("unsupported or missing arch: " +:+ m_Arch m));
  _ ← ensure (TrimSpace (os_Family (m_OSPreset m)) !=? "") (ErrNew "os family is required");
  _ ← ensure ((m_Firmware m ==? FirmwareUEFI) || (m_Firmware m ==? FirmwareBIOS))
        (ErrNew ("unsupported firmware: " +:+ m_Firmware m));
  let disk := TrimSpace (m_TargetDisk m) in
  _ ← ensure ((disk ==? "") || IsWholeDiskPath disk) (ErrNew ("targetDisk must be a whole disk path: " +:+ disk));
  _ ← check (ValidateCloudInitRefs (m_CloudInitRef m) (m_CloudInitRefs m));
  _ ← check (ValidatePowerConfig (m_Power m));
  _ ← check (ValidateIPAssignment (m_IPAssignment m) (m_IP m));
  _ ← (if isWindows m then validateWindowsTarget m else Ok tt);
  check (ValidateLoginUser (m_LoginUser m)).

Definition resetLinuxDeploymentForWindows (m : Machine) : Machine :=
  m <| m_CloudInitRef := "" |> <| m_CloudInitRefs := [] |> <| m_LastDeployedCloudInitRef := "" |>
    <| m_SSHKeyRefs := [] |> <| m_LoginUser := None |> <| m_TargetDisk := "" |>
    <| m_IPAssignment := IPAssignmentDHCP |> <| m_IP := "" |>.

(** ** host_impl.go: a machine as a node *)

Definition primary_mac (m : Machine) : string := ToLower (TrimSpace (m_MAC m)).

Definition machine_AllMACs (m : Machine) : list string :=
  let mac := primary_mac m in if mac ==? "" then [] else [mac].

Definition machine_PXEInstallType (m : Machine) : InstallType :=
  if isWindows m then InstallWindows else InstallCurtin.

Definition machine_IsProvisioningActive (m : Machine) : bool :=
  match m_Provision m with Some p => pp_Active p | None => false end.

Definition machine_ProvisionToken (m : Machine) : string :=
  match m_Provision m with Some p => TrimSpace (pp_CompletionToken p) | None => "" end.

Definition machine_MarkProvisionComplete (m : Machine) (source : string) (now : Time) : Machine :=
  let p := default zero_progress (m_Provision m) in
  m <| m_Provision := Some (p <| pp_Active := false |> <| pp_CompletedAt := Some now |>
         <| pp_LastSignalAt := Some now |> <| pp_CompletionSource := source |>
         <| pp_Message := "provisioning completed" |>) |>
    <| m_Phase := PhaseReady |> <| m_LastError := "" |> <| m_UpdatedAt := now |>.

Definition machine_CloudInitRefForDeploy (m : Machine) : string :=
  ResolveCloudInitRef (m_LastDeployedCloudInitRef m) (m_CloudInitRef m) (m_CloudInitRefs m).

Definition machine_ApplyInstallCompleteReport (m : Machine) (r : InstallCompleteReport) : Machine :=
  if (icr_IP r !=? "") && (m_IPAssignment m !=? IPAssignmentStatic) then m <| m_IP := icr_IP r |> else m.

Global Instance Machine_node : Node Machine := {|
  ResourceName := m_Name;
  NodeDisplayName := display_name;
  PrimaryMAC := primary_mac;
  AllMACs := machine_AllMACs;
  PXEInstallType := machine_PXEInstallType;
  IsProvisioningActive := machine_IsProvisioningActive;
  ProvisionToken := machine_ProvisionToken;
  MarkProvisionComplete := machine_MarkProvisionComplete;
  CloudInitRefForDeploy := machine_CloudInitRefForDeploy;
  CloudInitInline := fun _ _ => "";
  OSImageVariantRef := fun m => os_ImageRef (m_OSPreset m);
  GetIPAssignment := m_IPAssignment;
  StaticIP := m_IP;
  GetSubnetRef := m_SubnetRef;
  ApplyInstallCompleteReport := machine_ApplyInstallCompleteReport |}.

(** ** reconcile.go *)

Record SyncResult := mkSyncResult { sr_Machine : Machine; sr_NeedsSave : bool; sr_NeedsDNS : bool }.

(** [m.Provision.f = v] when the pointer is not nil. *)
Definition on_provision (f : ProvisionProgress → ProvisionProgress) (m : Machine) : Machine :=
  m <| m_Provision := f <$> m_Provision m |>.

Definition SyncState (m : Machine) (artifacts : gmap string string) (installCfg : string)
  (buildErr : option error) (now : Time) : SyncResult :=
  if m_Phase m !=? PhaseProvisioning then mkSyncResult m false false else
  match buildErr with
  | Some e =>
      let m := m <| m_Phase := PhaseError |> <| m_LastError := Error e |> in
      let m := on_provision (fun p => p <| pp_Active := false |> <| pp_FinishedAt := Some now |>
                                        <| pp_Message := Error e |>) m in
      mkSyncResult (m <| m_UpdatedAt := now |>) true false
  | None =>
      let m := m <| m_LastError := "" |> in
      let m := on_provision (fun p =>
        p <| pp_FinishedAt := Some now |> <| pp_Message := "provision artifacts generated" |>
          <| pp_Artifacts := <["installConfig.inline" := installCfg]> (artifacts ∪ pp_Artifacts p) |>) m in
      mkSyncResult (m <| m_UpdatedAt := now |>) true
        ((m_IP m !=? "") && (nc_Domain (m_Network m) !=? ""))
  end.

(** ** service.go *)

Definition normalizeMachineCloudInitRefs (m : Machine) : Machine :=
  m <| m_CloudInitRefs := NormalizeCloudInitRefs (m_CloudInitRef m) (m_CloudInitRefs m) |>
    <| m_CloudInitRef := "" |>.

Definition normalizeSSHKeyRefs (refs : list string) : list string :=
  fst (fold_left appendRef refs ([], ∅)).

(** [read1] and [read2] are the randomness of [FillWoLDefaults]. *)
Definition prepareForCreate (read1 read2 : nat → result bytes) (now : Time) (m : Machine) : result Machine :=
  let m := m <| m_CreatedAt := now |> <| m_UpdatedAt := now |> in
  let m := if m_Phase m ==? "" then m <| m_Phase := PhaseReady |> else m in
  let m := normalizeMachineCloudInitRefs m in
  pw ← FillWoLDefaults read1 read2 (m_Power m);
  let m := m <| m_Power := pw |> in
  _ ← ValidateMachine m;
  let m := m <| m_Arch := CanonicalArch (m_Arch m) |> in
  Ok (match m_CloudInitRefs m with
      | ref :: _ => m <| m_LastDeployedCloudInitRef := ref |>
      | [] => m
      end).

Record ReinstallOptions := mkReinstallOptions {
  ro_Hostname : option string;
  ro_MAC : option string;
  ro_Arch : option string;
  ro_Firmware : option Firmware;
  ro_Power : option PowerConfig;
  ro_OSPreset : option OSPreset;
  ro_TargetDisk : option string;
  ro_Network : option NetworkConfig;
  ro_CloudInitRef : option string;
  ro_CloudInitRefs : option (list string);
  ro_IPAssignment : option IPAssignmentMode;
  ro_IP : option string;
  ro_SubnetRef : option string;
  ro_Role : option Role;
  ro_BridgeName : option string;
  ro_SSHKeyRefs : option (list string);
  ro_LoginUser : option LoginUserSpec }.

(** [if opts.F != nil { m.f = g( *opts.F) }]. *)
Definition when_set {A} (o : option A) (f : A → Machine → Machine) (m : Machine) : Machine :=
  match o with Some a => f a m | None => m end.

Definition set_cloud_init_refs (legacy : option string) (refs : option (list string)) (m : Machine) : Machine :=
  if (legacy ==? None) && (refs ==? None) then m else
  let refs := NormalizeCloudInitRefs (default "" legacy) (default [] refs) in
  m <| m_CloudInitRef := "" |> <| m_CloudInitRefs := refs |>
    <| m_LastDeployedCloudInitRef := default "" (head refs) |>.

Definition set_ip_assignment (o : ReinstallOptions) (m : Machine) : Machine :=
  match ro_IPAssignment o with
  | None => m
  | Some mode =>
      let m := m <| m_IPAssignment := mode |> in
      if (mode !=? IPAssignmentStatic) && (ro_IP o ==? None) then m <| m_IP := "" |> else m
  end.

(** The overrides, in the order the code applies them. *)
Definition apply_options (o : ReinstallOptions) (m : Machine) : Machine :=
  let m := when_set (ro_Hostname o) (fun v m => m <| m_Hostname := TrimSpace v |>) m in
  let m := when_set (ro_MAC o) (fun v m => m <| m_MAC := TrimSpace v |>) m in
  let m := when_set (ro_Arch o) (fun v m => m <| m_Arch := CanonicalArch v |>) m in
  let m := when_set (ro_Firmware o) (fun v m => m <| m_Firmware := v |>) m in
  let m := when_set (ro_Power o) (fun v m => m <| m_Power := v |>) m in
  let m := when_set (ro_OSPreset o) (fun v m => m <| m_OSPreset := v |>) m in
  let m := when_set (ro_TargetDisk o) (fun v m => m <| m_TargetDisk := TrimSpace v |>) m in
  let m := when_set (ro_Network o) (fun v m => m <| m_Network := v |>) m in
  let m := when_set (ro_SubnetRef o) (fun v m => m <| m_SubnetRef := TrimSpace v |>) m in
  let m := set_ip_assignment o m in
  let m := when_set (ro_IP o) (fun v m => m <| m_IP := TrimSpace v |>) m in
  let m := set_cloud_init_refs (ro_CloudInitRef o) (ro_CloudInitRefs o) m in
  let m := when_set (ro_Role o) (fun v m => m <| m_Role := v |>) m in
  let m := when_set (ro_BridgeName o) (fun v m => m <| m_BridgeName := TrimSpace v |>) m in
  let m := when_set (ro_SSHKeyRefs o) (fun v m => m <| m_SSHKeyRefs := normalizeSSHKeyRefs v |>) m in
  when_set (ro_LoginUser o) (fun v m => m <| m_LoginUser := Some v |>) m.

(** The requested machine before validation: switching to Windows first clears
    what belongs to a Linux deployment. *)
Definition requested (m : Machine) (opts : option ReinstallOptions) : Machine :=
  match opts with
  | None => m
  | Some o =>
      let toWindows := match ro_OSPreset o with
                       | Some os => EqualFold (os_Family os) "windows" && negb (isWindows m)
                       | None => false
                       end in
      apply_options o (if toWindows then resetLinuxDeploymentForWindows m else m)
  end.

(** The four reads of randomness are the two of [FillWoLDefaults], the completion
    token's and the attempt id's. *)
Definition PrepareReinstall (read1 read2 read3 read4 : nat → result bytes) (now : Time)
  (m : Machine) (actor : string) (opts : option ReinstallOptions) (timeout : Duration) : result Machine :=
  let m := requested m opts in
  pw ← FillWoLDefaults read1 read2 (m_Power m);
  let m := m <| m_Power := pw |> in
  _ ← ValidateMachine m;
  let m := m <| m_Arch := CanonicalArch (m_Arch m) |> in
  let m :=
    if m_LastDeployedCloudInitRef m ==? "" then
      let ref := ResolveCloudInitRef "" (m_CloudInitRef m) (m_CloudInitRefs m) in
      if ref !=? "" then m <| m_LastDeployedCloudInitRef := ref |> else m
    else m in
  token ← GenerateProvisioningToken read3;
  attemptID ← GenerateProvisioningAttemptID read4;
  Ok (m <| m_Phase := PhaseProvisioning |> <| m_LastError := "" |>
        <| m_Provision := Some (zero_progress <| pp_Active := true |> <| pp_AttemptID := attemptID |>
             <| pp_StartedAt := Some now |> <| pp_DeadlineAt := Some (time_Add now timeout) |>
             <| pp_Trigger := "redeploy" |> <| pp_RequestedBy := actor |>
             <| pp_Message := "provisioning started" |> <| pp_CompletionToken := token |>) |>
        <| m_UpdatedAt := now |>).

(** The service over a store.  [inserter] is the store's [Insert] when it
    implements [Inserter]. *)
Section service.
Context {S : Type} `{ResourceStore S Machine}.
Context (inserter : option (S → Machine → result S)).
Context (read1 read2 read3 read4 : nat → result bytes).

Definition WithProvisionTimeout (d current : Duration) : Duration := if 0 <? d then d else current.

Definition Create (s : S) (now : Time) (m : Machine) : result (S * Machine) :=
  m ← prepareForCreate read1 read2 now m;
  s ← st_Upsert s m;
  Ok (s, m).

Definition CreateExclusive (s : S) (now : Time) (m : Machine) : result (S * Machine) :=
  match inserter with
  | None => Create s now m
  | Some insert =>
      m ← prepareForCreate read1 read2 now m;
      s ← insert s m;
      Ok (s, m)
  end.

Definition UpdateSettings (s : S) (now : Time) (name : string) (powerCfg : PowerConfig) : result (S * Machine) :=
  m ← st_Get s name;
  powerCfg ← FillWoLDefaults read1 read2 powerCfg;
  let m := m <| m_Power := powerCfg |> <| m_UpdatedAt := now |> in
  s ← st_Upsert s m;
  Ok (s, m).

Definition UpdateNetwork (s : S) (now : Time) (name ip : string) (ipAssignment : IPAssignmentMode)
  (subnetRef : string) (network : NetworkConfig) : result (S * Machine) :=
  m ← st_Get s name;
  _ ← ensure ((ipAssignment ==? "") || (ipAssignment ==? m_IPAssignment m))
        (ErrNew "ipAssignment cannot be changed via network update; use redeploy instead");
  let m := m <| m_IP := ip |> <| m_SubnetRef := subnetRef |> <| m_Network := network |>
             <| m_UpdatedAt := now |> in
  s ← st_Upsert s m;
  Ok (s, m).

Definition Reinstall (s : S) (now : Time) (name actor : string) (opts : option ReinstallOptions)
  (provisionTimeout : Duration) : result (S * Machine) :=
  m ← st_Get s name;
  m ← PrepareReinstall read1 read2 read3 read4 now m actor opts provisionTimeout;
  s ← st_Upsert s m;
  Ok (s, m).

Definition Delete (s : S) (name : string) : result S := st_Delete s name.
End service.

(** ** Machines are nodes *)

Global Instance Machine_node_laws : NodeLaws Machine.
Proof.
  constructor; simpl; try done.
  - intros m src now. unfold machine_ProvisionToken; simpl. by destruct (m_Provision m).
  - intros m mac. unfold machine_AllMACs. case_bool_decide; set_solver.
  - intros m. unfold machine_AllMACs. case_bool_decide; [constructor|apply NoDup_singleton].
  - intros m. unfold machine_AllMACs. case_bool_decide; done.
  - intros m r Hs. unfold machine_ApplyInstallCompleteReport. rewrite Hs.
    rewrite (bool_decide_eq_true_2 (IPAssignmentStatic = IPAssignmentStatic)) by done.
    simpl. by rewrite andb_false_r.
Qed.

(** ** Validation *)

Lemma CanonicalArch_values a :
  CanonicalArch a = "" ∨ CanonicalArch a = "amd64" ∨ CanonicalArch a = "arm64" ∨ CanonicalArch a = "i386".
Proof. unfold CanonicalArch. repeat case_match; auto. Qed.

Lemma CanonicalArch_idemp a : CanonicalArch (CanonicalArch a) = CanonicalArch a.
Proof. destruct (CanonicalArch_values a) as [-> | [-> | [-> | ->]]]; reflexivity. Qed.

(** What validation reads of a machine, as a list of tests. *)
Lemma ValidateMachine_Ok m :
  ValidateMachine m = Ok tt ↔
  TrimSpace (m_Name m) ≠ "" ∧ ParseMAC (m_MAC m) ≠ None ∧ CanonicalArch (m_Arch m) ≠ ""
  ∧ TrimSpace (os_Family (m_OSPreset m)) ≠ ""
  ∧ (m_Firmware m = FirmwareUEFI ∨ m_Firmware m = FirmwareBIOS)
  ∧ (TrimSpace (m_TargetDisk m) = "" ∨ IsWholeDiskPath (TrimSpace (m_TargetDisk m)) = true)
  ∧ ValidateCloudInitRefs (m_CloudInitRef m) (m_CloudInitRefs m) = None
  ∧ ValidatePowerConfig (m_Power m) = None
  ∧ ValidateIPAssignment (m_IPAssignment m) (m_IP m) = None
  ∧ (isWindows m = true → validateWindowsTarget m = Ok tt)
  ∧ ValidateLoginUser (m_LoginUser m) = None.
Proof.
  unfold ValidateMachine. rewrite !seq_Ok, !ensure_Ok, !check_Ok, !orb_true_iff, !negb_true_iff,
    !bool_decide_eq_true, !bool_decide_eq_false.
  destruct (isWindows m); naive_solver.
Qed.

Lemma ValidateMachine_arch m :
  ValidateMachine m = Ok tt → ValidateMachine (m <| m_Arch := CanonicalArch (m_Arch m) |>) = Ok tt.
Proof.
  rewrite !ValidateMachine_Ok. intros (H1 & H2 & H3 & H4 & H5 & H6 & H7 & H8 & H9 & H10 & H11).
  simpl. rewrite CanonicalArch_idemp. split_and!; try done. intros Hw. specialize (H10 Hw).
  rewrite <- H10. unfold validateWindowsTarget. destruct m.
  cbn [m_Firmware m_Arch m_Role m_SealedBootstrap m_TargetDisk m_OSPreset m_CloudInitRef m_CloudInitRefs
       m_SSHKeyRefs m_LoginUser m_IPAssignment assign].
  rewrite CanonicalArch_idemp. reflexivity.
Qed.

Lemma validateWindowsTarget_Ok m :
  validateWindowsTarget m = Ok tt ↔
  ValidateWindowsHostname (display_name m) = None
  ∧ (m_Firmware m = FirmwareUEFI ∧ CanonicalArch (m_Arch m) = "amd64")
  ∧ m_Role m ≠ RoleHypervisor ∧ m_SealedBootstrap m = None ∧ m_TargetDisk m = ""
  ∧ ((((os_InstallConfig (m_OSPreset m) = ∅ ∧ m_CloudInitRef m = "") ∧ m_CloudInitRefs m = [])
     ∧ m_SSHKeyRefs m = []) ∧ m_LoginUser m = None)
  ∧ m_IPAssignment m ≠ IPAssignmentStatic.
Proof.
  unfold validateWindowsTarget. rewrite !seq_Ok, !ensure_Ok, check_Ok, !andb_true_iff, !negb_true_iff,
    !bool_decide_eq_true, !bool_decide_eq_false. reflexivity.
Qed.

(** What machine validation accepts as a Windows target.  A valid machine whose
    OS family is Windows (in any letter case) is an amd64 UEFI machine with a valid
    Windows host name, takes its address from DHCP, is no hypervisor, and carries
    none of the Linux-only settings; the reset that precedes a switch to Windows
    clears exactly the settings validation would refuse. *)
Lemma windows_target_rule (m : Machine) (Hwin : isWindows m = true) :
  (ValidateMachine m = Ok tt →
     ValidateWindowsHostname (display_name m) = None
     ∧ m_Firmware m = FirmwareUEFI ∧ CanonicalArch (m_Arch m) = "amd64"
     ∧ m_Role m ≠ RoleHypervisor ∧ m_SealedBootstrap m = None
     ∧ m_TargetDisk m = "" ∧ os_InstallConfig (m_OSPreset m) = ∅ ∧ m_CloudInitRef m = "" ∧ m_CloudInitRefs m = []
     ∧ m_SSHKeyRefs m = [] ∧ m_LoginUser m = None ∧ m_IPAssignment m ≠ IPAssignmentStatic)
  ∧ (TrimSpace (m_Name m) ≠ "" → ParseMAC (m_MAC m) ≠ None → ValidatePowerConfig (m_Power m) = None →
     ValidateWindowsHostname (display_name m) = None → m_Firmware m = FirmwareUEFI →
     CanonicalArch (m_Arch m) = "amd64" → m_Role m ≠ RoleHypervisor → m_SealedBootstrap m = None →
     os_InstallConfig (m_OSPreset m) = ∅ → TrimSpace (os_Family (m_OSPreset m)) ≠ "" →
     ValidateMachine (resetLinuxDeploymentForWindows m) = Ok tt).
Proof.
  split.
  - intros H%ValidateMachine_Ok. destruct H as (_ & _ & _ & _ & _ & _ & _ & _ & _ & Hw & _).
    specialize (Hw Hwin). apply validateWindowsTarget_Ok in Hw.
    destruct Hw as (? & [? ?] & ? & ? & ? & [[[[? ?] ?] ?] ?] & ?). split_and!; done.
  - intros H1 H2 H3 H4 H5 H6 H7 H8 H9 H10. apply ValidateMachine_Ok. rewrite validateWindowsTarget_Ok.
    change (display_name _) with (display_name m). split_and!; try done; try (by left).
    change (CanonicalArch (m_Arch m) ≠ ""). by rewrite H6.
Qed.

Definition windows_machine : Machine :=
  mkMachine None "win-1" "" "aa:bb:cc:dd:ee:ff" "" "x86_64" "uefi" (mkPowerConfig PowerTypeManual None None None None)
    (mkNetworkConfig "") (mkOSPreset "Windows" "11" "img" ∅) "" "" [] "" "" "" "" [] None "Ready" None "" "" "" ""
    None 0 0.

Lemma windows_target_rule_witness : ValidateMachine (resetLinuxDeploymentForWindows windows_machine) = Ok tt.
Proof.
  apply (windows_target_rule windows_machine); [vm_compute; reflexivity|..]; vm_compute; try reflexivity; discriminate.
Defined.

(** ** Creating *)

Lemma prepareForCreate_spec read1 read2 now m m' :
  prepareForCreate read1 read2 now m = Ok m' →
  ValidateMachine m' = Ok tt
  ∧ m_Name m' = m_Name m ∧ m_MAC m' = m_MAC m ∧ m_IP m' = m_IP m ∧ m_OSPreset m' = m_OSPreset m
  ∧ m_CreatedAt m' = now ∧ m_UpdatedAt m' = now
  ∧ m_Phase m' = (if m_Phase m ==? "" then PhaseReady else m_Phase m)
  ∧ m_Arch m' = CanonicalArch (m_Arch m)
  ∧ m_CloudInitRef m' = "" ∧ m_CloudInitRefs m' = NormalizeCloudInitRefs (m_CloudInitRef m) (m_CloudInitRefs m)
  ∧ m_LastDeployedCloudInitRef m' = default (m_LastDeployedCloudInitRef m) (head (m_CloudInitRefs m')).
Proof.
  unfold prepareForCreate. set (m1 := normalizeMachineCloudInitRefs _).
  destruct (FillWoLDefaults _ _ _) as [pw|]; [|done]. cbn [mbind result_bind].
  set (m2 := m1 <| m_Power := pw |>). destruct (ValidateMachine m2) as [[]|] eqn:Hv; [|done].
  apply ValidateMachine_arch in Hv. cbn [mbind result_bind].
  set (m3 := m2 <| m_Arch := _ |>) in *. intros <-%Ok_inj.
  assert (Hm3 : ∀ ref, ValidateMachine (m3 <| m_LastDeployedCloudInitRef := ref |>) = ValidateMachine m3) by done.
  assert (Hphase : m_Phase m3 = if m_Phase m ==? "" then PhaseReady else m_Phase m).
  { unfold m3, m2, m1, normalizeMachineCloudInitRefs. simpl. by destruct (m_Phase m ==? ""). }
  assert (Hsame : m_Name m3 = m_Name m ∧ m_MAC m3 = m_MAC m ∧ m_IP m3 = m_IP m ∧ m_OSPreset m3 = m_OSPreset m
    ∧ m_CreatedAt m3 = now ∧ m_UpdatedAt m3 = now ∧ m_Arch m3 = CanonicalArch (m_Arch m) ∧ m_CloudInitRef m3 = ""
    ∧ m_CloudInitRefs m3 = NormalizeCloudInitRefs (m_CloudInitRef m) (m_CloudInitRefs m)
    ∧ m_LastDeployedCloudInitRef m3 = m_LastDeployedCloudInitRef m).
  { unfold m3, m2, m1, normalizeMachineCloudInitRefs. simpl. by destruct (m_Phase m ==? ""). }
  clearbody m3. destruct Hsame as (? & ? & ? & ? & ? & ? & ? & ? & ? & ?).
  destruct (m_CloudInitRefs m3) as [|ref refs] eqn:Hr.
  - split_and!; try done; rewrite Hr; done.
  - split_and!; try done.
    + change (m_CloudInitRefs m3 = NormalizeCloudInitRefs (m_CloudInitRef m) (m_CloudInitRefs m)). congruence.
    + change (ref = default (m_LastDeployedCloudInitRef m) (head (m_CloudInitRefs m3))). by rewrite Hr.
Qed.

(** ** Reinstalling *)

(** What no override touches. *)
Definition ident (m : Machine) : string * Time * option SealedBootstrap :=
  (m_Name m, m_CreatedAt m, m_SealedBootstrap m).

Lemma when_set_ident {A} (o : option A) f m :
  (∀ a m, ident (f a m) = ident m) → ident (when_set o f m) = ident m.
Proof. intros Hf. destruct o; simpl; auto. Qed.

Lemma set_ip_assignment_ident o m : ident (set_ip_assignment o m) = ident m.
Proof. unfold set_ip_assignment. destruct (ro_IPAssignment o); [|done]. by destruct (_ && _). Qed.

Lemma set_cloud_init_refs_ident l r m : ident (set_cloud_init_refs l r m) = ident m.
Proof. unfold set_cloud_init_refs. by destruct (_ && _). Qed.

Lemma requested_ident m opts : ident (requested m opts) = ident m.
Proof.
  destruct opts as [o|]; [|done]. unfold requested, apply_options.
  rewrite !when_set_ident, set_cloud_init_refs_ident, !when_set_ident, set_ip_assignment_ident,
    !when_set_ident by done.
  destruct (ro_OSPreset o) as [os|]; [|done]. by destruct (_ && _).
Qed.

Lemma PrepareReinstall_spec r1 r2 r3 r4 now m actor opts timeout m' :
  PrepareReinstall r1 r2 r3 r4 now m actor opts timeout = Ok m' →
  ValidateMachine m' = Ok tt ∧ ident m' = ident m
  ∧ m_Phase m' = PhaseProvisioning ∧ m_LastError m' = "" ∧ m_UpdatedAt m' = now
  ∧ m_Arch m' = CanonicalArch (m_Arch (requested m opts))
  ∧ m_MAC m' = m_MAC (requested m opts) ∧ m_OSPreset m' = m_OSPreset (requested m opts)
  ∧ ∃ tok att, r3 32%nat = Ok tok ∧ r4 16%nat = Ok att ∧
      m_Provision m' = Some (mkProvisionProgress true ("attempt-" +:+ hex_encode att) "" (Some now)
        (Some (now + timeout)) None None "redeploy" actor "provisioning started" ∅ (hex_encode tok) "" None
        [] "" "" []).
Proof.
  unfold PrepareReinstall. set (mr := requested m opts).
  assert (Hid : ident mr = ident m) by apply requested_ident. clearbody mr.
  destruct (FillWoLDefaults _ _ _) as [pw|]; [|done]. cbn [mbind result_bind].
  set (m2 := mr <| m_Power := pw |>). destruct (ValidateMachine m2) as [[]|] eqn:Hv; [|done].
  apply ValidateMachine_arch in Hv. cbn [mbind result_bind].
  set (m3 := m2 <| m_Arch := CanonicalArch (m_Arch m2) |>) in *.
  set (m4 := if bool_decide (m_LastDeployedCloudInitRef m3 = "") then _ else _).
  assert (H4 : ValidateMachine m4 = Ok tt ∧ ident m4 = ident mr ∧ m_Arch m4 = CanonicalArch (m_Arch mr)
               ∧ m_MAC m4 = m_MAC mr ∧ m_OSPreset m4 = m_OSPreset mr).
  { unfold m4. destruct (bool_decide _); [|done]. destruct (negb _); done. }
  clearbody m4. unfold GenerateProvisioningToken, GenerateProvisioningAttemptID.
  destruct (r3 32%nat) as [tok|] eqn:E3; [|done]. cbn [mbind result_bind].
  destruct (r4 16%nat) as [att|] eqn:E4; [|done]. cbn [mbind result_bind]. intros <-%Ok_inj.
  destruct H4 as (Hv4 & Hid4 & Ha & Hmac & Hos). rewrite <- Hid, <- Hid4. split_and!; try done.
  exists tok, att. split_and!; done.
Qed.

(** A reinstall request starts a fresh attempt or changes nothing.  When it
    succeeds, the machine passes validation, keeps its identity, is in phase
    Provisioning with no error, and has a single active attempt: new completion
    token (64 hexadecimal digits) and attempt id, started now, with the deadline
    the service's timeout later; nothing of an earlier attempt (completion,
    failure, artifacts, timings) is left. *)
Lemma reinstall_starts_attempt (r1 r2 r3 r4 : nat → result bytes) (now : Time) (m : Machine) (actor : string)
  (opts : option ReinstallOptions) (timeout : Duration) (m' : Machine)
  (Hread : ∀ b, r3 32%nat = Ok b → length b = 32%nat)
  (Hok : PrepareReinstall r1 r2 r3 r4 now m actor opts timeout = Ok m') :
  ValidateMachine m' = Ok tt ∧ m_Name m' = m_Name m ∧ m_CreatedAt m' = m_CreatedAt m
  ∧ m_Phase m' = PhaseProvisioning ∧ m_LastError m' = ""
  ∧ IsProvisioningActive m' = true ∧ String.length (ProvisionToken m') = 64%nat
  ∧ ∃ p, m_Provision m' = Some p ∧ pp_StartedAt p = Some now ∧ pp_DeadlineAt p = Some (now + timeout)
       ∧ pp_RequestedBy p = actor ∧ pp_FinishedAt p = None ∧ pp_CompletedAt p = None ∧ pp_FailureReason p = ""
       ∧ pp_Artifacts p = ∅ ∧ pp_Timings p = [].
Proof.
  destruct (PrepareReinstall_spec _ _ _ _ _ _ _ _ _ _ Hok)
    as (Hv & Hid & Hph & He & _ & _ & _ & _ & tok & att & Ht & _ & Hp).
  unfold ident in Hid. injection Hid as Hn Hc _.
  split_and!; try done.
  - simpl. unfold machine_IsProvisioningActive. by rewrite Hp.
  - simpl. unfold machine_ProvisionToken. rewrite Hp. cbn [pp_CompletionToken].
    rewrite TrimSpace_hex, hex_encode_length. by rewrite (Hread _ Ht).
  - eexists. split; [exact Hp|]. by split_and!.
Qed.

Definition some_bytes (n : nat) : result bytes := Ok (replicate n (byte_of 7)).

Lemma reinstall_starts_attempt_witness :
  match PrepareReinstall some_bytes some_bytes some_bytes some_bytes 5 windows_machine "admin" None Minute with
  | Ok m' => IsProvisioningActive m' = true ∧ m_Phase m' = PhaseProvisioning
  | Err _ => False
  end.
Proof.
  destruct (PrepareReinstall some_bytes some_bytes some_bytes some_bytes 5 windows_machine "admin" None Minute)
    as [m'|e] eqn:E; [|vm_compute in E; discriminate E].
  destruct (reinstall_starts_attempt some_bytes some_bytes some_bytes some_bytes 5 windows_machine "admin" None
    Minute m' ltac:(intros b H; injection H as <-; reflexivity) E) as (_ & _ & _ & Hp & _ & Ha & _).
  split; [exact Ha|exact Hp].
Defined.

(** ** The service over any store *)

Section service_laws.
Context {S : Type} `{StoreLaws S Machine}.

(** What a store's [Insert] promises. *)
Definition inserter_ok (insert : S → Machine → result S) : Prop :=
  ∀ s m s', store_ok s → insert s m = Ok s' →
    store_ok s' ∧ st_Get s (m_Name m) = Err ErrNotFound ∧ st_Get s' (m_Name m) = Ok m
    ∧ ∀ n, n ≠ m_Name m → st_Get s' n = st_Get s n.

Definition all_valid (s : S) : Prop := ∀ n m, st_Get s n = Ok m → ValidateMachine m = Ok tt.

(** The operations of the service, as the API uses them: settings are validated
    before the update, and a network update is given an address the machine's
    assignment mode allows. *)
Inductive service_step (s : S) : S → Prop :=
| svc_create r1 r2 now m s' m' : Create r1 r2 s now m = Ok (s', m') → service_step s s'
| svc_create_exclusive insert r1 r2 now m s' m' :
    inserter_ok insert → CreateExclusive (Some insert) r1 r2 s now m = Ok (s', m') → service_step s s'
| svc_settings r1 r2 now name cfg s' m' :
    ValidatePowerConfig cfg = None → UpdateSettings r1 r2 s now name cfg = Ok (s', m') → service_step s s'
| svc_network now name ip mode sub net s' m' :
    ValidateIPAssignment (m_IPAssignment m') ip = None →
    UpdateNetwork s now name ip mode sub net = Ok (s', m') → service_step s s'
| svc_reinstall r1 r2 r3 r4 now name actor opts timeout s' m' :
    Reinstall r1 r2 r3 r4 s now name actor opts timeout = Ok (s', m') → service_step s s'
| svc_delete name s' : Delete s name = Ok s' → service_step s s'.

Lemma all_valid_upsert s m s' :
  store_ok s → all_valid s → st_Upsert s m = Ok s' → ValidateMachine m = Ok tt → store_ok s' ∧ all_valid s'.
Proof.
  intros Hok Hall Hu Hv. split; [by eapply upsert_ok|]. intros n m' Hg.
  destruct (decide (n = st_key m)) as [->|Hn].
  - rewrite (get_upsert _ _ _ Hok Hu) in Hg. by injection Hg as <-.
  - rewrite (get_upsert_ne _ _ _ _ Hok Hu Hn) in Hg. by eapply Hall.
Qed.

Lemma service_step_valid s s' : store_ok s → all_valid s → service_step s s' → store_ok s' ∧ all_valid s'.
Proof.
  intros Hok Hall Hstep.
  destruct Hstep as [r1 r2 now m s' m' Hc|ins r1 r2 now m s' m' Hi Hc|r1 r2 now name cfg s' m' Hp Hu
    |now name ip mode sub net s' m' Hip Hu|r1 r2 r3 r4 now name actor opts timeout s' m' Hr|name s' Hd].
  - unfold Create in Hc. destruct (prepareForCreate _ _ _ _) as [m1|] eqn:Hp; [|done].
    cbn [mbind result_bind] in Hc. destruct (st_Upsert s m1) as [s1|] eqn:Hu; [|done].
    injection Hc as -> ->. apply prepareForCreate_spec in Hp as [Hv _]. by eapply all_valid_upsert.
  - unfold CreateExclusive in Hc. destruct (prepareForCreate _ _ _ _) as [m1|] eqn:Hp; [|done].
    cbn [mbind result_bind] in Hc. destruct (ins s m1) as [s1|] eqn:Hu; [|done].
    injection Hc as -> ->. apply prepareForCreate_spec in Hp as [Hv _].
    destruct (Hi _ _ _ Hok Hu) as (Hok' & _ & Hg & Hne). split; [done|]. intros n m2 Hn.
    destruct (decide (n = m_Name m')) as [->|]; [congruence|]. rewrite Hne in Hn by done. by eapply Hall.
  - unfold UpdateSettings in Hu. destruct (st_Get s name) as [m|] eqn:Hg; [|done].
    cbn [mbind result_bind] in Hu. destruct (FillWoLDefaults _ _ _) as [cfg'|] eqn:Hf; [|done].
    cbn [mbind result_bind] in Hu. destruct (st_Upsert s _) as [s1|] eqn:Hs; [|done].
    injection Hu as -> <-. eapply all_valid_upsert; [done..|].
    apply FillWoLDefaults_validate in Hf. apply Hall, ValidateMachine_Ok in Hg. apply ValidateMachine_Ok.
    destruct Hg as (? & ? & ? & ? & ? & ? & ? & ? & ? & ? & ?). split_and!; try done.
    change (ValidatePowerConfig cfg' = None). congruence.
  - unfold UpdateNetwork in Hu. destruct (st_Get s name) as [m|] eqn:Hg; [|done].
    cbn [mbind result_bind] in Hu. destruct (ensure _ _) as [[]|]; [|done].
    cbn [mbind result_bind] in Hu. destruct (st_Upsert s _) as [s1|] eqn:Hs; [|done].
    injection Hu as -> <-. eapply all_valid_upsert; [done..|].
    apply Hall, ValidateMachine_Ok in Hg. apply ValidateMachine_Ok.
    destruct Hg as (? & ? & ? & ? & ? & ? & ? & ? & ? & ? & ?). split_and!; done.
  - unfold Reinstall in Hr. destruct (st_Get s name) as [m|] eqn:Hg; [|done].
    cbn [mbind result_bind] in Hr. destruct (PrepareReinstall _ _ _ _ _ _ _ _ _) as [m1|] eqn:Hp; [|done].
    cbn [mbind result_bind] in Hr. destruct (st_Upsert s m1) as [s1|] eqn:Hs; [|done].
    injection Hr as -> ->. apply PrepareReinstall_spec in Hp as [Hv _]. by eapply all_valid_upsert.
  - split; [by eapply delete_ok|]. intros n m Hg. destruct (decide (n = name)) as [->|Hn].
    + by rewrite (get_delete _ _ _ Hok Hd) in Hg.
    + rewrite (get_delete_ne _ _ _ _ Hok Hd Hn) in Hg. by eapply Hall.
Qed.

(** Every stored machine is valid, whatever sequence of creations, exclusive
    creations, settings updates with a valid power configuration, network updates
    with an address the assignment mode allows, reinstalls and deletions led to the
    store, over any store that keeps the store laws. *)
Lemma stored_machines_valid (s0 s : S) (Hok : store_ok s0) (Hall : all_valid s0)
  (Hreach : rtc service_step s0 s) : all_valid s.
Proof.
  assert (store_ok s ∧ all_valid s) as [_ ?]; [|done].
  induction Hreach; [done|]. edestruct service_step_valid as [? ?]; [..|done| |]; eauto.
Qed.
End service_laws.

Lemma mem_inserter_ok : inserter_ok (S := gmap string Machine) mem_insert.
Proof.
  intros s m s' Hok Hi. pose proof (mem_insert_spec s m) as Hspec. rewrite Hi in Hspec.
  destruct Hspec as [Hn ->]. split_and!.
  - exact (upsert_ok s m _ Hok eq_refl).
  - change (mem_get s (key_of m) = Err ErrNotFound). unfold mem_get. by rewrite Hn.
  - exact (get_upsert s m _ Hok eq_refl).
  - intros n Hne. exact (get_upsert_ne s m _ n Hok eq_refl Hne).
Qed.

Lemma stored_machines_valid_witness :
  ∃ s m, Create some_bytes some_bytes ∅ 5 windows_machine = Ok (s, m) ∧ all_valid s.
Proof.
  destruct (Create some_bytes some_bytes (∅ : gmap string Machine) 5 windows_machine) as [[s m]|e] eqn:E;
    [|vm_compute in E; discriminate E].
  exists s, m. split; [reflexivity|].
  apply (stored_machines_valid (∅ : gmap string Machine) s).
  - intros n x. rewrite lookup_empty. discriminate.
  - intros n x H. unfold st_Get in H; simpl in H. unfold mem_get in H. rewrite lookup_empty in H. discriminate.
  - apply rtc_once. exact (svc_create _ _ _ _ _ _ _ E).
Defined.

(** Exclusive creation never overwrites.  With the in-memory store, of two
    creations of one name the second is refused with [ErrAlreadyExists] and the
    record of the first stays as it was stored, whereas plain [Create] replaces it. *)
Lemma create_exclusive_once (r1 r2 r1' r2' : nat → result bytes) (s s1 : gmap string Machine) (t t' : Time)
  (m m' stored : Machine)
  (Hfirst : CreateExclusive (Some mem_insert) r1 r2 s t m = Ok (s1, stored)) (Hname : m_Name m' = m_Name m) :
  st_Get s1 (m_Name m) = Ok stored
  ∧ ∃ e, CreateExclusive (Some mem_insert) r1' r2' s1 t' m' = Err e
       ∧ ((∃ p, prepareForCreate r1' r2' t' m' = Ok p) → e = ErrAlreadyExists).
Proof.
  unfold CreateExclusive in *. destruct (prepareForCreate r1 r2 t m) as [p|] eqn:Hp; [|done].
  cbn [mbind result_bind] in Hfirst. pose proof (mem_insert_spec s p) as Hi.
  destruct (mem_insert s p) as [s'|]; [|done]. injection Hfirst as -> ->. destruct Hi as [_ ->].
  apply prepareForCreate_spec in Hp as (_ & Hn & _). unfold key_of, Machine_keyed. rewrite Hn.
  split; [apply mem_get_Ok; apply lookup_insert_eq|].
  destruct (prepareForCreate r1' r2' t' m') as [p'|e'] eqn:Hp'; [|exists e'; naive_solver].
  cbn [mbind result_bind]. apply prepareForCreate_spec in Hp' as (_ & Hn' & _).
  unfold mem_insert, key_of. rewrite Hn', Hname, lookup_insert_eq. exists ErrAlreadyExists. done.
Qed.

Lemma create_exclusive_once_witness :
  ∃ s1 stored, CreateExclusive (Some mem_insert) some_bytes some_bytes ∅ 5 windows_machine = Ok (s1, stored)
    ∧ CreateExclusive (Some mem_insert) some_bytes some_bytes s1 6 windows_machine = Err ErrAlreadyExists.
Proof.
  destruct (CreateExclusive (Some mem_insert) some_bytes some_bytes (∅ : gmap string Machine) 5 windows_machine)
    as [[s1 stored]|e] eqn:E; [|vm_compute in E; discriminate E].
  exists s1, stored. split; [reflexivity|].
  destruct (create_exclusive_once some_bytes some_bytes some_bytes some_bytes ∅ s1 5 6 windows_machine
    windows_machine stored E eq_refl) as (_ & e & -> & He).
  rewrite He; [reflexivity|].
  destruct (prepareForCreate some_bytes some_bytes 6 windows_machine) as [p|] eqn:Ep; [by exists p|].
  vm_compute in Ep. discriminate Ep.
Defined.

(** The network update does not validate: a static machine can be left without a
    usable address, after which its reinstall is refused. *)
Lemma update_network_breaks_validity :
  ∃ (s s' : gmap string Machine) m m',
    st_Get s "srv-1" = Ok m ∧ ValidateMachine m = Ok tt
    ∧ UpdateNetwork s 5 "srv-1" "" "" "" (mkNetworkConfig "") = Ok (s', m')
    ∧ st_Get s' "srv-1" = Ok m' ∧ ValidateMachine m' = Err (ErrNew "ip is required when ipAssignment is static").
Proof.
  set (m := windows_machine <| m_Name := "srv-1" |> <| m_OSPreset := mkOSPreset "ubuntu" "" "img" ∅ |>
              <| m_IPAssignment := IPAssignmentStatic |> <| m_IP := "10.0.0.5" |>).
  set (m' := m <| m_IP := "" |> <| m_UpdatedAt := 5 |>).
  exists {[ "srv-1" := m ]}, (<[ "srv-1" := m' ]> {[ "srv-1" := m ]}), m, m'.
  split_and!; vm_compute; reflexivity.
Qed.

(** ** Reconciling an attempt *)

(** Reconciling never invents or loses an attempt.  A machine that is not
    provisioning is returned untouched and not saved.  A build error ends the
    attempt: phase Error, attempt inactive, the error recorded.  Otherwise the
    attempt stays active with its token, gains the generated artifacts (the new
    ones win, and the install configuration is always stored), and the machine
    stays in phase Provisioning. *)
Lemma sync_state_spec (m : Machine) (artifacts : gmap string string) (cfg : string) (buildErr : option error)
  (now : Time) :
  let r := SyncState m artifacts cfg buildErr now in
  (m_Phase m ≠ PhaseProvisioning → r = mkSyncResult m false false)
  ∧ (m_Phase m = PhaseProvisioning → ∀ e, buildErr = Some e →
       m_Phase (sr_Machine r) = PhaseError ∧ m_LastError (sr_Machine r) = Error e
       ∧ IsProvisioningActive (sr_Machine r) = false ∧ sr_NeedsSave r = true ∧ sr_NeedsDNS r = false)
  ∧ (m_Phase m = PhaseProvisioning → buildErr = None →
       m_Phase (sr_Machine r) = PhaseProvisioning ∧ sr_NeedsSave r = true
       ∧ IsProvisioningActive (sr_Machine r) = IsProvisioningActive m
       ∧ ∀ p, m_Provision m = Some p → ∃ p', m_Provision (sr_Machine r) = Some p'
           ∧ pp_Artifacts p' !! "installConfig.inline" = Some cfg
           ∧ ∀ k, k ≠ "installConfig.inline" →
               pp_Artifacts p' !! k = match artifacts !! k with Some v => Some v | None => pp_Artifacts p !! k end)
  ∧ ProvisionToken (sr_Machine r) = ProvisionToken m ∧ ident (sr_Machine r) = ident m.
Proof.
  unfold SyncState. cbv zeta. split_and!.
  - intros Hp. by rewrite bool_decide_eq_false_2.
  - intros Hp e ->. rewrite bool_decide_eq_true_2 by done. simpl.
    unfold machine_IsProvisioningActive; simpl. by destruct (m_Provision m).
  - intros Hp ->. rewrite bool_decide_eq_true_2 by done. simpl. split_and!; try done.
    + unfold machine_IsProvisioningActive; simpl. by destruct (m_Provision m).
    + intros p Hpr. rewrite Hpr. eexists. split; [done|]. simpl. split; [apply lookup_insert_eq|].
      intros k Hk. rewrite lookup_insert_ne by done. rewrite lookup_union.
      destruct (artifacts !! k); [by destruct (pp_Artifacts p !! k)|]. by rewrite left_id_L by apply _.
  - destruct (negb _); [done|]. destruct buildErr; simpl; unfold machine_ProvisionToken; simpl; by destruct (m_Provision m).
  - destruct (negb _); [done|]. by destruct buildErr.
Qed.
