(* ===== verification/Hypervisor.v ===== *)
(** * internal/hypervisor: hypervisor hosts and their credentials

    The hypervisor record and its validation, the registration and agent tokens
    with their in-memory stores (internal/infra/memory/metadata_store.go), and the
    service: creation, status updates, self-registration, token management. *)
From S2P Require Import Prelude GoStrings GoNet Store.

(** ** types.go *)

Definition Phase : Type := string.
Definition PhasePending : Phase := "Pending".
Definition PhaseRegistered : Phase := "Registered".
Definition PhaseReady : Phase := "Ready".
Definition PhaseNotReady : Phase := "NotReady".
Definition PhaseUnreachable : Phase := "Unreachable".

Definition ConnectionType : Type := string.
Definition ConnectionSSH : ConnectionType := "ssh".
Definition ConnectionTCP : ConnectionType := "tcp".

Record ConnectionSpec := mkConnectionSpec {
  cn_Type : ConnectionType; cn_Host : string; cn_Port : Z; cn_User : string; cn_KeyRef : string; cn_HostKey : string }.
Global Instance ConnectionSpec_fields : Fields ConnectionSpec :=
  fpure mkConnectionSpec <*> cn_Type <*> cn_Host <*> cn_Port <*> cn_User <*> cn_KeyRef <*> cn_HostKey.

Record ResourceInfo := mkResourceInfo { ri_CPUCores : Z; ri_MemoryMB : Z; ri_StorageGB : Z }.
Record ResourceUsage := mkResourceUsage { ru_CPUUsedCores : Z; ru_MemoryUsedMB : Z; ru_StorageUsedGB : Z }.

Record Hypervisor := mkHypervisor {
  hv_Name : string;
  hv_Connection : ConnectionSpec;
  hv_Labels : gmap string string;
  hv_MachineRef : string;
  hv_BridgeName : string;
  hv_Phase : Phase;
  hv_Capacity : option ResourceInfo;
  hv_Used : option ResourceUsage;
  hv_VMCount : Z;
  hv_LibvirtURI : string;
  hv_LastHeartbeat : option Time;
  hv_LastError : string;
  hv_CreatedAt : Time;
  hv_UpdatedAt : Time }.
Global Instance Hypervisor_fields : Fields Hypervisor :=
  fpure mkHypervisor <*> hv_Name <*> hv_Connection <*> hv_Labels <*> hv_MachineRef <*> hv_BridgeName
    <*> hv_Phase <*> hv_Capacity <*> hv_Used <*> hv_VMCount <*> hv_LibvirtURI <*> hv_LastHeartbeat
    <*> hv_LastError <*> hv_CreatedAt <*> hv_UpdatedAt.

Record RegistrationToken := mkRegistrationToken {
  rt_Token : string; rt_CreatedAt : Time; rt_ExpiresAt : Time; rt_Used : bool; rt_UsedBy : string }.
Global Instance RegistrationToken_fields : Fields RegistrationToken :=
  fpure mkRegistrationToken <*> rt_Token <*> rt_CreatedAt <*> rt_ExpiresAt <*> rt_Used <*> rt_UsedBy.

Record AgentToken := mkAgentToken { at_Token : string; at_HypervisorName : string; at_CreatedAt : Time }.

Record RegisterRequest := mkRegisterRequest {
  rr_Token : string; rr_Hostname : string; rr_Connection : ConnectionSpec; rr_Capacity : ResourceInfo }.

Global Instance ConnectionSpec_eq_dec : EqDecision ConnectionSpec.
Proof. solve_decision. Defined.
Global Instance ResourceInfo_eq_dec : EqDecision ResourceInfo.
Proof. solve_decision. Defined.
Global Instance ResourceUsage_eq_dec : EqDecision ResourceUsage.
Proof. solve_decision. Defined.
Global Instance Hypervisor_eq_dec : EqDecision Hypervisor.
Proof. solve_decision. Defined.
Global Instance RegistrationToken_eq_dec : EqDecision RegistrationToken.
Proof. solve_decision. Defined.
Global Instance AgentToken_eq_dec : EqDecision AgentToken.
Proof. solve_decision. Defined.

Global Instance Hypervisor_keyed : Keyed Hypervisor := hv_Name.

(** [lookupHost] is whether [net.LookupHost] resolves the name. *)
Definition ValidateHypervisor (lookupHost : string → bool) (h : Hypervisor) : result unit :=
  let c := hv_Connection h in
  _ ← ensure (TrimSpace (hv_Name h) !=? "") (ErrNew "name is required");
  _ ← ensure (TrimSpace (cn_Host c) !=? "") (ErrNew "connection.host is required");
  _ ← ensure ((cn_Type c ==? "") || (cn_Type c ==? ConnectionSSH) || (cn_Type c ==? ConnectionTCP))
        (ErrNew ("unsupported connection type: " +:+ cn_Type c));
  let host := cn_Host c in
  ensure ((host ==? "") || (ParseIP host !=? None) || lookupHost host
          || negb (ContainsAny host (of_bytes [byte_of 32; byte_of 9; byte_of 10])))
    (ErrNew ("invalid host: " +:+ host)).

Definition ValidateRegisterRequest (req : RegisterRequest) : result unit :=
  _ ← ensure (TrimSpace (rr_Token req) !=? "") (ErrNew "token is required");
  _ ← ensure (TrimSpace (rr_Hostname req) !=? "") (ErrNew "hostname is required");
  _ ← ensure (TrimSpace (cn_Host (rr_Connection req)) !=? "") (ErrNew "connection.host is required");
  _ ← ensure (0 <? ri_CPUCores (rr_Capacity req)) (ErrNew "capacity.cpuCores must be positive");
  ensure (0 <? ri_MemoryMB (rr_Capacity req)) (ErrNew "capacity.memoryMB must be positive").

(** ** The token stores *)

Definition RegTokenStore_Create (m : gmap string RegistrationToken) (t : RegistrationToken)
  : gmap string RegistrationToken := <[rt_Token t := t]> m.

Definition RegTokenStore_MarkUsed (m : gmap string RegistrationToken) (now : Time) (tokenValue usedBy : string)
  : result (gmap string RegistrationToken * RegistrationToken) :=
  match m !! tokenValue with
  | None => Err ErrNotFound
  | Some t =>
      if rt_Used t then Err (ErrNew "token already used")
      else if time_After now (rt_ExpiresAt t) then Err (ErrNew "token expired")
      else let t := t <| rt_Used := true |> <| rt_UsedBy := usedBy |> in Ok (<[tokenValue := t]> m, t)
  end.

Definition AgentTokenStore_Create (m : gmap string AgentToken) (t : AgentToken) : gmap string AgentToken :=
  <[at_Token t := t]> m.

Definition AgentTokenStore_GetByToken (m : gmap string AgentToken) (tokenValue : string) : result AgentToken :=
  match m !! tokenValue with Some t => Ok t | None => Err ErrNotFound end.

Definition AgentTokenStore_DeleteByHypervisor (m : gmap string AgentToken) (name : string) : gmap string AgentToken :=
  filter (fun kt : string * AgentToken => at_HypervisorName kt.2 ≠ name) m.

(** ** service.go *)

(** The three stores of the service. *)
Record HvState := mkHvState {
  hs_store : gmap string Hypervisor;
  hs_tokens : gmap string RegistrationToken;
  hs_agents : gmap string AgentToken }.
Global Instance HvState_fields : Fields HvState :=
  fpure mkHvState <*> hs_store <*> hs_tokens <*> hs_agents.

Definition defaultTokenTTL : Duration := 1 * Hour.

Definition prepareHypervisor (now : Time) (h : Hypervisor) : Hypervisor :=
  let h := h <| hv_CreatedAt := now |> <| hv_UpdatedAt := now |> in
  let h := if hv_Phase h ==? "" then h <| hv_Phase := PhasePending |> else h in
  if cn_Type (hv_Connection h) ==? ""
  then h <| hv_Connection := (hv_Connection h) <| cn_Type := ConnectionTCP |> |> else h.

Definition Create (lookupHost : string → bool) (st : HvState) (now : Time) (h : Hypervisor)
  : result (HvState * Hypervisor) :=
  let h := prepareHypervisor now h in
  _ ← ValidateHypervisor lookupHost h;
  store ← mem_upsert (hs_store st) h;
  Ok (st <| hs_store := store |>, h).

Definition ListByMachineRef (st : HvState) (machineRef : string) : result (list Hypervisor) :=
  items ← mem_list (hs_store st);
  Ok (filter (fun h => hv_MachineRef h = machineRef) items).

Definition Delete (st : HvState) (name : string) : result HvState :=
  store ← mem_delete (hs_store st) name;
  Ok (st <| hs_store := store |> <| hs_agents := AgentTokenStore_DeleteByHypervisor (hs_agents st) name |>).

Definition UpdateStatus (st : HvState) (now : Time) (name : string) (phase : Phase)
  (capacity : option ResourceInfo) (used : option ResourceUsage) (libvirtURI lastErr : string)
  : result (HvState * Hypervisor) :=
  h ← mem_get (hs_store st) name;
  let h := h <| hv_Phase := phase |> in
  let h := match capacity with Some _ => h <| hv_Capacity := capacity |> | None => h end in
  let h := match used with Some _ => h <| hv_Used := used |> | None => h end in
  let h := if libvirtURI !=? "" then h <| hv_LibvirtURI := libvirtURI |> else h in
  let h := h <| hv_LastError := lastErr |> <| hv_UpdatedAt := now |> in
  store ← mem_upsert (hs_store st) h;
  Ok (st <| hs_store := store |>, h).

Definition MarkTokenUsed (st : HvState) (now : Time) (tokenValue usedBy : string)
  : result (HvState * RegistrationToken) :=
  '(tokens, t) ← RegTokenStore_MarkUsed (hs_tokens st) now tokenValue usedBy;
  Ok (st <| hs_tokens := tokens |>, t).

Definition CreateToken (read : nat → result bytes) (st : HvState) (now : Time) : result (HvState * RegistrationToken) :=
  b ← read 32%nat;
  let t := mkRegistrationToken (hex_encode b) now (time_Add now defaultTokenTTL) false "" in
  Ok (st <| hs_tokens := RegTokenStore_Create (hs_tokens st) t |>, t).

(** Every call that deletes the previous tokens keeps the deletion when the rest
    fails: the state is returned with the error too. *)
Definition CreateAgentToken (read : nat → result bytes) (st : HvState) (now : Time) (name : string)
  : HvState * result string :=
  match mem_get (hs_store st) name with
  | Err e => (st, Err e)
  | Ok _ =>
      let st := st <| hs_agents := AgentTokenStore_DeleteByHypervisor (hs_agents st) name |> in
      match read 32%nat with
      | Err e => (st, Err e)
      | Ok b =>
          let v := hex_encode b in
          (st <| hs_agents := AgentTokenStore_Create (hs_agents st) (mkAgentToken v name now) |>, Ok v)
      end
  end.

(** The hypervisor a registration stores, over the existing one if any. *)
Definition registered_hypervisor (now : Time) (req : RegisterRequest) (existing : result Hypervisor) : Hypervisor :=
  let conn := rr_Connection req in
  let conn := if cn_Type conn ==? "" then conn <| cn_Type := ConnectionTCP |> else conn in
  let h := mkHypervisor (rr_Hostname req) conn ∅ "" "" PhaseRegistered (Some (rr_Capacity req)) None 0
             ("qemu+tcp://" +:+ cn_Host (rr_Connection req) +:+ "/system") None "" now now in
  match existing with
  | Ok e => h <| hv_CreatedAt := hv_CreatedAt e |> <| hv_Labels := hv_Labels e |>
              <| hv_MachineRef := hv_MachineRef e |> <| hv_BridgeName := hv_BridgeName e |>
  | Err _ => h
  end.

(** [t_mark], [now] and [t_agent] are the clock readings of [MarkUsed], of
    [Register] and of [CreateAgentToken]. *)
Definition Register (read : nat → result bytes) (st : HvState) (t_mark now t_agent : Time) (req : RegisterRequest)
  : HvState * result (Hypervisor * string) :=
  match ValidateRegisterRequest req with
  | Err e => (st, Err e)
  | Ok _ =>
      match RegTokenStore_MarkUsed (hs_tokens st) t_mark (rr_Token req) (rr_Hostname req) with
      | Err e => (st, Err (ErrWrap "token validation: " e ""))
      | Ok (tokens, _) =>
          let st := st <| hs_tokens := tokens |> in
          let h := registered_hypervisor now req (mem_get (hs_store st) (rr_Hostname req)) in
          let st := st <| hs_store := <[hv_Name h := h]> (hs_store st) |> in
          match CreateAgentToken read st t_agent (hv_Name h) with
          | (st, Err e) => (st, Err (ErrWrap "create agent token: " e ""))
          | (st, Ok v) => (st, Ok (h, v))
          end
      end
  end.

Definition ValidateAgentToken (st : HvState) (tokenValue : string) : result AgentToken :=
  AgentTokenStore_GetByToken (hs_agents st) tokenValue.

(** ** The life of the credentials *)

(** One call of the service; a drawn registration token is new. *)
Inductive hv_step (st : HvState) : HvState → Prop :=
| hv_create lookup now h st' h' : Create lookup st now h = Ok (st', h') → hv_step st st'
| hv_delete name st' : Delete st name = Ok st' → hv_step st st'
| hv_status now name ph cap used uri err st' h' :
    UpdateStatus st now name ph cap used uri err = Ok (st', h') → hv_step st st'
| hv_burn now v by_ st' t : MarkTokenUsed st now v by_ = Ok (st', t) → hv_step st st'
| hv_token read now st' t :
    CreateToken read st now = Ok (st', t) → hs_tokens st !! rt_Token t = None → hv_step st st'
| hv_agent read now name : hv_step st (CreateAgentToken read st now name).1
| hv_register read t1 t2 t3 req : hv_step st (Register read st t1 t2 t3 req).1.

Definition burned (st : HvState) (v : string) : Prop :=
  ∃ t, hs_tokens st !! v = Some t ∧ rt_Used t = true.

Lemma MarkUsed_Ok m now v by_ m' t :
  RegTokenStore_MarkUsed m now v by_ = Ok (m', t) →
  ∃ t0, m !! v = Some t0 ∧ rt_Used t0 = false ∧ now <= rt_ExpiresAt t0
     ∧ t = t0 <| rt_Used := true |> <| rt_UsedBy := by_ |> ∧ m' = <[v := t]> m.
Proof.
  unfold RegTokenStore_MarkUsed. destruct (m !! v) as [t0|]; [|done].
  destruct (rt_Used t0) eqn:Hu; [done|]. unfold time_After. destruct (_ <? _) eqn:He; [done|].
  intros H. injection H as <- <-. exists t0. split_and!; try done. lia.
Qed.

Lemma MarkUsed_burned m now v by_ m' t v' :
  RegTokenStore_MarkUsed m now v by_ = Ok (m', t) →
  (∃ t0, m !! v' = Some t0 ∧ rt_Used t0 = true) ∨ v' = v → ∃ t0, m' !! v' = Some t0 ∧ rt_Used t0 = true.
Proof.
  intros (t0 & Hv & Hu & _ & -> & ->)%MarkUsed_Ok H. destruct (decide (v = v')) as [<-|Hne].
  - rewrite lookup_insert_eq. by eexists.
  - rewrite lookup_insert_ne by done. naive_solver.
Qed.

Lemma CreateAgentToken_keeps read st now name :
  hs_tokens (CreateAgentToken read st now name).1 = hs_tokens st
  ∧ hs_store (CreateAgentToken read st now name).1 = hs_store st.
Proof. unfold CreateAgentToken. destruct (mem_get _ _); [|done]. by destruct (read _). Qed.

(** What a registration does up to the agent token. *)
Lemma Register_cases read st t1 t2 t3 req :
  (∃ e, Register read st t1 t2 t3 req = (st, Err e)) ∨
  (∃ tokens t, RegTokenStore_MarkUsed (hs_tokens st) t1 (rr_Token req) (rr_Hostname req) = Ok (tokens, t) ∧
     let h := registered_hypervisor t2 req (mem_get (hs_store st) (rr_Hostname req)) in
     let st1 := mkHvState (<[hv_Name h := h]> (hs_store st)) tokens (hs_agents st) in
     (Register read st t1 t2 t3 req).1 = (CreateAgentToken read st1 t3 (hv_Name h)).1
     ∧ (∀ h' v, (Register read st t1 t2 t3 req).2 = Ok (h', v) →
          h' = h ∧ (CreateAgentToken read st1 t3 (hv_Name h)).2 = Ok v)).
Proof.
  unfold Register. destruct (ValidateRegisterRequest req); [|left; eauto].
  destruct (RegTokenStore_MarkUsed _ _ _ _) as [[tokens t]|]; [|left; eauto]. right. exists tokens, t.
  split; [done|]. set (h := registered_hypervisor _ _ _). cbv zeta.
  change (hs_store (st <| hs_tokens := tokens |>)) with (hs_store st). fold h.
  change (st <| hs_tokens := tokens |> <| hs_store := <[hv_Name h := h]> (hs_store st) |>)
    with (mkHvState (<[hv_Name h := h]> (hs_store st)) tokens (hs_agents st)).
  destruct (CreateAgentToken _ _ _ _) as [st2 [v|e]]; simpl; split; naive_solver.
Qed.

Lemma hv_step_burned st st' v : burned st v → hv_step st st' → burned st' v.
Proof.
  intros Hb Hstep. destruct Hstep as [lookup now h st' h' H|name st' H|now name ph cap used uri err st' h' H
    |now v' by_ st' t H|read now st' t H Hn|read now name|read t1 t2 t3 req].
  - unfold Create in H. destruct (ValidateHypervisor _ _); [|done]. by injection H as <- _.
  - unfold Delete, mem_delete in H. destruct (hs_store st !! name); [|done]. by injection H as <-.
  - unfold UpdateStatus in H. destruct (mem_get _ _); [|done]. by injection H as <- _.
  - unfold MarkTokenUsed in H.
    destruct (RegTokenStore_MarkUsed _ _ _ _) as [[tokens t']|] eqn:E; [|done]. injection H as <- _.
    eapply MarkUsed_burned; [exact E|]. by left.
  - unfold CreateToken in H. destruct (read _); [|done]. injection H as <- <-.
    destruct Hb as (t0 & Hv & Hu). exists t0. split; [|done]. simpl in *. unfold RegTokenStore_Create.
    rewrite lookup_insert_ne; [done|]. simpl. congruence.
  - destruct (CreateAgentToken_keeps read st now name) as [E _]. unfold burned. by rewrite E.
  - destruct (Register_cases read st t1 t2 t3 req) as [[e ->]|(tokens & t & Hm & -> & _)]; [done|].
    unfold burned. rewrite (proj1 (CreateAgentToken_keeps _ _ _ _)). simpl.
    eapply MarkUsed_burned; [exact Hm|]. by left.
Qed.

(** A registration token registers one hypervisor once.  A successful
    registration used a token that existed, was unused and had not expired; from
    then on, whatever the service does, a registration with that token is refused
    and changes nothing. *)
Lemma registration_token_single_use (read : nat → result bytes) (st : HvState) (t1 t2 t3 : Time)
  (req : RegisterRequest) (st1 : HvState) (h : Hypervisor) (agent : string)
  (Hreg : Register read st t1 t2 t3 req = (st1, Ok (h, agent))) :
  (∃ t, hs_tokens st !! rr_Token req = Some t ∧ rt_Used t = false ∧ t1 <= rt_ExpiresAt t)
  ∧ ∀ st2 read' u1 u2 u3 req', rtc hv_step st1 st2 → rr_Token req' = rr_Token req →
      ∃ e, Register read' st2 u1 u2 u3 req' = (st2, Err e).
Proof.
  destruct (Register_cases read st t1 t2 t3 req) as [[e He]|(tokens & t & Hm & Hst & _)]; [congruence|].
  rewrite Hreg in Hst. simpl in Hst. split.
  - apply MarkUsed_Ok in Hm as (t0 & ? & ? & ? & _). by exists t0.
  - intros st2 read' u1 u2 u3 req' Hreach Htok.
    assert (Hb : burned st1 (rr_Token req)).
    { unfold burned. rewrite Hst, (proj1 (CreateAgentToken_keeps _ _ _ _)). simpl.
      eapply MarkUsed_burned; [exact Hm|]. by right. }
    assert (Hb2 : burned st2 (rr_Token req)) by (clear -Hreach Hb; induction Hreach; eauto using hv_step_burned).
    destruct Hb2 as (t' & Ht' & Hu'). rewrite <- Htok in Ht'. unfold Register, RegTokenStore_MarkUsed.
    destruct (ValidateRegisterRequest req'); [|eauto]. rewrite Ht', Hu'. eauto.
Qed.

Definition sample_request (tok : string) : RegisterRequest :=
  mkRegisterRequest tok "hv-1" (mkConnectionSpec "" "10.0.0.9" 0 "" "" "") (mkResourceInfo 8 16384 100).
Definition seven_bytes (n : nat) : result bytes := Ok (replicate n (byte_of 7)).
Definition sample_hv_state : HvState :=
  mkHvState ∅ {[ "tok" := mkRegistrationToken "tok" 0 100 false "" ]} ∅.

Lemma registration_token_single_use_witness :
  ∃ st1 h agent e, Register seven_bytes sample_hv_state 5 5 5 (sample_request "tok") = (st1, Ok (h, agent))
    ∧ Register seven_bytes st1 6 6 6 (sample_request "tok") = (st1, Err e).
Proof.
  destruct (Register seven_bytes sample_hv_state 5 5 5 (sample_request "tok")) as [st1 [[h agent]|e]] eqn:E;
    [|vm_compute in E; discriminate E].
  destruct (registration_token_single_use seven_bytes sample_hv_state 5 5 5 (sample_request "tok") st1 h agent E)
    as [_ Hn].
  destruct (Hn st1 seven_bytes 6 6 6 (sample_request "tok") (rtc_refl _ _) eq_refl) as [e He].
  exists st1, h, agent, e. split; [reflexivity|exact He].
Defined.

(** ** Agent tokens *)

(** Tokens are filed under their value, name an existing hypervisor, and no
    hypervisor has two. *)
Record agents_ok (st : HvState) : Prop := {
  ag_key : ∀ v t, hs_agents st !! v = Some t → at_Token t = v;
  ag_exists : ∀ v t, hs_agents st !! v = Some t → is_Some (hs_store st !! at_HypervisorName t);
  ag_one : ∀ v v' t t', hs_agents st !! v = Some t → hs_agents st !! v' = Some t' →
    at_HypervisorName t = at_HypervisorName t' → v = v' }.

Lemma agents_ok_store st store :
  agents_ok st → (∀ n, is_Some (hs_store st !! n) → is_Some (store !! n)) →
  agents_ok (st <| hs_store := store |>).
Proof. intros [H1 H2 H3] Hs. constructor; simpl; eauto. Qed.

Lemma lookup_DeleteByHypervisor m name v t :
  AgentTokenStore_DeleteByHypervisor m name !! v = Some t ↔ m !! v = Some t ∧ at_HypervisorName t ≠ name.
Proof. unfold AgentTokenStore_DeleteByHypervisor. by rewrite map_lookup_filter_Some. Qed.

Lemma CreateAgentToken_ok read st now name :
  agents_ok st → agents_ok (CreateAgentToken read st now name).1.
Proof.
  intros [H1 H2 H3]. unfold CreateAgentToken.
  destruct (mem_get (hs_store st) name) as [h|] eqn:Hg; [|done]. apply mem_get_Ok in Hg.
  set (agents := AgentTokenStore_DeleteByHypervisor (hs_agents st) name).
  assert (Hd : ∀ v t, agents !! v = Some t → hs_agents st !! v = Some t ∧ at_HypervisorName t ≠ name).
  { intros v t Ht. by apply lookup_DeleteByHypervisor. }
  destruct (read 32%nat) as [b|]; constructor; simpl; unfold AgentTokenStore_Create; simpl.
  - intros v t. rewrite lookup_insert_Some. intros [[<- <-]|[_ ?%Hd]]; [done|]. naive_solver.
  - intros v t. rewrite lookup_insert_Some. intros [[<- <-]|[_ ?%Hd]]; [by eexists|]. naive_solver.
  - intros v v' t t'. rewrite !lookup_insert_Some. intros [[<- <-]|[? ?%Hd]] [[<- <-]|[? ?%Hd]]; naive_solver.
  - naive_solver.
  - naive_solver.
  - naive_solver.
Qed.

Lemma hv_step_agents st st' : agents_ok st → hv_step st st' → agents_ok st'.
Proof.
  assert (Hins : ∀ (s : gmap string Hypervisor) h n, is_Some (s !! n) → is_Some (<[hv_Name h := h]> s !! n)).
  { intros s h n Hn. destruct (decide (hv_Name h = n)) as [<-|]; [rewrite lookup_insert_eq; by eexists|].
    by rewrite lookup_insert_ne. }
  intros Hok Hstep. destruct Hstep as [lookup now h st' h' H|name st' H|now name ph cap used uri err st' h' H
    |now v' by_ st' t H|read now st' t H Hn|read now name|read t1 t2 t3 req].
  - unfold Create in H. destruct (ValidateHypervisor _ _); [|done]. injection H as <- _.
    apply agents_ok_store; [done|]. intros n. apply Hins.
  - unfold Delete, mem_delete in H. destruct (hs_store st !! name) eqn:El; [|done]. injection H as <-.
    destruct Hok as [H1 H2 H3]. constructor; simpl.
    + intros v t [? _]%lookup_DeleteByHypervisor. eauto.
    + intros v t [? Hne]%lookup_DeleteByHypervisor. rewrite lookup_delete_ne by done. eauto.
    + intros v v' t t' [? _]%lookup_DeleteByHypervisor [? _]%lookup_DeleteByHypervisor. eauto.
  - unfold UpdateStatus in H. destruct (mem_get _ _) as [h0|]; [|done]. cbn [mbind result_bind mem_upsert] in H.
    injection H as <- _. apply agents_ok_store; [done|]. intros n. apply Hins.
  - unfold MarkTokenUsed in H. destruct (RegTokenStore_MarkUsed _ _ _ _) as [[? ?]|]; [|done].
    injection H as <- _. by destruct Hok.
  - unfold CreateToken in H. destruct (read _); [|done]. injection H as <- _. by destruct Hok.
  - by apply CreateAgentToken_ok.
  - destruct (Register_cases read st t1 t2 t3 req) as [[e ->]|(tokens & t & _ & -> & _)]; [done|].
    apply CreateAgentToken_ok. destruct Hok as [H1 H2 H3]. constructor; simpl; eauto.
Qed.

(** An agent token authenticates the one hypervisor it was issued for, as long
    as that hypervisor exists and no newer token was issued for it.  In every
    state the service reaches, a token that validates is the value presented,
    belongs to a hypervisor in the store, and is that hypervisor's only token. *)
Lemma agent_token_sound (st : HvState) (v : string) (t : AgentToken)
  (Hreach : rtc hv_step (mkHvState ∅ ∅ ∅) st) (Hvalid : ValidateAgentToken st v = Ok t) :
  at_Token t = v ∧ is_Some (hs_store st !! at_HypervisorName t)
  ∧ ∀ v' t', ValidateAgentToken st v' = Ok t' → at_HypervisorName t' = at_HypervisorName t → v' = v.
Proof.
  assert (Hok : agents_ok st).
  { assert (H0 : agents_ok (mkHvState ∅ ∅ ∅)) by (constructor; simpl; intros *; by rewrite lookup_empty).
    clear Hvalid. induction Hreach; eauto using hv_step_agents. }
  destruct Hok as [H1 H2 H3]. unfold ValidateAgentToken, AgentTokenStore_GetByToken in *.
  destruct (hs_agents st !! v) as [t0|] eqn:E; [|done]. injection Hvalid as ->.
  split_and!; eauto. intros v' t' Hv' Hn. destruct (hs_agents st !! v') as [t1|] eqn:E'; [|done].
  injection Hv' as ->. eauto.
Qed.

Lemma agent_token_sound_witness :
  ∃ st v t, rtc hv_step (mkHvState ∅ ∅ ∅) st ∧ ValidateAgentToken st v = Ok t ∧ at_Token t = v.
Proof.
  destruct (CreateToken seven_bytes (mkHvState ∅ ∅ ∅) 5) as [[st1 tok]|] eqn:E1; [|vm_compute in E1; discriminate E1].
  set (req := sample_request (rt_Token tok)).
  assert (Hs1 : hv_step (mkHvState ∅ ∅ ∅) st1) by (exact (hv_token _ _ _ _ _ E1 eq_refl)).
  destruct (Register seven_bytes st1 6 6 6 req) as [st2 [[h v]|e]] eqn:E2;
    [|vm_compute in E1; injection E1 as <- <-; vm_compute in E2; discriminate E2].
  assert (Hs2 : hv_step st1 st2) by (pose proof (hv_register st1 seven_bytes 6 6 6 req) as H; by rewrite E2 in H).
  assert (Hreach : rtc hv_step (mkHvState ∅ ∅ ∅) st2) by (eapply rtc_l; [exact Hs1|]; by apply rtc_once).
  destruct (ValidateAgentToken st2 v) as [t|e] eqn:E3;
    [|vm_compute in E1; injection E1 as <- <-; vm_compute in E2; injection E2 as <- <- <-; vm_compute in E3; discriminate E3].
  exists st2, v, t. split; [exact Hreach|]. split; [exact E3|].
  exact (proj1 (agent_token_sound st2 v t Hreach E3)).
Defined.

(** Self-registration on its success path.  The hypervisor is stored as
    registered, with a TCP connection unless the request names a type; one that
    existed keeps its creation time, labels, machine reference and bridge; the
    returned agent token authenticates it, every token it had before no longer
    does, and other hypervisors keep theirs unless the new token has the same
    value. *)
Lemma register_spec (read : nat → result bytes) (st : HvState) (t1 t2 t3 : Time) (req : RegisterRequest)
  (st1 : HvState) (h : Hypervisor) (agent : string)
  (Hreg : Register read st t1 t2 t3 req = (st1, Ok (h, agent))) :
  hs_store st1 = <[rr_Hostname req := h]> (hs_store st)
  ∧ hv_Name h = rr_Hostname req ∧ hv_Phase h = PhaseRegistered ∧ hv_Capacity h = Some (rr_Capacity req)
  ∧ cn_Type (hv_Connection h) = (if cn_Type (rr_Connection req) ==? "" then ConnectionTCP else cn_Type (rr_Connection req))
  ∧ (∀ old, hs_store st !! rr_Hostname req = Some old →
       hv_CreatedAt h = hv_CreatedAt old ∧ hv_Labels h = hv_Labels old ∧ hv_MachineRef h = hv_MachineRef old
       ∧ hv_BridgeName h = hv_BridgeName old)
  ∧ ValidateAgentToken st1 agent = Ok (mkAgentToken agent (rr_Hostname req) t3)
  ∧ (∀ v t, v ≠ agent → (ValidateAgentToken st1 v = Ok t ↔
       ValidateAgentToken st v = Ok t ∧ at_HypervisorName t ≠ rr_Hostname req)).
Proof.
  destruct (Register_cases read st t1 t2 t3 req) as [[e He]|(tokens & t & _ & Hst & Hok)]; [congruence|].
  rewrite Hreg in Hst, Hok. simpl in Hst. destruct (Hok h agent eq_refl) as [-> Hag]. clear Hok Hreg.
  set (h0 := registered_hypervisor t2 req (mem_get (hs_store st) (rr_Hostname req))) in *.
  assert (Hn : hv_Name h0 = rr_Hostname req) by (unfold h0, registered_hypervisor; by destruct (mem_get _ _)).
  unfold CreateAgentToken, mem_get in Hst, Hag. simpl in Hst, Hag. rewrite lookup_insert_eq in Hst, Hag.
  destruct (read 32%nat) as [b|]; [|done]. simpl in Hst, Hag. injection Hag as <-.
  rewrite Hn in *. subst st1. simpl.
  split_and!; try done.
  - unfold h0, registered_hypervisor. by destruct (mem_get _ _).
  - unfold h0, registered_hypervisor. by destruct (mem_get _ _).
  - unfold h0, registered_hypervisor. destruct (mem_get _ _); simpl; by destruct (_ ==? _).
  - intros old Hold. unfold h0, registered_hypervisor, mem_get. by rewrite Hold.
  - unfold ValidateAgentToken, AgentTokenStore_GetByToken, AgentTokenStore_Create. simpl. by rewrite lookup_insert_eq.
  - intros v t' Hv. unfold ValidateAgentToken, AgentTokenStore_GetByToken, AgentTokenStore_Create. simpl.
    rewrite lookup_insert_ne by done. pose proof (lookup_DeleteByHypervisor (hs_agents st) (rr_Hostname req) v) as Hl.
    destruct (AgentTokenStore_DeleteByHypervisor _ _ !! v) as [x|] eqn:Ex.
    + destruct (proj1 (Hl x) eq_refl) as [-> ?]. naive_solver.
    + destruct (hs_agents st !! v) as [x|] eqn:E'; [|naive_solver]. split; [done|].
      intros [[= ->] Hne]. assert (None = Some t') by (by apply Hl). done.
Qed.

Lemma register_spec_witness :
  ∃ st1 h agent, Register seven_bytes sample_hv_state 5 5 5 (sample_request "tok") = (st1, Ok (h, agent))
    ∧ hv_Phase h = PhaseRegistered.
Proof.
  destruct (Register seven_bytes sample_hv_state 5 5 5 (sample_request "tok")) as [st1 [[h agent]|e]] eqn:E;
    [|vm_compute in E; discriminate E].
  exists st1, h, agent. split; [reflexivity|].
  exact (proj1 (proj2 (proj2 (register_spec seven_bytes sample_hv_state 5 5 5 (sample_request "tok") st1 h agent E)))).
Defined.

(** Registration does not validate the connection type: a hypervisor is stored that
    [ValidateHypervisor] refuses. *)
Lemma register_stores_invalid_type :
  match Register seven_bytes sample_hv_state 5 5 5
          (mkRegisterRequest "tok" "hv-1" (mkConnectionSpec "telnet" "10.0.0.9" 0 "" "" "") (mkResourceInfo 8 16384 100)) with
  | (st1, Ok (h, _)) => hs_store st1 !! "hv-1" = Some h
      ∧ ValidateHypervisor (fun _ => true) h = Err (ErrNew "unsupported connection type: telnet")
  | _ => False
  end.
Proof. vm_compute. split; reflexivity. Qed.
