(* ===== verification/Vm.v ===== *)
(** * internal/vm: virtual machines

    The virtual machine record, its phases and validation, its implementation of
    the node interface, and the choice of a hypervisor for a new machine. *)
From S2P Require Import Prelude GoStrings GoRegexp GoNet Resource Store Hypervisor.

(** ** types.go *)

Definition Phase : Type := string.
Definition PhasePending : Phase := "Pending".
Definition PhaseCreating : Phase := "Creating".
Definition PhaseRunning : Phase := "Running".
Definition PhaseStopped : Phase := "Stopped".
Definition PhaseProvisioning : Phase := "Provisioning".
Definition PhaseError : Phase := "Error".
Definition PhaseDeleting : Phase := "Deleting".
Definition PhaseMigrating : Phase := "Migrating".
Definition PhaseMissing : Phase := "Missing".

Definition PowerControlLibvirt : string := "libvirt".
Definition InstallConfigWindows : string := "windows".
Definition InstallConfigPreseed : string := "preseed".
Definition InstallConfigCurtin : string := "curtin".

Record AdvancedOptions := mkAdvancedOptions {
  ao_CPUPinning : gmap Z string; ao_IOThreads : Z; ao_CPUMode : string; ao_DiskDriver : string;
  ao_DiskFormat : string; ao_NetMultiqueue : Z }.

Record ResourceSpec := mkResourceSpec { rs_CPUCores : Z; rs_MemoryMB : Z; rs_DiskGB : Z }.

Record NetworkInterface := mkNetworkInterface {
  ni_Name : string; ni_MAC : string; ni_Bridge : string; ni_Network : string; ni_IPAddress : string }.

Record InstallConfig := mkInstallConfig { ic_Type : string; ic_Inline : string }.

Record LoginUserSpec := mkLoginUserSpec { vlu_Username : string; vlu_Password : string }.

Record ProvisioningStatus := mkProvisioningStatus {
  ps_WindowsInstallStarted : bool;
  ps_AttemptID : string;
  ps_ImageApplied : bool;
  ps_Active : bool;
  ps_StartedAt : option Time;
  ps_DeadlineAt : option Time;
  ps_CompletedAt : option Time;
  ps_CompletionToken : string;
  ps_CompletionSource : string;
  ps_LastSignalAt : option Time;
  ps_DomainObservedAt : option Time }.
Global Instance ProvisioningStatus_fields : Fields ProvisioningStatus :=
  fpure mkProvisioningStatus <*> ps_WindowsInstallStarted <*> ps_AttemptID <*> ps_ImageApplied <*> ps_Active
    <*> ps_StartedAt <*> ps_DeadlineAt <*> ps_CompletedAt <*> ps_CompletionToken <*> ps_CompletionSource
    <*> ps_LastSignalAt <*> ps_DomainObservedAt.

Record NetworkInterfaceStatus := mkNetworkInterfaceStatus {
  nis_Name : string; nis_MAC : string; nis_IPAddresses : list string }.
Global Instance NetworkInterfaceStatus_fields : Fields NetworkInterfaceStatus :=
  fpure mkNetworkInterfaceStatus <*> nis_Name <*> nis_MAC <*> nis_IPAddresses.

Record VirtualMachine := mkVirtualMachine {
  v_Name : string;
  v_HypervisorRef : string;
  v_Resources : ResourceSpec;
  v_OSImageRef : string;
  v_CloudInitRef : string;
  v_CloudInitRefs : list string;
  v_Network : list NetworkInterface;
  v_IPAssignment : IPAssignmentMode;
  v_SubnetRef : string;
  v_Domain : string;
  v_InstallCfg : option InstallConfig;
  v_PowerControlMethod : string;
  v_AdvancedOptions : option AdvancedOptions;
  v_SSHKeyRefs : list string;
  v_LoginUser : option LoginUserSpec;
  v_Phase : Phase;
  v_LibvirtDomain : string;
  v_HypervisorName : string;
  v_IPAddresses : list string;
  v_NetworkInterfaces : list NetworkInterfaceStatus;
  v_Provisioning : ProvisioningStatus;
  v_LastPowerAction : string;
  v_LastDeployedCloudInitRef : string;
  v_LastError : string;
  v_MissingSince : option Time;
  v_CreatedOnHost : string;
  v_CreatedAt : Time;
  v_UpdatedAt : Time }.
Global Instance VirtualMachine_fields : Fields VirtualMachine :=
  fpure mkVirtualMachine <*> v_Name <*> v_HypervisorRef <*> v_Resources <*> v_OSImageRef <*> v_CloudInitRef
    <*> v_CloudInitRefs <*> v_Network <*> v_IPAssignment <*> v_SubnetRef <*> v_Domain <*> v_InstallCfg
    <*> v_PowerControlMethod <*> v_AdvancedOptions <*> v_SSHKeyRefs <*> v_LoginUser <*> v_Phase
    <*> v_LibvirtDomain <*> v_HypervisorName <*> v_IPAddresses <*> v_NetworkInterfaces <*> v_Provisioning
    <*> v_LastPowerAction <*> v_LastDeployedCloudInitRef <*> v_LastError <*> v_MissingSince
    <*> v_CreatedOnHost <*> v_CreatedAt <*> v_UpdatedAt.

Global Instance AdvancedOptions_eq_dec : EqDecision AdvancedOptions.
Proof. solve_decision. Defined.
Global Instance ResourceSpec_eq_dec : EqDecision ResourceSpec.
Proof. solve_decision. Defined.
Global Instance NetworkInterface_eq_dec : EqDecision NetworkInterface.
Proof. solve_decision. Defined.
Global Instance InstallConfig_eq_dec : EqDecision InstallConfig.
Proof. solve_decision. Defined.
Global Instance VLoginUserSpec_eq_dec : EqDecision LoginUserSpec.
Proof. solve_decision. Defined.
Global Instance ProvisioningStatus_eq_dec : EqDecision ProvisioningStatus.
Proof. solve_decision. Defined.
Global Instance NetworkInterfaceStatus_eq_dec : EqDecision NetworkInterfaceStatus.
Proof. solve_decision. Defined.
Global Instance VirtualMachine_eq_dec : EqDecision VirtualMachine.
Proof. solve_decision. Defined.

Global Instance VirtualMachine_keyed : Keyed VirtualMachine := v_Name.

(** ** phase.go *)

Definition validTransitions : list (Phase * list Phase) :=
  [ (PhasePending, [PhaseCreating; PhaseProvisioning; PhaseError]);
    (PhaseCreating, [PhaseRunning; PhaseProvisioning; PhaseStopped; PhaseError]);
    (PhaseRunning, [PhaseStopped; PhaseMigrating; PhaseProvisioning; PhaseError; PhaseDeleting; PhaseMissing]);
    (PhaseStopped, [PhaseRunning; PhaseProvisioning; PhaseError; PhaseDeleting; PhaseMissing]);
    (PhaseProvisioning, [PhaseRunning; PhaseStopped; PhaseError; PhaseMissing]);
    (PhaseError, [PhaseRunning; PhaseStopped; PhaseProvisioning; PhaseDeleting; PhaseMissing]);
    (PhaseMigrating, [PhaseRunning; PhaseError]);
    (PhaseDeleting, []);
    (PhaseMissing, [PhaseRunning; PhaseStopped; PhaseDeleting]) ].

Definition CanTransition (from to : Phase) : bool :=
  match List.find (fun e => e.1 ==? from) validTransitions with
  | None => false
  | Some (_, targets) => existsb (fun t => t ==? to) targets
  end.

(** ** validate.go *)

Definition linuxUsernamePattern : regexp :=
  Cat (Cls (fun c => is_lower c || (c ==? "_"%char)))
    (UpTo 31 (Cls (fun c => is_lower c || is_digit c || (c ==? "_"%char) || (c ==? "-"%char)))).

Definition ValidateLoginUser (u : option LoginUserSpec) : option error :=
  match u with
  | None => None
  | Some u =>
      let name := TrimSpace (vlu_Username u) in
      if name ==? "" then Some (ErrNew "loginUser.username is required when loginUser is set")
      else if negb (MatchString linuxUsernamePattern name)
      then Some (ErrNew ("loginUser.username is invalid: " +:+ Quote name))
      else None
  end.

(** The loop over the pinning map reports a key out of range; which one, when
    there are several, depends on Go's iteration order. *)
Definition validateAdvancedOptions (v : VirtualMachine) : result unit :=
  match v_AdvancedOptions v with
  | None => Ok tt
  | Some o =>
      _ ← ensure (0 <=? ao_IOThreads o) (ErrNew "advancedOptions.ioThreads must be non-negative");
      _ ← ensure (0 <=? ao_NetMultiqueue o) (ErrNew "advancedOptions.netMultiqueue must be non-negative");
      _ ← ensure (bool_decide (ao_DiskDriver o ∈ [""; "virtio"; "scsi"]))
            (ErrNew ("unsupported advancedOptions.diskDriver: " +:+ ao_DiskDriver o +:+ " (must be virtio or scsi)"));
      _ ← ensure (bool_decide (ao_CPUMode o ∈ [""; "host-passthrough"; "host-model"; "maximum"]))
            (ErrNew ("unsupported advancedOptions.cpuMode: " +:+ ao_CPUMode o
                     +:+ " (must be host-passthrough, host-model, or maximum)"));
      _ ← ensure (bool_decide (ao_DiskFormat o ∈ [""; "qcow2"]))
            (ErrNew ("unsupported advancedOptions.diskFormat: " +:+ ao_DiskFormat o +:+ " (must be qcow2)"));
      let cores := rs_CPUCores (v_Resources v) in
      match List.find (fun vcpu => (vcpu <? 0) || (cores <=? vcpu)) (map_to_list (ao_CPUPinning o)).*1 with
      | None => Ok tt
      | Some vcpu =>
          Err (ErrNew ("advancedOptions.cpuPinning: vcpu " +:+ Itoa vcpu +:+ " is out of range [0, "
                       +:+ Itoa cores +:+ ")"))
      end
  end.

Definition validateInstallConfig (c : option InstallConfig) : result unit :=
  match c with
  | None => Ok tt
  | Some c =>
      let cfgType := TrimSpace (ic_Type c) in
      _ ← ensure (bool_decide (cfgType ∈ [""; InstallConfigPreseed; InstallConfigCurtin; InstallConfigWindows]))
            (ErrNew ("unsupported installConfig.type: " +:+ cfgType));
      ensure (negb ((cfgType ==? "") && (TrimSpace (ic_Inline c) !=? "")))
        (ErrNew "installConfig.type is required when installConfig.inline is set")
  end.

Definition first_ip (v : VirtualMachine) : string :=
  match v_Network v with n :: _ => ni_IPAddress n | [] => "" end.

Definition ValidateVirtualMachine (v : VirtualMachine) : result unit :=
  _ ← ensure (TrimSpace (v_Name v) !=? "") (ErrNew "name is required");
  _ ← ensure (0 <? rs_CPUCores (v_Resources v)) (ErrNew "resources.cpuCores must be positive");
  _ ← ensure (0 <? rs_MemoryMB (v_Resources v)) (ErrNew "resources.memoryMB must be positive");
  _ ← ensure (0 <? rs_DiskGB (v_Resources v)) (ErrNew "resources.diskGB must be positive");
  _ ← ensure (TrimSpace (v_OSImageRef v) !=? "") (ErrNew "osImageRef is required");
  _ ← check (ValidateCloudInitRefs (v_CloudInitRef v) (v_CloudInitRefs v));
  _ ← ensure ((v_PowerControlMethod v ==? "") || (v_PowerControlMethod v ==? PowerControlLibvirt))
        (ErrNew ("unsupported powerControlMethod: " +:+ v_PowerControlMethod v));
  _ ← validateAdvancedOptions v;
  _ ← check (ValidateIPAssignment (v_IPAssignment v) (first_ip v));
  _ ← validateInstallConfig (v_InstallCfg v);
  check (ValidateLoginUser (v_LoginUser v)).

(** ** host_impl.go: a virtual machine as a node *)

Definition norm_mac (raw : string) : string := ToLower (TrimSpace raw).

(** The MACs of the specification, then those the runtime reported. *)
Definition vm_mac_sources (v : VirtualMachine) : list string :=
  (ni_MAC <$> v_Network v) ++ (nis_MAC <$> v_NetworkInterfaces v).

Definition vm_PrimaryMAC (v : VirtualMachine) : string :=
  match List.find (fun raw => norm_mac raw !=? "") (ni_MAC <$> v_Network v) with
  | Some raw => norm_mac raw
  | None =>
      match List.find (fun raw => norm_mac raw !=? "") (nis_MAC <$> v_NetworkInterfaces v) with
      | Some raw => norm_mac raw
      | None => ""
      end
  end.

(** The closure [add] of [AllMACs]. *)
Definition add_mac (st : gset string * list string) (raw : string) : gset string * list string :=
  let '(seen, macs) := st in
  let mac := norm_mac raw in
  if mac ==? "" then st else if bool_decide (mac ∈ seen) then st else ({[mac]} ∪ seen, macs ++ [mac]).

Definition vm_AllMACs (v : VirtualMachine) : list string :=
  snd (fold_left add_mac (nis_MAC <$> v_NetworkInterfaces v)
         (fold_left add_mac (ni_MAC <$> v_Network v) (∅, []))).

Definition vm_PXEInstallType (v : VirtualMachine) : InstallType :=
  match v_InstallCfg v with
  | None => InstallPreseed
  | Some c => if ic_Type c ==? InstallConfigWindows then InstallWindows
              else if ic_Type c ==? InstallConfigCurtin then InstallCurtin
              else InstallPreseed
  end.

Definition vm_MarkProvisionComplete (v : VirtualMachine) (source : string) (now : Time) : VirtualMachine :=
  v <| v_Provisioning := (v_Provisioning v) <| ps_Active := false |> <| ps_CompletedAt := Some now |>
         <| ps_LastSignalAt := Some now |> <| ps_CompletionSource := source |> |>
    <| v_Phase := PhaseRunning |> <| v_LastError := "" |> <| v_UpdatedAt := now |>.

Definition vm_CloudInitInline (v : VirtualMachine) (expected : InstallType) : string :=
  match v_InstallCfg v with
  | None => ""
  | Some c => if ic_Type c !=? expected then "" else TrimSpace (ic_Inline c)
  end.

Definition vm_ApplyInstallCompleteReport (v : VirtualMachine) (r : InstallCompleteReport) : VirtualMachine :=
  if icr_IP r !=? "" then v <| v_IPAddresses := [icr_IP r] |> else v.

Global Instance VirtualMachine_node : Node VirtualMachine := {|
  ResourceName := v_Name;
  NodeDisplayName := v_Name;
  PrimaryMAC := vm_PrimaryMAC;
  AllMACs := vm_AllMACs;
  PXEInstallType := vm_PXEInstallType;
  IsProvisioningActive := fun v => ps_Active (v_Provisioning v);
  ProvisionToken := fun v => TrimSpace (ps_CompletionToken (v_Provisioning v));
  MarkProvisionComplete := vm_MarkProvisionComplete;
  CloudInitRefForDeploy := fun v =>
    ResolveCloudInitRef (v_LastDeployedCloudInitRef v) (v_CloudInitRef v) (v_CloudInitRefs v);
  CloudInitInline := vm_CloudInitInline;
  OSImageVariantRef := v_OSImageRef;
  GetIPAssignment := v_IPAssignment;
  StaticIP := first_ip;
  GetSubnetRef := v_SubnetRef;
  ApplyInstallCompleteReport := vm_ApplyInstallCompleteReport |}.

(** ** scheduler.go *)

(** [int64] arithmetic. *)
Definition AvailableMemory (h : Hypervisor) : Z :=
  match hv_Capacity h with
  | None => 0
  | Some c => match hv_Used h with
              | Some u => int64 (ri_MemoryMB c - ru_MemoryUsedMB u)
              | None => ri_MemoryMB c
              end
  end.

(** The candidates: the hypervisors among [hs] with memory left, with their weight. *)
Definition candidates (hs : list Hypervisor) : list (string * Z) :=
  filter (fun c : string * Z => 0 < c.2) ((fun h => (hv_Name h, AvailableMemory h)) <$> hs).

Fixpoint pick_candidate (pick cumulative : Z) (cs : list (string * Z)) (last : string) : string :=
  match cs with
  | [] => last
  | (name, w) :: cs =>
      let cumulative := int64 (cumulative + w) in
      if pick <? cumulative then name else pick_candidate pick cumulative cs name
  end.

(** [rand n] is [rand.Int64N(n)], which panics unless [n] is positive. *)
Definition SelectHypervisor (rand : Z → Z) (hs : list Hypervisor) : outcome string :=
  let ready := candidates (filter (fun h => hv_Phase h = Hypervisor.PhaseReady) hs) in
  let cs := if ready ==? [] then candidates hs else ready in
  match cs with
  | [] => Returns ""
  | _ =>
      let total := fold_left (fun acc c => int64 (acc + c.2)) cs 0 in
      if total <=? 0 then Panics else Returns (pick_candidate (rand total) 0 cs "")
  end.

(** ** Virtual machines are nodes *)

Definition clean_macs (raws : list string) : list string := filter (fun m => m ≠ "") (norm_mac <$> raws).

Lemma clean_macs_cons raw raws :
  clean_macs (raw :: raws) =
  if decide (norm_mac raw = "") then clean_macs raws else norm_mac raw :: clean_macs raws.
Proof. unfold clean_macs. rewrite fmap_cons, filter_cons. by repeat case_decide. Qed.

Lemma fold_add_mac raws : ∀ (seen : list string) macs,
  (fold_left add_mac raws (list_to_set seen, macs)).2 = macs ++ dedup_from seen (clean_macs raws).
Proof.
  induction raws as [|raw raws IH]; intros seen macs; [by rewrite app_nil_r|].
  cbn [fold_left]. unfold add_mac at 2. rewrite clean_macs_cons.
  case_bool_decide; case_decide; try done.
  cbn [dedup_from]. case_bool_decide as Hin; rewrite elem_of_list_to_set in Hin.
  - by rewrite decide_True, IH.
  - rewrite decide_False by done.
    change ({[norm_mac raw]} ∪ list_to_set seen : gset string)
      with (list_to_set (norm_mac raw :: seen) : gset string).
    by rewrite IH, <- app_assoc.
Qed.

Lemma vm_AllMACs_eq v : vm_AllMACs v = dedup_from [] (clean_macs (vm_mac_sources v)).
Proof.
  unfold vm_AllMACs, vm_mac_sources. rewrite <- fold_left_app. apply (fold_add_mac _ [] []).
Qed.

Lemma find_head_clean raws :
  match List.find (fun raw => norm_mac raw !=? "") raws with Some raw => norm_mac raw | None => "" end
  = default "" (head (clean_macs raws)).
Proof.
  induction raws as [|raw raws IH]; [done|]. cbn [List.find]. rewrite clean_macs_cons.
  case_bool_decide; case_decide; try done.
Qed.

Lemma head_dedup_from {A} `{EqDecision A} (l : list A) : head (dedup_from [] l) = head l.
Proof. destruct l as [|x l]; [done|]. cbn [dedup_from]. by rewrite decide_False by set_solver. Qed.

Lemma clean_macs_app l k : clean_macs (l ++ k) = clean_macs l ++ clean_macs k.
Proof. unfold clean_macs. by rewrite fmap_app, filter_app. Qed.

Lemma vm_PrimaryMAC_eq v : vm_PrimaryMAC v = default "" (head (vm_AllMACs v)).
Proof.
  rewrite vm_AllMACs_eq, head_dedup_from. unfold vm_PrimaryMAC, vm_mac_sources. rewrite clean_macs_app.
  pose proof (find_head_clean (ni_MAC <$> v_Network v)) as H1.
  pose proof (find_head_clean (nis_MAC <$> v_NetworkInterfaces v)) as H2.
  destruct (List.find _ (ni_MAC <$> v_Network v)) as [raw|] eqn:E1.
  - apply find_some_elem_of in E1 as [_ Hne%negb_true_iff%bool_decide_eq_false].
    destruct (clean_macs (ni_MAC <$> v_Network v)); [done|]. exact H1.
  - assert (clean_macs (ni_MAC <$> v_Network v) = []) as ->; [|exact H2].
    pose proof (find_none _ _ E1) as Hn. unfold clean_macs.
    destruct (filter _ _) as [|x l] eqn:Ef; [done|]. exfalso.
    assert (Hx' : x ∈ filter (fun m => m ≠ "") (norm_mac <$> (ni_MAC <$> v_Network v))) by (rewrite Ef; left).
    revert Hx'. intros [Hx (raw & -> & Hin)%list_elem_of_fmap]%list_elem_of_filter.
    specialize (Hn raw ltac:(by apply list_elem_of_In)). apply negb_false_iff, bool_decide_eq_true in Hn. done.
Qed.

Global Instance VirtualMachine_node_laws : NodeLaws VirtualMachine.
Proof.
  constructor; simpl; try done.
  - intros v mac. rewrite vm_AllMACs_eq, elem_of_dedup_from. unfold clean_macs. rewrite list_elem_of_filter. naive_solver.
  - intros v. rewrite vm_AllMACs_eq. apply NoDup_dedup_from.
  - apply vm_PrimaryMAC_eq.
  - intros v r _. unfold vm_ApplyInstallCompleteReport. by destruct (negb _).
Qed.

(** ** Scheduling *)

Definition weight (cs : list (string * Z)) : Z := foldr (fun c acc => c.2 + acc) 0 cs.

Lemma weight_nonneg cs : Forall (fun c => 0 < c.2) cs → 0 <= weight cs.
Proof. induction 1; simpl; lia. Qed.

Lemma total_weight cs : ∀ acc, 0 <= acc → Forall (fun c => 0 < c.2) cs → acc + weight cs <= max_int64 →
  fold_left (fun acc c => int64 (acc + c.2)) cs acc = acc + weight cs.
Proof.
  induction cs as [|[n w] cs IH]; intros acc Ha Hpos Hmax; simpl in *; [lia|].
  apply Forall_cons in Hpos as [Hw Hpos]. simpl in Hw. pose proof (weight_nonneg cs Hpos).
  rewrite int64_small by (unfold min_int64, max_int64 in *; lia). rewrite IH by (done || lia). lia.
Qed.

(** The candidate a draw selects is the one whose weight interval contains it. *)
Lemma pick_candidate_spec cs : ∀ cum p last,
  0 <= cum → Forall (fun c => 0 < c.2) cs → cum + weight cs <= max_int64 → cum <= p < cum + weight cs →
  ∃ pre name w suf, cs = pre ++ (name, w) :: suf ∧ cum + weight pre <= p < cum + weight pre + w
    ∧ pick_candidate p cum cs last = name.
Proof.
  induction cs as [|[n w] cs IH]; intros cum p last Hc Hpos Hmax Hp; simpl in *; [lia|].
  apply Forall_cons in Hpos as [Hw Hpos]. simpl in Hw. pose proof (weight_nonneg cs Hpos).
  rewrite int64_small by (unfold min_int64, max_int64 in *; lia).
  destruct (p <? cum + w) eqn:E.
  - exists [], n, w, cs. simpl. split_and!; [done|lia|lia|done].
  - destruct (IH (cum + w) p n) as (pre & name & w' & suf & -> & Hi & Hr); [lia|done|lia|lia|].
    exists ((n, w) :: pre), name, w', suf. simpl. split_and!; [done|lia|lia|done].
Qed.

Lemma elem_of_candidates l c : c ∈ candidates l →
  ∃ h, h ∈ l ∧ c = (hv_Name h, AvailableMemory h) ∧ 0 < AvailableMemory h.
Proof. intros [Hp (h & -> & Hh)%list_elem_of_fmap]%list_elem_of_filter. eauto. Qed.

Lemma candidates_pos l : Forall (fun c => 0 < c.2) (candidates l).
Proof. apply Forall_forall. intros c (h & _ & -> & ?)%elem_of_candidates. done. Qed.

Lemma candidates_filter_weight (P : Hypervisor → Prop) `{∀ h, Decision (P h)} hs :
  weight (candidates (filter P hs)) <= weight (candidates hs).
Proof.
  unfold candidates. induction hs as [|h hs IH]; [done|].
  rewrite filter_cons. case_decide as Hr; rewrite ?fmap_cons, !filter_cons; simpl; repeat case_decide; simpl; lia.
Qed.

Lemma weight_pos cs : cs ≠ [] → Forall (fun c => 0 < c.2) cs → 0 < weight cs.
Proof.
  intros Hne Hpos. destruct cs as [|[n w] cs]; [done|]. apply Forall_cons in Hpos as [H1 H2]. simpl in *.
  pose proof (weight_nonneg cs H2). lia.
Qed.

(** Automatic placement.  The scheduler returns no hypervisor exactly when none
    has memory left; otherwise it draws among the Ready ones with memory left (among
    all with memory left if no Ready one has any), each with probability
    proportional to its available memory: the draw selects the candidate whose
    interval of cumulated weights contains it.  It does not panic as long as the
    total fits in 64 bits. *)
Lemma select_hypervisor_spec (rand : Z → Z) (hs : list Hypervisor)
  (Hrand : ∀ n, 0 < n → 0 <= rand n < n)
  (Hfit : weight (candidates hs) <= max_int64) :
  let ready := candidates (filter (fun h => hv_Phase h = Hypervisor.PhaseReady) hs) in
  let cs := if ready ==? [] then candidates hs else ready in
  (cs = [] → SelectHypervisor rand hs = Returns "")
  ∧ (cs ≠ [] → ∃ pre name w suf, cs = pre ++ (name, w) :: suf
       ∧ weight pre <= rand (weight cs) < weight pre + w
       ∧ SelectHypervisor rand hs = Returns name
       ∧ ∃ h, h ∈ hs ∧ hv_Name h = name ∧ AvailableMemory h = w ∧ 0 < w
            ∧ (ready ≠ [] → hv_Phase h = Hypervisor.PhaseReady)).
Proof.
  intros ready cs.
  assert (Hsub : weight ready <= weight (candidates hs)) by apply candidates_filter_weight.
  assert (Hcs : weight cs <= max_int64) by (unfold cs; case_bool_decide; lia).
  assert (Hcpos : Forall (fun c => 0 < c.2) cs) by (unfold cs; case_bool_decide; apply candidates_pos).
  split.
  - intros Hnil. unfold SelectHypervisor. fold ready. fold cs. by rewrite Hnil.
  - intros Hne. unfold SelectHypervisor. fold ready. fold cs.
    assert (Hw : 0 < weight cs) by (by apply weight_pos).
    rewrite (total_weight cs 0) by (done || lia). rewrite Z.add_0_l.
    destruct (pick_candidate_spec cs 0 (rand (weight cs)) "") as (pre & name & w & suf & E & Hi & Hpick);
      [lia|done|lia|specialize (Hrand _ Hw); lia|].
    exists pre, name, w, suf. split_and!; [done|lia|lia|..].
    + destruct cs; [done|]. replace (weight _ <=? 0) with false by lia. by rewrite Hpick.
    + assert (Hin : (name, w) ∈ cs) by (rewrite E; set_solver).
      unfold cs in Hin. case_bool_decide as Hr.
      * apply elem_of_candidates in Hin as (h & Hh & [= -> ->] & ?). exists h. split_and!; done.
      * apply elem_of_candidates in Hin as (h & [Hph Hh]%list_elem_of_filter & [= -> ->] & ?). exists h. split_and!; done.
Qed.

Definition sample_hosts : list Hypervisor :=
  let c := mkConnectionSpec "tcp" "10.0.0.1" 0 "" "" "" in
  [ mkHypervisor "hv-a" c ∅ "" "" "NotReady" (Some (mkResourceInfo 8 100 0)) None 0 "" None "" 0 0;
    mkHypervisor "hv-b" c ∅ "" "" "Ready" (Some (mkResourceInfo 8 50 0)) (Some (mkResourceUsage 1 20 0)) 0 "" None "" 0 0 ].

Lemma select_hypervisor_spec_witness : SelectHypervisor (fun n => n - 1) sample_hosts = Returns "hv-b".
Proof.
  destruct (select_hypervisor_spec (fun n => n - 1) sample_hosts ltac:(intros; lia)
    ltac:(vm_compute; discriminate)) as [_ H].
  destruct H as (pre & name & w & suf & E & _ & Hs & _); [vm_compute; discriminate|].
  rewrite Hs. vm_compute in E. destruct pre as [|c pre]; [by injection E as <- _ _|].
  injection E as _ E. by destruct pre.
Defined.

(** Validation trims the install type, the node interface compares it untrimmed: a
    machine accepted as a Curtin installation is booted as a preseed one. *)
Lemma padded_install_type :
  validateInstallConfig (Some (mkInstallConfig " curtin" "")) = Ok tt
  ∧ ∀ v, v_InstallCfg v = Some (mkInstallConfig " curtin" "") → PXEInstallType v = InstallPreseed.
Proof. split; [vm_compute; reflexivity|]. intros v E. simpl. unfold vm_PXEInstallType. by rewrite E. Qed.
