(* ===== verification/VmStore.v ===== *)
(** * The virtual machine store and service

    [vm.Store] with its optional interfaces as a record of operations, the
    in-memory implementation (internal/infra/memory/vm_store.go), and the service
    (internal/vm/service.go): creation, deploy status, missing and failed
    deployments, conditional deletion. *)
From S2P Require Import Prelude GoStrings GoNet Resource Store Hypervisor Vm.

(** ** store.go: the interface *)

(** An optional interface is [None] when the backend does not implement it; the
    boolean reports whether a row was written or deleted. *)
Record VMStore (S : Type) := mkVMStore {
  vs_Upsert : S → VirtualMachine → result S;
  vs_Get : S → string → result VirtualMachine;
  vs_List : S → result (list VirtualMachine);
  vs_ListByHypervisor : S → string → result (list VirtualMachine);
  vs_Delete : S → string → result S;
  vs_Insert : option (S → VirtualMachine → result S);
  vs_UpdateExisting : option (S → VirtualMachine → result (S * bool));
  vs_UpdateProvisioningAttempt : option (S → VirtualMachine → VirtualMachine → result (S * bool));
  vs_DeleteOwned : option (S → string → string → result (S * bool));
  vs_DeleteCreatedToken : option (S → string → string → result (S * bool)) }.
Arguments vs_Upsert {S} _ _ _.
Arguments vs_Get {S} _ _ _.
Arguments vs_List {S} _ _.
Arguments vs_ListByHypervisor {S} _ _ _.
Arguments vs_Delete {S} _ _ _.
Arguments vs_Insert {S} _.
Arguments vs_UpdateExisting {S} _.
Arguments vs_UpdateProvisioningAttempt {S} _.
Arguments vs_DeleteOwned {S} _.
Arguments vs_DeleteCreatedToken {S} _.

(** ** The in-memory store *)

Abbreviation vms := (gmap string VirtualMachine).

Definition VMStore_Upsert (m : vms) (v : VirtualMachine) : result vms := mem_upsert m v.
Definition VMStore_Insert (m : vms) (v : VirtualMachine) : result vms := mem_insert m v.
Definition VMStore_Get (m : vms) (name : string) : result VirtualMachine := mem_get m name.
Definition VMStore_List (m : vms) : result (list VirtualMachine) := mem_list m.
Definition VMStore_ListPage (m : vms) (offset limit : Z) : outcome (list VirtualMachine * Z) := mem_page m offset limit.
Definition VMStore_Delete (m : vms) (name : string) : result vms := mem_delete m name.

Definition VMStore_ListByHypervisor (m : vms) (hypervisorName : string) : result (list VirtualMachine) :=
  mem_list_where (fun v => v_HypervisorRef v ==? hypervisorName) m.

Definition VMStore_DeleteCreatedToken (m : vms) (name completionToken : string) : result (vms * bool) :=
  match m !! name with
  | Some v => if ps_CompletionToken (v_Provisioning v) ==? completionToken
              then Ok (delete name m, true) else Ok (m, false)
  | None => Ok (m, false)
  end.

Definition VMStore_UpdateExisting (m : vms) (v : VirtualMachine) : result (vms * bool) :=
  match m !! v_Name v with
  | Some _ => Ok (<[v_Name v := v]> m, true)
  | None => Ok (m, false)
  end.

Definition VMStore_DeleteOwned (m : vms) (name hypervisorRef : string) : result (vms * bool) :=
  match m !! name with
  | Some v => if v_HypervisorRef v ==? hypervisorRef then Ok (delete name m, true) else Ok (m, false)
  | None => Ok (m, false)
  end.

(** The compare-and-swap of provisioning callbacks: the stored record must still be
    the snapshot the caller read. *)
Definition VMStore_UpdateProvisioningAttempt (m : vms) (before after : VirtualMachine) : result (vms * bool) :=
  match m !! v_Name before with
  | None => Ok (m, false)
  | Some current =>
      if (v_Name before !=? v_Name after)
         || (ps_CompletionToken (v_Provisioning before) !=? ps_CompletionToken (v_Provisioning after))
         || (ps_AttemptID (v_Provisioning before) !=? ps_AttemptID (v_Provisioning after))
         || (current !=? before)
      then Ok (m, false)
      else Ok (<[v_Name after := after]> m, true)
  end.

Definition memory_vms : VMStore vms := {|
  vs_Upsert := VMStore_Upsert;
  vs_Get := VMStore_Get;
  vs_List := VMStore_List;
  vs_ListByHypervisor := VMStore_ListByHypervisor;
  vs_Delete := VMStore_Delete;
  vs_Insert := Some VMStore_Insert;
  vs_UpdateExisting := Some VMStore_UpdateExisting;
  vs_UpdateProvisioningAttempt := Some VMStore_UpdateProvisioningAttempt;
  vs_DeleteOwned := Some VMStore_DeleteOwned;
  vs_DeleteCreatedToken := Some VMStore_DeleteCreatedToken |}.

(** ** service.go *)

Definition normalizeCloudInitRefs (v : VirtualMachine) : VirtualMachine :=
  v <| v_CloudInitRefs := NormalizeCloudInitRefs (v_CloudInitRef v) (v_CloudInitRefs v) |>
    <| v_CloudInitRef := "" |>.

Definition prepareForCreate (now : Time) (v : VirtualMachine) : result VirtualMachine :=
  let v := v <| v_CreatedAt := now |> <| v_UpdatedAt := now |> in
  let v := if v_Phase v ==? "" then v <| v_Phase := PhasePending |> else v in
  let v := v <| v_PowerControlMethod := PowerControlLibvirt |> in
  let v := normalizeCloudInitRefs v in
  _ ← ValidateVirtualMachine v;
  Ok (match v_CloudInitRefs v with
      | ref :: _ => v <| v_LastDeployedCloudInitRef := ref |>
      | [] => v
      end).

(** runtime_sync.go: the deadline of an active window has passed. *)
Definition IsProvisioningTimedOut (status : ProvisioningStatus) (now : Time) : bool :=
  if negb (ps_Active status) || (ps_CompletedAt status !=? None) then false
  else match ps_DeadlineAt status with None => false | Some d => time_After now d end.

Definition vmDeployInFlight (v : VirtualMachine) (now : Time) : bool :=
  if negb (ps_Active (v_Provisioning v)) || IsProvisioningTimedOut (v_Provisioning v) now then false
  else ps_DomainObservedAt (v_Provisioning v) ==? None.

(** The operations are sequences of statements of the store they are given.  Over
    [memory_vms] nothing happens between two statements; VmFence.v gives them a store in
    which the others write before each statement that writes. *)
Section service.
Context {S : Type} (store : VMStore S).

Definition writeExisting (s : S) (v : VirtualMachine) : result (S * bool) :=
  match vs_UpdateExisting store with
  | Some update => update s v
  | None => s ← vs_Upsert store s v; Ok (s, true)
  end.

(** [written, err := writeExisting(...)]: an absent row is [ErrNotFound]. *)
Definition write_or_not_found (s : S) (v : VirtualMachine) : result (S * VirtualMachine) :=
  '(s, written) ← writeExisting s v;
  if written : bool then Ok (s, v) else Err ErrNotFound.

Definition Create (s : S) (now : Time) (v : VirtualMachine) : result (S * VirtualMachine) :=
  v ← prepareForCreate now v;
  s ← vs_Upsert store s v;
  Ok (s, v).

Definition CreateExclusive (s : S) (now : Time) (v : VirtualMachine) : result (S * VirtualMachine) :=
  match vs_Insert store with
  | None => Create s now v
  | Some insert => v ← prepareForCreate now v; s ← insert s v; Ok (s, v)
  end.

Definition UpdateStatus (s : S) (now : Time) (name : string) (phase : Phase) (lastAction lastErr : string)
  : result (S * VirtualMachine) :=
  v ← vs_Get store s name;
  write_or_not_found s (v <| v_Phase := phase |> <| v_LastPowerAction := lastAction |>
                          <| v_LastError := lastErr |> <| v_UpdatedAt := now |>).

(** A window that was ended and must stay ended. *)
Definition window_over (v : VirtualMachine) : bool :=
  negb (ps_Active (v_Provisioning v)) &&
  (((v_Phase v ==? PhaseMissing) &&
    match ps_DomainObservedAt (v_Provisioning v), v_MissingSince v with
    | Some seen, Some gone => time_After gone seen
    | _, _ => false
    end)
   || (v_Phase v ==? PhaseError)).

(** The snapshot to restore, with what the stored window has gained since. *)
Definition merge_window (stored snapshot : ProvisioningStatus) : ProvisioningStatus :=
  let p := match ps_DomainObservedAt snapshot with
           | None => snapshot <| ps_DomainObservedAt := ps_DomainObservedAt stored |>
           | Some _ => snapshot
           end in
  let p := match ps_DeadlineAt stored with
           | Some d =>
               if match ps_DeadlineAt p with None => true | Some d' => time_After d d' end
               then p <| ps_DeadlineAt := Some d |> else p
           | None => p
           end in
  p <| ps_WindowsInstallStarted := ps_WindowsInstallStarted p || ps_WindowsInstallStarted stored |>
    <| ps_ImageApplied := ps_ImageApplied p || ps_ImageApplied stored |>.

(** What the finished deploy writes over the stored record, [None] when it leaves
    it alone. *)
Definition deploy_update (v : VirtualMachine) (now : Time) (phase : Phase) (lastAction : string)
  (provisioning : ProvisioningStatus) : option VirtualMachine :=
  if ps_CompletionToken (v_Provisioning v) !=? ps_CompletionToken provisioning then None
  else if ps_CompletedAt (v_Provisioning v) !=? None then None
  else if window_over v then None
  else Some (v <| v_MissingSince := None |> <| v_Phase := phase |> <| v_LastPowerAction := lastAction |>
               <| v_LastError := "" |> <| v_Provisioning := merge_window (v_Provisioning v) provisioning |>
               <| v_UpdatedAt := now |>).

Definition is_windows_vm (v : VirtualMachine) : bool :=
  match v_InstallCfg v with Some c => ic_Type c ==? InstallConfigWindows | None => false end.

Definition ErrNoAtomicUpdate : error := ErrNew "store does not support atomic Windows provisioning updates".

Definition UpdateDeployStatus (s : S) (now : Time) (name : string) (phase : Phase) (lastAction : string)
  (provisioning : ProvisioningStatus) : result (S * VirtualMachine) :=
  before ← vs_Get store s name;
  match deploy_update before now phase lastAction provisioning with
  | None => Ok (s, before)
  | Some v =>
      if is_windows_vm v then
        match vs_UpdateProvisioningAttempt store with
        | None => Err ErrNoAtomicUpdate
        | Some update =>
            '(s, written) ← update s before v;
            if written : bool then Ok (s, v) else v ← vs_Get store s name; Ok (s, v)
        end
      else write_or_not_found s v
  end.

(** The three readings of the clock: the in-flight test, the stamp of the
    transition, the update time. *)
Definition mark_missing (v : VirtualMachine) (t_missing t_update : Time) (lastAction lastErr : string) : VirtualMachine :=
  let v := if (v_Phase v !=? PhaseMissing) || (v_MissingSince v ==? None)
           then v <| v_MissingSince := Some t_missing |> else v in
  v <| v_Phase := PhaseMissing |> <| v_LastPowerAction := lastAction |> <| v_LastError := lastErr |>
    <| v_Provisioning := (v_Provisioning v) <| ps_Active := false |> |>
    <| v_IPAddresses := [] |> <| v_NetworkInterfaces := [] |> <| v_UpdatedAt := t_update |>.

Definition MarkMissing (s : S) (t_flight t_missing t_update : Time) (name lastAction lastErr : string)
  : result (S * VirtualMachine) :=
  v ← vs_Get store s name;
  if vmDeployInFlight v t_flight then Ok (s, v)
  else write_or_not_found s (mark_missing v t_missing t_update lastAction lastErr).

Definition fail_deploy (v : VirtualMachine) (now : Time) (lastAction lastErr : string) : VirtualMachine :=
  let v := v <| v_Phase := PhaseError |> <| v_LastPowerAction := lastAction |> <| v_LastError := lastErr |> in
  let v := match ps_CompletedAt (v_Provisioning v) with
           | None => v <| v_Provisioning := (v_Provisioning v) <| ps_Active := false |> |>
           | Some _ => v
           end in
  v <| v_UpdatedAt := now |>.

Definition FailDeploy (s : S) (now : Time) (name lastAction lastErr completionToken : string)
  : result (S * VirtualMachine) :=
  v ← vs_Get store s name;
  if ps_CompletionToken (v_Provisioning v) !=? completionToken then Ok (s, v)
  else write_or_not_found s (fail_deploy v now lastAction lastErr).

(** The fallback of the two conditional deletions: get, test, delete. *)
Definition delete_if (test : VirtualMachine → bool) (s : S) (name : string) : result (S * bool) :=
  match vs_Get store s name with
  | Err e => if errors_Is e ErrNotFound then Ok (s, false) else Err e
  | Ok v =>
      if negb (test v) then Ok (s, false) else
      match vs_Delete store s name with
      | Ok s => Ok (s, true)
      | Err e => if errors_Is e ErrNotFound then Ok (s, false) else Err e
      end
  end.

Definition DeleteOwned (s : S) (name hypervisorRef : string) : result (S * bool) :=
  match vs_DeleteOwned store with
  | Some del => del s name hypervisorRef
  | None => delete_if (fun v => v_HypervisorRef v ==? hypervisorRef) s name
  end.

Definition DeleteCreated (s : S) (name completionToken : string) : result (S * bool) :=
  match vs_DeleteCreatedToken store with
  | Some del => del s name completionToken
  | None => delete_if (fun v => ps_CompletionToken (v_Provisioning v) ==? completionToken) s name
  end.

(** deploy.go: stamp the window once its domain is defined, renewing its deadline;
    the result is the store and the caller's snapshot. *)
Definition stamp_defined (p : ProvisioningStatus) (now : Time) : ProvisioningStatus :=
  let p := p <| ps_DomainObservedAt := Some now |> in
  let p := match ps_StartedAt p, ps_DeadlineAt p with
           | Some t0, Some d => p <| ps_DeadlineAt := Some (time_Add now (time_Sub d t0)) |>
           | _, _ => p
           end in
  p <| ps_Active := true |>.

Definition markDomainDefined (s : S) (now : Time) (deployed : VirtualMachine) : S * VirtualMachine :=
  match vs_Get store s (v_Name deployed) with
  | Err _ => (s, deployed)
  | Ok v =>
      let carry (v : VirtualMachine) :=
        deployed <| v_Provisioning := (v_Provisioning deployed)
          <| ps_DomainObservedAt := ps_DomainObservedAt (v_Provisioning v) |>
          <| ps_DeadlineAt := ps_DeadlineAt (v_Provisioning v) |> |> in
      if ps_CompletionToken (v_Provisioning v) !=? ps_CompletionToken (v_Provisioning deployed) then (s, deployed)
      else if (ps_CompletedAt (v_Provisioning v) ==? None) && (ps_DomainObservedAt (v_Provisioning v) ==? None) then
        let v := v <| v_Provisioning := stamp_defined (v_Provisioning v) now |> <| v_UpdatedAt := now |> in
        match writeExisting s v with
        | Err _ | Ok (_, false) => (s, deployed)
        | Ok (s, true) => (s, carry v)
        end
      else (s, carry v)
  end.
End service.

(** ** The in-memory store under the service *)

Lemma memory_get_Ok (m : vms) n v : vs_Get memory_vms m n = Ok v ↔ m !! n = Some v.
Proof. apply mem_get_Ok. Qed.

(** A status write reaches the row iff it is still there. *)
Lemma write_or_not_found_memory (m : vms) v :
  write_or_not_found memory_vms m v =
  match m !! v_Name v with Some _ => Ok (<[v_Name v := v]> m, v) | None => Err ErrNotFound end.
Proof.
  unfold write_or_not_found, writeExisting. cbn [vs_UpdateExisting memory_vms].
  unfold VMStore_UpdateExisting. by destruct (m !! v_Name v).
Qed.

(** The operations that write a status, run between a read and a write of the same
    store, as one relation: the record they write, if any, is the stored one with
    another status. *)
Inductive status_write (m : vms) : vms → Prop :=
| sw_status now name ph act err m' v :
    UpdateStatus memory_vms m now name ph act err = Ok (m', v) → status_write m m'
| sw_deploy now name ph act prov m' v :
    UpdateDeployStatus memory_vms m now name ph act prov = Ok (m', v) → status_write m m'
| sw_missing t1 t2 t3 name act err m' v :
    MarkMissing memory_vms m t1 t2 t3 name act err = Ok (m', v) → status_write m m'
| sw_fail now name act err tok m' v :
    FailDeploy memory_vms m now name act err tok = Ok (m', v) → status_write m m'
| sw_defined now v : status_write m (markDomainDefined memory_vms m now v).1.

Lemma deploy_update_Some v now ph act prov v' :
  deploy_update v now ph act prov = Some v' →
  v' = v <| v_MissingSince := None |> <| v_Phase := ph |> <| v_LastPowerAction := act |>
         <| v_LastError := "" |> <| v_Provisioning := merge_window (v_Provisioning v) prov |> <| v_UpdatedAt := now |>
  ∧ ps_CompletionToken (v_Provisioning v) = ps_CompletionToken prov
  ∧ ps_CompletedAt (v_Provisioning v) = None ∧ window_over v = false.
Proof.
  unfold deploy_update. case_bool_decide as Ht; [|done]. case_bool_decide as Hc; [|done].
  destruct (window_over v); [done|]. cbn [negb]. intros H. injection H as <-. done.
Qed.

Lemma deploy_update_name v now ph act prov v' :
  deploy_update v now ph act prov = Some v' → v_Name v' = v_Name v.
Proof. intros [-> _]%deploy_update_Some. done. Qed.

(** The compare-and-swap. *)
Lemma UpdateProvisioningAttempt_spec (m : vms) before after m' written :
  VMStore_UpdateProvisioningAttempt m before after = Ok (m', written) →
  if written then m !! v_Name before = Some before ∧ v_Name after = v_Name before
                  ∧ ps_CompletionToken (v_Provisioning after) = ps_CompletionToken (v_Provisioning before)
                  ∧ ps_AttemptID (v_Provisioning after) = ps_AttemptID (v_Provisioning before)
                  ∧ m' = <[v_Name after := after]> m
  else m' = m.
Proof.
  unfold VMStore_UpdateProvisioningAttempt. destruct (m !! v_Name before) as [cur|]; [|by intros [= <- <-]].
  destruct (_ || _) eqn:E; intros H; injection H as <- <-; [done|].
  rewrite !orb_false_iff, !negb_false_iff, !bool_decide_eq_true in E. destruct E as [[[? ?] ?] ->]. done.
Qed.

(** The result of a status write: the store unchanged, or one existing record
    replaced by one of the same name. *)
Lemma status_write_cases m m' : mem_ok m → status_write m m' →
  m' = m ∨ ∃ v v', m !! v_Name v = Some v ∧ v_Name v' = v_Name v ∧ m' = <[v_Name v := v']> m.
Proof.
  intros Hok Hw.
  assert (Hwrite : ∀ v v' m' r, m !! v_Name v = Some v → v_Name v' = v_Name v →
    write_or_not_found memory_vms m v' = Ok (m', r) → m' = <[v_Name v := v']> m).
  { intros v v' m'' r Hv Hn. rewrite write_or_not_found_memory, Hn, Hv. by intros [= <- <-]. }
  assert (Hget : ∀ n v, vs_Get memory_vms m n = Ok v → m !! v_Name v = Some v).
  { intros n v Hg%memory_get_Ok. rewrite (Hok _ _ Hg : v_Name v = n). done. }
  destruct Hw as [now name ph act err m' v H|now name ph act prov m' v H|t1 t2 t3 name act err m' v H
    |now name act err tok m' v H|now v].
  - unfold UpdateStatus in H. destruct (vs_Get _ _ _) as [v0|] eqn:Hg; [|done]. cbn [mbind result_bind] in H.
    apply Hget in Hg. right. eexists v0, _. split; [done|]. split; [|by eapply (Hwrite v0); [done| |exact H]]; done.
  - unfold UpdateDeployStatus in H. destruct (vs_Get _ _ _) as [v0|] eqn:Hg; [|done]. cbn [mbind result_bind] in H.
    apply Hget in Hg. destruct (deploy_update _ _ _ _ _) as [v1|] eqn:Hd; [|injection H as <- _; by left].
    apply deploy_update_name in Hd. destruct (is_windows_vm v1).
    + cbn [vs_UpdateProvisioningAttempt memory_vms] in H.
      destruct (VMStore_UpdateProvisioningAttempt m v0 v1) as [[m1 w]|] eqn:Hc; [|done].
      cbn [mbind result_bind] in H. pose proof (UpdateProvisioningAttempt_spec _ _ _ _ _ Hc) as Hs.
      destruct w.
      * injection H as <- _. destruct Hs as (? & ? & _ & _ & ->). right. exists v0, v1. by rewrite Hd.
      * subst m1. destruct (vs_Get _ _ _); [|done]. injection H as <- _. by left.
    + right. exists v0, v1. split; [done|]. split; [done|]. by eapply Hwrite.
  - unfold MarkMissing in H. destruct (vs_Get _ _ _) as [v0|] eqn:Hg; [|done]. cbn [mbind result_bind] in H.
    apply Hget in Hg. destruct (vmDeployInFlight _ _); [injection H as <- _; by left|].
    assert (Hn : v_Name (mark_missing v0 t2 t3 act err) = v_Name v0) by (unfold mark_missing; by destruct (_ || _)).
    right. eexists v0, _. split; [done|]. split; [exact Hn|]. by eapply Hwrite.
  - unfold FailDeploy in H. destruct (vs_Get _ _ _) as [v0|] eqn:Hg; [|done]. cbn [mbind result_bind] in H.
    apply Hget in Hg. destruct (negb _); [injection H as <- _; by left|].
    assert (Hn : v_Name (fail_deploy v0 now act err) = v_Name v0) by (unfold fail_deploy; by destruct (ps_CompletedAt _)).
    right. eexists v0, _. split; [done|]. split; [exact Hn|]. by eapply Hwrite.
  - unfold markDomainDefined. destruct (vs_Get _ _ _) as [v0|] eqn:Hg; [|by left]. apply Hget in Hg.
    destruct (negb _); [by left|]. destruct (_ && _); [|by left].
    set (v1 := v0 <| v_Provisioning := _ |> <| v_UpdatedAt := _ |>).
    assert (Hn : v_Name v1 = v_Name v0) by done.
    unfold writeExisting. cbn [vs_UpdateExisting memory_vms]. unfold VMStore_UpdateExisting. rewrite Hn, Hg. right. by exists v0, v1.
Qed.

(** Status writes never resurrect a deleted machine.  However status updates,
    deploy completions, missing marks, failures and domain stamps are sequenced,
    the set of stored names does not change: none of them creates a record, and
    once a record is gone a write computed from an earlier read of it is refused. *)
Lemma status_writes_keep_names (m m' : vms) (Hok : mem_ok m) (Hreach : rtc status_write m m') :
  dom m' = dom m ∧ mem_ok m'
  ∧ ∀ v, v_Name v ∉ dom m' →
      write_or_not_found memory_vms m' v = Err ErrNotFound
      ∧ ∀ after, VMStore_UpdateProvisioningAttempt m' v after = Ok (m', false).
Proof.
  assert (Hdom : dom m' = dom m ∧ mem_ok m').
  { induction Hreach as [m|m m1 m2 Hstep _ IH]; [done|].
    assert (dom m1 = dom m ∧ mem_ok m1) as [Hd Hok1].
    { destruct (status_write_cases _ _ Hok Hstep) as [->|(v & v' & Hv & Hn & ->)]; [done|]. split.
      - rewrite dom_insert_L. apply elem_of_dom_2 in Hv. set_solver.
      - intros n x. rewrite lookup_insert_Some. intros [[<- <-]|[_ Hx]]; [exact Hn|by apply Hok]. }
    destruct (IH Hok1) as [-> ?]. by rewrite Hd. }
  destruct Hdom as [Hd Hok']. split_and!; [done..|]. intros v Hv%not_elem_of_dom. split.
  - by rewrite write_or_not_found_memory, Hv.
  - intros after. unfold VMStore_UpdateProvisioningAttempt. by rewrite Hv.
Qed.

Definition no_window : ProvisioningStatus :=
  mkProvisioningStatus false "" false false None None None "" "" None None.

Definition sample_vm (name token : string) : VirtualMachine :=
  mkVirtualMachine name "hv-1" (mkResourceSpec 2 2048 20) "img" "" [] [] "dhcp" "" "" None "libvirt" None [] None
    "Provisioning" "" "" [] []
    (no_window <| ps_Active := true |> <| ps_CompletionToken := token |> <| ps_StartedAt := Some 10 |>
       <| ps_DeadlineAt := Some 110 |>) "" "" "" None "" 0 0.

Lemma status_writes_keep_names_witness :
  let m := {[ "vm-1" := sample_vm "vm-1" "tok" ]} : vms in
  ∃ m', status_write m m' ∧ dom m' = dom m.
Proof.
  intros m.
  destruct (FailDeploy memory_vms m 50 "vm-1" "define" "boom" "tok") as [[m' v]|e] eqn:E;
    [|vm_compute in E; discriminate E].
  exists m'. assert (Hs : status_write m m') by (exact (sw_fail m _ _ _ _ _ _ _ E)). split; [exact Hs|].
  refine (proj1 (status_writes_keep_names m m' _ (rtc_once _ _ Hs))).
  intros n x. unfold m. rewrite lookup_singleton_Some. intros [<- <-]. reflexivity.
Defined.

(** ** The fence between deployments *)

(** C4: a deployment writes only the provisioning window it armed.  When the stored
    record carries another completion token (the machine was redeployed, or deleted
    and created again), the completion, the failure, the domain stamp and the
    rollback of the older deployment all leave the store as it is. *)
Theorem stale_deploy_fenced (m : vms) (name : string) (stored : VirtualMachine) (stale : string)
  (Hstored : m !! name = Some stored) (Hstale : ps_CompletionToken (v_Provisioning stored) ≠ stale) :
  (∀ now ph act prov, ps_CompletionToken prov = stale →
     UpdateDeployStatus memory_vms m now name ph act prov = Ok (m, stored))
  ∧ (∀ now act err, FailDeploy memory_vms m now name act err stale = Ok (m, stored))
  ∧ (∀ now deployed, v_Name deployed = name → ps_CompletionToken (v_Provisioning deployed) = stale →
       markDomainDefined memory_vms m now deployed = (m, deployed))
  ∧ DeleteCreated memory_vms m name stale = Ok (m, false)
  ∧ (∀ before after, v_Name before = name → ps_CompletionToken (v_Provisioning before) = stale →
       VMStore_UpdateProvisioningAttempt m before after = Ok (m, false)).
Proof.
  assert (Hget : vs_Get memory_vms m name = Ok stored) by (by apply memory_get_Ok).
  split_and!.
  - intros now ph act prov Hp. unfold UpdateDeployStatus. rewrite Hget. cbn [mbind result_bind].
    unfold deploy_update. by rewrite bool_decide_eq_false_2 by congruence.
  - intros now act err. unfold FailDeploy. rewrite Hget. cbn [mbind result_bind].
    by rewrite bool_decide_eq_false_2.
  - intros now d Hn Ht. unfold markDomainDefined. rewrite Hn, Hget. by rewrite bool_decide_eq_false_2 by congruence.
  - unfold DeleteCreated. cbn [vs_DeleteCreatedToken memory_vms]. unfold VMStore_DeleteCreatedToken.
    by rewrite Hstored, bool_decide_eq_false_2.
  - intros before after Hn Ht. unfold VMStore_UpdateProvisioningAttempt. rewrite Hn, Hstored.
    rewrite (bool_decide_eq_false_2 (stored = before)) by congruence. by rewrite !orb_true_r.
Qed.

Lemma stale_deploy_fenced_witness :
  FailDeploy memory_vms {[ "vm-1" := sample_vm "vm-1" "new" ]} 50 "vm-1" "define" "boom" "old"
  = Ok ({[ "vm-1" := sample_vm "vm-1" "new" ]}, sample_vm "vm-1" "new").
Proof.
  apply (stale_deploy_fenced {[ "vm-1" := sample_vm "vm-1" "new" ]} "vm-1" (sample_vm "vm-1" "new") "old");
    [reflexivity|discriminate].
Defined.

(** ** Completing a deployment *)

Lemma merge_window_spec stored snap :
  let p := merge_window stored snap in
  ps_Active p = ps_Active snap ∧ ps_CompletionToken p = ps_CompletionToken snap
  ∧ ps_CompletedAt p = ps_CompletedAt snap
  ∧ ps_DomainObservedAt p = match ps_DomainObservedAt snap with Some t => Some t | None => ps_DomainObservedAt stored end
  ∧ (∀ d, ps_DeadlineAt stored = Some d → ∃ d', ps_DeadlineAt p = Some d' ∧ d <= d')
  ∧ (∀ d, ps_DeadlineAt snap = Some d → ∃ d', ps_DeadlineAt p = Some d' ∧ d <= d')
  ∧ (ps_WindowsInstallStarted stored = true → ps_WindowsInstallStarted p = true)
  ∧ (ps_ImageApplied stored = true → ps_ImageApplied p = true).
Proof.
  destruct stored as [w1 a1 i1 ac1 s1 d1 c1 t1 cs1 l1 o1], snap as [w2 a2 i2 ac2 s2 d2 c2 t2 cs2 l2 o2].
  unfold merge_window, time_After.
  destruct o2, d1 as [d1|]; simpl; try destruct d2 as [d2|]; simpl; try destruct (d2 <? d1) eqn:E; simpl;
    split_and!; try done; try (by intros ->; rewrite orb_true_r);
    intros d [= <-]; eexists; (split; [reflexivity|lia]).
Qed.

(** The completion of a deployment re-arms its window and loses nothing.  On a
    record that still carries the deployment's token, has not completed and was not
    ended for good, it sets the phase and restores the window: the domain-defined
    marker is kept, the deadline never moves earlier than either the stored or the
    restored one, and the Windows-installation and image-applied markers are never
    cleared.  A completed window, a window whose domain was removed after it was
    seen, and a window that ended in an error stay as they are. *)
Lemma deploy_completion_spec (m : vms) (name : string) (v : VirtualMachine) (now : Time) (ph : Phase)
  (act : string) (prov : ProvisioningStatus) (Hstored : m !! name = Some v) (Hname : v_Name v = name)
  (Htoken : ps_CompletionToken (v_Provisioning v) = ps_CompletionToken prov)
  (Hattempt : ps_AttemptID (v_Provisioning v) = ps_AttemptID prov) :
  (ps_CompletedAt (v_Provisioning v) ≠ None ∨ window_over v = true →
     UpdateDeployStatus memory_vms m now name ph act prov = Ok (m, v))
  ∧ (ps_CompletedAt (v_Provisioning v) = None → window_over v = false →
     ∃ v', UpdateDeployStatus memory_vms m now name ph act prov = Ok (<[name := v']> m, v')
       ∧ v_Name v' = name ∧ v_Phase v' = ph ∧ v_LastError v' = "" ∧ v_MissingSince v' = None
       ∧ let p := v_Provisioning v' in
         ps_Active p = ps_Active prov ∧ ps_CompletionToken p = ps_CompletionToken prov
         ∧ (ps_DomainObservedAt (v_Provisioning v) ≠ None → ps_DomainObservedAt p ≠ None)
         ∧ (∀ d, ps_DeadlineAt (v_Provisioning v) = Some d → ∃ d', ps_DeadlineAt p = Some d' ∧ d <= d')
         ∧ (∀ d, ps_DeadlineAt prov = Some d → ∃ d', ps_DeadlineAt p = Some d' ∧ d <= d')
         ∧ (ps_WindowsInstallStarted (v_Provisioning v) = true → ps_WindowsInstallStarted p = true)
         ∧ (ps_ImageApplied (v_Provisioning v) = true → ps_ImageApplied p = true)).
Proof.
  assert (Hget : vs_Get memory_vms m name = Ok v) by (by apply memory_get_Ok).
  split.
  - intros Hover. unfold UpdateDeployStatus. rewrite Hget. cbn [mbind result_bind]. unfold deploy_update.
    rewrite bool_decide_eq_true_2 by done. cbn [negb]. destruct Hover as [Hc | ->].
    + by rewrite bool_decide_eq_false_2.
    + by destruct (bool_decide _).
  - intros Hc Hw. destruct (deploy_update v now ph act prov) as [v'|] eqn:Hd; cycle 1.
    { unfold deploy_update in Hd. rewrite !bool_decide_eq_true_2, Hw in Hd by done. done. }
    exists v'. pose proof (deploy_update_Some _ _ _ _ _ _ Hd) as [Hv' _].
    destruct (merge_window_spec (v_Provisioning v) prov) as (M1 & M2 & M3 & M4 & M5 & M6 & M7 & M8).
    assert (Hn : v_Name v' = name) by (by rewrite Hv').
    split.
    + unfold UpdateDeployStatus. rewrite Hget. cbn [mbind result_bind]. rewrite Hd.
      destruct (is_windows_vm v'); [|by rewrite write_or_not_found_memory, Hn, Hstored].
      cbn [vs_UpdateProvisioningAttempt memory_vms]. unfold VMStore_UpdateProvisioningAttempt.
      rewrite Hname, Hstored, Hn. rewrite !bool_decide_eq_true_2; [done|done|..].
      * rewrite Hv'. change (ps_AttemptID (v_Provisioning v) = ps_AttemptID (merge_window (v_Provisioning v) prov)).
        rewrite Hattempt. symmetry. unfold merge_window.
        destruct (ps_DomainObservedAt prov); destruct (ps_DeadlineAt (v_Provisioning v)); simpl; by repeat case_match.
      * rewrite Hv'. change (ps_CompletionToken (v_Provisioning v) = ps_CompletionToken (merge_window (v_Provisioning v) prov)).
        by rewrite M2.
      * done.
    + assert (Hp : v_Provisioning v' = merge_window (v_Provisioning v) prov) by (by rewrite Hv').
      cbv zeta. rewrite Hp. split_and!; try done; try (by rewrite Hv').
      intros Ho. rewrite M4. by destruct (ps_DomainObservedAt prov).
Qed.

Lemma deploy_completion_spec_witness :
  ∃ v', UpdateDeployStatus memory_vms {[ "vm-1" := sample_vm "vm-1" "tok" ]} 50 "vm-1" PhaseProvisioning "create+pxe"
          (v_Provisioning (sample_vm "vm-1" "tok"))
        = Ok (<[ "vm-1" := v' ]> {[ "vm-1" := sample_vm "vm-1" "tok" ]}, v') ∧ v_Phase v' = PhaseProvisioning.
Proof.
  pose (m := {[ "vm-1" := sample_vm "vm-1" "tok" ]} : vms).
  assert (Hm : m !! "vm-1" = Some (sample_vm "vm-1" "tok")) by reflexivity.
  destruct (deploy_completion_spec m "vm-1" (sample_vm "vm-1" "tok") 50
    PhaseProvisioning "create+pxe" (v_Provisioning (sample_vm "vm-1" "tok")) Hm eq_refl eq_refl eq_refl) as [_ H].
  destruct (H eq_refl eq_refl) as (v' & Hu & _ & Hp & _). exists v'. split; [exact Hu|exact Hp].
Defined.

(** ** The compare-and-swap of callbacks *)

(** Of two callbacks computed from the same snapshot at most one is committed.
    A compare-and-swap succeeds only if the stored record is exactly the snapshot,
    and then stores the new record under the same name, token and attempt; once it
    has stored a record that differs from the snapshot, every other update from that
    snapshot is refused and leaves the store as it is. *)
Lemma provisioning_cas (m m1 : vms) (before after : VirtualMachine)
  (Hfirst : VMStore_UpdateProvisioningAttempt m before after = Ok (m1, true)) :
  m !! v_Name before = Some before ∧ m1 = <[v_Name before := after]> m
  ∧ ps_CompletionToken (v_Provisioning after) = ps_CompletionToken (v_Provisioning before)
  ∧ ps_AttemptID (v_Provisioning after) = ps_AttemptID (v_Provisioning before)
  ∧ (after ≠ before → ∀ after', VMStore_UpdateProvisioningAttempt m1 before after' = Ok (m1, false)).
Proof.
  apply UpdateProvisioningAttempt_spec in Hfirst as (Hb & Hn & Ht & Ha & ->). rewrite Hn in *.
  split_and!; try done. intros Hne after'. unfold VMStore_UpdateProvisioningAttempt. rewrite lookup_insert_eq.
  rewrite (bool_decide_eq_false_2 (after = before)) by done. by rewrite !orb_true_r.
Qed.

Lemma provisioning_cas_witness :
  let v := sample_vm "vm-1" "tok" in
  VMStore_UpdateProvisioningAttempt (<[ "vm-1" := v <| v_Phase := PhaseRunning |> ]> {[ "vm-1" := v ]}) v
    (v <| v_Phase := PhaseStopped |>)
  = Ok (<[ "vm-1" := v <| v_Phase := PhaseRunning |> ]> {[ "vm-1" := v ]}, false).
Proof.
  intros v. pose (m := {[ "vm-1" := v ]} : vms).
  assert (Hm : VMStore_UpdateProvisioningAttempt m v (v <| v_Phase := PhaseRunning |>)
    = Ok (<[ "vm-1" := v <| v_Phase := PhaseRunning |> ]> m, true)) by reflexivity.
  destruct (provisioning_cas m _ v (v <| v_Phase := PhaseRunning |>) Hm) as (_ & _ & _ & _ & H).
  apply H. discriminate.
Defined.

(** Stamping a window twice changes nothing the second time: the deadline is renewed
    once, to a full window from the definition of the domain. *)
Lemma stamp_once (m : vms) now now' d m1 d1 :
  mem_ok m → markDomainDefined memory_vms m now d = (m1, d1) → m1 ≠ m →
  (markDomainDefined memory_vms m1 now' d1).1 = m1.
Proof.
  intros Hok. unfold markDomainDefined at 1.
  destruct (vs_Get memory_vms m (v_Name d)) as [v|] eqn:Hg; [|by intros [= <- <-]].
  apply memory_get_Ok in Hg. pose proof (Hok _ _ Hg : v_Name v = v_Name d) as Hn.
  case_bool_decide as Ht; [|by intros [= <- <-]]. cbn [negb].
  destruct (_ && _); [|by intros [= <- <-]].
  set (v1 := v <| v_Provisioning := _ |> <| v_UpdatedAt := _ |>).
  assert (Hv1 : v_Name v1 = v_Name d) by done.
  assert (Ho : ps_DomainObservedAt (v_Provisioning v1) = Some now).
  { unfold v1, stamp_defined. simpl. by destruct (ps_StartedAt (v_Provisioning v)), (ps_DeadlineAt (v_Provisioning v)). }
  unfold writeExisting. cbn [vs_UpdateExisting memory_vms]. unfold VMStore_UpdateExisting.
  rewrite Hv1, Hg. clearbody v1. intros H _. injection H as <- Hd1.
  assert (Hdn : v_Name d1 = v_Name d) by (by rewrite <- Hd1). unfold markDomainDefined. rewrite Hdn.
  assert (vs_Get memory_vms (<[v_Name d := v1]> m) (v_Name d) = Ok v1) as ->.
  { apply memory_get_Ok, lookup_insert_eq. }
  destruct (negb _); [done|]. rewrite Ho. by rewrite (bool_decide_eq_false_2 (Some now = None)), andb_false_r.
Qed.
