(* ===== verification/RuntimeSync.v ===== *)
(** * internal/vm: reconciling records with the hypervisors

    The runtime synchronisation of virtual machines (runtime_sync.go): what the
    libvirt domain looks like is folded into the stored record, one machine at a
    time or hypervisor by hypervisor, and the migration of a machine (migrate.go).
    The libvirt connection is a parameter: an [Executor] gives the answers of the
    two queries the synchronisation makes. *)
From S2P Require Import Prelude GoStrings Resource Store Hypervisor Libvirt Vm VmStore.

(** ** The answers of libvirt *)

(** [DomainInterfaces] returns a slice and an error; the caller logs the error and
    uses the slice. *)
Record Executor := mkExecutor {
  ex_DomainInfo : string → result DomainState;
  ex_DomainInterfaces : string → list InterfaceInfo }.

(** domain_config.go *)
Definition BuildLibvirtConfig (h : Hypervisor) : LibvirtConfig :=
  let port := cn_Port (hv_Connection h) in
  mkLibvirtConfig (cn_Host (hv_Connection h)) (if port =? 0 then 16509 else port).

(** ** Phases and addresses *)

Definition MapVMPhaseFromDomainState (state : DomainState) (current : Phase) (p : ProvisioningStatus) : Phase :=
  if ps_Active p && (ps_CompletedAt p ==? None) then
    if state ==? StateCrashed then PhaseError else PhaseProvisioning
  else if state ==? StateRunning then PhaseRunning
  else if state ==? StateShutoff then PhaseStopped
  else if state ==? StatePaused then PhaseStopped
  else if state ==? StateCrashed then PhaseError
  else current.

(** The order of interfaces: by name, then by MAC.  [sort.Slice] is not stable:
    interfaces with the same name and the same MAC may come out in any order; they
    keep their order here. *)
Definition status_le (a b : NetworkInterfaceStatus) : Prop :=
  if decide (nis_Name a = nis_Name b) then String.le (nis_MAC a) (nis_MAC b)
  else String.le (nis_Name a) (nis_Name b).
Global Instance status_le_dec : RelDecision status_le.
Proof. intros a b. unfold status_le. case_decide; apply _. Defined.

Definition not_blank (ip : string) : Prop := TrimSpace ip ≠ "".
Global Instance not_blank_dec ip : Decision (not_blank ip).
Proof. unfold not_blank. apply _. Defined.

Definition convert_interface (i : InterfaceInfo) : NetworkInterfaceStatus :=
  mkNetworkInterfaceStatus (if_Name i) (norm_mac (if_MAC i)) (sort_Strings (if_IPAddresses i)).

Definition ConvertRuntimeInterfaces (interfaces : list InterfaceInfo) : list NetworkInterfaceStatus * list string :=
  match interfaces with
  | [] => ([], [])
  | _ => (merge_sort status_le (convert_interface <$> interfaces),
          sorted_set (list_to_set (filter not_blank (interfaces ≫= (sort_Strings ∘ if_IPAddresses)))))
  end.

Definition bootstrapNetworkStatusesFromVM (v : VirtualMachine) : list NetworkInterfaceStatus :=
  match v_Network v with
  | _ :: _ => (fun nic => mkNetworkInterfaceStatus (ni_Name nic) (norm_mac (ni_MAC nic)) []) <$> v_Network v
  | [] => (fun nic => mkNetworkInterfaceStatus (nis_Name nic) (norm_mac (nis_MAC nic)) []) <$> v_NetworkInterfaces v
  end.

Definition prependUniqueIP (primary : string) (ips : list string) : list string :=
  let normalized := TrimSpace primary in
  if normalized ==? "" then ips
  else normalized :: filter (fun ip => ip ≠ "" ∧ ip ≠ normalized) (TrimSpace <$> ips).

(** The address leased to an interface, if any. *)
Definition lease_of (leases : gmap string string) (n : NetworkInterfaceStatus) : string :=
  let mac := norm_mac (nis_MAC n) in
  if mac ==? "" then "" else TrimSpace (default "" (leases !! mac)).

Definition add_lease (leases : gmap string string) (n : NetworkInterfaceStatus) : NetworkInterfaceStatus :=
  let ip := lease_of leases n in
  if ip ==? "" then n else n <| nis_IPAddresses := prependUniqueIP ip (nis_IPAddresses n) |>.

Definition MergeRuntimeLeaseIPs (v : VirtualMachine) (statuses : list NetworkInterfaceStatus) (ips : list string)
  (leases : gmap string string) : list NetworkInterfaceStatus * list string :=
  if leases ==? ∅ then (statuses, ips) else
  let statuses := match statuses with [] => bootstrapNetworkStatusesFromVM v | _ => statuses end in
  let known := filter (fun ip => ip ≠ "") (TrimSpace <$> ips) in
  let leased := filter (fun ip => ip ≠ "") (lease_of leases <$> statuses) in
  (add_lease leases <$> statuses, sorted_set (list_to_set known ∪ list_to_set leased)).

(** [reflect.DeepEqual] on the three composite fields, with nil and empty slices
    identified. *)
Definition VMStatusChanged (before after : VirtualMachine) : bool :=
  (v_Phase before !=? v_Phase after)
  || (v_LastError before !=? v_LastError after)
  || (v_MissingSince before !=? v_MissingSince after)
  || (v_HypervisorName before !=? v_HypervisorName after)
  || (v_CreatedOnHost before !=? v_CreatedOnHost after)
  || (v_LibvirtDomain before !=? v_LibvirtDomain after)
  || (v_IPAddresses before !=? v_IPAddresses after)
  || (v_NetworkInterfaces before !=? v_NetworkInterfaces after)
  || (v_Provisioning before !=? v_Provisioning after).

(** ** The records a synchronisation computes *)

Definition domain_name (v : VirtualMachine) : string :=
  let n := TrimSpace (v_LibvirtDomain v) in if n ==? "" then v_Name v else n.

Definition TimeoutError : string := "provisioning timed out waiting for install completion signal".

(** The record of a machine whose domain was found. *)
Definition found_vm (hv : Hypervisor) (v : VirtualMachine) (now : Time) (state : DomainState)
  (interfaces : list InterfaceInfo) (leases : gmap string string) : VirtualMachine :=
  let '(statuses, ips) := ConvertRuntimeInterfaces interfaces in
  let '(statuses, ips) := MergeRuntimeLeaseIPs v statuses ips leases in
  let u := if v_Phase v ==? PhaseMissing then v <| v_LastError := "" |> <| v_MissingSince := None |> else v in
  let u := if IsProvisioningTimedOut (v_Provisioning u) now
           then u <| v_Provisioning := (v_Provisioning u) <| ps_Active := false |> |>
                  <| v_Phase := PhaseError |> <| v_LastError := TimeoutError |>
           else u <| v_Phase := MapVMPhaseFromDomainState state (v_Phase v) (v_Provisioning v) |> in
  let u := if v_Phase u ==? PhaseMissing then u <| v_Phase := PhaseStopped |> else u in
  u <| v_HypervisorName := hv_Name hv |> <| v_CreatedOnHost := hv_Name hv |>
    <| v_LibvirtDomain := domain_name v |> <| v_IPAddresses := ips |> <| v_NetworkInterfaces := statuses |>.

(** The record of a machine whose domain is gone. *)
Definition missing_vm (hv : Hypervisor) (v : VirtualMachine) (now : Time) : VirtualMachine :=
  let u := v <| v_Phase := PhaseMissing |>
             <| v_LastError := "libvirt domain " +:+ domain_name v +:+ " not found on hypervisor " +:+ hv_Name hv |>
             <| v_HypervisorName := hv_Name hv |> <| v_LibvirtDomain := domain_name v |>
             <| v_IPAddresses := [] |> <| v_NetworkInterfaces := [] |>
             <| v_Provisioning := (v_Provisioning v) <| ps_Active := false |> |> in
  if (v_Phase v !=? PhaseMissing) || (v_MissingSince u ==? None) then u <| v_MissingSince := Some now |> else u.

(** The clock readings of one synchronisation: the in-flight test, the transition
    to Missing or the deadline test, the update time. *)
Record SyncClock := mkSyncClock { sc_flight : Time; sc_now : Time; sc_update : Time }.

Section sync.
Context {S : Type} (store : VMStore S).

(** The store [s] is the one at the time of the write; [before] was read earlier.
    The record Go returns beside an error is not modelled: every caller drops it. *)
Definition persistSyncedVM (s : S) (t_update : Time) (before updated : VirtualMachine)
  : S * result VirtualMachine :=
  if negb (VMStatusChanged before updated) then (s, Ok before) else
  let updated := updated <| v_UpdatedAt := t_update |> in
  let failed (e : error) := (s, Err (ErrWrap "persist synced vm status: " e "")) in
  if is_windows_vm before then
    match vs_UpdateProvisioningAttempt store with
    | None => (s, Err ErrNoAtomicUpdate)
    | Some update =>
        match update s before updated with
        | Err e => failed e
        | Ok (s, true) => (s, Ok updated)
        | Ok (s, false) => (s, vs_Get store s (v_Name before))
        end
    end
  else
    match writeExisting store s updated with
    | Err e => failed e
    | Ok (s, true) => (s, Ok updated)
    | Ok (s, false) => (s, Ok before)
    end.

Definition markVMMissing (s : S) (t_missing t_update : Time) (hv : Hypervisor) (v : VirtualMachine)
  : S * result VirtualMachine :=
  persistSyncedVM s t_update v (missing_vm hv v t_missing).

Definition syncWithExecutor (s : S) (clk : SyncClock) (hv : Hypervisor) (exec : Executor) (v : VirtualMachine)
  (leases : gmap string string) : S * result VirtualMachine :=
  let domainName := domain_name v in
  match ex_DomainInfo exec domainName with
  | Err e =>
      if IsDomainNotFoundError e then
        if vmDeployInFlight v (sc_flight clk) then (s, Ok v)
        else markVMMissing s (sc_now clk) (sc_update clk) hv v
      else (s, Err (ErrWrap ("domain info " +:+ domainName +:+ ": ") e ""))
  | Ok state =>
      persistSyncedVM s (sc_update clk) v
        (found_vm hv v (sc_now clk) state (ex_DomainInterfaces exec domainName) leases)
  end.

(** *** With a time limit

    The synchronisation runs in a goroutine of its own and the caller waits for
    the first of three events.  When the caller gives up, the goroutine may or may
    not have written the record. *)
Inductive first_event : Type :=
| SyncDone
| CtxDone (e : error) (written : bool)
| TimerFired (written : bool).

(** Everything a round of synchronisation meets from outside: the connection to a
    hypervisor, the clock readings and the outcome of the race for each machine,
    the state of the context at each test, the clock readings for a hypervisor. *)
Record World := mkWorld {
  w_factory : LibvirtConfig → result Executor;
  w_clock : VirtualMachine → SyncClock;
  w_event : VirtualMachine → first_event;
  w_ctx_vm : VirtualMachine → option error;
  w_ctx_hv : string → option error;
  w_ctx_failed : string → option error;
  w_skip_clock : string → Time;
  w_mark_clock : string → Time }.

(** The configured limits, and their rendering in messages. *)
Record Limits := mkLimits { li_OperationTimeout : Duration; li_RetryInterval : Duration; li_show : Duration → string }.

Context (lim : Limits) (w : World).

Definition operationTimeout : Duration :=
  if 0 <? li_OperationTimeout lim then li_OperationTimeout lim else 5 * Second.
Definition retryInterval : Duration :=
  if 0 <? li_RetryInterval lim then li_RetryInterval lim else 30 * Second.

Definition syncVMWithTimeout (s : S) (hv : Hypervisor) (exec : Executor) (v : VirtualMachine)
  (leases : gmap string string) : S * result VirtualMachine :=
  let done := syncWithExecutor s (w_clock w v) hv exec v leases in
  match w_event w v with
  | SyncDone => done
  | CtxDone e written => (if written then done.1 else s, Err e)
  | TimerFired written =>
      (if written then done.1 else s,
       Err (ErrWrap ("runtime query timed out after " +:+ li_show lim operationTimeout +:+ ": ") ErrDeadlineExceeded ""))
  end.

Definition connectExecutor (hv : Hypervisor) : result Executor :=
  match w_factory w (BuildLibvirtConfig hv) with
  | Ok exec => Ok exec
  | Err e => Err (if errors_Is e ErrDeadlineExceeded
                  then ErrWrap ("libvirt connect timed out after " +:+ li_show lim operationTimeout +:+ ": ") e ""
                  else e)
  end.

(** *** One machine, and a page of machines *)

(** [get] resolves a hypervisor, possibly through a cache. *)
Definition sync {C : Type} (get : C → string → C * result Hypervisor) (c : C) (s : S) (v : VirtualMachine)
  (leases : gmap string string) : C * (S * result VirtualMachine) :=
  if TrimSpace (v_HypervisorRef v) ==? "" then (c, (s, Ok v)) else
  match get c (v_HypervisorRef v) with
  | (c, Err e) => (c, (s, Err (ErrWrap ("get hypervisor " +:+ v_HypervisorRef v +:+ ": ") e "")))
  | (c, Ok hv) =>
      match connectExecutor hv with
      | Err e => (c, (s, Err (ErrWrap ("connect hypervisor " +:+ hv_Name hv +:+ ": ") e "")))
      | Ok exec => (c, syncVMWithTimeout s hv exec v leases)
      end
  end.

(** [s.Hypervisors.Get]. *)
Definition get_hypervisor (hs : gmap string Hypervisor) (_ : unit) (ref : string) : unit * result Hypervisor :=
  (tt, mem_get hs ref).

Definition Sync (hs : gmap string Hypervisor) (s : S) (v : VirtualMachine) (leases : gmap string string)
  : S * result VirtualMachine := (sync (get_hypervisor hs) tt s v leases).2.

(** The closure [get] of [SyncList]: only successful lookups are kept. *)
Definition cached_get (hs : gmap string Hypervisor) (cache : gmap string Hypervisor) (ref : string)
  : gmap string Hypervisor * result Hypervisor :=
  match cache !! ref with
  | Some hv => (cache, Ok hv)
  | None => match mem_get hs ref with
            | Err e => (cache, Err e)
            | Ok hv => (<[ref := hv]> cache, Ok hv)
            end
  end.

Fixpoint sync_items (hs cache : gmap string Hypervisor) (s : S) (items : list VirtualMachine)
  (leases : gmap string string) : S * list VirtualMachine :=
  match items with
  | [] => (s, [])
  | v :: items =>
      let '(cache, (s, r)) := sync (cached_get hs) cache s v leases in
      let '(s, out) := sync_items hs cache s items leases in
      (s, match r with Ok synced => synced | Err _ => v end :: out)
  end.

Definition SyncList (hs : gmap string Hypervisor) (s : S) (items : list VirtualMachine) (leases : gmap string string)
  : S * list VirtualMachine := sync_items hs ∅ s items leases.

(** *** All machines, hypervisor by hypervisor *)

Definition skipUnreachableHypervisor (hv : Hypervisor) (now : Time) : bool :=
  if (hv_Phase hv !=? PhaseUnreachable) || (TrimSpace (hv_LastError hv) ==? "") then false
  else time_Sub now (hv_UpdatedAt hv) <? retryInterval.

(** The loop of [syncHypervisor]: the store, the number of successes and the first
    failure; a cancelled or expired context ends the loop. *)
Fixpoint sync_loop (s : S) (hv : Hypervisor) (exec : Executor) (items : list VirtualMachine)
  (leases : gmap string string) (count : Z) (firstErr : option error) : S * result (Z * option error) :=
  match items with
  | [] => (s, Ok (count, firstErr))
  | v :: items =>
      match w_ctx_vm w v with
      | Some e => (s, Err e)
      | None =>
          match syncVMWithTimeout s hv exec v leases with
          | (s, Ok _) => sync_loop s hv exec items leases (count + 1) firstErr
          | (s, Err e) =>
              if errors_Is e ErrCanceled || errors_Is e ErrDeadlineExceeded then (s, Err e)
              else sync_loop s hv exec items leases count (match firstErr with None => Some e | _ => firstErr end)
          end
      end
  end.

Definition markHypervisorReachable (st : HvState) (now : Time) (hv : Hypervisor) : HvState :=
  if (hv_Phase hv ==? PhaseReady) && (TrimSpace (hv_LastError hv) ==? "") then st
  else match Hypervisor.UpdateStatus st now (hv_Name hv) PhaseReady None None "" "" with
       | Ok (st, _) => st
       | Err _ => st
       end.

Definition markHypervisorUnreachable (st : HvState) (now : Time) (hv : Hypervisor) (cause : error) : HvState :=
  match Hypervisor.UpdateStatus st now (hv_Name hv) PhaseUnreachable None None "" (Error cause) with
  | Ok (st, _) => st
  | Err _ => st
  end.

Definition syncHypervisor (s : S) (st : HvState) (hv : Hypervisor) (items : list VirtualMachine)
  (leases : gmap string string) : (S * HvState) * option error :=
  match connectExecutor hv with
  | Err e => ((s, st), Some e)
  | Ok exec =>
      match sync_loop s hv exec items leases 0 None with
      | (s, Err e) => ((s, st), Some e)
      | (s, Ok (count, firstErr)) =>
          match firstErr with
          | Some e => if count =? 0 then ((s, st), Some (ErrWrap "all VM runtime queries failed: " e ""))
                      else ((s, markHypervisorReachable st (w_mark_clock w (hv_Name hv)) hv), None)
          | None => if 0 <? count then ((s, markHypervisorReachable st (w_mark_clock w (hv_Name hv)) hv), None)
                    else ((s, st), None)
          end
      end
  end.

Definition group (items : list VirtualMachine) (ref : string) : list VirtualMachine :=
  filter (fun v => TrimSpace (v_HypervisorRef v) = ref) items.

(** The names of the referenced hypervisors, sorted. *)
Definition referenced (items : list VirtualMachine) : list string :=
  sorted_set (list_to_set (filter (fun r => r ≠ "") ((fun v => TrimSpace (v_HypervisorRef v)) <$> items))).

Fixpoint sync_names (s : S) (st : HvState) (byName : gmap string Hypervisor) (items : list VirtualMachine)
  (leases : gmap string string) (names : list string) : (S * HvState) * option error :=
  match names with
  | [] => ((s, st), None)
  | name :: names =>
      match w_ctx_hv w name with
      | Some e => ((s, st), Some e)
      | None =>
          match byName !! name with
          | None => sync_names s st byName items leases names
          | Some hv =>
              if skipUnreachableHypervisor hv (w_skip_clock w name)
              then sync_names s st byName items leases names
              else
                match syncHypervisor s st hv (group items name) leases with
                | ((s, st), None) => sync_names s st byName items leases names
                | ((s, st), Some e) =>
                    let next := sync_names s (markHypervisorUnreachable st (w_mark_clock w name) hv e) byName items leases names in
                    if errors_Is e ErrCanceled || errors_Is e ErrDeadlineExceeded then
                      match w_ctx_failed w name with Some c => ((s, st), Some c) | None => next end
                    else next
                end
          end
      end
  end.

Definition SyncAll (s : S) (st : HvState) (leases : gmap string string) : (S * HvState) * option error :=
  match vs_List store s with
  | Err e => ((s, st), Some (ErrWrap "list virtual machines: " e ""))
  | Ok items =>
      match mem_list (hs_store st) with
      | Err e => ((s, st), Some (ErrWrap "list hypervisors: " e ""))
      | Ok hvs =>
          let byName := list_to_map ((fun h => (hv_Name h, h)) <$> reverse hvs) in
          sync_names s st byName items leases (referenced items)
      end
  end.
End sync.

(** ** What a synchronisation may change *)

(** The fields a user sets, and the identity of the provisioning window. *)
Definition vm_spec (v : VirtualMachine) :=
  (v_Name v, v_HypervisorRef v, v_Resources v, v_OSImageRef v, (v_CloudInitRef v, v_CloudInitRefs v),
   (v_Network v, v_IPAssignment v, v_SubnetRef v, v_Domain v), v_InstallCfg v, v_PowerControlMethod v,
   v_AdvancedOptions v, (v_SSHKeyRefs v, v_LoginUser v), v_CreatedAt v).

Definition window_id (p : ProvisioningStatus) :=
  (ps_AttemptID p, ps_CompletionToken p, ps_StartedAt p, ps_DeadlineAt p, ps_CompletedAt p, ps_DomainObservedAt p).

Definition keeps (v u : VirtualMachine) : Prop :=
  vm_spec u = vm_spec v ∧ window_id (v_Provisioning u) = window_id (v_Provisioning v)
  ∧ (ps_Active (v_Provisioning u) = true → ps_Active (v_Provisioning v) = true).

(** The record that ends up stored. *)
Definition persisted (t : Time) (before updated : VirtualMachine) : VirtualMachine :=
  if VMStatusChanged before updated then updated <| v_UpdatedAt := t |> else before.

Lemma keeps_name v u : keeps v u → v_Name u = v_Name v.
Proof. intros [H _]. unfold vm_spec in H. congruence. Qed.

(** Every field of [keeps] is convertible once the tests are decided. *)
Ltac by_fields :=
  split; [reflexivity|]; split; [reflexivity|]; first [exact (fun H => H) | intros H; discriminate H].

Lemma found_vm_keeps hv v now state ifs leases : keeps v (found_vm hv v now state ifs leases).
Proof.
  unfold found_vm. destruct (ConvertRuntimeInterfaces ifs) as [st ips].
  destruct (MergeRuntimeLeaseIPs v st ips leases) as [st' ips'].
  destruct (v_Phase v ==? PhaseMissing);
    (destruct (IsProvisioningTimedOut _ now);
     [ | match goal with |- context [bool_decide (?x = PhaseMissing)] => destruct (bool_decide (x = PhaseMissing)) end ]);
    by_fields.
Qed.

Lemma missing_vm_keeps hv v now : keeps v (missing_vm hv v now).
Proof. unfold missing_vm. destruct (_ || _); by_fields. Qed.

Lemma VMStatusChanged_irrefl v : VMStatusChanged v v = false.
Proof. unfold VMStatusChanged. by rewrite !bool_decide_eq_true_2. Qed.

(** Without interference the record is stored. *)
Lemma persist_stored (m : vms) t b u : m !! v_Name b = Some b → keeps b u →
  persistSyncedVM memory_vms m t b u = (<[v_Name b := persisted t b u]> m, Ok (persisted t b u)).
Proof.
  intros Hb Hk. pose proof (keeps_name _ _ Hk) as Hn. destruct Hk as (Hs & Hw & _).
  unfold persistSyncedVM, persisted. destruct (VMStatusChanged b u); cbn [negb]; [|by rewrite insert_id].
  unfold writeExisting. cbn [vs_UpdateProvisioningAttempt vs_UpdateExisting memory_vms].
  unfold VMStore_UpdateProvisioningAttempt, VMStore_UpdateExisting.
  change (v_Name (u <| v_UpdatedAt := t |>)) with (v_Name u).
  change (v_Provisioning (u <| v_UpdatedAt := t |>)) with (v_Provisioning u).
  unfold window_id in Hw. injection Hw as Ha Ht _ _ _ _. rewrite Hn, Hb, Ha, Ht, !bool_decide_eq_true_2 by done.
  by destruct (is_windows_vm b).
Qed.

(** Whatever else happened to the store, a synchronisation does not add a record;
    a Windows record is written only if it is still the one that was read. *)
Lemma persist_frame (m : vms) t b u m' r : keeps b u →
  persistSyncedVM memory_vms m t b u = (m', r) →
  m' = m ∨ (is_Some (m !! v_Name b) ∧ (∃ x, v_Name x = v_Name b ∧ m' = <[v_Name b := x]> m)
            ∧ (is_windows_vm b = true → m !! v_Name b = Some b)).
Proof.
  intros Hk. pose proof (keeps_name _ _ Hk) as Hn. unfold persistSyncedVM.
  destruct (VMStatusChanged b u); cbn [negb]; [|intros H; injection H as <- _; by left].
  unfold writeExisting. cbn [vs_UpdateProvisioningAttempt vs_UpdateExisting memory_vms].
  set (u' := u <| v_UpdatedAt := t |>). assert (Hn' : v_Name u' = v_Name b) by done. clearbody u'.
  destruct (is_windows_vm b) eqn:Hwin.
  - destruct (VMStore_UpdateProvisioningAttempt m b u') as [[m1 w]|] eqn:E; [|intros H; injection H as <- _; by left].
    pose proof (UpdateProvisioningAttempt_spec _ _ _ _ _ E) as Hs. destruct w.
    + destruct Hs as (Hb & _ & _ & _ & ->). intros H. injection H as <- _. right. rewrite Hn', Hb. naive_solver.
    + subst m1. intros H. injection H as <- _. by left.
  - unfold VMStore_UpdateExisting. rewrite Hn'. destruct (m !! v_Name b) eqn:Hb; intros H; injection H as <- _; [|by left].
    right. naive_solver.
Qed.

(** ** One machine *)

(** The phase of a machine whose domain exists, from the state of the domain and of
    the provisioning window. *)
Definition found_phase (v : VirtualMachine) (now : Time) (state : DomainState) : Phase :=
  if IsProvisioningTimedOut (v_Provisioning v) now then PhaseError
  else let ph := MapVMPhaseFromDomainState state (v_Phase v) (v_Provisioning v) in
       if ph ==? PhaseMissing then PhaseStopped else ph.

Record found_status (hv : Hypervisor) (v : VirtualMachine) (now : Time) (state : DomainState)
  (ifs : list InterfaceInfo) (leases : gmap string string) (u : VirtualMachine) : Prop := {
  fs_phase : v_Phase u = found_phase v now state;
  fs_not_missing : v_Phase u ≠ PhaseMissing;
  fs_window : v_Provisioning u = if IsProvisioningTimedOut (v_Provisioning v) now
                                 then (v_Provisioning v) <| ps_Active := false |> else v_Provisioning v;
  fs_error : v_LastError u = if IsProvisioningTimedOut (v_Provisioning v) now then TimeoutError
                             else if v_Phase v ==? PhaseMissing then "" else v_LastError v;
  fs_since : v_MissingSince u = if v_Phase v ==? PhaseMissing then None else v_MissingSince v;
  fs_host : v_HypervisorName u = hv_Name hv ∧ v_CreatedOnHost u = hv_Name hv ∧ v_LibvirtDomain u = domain_name v;
  fs_net : (v_NetworkInterfaces u, v_IPAddresses u)
           = let '(st, ips) := ConvertRuntimeInterfaces ifs in MergeRuntimeLeaseIPs v st ips leases }.

Lemma found_vm_status hv v now state ifs leases :
  found_status hv v now state ifs leases (found_vm hv v now state ifs leases).
Proof.
  assert (Hdec : found_phase v now state ≠ PhaseMissing).
  { unfold found_phase. destruct (IsProvisioningTimedOut _ _); [done|]. cbv zeta. by case_bool_decide. }
  assert (Hph : v_Phase (found_vm hv v now state ifs leases) = found_phase v now state).
  { unfold found_vm, found_phase. destruct (ConvertRuntimeInterfaces ifs) as [st ips].
    destruct (MergeRuntimeLeaseIPs v st ips leases) as [st' ips'].
    destruct (v_Phase v ==? PhaseMissing);
    (change (v_Provisioning (v <| v_LastError := "" |> <| v_MissingSince := None |>)) with (v_Provisioning v) || idtac);
    (destruct (IsProvisioningTimedOut _ now); [reflexivity|]);
    cbv zeta;
    match goal with |- context [bool_decide (v_Phase ?x = PhaseMissing)] =>
      change (v_Phase x) with (MapVMPhaseFromDomainState state (v_Phase v) (v_Provisioning v)) end;
    by destruct (bool_decide _). }
  constructor; [exact Hph|by rewrite Hph|..].
  all: unfold found_vm; destruct (ConvertRuntimeInterfaces ifs) as [st ips];
    destruct (MergeRuntimeLeaseIPs v st ips leases) as [st' ips'];
    destruct (v_Phase v ==? PhaseMissing);
    (change (v_Provisioning (v <| v_LastError := "" |> <| v_MissingSince := None |>)) with (v_Provisioning v) || idtac);
    destruct (IsProvisioningTimedOut (v_Provisioning v) now) eqn:Eto;
    match goal with |- context [bool_decide (?x = PhaseMissing)] => destruct (bool_decide (x = PhaseMissing)) end;
    first [reflexivity | split_and!; reflexivity].
Qed.

(** What is recorded when the domain is gone. *)
Record missing_status (hv : Hypervisor) (v : VirtualMachine) (now : Time) (u : VirtualMachine) : Prop := {
  mst_phase : v_Phase u = PhaseMissing;
  mst_window : v_Provisioning u = (v_Provisioning v) <| ps_Active := false |>;
  mst_host : v_HypervisorName u = hv_Name hv ∧ v_LibvirtDomain u = domain_name v ∧ v_CreatedOnHost u = v_CreatedOnHost v;
  mst_net : v_IPAddresses u = [] ∧ v_NetworkInterfaces u = [];
  mst_since : v_MissingSince u = match v_MissingSince v with
                                 | Some t => if v_Phase v ==? PhaseMissing then Some t else Some now
                                 | None => Some now
                                 end;
  mst_error : v_LastError u = "libvirt domain " +:+ domain_name v +:+ " not found on hypervisor " +:+ hv_Name hv }.

Lemma missing_vm_status hv v now : missing_status hv v now (missing_vm hv v now).
Proof.
  unfold missing_vm.
  change (v_MissingSince (_ <| v_Provisioning := _ |>)) with (v_MissingSince v) || idtac.
  destruct (v_Phase v ==? PhaseMissing) eqn:Ep; cbn [negb orb].
  - match goal with |- context [bool_decide (?x = None)] => change x with (v_MissingSince v) end.
    destruct (v_MissingSince v) as [t|] eqn:Em.
    + rewrite bool_decide_eq_false_2 by done. constructor; try done. rewrite Em, Ep. exact Em.
    + rewrite bool_decide_eq_true_2 by done. constructor; try done. by rewrite Em.
  - constructor; try done. rewrite Ep. by destruct (v_MissingSince v).
Qed.

(** A record that reports no change is the stored one: its status is the computed
    status. *)
Lemma unchanged_status b u : VMStatusChanged b u = false →
  v_Phase u = v_Phase b ∧ v_LastError u = v_LastError b ∧ v_MissingSince u = v_MissingSince b
  ∧ v_HypervisorName u = v_HypervisorName b ∧ v_CreatedOnHost u = v_CreatedOnHost b
  ∧ v_LibvirtDomain u = v_LibvirtDomain b ∧ v_IPAddresses u = v_IPAddresses b
  ∧ v_NetworkInterfaces u = v_NetworkInterfaces b ∧ v_Provisioning u = v_Provisioning b.
Proof.
  unfold VMStatusChanged. rewrite !orb_false_iff, !negb_false_iff, !bool_decide_eq_true. naive_solver.
Qed.

Lemma persisted_status t b u (x := persisted t b u) :
  v_Phase x = v_Phase u ∧ v_LastError x = v_LastError u ∧ v_MissingSince x = v_MissingSince u
  ∧ v_HypervisorName x = v_HypervisorName u ∧ v_CreatedOnHost x = v_CreatedOnHost u
  ∧ v_LibvirtDomain x = v_LibvirtDomain u ∧ v_IPAddresses x = v_IPAddresses u
  ∧ v_NetworkInterfaces x = v_NetworkInterfaces u ∧ v_Provisioning x = v_Provisioning u.
Proof.
  unfold x, persisted. destruct (VMStatusChanged b u) eqn:E; [split_and!; reflexivity|].
  apply unchanged_status in E. naive_solver.
Qed.

Lemma persisted_keeps t b u : keeps b u → keeps b (persisted t b u).
Proof. intros H. unfold persisted. by destruct (VMStatusChanged b u). Qed.

(** One synchronisation.  On a record read just before, exactly one of these
    happens.  The domain exists: the record gets the phase of the domain (Error with
    the window closed when its deadline has passed, Provisioning while the window is
    open unless the domain crashed, never Missing), the addresses and the host, and
    Missing-specific state is cleared.  The domain does not exist: the record is left
    alone while a deployment is still preparing it, and otherwise becomes Missing
    with its window closed, its addresses dropped and the time of the first such
    observation.  The query failed: nothing is written.  What the user specified and
    the identity of the provisioning window are never changed. *)
Lemma runtime_sync_spec (m : vms) (clk : SyncClock) (hv : Hypervisor) (exec : Executor) (v : VirtualMachine)
  (leases : gmap string string) (Hstored : m !! v_Name v = Some v) :
  let '(m', r) := syncWithExecutor memory_vms m clk hv exec v leases in
  match ex_DomainInfo exec (domain_name v) with
  | Ok state => ∃ u, r = Ok u ∧ m' = <[v_Name v := u]> m ∧ keeps v u
      ∧ found_status hv v (sc_now clk) state (ex_DomainInterfaces exec (domain_name v)) leases u
  | Err e =>
      if IsDomainNotFoundError e then
        if vmDeployInFlight v (sc_flight clk) then m' = m ∧ r = Ok v
        else ∃ u, r = Ok u ∧ m' = <[v_Name v := u]> m ∧ keeps v u ∧ missing_status hv v (sc_now clk) u
      else m' = m ∧ r = Err (ErrWrap ("domain info " +:+ domain_name v +:+ ": ") e "")
  end.
Proof.
  unfold syncWithExecutor. destruct (ex_DomainInfo exec (domain_name v)) as [state|e].
  - rewrite persist_stored by (done || apply found_vm_keeps).
    set (u := found_vm _ _ _ _ _ _). pose proof (found_vm_keeps hv v (sc_now clk) state (ex_DomainInterfaces exec (domain_name v)) leases) as Hk.
    pose proof (found_vm_status hv v (sc_now clk) state (ex_DomainInterfaces exec (domain_name v)) leases) as [? ? ? ? ? ? ?].
    destruct (persisted_status (sc_update clk) v u) as (P1 & P2 & P3 & P4 & P5 & P6 & P7 & P8 & P9).
    exists (persisted (sc_update clk) v u). split_and!; [done|done|by apply persisted_keeps|].
    constructor; rewrite ?P1, ?P2, ?P3, ?P4, ?P5, ?P6, ?P7, ?P8, ?P9; done.
  - destruct (IsDomainNotFoundError e); [|done]. destruct (vmDeployInFlight v _); [done|].
    unfold markVMMissing. rewrite persist_stored by (done || apply missing_vm_keeps).
    set (u := missing_vm _ _ _). pose proof (missing_vm_status hv v (sc_now clk)) as [? ? ? ? ? ?].
    destruct (persisted_status (sc_update clk) v u) as (P1 & P2 & P3 & P4 & P5 & P6 & P7 & P8 & P9).
    exists (persisted (sc_update clk) v u). split_and!; [done|done|apply persisted_keeps, missing_vm_keeps|].
    constructor; rewrite ?P1, ?P2, ?P3, ?P4, ?P5, ?P6, ?P7, ?P8, ?P9; done.
Qed.

Definition sample_hv : Hypervisor :=
  mkHypervisor "hv-1" (mkConnectionSpec "tcp" "10.0.0.1" 0 "" "" "") ∅ "" "" "Ready"
    (Some (mkResourceInfo 8 4096 0)) None 0 "" None "" 0 0.

Definition exec_running : Executor := mkExecutor (fun _ => Ok StateRunning) (fun _ => []).
Definition exec_gone : Executor := mkExecutor (fun _ => Err (ErrLibvirt 42 "no domain")) (fun _ => []).

Lemma runtime_sync_spec_witness :
  let v := sample_vm "vm-1" "tok" in
  ∃ u, syncWithExecutor memory_vms ({[ "vm-1" := v ]} : vms) (mkSyncClock 200 200 200) sample_hv exec_gone v ∅
       = (<[ "vm-1" := u ]> ({[ "vm-1" := v ]} : vms), Ok u) ∧ v_Phase u = PhaseMissing.
Proof.
  intros v. pose (m := {[ "vm-1" := v ]} : vms). assert (Hm : m !! "vm-1" = Some v) by reflexivity.
  pose proof (runtime_sync_spec m (mkSyncClock 200 200 200) sample_hv exec_gone v ∅ Hm) as H.
  destruct (syncWithExecutor memory_vms m (mkSyncClock 200 200 200) sample_hv exec_gone v ∅) as [m' r] eqn:E.
  simpl in H. destruct H as (u & -> & -> & _ & [Hp _ _ _ _ _]). exists u. split; [exact E|exact Hp].
Defined.

(** ** Synchronising again *)

Lemma timed_out_mono p t t' : t <= t' → IsProvisioningTimedOut p t' = false → IsProvisioningTimedOut p t = false.
Proof.
  unfold IsProvisioningTimedOut. destruct (_ || _); [done|]. destruct (ps_DeadlineAt p); [|done].
  unfold time_After. lia.
Qed.

Lemma domain_name_fixed v u : TrimSpace (v_Name v) = v_Name v → v_Name u = v_Name v →
  v_LibvirtDomain u = domain_name v → domain_name u = domain_name v.
Proof.
  intros Ht Hn Hd. unfold domain_name at 1. rewrite Hd.
  assert (TrimSpace (domain_name v) = domain_name v) as ->.
  { unfold domain_name. case_bool_decide; [done|apply TrimSpace_idemp]. }
  case_bool_decide as He; [|done]. rewrite Hn. revert He. unfold domain_name.
  case_bool_decide; [done|]. by intros.
Qed.

(** The bootstrap list of a synchronised machine has the names and MACs it had. *)
Lemma bootstrap_fixed v u leases :
  v_Network u = v_Network v →
  v_NetworkInterfaces u = add_lease leases <$> bootstrapNetworkStatusesFromVM v →
  (∀ mac, mac ∈ vm_mac_sources v → norm_mac (norm_mac mac) = norm_mac mac) →
  bootstrapNetworkStatusesFromVM u = bootstrapNetworkStatusesFromVM v.
Proof.
  intros Hn Hi Hmac. unfold bootstrapNetworkStatusesFromVM in *. rewrite Hn, Hi.
  unfold vm_mac_sources in Hmac. destruct (v_Network v) as [|x l]; [|done].
  rewrite <- !list_fmap_compose. apply list_fmap_ext. intros i nic Hnic%list_elem_of_lookup_2.
  assert (Hm : norm_mac (norm_mac (nis_MAC nic)) = norm_mac (nis_MAC nic)).
  { apply Hmac. simpl. rewrite list_elem_of_fmap. eauto. }
  unfold compose, add_lease. destruct (_ ==? ""); simpl; by rewrite ?Hm.
Qed.

Lemma net_fixed v u ifs leases :
  v_Network u = v_Network v →
  (v_NetworkInterfaces u, v_IPAddresses u)
    = (let '(st, ips) := ConvertRuntimeInterfaces ifs in MergeRuntimeLeaseIPs v st ips leases) →
  (∀ mac, mac ∈ vm_mac_sources v → norm_mac (norm_mac mac) = norm_mac mac) →
  (let '(st, ips) := ConvertRuntimeInterfaces ifs in MergeRuntimeLeaseIPs u st ips leases)
  = (v_NetworkInterfaces u, v_IPAddresses u).
Proof.
  intros Hn Hnet Hmac. rewrite Hnet. destruct (ConvertRuntimeInterfaces ifs) as [st ips].
  unfold MergeRuntimeLeaseIPs in *. destruct (leases ==? ∅); [done|]. cbv zeta in *. destruct st as [|x st]; [|done].
  injection Hnet as Hi _. by rewrite (bootstrap_fixed v u leases).
Qed.

Lemma found_phase_fixed v u now now' state : v_Phase u = found_phase v now state →
  IsProvisioningTimedOut (v_Provisioning v) now = false → IsProvisioningTimedOut (v_Provisioning v) now' = false →
  v_Provisioning u = v_Provisioning v → found_phase u now' state = v_Phase u.
Proof.
  intros Hp H1 H2 Hw. unfold found_phase in *. rewrite Hw, H2. rewrite H1 in Hp. rewrite Hp. cbv zeta.
  unfold MapVMPhaseFromDomainState. destruct (_ && _).
  - by destruct (_ ==? StateCrashed).
  - repeat (match goal with |- context [bool_decide (state = ?x)] => destruct (bool_decide (state = x)) end; [done|]).
    repeat case_bool_decide; done.
Qed.

Lemma not_changed b u : v_Phase u = v_Phase b → v_LastError u = v_LastError b → v_MissingSince u = v_MissingSince b →
  v_HypervisorName u = v_HypervisorName b → v_CreatedOnHost u = v_CreatedOnHost b →
  v_LibvirtDomain u = v_LibvirtDomain b → v_IPAddresses u = v_IPAddresses b →
  v_NetworkInterfaces u = v_NetworkInterfaces b → v_Provisioning u = v_Provisioning b → VMStatusChanged b u = false.
Proof. intros. unfold VMStatusChanged. by rewrite !bool_decide_eq_true_2. Qed.

Lemma found_again hv v u now now' state ifs leases :
  keeps v u → found_status hv v now state ifs leases u → TrimSpace (v_Name v) = v_Name v →
  (∀ mac, mac ∈ vm_mac_sources v → norm_mac (norm_mac mac) = norm_mac mac) →
  IsProvisioningTimedOut (v_Provisioning v) now = false → IsProvisioningTimedOut (v_Provisioning v) now' = false →
  VMStatusChanged u (found_vm hv u now' state ifs leases) = false.
Proof.
  intros Hk [F1 F2 F3 F4 F5 (F6 & F7 & F8) F9] Hn Hmac Ht Ht'. rewrite Ht in F3, F4.
  assert (Hnet : v_Network u = v_Network v) by (destruct Hk as [Hs _]; unfold vm_spec in Hs; congruence).
  destruct (found_vm_status hv u now' state ifs leases) as [G1 G2 G3 G4 G5 (G6 & G7 & G8) G9].
  rewrite F3, Ht' in G3, G4. rewrite (bool_decide_eq_false_2 (v_Phase u = _)) in G4, G5 by done.
  rewrite (net_fixed v u ifs leases) in G9 by done. injection G9 as G9 G10.
  apply not_changed; try congruence.
  - by rewrite G1, (found_phase_fixed v u now now' state).
  - rewrite G8, F8. apply domain_name_fixed; [done| |done]. by apply keeps_name.
Qed.

Lemma missing_again hv v u now now' : keeps v u → missing_status hv v now u → TrimSpace (v_Name v) = v_Name v →
  VMStatusChanged u (missing_vm hv u now') = false.
Proof.
  intros Hk [M1 M2 (M3 & M4 & M5) (M6 & M7) M8 M9] Hn.
  assert (Hd : domain_name u = domain_name v) by (apply domain_name_fixed; [done|by apply keeps_name|done]).
  destruct (missing_vm_status hv u now') as [N1 N2 (N3 & N4 & N5) (N6 & N7) N8 N9].
  apply not_changed; try congruence.
  - rewrite N8, M1. rewrite (bool_decide_eq_true_2 (PhaseMissing = PhaseMissing)) by done. rewrite M8.
    destruct (v_MissingSince v); [|done]. by destruct (_ ==? _).
  - rewrite N2, M2. reflexivity.
Qed.

(** Synchronisation converges.  Running it again on the record it produced, with
    the same answers from the hypervisor and a window that has not run out in the
    meantime, writes nothing and returns the same record; so a stable system is not
    rewritten by the periodic loop.  (The name of the machine has no surrounding
    white space and its MACs are in a form that normalisation leaves alone.) *)
Lemma sync_converges (m m1 : vms) (clk clk' : SyncClock) (hv : Hypervisor) (exec : Executor)
  (v u : VirtualMachine) (leases : gmap string string) (T : Time)
  (Hstored : m !! v_Name v = Some v)
  (Hname : TrimSpace (v_Name v) = v_Name v)
  (Hmac : ∀ mac, mac ∈ vm_mac_sources v → norm_mac (norm_mac mac) = norm_mac mac)
  (Hopen : IsProvisioningTimedOut (v_Provisioning v) T = false)
  (Hclk : sc_flight clk <= T ∧ sc_now clk <= T ∧ sc_flight clk' <= T ∧ sc_now clk' <= T)
  (Hfirst : syncWithExecutor memory_vms m clk hv exec v leases = (m1, Ok u)) :
  syncWithExecutor memory_vms m1 clk' hv exec u leases = (m1, Ok u).
Proof.
  destruct Hclk as (H1 & H2 & H3 & H4). unfold syncWithExecutor in Hfirst.
  assert (Hto : ∀ t, t <= T → IsProvisioningTimedOut (v_Provisioning v) t = false) by (eauto using timed_out_mono).
  destruct (ex_DomainInfo exec (domain_name v)) as [state|e] eqn:Ei.
  - rewrite persist_stored in Hfirst by (done || apply found_vm_keeps). injection Hfirst as <- Hu.
    pose proof (found_vm_keeps hv v (sc_now clk) state (ex_DomainInterfaces exec (domain_name v)) leases) as Hk.
    pose proof (found_vm_status hv v (sc_now clk) state (ex_DomainInterfaces exec (domain_name v)) leases) as Hf.
    destruct (persisted_status (sc_update clk) v (found_vm hv v (sc_now clk) state (ex_DomainInterfaces exec (domain_name v)) leases))
      as (P1 & P2 & P3 & P4 & P5 & P6 & P7 & P8 & P9).
    apply (persisted_keeps (sc_update clk)) in Hk. rewrite Hu in Hk, P1, P2, P3, P4, P5, P6, P7, P8, P9.
    assert (Hfu : found_status hv v (sc_now clk) state (ex_DomainInterfaces exec (domain_name v)) leases u).
    { destruct Hf. constructor; rewrite ?P1, ?P2, ?P3, ?P4, ?P5, ?P6, ?P7, ?P8, ?P9; done. }
    assert (Hd : domain_name u = domain_name v).
    { apply domain_name_fixed; [done|by apply keeps_name|]. by destruct Hfu as [_ _ _ _ _ (_ & _ & ?) _]. }
    unfold syncWithExecutor. rewrite Hd, Ei. unfold persistSyncedVM.
    rewrite (found_again hv v u (sc_now clk) (sc_now clk')); auto.
  - destruct (IsDomainNotFoundError e) eqn:Ee; [|done]. unfold syncWithExecutor.
    destruct (vmDeployInFlight v (sc_flight clk)) eqn:Efl.
    + injection Hfirst as <- <-. rewrite Ei, Ee. unfold vmDeployInFlight in *.
      rewrite (Hto (sc_flight clk)) in Efl by done. by rewrite (Hto (sc_flight clk')), Efl by done.
    + unfold markVMMissing in Hfirst. rewrite persist_stored in Hfirst by (done || apply missing_vm_keeps).
      injection Hfirst as <- Hu. pose proof (missing_vm_keeps hv v (sc_now clk)) as Hk.
      pose proof (missing_vm_status hv v (sc_now clk)) as Hf.
      destruct (persisted_status (sc_update clk) v (missing_vm hv v (sc_now clk)))
        as (P1 & P2 & P3 & P4 & P5 & P6 & P7 & P8 & P9).
      apply (persisted_keeps (sc_update clk)) in Hk. rewrite Hu in Hk, P1, P2, P3, P4, P5, P6, P7, P8, P9.
      assert (Hfu : missing_status hv v (sc_now clk) u).
      { destruct Hf. constructor; rewrite ?P1, ?P2, ?P3, ?P4, ?P5, ?P6, ?P7, ?P8, ?P9; done. }
      assert (Hd : domain_name u = domain_name v).
      { apply domain_name_fixed; [done|by apply keeps_name|]. by destruct Hfu as [_ _ (_ & ? & _) _ _ _]. }
      rewrite Hd, Ei, Ee. assert (vmDeployInFlight u (sc_flight clk') = false) as ->.
      { unfold vmDeployInFlight. destruct Hfu as [_ -> _ _ _ _]. reflexivity. }
      unfold markVMMissing, persistSyncedVM. by rewrite (missing_again hv v u (sc_now clk) (sc_now clk')).
Qed.

Lemma sync_converges_witness :
  let v := sample_vm "vm-1" "tok" in
  let '(m1, r) := syncWithExecutor memory_vms ({[ "vm-1" := v ]} : vms) (mkSyncClock 20 20 20) sample_hv exec_running v ∅ in
  ∀ u, r = Ok u → syncWithExecutor memory_vms m1 (mkSyncClock 30 30 30) sample_hv exec_running u ∅ = (m1, Ok u).
Proof.
  intros v. pose (m := {[ "vm-1" := v ]} : vms).
  destruct (syncWithExecutor memory_vms m (mkSyncClock 20 20 20) sample_hv exec_running v ∅) as [m1 r] eqn:E.
  change (syncWithExecutor memory_vms ({[ "vm-1" := v ]} : vms) (mkSyncClock 20 20 20) sample_hv exec_running v ∅)
    with (syncWithExecutor memory_vms m (mkSyncClock 20 20 20) sample_hv exec_running v ∅).
  rewrite E. intros u ->.
  refine (sync_converges m m1 _ _ sample_hv exec_running v u ∅ 50 eq_refl _ _ eq_refl _ E).
  - vm_compute. reflexivity.
  - intros mac Hin. exfalso. revert Hin. apply not_elem_of_nil.
  - cbn [sc_flight sc_now]. lia.
Defined.

(** ** Addresses *)

Lemma lease_of_trimmed leases n : TrimSpace (lease_of leases n) = lease_of leases n.
Proof. unfold lease_of. case_bool_decide; [by vm_compute|apply TrimSpace_idemp]. Qed.

Lemma lease_of_add leases n : lease_of leases (add_lease leases n) = lease_of leases n.
Proof. unfold add_lease. by destruct (_ ==? ""). Qed.

Lemma converted_ips ifs x :
  x ∈ (ConvertRuntimeInterfaces ifs).2 ↔ not_blank x ∧ ∃ i, i ∈ ifs ∧ x ∈ if_IPAddresses i.
Proof.
  destruct ifs as [|i0 ifs0].
  { simpl. split; [by intros ?%not_elem_of_nil|]. by intros (_ & i & ?%not_elem_of_nil & _). }
  set (ifs := i0 :: ifs0). change (ConvertRuntimeInterfaces ifs).2 with
    (sorted_set (list_to_set (filter not_blank (ifs ≫= (sort_Strings ∘ if_IPAddresses))))).
  rewrite elem_of_sorted_set, elem_of_list_to_set, list_elem_of_filter, list_elem_of_bind.
  unfold compose, sort_Strings. setoid_rewrite merge_sort_Permutation. naive_solver.
Qed.

(** Merging the leases.  With leases known, the reported addresses of a machine are
    sorted, without repetition or blanks, and are exactly the trimmed addresses the
    guest reported plus the leases of its interfaces; an interface whose MAC holds a
    lease reports that lease first and only once.  When the guest reports no
    interface, the interfaces are those of its specification. *)
Lemma lease_merge_spec (v : VirtualMachine) (ifs : list InterfaceInfo) (leases : gmap string string)
  (Hleases : leases ≠ ∅) :
  let '(st, ips) := ConvertRuntimeInterfaces ifs in
  let '(st', ips') := MergeRuntimeLeaseIPs v st ips leases in
  (StronglySorted String.le ips' ∧ NoDup ips')
  ∧ (∀ ip, ip ∈ ips' ↔ ip ≠ "" ∧ ((∃ i x, i ∈ ifs ∧ x ∈ if_IPAddresses i ∧ TrimSpace x = ip)
                                   ∨ ∃ n, n ∈ st' ∧ lease_of leases n = ip))
  ∧ (∀ n, n ∈ st' → lease_of leases n ≠ "" →
       ∃ rest, nis_IPAddresses n = lease_of leases n :: rest ∧ lease_of leases n ∉ rest)
  ∧ (ifs = [] → nis_MAC <$> st' = nis_MAC <$> bootstrapNetworkStatusesFromVM v).
Proof.
  pose proof (converted_ips ifs) as Hips. destruct (ConvertRuntimeInterfaces ifs) as [st ips] eqn:Ec. simpl in Hips.
  unfold MergeRuntimeLeaseIPs. rewrite bool_decide_eq_false_2 by done.
  set (st0 := match st with [] => bootstrapNetworkStatusesFromVM v | _ => st end). cbv zeta. split_and!.
  - apply sorted_set_sorted.
  - apply sorted_set_sorted.
  - intros ip. rewrite elem_of_sorted_set, elem_of_union, !elem_of_list_to_set, !list_elem_of_filter, !list_elem_of_fmap.
    split.
    + intros [(Hne & x & -> & Hx%Hips)|(Hne & n & -> & Hn)]; (split; [done|]).
      * left. destruct Hx as (_ & i & ? & ?). eauto.
      * right. exists (add_lease leases n). rewrite list_elem_of_fmap, lease_of_add. eauto.
    + intros (Hne & [(i & x & Hi & Hx & <-)|(n & Hn & <-)]).
      * left. split; [done|]. exists x. split; [done|]. apply Hips. eauto.
      * right. apply list_elem_of_fmap in Hn as (n' & -> & Hn'). rewrite lease_of_add in *. eauto.
  - intros n (n' & -> & Hn')%list_elem_of_fmap Hne. rewrite lease_of_add in *. unfold add_lease.
    rewrite bool_decide_eq_false_2 by done. simpl. unfold prependUniqueIP.
    rewrite lease_of_trimmed, bool_decide_eq_false_2 by done. eexists. split; [reflexivity|].
    rewrite list_elem_of_filter. naive_solver.
  - intros ->. injection Ec as <- <-. unfold st0. rewrite <- list_fmap_compose. apply list_fmap_ext.
    intros _ n _. unfold compose, add_lease. by destruct (_ ==? "").
Qed.

Lemma lease_merge_spec_witness :
  let '(st, ips) := ConvertRuntimeInterfaces [] in
  let '(_, ips') := MergeRuntimeLeaseIPs (sample_vm "vm-1" "tok") st ips {[ "aa" := "10.0.0.9" ]} in NoDup ips'.
Proof.
  pose proof (lease_merge_spec (sample_vm "vm-1" "tok") [] {[ "aa" := "10.0.0.9" ]}) as H.
  destruct (ConvertRuntimeInterfaces []) as [st ips].
  destruct (MergeRuntimeLeaseIPs (sample_vm "vm-1" "tok") st ips {[ "aa" := "10.0.0.9" ]}) as [st' ips'].
  apply H. apply map_non_empty_singleton.
Defined.

(** ** Listing a page *)

(** Every entry of the cache is what the store would answer. *)
Definition cache_ok (hs cache : gmap string Hypervisor) : Prop :=
  ∀ ref hv, cache !! ref = Some hv → mem_get hs ref = Ok hv.

Lemma cached_get_spec hs cache ref : cache_ok hs cache →
  (cached_get hs cache ref).2 = mem_get hs ref ∧ cache_ok hs (cached_get hs cache ref).1.
Proof.
  intros Hc. unfold cached_get. destruct (cache !! ref) as [hv|] eqn:E; [by rewrite (Hc _ _ E)|].
  destruct (mem_get hs ref) as [hv|e] eqn:Eg; [|done]. split; [done|]. simpl. intros r h.
  rewrite lookup_insert_Some. intros [[<- <-]|[_ H]]; [done|by apply Hc].
Qed.

Section list_equivalence.
Context {S : Type} (store : VMStore S) (lim : Limits) (w : World).

(** The page synchronised one machine at a time, without a cache. *)
Fixpoint sync_each (hs : gmap string Hypervisor) (s : S) (items : list VirtualMachine) (leases : gmap string string)
  : S * list VirtualMachine :=
  match items with
  | [] => (s, [])
  | v :: items =>
      let '(s, r) := Sync store lim w hs s v leases in
      let '(s, out) := sync_each hs s items leases in
      (s, match r with Ok synced => synced | Err _ => v end :: out)
  end.

Lemma sync_cached hs cache s v leases : cache_ok hs cache →
  (sync store lim w (cached_get hs) cache s v leases).2 = Sync store lim w hs s v leases
  ∧ cache_ok hs (sync store lim w (cached_get hs) cache s v leases).1.
Proof.
  intros Hc. unfold Sync, sync. destruct (_ ==? ""); [done|].
  destruct (cached_get_spec hs cache (v_HypervisorRef v) Hc) as [Hr Hc'].
  destruct (cached_get hs cache (v_HypervisorRef v)) as [c' r]. simpl in *. subst r.
  destruct (mem_get hs _) as [hv|e]; [|done]. by destruct (connectExecutor lim w hv).
Qed.

Lemma sync_items_each hs leases items : ∀ cache s, cache_ok hs cache →
  sync_items store lim w hs cache s items leases = sync_each hs s items leases.
Proof.
  induction items as [|v items IH]; intros cache s Hc; [done|]. cbn [sync_items sync_each].
  destruct (sync_cached hs cache s v leases Hc) as [H1 H2].
  destruct (sync store lim w (cached_get hs) cache s v leases) as [c' [s' r]]. simpl in H1, H2.
  rewrite <- H1. by rewrite IH.
Qed.

(** The cache of a list request changes nothing.  Synchronising a page with
    memoised hypervisor lookups writes the same records and returns the same page as
    synchronising its machines one by one, whatever the backend, the answers of the
    hypervisors and the failures met. *)
Lemma sync_list_equivalent (hs : gmap string Hypervisor) (s : S) (items : list VirtualMachine)
  (leases : gmap string string) : SyncList store lim w hs s items leases = sync_each hs s items leases.
Proof. apply sync_items_each. by intros ref hv Hl%lookup_empty_Some. Qed.
End list_equivalence.

(** ** A whole round *)

(** A store changed only at names satisfying [N], by replacing records. *)
Record changed_at {T} `{Keyed T} (N : string → Prop) (m m' : gmap string T) : Prop := {
  ca_dom : dom m' = dom m;
  ca_other : ∀ n, ¬ N n → m' !! n = m !! n;
  ca_ok : mem_ok m → mem_ok m' }.

Section changed.
Context {T : Type} `{Keyed T}.
Implicit Types m : gmap string T.

Lemma changed_refl N m : changed_at N m m.
Proof. by split. Qed.

Lemma changed_trans N m1 m2 m3 : changed_at N m1 m2 → changed_at N m2 m3 → changed_at N m1 m3.
Proof.
  intros [D1 O1 K1] [D2 O2 K2]. split; [congruence| |auto]. intros n Hn. by rewrite O2, O1.
Qed.

Lemma changed_weaken (N N' : string → Prop) m m' : (∀ n, N n → N' n) → changed_at N m m' → changed_at N' m m'.
Proof. intros Hw [D O K]. split; [done| |done]. naive_solver. Qed.

Lemma changed_insert m n x : is_Some (m !! n) → key_of x = n → changed_at (fun k => k = n) m (<[n := x]> m).
Proof.
  intros Hs Hk. split.
  - rewrite dom_insert_L. apply elem_of_dom in Hs. set_solver.
  - intros k Hne. by rewrite lookup_insert_ne.
  - intros Hok k y. rewrite lookup_insert_Some. intros [[<- <-]|[_ Hy]]; [done|by apply Hok].
Qed.
End changed.

Lemma persist_changed (m : vms) t b u : keeps b u →
  changed_at (fun k => k = v_Name b) m (persistSyncedVM memory_vms m t b u).1.
Proof.
  intros Hk. destruct (persistSyncedVM memory_vms m t b u) as [m' r] eqn:E.
  destruct (persist_frame _ _ _ _ _ _ Hk E) as [->|(Hs & (x & Hx & ->) & _)]; simpl; [apply changed_refl|].
  by apply changed_insert.
Qed.

Lemma sync_changed (m : vms) clk hv exec v leases :
  changed_at (fun k => k = v_Name v) m (syncWithExecutor memory_vms m clk hv exec v leases).1.
Proof.
  unfold syncWithExecutor. destruct (ex_DomainInfo exec (domain_name v)) as [state|e].
  - apply persist_changed, found_vm_keeps.
  - destruct (IsDomainNotFoundError e); [|apply changed_refl].
    destruct (vmDeployInFlight v _); [apply changed_refl|]. apply persist_changed, missing_vm_keeps.
Qed.

Lemma UpdateStatus_changed st now name ph cap used uri err st' h :
  Hypervisor.UpdateStatus st now name ph cap used uri err = Ok (st', h) → mem_ok (hs_store st) →
  changed_at (fun k => k = name) (hs_store st) (hs_store st') ∧ hs_tokens st' = hs_tokens st ∧ hs_agents st' = hs_agents st
  ∧ hs_store st' !! name = Some h ∧ hv_Phase h = ph ∧ hv_LastError h = err.
Proof.
  unfold Hypervisor.UpdateStatus, mem_get. destruct (hs_store st !! name) as [h0|] eqn:E; [|done].
  intros Hu Hok. cbn [mbind result_bind] in Hu. unfold mem_upsert in Hu. cbn [mbind result_bind] in Hu.
  pose proof (Hok _ _ E : hv_Name h0 = name) as Hn. revert Hu.
  set (h1 := _ <| hv_LastError := err |> <| hv_UpdatedAt := now |>).
  assert (Hh : hv_Name h1 = name ∧ hv_Phase h1 = ph ∧ hv_LastError h1 = err).
  { unfold h1. destruct cap, used, (negb _); split_and!; (exact Hn || reflexivity). }
  clearbody h1. destruct Hh as (H1 & H2 & H3). intros Hu. injection Hu as <- <-.
  change (key_of h1) with (hv_Name h1). rewrite H1. simpl. split_and!; try done.
  - by apply changed_insert.
  - apply lookup_insert_eq.
Qed.

(** A service state in which only the records at [N] were replaced. *)
Definition hv_changed (N : string → Prop) (st st' : HvState) : Prop :=
  changed_at N (hs_store st) (hs_store st') ∧ hs_tokens st' = hs_tokens st ∧ hs_agents st' = hs_agents st.

Lemma hv_changed_refl N st : hv_changed N st st.
Proof. split_and!; [apply changed_refl|done|done]. Qed.

Lemma hv_changed_trans N st1 st2 st3 : hv_changed N st1 st2 → hv_changed N st2 st3 → hv_changed N st1 st3.
Proof. intros (? & ? & ?) (? & ? & ?). split_and!; [by eapply changed_trans|congruence|congruence]. Qed.

Lemma hv_changed_weaken (N N' : string → Prop) st st' : (∀ n, N n → N' n) → hv_changed N st st' → hv_changed N' st st'.
Proof. intros Hw (? & ? & ?). split_and!; [by eapply changed_weaken|done|done]. Qed.

Lemma mark_reachable_changed st now hv : mem_ok (hs_store st) →
  hv_changed (fun k => k = hv_Name hv) st (markHypervisorReachable st now hv).
Proof.
  intros Hok. unfold markHypervisorReachable. destruct (_ && _); [apply hv_changed_refl|].
  destruct (Hypervisor.UpdateStatus _ _ _ _ _ _ _ _) as [[st' h]|] eqn:E; [|apply hv_changed_refl].
  apply UpdateStatus_changed in E as (? & ? & ? & _); done.
Qed.

Lemma mark_unreachable_spec st now hv e : mem_ok (hs_store st) →
  hv_changed (fun k => k = hv_Name hv) st (markHypervisorUnreachable st now hv e)
  ∧ (is_Some (hs_store st !! hv_Name hv) →
     ∃ h, hs_store (markHypervisorUnreachable st now hv e) !! hv_Name hv = Some h
          ∧ hv_Phase h = PhaseUnreachable ∧ hv_LastError h = Error e).
Proof.
  intros Hok. unfold markHypervisorUnreachable.
  destruct (Hypervisor.UpdateStatus _ _ _ _ _ _ _ _) as [[st' h]|] eqn:E.
  - apply UpdateStatus_changed in E as (? & ? & ? & ? & ? & ?); [|done]. split; [done|eauto].
  - split; [apply hv_changed_refl|]. intros [h Hh]. unfold Hypervisor.UpdateStatus, mem_get in E. by rewrite Hh in E.
Qed.

Section round.
Context (lim : Limits) (w : World).
Implicit Types (m : vms) (st : HvState) (hv : Hypervisor).

Lemma timeout_changed m hv exec v leases :
  changed_at (fun k => k = v_Name v) m (syncVMWithTimeout memory_vms lim w m hv exec v leases).1.
Proof.
  unfold syncVMWithTimeout. destruct (w_event w v) as [|e b|b]; [apply sync_changed| |];
    (destruct b; [apply sync_changed|apply changed_refl]).
Qed.

Definition named (items : list VirtualMachine) (n : string) : Prop := ∃ v, v ∈ items ∧ v_Name v = n.

Lemma loop_changed hv exec leases items : ∀ m count fe,
  changed_at (named items) m (sync_loop memory_vms lim w m hv exec items leases count fe).1.
Proof.
  induction items as [|v items IH]; intros m count fe; [apply changed_refl|]. cbn [sync_loop].
  destruct (w_ctx_vm w v); [apply changed_refl|].
  pose proof (timeout_changed m hv exec v leases) as Hc.
  destruct (syncVMWithTimeout memory_vms lim w m hv exec v leases) as [m' r]. simpl in Hc.
  assert (Hc' : changed_at (named (v :: items)) m m').
  { eapply changed_weaken; [|exact Hc]. intros n ->. exists v. split; [left|done]. }
  assert (Hw : ∀ n, named items n → named (v :: items) n).
  { intros n (x & Hx & Hn). exists x. split; [by right|done]. }
  destruct r as [u|e]; [eapply changed_trans; [exact Hc'|eapply changed_weaken; [exact Hw|apply IH]]|].
  destruct (_ || _); [exact Hc'|]. eapply changed_trans; [exact Hc'|eapply changed_weaken; [exact Hw|apply IH]].
Qed.

Lemma syncHypervisor_changed m st hv items leases : mem_ok (hs_store st) →
  let out := (syncHypervisor memory_vms lim w m st hv items leases).1 in
  changed_at (named items) m out.1 ∧ hv_changed (fun k => k = hv_Name hv) st out.2
  ∧ (∀ e, connectExecutor lim w hv = Err e →
       syncHypervisor memory_vms lim w m st hv items leases = ((m, st), Some e)).
Proof.
  intros Hok. unfold syncHypervisor. destruct (connectExecutor lim w hv) as [exec|e].
  - pose proof (loop_changed hv exec leases items m 0 None) as Hl.
    destruct (sync_loop memory_vms lim w m hv exec items leases 0 None) as [m' [[count fe]|e]]; simpl in *.
    + destruct fe as [e|]; destruct (_ : bool); simpl; split_and!; try done;
        try apply hv_changed_refl; by apply mark_reachable_changed.
    + by split_and!.
  - simpl. split_and!; [apply changed_refl|apply hv_changed_refl|by intros ? [= <-]].
Qed.

(** The hypervisors a round talks to. *)
Definition synced (byName : gmap string Hypervisor) (name : string) (hv : Hypervisor) : Prop :=
  byName !! name = Some hv ∧ skipUnreachableHypervisor lim hv (w_skip_clock w name) = false.

(** The machines a round may write. *)
Definition in_scope (byName : gmap string Hypervisor) (items : list VirtualMachine) (names : list string) (n : string) : Prop :=
  ∃ name hv exec v, name ∈ names ∧ synced byName name hv ∧ connectExecutor lim w hv = Ok exec
    ∧ v ∈ group items name ∧ v_Name v = n.

Definition no_cancel : Prop := (∀ n, w_ctx_hv w n = None) ∧ (∀ n, w_ctx_failed w n = None).

Lemma hypervisor_round byName items leases name hv m st : mem_ok byName → mem_ok (hs_store st) →
  synced byName name hv → hs_store st !! name = Some hv →
  let '((m', st'), e) := syncHypervisor memory_vms lim w m st hv (group items name) leases in
  let st2 := match e with Some e => markHypervisorUnreachable st' (w_mark_clock w name) hv e | None => st' end in
  changed_at (in_scope byName items [name]) m m'
  ∧ hv_changed (fun k => k = name) st st' ∧ hv_changed (fun k => k = name) st st2
  ∧ (∀ c, connectExecutor lim w hv = Err c →
       ∃ h, hs_store st2 !! name = Some h ∧ hv_Phase h = PhaseUnreachable ∧ hv_LastError h = Error c).
Proof.
  intros HbOk Hok Hsync Hhv. assert (Hn : hv_Name hv = name) by (by apply (HbOk name hv), Hsync).
  destruct (syncHypervisor_changed m st hv (group items name) leases Hok) as (Hc & Hh & Herr). rewrite Hn in Hh.
  destruct (syncHypervisor memory_vms lim w m st hv (group items name) leases) as [[m' st'] e] eqn:E. simpl in Hc, Hh.
  assert (Hok' : mem_ok (hs_store st')) by (by apply Hh).
  assert (Hc' : changed_at (in_scope byName items [name]) m m').
  { destruct (connectExecutor lim w hv) as [exec|c] eqn:Ec.
    - eapply changed_weaken; [|exact Hc]. intros n (v & Hv & Hvn). exists name, hv, exec, v. split_and!; try done. left.
    - specialize (Herr c eq_refl). injection Herr as <- _ _. apply changed_refl. }
  destruct e as [e|]; cbv zeta; split_and!; try done.
  - eapply hv_changed_trans; [exact Hh|]. rewrite <- Hn. by apply mark_unreachable_spec.
  - intros c Hcon. specialize (Herr c Hcon). injection Herr as <- <- <-. rewrite <- Hn.
    apply mark_unreachable_spec; [done|]. rewrite Hn, Hhv. eauto.
  - intros c Hcon. specialize (Herr c Hcon). done.
Qed.

(** What the loop over [names] does, from [m] and [st]: it writes machines in scope
    and hypervisors of the list, and when nothing is cancelled it marks every
    hypervisor it could not reach. *)
Definition unreachable_marked (st : HvState) (name : string) (c : error) : Prop :=
  ∃ h, hs_store st !! name = Some h ∧ hv_Phase h = PhaseUnreachable ∧ hv_LastError h = Error c.

Definition round_done (byName : gmap string Hypervisor) (items : list VirtualMachine) (names : list string)
  (m : vms) (st : HvState) (out : vms * HvState * option error) : Prop :=
  changed_at (in_scope byName items names) m out.1.1
  ∧ hv_changed (fun k => k ∈ names) st out.1.2
  ∧ (no_cancel → out.2 = None ∧ ∀ name hv c, name ∈ names → synced byName name hv → connectExecutor lim w hv = Err c →
       unreachable_marked out.1.2 name c).

Lemma in_scope_cons byName items name names n :
  in_scope byName items [name] n ∨ in_scope byName items names n → in_scope byName items (name :: names) n.
Proof.
  intros [(x & hv & ex & v & Hx%list_elem_of_singleton & ?)|(x & hv & ex & v & Hx & ?)].
  - subst x. exists name, hv, ex, v. split; [left|done].
  - exists x, hv, ex, v. split; [by right|done].
Qed.

(** A round goes on after [name] was dealt with. *)
Lemma round_cons byName items name names m st m1 st1 out :
  name ∉ names → changed_at (in_scope byName items [name]) m m1 → hv_changed (fun k => k = name) st st1 →
  (∀ hv c, synced byName name hv → connectExecutor lim w hv = Err c → unreachable_marked st1 name c) →
  round_done byName items names m1 st1 out → round_done byName items (name :: names) m st out.
Proof.
  intros Hnew Hm1 Hst1 Hun (I1 & I2 & I3). split_and!.
  - eapply changed_trans; eapply changed_weaken; [|exact Hm1| |exact I1]; intros n Hn; apply in_scope_cons; auto.
  - eapply hv_changed_trans; eapply hv_changed_weaken; [|exact Hst1| |exact I2].
    + intros n ->. left.
    + intros n Hn. by right.
  - intros Hc. destruct (I3 Hc) as [-> I4]. split; [done|].
    intros x hv c [->|Hx]%elem_of_cons Hs Hcon; [|by eapply I4].
    destruct I2 as (I2 & _). unfold unreachable_marked. rewrite (ca_other _ _ _ I2) by done. by apply (Hun hv).
Qed.

(** The loop over the sorted names; each hypervisor is met once. *)
Lemma names_round byName items leases names : mem_ok byName → NoDup names → ∀ m st,
  mem_ok (hs_store st) → (∀ n, n ∈ names → hs_store st !! n = byName !! n) →
  round_done byName items names m st (sync_names memory_vms lim w m st byName items leases names).
Proof.
  intros HbOk. induction names as [|name names IH]; intros Hnd m st Hok Hst.
  { split_and!; [apply changed_refl|apply hv_changed_refl|]. intros _. split; [done|]. by intros ??? ?%not_elem_of_nil. }
  apply NoDup_cons in Hnd as [Hnew Hnd]. cbn [sync_names].
  destruct (w_ctx_hv w name) as [e|] eqn:Ectx.
  { split_and!; [apply changed_refl|apply hv_changed_refl|]. intros [Hc _]. by rewrite Hc in Ectx. }
  assert (Hrest : ∀ m1 st1, changed_at (in_scope byName items [name]) m m1 → hv_changed (fun k => k = name) st st1 →
    (∀ hv c, synced byName name hv → connectExecutor lim w hv = Err c → unreachable_marked st1 name c) →
    round_done byName items (name :: names) m st (sync_names memory_vms lim w m1 st1 byName items leases names)).
  { intros m1 st1 Hm1 Hst1 Hun. eapply round_cons; [done..|]. destruct Hst1 as (Hs1 & _).
    apply IH; [done|by eapply (ca_ok _ _ _ Hs1)|]. intros n Hn.
    rewrite (ca_other _ _ _ Hs1) by (intros ->; done). apply Hst. by right. }
  destruct (byName !! name) as [hv|] eqn:Eb; cycle 1.
  { apply Hrest; [apply changed_refl|apply hv_changed_refl|]. intros hv c [Hs _]. congruence. }
  destruct (skipUnreachableHypervisor lim hv (w_skip_clock w name)) eqn:Eskip.
  { apply Hrest; [apply changed_refl|apply hv_changed_refl|]. intros hv' c [Hs Hk]. congruence. }
  assert (Hsy : synced byName name hv) by (by split).
  pose proof (hypervisor_round byName items leases name hv m st HbOk Hok Hsy ltac:(rewrite Hst by left; exact Eb)) as Hr.
  destruct (syncHypervisor memory_vms lim w m st hv (group items name) leases) as [[m1 st1] e1].
  cbv zeta in Hr. destruct Hr as (R1 & R2 & R3 & R4).
  assert (Hun : ∀ hv' c, synced byName name hv' → connectExecutor lim w hv' = Err c →
    unreachable_marked (match e1 with Some e => markHypervisorUnreachable st1 (w_mark_clock w name) hv e | None => st1 end) name c).
  { intros hv' c [Hs _] Hcon. assert (hv' = hv) as -> by congruence. by apply R4. }
  destruct e1 as [e1|]; [|by apply Hrest].
  destruct (_ || _); [|by apply Hrest]. destruct (w_ctx_failed w name) as [c|] eqn:Ef; [|by apply Hrest].
  split_and!; [|eapply hv_changed_weaken; [|exact R2]; by intros n ->; left|].
  - eapply changed_weaken; [|exact R1]. intros n Hn. apply in_scope_cons. auto.
  - intros [_ Hc]. by rewrite Hc in Ef.
Qed.
End round.

(** The index of the listed hypervisors is the store itself. *)
Lemma by_name_index (hs : gmap string Hypervisor) : mem_ok hs →
  (list_to_map ((fun h => (hv_Name h, h)) <$> reverse (merge_sort key_le (mem_values hs))) : gmap string Hypervisor) = hs.
Proof.
  intros Hok. apply map_eq. intros n.
  assert (Hnd : NoDup (((fun h => (hv_Name h, h)) <$> reverse (merge_sort key_le (mem_values hs))).*1)).
  { rewrite <- list_fmap_compose. change (fst ∘ (fun h => (hv_Name h, h))) with hv_Name.
    rewrite reverse_Permutation, merge_sort_Permutation. by apply (mem_values_NoDup hs). }
  destruct (hs !! n) as [h|] eqn:E.
  - apply elem_of_list_to_map; [exact Hnd|]. apply list_elem_of_fmap. exists h.
    rewrite (Hok _ _ E : hv_Name h = n). split; [done|].
    rewrite elem_of_reverse, merge_sort_Permutation, elem_of_mem_values by done. by rewrite (Hok _ _ E : key_of h = n).
  - apply not_elem_of_list_to_map_1. rewrite <- list_fmap_compose.
    change (fst ∘ (fun h => (hv_Name h, h))) with hv_Name. intros (h & -> & Hh)%list_elem_of_fmap.
    rewrite elem_of_reverse, merge_sort_Permutation, elem_of_mem_values in Hh by done.
    change (key_of h) with (hv_Name h) in Hh. congruence.
Qed.

Lemma elem_of_referenced items r :
  r ∈ referenced items ↔ r ≠ "" ∧ ∃ v, v ∈ items ∧ TrimSpace (v_HypervisorRef v) = r.
Proof.
  unfold referenced. rewrite elem_of_sorted_set, elem_of_list_to_set, list_elem_of_filter, list_elem_of_fmap. naive_solver.
Qed.

(** A machine the round cannot reach: it names no hypervisor, one that is not
    registered, one that failed too recently, or one that does not answer. *)
Definition out_of_reach (lim : Limits) (w : World) (st : HvState) (v : VirtualMachine) : Prop :=
  let ref := TrimSpace (v_HypervisorRef v) in
  ref = "" ∨ ∀ hv, synced lim w (hs_store st) ref hv → ∃ e, connectExecutor lim w hv = Err e.

(** A round of synchronisation.  Whatever the hypervisors answer and however the
    races end, a round neither adds nor removes a machine or a hypervisor and leaves
    the credentials alone; a machine whose hypervisor is not named, not registered,
    in its retry interval or not answering keeps its record.  Unless the context is
    cancelled, the round goes through all hypervisors: one that cannot be connected
    does not stop the others, and ends up Unreachable with the reason. *)
Lemma sync_round_spec (lim : Limits) (w : World) (m : vms) (st : HvState) (leases : gmap string string)
  (Hm : mem_ok m) (Hst : mem_ok (hs_store st)) :
  let '((m', st'), e) := SyncAll memory_vms lim w m st leases in
  (dom m' = dom m ∧ mem_ok m') ∧ (dom (hs_store st') = dom (hs_store st) ∧ mem_ok (hs_store st'))
  ∧ (hs_tokens st' = hs_tokens st ∧ hs_agents st' = hs_agents st)
  ∧ (∀ n v, m !! n = Some v → out_of_reach lim w st v → m' !! n = Some v)
  ∧ (no_cancel w → e = None ∧
      ∀ n v hv c, m !! n = Some v → TrimSpace (v_HypervisorRef v) ≠ "" →
        synced lim w (hs_store st) (TrimSpace (v_HypervisorRef v)) hv → connectExecutor lim w hv = Err c →
        ∃ h, hs_store st' !! hv_Name hv = Some h ∧ hv_Phase h = PhaseUnreachable ∧ hv_LastError h = Error c).
Proof.
  unfold SyncAll. cbn [vs_List memory_vms]. unfold VMStore_List, mem_list. cbv zeta.
  rewrite by_name_index by done. set (items := merge_sort key_le (mem_values m)).
  assert (Hitems : ∀ v, v ∈ items ↔ m !! v_Name v = Some v).
  { intros v. unfold items. rewrite merge_sort_Permutation. by rewrite elem_of_mem_values. }
  pose proof (names_round lim w (hs_store st) items leases (referenced items) Hst (proj2 (sorted_set_sorted _)) m st Hst
    (fun _ _ => eq_refl)) as H.
  destruct (sync_names memory_vms lim w m st (hs_store st) items leases (referenced items)) as [[m' st'] e].
  destruct H as ([D O K] & ([D' O' K'] & T1 & T2) & R). cbn [fst snd] in *. split_and!; auto.
  - intros n v Hv Hout. rewrite O; [done|].
    intros (name & hv & ex & v' & Hname%elem_of_referenced & Hs & Hcon & [Hg Hv']%list_elem_of_filter & Hn').
    apply Hitems in Hv'. rewrite Hn' in Hv'. assert (v' = v) as -> by congruence.
    destruct Hout as [He|Hout]; [destruct Hname; congruence|]. rewrite Hg in Hout.
    destruct (Hout hv Hs) as [c Hc]. congruence.
  - intros Hc. destruct (R Hc) as [-> R']. split; [done|]. intros n v hv c Hv Hne Hs Hcon.
    assert (hv_Name hv = TrimSpace (v_HypervisorRef v)) as -> by (by apply (Hst _ hv), Hs).
    apply (R' _ hv); try done. apply elem_of_referenced. split; [done|]. exists v. split; [|done].
    apply Hitems. by rewrite (Hm _ _ Hv : v_Name v = n).
Qed.

Definition quiet_world (answer : LibvirtConfig → result Executor) : World :=
  mkWorld answer (fun _ => mkSyncClock 20 20 20) (fun _ => SyncDone) (fun _ => None) (fun _ => None) (fun _ => None)
    (fun _ => 20) (fun _ => 20).
Definition plain_limits : Limits := mkLimits 0 0 (fun _ => "5s").

Lemma sync_round_spec_witness :
  let st := mkHvState {[ "hv-1" := sample_hv ]} ∅ ∅ in
  let m := {[ "vm-1" := sample_vm "vm-1" "tok" ]} : vms in
  let '((m', st'), e) := SyncAll memory_vms plain_limits (quiet_world (fun _ => Err (ErrNew "refused"))) m st ∅ in
  m' !! "vm-1" = Some (sample_vm "vm-1" "tok")
  ∧ ∃ h, hs_store st' !! "hv-1" = Some h ∧ hv_Phase h = PhaseUnreachable ∧ hv_LastError h = "refused".
Proof.
  intros st m.
  assert (Hm : mem_ok m) by (intros n x; unfold m; rewrite lookup_singleton_Some; intros [<- <-]; reflexivity).
  assert (Hst : mem_ok (hs_store st))
    by (intros n x; unfold st; cbn [hs_store]; rewrite lookup_singleton_Some; intros [<- <-]; reflexivity).
  assert (Hv : m !! "vm-1" = Some (sample_vm "vm-1" "tok")) by reflexivity.
  pose proof (sync_round_spec plain_limits (quiet_world (fun _ => Err (ErrNew "refused"))) m st ∅ Hm Hst) as H.
  destruct (SyncAll memory_vms plain_limits (quiet_world (fun _ => Err (ErrNew "refused"))) m st ∅) as [[m' st'] e].
  destruct H as (_ & _ & _ & H1 & H2). split.
  - apply H1; [exact Hv|]. right. intros hv _. exists (ErrNew "refused"). reflexivity.
  - destruct H2 as [_ H2]; [split; reflexivity|].
    assert (Hs : synced plain_limits (quiet_world (fun _ => Err (ErrNew "refused"))) (hs_store st)
      (TrimSpace (v_HypervisorRef (sample_vm "vm-1" "tok"))) sample_hv) by (vm_compute; split; reflexivity).
    exact (H2 _ _ sample_hv (ErrNew "refused") Hv ltac:(vm_compute; discriminate) Hs eq_refl).
Defined.

(** ** Two interleavings *)

(** A synchronisation that read the record before a redeployment armed its window,
    and writes after it, puts the old window back: the redeployment's token is gone
    from the record, so the redeployment's own completion is refused as stale. *)
Lemma sync_loses_redeploy_window :
  let before := (sample_vm "vm-1" "old") <| v_Phase := PhaseRunning |>
                  <| v_Provisioning := no_window <| ps_CompletionToken := "old" |> |> in
  let armed := sample_vm "vm-1" "new" in
  let m' := (syncWithExecutor memory_vms ({[ "vm-1" := armed ]} : vms) (mkSyncClock 20 20 20) sample_hv exec_gone before ∅).1 in
  let shown (m : vms) := (fun u => (v_Phase u, ps_CompletionToken (v_Provisioning u))) <$> m !! "vm-1" in
  shown m' = Some (PhaseMissing, "old")
  ∧ (fun r => shown r.1) <$> UpdateDeployStatus memory_vms m' 30 "vm-1" PhaseProvisioning "create+pxe" (v_Provisioning armed)
    = Ok (Some (PhaseMissing, "old")).
Proof. split; vm_compute; reflexivity. Qed.

(** The Error phase of a window that timed out lasts until the next synchronisation:
    a domain that is still running makes the record Running again, and the window is
    no longer protected against a late completion of the deployment. *)
Lemma timeout_error_is_transient :
  let v := sample_vm "vm-1" "tok" in
  let sync_at m t v := syncWithExecutor memory_vms m (mkSyncClock t t t) sample_hv exec_running v ∅ in
  let one := sync_at ({[ "vm-1" := v ]} : vms) 200 v in
  let shown r := (fun u => (v_Phase u, v_LastError u, window_over u)) <$> r in
  shown one.2 = Ok (PhaseError, TimeoutError, true)
  ∧ (u ← one.2; shown (sync_at one.1 205 u).2) = Ok (PhaseRunning, TimeoutError, false).
Proof. split; vm_compute; reflexivity. Qed.

(** ** migrate.go *)

Section migrate.
Context {S : Type} (store : VMStore S).

(** The candidates for an automatic migration: the other Ready hypervisors with
    memory left. *)
Definition migration_candidates (source : string) (hs : list Hypervisor) : list (string * Z) :=
  candidates (filter (fun h => hv_Name h ≠ source ∧ hv_Phase h = Hypervisor.PhaseReady) hs).

Definition pick_target (rand : Z → Z) (source : string) (hs : list Hypervisor) : outcome (result string) :=
  let cs := migration_candidates source hs in
  match last cs with
  | None => Returns (Err (ErrNew "no suitable target hypervisors available for migration"))
  | Some l =>
      let total := fold_left (fun acc c => int64 (acc + c.2)) cs 0 in
      if total <=? 0 then Panics
      else let t := pick_candidate (rand total) 0 cs "" in
           Returns (Ok (if t ==? "" then l.1 else t))
  end.

(** What the libvirt connection to the source does, and what happens to the store
    while the domain moves. *)
Record Migration := mkMigration {
  mg_connect : result unit;
  mg_migrate : string → string → option error;
  mg_during : S → S;
  mg_t_start : Time;
  mg_t_error : Time;
  mg_t_done : Time }.

(** [UpdateStatus] whose error is ignored. *)
Definition try_status (s : S) (now : Time) (v : VirtualMachine) (phase : Phase) (err : string) : S * VirtualMachine :=
  match VmStore.UpdateStatus store s now (v_Name v) phase "migrate" err with
  | Ok (s, updated) => (s, updated)
  | Err _ => (s, v)
  end.

Definition Migrate (rand : Z → Z) (hs : gmap string Hypervisor) (mg : Migration) (s : S) (v : VirtualMachine)
  (target : string) : outcome (S * result VirtualMachine) :=
  match mem_get hs (v_HypervisorRef v) with
  | Err e => Returns (s, Err (ErrWrap "resolve source hypervisor: " e ""))
  | Ok source =>
      chosen ← (if target ==? "" then pick_target rand (hv_Name source) (merge_sort key_le (mem_values hs))
                else Returns (Ok target));
      match chosen with
      | Err e => Returns (s, Err e)
      | Ok target =>
          if target ==? hv_Name source
          then Returns (s, Err (ErrNew "target hypervisor must be different from source"))
          else match mem_get hs target with
          | Err e => Returns (s, Err (ErrWrap "resolve target hypervisor: " e ""))
          | Ok targetHV =>
              let '(s, v) := try_status s (mg_t_start mg) v PhaseMigrating "" in
              match mg_connect mg with
              | Err e =>
                  Returns ((try_status s (mg_t_error mg) v PhaseError ("connect to source: " +:+ Error e)).1,
                           Err (ErrWrap "connect to source hypervisor: " e ""))
              | Ok _ =>
                  let domainName := if v_LibvirtDomain v ==? "" then v_Name v else v_LibvirtDomain v in
                  let destURI := "qemu+tcp://" +:+ cn_Host (hv_Connection targetHV) +:+ "/system" in
                  let s := mg_during mg s in
                  match mg_migrate mg domainName destURI with
                  | Some e => Returns ((try_status s (mg_t_error mg) v PhaseError (Error e)).1,
                                       Err (ErrWrap "migration failed: " e ""))
                  | None =>
                      let v := v <| v_HypervisorRef := target |> <| v_HypervisorName := target |>
                                 <| v_CreatedOnHost := target |> <| v_Phase := PhaseRunning |>
                                 <| v_LastPowerAction := "migrate" |> <| v_LastError := "" |>
                                 <| v_UpdatedAt := mg_t_done mg |> in
                      match vs_Upsert store s v with
                      | Err e => Returns (s, Err (ErrWrap "update vm after migration: " e ""))
                      | Ok s => Returns (s, Ok v)
                      end
                  end
              end
          end
      end
  end.
End migrate.

(** The target an automatic migration chooses. *)
Lemma pick_target_spec rand source hs :
  (∀ n, 0 < n → 0 <= rand n < n) → weight (candidates hs) <= max_int64 →
  ∃ r, pick_target rand source hs = Returns r
  ∧ ∀ t, r = Ok t → ∃ h, h ∈ hs ∧ hv_Name h = t ∧ t ≠ source ∧ hv_Phase h = Hypervisor.PhaseReady ∧ 0 < AvailableMemory h.
Proof.
  intros Hrand Hfit. unfold pick_target. set (cs := migration_candidates source hs).
  assert (Hpos : Forall (fun c => 0 < c.2) cs) by apply candidates_pos.
  assert (Hw : weight cs <= max_int64) by (etrans; [apply candidates_filter_weight|done]).
  assert (Hin : ∀ n k, (n, k) ∈ cs → ∃ h, h ∈ hs ∧ hv_Name h = n ∧ n ≠ source ∧ hv_Phase h = Hypervisor.PhaseReady ∧ 0 < AvailableMemory h).
  { intros n k (h & [[Hs Hp] Hh]%list_elem_of_filter & [= -> ->] & Hm)%elem_of_candidates. eauto 10. }
  destruct (last cs) as [[ln lw]|] eqn:El; [|by eexists].
  assert (Hlast : (ln, lw) ∈ cs) by (by apply last_Some_elem_of).
  assert (Hne : cs ≠ []) by (intros E; rewrite E in El; done).
  pose proof (weight_pos cs Hne Hpos) as Hpw.
  rewrite (total_weight cs 0) by (done || lia). rewrite Z.add_0_l. replace (weight cs <=? 0) with false by lia.
  eexists. split; [reflexivity|]. intros t. case_bool_decide as Ht; intros [= <-]; [by eapply Hin|].
  destruct (pick_candidate_spec cs 0 (rand (weight cs)) "") as (pre & name & k & suf & E & _ & Hpick);
    [lia|done|lia|specialize (Hrand _ Hpw); lia|]. rewrite Hpick. eapply (Hin name k). rewrite E. set_solver.
Qed.

Lemma choose_target_spec rand (hs : gmap string Hypervisor) source target :
  (∀ n, 0 < n → 0 <= rand n < n) → weight (candidates (merge_sort key_le (mem_values hs))) <= max_int64 → mem_ok hs →
  ∃ c, (if target ==? "" then pick_target rand source (merge_sort key_le (mem_values hs)) else Returns (Ok target))
       = Returns c
  ∧ ∀ t, c = Ok t → (target ≠ "" → t = target)
      ∧ (target = "" → ∃ h, hs !! t = Some h ∧ hv_Phase h = Hypervisor.PhaseReady ∧ 0 < AvailableMemory h).
Proof.
  intros Hrand Hfit Hhs. case_bool_decide as Ht; [|exists (Ok target); split; [done|]; naive_solver].
  destruct (pick_target_spec rand source _ Hrand Hfit) as (c & -> & Hc). exists c. split; [done|].
  intros t Hct. split; [done|]. intros _. destruct (Hc t Hct) as (h & Hh & Hn & _ & Hp & Hmem).
  exists h. split; [|done]. rewrite merge_sort_Permutation, elem_of_mem_values in Hh by done. by rewrite <- Hn.
Qed.

(** A status write of the migration on a stored record. *)
Lemma try_status_stored (m : vms) now v x ph err : mem_ok m → m !! v_Name v = Some x →
  let u := x <| v_Phase := ph |> <| v_LastPowerAction := "migrate" |> <| v_LastError := err |> <| v_UpdatedAt := now |> in
  try_status memory_vms m now v ph err = (<[v_Name v := u]> m, u).
Proof.
  intros Hok Hx u. unfold try_status, VmStore.UpdateStatus.
  assert (vs_Get memory_vms m (v_Name v) = Ok x) as -> by (by apply memory_get_Ok).
  cbn [mbind result_bind]. fold u. assert (Hn : v_Name u = v_Name v) by (exact (Hok _ _ Hx)).
  by rewrite write_or_not_found_memory, Hn, Hx.
Qed.

(** What a migration leaves behind. *)
Definition migrated (hs : gmap string Hypervisor) (v : VirtualMachine) (target : string) (u : VirtualMachine) : Prop :=
  ∃ h, hs !! v_HypervisorRef u = Some h ∧ v_HypervisorRef u ≠ v_HypervisorRef v ∧ v_Phase u = PhaseRunning
  ∧ v_CreatedOnHost u = v_HypervisorRef u ∧ v_Provisioning u = v_Provisioning v ∧ v_LastError u = ""
  ∧ (target ≠ "" → v_HypervisorRef u = target)
  ∧ (target = "" → hv_Phase h = Hypervisor.PhaseReady ∧ 0 < AvailableMemory h).

(** Migration.  Undisturbed, a migration always returns.  If it succeeds, the
    record is on the target, which is registered, is not the source and, when it was
    chosen automatically, is Ready with memory left; the machine is Running there.  If
    it fails, the record stays on its hypervisor, unchanged or in the Error phase.  No
    other record changes. *)
Lemma migrate_spec (rand : Z → Z) (hs : gmap string Hypervisor) (mg : Migration) (m : vms) (v : VirtualMachine)
  (target : string)
  (Hrand : ∀ n, 0 < n → 0 <= rand n < n)
  (Hfit : weight (candidates (merge_sort key_le (mem_values hs))) <= max_int64)
  (Hhs : mem_ok hs) (Hm : mem_ok m) (Hv : m !! v_Name v = Some v) (Hquiet : ∀ s, mg_during mg s = s) :
  ∃ u r, Migrate memory_vms rand hs mg m v target = Returns (<[v_Name v := u]> m, r)
  ∧ v_Name u = v_Name v
  ∧ match r with
    | Ok u' => u' = u ∧ migrated hs v target u
    | Err _ => v_HypervisorRef u = v_HypervisorRef v ∧ (u = v ∨ v_Phase u = PhaseError)
    end.
Proof.
  unfold Migrate. unfold mem_get at 1.
  assert (Hsame : ∀ e, ∃ u r, Returns (m, Err e) = Returns (<[v_Name v := u]> m, r) ∧ v_Name u = v_Name v ∧
    match r with Ok u' => u' = u ∧ migrated hs v target u
    | Err _ => v_HypervisorRef u = v_HypervisorRef v ∧ (u = v ∨ v_Phase u = PhaseError) end).
  { intros e. exists v, (Err e). rewrite insert_id by done. naive_solver. }
  destruct (hs !! v_HypervisorRef v) as [source|] eqn:Es; [|apply Hsame].
  pose proof (Hhs _ _ Es : hv_Name source = v_HypervisorRef v) as Hsn. rewrite Hsn.
  destruct (choose_target_spec rand hs (v_HypervisorRef v) target Hrand Hfit Hhs) as (c & -> & Hc). step_return. destruct c as [t|e]; [|apply Hsame].
  destruct (Hc t eq_refl) as [Hc1 Hc2]. case_bool_decide as Hts; [apply Hsame|].
  unfold mem_get. destruct (hs !! t) as [th|] eqn:Et; [|apply Hsame].
  rewrite (try_status_stored m _ v v) by done. cbv zeta. set (v1 := v <| v_Phase := PhaseMigrating |> <| v_LastPowerAction := _ |> <| v_LastError := _ |> <| v_UpdatedAt := _ |>).
  assert (Hm1 : mem_ok (<[v_Name v := v1]> m)).
  { intros n x. rewrite lookup_insert_Some. intros [[<- <-]|[_ Hx]]; [done|by apply Hm]. }
  assert (Hfail : ∀ now err, (try_status memory_vms (<[v_Name v := v1]> m) now v1 PhaseError err).1
    = <[v_Name v := v1 <| v_Phase := PhaseError |> <| v_LastPowerAction := "migrate" |> <| v_LastError := err |> <| v_UpdatedAt := now |>]> m).
  { intros now err. rewrite (try_status_stored _ _ v1 v1 _ _ Hm1 (lookup_insert_eq m (v_Name v) v1)).
    change (v_Name v1) with (v_Name v). simpl fst. by rewrite insert_insert_eq. }
  destruct (mg_connect mg) as [[]|e].
  2: { rewrite Hfail. do 2 eexists. split; [reflexivity|]. split; [reflexivity|]. split; [reflexivity|]. by right. }
  rewrite Hquiet. destruct (mg_migrate mg _ _) as [e|].
  { rewrite Hfail. do 2 eexists. split; [reflexivity|]. split; [reflexivity|]. split; [reflexivity|]. by right. }
  cbn [vs_Upsert memory_vms]. unfold VMStore_Upsert, mem_upsert.
  set (v2 := v1 <| v_HypervisorRef := t |> <| v_HypervisorName := _ |> <| v_CreatedOnHost := _ |> <| v_Phase := _ |>
    <| v_LastPowerAction := _ |> <| v_LastError := _ |> <| v_UpdatedAt := _ |>).
  change (key_of v2) with (v_Name v). rewrite insert_insert_eq. exists v2, (Ok v2).
  split; [done|]. split; [reflexivity|]. split; [done|]. exists th.
  change (v_HypervisorRef v2) with t. split_and!; try done.
  intros Ht. destruct (Hc2 Ht) as (h & Hh & ?). assert (h = th) as -> by congruence. done.
Qed.

Definition two_hosts : gmap string Hypervisor := {[ "hv-1" := sample_hv; "hv-2" := sample_hv <| hv_Name := "hv-2" |> ]}.
Definition smooth (during : vms → vms) : Migration :=
  mkMigration (Ok tt) (fun _ _ => None) during 10 11 12.

Lemma migrate_spec_witness :
  ∃ u r, Migrate memory_vms (fun n => n - 1) two_hosts (smooth id) ({[ "vm-1" := sample_vm "vm-1" "tok" ]} : vms)
           (sample_vm "vm-1" "tok") "" = Returns (<[ "vm-1" := u ]> {[ "vm-1" := sample_vm "vm-1" "tok" ]}, r)
         ∧ v_Name u = "vm-1".
Proof.
  pose (m := {[ "vm-1" := sample_vm "vm-1" "tok" ]} : vms).
  assert (Hm : mem_ok m) by (intros n x; unfold m; rewrite lookup_singleton_Some; intros [<- <-]; reflexivity).
  assert (Hhs : mem_ok two_hosts).
  { intros n x. unfold two_hosts. rewrite lookup_insert_Some, lookup_singleton_Some.
    intros [[<- <-]|[_ [<- <-]]]; reflexivity. }
  assert (Hv : m !! "vm-1" = Some (sample_vm "vm-1" "tok")) by reflexivity.
  destruct (migrate_spec (fun n => n - 1) two_hosts (smooth id) m (sample_vm "vm-1" "tok") "" ltac:(intros; lia)
    ltac:(vm_compute; discriminate) Hhs Hm Hv (fun s => eq_refl)) as (u & r & H & Hn & _).
  exists u, r. split; [exact H|exact Hn].
Defined.

(** A machine deleted while its domain migrates comes back: the final write is an
    unconditional upsert, unlike the other status writes. *)
Lemma migrate_resurrects_deleted :
  let m := {[ "vm-1" := sample_vm "vm-1" "tok" ]} : vms in
  match Migrate memory_vms (fun n => n - 1) two_hosts (smooth (delete "vm-1")) m (sample_vm "vm-1" "tok") "hv-2" with
  | Returns (m', r) => (v_HypervisorRef <$> m' !! "vm-1") = Some "hv-2"
  | Panics => False
  end.
Proof. vm_compute. reflexivity. Qed.
