(* ===== verification/VmDeploy.v ===== *)
(** * internal/vm: deploying a machine on its hypervisor

    The sequence of host operations that creates or replaces the domain of a
    virtual machine (deploy.go), the configuration of that domain
    (domain_config.go), the preparation of the backing image and of the NoCloud
    seed (cloud_image.go, cloud_image_download.go, nocloud_seed.go) and the base
    URL a guest reports to (pxe_url.go).

    Host operations, downloads and the rendering of seed files are [call]s; what
    they answer is an argument, and after each of them other writers may change
    the stores. *)
From S2P Require Import Prelude GoStrings GoNet GoPath GoCrypto GoTime Resource Store OsImage Libvirt Hypervisor Vm VmStore RuntimeSync.

(** ** domain_config.go *)

Definition vmPrimaryMAC (v : VirtualMachine) : string :=
  match List.find (fun m => m !=? "") (norm_mac <$> (ni_MAC <$> v_Network v)) with
  | Some m => m
  | None => default "" (List.find (fun m => m !=? "") (norm_mac <$> (nis_MAC <$> v_NetworkInterfaces v)))
  end.

(** [pxeNoCloudFn] renders the SMBIOS serial from base URL, install type and MAC. *)
Definition LineConfig : Type := string → string → string → string.

Definition image_file (name : string) : string := "/var/lib/libvirt/images/" +:+ name +:+ ".qcow2".

(** [if b { ... }] on a record. *)
Definition apply_if {A} (b : bool) (f : A → A) (a : A) : A := if b then f a else a.

Definition apply_advanced (o : AdvancedOptions) (c : DomainConfig) : DomainConfig :=
  let c := apply_if (ao_CPUPinning o !=? ∅) (assign dc_CPUPinning (ao_CPUPinning o)) c in
  let c := apply_if (ao_CPUMode o !=? "") (assign dc_CPUMode (ao_CPUMode o)) c in
  let c := apply_if (0 <? ao_IOThreads o) (assign dc_IOThreads (ao_IOThreads o)) c in
  let c := apply_if (ao_DiskDriver o ==? "virtio") (assign dc_DiskBus "virtio") c in
  let c := apply_if (ao_DiskDriver o ==? "scsi") (assign dc_DiskBus "scsi") c in
  apply_if (0 <? ao_NetMultiqueue o) (assign dc_NetQueues (ao_NetMultiqueue o)) c.

Definition BuildDomainConfig (v : VirtualMachine) (domainName bootDev pxeBaseURL : string) (fn : option LineConfig)
  : DomainConfig :=
  let c := mkDomainConfig domainName "" false "" (rs_CPUCores (v_Resources v)) (rs_MemoryMB (v_Resources v))
             (image_file (v_Name v)) "qcow2" (rs_DiskGB (v_Resources v))
             ((fun nic => mkNetworkConfig (ni_Bridge nic) (ni_MAC nic) 0) <$> v_Network v)
             "" bootDev "" "" ∅ "" 0 "" 0 in
  let c := match v_AdvancedOptions v with Some o => apply_advanced o c | None => c end in
  let base := TrimSpace pxeBaseURL in
  let c := match fn with
           | Some f =>
               if base !=? "" then
                 let installType := match v_InstallCfg v with Some i => ic_Type i | None => InstallConfigPreseed end in
                 let serial := f base installType (vmPrimaryMAC v) in
                 if serial !=? "" then c <| dc_SMBIOSSerial := serial |> else c
               else c
           | None => c
           end in
  if is_windows_vm v then
    let c := if bootDev ==? "network" then c <| dc_BootFallback := "hd" |> else c in
    c <| dc_Firmware := "uefi" |> <| dc_TPM := true |> <| dc_NICModel := "e1000e" |> <| dc_DiskBus := "sata" |>
      <| dc_CPUMode := "host-passthrough" |> <| dc_SMBIOSSerial := "" |>
  else c.

Definition applyInstallStorageOverrides (c : DomainConfig) (installType : string) : DomainConfig :=
  if installType ==? InstallConfigCurtin then
    let c := c <| dc_DiskFormat := "qcow2" |> in
    if dc_DiskBus c ==? "" then c <| dc_DiskBus := "sata" |> else c
  else c.

(** deploy.go: a cloud image boots with its seed disk instead of the SMBIOS serial. *)
Definition with_seed (seed : option string) (c : DomainConfig) : DomainConfig :=
  match seed with
  | Some path => c <| dc_CloudInit := path |> <| dc_SMBIOSSerial := "" |>
  | None => c
  end.

Definition IsIgnorableDestroyError (e : error) : bool :=
  let msg := ToLower (Error e) in
  Contains msg "not running" || Contains msg "domain is not running" || Contains msg "not found"
  || Contains msg "lookup domain".

Definition SkipHostStorageCleanup (phase : Phase) (destroyErr undefineErr : option error) : bool :=
  let gone e := match e with Some e => IsDomainNotFoundError e | None => false end in
  (phase ==? PhaseMissing) && gone destroyErr && gone undefineErr.

Definition resolveInstallType (v : VirtualMachine) : string :=
  match v_InstallCfg v with
  | Some i => if TrimSpace (ic_Type i) ==? "" then InstallConfigPreseed else ic_Type i
  | None => InstallConfigPreseed
  end.

(** ** pxe_url.go *)

Definition splitListenAddr (addr : string) : result (string * string) :=
  let trimmed := TrimSpace addr in
  if trimmed ==? "" then Ok ("", "5392")
  else if HasPrefix trimmed ":" then Ok ("", TrimPrefix trimmed ":")
  else match SplitHostPort trimmed with
  | Ok (host, port) => Ok (Trim host "[]", port)
  | Err e => if Contains trimmed ":" then Err (ErrWrap ("invalid listen_addr " +:+ Quote trimmed +:+ ": ") e "")
             else Ok (Trim trimmed "[]", "5392")
  end.

(** [IP.IsUnspecified] and [IP.IsLoopback]. *)
Definition ip_unspecified (ip : IP) : bool :=
  match To4 ip with Some a => a =? 0 | None => ip ==? replicate 16 (byte_of 0) end.
Definition ip_loopback (ip : IP) : bool :=
  match To4 ip with Some a => a `div` 2 ^ 24 =? 127 | None => ip ==? replicate 15 (byte_of 0) ++ [byte_of 1] end.

Definition isUnspecifiedHost (host : string) : bool :=
  match ParseIP (Trim host "[]") with Some ip => ip_unspecified ip | None => false end.

Definition isLoopbackHost (host : string) : bool :=
  if EqualFold (Trim host "[]") "localhost" then true
  else match ParseIP (Trim host "[]") with Some ip => ip_loopback ip | None => false end.

Definition resolvePXEBaseURLFromListen (listenAddr : string) (detect : result string) : result string :=
  '(host, port) ← splitListenAddr listenAddr;
  let port := if port ==? "" then "5392" else port in
  host ← (if (host ==? "") || isUnspecifiedHost host then
            match detect with
            | Ok ip => Ok ip
            | Err e => Err (ErrWrap "detect primary IP for pxe.http_base_url: " e "")
            end
          else Ok host);
  if isLoopbackHost host
  then Err (ErrNew ("pxe.http_base_url is required when listen_addr " +:+ Quote listenAddr +:+ " is loopback-only"))
  else Ok ("http://" +:+ JoinHostPort host port +:+ "/pxe").

(** [netdetect.Detect] is the argument: an error, nothing, or an address. *)
Definition detectPrimaryIP (detected : result (option string)) : result string :=
  d ← detected;
  match d with
  | Some ip => if TrimSpace ip ==? "" then Err (ErrNew "primary IPv4 address not found") else Ok (TrimSpace ip)
  | None => Err (ErrNew "primary IPv4 address not found")
  end.

(** ** cloud_image.go: names *)

Definition hypervisorImageDir : string := "/var/lib/libvirt/images".

Definition normalizeSHA256 (value : string) : string :=
  ToLower (TrimSpace (TrimPrefix (TrimSpace value) "sha256:")).

Definition cloudImageVolumeName (name format : string) : string := volumeFileName name format.

Definition newline : string := String (ascii_of_N 10) "".

Definition cloudImageURLVolumeBaseName (img : OSImage) (format : string) : string :=
  let name := TrimSpace (oi_Name img) in
  let base := TrimSuffix name ("." +:+ format) in
  let text := "url=" +:+ TrimSpace (oi_URL img)
              +:+ newline +:+ "checksum=" +:+ normalizeSHA256 (oi_Checksum img)
              +:+ newline +:+ "size=" +:+ Itoa (oi_SizeBytes img)
              +:+ (if time_IsZero (oi_CreatedAt img) then ""
                   else newline +:+ "created=" +:+ RFC3339Nano (oi_CreatedAt img)) in
  base +:+ "-" +:+ of_bytes (take 12 (to_bytes (hex_encode (sha256 (to_bytes text))))).

Definition cloudImageBackingVolumeBaseName (img : OSImage) (format : string) : string :=
  if TrimSpace (oi_URL img) ==? "" then TrimSpace (oi_Name img) else cloudImageURLVolumeBaseName img format.

Definition backing_format (img : OSImage) : string :=
  let f := TrimSpace (oi_Format img) in
  let f := match oi_Manifest img with
           | Some m => if TrimSpace (ra_Format (mf_Root m)) !=? "" then TrimSpace (ra_Format (mf_Root m)) else f
           | None => f
           end in
  if f ==? "" then "qcow2" else f.

(** [images] is the image service, [None] when it is not configured. *)
Definition resolveCloudImageBackingImage (images : option (gmap string OSImage)) (osImageRef : string)
  : result (OSImage * string * string) :=
  match images with
  | None => Err (ErrNew "os image service is not configured")
  | Some imgs =>
      let ref := TrimSpace osImageRef in
      if ref ==? "" then Err (ErrNew "osImageRef is required for cloudimage deployment") else
      match mem_get imgs ref with
      | Err e => if errors_Is e ErrNotFound then Err (ErrNew ("referenced osImageRef not found: " +:+ ref)) else Err e
      | Ok img =>
          if negb (oi_Ready img) then Err (ErrNew ("osImage " +:+ ref +:+ " is not ready")) else
          let format := backing_format img in
          if format !=? "qcow2" then Err (ErrNew ("cloudimage deployment requires qcow2 OS image, got " +:+ format))
          else if (match oi_Manifest img with None => true | Some _ => false end) && (TrimSpace (oi_LocalPath img) ==? "") && (TrimSpace (oi_URL img) ==? "")
          then Err (ErrNew ("osImage " +:+ ref +:+ " has no localPath or url"))
          else Ok (img, filepath_Join hypervisorImageDir (cloudImageVolumeName (cloudImageBackingVolumeBaseName img format) format), format)
      end
  end.

(** nocloud_seed.go: names *)
Definition noCloudSeedVolumeName (vmName : string) : string := vmName +:+ "-cidata".
Definition noCloudSeedVolumeFileName (vmName : string) : string := noCloudSeedVolumeName vmName +:+ ".raw".
Definition macToken (mac : string) : string := ReplaceByte (ToLower (TrimSpace mac)) ":"%char "".

(** ** Host operations *)

(** The operations a deployment performs outside the stores: connecting to
    libvirt, the calls of [libvirt.Executor], an image download, and what the
    NoCloud seed needs; the handlers of the API add the graceful shutdown of a domain,
    a configured replacement for the removal from the host, and the release of a DHCP
    lease. *)
Inductive call : Type :=
| NewExecutor (cfg : LibvirtConfig)
| VolumeExists (name format : string)
| CreateVolumeFromReader (name : string) (sizeBytes : Z) (format : string)
| DeleteVolume (name : string)
| CreateVolume (name : string) (sizeGB : Z) (format : string)
| CreateOverlayVolume (name : string) (sizeGB : Z) (backingPath backingFormat : string)
| DefineDomain (cfg : DomainConfig)
| UndefineDomain (name : string)
| DestroyDomain (name : string)
| StartDomain (name : string)
| SetDomainBootDevice (name bootDev : string)
| GetDomainInterfaces (name : string)
| Download (url : string)
| RenderNoCloudSeed (v : VirtualMachine) (pxeBaseURL : string)
| FetchSeed (url : string)
| BuildNoCloudISO (files : gmap string string)
| ShutdownDomain (name : string)
| DomainInfo (name : string)
| RuntimeDeleter (v : VirtualMachine)
| ReleaseLease (mac : string)
| DeleteLease (mac : string).

(** The answer to a download: status and content length; to a seed request: the
    errors of reading and closing the body, the status and the body. *)
Record HttpResponse := mkHttpResponse { hr_Status : Z; hr_ContentLength : Z }.
Record SeedResponse := mkSeedResponse { sr_read : option error; sr_close : option error; sr_Status : Z; sr_Body : string }.

(** Creating a volume from a reader answers with the bytes it took from the reader. *)
Definition answer (c : call) : Type :=
  match c with
  | VolumeExists _ _ => bool
  | CreateVolumeFromReader _ _ _ => bytes
  | GetDomainInterfaces _ => list InterfaceInfo
  | Download _ => HttpResponse
  | RenderNoCloudSeed _ _ => gmap string string
  | FetchSeed _ => SeedResponse
  | BuildNoCloudISO _ => bytes
  | DomainInfo _ => option DomainState
  | _ => unit
  end.

Record Deployer := mkDeployer {
  dp_RenderNoCloudSeed : bool;
  dp_OSImages : option (gmap string OSImage);
  dp_PXEBaseURL : string;
  dp_ListenAddr : string }.

Section deploy.
Context {S : Type} (store : VMStore S).

(** The stores a deployment reads and writes. *)
Record Stores := mkStores { so_vms : S; so_hvs : gmap string Hypervisor }.
Global Instance Stores_fields : Fields Stores := fpure mkStores <*> so_vms <*> so_hvs.

(** What surrounds a deployment: the answers of the host given the calls made so far,
    the other writers between two accesses, the clock, [netdetect.Detect], and from
    packages net/url and net/http the scheme and host of a URL and whether a request
    can be built for one. *)
Record Env := mkEnv {
  en_answer : ∀ (past : list call) (c : call), result (answer c);
  en_during : nat → Stores → Stores;
  en_clock : nat → Time;
  en_detect : result (option string);
  en_urlParse : string → option (string * string);
  en_request : string → option error }.

(** The state of a running deployment: the number of steps taken, the calls made,
    the stores, and the caller's record ([*created]). *)
Record DState := mkDState { ds_tick : nat; ds_calls : list call; ds_stores : Stores; ds_vm : VirtualMachine }.
Global Instance DState_fields : Fields DState := fpure mkDState <*> ds_tick <*> ds_calls <*> ds_stores <*> ds_vm.

(** An operation may fail; what it did until then stays done. *)
Definition M (A : Type) : Type := DState → DState * result A.
Global Instance M_ret : MRet M := fun A a st => (st, Ok a).
Global Instance M_bind : MBind M := fun A B f m st =>
  match m st with (st, Ok a) => f a st | (st, Err e) => (st, Err e) end.

Definition fail {A} (e : error) : M A := fun st => (st, Err e).
Definition lift {A} (r : result A) : M A := fun st => (st, r).
Definition catch {A} (m : M A) (h : error → M A) : M A := fun st =>
  match m st with (st, Ok a) => (st, Ok a) | (st, Err e) => h e st end.
(** [fmt.Errorf("pre%w", err)] *)
Definition wrap {A} (pre : string) (m : M A) : M A := catch m (fun e => fail (ErrWrap pre e "")).
Definition ignore {A} (m : M A) : M unit := catch (_ ← m; mret tt) (fun _ => mret tt).

Definition current : M VirtualMachine := fun st => (st, Ok (ds_vm st)).
Definition assign_vm (v : VirtualMachine) : M unit := fun st => (st <| ds_vm := v |>, Ok tt).

Context (env : Env).

(** Let the others run. *)
Definition interleave (st : DState) : DState :=
  st <| ds_stores := en_during env (ds_tick st) (ds_stores st) |> <| ds_tick := Datatypes.S (ds_tick st) |>.

Definition perform (c : call) : M (answer c) := fun st =>
  let r := en_answer env (ds_calls st) c in
  (interleave (st <| ds_calls := ds_calls st ++ [c] |>), r).

(** One operation of a service on the virtual machines, at the time of the clock. *)
Definition service {A} (f : S → Time → result (S * A)) : M A := fun st =>
  let st := interleave st in
  match f (so_vms (ds_stores st)) (en_clock env (ds_tick st)) with
  | Ok (s, a) => (st <| ds_stores := (ds_stores st) <| so_vms := s |> |>, Ok a)
  | Err e => (st, Err e)
  end.

Definition get_hypervisor (name : string) : M Hypervisor := fun st =>
  let st := interleave st in (st, mem_get (so_hvs (ds_stores st)) name).

(** *** cloud_image_download.go *)

Definition uploadCloudImageBacking (img : OSImage) (volumeName backingFormat : string) : M unit :=
  let rawURL := TrimSpace (oi_URL img) in
  if rawURL ==? "" then fail (ErrNew ("osImage " +:+ oi_Name img +:+ " has no url")) else
  match en_urlParse env rawURL with
  | None => fail (ErrNew ("invalid cloud image URL for " +:+ oi_Name img))
  | Some (scheme, host) =>
      if (scheme ==? "") || (host ==? "") then fail (ErrNew ("invalid cloud image URL for " +:+ oi_Name img))
      else if (scheme !=? "http") && (scheme !=? "https")
      then fail (ErrNew ("unsupported cloud image URL scheme for " +:+ oi_Name img +:+ ": " +:+ scheme))
      else match en_request env rawURL with
      | Some e => fail e
      | None =>
          let what := "download cloud image " +:+ oi_Name img +:+ ": " in
          resp ← wrap what (perform (Download rawURL));
          if negb (hr_Status resp =? 200) then fail (ErrNew (what +:+ "status " +:+ Itoa (hr_Status resp))) else
          let sizeBytes := if oi_SizeBytes img <=? 0 then hr_ContentLength resp else oi_SizeBytes img in
          if sizeBytes <=? 0 then fail (ErrNew (what +:+ "content length is required when sizeBytes is unset")) else
          content ← wrap ("sync cloud image " +:+ oi_Name img +:+ " to hypervisor: ")
                      (perform (CreateVolumeFromReader volumeName sizeBytes backingFormat));
          if TrimSpace (oi_Checksum img) ==? "" then mret tt else
          let got := hex_encode (sha256 content) in
          let want := normalizeSHA256 (oi_Checksum img) in
          if got ==? want then mret tt else
          let msg := "cloud image checksum mismatch for " +:+ oi_Name img +:+ ": expected " +:+ want +:+ " got " +:+ got in
          _ ← wrap (msg +:+ "; cleanup failed: ") (perform (DeleteVolume volumeName));
          fail (ErrNew msg)
      end
  end.

(** *** cloud_image.go *)

(** The lock on the volume name is held by one deployment at a time; it orders the
    uploads and changes nothing here. *)
Definition prepareCloudImageBacking (d : Deployer) (osImageRef : string) : M (string * string) :=
  '(img, backingPath, backingFormat) ← lift (resolveCloudImageBackingImage (dp_OSImages d) osImageRef);
  if TrimSpace (oi_URL img) ==? "" then mret (backingPath, backingFormat) else
  let volumeName := cloudImageURLVolumeBaseName img backingFormat in
  let backingPath := filepath_Join hypervisorImageDir (cloudImageVolumeName volumeName backingFormat) in
  exists_ ← wrap ("check cloud image backing " +:+ oi_Name img +:+ ": ") (perform (VolumeExists volumeName backingFormat));
  if exists_ : bool then mret (backingPath, backingFormat) else
  _ ← uploadCloudImageBacking img volumeName backingFormat;
  mret (backingPath, backingFormat).

(** *** nocloud_seed.go *)

Fixpoint fetch_files (base token : string) (names : list string) (files : gmap string string) : M (gmap string string) :=
  match names with
  | [] => mret files
  | name :: names =>
      let url := base +:+ "/nocloud/" +:+ token +:+ "/" +:+ name in
      match en_request env url with
      | Some e => fail (ErrWrap ("build NoCloud " +:+ name +:+ " request: ") e "")
      | None =>
          resp ← wrap ("fetch NoCloud " +:+ name +:+ ": ") (perform (FetchSeed url));
          match sr_read resp, sr_close resp with
          | Some e, _ => fail (ErrWrap ("read NoCloud " +:+ name +:+ ": ") e "")
          | None, Some e => fail (ErrWrap ("close NoCloud " +:+ name +:+ " response: ") e "")
          | None, None =>
              if (sr_Status resp <? 200) || (300 <=? sr_Status resp)
              then fail (ErrNew ("fetch NoCloud " +:+ name +:+ ": status " +:+ Itoa (sr_Status resp) +:+ ": " +:+ TrimSpace (sr_Body resp)))
              else fetch_files base token names (<[name := sr_Body resp]> files)
          end
      end
  end.

Definition seed_files : list string := ["user-data"; "meta-data"; "vendor-data"; "network-config"].

Definition fetchNoCloudSeed (pxeBaseURL token : string) : M (gmap string string) :=
  let base := TrimRight (TrimSpace pxeBaseURL) "/" in
  if base ==? "" then fail (ErrNew "pxe base URL is required for NoCloud seed")
  else fetch_files base token seed_files ∅.

Definition prepareNoCloudSeed (d : Deployer) (v : VirtualMachine) (pxeBaseURL : string) : M string :=
  let token := macToken (vmPrimaryMAC v) in
  if token ==? "" then fail (ErrNew "primary MAC is required for NoCloud seed") else
  files ← (if dp_RenderNoCloudSeed d then perform (RenderNoCloudSeed v pxeBaseURL) else fetchNoCloudSeed pxeBaseURL token);
  iso ← perform (BuildNoCloudISO files);
  let volumeName := noCloudSeedVolumeName (v_Name v) in
  _ ← wrap ("delete existing seed volume " +:+ volumeName +:+ ": ") (perform (DeleteVolume volumeName));
  _ ← wrap ("create seed volume " +:+ volumeName +:+ ": ")
        (perform (CreateVolumeFromReader volumeName (Z.of_nat (length iso)) "raw"));
  mret (filepath_Join hypervisorImageDir (noCloudSeedVolumeFileName (v_Name v))).

(** *** deploy.go *)

Definition resolvePXEBaseURL (d : Deployer) (installType : string) : result string :=
  let base := TrimSpace (dp_PXEBaseURL d) in
  if base !=? "" then Ok (TrimRight base "/") else
  match resolvePXEBaseURLFromListen (dp_ListenAddr d) (detectPrimaryIP (en_detect env)) with
  | Ok base => Ok base
  | Err e => if installType ==? InstallConfigCurtin then Err e else Ok ""
  end.

Definition updatePhaseOnError (action : string) (e : error) : M unit :=
  v ← current;
  ignore (updated ← service (fun s now =>
            FailDeploy store s now (v_Name v) action (Error e) (ps_CompletionToken (v_Provisioning v)));
          assign_vm updated).

(** [if err != nil { d.updatePhaseOnError(...); return fmt.Errorf("pre%w", err) }] *)
Definition or_fail {A} (action pre : string) (m : M A) : M A :=
  catch m (fun e => _ ← updatePhaseOnError action e; fail (ErrWrap pre e "")).

Definition stamp_domain : M unit :=
  v ← current;
  v ← service (fun s now => Ok (markDomainDefined store s now v));
  assign_vm v.

Definition deploy_status (phase : Phase) (lastAction : string) : M unit :=
  v ← current;
  ignore (updated ← service (fun s now =>
            UpdateDeployStatus store s now (v_Name v) phase lastAction (v_Provisioning v));
          assign_vm updated).

Definition Deploy (d : Deployer) (fn : option LineConfig) : M unit :=
  created ← current;
  let name := v_Name created in
  hv ← or_fail "resolve-hypervisor" ("resolve hypervisor " +:+ v_HypervisorRef created +:+ ": ")
         (get_hypervisor (v_HypervisorRef created));
  let installType := resolveInstallType created in
  let curtin := installType ==? InstallConfigCurtin in
  pxeBaseURL ← or_fail "resolve-pxe-base-url" "resolve pxe base url: " (lift (resolvePXEBaseURL d installType));
  _ ← or_fail "define" "connect to hypervisor: " (perform (NewExecutor (BuildLibvirtConfig hv)));
  let bootDev := if curtin then "hd" else "network" in
  _ ← (if curtin then
         '(backingPath, backingFormat) ← or_fail "resolve-cloudimage" "resolve cloud image backing: "
                                            (prepareCloudImageBacking d (v_OSImageRef created));
         or_fail "create-overlay-volume" "create overlay volume: "
           (perform (CreateOverlayVolume name (rs_DiskGB (v_Resources created)) backingPath backingFormat))
       else or_fail "create-volume" "create volume: " (perform (CreateVolume name (rs_DiskGB (v_Resources created)) "qcow2")));
  let cfg := (BuildDomainConfig created name bootDev pxeBaseURL fn) <| dc_DiskFormat := "qcow2" |> in
  let cfg := applyInstallStorageOverrides cfg installType in
  seed ← (if curtin then
            seedPath ← or_fail "prepare-nocloud-seed" "prepare nocloud seed: " (prepareNoCloudSeed d created pxeBaseURL);
            mret (Some seedPath)
          else mret None);
  _ ← or_fail "define" "define domain: " (perform (DefineDomain (with_seed seed cfg)));
  _ ← stamp_domain;
  v ← current;
  _ ← assign_vm (v <| v_LibvirtDomain := name |> <| v_CreatedOnHost := hv_Name hv |>);
  _ ← ignore (interfaces ← perform (GetDomainInterfaces name);
              let '(statuses, ips) := ConvertRuntimeInterfaces interfaces in
              v ← current;
              assign_vm (v <| v_NetworkInterfaces := statuses |> <| v_IPAddresses := ips |>));
  v ← current;
  if v_Phase v !=? PhaseStopped then
    _ ← or_fail "start" "start domain: " (perform (StartDomain name));
    _ ← (if bootDev ==? "network"
         then or_fail "set-boot-hd" ("set domain " +:+ name +:+ " boot device to hd: ") (perform (SetDomainBootDevice name "hd"))
         else mret tt);
    deploy_status PhaseProvisioning (if bootDev ==? "hd" then "create+cloudimage" else "create+pxe")
  else deploy_status PhaseCreating "define".

(** [if err != nil && !IsIgnorableDestroyError(err)] *)
Definition unless_ignorable (pre : string) (m : M unit) : M unit :=
  catch m (fun e => if IsIgnorableDestroyError e then mret tt else fail (ErrWrap pre e "")).

(** The record is passed by value: the caller's copy does not change. *)
Definition Redeploy (d : Deployer) (fn : option LineConfig) : M unit := fun st0 =>
  let run : M unit :=
    v ← current;
    let name := v_Name v in
    hv ← wrap ("resolve hypervisor " +:+ v_HypervisorRef v +:+ ": ") (get_hypervisor (v_HypervisorRef v));
    let installType := resolveInstallType v in
    let curtin := installType ==? InstallConfigCurtin in
    pxeBaseURL ← wrap ("resolve pxe base url for " +:+ name +:+ ": ") (lift (resolvePXEBaseURL d installType));
    let domainName := domain_name v in
    _ ← wrap ("connect to hypervisor " +:+ hv_Name hv +:+ ": ") (perform (NewExecutor (BuildLibvirtConfig hv)));
    _ ← unless_ignorable ("stop domain " +:+ domainName +:+ ": ") (perform (DestroyDomain domainName));
    _ ← unless_ignorable ("undefine domain " +:+ domainName +:+ " before pxe redeploy: ") (perform (UndefineDomain domainName));
    _ ← (if curtin then
           '(backingPath, backingFormat) ← wrap ("resolve cloud image backing for " +:+ domainName +:+ ": ")
                                              (prepareCloudImageBacking d (v_OSImageRef v));
           _ ← wrap ("delete existing volume " +:+ name +:+ " before cloudimage redeploy: ") (perform (DeleteVolume name));
           wrap ("create overlay volume " +:+ name +:+ " for cloudimage redeploy: ")
             (perform (CreateOverlayVolume name (rs_DiskGB (v_Resources v)) backingPath backingFormat))
         else mret tt);
    let bootDev := if curtin then "hd" else "network" in
    let cfg := applyInstallStorageOverrides (BuildDomainConfig v domainName bootDev pxeBaseURL fn) installType in
    seed ← (if curtin then
              seedPath ← wrap ("prepare nocloud seed for " +:+ domainName +:+ ": ") (prepareNoCloudSeed d v pxeBaseURL);
              mret (Some seedPath)
            else mret None);
    _ ← wrap ("define domain " +:+ domainName +:+ " for pxe redeploy: ") (perform (DefineDomain (with_seed seed cfg)));
    _ ← stamp_domain;
    _ ← wrap ("start domain " +:+ domainName +:+ ": ") (perform (StartDomain domainName));
    if bootDev ==? "network"
    then wrap ("set domain " +:+ domainName +:+ " boot device to hd: ") (perform (SetDomainBootDevice domainName "hd"))
    else mret tt in
  let '(st, r) := run st0 in (st <| ds_vm := ds_vm st0 |>, r).

(** *** api/vm.go: removing what a machine left on its hypervisor *)

Definition ErrVMTeardownNotAttempted : error := ErrNew "vm runtime teardown not attempted".

(** An error that neither test of the caller forgives. *)
Definition fatal_destroy (e : error) : bool := negb (IsIgnorableDestroyError e) && negb (IsDomainNotFoundError e).

(** [err := exec.Op(...)]: the error as a value. *)
Definition outcome_of (m : M unit) : M (option error) := catch (_ ← m; mret None) (fun e => mret (Some e)).

Definition teardownVMRuntimeOnHypervisor (hv : Hypervisor) (v : VirtualMachine) : M unit :=
  _ ← catch (perform (NewExecutor (BuildLibvirtConfig hv)))
        (fun e => fail (ErrWrap2 ("connect to hypervisor " +:+ hv_Name hv +:+ " for delete: ") e ": " ErrVMTeardownNotAttempted ""));
  let domainName := domain_name v in
  destroyErr ← outcome_of (perform (DestroyDomain domainName));
  _ ← match destroyErr with
      | Some e => if fatal_destroy e then fail (ErrWrap ("stop domain " +:+ domainName +:+ " before delete: ") e "") else mret tt
      | None => mret tt
      end;
  undefineErr ← outcome_of (perform (UndefineDomain domainName));
  _ ← match undefineErr with
      | Some e => if fatal_destroy e then fail (ErrWrap ("undefine domain " +:+ domainName +:+ " before delete: ") e "") else mret tt
      | None => mret tt
      end;
  if SkipHostStorageCleanup (v_Phase v) destroyErr undefineErr then mret tt
  else catch (perform (DeleteVolume (v_Name v)))
         (fun e => if IsVolumeNotFoundError e then mret tt
                   else fail (ErrWrap ("delete volume " +:+ v_Name v +:+ ": ") e "")).
End deploy.

(** ** The configuration of a valid machine is accepted *)

(** The configuration of [v] with the given domain name. *)
Definition built_config (v : VirtualMachine) (domainName base : string) (fn : option LineConfig) (seed : option string) : DomainConfig :=
  let installType := resolveInstallType v in
  let bootDev := if installType ==? InstallConfigCurtin then "hd" else "network" in
  with_seed seed (applyInstallStorageOverrides (BuildDomainConfig v domainName bootDev base fn) installType).

(** The devices such a domain tries in turn: a cloud image boots from its disk, any
    other machine from the network, a Windows machine then from its disk. *)
Definition boot_order (v : VirtualMachine) : list string :=
  if resolveInstallType v ==? InstallConfigCurtin then ["hd"]
  else if is_windows_vm v then ["network"; "hd"] else ["network"].

Lemma validate_vm_parts v : ValidateVirtualMachine v = Ok tt →
  v_Name v ≠ "" ∧ 0 < rs_CPUCores (v_Resources v) ∧ 0 < rs_MemoryMB (v_Resources v) ∧
  ∀ o, v_AdvancedOptions v = Some o → ao_CPUMode o ∈ [""; "host-passthrough"; "host-model"; "maximum"].
Proof.
  unfold ValidateVirtualMachine. rewrite !seq_Ok, !ensure_Ok. intros (Hn & Hc & Hm & _ & _ & _ & _ & Ha & _).
  split_and!; [|lia..|].
  - intros E. rewrite E in Hn. vm_compute in Hn. discriminate.
  - intros o Ho. unfold validateAdvancedOptions in Ha. rewrite Ho, !seq_Ok, !ensure_Ok in Ha.
    destruct Ha as (_ & _ & _ & Hmode & _). by apply bool_decide_eq_true in Hmode.
Qed.

(** What the configuration takes from the machine whatever its options. *)
Record plain_part := mkPlainPart {
  pp_name : string; pp_vcpu : Z; pp_memory : Z; pp_disk : string; pp_format : string; pp_networks : list NetworkConfig;
  pp_boot : string }.
Definition plain_of (c : DomainConfig) : plain_part :=
  mkPlainPart (dc_Name c) (dc_VCPU c) (dc_MemoryMB c) (dc_DiskPath c) (dc_DiskFormat c) (dc_Networks c) (dc_BootDev c).

(** The same with the fields only Windows and the seed change. *)
Definition base_of (c : DomainConfig) := (plain_of c, dc_Firmware c, dc_TPM c, dc_NICModel c, dc_BootFallback c, dc_CloudInit c).

Lemma apply_if_keeps {A B} (g : A → B) b f a : (∀ x, g (f x) = g x) → g (apply_if b f a) = g a.
Proof. intros H. unfold apply_if. by destruct b. Qed.

Lemma apply_advanced_keeps o c :
  base_of (apply_advanced o c) = base_of c
  ∧ dc_CPUMode (apply_advanced o c) = (if ao_CPUMode o !=? "" then ao_CPUMode o else dc_CPUMode c).
Proof.
  unfold apply_advanced. cbv zeta. rewrite !(apply_if_keeps base_of) by done. split; [done|].
  do 4 (rewrite (apply_if_keeps dc_CPUMode) by done). unfold apply_if at 1. destruct (negb (ao_CPUMode o ==? "")); [done|].
  by rewrite (apply_if_keeps dc_CPUMode).
Qed.

Lemma BuildDomainConfig_keeps v n b base fn :
  let c := BuildDomainConfig v n b base fn in
  plain_of c = mkPlainPart n (rs_CPUCores (v_Resources v)) (rs_MemoryMB (v_Resources v)) (image_file (v_Name v)) "qcow2"
                 ((fun nic => mkNetworkConfig (ni_Bridge nic) (ni_MAC nic) 0) <$> v_Network v) b
  ∧ dc_CloudInit c = ""
  ∧ if is_windows_vm v then dc_Firmware c = "uefi" ∧ dc_TPM c = true ∧ dc_NICModel c = "e1000e"
         ∧ dc_CPUMode c = "host-passthrough" ∧ dc_BootFallback c = (if b ==? "network" then "hd" else "")
    else dc_Firmware c = "" ∧ dc_TPM c = false ∧ dc_NICModel c = "" ∧ dc_BootFallback c = ""
         ∧ dc_CPUMode c = match v_AdvancedOptions v with Some o => ao_CPUMode o | None => "" end.
Proof.
  unfold BuildDomainConfig. cbv zeta. set (c0 := mkDomainConfig _ _ _ _ _ _ _ _ _ _ _ _ _ _ _ _ _ _ _).
  set (c1 := match v_AdvancedOptions v with Some o => apply_advanced o c0 | None => c0 end).
  assert (H1 : base_of c1 = base_of c0 ∧ dc_CPUMode c1 = match v_AdvancedOptions v with Some o => ao_CPUMode o | None => "" end).
  { unfold c1. destruct (v_AdvancedOptions v) as [o|]; [|done]. destruct (apply_advanced_keeps o c0) as (-> & ->).
    case_bool_decide as E; simpl; [by rewrite E|done]. }
  set (c2 := match fn with Some f => _ | None => c1 end).
  assert (H2 : base_of c2 = base_of c1 ∧ dc_CPUMode c2 = dc_CPUMode c1).
  { unfold c2. destruct fn as [f|]; [|done]. destruct (negb _); [|done]. by destruct (negb _). }
  destruct H1 as (B1 & M1), H2 as (B2 & M2). rewrite B1 in B2. clearbody c2 c1.
  assert (P : plain_of c2 = plain_of c0) by exact (f_equal (fun t => t.1.1.1.1.1) B2).
  assert (F : dc_Firmware c2 = "" ∧ dc_TPM c2 = false ∧ dc_NICModel c2 = "" ∧ dc_BootFallback c2 = "" ∧ dc_CloudInit c2 = "").
  { split_and!; [exact (f_equal (fun t => t.1.1.1.1.2) B2)|exact (f_equal (fun t => t.1.1.1.2) B2)
      |exact (f_equal (fun t => t.1.1.2) B2)|exact (f_equal (fun t => t.1.2) B2)|exact (f_equal snd B2)]. }
  destruct F as (F & T & N & B & C).
  destruct (is_windows_vm v); [|split_and!; first [exact P|exact C|exact F|exact T|exact N|exact B|congruence]].
  case_bool_decide; split_and!; first [exact P|exact C|exact B|done].
Qed.

Lemma built_config_keeps v n base fn seed :
  let c := built_config v n base fn seed in
  let c0 := BuildDomainConfig v n (if resolveInstallType v ==? InstallConfigCurtin then "hd" else "network") base fn in
  plain_of c = plain_of c0 ∧ dc_Firmware c = dc_Firmware c0 ∧ dc_TPM c = dc_TPM c0
  ∧ dc_NICModel c = dc_NICModel c0 ∧ dc_BootFallback c = dc_BootFallback c0 ∧ dc_CPUMode c = dc_CPUMode c0
  ∧ dc_CloudInit c = match seed with Some p => p | None => dc_CloudInit c0 end.
Proof.
  cbv zeta. unfold built_config. cbv zeta. set (c0 := BuildDomainConfig _ _ _ _ _).
  assert (Hf : dc_DiskFormat c0 = "qcow2") by apply (f_equal pp_format (proj1 (BuildDomainConfig_keeps _ _ _ _ _))).
  set (c1 := applyInstallStorageOverrides c0 _).
  assert (H1 : plain_of c1 = plain_of c0 ∧ dc_Firmware c1 = dc_Firmware c0 ∧ dc_TPM c1 = dc_TPM c0 ∧ dc_NICModel c1 = dc_NICModel c0
    ∧ dc_BootFallback c1 = dc_BootFallback c0 ∧ dc_CPUMode c1 = dc_CPUMode c0 ∧ dc_CloudInit c1 = dc_CloudInit c0).
  { unfold c1, applyInstallStorageOverrides. case_bool_decide; [|done]. case_bool_decide; split_and!; try done;
      unfold plain_of; simpl; by rewrite Hf. }
  destruct H1 as (P & F & T & N & B & M & C). destruct seed as [p|]; split_and!; done.
Qed.

Lemma windows_not_curtin v : is_windows_vm v = true → resolveInstallType v ≠ InstallConfigCurtin.
Proof.
  unfold is_windows_vm, resolveInstallType. destruct (v_InstallCfg v) as [i|]; [|done].
  intros H%bool_decide_eq_true. rewrite H. vm_compute. done.
Qed.

(** The domain of every valid machine can be defined.  The configuration built
    for a machine that passed validation is accepted by the generator, under the
    domain's name, with the machine's processors, memory and interfaces, its own
    image file as first disk, the seed as second disk exactly when there is one, and
    a boot order that lets a Windows installation fall back to its disk. *)
Lemma valid_vm_defines (v : VirtualMachine) (domainName base : string) (fn : option LineConfig) (seed : option string)
  (Hv : ValidateVirtualMachine v = Ok tt) (Hn : domainName ≠ "") :
  ∃ x, GenerateDomainXML (built_config v domainName base fn seed) = Ok x
  ∧ xm_Name x = domainName ∧ xm_VCPU x = rs_CPUCores (v_Resources v) ∧ xm_Memory x = ("MiB", rs_MemoryMB (v_Resources v))
  ∧ xo_Boot (xm_OS x) = boot_order v
  ∧ (xk_Source <$> xv_Disks (xm_Devices x))
    = image_file (v_Name v) :: match seed with Some p => if p ==? "" then [] else [p] | None => [] end
  ∧ ((fun i => (xi_Bridge i, xi_MAC i)) <$> xv_Interfaces (xm_Devices x))
    = (fun n => (ni_Bridge n, if ni_MAC n ==? "" then None else Some (ni_MAC n))) <$> v_Network v.
Proof.
  destruct (validate_vm_parts v Hv) as (_ & Hcpu & Hmem & Hmode).
  destruct (built_config_keeps v domainName base fn seed) as (P & F & T & N & B & M & C).
  set (c := built_config v domainName base fn seed) in *. set (b := if _ ==? _ then _ else _) in *.
  destruct (BuildDomainConfig_keeps v domainName b base fn) as (P0 & Hci & W). rewrite P0 in P. injection P as E1 E2 E3 E4 E5 E6 E7.
  assert (Hdisk : image_file (v_Name v) ≠ "") by done.
  assert (Hb : b ≠ "") by (unfold b; by destruct (bool_decide _)).
  assert (Hprim : primary_boot c = b) by (unfold primary_boot; rewrite E7; by rewrite bool_decide_eq_false_2).
  assert (Hval : DomainConfig_Validate c = Ok tt
                 ∧ primary_boot c :: (if dc_BootFallback c !=? "" then [dc_BootFallback c] else []) = boot_order v).
  { unfold DomainConfig_Validate. rewrite !seq_Ok, !ensure_Ok, Hprim, F, T, N, B, M, E1, E2, E3, E4, E5.
    rewrite !(bool_decide_eq_false_2 (_ = "")) by done. unfold boot_order. destruct (is_windows_vm v) eqn:Ew.
    - destruct W as (-> & -> & -> & -> & ->). pose proof (windows_not_curtin v Ew) as Hnc. unfold b.
      rewrite (bool_decide_eq_false_2 (resolveInstallType v = _)) by done. split_and!; try done; lia.
    - destruct W as (-> & -> & -> & -> & ->). unfold b. split; [|by case_bool_decide].
      split_and!; try done; try lia. apply bool_decide_eq_true. destruct (v_AdvancedOptions v) as [o|]; [by apply Hmode|left]. }
  destruct Hval as [Hval Hboot]. unfold GenerateDomainXML. rewrite Hval. eexists. split; [reflexivity|].
  cbn [xm_Name xm_VCPU xm_Memory xm_OS xm_Devices xo_Boot xv_Disks xv_Interfaces]. split_and!; try congruence.
  - rewrite fmap_cons. cbn [xk_Source]. rewrite E4, C. f_equal. destruct seed as [p|]; [|by rewrite Hci].
    by destruct (bool_decide (p = "")).
  - rewrite E6, <- !list_fmap_compose. apply list_fmap_ext. intros i n _. cbn. by destruct (bool_decide (ni_MAC n = "")).
Qed.

Definition deployed_vm : VirtualMachine :=
  (sample_vm "vm-1" "tok") <| v_Network := [mkNetworkInterface "" "52:54:00:00:00:01" "br0" "" ""] |>
    <| v_InstallCfg := Some (mkInstallConfig "curtin" "") |>.

Lemma valid_vm_defines_witness :
  ∃ x, GenerateDomainXML (built_config deployed_vm "vm-1" "http://10.0.0.1/pxe" None (Some "/seed.raw")) = Ok x
       ∧ xo_Boot (xm_OS x) = ["hd"].
Proof.
  destruct (valid_vm_defines deployed_vm "vm-1" "http://10.0.0.1/pxe" None (Some "/seed.raw")) as (x & Hx & _ & _ & _ & Hb & _).
  - vm_compute. reflexivity.
  - discriminate.
  - exists x. split; [exact Hx|exact Hb].
Defined.

(** ** The seed's name and a machine's *)

(** Deleting the seed of the machine [a] also deletes the disk of a machine called
    [a-cidata], since a volume's file may carry any of its suffixes. *)
Lemma seed_cleanup_deletes_disk :
  let disk := mkVolume "a-cidata.qcow2" 1 "qcow2" None in
  let pool : gmap string Volume := {["a-cidata.qcow2" := disk]} in
  "/var/lib/libvirt/images/a-cidata.qcow2" = image_file "a-cidata"
  ∧ Libvirt.DeleteVolume pool (noCloudSeedVolumeName "a") = (∅, None).
Proof. by vm_compute. Qed.
