(* ===== verification/VmFence.v ===== *)
(** * internal/vm: the store writes of a deployment

    A deployment of VmDeploy.v runs for minutes beside everything else that writes
    the stores.  Here: the only writes it makes are writes of the record it was started
    for, each just after it was read carrying the deployment's token. *)
From S2P Require Import Prelude GoStrings GoNet GoPath GoCrypto GoTime Resource Store OsImage Libvirt Hypervisor Vm VmStore RuntimeSync VmDeploy.

(** ** The store between the statements of an operation *)

(** An operation of the service reads a record, compares its token and then writes: two
    statements, between which the others may write.  The rows that are read, and what
    the others do before the next statement that writes. *)
Record Racing := mkRacing { ra_rows : vms; ra_gap : vms → vms }.
Definition at_write (s : Racing) : vms := ra_gap s (ra_rows s).
Definition settled (m : vms) : Racing := mkRacing m (fun m => m).
Definition put_rows (r : result vms) : result Racing := m ← r; Ok (settled m).
Definition put_if (r : result (vms * bool)) : result (Racing * bool) := '(m, b) ← r; Ok (settled m, b).
Definition racing_vms : VMStore Racing := {|
  vs_Upsert s v := put_rows (VMStore_Upsert (at_write s) v);
  vs_Get s n := VMStore_Get (ra_rows s) n;
  vs_List s := VMStore_List (ra_rows s);
  vs_ListByHypervisor s h := VMStore_ListByHypervisor (ra_rows s) h;
  vs_Delete s n := put_rows (VMStore_Delete (at_write s) n);
  vs_Insert := Some (fun s v => put_rows (VMStore_Insert (at_write s) v));
  vs_UpdateExisting := Some (fun s v => put_if (VMStore_UpdateExisting (at_write s) v));
  vs_UpdateProvisioningAttempt := Some (fun s v v' => put_if (VMStore_UpdateProvisioningAttempt (at_write s) v v'));
  vs_DeleteOwned := Some (fun s n h => put_if (VMStore_DeleteOwned (at_write s) n h));
  vs_DeleteCreatedToken := Some (fun s n t => put_if (VMStore_DeleteCreatedToken (at_write s) n t)) |}.

(** Rows under their names, before and after the gap. *)
Definition racing_ok (s : Racing) : Prop := mem_ok (ra_rows s) ∧ ∀ m, mem_ok m → mem_ok (ra_gap s m).
Lemma settled_ok m : mem_ok m → racing_ok (settled m).
Proof. intros H. by split. Qed.
Lemma at_write_ok s : racing_ok s → mem_ok (at_write s).
Proof. intros [H1 H2]. by apply H2. Qed.

(** ** Every store write of a deployment is fenced by its token *)

Section fencing.
Context (env : Env (S := Racing)) (name token : string).
Implicit Types st : DState (S := Racing).

(** A write of this deployment: the record called [name] is read while it carries the
    deployment's token; when it is written it is still there, and what is written has the
    same name and token; nothing else changes. *)
Definition own_write (a b : Stores (S := Racing)) : Prop :=
  so_hvs b = so_hvs a
  ∧ (so_vms b = so_vms a ∨ so_vms b = settled (at_write (so_vms a))
     ∨ ∃ v old v', ra_rows (so_vms a) !! name = Some v ∧ ps_CompletionToken (v_Provisioning v) = token
        ∧ at_write (so_vms a) !! name = Some old ∧ so_vms b = settled (<[name := v']> (at_write (so_vms a)))
        ∧ v_Name v' = name ∧ ps_CompletionToken (v_Provisioning v') = token).

(** A step of the stores while the deployment runs: another writer's, or its own. *)
Inductive store_step (a : Stores (S := Racing)) : Stores (S := Racing) → Prop :=
| others k : store_step a (en_during env k a)
| own b : racing_ok (so_vms a) → own_write a b → store_step a b.

(** The caller's record is still the one the deployment was started for. *)
Definition mine st : Prop :=
  v_Name (ds_vm st) = name ∧ ps_CompletionToken (v_Provisioning (ds_vm st)) = token.

(** The other writers keep the stores well formed. *)
Definition polite : Prop := ∀ k a, racing_ok (so_vms a) → racing_ok (so_vms (en_during env k a)).

Definition running st : Prop := racing_ok (so_vms (ds_stores st)) ∧ mine st.

(** Three strengths of the same promise: the stores move by [store_step]s only, and
    the caller's record is still the deployment's afterwards in every case ([quiet]),
    unless the action failed ([fenced]), or perhaps not ([fenced_last]). *)
Definition quiet {A} (m : M A) : Prop := ∀ st, running st →
  rtc store_step (ds_stores st) (ds_stores (m st).1) ∧ running (m st).1.

Definition fenced {A} (m : M A) : Prop := ∀ st, running st →
  rtc store_step (ds_stores st) (ds_stores (m st).1) ∧ ∀ a, (m st).2 = Ok a → running (m st).1.

Definition fenced_last {A} (m : M A) : Prop := ∀ st, running st →
  rtc store_step (ds_stores st) (ds_stores (m st).1).

Lemma quiet_fenced {A} (m : M A) : quiet m → fenced m.
Proof. intros H st Hst. destruct (H st Hst). by split. Qed.
Lemma fenced_is_last {A} (m : M A) : fenced m → fenced_last m.
Proof. intros H st Hst. by destruct (H st Hst). Qed.

Lemma quiet_lift {A} (r : result A) : quiet (lift r).
Proof. intros st Hst. by split. Qed.
Lemma quiet_ret {A} (a : A) : quiet (mret a).
Proof. apply (quiet_lift (Ok a)). Qed.
Lemma quiet_fail {A} (e : error) : quiet (fail e : M A).
Proof. apply (quiet_lift (Err e)). Qed.
Lemma quiet_current : quiet current.
Proof. intros st Hst. by split. Qed.

Lemma quiet_bind {A B} (m : M A) (f : A → M B) : quiet m → (∀ a, quiet (f a)) → quiet (m ≫= f).
Proof.
  intros Hm Hf st Hst. unfold mbind, M_bind. destruct (Hm st Hst) as [H1 H2]. destruct (m st) as [st1 [a|e]]; [|done].
  destruct (Hf a st1 H2). split; [by etrans|done].
Qed.

Lemma quiet_catch {A} (m : M A) (h : error → M A) : quiet m → (∀ e, quiet (h e)) → quiet (catch m h).
Proof.
  intros Hm Hh st Hst. unfold catch. destruct (Hm st Hst) as [H1 H2]. destruct (m st) as [st1 [a|e]]; [done|].
  destruct (Hh e st1 H2). split; [by etrans|done].
Qed.

Lemma quiet_wrap {A} pre (m : M A) : quiet m → quiet (wrap pre m).
Proof. intros H. apply quiet_catch; [done|]. intros e. apply quiet_fail. Qed.

Lemma fenced_bind {A B} (m : M A) (f : A → M B) : fenced m → (∀ a, fenced (f a)) → fenced (m ≫= f).
Proof.
  intros Hm Hf st Hst. unfold mbind, M_bind. destruct (Hm st Hst) as [H1 H2]. destruct (m st) as [st1 [a|e]]; [|done].
  destruct (Hf a st1 (H2 a eq_refl)). split; [by etrans|done].
Qed.

Lemma fenced_last_bind {A B} (m : M A) (f : A → M B) : fenced m → (∀ a, fenced_last (f a)) → fenced_last (m ≫= f).
Proof.
  intros Hm Hf st Hst. unfold mbind, M_bind. destruct (Hm st Hst) as [H1 H2]. destruct (m st) as [st1 [a|e]]; [|done].
  specialize (Hf a st1 (H2 a eq_refl)). by etrans.
Qed.

(** A failure handled by an action that is the last one. *)
Lemma fenced_catch {A} (m : M A) (h : error → M A) :
  quiet m → (∀ e, fenced_last (h e) ∧ ∀ st a, (h e st).2 ≠ Ok a) → fenced (catch m h).
Proof.
  intros Hm Hh st Hst. unfold catch. destruct (Hm st Hst) as [H1 H2]. destruct (m st) as [st1 [a|e]]; [done|].
  destruct (Hh e) as [F1 F2]. split; [by etrans; [|apply F1]|]. intros a Ha. by destruct (F2 st1 a).
Qed.

Context (Hpolite : polite).

Lemma interleave_quiet st : running st →
  store_step (ds_stores st) (ds_stores (interleave env st)) ∧ running (interleave env st).
Proof. intros [Hok Hm]. split; [apply others|]. split; [by apply Hpolite|exact Hm]. Qed.

Lemma quiet_perform c : quiet (perform env c).
Proof.
  intros st Hst. destruct (interleave_quiet (st <| ds_calls := ds_calls st ++ [c] |>) Hst).
  split; [by apply rtc_once|done].
Qed.

Lemma quiet_get_hypervisor n : quiet (get_hypervisor env n).
Proof. intros st Hst. destruct (interleave_quiet st Hst). split; [by apply rtc_once|done]. Qed.

Lemma own_write_ok s hs s' : racing_ok s → own_write (mkStores s hs) (mkStores s' hs) → racing_ok s'.
Proof.
  intros Hok (_ & H). cbn [so_vms] in H. destruct H as [->|[->|(v & old & v' & _ & _ & _ & -> & Hn & _)]]; [done|by apply settled_ok, at_write_ok|].
  apply settled_ok. intros n x [[<- <-]|[_ Hx]]%lookup_insert_Some; [done|]. by eapply at_write_ok.
Qed.

(** A service operation whose effect on the store is an own write. *)
Lemma quiet_service {A} (f : Racing → Time → result (Racing * A)) :
  (∀ s hs now s' a, racing_ok s → f s now = Ok (s', a) → own_write (mkStores s hs) (mkStores s' hs)) → quiet (service env f).
Proof.
  intros Hf st Hst. destruct (interleave_quiet st Hst) as (H1 & H2 & H3). unfold service.
  destruct (f _ _) as [[s' a]|e] eqn:E; [|split; [by apply rtc_once|done]].
  destruct (ds_stores (interleave env st)) as [s hs] eqn:Es. cbn [so_vms] in *. pose proof (Hf s hs _ s' a H2 E) as Hw.
  split; [eapply rtc_l; [exact H1|]; apply rtc_once, own; done|].
  split; [|exact H3]. exact (own_write_ok s hs s' H2 Hw).
Qed.

Lemma own_refl s hs : own_write (mkStores s hs) (mkStores s hs).
Proof. split; [done|by left]. Qed.

Lemma own_write_existing s hs v v' s' (b : bool) : ra_rows s !! name = Some v → ps_CompletionToken (v_Provisioning v) = token →
  v_Name v' = name → ps_CompletionToken (v_Provisioning v') = token →
  writeExisting racing_vms s v' = Ok (s', b) → own_write (mkStores s hs) (mkStores s' hs).
Proof.
  intros Hv Ht Hn Ht'. unfold writeExisting. cbn [vs_UpdateExisting racing_vms]. unfold VMStore_UpdateExisting, put_if. rewrite Hn.
  destruct (at_write s !! name) as [old|] eqn:Eo; cbn; intros [= <- <-]; (split; [done|]); right; [right|by left]. by exists v, old, v'.
Qed.
Lemma own_write_or_not_found s hs v v' s' u : ra_rows s !! name = Some v → ps_CompletionToken (v_Provisioning v) = token →
  v_Name v' = name → ps_CompletionToken (v_Provisioning v') = token →
  write_or_not_found racing_vms s v' = Ok (s', u) → own_write (mkStores s hs) (mkStores s' hs).
Proof.
  intros Hv Ht Hn Ht'. unfold write_or_not_found. destruct (writeExisting racing_vms s v') as [[s1 b]|] eqn:E; [|done]. cbn.
  destruct b; [|done]. intros [= <- _]. by eapply own_write_existing.
Qed.

Lemma own_FailDeploy s hs now act err s' u : racing_ok s →
  FailDeploy racing_vms s now name act err token = Ok (s', u) → own_write (mkStores s hs) (mkStores s' hs).
Proof.
  intros Hok. unfold FailDeploy. destruct (vs_Get racing_vms s name) as [v|] eqn:Hg; [|done]. cbn [mbind result_bind].
  apply mem_get_Ok in Hg. case_bool_decide as Ht; [|intros [= <- _]; apply own_refl]. cbn [negb]. intros Hw.
  eapply own_write_or_not_found; [exact Hg|exact Ht| | |exact Hw]; unfold fail_deploy; destruct (ps_CompletedAt _);
    first [exact (proj1 Hok _ _ Hg)|exact Ht].
Qed.

Lemma merge_window_token stored snap : ps_CompletionToken (merge_window stored snap) = ps_CompletionToken snap.
Proof.
  unfold merge_window. destruct (ps_DomainObservedAt snap), (ps_DeadlineAt stored); cbn; try done; case_match; done.
Qed.

Lemma own_UpdateDeployStatus s hs now ph act prov s' u : racing_ok s → ps_CompletionToken prov = token →
  UpdateDeployStatus racing_vms s now name ph act prov = Ok (s', u) → own_write (mkStores s hs) (mkStores s' hs).
Proof.
  intros Hok Hp. unfold UpdateDeployStatus. destruct (vs_Get racing_vms s name) as [v|] eqn:Hg; [|done]. cbn [mbind result_bind].
  apply mem_get_Ok in Hg. destruct (deploy_update v now ph act prov) as [v'|] eqn:Hd; [|intros [= <- _]; apply own_refl].
  destruct (deploy_update_Some _ _ _ _ _ _ Hd) as (Ev' & Ht & _). rewrite Hp in Ht.
  assert (Hn' : v_Name v' = name) by (rewrite (deploy_update_name _ _ _ _ _ _ Hd); exact (proj1 Hok _ _ Hg)).
  assert (Ht' : ps_CompletionToken (v_Provisioning v') = token).
  { rewrite Ev'. etransitivity; [exact (merge_window_token (v_Provisioning v) prov)|done]. }
  destruct (is_windows_vm v'); [|intros Hw; by eapply own_write_or_not_found].
  cbn [vs_UpdateProvisioningAttempt racing_vms]. destruct (VMStore_UpdateProvisioningAttempt (at_write s) v v') as [[m1 w]|] eqn:Hc; [|done].
  cbn [mbind result_bind put_if]. pose proof (UpdateProvisioningAttempt_spec _ _ _ _ _ Hc) as Hs. destruct w.
  - intros [= <- _]. destruct Hs as (Hold & _ & _ & _ & ->). split; [done|]. right. right. exists v, v, v'.
    rewrite (proj1 Hok _ _ Hg : v_Name v = name) in Hold. by rewrite Hn'.
  - subst m1. destruct (vs_Get racing_vms _ name); [|done]. intros [= <- _]. split; [done|]. right. by left.
Qed.

Lemma stamp_token p now : ps_CompletionToken (stamp_defined p now) = ps_CompletionToken p.
Proof. unfold stamp_defined. cbn. repeat case_match; done. Qed.

Lemma own_markDomainDefined s hs now v : racing_ok s → v_Name v = name →
  ps_CompletionToken (v_Provisioning v) = token →
  let '(s', v') := markDomainDefined racing_vms s now v in
  own_write (mkStores s hs) (mkStores s' hs) ∧ v_Name v' = name ∧ ps_CompletionToken (v_Provisioning v') = token.
Proof.
  intros Hok Hn Ht. unfold markDomainDefined. rewrite Hn.
  destruct (vs_Get racing_vms s name) as [x|] eqn:Hg; [|by split_and!; [apply own_refl|..]].
  apply mem_get_Ok in Hg. rewrite Ht. case_bool_decide as Hx; cbn [negb]; [|by split_and!; [apply own_refl|..]].
  destruct (_ && _); [|by split_and!; [apply own_refl|..]].
  set (x' := x <| v_Provisioning := _ |> <| v_UpdatedAt := _ |>).
  assert (Hn' : v_Name x' = name) by exact (proj1 Hok _ _ Hg).
  assert (Ht' : ps_CompletionToken (v_Provisioning x') = token) by (etransitivity; [exact (stamp_token (v_Provisioning x) now)|done]).
  destruct (writeExisting racing_vms s x') as [[s' b]|] eqn:Ew; [|by split_and!; [apply own_refl|..]].
  destruct b; [|by split_and!; [apply own_refl|..]].
  split_and!; [by eapply (own_write_existing s hs x x')|done..].
Qed.

Lemma quiet_assign v : v_Name v = name → ps_CompletionToken (v_Provisioning v) = token → quiet (assign_vm v).
Proof. intros Hn Ht st [Hok _]. split; [done|]. by split. Qed.

Lemma quiet_ignore {A} (m : M A) : quiet m → quiet (ignore m).
Proof.
  intros H. apply quiet_catch; [apply quiet_bind; [done|]|]; intros ?; apply quiet_ret.
Qed.

(** Reading the caller's record gives the deployment's. *)
Lemma quiet_on_current {A} (f : VirtualMachine → M A) :
  (∀ v, v_Name v = name → ps_CompletionToken (v_Provisioning v) = token → quiet (f v)) → quiet (current ≫= f).
Proof. intros Hf st Hst. destruct (proj2 Hst). by apply Hf. Qed.
Lemma fenced_on_current {A} (f : VirtualMachine → M A) :
  (∀ v, v_Name v = name → ps_CompletionToken (v_Provisioning v) = token → fenced_last (f v)) → fenced_last (current ≫= f).
Proof. intros Hf st Hst. destruct (proj2 Hst). by apply Hf. Qed.

Ltac quiet_step :=
  first [ apply quiet_ret | apply quiet_lift | apply quiet_fail | apply quiet_current | apply quiet_perform
        | apply quiet_get_hypervisor | apply quiet_wrap | apply quiet_ignore
        | apply quiet_bind; [|intros ?] | progress cbv zeta | case_match ].
Ltac keep_quiet := repeat quiet_step.

Lemma quiet_upload img vol fmt : quiet (uploadCloudImageBacking env img vol fmt).
Proof. unfold uploadCloudImageBacking. keep_quiet. Qed.

Lemma quiet_backing d ref : quiet (prepareCloudImageBacking env d ref).
Proof. unfold prepareCloudImageBacking. keep_quiet. apply quiet_upload. Qed.

Lemma quiet_fetch base tok names files : quiet (fetch_files env base tok names files).
Proof. revert files. induction names as [|n names IH]; intros files; cbn [fetch_files]; keep_quiet. apply IH. Qed.

Lemma quiet_seed d v base : quiet (prepareNoCloudSeed env d v base).
Proof. unfold prepareNoCloudSeed, fetchNoCloudSeed. keep_quiet. apply quiet_fetch. Qed.

Lemma quiet_stamp : quiet (stamp_domain racing_vms env).
Proof.
  apply quiet_on_current. intros v Hn Ht st Hst. destruct (interleave_quiet st Hst) as (H1 & H2 & H3).
  unfold mbind, M_bind, service. destruct (ds_stores (interleave env st)) as [s hs] eqn:Es. cbn [so_vms] in *.
  pose proof (own_markDomainDefined s hs (en_clock env (ds_tick (interleave env st))) v H2 Hn Ht) as Hw.
  destruct (markDomainDefined _ _ _ _) as [s' v'] eqn:Em. destruct Hw as (Hw & Hn' & Ht').
  split; [eapply rtc_l; [exact H1|]; apply rtc_once, own; done|]. split; [|by split].
  exact (own_write_ok s hs s' H2 Hw).
Qed.

(** A status write whose result the caller keeps, errors only logged. *)
Lemma last_write (f : Racing → Time → result (Racing * VirtualMachine)) :
  (∀ s hs now s' a, racing_ok s → f s now = Ok (s', a) → own_write (mkStores s hs) (mkStores s' hs)) →
  fenced_last (ignore (u ← service env f; assign_vm u)).
Proof.
  intros Hf st Hst. destruct (quiet_service f Hf st Hst) as [H _]. unfold ignore, catch, mbind, M_bind.
  by destruct (service env f st) as [st1 [u|e]].
Qed.

Lemma last_fail act e : fenced_last (updatePhaseOnError racing_vms env act e).
Proof.
  apply fenced_on_current. intros v Hn Ht. apply last_write. intros s hs now s' a Hok. rewrite Hn, Ht. by apply own_FailDeploy.
Qed.

Lemma last_status ph act : fenced_last (deploy_status racing_vms env ph act).
Proof.
  apply fenced_on_current. intros v Hn Ht. apply last_write. intros s hs now s' a Hok. rewrite Hn. by apply own_UpdateDeployStatus.
Qed.

Lemma fenced_or_fail {A} act pre (m : M A) : quiet m → fenced (or_fail racing_vms env act pre m).
Proof.
  intros Hm. apply fenced_catch; [done|]. intros e. split.
  - intros st Hst. pose proof (last_fail act e st Hst) as H. unfold mbind, M_bind.
    by destruct (updatePhaseOnError _ _ _ _ st) as [st1 [u|e']].
  - intros st a. unfold mbind, M_bind. by destruct (updatePhaseOnError _ _ _ _ st) as [st1 [u|e']].
Qed.


Lemma fenced_of_quiet_bind {A B} (m : M A) (f : A → M B) : quiet m → (∀ a, fenced_last (f a)) → fenced_last (m ≫= f).
Proof. intros Hm. by apply fenced_last_bind, quiet_fenced. Qed.

Lemma last_Deploy d fn : fenced_last (Deploy racing_vms env d fn).
Proof.
  apply fenced_on_current. intros v Hn Ht. cbv zeta.
  apply fenced_last_bind; [apply fenced_or_fail, quiet_get_hypervisor|intros hv].
  apply fenced_last_bind; [apply fenced_or_fail, quiet_lift|intros base].
  apply fenced_last_bind; [apply fenced_or_fail, quiet_perform|intros _].
  apply fenced_last_bind.
  { case_match; [|apply fenced_or_fail, quiet_perform].
    apply fenced_bind; [apply fenced_or_fail, quiet_backing|intros [p f]]. apply fenced_or_fail, quiet_perform. }
  intros _. apply fenced_last_bind.
  { case_match; [|apply quiet_fenced, quiet_ret].
    apply fenced_bind; [apply fenced_or_fail, quiet_seed|intros p]. apply quiet_fenced, quiet_ret. }
  intros seed. apply fenced_last_bind; [apply fenced_or_fail, quiet_perform|intros _].
  apply fenced_of_quiet_bind; [apply quiet_stamp|intros _].
  apply fenced_on_current. intros v1 Hn1 Ht1. apply fenced_of_quiet_bind; [by apply quiet_assign|intros _].
  apply fenced_of_quiet_bind.
  { apply quiet_ignore, quiet_bind; [apply quiet_perform|intros ifs]. case_match.
    apply quiet_on_current. intros v2 Hn2 Ht2. by apply quiet_assign. }
  intros _. apply fenced_on_current. intros v3 _ _. case_match; [|apply last_status].
  apply fenced_last_bind; [apply fenced_or_fail, quiet_perform|intros _].
  apply fenced_last_bind; [|intros _; apply last_status].
  case_match; [apply fenced_or_fail, quiet_perform|apply quiet_fenced, quiet_ret].
Qed.

Lemma last_Redeploy d fn : fenced_last (Redeploy racing_vms env d fn).
Proof.
  intros st Hst. unfold Redeploy. match goal with |- context [let '(_, _) := ?r st in _] => set (run := r) end.
  assert (Hq : quiet run).
  { unfold run, unless_ignorable.
    repeat first [apply quiet_backing|apply quiet_seed|apply quiet_stamp|quiet_step|apply quiet_catch; [|intros ?]]. }
  destruct (Hq st Hst) as [H _]. by destruct (run st) as [st1 r].
Qed.
End fencing.

(** C13: a deployment writes only its own record, and only one it has just read as its
    own.  Whatever the host answers and whatever others do to the stores, between the
    steps of the deployment and between the read and the write of one of its operations,
    a deployment and a redeployment change the stores only by replacing the record of
    their own machine: each time, that record was read by the same operation while it
    carried the token the deployment was started with, it still exists when it is
    written, and what is written has the same name and token.  So they neither create
    nor remove a record, touch no other one, and leave a record that had been replaced
    before it was read.  (What others write to the record between that read and that
    write is lost: [stale_failure_overwrites].) *)
Theorem deploy_writes_fenced (env : Env (S := Racing)) (d : Deployer) (fn : option LineConfig) (v : VirtualMachine) (s : Racing) hs
  (Hothers : polite env) (Hok : racing_ok s) :
  let st := mkDState 0 [] (mkStores s hs) v in
  let steps := rtc (store_step env (v_Name v) (ps_CompletionToken (v_Provisioning v))) in
  steps (mkStores s hs) (ds_stores (Deploy racing_vms env d fn st).1)
  ∧ steps (mkStores s hs) (ds_stores (Redeploy racing_vms env d fn st).1).
Proof.
  intros st steps.
  assert (Hst : running (v_Name v) (ps_CompletionToken (v_Provisioning v)) st) by (split; [exact Hok|done]).
  split; [exact (last_Deploy env _ _ Hothers d fn st Hst)|exact (last_Redeploy env _ _ Hothers d fn st Hst)].
Qed.

(** Someone replaces the record after the third step of a deployment whose host refuses
    to define the domain, and deletes another machine while the failure is recorded:
    the failure is not recorded on the new record. *)
Definition replacing_env : Env (S := Racing) :=
  mkEnv (fun _ c => match c with DefineDomain _ => Err (ErrNew "no space") | VolumeExists _ _ => Ok true
                            | GetDomainInterfaces _ => Ok [] | DomainInfo _ => Ok None | Download _ => Ok (mkHttpResponse 200 1)
                            | RenderNoCloudSeed _ _ => Ok ∅ | FetchSeed _ => Err (ErrNew "down") | BuildNoCloudISO _ => Ok []
                            | CreateVolumeFromReader _ _ _ => Ok [] | _ => Ok tt end)
        (fun k s => if (k =? 2)%nat then s <| so_vms := mkRacing (<["vm-1" := sample_vm "vm-1" "second"]> (ra_rows (so_vms s))) (delete "vm-2") |> else s)
        (fun _ => time_Unix 0) (Ok (Some "10.0.0.1")) (fun _ => None) (fun _ => None).

Lemma deploy_writes_fenced_witness :
  let v := sample_vm "vm-1" "first" in
  let s := settled {["vm-1" := v]} in
  let st := (Deploy racing_vms replacing_env (mkDeployer true None "" ":5392") None
               (mkDState 0 [] (mkStores s {["hv-1" := sample_hv]}) v)) in
  st.2 ≠ Ok tt ∧ ra_rows (so_vms (ds_stores st.1)) !! "vm-1" = Some (sample_vm "vm-1" "second")
  ∧ rtc (store_step replacing_env "vm-1" "first") (mkStores s {["hv-1" := sample_hv]}) (ds_stores st.1).
Proof.
  split; [vm_compute; discriminate|]. split; [vm_compute; reflexivity|].
  apply (deploy_writes_fenced replacing_env (mkDeployer true None "" ":5392") None (sample_vm "vm-1" "first")).
  - intros k [a hs] Ha. unfold replacing_env, en_during. destruct (k =? 2)%nat; [|exact Ha]. split.
    + intros n x. change (ra_rows _) with (<["vm-1" := sample_vm "vm-1" "second"]> (ra_rows a)).
      intros [[<- <-]|[_ Hx]]%lookup_insert_Some; [reflexivity|by apply (proj1 Ha)].
    + intros m Hm n x. change (ra_gap _ m) with (delete "vm-2" m). intros [_ Hx]%lookup_delete_Some. by apply Hm.
  - apply settled_ok. intros n x [<- <-]%lookup_singleton_Some. reflexivity.
Defined.

(** Recording a failure reads the record, compares the token and writes the record it
    read, and the write compares nothing.  A reinstallation that arms a new window
    between the read and the write loses it: the record is back to the old token and
    in the error phase. *)
Lemma stale_failure_overwrites (m : vms) (v armed : VirtualMachine) (now : Time) (act err : string) :
  m !! v_Name v = Some v → v_Name armed = v_Name v →
  let failed := fail_deploy v now act err in
  FailDeploy racing_vms (mkRacing m (<[v_Name v := armed]>)) now (v_Name v) act err (ps_CompletionToken (v_Provisioning v))
    = Ok (settled (<[v_Name v := failed]> (<[v_Name v := armed]> m)), failed)
  ∧ ps_CompletionToken (v_Provisioning failed) = ps_CompletionToken (v_Provisioning v) ∧ v_Phase failed = PhaseError.
Proof.
  intros Hv Hn failed. assert (Hname : v_Name failed = v_Name v) by (unfold failed, fail_deploy; cbn; by destruct (ps_CompletedAt _)).
  split; [|unfold failed, fail_deploy; cbn; by destruct (ps_CompletedAt _)].
  unfold FailDeploy. change (vs_Get racing_vms (mkRacing m (<[v_Name v := armed]>)) (v_Name v)) with (mem_get m (v_Name v)).
  rewrite (proj2 (mem_get_Ok _ _ _) Hv). cbn [mbind result_bind].
  rewrite bool_decide_eq_true_2 by done. cbn [negb]. fold failed. unfold write_or_not_found, writeExisting. cbn [vs_UpdateExisting racing_vms].
  unfold VMStore_UpdateExisting, at_write. cbn [ra_gap ra_rows]. by rewrite Hname, lookup_insert_eq.
Qed.
