(* ===== verification/VmProtocol.v ===== *)
(** * internal/vm: the order of the host operations of a deployment

    A deployment of VmDeploy.v as a run of a small automaton over the calls it makes
    on the hypervisor: which call may follow which, on which domain and volume, and
    where the run is when the deployment reports success. *)
From S2P Require Import Prelude GoStrings GoNet GoPath GoCrypto GoTime Resource Store OsImage Libvirt Hypervisor Vm VmStore RuntimeSync VmDeploy.

(** ** What a deployment is to do *)

(** A machine the deployment installs from a cloud image. *)
Definition is_curtin (v : VirtualMachine) : bool := resolveInstallType v ==? InstallConfigCurtin.

(** Whether it is a redeployment, whether from a cloud image or over the network, the
    machine, its domain, the size of its disk, and the image its reference resolves to. *)
Record Plan := mkPlan {
  pl_redo : bool; pl_curtin : bool; pl_name : string; pl_domain : string; pl_gb : Z; pl_image : result (OSImage * string * string) }.
Definition plan_of (redo : bool) (d : Deployer) (v : VirtualMachine) : Plan :=
  mkPlan redo (is_curtin v) (v_Name v) (if redo then domain_name v else v_Name v) (rs_DiskGB (v_Resources v))
    (resolveCloudImageBackingImage (dp_OSImages d) (v_OSImageRef v)).
(** The volume of an image that comes from a URL, the URL, and what the disk is an
    overlay of. *)
Definition pl_backing (p : Plan) : string := match pl_image p with Ok (img, _, fmt) => cloudImageURLVolumeBaseName img fmt | Err _ => "" end.
Definition pl_url (p : Plan) : string := match pl_image p with Ok (img, _, _) => TrimSpace (oi_URL img) | Err _ => "" end.
Definition is_overlay (p : Plan) (n : string) (gb : Z) (path fmt : string) : bool :=
  (n ==? pl_name p) && (gb =? pl_gb p) && match pl_image p with Ok (_, path', fmt') => (path ==? path') && (fmt ==? fmt') | Err _ => false end.

Section protocol.
Context {S : Type} (store : VMStore S) (env : Env (S := S)) (p : Plan) (ph : Phase).

Inductive stage : Type :=
| Start      (** not connected *)
| Connected  (** connected, the old domain still there *)
| Halted     (** the old domain stopped *)
| Vacant     (** no domain; an installation over the network *)
| Unchecked  (** no domain; the image is one from a URL *)
| Missing    (** the volume of the image does not exist *)
| Arriving   (** the image is being downloaded *)
| Uploaded   (** the volume of the image was written *)
| Imaged     (** the image is there *)
| Cleared    (** the old disk was removed *)
| Disk       (** the machine's disk exists *)
| SeedBuilt | SeedGone | Seeded  (** the seed is made, the old one removed, the new one written *)
| Defined    (** the domain exists *)
| Started    (** the domain was started *)
| Ready      (** the next boot is from disk *)
| Over.      (** a call failed, or the image was bad: nothing may follow *)
Global Instance stage_eq_dec : EqDecision stage.
Proof. solve_decision. Defined.

(** Where the machine has no domain. *)
Definition vacant : stage := if pl_curtin p then if pl_url p ==? "" then Imaged else Unchecked else Vacant.
Definition seed_name : string := noCloudSeedVolumeName (pl_name p).

(** The call allowed in a stage and the stage it leads to; [found] is the answer to the
    question whether a volume exists. *)
Definition move (s : stage) (c : call) (found : bool) : option stage :=
  let go (b : bool) (s : stage) := if b then Some s else None in
  match s, c with
  | Start, NewExecutor _ => Some (if pl_redo p then Connected else vacant)
  | Connected, DestroyDomain n => go (n ==? pl_domain p) Halted
  | Halted, UndefineDomain n => go (n ==? pl_domain p) vacant
  | Vacant, CreateVolume n gb fmt => go (negb (pl_redo p) && (n ==? pl_name p) && (gb =? pl_gb p) && (fmt ==? "qcow2")) Disk
  | Vacant, DefineDomain cfg => go (pl_redo p && (dc_Name cfg ==? pl_domain p)) Defined
  | Unchecked, VolumeExists n _ => go (n ==? pl_backing p) (if found then Imaged else Missing)
  | Missing, Download u => go (u ==? pl_url p) Arriving
  | Arriving, CreateVolumeFromReader n _ _ => go (n ==? pl_backing p) Uploaded
  | Uploaded, DeleteVolume n => if pl_redo p && (n ==? pl_name p) then Some Cleared else go (n ==? pl_backing p) Over
  | Imaged, DeleteVolume n => go (pl_redo p && (n ==? pl_name p)) Cleared
  | (Imaged | Uploaded), CreateOverlayVolume n gb path fmt => go (negb (pl_redo p) && is_overlay p n gb path fmt) Disk
  | Cleared, CreateOverlayVolume n gb path fmt => go (is_overlay p n gb path fmt) Disk
  | Disk, (RenderNoCloudSeed _ _ | FetchSeed _) => go (pl_curtin p) Disk
  | Disk, BuildNoCloudISO _ => go (pl_curtin p) SeedBuilt
  | SeedBuilt, DeleteVolume n => go (n ==? seed_name) SeedGone
  | SeedGone, CreateVolumeFromReader n _ fmt => go ((n ==? seed_name) && (fmt ==? "raw")) Seeded
  | Disk, DefineDomain cfg => go (negb (pl_curtin p) && (dc_Name cfg ==? pl_domain p)) Defined
  | Seeded, DefineDomain cfg => go (dc_Name cfg ==? pl_domain p) Defined
  | Defined, GetDomainInterfaces n => go (negb (pl_redo p) && (n ==? pl_domain p)) Defined
  | Defined, StartDomain n => go (n ==? pl_domain p) Started
  | Started, SetDomainBootDevice n dev => go (negb (pl_curtin p) && (n ==? pl_domain p) && (dev ==? "hd")) Ready
  | _, _ => None
  end.

(** A failure the deployment goes on after: the interfaces are only informative, and
    a domain that is not there need not be removed. *)
Definition tolerated (c : call) (r : result (answer c)) : bool :=
  match r with
  | Ok _ => true
  | Err e => match c with
             | GetDomainInterfaces _ => true
             | DestroyDomain _ | UndefineDomain _ => IsIgnorableDestroyError e
             | _ => false
             end
  end.

Definition answered (c : call) : result (answer c) → bool :=
  match c with VolumeExists _ _ => fun r => match r with Ok b => b | Err _ => false end | _ => fun _ => true end.
Definition next (s : stage) (c : call) (r : result (answer c)) : option stage :=
  s' ← move s c (answered c r); Some (if tolerated c r then s' else Over).

Fixpoint walk (past rest : list call) (s : stage) : option stage :=
  match rest with
  | [] => Some s
  | c :: rest => s ← next s c (en_answer env past c); walk (past ++ [c]) rest s
  end.

(** Where a sequence of calls leads, [None] when a call was out of order. *)
Definition stage_after (calls : list call) : option stage := walk [] calls Start.

Lemma walk_snoc past rest c s :
  walk past (rest ++ [c]) s = (walk past rest s ≫= fun s => next s c (en_answer env (past ++ rest) c)).
Proof.
  revert past s. induction rest as [|x rest IH]; intros past s; cbn [walk app].
  - rewrite app_nil_r. cbn. by destruct (next s c _).
  - destruct (next s x _) as [s'|]; cbn; [|done]. rewrite IH. by rewrite <- app_assoc.
Qed.

(** From stage [s], [m] makes only calls in order; if it succeeds it ends in [Q] and
    the caller's record is still in phase [ph]. *)
Definition follows {A} (s : stage) (m : M (S := S) A) (Q : A → stage → Prop) : Prop :=
  ∀ st, stage_after (ds_calls st) = Some s → v_Phase (ds_vm st) = ph →
  ∃ s', stage_after (ds_calls (m st).1) = Some s' ∧ ∀ a, (m st).2 = Ok a → Q a s' ∧ v_Phase (ds_vm (m st).1) = ph.

(** [m] makes no call. *)
Definition silent {A} (m : M (S := S) A) : Prop := ∀ st, ds_calls (m st).1 = ds_calls st.

(** [m] leaves the caller's record alone. *)
Definition pure_vm {A} (m : M (S := S) A) : Prop := ∀ st, ds_vm (m st).1 = ds_vm st.

Lemma follows_silent {A} s (m : M A) Q : silent m → pure_vm m → (∀ a, Q a s) → follows s m Q.
Proof. intros H Hv HQ st Hst Hp. exists s. by rewrite H, Hv. Qed.

Lemma follows_ret {A} s (a : A) (Q : A → stage → Prop) : Q a s → follows s (mret a) Q.
Proof. intros HQ st Hst Hp. exists s. split; [done|]. by intros a' [= <-]. Qed.

Lemma follows_fail {A} s e (Q : A → stage → Prop) : follows s (fail e) Q.
Proof. intros st Hst Hp. by exists s. Qed.

Lemma follows_bind {A B} s (m : M A) (f : A → M B) Q R :
  follows s m Q → (∀ a s', Q a s' → follows s' (f a) R) → follows s (m ≫= f) R.
Proof.
  intros Hm Hf st Hst Hp. destruct (Hm st Hst Hp) as (s1 & H1 & HQ). unfold mbind, M_bind.
  destruct (m st) as [st1 [a|e]]; [|by exists s1]. destruct (HQ a eq_refl) as [Ha Hp1]. apply (Hf a s1 Ha st1 H1 Hp1).
Qed.

Lemma follows_then {A B} s s1 (m : M A) (f : A → M B) R :
  follows s m (fun _ s' => s' = s1) → (∀ a, follows s1 (f a) R) → follows s (m ≫= f) R.
Proof. intros Hm Hf. eapply follows_bind; [exact Hm|]. intros a s' ->. apply Hf. Qed.

(** The same for the end of a run, after which the phase no longer matters. *)
Definition ends {A} (s : stage) (m : M (S := S) A) (Q : A → stage → Prop) : Prop :=
  ∀ st, stage_after (ds_calls st) = Some s → v_Phase (ds_vm st) = ph →
  ∃ s', stage_after (ds_calls (m st).1) = Some s' ∧ ∀ a, (m st).2 = Ok a → Q a s'.

Lemma follows_ends {A} s (m : M A) Q : follows s m Q → ends s m Q.
Proof. intros H st Hst Hp. destruct (H st Hst Hp) as (s' & ? & HQ). exists s'. split; [done|]. intros a Ha. by destruct (HQ a Ha). Qed.

Lemma ends_then {A B} s s1 (m : M A) (f : A → M B) R :
  follows s m (fun _ s' => s' = s1) → (∀ a, ends s1 (f a) R) → ends s (m ≫= f) R.
Proof.
  intros Hm Hf st Hst Hp. destruct (Hm st Hst Hp) as (s' & H1 & HQ). unfold mbind, M_bind.
  destruct (m st) as [st1 [a|e]]; [|by exists s']. destruct (HQ a eq_refl) as [-> Hp1]. apply (Hf a st1 H1 Hp1).
Qed.

Lemma ends_silent {A} s (m : M A) Q : silent m → (∀ a, Q a s) → ends s m Q.
Proof. intros H HQ st Hst Hp. exists s. by rewrite H. Qed.

Lemma ends_on_current {A} s (f : VirtualMachine → M A) R :
  (∀ v, v_Phase v = ph → ends s (f v) R) → ends s (current ≫= f) R.
Proof. intros Hf st Hst Hp. by apply Hf. Qed.

Lemma ends_assign {A} s v (f : unit → M A) R : v_Phase v = ph → ends s (f tt) R → ends s (assign_vm v ≫= f) R.
Proof. intros Hv Hf st Hst _. by apply Hf. Qed.

(** A handler that makes no call and turns the failure into another one. *)
Lemma follows_catch {A} s (m : M A) (h : error → M A) Q :
  follows s m Q → (∀ e, silent (h e)) → (∀ e st a, (h e st).2 ≠ Ok a) → follows s (catch m h) Q.
Proof.
  intros Hm Hs Hn st Hst Hp. destruct (Hm st Hst Hp) as (s1 & H1 & HQ). unfold catch. destruct (m st) as [st1 [a|e]]; [by exists s1|].
  exists s1. rewrite Hs. split; [done|]. intros a Ha. by destruct (Hn e st1 a).
Qed.

Lemma follows_wrap {A} s pre (m : M A) Q : follows s m Q → follows s (wrap pre m) Q.
Proof. intros H. by apply follows_catch. Qed.

Lemma silent_updatePhaseOnError act e : silent (updatePhaseOnError store env act e).
Proof.
  intros st. unfold updatePhaseOnError, current, ignore, catch, mbind, M_bind, service. by destruct (FailDeploy _ _ _ _ _ _ _) as [[m u]|].
Qed.

Lemma silent_deploy_status phase act : silent (deploy_status store env phase act).
Proof.
  intros st. unfold deploy_status, current, ignore, catch, mbind, M_bind, service. by destruct (UpdateDeployStatus _ _ _ _ _ _ _) as [[m u]|].
Qed.

Lemma follows_or_fail {A} s act pre (m : M A) Q : follows s m Q → follows s (or_fail store env act pre m) Q.
Proof.
  intros H. apply follows_catch; [done| |]; intros e st; unfold mbind, M_bind; pose proof (silent_updatePhaseOnError act e st) as Hs;
    by destruct (updatePhaseOnError _ _ _ _ st) as [st1 [u|e']].
Qed.

(** A call in its turn: afterwards the run is in the next stage, or over. *)
Lemma perform_stage s c s' st : stage_after (ds_calls st) = Some s → move s c (answered c (en_answer env (ds_calls st) c)) = Some s' →
  stage_after (ds_calls (perform env c st).1) = Some (if tolerated c (en_answer env (ds_calls st) c) then s' else Over).
Proof.
  intros Hst Hm. unfold stage_after in *.
  change (ds_calls (perform env c st).1) with (ds_calls st ++ [c]). rewrite walk_snoc, Hst. cbn. unfold next. by rewrite Hm.
Qed.

Lemma follows_perform s c s' : (∀ b, move s c b = Some s') → follows s (perform env c) (fun _ s1 => s1 = s').
Proof.
  intros Hm st Hst Hp. eexists. split; [exact (perform_stage s c s' st Hst (Hm _))|]. intros a Ha. split; [|exact Hp].
  change (en_answer env (ds_calls st) c = Ok a) in Ha. by rewrite Ha.
Qed.

(** Asking for the volume of the image. *)
Lemma follows_exists n fmt : n = pl_backing p →
  follows Unchecked (perform env (VolumeExists n fmt)) (fun b s1 => s1 = if b then Imaged else Missing).
Proof.
  intros Hn st Hst Hp. eexists. split.
  - refine (perform_stage Unchecked (VolumeExists n fmt) _ st Hst _). cbn. by rewrite bool_decide_eq_true_2.
  - intros a Ha. split; [|exact Hp]. change (en_answer env (ds_calls st) (VolumeExists n fmt) = Ok a) in Ha. by rewrite Ha.
Qed.

(** Removing an old domain: a domain that is not there counts as removed. *)
Lemma follows_unless_ignorable s pre (m : M unit) s' : pure_vm m →
  (∀ st, stage_after (ds_calls st) = Some s →
     stage_after (ds_calls (m st).1)
     = Some (match (m st).2 with Ok _ => s' | Err e => if IsIgnorableDestroyError e then s' else Over end)) →
  follows s (unless_ignorable pre m) (fun _ s1 => s1 = s').
Proof.
  intros Hv Hm st Hst Hp. specialize (Hm st Hst). specialize (Hv st). unfold unless_ignorable, catch.
  destruct (m st) as [st1 [a|e]]; cbn in Hm, Hv; [exists s'; cbn; by rewrite Hv|].
  destruct (IsIgnorableDestroyError e); [exists s'; cbn; by rewrite Hv|by exists Over].
Qed.

Lemma follows_destroy pre : follows Connected (unless_ignorable pre (perform env (DestroyDomain (pl_domain p)))) (fun _ s => s = Halted).
Proof.
  apply follows_unless_ignorable; [done|]. intros st Hst.
  etransitivity; [refine (perform_stage _ (DestroyDomain (pl_domain p)) Halted st Hst _); cbn; by rewrite bool_decide_eq_true_2|].
  unfold perform. cbn. by destruct (en_answer _ _ _).
Qed.
Lemma follows_undefine pre : follows Halted (unless_ignorable pre (perform env (UndefineDomain (pl_domain p)))) (fun _ s => s = vacant).
Proof.
  apply follows_unless_ignorable; [done|]. intros st Hst.
  etransitivity; [refine (perform_stage _ (UndefineDomain (pl_domain p)) vacant st Hst _); cbn; by rewrite bool_decide_eq_true_2|].
  unfold perform. cbn. by destruct (en_answer _ _ _).
Qed.

(** The interfaces of the new domain, whether they can be read or not. *)
Lemma follows_interfaces (f : list InterfaceInfo → M unit) : pl_redo p = false →
  (∀ l, silent (f l)) → (∀ l st, v_Phase (ds_vm st) = ph → v_Phase (ds_vm (f l st).1) = ph) →
  follows Defined (ignore (l ← perform env (GetDomainInterfaces (pl_domain p)); f l)) (fun _ s => s = Defined).
Proof.
  intros Hr Hf Hfp st Hst Hp.
  assert (Hm : move Defined (GetDomainInterfaces (pl_domain p)) true = Some Defined) by (cbn; rewrite Hr, bool_decide_eq_true_2; done).
  pose proof (perform_stage _ _ _ st Hst Hm) as Hs. exists Defined. unfold ignore, catch, mbind, M_bind.
  destruct (perform env _ st) as [st1 [l|e]] eqn:E; unfold perform in E; injection E as <- E2; rewrite E2 in Hs; [|by split].
  set (st1 := interleave env _) in *. pose proof (Hf l st1) as Hl. pose proof (Hfp l st1 Hp) as Hq.
  destruct (f l st1) as [st2 [[]|e]]; cbn in *; rewrite Hl; by split.
Qed.
End protocol.

Ltac call_step := eapply follows_perform; intros ?; cbn; repeat match goal with H : _ = true |- _ => progress rewrite H | H : _ = false |- _ => progress rewrite H end;
  rewrite ?bool_decide_eq_true_2 by congruence; rewrite ?Z.eqb_refl; cbn; reflexivity.
Ltac follow_step :=
  first
    [ apply follows_wrap | apply follows_or_fail | apply follows_fail | apply follows_destroy | apply follows_undefine
    | apply follows_ret; reflexivity | apply follows_silent; [done|done|]; intros; reflexivity
    | call_step
    | eapply follows_then; [|intros ?]
    | progress cbv zeta | case_match ].
Ltac follow := repeat follow_step.

Section pieces.
Context {S : Type} (store : VMStore S) (env : Env (S := S)) (p : Plan) (ph : Phase).

(** The image is fetched: its URL, into its volume, which is removed again if the
    checksum is wrong. *)
Lemma follows_upload img path fmt : pl_image p = Ok (img, path, fmt) →
  follows env p ph Missing (uploadCloudImageBacking env img (pl_backing p) fmt) (fun _ s => s = Uploaded).
Proof.
  intros Hi. assert (Hu : pl_url p = TrimSpace (oi_URL img)) by (unfold pl_url; by rewrite Hi). unfold uploadCloudImageBacking. rewrite <- Hu.
  follow; (instantiate (1 := if pl_redo p && bool_decide (pl_backing p = pl_name p) then Cleared else Over);
    apply follows_perform; intros b; cbn; rewrite (bool_decide_eq_true_2 (pl_backing p = pl_backing p)) by done;
    by destruct (pl_redo p), (bool_decide (pl_backing p = pl_name p))).
Qed.

Lemma resolved_path images ref img path fmt : resolveCloudImageBackingImage images ref = Ok (img, path, fmt) →
  path = filepath_Join hypervisorImageDir (cloudImageVolumeName (cloudImageBackingVolumeBaseName img fmt) fmt).
Proof.
  unfold resolveCloudImageBackingImage. destruct images as [imgs|]; [|discriminate]. cbv zeta. destruct (TrimSpace ref ==? ""); [discriminate|].
  destruct (mem_get imgs (TrimSpace ref)) as [i|e]; [|destruct (errors_Is e ErrNotFound); discriminate]. destruct (negb (oi_Ready i)); [discriminate|].
  destruct (backing_format i !=? "qcow2"); [discriminate|]. destruct (_ && _ && _); [discriminate|]. by intros [= <- <- <-].
Qed.

(** Afterwards the image is there, and the disk may be made from it. *)
Lemma follows_backing d ref : pl_curtin p = true → pl_image p = resolveCloudImageBackingImage (dp_OSImages d) ref →
  follows env p ph (vacant p) (prepareCloudImageBacking env d ref)
    (fun b s => (s = Imaged ∨ s = Uploaded) ∧ ∃ img, pl_image p = Ok (img, b.1, b.2)).
Proof.
  intros Hc Hi. unfold prepareCloudImageBacking. destruct (resolveCloudImageBackingImage (dp_OSImages d) ref) as [[[img path] fmt]|e] eqn:Er; [|apply follows_fail].
  change (follows env p ph (vacant p) (if bool_decide (TrimSpace (oi_URL img) = "") then mret (path, fmt) else
    (let volumeName := cloudImageURLVolumeBaseName img fmt in
     let backingPath := filepath_Join hypervisorImageDir (cloudImageVolumeName volumeName fmt) in
     exists_ ← wrap ("check cloud image backing " +:+ oi_Name img +:+ ": ") (perform env (VolumeExists volumeName fmt));
     if exists_ : bool then mret (backingPath, fmt) else _ ← uploadCloudImageBacking env img volumeName fmt; mret (backingPath, fmt)))
    (fun b s => (s = Imaged ∨ s = Uploaded) ∧ ∃ img, pl_image p = Ok (img, b.1, b.2))).
  unfold vacant. rewrite Hc. assert (Hu : pl_url p = TrimSpace (oi_URL img)) by (unfold pl_url; by rewrite Hi). rewrite Hu.
  pose proof (resolved_path _ _ _ _ _ Er) as Hp. unfold cloudImageBackingVolumeBaseName in Hp.
  destruct (bool_decide (TrimSpace (oi_URL img) = "")).
  { apply follows_ret. split; [by left|]. by exists img. }
  assert (Hb : pl_backing p = cloudImageURLVolumeBaseName img fmt) by (unfold pl_backing; by rewrite Hi). cbv zeta. rewrite <- Hp, <- Hb.
  eapply follows_bind; [apply follows_wrap, follows_exists; done|]. intros found s' ->. destruct found.
  - apply follows_ret. split; [by left|]. by exists img.
  - eapply follows_then; [by apply (follows_upload img path)|]. intros _. apply follows_ret. split; [by right|]. by exists img.
Qed.

Lemma follows_fetch base tok names files : pl_curtin p = true →
  follows env p ph Disk (fetch_files env base tok names files) (fun _ s => s = Disk).
Proof. intros Hc. revert files. induction names as [|n names IH]; intros files; cbn [fetch_files]; follow. apply IH. Qed.

Lemma follows_seed d v base : pl_curtin p = true → v_Name v = pl_name p →
  follows env p ph Disk (prepareNoCloudSeed env d v base) (fun _ s => s = Seeded).
Proof.
  intros Hc Hn. assert (Hs : noCloudSeedVolumeName (v_Name v) = seed_name p) by (unfold seed_name; by rewrite Hn).
  unfold prepareNoCloudSeed, fetchNoCloudSeed. rewrite Hs. follow; by apply follows_fetch.
Qed.

(** The disk of a machine from a cloud image. *)
Lemma overlay_ok n gb img path fmt : n = pl_name p → gb = pl_gb p → pl_image p = Ok (img, path, fmt) → is_overlay p n gb path fmt = true.
Proof. intros -> -> Hi. unfold is_overlay. rewrite Hi. by rewrite !bool_decide_eq_true_2, Z.eqb_refl. Qed.
Lemma follows_overlay s n gb path fmt : s ∈ [Imaged; Uploaded; Cleared] → (s = Cleared ↔ pl_redo p = true) → is_overlay p n gb path fmt = true →
  follows env p ph s (perform env (CreateOverlayVolume n gb path fmt)) (fun _ s => s = Disk).
Proof.
  intros Hs Hr Ho. apply follows_perform. intros b.
  rewrite !elem_of_cons, elem_of_nil in Hs. destruct Hs as [->|[->|[->|[]]]]; cbn; rewrite Ho; [destruct (pl_redo p); [discriminate (proj2 Hr eq_refl)|done]..|done].
Qed.
Lemma follows_clear s n : s = Imaged ∨ s = Uploaded → pl_redo p = true → n = pl_name p →
  follows env p ph s (perform env (DeleteVolume n)) (fun _ s => s = Cleared).
Proof. intros [->| ->] Hr Hn; apply follows_perform; intros b; cbn; rewrite Hr, bool_decide_eq_true_2; done. Qed.

Lemma markDomainDefined_phase s now v : v_Phase (markDomainDefined store s now v).2 = v_Phase v.
Proof. unfold markDomainDefined. by repeat case_match. Qed.
Lemma stamp_keeps_phase s : follows env p ph s (stamp_domain store env) (fun _ s' => s' = s).
Proof.
  intros st Hst Hp. exists s. unfold stamp_domain, current, mbind, M_bind, service.
  pose proof (markDomainDefined_phase (so_vms (ds_stores (interleave env st))) (en_clock env (ds_tick (interleave env st))) (ds_vm st)) as Hv.
  destruct (markDomainDefined _ _ _ _) as [m' v']. split; [exact Hst|]. intros a _. split; [done|]. exact (eq_trans Hv Hp).
Qed.
End pieces.

(** A run that starts by reading the caller's record. *)
Lemma from_current {S A} (env : Env (S := S)) p (m : M (S := S) A) body Q v tick s : m = (current ≫= body) →
  ends env p (v_Phase v) Start (body v) Q →
  let out := m (mkDState tick [] s v) in
  ∃ s', stage_after env p (ds_calls out.1) = Some s' ∧ ∀ a, out.2 = Ok a → Q a s'.
Proof.
  intros -> H. destruct (H (mkDState tick [] s v) eq_refl eq_refl) as (s' & Hs & HQ). by exists s'.
Qed.

(** Where a successful deployment ends. *)
Definition last_stage (v : VirtualMachine) : stage := if is_curtin v then Started else Ready.

Section runs.
Context {S : Type} (store : VMStore S) (env : Env (S := S)) (d : Deployer) (fn : option LineConfig).

(** The domain the deployment defines bears the name it was asked for. *)
Lemma built_name v n b base inst seed c : dc_Name c = dc_Name (BuildDomainConfig v n b base fn) →
  dc_Name (with_seed seed (applyInstallStorageOverrides c inst)) = n.
Proof.
  intros Hc. destruct (BuildDomainConfig_keeps v n b base fn) as (P & _). apply (f_equal pp_name) in P.
  change (dc_Name (BuildDomainConfig v n b base fn) = n) in P. rewrite P in Hc. revert Hc.
  unfold with_seed, applyInstallStorageOverrides. by repeat case_match.
Qed.

Lemma follows_define v n b base inst seed c p ph s :
  dc_Name c = dc_Name (BuildDomainConfig v n b base fn) → n = pl_domain p →
  s = (if pl_curtin p then Seeded else if pl_redo p then Vacant else Disk) →
  follows env p ph s (perform env (DefineDomain (with_seed seed (applyInstallStorageOverrides c inst)))) (fun _ s1 => s1 = Defined).
Proof.
  intros Hc Hn ->. apply follows_perform. intros found. pose proof (built_name v n b base inst seed c Hc) as Hb. rewrite Hn in Hb.
  destruct (pl_curtin p) eqn:E1; [|destruct (pl_redo p) eqn:E2]; cbn; by rewrite ?E1, ?E2, Hb, bool_decide_eq_true_2.
Qed.

(** The end of a deployment, once the domain is defined. *)
Lemma ends_rest p n hv ph : pl_redo p = false → n = pl_domain p →
  ends env p ph Defined
   (_ ← stamp_domain store env;
    v ← current;
    _ ← assign_vm (v <| v_LibvirtDomain := n |> <| v_CreatedOnHost := hv |>);
    _ ← ignore (interfaces ← perform env (GetDomainInterfaces n);
              let '(statuses, ips) := ConvertRuntimeInterfaces interfaces in
              v ← current;
              assign_vm (v <| v_NetworkInterfaces := statuses |> <| v_IPAddresses := ips |>));
    v ← current;
    if v_Phase v !=? PhaseStopped then
      _ ← or_fail store env "start" "start domain: " (perform env (StartDomain n));
      _ ← (if (if pl_curtin p then "hd" else "network") ==? "network"
         then or_fail store env "set-boot-hd" ("set domain " +:+ n +:+ " boot device to hd: ") (perform env (SetDomainBootDevice n "hd"))
         else mret tt);
      deploy_status store env PhaseProvisioning (if (if pl_curtin p then "hd" else "network") ==? "hd" then "create+cloudimage" else "create+pxe")
    else deploy_status store env PhaseCreating "define")
   (fun _ s => s = if ph ==? PhaseStopped then Defined else if pl_curtin p then Started else Ready).
Proof.
  intros Hr Hn. rewrite Hn. eapply ends_then; [apply stamp_keeps_phase|intros _]. apply ends_on_current. intros v Hv. apply ends_assign; [exact Hv|].
  eapply ends_then; [apply follows_interfaces; [done|..]|intros _].
  { intros l st. by destruct (ConvertRuntimeInterfaces l). }
  { intros l st Hp. by destruct (ConvertRuntimeInterfaces l). }
  apply ends_on_current. intros v' Hv'. rewrite Hv'. destruct (bool_decide (ph = PhaseStopped)); cbn [negb].
  { apply ends_silent; [apply silent_deploy_status|done]. }
  destruct (pl_curtin p) eqn:Ec; repeat first [apply ends_silent; [apply silent_deploy_status|done]|eapply ends_then; [follow|intros ?]].
Qed.

(** The disk of a first deployment, and the one of a redeployment from an image. *)
Lemma follows_first_disk p ph ref n gb : pl_redo p = false → n = pl_name p → gb = pl_gb p → pl_image p = resolveCloudImageBackingImage (dp_OSImages d) ref →
  follows env p ph (vacant p)
    (if pl_curtin p then
       '(backingPath, backingFormat) ← or_fail store env "resolve-cloudimage" "resolve cloud image backing: " (prepareCloudImageBacking env d ref);
       or_fail store env "create-overlay-volume" "create overlay volume: " (perform env (CreateOverlayVolume n gb backingPath backingFormat))
     else or_fail store env "create-volume" "create volume: " (perform env (CreateVolume n gb "qcow2")))
    (fun _ s => s = Disk).
Proof.
  intros Hr Hn Hg Hi. destruct (pl_curtin p) eqn:Ec.
  - eapply follows_bind; [apply follows_or_fail; by apply follows_backing|]. intros [path fmt] s' [Hs [img Ho]]. apply follows_or_fail.
    apply follows_overlay; [set_solver|rewrite Hr; destruct Hs as [->| ->]; done|by eapply overlay_ok].
  - apply follows_or_fail, follows_perform. intros b. unfold vacant. rewrite Ec. cbn. by rewrite Hr, Hn, Hg, !bool_decide_eq_true_2, Z.eqb_refl.
Qed.
Lemma follows_new_disk p ph ref n gb pre1 pre2 pre3 : pl_redo p = true → n = pl_name p → gb = pl_gb p → pl_image p = resolveCloudImageBackingImage (dp_OSImages d) ref →
  follows env p ph (vacant p)
    (if pl_curtin p then
       '(backingPath, backingFormat) ← wrap pre1 (prepareCloudImageBacking env d ref);
       _ ← wrap pre2 (perform env (DeleteVolume n));
       wrap pre3 (perform env (CreateOverlayVolume n gb backingPath backingFormat))
     else mret tt)
    (fun _ s => s = if pl_curtin p then Disk else Vacant).
Proof.
  intros Hr Hn Hg Hi. destruct (pl_curtin p) eqn:Ec; [|apply follows_ret; unfold vacant; by rewrite Ec].
  eapply follows_bind; [apply follows_wrap; by apply follows_backing|]. intros [path fmt] s' [Hs [img Ho]].
  eapply follows_then; [apply follows_wrap; by apply follows_clear|]. intros _. apply follows_wrap.
  apply follows_overlay; [set_solver|by rewrite Hr|by eapply overlay_ok].
Qed.
Lemma follows_seeded p ph v base pre1 : pl_curtin p = true → v_Name v = pl_name p → 
  follows env p ph Disk (seedPath ← wrap pre1 (prepareNoCloudSeed env d v base); mret (Some seedPath)) (fun _ s => s = Seeded).
Proof. intros Hc Hn. eapply follows_then; [apply follows_wrap; by apply follows_seed|]. intros path. by apply follows_ret. Qed.

Lemma Deploy_run v tick s :
  let out := Deploy store env d fn (mkDState tick [] s v) in
  ∃ s', stage_after env (plan_of false d v) (ds_calls out.1) = Some s'
  ∧ ∀ a, out.2 = Ok a → s' = if v_Phase v ==? PhaseStopped then Defined else last_stage v.
Proof.
  eapply from_current; [reflexivity|]. cbv beta zeta. set (p := plan_of false d v). change (resolveInstallType v ==? InstallConfigCurtin) with (pl_curtin p).
  unfold last_stage. change (is_curtin v) with (pl_curtin p).
  eapply ends_then; [apply follows_or_fail, follows_silent; [done|done|reflexivity]|intros hv].
  eapply ends_then; [apply follows_or_fail, follows_silent; [done|done|reflexivity]|intros base].
  eapply ends_then; [apply follows_or_fail, (follows_perform _ _ _ _ _ (vacant p)); done|intros _].
  eapply ends_then; [by apply (follows_first_disk p)|intros _].
  eapply (ends_then _ _ _ _ (if pl_curtin p then Seeded else Disk)).
  { destruct (pl_curtin p) eqn:Ec; [|by apply follows_ret].
    eapply follows_then; [apply follows_or_fail; by apply follows_seed|]. intros path. by apply follows_ret. }
  intros seed. eapply ends_then; [apply follows_or_fail; by eapply follows_define|intros _].
  by apply (ends_rest p).
Qed.

Lemma Redeploy_run v tick s :
  let out := Redeploy store env d fn (mkDState tick [] s v) in
  ∃ s', stage_after env (plan_of true d v) (ds_calls out.1) = Some s'
  ∧ ∀ a, out.2 = Ok a → s' = last_stage v.
Proof.
  unfold Redeploy. match goal with |- context [let '(_, _) := ?r (mkDState tick [] s v) in _] => set (run := r) end.
  assert (H : let out := run (mkDState tick [] s v) in
    ∃ s', stage_after env (plan_of true d v) (ds_calls out.1) = Some s' ∧ ∀ a, out.2 = Ok a → s' = last_stage v).
  2: { cbv zeta in *. destruct (run _) as [st' r]. exact H. }
  eapply from_current; [reflexivity|]. cbv beta zeta. set (p := plan_of true d v). change (resolveInstallType v ==? InstallConfigCurtin) with (pl_curtin p).
  unfold last_stage. change (is_curtin v) with (pl_curtin p). apply follows_ends.
  eapply follows_then; [apply follows_wrap, follows_silent; [done|done|reflexivity]|intros hv].
  eapply follows_then; [apply follows_wrap, follows_silent; [done|done|reflexivity]|intros base].
  eapply follows_then; [apply follows_wrap, (follows_perform _ _ _ _ _ Connected); done|intros _].
  eapply follows_then; [apply (follows_destroy env p)|intros _].
  eapply follows_then; [apply (follows_undefine env p)|intros _].
  eapply follows_then; [by apply (follows_new_disk p)|intros _].
  eapply (follows_then _ _ _ _ (if pl_curtin p then Seeded else Vacant)).
  { destruct (pl_curtin p) eqn:Ec; [by apply follows_seeded|by apply follows_ret]. }
  intros seed. eapply follows_then; [apply follows_wrap; by eapply follows_define|intros _].
  eapply follows_then; [apply stamp_keeps_phase|intros _].
  change (domain_name v) with (pl_domain p). clearbody p. destruct (pl_curtin p) eqn:Ec; follow.
Qed.
End runs.

(** C38: the host operations of a deployment come in order, on its own volumes.  A first
    deployment connects, makes the disk, writes the seed of a cloud image, defines the
    domain, starts it and, for an installation over the network, turns the next boot to
    disk; a redeployment stops and undefines the old domain first, and replaces the disk
    of a machine from a cloud image.  An image from a URL is fetched from that URL, into
    the volume that is named after it, only if that volume does not exist; it is removed
    again only if its checksum is wrong, and then nothing follows.  Every other call is on
    the machine's own domain, its own disk of its own size, over that image, and its own
    seed volume; no call follows a failed one except the three failures that are
    forgiven, and success is reported only with the domain started and ready for its next
    boot, or only defined if the machine is to stay off. *)
Theorem deploy_calls_in_order {S : Type} (store : VMStore S) (env : Env (S := S)) (d : Deployer) (fn : option LineConfig) (v : VirtualMachine)
    (tick : nat) (s : Stores (S := S)) :
  let st := mkDState tick [] s v in
  let first := Deploy store env d fn st in
  let again := Redeploy store env d fn st in
  (∃ s', stage_after env (plan_of false d v) (ds_calls first.1) = Some s'
     ∧ (first.2 = Ok tt → s' = if v_Phase v ==? PhaseStopped then Defined else last_stage v))
  ∧ (∃ s', stage_after env (plan_of true d v) (ds_calls again.1) = Some s'
     ∧ (again.2 = Ok tt → s' = last_stage v)).
Proof.
  intros st first again. destruct (Deploy_run store env d fn v tick s) as (s1 & H1 & Q1), (Redeploy_run store env d fn v tick s) as (s2 & H2 & Q2).
  split; [exists s1|exists s2]; (split; [done|]); [apply Q1|apply Q2].
Qed.

(** No call touches the volume of another machine. *)
Lemma own_volumes p s c b s' : move p s c b = Some s' →
  ∀ n, (∃ fmt, c = VolumeExists n fmt) ∨ (∃ k fmt, c = CreateVolumeFromReader n k fmt) ∨ c = DeleteVolume n ∨ (∃ k fmt, c = CreateVolume n k fmt)
       ∨ (∃ k path fmt, c = CreateOverlayVolume n k path fmt) →
  n = pl_name p ∨ n = pl_backing p ∨ n = seed_name p.
Proof.
  intros Hm n Hc. destruct Hc as [(? & ->)|[(? & ? & ->)|[->|[(? & ? & ->)|(? & ? & ? & ->)]]]]; destruct s; try discriminate Hm; cbn in Hm; unfold is_overlay in Hm;
    repeat case_match; try discriminate Hm; repeat match goal with H : _ && _ = true |- _ => apply andb_true_iff in H as [? ?] end;
    repeat match goal with H : bool_decide _ = true |- _ => apply bool_decide_eq_true in H end; auto.
Qed.

(** What the automaton excludes: a call is made in the stage it needs, and after one
    that failed for good there is none. *)
Lemma walk_app {S} (env : Env (S := S)) p past l1 l2 s :
  walk env p past (l1 ++ l2) s = (walk env p past l1 s ≫= walk env p (past ++ l1) l2).
Proof.
  revert past s. induction l1 as [|x l1 IH]; intros past s; cbn [walk app].
  - by rewrite app_nil_r.
  - destruct (next _ s x _) as [s'|]; cbn; [|done]. rewrite IH. by rewrite <- app_assoc.
Qed.

Lemma stage_split {S} (env : Env (S := S)) p past c rest s :
  stage_after env p (past ++ c :: rest) = Some s → tolerated c (en_answer env past c) = false →
  rest = [] ∧ s = Over.
Proof.
  unfold stage_after. rewrite walk_app. destruct (walk _ _ [] past Start) as [s0|]; [|done]. cbn. unfold next.
  intros H Ht. rewrite Ht in H. destruct (move _ s0 c _); [|done]. cbn in H.
  destruct rest as [|x rest]; [by injection H|]. cbn in H. by destruct x.
Qed.

(** A deployment stops at its first failure and reports it.  When a call of a
    deployment or a redeployment fails, and it is not the removal of a domain that is
    already gone nor the reading of the new domain's interfaces, then it is the last
    call and the result is an error. *)
Lemma deploy_stops_at_failure {S : Type} (store : VMStore S) (env : Env (S := S)) (d : Deployer) (fn : option LineConfig) (v : VirtualMachine) (tick : nat)
    (s : Stores (S := S)) (out : DState (S := S) * result unit) past c rest
    (Hout : out = Deploy store env d fn (mkDState tick [] s v) ∨ out = Redeploy store env d fn (mkDState tick [] s v))
    (Hcalls : ds_calls out.1 = past ++ c :: rest) (Hfail : tolerated c (en_answer env past c) = false) :
  rest = [] ∧ ∃ e, out.2 = Err e.
Proof.
  assert (Hrun : ∃ p s', stage_after env p (ds_calls out.1) = Some s' ∧ (∀ a, out.2 = Ok a → s' ≠ Over)).
  { destruct Hout as [-> | ->];
      [destruct (Deploy_run store env d fn v tick s) as (s' & H & Q)|destruct (Redeploy_run store env d fn v tick s) as (s' & H & Q)];
      do 2 eexists; (split; [exact H|]); intros a Ha; rewrite (Q a Ha); unfold last_stage; by repeat case_match. }
  destruct Hrun as (p & s' & Hs & Hok). rewrite Hcalls in Hs.
  destruct (stage_split _ _ _ _ _ _ Hs Hfail) as [-> ->]. split; [done|].
  destruct out.2 as [a|e]; [by destruct (Hok a eq_refl)|by exists e].
Qed.

Definition no_space_env : Env (S := vms) :=
  mkEnv (fun _ c => match c with DefineDomain _ => Err (ErrNew "no space") | VolumeExists _ _ => Ok true
                            | GetDomainInterfaces _ => Ok [] | DomainInfo _ => Ok None | Download _ => Ok (mkHttpResponse 200 1)
                            | RenderNoCloudSeed _ _ => Ok ∅ | FetchSeed _ => Err (ErrNew "down") | BuildNoCloudISO _ => Ok []
                            | CreateVolumeFromReader _ _ _ => Ok [] | _ => Ok tt end)
        (fun _ s => s) (fun _ => 0) (Ok (Some "10.0.0.1")) (fun _ => None) (fun _ => None).

Lemma deploy_stops_at_failure_witness :
  let v := sample_vm "vm-1" "tok" in
  let out := Deploy memory_vms no_space_env (mkDeployer true None "" ":5392") None
               (mkDState 0 [] (mkStores {["vm-1" := v]} {["hv-1" := sample_hv]}) v) in
  ∃ past cfg, ds_calls out.1 = past ++ [DefineDomain cfg] ∧ length past = 2%nat ∧ ∃ e, out.2 = Err e.
Proof.
  intros v out. set (l := ds_calls out.1). vm_compute in l.
  match eval unfold l in l with [?a; ?b; DefineDomain ?cfg] => exists [a; b], cfg end.
  split; [vm_compute; reflexivity|]. split; [reflexivity|].
  apply (deploy_stops_at_failure memory_vms no_space_env (mkDeployer true None "" ":5392") None v 0
           (mkStores {["vm-1" := v]} {["hv-1" := sample_hv]}) out
           (take 2 l) (default (StartDomain "") (l !! 2%nat)) []).
  - left. reflexivity.
  - vm_compute. reflexivity.
  - vm_compute. reflexivity.
Defined.
