(* ===== verification/ApiResource.v ===== *)
(** * internal/infra/api: resource names, list filters and pages

    The helpers of resource.go that every list and every request of the HTTP API
    goes through: resource names and identifiers, page tokens and pages, filters,
    and the split of a custom method from a path. *)
From S2P Require Import Prelude GoStrings GoPath.

(** ** encoding/base64: [RawURLEncoding] *)

Definition b64_alphabet : bytes :=
  to_bytes "ABCDEFGHIJKLMNOPQRSTUVWXYZabcdefghijklmnopqrstuvwxyz0123456789-_".
Definition b64_char (n : Z) : ascii := nth (Z.to_nat n) b64_alphabet "A"%char.
Definition b64_val (c : ascii) : option Z := Z.of_nat ∘ fst <$> list_find (fun d => d = c) b64_alphabet.

(** Three bytes are four characters of six bits; a rest of one or two bytes is two or
    three characters, the missing bits zero. *)
Definition sextet (val k : Z) : ascii := b64_char (Z.land (Z.shiftr val k) 63).
Fixpoint b64_encode (l : bytes) : bytes :=
  match l with
  | a :: b :: c :: l =>
      let val := Z.shiftl (byte_val a) 16 + Z.shiftl (byte_val b) 8 + byte_val c in
      sextet val 18 :: sextet val 12 :: sextet val 6 :: sextet val 0 :: b64_encode l
  | [a; b] =>
      let val := Z.shiftl (byte_val a) 16 + Z.shiftl (byte_val b) 8 in
      [sextet val 18; sextet val 12; sextet val 6]
  | [a] => let val := Z.shiftl (byte_val a) 16 in [sextet val 18; sextet val 12]
  | [] => []
  end.

(** Decoding is not strict: line ends are skipped and bits left over are ignored; a
    single character left over is an error. *)
Definition octet (val k : Z) : ascii := byte_of (Z.land (Z.shiftr val k) 255).
Fixpoint b64_groups (l : list Z) : option bytes :=
  match l with
  | [] => Some []
  | [_] => None
  | [a; b] => Some [octet (Z.shiftl a 18 + Z.shiftl b 12) 16]
  | [a; b; c] => let val := Z.shiftl a 18 + Z.shiftl b 12 + Z.shiftl c 6 in Some [octet val 16; octet val 8]
  | a :: b :: c :: d :: l =>
      let val := Z.shiftl a 18 + Z.shiftl b 12 + Z.shiftl c 6 + d in
      rest ← b64_groups l; Some (octet val 16 :: octet val 8 :: octet val 0 :: rest)
  end.
Definition line_end (c : ascii) : bool := (byte_val c =? 10) || (byte_val c =? 13).
Definition b64_decode (s : bytes) : option bytes :=
  vals ← mapM b64_val (List.filter (fun c => negb (line_end c)) s); b64_groups vals.

(** ** Resource names *)

Definition resourceName (collection id : string) : string :=
  let id := TrimSpace id in
  if id ==? "" then "" else if HasPrefix id (collection +:+ "/") then id else collection +:+ "/" +:+ id.

Definition resourceID (collection name : string) : string :=
  let name := TrimSpace name in
  if HasPrefix name (collection +:+ "/") then TrimPrefix name (collection +:+ "/") else name.

Definition resourceIDs (collection : string) (names : list string) : list string :=
  List.filter (fun id => id !=? "") (resourceID collection <$> names).
Definition resourceNames (collection : string) (ids : list string) : list string :=
  List.filter (fun n => n !=? "") (resourceName collection <$> ids).

(** ** Pages *)

Definition defaultPageSize : Z := 100.
Definition maxPageSize : Z := 500.

Record page := mkPage { pg_start : Z; pg_size : Z; pg_nextPageToken : string; pg_totalSize : Z }.

(** The query parameters of a list request. *)
Record Query := mkQuery { q_pageSize : string; q_pageToken : string }.

Definition encodePageToken (offset : Z) : string := of_bytes (b64_encode (to_bytes (Itoa offset))).
Definition decodePageToken (token : string) : option Z :=
  d ← b64_decode (to_bytes token); Atoi (of_bytes d).

(** The two parameters in turn. *)
Definition parse_size (raw : string) : result Z :=
  let raw := TrimSpace raw in
  size ← (if raw ==? "" then Ok defaultPageSize else
          match Atoi raw with
          | Some n => if n <? 0 then Err (ErrNew "pageSize must be a non-negative integer")
                      else Ok (if 0 <? n then n else defaultPageSize)
          | None => Err (ErrNew "pageSize must be a non-negative integer")
          end);
  Ok (if maxPageSize <? size then maxPageSize else size).
Definition parse_start (token : string) : result Z :=
  let token := TrimSpace token in
  if token ==? "" then Ok 0 else
  match decodePageToken token with
  | Some offset => if offset <? 0 then Err (ErrNew "pageToken is invalid") else Ok offset
  | None => Err (ErrNew "pageToken is invalid")
  end.
Definition parsePageRequest (q : Query) : result (Z * Z) :=
  size ← parse_size (q_pageSize q);
  start ← parse_start (q_pageToken q);
  Ok (start, size).

(** [int] is 64 bits wide. *)
Definition parsePagination (q : Query) (total : Z) : result page :=
  '(start, size) ← parsePageRequest q;
  let start := if total <? start then total else start in
  let next := if int64 (start + size) <? total then encodePageToken (int64 (start + size)) else "" in
  Ok (mkPage start size next total).

Definition paginate {T} (items : list T) (p : page) : list T :=
  if Z.of_nat (length items) <=? pg_start p then [] else
  let end_ := int64 (pg_start p + pg_size p) in
  let end_ := if Z.of_nat (length items) <? end_ then Z.of_nat (length items) else end_ in
  take (Z.to_nat end_ - Z.to_nat (pg_start p)) (drop (Z.to_nat (pg_start p)) items).

(** ** Filters and custom methods *)

Definition stringFilter (param : string) : string := TrimSpace param.
Definition matchFilter (value filter : string) : bool := (filter ==? "") || EqualFold (TrimSpace value) filter.

(** The position of the last colon. *)
Fixpoint last_colon (l : bytes) : option nat :=
  match l with
  | [] => None
  | c :: l => match last_colon l with
              | Some i => Some (S i)
              | None => if c ==? ":"%char then Some 0%nat else None
              end
  end.
Definition splitCustomMethod (path : string) : option (string * string) :=
  let l := to_bytes path in
  match last_colon l with
  | Some (S _ as idx) => if (idx =? length l - 1)%nat then None else Some (of_bytes (take idx l), of_bytes (drop (S idx) l))
  | _ => None
  end.

Example splitCustomMethod_power : splitCustomMethod "vm-1:power:off" = Some ("vm-1:power", "off").
Proof. reflexivity. Qed.
Example token_sample : encodePageToken 100 = "MTAw" ∧ decodePageToken "MTAw" = Some 100.
Proof. by vm_compute. Qed.

(** ** A page token carries its offset *)

Lemma b64_char_val (n : Z) : 0 <= n < 64 → b64_val (b64_char n) = Some n ∧ graphic (b64_char n) = true ∧ line_end (b64_char n) = false.
Proof.
  intros Hn. assert (H : forallb (fun k => bool_decide (b64_val (b64_char (Z.of_nat k)) = Some (Z.of_nat k))
    && graphic (b64_char (Z.of_nat k)) && negb (line_end (b64_char (Z.of_nat k)))) (seq 0 64) = true) by (vm_compute; reflexivity).
  rewrite forallb_forall in H. specialize (H (Z.to_nat n)). rewrite in_seq, Z2Nat.id in H by lia.
  apply andb_true_iff in H as [[H1%bool_decide_eq_true H2]%andb_true_iff H3%negb_true_iff]; [done|lia].
Qed.

(** The six-bit values a byte string is cut into. *)
Definition sixbits (val k : Z) : Z := Z.land (Z.shiftr val k) 63.
Fixpoint b64_sextets (l : bytes) : list Z :=
  match l with
  | a :: b :: c :: l =>
      let val := Z.shiftl (byte_val a) 16 + Z.shiftl (byte_val b) 8 + byte_val c in
      sixbits val 18 :: sixbits val 12 :: sixbits val 6 :: sixbits val 0 :: b64_sextets l
  | [a; b] => let val := Z.shiftl (byte_val a) 16 + Z.shiftl (byte_val b) 8 in [sixbits val 18; sixbits val 12; sixbits val 6]
  | [a] => let val := Z.shiftl (byte_val a) 16 in [sixbits val 18; sixbits val 12]
  | [] => []
  end.

Lemma bytes_by_three (P : bytes → Prop) :
  P [] → (∀ a, P [a]) → (∀ a b, P [a; b]) → (∀ a b c l, P l → P (a :: b :: c :: l)) → ∀ l, P l.
Proof.
  intros H0 H1 H2 H3 l. induction l as [l IH] using (induction_ltof1 _ (@length ascii)). unfold ltof in IH.
  destruct l as [|a [|b [|c l]]]; [done|done|done|]. apply H3, IH. simpl. lia.
Qed.

Lemma b64_encode_sextets l : b64_encode l = b64_char <$> b64_sextets l.
Proof. induction l as [| | |a b c l IH] using bytes_by_three; [done..|]. cbn [b64_encode b64_sextets]. rewrite IH. reflexivity. Qed.

Lemma sixbits_range val k : 0 <= sixbits val k < 64.
Proof. unfold sixbits. change 63 with (Z.ones 6). rewrite Z.land_ones by lia. apply Z.mod_pos_bound. lia. Qed.
#[local] Hint Resolve sixbits_range : core.

Lemma b64_sextets_range l : Forall (fun n => 0 <= n < 64) (b64_sextets l).
Proof. induction l as [| | |a b c l IH] using bytes_by_three; cbn [b64_sextets]; repeat constructor; try apply sixbits_range; done. Qed.

Lemma octet_of val k a : byte_val a = Z.land (Z.shiftr val k) 255 → octet val k = a.
Proof. intros H. unfold octet. rewrite <- H. apply byte_of_val. Qed.

Ltac bits := unfold sixbits; change 63 with (Z.ones 6); change 255 with (Z.ones 8); rewrite ?Z.land_ones, ?Z.shiftr_div_pow2, ?Z.shiftl_mul_pow2 by lia.

Lemma b64_groups_sextets l : b64_groups (b64_sextets l) = Some l.
Proof.
  induction l as [|a|a b|a b c l IH] using bytes_by_three; cbn [b64_sextets b64_groups]; [done|..].
  - pose proof (byte_val_range a). do 2 f_equal. apply octet_of. bits. Z.to_euclidean_division_equations. lia.
  - pose proof (byte_val_range a). pose proof (byte_val_range b). do 2 f_equal; [|f_equal]; apply octet_of; bits; Z.to_euclidean_division_equations; lia.
  - rewrite IH. cbn [mbind option_bind]. pose proof (byte_val_range a). pose proof (byte_val_range b). pose proof (byte_val_range c).
    do 2 f_equal; [|f_equal; [|f_equal]]; apply octet_of; bits; Z.to_euclidean_division_equations; lia.
Qed.

Lemma b64_roundtrip l : b64_decode (b64_encode l) = Some l.
Proof.
  unfold b64_decode. rewrite b64_encode_sextets. pose proof (b64_sextets_range l) as Hr.
  assert (Hf : List.filter (fun c => negb (line_end c)) (b64_char <$> b64_sextets l) = b64_char <$> b64_sextets l).
  { induction Hr as [|n ns Hn _ IH]; [done|]. rewrite fmap_cons. cbn [List.filter].
    destruct (b64_char_val n Hn) as (_ & _ & ->). cbn [negb]. by f_equal. }
  assert (Hm : mapM b64_val (b64_char <$> b64_sextets l) = Some (b64_sextets l)).
  { apply mapM_Some. apply Forall2_fmap_l. clear Hf. revert Hr. generalize (b64_sextets l).
    induction 1 as [|n ns Hn _ IH]; [constructor|]. constructor; [exact (proj1 (b64_char_val n Hn))|exact IH]. }
  rewrite Hf, Hm. apply b64_groups_sextets.
Qed.

Lemma encodePageToken_graphic n : Forall (fun c => graphic c = true) (to_bytes (encodePageToken n)).
Proof.
  unfold encodePageToken. rewrite to_of_bytes, b64_encode_sextets. apply Forall_fmap.
  eapply Forall_impl; [apply b64_sextets_range|]. intros x Hx. by apply b64_char_val.
Qed.

Lemma encodePageToken_nonempty n : 0 <= n → encodePageToken n ≠ "".
Proof.
  intros Hn H. destruct (Itoa_nonneg n Hn) as (_ & _ & Hne). apply Hne. apply to_bytes_nil_inv.
  pose proof (b64_roundtrip (to_bytes (Itoa n))) as R. apply (f_equal to_bytes) in H. unfold encodePageToken in H.
  rewrite to_of_bytes in H. rewrite H in R. vm_compute in R. by injection R.
Qed.

Lemma decode_encodePageToken n : 0 <= n <= max_int64 → decodePageToken (encodePageToken n) = Some n.
Proof.
  intros Hn. unfold decodePageToken, encodePageToken. rewrite to_of_bytes, b64_roundtrip. cbn [mbind option_bind].
  rewrite of_to_bytes. by apply Atoi_Itoa.
Qed.

(** ** Following the page tokens lists everything once *)

(** A client that asks for pages of the given size until there is no next one. *)
Fixpoint list_all {T} (fuel : nat) (pageSize token : string) (items : list T) : option (list (list T)) :=
  match fuel with
  | O => None
  | S fuel =>
      match parsePagination (mkQuery pageSize token) (Z.of_nat (length items)) with
      | Err _ => None
      | Ok p => if pg_nextPageToken p ==? "" then Some [paginate items p]
                else rest ← list_all fuel pageSize (pg_nextPageToken p) items; Some (paginate items p :: rest)
      end
  end.

Lemma parse_size_range ps size : parse_size ps = Ok size → 0 < size <= maxPageSize.
Proof.
  unfold parse_size, defaultPageSize, maxPageSize.
  destruct (bool_decide (TrimSpace ps = "")); [intros [= <-]; lia|]. destruct (Atoi _) as [n|]; [|done].
  destruct (Z.ltb_spec n 0); [done|]. destruct (Z.ltb_spec 0 n); cbn; [|intros [= <-]; lia].
  destruct (Z.ltb_spec 500 n); intros [= <-]; lia.
Qed.

(** A token is read as the offset it was made from. *)
Definition token_of (n : Z) (token : string) : Prop := token = encodePageToken n ∨ token = "" ∧ n = 0.

Lemma parse_start_token n token : 0 <= n <= max_int64 → token_of n token → parse_start token = Ok n.
Proof.
  intros Hn [-> | [-> ->]]; [|done]. unfold parse_start.
  rewrite TrimSpace_id by apply graphic_trimmed, encodePageToken_graphic.
  rewrite bool_decide_eq_false_2 by (apply encodePageToken_nonempty; lia).
  rewrite decode_encodePageToken by done. destruct (Z.ltb_spec n 0); [lia|done].
Qed.

(** The page at an offset inside the list, or at its end. *)
Lemma page_at {T} (items : list T) ps size n token :
  parse_size ps = Ok size → 0 <= n <= Z.of_nat (length items) → Z.of_nat (length items) + maxPageSize <= max_int64 → token_of n token →
  ∃ p, parsePagination (mkQuery ps token) (Z.of_nat (length items)) = Ok p
  ∧ paginate items p = take (Z.to_nat size) (drop (Z.to_nat n) items)
  ∧ pg_nextPageToken p = if n + size <? Z.of_nat (length items) then encodePageToken (n + size) else "".
Proof.
  intros Hs Hn Hmax Ht. pose proof (parse_size_range _ _ Hs) as Hr. unfold parsePagination, parsePageRequest.
  cbn [q_pageSize q_pageToken]. rewrite Hs. cbn [mbind result_bind]. rewrite (parse_start_token n token) by (done || lia).
  cbn [mbind result_bind]. destruct (Z.ltb_spec (Z.of_nat (length items)) n); [lia|].
  rewrite int64_small by (unfold min_int64, max_int64 in *; lia). eexists. split; [reflexivity|].
  unfold paginate. cbn [pg_start pg_size pg_nextPageToken]. split; [|done].
  rewrite int64_small by (unfold min_int64, max_int64 in *; lia).
  destruct (Z.leb_spec (Z.of_nat (length items)) n).
  { rewrite drop_ge by lia. by rewrite take_nil. }
  destruct (Z.ltb_spec (Z.of_nat (length items)) (n + size)).
  - rewrite !take_ge; [done|rewrite length_drop; lia..].
  - f_equal. lia.
Qed.

Lemma list_all_from {T} (items : list T) ps size : parse_size ps = Ok size →
  Z.of_nat (length items) + maxPageSize <= max_int64 →
  ∀ fuel n token, 0 <= n <= Z.of_nat (length items) → token_of n token → (length items - Z.to_nat n < fuel)%nat →
  ∃ pages, list_all fuel ps token items = Some pages ∧ concat pages = drop (Z.to_nat n) items
  ∧ Forall (fun pg => Z.of_nat (length pg) <= size) pages.
Proof.
  intros Hs Hmax. pose proof (parse_size_range _ _ Hs) as Hr. induction fuel as [|fuel IH]; intros n token Hn Ht Hf; [lia|].
  destruct (page_at items ps size n token) as (p & Hp & Hpg & Hnext); try done. cbn [list_all]. rewrite Hp, Hpg, Hnext.
  assert (Hlen : Z.of_nat (length (take (Z.to_nat size) (drop (Z.to_nat n) items))) <= size) by (rewrite length_take; lia).
  destruct (Z.ltb_spec (n + size) (Z.of_nat (length items))).
  - rewrite bool_decide_eq_false_2 by (apply encodePageToken_nonempty; lia).
    destruct (IH (n + size) (encodePageToken (n + size))) as (pages & -> & Hc & Hl); [lia|by left|lia|].
    eexists. split; [reflexivity|]. split; [|by constructor]. cbn [concat]. rewrite Hc.
    rewrite <- (take_drop (Z.to_nat size) (drop (Z.to_nat n) items)) at 2. f_equal. rewrite drop_drop. f_equal. lia.
  - eexists. split; [reflexivity|]. split; [|by repeat constructor]. cbn [concat]. rewrite app_nil_r. apply take_ge.
    rewrite length_drop. lia.
Qed.

(** Following the page tokens ends and lists every item once, in order.  For
    every page size the API accepts, a client that starts without a token and passes
    each answer's token to the next request gets its last page after at most one
    request per item and one more; the pages together are the list, and none is longer
    than the size asked for or 500. *)
Lemma pages_list_everything {T} (items : list T) (ps : string) (size : Z)
  (Hsize : parse_size ps = Ok size) (Hmax : Z.of_nat (length items) + maxPageSize <= max_int64) :
  ∃ pages, list_all (S (length items)) ps "" items = Some pages ∧ concat pages = items
  ∧ Forall (fun pg => Z.of_nat (length pg) <= Z.min size maxPageSize) pages.
Proof.
  destruct (list_all_from items ps size Hsize Hmax (S (length items)) 0 "") as (pages & H1 & H2 & H3); [lia|by right|lia|].
  exists pages. pose proof (parse_size_range _ _ Hsize). split_and!; [done|done|]. eapply Forall_impl; [exact H3|]. intros pg. cbn. lia.
Qed.

Lemma pages_list_everything_witness :
  ∃ pages, list_all 8 " 3 " "" (seq 0 7) = Some pages ∧ concat pages = seq 0 7 ∧ length pages = 3%nat.
Proof.
  destruct (pages_list_everything (seq 0 7) " 3 " 3) as (pages & H1 & H2 & H3).
  - vm_compute. reflexivity.
  - vm_compute. discriminate.
  - exists pages. split; [exact H1|]. split; [exact H2|]. vm_compute in H1. injection H1 as <-. reflexivity.
Defined.

(** ** Names and identifiers *)

(** An identifier printed as a resource name is read back, whatever the collection. *)
Lemma resourceID_resourceName collection id : id ≠ "" → trimmed id → HasPrefix id (collection +:+ "/") = false →
  trimmed (collection +:+ "/" +:+ id) → resourceID collection (resourceName collection id) = id.
Proof.
  intros Hne Ht Hp Hc. unfold resourceName. rewrite (TrimSpace_id id) by done. rewrite (bool_decide_eq_false_2 (id = "")) by done.
  rewrite Hp. unfold resourceID. rewrite TrimSpace_id by done.
  replace (collection +:+ "/" +:+ id) with ((collection +:+ "/") +:+ id) by (apply (inj to_bytes); by rewrite !to_bytes_app, app_assoc).
  by rewrite HasPrefix_app, TrimPrefix_app.
Qed.
