(* ===== verification/VmRequest.v ===== *)
(** * internal/infra/api: what a request does to a virtual machine's record

    The pure part of the virtual machine handlers: reading a creation or
    reinstallation request into a record (vm.go, vm_reinstall.go), fitting the record
    to its OS image (vm_reinstall.go, windows_deploy.go), list filters, the MAC
    addresses of its leases (vm_lease.go), and the answer sent back (vm_response.go). *)
From S2P Require Import Prelude GoStrings GoNet GoPath Resource Store OsImage Hypervisor Vm VmStore ApiResource.

Definition defaultVMBridge : string := "br-eth0".

Global Instance NetworkInterface_fields : Fields NetworkInterface :=
  fpure mkNetworkInterface <*> ni_Name <*> ni_MAC <*> ni_Bridge <*> ni_Network <*> ni_IPAddress.
Global Instance ResourceSpec_fields : Fields ResourceSpec :=
  fpure mkResourceSpec <*> rs_CPUCores <*> rs_MemoryMB <*> rs_DiskGB.
Global Instance InstallConfig_fields : Fields InstallConfig := fpure mkInstallConfig <*> ic_Type <*> ic_Inline.
Global Instance AdvancedOptions_fields : Fields AdvancedOptions :=
  fpure mkAdvancedOptions <*> ao_CPUPinning <*> ao_IOThreads <*> ao_CPUMode <*> ao_DiskDriver <*> ao_DiskFormat <*> ao_NetMultiqueue.

(** ** Creation *)

Record virtualMachineSpecRequest := mkVirtualMachineSpecRequest {
  vsr_HypervisorRef : string; vsr_Resources : ResourceSpec; vsr_OSImageRef : string; vsr_CloudInitRef : string;
  vsr_CloudInitRefs : list string; vsr_Network : list NetworkInterface; vsr_IPAssignment : IPAssignmentMode;
  vsr_SubnetRef : string; vsr_Domain : string; vsr_InstallConfig : option InstallConfig;
  vsr_PowerControlMethod : string; vsr_AdvancedOptions : option AdvancedOptions; vsr_SSHKeyRefs : list string;
  vsr_LoginUser : option LoginUserSpec }.

Definition normalizeVirtualMachineRequestRefs (v : VirtualMachine) : VirtualMachine :=
  v <| v_Name := resourceID "virtualMachines" (v_Name v) |>
    <| v_HypervisorRef := resourceID "hypervisors" (v_HypervisorRef v) |>
    <| v_OSImageRef := resourceID "osImages" (v_OSImageRef v) |>
    <| v_CloudInitRef := resourceID "cloudInitTemplates" (v_CloudInitRef v) |>
    <| v_CloudInitRefs := resourceIDs "cloudInitTemplates" (v_CloudInitRefs v) |>
    <| v_SubnetRef := resourceID "subnets" (v_SubnetRef v) |>
    <| v_SSHKeyRefs := resourceIDs "sshKeys" (v_SSHKeyRefs v) |>.

(** The zero [ProvisioningStatus] and the zero [time.Time]. *)
Definition zero_window : ProvisioningStatus := mkProvisioningStatus false "" false false None None None "" "" None None.

Definition toVirtualMachine (r : virtualMachineSpecRequest) (id : string) : VirtualMachine :=
  normalizeVirtualMachineRequestRefs
    (mkVirtualMachine id (vsr_HypervisorRef r) (vsr_Resources r) (vsr_OSImageRef r) (vsr_CloudInitRef r) (vsr_CloudInitRefs r)
       (vsr_Network r) (vsr_IPAssignment r) (vsr_SubnetRef r) (vsr_Domain r) (vsr_InstallConfig r) (vsr_PowerControlMethod r)
       (vsr_AdvancedOptions r) (vsr_SSHKeyRefs r) (vsr_LoginUser r)
       "" "" "" [] [] zero_window "" "" "" None "" 0 0).

(** What [json.Unmarshal] makes of a body: the request with an identifier and a
    specification, or a whole record, or neither. *)
Inductive create_body : Type :=
| WithSpec (virtualMachineId : string) (spec : virtualMachineSpecRequest)
| WholeRecord (v : VirtualMachine)
| Unreadable (e : error).

Definition bindCreateVirtualMachine (queryId : string) (body : create_body) : result VirtualMachine :=
  match body with
  | WithSpec bodyId spec =>
      let id := if TrimSpace queryId ==? "" then TrimSpace bodyId else TrimSpace queryId in
      if id ==? "" then Err (ErrNew "virtualMachineId is required")
      else Ok (toVirtualMachine spec (resourceID "virtualMachines" id))
  | WholeRecord v => Ok (normalizeVirtualMachineRequestRefs v)
  | Unreadable e => Err e
  end.

(** [fmt.Sprintf("%02x")] and the random suffix of a KVM address: three bytes. *)
Definition hex02 (c : ascii) : string := hex_encode [c].
Definition generateKVMMAC (buf : ascii * ascii * ascii) : string :=
  let '(a, b, c) := buf in "52:54:00:" +:+ hex02 a +:+ ":" +:+ hex02 b +:+ ":" +:+ hex02 c.

(** [random i] are the bytes drawn for the interface [i]. *)
Fixpoint fill_interfaces (random : nat → ascii * ascii * ascii) (i : nat) (l : list NetworkInterface) : list NetworkInterface :=
  match l with
  | [] => []
  | n :: l =>
      let n := if ni_Bridge n ==? "" then n <| ni_Bridge := defaultVMBridge |> else n in
      let n := if ni_MAC n ==? "" then n <| ni_MAC := generateKVMMAC (random i) |> else n in
      n :: fill_interfaces random (S i) l
  end.
Definition ensureVMNetwork (random : nat → ascii * ascii * ascii) (v : VirtualMachine) : VirtualMachine :=
  let l := match v_Network v with [] => [mkNetworkInterface "" "" defaultVMBridge "" ""] | l => l end in
  v <| v_Network := fill_interfaces random 0 l |>.

(** [hv] is what the look-up of the machine's hypervisor gave. *)
Definition resolveVMBridgeFromHypervisor (hv : result Hypervisor) (v : VirtualMachine) : VirtualMachine :=
  if v_HypervisorRef v ==? "" then v else
  match hv with
  | Err _ => v
  | Ok h =>
      if hv_BridgeName h ==? "" then v else
      v <| v_Network := (fun n => if (ni_Bridge n ==? "") || (ni_Bridge n ==? defaultVMBridge)
                                  then n <| ni_Bridge := hv_BridgeName h |> else n) <$> v_Network v |>
  end.

(** ** Fitting the record to its OS image *)

Definition inferInstallConfigType (osFamily : string) : result string :=
  if TrimSpace osFamily ==? "" then Err (ErrNew "osImage.osFamily is required for pxe install") else Ok InstallConfigCurtin.

Definition effectiveVMCloudImageFormat (img : OSImage) : ImageFormat :=
  let f := EffectiveImageFormat img in if f ==? "" then FormatQCOW2 else f.

Definition validateWindowsInputs (legacy : string) (refs keys : list string) (login : bool) (assignment : IPAssignmentMode)
    (inline : string) : result unit :=
  if (TrimSpace legacy !=? "") || (refs !=? []) || (keys !=? []) || login || (TrimSpace inline !=? "")
  then Err (ErrNew "Windows deployment does not support cloud-init, SSH keys, loginUser, or inline Linux config; finish account setup in Windows OOBE")
  else if assignment ==? IPAssignmentStatic
  then Err (ErrNew "Windows deployment currently requires DHCP; configure static addresses after deployment")
  else Ok tt.

Definition plain_windows_options (o : AdvancedOptions) : bool :=
  (ao_DiskDriver o ==? "") && (ao_IOThreads o =? 0) && (ao_NetMultiqueue o =? 0).

Definition applyWindowsVMImage (v : VirtualMachine) (img : OSImage) : result VirtualMachine :=
  match ValidateWindowsHostname (v_Name v) with
  | Some e => Err e
  | None =>
      _ ← ValidateOSImage img;
      if negb (oi_Ready img) then Err (ErrNew "Windows OS image assets are not ready") else
      if negb (SupportsDeploymentTarget img DeploymentTargetVM) then Err (ErrNew "Windows image does not support VM deployment") else
      let inline := match v_InstallCfg v with Some i => ic_Inline i | None => "" end in
      _ ← validateWindowsInputs (v_CloudInitRef v) (v_CloudInitRefs v) (v_SSHKeyRefs v) (v_LoginUser v !=? None) (v_IPAssignment v) inline;
      if (rs_CPUCores (v_Resources v) <? 2) || (rs_MemoryMB (v_Resources v) <? 4096) || (rs_DiskGB (v_Resources v) <? 64)
      then Err (ErrNew "Windows VMs require at least 2 CPUs, 4096 MiB memory, and 64 GiB disk") else
      if match v_AdvancedOptions v with Some o => negb (plain_windows_options o) | None => false end
      then Err (ErrNew "Windows VMs use SATA and e1000e; custom disk drivers, IO threads, and network multiqueue are unsupported")
      else Ok (v <| v_InstallCfg := Some (mkInstallConfig InstallConfigWindows "") |>)
  end.

Definition applyInstallConfigByOSImage (images : gmap string OSImage) (v : VirtualMachine) : result VirtualMachine :=
  let ref := TrimSpace (v_OSImageRef v) in
  if ref ==? "" then Err (ErrNew "osImageRef is required") else
  match mem_get images ref with
  | Err e => if errors_Is e ErrNotFound then Err (ErrNew ("referenced osImageRef not found: " +:+ ref)) else Err e
  | Ok img =>
      if EqualFold (oi_OSFamily img) "windows" then applyWindowsVMImage v img else
      let format := effectiveVMCloudImageFormat img in
      if format !=? FormatQCOW2 then Err (ErrNew ("cloudimage deployment requires qcow2 OS image, got " +:+ format)) else
      if negb (SupportsDeploymentTarget img DeploymentTargetVM) then
        Err (if HasExplicitDeploymentTargets img then ErrNew "cloudimage deployment requires vm-capable OS image"
             else ErrNew ("cloudimage deployment requires cloud OS image variant, got " +:+ oi_Variant img))
      else if negb (HasExplicitDeploymentTargets img) && (oi_Variant img !=? "") && (oi_Variant img !=? VariantCloud)
      then Err (ErrNew ("cloudimage deployment requires cloud OS image variant, got " +:+ oi_Variant img)) else
      cfgType ← inferInstallConfigType (oi_OSFamily img);
      let inline := match v_InstallCfg v with Some i => TrimSpace (ic_Inline i) | None => "" end in
      Ok (v <| v_InstallCfg := Some (mkInstallConfig cfgType inline) |>)
  end.

(** ** Reinstallation *)

Record vmReinstallReq := mkVmReinstallReq {
  rr_Confirm : string; rr_HypervisorRef : string; rr_Resources : option ResourceSpec; rr_OSImageRef : string;
  rr_Network : list NetworkInterface; rr_SubnetRef : option string; rr_Domain : option string;
  rr_InstallConfig : option InstallConfig; rr_CloudInitRef : string; rr_CloudInitRefs : list string;
  rr_AdvancedOptions : option AdvancedOptions; rr_PowerControlMethod : string; rr_IPAssignment : string;
  rr_IP : string; rr_SSHKeyRefs : option (list string); rr_LoginUser : option LoginUserSpec }.
Global Instance vmReinstallReq_fields : Fields vmReinstallReq :=
  fpure mkVmReinstallReq <*> rr_Confirm <*> rr_HypervisorRef <*> rr_Resources <*> rr_OSImageRef <*> rr_Network <*> rr_SubnetRef
    <*> rr_Domain <*> rr_InstallConfig <*> rr_CloudInitRef <*> rr_CloudInitRefs <*> rr_AdvancedOptions
    <*> rr_PowerControlMethod <*> rr_IPAssignment <*> rr_IP <*> rr_SSHKeyRefs <*> rr_LoginUser.

Definition empty_reinstall : vmReinstallReq :=
  mkVmReinstallReq "" "" None "" [] None None None "" [] None "" "" "" None None.

Definition normalizeVMReinstallRequestRefs (r : vmReinstallReq) : vmReinstallReq :=
  r <| rr_HypervisorRef := resourceID "hypervisors" (rr_HypervisorRef r) |>
    <| rr_OSImageRef := resourceID "osImages" (rr_OSImageRef r) |>
    <| rr_CloudInitRef := resourceID "cloudInitTemplates" (rr_CloudInitRef r) |>
    <| rr_CloudInitRefs := resourceIDs "cloudInitTemplates" (rr_CloudInitRefs r) |>
    <| rr_SubnetRef := resourceID "subnets" <$> rr_SubnetRef r |>
    <| rr_SSHKeyRefs := resourceIDs "sshKeys" <$> rr_SSHKeyRefs r |>.

Definition normalizeSSHKeyRefs (refs : list string) : list string := fst (fold_left appendRef refs ([], ∅)).

Definition applyInstallConfigInline (inline : string) (v : VirtualMachine) : VirtualMachine :=
  let trimmed := TrimSpace inline in
  match v_InstallCfg v with
  | None => if trimmed ==? "" then v else v <| v_InstallCfg := Some (mkInstallConfig "" trimmed) |>
  | Some i => v <| v_InstallCfg := Some (i <| ic_Inline := trimmed |>) |>
  end.

(** The first interface's address. *)
Definition set_first_ip (ip : string) (l : list NetworkInterface) : list NetworkInterface :=
  match l with n :: l => n <| ni_IPAddress := ip |> :: l | [] => [] end.

Definition apply_resources (r rs : ResourceSpec) : ResourceSpec :=
  let rs := if 0 <? rs_CPUCores r then rs <| rs_CPUCores := rs_CPUCores r |> else rs in
  let rs := if 0 <? rs_MemoryMB r then rs <| rs_MemoryMB := rs_MemoryMB r |> else rs in
  if 0 <? rs_DiskGB r then rs <| rs_DiskGB := rs_DiskGB r |> else rs.

(** [if cond { v.Field = value }] *)
Definition set_if {A B} (b : bool) (f : B → A → A) (x : B) (a : A) : A := if b then f x a else a.
Definition set_opt {A B} (f : B → A → A) (x : option B) (a : A) : A := match x with Some x => f x a | None => a end.

Definition applyReinstallSpec (r : vmReinstallReq) (v : VirtualMachine) : VirtualMachine :=
  let v := set_if (TrimSpace (rr_HypervisorRef r) !=? "") (assign v_HypervisorRef) (TrimSpace (rr_HypervisorRef r)) v in
  let v := set_opt (fun rs v => v <| v_Resources := apply_resources rs (v_Resources v) |>) (rr_Resources r) v in
  let v := set_if (TrimSpace (rr_OSImageRef r) !=? "") (assign v_OSImageRef) (TrimSpace (rr_OSImageRef r)) v in
  let v := set_if (rr_PowerControlMethod r !=? "") (assign v_PowerControlMethod) (rr_PowerControlMethod r) v in
  let v := set_if (rr_Network r !=? []) (assign v_Network) (rr_Network r) v in
  let v := set_opt (fun s => assign v_SubnetRef (TrimSpace s)) (rr_SubnetRef r) v in
  let v := set_opt (fun s => assign v_Domain (TrimSpace s)) (rr_Domain r) v in
  let v := set_if (rr_IPAssignment r !=? "") (assign v_IPAssignment) (rr_IPAssignment r) v in
  let v := if (rr_IP r !=? "") && (v_Network v !=? []) then v <| v_Network := set_first_ip (rr_IP r) (v_Network v) |>
           else if (rr_IPAssignment r !=? "") && (rr_IPAssignment r !=? IPAssignmentStatic) && (v_Network v !=? [])
           then v <| v_Network := set_first_ip "" (v_Network v) |> else v in
  let v := set_opt (fun o => assign v_AdvancedOptions (Some o)) (rr_AdvancedOptions r) v in
  let v := set_opt (fun refs => assign v_SSHKeyRefs (normalizeSSHKeyRefs refs)) (rr_SSHKeyRefs r) v in
  let v := set_opt (fun u => assign v_LoginUser (Some u)) (rr_LoginUser r) v in
  let v := set_opt (fun i => applyInstallConfigInline (ic_Inline i)) (rr_InstallConfig r) v in
  match NormalizeCloudInitRefs (rr_CloudInitRef r) (rr_CloudInitRefs r) with
  | [] => v
  | ref :: refs => v <| v_CloudInitRef := "" |> <| v_CloudInitRefs := ref :: refs |> <| v_LastDeployedCloudInitRef := ref |>
  end.

Definition applyReinstallCloudInitRef (cloudInitRef : string) (v : VirtualMachine) : VirtualMachine :=
  let existing := NormalizeCloudInitRefs (v_CloudInitRef v) (v_CloudInitRefs v) in
  v <| v_CloudInitRef := "" |>
    <| v_CloudInitRefs := cloudInitRef :: List.filter (fun ref => ref !=? cloudInitRef) existing |>
    <| v_LastDeployedCloudInitRef := cloudInitRef |>.

Definition preferredCloudInitRef (v : VirtualMachine) : string :=
  let ref := TrimSpace (v_LastDeployedCloudInitRef v) in
  if ref !=? "" then ref else
  match NormalizeCloudInitRefs (v_CloudInitRef v) (v_CloudInitRefs v) with ref :: _ => ref | [] => "" end.

Definition resetLinuxVMForWindows (v : VirtualMachine) : VirtualMachine :=
  let v := v <| v_CloudInitRef := "" |> <| v_CloudInitRefs := [] |> <| v_LastDeployedCloudInitRef := "" |> <| v_SSHKeyRefs := [] |>
             <| v_LoginUser := None |> <| v_InstallCfg := None |> <| v_IPAssignment := IPAssignmentDHCP |>
             <| v_Network := (fun n => n <| ni_IPAddress := "" |>) <$> v_Network v |> in
  match v_AdvancedOptions v with
  | Some o => v <| v_AdvancedOptions := Some (o <| ao_DiskDriver := "" |> <| ao_IOThreads := 0 |> <| ao_NetMultiqueue := 0 |>) |>
  | None => v
  end.

(** ** Leases and filters *)

(** The MAC addresses of all interfaces, declared and observed, each once. *)
Definition vmLeaseMACs (v : VirtualMachine) : list string :=
  snd (fold_left add_mac ((ni_MAC <$> v_Network v) ++ (nis_MAC <$> v_NetworkInterfaces v)) (∅, [])).

(** The query parameters of a list of machines. *)
Record vm_filter := mkVmFilter { vf_phase : string; vf_hypervisorRef : string; vf_subnetRef : string; vf_ipAssignment : string }.

Definition vmFilterActive (f : vm_filter) : bool :=
  (stringFilter (vf_phase f) !=? "") || (stringFilter (vf_hypervisorRef f) !=? "") || (stringFilter (vf_subnetRef f) !=? "")
  || (stringFilter (vf_ipAssignment f) !=? "").

Definition filterVirtualMachines (f : vm_filter) (items : list VirtualMachine) : list VirtualMachine :=
  let phase := stringFilter (vf_phase f) in
  let hypervisorRef := resourceID "hypervisors" (stringFilter (vf_hypervisorRef f)) in
  let subnetRef := resourceID "subnets" (stringFilter (vf_subnetRef f)) in
  let ipAssignment := stringFilter (vf_ipAssignment f) in
  if (phase ==? "") && (hypervisorRef ==? "") && (subnetRef ==? "") && (ipAssignment ==? "") then items
  else List.filter (fun v => matchFilter (v_Phase v) phase && matchFilter (v_HypervisorRef v) hypervisorRef
                        && matchFilter (v_SubnetRef v) subnetRef && matchFilter (v_IPAssignment v) ipAssignment) items.

(** ** The answer (vm_response.go) *)

Record LoginUserResponse := mkLoginUserResponse { lur_Username : string; lur_PasswordConfigured : bool }.

Record ProvisioningStatusResponse := mkProvisioningStatusResponse {
  psr_WindowsInstallStarted : bool; psr_AttemptID : string; psr_ImageApplied : bool; psr_Active : bool;
  psr_StartedAt : option Time; psr_DeadlineAt : option Time; psr_CompletedAt : option Time;
  psr_CompletionSource : string; psr_LastSignalAt : option Time }.

Record VirtualMachineResponse := mkVirtualMachineResponse {
  vr_Name : string; vr_VirtualMachineID : string; vr_HypervisorRef : string; vr_Resources : ResourceSpec;
  vr_OSImageRef : string; vr_CloudInitRef : string; vr_CloudInitRefs : list string; vr_Network : list NetworkInterface;
  vr_IPAssignment : IPAssignmentMode; vr_SubnetRef : string; vr_Domain : string; vr_InstallConfig : option InstallConfig;
  vr_PowerControlMethod : string; vr_AdvancedOptions : option AdvancedOptions; vr_SSHKeyRefs : list string;
  vr_LoginUser : option LoginUserResponse; vr_Phase : Vm.Phase; vr_LibvirtDomain : string; vr_HypervisorName : string;
  vr_IPAddresses : list string; vr_NetworkInterfaces : list NetworkInterfaceStatus; vr_Provisioning : ProvisioningStatusResponse;
  vr_LastPowerAction : string; vr_LastDeployedCloudInitRef : string; vr_LastError : string; vr_CreatedOnHost : string;
  vr_CreatedAt : Time; vr_UpdatedAt : Time }.

Definition provisioningStatusResponse (p : ProvisioningStatus) : ProvisioningStatusResponse :=
  mkProvisioningStatusResponse (ps_WindowsInstallStarted p) (ps_AttemptID p) (ps_ImageApplied p) (ps_Active p) (ps_StartedAt p)
    (ps_DeadlineAt p) (ps_CompletedAt p) (ps_CompletionSource p) (ps_LastSignalAt p).

Definition vmLoginUserResponse (user : option LoginUserSpec) : option LoginUserResponse :=
  u ← user;
  if TrimSpace (vlu_Username u) ==? "" then None
  else Some (mkLoginUserResponse (vlu_Username u) (TrimSpace (vlu_Password u) !=? "")).

Definition virtualMachineResponse (v : VirtualMachine) : VirtualMachineResponse :=
  mkVirtualMachineResponse (resourceName "virtualMachines" (v_Name v)) (v_Name v) (resourceName "hypervisors" (v_HypervisorRef v))
    (v_Resources v) (resourceName "osImages" (v_OSImageRef v)) (resourceName "cloudInitTemplates" (v_CloudInitRef v))
    (resourceNames "cloudInitTemplates" (v_CloudInitRefs v)) (v_Network v) (v_IPAssignment v)
    (resourceName "subnets" (v_SubnetRef v)) (v_Domain v) (v_InstallCfg v) (v_PowerControlMethod v) (v_AdvancedOptions v)
    (resourceNames "sshKeys" (v_SSHKeyRefs v)) (vmLoginUserResponse (v_LoginUser v)) (v_Phase v) (v_LibvirtDomain v)
    (v_HypervisorName v) (v_IPAddresses v) (v_NetworkInterfaces v) (provisioningStatusResponse (v_Provisioning v))
    (v_LastPowerAction v) (resourceName "cloudInitTemplates" (v_LastDeployedCloudInitRef v)) (v_LastError v)
    (v_CreatedOnHost v) (v_CreatedAt v) (v_UpdatedAt v).
Definition virtualMachineResponses (items : list VirtualMachine) : list VirtualMachineResponse := virtualMachineResponse <$> items.

(** ** What the image decides *)

Lemma validateWindowsInputs_Ok legacy refs keys login ip inline : validateWindowsInputs legacy refs keys login ip inline = Ok tt →
  refs = [] ∧ keys = [] ∧ login = false ∧ ip ≠ IPAssignmentStatic.
Proof.
  unfold validateWindowsInputs. destruct (_ || _ || _ || _ || _) eqn:Ei; [done|].
  destruct (bool_decide (ip = IPAssignmentStatic)) eqn:Ea; [done|]. intros _. apply bool_decide_eq_false in Ea.
  rewrite !orb_false_iff in Ei. destruct Ei as ((((E1 & E2) & E3) & E4) & E5).
  apply negb_false_iff, bool_decide_eq_true in E2, E3. done.
Qed.

(** The kinds of installation a record can carry once it was fitted to an image. *)
Lemma applyWindowsVMImage_Ok v img v' : applyWindowsVMImage v img = Ok v' →
  v' = v <| v_InstallCfg := Some (mkInstallConfig InstallConfigWindows "") |>
  ∧ ValidateWindowsHostname (v_Name v) = None ∧ oi_Ready img = true ∧ SupportsDeploymentTarget img DeploymentTargetVM = true
  ∧ v_CloudInitRefs v = [] ∧ v_SSHKeyRefs v = [] ∧ v_LoginUser v = None ∧ v_IPAssignment v ≠ IPAssignmentStatic
  ∧ 2 <= rs_CPUCores (v_Resources v) ∧ 4096 <= rs_MemoryMB (v_Resources v) ∧ 64 <= rs_DiskGB (v_Resources v)
  ∧ ∀ o, v_AdvancedOptions v = Some o → plain_windows_options o = true.
Proof.
  unfold applyWindowsVMImage. destruct (ValidateWindowsHostname _); [done|]. destruct (ValidateOSImage img); [|done]. cbn [mbind result_bind].
  destruct (oi_Ready img); [|done]. destruct (SupportsDeploymentTarget _ _); [|done]. cbn [negb].
  destruct (validateWindowsInputs _ _ _ _ _ _) as [[]|] eqn:Ei; [|done]. cbn [mbind result_bind].
  apply validateWindowsInputs_Ok in Ei as (E2 & E3 & E4 & Ea).
  destruct (_ || _) eqn:Er; [done|]. destruct (match v_AdvancedOptions v with Some _ => _ | None => _ end) eqn:Eo; [done|].
  intros [= <-]. rewrite !orb_false_iff in Er. rewrite negb_false_iff, bool_decide_eq_true in E4. split_and!; try done; try lia.
  intros o Ho. rewrite Ho in Eo. by apply negb_false_iff.
Qed.

(** A record is stored with the kind of installation its image calls for.  When
    the image of a machine is accepted, the machine is set up for a Windows
    installation exactly if the image's family is Windows, and for a cloud image
    otherwise; a Windows machine is then free of everything such an installation
    cannot honour (cloud-init, keys, login, inline configuration, a static address,
    other disks than SATA), has a valid NetBIOS name and the minimum size, and a cloud
    image is a qcow2 image that may run on virtual machines.  Nothing else in the
    record changes. *)
Lemma image_decides_install (images : gmap string OSImage) (v v' : VirtualMachine)
  (H : applyInstallConfigByOSImage images v = Ok v') :
  ∃ img cfg, images !! TrimSpace (v_OSImageRef v) = Some img ∧ v' = v <| v_InstallCfg := Some cfg |>
  ∧ SupportsDeploymentTarget img DeploymentTargetVM = true
  ∧ if EqualFold (oi_OSFamily img) "windows" then
      cfg = mkInstallConfig InstallConfigWindows "" ∧ ValidateWindowsHostname (v_Name v) = None ∧ oi_Ready img = true
      ∧ v_CloudInitRefs v = [] ∧ v_SSHKeyRefs v = [] ∧ v_LoginUser v = None ∧ v_IPAssignment v ≠ IPAssignmentStatic
      ∧ 2 <= rs_CPUCores (v_Resources v) ∧ 4096 <= rs_MemoryMB (v_Resources v) ∧ 64 <= rs_DiskGB (v_Resources v)
      ∧ (∀ o, v_AdvancedOptions v = Some o → plain_windows_options o = true)
    else ic_Type cfg = InstallConfigCurtin ∧ effectiveVMCloudImageFormat img = FormatQCOW2
         ∧ ic_Inline cfg = match v_InstallCfg v with Some i => TrimSpace (ic_Inline i) | None => "" end.
Proof.
  revert H. unfold applyInstallConfigByOSImage. case_bool_decide; [done|]. destruct (mem_get _ _) as [img|e] eqn:Hg; [|by destruct (errors_Is _ _)].
  apply mem_get_Ok in Hg. destruct (EqualFold (oi_OSFamily img) "windows") eqn:Ew.
  - intros (-> & H1 & H2 & H3 & H4)%applyWindowsVMImage_Ok. exists img, (mkInstallConfig InstallConfigWindows "").
    rewrite Ew. tauto.
  - destruct (bool_decide (effectiveVMCloudImageFormat img = FormatQCOW2)) eqn:Ef; [|done]. cbn [negb].
    destruct (SupportsDeploymentTarget _ _) eqn:Es; [|done]. cbn [negb]. destruct (_ && _ && _); [done|].
    unfold inferInstallConfigType. destruct (bool_decide (TrimSpace (oi_OSFamily img) = "")); [done|]. cbn [mbind result_bind]. intros [= <-].
    eexists img, _. rewrite Ew. split_and!; try done. by apply bool_decide_eq_true in Ef.
Qed.

(** ** Secrets stay inside *)

(** An answer reveals neither the completion token nor a password.  Two records
    that differ in the completion token of their provisioning window and in a login
    password, as long as both passwords are set or both are not, are answered the
    same. *)
Lemma response_hides_secrets (v : VirtualMachine) (t : string) (u : LoginUserSpec) (pw : string)
  (Hu : v_LoginUser v = Some u) (Hpw : TrimSpace pw = "" ↔ TrimSpace (vlu_Password u) = "") :
  virtualMachineResponse (v <| v_Provisioning := (v_Provisioning v) <| ps_CompletionToken := t |> |>
                            <| v_LoginUser := Some (mkLoginUserSpec (vlu_Username u) pw) |>)
  = virtualMachineResponse v.
Proof.
  unfold virtualMachineResponse.
  assert (E : vmLoginUserResponse (Some (mkLoginUserSpec (vlu_Username u) pw)) = vmLoginUserResponse (v_LoginUser v)).
  { rewrite Hu. cbn [vmLoginUserResponse mbind option_bind vlu_Username vlu_Password].
    by rewrite (bool_decide_ext _ _ Hpw). }
  exact (f_equal (fun x => mkVirtualMachineResponse _ _ _ _ _ _ _ _ _ _ _ _ _ _ _ x _ _ _ _ _ _ _ _ _ _ _ _) E).
Qed.

Lemma response_hides_secrets_witness :
  let v := (sample_vm "vm-1" "first") <| v_LoginUser := Some (mkLoginUserSpec "ops" "hunter2") |> in
  v_LoginUser v = Some (mkLoginUserSpec "ops" "hunter2")
  ∧ virtualMachineResponse (v <| v_Provisioning := (v_Provisioning v) <| ps_CompletionToken := "second" |> |>
                            <| v_LoginUser := Some (mkLoginUserSpec "ops" "other") |>)
    = virtualMachineResponse v.
Proof.
  split; [reflexivity|]. apply (response_hides_secrets _ "second" (mkLoginUserSpec "ops" "hunter2") "other"); [reflexivity|].
  vm_compute. split; discriminate.
Defined.

Definition ubuntu_image : OSImage :=
  mkOSImage "img" "ubuntu" "24.04" "amd64" "qcow2" "url" "cloud" "http://img" "" 0 "" None true "" "" 0 0.

Lemma image_decides_install_witness :
  ∃ v', applyInstallConfigByOSImage {["img" := ubuntu_image]} (sample_vm "vm-1" "tok") = Ok v'
        ∧ ic_Type (default (mkInstallConfig "" "") (v_InstallCfg v')) = InstallConfigCurtin.
Proof.
  destruct (applyInstallConfigByOSImage {["img" := ubuntu_image]} (sample_vm "vm-1" "tok")) as [v'|] eqn:E; [|vm_compute in E; discriminate E].
  exists v'. split; [reflexivity|].
  destruct (image_decides_install {["img" := ubuntu_image]} (sample_vm "vm-1" "tok") v' E) as (img & cfg & Hi & -> & _ & Hc).
  vm_compute in Hi. injection Hi as <-. exact (proj1 Hc).
Defined.
