(* ===== verification/VmApi.v ===== *)
(** * internal/infra/api: the virtual machine handlers

    Creation, reinstallation, deletion, power and migration-free queries of virtual
    machines (vm.go, vm_reinstall.go, vm_power.go, vm_lease.go), the removal of a
    hypervisor with its machines' records (cascade.go, hypervisor.go), and the audit
    log entries they write.  A handler runs over the stores of VmDeploy.v, where other
    writers act before every operation of a service and after every call on a host.

    Records are values: what a handler changes in the record it read is not in the
    store before it is written back. *)
From S2P Require Import Prelude GoStrings GoNet GoPath GoCrypto GoTime Resource Store OsImage Libvirt Hypervisor Vm VmStore RuntimeSync VmDeploy ApiResource VmRequest.

(** ** Answers, audit log and configuration *)

Inductive body : Type :=
| BError (message : string)
| BVM (r : VirtualMachineResponse)
| BVMs (items : list VirtualMachineResponse) (nextPageToken : string) (totalSize : Z)
| BPower (error phase : string)
| BNone.
Record Response := mkResponse { rp_Status : Z; rp_Body : body }.

Definition StatusOK : Z := 200.
Definition StatusCreated : Z := 201.
Definition StatusAccepted : Z := 202.
Definition StatusNoContent : Z := 204.
Definition StatusBadRequest : Z := 400.
Definition StatusNotFound : Z := 404.
Definition StatusConflict : Z := 409.
Definition StatusInternalServerError : Z := 500.
Definition StatusBadGateway : Z := 502.

Definition jsonError (status : Z) (message : string) : Response := mkResponse status (BError message).
Definition jsonErrorErr (status : Z) (e : error) : Response := jsonError status (Error e).

Record AuditEvent := mkAuditEvent {
  ae_ID : string; ae_Machine : string; ae_Action : string; ae_Actor : string; ae_Result : string; ae_Message : string;
  ae_Details : gmap string string; ae_CreatedAt : Time }.

(** Who frees the lease of a deleted machine. *)
Inductive lease_backend : Type := Releaser | LeaseStore | NoLeases.

(** The server: the images and subnets it knows, the deployer if one is configured,
    whether the removal from the host is replaced by a function, who frees leases, the
    provisioning timeout, the user of the request; the randomness and identifiers it
    draws, and whether the stored row shares memory with the one that was read, by the
    number of the step. *)
Record Server := mkServer {
  sv_osimages : gmap string OSImage;
  sv_subnets : gset string;
  sv_vmDeployer : option Deployer;
  sv_lineConfig : option LineConfig;
  sv_vmRuntimeDeleter : bool;
  sv_leases : lease_backend;
  sv_provisionTimeout : Duration;
  sv_user : option string;
  sv_read : nat → nat → result bytes;
  sv_mac : nat → nat → ascii * ascii * ascii;
  sv_rand : nat → Z → Z;
  sv_uuid : nat → string;
  sv_shared : nat → bool }.

Section handlers.
Context (env : Env (S := vms)) (sv : Server).
Implicit Types v : VirtualMachine.

(** The state of a handler: that of VmDeploy.v and the audit log. *)
Record Api := mkApi { ap_d : DState (S := vms); ap_audit : list AuditEvent }.
Global Instance Api_fields : Fields Api := fpure mkApi <*> ap_d <*> ap_audit.

(** A handler computes a value or answers early. *)
Definition H (A : Type) : Type := Api → Api * (A + Response).
Global Instance H_ret : MRet H := fun A a st => (st, inl a).
Global Instance H_bind : MBind H := fun A B f m st =>
  match m st with (st, inl a) => f a st | (st, inr r) => (st, inr r) end.
Definition respond {A} (r : Response) : H A := fun st => (st, inr r).

(** An operation of VmDeploy.v, its error as a value. *)
Definition attempt {A} (m : M (S := vms) A) : H (result A) := fun st =>
  let '(d, r) := m (ap_d st) in (st <| ap_d := d |>, inl r).
(** [if err != nil { return c.JSON(...) }] *)
Definition or_respond {A} (f : error → Response) (r : result A) : H A :=
  match r with Ok a => mret a | Err e => respond (f e) end.

(** The number of the step, the clock. *)
Definition step : H nat := fun st => (st, inl (ds_tick (ap_d st))).
Definition now_ : H Time := fun st => (st, inl (en_clock env (ds_tick (ap_d st)))).

Definition CreateAudit (machineName action result msg : string) (details : gmap string string) : H unit := fun st =>
  let t := ds_tick (ap_d st) in
  let event := mkAuditEvent (sv_uuid sv t) machineName action (default "anonymous" (sv_user sv)) result msg details (en_clock env t) in
  (st <| ap_audit := ap_audit st ++ [event] |>, inl tt).

(** Run [m] on the record [v]: [Deploy] through a pointer, [Redeploy] by value. *)
Definition on_record {A} (v : VirtualMachine) (m : M (S := vms) A) : H (result A * VirtualMachine) := fun st =>
  let '(d, r) := m ((ap_d st) <| ds_vm := v |>) in (st <| ap_d := d |>, inl (r, ds_vm d)).

(** *** The services *)

Definition read_only {A} (f : vms → result A) : M (S := vms) A := service env (fun s _ => a ← f s; Ok (s, a)).
Definition vms_Get (name : string) : H (result VirtualMachine) := attempt (read_only (fun s => vs_Get memory_vms s name)).
Definition vms_List : H (result (list VirtualMachine)) := attempt (read_only (vs_List memory_vms)).
Definition vms_ListByHypervisor (hv : string) : H (result (list VirtualMachine)) :=
  attempt (read_only (fun s => vs_ListByHypervisor memory_vms s hv)).
Definition vms_Delete (name : string) : H (result unit) :=
  attempt (service env (fun s _ => s ← vs_Delete memory_vms s name; Ok (s, tt))).
Definition vms_UpdateExisting (v : VirtualMachine) : H (result bool) :=
  attempt (service env (fun s _ => writeExisting memory_vms s v)).
Definition vms_CreateExclusive (v : VirtualMachine) : H (result VirtualMachine) :=
  attempt (service env (fun s now => CreateExclusive memory_vms s now v)).
Definition vms_DeleteCreated (name token : string) : H (result bool) :=
  attempt (service env (fun s _ => DeleteCreated memory_vms s name token)).
Definition vms_DeleteOwned (name hv : string) : H (result bool) :=
  attempt (service env (fun s _ => DeleteOwned memory_vms s name hv)).
Definition vms_FailDeploy (name action err token : string) : H (result VirtualMachine) :=
  attempt (service env (fun s now => FailDeploy memory_vms s now name action err token)).
Definition vms_UpdateDeployStatus (name : string) (phase : Vm.Phase) (action : string) (p : ProvisioningStatus) : H (result VirtualMachine) :=
  attempt (service env (fun s now => UpdateDeployStatus memory_vms s now name phase action p)).
Definition vms_UpdateStatus (name : string) (phase : Vm.Phase) (action err : string) : H (result VirtualMachine) :=
  attempt (service env (fun s now => UpdateStatus memory_vms s now name phase action err)).
(** The three readings of the clock fall together. *)
Definition vms_MarkMissing (name action err : string) : H (result VirtualMachine) :=
  attempt (service env (fun s now => MarkMissing memory_vms s now now now name action err)).

Definition hypervisors_Get (name : string) : H (result Hypervisor) := attempt (get_hypervisor env name).
Definition hypervisors_List : H (result (list Hypervisor)) := fun st =>
  let d := interleave env (ap_d st) in (st <| ap_d := d |>, inl (mem_list (so_hvs (ds_stores d)))).
Definition hypervisors_Delete (name : string) : H (result unit) := fun st =>
  let d := interleave env (ap_d st) in
  match mem_delete (so_hvs (ds_stores d)) name with
  | Ok hs => (st <| ap_d := d <| ds_stores := (ds_stores d) <| so_hvs := hs |> |> |>, inl (Ok tt))
  | Err e => (st <| ap_d := d |>, inl (Err e))
  end.

(** [if errors.Is(err, resource.ErrNotFound) { 404 } else { 500 }] *)
Definition not_found_or_500 (e : error) : Response :=
  if errors_Is e ErrNotFound then jsonError StatusNotFound "not found" else jsonErrorErr StatusInternalServerError e.

(** *** Removing a machine from its host *)

Definition deleteVirtualMachineRuntime (v : VirtualMachine) : H (result unit) :=
  if sv_vmRuntimeDeleter sv then attempt (perform env (RuntimeDeleter v)) else
  let hvRef := TrimSpace (v_HypervisorRef v) in
  if hvRef ==? "" then mret (Ok tt) else
  hv ← hypervisors_Get hvRef;
  match hv with
  | Err e => mret (if errors_Is e ErrNotFound then Ok tt else Err (ErrWrap ("resolve hypervisor " +:+ hvRef +:+ " for delete: ") e ""))
  | Ok hv => attempt (teardownVMRuntimeOnHypervisor env hv v)
  end.

Definition teardownVMRuntimeForCleanup (hv : Hypervisor) (v : VirtualMachine) : H (result unit) :=
  if sv_vmRuntimeDeleter sv then attempt (perform env (RuntimeDeleter v)) else attempt (teardownVMRuntimeOnHypervisor env hv v).

Definition releaseLease (mac : string) : H unit :=
  match sv_leases sv with
  | Releaser => _ ← attempt (perform env (ReleaseLease mac)); mret tt
  | LeaseStore => _ ← attempt (perform env (DeleteLease mac)); mret tt
  | NoLeases => mret tt
  end.
Fixpoint release_each (macs : list string) : H unit :=
  match macs with [] => mret tt | mac :: macs => _ ← releaseLease mac; release_each macs end.
Definition releaseVMLeases (v : VirtualMachine) : H unit := release_each (vmLeaseMACs v).

(** *** Creation *)

(** The provisioning window a creation or a reinstallation arms. *)
Definition armed_window (attempt token : string) (now : Time) : ProvisioningStatus :=
  zero_window <| ps_AttemptID := attempt |> <| ps_Active := true |> <| ps_StartedAt := Some now |>
    <| ps_DeadlineAt := Some (time_Add now (sv_provisionTimeout sv)) |> <| ps_CompletionToken := token |>.

Definition fresh_token : H string :=
  t ← step;
  or_respond (fun _ => jsonError StatusInternalServerError "failed to issue provisioning token") (GenerateProvisioningToken (sv_read sv t)).
Definition fresh_attempt : H string :=
  t ← step;
  or_respond (fun _ => jsonError StatusInternalServerError "failed to issue provisioning attempt") (GenerateProvisioningAttemptID (sv_read sv t)).

(** [rand.Int64N] of a total that is not positive panics; the recovery middleware
    answers that with an internal error. *)
Definition place (hs : list Hypervisor) : H string :=
  t ← step;
  match SelectHypervisor (sv_rand sv t) hs with
  | Panics => respond (jsonError StatusInternalServerError "Internal Server Error")
  | Returns selected =>
      if selected ==? "" then respond (jsonError StatusBadRequest "no ready hypervisors available for auto-placement") else mret selected
  end.

Definition place_vm (v : VirtualMachine) : H VirtualMachine :=
  if v_HypervisorRef v ==? "" then
    hs ← hypervisors_List;
    hs ← or_respond (fun e => jsonError StatusInternalServerError ("list hypervisors: " +:+ Error e)) hs;
    selected ← place hs;
    mret (v <| v_HypervisorRef := selected |>)
  else
    hv ← hypervisors_Get (v_HypervisorRef v);
    _ ← or_respond (fun e => if errors_Is e ErrNotFound
                             then jsonError StatusBadRequest ("referenced hypervisorRef not found: " +:+ v_HypervisorRef v)
                             else jsonErrorErr StatusInternalServerError e) hv;
    mret v.

Definition resolve_bridge (v : VirtualMachine) : H VirtualMachine :=
  if v_HypervisorRef v ==? "" then mret v else
  hv ← hypervisors_Get (v_HypervisorRef v); mret (resolveVMBridgeFromHypervisor hv v).

Definition rollbackCreatedVM (created : VirtualMachine) : H unit :=
  _ ← vms_DeleteCreated (v_Name created) (ps_CompletionToken (v_Provisioning created)); mret tt.

Definition deleted_concurrently (created : VirtualMachine) : Response :=
  jsonError StatusConflict ("hypervisor was deleted concurrently: " +:+ v_HypervisorRef created).

Definition deploy_created (d : Deployer) (deployHV : Hypervisor) (created : VirtualMachine) : H VirtualMachine :=
  '(deployErr, created) ← on_record created (Deploy memory_vms env d (sv_lineConfig sv));
  again ← vms_Get (v_Name created);
  _ ← match again with
      | Err e =>
          if errors_Is e ErrNotFound then
            _ ← teardownVMRuntimeForCleanup deployHV created;
            _ ← CreateAudit (v_Name created) "create-vm" "failure" "hypervisor was deleted concurrently" ∅;
            respond (deleted_concurrently created)
          else mret tt
      | Ok _ => mret tt
      end;
  _ ← match deployErr with
      | Err e => CreateAudit (v_Name created) "create-vm" "partial" ("vm created but deploy failed: " +:+ Error e) ∅
      | Ok _ => CreateAudit (v_Name created) "create-vm" "success" "virtual machine created" ∅
      end;
  mret created.

Definition CreateVirtualMachine (queryId : string) (b : create_body) : H Response :=
  v ← or_respond (fun _ => jsonError StatusBadRequest "invalid body") (bindCreateVirtualMachine queryId b);
  t ← step;
  let v := ensureVMNetwork (sv_mac sv t) v in
  v ← or_respond (jsonErrorErr StatusBadRequest) (applyInstallConfigByOSImage (sv_osimages sv) v);
  token ← fresh_token;
  attemptID ← fresh_attempt;
  now ← now_;
  v ← place_vm (v <| v_Provisioning := armed_window attemptID token now |>);
  v ← resolve_bridge v;
  created ← vms_CreateExclusive v;
  created ← or_respond (fun e => if errors_Is e ErrAlreadyExists
                                 then jsonError StatusConflict ("virtual machine already exists: " +:+ v_Name v)
                                 else jsonErrorErr StatusBadRequest e) created;
  deployHV ← hypervisors_Get (v_HypervisorRef created);
  deployHV ← match deployHV with
             | Ok hv => mret hv
             | Err e => _ ← rollbackCreatedVM created;
                        respond (if errors_Is e ErrNotFound then deleted_concurrently created
                                 else jsonErrorErr StatusInternalServerError e)
             end;
  created ← match sv_vmDeployer sv with
            | Some d => deploy_created d deployHV created
            | None => _ ← CreateAudit (v_Name created) "create-vm" "success" "virtual machine created" ∅; mret created
            end;
  mret (mkResponse StatusCreated (BVM (virtualMachineResponse created))).

(** *** Reinstallation *)

(** The in-memory store hands out a copy of the row, not of what its slices and pointers
    refer to: until another write replaces the row, an assignment to an interface or
    through the pointer to the inline configuration is seen in the store.  A row decoded
    from a database shares nothing. *)
Record aliases := mkAliases { al_Network : bool; al_InstallCfg : bool }.
Definition edit_shared (al : aliases) (edited row : VirtualMachine) : VirtualMachine :=
  let row := if al_Network al then row <| v_Network := v_Network edited |> else row in
  if al_InstallCfg al then row <| v_InstallCfg := v_InstallCfg edited |> else row.
Definition write_through (name : string) (al : aliases) (edited : VirtualMachine) : H unit := fun st =>
  let d := ap_d st in
  (if sv_shared sv (ds_tick d)
   then st <| ap_d := d <| ds_stores := (ds_stores d) <| so_vms := alter (edit_shared al edited) name (so_vms (ds_stores d)) |> |> |>
   else st, inl tt).

(** Whether the machine is turned from Linux to Windows: then its interfaces are copied
    and the inline configuration is dropped. *)
Definition turns_windows (req : vmReinstallReq) (current : VirtualMachine) : bool :=
  (rr_OSImageRef req !=? "") && (rr_OSImageRef req !=? v_OSImageRef current)
  && match mem_get (sv_osimages sv) (rr_OSImageRef req) with Ok img => EqualFold (oi_OSFamily img) "windows" | Err _ => false end.
(** What the edited record still has in common with the one that was read. *)
Definition shared_parts (req : vmReinstallReq) (current : VirtualMachine) : aliases :=
  let kept := negb (turns_windows req current) in
  mkAliases (kept && (rr_Network req ==? []) && (v_Network current !=? []))
            (kept && match v_InstallCfg current, rr_InstallConfig req with Some _, Some _ => true | _, _ => false end).

(** What the reinstallation writes before it deploys, from the record it read. *)
Definition reinstalled (req : vmReinstallReq) (name : string) (t : nat) (hvs : VirtualMachine → H VirtualMachine) (current : VirtualMachine)
  : H VirtualMachine :=
  let shared := shared_parts req current in
  let current := if turns_windows req current then resetLinuxVMForWindows current else current in
  let current := ensureVMNetwork (sv_mac sv t) (applyReinstallSpec req current) in
  _ ← write_through name shared current;
  current ← hvs current;
  let current := match rr_InstallConfig req with Some i => applyInstallConfigInline (ic_Inline i) current | None => current end in
  _ ← write_through name shared current;
  let ref := TrimSpace (rr_CloudInitRef req) in
  let current := if ref !=? "" then applyReinstallCloudInitRef ref current else current in
  current ← or_respond (jsonErrorErr StatusBadRequest) (applyInstallConfigByOSImage (sv_osimages sv) current);
  mret (if v_LastDeployedCloudInitRef current ==? "" then
          let ref := preferredCloudInitRef current in
          if ref !=? "" then current <| v_LastDeployedCloudInitRef := ref |> else current
        else current).

Definition vm_deleted_concurrently (name : string) : Response :=
  jsonError StatusConflict ("vm record was deleted concurrently: " +:+ name).

(** The record is gone: undo what the redeployment did to the host. *)
Definition undo_redeploy (name : string) (deployHV : Hypervisor) (current : VirtualMachine) : H unit :=
  _ ← teardownVMRuntimeForCleanup deployHV current;
  _ ← CreateAudit name "redeploy-vm" "failure" "vm record was deleted concurrently" ∅;
  respond (vm_deleted_concurrently name).

Definition redeploy_armed (name : string) (d : Deployer) (deployHV : Hypervisor) (current : VirtualMachine) : H unit :=
  '(err, _) ← on_record current (Redeploy memory_vms env d (sv_lineConfig sv));
  match err with
  | Err e =>
      failed ← vms_FailDeploy name "redeploy" (Error e) (ps_CompletionToken (v_Provisioning current));
      _ ← match failed with
          | Err failErr => if errors_Is failErr ErrNotFound then undo_redeploy name deployHV current else mret tt
          | Ok _ => mret tt
          end;
      _ ← CreateAudit name "redeploy-vm" "failure" (Error e) ∅;
      respond (jsonErrorErr StatusInternalServerError e)
  | Ok _ =>
      updated ← vms_UpdateDeployStatus name Vm.PhaseProvisioning "redeploy" (v_Provisioning current);
      match updated with
      | Err e => if errors_Is e ErrNotFound then undo_redeploy name deployHV current else mret tt
      | Ok _ => mret tt
      end
  end.

(** [bind] is the request, absent when the body is empty, or the error of reading it. *)
Definition ReinstallVM (name : string) (bind : result (option vmReinstallReq)) : H Response :=
  req ← or_respond (fun _ => jsonError StatusBadRequest "invalid body") bind;
  let req := normalizeVMReinstallRequestRefs (default empty_reinstall req) in
  if (TrimSpace (rr_Confirm req) !=? "") && (TrimSpace (rr_Confirm req) !=? name)
  then respond (jsonError StatusBadRequest "confirm must match vm name") else
  current ← vms_Get name;
  current ← or_respond not_found_or_500 current;
  _ ← match rr_SubnetRef req with
      | Some s => if (TrimSpace s !=? "") && negb (bool_decide (TrimSpace s ∈ sv_subnets sv))
                  then respond (jsonError StatusBadRequest "referenced subnetRef not found") else mret tt
      | None => mret tt
      end;
  t ← step;
  current ← reinstalled req name t resolve_bridge current;
  token ← fresh_token;
  attemptID ← fresh_attempt;
  now ← now_;
  let current := current <| v_Phase := Vm.PhaseProvisioning |> <| v_LastPowerAction := "redeploy" |> <| v_LastError := "" |>
                   <| v_MissingSince := None |> <| v_Provisioning := armed_window attemptID token now |> <| v_UpdatedAt := now |> in
  _ ← or_respond (jsonErrorErr StatusBadRequest) (ValidateVirtualMachine current);
  deployHV ← match sv_vmDeployer sv with
             | Some _ =>
                 hv ← hypervisors_Get (v_HypervisorRef current);
                 hv ← or_respond (fun e => if errors_Is e ErrNotFound
                                           then jsonError StatusConflict ("hypervisor not found: " +:+ v_HypervisorRef current)
                                           else jsonErrorErr StatusInternalServerError e) hv;
                 mret (Some hv)
             | None => mret None
             end;
  written ← vms_UpdateExisting current;
  written ← or_respond (jsonErrorErr StatusInternalServerError) written;
  if negb written then respond (vm_deleted_concurrently name) else
  _ ← match sv_vmDeployer sv, deployHV with
      | Some d, Some hv => redeploy_armed name d hv current
      | _, _ => mret tt
      end;
  updated ← vms_Get name;
  match updated with
  | Err _ =>
      _ ← CreateAudit name "redeploy-vm" "partial" "vm os redeploy started but failed to load updated status" ∅;
      mret (mkResponse StatusAccepted (BVM (virtualMachineResponse current)))
  | Ok updated =>
      _ ← CreateAudit name "redeploy-vm" "success" "vm os redeploy started" ∅;
      mret (mkResponse StatusAccepted (BVM (virtualMachineResponse updated)))
  end.

(** *** Queries and deletion *)

Definition GetVirtualMachine (name : string) : H Response :=
  v ← vms_Get name;
  v ← or_respond not_found_or_500 v;
  mret (mkResponse StatusOK (BVM (virtualMachineResponse v))).

Definition list_answer (items : list VirtualMachine) (p : page) : Response :=
  mkResponse StatusOK (BVMs (virtualMachineResponses items) (pg_nextPageToken p) (pg_totalSize p)).

(** Without a filter the store cuts the page; an index out of range would be answered
    by the recovery middleware. *)
Definition ListVirtualMachines (q : Query) (f : vm_filter) : H Response :=
  if negb (vmFilterActive f) then
    '(start, size) ← or_respond (jsonErrorErr StatusBadRequest) (parsePageRequest q);
    cut ← attempt (read_only (fun s => Ok (VMStore_ListPage s start size)));
    cut ← or_respond (jsonErrorErr StatusInternalServerError) cut;
    match cut with
    | Panics => respond (jsonError StatusInternalServerError "Internal Server Error")
    | Returns (items, total) =>
        p ← or_respond (fun _ => list_answer items (mkPage 0 0 "" 0)) (parsePagination q total);
        mret (list_answer items p)
    end
  else
    items ← vms_List;
    items ← or_respond (jsonErrorErr StatusInternalServerError) items;
    let items := filterVirtualMachines f items in
    p ← or_respond (jsonErrorErr StatusBadRequest) (parsePagination q (Z.of_nat (length items)));
    mret (list_answer (paginate items p) p).

(** The end of a deletion, once the host is clean. *)
Definition delete_record (name : string) (v : VirtualMachine) : H Response :=
  deleted ← vms_Delete name;
  _ ← or_respond not_found_or_500 deleted;
  _ ← releaseVMLeases v;
  _ ← CreateAudit name "delete-vm" "success" "virtual machine deleted" ∅;
  mret (mkResponse StatusNoContent BNone).

Definition DeleteVirtualMachine (name : string) : H Response :=
  v ← vms_Get name;
  v ← or_respond not_found_or_500 v;
  torn ← deleteVirtualMachineRuntime v;
  _ ← match torn with
      | Err e => if (v_Phase v !=? Vm.PhaseMissing) || negb (errors_Is e ErrVMTeardownNotAttempted) then
                   _ ← CreateAudit name "delete-vm" "failure" (Error e) ∅;
                   respond (jsonErrorErr StatusBadGateway e)
                 else mret tt
      | Ok _ => mret tt
      end;
  delete_record name v.

(** *** cascade.go *)

Fixpoint delete_owned_each (hvName reason : string) (l : list VirtualMachine) : H (result unit) :=
  match l with
  | [] => mret (Ok tt)
  | v :: l =>
      deleted ← vms_DeleteOwned (v_Name v) hvName;
      match deleted with
      | Err e => mret (Err (ErrWrap ("delete virtual machine record " +:+ v_Name v +:+ ": ") e ""))
      | Ok false => delete_owned_each hvName reason l
      | Ok true =>
          _ ← CreateAudit (v_Name v) "delete-vm" "success" ("record removed: " +:+ reason) ∅;
          delete_owned_each hvName reason l
      end
  end.

Definition deleteHypervisorVMRecords (hvName reason : string) : H (result unit) :=
  l ← vms_ListByHypervisor hvName;
  match l with
  | Err e => mret (Err (ErrWrap ("list virtual machines of hypervisor " +:+ hvName +:+ ": ") e ""))
  | Ok l => delete_owned_each hvName reason l
  end.

Definition cascadeDeleteHypervisorRecords (hvName reason : string) : H (result unit) :=
  swept ← deleteHypervisorVMRecords hvName reason;
  match swept with
  | Err e => mret (Err e)
  | Ok _ =>
      deleted ← hypervisors_Delete hvName;
      match deleted with
      | Err e =>
          if errors_Is e ErrNotFound then _ ← deleteHypervisorVMRecords hvName reason; mret (Ok tt)
          else mret (Err (ErrWrap ("delete hypervisor record " +:+ hvName +:+ ": ") e ""))
      | Ok _ =>
          _ ← CreateAudit hvName "delete-hypervisor" "success" ("record removed: " +:+ reason) ∅;
          _ ← deleteHypervisorVMRecords hvName reason;
          mret (Ok tt)
      end
  end.

Fixpoint cascadeDeleteMachineRecords (machineName : string) (linked : list Hypervisor) : H (result unit) :=
  match linked with
  | [] => mret (Ok tt)
  | hv :: linked =>
      r ← cascadeDeleteHypervisorRecords (hv_Name hv) ("cascade from machine " +:+ machineName);
      match r with Err e => mret (Err e) | Ok _ => cascadeDeleteMachineRecords machineName linked end
  end.

Definition DeleteHypervisor (name : string) : H Response :=
  let reason := "cascade from hypervisor " +:+ name in
  hv ← hypervisors_Get name;
  _ ← match hv with
      | Ok _ => mret tt
      | Err e =>
          if errors_Is e ErrNotFound then
            swept ← deleteHypervisorVMRecords name reason;
            _ ← or_respond (jsonErrorErr StatusInternalServerError) swept;
            respond (jsonError StatusNotFound "not found")
          else respond (jsonErrorErr StatusInternalServerError e)
      end;
  r ← cascadeDeleteHypervisorRecords name reason;
  match r with
  | Err e => _ ← CreateAudit name "delete-hypervisor" "failure" (Error e) ∅; respond (jsonErrorErr StatusInternalServerError e)
  | Ok _ => mret (mkResponse StatusNoContent BNone)
  end.

(** *** vm_power.go *)

(** Polling a domain that was asked to shut down: [timed_out k] tells whether the twenty
    seconds are over at the [k]-th step; [fuel] bounds the polls that are looked at. *)
Context (timed_out : nat → bool).

Definition powered_down (info : result (option DomainState)) : bool :=
  match info with Ok (Some s) => (s ==? StateShutoff) || (s ==? StatePaused) | _ => false end.

Fixpoint await_shutoff (fuel : nat) (domainName : string) : H (option (result unit)) :=
  match fuel with
  | O => mret None
  | S fuel =>
      info ← attempt (perform env (DomainInfo domainName));
      if powered_down info then mret (Some (Ok tt)) else
      k ← step;
      if timed_out k then
        destroyed ← attempt (perform env (DestroyDomain domainName));
        mret (Some match destroyed with
                   | Err e => if IsIgnorableDestroyError e then Ok tt
                              else Err (ErrWrap "graceful shutdown timed out and force power-off failed: " e "")
                   | Ok _ => Ok tt
                   end)
      else await_shutoff fuel domainName
  end.

Definition powerOffDomain (fuel : nat) (domainName : string) : H (option (result unit)) :=
  r ← attempt (perform env (ShutdownDomain domainName));
  match r with
  | Err e => mret (Some (if IsDomainNotFoundError e then Err e else if IsIgnorableDestroyError e then Ok tt else Err e))
  | Ok _ => await_shutoff fuel domainName
  end.

(** The domain's name here is not trimmed. *)
Definition executeLibvirtPowerAction (fuel : nat) (hv : Hypervisor) (v : VirtualMachine) (action : string) : H (option (result unit)) :=
  conn ← attempt (perform env (NewExecutor (BuildLibvirtConfig hv)));
  match conn with
  | Err e => mret (Some (Err (ErrWrap ("connect to hypervisor " +:+ hv_Name hv +:+ ": ") e "")))
  | Ok _ =>
      let domainName := if v_LibvirtDomain v ==? "" then v_Name v else v_LibvirtDomain v in
      if action ==? "power-on" then r ← attempt (perform env (StartDomain domainName)); mret (Some r)
      else if action ==? "power-off" then powerOffDomain fuel domainName
      else mret (Some (Err (ErrNew ("unknown vm power action: " +:+ action))))
  end.

Definition power_target (action : string) : Vm.Phase :=
  if action ==? "power-on" then Vm.PhaseRunning else if action ==? "power-off" then Vm.PhaseStopped else "".

(** [None] when the polls looked at were not enough. *)
Definition runVMPowerAction (fuel : nat) (name action : string) : H (option Response) :=
  v ← vms_Get name;
  v ← or_respond not_found_or_500 v;
  hv ← hypervisors_Get (v_HypervisorRef v);
  hv ← match hv with
       | Ok hv => mret hv
       | Err e => let msg := "hypervisor " +:+ Quote (v_HypervisorRef v) +:+ " not found: " +:+ Error e in
                  _ ← CreateAudit name action "failure" msg ∅;
                  respond (jsonError StatusInternalServerError msg)
       end;
  r ← executeLibvirtPowerAction fuel hv v action;
  match r with
  | None => mret None
  | Some libvirtErr =>
      updated ← match libvirtErr with
                | Ok _ => vms_UpdateStatus name (power_target action) action ""
                | Err e =>
                    if IsDomainNotFoundError e then
                      vms_MarkMissing name action
                        (if v_Phase v ==? Vm.PhaseMissing then v_LastError v
                         else "libvirt domain not found during " +:+ action +:+ ": " +:+ Error e)
                    else vms_UpdateStatus name Vm.PhaseError action (Error e)
                end;
      updated ← match updated with
                | Ok u => mret u
                | Err e => _ ← CreateAudit name action "failure" (Error e) ∅; respond (jsonErrorErr StatusInternalServerError e)
                end;
      match libvirtErr with
      | Err e =>
          _ ← CreateAudit name action "failure" (Error e) ∅;
          respond (mkResponse StatusInternalServerError (BPower ("libvirt action failed: " +:+ Error e) (v_Phase updated)))
      | Ok _ =>
          _ ← CreateAudit name action "success" "vm power action complete" ∅;
          mret (Some (mkResponse StatusOK (BVM (virtualMachineResponse updated))))
      end
  end.
End handlers.

(** The answer of a handler, early or not. *)
Definition answered {A} (f : A → Response) (r : A + Response) : Response := match r with inl a => f a | inr r => r end.

(** ** The page the store cuts is the page of the list *)

(** The unfiltered list is served the same from the store's page as from the whole
    list.  For every request, the page the store cuts and its total are the page of
    the sorted list that the filtered path would answer; the store never panics on a
    request that was accepted. *)
Lemma list_fast_path (m : vms) (q : Query) (start size : Z) (items : list VirtualMachine)
  (Hreq : parsePageRequest q = Ok (start, size)) (Hlist : vs_List memory_vms m = Ok items)
  (Hmax : Z.of_nat (length items) + maxPageSize <= max_int64) :
  ∃ p, parsePagination q (Z.of_nat (length items)) = Ok p
  ∧ VMStore_ListPage m start size = Returns (paginate items p, Z.of_nat (length items)).
Proof.
  unfold parsePagination. rewrite Hreq. cbn [mbind result_bind]. injection Hlist as <-. set (items := merge_sort _ _) in *.
  assert (Hs : 0 < size <= maxPageSize ∧ 0 <= start).
  { revert Hreq. unfold parsePageRequest. destruct (parse_size _) as [sz|] eqn:E1; [|done]. cbn [mbind result_bind].
    destruct (parse_start _) as [st|] eqn:E2; [|done]. intros [= <- <-]. split; [by eapply parse_size_range|].
    revert E2. unfold parse_start. case_bool_decide; [by intros [= <-]|]. destruct (decodePageToken _) as [o|]; [|done].
    destruct (Z.ltb_spec o 0); [done|]. by intros [= <-]. }
  destruct Hs as [Hs H0]. eexists. split; [reflexivity|]. unfold VMStore_ListPage, mem_page, paginate.
  fold items. set (total := Z.of_nat (length items)) in *. cbn [pg_start pg_size].
  destruct (Z.leb_spec size 0); [lia|]. cbn [orb]. unfold maxPageSize, max_int64 in *. destruct (Z.ltb_spec total start).
  - destruct (Z.leb_spec total start); [|lia]. by rewrite Z.leb_refl.
  - destruct (Z.leb_spec total start); [done|]. rewrite !int64_small by (unfold min_int64, max_int64; lia).
    destruct (Z.ltb_spec total (start + size)); cbn; replace ((0 <=? start) && _) with true by lia; repeat f_equal; lia.
Qed.

Lemma list_fast_path_witness :
  let m : vms := {["a" := sample_vm "a" "t"; "b" := sample_vm "b" "t"; "c" := sample_vm "c" "t"]} in
  ∃ p, parsePagination (mkQuery "2" "MQ") 3 = Ok p ∧ VMStore_ListPage m 1 2 = Returns (paginate [sample_vm "a" "t"; sample_vm "b" "t"; sample_vm "c" "t"] p, 3).
Proof.
  apply (list_fast_path {["a" := sample_vm "a" "t"; "b" := sample_vm "b" "t"; "c" := sample_vm "c" "t"]} (mkQuery "2" "MQ") 1 2
           [sample_vm "a" "t"; sample_vm "b" "t"; sample_vm "c" "t"]).
  - vm_compute. reflexivity.
  - vm_compute. reflexivity.
  - vm_compute. discriminate.
Defined.

(** ** Powering a machine off ends *)

Section power.
Context (env : Env (S := vms)) (timed_out : nat → bool).

(** A call seen from the handler. *)
Definition called (c : call) (st : Api) : Api :=
  st <| ap_d := interleave env ((ap_d st) <| ds_calls := ds_calls (ap_d st) ++ [c] |>) |>.
Lemma called_calls c st : ds_calls (ap_d (called c st)) = ds_calls (ap_d st) ++ [c].
Proof. reflexivity. Qed.
Lemma called_tick c st : ds_tick (ap_d (called c st)) = S (ds_tick (ap_d st)).
Proof. reflexivity. Qed.

(** One poll. *)
Lemma await_shutoff_eq domainName fuel st :
  let info := en_answer env (ds_calls (ap_d st)) (DomainInfo domainName) in
  let st1 := called (DomainInfo domainName) st in
  await_shutoff env timed_out (S fuel) domainName st
  = if powered_down info then (st1, inl (Some (Ok tt)))
    else if timed_out (S (ds_tick (ap_d st))) then
      (called (DestroyDomain domainName) st1,
       inl (Some match en_answer env (ds_calls (ap_d st1)) (DestroyDomain domainName) with
                 | Err e => if IsIgnorableDestroyError e then Ok tt
                            else Err (ErrWrap "graceful shutdown timed out and force power-off failed: " e "")
                 | Ok _ => Ok tt
                 end))
    else await_shutoff env timed_out fuel domainName st1.
Proof.
  cbv zeta. cbn [await_shutoff]. unfold mbind, H_bind, attempt, perform. destruct (powered_down _); [reflexivity|].
  unfold step. lazymatch goal with |- context [if timed_out ?k then _ else _] =>
    change (timed_out k) with (timed_out (S (ds_tick (ap_d st)))) end. by destruct (timed_out _).
Qed.

(** What a successful power-off of a domain rests on: an answer that it is powered
    down, a destruction that succeeded or found it not running, or a shutdown request
    that found it not running. *)
Definition power_off_evidence (domainName : string) : Prop :=
  ∃ past, powered_down (en_answer env past (DomainInfo domainName)) = true
  ∨ match en_answer env past (DestroyDomain domainName) with Ok _ => True | Err e => IsIgnorableDestroyError e = true end
  ∨ match en_answer env past (ShutdownDomain domainName) with Ok _ => False | Err e => IsIgnorableDestroyError e = true end.

Lemma await_shutoff_ends domainName fuel : ∀ st n, (n < fuel)%nat → timed_out (ds_tick (ap_d st) + S n)%nat = true →
  ∃ st' r, await_shutoff env timed_out fuel domainName st = (st', inl (Some r))
  ∧ (length (ds_calls (ap_d st')) <= length (ds_calls (ap_d st)) + n + 2)%nat
  ∧ (r = Ok tt → power_off_evidence domainName).
Proof.
  induction fuel as [|fuel IH]; intros st n Hn Ht; [lia|]. rewrite await_shutoff_eq. cbv zeta.
  set (st1 := called (DomainInfo domainName) st).
  assert (L1 : length (ds_calls (ap_d st1)) = S (length (ds_calls (ap_d st)))).
  { unfold st1. rewrite called_calls, length_app. simpl. lia. }
  destruct (powered_down _) eqn:Ep.
  { exists st1, (Ok tt). split; [reflexivity|]. split; [lia|]. intros _. eexists. left. exact Ep. }
  destruct (timed_out (S (ds_tick (ap_d st)))) eqn:Eto.
  - eexists _, _. split; [reflexivity|]. split; [rewrite called_calls, length_app, L1; simpl; lia|].
    intros Hr. eexists. right. left. destruct (en_answer env _ (DestroyDomain domainName)) as [|e] eqn:E; [by rewrite E|].
    rewrite E. by destruct (IsIgnorableDestroyError e).
  - destruct n as [|n]; [rewrite Nat.add_1_r in Ht; congruence|].
    destruct (IH st1 n) as (st' & r & E & L & R); [lia|rewrite <- Ht; f_equal; unfold st1; rewrite called_tick; lia|].
    exists st', r. split; [exact E|]. split; [lia|done].
Qed.

(** Powering a domain off always comes to an end.  However the host answers, if
    the twenty seconds are over at the latest at the [n]-th poll then the wait ends
    after at most that many polls and one destruction, and success is reported only on
    evidence: the domain was seen powered down, or it was destroyed, or the host said
    it was not running. *)
Lemma power_off_ends (domainName : string) (st : Api) (n : nat)
  (Hover : timed_out (ds_tick (ap_d st) + S (S n))%nat = true) :
  ∃ st' r, powerOffDomain env timed_out (S n) domainName st = (st', inl (Some r))
  ∧ (length (ds_calls (ap_d st')) <= length (ds_calls (ap_d st)) + n + 3)%nat
  ∧ (r = Ok tt → power_off_evidence domainName).
Proof.
  assert (Eq : powerOffDomain env timed_out (S n) domainName st
    = match en_answer env (ds_calls (ap_d st)) (ShutdownDomain domainName) with
      | Err e => (called (ShutdownDomain domainName) st,
                  inl (Some (if IsDomainNotFoundError e then Err e else if IsIgnorableDestroyError e then Ok tt else Err e)))
      | Ok _ => await_shutoff env timed_out (S n) domainName (called (ShutdownDomain domainName) st)
      end).
  { unfold powerOffDomain, mbind, H_bind, attempt, perform. by destruct (en_answer env _ _). }
  rewrite Eq. clear Eq. destruct (en_answer env _ (ShutdownDomain domainName)) as [[]|e] eqn:E.
  - destruct (await_shutoff_ends domainName (S n) (called (ShutdownDomain domainName) st) n) as (st' & r & Ea & L & R); [lia| |].
    { rewrite called_tick, <- Hover. f_equal. lia. }
    exists st', r. split; [exact Ea|]. split; [|done]. rewrite called_calls, length_app in L. simpl in L. lia.
  - eexists _, _. split; [reflexivity|]. split; [rewrite called_calls, length_app; simpl; lia|]. intros Hr.
    eexists. right. right. rewrite E. destruct (IsDomainNotFoundError e); [done|]. by destruct (IsIgnorableDestroyError e).
Qed.
End power.

(** A host on which the domain never goes down by itself. *)
Definition stubborn_env : Env (S := vms) :=
  mkEnv (fun _ c => match c with DomainInfo _ => Ok (Some StateRunning) | VolumeExists _ _ => Ok true
                            | GetDomainInterfaces _ => Ok [] | Download _ => Ok (mkHttpResponse 200 1)
                            | RenderNoCloudSeed _ _ => Ok ∅ | FetchSeed _ => Err (ErrNew "down") | BuildNoCloudISO _ => Ok []
                            | CreateVolumeFromReader _ _ _ => Ok [] | _ => Ok tt end)
        (fun _ s => s) (fun _ => 0) (Ok None) (fun _ => None) (fun _ => None).

Lemma power_off_ends_witness :
  let st := mkApi (mkDState 0 [] (mkStores ∅ ∅) (sample_vm "a" "t")) [] in
  ∃ st' r, powerOffDomain stubborn_env (fun k => (4 <=? k)%nat) 4 "vm" st = (st', inl (Some r)) ∧ r = Ok tt
  ∧ (length (ds_calls (ap_d st')) <= 6)%nat.
Proof.
  destruct (power_off_ends stubborn_env (fun k => (4 <=? k)%nat) "vm"
              (mkApi (mkDState 0 [] (mkStores ∅ ∅) (sample_vm "a" "t")) []) 3) as (st' & r & E & L & _); [reflexivity|].
  exists st', r. split; [exact E|]. split; [|exact L]. vm_compute in E. injection E as _ <-. reflexivity.
Defined.

(** ** A deleted machine leaves nothing on its host *)

Section deletion.
Context (env : Env (S := vms)) (sv : Server).

(** Errors of the host are not the handler's own mark. *)
Definition honest : Prop := ∀ past c e, en_answer env past c = Err e → errors_Is e ErrVMTeardownNotAttempted = false.

(** A failure to stop or undefine a domain that the removal goes on after. *)
Definition forgiven (r : result unit) : Prop := match r with Ok _ => True | Err e => fatal_destroy e = false end.
Definition gone (r : result unit) : Prop := match r with Ok _ => False | Err e => IsDomainNotFoundError e = true end.

(** The calls of a removal that ended well, after the calls [past]: everything was
    removed, or the storage was kept because the machine was missing and the host
    confirmed twice that it does not know the domain. *)
Inductive torn_down (hv : Hypervisor) (v : VirtualMachine) (past : list call) : list call → Prop :=
| td_removed :
    let p1 := past ++ [NewExecutor (BuildLibvirtConfig hv)] in
    let p2 := p1 ++ [DestroyDomain (domain_name v)] in
    let p3 := p2 ++ [UndefineDomain (domain_name v)] in
    en_answer env past (NewExecutor (BuildLibvirtConfig hv)) = Ok tt →
    forgiven (en_answer env p1 (DestroyDomain (domain_name v))) → forgiven (en_answer env p2 (UndefineDomain (domain_name v))) →
    match en_answer env p3 (DeleteVolume (v_Name v)) with Ok _ => True | Err e => IsVolumeNotFoundError e = true end →
    torn_down hv v past [NewExecutor (BuildLibvirtConfig hv); DestroyDomain (domain_name v); UndefineDomain (domain_name v);
                         DeleteVolume (v_Name v)]
| td_missing :
    let p1 := past ++ [NewExecutor (BuildLibvirtConfig hv)] in
    let p2 := p1 ++ [DestroyDomain (domain_name v)] in
    v_Phase v = Vm.PhaseMissing →
    en_answer env past (NewExecutor (BuildLibvirtConfig hv)) = Ok tt →
    gone (en_answer env p1 (DestroyDomain (domain_name v))) → gone (en_answer env p2 (UndefineDomain (domain_name v))) →
    torn_down hv v past [NewExecutor (BuildLibvirtConfig hv); DestroyDomain (domain_name v); UndefineDomain (domain_name v)].

Definition others_step (a b : Stores (S := vms)) : Prop := ∃ k, b = en_during env k a.

(** Calls change the stores only through the others. *)
Definition calls_only {A} (m : M (S := vms) A) : Prop := ∀ st, rtc others_step (ds_stores st) (ds_stores (m st).1).

Lemma calls_only_ret {A} (a : A) : calls_only (mret a).
Proof. intros st. done. Qed.
Lemma calls_only_fail {A} e : calls_only (fail e : M A).
Proof. intros st. done. Qed.
Lemma calls_only_bind {A B} (m : M A) (f : A → M B) : calls_only m → (∀ a, calls_only (f a)) → calls_only (m ≫= f).
Proof.
  intros Hm Hf st. unfold mbind, M_bind. specialize (Hm st). destruct (m st) as [st1 [a|e]]; [|done]. etrans; [exact Hm|apply Hf].
Qed.
Lemma calls_only_catch {A} (m : M A) h : calls_only m → (∀ e, calls_only (h e)) → calls_only (catch m h).
Proof.
  intros Hm Hf st. unfold catch. specialize (Hm st). destruct (m st) as [st1 [a|e]]; [done|]. etrans; [exact Hm|apply Hf].
Qed.
Lemma calls_only_perform c : calls_only (perform env c).
Proof. intros st. apply rtc_once. by eexists. Qed.

Lemma calls_only_teardown hv v : calls_only (teardownVMRuntimeOnHypervisor env hv v).
Proof.
  unfold teardownVMRuntimeOnHypervisor, outcome_of.
  repeat first [apply calls_only_ret|apply calls_only_fail|apply calls_only_perform|apply calls_only_bind; [|intros ?]
               |apply calls_only_catch; [|intros ?]|case_match].
Qed.

(** The next answer, given to the call [c] after the calls [p]. *)
Ltac answer_at p c x E :=
  lazymatch goal with |- context [en_answer env ?q c] => change q with p end;
  destruct (en_answer env p c) as [[]|x] eqn:E; cbv beta iota.

Lemma teardown_trace hv v st : honest →
  let '(st', r) := teardownVMRuntimeOnHypervisor env hv v st in
  match r with
  | Ok _ => ∃ tr, ds_calls st' = ds_calls st ++ tr ∧ torn_down hv v (ds_calls st) tr
  | Err e => errors_Is e ErrVMTeardownNotAttempted = true →
             ds_calls st' = ds_calls st ++ [NewExecutor (BuildLibvirtConfig hv)]
             ∧ ∃ e', en_answer env (ds_calls st) (NewExecutor (BuildLibvirtConfig hv)) = Err e'
  end.
Proof.
  intros Hh. set (c0 := NewExecutor (BuildLibvirtConfig hv)). set (p1 := ds_calls st ++ [c0]).
  set (p2 := p1 ++ [DestroyDomain (domain_name v)]). set (p3 := p2 ++ [UndefineDomain (domain_name v)]).
  set (p4 := p3 ++ [DeleteVolume (v_Name v)]).
  unfold teardownVMRuntimeOnHypervisor, outcome_of, catch, mbind, M_bind, perform, mret, M_ret, fail. fold c0.
  destruct (en_answer env (ds_calls st) c0) as [[]|e0] eqn:E1; cbv beta iota; [|by intros; split; [|eexists]].
  assert (Hw : ∀ pre e, errors_Is e ErrVMTeardownNotAttempted = false → errors_Is (ErrWrap pre e "") ErrVMTeardownNotAttempted = true → False)
    by (intros pre e He; cbn; by rewrite He).
  answer_at p1 (DestroyDomain (domain_name v)) e1 E2; [|destruct (fatal_destroy e1) eqn:F2; cbv beta iota; [intros []%Hw; by eapply Hh|]];
    (answer_at p2 (UndefineDomain (domain_name v)) e2 E3; [|destruct (fatal_destroy e2) eqn:F3; cbv beta iota; [intros []%Hw; by eapply Hh|]]);
    (destruct (SkipHostStorageCleanup _ _ _) eqn:Es; cbv beta iota;
      [apply andb_true_iff in Es as [[Em%bool_decide_eq_true Eg1]%andb_true_iff Eg2]; try done
      |answer_at p3 (DeleteVolume (v_Name v)) e3 E4; [|destruct (IsVolumeNotFoundError e3) eqn:F4; cbv beta iota; [|intros []%Hw; by eapply Hh]]]).
  all: first
    [ exists [c0; DestroyDomain (domain_name v); UndefineDomain (domain_name v)]; split;
        [transitivity p3; [reflexivity|unfold p3, p2, p1; by rewrite <- !app_assoc]
        |apply td_missing; fold c0 p1 p2; rewrite ?E2, ?E3; done]
    | exists [c0; DestroyDomain (domain_name v); UndefineDomain (domain_name v); DeleteVolume (v_Name v)]; split;
        [transitivity p4; [reflexivity|unfold p4, p3, p2, p1; by rewrite <- !app_assoc]
        |apply td_removed; fold c0 p1 p2 p3; rewrite ?E2, ?E3, ?E4; done] ].
Qed.

(** The stores and the calls of a handler's state. *)
Definition stores_of (st : Api) : Stores (S := vms) := ds_stores (ap_d st).
Definition calls_of (st : Api) : list call := ds_calls (ap_d st).

(** What the removal from the host came to, when the handler goes on after it: nothing
    to remove, all removed, or a missing machine whose host could not be reached. *)
Definition removed_from_host (v : VirtualMachine) (s0 : Stores (S := vms)) (past tr : list call) : Prop :=
  tr = [] ∧ (TrimSpace (v_HypervisorRef v) = ""
             ∨ ∃ a, rtc others_step s0 a ∧ so_hvs a !! TrimSpace (v_HypervisorRef v) = None)
  ∨ ∃ hv, torn_down hv v past tr
          ∨ v_Phase v = Vm.PhaseMissing ∧ tr = [NewExecutor (BuildLibvirtConfig hv)]
            ∧ ∃ e, en_answer env past (NewExecutor (BuildLibvirtConfig hv)) = Err e.

Lemma runtime_removed v st : honest → sv_vmRuntimeDeleter sv = false →
  ∃ st' r, deleteVirtualMachineRuntime env sv v st = (st', inl r)
  ∧ rtc others_step (stores_of st) (stores_of st')
  ∧ (match r with Ok _ => True | Err e => v_Phase v = Vm.PhaseMissing ∧ errors_Is e ErrVMTeardownNotAttempted = true end →
     ∃ tr, calls_of st' = calls_of st ++ tr ∧ removed_from_host v (stores_of st) (calls_of st) tr).
Proof.
  intros Hh Hhook. unfold deleteVirtualMachineRuntime. rewrite Hhook. cbv zeta.
  destruct (bool_decide (TrimSpace (v_HypervisorRef v) = "")) eqn:Er.
  { exists st, (Ok tt). apply bool_decide_eq_true in Er. split_and!; try done. intros _. exists []. rewrite app_nil_r. split; [done|]. left. by split; [|left]. }
  set (st1 := st <| ap_d := interleave env (ap_d st) |>).
  assert (Hg : hypervisors_Get env (TrimSpace (v_HypervisorRef v)) st = (st1, inl (mem_get (so_hvs (stores_of st1)) (TrimSpace (v_HypervisorRef v))))) by reflexivity.
  assert (H1 : rtc others_step (stores_of st) (stores_of st1)) by (apply rtc_once; by eexists).
  unfold mbind, H_bind. rewrite Hg. unfold mem_get. destruct (so_hvs (stores_of st1) !! _) as [hv|] eqn:Eh; cbn [errors_Is].
  - pose proof (teardown_trace hv v (ap_d st1) Hh) as Ht. pose proof (calls_only_teardown hv v (ap_d st1)) as Hc. unfold attempt.
    destruct (teardownVMRuntimeOnHypervisor env hv v (ap_d st1)) as [d r]. exists (st1 <| ap_d := d |>), r. split; [reflexivity|].
    split; [by etrans|]. intros Hr. destruct r as [[]|e].
    + destruct Ht as (tr & Htr & Htd). exists tr. split; [exact Htr|]. right. exists hv. by left.
    + destruct Hr as [Hm Hna]. destruct (Ht Hna) as [Htr Hans]. eexists. split; [exact Htr|]. right. exists hv. by right.
  - exists st1, (Ok tt). split; [reflexivity|]. split; [done|]. intros _. exists []. split; [by rewrite app_nil_r|].
    left. split; [done|]. right. by exists (stores_of st1).
Qed.

Definition release_calls (macs : list string) : list call :=
  match sv_leases sv with Releaser => ReleaseLease <$> macs | LeaseStore => DeleteLease <$> macs | NoLeases => [] end.

Lemma release_each_calls macs : ∀ st, ∃ st', release_each env sv macs st = (st', inl tt) ∧ calls_of st' = calls_of st ++ release_calls macs.
Proof.
  unfold release_calls. induction macs as [|mac macs IH]; intros st.
  { exists st. split; [done|]. destruct (sv_leases sv); by rewrite app_nil_r. }
  cbn [release_each]. unfold releaseLease, mbind, H_bind.
  destruct (sv_leases sv) eqn:El.
  - destruct (IH (called env (ReleaseLease mac) st)) as (st' & E & C). exists st'. split; [exact E|].
    rewrite C. unfold calls_of. rewrite called_calls, fmap_cons. by rewrite <- app_assoc.
  - destruct (IH (called env (DeleteLease mac) st)) as (st' & E & C). exists st'. split; [exact E|].
    rewrite C. unfold calls_of. rewrite called_calls, fmap_cons. by rewrite <- app_assoc.
  - destruct (IH st) as (st' & E & C). by exists st'.
Qed.

Definition others_act (st : Api) : Api := st <| ap_d := interleave env (ap_d st) |>.

Lemma vms_Get_eq name st : vms_Get env name st = (others_act st, inl (mem_get (so_vms (stores_of (others_act st))) name)).
Proof.
  unfold others_act, stores_of, vms_Get, attempt, read_only, service. cbn [vs_Get memory_vms]. unfold VMStore_Get.
  change (ap_d (st <| ap_d := ?d |>)) with d. destruct (interleave env (ap_d st)) as [t c [m hs] v]. cbn. by destruct (mem_get m name).
Qed.

Lemma vms_Delete_eq name st : ∃ st' d, vms_Delete env name st = (st', inl d)
  ∧ calls_of st' = calls_of st ∧ match d with Ok _ => True | Err _ => stores_of st' = stores_of (others_act st) end.
Proof.
  unfold others_act, stores_of, calls_of, vms_Delete, attempt, service. cbn [vs_Delete memory_vms]. unfold VMStore_Delete, mem_delete.
  destruct (so_vms (ds_stores (interleave env (ap_d st))) !! name) eqn:E; rewrite ?E; cbn [mbind result_bind];
    (eexists _, _; split; [reflexivity|]; by split).
Qed.

Lemma delete_record_spec name v st :
  let '(st', r) := delete_record env sv name v st in
  if rp_Status (answered id r) =? StatusNoContent then calls_of st' = calls_of st ++ release_calls (vmLeaseMACs v)
  else rtc others_step (stores_of st) (stores_of st').
Proof.
  unfold delete_record, mbind, H_bind. destruct (vms_Delete_eq name st) as (st1 & d & -> & Hc & Hd). destruct d as [[]|e]; cbn [or_respond mret H_ret].
  - unfold releaseVMLeases. destruct (release_each_calls (vmLeaseMACs v) st1) as (st2 & -> & H2).
    unfold CreateAudit, mret, H_ret, answered, id. cbn [rp_Status]. rewrite Z.eqb_refl, <- Hc. exact H2.
  - unfold respond, answered, id. replace (rp_Status _ =? StatusNoContent) with false by (unfold not_found_or_500; by destruct (errors_Is _ _)).
    rewrite Hd. apply rtc_once. by eexists.
Qed.

End deletion.

Definition plain_server : Server :=
  mkServer ∅ ∅ None None false Releaser 0 None (fun _ n => Ok (replicate n (byte_of 7))) (fun _ _ => (byte_of 1, byte_of 2, byte_of 3))
    (fun _ _ => 0) (fun _ => "id") (fun _ => false).

