(* ===== verification/VmReject.v ===== *)
(** * internal/infra/api: a rejected request changes nothing

    The handlers of VmApi.v validate before they write: when a creation or a
    reinstallation is answered with 400, no host was called, and nothing in the stores
    or the audit log was changed by the handler, but for what a reinstallation assigns
    through a row of the in-memory store. *)
From S2P Require Import Prelude Store Resource OsImage Hypervisor Vm VmStore RuntimeSync VmDeploy ApiResource VmRequest VmApi.

Section reject.
Context (env : Env (S := vms)) (sv : Server).
Implicit Types st : Api.

(** No call to a host, no entry in the audit log, and only such steps in the stores. *)
Definition only_by (R : relation (Stores (S := vms))) st st' : Prop :=
  rtc R (stores_of st) (stores_of st') ∧ calls_of st' = calls_of st ∧ ap_audit st' = ap_audit st.
(** What only the others did. *)
Definition untouched : relation Api := only_by (others_step env).

(** The stored row is given interfaces or an inline configuration through the row that
    was read, which shares them. *)
Definition row_edited (name : string) (s s' : Stores (S := vms)) : Prop :=
  ∃ (t : nat) (al : aliases) (v : VirtualMachine), sv_shared sv t = true ∧ s' = s <| so_vms := alter (edit_shared al v) name (so_vms s) |>.
Definition others_or_row (name : string) (s s' : Stores (S := vms)) : Prop := others_step env s s' ∨ row_edited name s s'.

Section steps.
Context (R : relation (Stores (S := vms))) (HR : ∀ s s', others_step env s s' → R s s').
Local Abbreviation untouched := (only_by R).

Lemma untouched_refl st : untouched st st.
Proof. by split_and!. Qed.
Lemma untouched_trans st1 st2 st3 : untouched st1 st2 → untouched st2 st3 → untouched st1 st3.
Proof. intros (A1 & A2 & A3) (B1 & B2 & B3). split_and!; [by etrans|congruence|congruence]. Qed.

(** An action that changes nothing, whatever it answers. *)
Definition harmless {A} (m : H A) : Prop := ∀ st, untouched st (m st).1.

(** An action that never answers 400. *)
Definition never_400 {A} (m : H A) : Prop := ∀ st r, (m st).2 = inr r → rp_Status r ≠ StatusBadRequest.

(** An action that changes nothing if it answers 400. *)
Definition clean_400 {A} (m : H A) : Prop :=
  ∀ st r, (m st).2 = inr r → rp_Status r = StatusBadRequest → untouched st (m st).1.

Lemma harmless_clean {A} (m : H A) : harmless m → clean_400 m.
Proof. intros Hm st r _ _. apply Hm. Qed.
Lemma never_clean {A} (m : H A) : never_400 m → clean_400 m.
Proof. intros Hm st r Hr Hs. by destruct (Hm st r Hr). Qed.

Lemma clean_bind {A B} (m : H A) (f : A → H B) : harmless m → (∀ a, clean_400 (f a)) → clean_400 (m ≫= f).
Proof.
  intros Hm Hf st r. unfold mbind, H_bind. specialize (Hm st). destruct (m st) as [st1 [a|r1]]; [|done].
  intros Hr Hs. eapply untouched_trans; [exact Hm|]. by apply (Hf a st1 r).
Qed.

Lemma harmless_bind {A B} (m : H A) (f : A → H B) : harmless m → (∀ a, harmless (f a)) → harmless (m ≫= f).
Proof.
  intros Hm Hf st. unfold mbind, H_bind. specialize (Hm st). destruct (m st) as [st1 [a|r1]]; [|done].
  eapply untouched_trans; [exact Hm|apply Hf].
Qed.

Lemma never_bind {A B} (m : H A) (f : A → H B) : never_400 m → (∀ a, never_400 (f a)) → never_400 (m ≫= f).
Proof.
  intros Hm Hf st r. unfold mbind, H_bind. specialize (Hm st). destruct (m st) as [st1 [a|r1]]; [apply Hf|]. intros [= <-]. by apply Hm.
Qed.

Lemma harmless_ret {A} (a : A) : harmless (mret a).
Proof. intros st. apply untouched_refl. Qed.
Lemma harmless_respond {A} r : harmless (respond r : H A).
Proof. intros st. apply untouched_refl. Qed.
Lemma harmless_step : harmless step.
Proof. intros st. apply untouched_refl. Qed.
Lemma harmless_now : harmless (now_ env).
Proof. intros st. apply untouched_refl. Qed.
Lemma harmless_or_respond {A} f (r : result A) : harmless (or_respond f r).
Proof. intros st. destruct r; apply untouched_refl. Qed.
Lemma untouched_act st : untouched st (others_act env st).
Proof. split_and!; [|done|done]. apply rtc_once, HR. by eexists. Qed.
Lemma harmless_vms_Get n : harmless (vms_Get env n).
Proof. intros st. rewrite vms_Get_eq. apply untouched_act. Qed.
Lemma harmless_hv_Get n : harmless (hypervisors_Get env n).
Proof. intros st. apply untouched_act. Qed.
Lemma harmless_hv_List : harmless (hypervisors_List env).
Proof. intros st. apply untouched_act. Qed.

Lemma never_ret {A} (a : A) : never_400 (mret a).
Proof. by intros st r. Qed.
Lemma never_respond {A} r : rp_Status r ≠ StatusBadRequest → never_400 (respond r : H A).
Proof. intros Hr st r' [= <-]. done. Qed.
Lemma never_attempt {A} (m : M A) : never_400 (attempt m).
Proof. intros st r. unfold attempt. by destruct (m (ap_d st)). Qed.
Lemma never_on_record {A} v (m : M A) : never_400 (on_record v m).
Proof. intros st r. unfold on_record. by destruct (m _). Qed.
Lemma never_or_respond {A} f (r : result A) : (∀ e, rp_Status (f e) ≠ StatusBadRequest) → never_400 (or_respond f r).
Proof. intros Hf st r'. destruct r; [done|]. intros [= <-]. apply Hf. Qed.
Lemma never_audit m a r msg d : never_400 (CreateAudit env sv m a r msg d).
Proof. by intros st r'. Qed.

Ltac never_step :=
  first [ apply never_ret | apply never_attempt | apply never_on_record | apply never_audit
        | apply never_respond; first [done|case_match; done]
        | apply never_or_respond; intros ?; first [done|case_match; done]
        | apply never_bind; [|intros ?] | progress cbv zeta | case_match ].

Lemma never_cleanup hv v : never_400 (teardownVMRuntimeForCleanup env sv hv v).
Proof. unfold teardownVMRuntimeForCleanup. repeat never_step. Qed.

Lemma never_deploy_created d hv v : never_400 (deploy_created env sv d hv v).
Proof. unfold deploy_created, deleted_concurrently. repeat first [apply never_cleanup|never_step]. Qed.

Lemma never_redeploy name d hv v : never_400 (redeploy_armed env sv name d hv v).
Proof. unfold redeploy_armed, undo_redeploy, vm_deleted_concurrently. repeat first [apply never_cleanup|never_step]. Qed.

Ltac harmless_step_ :=
  first [ apply harmless_ret | apply harmless_respond | apply harmless_step | apply harmless_now | apply harmless_or_respond
        | apply harmless_vms_Get | apply harmless_hv_Get | apply harmless_hv_List
        | apply harmless_bind; [|intros ?] | progress cbv zeta | case_match ].

Lemma harmless_place v : harmless (place_vm env sv v).
Proof. unfold place_vm, place. repeat harmless_step_. Qed.
Lemma harmless_bridge v : harmless (resolve_bridge env v).
Proof. unfold resolve_bridge. repeat harmless_step_. Qed.
Lemma harmless_token : harmless (fresh_token sv).
Proof. unfold fresh_token. repeat harmless_step_. Qed.
Lemma harmless_attempt : harmless (fresh_attempt sv).
Proof. unfold fresh_attempt. repeat harmless_step_. Qed.
Lemma harmless_write_through name al v : (∀ s s', row_edited name s s' → R s s') → harmless (write_through sv name al v).
Proof.
  intros Hr st. unfold write_through. destruct (sv_shared sv _) eqn:E; [|apply untouched_refl]. split_and!; [|done|done].
  apply rtc_once, Hr. by eexists _, al, v.
Qed.
Lemma harmless_reinstalled req name t f v :
  (∀ s s', row_edited name s s' → R s s') → (∀ v, harmless (f v)) → harmless (reinstalled sv req name t f v).
Proof. intros Hr Hf. unfold reinstalled. repeat first [apply Hf|apply harmless_write_through; exact Hr|harmless_step_]. Qed.

(** A write that is refused has not happened; after one that was made no 400 follows. *)
Lemma clean_write {A B} (f : vms → Time → result (vms * A)) (g : error → Response) (rest : A → H B) :
  (∀ a, never_400 (rest a)) → clean_400 (attempt (service env f) ≫= fun r => or_respond g r ≫= rest).
Proof.
  intros Hn st r. unfold attempt, service, mbind, H_bind.
  destruct (f _ _) as [[m a]|e]; cbn [or_respond mret H_ret respond].
  - intros Hr Hs. by destruct (Hn a _ r Hr).
  - intros _ _. apply untouched_act.
Qed.

Lemma clean_create q b : clean_400 (CreateVirtualMachine env sv q b).
Proof.
  unfold CreateVirtualMachine. apply clean_bind; [apply harmless_or_respond|intros v0]. apply clean_bind; [apply harmless_step|intros t]. cbv zeta.
  apply clean_bind; [apply harmless_or_respond|intros v1]. apply clean_bind; [apply harmless_token|intros token].
  apply clean_bind; [apply harmless_attempt|intros att]. apply clean_bind; [apply harmless_now|intros now].
  apply clean_bind; [apply harmless_place|intros v2]. apply clean_bind; [apply harmless_bridge|intros v3].
  apply clean_write. intros created. unfold rollbackCreatedVM, deleted_concurrently.
  repeat first [apply never_deploy_created|never_step].
Qed.

Lemma clean_reinstall name b : (∀ s s', row_edited name s s' → R s s') → clean_400 (ReinstallVM env sv name b).
Proof.
  intros Hrow. unfold ReinstallVM. apply clean_bind; [apply harmless_or_respond|intros req]. cbv zeta.
  case_match; [apply harmless_clean, harmless_respond|]. apply clean_bind; [apply harmless_vms_Get|intros cur].
  apply clean_bind; [apply harmless_or_respond|intros v0]. apply clean_bind; [by repeat harmless_step_|intros _].
  apply clean_bind; [apply harmless_step|intros t]. apply clean_bind; [apply harmless_reinstalled; [exact Hrow|apply harmless_bridge]|intros v1].
  apply clean_bind; [apply harmless_token|intros token]. apply clean_bind; [apply harmless_attempt|intros att].
  apply clean_bind; [apply harmless_now|intros now]. apply clean_bind; [apply harmless_or_respond|intros _].
  apply never_clean. unfold hypervisors_Get, vms_UpdateExisting, vms_Get, vm_deleted_concurrently.
  repeat first [apply never_redeploy|never_step].
Qed.

End steps.

(** C40: a rejected request changes nothing.  When the creation or the reinstallation of
    a machine is answered with 400 (unreadable body, unknown image, subnet or
    hypervisor, an image the machine cannot run, no hypervisor to place it on, an
    invalid record), the handler has called no host and made no entry in the audit log,
    and a creation has written to neither store.  Nor has a reinstallation, when the rows
    that are read are copies, as those from a database are; when they share memory with
    the stored ones, it can have changed the interfaces and the inline configuration in
    the row of its machine, and nothing else. *)
Theorem rejected_changes_nothing (st st' : Api) (r : Response) (H400 : rp_Status r = StatusBadRequest) :
  (∀ q b, CreateVirtualMachine env sv q b st = (st', inr r) → untouched st st')
  ∧ (∀ name b, ReinstallVM env sv name b st = (st', inr r) →
       only_by (others_or_row name) st st' ∧ ((∀ t, sv_shared sv t = false) → untouched st st')).
Proof.
  split.
  - intros q b E. pose proof (clean_create (others_step env) (fun _ _ H => H) q b st r) as Hc. rewrite E in Hc. by apply Hc.
  - intros name b E. split; [|intros Hs].
    + pose proof (clean_reinstall (others_or_row name) (fun _ _ H => or_introl H) name b (fun _ _ H => or_intror H) st r) as Hc. rewrite E in Hc. by apply Hc.
    + assert (∀ s s', row_edited name s s' → others_step env s s') as Hno by (intros s s' (t & al & v & Ht & _); by rewrite Hs in Ht).
      pose proof (clean_reinstall (others_step env) (fun _ _ H => H) name b Hno st r) as Hc. rewrite E in Hc. by apply Hc.
Qed.
End reject.

Definition rejected_start (v : VirtualMachine) : Api := mkApi (mkDState 0 [] (mkStores {[v_Name v := v]} ∅) v) [].
Lemma rejected_changes_nothing_witness :
  let st := rejected_start (sample_vm "vm-1" "tok") in
  ∃ st' r, ReinstallVM stubborn_env plain_server "vm-1" (Ok None) st = (st', inr r) ∧ rp_Status r = StatusBadRequest
           ∧ untouched stubborn_env st st'.
Proof.
  intros st. destruct (ReinstallVM stubborn_env plain_server "vm-1" (Ok None) st) as [st' [a|r]] eqn:E.
  { exfalso. apply (f_equal snd) in E. vm_compute in E. discriminate E. }
  assert (Hr : rp_Status r = StatusBadRequest) by (apply (f_equal snd) in E; vm_compute in E; injection E as <-; reflexivity).
  exists st', r. split; [reflexivity|]. split; [exact Hr|].
  apply (rejected_changes_nothing stubborn_env plain_server st st' r Hr) in E. apply E. reflexivity.
Defined.

(** ** What the modelling showed *)

(** With rows of the in-memory store, a reinstallation that is refused has already given
    the machine the address it asked for. *)
Definition sharing_server : Server :=
  mkServer ∅ ∅ None None false Releaser 0 None (sv_read plain_server) (sv_mac plain_server) (sv_rand plain_server) (sv_uuid plain_server) (fun _ => true).
Definition addressed : VirtualMachine := (sample_vm "vm-1" "tok") <| v_Network := [mkNetworkInterface "" "52:54:00:00:00:01" "br0" "" "10.0.0.5"] |>.
Definition readdress : vmReinstallReq := empty_reinstall <| rr_IP := "10.0.0.9" |>.
Lemma refused_reinstall_edits_row :
  let '(st', out) := ReinstallVM stubborn_env sharing_server "vm-1" (Ok (Some readdress)) (rejected_start addressed) in
  match out with inr r => rp_Status r = StatusBadRequest | inl _ => False end
  ∧ (map ni_IPAddress ∘ v_Network <$> so_vms (stores_of st') !! "vm-1") = Some ["10.0.0.9"].
Proof. vm_compute. split; reflexivity. Qed.
