(* ===== verification/CascadeRace.v ===== *)
(** * internal/infra/api: creating machines while their hypervisor is deleted

    There is no transaction over the two stores, so a creation checks the hypervisor
    before and again after it inserts the record (vm.go), and the deletion of a
    hypervisor sweeps the machines' records before and again after it removes the
    hypervisor (cascade.go).  Here: any number of creations and one deletion, their
    store operations interleaved with each other and with other writers in every
    possible way, and the reason no record is left that points to the deleted
    hypervisor. *)
From S2P Require Import Prelude Store Hypervisor Vm VmStore RuntimeSync.

(** ** The two handlers as sequences of store operations *)

(** Where a creation is: [CreateVirtualMachine] has looked its hypervisor up, has
    inserted the record, has found the hypervisor gone, or is past these steps. *)
Inductive create_pc : Type := Checked | Inserted | RollingBack | Settled.
Global Instance create_pc_eq_dec : EqDecision create_pc.
Proof. solve_decision. Defined.

Record creation := mkCreation { cr_vm : VirtualMachine; cr_pc : create_pc }.
Definition cr_name (c : creation) : string := v_Name (cr_vm c).
Definition cr_ref (c : creation) : string := v_HypervisorRef (cr_vm c).
Definition cr_token (c : creation) : string := ps_CompletionToken (v_Provisioning (cr_vm c)).
Definition at_pc (c : creation) (pc : create_pc) : creation := mkCreation (cr_vm c) pc.

(** Where [cascadeDeleteHypervisorRecords] is; a sweep carries the names of the records
    it has listed and not yet come to. *)
Inductive cascade_pc : Type :=
| Idle | Sweeping (l : list string) | Removing | Listing | SweepingAgain (l : list string) | Finished.

Record world := mkWorld {
  w_vms : vms; w_hvs : gmap string Hypervisor; w_creations : list creation; w_cascade : cascade_pc }.

Section race.
Context (h : string).

Definition names (r : result (list VirtualMachine)) : list string := match r with Ok l => v_Name <$> l | Err _ => [] end.

(** One step of a creation: the operation on the stores, and where it goes on. *)
Inductive creation_step (m : vms) (hs : gmap string Hypervisor) (c : creation) : vms → creation → Prop :=
| create_insert m' : cr_pc c = Checked → VMStore_Insert m (cr_vm c) = Ok m' → creation_step m hs c m' (at_pc c Inserted)
| create_refused e : cr_pc c = Checked → VMStore_Insert m (cr_vm c) = Err e → creation_step m hs c m (at_pc c Settled)
| create_recheck hv : cr_pc c = Inserted → mem_get hs (cr_ref c) = Ok hv → creation_step m hs c m (at_pc c Settled)
| create_orphan e : cr_pc c = Inserted → mem_get hs (cr_ref c) = Err e → creation_step m hs c m (at_pc c RollingBack)
| create_rollback m' b : cr_pc c = RollingBack → VMStore_DeleteCreatedToken m (cr_name c) (cr_token c) = Ok (m', b) →
    creation_step m hs c m' (at_pc c Settled).

(** One step of the deletion of [h]. *)
Inductive cascade_step (m : vms) (hs : gmap string Hypervisor) : cascade_pc → vms → gmap string Hypervisor → cascade_pc → Prop :=
| sweep_list : cascade_step m hs Idle m hs (Sweeping (names (VMStore_ListByHypervisor m h)))
| sweep_one n l m' b : VMStore_DeleteOwned m n h = Ok (m', b) → cascade_step m hs (Sweeping (n :: l)) m' hs (Sweeping l)
| sweep_end : cascade_step m hs (Sweeping []) m hs Removing
| remove hs' : mem_delete hs h = Ok hs' → cascade_step m hs Removing m hs' Listing
| remove_gone e : mem_delete hs h = Err e → cascade_step m hs Removing m hs Listing
| again_list : cascade_step m hs Listing m hs (SweepingAgain (names (VMStore_ListByHypervisor m h)))
| again_one n l m' b : VMStore_DeleteOwned m n h = Ok (m', b) → cascade_step m hs (SweepingAgain (n :: l)) m' hs (SweepingAgain l)
| again_end : cascade_step m hs (SweepingAgain []) m hs Finished.

(** What the other writers may do: rewrite a record without moving it to [h] and
    without changing the token of one that is on [h]; delete records; change other
    hypervisors.  [h] is not created again. *)
Inductive other_step (m : vms) (hs : gmap string Hypervisor) : vms → gmap string Hypervisor → Prop :=
| other_write n v v' : m !! n = Some v → v_Name v' = n →
    v_HypervisorRef v' = v_HypervisorRef v ∧ ps_CompletionToken (v_Provisioning v') = ps_CompletionToken (v_Provisioning v)
    ∨ v_HypervisorRef v' ≠ h →
    other_step m hs (<[n := v']> m) hs
| other_delete n : other_step m hs (delete n m) hs
| other_hypervisor hs' : hs' !! h = hs !! h → other_step m hs m hs'.

Inductive world_step : world → world → Prop :=
| ws_check m hs cs k v hv : mem_get hs (v_HypervisorRef v) = Ok hv →
    world_step (mkWorld m hs cs k) (mkWorld m hs (cs ++ [mkCreation v Checked]) k)
| ws_creation m hs before c after k m' c' : creation_step m hs c m' c' →
    world_step (mkWorld m hs (before ++ c :: after) k) (mkWorld m' hs (before ++ c' :: after) k)
| ws_cascade m hs cs k m' hs' k' : cascade_step m hs k m' hs' k' → world_step (mkWorld m hs cs k) (mkWorld m' hs' cs k')
| ws_other m hs cs k m' hs' : other_step m hs m' hs' → world_step (mkWorld m hs cs k) (mkWorld m' hs' cs k).

(** ** No record is left behind *)

(** The deletion has removed the hypervisor. *)
Definition removed (k : cascade_pc) : bool := match k with Listing | SweepingAgain _ | Finished => true | _ => false end.

(** A creation still answers for the record [n] with the token [t]. *)
Definition answers_for (n t : string) (c : creation) : Prop :=
  (cr_pc c = Inserted ∨ cr_pc c = RollingBack) ∧ cr_name c = n ∧ cr_token c = t ∧ cr_ref c = h.

(** The second sweep will still come to the record [n]. *)
Definition will_sweep (n : string) (k : cascade_pc) : Prop :=
  match k with Listing => True | SweepingAgain l => n ∈ l | _ => False end.

(** Everyone's share of the work: the hypervisor is gone exactly once the deletion has
    removed it, and then each record on it is the business of a creation that has not
    rechecked, or of the second sweep. *)
Record world_ok (w : world) : Prop := {
  wo_keys : mem_ok (w_vms w);
  wo_removed : w_hvs w !! h = None ↔ removed (w_cascade w) = true;
  wo_owned n v : w_vms w !! n = Some v → v_HypervisorRef v = h → removed (w_cascade w) = true →
    (∃ c, c ∈ w_creations w ∧ answers_for n (ps_CompletionToken (v_Provisioning v)) c) ∨ will_sweep n (w_cascade w) }.

Lemma listed_names (m : vms) n v : mem_ok m → m !! n = Some v → v_HypervisorRef v = h → n ∈ names (VMStore_ListByHypervisor m h).
Proof.
  intros Hok Hm Hv. unfold VMStore_ListByHypervisor, mem_list_where, names. apply list_elem_of_fmap. exists v. split; [by symmetry; apply Hok|].
  rewrite merge_sort_Permutation. apply list_elem_of_filter. split; [by apply bool_decide_eq_true|].
  apply elem_of_mem_values; [done|]. by rewrite (Hok n v Hm).
Qed.

(** Every record on [h] was there before, with the same token. *)
Definition no_new (m m' : vms) : Prop := ∀ n v', m' !! n = Some v' → v_HypervisorRef v' = h →
  ∃ v, m !! n = Some v ∧ v_HypervisorRef v = h ∧ ps_CompletionToken (v_Provisioning v) = ps_CompletionToken (v_Provisioning v').

Lemma no_new_refl m : no_new m m.
Proof. intros n v Hv Hr. by exists v. Qed.
Lemma no_new_delete m n : no_new m (delete n m).
Proof. intros k v [Hne Hv]%lookup_delete_Some Hr. by exists v. Qed.

Lemma DeleteOwned_spec m n m' b : mem_ok m → VMStore_DeleteOwned m n h = Ok (m', b) →
  no_new m m' ∧ mem_ok m' ∧ ∀ v, m' !! n = Some v → v_HypervisorRef v ≠ h.
Proof.
  intros Hok. unfold VMStore_DeleteOwned. destruct (m !! n) as [v|] eqn:E; [case_bool_decide as Hr|]; intros [= <- <-].
  - split_and!; [apply no_new_delete| |by intros v0; rewrite lookup_delete_eq]. intros k x [_ Hx]%lookup_delete_Some. by apply Hok.
  - split_and!; [apply no_new_refl|done|]. intros v0 Hv0. congruence.
  - split_and!; [apply no_new_refl|done|]. intros v0 Hv0. congruence.
Qed.

Lemma DeleteCreated_spec m n t m' b : mem_ok m → VMStore_DeleteCreatedToken m n t = Ok (m', b) →
  no_new m m' ∧ mem_ok m' ∧ ∀ v, m' !! n = Some v → ps_CompletionToken (v_Provisioning v) ≠ t.
Proof.
  intros Hok. unfold VMStore_DeleteCreatedToken. destruct (m !! n) as [v|] eqn:E; [case_bool_decide as Hr|]; intros [= <- <-].
  - split_and!; [apply no_new_delete| |by intros v0; rewrite lookup_delete_eq]. intros k x [_ Hx]%lookup_delete_Some. by apply Hok.
  - split_and!; [apply no_new_refl|done|]. intros v0 Hv0. congruence.
  - split_and!; [apply no_new_refl|done|]. intros v0 Hv0. congruence.
Qed.

(** A step that makes no record on [h] and leaves everyone's share. *)
Lemma ok_no_new m m' hs hs' cs k : world_ok (mkWorld m hs cs k) → no_new m m' → mem_ok m' → hs' !! h = hs !! h →
  world_ok (mkWorld m' hs' cs k).
Proof.
  intros [Hk Hr Ho] Hn Hok Hh. split; cbn in *; [done|by rewrite Hh|]. intros n v' Hv' Hv'h Hrem.
  destruct (Hn n v' Hv' Hv'h) as (v & Hv & Hvh & Ht). rewrite <- Ht. by apply Ho.
Qed.

Lemma other_step_ok m hs cs k m' hs' : other_step m hs m' hs' → world_ok (mkWorld m hs cs k) → world_ok (mkWorld m' hs' cs k).
Proof.
  intros Hs Hw. pose proof (wo_keys _ Hw) as Hk. cbn in Hk. destruct Hs as [n v v' Hv Hn Hkeep|n|hs' Hh].
  - apply (ok_no_new m _ hs _); try done.
    + intros x y [[<- <-]|[Hne Hy]]%lookup_insert_Some Hr; [|by exists y]. destruct Hkeep as [[Hr' Ht]|]; [|done].
      exists v. split_and!; [done|congruence|done].
    + intros x y [[<- <-]|[Hne Hy]]%lookup_insert_Some; [done|by apply Hk].
  - apply (ok_no_new m _ hs _); try done; [apply no_new_delete|]. intros x y [_ Hy]%lookup_delete_Some. by apply Hk.
  - apply (ok_no_new m _ hs _); try done. apply no_new_refl.
Qed.

(** Another creation, or another stage of one: those that answered for a record on [h]
    still do. *)
Lemma ok_creations m hs cs cs' k : world_ok (mkWorld m hs cs k) →
  (∀ n t c, c ∈ cs → answers_for n t c → hs !! h = None → ∃ c', c' ∈ cs' ∧ answers_for n t c') → world_ok (mkWorld m hs cs' k).
Proof.
  intros [Hk Hr Ho] Hc. split; cbn in *; [done|done|]. intros n v Hv Hvh Hrem.
  destruct (Ho n v Hv Hvh Hrem) as [(c & Hin & Hc')|]; [|by right]. left. apply (Hc n _ c Hin Hc'). by apply Hr.
Qed.

Lemma elem_of_swap {A} (before after : list A) c c' x : x ∈ before ++ c :: after → x = c ∨ x ∈ before ++ c' :: after.
Proof. set_solver. Qed.

Lemma creation_step_ok m hs before c after k m' c' : creation_step m hs c m' c' →
  world_ok (mkWorld m hs (before ++ c :: after) k) → world_ok (mkWorld m' hs (before ++ c' :: after) k).
Proof.
  intros Hs Hw. pose proof (wo_keys _ Hw) as Hk. pose proof (wo_owned _ Hw) as Ho. cbn in Hk, Ho.
  destruct Hs as [m' Hpc Hi|e Hpc Hi|hv Hpc Hg|e Hpc Hg|m' b Hpc Hd].
  - unfold VMStore_Insert, mem_insert in Hi. destruct (m !! key_of (cr_vm c)) eqn:E; [done|]. injection Hi as <-.
    split; cbn; [|apply (wo_removed _ Hw)|].
    { intros n x [[<- <-]|[_ Hx]]%lookup_insert_Some; [done|by apply Hk]. }
    intros n v [[<- <-]|[Hne Hv]]%lookup_insert_Some Hr Hrem.
    { left. exists (at_pc c Inserted). split; [set_solver|]. split; [by left|done]. }
    destruct (Ho n v Hv Hr Hrem) as [(c0 & [->|Hin]%(elem_of_swap _ _ _ (at_pc c Inserted)) & Hc0)|]; [|left; by exists c0|by right].
    destruct Hc0 as [[?|?] _]; congruence.
  - eapply ok_creations; [exact Hw|]. intros n t c0 [->|Hin]%(elem_of_swap _ _ _ (at_pc c Settled)) Hc0 _; [|by exists c0].
    destruct Hc0 as [[?|?] _]; congruence.
  - eapply ok_creations; [exact Hw|]. intros n t c0 [->|Hin]%(elem_of_swap _ _ _ (at_pc c Settled)) Hc0 Hh; [|by exists c0].
    destruct Hc0 as (_ & _ & _ & Href). apply mem_get_Ok in Hg. congruence.
  - eapply ok_creations; [exact Hw|]. intros n t c0 [->|Hin]%(elem_of_swap _ _ _ (at_pc c RollingBack)) Hc0 Hh; [|by exists c0].
    exists (at_pc c RollingBack). split; [set_solver|]. destruct Hc0 as (_ & Hc0). split; [by right|done].
  - destruct (DeleteCreated_spec _ _ _ _ _ Hk Hd) as (Hn & Hok & Hgone). split; cbn; [done|apply (wo_removed _ Hw)|].
    intros n v' Hv' Hr Hrem. destruct (Hn n v' Hv' Hr) as (v & Hv & Hvr & Ht).
    destruct (Ho n v Hv Hvr Hrem) as [(c0 & [->|Hin]%(elem_of_swap _ _ _ (at_pc c Settled)) & Hc0)|]; [| |by right].
    + destruct Hc0 as (_ & Hname & Htok & _). subst n. destruct (Hgone v' Hv'). congruence.
    + left. exists c0. by rewrite <- Ht.
Qed.

Lemma cascade_step_ok m hs cs k m' hs' k' : cascade_step m hs k m' hs' k' → world_ok (mkWorld m hs cs k) → world_ok (mkWorld m' hs' cs k').
Proof.
  intros Hs Hw. pose proof (wo_keys _ Hw) as Hk. pose proof (wo_removed _ Hw) as Hr. pose proof (wo_owned _ Hw) as Ho. cbn in Hk, Hr, Ho.
  destruct Hs as [|n l m' b Hd| |hs' Hd|e Hd| |n l m' b Hd|].
  - split; cbn; [done|done|]. by intros n v _ _ ?.
  - destruct (DeleteOwned_spec _ _ _ _ Hk Hd) as (Hn & Hok & _). split; cbn; [done|done|]. by intros x v _ _ ?.
  - split; cbn; [done|done|]. by intros n v _ _ ?.
  - unfold mem_delete in Hd. destruct (hs !! h); [|done]. injection Hd as <-. split; cbn; [done|by rewrite lookup_delete_eq|].
    intros n v _ _ _. by right.
  - unfold mem_delete in Hd. destruct (hs !! h) eqn:E; [done|]. split; cbn; [done|done|]. intros n v _ _ _. by right.
  - split; cbn; [done|done|]. intros n v Hv Hh _. right. by eapply listed_names.
  - destruct (DeleteOwned_spec _ _ _ _ Hk Hd) as (Hn & Hok & Hgone). split; cbn; [done|done|]. intros x v' Hv' Hh _.
    destruct (Hn x v' Hv' Hh) as (v & Hv & Hvh & <-). destruct (Ho x v Hv Hvh eq_refl) as [|Hin]; [by left|]. right.
    cbn in Hin. apply elem_of_cons in Hin as [->|]; [|done]. by destruct (Hgone v' Hv').
  - split; cbn; [done|done|]. intros n v Hv Hh _. destruct (Ho n v Hv Hh eq_refl) as [|Hin]; [by left|]. by apply not_elem_of_nil in Hin.
Qed.

Lemma world_step_ok w w' : world_step w w' → world_ok w → world_ok w'.
Proof.
  intros [m hs cs k v hv Hg|m hs b c a k m' c' Hs|m hs cs k m' hs' k' Hs|m hs cs k m' hs' Hs] Hw.
  - eapply ok_creations; [exact Hw|]. intros n t c Hc Ha _. exists c. split; [set_solver|done].
  - by eapply creation_step_ok.
  - by eapply cascade_step_ok.
  - by eapply other_step_ok.
Qed.

(** C12: no machine is left behind on a deleted hypervisor.  Take any number of
    creations and one deletion of the hypervisor, in any interleaving of their store
    operations with each other and with other writers that do not move machines to
    that hypervisor nor create it again.  Once the deletion and all creations have
    come to their ends, the hypervisor is gone and no record points to it: a record
    inserted before the second sweep's listing is swept, one inserted later is removed
    by the creation that finds its hypervisor gone. *)
Theorem no_dangling_hypervisor (m : vms) (hs : gmap string Hypervisor) (w : world)
  (Hkeys : mem_ok m) (Hpresent : is_Some (hs !! h)) (Hrun : rtc world_step (mkWorld m hs [] Idle) w)
  (Hdone : w_cascade w = Finished) (Hsettled : Forall (fun c => cr_pc c = Settled) (w_creations w)) :
  w_hvs w !! h = None ∧ ∀ n v, w_vms w !! n = Some v → v_HypervisorRef v ≠ h.
Proof.
  assert (Hw : world_ok w).
  { assert (H0 : world_ok (mkWorld m hs [] Idle)).
    { split; cbn; [done| |done]. destruct Hpresent as [hv ->]. done. }
    clear -Hrun H0. induction Hrun as [|a b c Hs _ IH]; [done|]. apply IH. by eapply world_step_ok. }
  destruct Hw as [Hk Hr Ho]. rewrite Hdone in *. split; [by apply Hr|]. intros n v Hv Hh.
  destruct (Ho n v Hv Hh eq_refl) as [(c & Hin & [Hpc _])|[]]. rewrite Forall_forall in Hsettled. specialize (Hsettled c Hin).
  destruct Hpc; congruence.
Qed.
End race.

(** A creation that checks its hypervisor before the deletion and inserts its record
    after the second sweep has listed. *)
Definition late_vm : VirtualMachine := sample_vm "late" "tok".

Lemma no_dangling_hypervisor_witness :
  ∃ w, rtc (world_step "hv-1") (mkWorld ∅ {["hv-1" := sample_hv]} [] Idle) w ∧ w_cascade w = Finished
       ∧ length (w_creations w) = 1%nat ∧ (∀ n v, w_vms w !! n = Some v → v_HypervisorRef v ≠ "hv-1").
Proof.
  exists (mkWorld ∅ ∅ [mkCreation late_vm Settled] Finished).
  assert (R : rtc (world_step "hv-1") (mkWorld ∅ {["hv-1" := sample_hv]} [] Idle) (mkWorld ∅ ∅ [mkCreation late_vm Settled] Finished)).
  { eapply rtc_l; [apply (ws_check _ _ _ _ _ late_vm sample_hv); reflexivity|].
    eapply rtc_l; [apply ws_cascade, sweep_list|]. eapply rtc_l; [apply ws_cascade, sweep_end|].
    eapply rtc_l; [apply ws_cascade, (remove _ _ _ ∅); vm_compute; reflexivity|].
    eapply rtc_l; [apply ws_cascade, again_list|].
    eapply rtc_l; [apply (ws_creation _ _ _ [] (mkCreation late_vm Checked) [] _ {["late" := late_vm]}); apply create_insert; reflexivity|].
    eapply rtc_l; [apply ws_cascade, again_end|].
    eapply rtc_l; [apply (ws_creation _ _ _ [] (mkCreation late_vm Inserted) []); by eapply create_orphan|].
    eapply rtc_l; [apply (ws_creation _ _ _ [] (mkCreation late_vm RollingBack) [] _ ∅); eapply create_rollback; vm_compute; reflexivity|].
    apply rtc_refl. }
  split; [exact R|]. split; [reflexivity|]. split; [reflexivity|].
  apply (no_dangling_hypervisor "hv-1" ∅ {["hv-1" := sample_hv]} _); [|eexists; reflexivity|exact R|reflexivity|].
  - intros n x Hx. discriminate Hx.
  - repeat constructor.
Defined.
