(* ===== verification/BareMetal.v ===== *)
(** * internal/baremetal: allocation of physical hosts

    Hosts enrolled for automated bare-metal deployment and their claims: validation
    (store.go, eligibility.go, enrollment.go, envelope.go) and the SQL store
    (infra/sql/baremetal_store.go, baremetal_deployment.go) over the tables of hosts
    and machines, one definition per statement or transaction, together with the
    guarded writes of the machines table (machine_store.go, provisioning_attempt.go)
    that a claim fences. *)
From S2P Require Import Prelude GoStrings GoRegexp GoPath GoCrypto Resource Power Store OsImage Machine.

(** ** store.go *)

Definition ErrConflict : error := ErrNew "bare-metal host ownership or revision conflict".
Definition ErrCapacity : error := ErrNew "no available bare-metal hosts in pool".
Definition ErrHostNotFound : error := ErrNew "bare-metal host not found".

Definition State : Type := string.
Definition Available : State := "Available".
Definition Claimed : State := "Claimed".
Definition Deploying : State := "Deploying".
Definition Ready : State := "Ready".
Definition Releasing : State := "Releasing".
Definition Failed : State := "Failed".

(** An owner that is not set ([NULL] in the table) is the empty string. *)
Record Host := mkHost {
  h_TargetDisk : string; h_IPAddress : string; h_PublicKey : string; h_Name : string; h_Pool : string;
  h_Owner : string; h_State : State; h_Revision : Z; h_AttemptID : string }.
Global Instance Host_fields : Fields Host :=
  fpure mkHost <*> h_TargetDisk <*> h_IPAddress <*> h_PublicKey <*> h_Name <*> h_Pool <*> h_Owner <*> h_State
    <*> h_Revision <*> h_AttemptID.
Global Instance Host_keyed : Keyed Host := h_Name.

Definition ValidateRegistration (name pool : string) : result unit :=
  if (TrimSpace name ==? "") || (TrimSpace pool ==? "") then Err (ErrNew "host name and pool are required") else Ok tt.

(** [^capi-[a-z0-9-]{1,123}$] *)
Definition owner_char (c : ascii) : bool := is_lower c || is_digit c || (c ==? "-"%char).
Definition ownerPattern (s : string) : bool :=
  let l := to_bytes s in
  HasPrefix s "capi-" && forallb owner_char (drop 5 l) && (1 <=? Z.of_nat (length l) - 5) && (Z.of_nat (length l) - 5 <=? 123).

Definition ValidateAcquire (pool owner : string) : result unit :=
  if (TrimSpace pool ==? "") || negb (ownerPattern owner) then Err (ErrNew "pool and stable capi- owner identity are required") else Ok tt.

Definition transition_allowed (from next : State) (attempt : string) : bool :=
  if next ==? Deploying then (from ==? Claimed) && (attempt !=? "")
  else if next ==? Ready then (from ==? Deploying) && (attempt !=? "")
  else if next ==? Failed then (from ==? Claimed) || (from ==? Deploying) || (from ==? Releasing)
  else if next ==? Releasing then (from ==? Claimed) || (from ==? Deploying) || (from ==? Ready) || (from ==? Failed)
  else false.

Definition ValidateTransition (h : Host) (next : State) (attempt : string) : result unit :=
  if h_Owner h ==? "" then Err ErrConflict
  else if (h_AttemptID h !=? "") && (attempt !=? h_AttemptID h) then Err (ErrNew "deployment attempt is immutable within a claim")
  else if transition_allowed (h_State h) next attempt then Ok tt
  else Err (ErrNew ("invalid bare-metal transition " +:+ h_State h +:+ " -> " +:+ next)).

(** ** eligibility.go *)

Definition ValidateHost (m : Machine) : result unit :=
  if m_Arch m !=? "amd64" then Err (ErrNew "sealed bare-metal deployment currently requires an amd64 host")
  else if (m_Firmware m !=? FirmwareBIOS) && (m_Firmware m !=? FirmwareUEFI)
  then Err (ErrNew "sealed bare-metal deployment requires BIOS or UEFI firmware metadata")
  else if (m_Role m ==? RoleHypervisor) || (pc_Type (m_Power m) ==? PowerTypeManual)
  then Err (ErrNew "automated bare-metal deployment requires a dedicated host with power control")
  else match ValidatePowerConfig (m_Power m) with Some e => Err e | None => Ok tt end.

Definition image_filesystem (img : OSImage) : string :=
  match oi_Manifest img with
  | Some mf => ToLower (TrimSpace (pt_Filesystem (ra_RootPartition (mf_Root mf))))
  | None => ""
  end.

Definition ValidateImage (m : Machine) (img : OSImage) : result unit :=
  _ ← ValidateHost m;
  if (oi_Arch img ==? "") || (oi_Arch img !=? m_Arch m)
     || match oi_Manifest img with Some mf => (mf_Arch mf !=? "") && (mf_Arch mf !=? oi_Arch img) | None => false end
  then Err (ErrNew "bare-metal image architecture must match the enrolled host") else
  let format := EffectiveImageFormat img in
  if negb (oi_Ready img) || ((format !=? FormatSquashFS) && (format !=? FormatQCOW2))
     || negb (SupportsDeploymentTarget img DeploymentTargetBareMetal)
  then Err (ErrNew "a ready bare-metal SquashFS or QCOW2 image is required") else
  if negb (bool_decide (oi_OSFamily img ∈ ["ubuntu"; "debian"; "fedora"])) then Err (ErrNew "unsupported bare-metal OS family") else
  if bool_decide (image_filesystem img ∈ [""; "ext4"; "xfs"]) then Ok tt
  else Err (ErrNew "sealed bare-metal deployment requires an ext4 or XFS target root filesystem").

(** ** enrollment.go and envelope.go *)

Section keys.
(** From packages encoding/pem and crypto/x509: the first block of a PEM text (type,
    contents, rest), and the key of a PKIX block, [Some n] for an RSA key of [n]
    bits. *)
Context (pemDecode : string → option (string * bytes * string)) (parsePKIX : bytes → result (option Z)).

Definition EnrollmentFingerprint (value : string) : result string :=
  match pemDecode value with
  | None => Err (ErrNew "one PEM public key is required")
  | Some (ty, contents, rest) =>
      if (ty !=? "PUBLIC KEY") || (TrimSpace rest !=? "") then Err (ErrNew "one PEM public key is required") else
      match parsePKIX contents with
      | Err _ => Err (ErrNew "invalid public key")
      | Ok (Some bits) => if bits <? 2048 then Err (ErrNew "RSA public key of at least 2048 bits is required")
                          else Ok (hex_encode (sha256 contents))
      | Ok None => Err (ErrNew "RSA public key of at least 2048 bits is required")
      end
  end.

Record Envelope := mkEnvelope {
  ev_Version : Z; ev_Algorithm : string; ev_Host : string; ev_Owner : string; ev_KeyFingerprint : string;
  ev_WrappedKey : string; ev_Nonce : string; ev_Ciphertext : string }.

(** From package encoding/json, the envelope in the bytes, when they are one object of
    known fields, and whether anything follows it; from encoding/base64, the strict
    standard decoding. *)
Context (decodeEnvelope : bytes → option (Envelope * bool)) (decode64 : string → option bytes).

Definition size_between (lo hi : Z) (b : bytes) : bool := (lo <=? Z.of_nat (length b)) && (Z.of_nat (length b) <=? hi).

Definition ValidateEnvelope (raw : bytes) (h : Host) : result unit :=
  if (Z.of_nat (length raw) =? 0) || (Z.shiftl 6 20 <? Z.of_nat (length raw)) then Err (ErrNew "invalid sealed bootstrap size") else
  match decodeEnvelope raw with
  | None => Err (ErrNew "invalid sealed bootstrap envelope")
  | Some (_, true) => Err (ErrNew "trailing bootstrap data")
  | Some (e, false) =>
      fingerprint ← EnrollmentFingerprint (h_PublicKey h);
      if negb (ev_Version e =? 1) || (ev_Algorithm e !=? "RSA-OAEP-SHA256+A256GCM") || (ev_Host e !=? h_Name h)
         || (ev_Owner e !=? h_Owner h) || (ev_KeyFingerprint e !=? fingerprint)
      then Err (ErrNew "bootstrap enrollment identity mismatch") else
      match decode64 (ev_WrappedKey e), decode64 (ev_Nonce e), decode64 (ev_Ciphertext e) with
      | Some wrapped, Some nonce, Some ciphertext =>
          if size_between 256 2048 wrapped && size_between 12 12 nonce && size_between 17 (Z.shiftl 4 20 + 16) ciphertext then Ok tt
          else Err (ErrNew "invalid sealed bootstrap encoding")
      | _, _, _ => Err (ErrNew "invalid sealed bootstrap encoding")
      end
  end.

End keys.

(** ** The tables *)

Section tables.
Context (pemDecode : string → option (string * bytes * string)) (parsePKIX : bytes → result (option Z)).

(** Rows of [bare_metal_hosts] and [machines] by name. *)
Record Db := mkDb { db_hosts : gmap string Host; db_machines : gmap string Machine }.

Definition put_host (db : Db) (h : Host) : Db := mkDb (<[h_Name h := h]> (db_hosts db)) (db_machines db).
Definition put_machine (db : Db) (n : string) (m : Machine) : Db := mkDb (db_hosts db) (<[n := m]> (db_machines db)).

Definition Get (db : Db) (name : string) : result Host :=
  match db_hosts db !! name with Some h => Ok h | None => Err ErrHostNotFound end.

(** [WHERE owner = ?]: no row has the owner [""], which is [NULL]. *)
Definition owned_by (owner : string) (h : Host) : bool := (h_Owner h !=? "") && (h_Owner h ==? owner).
Definition FindOwner (db : Db) (owner : string) : result Host :=
  match List.find (owned_by owner) (mem_values (db_hosts db)) with Some h => Ok h | None => Err ErrHostNotFound end.

Definition Register (db : Db) (name pool publicKey targetDisk : string) : result (Db * Host) :=
  _ ← ValidateRegistration name pool;
  if negb (IsWholeDiskPath targetDisk) then Err ErrConflict else
  _ ← EnrollmentFingerprint pemDecode parsePKIX publicKey;
  let db := match db_hosts db !! name with
            | Some _ => db
            | None => put_host db (mkHost targetDisk "" publicKey name pool "" Available 1 "")
            end in
  h ← Get db name;
  if (h_Pool h !=? pool) || (h_PublicKey h !=? publicKey) || (h_TargetDisk h !=? targetDisk) then Err ErrConflict else Ok (db, h).

(** [owner IS NULL AND state='Available'] *)
Definition is_free (h : Host) : bool := (h_Owner h ==? "") && (h_State h ==? Available).

Definition UpdatePool (db : Db) (name pool : string) (revision : Z) : result (Db * Host) :=
  match ValidateRegistration name pool with
  | Err _ => Err ErrConflict
  | Ok _ =>
      if revision <=? 0 then Err ErrConflict else
      match db_hosts db !! name with
      | Some h => if (h_Revision h =? revision) && is_free h
                  then let h := h <| h_Pool := pool |> <| h_Revision := h_Revision h + 1 |> in Ok (put_host db h, h)
                  else Err ErrConflict
      | None => Err ErrConflict
      end
  end.

(** One transaction over both tables. *)
Definition Unregister (db : Db) (name : string) (revision : Z) : result Db :=
  if (name ==? "") || (revision <=? 0) then Err ErrConflict else
  match db_hosts db !! name with
  | Some h =>
      if negb ((h_Revision h =? revision) && is_free h) then Err ErrConflict else
      match db_machines db !! name with
      | None => Err (ErrNew "sql: no rows in result set")
      | Some m =>
          if match m_Provision m with Some p => pp_Active p | None => false end then Err ErrConflict
          else Ok (mkDb (delete name (db_hosts db)) (<[name := m <| m_SealedBootstrap := None |>]> (db_machines db)))
      end
  | None => Err ErrConflict
  end.

(** [Acquire]'s guarded update: the first free host of the pool by name, unless the
    owner, which is unique, has a host already. *)
Definition first_free (db : Db) (pool : string) : option Host :=
  head (merge_sort key_le (filter (fun h => is_free h && (h_Pool h ==? pool) = true) (mem_values (db_hosts db)))).
Definition ErrUnique : error := ErrNew "UNIQUE constraint failed: bare_metal_hosts.owner".
Definition acquire_update (db : Db) (pool owner : string) : result (Db * Host) :=
  match first_free db pool with
  | None => Err ErrHostNotFound
  | Some h => match FindOwner db owner with
              | Ok _ => Err ErrUnique
              | Err _ => let h := h <| h_Owner := owner |> <| h_State := Claimed |> <| h_Revision := h_Revision h + 1 |> in
                         Ok (put_host db h, h)
              end
  end.

Definition same_pool (pool : string) (h : Host) : result Host := if h_Pool h !=? pool then Err ErrConflict else Ok h.

(** [others k] is what others do to the tables before the [k]-th statement. *)
Definition Acquire (others : nat → Db → Db) (db : Db) (pool owner : string) : Db * result Host :=
  match ValidateAcquire pool owner with
  | Err e => (db, Err e)
  | Ok _ =>
      let db := others 0%nat db in
      match FindOwner db owner with
      | Ok h => (db, same_pool pool h)
      | Err _ =>
          let db := others 1%nat db in
          match acquire_update db pool owner with
          | Ok (db, h) => (db, Ok h)
          | Err e =>
              let db := others 2%nat db in
              match FindOwner db owner with
              | Ok existing => (db, same_pool pool existing)
              | Err _ => (db, Err (if errors_Is e ErrHostNotFound then ErrCapacity else e))
              end
          end
      end
  end.

(** The row a caller's copy still describes: owner, state and revision. *)
Definition fenced_row (db : Db) (h : Host) : option Host :=
  row ← db_hosts db !! h_Name h;
  if (h_Owner row !=? "") && (h_Owner row ==? h_Owner h) && (h_Revision row =? h_Revision h) && (h_State row ==? h_State h)
  then Some row else None.

Definition Transition (db : Db) (h : Host) (next : State) (attempt : string) : result (Db * Host) :=
  _ ← ValidateTransition h next attempt;
  match fenced_row db h with
  | Some row => if h_AttemptID row ==? h_AttemptID h
                then let row := row <| h_State := next |> <| h_AttemptID := attempt |> <| h_Revision := h_Revision row + 1 |> in
                     Ok (put_host db row, row)
                else Err ErrConflict
  | None => Err ErrConflict
  end.

Definition CompleteRelease (db : Db) (h : Host) : result (Db * Host) :=
  if (h_State h !=? Releasing) || (h_Owner h ==? "") then Err ErrConflict else
  match fenced_row db h with
  | Some row =>
      let row := row <| h_Owner := "" |> <| h_State := Available |> <| h_AttemptID := "" |> <| h_Revision := h_Revision row + 1 |> in
      Ok (put_host db row, row)
  | None => Err ErrConflict
  end.

(** baremetal_deployment.go: the row of the machine and the claim in one commit. *)
Definition commit_next (h : Host) (cleanup : bool) : option State :=
  if cleanup then if (h_State h ==? Available) || (h_State h ==? Releasing) then None else Some Releasing
  else if (h_State h ==? Claimed) || (h_State h ==? Failed) || (h_State h ==? Deploying) then Some Deploying else None.

Definition CommitDeployment (db : Db) (h : Host) (m : Machine) : result (Db * Host) :=
  match m_Provision m, m_SealedBootstrap m with
  | Some p, Some sb =>
      if (h_Owner h ==? "") || (m_Name m !=? h_Name h) || negb (pp_Active p) || (pp_AttemptID p ==? "") || (sb_Owner sb !=? h_Owner h)
      then Err ErrConflict else
      match commit_next h (sb_Cleanup sb) with
      | None => Err ErrConflict
      | Some next =>
          match fenced_row db h with
          | None => Err ErrConflict
          | Some row =>
              match db_machines db !! m_Name m with
              | None => Err ErrHostNotFound
              | Some old =>
                  let row := row <| h_State := next |> <| h_AttemptID := pp_AttemptID p |> <| h_Revision := h_Revision row + 1 |> in
                  Ok (put_machine (put_host db row) (m_Name m) (m <| m_CreatedAt := m_CreatedAt old |>),
                      h <| h_State := next |> <| h_AttemptID := pp_AttemptID p |> <| h_Revision := h_Revision h + 1 |>)
              end
          end
      end
  | _, _ => Err ErrConflict
  end.

(** machine_store.go: the write of a machine's row is refused while its host is claimed
    under another attempt. *)
Definition attempt_of (m : Machine) : string := match m_Provision m with Some p => pp_AttemptID p | None => "" end.
Definition machine_upsert (db : Db) (m : Machine) : result Db :=
  match db_machines db !! m_Name m with
  | None => Ok (put_machine db (m_Name m) m)
  | Some old =>
      if match db_hosts db !! m_Name m with
         | Some h => (h_Owner h !=? "") && (h_AttemptID h !=? attempt_of m)
         | None => false
         end
      then Err ErrConflict
      else Ok (put_machine db (m_Name m) (m <| m_CreatedAt := m_CreatedAt old |>))
  end.

(** provisioning_attempt.go: a callback's write, compared with the row it was computed
    from; it keeps the attempt and what the specification says. *)
Definition spec_columns (m : Machine) :=
  (m_SealedBootstrap m, m_TargetDisk m, m_Power m, m_Network m, m_OSPreset m, m_CloudInitRef m, m_CloudInitRefs m, m_IPAssignment m,
   m_SubnetRef m, m_Role m, m_BridgeName m, m_SSHKeyRefs m, m_LoginUser m).
Definition status_columns (m : Machine) :=
  (m_Phase m, m_Provision m, m_LastPowerAction m, m_LastDeployedCloudInitRef m, m_LastError m, m_PowerState m, m_PowerStateAt m).
Definition machine_callback (db : Db) (before after : Machine) : Db * bool :=
  match m_Provision before, m_Provision after with
  | Some p, Some q =>
      if (m_Name before !=? m_Name after) || (pp_CompletionToken p !=? pp_CompletionToken q) || (pp_AttemptID p !=? pp_AttemptID q)
      then (db, false) else
      match db_machines db !! m_Name before with
      | Some row =>
          if bool_decide (spec_columns row = spec_columns before ∧ status_columns row = status_columns before ∧ m_IP row = m_IP before) then
            (put_machine db (m_Name before)
               (row <| m_Phase := m_Phase after |> <| m_Provision := m_Provision after |> <| m_LastPowerAction := m_LastPowerAction after |>
                   <| m_LastDeployedCloudInitRef := m_LastDeployedCloudInitRef after |> <| m_LastError := m_LastError after |>
                   <| m_PowerState := m_PowerState after |> <| m_PowerStateAt := m_PowerStateAt after |>
                   <| m_IP := m_IP after |> <| m_UpdatedAt := m_UpdatedAt after |>), true)
          else (db, false)
      | None => (db, false)
      end
  | _, _ => (db, false)
  end.

(** machine_store.go: writes of single columns of the status, or of the address, which
    leave the attempt alone. *)
Definition UpdatePowerActionStatus (db : Db) (name : string) (action : Action) (lastError : option string) (updatedAt : Time) : result Db :=
  match db_machines db !! name with
  | None => Err ErrNotFound
  | Some m => Ok (put_machine db name (m <| m_LastPowerAction := action |> <| m_LastError := default (m_LastError m) lastError |> <| m_UpdatedAt := updatedAt |>))
  end.
Definition UpdatePowerStateStatus (db : Db) (name : string) (state : PowerState) (stateAt updatedAt : Time) : result Db :=
  match db_machines db !! name with
  | None => Err ErrNotFound
  | Some m => Ok (put_machine db name (m <| m_PowerState := state |> <| m_PowerStateAt := Some stateAt |> <| m_UpdatedAt := updatedAt |>))
  end.

(** ** The life of a host *)

(** The statements that change the tables, as the handlers use them: a transition keeps
    the attempt, machines with a host are not deleted, and the rest of a machine's
    fields may change in any way. *)
Inductive bm_step (db : Db) : Db → Prop :=
| st_register name pool key disk db' h : Register db name pool key disk = Ok (db', h) → bm_step db db'
| st_pool name pool rev db' h : UpdatePool db name pool rev = Ok (db', h) → bm_step db db'
| st_unregister name rev db' : Unregister db name rev = Ok db' → bm_step db db'
| st_acquire pool owner db' h : ValidateAcquire pool owner = Ok tt → acquire_update db pool owner = Ok (db', h) → bm_step db db'
| st_transition h next db' h' : Transition db h next (h_AttemptID h) = Ok (db', h') → bm_step db db'
| st_release h db' h' : CompleteRelease db h = Ok (db', h') → bm_step db db'
| st_commit h m db' h' : CommitDeployment db h m = Ok (db', h') → bm_step db db'
| st_machine m db' : machine_upsert db m = Ok db' → bm_step db db'
| st_callback before after db' b : machine_callback db before after = (db', b) → bm_step db db'
| st_status name m m' : db_machines db !! name = Some m → m_Name m' = m_Name m → m_Provision m' = m_Provision m → bm_step db (put_machine db name m')
| st_forget name : db_hosts db !! name = None → bm_step db (mkDb (db_hosts db) (delete name (db_machines db))).

(** What owner and attempt a state goes with. *)
Definition state_ok (h : Host) : Prop :=
  (h_Owner h = "" ↔ h_State h = Available)
  ∧ (h_State h ∈ [Available; Claimed] → h_AttemptID h = "")
  ∧ (h_State h ∈ [Deploying; Ready] → h_AttemptID h ≠ "")
  ∧ h_State h ∈ [Available; Claimed; Deploying; Ready; Releasing; Failed] ∧ 1 <= h_Revision h.

Record db_ok (db : Db) : Prop := {
  ok_keys : mem_ok (db_hosts db);
  ok_machine_keys : mem_ok (db_machines db);
  ok_states n h : db_hosts db !! n = Some h → state_ok h;
  ok_owner n1 n2 h1 h2 : db_hosts db !! n1 = Some h1 → db_hosts db !! n2 = Some h2 → h_Owner h1 = h_Owner h2 → h_Owner h1 ≠ "" → n1 = n2;
  ok_attempt n h : db_hosts db !! n = Some h → h_Owner h ≠ "" → h_AttemptID h ≠ "" →
    ∃ m, db_machines db !! n = Some m ∧ attempt_of m = h_AttemptID h }.

(** *** Every statement keeps the tables consistent *)

Lemma mem_ok_insert {T} `{Keyed T} (m : gmap string T) n x : mem_ok m → key_of x = n → mem_ok (<[n := x]> m).
Proof. intros Hm Hx k y [[<- <-]|[_ Hy]]%lookup_insert_Some; [done|by apply Hm]. Qed.
Lemma mem_ok_delete {T} `{Keyed T} (m : gmap string T) n : mem_ok m → mem_ok (delete n m).
Proof. intros Hm k y [_ Hy]%lookup_delete_Some. by apply Hm. Qed.

(** One host's row replaced. *)
Lemma ok_put db h : db_ok db → state_ok h →
  (h_Owner h ≠ "" → ∀ n h2, db_hosts db !! n = Some h2 → h_Owner h2 = h_Owner h → n = h_Name h) →
  (h_Owner h ≠ "" → h_AttemptID h ≠ "" → ∃ m, db_machines db !! h_Name h = Some m ∧ attempt_of m = h_AttemptID h) →
  db_ok (put_host db h).
Proof.
  intros [Hk Hmk Hs Ho Ha] Hst Hown Hatt. unfold put_host. split; cbn.
  - by apply mem_ok_insert.
  - done.
  - intros n h0 [[<- <-]|[_ Hh]]%lookup_insert_Some; [done|by eapply Hs].
  - intros n1 n2 h1 h2 [[<- <-]|[Hn1 H1]]%lookup_insert_Some [[<- <-]|[Hn2 H2]]%lookup_insert_Some E Hne; [done| | |by eapply Ho].
    + symmetry. by eapply Hown.
    + rewrite E in Hne. by eapply Hown.
  - intros n h0 [[<- <-]|[_ Hh]]%lookup_insert_Some; [done|by apply Ha].
Qed.

(** The same owner as in the row that is replaced. *)
Lemma ok_replace db h row : db_ok db → db_hosts db !! h_Name row = Some row → h_Name h = h_Name row → h_Owner h = h_Owner row → state_ok h →
  (h_Owner h ≠ "" → h_AttemptID h ≠ "" → ∃ m, db_machines db !! h_Name h = Some m ∧ attempt_of m = h_AttemptID h) →
  db_ok (put_host db h).
Proof.
  intros Hdb Hrow Hn Hown Hst Hatt. apply ok_put; try done. intros Hne n h2 Hh2 E. rewrite Hn.
  apply (ok_owner _ Hdb n (h_Name row) h2 row); try done; congruence.
Qed.

(** A machine's row replaced, for a name whose host, if it is claimed, knows the
    attempt. *)
Lemma ok_machine db n m : db_ok db → m_Name m = n →
  (∀ h, db_hosts db !! n = Some h → h_Owner h ≠ "" → h_AttemptID h ≠ "" → attempt_of m = h_AttemptID h) →
  db_ok (put_machine db n m).
Proof.
  intros [Hk Hmk Hs Ho Ha] Hn Hatt. split; cbn; try done.
  - by apply mem_ok_insert.
  - intros k h Hh Hne Hat. destruct (decide (k = n)) as [->|Hkn].
    + exists m. rewrite lookup_insert_eq. split; [done|]. by apply Hatt.
    + rewrite lookup_insert_ne by done. by apply Ha.
Qed.

(** Both rows of a host replaced together. *)
Lemma ok_put_both db h row m : db_ok db → db_hosts db !! h_Name row = Some row → h_Name h = h_Name row → h_Owner h = h_Owner row → state_ok h →
  m_Name m = h_Name h → attempt_of m = h_AttemptID h → db_ok (put_machine (put_host db h) (h_Name h) m).
Proof.
  intros [Hk Hmk Hs Ho Ha] Hrow Hn Hown Hst Hm Hatt. split; cbn.
  - by apply mem_ok_insert.
  - by apply mem_ok_insert.
  - intros n h0 [[<- <-]|[_ Hh]]%lookup_insert_Some; [done|by eapply Hs].
  - intros n1 n2 h1 h2 [[<- <-]|[Hn1 H1]]%lookup_insert_Some [[<- <-]|[Hn2 H2]]%lookup_insert_Some E Hne; [done| | |by eapply Ho];
      rewrite Hn; [apply (Ho _ _ row h2)|apply (Ho _ _ h1 row)]; try done; congruence.
  - intros n h0 [[<- <-]|[Hne Hh]]%lookup_insert_Some Ho0 Ha0.
    + exists m. by rewrite lookup_insert_eq.
    + rewrite lookup_insert_ne by done. by apply Ha.
Qed.

Lemma fenced_row_spec db h row : fenced_row db h = Some row → db_hosts db !! h_Name h = Some row ∧ h_Owner row ≠ ""
  ∧ h_Owner row = h_Owner h ∧ h_Revision row = h_Revision h ∧ h_State row = h_State h.
Proof.
  unfold fenced_row. destruct (db_hosts db !! h_Name h) as [r|]; [|done]. cbn. destruct (_ && _ && _ && _) eqn:E; [|done]. intros [= <-].
  rewrite !andb_true_iff, negb_true_iff, Z.eqb_eq in E. destruct E as [[[E1 E2] E3] E4].
  apply bool_decide_eq_false in E1. apply bool_decide_eq_true in E2, E4. done.
Qed.

Lemma is_free_spec h : is_free h = true ↔ h_Owner h = "" ∧ h_State h = Available.
Proof. unfold is_free. rewrite andb_true_iff, !bool_decide_eq_true. done. Qed.

Lemma FindOwner_spec db owner : mem_ok (db_hosts db) → owner ≠ "" →
  match FindOwner db owner with
  | Ok h => db_hosts db !! h_Name h = Some h ∧ h_Owner h = owner
  | Err _ => ∀ n h, db_hosts db !! n = Some h → h_Owner h ≠ owner
  end.
Proof.
  intros Hk Hne. unfold FindOwner. destruct (List.find _ _) as [h|] eqn:E.
  - apply find_some in E as [Hin Hh]. apply list_elem_of_In, elem_of_mem_values in Hin; [|done]. split; [done|].
    unfold owned_by in Hh. apply andb_true_iff in Hh as [_ Hh]. by apply bool_decide_eq_true in Hh.
  - intros n h Hh Heq. pose proof (find_none _ _ E h) as Hf. rewrite <- list_elem_of_In, elem_of_mem_values in Hf by done.
    rewrite (Hk n h Hh) in Hf. specialize (Hf Hh). unfold owned_by in Hf. rewrite Heq in Hf.
    rewrite (bool_decide_eq_false_2 (owner = "")), (bool_decide_eq_true_2 (owner = owner)) in Hf by done. done.
Qed.

Lemma first_free_spec db pool h : mem_ok (db_hosts db) → first_free db pool = Some h →
  db_hosts db !! h_Name h = Some h ∧ is_free h = true ∧ h_Pool h = pool.
Proof.
  intros Hk. unfold first_free. intros Hh. assert (Hin : h ∈ merge_sort key_le (filter (fun h => is_free h && (h_Pool h ==? pool) = true) (mem_values (db_hosts db)))).
  { destruct (merge_sort _ _); [done|]. injection Hh as ->. by left. }
  rewrite merge_sort_Permutation, list_elem_of_filter, elem_of_mem_values in Hin by done. destruct Hin as [[H1 H2%bool_decide_eq_true]%andb_true_iff H3]. done.
Qed.

(** The states a claim moves through. *)
Lemma state_ok_claimed h next : h_Owner h ≠ "" → h_State h = next → next ∈ [Deploying; Ready; Releasing; Failed] →
  (next ∈ [Deploying; Ready] → h_AttemptID h ≠ "") → 1 <= h_Revision h → state_ok h.
Proof.
  intros Ho Hn Hin Ha Hr. unfold state_ok. rewrite Hn. rewrite !elem_of_cons, elem_of_nil in Hin.
  assert (Hna : next ≠ Available ∧ next ≠ Claimed) by (destruct Hin as [->|[->|[->|[->|[]]]]]; done). destruct Hna as [Hna Hnc].
  split_and!; [by split|set_solver|done|set_solver|done].
Qed.

Lemma transition_allowed_spec from next a : transition_allowed from next a = true →
  next ∈ [Deploying; Ready; Releasing; Failed] ∧ (next ∈ [Deploying; Ready] → a ≠ "") ∧ (next = Deploying → from = Claimed)
  ∧ from ≠ Available.
Proof.
  unfold transition_allowed.
  destruct (decide (next = Deploying)) as [->|N1]; [|rewrite (bool_decide_eq_false_2 (next = Deploying)) by done].
  { rewrite bool_decide_eq_true_2 by done. rewrite andb_true_iff, negb_true_iff, bool_decide_eq_true, bool_decide_eq_false. intros [-> ?].
    split_and!; [by vm_compute; left|done|done|done]. }
  destruct (decide (next = Ready)) as [->|N2]; [|rewrite (bool_decide_eq_false_2 (next = Ready)) by done].
  { rewrite bool_decide_eq_true_2 by done. rewrite andb_true_iff, negb_true_iff, bool_decide_eq_true, bool_decide_eq_false. intros [-> ?].
    split_and!; [set_solver|done|done|done]. }
  destruct (decide (next = Failed)) as [->|N3]; [|rewrite (bool_decide_eq_false_2 (next = Failed)) by done].
  { rewrite bool_decide_eq_true_2 by done. rewrite !orb_true_iff, !bool_decide_eq_true. intros Hf.
    split_and!; [set_solver|set_solver|done|]. by destruct Hf as [[-> | ->]| ->]. }
  destruct (decide (next = Releasing)) as [->|N4]; [|by rewrite (bool_decide_eq_false_2 (next = Releasing))].
  rewrite bool_decide_eq_true_2 by done. rewrite !orb_true_iff, !bool_decide_eq_true. intros Hf.
  split_and!; [set_solver|set_solver|done|]. by destruct Hf as [[[-> | ->]| ->]| ->].
Qed.

Lemma register_ok db name pool key disk db' h : db_ok db → Register db name pool key disk = Ok (db', h) → db_ok db'.
Proof.
  intros Hdb. unfold Register. destruct (ValidateRegistration _ _); [|done]. cbn [mbind result_bind]. destruct (IsWholeDiskPath disk); [|done].
  cbn [negb]. destruct (EnrollmentFingerprint _ _ key); [|done]. cbn [mbind result_bind]. destruct (db_hosts db !! name) as [h0|] eqn:E.
  - unfold Get. rewrite E. cbn [mbind result_bind]. destruct (_ || _); [done|]. by intros [= <- <-].
  - destruct (Get _ name) as [h0|]; [|done]. cbn [mbind result_bind]. destruct (_ || _); [done|]. intros [= <- <-].
    apply ok_put; [done| |done|done]. unfold state_ok. cbn. split_and!; [done|done|set_solver|set_solver|lia].
Qed.

Lemma pool_ok db name pool rev db' h : db_ok db → UpdatePool db name pool rev = Ok (db', h) → db_ok db'.
Proof.
  intros Hdb. unfold UpdatePool. destruct (ValidateRegistration _ _); [|done]. destruct (rev <=? 0); [done|].
  destruct (db_hosts db !! name) as [h0|] eqn:E; [|done]. destruct (_ && _) eqn:Ef; [|done]. intros [= <- <-].
  apply andb_true_iff in Ef as [_ [Eo Es]%is_free_spec]. pose proof (ok_keys _ Hdb _ _ E) as Hk. pose proof (ok_states _ Hdb _ _ E) as (S1 & S2 & S3 & S4 & S5).
  rewrite <- Hk in E. eapply (ok_replace db _ h0); [done|exact E|done|done| |].
  - unfold state_ok. cbn. split_and!; try done. lia.
  - cbn. by rewrite Eo.
Qed.

Lemma unregister_ok db name rev db' : db_ok db → Unregister db name rev = Ok db' → db_ok db'.
Proof.
  intros Hdb. unfold Unregister. destruct (_ || _); [done|]. destruct (db_hosts db !! name) as [h|] eqn:E; [|done].
  destruct (negb _); [done|]. destruct (db_machines db !! name) as [m|] eqn:Em; [|done]. destruct (match m_Provision m with Some p => pp_Active p | None => false end); [done|].
  intros [= <-]. destruct Hdb as [Hk Hmk Hs Ho Ha]. split; cbn.
  - by apply mem_ok_delete.
  - apply mem_ok_insert; [done|]. exact (Hmk _ _ Em).
  - intros n h0 [_ Hh]%lookup_delete_Some. by eapply Hs.
  - intros n1 n2 h1 h2 [_ H1]%lookup_delete_Some [_ H2]%lookup_delete_Some. by eapply Ho.
  - intros n h0 [Hne Hh]%lookup_delete_Some. rewrite lookup_insert_ne by done. by apply Ha.
Qed.

Lemma acquire_ok db pool owner db' h : db_ok db → ValidateAcquire pool owner = Ok tt → acquire_update db pool owner = Ok (db', h) → db_ok db'.
Proof.
  intros Hdb Hv. assert (Hne : owner ≠ "").
  { intros ->. unfold ValidateAcquire in Hv. destruct (_ || _) eqn:E; [done|]. apply orb_false_iff in E as [_ E]. vm_compute in E. done. }
  unfold acquire_update. destruct (first_free db pool) as [h0|] eqn:Ef; [|done]. pose proof (FindOwner_spec db owner (ok_keys _ Hdb) Hne) as Hf.
  destruct (FindOwner db owner); [done|]. intros [= <- <-].
  destruct (first_free_spec _ _ _ (ok_keys _ Hdb) Ef) as (Hh & [Ho Hs]%is_free_spec & _).
  pose proof (ok_states _ Hdb _ _ Hh) as (S1 & S2 & S3 & S4 & S5). assert (Ha : h_AttemptID h0 = "") by (apply S2; rewrite Hs; by left).
  apply ok_put; [done| | |].
  - unfold state_ok. cbn. split_and!; [by split|done|set_solver|set_solver|lia].
  - cbn. intros _ n h2 Hh2 Heq. by destruct (Hf n h2 Hh2).
  - cbn. by rewrite Ha.
Qed.

Lemma transition_ok db h next db' h' : db_ok db → Transition db h next (h_AttemptID h) = Ok (db', h') → db_ok db'.
Proof.
  intros Hdb. unfold Transition, ValidateTransition. destruct (bool_decide (h_Owner h = "")); [done|].
  rewrite (bool_decide_eq_true_2 (h_AttemptID h = h_AttemptID h)), andb_false_r by done.
  destruct (transition_allowed _ _ _) eqn:Et; [|done]. cbn [mbind result_bind].
  destruct (fenced_row db h) as [row|] eqn:Er; [|done]. destruct (bool_decide (h_AttemptID row = h_AttemptID h)) eqn:Ea; [|done]. intros [= <- <-].
  apply bool_decide_eq_true in Ea. apply fenced_row_spec in Er as (Hrow & Hne & Ho & Hr & Hs). apply transition_allowed_spec in Et as (T1 & T2 & T3 & T4).
  pose proof (ok_keys _ Hdb _ _ Hrow) as Hk. pose proof (ok_states _ Hdb _ _ Hrow) as (S1 & S2 & S3 & S4 & S5).
  rewrite <- Hk in Hrow. eapply (ok_replace db _ row); [done|exact Hrow|done|done| |].
  - eapply (state_ok_claimed _ next); try done. cbn. lia.
  - intros _ Hatt. cbn in *. rewrite <- Ea in *. by apply (ok_attempt _ Hdb _ row).
Qed.

Lemma release_ok db h db' h' : db_ok db → CompleteRelease db h = Ok (db', h') → db_ok db'.
Proof.
  intros Hdb. unfold CompleteRelease. destruct (_ || _); [done|]. destruct (fenced_row db h) as [row|] eqn:Er; [|done]. intros [= <- <-].
  apply fenced_row_spec in Er as (Hrow & _). pose proof (ok_states _ Hdb _ _ Hrow) as (S1 & S2 & S3 & S4 & S5).
  apply ok_put; [done| |done|done]. unfold state_ok. cbn. split_and!; [done|done|set_solver|set_solver|lia].
Qed.

Lemma commit_ok db h m db' h' : db_ok db → CommitDeployment db h m = Ok (db', h') → db_ok db'.
Proof.
  intros Hdb. unfold CommitDeployment. destruct (m_Provision m) as [p|] eqn:Ep; [|done]. destruct (m_SealedBootstrap m) as [sb|]; [|done].
  destruct (_ || _) eqn:Ec; [done|]. destruct (commit_next h _) as [next|] eqn:En; [|done]. destruct (fenced_row db h) as [row|] eqn:Er; [|done].
  destruct (db_machines db !! m_Name m) as [old|] eqn:Em; [|done]. intros [= <- <-].
  rewrite !orb_false_iff in Ec. destruct Ec as [[[[_ E1] _] E2] _]. apply negb_false_iff, bool_decide_eq_true in E1. apply bool_decide_eq_false in E2.
  apply fenced_row_spec in Er as (Hrow & Hne & Ho & Hr & Hs). pose proof (ok_keys _ Hdb _ _ Hrow) as Hk. pose proof (ok_states _ Hdb _ _ Hrow) as (S1 & S2 & S3 & S4 & S5).
  assert (Hnext : next ∈ [Deploying; Ready; Releasing; Failed] ).
  { revert En. unfold commit_next. repeat case_match; intros [= <-]; set_solver. }
  set (row' := row <| h_State := next |> <| h_AttemptID := pp_AttemptID p |> <| h_Revision := h_Revision row + 1 |>).
  set (m' := m <| m_CreatedAt := m_CreatedAt old |>).
  assert (Hm' : attempt_of m' = pp_AttemptID p) by exact (f_equal (fun o => match o with Some p => pp_AttemptID p | None => "" end) Ep).
  assert (Hn : m_Name m = h_Name row') by (rewrite E1; exact (eq_sym Hk)).
  rewrite <- Hk in Hrow. rewrite Hn. apply (ok_put_both db row' row m'); [done|exact Hrow|done|done| |exact Hn|exact Hm'].
  eapply (state_ok_claimed _ next); try done. change (1 <= h_Revision row + 1). lia.
Qed.

Lemma machine_upsert_ok db m db' : db_ok db → machine_upsert db m = Ok db' → db_ok db'.
Proof.
  intros Hdb. unfold machine_upsert. destruct (db_machines db !! m_Name m) as [old|] eqn:Em.
  - destruct (match db_hosts db !! m_Name m with Some h => _ | None => false end) eqn:Eg; [done|]. intros [= <-].
    apply ok_machine; [done|done|]. intros h Hh Ho Ha. rewrite Hh in Eg. rewrite bool_decide_eq_false_2 in Eg by done. cbn in Eg.
    apply negb_false_iff, bool_decide_eq_true in Eg. symmetry. exact Eg.
  - intros [= <-]. apply ok_machine; [done|done|]. intros h Hh Ho Ha. destruct (ok_attempt _ Hdb _ _ Hh Ho Ha) as (m0 & Hm0 & _). congruence.
Qed.

Lemma machine_callback_ok db before after db' b : db_ok db → machine_callback db before after = (db', b) → db_ok db'.
Proof.
  intros Hdb. unfold machine_callback. destruct (m_Provision before) as [p|] eqn:Ep; [|by intros [= <- <-]].
  destruct (m_Provision after) as [q|] eqn:Eq; [|by intros [= <- <-]]. destruct (_ || _) eqn:Ec; [by intros [= <- <-]|].
  destruct (db_machines db !! m_Name before) as [row|] eqn:Er; [|by intros [= <- <-]]. destruct (bool_decide (spec_columns row = _ ∧ _)) eqn:Hsame; [|by intros [= <- <-]].
  apply bool_decide_eq_true in Hsame. intros [= <- <-]. destruct Hsame as (_ & Hst & _). pose proof (f_equal (fun t => t.1.1.1.1.1.2) Hst) as Hpr. cbn in Hpr. rewrite Ep in Hpr.
  rewrite !orb_false_iff in Ec. destruct Ec as [_ Ec]. apply negb_false_iff, bool_decide_eq_true in Ec.
  apply ok_machine; [done|exact (ok_machine_keys _ Hdb _ _ Er)|]. intros h Hh Ho Ha.
  destruct (ok_attempt _ Hdb _ _ Hh Ho Ha) as (m0 & Hm0 & <-). rewrite Er in Hm0. injection Hm0 as <-.
  transitivity (pp_AttemptID q); [reflexivity|].
  unfold attempt_of. rewrite Hpr. by symmetry.
Qed.

Lemma status_ok db name m m' : db_ok db → db_machines db !! name = Some m → m_Name m' = m_Name m → m_Provision m' = m_Provision m → db_ok (put_machine db name m').
Proof.
  intros Hdb Hm Hn Hp. pose proof (ok_machine_keys _ Hdb _ _ Hm) as Hk. unfold key_of, Machine_keyed in Hk.
  apply ok_machine; [done|congruence|]. intros h Hh Ho Ha. destruct (ok_attempt _ Hdb _ _ Hh Ho Ha) as (m0 & Hm0 & <-). rewrite Hm in Hm0. injection Hm0 as <-.
  unfold attempt_of. by rewrite Hp.
Qed.

Lemma bm_step_ok db db' : bm_step db db' → db_ok db → db_ok db'.
Proof.
  intros [] Hdb;
    [eapply register_ok|eapply pool_ok|eapply unregister_ok|eapply acquire_ok|eapply transition_ok|eapply release_ok|eapply commit_ok
    |eapply machine_upsert_ok|eapply machine_callback_ok|eapply status_ok|]; try eassumption.
  destruct Hdb as [K1 K2 K3 K4 K5]. split; cbn; try done; [by apply mem_ok_delete|]. intros n h Hh. rewrite lookup_delete_ne by congruence. by apply K5.
Qed.

(** *** What a statement does to one host *)

(** Claimed by someone, released by its owner, or changed under the same owner. *)
Definition changes_hands (h h' : Host) : Prop :=
  h_Owner h' = h_Owner h ∨ (is_free h = true ∧ h_State h' = Claimed ∧ h_Owner h' ≠ "") ∨ (h_State h = Releasing ∧ is_free h' = true).

Definition host_change (h : Host) (row : option Host) : Prop :=
  match row with
  | None => is_free h = true
  | Some h' => h' = h ∨ (h_Revision h' = h_Revision h + 1 ∧ changes_hands h h')
  end.

Lemma host_change_put db h0 h n : db_hosts db !! n = Some h →
  (h_Name h0 = n → h_Revision h0 = h_Revision h + 1 ∧ changes_hands h h0) → host_change h (db_hosts (put_host db h0) !! n).
Proof.
  intros Hh Hc. cbn. destruct (decide (h_Name h0 = n)) as [E|Hne]; [rewrite E, lookup_insert_eq; right; by apply Hc|].
  rewrite lookup_insert_ne, Hh by done. by left.
Qed.

(** The operations behind a claim's fence: the row the caller's copy describes is
    replaced by one with the next revision, under the same owner or released. *)
Definition fenced_write (db db' : Db) (h : Host) : Prop :=
  ∃ row row', fenced_row db h = Some row ∧ db_hosts db' = <[h_Name row := row']> (db_hosts db) ∧ h_Name row' = h_Name row
  ∧ h_Revision row' = h_Revision row + 1 ∧ (h_Owner row' = h_Owner row ∨ h_State row = Releasing ∧ is_free row' = true).

Lemma Transition_fenced db h next a db' h' : Transition db h next a = Ok (db', h') → fenced_write db db' h.
Proof.
  unfold Transition. destruct (ValidateTransition _ _ _); [|done]. cbn [mbind result_bind]. destruct (fenced_row db h) as [row|] eqn:E; [|done].
  destruct (bool_decide _); [|done]. intros [= <- <-]. eexists row, _. split_and!; [done|reflexivity|done|done|by left].
Qed.

Lemma CompleteRelease_fenced db h db' h' : CompleteRelease db h = Ok (db', h') → fenced_write db db' h.
Proof.
  unfold CompleteRelease. destruct (_ || _) eqn:Es; [done|]. destruct (fenced_row db h) as [row|] eqn:E; [|done]. intros [= <- <-].
  eexists row, _. split_and!; [done|reflexivity|done|done|]. right. split; [|done]. apply fenced_row_spec in E as (_ & _ & _ & _ & ->).
  apply orb_false_iff in Es as [Es _]. by apply negb_false_iff, bool_decide_eq_true in Es.
Qed.

Lemma CommitDeployment_fenced db h m db' h' : CommitDeployment db h m = Ok (db', h') → fenced_write db db' h.
Proof.
  unfold CommitDeployment. destruct (m_Provision m); [|done]. destruct (m_SealedBootstrap m); [|done]. destruct (_ || _); [done|].
  destruct (commit_next _ _); [|done]. destruct (fenced_row db h) as [row|] eqn:E; [|done]. destruct (db_machines db !! _); [|done].
  intros [= <- <-]. eexists row, _. split_and!; [done|reflexivity|done|done|by left].
Qed.

Lemma fenced_host_step db db' h0 n h : db_ok db → fenced_write db db' h0 → db_hosts db !! n = Some h → host_change h (db_hosts db' !! n).
Proof.
  intros Hdb (row & row' & Er & -> & Hn & Hr & Ho) Hh. apply fenced_row_spec in Er as (Hrow & _). pose proof (ok_keys _ Hdb _ _ Hrow) as Hk.
  unfold key_of, Host_keyed in Hk. destruct (decide (h_Name row = n)) as [<-|Hne]; [|rewrite lookup_insert_ne, Hh by done; by left].
  rewrite lookup_insert_eq. right. rewrite Hk in Hh. assert (h = row) as -> by congruence. split; [done|].
  destruct Ho as [Ho|Ho]; [by left|by right; right].
Qed.

Lemma host_step db db' n h : db_ok db → bm_step db db' → db_hosts db !! n = Some h → host_change h (db_hosts db' !! n).
Proof.
  intros Hdb Hs Hh. destruct Hs as [name pool key disk db' h0 E|name pool rev db' h0 E|name rev db' E|pool owner db' h0 Hv E|h0 next db' h1 E
    |h0 db' h1 E|h0 m db' h1 E|m db' E|b a db' w E|name m m' E1 E2 E3|name E].
  - revert E. unfold Register. destruct (ValidateRegistration _ _); [|done]. cbn [mbind result_bind]. destruct (IsWholeDiskPath disk); [|done].
    cbn [negb]. destruct (EnrollmentFingerprint _ _ key); [|done]. cbn [mbind result_bind]. destruct (Get _ name) as [h1|]; [|done].
    cbn [mbind result_bind]. destruct (_ || _); [done|]. intros [= <- <-]. destruct (db_hosts db !! name) eqn:En; [rewrite Hh; by left|].
    apply host_change_put; [done|]. cbn. congruence.
  - revert E. unfold UpdatePool. destruct (ValidateRegistration _ _); [|done]. destruct (rev <=? 0); [done|].
    destruct (db_hosts db !! name) as [h1|] eqn:En; [|done]. destruct (_ && _); [|done]. intros [= <- <-]. apply host_change_put; [done|].
    intros Hn. assert (h1 = h) as -> by (pose proof (ok_keys _ Hdb _ _ En) as Hk; cbn in Hn; unfold key_of, Host_keyed in Hk; congruence).
    split; [done|by left].
  - revert E. unfold Unregister. destruct (_ || _); [done|]. destruct (db_hosts db !! name) as [h1|] eqn:En; [|done].
    destruct (negb _) eqn:Ef; [done|]. destruct (db_machines db !! name); [|done]. destruct (match m_Provision _ with Some _ => _ | None => _ end); [done|].
    intros [= <-]. cbn. destruct (decide (n = name)) as [->|Hne]; [|rewrite lookup_delete_ne, Hh by done; by left].
    rewrite lookup_delete_eq. rewrite Hh in En. injection En as <-. by apply negb_false_iff, andb_true_iff in Ef as [_ Ef].
  - revert E. unfold acquire_update. destruct (first_free db pool) as [h1|] eqn:Ef; [|done]. destruct (FindOwner db owner); [done|]. intros [= <- <-].
    destruct (first_free_spec _ _ _ (ok_keys _ Hdb) Ef) as (Hh1 & Hfree & _). apply host_change_put; [done|]. intros Hn.
    assert (h1 = h) as -> by (cbn in Hn; congruence). split; [done|]. right. left. split_and!; [done|done|]. cbn.
    intros ->. unfold ValidateAcquire in Hv. destruct (_ || _) eqn:E; [done|]. apply orb_false_iff in E as [_ E]. vm_compute in E. done.
  - eapply fenced_host_step; [done|by eapply Transition_fenced|done].
  - eapply fenced_host_step; [done|by eapply CompleteRelease_fenced|done].
  - eapply fenced_host_step; [done|by eapply CommitDeployment_fenced|done].
  - revert E. unfold machine_upsert. destruct (db_machines db !! _); [destruct (match db_hosts db !! m_Name m with Some _ => _ | None => _ end); [done|]|];
      intros [= <-]; cbn; rewrite Hh; by left.
  - revert E. unfold machine_callback. repeat case_match; intros [= <- _]; cbn; rewrite Hh; by left.
  - cbn. rewrite Hh. by left.
  - cbn. rewrite Hh. by left.
Qed.

Lemma empty_ok : db_ok (mkDb ∅ ∅).
Proof. split; cbn; [intros n x|intros n x|intros n h|intros n1 n2 h1 h2|intros n h]; by rewrite lookup_empty. Qed.

Lemma bm_run_ok a b : rtc bm_step a b → db_ok a → db_ok b.
Proof. induction 1 as [|a b c Hs _ IH]; [done|]. intros Ha. apply IH. by eapply bm_step_ok. Qed.

(** C36: the tables of hosts and machines stay consistent.  Whatever sequence of
    registrations, pool changes, claims, deployments, callbacks, releases and
    removals is executed, no two hosts have the same owner; a host has an owner
    exactly if it is not available; a host that is available or only claimed has no
    deployment attempt, one that is deploying or ready has one; and the machine of a
    claimed host with an attempt carries that very attempt, so no other installation
    can report for it. *)
Theorem bare_metal_consistent (db : Db) (Hrun : rtc bm_step (mkDb ∅ ∅) db) : db_ok db.
Proof. eapply bm_run_ok; [exact Hrun|exact empty_ok]. Qed.

(** Runs during which the host [n] stays registered. *)
Definition step_with (n : string) (a b : Db) : Prop := bm_step a b ∧ is_Some (db_hosts b !! n).

Lemma revision_grows n a b : rtc (step_with n) a b → db_ok a → ∀ h, db_hosts a !! n = Some h →
  db_ok b ∧ ∃ h', db_hosts b !! n = Some h' ∧ (h' = h ∨ h_Revision h < h_Revision h').
Proof.
  induction 1 as [a|a b c [Hs [hb Hb]] _ IH]; intros Ha h Hh; [by split; [|exists h; split; [|left]]|].
  pose proof (host_step _ _ _ _ Ha Hs Hh) as Hc. rewrite Hb in Hc. cbn in Hc.
  destruct (IH (bm_step_ok _ _ Hs Ha) hb Hb) as (Hok & h' & Hh' & Hr). split; [done|]. exists h'. split; [done|].
  destruct Hc as [->|[Hrev _]]; [done|]. right. destruct Hr as [->|Hr]; lia.
Qed.

(** C6: a claim's copy can be used once.  When one of the operations a claim is fenced
    for (a transition, the completion of a release, the commit of a deployment) has
    succeeded with the caller's copy of the host, then for as long as the host stays
    registered, whatever else happens, every further such operation with the same copy
    is refused: of two requests that read the same state at most one takes effect. *)
Theorem claim_used_once (db db1 db2 : Db) (h : Host) (Hok : db_ok db) (Hused : fenced_write db db1 h) (Hstep : bm_step db db1)
  (Hrun : rtc (step_with (h_Name h)) db1 db2) :
  (∀ next a, Transition db2 h next a = Err ErrConflict ∨ ∃ e, ValidateTransition h next a = Err e)
  ∧ CompleteRelease db2 h = Err ErrConflict ∧ (∀ m, ∃ e, CommitDeployment db2 h m = Err e).
Proof.
  destruct Hused as (row & row' & Er & Hdb1 & Hn & Hr & _). apply fenced_row_spec in Er as (Hrow & _ & _ & Hrev & _).
  pose proof (ok_keys _ Hok _ _ Hrow) as Hk. unfold key_of, Host_keyed in Hk.
  destruct (revision_grows _ _ _ Hrun (bm_step_ok _ _ Hstep Hok) row') as (_ & h2 & Hh2 & Hlt); [by rewrite Hdb1, Hk, lookup_insert_eq|].
  assert (Hf : fenced_row db2 h = None).
  { destruct (fenced_row db2 h) as [r|] eqn:E; [|done]. apply fenced_row_spec in E as (Hr2 & _ & _ & Hrr & _).
    rewrite Hh2 in Hr2. injection Hr2 as ->. destruct Hlt as [->|]; lia. }
  split_and!.
  - intros next a. unfold Transition. destruct (ValidateTransition h next a) as [[]|e]; [left|right; by exists e]. cbn. by rewrite Hf.
  - unfold CompleteRelease. destruct (_ || _); [done|]. by rewrite Hf.
  - intros m. unfold CommitDeployment. rewrite Hf. repeat case_match; by eexists.
Qed.

(** A host changes hands only through a release.  If a host that stays registered
    has one owner at one time and another owner later, then in between it was being
    released, and it was free before it was claimed again. *)
Lemma owner_changes_by_release (db db' : Db) (n : string) (h h' : Host) (Hok : db_ok db) (Hrun : rtc (step_with n) db db')
  (Hh : db_hosts db !! n = Some h) (Hh' : db_hosts db' !! n = Some h') (Hown : h_Owner h ≠ "") (Hother : h_Owner h' ≠ h_Owner h) :
  ∃ mid hm free hf, rtc (step_with n) db mid ∧ db_hosts mid !! n = Some hm ∧ h_State hm = Releasing ∧ h_Owner hm = h_Owner h
  ∧ rtc (step_with n) mid free ∧ db_hosts free !! n = Some hf ∧ is_free hf = true ∧ rtc (step_with n) free db'.
Proof.
  revert h Hok Hh Hown Hother. induction Hrun as [db|db d2 db' [Hs [h2 H2]] Hrest IH]; intros h Hok Hh Hown Hother; [congruence|].
  pose proof (host_step _ _ _ _ Hok Hs Hh) as Hc. rewrite H2 in Hc. cbn in Hc. pose proof (bm_step_ok _ _ Hs Hok) as Hok2.
  assert (Hd : rtc (step_with n) db d2) by (apply rtc_once; by split).
  assert (Hsame : h_Owner h2 = h_Owner h → ∃ mid hm free hf, rtc (step_with n) db mid ∧ db_hosts mid !! n = Some hm ∧ h_State hm = Releasing
    ∧ h_Owner hm = h_Owner h ∧ rtc (step_with n) mid free ∧ db_hosts free !! n = Some hf ∧ is_free hf = true ∧ rtc (step_with n) free db').
  { intros E. destruct (IH Hh' h2 Hok2 H2) as (mid & hm & free & hf & R1 & M1 & M2 & M3 & Rest); [congruence|congruence|].
    exists mid, hm, free, hf. split_and!; try apply Rest; try done; [by etrans|congruence]. }
  destruct Hc as [->|[_ [E|[[Hf _]|[Hrel Hf]]]]]; [by apply Hsame|by apply Hsame|apply is_free_spec in Hf as [? _]; congruence|].
  exists db, h, d2, h2. split_and!; try done.
Qed.
End tables.

(** ** A host's life, run *)

Definition demo_pem (s : string) : option (string * bytes * string) := Some ("PUBLIC KEY", to_bytes s, "").
Definition demo_key (b : bytes) : result (option Z) := Ok (Some 2048).
Definition demo_machine : Machine :=
  mkMachine None "m1" "m1" "52:54:00:00:00:01" "" "amd64" "uefi" (mkPowerConfig PowerTypeManual None None None None) (mkNetworkConfig "")
    (mkOSPreset "ubuntu" "24.04" "img" ∅) "/dev/sda" "" [] "dhcp" "" "" "" [] None "Ready" None "" "" "" "" None 0 0.

(** The tables after a statement, and the host it returned. *)
Definition after_ok (r : result (Db * Host)) (db : Db) : Db := match r with Ok (db', _) => db' | Err _ => db end.
Definition host_of (r : result (Db * Host)) : Host := match r with Ok (_, h) => h | Err _ => mkHost "" "" "" "" "" "" "" 0 "" end.

Definition demo1 : Db := mkDb ∅ {["m1" := demo_machine]}.
Definition demo2 : Db := after_ok (Register demo_pem demo_key demo1 "m1" "pool" "key" "/dev/sda") demo1.
Definition claim_a := acquire_update demo2 "pool" "capi-a".
Definition demo3 : Db := after_ok claim_a demo2.
Definition releasing := Transition demo3 (host_of claim_a) Releasing "".
Definition demo4 : Db := after_ok releasing demo3.
Definition demo5 : Db := after_ok (CompleteRelease demo4 (host_of releasing)) demo4.
Definition demo6 : Db := after_ok (acquire_update demo5 "pool" "capi-b") demo5.

Local Abbreviation dstep := (bm_step demo_pem demo_key).
Lemma demo_s1 : dstep (mkDb ∅ ∅) demo1.
Proof. apply (st_machine _ _ _ demo_machine). vm_compute. reflexivity. Qed.
Lemma demo_s2 : dstep demo1 demo2.
Proof. eapply (st_register _ _ _ "m1" "pool" "key" "/dev/sda"). vm_compute. reflexivity. Qed.
Lemma demo_s3 : dstep demo2 demo3.
Proof. eapply (st_acquire _ _ _ "pool" "capi-a"); vm_compute; reflexivity. Qed.
Lemma demo_s4 : dstep demo3 demo4.
Proof. eapply (st_transition _ _ _ (host_of claim_a) Releasing). vm_compute. reflexivity. Qed.
Lemma demo_s5 : dstep demo4 demo5.
Proof. eapply (st_release _ _ _ (host_of releasing)). vm_compute. reflexivity. Qed.
Lemma demo_s6 : dstep demo5 demo6.
Proof. eapply (st_acquire _ _ _ "pool" "capi-b"); vm_compute; reflexivity. Qed.
Lemma demo_run3 : rtc dstep (mkDb ∅ ∅) demo3.
Proof. eauto using rtc_l, rtc_refl, demo_s1, demo_s2, demo_s3. Qed.

Lemma bare_metal_consistent_witness : db_ok demo6 ∧ match db_hosts demo6 !! "m1" with Some h => h_Owner h | None => "" end = "capi-b".
Proof.
  split; [|vm_compute; reflexivity]. apply (bare_metal_consistent demo_pem demo_key).
  etrans; [exact demo_run3|]. eauto using rtc_l, rtc_refl, demo_s4, demo_s5, demo_s6.
Defined.

(** Two requests hold the claim's first copy; the second one is refused, also after the
    host was released and claimed by someone else. *)
Lemma claim_used_once_witness : CompleteRelease demo6 (host_of claim_a) = Err ErrConflict
  ∧ ∀ next a, Transition demo6 (host_of claim_a) next a = Err ErrConflict ∨ ∃ e, ValidateTransition (host_of claim_a) next a = Err e.
Proof.
  destruct (claim_used_once demo_pem demo_key demo3 demo4 demo6 (host_of claim_a)) as (H1 & H2 & _); [| | | |by split].
  - exact (bm_run_ok _ _ _ _ demo_run3 empty_ok).
  - eapply (Transition_fenced demo3 (host_of claim_a) Releasing ""). vm_compute. reflexivity.
  - exact demo_s4.
  - eapply rtc_l; [split; [exact demo_s5|vm_compute; eauto]|]. eapply rtc_l; [split; [exact demo_s6|vm_compute; eauto]|]. apply rtc_refl.
Defined.

Lemma owner_changes_by_release_witness :
  ∃ mid hm, rtc (step_with demo_pem demo_key "m1") demo3 mid ∧ db_hosts mid !! "m1" = Some hm ∧ h_State hm = Releasing ∧ h_Owner hm = "capi-a".
Proof.
  destruct (owner_changes_by_release demo_pem demo_key demo3 demo6 "m1" (host_of claim_a) (host_of (acquire_update demo5 "pool" "capi-b")))
    as (mid & hm & free & hf & R & Hm & Hs & Ho & _); [| | | | | |by exists mid, hm].
  - exact (bm_run_ok _ _ _ _ demo_run3 empty_ok).
  - eapply rtc_l; [split; [exact demo_s4|vm_compute; eauto]|]. eapply rtc_l; [split; [exact demo_s5|vm_compute; eauto]|].
    eapply rtc_l; [split; [exact demo_s6|vm_compute; eauto]|]. apply rtc_refl.
  - vm_compute. reflexivity.
  - vm_compute. reflexivity.
  - vm_compute. discriminate.
  - vm_compute. discriminate.
Defined.
