(* ===== verification/BareMetalApi.v ===== *)
(** * infra/api/baremetal*.go: the handlers of bare-metal hosts and claims

    The requests of the cluster provider and of administrators over the tables of
    BareMetal.v.  A handler is a sequence of statements; before each of them the other
    users of the tables may have run any of theirs, and a statement may fail in the
    database.  A power cycle of a host ([startRedeployPowerCycle], a goroutine) is an
    entry of a log. *)
From S2P Require Import Prelude GoStrings GoPath GoCrypto Resource Power Store OsImage Machine BareMetal ApiResource.

(** [strings.Cut] at a byte: before and after its first occurrence, all and nothing
    when there is none. *)
Fixpoint cut_bytes (l : bytes) (c : ascii) : bytes * bytes :=
  match l with
  | [] => ([], [])
  | b :: l => if b ==? c then ([], l) else let '(x, y) := cut_bytes l c in (b :: x, y)
  end.
Definition Cut (s : string) (c : ascii) : string * string :=
  let '(x, y) := cut_bytes (to_bytes s) c in (of_bytes x, of_bytes y).

(** ** Answers *)

Inductive reply_body : Type := RHost (h : Host) | RError (msg : string) | REmpty.
Record Reply := mkReply { rl_Status : Z; rl_Body : reply_body }.
Definition json_error (status : Z) (msg : string) : Reply := mkReply status (RError msg).
Definition unavailable : Reply := mkReply 503 REmpty.

Definition bareMetalError (e : error) : Reply :=
  if errors_Is e ErrHostNotFound then json_error 404 (Error e)
  else if errors_Is e ErrConflict || errors_Is e ErrCapacity then json_error 409 (Error e)
  else json_error 500 "bare-metal storage operation failed".

(** ** The server and the state of a handler *)

Record AuditCall := mkAuditCall {
  ac_machine : string; ac_action : string; ac_result : string; ac_message : string; ac_details : gmap string string }.

(** Whether the store of hosts is configured; what the lookups of images and of
    cloud-init templates (their delivery mode) answer, when those services are there;
    the provisioning timeout and the user of the request. *)
Record BmServer := mkBmServer {
  bs_bareMetal : bool;
  bs_osimages : option (string → result OSImage);
  bs_cloudInits : option (string → result string);
  bs_provisionTimeout : Duration;
  bs_user : string }.

(** The world around a request, by the number of the step: the others' statements, a
    failure of the database, the clock, and the random source. *)
Record BmEnv := mkBmEnv {
  be_others : nat → Db → Db; be_fault : nat → option error; be_clock : nat → Time; be_read : nat → nat → nat → result bytes }.

(** The machine as it was, as it was committed, and the address to shut it down at. *)
Record PowerCycle := mkPowerCycle { cy_original : Machine; cy_machine : Machine; cy_fallbackIP : string }.

Record BmState := mkBmState { bt_tick : nat; bt_db : Db; bt_audit : list AuditCall; bt_cycles : list PowerCycle }.
Global Instance BmState_fields : Fields BmState := fpure mkBmState <*> bt_tick <*> bt_db <*> bt_audit <*> bt_cycles.

(** A handler computes a value or answers. *)
Definition B (A : Type) : Type := BmState → BmState * (A + Reply).
Global Instance B_ret : MRet B := fun A a st => (st, inl a).
Global Instance B_bind : MBind B := fun A C f m st => match m st with (st, inl a) => f a st | (st, inr r) => (st, inr r) end.
Definition reply {A} (r : Reply) : B A := fun st => (st, inr r).
Definition or_reply {A} (f : error → Reply) (r : result A) : B A := match r with Ok a => mret a | Err e => reply (f e) end.

Section handlers.
Context (pemDecode : string → option (string * bytes * string)) (parsePKIX : bytes → result (option Z)).
Context (decodeEnvelope : bytes → option (Envelope * bool)) (decode64 : string → option bytes).
Context (env : BmEnv) (sv : BmServer).

(** One statement: the others' first, then this one, unless the database fails. *)
Definition stmt {A} (f : Db → result (Db * A)) : B (result A) := fun st =>
  let k := bt_tick st in
  let db := be_others env k (bt_db st) in
  match match be_fault env k with Some e => Err e | None => f db end with
  | Ok (db', a) => (mkBmState (S k) db' (bt_audit st) (bt_cycles st), inl (Ok a))
  | Err e => (mkBmState (S k) db (bt_audit st) (bt_cycles st), inl (Err e))
  end.
Definition query {A} (f : Db → result A) : B (result A) := stmt (fun db => a ← f db; Ok (db, a)).

Definition bare_Get (name : string) : B (result Host) := query (fun db => Get db name).
Definition bare_FindOwner (owner : string) : B (result Host) := query (fun db => FindOwner db owner).
Definition bare_Transition (h : Host) (next : State) (attempt : string) : B (result Host) := stmt (fun db => Transition db h next attempt).
Definition bare_CompleteRelease (h : Host) : B (result Host) := stmt (fun db => CompleteRelease db h).
Definition bare_CommitDeployment (h : Host) (m : Machine) : B (result Host) := stmt (fun db => CommitDeployment db h m).
Definition machines_Get (name : string) : B (result Machine) := query (fun db => mem_get (db_machines db) name).

(** Acquire is three statements. *)
Definition bare_Acquire (pool owner : string) : B (result Host) := fun st =>
  let k := bt_tick st in
  match be_fault env k with
  | Some e => (mkBmState (k + 3) (be_others env k (bt_db st)) (bt_audit st) (bt_cycles st), inl (Err e))
  | None => let '(db, r) := Acquire (fun i => be_others env (k + i)%nat) (bt_db st) pool owner in
            (mkBmState (k + 3) db (bt_audit st) (bt_cycles st), inl r)
  end.

Definition audit (name action msg : string) (details : gmap string string) : B unit := fun st =>
  (st <| bt_audit := bt_audit st ++ [mkAuditCall name action "success" msg details] |>, inl tt).
Definition startRedeployPowerCycle (original m : Machine) (ip : string) : B unit := fun st =>
  (mkBmState (bt_tick st) (bt_db st) (bt_audit st) (bt_cycles st ++ [mkPowerCycle original m ip]), inl tt).

(** [machine.PrepareReinstall] with what the step draws. *)
Definition prepare (m : Machine) : B (result Machine) := fun st =>
  let k := bt_tick st in
  (st, inl (PrepareReinstall (be_read env k 0) (be_read env k 1) (be_read env k 2) (be_read env k 3) (be_clock env k) m (bs_user sv) None
              (bs_provisionTimeout sv))).

Definition bad_request (e : error) : Reply := json_error 400 (Error e).
Definition require (b : bool) (r : Reply) : B unit := if b then mret tt else reply r.

(** ** baremetal.go *)

Record RegisterReq := mkRegisterReq { rr_Pool : string; rr_PublicKey : string; rr_TargetDisk : string }.

Definition RegisterBareMetalHost (name : string) (body : option RegisterReq) : B Reply :=
  _ ← require (bs_bareMetal sv) unavailable;
  req ← match body with Some r => mret r | None => reply (json_error 400 "invalid body") end;
  _ ← or_reply bad_request (EnrollmentFingerprint pemDecode parsePKIX (rr_PublicKey req));
  _ ← require (IsWholeDiskPath (rr_TargetDisk req)) (json_error 400 "targetDisk must identify the installation disk");
  _ ← or_reply bad_request (ValidateRegistration name (rr_Pool req));
  existing ← bare_Get name;
  match existing with
  | Ok h =>
      if (h_Pool h !=? rr_Pool req) || (h_PublicKey h !=? rr_PublicKey req) || (h_TargetDisk h !=? rr_TargetDisk req)
      then reply (bareMetalError ErrConflict)
      else mret (mkReply 200 (RHost h))
  | Err e =>
      _ ← require (errors_Is e ErrHostNotFound) (bareMetalError e);
      m ← machines_Get name;
      m ← or_reply (fun e => if errors_Is e ErrNotFound then json_error 404 "machine not found" else json_error 500 "cannot read machine") m;
      _ ← or_reply bad_request (ValidateHost m);
      _ ← require (negb match m_Provision m with Some p => pp_Active p | None => false end) (json_error 409 "machine is provisioning");
      h ← stmt (fun db => Register pemDecode parsePKIX db name (rr_Pool req) (rr_PublicKey req) (rr_TargetDisk req));
      h ← or_reply bareMetalError h;
      _ ← audit name "register-bare-metal-host" "host enrolled in pool" {["pool" := rr_Pool req]};
      mret (mkReply 200 (RHost h))
  end.

Definition GetBareMetalHost (name : string) : B Reply :=
  _ ← require (bs_bareMetal sv) unavailable;
  h ← bare_Get name;
  h ← or_reply bareMetalError h;
  mret (mkReply 200 (RHost h)).

Definition UpdateBareMetalHostPool (name : string) (body : option (string * Z)) : B Reply :=
  _ ← require (bs_bareMetal sv) unavailable;
  req ← match body with Some r => mret r | None => reply (json_error 400 "invalid body") end;
  let '(pool, revision) := (req : string * Z) in
  _ ← require (match ValidateRegistration name pool with Ok _ => negb (revision <=? 0) | Err _ => false end)
        (json_error 400 "pool and a positive revision are required");
  h ← stmt (fun db => UpdatePool db name pool revision);
  h ← or_reply bareMetalError h;
  _ ← audit (h_Name h) "update-bare-metal-host-pool" "host pool updated" {["pool" := h_Pool h]};
  mret (mkReply 200 (RHost h)).

(** The installation of the claim's attempt has reported its end. *)
Definition attempt_done (m : Machine) : bool :=
  match m_Provision m with
  | Some p => negb (pp_Active p) && (pp_CompletedAt p !=? None) && (m_Phase m ==? PhaseReady)
  | None => false
  end.
Definition same_attempt (m : Machine) (h : Host) : bool := match m_Provision m with Some p => pp_AttemptID p ==? h_AttemptID h | None => false end.

(** What a reading of the claim does to it; the copy of the host to answer with. *)
Definition settle_claim (h : Host) : B Host :=
  if (h_State h ==? Deploying) || (h_State h ==? Releasing) then
    m ← machines_Get (h_Name h);
    m ← or_reply bareMetalError m;
    _ ← require (same_attempt m h) (bareMetalError ErrConflict);
    if attempt_done m then
      if h_State h ==? Releasing then
        r ← bare_CompleteRelease h;
        _ ← or_reply bareMetalError r;
        reply (mkReply 404 REmpty)
      else r ← bare_Transition h Ready (h_AttemptID h); or_reply bareMetalError r
    else if m_Phase m ==? PhaseError then r ← bare_Transition h Failed (h_AttemptID h); or_reply bareMetalError r
    else mret h
  else mret h.

Definition GetBareMetalClaim (owner : string) : B Reply :=
  _ ← require (bs_bareMetal sv) unavailable;
  h ← bare_FindOwner owner;
  h ← or_reply bareMetalError h;
  h ← settle_claim h;
  m ← machines_Get (h_Name h);
  m ← or_reply bareMetalError m;
  mret (mkReply 200 (RHost (h <| h_IPAddress := m_IP m |>))).

Definition AcquireBareMetalHost (body : option (string * string)) : B Reply :=
  _ ← require (bs_bareMetal sv) unavailable;
  req ← match body with Some r => mret r | None => reply (json_error 400 "invalid body") end;
  let '(pool, owner) := (req : string * string) in
  _ ← or_reply bad_request (ValidateAcquire pool owner);
  h ← bare_Acquire pool owner;
  h ← or_reply bareMetalError h;
  _ ← audit (h_Name h) "claim-bare-metal-host" "host allocated" {["owner" := owner]};
  mret (mkReply 200 (RHost h)).

(** ** baremetal_deploy.go *)

Record DeployReq := mkDeployReq { dr_OSImageRef : string; dr_CloudInitRef : string; dr_Envelope : bytes }.

Definition zero_or (r : result string) : string := match r with Ok s => s | Err _ => "" end.

(** A claim that is already being deployed with the very same request. *)
Definition already_deployed (h : Host) (m : Machine) (req : DeployReq) (cloudInitRef : string) : bool :=
  ((h_State h ==? Deploying) || (h_State h ==? Ready))
  && match m_SealedBootstrap m with Some sb => (sb_Owner sb ==? h_Owner h) && (sb_Envelope sb ==? dr_Envelope req) | None => false end
  && (os_ImageRef (m_OSPreset m) ==? dr_OSImageRef req)
  && (ResolveCloudInitRef (m_LastDeployedCloudInitRef m) (m_CloudInitRef m) (m_CloudInitRefs m) ==? cloudInitRef).

Definition image_preset (img : OSImage) : OSPreset := mkOSPreset (oi_OSFamily img) (oi_OSVersion img) (oi_Name img) ∅.

(** The machine of the claim, set up for the image. *)
Definition deployed_machine (h : Host) (m : Machine) (img : OSImage) (req : DeployReq) (cloudInitRef : string) : Machine :=
  m <| m_TargetDisk := h_TargetDisk h |> <| m_OSPreset := image_preset img |> <| m_CloudInitRef := "" |>
    <| m_CloudInitRefs := if cloudInitRef ==? "" then [] else [cloudInitRef] |>
    <| m_LastDeployedCloudInitRef := cloudInitRef |>
    <| m_SealedBootstrap := Some (mkSealedBootstrap false (h_Owner h) (zero_or (EnrollmentFingerprint pemDecode parsePKIX (h_PublicKey h)))
                                    (dr_Envelope req)) |>.

(** [PrepareReinstall], the commit, the audit entry and the power cycle. *)
Definition commit_prepared (h : Host) (original m : Machine) (action msg : string) (details : Host → gmap string string) (cycle : bool) : B Reply :=
  m ← prepare m;
  m ← or_reply bad_request m;
  h ← bare_CommitDeployment h m;
  h ← or_reply bareMetalError h;
  _ ← audit (h_Name h) action msg (details h);
  _ ← (if cycle then startRedeployPowerCycle original m (m_IP original) else mret tt);
  mret (mkReply 202 (RHost h)).

Definition check_template (cloudInitRef : string) : B unit :=
  if cloudInitRef ==? "" then mret tt else
  match bs_cloudInits sv with
  | None => reply unavailable
  | Some get =>
      match get cloudInitRef with
      | Ok mode => require (mode ==? "") (json_error 400 "ordinary cloud-init template not found")
      | Err e => reply (if errors_Is e ErrNotFound then json_error 400 "ordinary cloud-init template not found"
                        else json_error 503 "cloud-init template lookup failed")
      end
  end.

Definition DeployBareMetalClaim (owner : string) (body : option DeployReq) : B Reply :=
  _ ← require (bs_bareMetal sv) unavailable;
  h ← bare_FindOwner owner;
  h ← or_reply bareMetalError h;
  req ← match body with Some r => mret r | None => reply (json_error 400 "invalid body") end;
  _ ← or_reply bad_request (ValidateEnvelope pemDecode parsePKIX decodeEnvelope decode64 (dr_Envelope req) h);
  let cloudInitRef := resourceID "cloudInitTemplates" (dr_CloudInitRef req) in
  _ ← check_template cloudInitRef;
  m ← machines_Get (h_Name h);
  m ← or_reply bareMetalError m;
  if h_State h !=? Claimed then
    if already_deployed h m req cloudInitRef then mret (mkReply 202 (RHost h)) else reply (bareMetalError ErrConflict)
  else
  get ← match bs_osimages sv with Some get => mret get | None => reply unavailable end;
  img ← or_reply (fun _ => json_error 400 "OS image not found") ((get : string → result OSImage) (dr_OSImageRef req));
  _ ← or_reply bad_request (ValidateImage m img);
  commit_prepared h m (deployed_machine h m img req cloudInitRef) "deploy-bare-metal-claim" "sealed deployment committed"
    (fun h => {["owner" := h_Owner h; "attemptID" := h_AttemptID h]}) true.

(** [m.Provision.Artifacts["imageApplied"] == "true"]: the installer has restored the
    host's identity to its disk. *)
Definition identity_restored (m : Machine) : bool :=
  match m_Provision m with Some p => default "" (pp_Artifacts p !! "imageApplied") ==? "true" | None => false end.

Definition cleanup_machine (h : Host) (m : Machine) : Machine :=
  m <| m_TargetDisk := h_TargetDisk h |>
    <| m_SealedBootstrap := Some (mkSealedBootstrap true (h_Owner h) (zero_or (EnrollmentFingerprint pemDecode parsePKIX (h_PublicKey h))) []) |>
    <| m_CloudInitRef := "" |> <| m_CloudInitRefs := [] |> <| m_LastDeployedCloudInitRef := "" |>.

(** A claim that was never deployed is released at once. *)
Definition release_claimed (h : Host) : B Reply :=
  h ← bare_Transition h Releasing "";
  h ← or_reply bareMetalError h;
  r ← bare_CompleteRelease h;
  _ ← or_reply bareMetalError r;
  mret (mkReply 204 REmpty).

Definition DeleteBareMetalClaim (owner : string) : B Reply :=
  _ ← require (bs_bareMetal sv) unavailable;
  h ← bare_FindOwner owner;
  h ← or_reply (fun e => if errors_Is e ErrHostNotFound then mkReply 204 REmpty else bareMetalError e) h;
  if h_State h ==? Releasing then mret (mkReply 202 (RHost h)) else
  if h_State h ==? Claimed then release_claimed h else
  m ← machines_Get (h_Name h);
  m ← or_reply bareMetalError m;
  if negb (identity_restored m) then
    if match m_Provision m with Some p => pp_Active p | None => false end then mret (mkReply 202 (RHost h))
    else reply (json_error 409 "disk identity restoration is unconfirmed; recover the installer before rebooting")
  else if match m_SealedBootstrap m with Some sb => sb_Cleanup sb | None => false end && ((h_State h ==? Failed) || (m_Phase m ==? PhaseError))
  then reply (json_error 409 "failed physical cleanup requires explicit recovery")
  else commit_prepared h m (cleanup_machine h m) "release-bare-metal-claim" "OS reset started; host remains allocated until completion"
         (fun h => {["owner" := h_Owner h]}) true.

(** ** baremetal_retry.go and baremetal_unregister.go *)

Record RetryReq := mkRetryReq { rt_AttemptID : string; rt_OSImageRef : string; rt_PowerCycle : option bool }.

(** The attempt the administrator names is the claim's and the machine's, and the
    sealed bootstrap is the owner's. *)
Definition names_attempt (h : Host) (m : Machine) (attempt : string) : bool :=
  (h_AttemptID h ==? attempt)
  && match m_Provision m with Some p => pp_AttemptID p ==? attempt | None => false end
  && match m_SealedBootstrap m with Some sb => sb_Owner sb ==? h_Owner h | None => false end.
Definition prov_active (m : Machine) : bool := match m_Provision m with Some p => pp_Active p | None => false end.
Definition retryable (h : Host) (m : Machine) : bool :=
  let failed := (h_State h ==? Failed) && negb (prov_active m) && (m_Phase m ==? PhaseError) in
  let postInstall := (h_State h ==? Deploying) && prov_active m && (m_Phase m ==? PhaseProvisioning) && identity_restored m in
  (failed || postInstall) && identity_restored m.

Definition RetryBareMetalClaim (owner : string) (body : option RetryReq) : B Reply :=
  get ← match bs_osimages sv with Some get => if bs_bareMetal sv then mret get else reply unavailable | None => reply unavailable end;
  req ← match body with
        | Some r => if rt_AttemptID r ==? "" then reply (json_error 400 "the failed attemptID is required") else mret r
        | None => reply (json_error 400 "the failed attemptID is required")
        end;
  h ← bare_FindOwner owner;
  h ← or_reply bareMetalError h;
  m ← machines_Get (h_Name h);
  m ← or_reply bareMetalError m;
  _ ← require (names_attempt h m (rt_AttemptID req)) (bareMetalError ErrConflict);
  _ ← require (retryable h m) (bareMetalError ErrConflict);
  let imageRef := if rt_OSImageRef req !=? "" then resourceID "osImages" (rt_OSImageRef req) else os_ImageRef (m_OSPreset m) in
  img ← or_reply (fun _ => json_error 400 "OS image not found") ((get : string → result OSImage) imageRef);
  _ ← or_reply bad_request (ValidateImage m img);
  let powerCycle := default true (rt_PowerCycle req) in
  commit_prepared h m (m <| m_OSPreset := image_preset img |>) "retry-bare-metal-claim" "administrator retried a failed sealed deployment"
    (fun h => {["owner" := h_Owner h; "previousAttemptID" := rt_AttemptID req; "attemptID" := h_AttemptID h;
                "powerCycle" := if powerCycle then "true" else "false"]}) powerCycle.

Definition UnregisterBareMetalHost (name : string) (body : option Z) : B Reply :=
  _ ← require (bs_bareMetal sv) unavailable;
  revision ← match body with
             | Some r => if r <=? 0 then reply (json_error 400 "a positive revision is required") else mret r
             | None => reply (json_error 400 "a positive revision is required")
             end;
  h ← bare_Get name;
  _ ← or_reply (fun e => if errors_Is e ErrHostNotFound then mkReply 204 REmpty else bareMetalError e) h;
  r ← stmt (fun db => db ← Unregister db name revision; Ok (db, tt));
  _ ← or_reply bareMetalError r;
  _ ← audit name "unregister-bare-metal-host" "unallocated host enrollment removed; machine retained" ∅;
  mret (mkReply 204 REmpty).

(** ** What the others do *)

(** Any statements of BareMetal.v, except that no host is removed. *)
Definition keep_step (a b : Db) : Prop := bm_step pemDecode parsePKIX a b ∧ ∀ n, is_Some (db_hosts a !! n) → is_Some (db_hosts b !! n).

Lemma keep_ok a b : rtc keep_step a b → db_ok a → db_ok b.
Proof. intros Hr. apply (bm_run_ok pemDecode parsePKIX). eapply rtc_subrel; [|exact Hr]. by intros x y []. Qed.

(** While a request runs, the others may execute any statements: also the removal of
    hosts, as long as nobody enrols a host anew, before the request is over, under the
    name of one that was removed.  [gone] has the names that may be removed. *)
Context (gone : gset string).
Definition steady_step (a b : Db) : Prop :=
  bm_step pemDecode parsePKIX a b
  ∧ (∀ n, n ∉ gone → is_Some (db_hosts a !! n) → is_Some (db_hosts b !! n))
  ∧ (∀ n, n ∈ gone → is_Some (db_hosts b !! n) → is_Some (db_hosts a !! n)).
Definition others_steady : Prop := ∀ k db, rtc steady_step db (be_others env k db).

Lemma steady_ok a b : rtc steady_step a b → db_ok a → db_ok b.
Proof. intros Hr. apply (bm_run_ok pemDecode parsePKIX). eapply rtc_subrel; [|exact Hr]. by intros x y []. Qed.
(** A host that is there in the end was there all the time. *)
Lemma steady_back a b n : rtc steady_step a b → n ∈ gone → is_Some (db_hosts b !! n) → is_Some (db_hosts a !! n).
Proof. intros H Hn. induction H as [|a b c (_ & _ & Hk) _ IH]; intros Hc; [done|]. by apply Hk, IH. Qed.
Lemma steady_keeps a b n : rtc steady_step a b → n ∉ gone → is_Some (db_hosts a !! n) → is_Some (db_hosts b !! n).
Proof. intros H Hn. induction H as [|a b c (_ & Hk & _) _ IH]; intros Ha; [done|]. by apply IH, Hk. Qed.
Lemma steady_run a b n : rtc steady_step a b → is_Some (db_hosts a !! n) → is_Some (db_hosts b !! n) → rtc (step_with pemDecode parsePKIX n) a b.
Proof.
  induction 1 as [|a b c Hab Hbc IH]; intros Ha Hc; [done|]. assert (is_Some (db_hosts b !! n)) as Hb.
  { destruct (decide (n ∈ gone)) as [Hn|Hn]; [by eapply steady_back|]. apply (steady_keeps a b n); [by apply rtc_once|done|done]. }
  eapply rtc_l; [by split; [apply Hab|]|]. by apply IH.
Qed.

(** A host read before and a row behind its fence now: nothing has happened to it in
    between. *)
Lemma fence_unchanged a b c h row n : db_ok a → rtc steady_step a b → rtc steady_step b c → db_hosts a !! n = Some h →
  h_Name h = n → fenced_row c h = Some row → db_hosts b !! n = Some h ∧ row = h.
Proof.
  intros Ha Hab Hbc Hh Hn Hf. apply fenced_row_spec in Hf as (Hrow & _ & _ & Hrev & _). rewrite Hn in Hrow.
  pose proof (mk_is_Some _ _ Hh) as Sa. pose proof (mk_is_Some _ _ Hrow) as Sc. assert (is_Some (db_hosts b !! n)) as Sb.
  { destruct (decide (n ∈ gone)) as [Hn'|Hn']; [by eapply steady_back|by eapply steady_keeps]. }
  destruct (revision_grows _ _ n a b (steady_run _ _ _ Hab Sa Sb) Ha h Hh) as (Hb & h1 & Hh1 & H1).
  destruct (revision_grows _ _ n b c (steady_run _ _ _ Hbc Sb Sc) Hb h1 Hh1) as (_ & h2 & Hh2 & H2).
  rewrite Hrow in Hh2. injection Hh2 as ->. destruct H1 as [->|H1], H2 as [->|H2]; try lia. done.
Qed.

(** ** Running handlers *)

Lemma bind_inv {A C} (m : B A) (f : A → B C) st st' r : (m ≫= f) st = (st', r) →
  (∃ st1 a, m st = (st1, inl a) ∧ f a st1 = (st', r)) ∨ (∃ r0, m st = (st', inr r0) ∧ r = inr r0).
Proof.
  unfold mbind, B_bind. destruct (m st) as [st1 [a|r0]]; [intros H; left; by exists st1, a|intros [= <- <-]; right; by exists r0].
Qed.

(** A statement's effect: the others' statements, and its own when it succeeded. *)
Lemma stmt_inv {A} (f : Db → result (Db * A)) st st' o : stmt f st = (st', o) →
  ∃ db, db = be_others env (bt_tick st) (bt_db st) ∧ bt_audit st' = bt_audit st ∧ bt_cycles st' = bt_cycles st
  ∧ ((∃ a, o = inl (Ok a) ∧ f db = Ok (bt_db st', a)) ∨ (∃ e, o = inl (Err e) ∧ bt_db st' = db)).
Proof.
  unfold stmt. set (db := be_others _ _ _). destruct (be_fault env (bt_tick st)) as [e|]; [intros [= <- <-]; exists db; naive_solver|].
  destruct (f db) as [[db' a]|e] eqn:E; intros [= <- <-]; exists db; naive_solver.
Qed.

Lemma query_inv {A} (f : Db → result A) st st' o : query f st = (st', o) →
  bt_db st' = be_others env (bt_tick st) (bt_db st) ∧ bt_cycles st' = bt_cycles st
  ∧ ((∃ a, o = inl (Ok a) ∧ f (bt_db st') = Ok a) ∨ (∃ e, o = inl (Err e))).
Proof.
  unfold query. intros H. apply stmt_inv in H as (db & -> & _ & Hc & H). destruct H as [(a & -> & H)|(e & -> & H)].
  - destruct (f _) as [a'|] eqn:E; [|done]. injection H as H1 <-. rewrite <- H1. split_and!; [done|done|left; by exists a'].
  - split_and!; [done|done|right; by exists e].
Qed.

Lemma FindOwner_found db owner h : mem_ok (db_hosts db) → FindOwner db owner = Ok h →
  db_hosts db !! h_Name h = Some h ∧ h_Owner h = owner ∧ owner ≠ "".
Proof.
  intros Hk. unfold FindOwner. destruct (List.find _ _) as [h0|] eqn:E; [|done]. intros [= ->].
  apply find_some in E as [Hin Hh]. apply list_elem_of_In, elem_of_mem_values in Hin; [|done]. split; [done|].
  unfold owned_by in Hh. rewrite andb_true_iff, negb_true_iff, bool_decide_eq_true, bool_decide_eq_false in Hh. destruct Hh as [Hh <-]. done.
Qed.

(** The claim a handler works on: read at [a], and its machine at the state [st]. *)
Definition claim_read (owner : string) (st0 : BmState) (h : Host) (m : Machine) (st : BmState) : Prop :=
  ∃ a, db_ok a ∧ rtc steady_step (bt_db st0) a ∧ rtc steady_step a (bt_db st) ∧ db_hosts a !! h_Name h = Some h ∧ h_Owner h = owner ∧ owner ≠ ""
  ∧ db_machines (bt_db st) !! h_Name h = Some m ∧ bt_cycles st = bt_cycles st0.

(** A power cycle: the log has one more entry, for a commit that has been made on the
    row the handler had read, and the machine is one that was stored while the host
    was in that state. *)
Definition safe_cycle (owner : string) (st st' : BmState) : Prop :=
  ∃ h h' orig m d0 dC, bt_cycles st' = bt_cycles st ++ [mkPowerCycle orig m (m_IP orig)]
  ∧ rtc steady_step (bt_db st) d0 ∧ rtc steady_step d0 dC ∧ db_hosts d0 !! h_Name h = Some h ∧ db_hosts dC !! h_Name h = Some h ∧ h_Owner h = owner
  ∧ db_machines d0 !! h_Name h = Some orig ∧ CommitDeployment dC h m = Ok (bt_db st', h')
  ∧ (h_AttemptID h ≠ "" → attempt_of orig = h_AttemptID h ∧ identity_restored orig = true).

Lemma commit_prepared_inv h orig m0 action msg details cycle st st' r :
  commit_prepared h orig m0 action msg details cycle st = (st', r) →
  bt_cycles st' = bt_cycles st ∨ ∃ m h', CommitDeployment (be_others env (bt_tick st) (bt_db st)) h m = Ok (bt_db st', h')
    ∧ bt_cycles st' = bt_cycles st ++ [mkPowerCycle orig m (m_IP orig)].
Proof.
  unfold commit_prepared. intros H. apply bind_inv in H as [(s1 & pm & H1 & H)|(r0 & H1 & _)]; [|discriminate]. injection H1 as <- <-.
  set (pm := PrepareReinstall _ _ _ _ _ _ _ _ _) in H. destruct pm as [m|e]; [|injection H as <- <-; by left].
  cbn [or_reply] in H. apply bind_inv in H as [(s1 & m' & [= <- <-] & H)|(r0 & H1 & _)]; [|discriminate].
  apply bind_inv in H as [(s1 & o & H1 & H)|(r0 & H1 & _)]; [|].
  - apply stmt_inv in H1 as (db & -> & _ & Hc & [(h' & [= ->] & Hcm)|(e & [= ->] & _)]); [|injection H as <- <-; by left].
    apply bind_inv in H as [(s2 & x & [= <- <-] & H)|(r0 & H1 & _)]; [|discriminate].
    apply bind_inv in H as [(s2 & x & [= <- <-] & H)|(r0 & H1 & _)]; [|discriminate].
    apply bind_inv in H as [(s2 & x & H1 & H)|(r0 & H1 & _)]; [|by destruct cycle].
    destruct cycle; injection H1 as <-; injection H as <- <-; [|left; exact Hc]. right. exists m, h'. cbn. by rewrite Hc.
  - apply stmt_inv in H1 as (db & -> & _ & Hc & [(h' & ? & _)|(e & ? & _)]); discriminate.
Qed.

Lemma commit_safe owner st0 st1 st' r h orig m0 action msg details cycle : others_steady → claim_read owner st0 h orig st1 →
  (h_AttemptID h ≠ "" → identity_restored orig = true) → commit_prepared h orig m0 action msg details cycle st1 = (st', r) →
  bt_cycles st' = bt_cycles st0 ∨ safe_cycle owner st0 st'.
Proof.
  intros Henv (a & Ha & R0 & R1 & Hh & Ho & Hne & Hm & Hc) Hid H. apply commit_prepared_inv in H as [H|(m & h' & Hcm & Hcy)]; [left; congruence|].
  right. pose proof (Henv (bt_tick st1) (bt_db st1)) as R2.
  assert (∃ row, fenced_row (be_others env (bt_tick st1) (bt_db st1)) h = Some row) as [row Hf].
  { apply CommitDeployment_fenced in Hcm as (row & _ & Hf & _). by exists row. }
  destruct (fence_unchanged _ _ _ _ _ _ Ha R1 R2 Hh eq_refl Hf) as [Hh1 ->]. apply fenced_row_spec in Hf as (HhC & _).
  exists h, h', orig, m, (bt_db st1), (be_others env (bt_tick st1) (bt_db st1)). rewrite <- Hc.
  split_and!; try done; [by etrans|]. intros Hat. split; [|by apply Hid].
  destruct (ok_attempt _ (steady_ok _ _ R1 Ha) _ _ Hh1) as (m1 & Hm1 & <-); [congruence|done|]. rewrite Hm in Hm1. by injection Hm1 as ->.
Qed.

(** [x, err := statement; if err != nil { return ... }] *)
Lemma checked_inv {A C} (f : Db → result (Db * A)) (g : error → Reply) (k : A → B C) st st' r :
  (x ← stmt f; x ← or_reply g x; k x) st = (st', r) →
  (∃ e, r = inr (g e) ∧ bt_cycles st' = bt_cycles st ∧ bt_db st' = be_others env (bt_tick st) (bt_db st))
  ∨ ∃ st1 a, bt_cycles st1 = bt_cycles st ∧ f (be_others env (bt_tick st) (bt_db st)) = Ok (bt_db st1, a) ∧ k a st1 = (st', r).
Proof.
  intros H. apply bind_inv in H as [(s1 & o & H1 & H)|(r0 & H1 & _)].
  - apply stmt_inv in H1 as (db & -> & _ & Hc & [(a & [= ->] & Ha)|(e & [= ->] & He)]).
    + apply bind_inv in H as [(s2 & a' & [= <- <-] & H)|(r0 & H1 & _)]; [|discriminate]. right. by exists s1, a.
    + apply bind_inv in H as [(s2 & a' & H1 & H)|(r0 & [= <- <-] & ->)]; [discriminate|]. left. by exists e.
  - apply stmt_inv in H1 as (db & -> & _ & Hc & [(a & ? & _)|(e & ? & _)]); discriminate.
Qed.

Lemma query_checked_inv {A C} (f : Db → result A) (g : error → Reply) (k : A → B C) st st' r :
  (x ← query f; x ← or_reply g x; k x) st = (st', r) →
  (∃ e, r = inr (g e) ∧ bt_cycles st' = bt_cycles st ∧ bt_db st' = be_others env (bt_tick st) (bt_db st))
  ∨ ∃ st1 a, bt_cycles st1 = bt_cycles st ∧ bt_db st1 = be_others env (bt_tick st) (bt_db st) ∧ f (bt_db st1) = Ok a ∧ k a st1 = (st', r).
Proof.
  intros H. apply checked_inv in H as [H|(st1 & a & Hc & Hf & H)]; [by left|]. right. exists st1, a.
  destruct (f _) as [a'|] eqn:E; [|done]. injection Hf as Hd <-. rewrite <- Hd. done.
Qed.

Lemma require_inv {C} b g (k : unit → B C) st st' r : (x ← require b g; k x) st = (st', r) →
  (b = false ∧ st' = st ∧ r = inr g) ∨ (b = true ∧ k tt st = (st', r)).
Proof. destruct b; intros H; [by right|]. injection H as <- <-. by left. Qed.
Lemma or_inv {A C} (x : result A) g (k : A → B C) st st' r : (y ← or_reply g x; k y) st = (st', r) →
  (∃ e, x = Err e ∧ st' = st ∧ r = inr (g e)) ∨ (∃ a, x = Ok a ∧ k a st = (st', r)).
Proof. destruct x; intros H; [right; eauto|]. injection H as <- <-. left. eauto. Qed.

(** The prefix the handlers of a claim share. *)
Lemma find_claim_inv {C} owner g (k : Host → B C) st st' r : others_steady → db_ok (bt_db st) →
  (h ← bare_FindOwner owner; h ← or_reply g h; k h) st = (st', r) →
  (∃ e, r = inr (g e) ∧ bt_cycles st' = bt_cycles st ∧ rtc steady_step (bt_db st) (bt_db st'))
  ∨ ∃ st1 h, bt_cycles st1 = bt_cycles st ∧ rtc steady_step (bt_db st) (bt_db st1) ∧ db_ok (bt_db st1) ∧ db_hosts (bt_db st1) !! h_Name h = Some h
      ∧ h_Owner h = owner ∧ owner ≠ "" ∧ k h st1 = (st', r).
Proof.
  intros Henv Hok H. apply query_checked_inv in H as [(e & -> & Hc & Hd)|(st1 & h & Hc & Hd & Hf & H)].
  - left. exists e. split_and!; [done|done|]. rewrite Hd. apply Henv.
  - right. assert (R : rtc steady_step (bt_db st) (bt_db st1)) by (rewrite Hd; apply Henv). pose proof (steady_ok _ _ R Hok) as Hok1.
    destruct (FindOwner_found _ _ _ (ok_keys _ Hok1) Hf) as (Hh & Ho & Hne). by exists st1, h.
Qed.

Lemma get_machine_inv {C} owner st0 st1 h g (k : Machine → B C) st' r : others_steady → db_ok (bt_db st1) → rtc steady_step (bt_db st0) (bt_db st1) →
  bt_cycles st1 = bt_cycles st0 → db_hosts (bt_db st1) !! h_Name h = Some h → h_Owner h = owner → owner ≠ "" →
  (m ← machines_Get (h_Name h); m ← or_reply g m; k m) st1 = (st', r) →
  (∃ e, r = inr (g e) ∧ bt_cycles st' = bt_cycles st0) ∨ ∃ st2 m, claim_read owner st0 h m st2 ∧ k m st2 = (st', r).
Proof.
  intros Henv Hok R Hc Hh Ho Hne H. apply query_checked_inv in H as [(e & -> & Hc' & _)|(st2 & m & Hc' & Hd & Hm & H)].
  - left. exists e. split; congruence.
  - right. exists st2, m. split; [|done]. apply mem_get_Ok in Hm. exists (bt_db st1). split_and!; try done; [rewrite Hd; apply Henv|congruence].
Qed.

(** *** When a host is power-cycled *)

Lemma release_claimed_quiet h st st' r : release_claimed h st = (st', r) → bt_cycles st' = bt_cycles st.
Proof.
  intros H. apply checked_inv in H as [(e & -> & Hc & _)|(s1 & h1 & Hc & _ & H)]; [done|].
  apply checked_inv in H as [(e & -> & Hc2 & _)|(s2 & h2 & Hc2 & _ & H)]; [congruence|]. injection H as <- <-. congruence.
Qed.

Lemma delete_safe owner st st' r : others_steady → db_ok (bt_db st) → DeleteBareMetalClaim owner st = (st', r) →
  bt_cycles st' = bt_cycles st ∨ safe_cycle owner st st'.
Proof.
  intros Henv Hok H. apply require_inv in H as [(_ & -> & _)|[_ H]]; [by left|].
  apply find_claim_inv in H as [(e & -> & Hc & _)|(s1 & h & Hc & R & Hok1 & Hh & Ho & Hne & H)]; [by left| |done|done].
  destruct (bool_decide (h_State h = Releasing)); [injection H as <- <-; by left|].
  destruct (bool_decide (h_State h = Claimed)) eqn:Ecl; [apply release_claimed_quiet in H; left; congruence|].
  eapply get_machine_inv in H as [(e & -> & Hc')|(s2 & m & Hcl & H)]; try eassumption; [by left|].
  assert (Hs2 : bt_cycles s2 = bt_cycles st) by (destruct Hcl as (a & Hcl); apply Hcl).
  destruct (identity_restored m) eqn:Eid; cbn [negb] in H.
  - destruct (_ && _); [injection H as <- <-; by left|]. eapply commit_safe; try eassumption. done.
  - destruct (match m_Provision m with Some p => _ | None => _ end); injection H as <- <-; by left.
Qed.

Lemma retry_safe owner body st st' r : others_steady → db_ok (bt_db st) → RetryBareMetalClaim owner body st = (st', r) →
  bt_cycles st' = bt_cycles st ∨ safe_cycle owner st st'.
Proof.
  intros Henv Hok H. unfold RetryBareMetalClaim in H. destruct (bs_osimages sv) as [get|]; [|injection H as <- <-; by left].
  destruct (bs_bareMetal sv); [|injection H as <- <-; by left]. apply bind_inv in H as [(s0 & x & [= <- <-] & H)|(r0 & H1 & _)]; [|discriminate].
  destruct body as [req|]; [|injection H as <- <-; by left]. destruct (bool_decide (rt_AttemptID req = "")); [injection H as <- <-; by left|].
  apply bind_inv in H as [(s0 & x & [= <- <-] & H)|(r0 & H1 & _)]; [|discriminate].
  apply find_claim_inv in H as [(e & -> & Hc & _)|(s1 & h & Hc & R & Hok1 & Hh & Ho & Hne & H)]; [by left| |done|done].
  eapply get_machine_inv in H as [(e & -> & Hc')|(s2 & m & Hcl & H)]; try eassumption; [by left|].
  assert (Hs2 : bt_cycles s2 = bt_cycles st) by (destruct Hcl as (a & Hcl); apply Hcl).
  apply require_inv in H as [(_ & -> & _)|[_ H]]; [by left|]. apply require_inv in H as [(_ & -> & _)|[Hre H]]; [by left|].
  apply or_inv in H as [(e & _ & -> & _)|(img & _ & H)]; [by left|]. apply or_inv in H as [(e & _ & -> & _)|(u & _ & H)]; [by left|].
  eapply commit_safe; try eassumption. intros _. unfold retryable in Hre. by apply andb_true_iff in Hre as [_ Hre].
Qed.

Lemma deploy_safe owner body st st' r : others_steady → db_ok (bt_db st) → DeployBareMetalClaim owner body st = (st', r) →
  bt_cycles st' = bt_cycles st ∨ safe_cycle owner st st'.
Proof.
  intros Henv Hok H. apply require_inv in H as [(_ & -> & _)|[_ H]]; [by left|].
  apply find_claim_inv in H as [(e & -> & Hc & _)|(s1 & h & Hc & R & Hok1 & Hh & Ho & Hne & H)]; [by left| |done|done].
  destruct body as [req|]; [|injection H as <- <-; by left].
  apply bind_inv in H as [(s0 & x & [= <- <-] & H)|(r0 & H1 & _)]; [|discriminate].
  apply or_inv in H as [(e & _ & -> & _)|(u & _ & H)]; [by left|]. cbv zeta in H.
  apply bind_inv in H as [(s0 & [] & H1 & H)|(r0 & H1 & _)]; [|unfold check_template in H1; repeat case_match; unfold require in H1; try case_match; injection H1 as <-; by left].
  assert (s0 = s1) as ->.
  { unfold check_template, require in H1. repeat case_match; first [discriminate H1|injection H1; intros; by subst]. }
  eapply get_machine_inv in H as [(e & -> & Hc')|(s2 & m & Hcl & H)]; try eassumption; [by left|].
  assert (Hs2 : bt_cycles s2 = bt_cycles st) by (destruct Hcl as (a & Hcl); apply Hcl).
  destruct (bool_decide (h_State h = Claimed)) eqn:Ecl; cbn [negb] in H; [|destruct (already_deployed _ _ _ _); injection H as <- <-; by left].
  destruct (bs_osimages sv) as [get|]; [|injection H as <- <-; by left]. apply bind_inv in H as [(s0 & x & [= <- <-] & H)|(r0 & H2 & _)]; [|discriminate].
  apply or_inv in H as [(e & _ & -> & _)|(img & _ & H)]; [by left|]. apply or_inv in H as [(e & _ & -> & _)|(u' & _ & H)]; [by left|].
  eapply commit_safe; try eassumption. intros Hat. apply bool_decide_eq_true in Ecl. destruct (ok_states _ Hok1 _ _ Hh) as (_ & Hcl0 & _).
  rewrite Ecl in Hcl0. destruct Hat. apply Hcl0. set_solver.
Qed.

(** C17: a host is power-cycled only when its identity is safe on disk.  Whatever
    statements the other users of the tables execute while a request to deploy, to
    release or to retry runs, the removal of hosts included but not the enrolment of a
    host anew under the name of one removed meanwhile, the request starts at most one
    power cycle, and
    only after its deployment has been committed on the host exactly as the request
    had read it; and if the claim had an installation attempt before, then the machine
    record it read belongs to that very attempt and says that the installer had put
    the host's identity, of which it may hold the only copy, back on disk. *)
Theorem reboot_only_when_safe (owner : string) (handler : B Reply) (st st' : BmState) (r : Reply + Reply)
  (Hhandler : (∃ body, handler = DeployBareMetalClaim owner body) ∨ handler = DeleteBareMetalClaim owner ∨ (∃ body, handler = RetryBareMetalClaim owner body))
  (Henv : others_steady) (Hok : db_ok (bt_db st)) (Hrun : handler st = (st', r)) :
  bt_cycles st' = bt_cycles st ∨ safe_cycle owner st st'.
Proof.
  destruct Hhandler as [[body ->]|[->|[body ->]]]; [by eapply deploy_safe|by eapply delete_safe|by eapply retry_safe].
Qed.

(** *** When a claim ends *)

(** The claim was released, on the row the handler had read, and if it had an
    installation attempt, after the machine had reported that attempt done. *)
Definition safe_release (owner : string) (st st' : BmState) : Prop :=
  ∃ h h' dM dC, rtc steady_step (bt_db st) dM ∧ db_ok dC ∧ db_hosts dC !! h_Name h = Some h ∧ h_Owner h = owner ∧ h_State h = Releasing
  ∧ CompleteRelease dC h = Ok (bt_db st', h') ∧ db_hosts (bt_db st') !! h_Name h = Some h' ∧ is_free h' = true
  ∧ (h_AttemptID h ≠ "" → ∃ m, rtc steady_step dM dC ∧ db_machines dM !! h_Name h = Some m ∧ attempt_of m = h_AttemptID h ∧ attempt_done m = true).

Lemma CompleteRelease_frees dC h db' h' : db_ok dC → CompleteRelease dC h = Ok (db', h') →
  db_hosts db' !! h_Name h = Some h' ∧ is_free h' = true ∧ h_State h = Releasing.
Proof.
  intros Hok. unfold CompleteRelease. destruct (_ || _) eqn:Es; [done|]. destruct (fenced_row dC h) as [row|] eqn:E; [|done]. intros [= <- <-].
  apply fenced_row_spec in E as (Hrow & _). pose proof (ok_keys _ Hok _ _ Hrow) as Hk. unfold key_of, Host_keyed in Hk.
  apply orb_false_iff in Es as [Es _]. apply negb_false_iff, bool_decide_eq_true in Es. split_and!; [|done|done].
  rewrite <- Hk. unfold put_host. cbn. apply lookup_insert_eq.
Qed.

Lemma CompleteRelease_row dC h db' h' : CompleteRelease dC h = Ok (db', h') → is_Some (fenced_row dC h).
Proof. intros H. apply CompleteRelease_fenced in H as (row & _ & -> & _). by eexists. Qed.

(** The last statement of a release, on a row nothing has happened to. *)
Lemma release_last owner st dM dC st' h h' : rtc steady_step (bt_db st) dM → db_ok dC → db_hosts dC !! h_Name h = Some h → h_Owner h = owner →
  CompleteRelease dC h = Ok (bt_db st', h') →
  (h_AttemptID h ≠ "" → ∃ m, rtc steady_step dM dC ∧ db_machines dM !! h_Name h = Some m ∧ attempt_of m = h_AttemptID h ∧ attempt_done m = true) →
  safe_release owner st st'.
Proof.
  intros R Hok Hh Ho Hrel Hm. destruct (CompleteRelease_frees _ _ _ _ Hok Hrel) as (H1 & H2 & H3). by exists h, h', dM, dC.
Qed.

Lemma bareMetalError_body e : bareMetalError e ≠ mkReply 404 REmpty.
Proof. unfold bareMetalError. repeat case_match; discriminate. Qed.

Lemma tail_checked_inv {A} (f : Db → result (Db * A)) g st st' x : (r ← stmt f; or_reply g r) st = (st', inr x) → ∃ e, x = g e.
Proof.
  intros H. apply bind_inv in H as [(s1 & o & _ & H)|(r0 & H & _)].
  - destruct o as [a|e]; [discriminate|]. injection H as _ <-. by exists e.
  - apply stmt_inv in H as (db & _ & _ & _ & [(? & ? & _)|(? & ? & _)]); discriminate.
Qed.

Lemma get_release owner st st' : others_steady → db_ok (bt_db st) → GetBareMetalClaim owner st = (st', inr (mkReply 404 REmpty)) →
  safe_release owner st st'.
Proof.
  pose proof bareMetalError_body as Hbe.
  intros Henv Hok H. apply require_inv in H as [(_ & _ & H)|[_ H]]; [discriminate|].
  apply find_claim_inv in H as [(e & [= E] & _)|(s1 & h & Hc & R & Hok1 & Hh & Ho & Hne & H)]; [by destruct (Hbe e)| |done|done].
  apply bind_inv in H as [(s2 & h2 & _ & H)|(r0 & H & [= <-])].
  { apply query_checked_inv in H as [(e & [= E] & _)|(s3 & m & _ & _ & _ & H)]; [by destruct (Hbe e)|discriminate]. }
  unfold settle_claim in H. destruct (_ || _); [|discriminate].
  eapply (get_machine_inv owner st s1) in H as [(e & [= E] & _)|(s2 & m & Hcl & H)]; try eassumption; [by destruct (Hbe e)|].
  apply require_inv in H as [(_ & _ & H)|[Hat H]]; [discriminate H|].
  destruct (attempt_done m) eqn:Ed; [|destruct (bool_decide (m_Phase m = PhaseError)); [|discriminate]; apply tail_checked_inv in H as [e H]; by destruct (Hbe e)].
  destruct (bool_decide (h_State h = Releasing)); [|apply tail_checked_inv in H as [e H]; by destruct (Hbe e)].
  apply checked_inv in H as [(e & [= E] & _)|(s3 & h' & Hc3 & Hrel & H)]; [by destruct (Hbe e)|].
  injection H as <-. destruct Hcl as (a & Ha & R1 & R2 & Hha & _ & _ & Hm & _).
  pose proof (Henv (bt_tick s2) (bt_db s2)) as R3. destruct (CompleteRelease_row _ _ _ _ Hrel) as [row Hrow].
  destruct (fence_unchanged _ _ _ _ _ _ Ha R2 R3 Hha eq_refl Hrow) as [Hh2 ->]. apply fenced_row_spec in Hrow as (HhC & _).
  eapply (release_last _ _ (bt_db s2) (be_others env (bt_tick s2) (bt_db s2))); try eassumption;
    [by etrans|exact (steady_ok _ _ R3 (steady_ok _ _ R2 Ha))|].
  intros Hne'. exists m. split_and!; try done. unfold same_attempt in Hat. unfold attempt_of. destruct (m_Provision m); [|done].
  by apply bool_decide_eq_true in Hat.
Qed.

Lemma commit_prepared_status h orig m0 action msg details cycle st st' r : commit_prepared h orig m0 action msg details cycle st = (st', r) →
  ¬ (r = inl (mkReply 204 REmpty) ∨ r = inr (mkReply 204 REmpty)).
Proof.
  assert (Hbe : ∀ e, bareMetalError e ≠ mkReply 204 REmpty) by (intros e; unfold bareMetalError; repeat case_match; discriminate).
  unfold commit_prepared. intros H Hr. apply bind_inv in H as [(s1 & pm & [= <- <-] & H)|(r0 & H & _)]; [|discriminate].
  apply or_inv in H as [(e & _ & _ & ->)|(m & _ & H)]; [destruct Hr; discriminate|].
  apply checked_inv in H as [(e & -> & _)|(s2 & h' & _ & _ & H)]; [destruct Hr as [|[= E]]; [done|by destruct (Hbe e)]|].
  destruct cycle; injection H as _ <-; destruct Hr; discriminate.
Qed.

(** A failure of the database is not the answer that there is no such row. *)
Definition faults_honest : Prop := ∀ k e, be_fault env k = Some e → errors_Is e ErrHostNotFound = false.

Lemma Transition_ok_row db h next a db' h' : db_ok db → Transition db h next a = Ok (db', h') →
  db_hosts db' !! h_Name h = Some h' ∧ h_Name h' = h_Name h ∧ h_Owner h' = h_Owner h ∧ h_AttemptID h' = a ∧ h_State h' = next.
Proof.
  intros Hok. unfold Transition. destruct (ValidateTransition _ _ _); [|done]. cbn [mbind result_bind].
  destruct (fenced_row db h) as [row|] eqn:E; [|done]. destruct (bool_decide _); [|done]. intros [= <- <-].
  apply fenced_row_spec in E as (Hrow & _ & Hro & _). pose proof (ok_keys _ Hok _ _ Hrow) as Hk. unfold key_of, Host_keyed in Hk.
  split_and!; try done. rewrite <- Hk. unfold put_host. cbn. apply lookup_insert_eq.
Qed.

Lemma not_found_for db owner h e : mem_ok (db_hosts db) → FindOwner db owner = Err e → ∀ n, db_hosts db !! n = Some h → owner ≠ "" → h_Owner h ≠ owner.
Proof. intros Hk Hf n Hh Hne. pose proof (FindOwner_spec db owner Hk Hne) as H. rewrite Hf in H. by eapply H. Qed.

Lemma release_claimed_safe owner st0 st st' h r : others_steady → rtc steady_step (bt_db st0) (bt_db st) → db_ok (bt_db st) →
  db_hosts (bt_db st) !! h_Name h = Some h → h_Owner h = owner → h_State h = Claimed → release_claimed h st = (st', r) →
  r = inl (mkReply 204 REmpty) ∨ r = inr (mkReply 204 REmpty) → safe_release owner st0 st'.
Proof.
  intros Henv R Hok Hh Ho Hst H Hr.
  assert (Hbe : ∀ e, bareMetalError e ≠ mkReply 204 REmpty) by (intros e; unfold bareMetalError; repeat case_match; discriminate).
  apply checked_inv in H as [(e & -> & _)|(s1 & h1 & _ & Ht & H)]; [destruct Hr as [|[= E]]; [done|by destruct (Hbe e)]|].
  apply checked_inv in H as [(e & -> & _)|(s2 & h2 & _ & Hrel & H)]; [destruct Hr as [|[= E]]; [done|by destruct (Hbe e)]|].
  injection H as <- _. pose proof (Henv (bt_tick st) (bt_db st)) as R1. pose proof (steady_ok _ _ R1 Hok) as Hok1.
  assert (h_AttemptID h = "") as Hat. { destruct (ok_states _ Hok _ _ Hh) as (_ & Hc & _). apply Hc. rewrite Hst. set_solver. }
  destruct (Transition_ok_row _ _ _ _ _ _ Hok1 Ht) as (Hh1 & Hn1 & Ho1 & Ha1 & Hs1).
  assert (Hok2 : db_ok (bt_db s1)). { eapply (bm_step_ok pemDecode parsePKIX); [|exact Hok1]. eapply st_transition. rewrite Hat. exact Ht. }
  pose proof (Henv (bt_tick s1) (bt_db s1)) as R2. destruct (CompleteRelease_row _ _ _ _ Hrel) as [row Hrow]. rewrite <- Hn1 in Hh1.
  destruct (fence_unchanged _ _ _ _ _ _ Hok2 (rtc_refl _ _) R2 Hh1 eq_refl Hrow) as [_ ->]. apply fenced_row_spec in Hrow as (HhC & _).
  eapply (release_last _ _ (bt_db st) (be_others env (bt_tick s1) (bt_db s1))); try eassumption; [exact (steady_ok _ _ R2 Hok2)|congruence|congruence].
Qed.

Lemma find_owner_none owner st st' o : faults_honest → bare_FindOwner owner st = (st', o) →
  bt_db st' = be_others env (bt_tick st) (bt_db st)
  ∧ ∀ e, o = inl (Err e) → errors_Is e ErrHostNotFound = true → ∃ e', FindOwner (bt_db st') owner = Err e'.
Proof.
  intros Hf. unfold bare_FindOwner, query, stmt. destruct (be_fault env (bt_tick st)) as [e|] eqn:E.
  - intros [= <- <-]. split; [done|]. intros e' [= <-] He. apply Hf in E. congruence.
  - destruct (FindOwner _ owner) as [h|e] eqn:Eo; cbn; intros [= <- <-]; (split; [done|]); intros e' [= <-] _. by exists e.
Qed.

Lemma delete_release owner st st' r : others_steady → faults_honest → db_ok (bt_db st) → DeleteBareMetalClaim owner st = (st', r) →
  r = inl (mkReply 204 REmpty) ∨ r = inr (mkReply 204 REmpty) →
  safe_release owner st st' ∨ (rtc steady_step (bt_db st) (bt_db st') ∧ ∀ n h, db_hosts (bt_db st') !! n = Some h → owner ≠ "" → h_Owner h ≠ owner).
Proof.
  intros Henv Hf Hok H Hr.
  assert (Hbe : ∀ e, bareMetalError e ≠ mkReply 204 REmpty) by (intros e; unfold bareMetalError; repeat case_match; discriminate).
  apply require_inv in H as [(_ & _ & ->)|[_ H]]; [by destruct Hr|].
  apply bind_inv in H as [(s1 & o & H1 & H)|(r0 & H1 & _)]; [|apply query_inv in H1 as (_ & _ & [(? & ? & _)|(? & ?)]); discriminate].
  pose proof (find_owner_none _ _ _ _ Hf H1) as [Hd Hnone]. pose proof (Henv (bt_tick st) (bt_db st)) as R. rewrite <- Hd in R.
  pose proof (steady_ok _ _ R Hok) as Hok1. destruct o as [h|e].
  - left. apply query_inv in H1 as (_ & Hc & [(h0 & [= <-] & Hfo)|(? & ?)]); [|discriminate].
    apply or_inv in H as [(e & ? & _)|(h1 & [= <-] & H)]; [discriminate|]. destruct (FindOwner_found _ _ _ (ok_keys _ Hok1) Hfo) as (Hh & Ho & Hne).
    destruct (bool_decide (h_State h = Releasing)); [injection H as <- <-; by destruct Hr|].
    destruct (bool_decide (h_State h = Claimed)) eqn:Ecl; [apply bool_decide_eq_true in Ecl; by eapply release_claimed_safe|exfalso].
    apply query_checked_inv in H as [(e & -> & _)|(s2 & m & _ & _ & _ & H)]; [destruct Hr as [|[= E]]; [done|by destruct (Hbe e)]|].
    destruct (negb _); [destruct (match m_Provision m with Some p => _ | None => _ end); injection H as <- <-; by destruct Hr|].
    destruct (_ && _); [injection H as <- <-; by destruct Hr|]. by apply commit_prepared_status in H.
  - right. apply or_inv in H as [(e0 & [= <-] & -> & ->)|(h1 & ? & _)]; [|discriminate].
    destruct (errors_Is e ErrHostNotFound) eqn:Ee; [|destruct Hr as [Hr|Hr]; [discriminate Hr|injection Hr; intros E; by destruct (Hbe e)]].
    split; [done|]. destruct (Hnone e eq_refl Ee) as [e' He']. intros n h Hh Hne. eapply (not_found_for _ _ _ _ (ok_keys _ Hok1)); eassumption.
Qed.

(** A claim ends only with a host that is safe to hand out.  When a request to read
    a claim answers that it is gone, or a request to delete it answers 204, the host
    has been made free in one statement on the very row the request had read, which
    was being released; if an installation had been attempted under the claim, the
    machine had reported the end of that very attempt before.  The one other case of a
    204 is that nobody holds a claim under that name. *)
Lemma claim_ends_safely (owner : string) (st st' : BmState) (r : Reply + Reply) (Henv : others_steady) (Hfaults : faults_honest) (Hok : db_ok (bt_db st))
  (Hrun : GetBareMetalClaim owner st = (st', r) ∧ r = inr (mkReply 404 REmpty)
    ∨ DeleteBareMetalClaim owner st = (st', r) ∧ (r = inl (mkReply 204 REmpty) ∨ r = inr (mkReply 204 REmpty))) :
  safe_release owner st st' ∨ (rtc steady_step (bt_db st) (bt_db st') ∧ ∀ n h, db_hosts (bt_db st') !! n = Some h → owner ≠ "" → h_Owner h ≠ owner).
Proof.
  destruct Hrun as [[H ->]|[H Hr]]; [left; by apply get_release|by eapply delete_release].
Qed.
End handlers.

(** ** A claim's end, run *)

Definition demo_read (k i n : nat) : result bytes := Ok (repeat (byte_of (Z.of_nat i)) n).
Definition alone : BmEnv := mkBmEnv (fun _ db => db) (fun _ => None) (fun _ => 0) demo_read.
Definition demo_server : BmServer := mkBmServer true None None (3600 * 1000000000) "admin".
Definition on_demo (db : Db) : BmState := mkBmState 0 db [] [].

(** The claim of [capi-a] under deployment, and the installer's report. *)
Definition installing (artifacts : gmap string string) : Machine :=
  demo_machine <| m_SealedBootstrap := Some (mkSealedBootstrap false "capi-a" "" []) |>
    <| m_Provision := Some (zero_progress <| pp_Active := true |> <| pp_AttemptID := "attempt-1" |> <| pp_CompletionToken := "t" |> <| pp_Artifacts := artifacts |>) |>.
Definition demo_deploying : Db := after_ok (CommitDeployment demo3 (host_of claim_a) (installing ∅)) demo3.
Definition demo_applied : Db := put_machine demo_deploying "m1" (installing {["imageApplied" := "true"]}).
Definition run_delete := DeleteBareMetalClaim demo_pem demo_key alone demo_server "capi-a".

Lemma alone_steady : others_steady demo_pem demo_key alone ∅.
Proof. intros k db. apply rtc_refl. Qed.
Lemma alone_honest : faults_honest alone.
Proof. intros k e [=]. Qed.

Lemma demo_applied_ok : db_ok demo_applied.
Proof.
  apply (bm_run_ok demo_pem demo_key demo3); [|exact (bm_run_ok _ _ _ _ demo_run3 empty_ok)].
  eapply rtc_l; [eapply (st_commit _ _ demo3 (host_of claim_a) (installing ∅)); vm_compute; reflexivity|].
  apply rtc_once. eapply (st_machine _ _ _ (installing {["imageApplied" := "true"]})). vm_compute. reflexivity.
Qed.

(** A release asked for once the disk is restored starts its power cycle. *)
Lemma reboot_only_when_safe_witness : bt_cycles (run_delete (on_demo demo_applied)).1 ≠ []
  ∧ safe_cycle demo_pem demo_key ∅ "capi-a" (on_demo demo_applied) (run_delete (on_demo demo_applied)).1.
Proof.
  assert (Hc : bt_cycles (run_delete (on_demo demo_applied)).1 ≠ []) by (vm_compute; discriminate). split; [exact Hc|].
  destruct (reboot_only_when_safe demo_pem demo_key (fun _ => None) (fun _ => None) alone demo_server ∅ "capi-a" run_delete (on_demo demo_applied)
    (run_delete (on_demo demo_applied)).1 (run_delete (on_demo demo_applied)).2) as [H|H]; [| | | |destruct (Hc H)|exact H].
  - right. left. reflexivity.
  - exact alone_steady.
  - exact demo_applied_ok.
  - destruct (run_delete _); reflexivity.
Defined.

(** A claim that was never deployed is given back at once. *)
Lemma claim_ends_safely_witness : (run_delete (on_demo demo3)).2 = inl (mkReply 204 REmpty)
  ∧ (safe_release demo_pem demo_key ∅ "capi-a" (on_demo demo3) (run_delete (on_demo demo3)).1
     ∨ rtc (steady_step demo_pem demo_key ∅) demo3 (bt_db (run_delete (on_demo demo3)).1)
       ∧ ∀ n h, db_hosts (bt_db (run_delete (on_demo demo3)).1) !! n = Some h → "capi-a" ≠ "" → h_Owner h ≠ "capi-a").
Proof.
  split; [vm_compute; reflexivity|].
  apply (claim_ends_safely demo_pem demo_key alone demo_server ∅ "capi-a" (on_demo demo3) (run_delete (on_demo demo3)).1 (run_delete (on_demo demo3)).2).
  - exact alone_steady.
  - exact alone_honest.
  - exact (bm_run_ok _ _ _ _ demo_run3 empty_ok).
  - right. split; [exact (surjective_pairing (run_delete (on_demo demo3)))|left; vm_compute; reflexivity].
Defined.

(** *** A release that was interrupted *)

(** The database fails between the two statements that release a claim that was never
    deployed: the host stays in release without an attempt. *)
Definition failing_third : BmEnv := mkBmEnv (fun _ db => db) (fun k => if bool_decide (k = 2%nat) then Some (ErrNew "disk I/O error") else None) (fun _ => 0) demo_read.
Definition stuck_state : BmState := (DeleteBareMetalClaim demo_pem demo_key failing_third demo_server "capi-a" (on_demo demo3)).1.

(** Nothing the owner or an administrator can ask for then changes the tables: deleting
    answers 202, reading 409, deploying and retrying are refused. *)
Lemma interrupted_release_is_stuck :
  (∀ sv, bt_db (GetBareMetalClaim alone sv "capi-a" stuck_state).1 = bt_db stuck_state)
  ∧ (∀ sv, bt_db (DeleteBareMetalClaim demo_pem demo_key alone sv "capi-a" stuck_state).1 = bt_db stuck_state)
  ∧ (∀ sv body, bt_db (RetryBareMetalClaim alone sv "capi-a" body stuck_state).1 = bt_db stuck_state)
  ∧ (run_delete stuck_state).2 = inl (mkReply 202 (RHost (host_of releasing)))
  ∧ (GetBareMetalClaim alone demo_server "capi-a" stuck_state).2 = inr (bareMetalError ErrConflict).
Proof.
  split_and!; [intros []|intros []|intros [] body|..].
  - destruct bs_bareMetal0; vm_compute; reflexivity.
  - destruct bs_bareMetal0; vm_compute; reflexivity.
  - destruct bs_osimages0, bs_bareMetal0, body as [[[|x a] i c]|]; vm_compute; reflexivity.
  - vm_compute. reflexivity.
  - vm_compute. reflexivity.
Qed.
