(* ===== verification/Handler.v ===== *)
(** * Request handlers

    A handler runs over a store it shares with other requests.  Each of its operations
    on the store is one step; before it, the others may have changed the store
    ([others], by the number of the step).  What a handler does outside the store
    (audit entries, calls of other services) is a log.  It ends with a value or with an
    early answer. *)
From S2P Require Import Prelude.

Section handler.
Context {S E R : Type}.

Record HState := mkHState { hst_tick : nat; hst_store : S; hst_log : list E }.

Definition Hd (A : Type) : Type := HState → HState * (A + R).
Global Instance Hd_ret : MRet Hd := fun A a st => (st, inl a).
Global Instance Hd_bind : MBind Hd := fun A B f m st => match m st with (st, inl a) => f a st | (st, inr r) => (st, inr r) end.

Definition answer_with {A} (r : R) : Hd A := fun st => (st, inr r).
Definition unless {A} (x : result A) (f : error → R) : Hd A := match x with Ok a => mret a | Err e => answer_with (f e) end.
Definition must (b : bool) (r : R) : Hd unit := if b then mret tt else answer_with r.
Definition emit (e : E) : Hd unit := fun st => (mkHState (hst_tick st) (hst_store st) (hst_log st ++ [e]), inl tt).
Definition tick : Hd nat := fun st => (st, inl (hst_tick st)).

Context (others : nat → S → S).

(** An operation on the store. *)
Definition op {A} (f : S → S * A) : Hd A := fun st =>
  let '(s, a) := f (others (hst_tick st) (hst_store st)) in (mkHState (Datatypes.S (hst_tick st)) s (hst_log st), inl a).

(** ** Taking runs apart *)

Implicit Types st : HState.

Lemma hd_bind_inv {A B} (m : Hd A) (f : A → Hd B) st st' r : (m ≫= f) st = (st', r) →
  (∃ st1 a, m st = (st1, inl a) ∧ f a st1 = (st', r)) ∨ (∃ r0, m st = (st', inr r0) ∧ r = inr r0).
Proof.
  unfold mbind, Hd_bind. destruct (m st) as [st1 [a|r0]]; [intros H; left; by exists st1, a|intros [= <- <-]; right; by exists r0].
Qed.

Lemma op_bind_inv {A B} (f : S → S * A) (k : A → Hd B) st st' r : (a ← op f; k a) st = (st', r) →
  ∃ s a, f (others (hst_tick st) (hst_store st)) = (s, a) ∧ k a (mkHState (Datatypes.S (hst_tick st)) s (hst_log st)) = (st', r).
Proof. unfold mbind, Hd_bind, op. destruct (f _) as [s a]. intros H. by exists s, a. Qed.

Lemma unless_inv {A B} (x : result A) g (k : A → Hd B) st st' r : (y ← unless x g; k y) st = (st', r) →
  (∃ e, x = Err e ∧ st' = st ∧ r = inr (g e)) ∨ (∃ a, x = Ok a ∧ k a st = (st', r)).
Proof. destruct x; intros H; [right; eauto|]. injection H as <- <-. left. eauto. Qed.

Lemma must_inv {B} b g (k : unit → Hd B) st st' r : (x ← must b g; k x) st = (st', r) →
  (b = false ∧ st' = st ∧ r = inr g) ∨ (b = true ∧ k tt st = (st', r)).
Proof. destruct b; intros H; [by right|]. injection H as <- <-. by left. Qed.

(** ** What a handler does to the store, step by step *)

(** Every change of the store is one the others made, or a step of [own]. *)
Inductive steps (own : S → S → Prop) : S → S → Prop :=
| steps_refl s : steps own s s
| steps_others k s s' : steps own (others k s) s' → steps own s s'
| steps_own s s1 s' : own s s1 → steps own s1 s' → steps own s s'.

Lemma steps_trans own a b c : steps own a b → steps own b c → steps own a c.
Proof. induction 1; intros; [done|eapply steps_others; eauto|eapply steps_own; eauto]. Qed.

Definition does {A} (own : S → S → Prop) (m : Hd A) : Prop := ∀ st, steps own (hst_store st) (hst_store (m st).1).

Lemma does_ret {A} own (a : A) : does own (mret a).
Proof. intros st. apply steps_refl. Qed.
Lemma does_answer {A} own (r : R) : does own (answer_with r : Hd A).
Proof. intros st. apply steps_refl. Qed.
Lemma does_bind {A B} own (m : Hd A) (f : A → Hd B) : does own m → (∀ a, does own (f a)) → does own (m ≫= f).
Proof.
  intros Hm Hf st. unfold mbind, Hd_bind. specialize (Hm st). destruct (m st) as [st1 [a|r]]; [|exact Hm].
  cbn in Hm. eapply steps_trans; [exact Hm|apply Hf].
Qed.
Lemma does_unless {A} own (x : result A) f : does own (unless x f).
Proof. destruct x; [apply does_ret|apply does_answer]. Qed.
Lemma does_must own b (r : R) : does own (must b r).
Proof. destruct b; [apply does_ret|apply does_answer]. Qed.
Lemma does_emit own e : does own (emit e).
Proof. intros st. apply steps_refl. Qed.
Lemma does_tick own : does own tick.
Proof. intros st. apply steps_refl. Qed.
Lemma does_op {A} (own : S → S → Prop) (f : S → S * A) : (∀ s, own s (f s).1) → does own (op f).
Proof.
  intros Hf st. unfold op. apply (steps_others _ (hst_tick st)). specialize (Hf (others (hst_tick st) (hst_store st))).
  destruct (f _) as [s a]. cbn in *. eapply steps_own; [exact Hf|apply steps_refl].
Qed.
Lemma does_read {A} (own : S → S → Prop) (f : S → A) : does own (op (fun s => (s, f s))).
Proof. intros st. unfold op. cbn. apply (steps_others _ (hst_tick st)), steps_refl. Qed.
(** ** What a handler writes in its log *)

(** [P] holds of what [m] logs and of its value, [None] when it stops early. *)
Definition logs {A} (m : Hd A) (P : list E → option A → Prop) : Prop :=
  ∀ st, ∃ evs, hst_log (m st).1 = hst_log st ++ evs ∧ P evs (match (m st).2 with inl a => Some a | inr _ => None end).

Lemma logs_bind {A B} (m : Hd A) (f : A → Hd B) P Q (T : list E → option B → Prop) : logs m P → (∀ a, logs (f a) (Q a)) →
  (∀ e, P e None → T e None) → (∀ e1 a e2 r, P e1 (Some a) → Q a e2 r → T (e1 ++ e2) r) → logs (m ≫= f) T.
Proof.
  intros Hm Hf HN HS st. unfold mbind, Hd_bind. destruct (Hm st) as (e1 & E1 & P1). destruct (m st) as [st1 [a|x]]; cbn in *; [|exists e1; by split; [|apply HN]].
  destruct (Hf a st1) as (e2 & E2 & P2). exists (e1 ++ e2). split; [by rewrite E2, E1, app_assoc|by eapply HS].
Qed.
Lemma logs_impl {A} (m : Hd A) (P Q : list E → option A → Prop) : logs m P → (∀ e r, P e r → Q e r) → logs m Q.
Proof. intros Hm HPQ st. destruct (Hm st) as (evs & Ee & Pe). exists evs. split; [done|by apply HPQ]. Qed.
Lemma logs_ret {A} (a : A) : logs (mret a) (fun evs r => evs = [] ∧ r = Some a).
Proof. intros st. exists []. by rewrite app_nil_r. Qed.
Lemma logs_none {A} (m : Hd A) : (∀ st, hst_log (m st).1 = hst_log st) → logs m (fun evs _ => evs = []).
Proof. intros Hm st. exists []. by rewrite app_nil_r. Qed.

(** ** Protocols *)

(** Each entry is one [G] allows after the entries before it. *)
Definition each (G : list E → E → Prop) (l : list E) : Prop := ∀ pre e post, l = pre ++ e :: post → G pre e.

Lemma each_nil G : each G [].
Proof. intros [] x post; discriminate. Qed.
Lemma each_snoc G l e : each G l → G l e → each G (l ++ [e]).
Proof.
  intros Hl He pre e' post Heq. destruct (decide (post = [])) as [->|Hp].
  - apply app_inj_tail in Heq as [<- <-]. exact He.
  - destruct (exists_last Hp) as (p & x & ->). rewrite app_comm_cons, app_assoc in Heq. apply app_inj_tail in Heq as [-> _]. by apply (Hl pre e' p).
Qed.

(** From a log with [P], every entry of [m] is allowed, and its value and the log it leaves have [Q]. *)
Definition abides {A} (G : list E → E → Prop) (P : list E → Prop) (m : Hd A) (Q : A → list E → Prop) : Prop :=
  ∀ st, P (hst_log st) → each G (hst_log st) →
    each G (hst_log (m st).1) ∧ match (m st).2 with inl a => Q a (hst_log (m st).1) | inr _ => True end.

Lemma abides_bind {A B} G P (m : Hd A) (f : A → Hd B) Q T : abides G P m Q → (∀ a, abides G (Q a) (f a) T) → abides G P (m ≫= f) T.
Proof.
  intros Hm Hf st HP HG. unfold mbind, Hd_bind. specialize (Hm st HP HG). destruct (m st) as [st1 [a|x]]; cbn in *; [|done].
  destruct Hm as [HG1 HQ]. by apply Hf.
Qed.
Lemma abides_ret {A} G (P : list E → Prop) (a : A) (Q : A → list E → Prop) : (∀ l, P l → Q a l) → abides G P (mret a) Q.
Proof. intros HQ st HP HG. by split; [|apply HQ]. Qed.
Lemma abides_impl {A} G (P P' : list E → Prop) (m : Hd A) (Q Q' : A → list E → Prop) : abides G P' m Q' → (∀ l, P l → P' l) → (∀ a l, Q' a l → Q a l) → abides G P m Q.
Proof. intros Hm HP HQ st Hl HG. destruct (Hm st (HP _ Hl) HG) as [H1 H2]. split; [done|]. destruct (m st).2; [by apply HQ|done]. Qed.

(** What holds of a log and of all that continue it. *)
Definition lasting (Q : list E → Prop) : Prop := ∀ l x, Q l → Q (l ++ [x]).
Lemma lasting_in c : lasting (fun l => c ∈ l).
Proof. intros l x Hl. apply elem_of_app. by left. Qed.
Lemma lasting_and (Q T : list E → Prop) : lasting Q → lasting T → lasting (fun l => Q l ∧ T l).
Proof. intros HQ HT l x []. split; [by apply HQ|by apply HT]. Qed.
Lemma lasting_const (p : Prop) : lasting (fun _ => p).
Proof. by intros l x. Qed.

(** A call that logs itself with its answer, and what is not logged. *)
Lemma abides_logged {A} G (f : Hd A) (c : A → E) (Q : list E → Prop) :
  (∀ st, ∃ a, (f st).2 = inl a ∧ hst_log (f st).1 = hst_log st ++ [c a]) → lasting Q → (∀ l a, Q l → G l (c a)) →
  abides G Q f (fun a l => Q l ∧ c a ∈ l).
Proof.
  intros Hf HQ HG st Hl Hall. destruct (Hf st) as (a & -> & ->). split; [by apply each_snoc; [|apply HG]|].
  split; [by apply HQ|]. apply elem_of_app. right. by left.
Qed.
Lemma abides_silent {A} G (f : Hd A) Q : (∀ st, hst_log (f st).1 = hst_log st ∧ ∃ a, (f st).2 = inl a) → abides G Q f (fun _ => Q).
Proof. intros Hf st HQ HG. destruct (Hf st) as (-> & a & ->). done. Qed.
(** What the log shows is a fact. *)
Lemma abides_pure (p : Prop) {A} G (f : Hd A) (Q : list E → Prop) T : (∀ l, Q l → p) → (p → abides G Q f T) → abides G Q f T.
Proof. intros Hp Hf st HQ. exact (Hf (Hp _ HQ) st HQ). Qed.
End handler.
Arguments HState : clear implicits.
Arguments Hd : clear implicits.

Create HintDb handler.
#[export] Hint Resolve does_ret does_answer does_bind does_unless does_must does_emit does_tick does_read : handler.
#[export] Hint Resolve lasting_in lasting_and lasting_const : handler.
