(* ===== verification/HwInfo.v ===== *)
(** * internal/hwinfo and api/inventory: what a host reports of its hardware

    The stored record, the payload the installer sends, the conversion between them,
    the service, and the text form of the report (pxehttp/deploy_inventory.go). *)
From S2P Require Import Prelude GoStrings GoPath Store.
From Stdlib Require Import Floats.SpecFloat.

(** ** types.go *)

Record CPUInfo := mkCPUInfo { cpu_Model : string; cpu_Cores : Z; cpu_Threads : Z; cpu_Arch : string; cpu_MHz : string }.
Record MemoryInfo := mkMemoryInfo { mem_TotalMB : Z; mem_Slots : Z }.
Record DiskInfo := mkDiskInfo {
  dk_Name : string; dk_Path : string; dk_ByID : list string; dk_ByPath : list string; dk_SizeMB : Z; dk_Type : string; dk_Model : string;
  dk_Serial : string; dk_WWN : string; dk_Transport : string; dk_Rotational : bool; dk_Removable : bool }.
Global Instance DiskInfo_fields : Fields DiskInfo :=
  fpure mkDiskInfo <*> dk_Name <*> dk_Path <*> dk_ByID <*> dk_ByPath <*> dk_SizeMB <*> dk_Type <*> dk_Model <*> dk_Serial <*> dk_WWN
    <*> dk_Transport <*> dk_Rotational <*> dk_Removable.
Record NICInfo := mkNICInfo {
  ni_Name : string; ni_MAC : string; ni_Speed : string; ni_State : string; ni_Driver : string; ni_Modalias : string; ni_PCISlot : string;
  ni_VendorID : string; ni_DeviceID : string; ni_SubsystemVendorID : string; ni_SubsystemDeviceID : string }.
Record BIOSInfo := mkBIOSInfo { bi_Vendor : string; bi_Version : string; bi_Date : string }.
Record PCIDevice := mkPCIDevice { pci_Slot : string; pci_Class : string; pci_Vendor : string; pci_Device : string }.
Record USBDevice := mkUSBDevice { usb_Bus : string; usb_Device : string; usb_Vendor : string; usb_Name : string }.
Record GPUInfo := mkGPUInfo { gpu_Name : string; gpu_Vendor : string; gpu_VRAM : string }.
Record Sensor := mkSensor { sn_Name : string; sn_Type : string; sn_Value : spec_float; sn_Unit : string }.
Record BootInfo := mkBootInfo { bt_FirmwareMode : string; bt_SecureBoot : string; bt_EFIVars : bool }.
Record RuntimeInfo := mkRuntimeInfo { ri_KernelVersion : string; ri_LoadedModules : list string }.

Record HardwareInfo := mkHardwareInfo {
  hw_Name : string; hw_MachineName : string; hw_AttemptID : string; hw_CPU : CPUInfo; hw_Memory : MemoryInfo; hw_Disks : list DiskInfo;
  hw_NICs : list NICInfo; hw_BIOS : BIOSInfo; hw_PCI : list PCIDevice; hw_USB : list USBDevice; hw_GPUs : list GPUInfo; hw_Sensors : list Sensor;
  hw_Boot : BootInfo; hw_Runtime : RuntimeInfo; hw_CreatedAt : Time; hw_UpdatedAt : Time }.
Global Instance HardwareInfo_fields : Fields HardwareInfo :=
  fpure mkHardwareInfo <*> hw_Name <*> hw_MachineName <*> hw_AttemptID <*> hw_CPU <*> hw_Memory <*> hw_Disks <*> hw_NICs <*> hw_BIOS <*> hw_PCI
    <*> hw_USB <*> hw_GPUs <*> hw_Sensors <*> hw_Boot <*> hw_Runtime <*> hw_CreatedAt <*> hw_UpdatedAt.
(** The store's key. *)
Global Instance HardwareInfo_keyed : Keyed HardwareInfo := hw_MachineName.

Definition zero_hardware : HardwareInfo :=
  mkHardwareInfo "" "" "" (mkCPUInfo "" 0 0 "" "") (mkMemoryInfo 0 0) [] [] (mkBIOSInfo "" "" "") [] [] [] [] (mkBootInfo "" "" false)
    (mkRuntimeInfo "" []) 0 0.

(** ** api/inventory/types.go and inventory.go

    The payload's parts have the fields of the stored ones; the conversion copies them
    one by one. *)
Record HardwareInventory := mkHardwareInventory {
  iv_MachineName : string; iv_AttemptID : string; iv_CPU : CPUInfo; iv_Memory : MemoryInfo; iv_Disks : list DiskInfo; iv_NICs : list NICInfo;
  iv_BIOS : BIOSInfo; iv_PCI : list PCIDevice; iv_USB : list USBDevice; iv_GPUs : list GPUInfo; iv_Sensors : list Sensor; iv_Boot : BootInfo;
  iv_Runtime : RuntimeInfo }.

Definition FromInventory (i : HardwareInventory) : HardwareInfo :=
  mkHardwareInfo "" (iv_MachineName i) (iv_AttemptID i) (iv_CPU i) (iv_Memory i) (iv_Disks i) (iv_NICs i) (iv_BIOS i) (iv_PCI i) (iv_USB i)
    (iv_GPUs i) (iv_Sensors i) (iv_Boot i) (iv_Runtime i) 0 0.

(** ** service.go *)

Section service.
Context {S : Type} `{ResourceStore S HardwareInfo}.
Definition hwinfo_Upsert (s : S) (now : Time) (info : HardwareInfo) : result (S * HardwareInfo) :=
  let info := if hw_CreatedAt info =? 0 then info <| hw_CreatedAt := now |> else info in
  let info := info <| hw_UpdatedAt := now |> in
  s ← st_Upsert s info;
  Ok (s, info).
Definition hwinfo_Delete (s : S) (machineName : string) : result S := st_Delete s machineName.
End service.

(** ** The text form *)

Definition splitInventoryCSV (value : string) : list string :=
  if TrimSpace value ==? "" then [] else filter (fun s => s ≠ "") (TrimSpace <$> Split value ","%char).

(** [n, _ := strconv.ParseInt(s, 10, 64)]: zero for what is no number, the nearest
    integer for one out of range. *)
Definition ParseInt_value (s : string) : Z :=
  let '(neg, digits) := match to_bytes s with
                        | c :: l => if c ==? "-"%char then (true, l) else if c ==? "+"%char then (false, l) else (false, c :: l)
                        | [] => (false, [])
                        end in
  match digits with
  | [] => 0
  | _ => match atoi_digits 0 digits with
         | None => 0
         | Some n => Z.max min_int64 (Z.min max_int64 (if neg : bool then - n else n))
         end
  end.

Definition truthy (s : string) : bool := (s ==? "true") || (s ==? "1").
Definition tab : ascii := ascii_of_N 9.
Definition newline_byte : ascii := ascii_of_N 10.
Definition carriage_return : string := String (ascii_of_N 13) "".

Definition set_kernel (k : string) (i : HardwareInfo) : HardwareInfo := i <| hw_Runtime := mkRuntimeInfo k (ri_LoadedModules (hw_Runtime i)) |>.
Definition set_boot (mode : option string) (efi : option bool) (i : HardwareInfo) : HardwareInfo :=
  let b := hw_Boot i in
  i <| hw_Boot := mkBootInfo (default (bt_FirmwareMode b) mode) (bt_SecureBoot b) (default (bt_EFIVars b) efi) |>.

(** One line: its first field says what the others are. *)
Definition text_line (info : HardwareInfo) (line : string) : HardwareInfo :=
  let fields := Split (TrimRight line carriage_return) tab in
  let field (i : nat) : option string := fields !! i in
  match field 0%nat with
  | None => info
  | Some kind =>
      if TrimSpace kind ==? "" then info
      else if kind ==? "runtime" then match field 1%nat with Some k => set_kernel k info | None => info end
      else if kind ==? "boot" then set_boot (field 1%nat) (truthy <$> field 2%nat) info
      else if kind ==? "disk" then
        match field 1%nat, field 2%nat, field 3%nat, field 4%nat with
        | Some name, Some path, Some size, Some removable =>
            let byId := match field 5%nat with Some v => splitInventoryCSV v | None => [] end in
            let byPath := match field 6%nat with Some v => splitInventoryCSV v | None => [] end in
            info <| hw_Disks := hw_Disks info
                     ++ [mkDiskInfo name path byId byPath (ParseInt_value size) "disk" "" "" "" "" false (truthy removable)] |>
        | _, _, _, _ => info
        end
      else if kind ==? "nic" then
        match field 1%nat, field 2%nat, field 3%nat with
        | Some name, Some mac, Some state => info <| hw_NICs := hw_NICs info ++ [mkNICInfo name mac "" state "" "" "" "" "" "" ""] |>
        | _, _, _ => info
        end
      else info
  end.

Definition parseTextInventory (body : string) : HardwareInfo := fold_left text_line (Split body newline_byte) zero_hardware.

Definition nl : string := String newline_byte "".
Definition tb : string := String tab "".
Example parseTextInventory_ex :
  let i := parseTextInventory ("boot" +:+ tb +:+ "uefi" +:+ tb +:+ "1" +:+ nl +:+ "disk" +:+ tb +:+ "sda" +:+ tb +:+ "/dev/sda" +:+ tb +:+ "1024" +:+ tb +:+ "0") in
  bt_EFIVars (hw_Boot i) = true ∧ (dk_SizeMB <$> hw_Disks i) = [1024] ∧ (dk_Removable <$> hw_Disks i) = [false].
Proof. vm_compute. done. Qed.
