(* ===== verification/TargetDisk.v ===== *)
(** * pxehttp/target_disk.go: the disk an installation wipes

    Which disk of the reported inventory a bare-metal installation is written to, and
    the partitions a root file-system image is unpacked into. *)
From S2P Require Import Prelude GoStrings GoRegexp GoPath Store Machine HwInfo.

Record selectedTargetDisk := mkSelectedTargetDisk { sd_Path : string; sd_Info : DiskInfo }.

Definition isIgnoredBlockDevice (name : string) : bool :=
  let name := TrimPrefix (TrimSpace name) "/dev/" in
  (name ==? "") || existsb (HasPrefix name) ["loop"; "ram"; "sr"; "fd"; "dm-"; "md"; "zram"].

Definition disk_name (d : DiskInfo) : string :=
  let name := TrimSpace (dk_Name d) in
  if (name ==? "") && (TrimSpace (dk_Path d) !=? "") then filepath_Base (TrimSpace (dk_Path d)) else name.

Definition installable (d : DiskInfo) : bool :=
  negb (dk_Removable d) && negb (isIgnoredBlockDevice (disk_name d)) && ((dk_Type d ==? "") || (dk_Type d ==? "disk")).

Definition installableDiskCandidates (info : HardwareInfo) : list DiskInfo := filter (fun d => installable d = true) (hw_Disks info).

Definition sortedNonEmpty (values : list string) : list string := sort_Strings (filter (fun s => s ≠ "") (TrimSpace <$> values)).

Definition dev_path (name : string) : string := if HasPrefix name "/dev/" then name else "/dev/" +:+ name.

Definition diskInventoryPaths (d : DiskInfo) : list string :=
  (if TrimSpace (dk_Path d) ==? "" then [] else [TrimSpace (dk_Path d)])
  ++ (if TrimSpace (dk_Name d) ==? "" then [] else [dev_path (TrimSpace (dk_Name d))])
  ++ sortedNonEmpty (dk_ByID d) ++ sortedNonEmpty (dk_ByPath d).

Definition diskPathInInventory (path : string) (disks : list DiskInfo) : bool :=
  let path := TrimSpace path in
  existsb (fun d => existsb (fun candidate => candidate ==? path) (diskInventoryPaths d)) disks.

Definition stableDiskPath (d : DiskInfo) : string :=
  if TrimSpace (dk_Path d) !=? "" then dk_Path d else
  match sortedNonEmpty (dk_ByID d), sortedNonEmpty (dk_ByPath d) with
  | p :: _, _ => p
  | [], p :: _ => p
  | [], [] => dev_path (TrimSpace (dk_Name d))
  end.

Definition names_disk (disk : string) (d : DiskInfo) : bool := existsb (fun p => p ==? disk) (diskInventoryPaths d).

Definition selectInventoryBackedTargetDiskOverrideInfo (disk : string) (candidates : list DiskInfo) : result selectedTargetDisk :=
  if negb (IsWholeDiskPath disk) then Err (ErrNew ("targetDisk must be a whole disk path: " +:+ disk)) else
  match List.find (names_disk disk) candidates with
  | Some d => Ok (mkSelectedTargetDisk disk d)
  | None => Err (ErrNew ("targetDisk is not present in current hardware inventory: " +:+ disk))
  end.

Definition selectTargetDiskInfo (m : option Machine) (info : option HardwareInfo) : result selectedTargetDisk :=
  match info with
  | None => Err (ErrNew "hardware inventory is required for target disk selection")
  | Some info =>
      let candidates := installableDiskCandidates info in
      let disk := match m with Some m => TrimSpace (m_TargetDisk m) | None => "" end in
      if disk !=? "" then selectInventoryBackedTargetDiskOverrideInfo disk candidates else
      match candidates with
      | [] => Err (ErrNew "no installable target disk found")
      | [d] => let disk := stableDiskPath d in
               if negb (IsWholeDiskPath disk) then Err (ErrNew ("selected target disk is not a whole disk path: " +:+ disk))
               else Ok (mkSelectedTargetDisk disk d)
      | _ => Err (ErrNew ("ambiguous target disk: " +:+ Itoa (Z.of_nat (length candidates)) +:+ " installable disks found"))
      end
  end.

Definition selectTargetDisk (m : option Machine) (info : option HardwareInfo) : result string :=
  selected ← selectTargetDiskInfo m info;
  Ok (sd_Path selected).

(** ** Partitions *)

Definition rootFSBIOSBootPartitionSizeMB : Z := 1.
Definition rootFSEFIPartitionSizeMB : Z := 512.
Definition rootFSPartitionReserveMB : Z := 64.
Definition rootFSMinimumRootPartitionSizeMB : Z := 4096.

Definition rootFSRootPartitionSizeMB (disk : DiskInfo) : result Z :=
  if dk_SizeMB disk <=? 0 then Err (ErrNew "target disk size is required for squashfs storage config") else
  let rootSizeMB := int64 (dk_SizeMB disk - rootFSBIOSBootPartitionSizeMB - rootFSEFIPartitionSizeMB - rootFSPartitionReserveMB) in
  if rootSizeMB <? rootFSMinimumRootPartitionSizeMB
  then Err (ErrNew ("target disk is too small for squashfs install: size=" +:+ Itoa (dk_SizeMB disk) +:+ "MiB minimum="
         +:+ Itoa (rootFSMinimumRootPartitionSizeMB + rootFSBIOSBootPartitionSizeMB + rootFSEFIPartitionSizeMB + rootFSPartitionReserveMB) +:+ "MiB"))
  else Ok rootSizeMB.

(** An entry of curtin's storage configuration ([map[string]any]). *)
Inductive cfg_value : Type := CStr (s : string) | CInt (n : Z) | CBool (b : bool).
Definition cfg_entry : Type := gmap string cfg_value.

Record curtinStorage := mkCurtinStorage { cs_Version : Z; cs_Config : list cfg_entry; cs_InstallDevices : list string }.

Definition buildRootFSStorageConfig (targetDisk : string) (rootSizeMB : Z) (rootFilesystem : string) : curtinStorage :=
  mkCurtinStorage 1
    [ {["id" := CStr "disk0"; "type" := CStr "disk"; "path" := CStr targetDisk; "ptable" := CStr "gpt"; "grub_device" := CBool true;
        "wipe" := CStr "superblock-recursive"]};
      {["id" := CStr "part-bios"; "type" := CStr "partition"; "device" := CStr "disk0"; "number" := CInt 1; "size" := CStr "1M"; "flag" := CStr "bios_grub"]};
      {["id" := CStr "part-efi"; "type" := CStr "partition"; "device" := CStr "disk0"; "number" := CInt 2; "size" := CStr "512M"; "flag" := CStr "boot"]};
      {["id" := CStr "fmt-efi"; "type" := CStr "format"; "volume" := CStr "part-efi"; "fstype" := CStr "fat32"; "label" := CStr "EFI"]};
      {["id" := CStr "part-root"; "type" := CStr "partition"; "device" := CStr "disk0"; "number" := CInt 3; "size" := CStr (Itoa rootSizeMB +:+ "M")]};
      {["id" := CStr "fmt-root"; "type" := CStr "format"; "volume" := CStr "part-root"; "fstype" := CStr rootFilesystem; "label" := CStr "rootfs"]};
      {["id" := CStr "mount-root"; "type" := CStr "mount"; "device" := CStr "fmt-root"; "path" := CStr "/"]};
      {["id" := CStr "mount-efi"; "type" := CStr "mount"; "device" := CStr "fmt-efi"; "path" := CStr "/boot/efi"]} ]
    [targetDisk].

(** ** The disk is one that may be wiped *)

Lemma names_disk_spec p d : names_disk p d = true ↔ p ∈ diskInventoryPaths d.
Proof.
  unfold names_disk. rewrite existsb_exists. split.
  - intros (x & Hx & E%bool_decide_eq_true). subst. by apply list_elem_of_In.
  - intros Hp. exists p. split; [by apply list_elem_of_In|by apply bool_decide_eq_true].
Qed.

Lemma candidates_spec info d : d ∈ installableDiskCandidates info ↔ d ∈ hw_Disks info ∧ installable d = true.
Proof. unfold installableDiskCandidates. rewrite list_elem_of_filter. tauto. Qed.

(** The path chosen for a disk, up to blanks around it, is one the host reported. *)
Lemma stable_path_reported d : TrimSpace (dk_Name d) ≠ "" ∨ stableDiskPath d ≠ "/dev/" → stableDiskPath d = dk_Path d ∧ TrimSpace (dk_Path d) ∈ diskInventoryPaths d
  ∨ stableDiskPath d ∈ diskInventoryPaths d.
Proof.
  intros Hne. unfold stableDiskPath, diskInventoryPaths in *. destruct (bool_decide (TrimSpace (dk_Path d) = "")) eqn:Ep; cbn [negb] in *.
  - right. destruct (sortedNonEmpty (dk_ByID d)) as [|p l] eqn:E1; [|set_solver].
    destruct (sortedNonEmpty (dk_ByPath d)) as [|p l] eqn:E2; [|set_solver].
    destruct (bool_decide (TrimSpace (dk_Name d) = "")) eqn:En; [|set_solver]. apply bool_decide_eq_true in En. rewrite En in Hne. by destruct Hne.
  - left. split; [done|set_solver].
Qed.

Lemma dev_no_disk : IsWholeDiskPath "/dev/" = false.
Proof. vm_compute. reflexivity. Qed.
Local Opaque IsWholeDiskPath.

(** The host reported the path for the disk. *)
Definition reported (p : string) (d : DiskInfo) : Prop := p = dk_Path d ∨ p ∈ diskInventoryPaths d.

Lemma override_spec disk info sel : selectInventoryBackedTargetDiskOverrideInfo disk (installableDiskCandidates info) = Ok sel →
  sd_Path sel = disk ∧ IsWholeDiskPath disk = true ∧ sd_Info sel ∈ installableDiskCandidates info ∧ disk ∈ diskInventoryPaths (sd_Info sel).
Proof.
  unfold selectInventoryBackedTargetDiskOverrideInfo. destruct (IsWholeDiskPath disk); [|done]. cbn [negb].
  destruct (List.find _ _) as [d|] eqn:E; [|done]. intros [= <-]. apply find_some in E as [Hin Hn]. cbn.
  split_and!; [done|done|by apply list_elem_of_In|by apply names_disk_spec].
Qed.

Lemma override_complete disk info d : IsWholeDiskPath disk = true → d ∈ installableDiskCandidates info → disk ∈ diskInventoryPaths d →
  ∃ sel, selectInventoryBackedTargetDiskOverrideInfo disk (installableDiskCandidates info) = Ok sel.
Proof.
  intros Hw Hd Hp. unfold selectInventoryBackedTargetDiskOverrideInfo. rewrite Hw. cbn [negb].
  destruct (List.find (names_disk disk) _) eqn:E; [by eexists|]. exfalso.
  apply names_disk_spec in Hp. apply list_elem_of_In in Hd. pose proof (find_none _ _ E _ Hd). congruence.
Qed.

Lemma auto_spec info sel : match installableDiskCandidates info with
  | [d] => if negb (IsWholeDiskPath (stableDiskPath d)) then Err (ErrNew ("selected target disk is not a whole disk path: " +:+ stableDiskPath d))
           else Ok (mkSelectedTargetDisk (stableDiskPath d) d)
  | _ => Err ErrNotFound
  end = Ok sel → installableDiskCandidates info = [sd_Info sel] ∧ sd_Path sel = stableDiskPath (sd_Info sel) ∧ IsWholeDiskPath (sd_Path sel) = true.
Proof.
  destruct (installableDiskCandidates info) as [|d [|d2 l]]; try done. destruct (IsWholeDiskPath _) eqn:E; [|done]. by intros [= <-].
Qed.

(** C33: an installation wipes only a disk that may be wiped.  When a target is chosen,
    it is a disk of the current inventory that is fixed, not a loop, RAM, optical,
    floppy, device-mapper, RAID or zram device and not a partition; the path is that of
    a whole disk and one the host reported for this disk.  If the machine names its
    target it is exactly that one, otherwise the inventory has no second disk it could
    have been.  A choice is made whenever the named disk is such a disk, or none is
    named and there is exactly one. *)
Theorem target_disk_safe (m : Machine) (info : HardwareInfo) :
  let disk := TrimSpace (m_TargetDisk m) in
  (∀ sel, selectTargetDiskInfo (Some m) (Some info) = Ok sel →
     sd_Info sel ∈ hw_Disks info ∧ dk_Removable (sd_Info sel) = false ∧ isIgnoredBlockDevice (disk_name (sd_Info sel)) = false
     ∧ (dk_Type (sd_Info sel) = "" ∨ dk_Type (sd_Info sel) = "disk") ∧ IsWholeDiskPath (sd_Path sel) = true ∧ reported (sd_Path sel) (sd_Info sel)
     ∧ (if decide (disk = "") then installableDiskCandidates info = [sd_Info sel] else sd_Path sel = disk))
  ∧ ((∃ sel, selectTargetDiskInfo (Some m) (Some info) = Ok sel) ↔
       disk ≠ "" ∧ IsWholeDiskPath disk = true ∧ (∃ d, d ∈ installableDiskCandidates info ∧ disk ∈ diskInventoryPaths d)
       ∨ disk = "" ∧ ∃ d, installableDiskCandidates info = [d] ∧ IsWholeDiskPath (stableDiskPath d) = true).
Proof.
  cbv zeta. assert (Hsel : ∀ sel, selectTargetDiskInfo (Some m) (Some info) = Ok sel →
    sd_Info sel ∈ installableDiskCandidates info ∧ IsWholeDiskPath (sd_Path sel) = true ∧ reported (sd_Path sel) (sd_Info sel)
    ∧ (if decide (TrimSpace (m_TargetDisk m) = "") then installableDiskCandidates info = [sd_Info sel] else sd_Path sel = TrimSpace (m_TargetDisk m))).
  { intros sel. unfold selectTargetDiskInfo. destruct (decide (TrimSpace (m_TargetDisk m) = "")) as [E|E].
    - rewrite (bool_decide_eq_true_2 _ E). cbn [negb]. intros H.
      destruct (auto_spec info sel) as (Hc & Hp & Hw); [destruct (installableDiskCandidates info) as [|d [|d2 l]]; done|].
      rewrite Hc. split_and!; [set_solver|done| |done]. rewrite Hp in Hw |- *. unfold reported.
      destruct (stable_path_reported (sd_Info sel)) as [[-> _]|Hin]; [right; intros E2; rewrite E2, dev_no_disk in Hw; discriminate Hw|by left|by right].
    - rewrite (bool_decide_eq_false_2 _ E). cbn [negb]. intros (-> & Hw & Hin & Hp)%override_spec. split_and!; [done|done|by right|done]. }
  split.
  - intros sel (Hin & Hw & Hr & Hd)%Hsel. apply candidates_spec in Hin as [Hin Hi]. unfold installable in Hi.
    rewrite !andb_true_iff, !negb_true_iff, orb_true_iff, !bool_decide_eq_true in Hi. destruct Hi as [[H1 H2] H3]. done.
  - split.
    + intros [sel H]. pose proof H as H'. apply Hsel in H' as (Hin & Hw & Hr & Hd). destruct (decide (TrimSpace (m_TargetDisk m) = "")) as [E|E].
      * right. split; [done|]. exists (sd_Info sel). split; [done|]. revert H. unfold selectTargetDiskInfo. rewrite (bool_decide_eq_true_2 _ E), Hd. cbn [negb].
        destruct (IsWholeDiskPath (stableDiskPath _)); done.
      * left. rewrite <- Hd. split_and!; [congruence|done|]. exists (sd_Info sel). split; [done|]. revert H. unfold selectTargetDiskInfo.
        rewrite (bool_decide_eq_false_2 _ E). cbn [negb]. intros H. apply override_spec in H as (-> & _ & _ & Hp). done.
    + intros [(E & Hw & d & Hd & Hp)|(E & d & Hd & Hw)]; unfold selectTargetDiskInfo.
      * rewrite (bool_decide_eq_false_2 _ E). cbn [negb]. by eapply override_complete.
      * rewrite (bool_decide_eq_true_2 _ E), Hd. cbn [negb]. rewrite Hw. by eexists.
Qed.

(** The sizes the entries of the partitions ask for, in MiB. *)
Definition size_value (v : cfg_value) : option Z := match v with CStr s => Atoi (TrimSuffix s "M") | _ => None end.
Definition partition_sizes (c : curtinStorage) : list Z := omap size_value (omap (fun e : cfg_entry => e !! "size") (cs_Config c)).
Definition disk_paths (c : curtinStorage) : list cfg_value :=
  omap (fun e : cfg_entry => match e !! "type" with Some (CStr t) => if t ==? "disk" then e !! "path" else None | _ => None end) (cs_Config c).

Lemma storage_entries path root fs : let c := buildRootFSStorageConfig path root fs in
  omap (fun e : cfg_entry => e !! "size") (cs_Config c) = [CStr "1M"; CStr "512M"; CStr (Itoa root +:+ "M")] ∧ disk_paths c = [CStr path].
Proof. cbv zeta. unfold buildRootFSStorageConfig. generalize (Itoa root +:+ "M"). intros s. split; vm_compute; reflexivity. Qed.

Lemma TrimSuffix_app (s p : string) : TrimSuffix (s +:+ p) p = s.
Proof.
  unfold TrimSuffix, HasSuffix. rewrite <- !length_to_bytes, to_bytes_app, length_app, Nat.add_sub, drop_app_length, take_app_length, of_to_bytes.
  by rewrite bool_decide_eq_true_2.
Qed.

(** C37: the partitions fit on the disk.  A disk gets a root partition exactly if it has
    room for one of the minimal size beside the boot partitions and the reserve; the
    sizes written into the configuration then add up to the size of the disk less the
    reserve, without overflow, and the only disk the configuration names is the
    target. *)
Theorem partitions_fit (disk : DiskInfo) (path fs : string) (Hsize : dk_SizeMB disk <= max_int64) :
  match rootFSRootPartitionSizeMB disk with
  | Ok root =>
      let c := buildRootFSStorageConfig path root fs in
      rootFSMinimumRootPartitionSizeMB <= root
      ∧ partition_sizes c = [rootFSBIOSBootPartitionSizeMB; rootFSEFIPartitionSizeMB; root]
      ∧ foldr Z.add 0 (partition_sizes c) + rootFSPartitionReserveMB = dk_SizeMB disk
      ∧ disk_paths c = [CStr path]
      ∧ cs_InstallDevices c = [path]
  | Err _ => dk_SizeMB disk < rootFSMinimumRootPartitionSizeMB + rootFSBIOSBootPartitionSizeMB + rootFSEFIPartitionSizeMB + rootFSPartitionReserveMB
  end.
Proof.
  unfold rootFSRootPartitionSizeMB, rootFSBIOSBootPartitionSizeMB, rootFSEFIPartitionSizeMB, rootFSPartitionReserveMB, rootFSMinimumRootPartitionSizeMB.
  destruct (dk_SizeMB disk <=? 0) eqn:E0; [lia|]. rewrite int64_small by (unfold min_int64; lia). destruct (_ <? _) eqn:E1; [lia|]. cbv zeta.
  set (root := dk_SizeMB disk - 1 - 512 - 64). destruct (storage_entries path root fs) as [Hs Hd].
  assert (Hp : partition_sizes (buildRootFSStorageConfig path root fs) = [1; 512; root]).
  { unfold partition_sizes. rewrite Hs. cbn [omap list_omap size_value]. rewrite TrimSuffix_app, Atoi_Itoa by (unfold root; lia). vm_compute. reflexivity. }
  rewrite Hp. split_and!; [unfold root; lia|done|cbn; unfold root; lia|exact Hd|done].
Qed.

Definition plain_disk : DiskInfo := mkDiskInfo "sda" "/dev/sda" [] [] 20480 "disk" "" "" "" "" false false.
Lemma partitions_fit_witness : rootFSRootPartitionSizeMB plain_disk = Ok 19903 ∧ dk_SizeMB plain_disk <= max_int64
  ∧ partition_sizes (buildRootFSStorageConfig "/dev/sda" 19903 "ext4") = [1; 512; 19903].
Proof.
  assert (H : dk_SizeMB plain_disk <= max_int64) by (vm_compute; discriminate).
  pose proof (partitions_fit plain_disk "/dev/sda" "ext4" H) as P.
  assert (E : rootFSRootPartitionSizeMB plain_disk = Ok 19903) by (vm_compute; reflexivity). rewrite E in P.
  destruct P as (_ & P & _). split; [exact E|]. split; [exact H|exact P].
Defined.
