(* ===== verification/Curtin.v ===== *)
(** * pxehttp/curtin_rootfs.go, sealed_bootstrap.go and curtin_config.go: the commands of an installation

    The configuration the installer runs, with the text of its shell commands, and how
    a POSIX shell splits such a command into words: what the server puts into a command
    for a disk, a host or an owner arrives there as one literal word, whatever it is. *)
From S2P Require Import Prelude GoStrings GoPath OsImage Machine HwInfo TargetDisk ApiResource.

(** A double quote is written [~] below. *)
Definition dq : string := String (ascii_of_N 34) "".
Definition sh (s : string) : string := ReplaceByte s "~"%char dq.
Definition newline : string := String (ascii_of_N 10) "".

(** [base64.StdEncoding]: the alphabet of [ApiResource] with [+] and [/], padded. *)
Definition b64_std_char (c : ascii) : ascii := if c ==? "-"%char then "+"%char else if c ==? "_"%char then "/"%char else c.
Definition b64_std (l : bytes) : string :=
  let e := b64_std_char <$> b64_encode l in
  of_bytes (e ++ replicate ((4 - length e `mod` 4) `mod` 4)%nat "="%char).

(** ** request_helpers.go *)

Definition shellQuote (value : string) : string := "'" +:+ ReplaceByte value "'"%char (sh "'~'~'") +:+ "'".

(** ** curtin_rootfs.go *)

Record osInstallCapability := mkOsInstallCapability {
  ca_Family : string; ca_RootFilesystem : string; ca_GrubInstallCommand : string; ca_GrubEFIArgs : list string; ca_GrubMkconfigCommand : string;
  ca_GrubMkimageCommand : string; ca_GrubBIOSSetupCommand : string; ca_GrubConfigPath : string; ca_SimpleGrubConfigPath : string;
  ca_BootloaderID : string; ca_InstallRemovableEFI : bool; ca_NeedsESPGrubConfig : bool; ca_CopyEFIToFallback : bool; ca_EmbedBIOSBootstrap : bool;
  ca_SkipUEFIGrubInstall : bool }.

Definition installCapabilityForOSFamily (osFamily : string) : result osInstallCapability :=
  let family := ToLower (TrimSpace osFamily) in
  if family ==? "fedora" then
    Ok (mkOsInstallCapability family "ext4" "grub2-install" [] "grub2-mkconfig" "grub2-mkimage" "grub2-bios-setup" "/boot/grub2/grub.cfg"
          "/boot/grub2/gomi.cfg" "fedora" false true true true true)
  else if (family ==? "debian") || (family ==? "ubuntu") then
    Ok (mkOsInstallCapability family "ext4" "grub-install" [] "grub-mkconfig" "" "" "/boot/grub/grub.cfg" "" family true false false false false)
  else if family ==? "" then Err (ErrNew "osFamily is required for squashfs curtin deploy")
  else Err (ErrNew ("unsupported OS family for squashfs curtin deploy: " +:+ family)).

Definition rootFSFstabOptions (rootFilesystem : string) : string :=
  if ToLower (TrimSpace rootFilesystem) ==? "ext4" then "defaults,errors=remount-ro" else "defaults".

Definition rootFSGrubModule (rootFilesystem : string) : string :=
  let fs := ToLower (TrimSpace rootFilesystem) in
  if fs ==? "xfs" then "xfs" else if fs ==? "btrfs" then "btrfs" else "ext2".

Definition buildRootFSFstabCommand (rootFilesystem : string) : string :=
  "root_fstype=" +:+ shellQuote rootFilesystem +:+ "; root_opts=" +:+ shellQuote (rootFSFstabOptions rootFilesystem)
  +:+ sh "; printf '%s\n' ~LABEL=rootfs / $root_fstype $root_opts 0 1~ 'LABEL=EFI /boot/efi vfat umask=0077 0 1' > ~$TARGET_MOUNT_POINT/etc/fstab~".

Definition buildRootFSSimpleGrubConfigCommand (cap : osInstallCapability) : string :=
  if ca_SimpleGrubConfigPath cap ==? "" then ":" else
  sh "chroot ~$TARGET_MOUNT_POINT~ sh -c 'set -e; config_path=~$1~; k=~$(ls -1 /boot/vmlinuz-* | sort -V | tail -n 1)~; [ -n ~$k~ ]; v=~${k#/boot/vmlinuz-}~; mkdir -p ~$(dirname ~$config_path~)~; cat > ~$config_path~ <<EOF
set timeout=3
set default=0
search --no-floppy --label rootfs --set=root
menuentry ~Linux~ {
    linux /boot/vmlinuz-$v root=LABEL=rootfs rw console=tty0 console=ttyS0,115200n8
    initrd /boot/initramfs-$v.img
}
EOF
cat > /tmp/gomi-grub-bootstrap.cfg <<EOF
search --no-floppy --label rootfs --set=root
set prefix=(\$root)/boot/grub2
configfile (\$root)$config_path
EOF' sh " +:+ shellQuote (ca_SimpleGrubConfigPath cap).

Definition bind_mounts : string :=
  sh "set -e; for d in dev proc sys run; do mountpoint -q ~$TARGET_MOUNT_POINT/$d~ || mount --bind ~/$d~ ~$TARGET_MOUNT_POINT/$d~; done; ".
Definition in_target : string := sh "chroot ~$TARGET_MOUNT_POINT~ ".

(** The commands for a disk that BIOS boots. *)
Definition bios_bootloader (cap : osInstallCapability) (targetDisk rootFilesystem : string) : string :=
  if ca_EmbedBIOSBootstrap cap then
    bind_mounts +:+ in_target +:+ shellQuote (ca_GrubInstallCommand cap) +:+ " --target=i386-pc --recheck " +:+ shellQuote targetDisk
    +:+ "; " +:+ buildRootFSSimpleGrubConfigCommand cap +:+ "; " +:+ in_target +:+ shellQuote (ca_GrubMkimageCommand cap)
    +:+ " -O i386-pc -p /boot/grub2 -c /tmp/gomi-grub-bootstrap.cfg -o /boot/grub2/i386-pc/core.img biosdisk part_gpt "
    +:+ shellQuote (rootFSGrubModule rootFilesystem) +:+ " search search_label configfile normal linux gzio; " +:+ in_target
    +:+ shellQuote (ca_GrubBIOSSetupCommand cap) +:+ " -d /boot/grub2/i386-pc " +:+ shellQuote targetDisk
  else
    bind_mounts +:+ in_target +:+ shellQuote (ca_GrubMkconfigCommand cap) +:+ " -o " +:+ shellQuote (ca_GrubConfigPath cap) +:+ "; "
    +:+ in_target +:+ shellQuote (ca_GrubInstallCommand cap) +:+ " --target=i386-pc --recheck " +:+ shellQuote targetDisk.

Definition esp_config (cap : osInstallCapability) : string :=
  if negb (ca_NeedsESPGrubConfig cap) then ":" else
  let configFile := if ca_SimpleGrubConfigPath cap ==? "" then "\$prefix/grub.cfg" else "\$prefix/" +:+ filepath_Base (ca_SimpleGrubConfigPath cap) in
  "bootloader_id=" +:+ shellQuote (ca_BootloaderID cap)
  +:+ sh "; root_uuid=~$(blkid -s UUID -o value ~$(findmnt -no SOURCE ~$TARGET_MOUNT_POINT~)~)~; cfg=~search --no-floppy --fs-uuid --set=root ${root_uuid}\nset prefix=(\$root)/boot/grub2\nconfigfile "
  +:+ configFile
  +:+ sh "\n~; mkdir -p ~$TARGET_MOUNT_POINT/boot/efi/EFI/$bootloader_id~ ~$TARGET_MOUNT_POINT/boot/efi/EFI/BOOT~; printf '%b' ~$cfg~ > ~$TARGET_MOUNT_POINT/boot/efi/EFI/$bootloader_id/grub.cfg~; printf '%b' ~$cfg~ > ~$TARGET_MOUNT_POINT/boot/efi/EFI/BOOT/grub.cfg~".

Definition fallback_copy (cap : osInstallCapability) : string :=
  if negb (ca_CopyEFIToFallback cap) then ":" else
  "bootloader_id=" +:+ shellQuote (ca_BootloaderID cap)
  +:+ sh "; packaged_efi=~$(find ~$TARGET_MOUNT_POINT/usr/lib/efi/grub2~ -path ~*/EFI/$bootloader_id/grubx64.efi~ -type f 2>/dev/null | head -n 1 || true)~; if [ -n ~$packaged_efi~ ]; then mkdir -p ~$TARGET_MOUNT_POINT/boot/efi/EFI/$bootloader_id~ ~$TARGET_MOUNT_POINT/boot/efi/EFI/BOOT~; cp ~$packaged_efi~ ~$TARGET_MOUNT_POINT/boot/efi/EFI/$bootloader_id/grubx64.efi~; cp ~$packaged_efi~ ~$TARGET_MOUNT_POINT/boot/efi/EFI/BOOT/BOOTX64.EFI~; elif [ -f ~$TARGET_MOUNT_POINT/boot/efi/EFI/$bootloader_id/grubx64.efi~ ]; then mkdir -p ~$TARGET_MOUNT_POINT/boot/efi/EFI/BOOT~; cp ~$TARGET_MOUNT_POINT/boot/efi/EFI/$bootloader_id/grubx64.efi~ ~$TARGET_MOUNT_POINT/boot/efi/EFI/BOOT/BOOTX64.EFI~; fi".

Definition efi_args (args : list string) : string :=
  foldl (fun acc arg => if TrimSpace arg !=? "" then acc +:+ " " +:+ shellQuote arg else acc) "" args.

Definition uefi_install (cap : osInstallCapability) : string :=
  if ca_SkipUEFIGrubInstall cap then ":" else
  in_target +:+ shellQuote (ca_GrubInstallCommand cap) +:+ " --target=x86_64-efi --efi-directory=/boot/efi --bootloader-id="
  +:+ shellQuote (ca_BootloaderID cap) +:+ (if ca_InstallRemovableEFI cap then " --removable" else "") +:+ " --recheck" +:+ efi_args (ca_GrubEFIArgs cap).

Definition buildRootFSBootloaderCommand (cap : osInstallCapability) (targetDisk : string) (firmware : Firmware) (rootFilesystem : string) : string :=
  if firmware ==? FirmwareBIOS then bios_bootloader cap targetDisk rootFilesystem else
  bind_mounts +:+ buildRootFSSimpleGrubConfigCommand cap +:+ "; " +:+ uefi_install cap +:+ "; " +:+ in_target +:+ shellQuote (ca_GrubMkconfigCommand cap)
  +:+ " -o " +:+ shellQuote (ca_GrubConfigPath cap) +:+ "; " +:+ esp_config cap +:+ "; " +:+ fallback_copy cap.

(** ** deploy_types.go: the configuration *)

Record curtinInstall := mkCurtinInstall { cn_LogFile : string; cn_PostFiles : list string; cn_SaveInstallConfig : string; cn_SaveInstallLog : string }.
Record curtinReportingHook := mkCurtinReportingHook { ch_Type : string; ch_Endpoint : string; ch_Level : string }.
Record curtinSource := mkCurtinSource { cu_Type : string; cu_URI : string }.
Definition commands : Type := gmap string (list string).

Record curtinConfig := mkCurtinConfig {
  cc_EarlyCommands : commands; cc_Install : curtinInstall; cc_Reporting : curtinReportingHook; cc_Devices : list string;
  cc_Sources : gmap string curtinSource; cc_Storage : curtinStorage; cc_Stages : list string; cc_PartitioningCommands : commands;
  cc_LateCommands : commands }.
Global Instance curtinConfig_fields : Fields curtinConfig :=
  fpure mkCurtinConfig <*> cc_EarlyCommands <*> cc_Install <*> cc_Reporting <*> cc_Devices <*> cc_Sources <*> cc_Storage <*> cc_Stages
    <*> cc_PartitioningCommands <*> cc_LateCommands.

(** ** sealed_bootstrap.go *)

(** [^[a-f0-9]{64}$] and [^capi-[a-z0-9-]+$]. *)
Definition fingerprintPattern (s : string) : bool :=
  (len s =? 64) && forallb (fun c => is_digit c || ((97 <=? byte_val c) && (byte_val c <=? 102))) (to_bytes s).
Definition claimOwnerPattern (s : string) : bool :=
  HasPrefix s "capi-" && (6 <=? len s) && forallb (fun c => is_lower c || is_digit c || (c ==? "-"%char)) (drop 5 (to_bytes s)).
Definition check_seed (seed : SealedBootstrap) : result unit :=
  if negb (fingerprintPattern (sb_KeyFingerprint seed)) || negb (claimOwnerPattern (sb_Owner seed)) then Err (ErrNew "invalid enrolled bootstrap identity")
  else if negb (sb_Cleanup seed) && (sb_Envelope seed ==? []) then Err (ErrNew "sealed bootstrap envelope is required")
  else Ok tt.

Definition stage : string := "/run/gomi-sealed-bootstrap".
Definition early_command (disk host : string) (seed : SealedBootstrap) : string :=
  "set -eu; umask 077; install -d -m 700 " +:+ stage +:+ "; gomi-preserve-identity --disk " +:+ shellQuote disk +:+ " --fingerprint "
  +:+ shellQuote (sb_KeyFingerprint seed) +:+ " --output " +:+ stage +:+ "/identity"
  +:+ (if sb_Cleanup seed then "" else
       "; printf '%s' " +:+ shellQuote (b64_std (sb_Envelope seed)) +:+ " | base64 -d > " +:+ stage +:+ "/envelope.json; gomi-unseal-bootstrap --key "
       +:+ stage +:+ "/identity/ssh_host_rsa_key --host " +:+ shellQuote host +:+ " --owner " +:+ shellQuote (sb_Owner seed) +:+ " --input "
       +:+ stage +:+ "/envelope.json --output " +:+ stage +:+ "/bootstrap.yaml").
Definition late_command (seed : SealedBootstrap) : string :=
  sh "set -eu; install -d -m 755 ~$TARGET_MOUNT_POINT/etc/ssh~; for key in " +:+ stage
  +:+ sh "/identity/ssh_host_*_key; do install -m 600 ~$key~ ~$TARGET_MOUNT_POINT/etc/ssh/$(basename ~$key~)~; install -m 644 ~$key.pub~ ~$TARGET_MOUNT_POINT/etc/ssh/$(basename ~$key~).pub~; done"
  +:+ (if sb_Cleanup seed then "" else
       "; gomi-merge-bootstrap --bootstrap " +:+ stage +:+ sh "/bootstrap.yaml --seed ~$TARGET_MOUNT_POINT/var/lib/cloud/seed/nocloud~ --owner "
       +:+ shellQuote (sb_Owner seed)).

Definition configureSealedBootstrap (cfg : curtinConfig) (m : Machine) (disk : string) : result curtinConfig :=
  match m_SealedBootstrap m with
  | None => Ok cfg
  | Some seed =>
      _ ← check_seed seed;
      Ok (cfg <| cc_EarlyCommands := {["00-gomi-preserve-bootstrap" := ["sh"; "-c"; early_command disk (m_Name m) seed]]} |>
              <| cc_LateCommands := <["99-gomi-sealed-bootstrap" := ["sh"; "-c"; late_command seed]]> (cc_LateCommands cfg) |>)
  end.

(** ** curtin_config.go: the commands after the installation *)

Definition late_commands (seedURL rootFilesystem bootloader : string) : list string :=
  [ sh "set -e; d=~$TARGET_MOUNT_POINT/var/lib/cloud/seed/nocloud~; mkdir -p ~$d~; for f in user-data meta-data vendor-data network-config; do curl -fsS -o ~$d/$f~ "
      +:+ shellQuote seedURL +:+ "$f; done";
    sh "mkdir -p ~$TARGET_MOUNT_POINT/etc/cloud/cloud.cfg.d~; printf '%s\n' 'datasource_list: [ NoCloud, None ]' 'datasource:' '  NoCloud:' '    seedfrom: /var/lib/cloud/seed/nocloud/' 'ssh_deletekeys: false' > ~$TARGET_MOUNT_POINT/etc/cloud/cloud.cfg.d/99_gomi_nocloud.cfg~; rm -f ~$TARGET_MOUNT_POINT~/etc/cloud/cloud.cfg.d/50-curtin-networking.cfg ~$TARGET_MOUNT_POINT~/etc/netplan/*.yaml";
    sh "mkdir -p ~$TARGET_MOUNT_POINT/dev~; if [ ! -e ~$TARGET_MOUNT_POINT/dev/null~ ]; then mknod -m 666 ~$TARGET_MOUNT_POINT/dev/null~ c 1 3; else chmod 666 ~$TARGET_MOUNT_POINT/dev/null~; fi";
    sh "if [ -x ~$TARGET_MOUNT_POINT/usr/bin/ssh-keygen~ ]; then rm -f ~$TARGET_MOUNT_POINT~/etc/ssh/ssh_host_*_key ~$TARGET_MOUNT_POINT~/etc/ssh/ssh_host_*_key.pub; chroot ~$TARGET_MOUNT_POINT~ ssh-keygen -A; fi";
    buildRootFSFstabCommand rootFilesystem;
    sh "if [ -x ~$TARGET_MOUNT_POINT/usr/sbin/netplan~ ] && [ -x ~$TARGET_MOUNT_POINT/lib/systemd/systemd-networkd~ ]; then chroot ~$TARGET_MOUNT_POINT~ systemctl enable systemd-networkd; fi";
    sh "sed -i 's/discard,errors=remount-ro/defaults,errors=remount-ro/g' ~$TARGET_MOUNT_POINT/etc/fstab~ 2>/dev/null || true; sed -i -E 's/(root=[^ ]+) ro /\1 rw /g' ~$TARGET_MOUNT_POINT/boot/grub/grub.cfg~ 2>/dev/null || true";
    bootloader ].
(** Numbered from 10, each run by [sh -c]. *)
Definition numbered (l : list string) : commands :=
  list_to_map (imap (fun i cmd => (Itoa (Z.of_nat i + 10) +:+ "-gomi-late", ["sh"; "-c"; cmd])) l).

(** ** How a shell reads a command

    The token recognition of POSIX (2.2, 2.3) as far as these commands need it: quotes,
    escapes, blanks and operators.  A character of a word is literal, or the shell may
    still expand it.  (Comments and quotes within a substitution are not read.) *)
Inductive lex_mode := Plain | Single | Double | Escape | DoubleEscape.
Definition word : Type := list (bool * ascii).
Inductive token := Word (w : word) | Op (c : ascii).
Global Instance token_eq_dec : EqDecision token.
Proof. solve_decision. Defined.
Record lex_state := mkLex { lx_mode : lex_mode; lx_cur : option word; lx_out : list token }.

Definition lex_add (c : bool * ascii) (st : lex_state) : lex_state := mkLex (lx_mode st) (Some (default [] (lx_cur st) ++ [c])) (lx_out st).
Definition lex_to (m : lex_mode) (st : lex_state) : lex_state := mkLex m (Some (default [] (lx_cur st))) (lx_out st).
Definition lex_end (st : lex_state) : lex_state :=
  mkLex (lx_mode st) None (match lx_cur st with Some w => Word w :: lx_out st | None => lx_out st end).
Definition is_blank (c : ascii) : bool := (c ==? " "%char) || (byte_val c =? 9).
Definition is_operator (c : ascii) : bool := (byte_val c =? 10) || existsb (fun d => c ==? d) (to_bytes ";|&<>()").
Definition is_dq (c : ascii) : bool := byte_val c =? 34.
Definition expands (c : ascii) : bool := (c ==? "$"%char) || (c ==? "`"%char).

Definition lex_step (st : lex_state) (c : ascii) : lex_state :=
  match lx_mode st with
  | Plain => if c ==? "'"%char then lex_to Single st else if is_dq c then lex_to Double st else if c ==? "\"%char then lex_to Escape st
             else if is_blank c then lex_end st else if is_operator c then let e := lex_end st in mkLex Plain None (Op c :: lx_out e)
             else lex_add (false, c) st
  | Single => if c ==? "'"%char then lex_to Plain st else lex_add (true, c) st
  | Double => if is_dq c then lex_to Plain st else if c ==? "\"%char then lex_to DoubleEscape st else lex_add (negb (expands c), c) st
  | Escape => if byte_val c =? 10 then lex_to Plain st else lex_to Plain (lex_add (true, c) st)
  | DoubleEscape => if byte_val c =? 10 then lex_to Double st
                    else if expands c || is_dq c || (c ==? "\"%char) then lex_to Double (lex_add (true, c) st)
                    else lex_to Double (lex_add (true, c) (lex_add (true, "\"%char) st))
  end.
Definition lex_run (st : lex_state) (s : string) : lex_state := foldl lex_step st (to_bytes s).
(** The tokens of a command, when its quotes are closed. *)
Definition lex (s : string) : option (list token) :=
  let st := lex_run (mkLex Plain None []) s in
  match lx_mode st with Plain => Some (reverse (lx_out (lex_end st))) | _ => None end.

Definition literal (s : string) : word := pair true <$> to_bytes s.
Definition plain (s : string) : word := pair false <$> to_bytes s.

Lemma lex_run_app st a b : lex_run st (a +:+ b) = lex_run (lex_run st a) b.
Proof. unfold lex_run. by rewrite to_bytes_app, foldl_app. Qed.

(** Within single quotes every byte is literal, a single quote by way of double ones. *)
Lemma lex_quoted v cur out : lex_run (mkLex Single (Some cur) out) (ReplaceByte v "'"%char (sh "'~'~'")) = mkLex Single (Some (cur ++ literal v)) out.
Proof.
  unfold ReplaceByte, lex_run, literal. rewrite to_of_bytes. revert cur. induction (to_bytes v) as [|c l IH]; intros cur; [by rewrite app_nil_r|].
  cbn [mbind list_bind fmap list_fmap]. rewrite foldl_app, cons_middle, app_assoc. destruct (c ==? "'"%char) eqn:E.
  - apply bool_decide_eq_true in E as ->. rewrite <- IH. reflexivity.
  - rewrite <- IH. f_equal. cbn [foldl]. unfold lex_step. cbn [lx_mode]. by rewrite E.
Qed.

(** A quoted value continues the current word by its bytes, all of them literal. *)
Lemma lex_shellQuote v cur out : lex_run (mkLex Plain cur out) (shellQuote v) = mkLex Plain (Some (default [] cur ++ literal v)) out.
Proof.
  unfold shellQuote. rewrite !lex_run_app. change (lex_run (mkLex Plain cur out) "'") with (mkLex Single (Some (default [] cur)) out).
  by rewrite lex_quoted.
Qed.

Definition words (s : list string) : list token := (Word ∘ plain) <$> s.
Definition semicolon : token := Op ";"%char.
(** The word [~$TARGET_MOUNT_POINT~]: expanded, and then one word. *)
Definition mount_point : token := Word ((false, "$"%char) :: literal "TARGET_MOUNT_POINT").

(** The text of a step, with what it leaves behind. *)
Ltac lex_text :=
  match goal with
  | |- context [lex_run ?st ?s] =>
      lazymatch s with context [shellQuote] => fail | _ => idtac end;
      lazymatch st with context [lex_run] => fail | _ => idtac end;
      let x := eval vm_compute in (lex_run st s) in
      replace (lex_run st s) with x by (vm_compute; reflexivity)
  end.
Ltac lex_value :=
  match goal with |- context [lex_run (mkLex Plain ?c ?o) (shellQuote ?v)] => rewrite (lex_shellQuote v c o); generalize (literal v); intro end.

Definition preserve_tokens (disk : string) (seed : SealedBootstrap) : list token :=
  words ["set"; "-eu"] ++ [semicolon] ++ words ["umask"; "077"] ++ [semicolon] ++ words ["install"; "-d"; "-m"; "700"; stage] ++ [semicolon]
  ++ words ["gomi-preserve-identity"; "--disk"] ++ [Word (literal disk)] ++ words ["--fingerprint"] ++ [Word (literal (sb_KeyFingerprint seed))]
  ++ words ["--output"; stage +:+ "/identity"].
Definition unseal_tokens (host : string) (seed : SealedBootstrap) : list token :=
  [semicolon] ++ words ["printf"] ++ [Word (literal "%s"); Word (literal (b64_std (sb_Envelope seed))); Op "|"%char] ++ words ["base64"; "-d"]
  ++ [Op ">"%char] ++ words [stage +:+ "/envelope.json"] ++ [semicolon]
  ++ words ["gomi-unseal-bootstrap"; "--key"; stage +:+ "/identity/ssh_host_rsa_key"; "--host"] ++ [Word (literal host)] ++ words ["--owner"]
  ++ [Word (literal (sb_Owner seed))] ++ words ["--input"; stage +:+ "/envelope.json"; "--output"; stage +:+ "/bootstrap.yaml"].

Lemma early_tokens disk host seed :
  lex (early_command disk host seed) = Some (preserve_tokens disk seed ++ if sb_Cleanup seed then [] else unseal_tokens host seed).
Proof.
  unfold early_command, lex, preserve_tokens, unseal_tokens. destruct (sb_Cleanup seed); rewrite !lex_run_app.
  - repeat (lex_text || lex_value). vm_compute. reflexivity.
  - repeat (lex_text || lex_value). vm_compute. reflexivity.
Qed.

(** The tokens of a text that is a constant. *)
Definition text_tokens (s : string) : list token := default [] (lex s).
Definition quoted (s : string) : token := Word (literal s).
Definition merge_tokens (owner : string) : list token :=
  text_tokens (sh "set -eu; install -d -m 755 ~$TARGET_MOUNT_POINT/etc/ssh~; for key in " +:+ stage
    +:+ sh "/identity/ssh_host_*_key; do install -m 600 ~$key~ ~$TARGET_MOUNT_POINT/etc/ssh/$(basename ~$key~)~; install -m 644 ~$key.pub~ ~$TARGET_MOUNT_POINT/etc/ssh/$(basename ~$key~).pub~; done")
  ++ [semicolon] ++ words ["gomi-merge-bootstrap"; "--bootstrap"; stage +:+ "/bootstrap.yaml"; "--seed"]
  ++ [Word ((false, "$"%char) :: literal "TARGET_MOUNT_POINT/var/lib/cloud/seed/nocloud")] ++ words ["--owner"] ++ [quoted owner].
Lemma late_tokens seed : sb_Cleanup seed = false → lex (late_command seed) = Some (merge_tokens (sb_Owner seed)).
Proof.
  intros E. unfold late_command, lex, merge_tokens, quoted. rewrite E. rewrite !lex_run_app.
  repeat (lex_text || lex_value). vm_compute. reflexivity.
Qed.

(** The families that can be installed have one of two sets of commands. *)
Lemma capability_cases family cap : installCapabilityForOSFamily family = Ok cap →
  installCapabilityForOSFamily "fedora" = Ok cap ∨ installCapabilityForOSFamily "debian" = Ok cap ∨ installCapabilityForOSFamily "ubuntu" = Ok cap.
Proof.
  unfold installCapabilityForOSFamily at 1. case_match eqn:E1; [apply bool_decide_eq_true in E1; rewrite E1; intros <-; by left|].
  case_match eqn:E2; [|by case_match]. apply orb_true_iff in E2 as [E2|E2]; apply bool_decide_eq_true in E2; rewrite E2; intros <-; auto.
Qed.

Lemma module_cases fs : rootFSGrubModule fs = "xfs" ∨ rootFSGrubModule fs = "btrfs" ∨ rootFSGrubModule fs = "ext2".
Proof. unfold rootFSGrubModule. repeat case_match; auto. Qed.

(** A value that is a constant of the command. *)
Ltac lex_constant :=
  match goal with |- context [lex_run (mkLex Plain ?c ?o) (shellQuote ?v)] => tryif is_var v then fail else rewrite (lex_shellQuote v c o) end.
(** A value whose word has a name. *)
Ltac lex_known Hw :=
  match goal with |- context [lex_run (mkLex Plain ?c ?o) (shellQuote ?v)] => rewrite (lex_shellQuote v c o), <- Hw end.
Ltac commands_of_family :=
  unfold bios_bootloader, bind_mounts, in_target, buildRootFSSimpleGrubConfigCommand;
  cbn [ca_EmbedBIOSBootstrap ca_GrubInstallCommand ca_GrubMkconfigCommand ca_GrubMkimageCommand ca_GrubBIOSSetupCommand ca_GrubConfigPath
       ca_SimpleGrubConfigPath]; try (rewrite bool_decide_eq_false_2 by discriminate).

(** The commands of a disk that BIOS boots: what the command says itself, the constants of
    the family, and the disk, each as one literal word. *)
Definition chroot_tokens : list token := words ["chroot"] ++ [mount_point].
Definition bios_tokens (cap : osInstallCapability) (disk fs : string) : list token :=
  let install := [quoted (ca_GrubInstallCommand cap)] ++ words ["--target=i386-pc"; "--recheck"] ++ [quoted disk] in
  if ca_EmbedBIOSBootstrap cap then
    text_tokens bind_mounts ++ chroot_tokens ++ install ++ [semicolon] ++ text_tokens (buildRootFSSimpleGrubConfigCommand cap) ++ [semicolon]
    ++ chroot_tokens ++ [quoted (ca_GrubMkimageCommand cap)]
    ++ words ["-O"; "i386-pc"; "-p"; "/boot/grub2"; "-c"; "/tmp/gomi-grub-bootstrap.cfg"; "-o"; "/boot/grub2/i386-pc/core.img"; "biosdisk"; "part_gpt"]
    ++ [quoted (rootFSGrubModule fs)] ++ words ["search"; "search_label"; "configfile"; "normal"; "linux"; "gzio"] ++ [semicolon]
    ++ chroot_tokens ++ [quoted (ca_GrubBIOSSetupCommand cap)] ++ words ["-d"; "/boot/grub2/i386-pc"] ++ [quoted disk]
  else
    text_tokens bind_mounts ++ chroot_tokens ++ [quoted (ca_GrubMkconfigCommand cap)] ++ words ["-o"] ++ [quoted (ca_GrubConfigPath cap); semicolon]
    ++ chroot_tokens ++ install.
Lemma bios_read family cap fs disk : installCapabilityForOSFamily family = Ok cap →
  lex (buildRootFSBootloaderCommand cap disk FirmwareBIOS fs) = Some (bios_tokens cap disk fs).
Proof.
  unfold buildRootFSBootloaderCommand. rewrite bool_decide_eq_true_2 by done. unfold bios_tokens, quoted.
  intros [H|[H|H]]%capability_cases; vm_compute in H; injection H as <-; commands_of_family; destruct (module_cases fs) as [E|[E|E]]; rewrite ?E;
    (remember (literal disk) as w eqn:Hw; unfold lex; rewrite ?lex_run_app; repeat (lex_text || lex_constant || lex_known Hw); vm_compute; reflexivity).
Qed.

(** C32: nothing the server fills into a command can change the command.  Whatever bytes
    the path of a disk, the name of a host, an owner, a fingerprint or an envelope
    consists of, a shell reads the commands that preserve the host's identity, unseal
    and merge its bootstrap and install the boot loader of a disk that BIOS boots as the
    same programs, operators and options, with each of those values, wherever it is
    used, as one argument, literally. *)
Theorem installer_arguments_literal (family fs disk host : string) (seed : SealedBootstrap) (cap : osInstallCapability) (Hcap : installCapabilityForOSFamily family = Ok cap) :
  lex (early_command disk host seed) = Some (preserve_tokens disk seed ++ if sb_Cleanup seed then [] else unseal_tokens host seed)
  ∧ (sb_Cleanup seed = false → lex (late_command seed) = Some (merge_tokens (sb_Owner seed)))
  ∧ lex (buildRootFSBootloaderCommand cap disk FirmwareBIOS fs) = Some (bios_tokens cap disk fs).
Proof. split_and!; [apply early_tokens|apply late_tokens|by eapply bios_read]. Qed.

(** A path that ends the command and starts another, were it not quoted. *)
Definition hostile_disk : string := "/dev/sda'; reboot; '".
Definition hostile_seed : SealedBootstrap := mkSealedBootstrap false "capi-$(reboot)" "" [].
Lemma installer_arguments_literal_witness :
  match installCapabilityForOSFamily "Fedora" with
  | Ok cap => lex (buildRootFSBootloaderCommand cap hostile_disk FirmwareBIOS "ext4") = Some (bios_tokens cap hostile_disk "ext4")
      ∧ List.filter (fun t => t ==? quoted hostile_disk) (bios_tokens cap hostile_disk "ext4") = [quoted hostile_disk; quoted hostile_disk]
      ∧ lex (late_command hostile_seed) = Some (merge_tokens "capi-$(reboot)")
  | Err _ => False
  end.
Proof.
  destruct (installCapabilityForOSFamily "Fedora") as [cap|] eqn:E; [|vm_compute in E; discriminate E].
  destruct (installer_arguments_literal "Fedora" "ext4" hostile_disk "n1" hostile_seed cap E) as (_ & Hl & Hb).
  split; [exact Hb|]. split; [vm_compute in E; injection E as <-; vm_compute; reflexivity|exact (Hl eq_refl)].
Defined.
