(* ===== verification/PxeCallback.v ===== *)
(** * infra/pxehttp: the callbacks of a provisioning attempt

    What installers report and how the records change: the lookup of a node by its
    provisioning token (inventory_lookup.go, deploy_state.go), progress events and
    timings (deploy_events.go, deploy_event_state.go, deploy_markers.go), the hardware
    report (deploy_inventory.go) and the completion of an installation
    (install_complete.go).  Machines are the rows of BareMetal.v, so that the guards
    of claimed hosts are part of every write. *)
From S2P Require Import Prelude GoStrings GoNet GoPath GoTime Handler Resource Power Store OsImage Machine Hypervisor Vm VmStore BareMetal HwInfo.
From Stdlib Require Import Floats.SpecFloat.

(** ** State, answers, surroundings *)

Record PxeStores := mkPxeStores { px_vms : vms; px_db : Db; px_hypervisors : HvState; px_hwinfo : gmap string HardwareInfo }.
Global Instance PxeStores_fields : Fields PxeStores := fpure mkPxeStores <*> px_vms <*> px_db <*> px_hypervisors <*> px_hwinfo.

Inductive pxe_body : Type :=
| PError (msg : string) | PStatus (status : string) | PVm (status : string) (v : VirtualMachine) | PMachine (status : string) (m : Machine)
| PFile (full : string) | PText (text : string) | PHttpError (msg : string) | PUnhandled (e : error) | PNoContent.
Record PxeReply := mkPxeReply { pr_Status : Z; pr_Body : pxe_body }.
Definition pxe_error (status : Z) (msg : string) : PxeReply := mkPxeReply status (PError msg).
Definition pxe_error_of (status : Z) (e : error) : PxeReply := pxe_error status (Error e).

(** What a handler does outside the stores. *)
Inductive pxe_event : Type :=
| PAudit (machine action result msg : string) (details : gmap string string)
| PBootOrder (m : MachineInfo) (order : BootOrder)
| PProbe (ip : string)
| PSend (full : string).

(** The configuration: the images if there is a service for them, and which of the
    other services are there. *)
Record PxeHandler := mkPxeHandler {
  ph_osimages : option (gmap string OSImage); ph_powerExecutor : bool; ph_hypervisors : bool; ph_hwinfo : bool; ph_authStore : bool }.

(** The surroundings, by the number of the step: the other requests, the clock, the
    answers of the power executor and of an SSH probe; how the resolver answers; and
    what package time and strconv make of a timestamp, RFC 3339 or seconds. *)
Record PxeEnv := mkPxeEnv {
  pe_others : nat → PxeStores → PxeStores; pe_clock : nat → Time; pe_bootOrder : nat → MachineInfo → BootOrder → option error;
  pe_probe : nat → string → option error; pe_lookupHost : string → bool;
  pe_parseRFC3339 : string → option Time; pe_parseUnix : string → option Time }.

(** ** Timings: deploy_types.go, deploy_events.go *)

Definition deployEventImageApplied : string := "image_applied".
Definition provisionArtifactImageApplied : string := "imageApplied".
Definition provisionArtifactImageAppliedAt : string := "imageAppliedAt".
Definition provisionArtifactFailureLogTail : string := "failureLogTail".
Definition maxProvisionFailureLogTailLen : Z := 32 * 1024.
Definition maxProvisionTimingEvents : nat := 240.
Definition serverTimingPXEBootScript : string := "server.pxe.boot_script".
Definition serverTimingPXEBootScriptLocalBoot : string := "server.pxe.boot_script_local".
Definition serverTimingRebootToOS : string := "server.reboot_to_os".
Definition serverTimingInstallComplete : string := "server.install_complete".

Definition zero_float : spec_float := S754_zero false.

(** An open start of the same activity. *)
Definition opens (event prev : ProvisionTiming) : bool :=
  (pt_StartedAt prev !=? None) && (pt_FinishedAt prev ==? None)
  && (TrimSpace (pt_Source prev) ==? TrimSpace (pt_Source event)) && (TrimSpace (pt_Name prev) ==? TrimSpace (pt_Name event)).

(** [d.Milliseconds()] *)
Definition milliseconds (d : Duration) : Z := Z.quot d 1000000.

Definition close_timing (events : list ProvisionTiming) (event : ProvisionTiming) : ProvisionTiming :=
  match pt_FinishedAt event with
  | Some finished =>
      if pt_DurationMillis event <=? 0 then
        match List.find (opens event) (reverse events) with
        | Some prev => match pt_StartedAt prev with
                       | Some started =>
                           mkProvisionTiming (pt_Source event) (pt_Name event) (pt_EventType event) (pt_Message event) (pt_Result event)
                             (pt_Timestamp event) (Some started) (pt_FinishedAt event) (milliseconds (time_Sub finished started))
                             (pt_MonotonicSeconds event)
                       | None => event
                       end
        | None => event
        end
      else event
  | None => event
  end.

Definition keep_last (n : nat) (l : list ProvisionTiming) : list ProvisionTiming := drop (length l - n) l.

Definition append_one (events : list ProvisionTiming) (event : ProvisionTiming) : list ProvisionTiming :=
  keep_last maxProvisionTimingEvents (events ++ [close_timing events event]).
Definition appendProvisionTiming (events next : list ProvisionTiming) : list ProvisionTiming := fold_left append_one next events.

Definition serverTiming (name message result : string) (startedAt finishedAt : Time) (sizeBytes : Z) : ProvisionTiming :=
  let duration := Z.max 0 (milliseconds (time_Sub finishedAt startedAt)) in
  let message := if 0 <? sizeBytes then message +:+ " (" +:+ Itoa sizeBytes +:+ " bytes)" else message in
  mkProvisionTiming "server" name "timing" message result None (Some startedAt) (Some finishedAt) duration zero_float.

Definition markerTiming (name message : string) (at_ : Time) : ProvisionTiming :=
  mkProvisionTiming "server" name "marker" message "" (Some at_) None None 0 zero_float.

Definition hasProvisionTiming (events : list ProvisionTiming) (name : string) : bool := existsb (fun e => pt_Name e ==? name) events.

(** ** Helpers *)

Fixpoint firstNonEmpty (values : list string) : string :=
  match values with
  | [] => ""
  | v :: l => if TrimSpace v !=? "" then TrimSpace v else firstNonEmpty l
  end.

Definition trimLogTail (value : string) (maxLen : Z) : string :=
  let value := TrimSpace value in
  if (value ==? "") || (maxLen <=? 0) then ""
  else if len value <=? maxLen then value
  else of_bytes (drop (Z.to_nat (len value - maxLen)) (to_bytes value)).

Definition isTimingOnlyDeployEvent (eventType : string) : bool :=
  bool_decide (ToLower (TrimSpace eventType) ∈ ["timing"; "start"; "finish"]).

Definition eventMessage (eventType message : string) : string :=
  if TrimSpace message !=? "" then message
  else if eventType ==? deployEventImageApplied then "image applied; waiting for target OS first boot"
  else "deploy event: " +:+ eventType.

Definition machineImageApplied (m : Machine) : bool :=
  match m_Provision m with
  | Some p => EqualFold (TrimSpace (default "" (pp_Artifacts p !! provisionArtifactImageApplied))) "true"
  | None => false
  end.

Definition validateAttemptParam (target : Machine) (attemptID : string) : result unit :=
  match m_Provision target with
  | None => Err (ErrNew "provisioning state is required")
  | Some p =>
      let current := TrimSpace (pp_AttemptID p) in
      if current ==? "" then Err (ErrNew "provisioning attempt id is required")
      else if TrimSpace attemptID ==? "" then Err (ErrNew "attempt_id is required")
      else if TrimSpace attemptID !=? current then Err (ErrNew "attempt_id does not match current provisioning attempt")
      else Ok tt
  end.

Definition normalizeCompletionSource (raw : string) : string :=
  let normalized := ToLower (TrimSpace raw) in
  if (normalized ==? InstallConfigCurtin) || (normalized ==? InstallConfigPreseed) then normalized else "unknown".

(** [t.Format(time.RFC3339)] *)
Definition RFC3339 (t : Time) : string := RFC3339Nano (t - t `mod` Second).

Section handlers.
Context (env : PxeEnv) (h : PxeHandler).

Local Abbreviation H := (Hd PxeStores pxe_event PxeReply).
Definition pop {A} (f : PxeStores → PxeStores * A) : H A := op (pe_others env) f.
Definition pread {A} (f : PxeStores → A) : H A := op (pe_others env) (fun s => (s, f s)).
Definition clock : H Time := k ← tick; mret (pe_clock env k).

(** *** Finding a node *)

(** A machine that carries the token. *)
Definition machine_has_token (token : string) (m : Machine) : bool :=
  match m_Provision m with Some p => TrimSpace (pp_CompletionToken p) ==? token | None => false end.
Definition vm_has_token (token : string) (v : VirtualMachine) : bool := TrimSpace (ps_CompletionToken (v_Provisioning v)) ==? token.

Definition find_in {T} `{Keyed T} (f : T → bool) (m : gmap string T) : option T :=
  List.find f (merge_sort key_le (mem_values m)).

Definition findMachineByProvisionToken (token : string) : H (option Machine) :=
  let normalized := TrimSpace token in
  if normalized ==? "" then mret None else pread (fun s => find_in (machine_has_token normalized) (db_machines (px_db s))).
Definition findVirtualMachineByProvisionToken (token : string) : H (option VirtualMachine) :=
  let normalized := TrimSpace token in
  if normalized ==? "" then mret None else pread (fun s => find_in (vm_has_token normalized) (px_vms s)).

Definition requireProvisioningMachine (token : string) : H (result Machine) :=
  target ← findMachineByProvisionToken token;
  mret match target with
       | Some m => if machine_has_token (TrimSpace token) m && IsProvisioningActive m && (PXEInstallType m !=? InstallWindows) then Ok m else Err ErrNotFound
       | None => Err ErrNotFound
       end.

(** *** Writing a machine *)

Definition machines_Get (name : string) : H (result Machine) := pread (fun s => mem_get (db_machines (px_db s)) name).
Definition machines_Upsert (m : Machine) : H (result unit) :=
  pop (fun s => match machine_upsert (px_db s) m with Ok db => (s <| px_db := db |>, Ok tt) | Err e => (s, Err e) end).

Definition updateProvisionProgress (name : string) (fn : Machine → H Machine) : H (result unit) :=
  m ← machines_Get name;
  match m with
  | Err e => mret (Err e)
  | Ok m => m ← fn m; now ← clock; machines_Upsert (m <| m_UpdatedAt := now |>)
  end.

Definition progress (m : Machine) : ProvisionProgress := default zero_progress (m_Provision m).
Definition with_progress (f : ProvisionProgress → ProvisionProgress) (m : Machine) : Machine := m <| m_Provision := Some (f (progress m)) |>.
Definition add_timings (next : list ProvisionTiming) (p : ProvisionProgress) : ProvisionProgress :=
  p <| pp_Timings := appendProvisionTiming (pp_Timings p) next |>.

Definition sealed_owner (m : Machine) : bool := match m_SealedBootstrap m with Some sb => sb_Owner sb !=? "" | None => false end.
(** An inactive attempt still takes the evidence that a sealed disk was restored. *)
Definition event_refused (m : Machine) (eventType : string) : bool :=
  negb (IsProvisioningActive m) && negb ((eventType ==? deployEventImageApplied) && sealed_owner m).

Definition updateProvisionEvent (expected : Machine) (eventType : string) (fn : Machine → H Machine) : H (result unit) :=
  fresh ← machines_Get (m_Name expected);
  match fresh with
  | Err e => mret (Err e)
  | Ok fresh =>
      match m_Provision fresh, m_Provision expected with
      | Some p, Some q =>
          if (pp_AttemptID p !=? pp_AttemptID q) || (pp_CompletionToken p !=? pp_CompletionToken q)
          then mret (Err (ErrNew "provisioning attempt changed"))
          else if event_refused fresh eventType then mret (Err (ErrNew "provisioning attempt is inactive"))
          else m ← fn fresh; now ← clock; machines_Upsert (m <| m_UpdatedAt := now |>)
      | _, _ => mret (Err (ErrNew "provisioning attempt changed"))
      end
  end.

Definition configureBIOSBootOrder (m : Machine) (baseMessage : string) : H string :=
  let base := if TrimSpace baseMessage ==? "" then "provisioning state updated" else baseMessage in
  if (m_Firmware m !=? FirmwareBIOS) || negb (ph_powerExecutor h) then mret base else
  match pc_Webhook (m_Power m) with
  | Some w =>
      if (pc_Type (m_Power m) !=? PowerTypeWebhook) || (TrimSpace (wh_BootOrderURL w) ==? "") then mret base else
      let mi := mkMachineInfo (m_Name m) (m_Hostname m) (m_MAC m) (m_IP m) (m_Power m) in
      k ← tick;
      _ ← emit (PBootOrder mi DefaultBIOSBootOrder);
      mret (match pe_bootOrder env k mi DefaultBIOSBootOrder with
            | Some _ => base +:+ "; BIOS boot order update failed"
            | None => base +:+ "; BIOS boot order updated"
            end)
  | None => mret base
  end.

(** ** deploy_events.go *)

(** [Timestamp any]: absent, a string or a number (written in decimal), or something
    else. *)
Inductive event_time : Type := NoTime | TimeText (s : string) | OtherTime.

Record deployEventRequest := mkDeployEventRequest {
  de_AttemptID : string; de_Type : string; de_Source : string; de_Name : string; de_Message : string; de_Reason : string; de_Result : string;
  de_LogTail : string; de_StartedAt : string; de_FinishedAt : string; de_Timestamp : event_time; de_DurationMillis : Z;
  de_MonotonicSeconds : spec_float; de_CurtinEventType : string; de_CurtinOrigin : string; de_Description : string }.
Global Instance deployEventRequest_fields : Fields deployEventRequest :=
  fpure mkDeployEventRequest <*> de_AttemptID <*> de_Type <*> de_Source <*> de_Name <*> de_Message <*> de_Reason <*> de_Result <*> de_LogTail
    <*> de_StartedAt <*> de_FinishedAt <*> de_Timestamp <*> de_DurationMillis <*> de_MonotonicSeconds <*> de_CurtinEventType <*> de_CurtinOrigin
    <*> de_Description.

Definition parseEventTime (value : string) : option Time :=
  let value := TrimSpace value in
  if value ==? "" then None else
  match pe_parseRFC3339 env value with Some t => Some t | None => pe_parseUnix env value end.
Definition parseEventTimeValue (value : event_time) : option Time := match value with TimeText s => parseEventTime s | _ => None end.

(** The first alternative that is not empty. *)
Definition orElse (a b : string) : string := if a ==? "" then b else a.

Definition provisionTimingFromDeployEvent (req : deployEventRequest) (eventType : string) (now : Time) : option ProvisionTiming :=
  let curtin := TrimSpace (de_CurtinEventType req) in
  let source := orElse (TrimSpace (de_Source req)) (orElse (TrimSpace (de_CurtinOrigin req))
                  (orElse (if curtin !=? "" then "curtin" else "") (if eventType ==? "timing" then "runner" else ""))) in
  let name := orElse (TrimSpace (de_Name req)) (orElse curtin eventType) in
  if (source ==? "") && (name ==? "") && (de_DurationMillis req <=? 0) && SFeqb (de_MonotonicSeconds req) zero_float
     && (de_StartedAt req ==? "") && (de_FinishedAt req ==? "") && match de_Timestamp req with NoTime => true | _ => false end
  then None else
  let startedAt := parseEventTime (de_StartedAt req) in
  let finishedAt := parseEventTime (de_FinishedAt req) in
  let timestamp := match parseEventTimeValue (de_Timestamp req), startedAt, finishedAt with
                   | None, None, None => Some now
                   | t, _, _ => t
                   end in
  let startedAt := if EqualFold eventType "start" && (startedAt ==? None) then timestamp else startedAt in
  let finishedAt := if EqualFold eventType "finish" && (finishedAt ==? None) then timestamp else finishedAt in
  Some (mkProvisionTiming source name eventType (firstNonEmpty [de_Message req; de_Description req]) (TrimSpace (de_Result req)) timestamp
          startedAt finishedAt (de_DurationMillis req) (de_MonotonicSeconds req)).

(** The kind of an event: what it says, what curtin says, or a timing. *)
Definition event_type (req : deployEventRequest) : string :=
  orElse (ToLower (TrimSpace (de_Type req))) (orElse (ToLower (TrimSpace (de_CurtinEventType req)))
    (if (TrimSpace (de_Source req) !=? "") || (TrimSpace (de_Name req) !=? "") then "timing" else "")).

Definition failed_progress (reason logTail : string) (now : Time) (p : ProvisionProgress) : ProvisionProgress :=
  let p := p <| pp_Active := false |> <| pp_FinishedAt := Some now |> <| pp_FailureReason := reason |> in
  let tail := trimLogTail logTail maxProvisionFailureLogTailLen in
  if tail ==? "" then p else p <| pp_Artifacts := <[provisionArtifactFailureLogTail := tail]> (pp_Artifacts p) |>.
Definition applied_progress (now : Time) (p : ProvisionProgress) : ProvisionProgress :=
  p <| pp_Artifacts := <[provisionArtifactImageAppliedAt := RFC3339 now]> (<[provisionArtifactImageApplied := "true"]> (pp_Artifacts p)) |>.

(** What every event does to the progress. *)
Definition signalled (req : deployEventRequest) (eventType message : string) (now : Time) (p : ProvisionProgress) : ProvisionProgress :=
  let p := p <| pp_LastSignalAt := Some now |> in
  let p := match provisionTimingFromDeployEvent req eventType now with Some t => add_timings [t] p | None => p end in
  if isTimingOnlyDeployEvent eventType then p else p <| pp_Message := message |>.

(** The update function of [PXEDeployEvents]. *)
Definition apply_event (req : deployEventRequest) (eventType : string) (now : Time) (m : Machine) : H Machine :=
  let message := eventMessage eventType (firstNonEmpty [de_Message req; de_Description req]) in
  let m := with_progress (signalled req eventType message now) m in
  if eventType ==? "failed" then
    let reason := firstNonEmpty [de_Reason req; de_Message req; "deploy failed"] in
    mret (with_progress (failed_progress reason (de_LogTail req) now) (m <| m_Phase := PhaseError |> <| m_LastError := reason |>))
  else if eventType ==? deployEventImageApplied then
    let m := with_progress (applied_progress now) m in
    msg ← configureBIOSBootOrder m message;
    mret (with_progress (fun p => p <| pp_Message := msg |>) m)
  else mret m.

(** [body] is the decoded event, from JSON or from a form. *)
Definition PXEDeployEvents (token attempt source : string) (body : option deployEventRequest) : H PxeReply :=
  let token := TrimSpace token in
  _ ← must (token !=? "") (pxe_error 400 "token is required");
  let queryAttemptID := TrimSpace attempt in
  target ← findMachineByProvisionToken token;
  target ← match target with
           | Some m => if m_Provision m ==? None then answer_with (pxe_error_of 404 ErrNotFound) else mret m
           | None => answer_with (pxe_error_of 404 ErrNotFound)
           end;
  _ ← must (PXEInstallType (target : Machine) !=? InstallWindows) (pxe_error 409 "Windows requires the Windows state callback");
  req ← match body with Some r => mret r | None => answer_with (pxe_error 400 "invalid body") end;
  let req := (req : deployEventRequest) <| de_Source := orElse (de_Source req) (TrimSpace source) |> in
  let eventType := event_type req in
  _ ← must (eventType !=? "") (pxe_error 400 "type is required");
  _ ← must (negb ((de_AttemptID req !=? "") && (queryAttemptID !=? "") && (TrimSpace (de_AttemptID req) !=? queryAttemptID)))
        (pxe_error 409 "attempt_id query and body mismatch");
  let attemptID := orElse queryAttemptID (TrimSpace (de_AttemptID req)) in
  _ ← unless (validateAttemptParam target attemptID) (pxe_error_of 409);
  _ ← must (negb (event_refused target eventType)) (pxe_error 409 "provisioning attempt is inactive");
  now ← clock;
  r ← updateProvisionEvent target eventType (apply_event req eventType now);
  _ ← unless r (pxe_error_of 500);
  mret (mkPxeReply 200 (PStatus "ok")).

(** ** deploy_markers.go *)

Definition appendMachineTimingOnce (m : Machine) (timing : ProvisionTiming) : H unit :=
  if negb (IsProvisioningActive m) || (PXEInstallType m ==? InstallWindows) || hasProvisionTiming (pp_Timings (progress m)) (pt_Name timing) then mret tt else
  _ ← updateProvisionProgress (m_Name m) (fun fresh =>
        mret (if negb (IsProvisioningActive fresh) || hasProvisionTiming (pp_Timings (progress fresh)) (pt_Name timing) then fresh
              else with_progress (add_timings [timing]) fresh));
  mret tt.

Definition recordPXEBootScriptMarker (m : Machine) (installScript : bool) : H unit :=
  now ← clock;
  if installScript then appendMachineTimingOnce m (markerTiming serverTimingPXEBootScript "PXE boot script served (installer)" now)
  else if machineImageApplied m
  then appendMachineTimingOnce m (markerTiming serverTimingPXEBootScriptLocalBoot "PXE boot script served (local boot after image apply)" now)
  else mret tt.

(** deploy_artifacts.go: the timing of a file transfer. *)
Definition appendProvisionTimingByToken (token attemptID : string) (timing : ProvisionTiming) : H unit :=
  target ← requireProvisioningMachine token;
  match target with
  | Err _ => mret tt
  | Ok m =>
      match validateAttemptParam m attemptID with
      | Err _ => mret tt
      | Ok _ => now ← clock;
                _ ← updateProvisionProgress (m_Name m) (fun m =>
                      mret (with_progress (fun p => add_timings [timing] (p <| pp_LastSignalAt := Some now |>)) m));
                mret tt
      end
  end.

(** ** install_complete.go *)

Record pxeInstallCompleteReq := mkPxeInstallCompleteReq { ic_Token : string; ic_Type : string; ic_IP : string; ic_MAC : string; ic_Hostname : string }.

Definition OSTypeDebian : string := "debian".
Definition is_debian (family : string) : bool := EqualFold (TrimSpace family) OSTypeDebian.
Definition virtualMachineIsDebian (v : VirtualMachine) : bool :=
  match ph_osimages h with
  | Some images => (TrimSpace (v_OSImageRef v) !=? "")
                   && match images !! TrimSpace (v_OSImageRef v) with Some img => is_debian (oi_OSFamily img) | None => false end
  | None => false
  end.

Definition installCompleteSSHProbeIP (report : InstallCompleteReport) (fallback : string) : string :=
  orElse (TrimSpace (icr_IP report)) (TrimSpace fallback).

(** [None] when the node may be completed. *)
Definition probe_address (ip : string) : H (option error) :=
  if ip ==? "" then mret (Some (ErrNew "debian install-complete is waiting for a reported SSH address")) else
  k ← tick;
  _ ← emit (PProbe ip);
  mret (match pe_probe env k ip with
        | Some e => Some (ErrWrap ("debian install-complete is waiting for SSH on " +:+ ip +:+ ": ") e "")
        | None => None
        end).
Definition ensureMachineSSHReachable (m : Machine) (report : InstallCompleteReport) : H (option error) :=
  if is_debian (os_Family (m_OSPreset m)) then probe_address (installCompleteSSHProbeIP report (m_IP m)) else mret None.
Definition ensureVirtualMachineSSHReachable (v : VirtualMachine) (report : InstallCompleteReport) : H (option error) :=
  if virtualMachineIsDebian v
  then probe_address (orElse (installCompleteSSHProbeIP report (StaticIP v)) (firstNonEmpty (v_IPAddresses v)))
  else mret None.

Definition completed_vm (v : VirtualMachine) (source : string) (report : InstallCompleteReport) (now : Time) : VirtualMachine :=
  let v := v <| v_Provisioning := (v_Provisioning v) <| ps_Active := false |> <| ps_CompletedAt := Some now |> <| ps_LastSignalAt := Some now |>
                                    <| ps_CompletionSource := source |> |>
             <| v_LastError := "" |> <| v_UpdatedAt := now |> in
  let v := ApplyInstallCompleteReport v report in
  if v_Phase v ==? Vm.PhaseProvisioning then v <| v_Phase := Vm.PhaseRunning |> else v.

Definition vms_UpdateExisting (v : VirtualMachine) : H (result bool) :=
  pop (fun s => match writeExisting memory_vms (px_vms s) v with Ok (m, b) => (s <| px_vms := m |>, Ok b) | Err e => (s, Err e) end).
Definition audit_done (name action msg source : string) : H unit :=
  if ph_authStore h then emit (PAudit name action "success" msg {["source" := source]}) else mret tt.
(** [if err := ...; err != nil { 409 }] *)
Definition none_or_409 (e : option error) : H unit := match e with Some e => answer_with (pxe_error_of 409 e) | None => mret tt end.

Definition complete_vm (v : VirtualMachine) (token source : string) (report : InstallCompleteReport) : H PxeReply :=
  _ ← must (PXEInstallType v !=? InstallWindows) (pxe_error 409 "Windows requires the attempt-scoped Windows state callback");
  _ ← must (vm_has_token token v) (pxe_error 404 "provisioning token not found");
  if negb (ps_Active (v_Provisioning v)) then
    if ps_CompletedAt (v_Provisioning v) ==? None then answer_with (pxe_error 409 "provisioning token is expired")
    else mret (mkPxeReply 200 (PVm "already-finalized" v))
  else
  probe ← ensureVirtualMachineSSHReachable v report;
  _ ← none_or_409 probe;
  now ← clock;
  let updated := completed_vm v source report now in
  written ← vms_UpdateExisting updated;
  written ← unless written (pxe_error_of 500);
  _ ← must written (pxe_error 409 "vm record was deleted");
  _ ← audit_done (v_Name updated) "complete-vm-provisioning" "vm provisioning completed by pxe signal" source;
  mret (mkPxeReply 200 (PVm "ok" updated)).

Definition finalizeBIOSBootOrder (m : Machine) : H string := configureBIOSBootOrder m "provisioning completed".

(** The record of a machine whose installation is complete, but for the message and
    the timings. *)
Definition completed_machine (m : Machine) (source : string) (report : InstallCompleteReport) (now : Time) : Machine :=
  ApplyInstallCompleteReport
    (with_progress (fun p => p <| pp_Active := false |> <| pp_CompletedAt := Some now |> <| pp_LastSignalAt := Some now |>
                               <| pp_CompletionSource := source |> <| pp_Message := "provisioning completed" |>) m
     <| m_Phase := PhaseReady |> <| m_LastError := "" |> <| m_UpdatedAt := now |>) report.

(** The reboot into the installed system, when the installer said when it was done. *)
Definition reboot_timing (p : ProvisionProgress) (now : Time) : list ProvisionTiming :=
  let raw := TrimSpace (default "" (pp_Artifacts p !! provisionArtifactImageAppliedAt)) in
  if raw ==? "" then [] else
  match pe_parseRFC3339 env raw with
  | Some appliedAt => if time_After appliedAt now then []
                      else [serverTiming serverTimingRebootToOS "reboot into target OS, first boot, and readiness wait" "success" appliedAt now 0]
  | None => []
  end.

(** Auto-creation of the hypervisor of a machine with that role. *)
Definition new_hypervisor (m : Machine) (report : InstallCompleteReport) : Hypervisor :=
  mkHypervisor (m_Name m) (mkConnectionSpec ConnectionTCP (orElse (m_IP m) (icr_IP report)) 16509 "" "" "") ∅ (m_Name m) (orElse (m_BridgeName m) "br0")
    Hypervisor.PhasePending None None 0 "" None "" 0 0.
Definition auto_create (m : Machine) (report : InstallCompleteReport) : H unit :=
  if (m_Role m !=? RoleHypervisor) || negb (ph_hypervisors h) then mret tt else
  existing ← pread (fun s => mem_get (Hypervisor.hs_store (px_hypervisors s)) (m_Name m));
  match existing with
  | Ok _ => mret tt
  | Err _ =>
      now ← clock;
      pop (fun s => match Hypervisor.Create (pe_lookupHost env) (px_hypervisors s) now (new_hypervisor m report) with
                    | Ok (st, _) => (s <| px_hypervisors := st |>, tt)
                    | Err _ => (s, tt)
                    end)
  end.

Definition complete_machine (m : Machine) (token source : string) (report : InstallCompleteReport) : H PxeReply :=
  _ ← must (PXEInstallType m !=? InstallWindows) (pxe_error 409 "Windows requires the attempt-scoped Windows state callback");
  _ ← must (machine_has_token token m) (pxe_error 404 "provisioning token not found");
  if negb (IsProvisioningActive m) then
    if pp_CompletedAt (progress m) ==? None then answer_with (pxe_error 409 "provisioning token is expired")
    else mret (mkPxeReply 200 (PMachine "already-finalized" m))
  else
  probe ← ensureMachineSSHReachable m report;
  _ ← none_or_409 probe;
  now ← clock;
  let updated := completed_machine m source report now in
  msg ← finalizeBIOSBootOrder updated;
  let updated := with_progress (fun p => add_timings (reboot_timing p now ++ [markerTiming serverTimingInstallComplete
                   ("install-complete received (" +:+ source +:+ ")") now]) (p <| pp_Message := msg |>)) updated in
  written ← machines_Upsert updated;
  _ ← unless written (pxe_error_of 500);
  _ ← auto_create updated report;
  _ ← audit_done (m_Name updated) "complete-machine-provisioning" "machine provisioning completed by pxe signal" source;
  mret (mkPxeReply 200 (PMachine "ok" updated)).

(** [body] is the decoded body when there is one. *)
Definition PXEInstallComplete (token source : string) (body : option (option pxeInstallCompleteReq)) : H PxeReply :=
  req ← match body with
        | Some (Some r) => mret (Some r)
        | Some None => answer_with (pxe_error 400 "invalid body")
        | None => mret None
        end;
  let from (f : pxeInstallCompleteReq → string) := match req with Some r => TrimSpace (f r) | None => "" end in
  let token := orElse (TrimSpace token) (from ic_Token) in
  let source := orElse (TrimSpace source) (from ic_Type) in
  let report := mkInstallCompleteReport (from ic_IP) (from ic_MAC) (from ic_Hostname) in
  _ ← must (token !=? "") (pxe_error 400 "token is required");
  let source := normalizeCompletionSource source in
  targetVM ← findVirtualMachineByProvisionToken token;
  match targetVM with
  | Some v => complete_vm v token source report
  | None =>
      target ← findMachineByProvisionToken token;
      match target with
      | None => answer_with (pxe_error 404 "provisioning token not found")
      | Some m => complete_machine m token source report
      end
  end.
End handlers.

(** ** Timings are bounded *)

(** The event as it is stored: only its start and duration may have been filled in. *)
Definition stored_as (event stored : ProvisionTiming) : Prop :=
  (pt_Source stored, pt_Name stored, pt_EventType stored, pt_Message stored, pt_Result stored, pt_Timestamp stored, pt_FinishedAt stored,
   pt_MonotonicSeconds stored)
  = (pt_Source event, pt_Name event, pt_EventType event, pt_Message event, pt_Result event, pt_Timestamp event, pt_FinishedAt event,
     pt_MonotonicSeconds event)
  ∧ (pt_DurationMillis event > 0 → pt_DurationMillis stored = pt_DurationMillis event ∧ pt_StartedAt stored = pt_StartedAt event).

Lemma close_timing_stored events event : stored_as event (close_timing events event).
Proof.
  unfold close_timing. destruct (pt_FinishedAt event) eqn:Ef; [|done]. destruct (_ <=? 0) eqn:Ed; [|done].
  destruct (List.find _ _) as [prev|]; [|done]. destruct (pt_StartedAt prev); [|done]. split; cbn; [by rewrite Ef|lia].
Qed.

Lemma keep_last_length n l : (length (keep_last n l) <= n)%nat.
Proof. unfold keep_last. rewrite length_drop. lia. Qed.
Lemma keep_last_short n l : (length l <= n)%nat → keep_last n l = l.
Proof. intros. unfold keep_last. replace (length l - n)%nat with 0%nat by lia. done. Qed.
Lemma keep_last_app n l : ∃ k, l = k ++ keep_last n l ∧ (k = [] ∨ length (keep_last n l) = n).
Proof.
  exists (take (length l - n) l). unfold keep_last. rewrite take_drop. split; [done|]. rewrite length_drop.
  destruct (decide (length l <= n)%nat); [left|right; lia]. by replace (length l - n)%nat with 0%nat by lia.
Qed.

(** The timings of an attempt are bounded and the newest are kept.  Appending any
    events to any list leaves at most 240 (if anything is appended at all); what is
    left is the end of the old list followed by the new events, in order, each with at
    most its start and duration filled in; and something is dropped only from a full
    list. *)
Lemma timings_bounded (events next : list ProvisionTiming) (Hnext : next ≠ []) :
  let r := appendProvisionTiming events next in
  (length r <= maxProvisionTimingEvents)%nat
  ∧ ∃ dropped stored, events ++ stored = dropped ++ r ∧ Forall2 stored_as next stored ∧ (dropped = [] ∨ length r = maxProvisionTimingEvents).
Proof.
  cbv zeta. unfold appendProvisionTiming. revert events. induction next as [|e next IH]; [done|]. intros events. cbn [fold_left].
  set (ev1 := append_one events e). assert (H1 : (length ev1 <= maxProvisionTimingEvents)%nat) by apply keep_last_length.
  destruct (keep_last_app maxProvisionTimingEvents (events ++ [close_timing events e])) as (k & Hk & Hfull). fold (append_one events e) ev1 in Hk, Hfull.
  destruct next as [|e2 next]; [|specialize (IH ltac:(done) ev1) as (Hl & dropped & stored & Happ & Hst & Hd)].
  - cbn. split; [done|]. exists k, [close_timing events e]. split_and!; [done| |done]. constructor; [apply close_timing_stored|constructor].
  - split; [done|]. exists (k ++ dropped), (close_timing events e :: stored). split_and!.
    + rewrite <- app_assoc, <- Happ, app_assoc, <- Hk, <- app_assoc. done.
    + constructor; [apply close_timing_stored|done].
    + destruct Hd as [->|Hd]; [|by right]. rewrite app_nil_r. destruct Hfull as [->|Hf]; [by left|]. right.
      apply (f_equal length) in Happ. rewrite length_app, app_nil_l in Happ. lia.
Qed.

(** A full list loses its two oldest entries for two new ones. *)
Definition some_timing : ProvisionTiming := serverTiming "a" "b" "success" 0 1 0.
Lemma timings_bounded_witness :
  (length (appendProvisionTiming (replicate 240 some_timing) [some_timing; some_timing]) <= maxProvisionTimingEvents)%nat.
Proof. apply (timings_bounded (replicate 240 some_timing) [some_timing; some_timing]). discriminate. Defined.
