(* ===== verification/PxeEvidence.v ===== *)
(** * The callbacks of an installation and the claims of bare-metal hosts

    The handlers of BareMetalApi.v reboot a claimed host only on evidence that its
    identity is back on disk; the evidence is written by the callbacks of
    PxeCallback.v.  Here the two meet: a callback's writes are statements of the shared
    tables, and evidence is recorded only for the attempt that reported it. *)
From S2P Require Import Prelude GoStrings Handler Resource Store Machine Vm VmStore BareMetal BareMetalApi PxeCallback.

Section evidence.
Context (pemDecode : string → option (string * bytes * string)) (parsePKIX : bytes → result (option Z)).
Context (env : PxeEnv) (h : PxeHandler).

(** The other users of the tables run any of their statements, without removing a
    host. *)
Definition others_statements : Prop := ∀ k s, rtc (keep_step pemDecode parsePKIX) (px_db s) (px_db (pe_others env k s)).

Definition token_of (m : Machine) : string := match m_Provision m with Some p => pp_CompletionToken p | None => "" end.

Lemma find_in_spec {T} `{Keyed T} (f : T → bool) (m : gmap string T) x : mem_ok m → find_in f m = Some x → m !! key_of x = Some x ∧ f x = true.
Proof.
  intros Hk Hf. apply find_some in Hf as [Hin Hx]. apply list_elem_of_In in Hin. rewrite merge_sort_Permutation, elem_of_mem_values in Hin by done. done.
Qed.

Lemma boot_order_run m base st : ∃ msg st', configureBIOSBootOrder env h m base st = (st', inl msg) ∧ hst_store st' = hst_store st ∧ hst_tick st' = hst_tick st.
Proof. unfold configureBIOSBootOrder. repeat case_match; by do 2 eexists. Qed.

(** What an update of the progress keeps. *)
Definition keeps_attempt (p p' : ProvisionProgress) : Prop := pp_AttemptID p' = pp_AttemptID p ∧ pp_CompletionToken p' = pp_CompletionToken p.
Definition keeps_evidence (p p' : ProvisionProgress) : Prop := pp_Artifacts p' !! "imageApplied" = pp_Artifacts p !! "imageApplied".

Lemma signalled_keeps req ty msg now p : keeps_attempt p (signalled env req ty msg now p) ∧ keeps_evidence p (signalled env req ty msg now p).
Proof. unfold signalled. destruct (provisionTimingFromDeployEvent _ _ _ _), (isTimingOnlyDeployEvent _); done. Qed.
Lemma failed_keeps reason tail now p : keeps_attempt p (failed_progress reason tail now p) ∧ keeps_evidence p (failed_progress reason tail now p).
Proof.
  unfold failed_progress. cbv zeta. destruct (bool_decide _); [done|]. split; [done|]. unfold keeps_evidence.
  refine (lookup_insert_ne (pp_Artifacts p) provisionArtifactFailureLogTail "imageApplied" _ _). done.
Qed.

(** What an event makes of a record. *)
Lemma apply_event_spec req ty now m st st' r : apply_event env h req ty now m st = (st', r) →
  ∃ m', r = inl m' ∧ hst_store st' = hst_store st ∧ hst_tick st' = hst_tick st ∧ m_Name m' = m_Name m
  ∧ (∀ p, m_Provision m = Some p → ∃ p', m_Provision m' = Some p' ∧ keeps_attempt p p' ∧ (ty ≠ deployEventImageApplied → keeps_evidence p p')).
Proof.
  unfold apply_event. cbv zeta. set (msg := eventMessage _ _). set (f := signalled env req ty msg now).
  assert (Hf : ∀ p, keeps_attempt p (f p) ∧ keeps_evidence p (f p)) by (intros p; apply signalled_keeps).
  destruct (bool_decide (ty = "failed")) eqn:E1; [|destruct (bool_decide (ty = deployEventImageApplied)) eqn:E2].
  - intros [= <- <-]. eexists. split_and!; try done. intros p Hp.
    set (reason := firstNonEmpty [de_Reason req; de_Message req; "deploy failed"]). exists (failed_progress reason (de_LogTail req) now (f p)).
    split; [unfold with_progress at 1; unfold progress at 1; cbn; unfold progress; by rewrite Hp|].
    destruct (Hf p) as [[H1 H2] H3]. destruct (failed_keeps reason (de_LogTail req) now (f p)) as [[H4 H5] H6].
    unfold keeps_attempt, keeps_evidence in *. split; [split; congruence|]. congruence.
  - apply bool_decide_eq_true in E2. destruct (boot_order_run (with_progress (applied_progress now) (with_progress f m)) msg st) as (out & s1 & Hb & Hs & Ht).
    unfold mbind, Hd_bind. rewrite Hb. intros [= <- <-]. eexists. split_and!; try done. intros p Hp.
    exists ((applied_progress now (f p)) <| pp_Message := out |>). split; [unfold with_progress, progress; cbn; by rewrite Hp|].
    destruct (Hf p) as [H1 _]. split; [|done]. exact H1.
  - intros [= <- <-]. eexists. split_and!; try done. intros p Hp. exists (f p). split; [unfold with_progress, progress; by rewrite Hp|].
    destruct (Hf p) as [H1 H3]. done.
Qed.

(** The attempt an event names. *)
Definition named_attempt (attempt : string) (req : deployEventRequest) : string := orElse (TrimSpace attempt) (TrimSpace (de_AttemptID req)).
(** The kind of the event, with the source the query adds. *)
Definition kind_of (source : string) (req : deployEventRequest) : string := event_type (req <| de_Source := orElse (de_Source req) (TrimSpace source) |>).

(** The states before the three operations of the handler: finding the machine, reading
    it again, writing it. *)
Definition state_at (st : HState PxeStores pxe_event) : PxeStores * PxeStores * PxeStores :=
  let k := hst_tick st in
  let s1 := pe_others env k (hst_store st) in
  let s2 := pe_others env (k + 1) s1 in
  (s1, s2, pe_others env (k + 2) s2).

(** The event has written: the record read again, and what was made of it. *)
Definition event_written (token attempt source : string) (req : deployEventRequest) (st : HState PxeStores pxe_event) (s' : PxeStores) : Prop :=
  let '(s1, s2, s3) := state_at st in
  ∃ fresh m, db_machines (px_db s2) !! m_Name fresh = Some fresh ∧ TrimSpace (token_of fresh) = TrimSpace token
  ∧ TrimSpace (attempt_of fresh) = named_attempt attempt req ∧ attempt_of fresh ≠ ""
  ∧ m_Name m = m_Name fresh ∧ attempt_of m = attempt_of fresh ∧ token_of m = token_of fresh
  ∧ (identity_restored m = true → identity_restored fresh = true ∨ kind_of source req = deployEventImageApplied)
  ∧ machine_upsert (px_db s3) m = Ok (px_db s')
  ∧ (∀ hst, db_hosts (px_db s3) !! m_Name fresh = Some hst → h_Owner hst ≠ "" → h_AttemptID hst ≠ "" → h_AttemptID hst = attempt_of fresh).

Lemma upsert_guard db m db' hst : db_ok db → machine_upsert db m = Ok db' → db_hosts db !! m_Name m = Some hst → h_Owner hst ≠ "" → h_AttemptID hst ≠ "" →
  h_AttemptID hst = attempt_of m.
Proof.
  intros Hok Hu Hh Ho Ha. destruct (ok_attempt _ Hok _ _ Hh Ho Ha) as (old & Hold & _). revert Hu. unfold machine_upsert. rewrite Hold, Hh.
  rewrite (bool_decide_eq_false_2 _ Ho). cbn [negb andb]. destruct (bool_decide (h_AttemptID hst = attempt_of m)) eqn:E; [|done].
  by apply bool_decide_eq_true in E.
Qed.

Lemma attempt_named target a : validateAttemptParam target a = Ok tt → ∃ p, m_Provision target = Some p ∧ TrimSpace (pp_AttemptID p) = TrimSpace a ∧ pp_AttemptID p ≠ "".
Proof.
  unfold validateAttemptParam. destruct (m_Provision target) as [p|]; [|done]. destruct (bool_decide (TrimSpace (pp_AttemptID p) = "")) eqn:E1; [done|].
  destruct (bool_decide (TrimSpace a = "")); [done|]. destruct (bool_decide (TrimSpace a = TrimSpace (pp_AttemptID p))) eqn:E2; [|done]. intros _.
  exists p. apply bool_decide_eq_true in E2. split_and!; [done|done|]. intros E. rewrite E in E1. vm_compute in E1. done.
Qed.

Lemma update_event_inv req ty now target st st' r : updateProvisionEvent env target ty (apply_event env h req ty now) st = (st', r) →
  let s2 := pe_others env (hst_tick st) (hst_store st) in
  let s3 := pe_others env (hst_tick st + 1) s2 in
  (hst_store st' = s2 ∨ hst_store st' = s3)
  ∨ ∃ fresh p q m, db_machines (px_db s2) !! m_Name target = Some fresh ∧ m_Provision fresh = Some p ∧ m_Provision target = Some q
      ∧ pp_AttemptID p = pp_AttemptID q ∧ pp_CompletionToken p = pp_CompletionToken q ∧ m_Name m = m_Name fresh
      ∧ (∃ p', m_Provision m = Some p' ∧ keeps_attempt p p' ∧ (ty ≠ deployEventImageApplied → keeps_evidence p p'))
      ∧ machine_upsert (px_db s3) m = Ok (px_db (hst_store st')).
Proof.
  cbv zeta. intros H. unfold updateProvisionEvent, machines_Get, pread in H. apply op_bind_inv in H as (s & f & [= <- <-] & H). set (s2 := pe_others env (hst_tick st) (hst_store st)) in *.
  destruct (mem_get _ _) as [fresh|e] eqn:Eg; [|injection H as <- <-; by left; left]. apply mem_get_Ok in Eg.
  destruct (m_Provision fresh) as [p|] eqn:Ep; [|injection H as <- <-; by left; left].
  destruct (m_Provision target) as [q|] eqn:Eq; [|injection H as <- <-; by left; left].
  destruct (_ || _) eqn:Eneq; [injection H as <- <-; by left; left|]. rewrite orb_false_iff, !negb_false_iff, !bool_decide_eq_true in Eneq.
  destruct Eneq as [Ea Et]. destruct (event_refused fresh ty); [injection H as <- <-; by left; left|].
  apply hd_bind_inv in H as [(s1 & m & Hm & H)|(r0 & Hm & _)]; apply apply_event_spec in Hm as (m' & Hr & Hs & Ht & Hn & Hp); [|discriminate].
  injection Hr as ->. specialize (Hp p Ep). apply hd_bind_inv in H as [(s4 & n & [= <- <-] & H)|(r0 & ? & _)]; [|discriminate].
  unfold machines_Upsert, pop, op in H. rewrite Hs, Ht in H. cbn [hst_tick hst_store] in H. rewrite <- Nat.add_1_r in H.
  set (s3 := pe_others env (hst_tick st + 1) s2) in *. set (mw := m' <| m_UpdatedAt := _ |>) in H.
  destruct (machine_upsert (px_db s3) mw) as [db|e] eqn:Eu; injection H as <- <-; [|by left; right].
  right. exists fresh, p, q, mw. split_and!; try done.
Qed.

(** An event is recorded only for the attempt it names.  Whatever the other users
    of the tables do meanwhile, a progress event either leaves the tables to them, or
    writes one row: that of a machine which, when it was read for the update, carried
    the token and the attempt of the request.  The write keeps both; it says that the
    disk's identity was restored only if the row said so already or the event reports
    it; and if the machine's host is claimed with an attempt, it is that attempt: late
    reports of an earlier one are void. *)
Lemma event_writes_own_attempt (token attempt source : string) (body : option deployEventRequest) (st st' : HState PxeStores pxe_event)
    (r : PxeReply + PxeReply) (Henv : others_statements) (Hok : db_ok (px_db (hst_store st)))
    (Hrun : PXEDeployEvents env h token attempt source body st = (st', r)) :
  (let '(s1, s2, s3) := state_at st in hst_store st' ∈ [hst_store st; s1; s2; s3])
  ∨ ∃ req, body = Some req ∧ event_written token attempt source req st (hst_store st').
Proof.
  unfold event_written, state_at. set (k := hst_tick st). set (s1 := pe_others env k (hst_store st)). set (s2 := pe_others env (k + 1) s1).
  set (s3 := pe_others env (k + 2) s2). unfold PXEDeployEvents in Hrun. cbv zeta in Hrun. rename Hrun into H.
  apply must_inv in H as [(_ & -> & _)|[Htok H]]; [left; set_solver|]. apply negb_true_iff, bool_decide_eq_false in Htok.
  unfold findMachineByProvisionToken, pread in H. rewrite TrimSpace_idemp, (bool_decide_eq_false_2 _ Htok) in H.
  apply op_bind_inv in H as (s & found & [= <- <-] & H). fold k s1 in H.
  assert (R1 : rtc (keep_step pemDecode parsePKIX) (px_db (hst_store st)) (px_db s1)) by apply Henv. pose proof (keep_ok _ _ _ _ R1 Hok) as Hok1.
  destruct (find_in _ _) as [target|] eqn:Ef; [|injection H as <- <-; left; set_solver].
  apply find_in_spec in Ef as [_ Htarget]; [|exact (ok_machine_keys _ Hok1)].
  destruct (bool_decide (m_Provision target = None)); [injection H as <- <-; left; set_solver|].
  apply hd_bind_inv in H as [(s0 & x & [= <- <-] & H)|(r0 & ? & _)]; [|discriminate].
  apply must_inv in H as [(_ & -> & _)|[_ H]]; [left; set_solver|]. destruct body as [req|]; [|injection H as <- <-; left; set_solver].
  apply hd_bind_inv in H as [(s0 & x & [= <- <-] & H)|(r0 & ? & _)]; [|discriminate]. fold (kind_of source req) in H.
  set (req1 := req <| de_Source := _ |>) in H. change (event_type req1) with (kind_of source req) in H.
  apply must_inv in H as [(_ & -> & _)|[_ H]]; [left; set_solver|]. apply must_inv in H as [(_ & -> & _)|[_ H]]; [left; set_solver|].
  apply unless_inv in H as [(e & _ & -> & _)|([] & Hatt & H)]; [left; set_solver|]. apply attempt_named in Hatt as (q & Hq & Hqa & Hqne).
  apply must_inv in H as [(_ & -> & _)|[_ H]]; [left; set_solver|]. apply hd_bind_inv in H as [(s0 & now & [= <- <-] & H)|(r0 & ? & _)]; [|discriminate].
  assert (∃ now s5 res, updateProvisionEvent env target (kind_of source req) (apply_event env h req1 (kind_of source req) now) (mkHState (S k) s1 (hst_log st)) = (s5, res)
    ∧ hst_store st' = hst_store s5) as (now & s5 & res & Hu & ->).
  { apply hd_bind_inv in H as [(s5 & res & Hu & H)|(r0 & Hu & _)]; [|by eauto]. eexists _, s5, (inl res). split; [done|]. by destruct res; injection H as <- <-. }
  clear H. apply update_event_inv in Hu. cbn [hst_tick hst_store] in Hu. rewrite <- (Nat.add_1_r k), <- Nat.add_assoc in Hu. fold s2 s3 in Hu.
  destruct Hu as [[->| ->]|(fresh & p & q' & m & Hfresh & Hp & Hq' & Ea & Et & Hn & (p' & Hp' & [Ha' Ht'] & Hev) & Hw)]; [left; set_solver..|].
  right. exists req. split; [done|]. rewrite Hq in Hq'. injection Hq' as <-.
  assert (R2 : rtc (keep_step pemDecode parsePKIX) (px_db s1) (px_db s2)) by apply Henv. pose proof (keep_ok _ _ _ _ R2 Hok1) as Hok2.
  assert (R3 : rtc (keep_step pemDecode parsePKIX) (px_db s2) (px_db s3)) by apply Henv. pose proof (keep_ok _ _ _ _ R3 Hok2) as Hok3.
  pose proof (ok_machine_keys _ Hok2 _ _ Hfresh) as Hk. unfold key_of, Machine_keyed in Hk. exists fresh, m. unfold token_of, attempt_of. rewrite Hp, Hp'.
  unfold machine_has_token in Htarget. rewrite Hq in Htarget. apply bool_decide_eq_true in Htarget.
  split_and!; try congruence.
  - rewrite Ea, Hqa. unfold named_attempt, orElse. destruct (bool_decide _); by rewrite ?TrimSpace_idemp.
  - intros Hid. destruct (decide (kind_of source req = deployEventImageApplied)) as [|Hne]; [by right|]. left. specialize (Hev Hne).
    unfold identity_restored in *. rewrite Hp, Hp' in *. unfold keeps_evidence in Hev. by rewrite <- Hev.
  - exact Hw.
  - intros hst Hh Ho Ha. rewrite (upsert_guard _ _ _ _ Hok3 Hw) by (try done; by rewrite Hn). unfold attempt_of. rewrite Hp'. congruence.
Qed.

(** ** Callbacks are statements *)

(** The effect on the tables. *)
Definition on_tables (s s' : PxeStores) : Prop := rtc (keep_step pemDecode parsePKIX) (px_db s) (px_db s').
Abbreviation tabled := (does (pe_others env) on_tables).

Lemma steps_tables others s s' : (∀ k s, on_tables s (others k s)) → steps others on_tables s s' → on_tables s s'.
Proof.
  intros Henv. induction 1 as [s|k s s' _ IH|s s1 s' Hs _ IH]; [apply rtc_refl|..]; unfold on_tables in *; etrans; eauto.
Qed.

Lemma tabled_read {A} (f : PxeStores → A) : tabled (pread env f).
Proof. apply does_read. Qed.
Lemma tabled_pop {A} (f : PxeStores → PxeStores * A) : (∀ s, px_db (f s).1 = px_db s) → tabled (pop env f).
Proof. intros Hf. apply does_op. intros s. unfold on_tables. rewrite Hf. apply rtc_refl. Qed.
Lemma tabled_upsert m : tabled (machines_Upsert env m).
Proof.
  apply does_op. intros s. unfold on_tables. destruct (machine_upsert (px_db s) m) as [db|e] eqn:E; [|apply rtc_refl]. apply rtc_once. split; [by eapply st_machine|].
  intros n Hn. revert E. unfold machine_upsert. repeat case_match; intros [= <-]; exact Hn.
Qed.
Lemma tabled_clock : tabled (clock env).
Proof. unfold clock. eauto with handler. Qed.

Ltac tabled :=
  repeat lazymatch goal with
  | |- does _ _ (mbind _ _) => apply does_bind; [|intros ?]
  | |- does _ _ (mret _) => apply does_ret
  | |- does _ _ (answer_with _) => apply does_answer
  | |- does _ _ (unless _ _) => apply does_unless
  | |- does _ _ (must _ _) => apply does_must
  | |- does _ _ (emit _) => apply does_emit
  | |- does _ _ tick => apply does_tick
  | |- does _ _ (pread _ _) => apply tabled_read
  | |- does _ _ (machines_Upsert _ _) => apply tabled_upsert
  | |- does _ _ (clock _) => apply tabled_clock
  | |- _ => case_match
  end.

Lemma tabled_boot m base : tabled (configureBIOSBootOrder env h m base).
Proof. unfold configureBIOSBootOrder. cbv zeta. tabled. Qed.
Lemma tabled_find token : tabled (findMachineByProvisionToken env token).
Proof. unfold findMachineByProvisionToken. cbv zeta. tabled. Qed.
Lemma tabled_find_vm token : tabled (findVirtualMachineByProvisionToken env token).
Proof. unfold findVirtualMachineByProvisionToken. cbv zeta. tabled. Qed.
Lemma tabled_progress name fn : (∀ m, tabled (fn m)) → tabled (updateProvisionProgress env name fn).
Proof. intros Hf. unfold updateProvisionProgress, machines_Get. tabled. apply Hf. Qed.
Lemma tabled_event m ty fn : (∀ m, tabled (fn m)) → tabled (updateProvisionEvent env m ty fn).
Proof. intros Hf. unfold updateProvisionEvent, machines_Get. tabled. apply Hf. Qed.
Lemma tabled_apply req ty now m : tabled (apply_event env h req ty now m).
Proof. unfold apply_event. cbv zeta. tabled. apply tabled_boot. Qed.
Lemma tabled_once m t : tabled (appendMachineTimingOnce env m t).
Proof. unfold appendMachineTimingOnce. tabled. apply tabled_progress. intros. tabled. Qed.
Lemma tabled_probe ip : tabled (probe_address env ip).
Proof. unfold probe_address. tabled. Qed.
Lemma tabled_vm_write v : tabled (vms_UpdateExisting env v).
Proof. apply tabled_pop. intros s. by repeat case_match. Qed.
Lemma tabled_create hv now : tabled (pop env (fun s => match Hypervisor.Create (pe_lookupHost env) (px_hypervisors s) now hv with
  | Ok (st, _) => (s <| px_hypervisors := st |>, tt) | Err _ => (s, tt) end)).
Proof. apply tabled_pop. intros s. by repeat case_match. Qed.
Lemma tabled_complete_vm v token source report : tabled (complete_vm env h v token source report).
Proof.
  unfold complete_vm, ensureVirtualMachineSSHReachable, none_or_409, audit_done. cbv zeta. tabled; first [apply tabled_probe|apply tabled_vm_write].
Qed.
Lemma tabled_complete_machine m token source report : tabled (complete_machine env h m token source report).
Proof.
  unfold complete_machine, ensureMachineSSHReachable, none_or_409, audit_done, finalizeBIOSBootOrder, auto_create. cbv zeta.
  tabled; first [apply tabled_probe|apply tabled_boot|apply tabled_create].
Qed.

(** The requests of an installer. *)
Inductive callback : Hd PxeStores pxe_event PxeReply unit → Prop :=
| cb_event token attempt source body : callback (_ ← PXEDeployEvents env h token attempt source body; mret tt)
| cb_complete token source body : callback (_ ← PXEInstallComplete env h token source body; mret tt)
| cb_boot m b : callback (recordPXEBootScriptMarker env m b)
| cb_transfer token attempt t : callback (appendProvisionTimingByToken env token attempt t).

(** The callbacks of an installation are among the statements the claims are safe
    against.  Whatever request of an installer is served, and however it fails, all it
    does to the tables of machines and hosts is a sequence of the statements of
    BareMetal.v that removes no host; so the tables stay consistent, and the handlers
    of claims keep their guarantees while installers report. *)
Lemma callbacks_are_statements (c : Hd PxeStores pxe_event PxeReply unit) (st : HState PxeStores pxe_event) (Hc : callback c) (Henv : others_statements) :
  rtc (keep_step pemDecode parsePKIX) (px_db (hst_store st)) (px_db (hst_store (c st).1)).
Proof.
  apply (steps_tables _ _ _ Henv). revert st. change (tabled c). destruct Hc.
  - apply does_bind; [|intros; apply does_ret]. unfold PXEDeployEvents. cbv zeta. tabled; [apply tabled_find|]. apply tabled_event. intros. apply tabled_apply.
  - apply does_bind; [|intros; apply does_ret]. unfold PXEInstallComplete. cbv zeta.
    tabled; first [apply tabled_find_vm|apply tabled_complete_vm|apply tabled_find|apply tabled_complete_machine].
  - unfold recordPXEBootScriptMarker. tabled; apply tabled_once.
  - unfold appendProvisionTimingByToken, requireProvisioningMachine. tabled; [apply tabled_find|]. apply tabled_progress. intros. tabled.
Qed.
End evidence.

(** ** Runs *)

Definition quiet_pxe (others : nat → PxeStores → PxeStores) : PxeEnv :=
  mkPxeEnv others (fun _ => 1) (fun _ _ _ => None) (fun _ _ => None) (fun _ => true) (fun _ => None) (fun _ => None).
Definition pxe_alone : PxeEnv := quiet_pxe (fun _ s => s).
Definition demo_handler : PxeHandler := mkPxeHandler None false false false false.
Definition demo_stores (vs : vms) (db : Db) : PxeStores := mkPxeStores vs db (Hypervisor.mkHvState ∅ ∅ ∅) ∅.
Definition demo_request (s : PxeStores) : HState PxeStores pxe_event := mkHState 0 s [].
Definition applied_event : deployEventRequest :=
  mkDeployEventRequest "attempt-1" deployEventImageApplied "" "" "" "" "" "" "" "" NoTime 0 zero_float "" "" "".

Lemma alone_statements : others_statements demo_pem demo_key pxe_alone.
Proof. intros k s. apply rtc_refl. Qed.
Lemma demo_deploying_ok : db_ok demo_deploying.
Proof.
  apply (bm_run_ok demo_pem demo_key demo3); [|exact (bm_run_ok _ _ _ _ demo_run3 empty_ok)].
  apply rtc_once. eapply (st_commit _ _ demo3 (host_of claim_a) (installing ∅)). vm_compute. reflexivity.
Qed.

(** The installer of the claimed host reports the disk restored. *)
Definition report_applied : Hd PxeStores pxe_event PxeReply PxeReply := PXEDeployEvents pxe_alone demo_handler "t" "attempt-1" "" (Some applied_event).
Definition after_report := report_applied (demo_request (demo_stores ∅ demo_deploying)).

Lemma event_writes_own_attempt_witness :
  (identity_restored <$> db_machines (px_db (hst_store after_report.1)) !! "m1") = Some true
  ∧ event_written pxe_alone "t" "attempt-1" "" applied_event (demo_request (demo_stores ∅ demo_deploying)) (hst_store after_report.1).
Proof.
  assert (Hr : (identity_restored <$> db_machines (px_db (hst_store after_report.1)) !! "m1") = Some true) by (vm_compute; reflexivity).
  split; [exact Hr|].
  destruct (event_writes_own_attempt demo_pem demo_key pxe_alone demo_handler "t" "attempt-1" "" (Some applied_event)
    (demo_request (demo_stores ∅ demo_deploying)) after_report.1 after_report.2 alone_statements demo_deploying_ok (surjective_pairing _)) as [H|(req & E & H)].
  - exfalso. cbn in H. rewrite !elem_of_cons, elem_of_nil in H.
    assert (Hs : hst_store after_report.1 = demo_stores ∅ demo_deploying) by (clear -H; tauto). rewrite Hs in Hr. vm_compute in Hr. discriminate Hr.
  - injection E as <-. exact H.
Defined.

Lemma callbacks_are_statements_witness :
  rtc (keep_step demo_pem demo_key) demo_deploying (px_db (hst_store ((_ ← report_applied; mret tt) (demo_request (demo_stores ∅ demo_deploying))).1)).
Proof.
  apply (callbacks_are_statements demo_pem demo_key pxe_alone demo_handler (_ ← report_applied; mret tt) (demo_request (demo_stores ∅ demo_deploying))).
  - apply cb_event.
  - exact alone_statements.
Defined.

(** *** A completion that overtakes a redeployment *)

(** A redeployment arms the machine again between the lookup of the token and the
    write of the completion. *)
Definition rearmed (k : nat) (s : PxeStores) : PxeStores :=
  if bool_decide (k = 1%nat) then s <| px_vms := {["vm-1" := sample_vm "vm-1" "second"]} |> else s.

(** The completion of the first installation then replaces the record of the second:
    its window is closed and its token gone. *)
Lemma late_completion_ends_redeploy :
  let '(st', r) := PXEInstallComplete (quiet_pxe rearmed) demo_handler "first" "" None
                     (demo_request (demo_stores {["vm-1" := sample_vm "vm-1" "first"]} (mkDb ∅ ∅))) in
  match px_vms (hst_store st') !! "vm-1" with
  | Some v => ps_CompletionToken (v_Provisioning v) = "first" ∧ ps_Active (v_Provisioning v) = false ∧ v_Phase v = Vm.PhaseRunning
  | None => False
  end
  ∧ match r with inl a => pr_Status a = 200 | inr _ => False end.
Proof. vm_compute. done. Qed.
