(* ===== verification/PxeInventory.v ===== *)
(** * pxehttp/deploy_inventory.go and curtin_config.go: the hardware report

    The report of a host's hardware, the choice between an installation by curtin and
    one by disk image that answers it, and the generation of curtin's configuration. *)
From S2P Require Import Prelude GoStrings GoRegexp GoPath GoTime Handler Resource Power Store OsImage Machine Vm VmStore BareMetal HwInfo TargetDisk Curtin PxeCallback BareMetalApi ApiResource PxeEvidence.

(** ** Addresses *)

Definition macToken (raw : string) : string :=
  let m := ToLower (TrimSpace raw) in
  of_bytes (filter (fun c => is_digit c || ((97 <=? byte_val c) && (byte_val c <=? 102)) = true) (to_bytes m)).

(** [q.Encode()] of a token and, unless it is empty, an attempt: sorted by key. *)
Definition provision_query (token attemptID : string) : string :=
  (if attemptID ==? "" then "" else "attempt_id=" +:+ QueryEscape attemptID +:+ "&") +:+ "token=" +:+ QueryEscape token.
Definition buildPXECurtinConfigURL (base token attemptID : string) : string :=
  TrimRight_slash base +:+ "/curtin-config?" +:+ provision_query token attemptID.
Definition buildPXEDeployEventsURL (base token attemptID : string) : string :=
  TrimRight_slash base +:+ "/deploy-events?" +:+ provision_query token attemptID.

(** ** request_helpers.go *)

Definition backslash_to_slash (c : ascii) : ascii := if byte_val c =? 92 then "/"%char else c.
Definition sanitizePXEPath (raw : string) : result string :=
  let p := of_bytes (backslash_to_slash <$> to_bytes (TrimSpace raw)) in
  let p := path_Clean (TrimPrefix p "/") in
  if (p ==? ".") || (p ==? "..") || HasPrefix p "../" || Contains p "/../" then Err (ErrNew "invalid path") else Ok p.

(** ** curtin_config.go *)

Definition rootImageFormat (img : OSImage) : ImageFormat := EffectiveImageFormat img.

Definition rootFilesystemForImage (img : OSImage) (capability : osInstallCapability) : result string :=
  let declared := match oi_Manifest img with Some mf => pt_Filesystem (ra_RootPartition (mf_Root mf)) | None => "" end in
  let filesystem := ToLower (TrimSpace (if TrimSpace declared ==? "" then ca_RootFilesystem capability else declared)) in
  if filesystem ==? "" then Ok "ext4"
  else if bool_decide (filesystem ∈ ["ext4"; "xfs"; "btrfs"]) then Ok filesystem
  else Err (ErrNew ("unsupported root filesystem " +:+ Quote filesystem +:+ " for squashfs deploy")).

Record diskImageSealedBootstrap := mkDiskImageSealedBootstrap {
  ds_Host : string; ds_Owner : string; ds_KeyFingerprint : string; ds_Envelope : string; ds_Cleanup : bool }.
Record diskImageDeployResponse := mkDiskImageDeployResponse {
  dd_ImageURL : string; dd_Format : string; dd_OSFamily : string; dd_OSVersion : string; dd_TargetDisk : string; dd_RootPartitionNumber : Z;
  dd_EFIPartitionNumber : Z; dd_SeedURL : string; dd_SealedBootstrap : option diskImageSealedBootstrap }.

Section config.
(** From package net/url: the escaping of a path element, and a URL with a token and an
    attempt set in its query. *)
Context (pathEscape : string → string) (appendProvisionQuery : string → string → string → string).

Definition artifactURL (base : string) (img : OSImage) (rel : string) : result string :=
  let rel := TrimSpace rel in
  if rel ==? "" then Err (ErrNew "artifact path is empty") else
  clean ← sanitizePXEPath rel;
  Ok (TrimRight_slash base +:+ "/artifacts/os-images/" +:+ pathEscape (oi_Name img) +:+ "/" +:+ clean).

Definition imageFileURL (base : string) (img : OSImage) : result string :=
  let local := TrimSpace (oi_LocalPath img) in
  if local ==? "" then Err (ErrNew ("os image " +:+ Quote (oi_Name img) +:+ " has no local path"))
  else Ok (TrimRight_slash base +:+ "/files/images/" +:+ pathEscape (filepath_Base local)).

Definition seedURL (base : string) (m : Machine) : string := TrimRight_slash base +:+ "/nocloud/" +:+ macToken (m_MAC m).

Definition buildDiskImageDeployResponse (base token attemptID : string) (m : Machine) (img : OSImage) (info : HardwareInfo) : result diskImageDeployResponse :=
  if negb (oi_Ready img) then Err (ErrNew ("os image " +:+ Quote (oi_Name img) +:+ " is not ready"))
  else if rootImageFormat img !=? FormatQCOW2
  then Err (ErrNew ("disk image deploy requires qcow2 image, got format " +:+ Quote (rootImageFormat img)))
  else if negb (SupportsDeploymentTarget img DeploymentTargetBareMetal)
  then Err (ErrNew ("os image " +:+ Quote (oi_Name img) +:+ " does not support bare-metal deployment"))
  else match oi_Manifest img with
  | None => Err (ErrNew "bare-metal qcow2 deploy requires manifest.root.path")
  | Some mf =>
      if TrimSpace (ra_Path (mf_Root mf)) ==? "" then Err (ErrNew "bare-metal qcow2 deploy requires manifest.root.path")
      else if pt_Number (ra_RootPartition (mf_Root mf)) <=? 0 then Err (ErrNew "bare-metal qcow2 deploy requires manifest.root.rootPartition.number")
      else
      selected ← selectTargetDiskInfo (Some m) (Some info);
      imageURL ← artifactURL base img (ra_Path (mf_Root mf));
      _ ← match m_SealedBootstrap m with Some seed => check_seed seed | None => Ok tt end;
      Ok (mkDiskImageDeployResponse (appendProvisionQuery imageURL token attemptID) FormatQCOW2 (oi_OSFamily img) (oi_OSVersion img) (sd_Path selected)
            (pt_Number (ra_RootPartition (mf_Root mf))) (match ra_EFIPartition (mf_Root mf) with Some p => pt_Number p | None => 0 end) (seedURL base m)
            ((fun seed => mkDiskImageSealedBootstrap (m_Name m) (sb_Owner seed) (sb_KeyFingerprint seed) (b64_std (sb_Envelope seed)) (sb_Cleanup seed))
               <$> m_SealedBootstrap m))
  end.

(** The configuration, as [buildCurtinInstallConfig] fills it in. *)
Definition curtin_install_config (base token attemptID : string) (m : Machine) (img : OSImage) (info : option HardwareInfo) : result curtinConfig :=
  _ ← validateAttemptParam m attemptID;
  selected ← selectTargetDiskInfo (Some m) info;
  if negb (oi_Ready img) then Err (ErrNew ("os image " +:+ Quote (oi_Name img) +:+ " is not ready")) else
  let root := match oi_Manifest img with
              | Some mf => if TrimSpace (ra_Path (mf_Root mf)) ==? "" then None else Some (mf_Root mf)
              | None => None
              end in
  imageURL ← match root with Some ra => artifactURL base img (ra_Path ra) | None => imageFileURL base img end;
  let imageFormat := match root with Some ra => if ra_Format ra ==? "" then oi_Format img else ra_Format ra | None => oi_Format img end in
  capability ← installCapabilityForOSFamily (oi_OSFamily img);
  rootFilesystem ← rootFilesystemForImage img capability;
  if ToLower (TrimSpace imageFormat) !=? FormatSquashFS
  then Err (ErrNew ("curtin deploy requires squashfs image, got format " +:+ Quote imageFormat)) else
  rootSizeMB ← rootFSRootPartitionSizeMB (sd_Info selected);
  configureSealedBootstrap
    (mkCurtinConfig ∅
       (mkCurtinInstall "/tmp/curtin-install.log" ["/tmp/curtin-install.log"] "/root/gomi-curtin.yaml" "/var/log/gomi-curtin-install.log")
       (mkCurtinReportingHook "webhook" (buildPXEDeployEventsURL base token attemptID +:+ "&source=curtin") "DEBUG")
       [sd_Path selected]
       {["00-root" := mkCurtinSource "fsimage" (appendProvisionQuery imageURL token attemptID)]}
       (buildRootFSStorageConfig (sd_Path selected) rootSizeMB rootFilesystem)
       ["early"; "partitioning"; "network"; "extract"; "late"]
       {["builtin" := ["curtin"; "block-meta"; "custom"]]}
       (numbered (late_commands (seedURL base m +:+ "/") rootFilesystem
                    (buildRootFSBootloaderCommand capability (sd_Path selected) (m_Firmware m) rootFilesystem))))
    m (sd_Path selected).

(** From package yaml: the text of a configuration. *)
Context (yamlMarshal : curtinConfig → result string).
Definition buildCurtinInstallConfig (base token attemptID : string) (m : Machine) (img : OSImage) (info : option HardwareInfo) : result string :=
  cfg ← curtin_install_config base token attemptID m img info; yamlMarshal cfg.

(** ** deploy_inventory.go *)

Definition validateAttemptInventory (target : Machine) (info : option HardwareInfo) : result unit :=
  match m_Provision target with
  | None => Err (ErrNew "provisioning state is required")
  | Some p =>
      let attemptID := TrimSpace (pp_AttemptID p) in
      match info with
      | Some info =>
          if attemptID ==? "" then Err (ErrNew "hardware inventory for current attempt is required")
          else if TrimSpace (hw_AttemptID info) !=? attemptID then Err (ErrNew "hardware inventory is stale or from a different attempt")
          else Ok tt
      | None => Err (ErrNew "hardware inventory for current attempt is required")
      end
  end.

Record inventoryResponse := mkInventoryResponse {
  ir_AttemptID : string; ir_DeployMode : string; ir_CurtinConfigURL : string; ir_EventsURL : string; ir_DiskImageDeploy : option diskImageDeployResponse }.

Context (env : PxeEnv) (h : PxeHandler).
Local Abbreviation H := (Hd PxeStores pxe_event PxeReply).

Definition not_found_or (e : error) : PxeReply := pxe_error_of (if e ==? ErrNotFound then 404 else 500) e.

Definition hwinfo_store (info : HardwareInfo) (now : Time) : H (result unit) :=
  pop env (fun s => match hwinfo_Upsert (px_hwinfo s) now info with Ok (m, _) => (s <| px_hwinfo := m |>, Ok tt) | Err e => (s, Err e) end).

(** The update of the progress: whatever the record says by then, it is given the
    attempt found before. *)
Definition inventory_progress (attemptID inventoryID : string) (timings : list ProvisionTiming) (now : Time) (p : ProvisionProgress) : ProvisionProgress :=
  add_timings timings (p <| pp_AttemptID := attemptID |> <| pp_InventoryID := inventoryID |> <| pp_LastSignalAt := Some now |>
                         <| pp_Message := "hardware inventory received" |>).

(** [decoded] is the report, from text or JSON, when it could be read; [base] the URL
    under which the host reached the server. *)
Definition PXEInventory (token base : string) (decoded : option HardwareInfo) : H inventoryResponse :=
  requestStarted ← clock env;
  let token := TrimSpace token in
  _ ← must (token !=? "") (pxe_error 400 "token is required");
  target ← requireProvisioningMachine env token;
  target ← unless target not_found_or;
  let attemptID := TrimSpace (attempt_of target) in
  _ ← must (attemptID !=? "") (pxe_error 409 "provisioning attempt id is required");
  decodeStarted ← clock env;
  info ← match decoded with Some i => mret i | None => answer_with (pxe_error 400 "invalid body") end;
  decodeFinished ← clock env;
  let info := (info : HardwareInfo) <| hw_Name := m_Name target +:+ "-hwinfo" |> <| hw_MachineName := m_Name target |> <| hw_AttemptID := attemptID |> in
  storeStarted ← clock env;
  stored ← (if ph_hwinfo h then hwinfo_store info storeStarted else mret (Ok tt));
  _ ← unless stored (pxe_error_of 500);
  storeFinished ← clock env;
  r ← updateProvisionProgress env (m_Name target) (fun m =>
        now ← clock env;
        mret (with_progress (inventory_progress attemptID (hw_Name info)
          [serverTiming "server.inventory.decode" "read and decode hardware inventory" "success" decodeStarted decodeFinished 0;
           serverTiming "server.inventory.store" "store hardware inventory" "success" storeStarted storeFinished 0;
           serverTiming "server.inventory.total" "handle hardware inventory callback" "success" requestStarted now 0] now) m));
  _ ← unless r (pxe_error_of 500);
  let response := mkInventoryResponse attemptID "curtin" (buildPXECurtinConfigURL base token attemptID) (buildPXEDeployEventsURL base token attemptID) None in
  let ref := os_ImageRef (m_OSPreset target) in
  match ph_osimages h with
  | Some images =>
      if TrimSpace ref ==? "" then mret response else
      match images !! TrimSpace ref with
      | None => answer_with (pxe_error 404 ("os image " +:+ Quote ref +:+ " not found: " +:+ Error ErrNotFound))
      | Some img =>
          _ ← must (SupportsDeploymentTarget img DeploymentTargetBareMetal)
                (pxe_error 409 ("os image " +:+ Quote ref +:+ " does not support bare-metal deployment"));
          if rootImageFormat img ==? FormatSquashFS then mret response else
          _ ← must (rootImageFormat img ==? FormatQCOW2)
                (pxe_error 409 ("bare-metal deploy requires qcow2 or squashfs OS image, got " +:+ rootImageFormat img));
          deploy ← unless (buildDiskImageDeployResponse base token attemptID target img info) (pxe_error_of 409);
          mret (mkInventoryResponse attemptID "disk-image" "" (ir_EventsURL response) (Some deploy))
      end
  | None => mret response
  end.

(** [jsonMarshal] is the text as a JSON string, as the record keeps it. *)
Definition PXECurtinConfig (jsonMarshal : string → bytes) (token attempt base : string) : H string :=
  let token := TrimSpace token in
  _ ← must (token !=? "") (pxe_error 400 "token is required");
  let attemptID := TrimSpace attempt in
  target ← requireProvisioningMachine env token;
  target ← unless target not_found_or;
  _ ← unless (validateAttemptParam target attemptID) (pxe_error_of 409);
  images ← match ph_osimages h with Some i => mret i | None => answer_with (pxe_error 500 "os image service not available") end;
  let imageRef := TrimSpace (os_ImageRef (m_OSPreset target)) in
  _ ← must (imageRef !=? "") (pxe_error 400 "machine has no image reference");
  img ← match (images : gmap string OSImage) !! imageRef with
        | Some img => mret img
        | None => answer_with (pxe_error 404 ("os image " +:+ Quote imageRef +:+ " not found: " +:+ Error ErrNotFound))
        end;
  info ← (if ph_hwinfo h then pread env (fun s => px_hwinfo s !! m_Name target) else mret None);
  _ ← unless (validateAttemptInventory target info) (pxe_error_of 409);
  started ← clock env;
  let config := buildCurtinInstallConfig base token attemptID target img info in
  finished ← clock env;
  match config with
  | Err e =>
      _ ← updateProvisionProgress env (m_Name target) (fun m =>
            mret (if m_Provision m ==? None then m
                  else with_progress (add_timings [serverTiming "server.curtin_config" ("generate curtin install config: " +:+ Error e) "failure" started finished 0]) m));
      answer_with (pxe_error_of 409 e)
  | Ok config =>
      _ ← updateProvisionProgress env (m_Name target) (fun m =>
            now ← clock env;
            mret (with_progress (fun p => add_timings [serverTiming "server.curtin_config" "generate curtin install config" "success" started finished 0]
                   (p <| pp_AttemptID := attempt_of target |> <| pp_CurtinConfig := jsonMarshal config |> <| pp_Message := "curtin config generated" |>
                      <| pp_LastSignalAt := Some now |>)) m));
      mret config
  end.

(** ** The disk that is wiped is one the current installation has reported *)

Lemma require_machine_inv {A} token (k : result Machine → H A) st st' r : TrimSpace token ≠ "" →
  (t ← requireProvisioningMachine env token; k t) st = (st', r) →
  ∃ st1 t, hst_store st1 = pe_others env (hst_tick st) (hst_store st) ∧ hst_tick st1 = S (hst_tick st) ∧ k t st1 = (st', r)
    ∧ (∀ m, t = Ok m → find_in (machine_has_token (TrimSpace token)) (db_machines (px_db (hst_store st1))) = Some m ∧ IsProvisioningActive m = true
         ∧ PXEInstallType m ≠ InstallWindows).
Proof.
  intros Hne H. unfold requireProvisioningMachine, findMachineByProvisionToken, pread in H. cbv zeta in H. rewrite (bool_decide_eq_false_2 _ Hne) in H.
  apply hd_bind_inv in H as [(s1 & t & Ht & H)|(r0 & Ht & _)].
  - exists s1, t. apply op_bind_inv in Ht as (s & found & [= <- <-] & [= <- <-]). split_and!; [done|done|done|]. intros m.
    destruct (find_in _ _) as [m0|]; [|done]. destruct (_ && _) eqn:E; [|done]. intros [= <-]. rewrite !andb_true_iff, negb_true_iff, bool_decide_eq_false in E.
    destruct E as [[_ ?] ?]. done.
  - apply op_bind_inv in Ht as (s & found & _ & Ht). discriminate.
Qed.

(** The machine an installer answers for, as the tables had it when the request was
    looked up. *)
Definition serves_attempt (token attempt : string) (m : Machine) : Prop :=
  machine_has_token (TrimSpace token) m = true ∧ IsProvisioningActive m = true ∧ PXEInstallType m ≠ InstallWindows
  ∧ TrimSpace (attempt_of m) = TrimSpace attempt ∧ TrimSpace attempt ≠ "".

Lemma sealed_keeps_disk cfg m disk c : configureSealedBootstrap cfg m disk = Ok c → cc_Devices c = cc_Devices cfg ∧ cc_Storage c = cc_Storage cfg.
Proof. unfold configureSealedBootstrap. destruct (m_SealedBootstrap m) as [seed|]; [destruct (check_seed seed); [|done]|]; by intros [= <-]. Qed.

Lemma curtin_config_disk base token attempt m img info c : curtin_install_config base token attempt m img info = Ok c →
  ∃ sel, selectTargetDiskInfo (Some m) info = Ok sel ∧ cc_Devices c = [sd_Path sel] ∧ cs_InstallDevices (cc_Storage c) = [sd_Path sel]
    ∧ disk_paths (cc_Storage c) = [CStr (sd_Path sel)].
Proof.
  intros H. unfold curtin_install_config in H. destruct (validateAttemptParam m attempt) as [[]|]; [|done]. cbn [mbind result_bind] in H.
  destruct (selectTargetDiskInfo _ _) as [sel|]; [|done]. exists sel. split; [done|]. cbn [mbind result_bind] in H. cbv zeta in H.
  destruct (negb _); [done|]. match type of H with ?x ≫= _ = _ => destruct x as [url|]; [|done] end. cbn [mbind result_bind] in H.
  destruct (installCapabilityForOSFamily _) as [cap|]; [|done]. cbn [mbind result_bind] in H.
  destruct (rootFilesystemForImage _ _) as [fs|]; [|done]. cbn [mbind result_bind] in H. destruct (negb _); [done|].
  destruct (rootFSRootPartitionSizeMB _) as [size|]; [|done]. cbn [mbind result_bind] in H. apply sealed_keeps_disk in H as [-> ->].
  split_and!; [done|done|]. exact (proj2 (storage_entries (sd_Path sel) size fs)).
Qed.

(** An installation partitions only a disk its own host has just reported.  When a
    configuration is handed out, the token and the attempt of the request are those of
    a machine that is being provisioned; the hardware report it is made from is stored
    for that machine and was sent under that very attempt; and the one disk the
    configuration names, to be wiped and to boot from, is the disk chosen from that
    report for that machine. *)
Lemma curtin_disk_current (jsonMarshal : string → bytes) (token attempt base : string) (st st' : HState PxeStores pxe_event) (text : string)
    (Hkeys : mem_ok (db_machines (px_db (pe_others env (hst_tick st) (hst_store st))))) (Hrun : PXECurtinConfig jsonMarshal token attempt base st = (st', inl text)) :
  ∃ cfg m info sel s1 s2, yamlMarshal cfg = Ok text ∧ s1 = pe_others env (hst_tick st) (hst_store st) ∧ s2 = pe_others env (S (hst_tick st)) s1
  ∧ db_machines (px_db s1) !! m_Name m = Some m ∧ serves_attempt token attempt m
  ∧ px_hwinfo s2 !! m_Name m = Some info ∧ TrimSpace (hw_AttemptID info) = TrimSpace attempt
  ∧ selectTargetDiskInfo (Some m) (Some info) = Ok sel
  ∧ cc_Devices cfg = [sd_Path sel] ∧ cs_InstallDevices (cc_Storage cfg) = [sd_Path sel] ∧ disk_paths (cc_Storage cfg) = [CStr (sd_Path sel)].
Proof.
  unfold PXECurtinConfig in Hrun. cbv zeta in Hrun. rename Hrun into H.
  apply must_inv in H as [(_ & _ & ?)|[Htok H]]; [discriminate|]. apply negb_true_iff, bool_decide_eq_false in Htok.
  apply require_machine_inv in H as (s1 & t & Hs1 & Hk1 & H & Ht); [|by rewrite TrimSpace_idemp].
  apply unless_inv in H as [(e & _ & _ & ?)|(m & -> & H)]; [discriminate|]. destruct (Ht m eq_refl) as (Hfind & Hact & Hwin). clear Ht.
  apply unless_inv in H as [(e & _ & _ & ?)|([] & Hatt & H)]; [discriminate|]. apply attempt_named in Hatt as (p & Hp & Hpa & Hpne). rewrite TrimSpace_idemp in Hpa.
  destruct (ph_osimages h) as [images|]; [|discriminate]. apply hd_bind_inv in H as [(s0 & x & [= <- <-] & H)|(r0 & ? & _)]; [|discriminate].
  apply must_inv in H as [(_ & _ & ?)|[_ H]]; [discriminate|]. destruct (images !! _) as [img|]; [|discriminate].
  apply hd_bind_inv in H as [(s0 & x & [= <- <-] & H)|(r0 & ? & _)]; [|discriminate].
  destruct (ph_hwinfo h); [|apply hd_bind_inv in H as [(s0 & x & [= <- <-] & H)|(r0 & ? & _)]; [|discriminate];
    unfold validateAttemptInventory in H; rewrite Hp in H; discriminate].
  unfold pread in H. apply op_bind_inv in H as (s2 & info & [= <- <-] & H). rewrite Hs1, Hk1 in H. set (s1' := pe_others env (hst_tick st) (hst_store st)) in *.
  set (s2' := pe_others env (S (hst_tick st)) s1') in *.
  apply unless_inv in H as [(e & _ & _ & ?)|([] & Hinv & H)]; [discriminate|]. unfold validateAttemptInventory in Hinv. rewrite Hp in Hinv. cbv zeta in Hinv.
  destruct (px_hwinfo s2' !! m_Name m) as [info|] eqn:Ei; [|done]. destruct (bool_decide (TrimSpace (pp_AttemptID p) = "")) eqn:Ene; [done|].
  destruct (bool_decide (TrimSpace (hw_AttemptID info) = TrimSpace (pp_AttemptID p))) eqn:Eat; [|done]. apply bool_decide_eq_true in Eat.
  apply hd_bind_inv in H as [(s0 & x & [= <- <-] & H)|(r0 & ? & _)]; [|discriminate].
  apply hd_bind_inv in H as [(s0 & x & [= <- <-] & H)|(r0 & ? & _)]; [|discriminate].
  destruct (buildCurtinInstallConfig _ _ _ _ _ _) as [c|e] eqn:Ec;
    [|apply hd_bind_inv in H as [(? & ? & _ & ?)|(r0 & _ & ?)]; discriminate].
  assert (c = text) as -> by (apply hd_bind_inv in H as [(? & ? & _ & H)|(r0 & _ & ?)]; [by injection H|discriminate]). clear H.
  unfold buildCurtinInstallConfig in Ec. destruct (curtin_install_config _ _ _ _ _ _) as [cfg|] eqn:Ecfg; [|done]. cbn [mbind result_bind] in Ec.
  apply curtin_config_disk in Ecfg as (sel & Esel & Hd & Hi & Hp'). rewrite Hs1 in Hfind. fold s1' in Hfind.
  apply find_in_spec in Hfind as [Hrow Htk]; [|exact Hkeys]. rewrite TrimSpace_idemp in Htk.
  exists cfg, m, info, sel, s1', s2'. unfold serves_attempt, attempt_of. rewrite Hp. apply bool_decide_eq_false in Ene. rewrite Hpa in Ene. split_and!; try done; congruence.
Qed.
End config.

(** ** Runs *)

Definition plain_query (u token attempt : string) : string := u +:+ "?" +:+ provision_query token attempt.
Definition device_text (cfg : curtinConfig) : result string := Ok (default "" (head (cc_Devices cfg))).
Definition squash_manifest : Manifest :=
  mkManifest None "img" "ubuntu" "24.04" "amd64" [] (mkCapabilities []) (mkCloudInit "" "" "")
    (mkRootArtifact "squashfs" "" "root.squashfs" "" 0 "" (mkPartition 0 "" "") None None None)
    (mkTargetKernel "" "" "") [] (mkBuildMetadata "" "" "" "" "" "" "" [] [] []).
Definition squash_image : OSImage :=
  mkOSImage "img" "ubuntu" "24.04" "amd64" "squashfs" "url" VariantBareMetal "" "" 0 "" (Some squash_manifest) true "" "" 0 0.
Definition image_handler : PxeHandler := mkPxeHandler (Some {["img" := squash_image]}) false false true false.
Definition reporting : Machine := (installing ∅) <| m_SealedBootstrap := None |>.
Definition reported : HardwareInfo := zero_hardware <| hw_Disks := [plain_disk] |>.
Definition reporting_stores : PxeStores := demo_stores ∅ (mkDb ∅ {["m1" := reporting]}).

(** The host reports its disks, and asks for the configuration. *)
Definition after_inventory :=
  PXEInventory (fun s => s) plain_query pxe_alone image_handler "t" "http://gomi" (Some reported) (demo_request reporting_stores).
Local Abbreviation run_config st :=
  (PXECurtinConfig (fun u => u) plain_query device_text pxe_alone image_handler (fun _ => []) "t" "attempt-1" "http://gomi" (demo_request st)).
Local Abbreviation inventoried := (hst_store after_inventory.1).

Lemma config_devices : match (run_config inventoried).2 with inl text => text | inr _ => "" end = "/dev/sda".
Proof. vm_compute. reflexivity. Qed.
Lemma config_run : ∃ st', run_config inventoried = (st', inl "/dev/sda").
Proof. pose proof config_devices as H. destruct (run_config inventoried) as [st' [text|]]; [exists st'; by rewrite <- H|discriminate H]. Qed.
Lemma inventory_keys : mem_ok (db_machines (px_db inventoried)).
Proof.
  assert (E1 : (m_Name <$> db_machines (px_db inventoried)) = {["m1" := "m1"]}) by (vm_compute; reflexivity).
  intros n x Hx. apply (f_equal (lookup n)) in E1. rewrite lookup_fmap, Hx in E1. symmetry in E1. apply lookup_singleton_Some in E1 as [<- E1]. exact (eq_sym E1).
Qed.

Lemma curtin_disk_current_witness : ∃ st' m info sel, run_config inventoried = (st', inl "/dev/sda")
  ∧ serves_attempt "t" "attempt-1" m ∧ px_hwinfo inventoried !! m_Name m = Some info
  ∧ selectTargetDiskInfo (Some m) (Some info) = Ok sel ∧ sd_Path sel = "/dev/sda".
Proof.
  assert (Gen : ∀ s st', mem_ok (db_machines (px_db s)) → run_config s = (st', inl "/dev/sda") →
    ∃ m info sel, serves_attempt "t" "attempt-1" m ∧ px_hwinfo s !! m_Name m = Some info
      ∧ selectTargetDiskInfo (Some m) (Some info) = Ok sel ∧ sd_Path sel = "/dev/sda").
  { intros s st' Hk E.
    destruct (curtin_disk_current (fun s => s) plain_query device_text pxe_alone image_handler (fun _ => []) "t" "attempt-1" "http://gomi" (demo_request s) st'
      "/dev/sda" Hk E) as (cfg & m & info & sel & s1 & s2 & Hy & H1 & H2 & _ & Hm & Hi & _ & Hs & Hc & _).
    assert (s2 = s) as -> by (rewrite H2, H1; reflexivity).
    exists m, info, sel. split; [exact Hm|]. split; [exact Hi|]. split; [exact Hs|]. unfold device_text in Hy. rewrite Hc in Hy. by injection Hy. }
  destruct config_run as (st' & E). exists st'. destruct (Gen _ _ inventory_keys E) as (m & info & sel & H). exists m, info, sel. split; [exact E|exact H].
Defined.

(** *** A report that overtakes a redeployment *)

(** A redeployment arms the machine for a second attempt after the token of the report
    has been looked up and before the record is read again for the update. *)
Definition redeployed : Machine :=
  reporting <| m_Provision := Some (zero_progress <| pp_Active := true |> <| pp_AttemptID := "attempt-2" |> <| pp_CompletionToken := "t2" |>) |>.
Definition redeploy_at (n k : nat) (s : PxeStores) : PxeStores :=
  if bool_decide (k = n) then s <| px_db := mkDb ∅ {["m1" := redeployed]} |> else s.

(** The update then gives the record of the second attempt the name of the first: the
    second installer, whose token still finds the machine, is turned away for the
    attempt it was given. *)
Lemma late_inventory_renames_attempt :
  let '(st', r) := PXEInventory (fun s => s) plain_query (quiet_pxe (redeploy_at 1)) image_handler "t" "http://gomi" (Some reported) (demo_request reporting_stores) in
  match db_machines (px_db (hst_store st')) !! "m1" with
  | Some m => (pp_AttemptID <$> m_Provision m) = Some "attempt-1" ∧ (pp_CompletionToken <$> m_Provision m) = Some "t2"
      ∧ validateAttemptParam m "attempt-2" ≠ Ok tt
  | None => False
  end
  ∧ match r with inl a => ir_AttemptID a = "attempt-1" | inr _ => False end.
Proof. vm_compute. done. Qed.
