(* ===== verification/PxeState.v ===== *)
(** * internal/app: the PXE services and the node tables of the DHCP server

    The part of the runtime that decides whether the DHCP server runs, with which
    subnet, and what it knows of the registered nodes (pxe_manager.go, pxe_state.go,
    network.go): reservations, registered MACs and direct-local-boot MACs are
    rebuilt from the subnet, the machines and the virtual machines on every
    reconciliation.  Machines and virtual machines enter through the node
    interface. *)
From S2P Require Import Prelude GoStrings GoNet GoPath Resource Subnet Lease Dhcp Store Hypervisor Machine Vm.

(** ** pxe_state.go: tables of MAC addresses *)

(** The type assertion [h.( *machine.Machine)] of [shouldDirectLocalBoot]: whether
    the image of a node that is being provisioned is already on its disk. *)
Class ImageApplied (T : Type) := image_applied : T → bool.

Global Instance Machine_image_applied : ImageApplied Machine := fun m =>
  match m_Provision m with
  | None => false
  | Some p => EqualFold (TrimSpace (default "" (pp_Artifacts p !! "imageApplied"))) "true"
  end.

Global Instance VirtualMachine_image_applied : ImageApplied VirtualMachine := fun _ => false.

Section nodes.
Context {T : Type} `{Node T} `{ImageApplied T}.

Definition shouldDirectLocalBoot (h : T) : bool :=
  if negb (IsProvisioningActive h) then true else image_applied h.

Definition addStaticReservation (r : gmap string (option Z)) (h : T) : gmap string (option Z) :=
  if GetIPAssignment h !=? IPAssignmentStatic then r else
  let mac := PrimaryMAC h in
  match ParseIP (TrimSpace (StaticIP h)) with
  | Some ip => if mac !=? "" then <[mac := To4 ip]> r else r
  | None => r
  end.

(** The normalised, non-blank MACs of a node. *)
Definition node_macs (h : T) : gset string :=
  list_to_set (filter (fun mac => mac ≠ "") ((fun raw => ToLower (TrimSpace raw)) <$> AllMACs h)).

Definition addLocalBootMAC (macs : gset string) (h : T) : gset string :=
  if negb (shouldDirectLocalBoot h) then macs else macs ∪ node_macs h.

Definition addRegisteredMAC (macs : gset string) (h : T) : gset string :=
  macs ∪ list_to_set (AllMACs h ≫= fun raw =>
    match ParseMAC (TrimSpace raw) with Some hw => [mac_String hw] | None => [] end).

Definition addActiveProvisioningMAC (macs : gset string) (h : T) : gset string :=
  if negb (IsProvisioningActive h) || shouldDirectLocalBoot h then macs else macs ∪ node_macs h.
End nodes.

Definition removeProvisioningLocalBootMACs (localBoot provisioning : gset string) : gset string :=
  localBoot ∖ provisioning.

Record Tables := mkTables {
  tb_reservations : gmap string (option Z);
  tb_registered : gset string;
  tb_localBoot : gset string;
  tb_provisioning : gset string }.

Definition add_node {T} `{Node T} `{ImageApplied T} (t : Tables) (h : T) : Tables :=
  mkTables (addStaticReservation (tb_reservations t) h) (addRegisteredMAC (tb_registered t) h)
    (addLocalBootMAC (tb_localBoot t) h) (addActiveProvisioningMAC (tb_provisioning t) h).

Definition manual_reservation (r : gmap string (option Z)) (res : DHCPReservation) : gmap string (option Z) :=
  let mac := ToLower (TrimSpace (dr_MAC res)) in
  match ParseIP (TrimSpace (dr_IP res)) with
  | Some ip => if mac !=? "" then <[mac := To4 ip]> r else r
  | None => r
  end.

(** The three store listings a reconciliation works from. *)
Record Listings := mkListings {
  ls_subnets : result (list Subnet);
  ls_machines : result (list Machine);
  ls_vms : result (list VirtualMachine) }.

Definition add_nodes {T} `{Node T} `{ImageApplied T} (listed : result (list T)) (t : Tables) : Tables :=
  match listed with Ok l => fold_left add_node l t | Err _ => t end.

Definition build_tables (l : Listings) : Tables :=
  let manual := match ls_subnets l with
                | Ok (sub :: _) => fold_left manual_reservation (ss_Reservations (sn_Spec sub)) ∅
                | _ => ∅
                end in
  add_nodes (ls_vms l) (add_nodes (ls_machines l) (mkTables manual ∅ ∅ ∅)).

(** The registered MACs are replaced only if both listings succeeded. *)
Definition syncDHCPReservations (l : Listings) (s : Server) : Server :=
  let t := build_tables l in
  let localBoot := removeProvisioningLocalBootMACs (tb_localBoot t) (tb_provisioning t) in
  let s := Server_UpdateReservations s (tb_reservations t) in
  let s := match ls_machines l, ls_vms l with
           | Ok _, Ok _ => UpdateRegisteredMACs s (tb_registered t)
           | _, _ => s
           end in
  UpdateLocalBootMACs s localBoot.

(** ** network.go *)

Definition listenPort (addr : string) : string :=
  let p := of_bytes (drop 1 (to_bytes addr)) in
  if HasPrefix addr ":" && (p !=? "") then p
  else match SplitHostPort addr with
       | Ok (host, port) => if (host !=? "") || (port !=? "") then port else "5392"
       | Err _ => "5392"
       end.

(** ** pxe_manager.go *)

Record Config := mkConfig {
  cf_DHCPMode : string; cf_DHCPIface : string; cf_TFTPAddr : string; cf_TFTPRoot : string;
  cf_PXEBootFileBIOS : string; cf_PXEBootFileUEFI : string; cf_PXEHTTPBaseURL : string; cf_ListenAddr : string }.

Record pxeRuntimeState := mkPxeRuntimeState {
  pr_mode : string; pr_iface : string; pr_serverIP : string; pr_tftpAddr : string; pr_tftpRoot : string }.
Global Instance pxeRuntimeState_eq_dec : EqDecision pxeRuntimeState.
Proof. solve_decision. Defined.

(** A server is a pointer: the number distinguishes it from the ones before it. *)
Record Runtime := mkRuntime {
  rt_dhcpServer : option (nat * Server);
  rt_pxeState : pxeRuntimeState;
  rt_next : nat }.

(** The network interfaces of the host, whether the TFTP files could be put in
    place, the clock and the stored leases when a pool is built. *)
Record Host := mkHost {
  ho_defaultIface : string;
  ho_ifaceIP : string → option Z;
  ho_tftp_ready : bool;
  ho_now : Time;
  ho_leases : option (result (list DHCPLease)) }.

Definition resolvePXEHTTPBaseURL (cfg : Config) (serverIP : Z) : string :=
  if TrimSpace (cf_PXEHTTPBaseURL cfg) !=? "" then TrimRight_slash (cf_PXEHTTPBaseURL cfg)
  else "http://" +:+ ip4_String serverIP +:+ ":" +:+ listenPort (cf_ListenAddr cfg) +:+ "/pxe".

Definition pxeSubnetReady (mode : string) (spec : SubnetSpec) : bool :=
  if mode ==? "proxy" then true
  else if mode ==? "full" then ss_PXEAddressRange spec !=? None
  else false.

Definition zero_state : pxeRuntimeState := mkPxeRuntimeState "" "" "" "" "".

Definition stopPXE (r : Runtime) : Runtime := mkRuntime None zero_state (rt_next r).

(** A server that fails clears the runtime only if it is still the current one. *)
Definition clearPXEIfCurrent (server : nat) (r : Runtime) : Runtime :=
  match rt_dhcpServer r with
  | Some (id, _) => if bool_decide (id = server) then stopPXE r else r
  | None => r
  end.

Definition startPXE (h : Host) (l : Listings) (state : pxeRuntimeState) (spec : SubnetSpec) (boot : BootConfig)
  (r : Runtime) : Runtime * list store_call :=
  if negb (ho_tftp_ready h) then (r, []) else
  let '(s, calls) := NewServer (ho_now h) (ho_leases h) (pr_mode state) (pr_iface state) (parse4 (pr_serverIP state)) spec boot in
  (mkRuntime (Some (rt_next r, syncDHCPReservations l s)) state (S (rt_next r)), calls).

Definition uefiLocalBootGRUBFile : string := "grub-localbootx64.efi".

Definition effective_mode (cfg : Config) : string :=
  let mode := ToLower (TrimSpace (cf_DHCPMode cfg)) in if mode ==? "" then "full" else mode.

Definition pxe_iface (cfg : Config) (h : Host) (spec : SubnetSpec) : string :=
  let iface := TrimSpace (cf_DHCPIface cfg) in
  if iface !=? "" then iface
  else if ss_PXEInterface spec !=? "" then ss_PXEInterface spec else ho_defaultIface h.

(** [first] is the listing of subnets the decision is made from; the node tables
    are built from [l], read later. *)
Definition reconcilePXE (cfg : Config) (h : Host) (first : result (list Subnet)) (l : Listings) (r : Runtime)
  : Runtime * list store_call :=
  let mode := effective_mode cfg in
  if mode ==? "off" then (stopPXE r, [])
  else if (mode !=? "full") && (mode !=? "proxy") then (stopPXE r, [])
  else match first with
  | Err _ | Ok [] => (stopPXE r, [])
  | Ok (sub :: _) =>
      let spec := sn_Spec sub in
      if negb (pxeSubnetReady mode spec) then (stopPXE r, []) else
      let iface := pxe_iface cfg h spec in
      if iface ==? "" then (stopPXE r, []) else
      match ho_ifaceIP h iface with
      | None => (stopPXE r, [])
      | Some ip =>
          let state := mkPxeRuntimeState mode iface (ip4_String ip) (cf_TFTPAddr cfg) (cf_TFTPRoot cfg) in
          let boot := mkBootConfig (cf_PXEBootFileBIOS cfg) (cf_PXEBootFileUEFI cfg) uefiLocalBootGRUBFile
                        (TrimRight_slash (resolvePXEHTTPBaseURL cfg ip) +:+ "/boot.ipxe") in
          match rt_dhcpServer r with
          | Some (id, s) =>
              if rt_pxeState r ==? state then
                let '(s, calls) := Reconfigure (ho_now h) (ho_leases h) s spec in
                (mkRuntime (Some (id, syncDHCPReservations l s)) state (rt_next r), calls)
              else startPXE h l state spec boot (stopPXE r)
          | None => startPXE h l state spec boot (stopPXE r)
          end
      end
  end.

(** ** What the tables hold *)

Section table_lemmas.
Context {T : Type} `{Node T} `{ImageApplied T}.
Implicit Types (h : T) (l : list T) (t : Tables).

(** The node has an interface with this hardware address, in any notation. *)
Definition has_address (hw : HardwareAddr) h : Prop :=
  ∃ raw, raw ∈ AllMACs h ∧ ParseMAC (TrimSpace raw) = Some hw.

(** The node reports the canonical form of this hardware address. *)
Definition reports (hw : HardwareAddr) h : Prop :=
  ∃ raw, raw ∈ AllMACs h ∧ ToLower (TrimSpace raw) = mac_String hw.

Definition boots_locally (hw : HardwareAddr) h : Prop := shouldDirectLocalBoot h = true ∧ reports hw h.

Definition provisions (hw : HardwareAddr) h : Prop :=
  IsProvisioningActive h = true ∧ image_applied h = false ∧ reports hw h.

(** Every MAC a node reports is a MAC. *)
Definition macs_parse h : Prop := ∀ raw, raw ∈ AllMACs h → is_Some (ParseMAC raw).

Lemma elem_of_node_macs x h : x ∈ node_macs h ↔ x ≠ "" ∧ ∃ raw, raw ∈ AllMACs h ∧ x = ToLower (TrimSpace raw).
Proof. unfold node_macs. rewrite elem_of_list_to_set, list_elem_of_filter, list_elem_of_fmap. naive_solver. Qed.

Lemma fold_registered x l : ∀ t, x ∈ tb_registered (fold_left add_node l t) ↔
  x ∈ tb_registered t ∨ ∃ h hw, h ∈ l ∧ has_address hw h ∧ x = mac_String hw.
Proof.
  induction l as [|h l IH]; intros t; cbn [fold_left].
  { split; [by left|]. intros [?|(h & hw & ?%not_elem_of_nil & _)]; done. }
  rewrite IH. cbn [add_node tb_registered]. unfold addRegisteredMAC.
  rewrite elem_of_union, elem_of_list_to_set, list_elem_of_bind. unfold has_address. split.
  - intros [[?|(raw & Hx & Hraw)]|(h' & hw & Hh & ?)]; [by left| |].
    + right. destruct (ParseMAC (TrimSpace raw)) as [hw|] eqn:E; [|by apply not_elem_of_nil in Hx].
      apply list_elem_of_singleton in Hx as ->. exists h, hw. split; [left|]. eauto.
    + right. exists h', hw. split; [by right|done].
  - intros [?|(h' & hw & [->|Hh]%elem_of_cons & Ha & ->)]; [by left; left| |right; eauto].
    destruct Ha as (raw & Hraw & E). left. right. exists raw. rewrite E. split; [left|done].
Qed.

Lemma fold_localBoot x l : ∀ t, x ∈ tb_localBoot (fold_left add_node l t) ↔
  x ∈ tb_localBoot t ∨ ∃ h, h ∈ l ∧ shouldDirectLocalBoot h = true ∧ x ∈ node_macs h.
Proof.
  induction l as [|h l IH]; intros t; cbn [fold_left].
  { split; [by left|]. intros [?|(h & ?%not_elem_of_nil & _)]; done. }
  rewrite IH. cbn [add_node tb_localBoot]. unfold addLocalBootMAC. rewrite ex_elem_cons.
  destruct (shouldDirectLocalBoot h); cbn [negb]; rewrite ?elem_of_union; intuition congruence.
Qed.

Lemma fold_provisioning x l : ∀ t, x ∈ tb_provisioning (fold_left add_node l t) ↔
  x ∈ tb_provisioning t ∨ ∃ h, h ∈ l ∧ IsProvisioningActive h = true ∧ image_applied h = false ∧ x ∈ node_macs h.
Proof.
  induction l as [|h l IH]; intros t; cbn [fold_left].
  { split; [by left|]. intros [?|(h & ?%not_elem_of_nil & _)]; done. }
  rewrite IH. cbn [add_node tb_provisioning]. unfold addActiveProvisioningMAC, shouldDirectLocalBoot. rewrite ex_elem_cons.
  destruct (IsProvisioningActive h); cbn [negb orb]; [|intuition congruence].
  destruct (image_applied h); rewrite ?elem_of_union; intuition congruence.
Qed.

(** A canonical key is in a node's entry of a table iff the node reports it. *)
Lemma canonical_node_mac hw h : mac_String hw ≠ "" → mac_String hw ∈ node_macs h ↔ reports hw h.
Proof. intros Hne. rewrite elem_of_node_macs. unfold reports. naive_solver. Qed.

(** The keys of nodes with proper MACs are already in normal form. *)
Lemma node_mac_fixed x h : macs_parse h → x ∈ node_macs h → ToLower (TrimSpace x) = x.
Proof.
  intros Hp (Hne & raw & Hraw & ->)%elem_of_node_macs. destruct (Hp raw Hraw) as [hw E].
  by destruct (ParseMAC_normal _ _ E) as (_ & _ & _ & ?).
Qed.
End table_lemmas.

Lemma mac_String_ne hw : mac_length_ok (length hw) = true → mac_String hw ≠ "".
Proof. intros Hok E. apply ParseMAC_String in Hok. by rewrite E in Hok. Qed.

Lemma mac_String_inj hw hw' : mac_length_ok (length hw) = true → mac_length_ok (length hw') = true →
  mac_String hw = mac_String hw' → hw = hw'.
Proof. intros H1%ParseMAC_String H2%ParseMAC_String E. rewrite E, H2 in H1. congruence. Qed.

Lemma containsMAC_spec hw macs : containsMAC hw (normalizeMACSet macs) = true ↔
  mac_String hw ≠ "" ∧ ∃ raw, raw ∈ macs ∧ mac_String hw = ToLower (TrimSpace raw).
Proof.
  unfold containsMAC. rewrite mac_String_normal.
  assert (Hel : mac_String hw ∈ normalizeMACSet macs ↔
    mac_String hw ≠ "" ∧ ∃ raw, raw ∈ macs ∧ mac_String hw = ToLower (TrimSpace raw)).
  { unfold normalizeMACSet. rewrite elem_of_filter, elem_of_map. naive_solver. }
  rewrite <- Hel. case_bool_decide as He; [rewrite He; set_solver|]. by rewrite bool_decide_eq_true.
Qed.

(** ** The node tables of the server *)

(** A property of some listed node. *)
Definition some_node (ms : list Machine) (vs : list VirtualMachine) (PM : Machine → Prop) (PV : VirtualMachine → Prop) : Prop :=
  (∃ m, m ∈ ms ∧ PM m) ∨ (∃ v, v ∈ vs ∧ PV v).

Section server_tables.
Context (l : Listings) (ms : list Machine) (vs : list VirtualMachine).
Hypothesis (Hms : ls_machines l = Ok ms) (Hvs : ls_vms l = Ok vs).

Lemma tables_registered x : x ∈ tb_registered (build_tables l) ↔
  ∃ hw, x = mac_String hw ∧ some_node ms vs (has_address hw) (has_address hw).
Proof.
  unfold build_tables, some_node. rewrite Hms, Hvs. cbn [add_nodes]. rewrite !fold_registered. cbn [tb_registered].
  split.
  - intros [[?%not_elem_of_empty|(m & hw & ? & ? & ->)]|(v & hw & ? & ? & ->)]; [done|..]; exists hw; eauto.
  - intros (hw & -> & [(m & ? & ?)|(v & ? & ?)]); [left; right|right]; eauto.
Qed.

Lemma tables_localBoot x : x ∈ tb_localBoot (build_tables l) ↔
  some_node ms vs (fun m => shouldDirectLocalBoot m = true ∧ x ∈ node_macs m) (fun v => shouldDirectLocalBoot v = true ∧ x ∈ node_macs v).
Proof.
  unfold build_tables, some_node. rewrite Hms, Hvs. cbn [add_nodes]. rewrite !fold_localBoot. cbn [tb_localBoot].
  rewrite elem_of_empty. naive_solver.
Qed.

Lemma tables_provisioning x : x ∈ tb_provisioning (build_tables l) ↔
  some_node ms vs (fun m => IsProvisioningActive m = true ∧ image_applied m = false ∧ x ∈ node_macs m)
                  (fun v => IsProvisioningActive v = true ∧ image_applied v = false ∧ x ∈ node_macs v).
Proof.
  unfold build_tables, some_node. rewrite Hms, Hvs. cbn [add_nodes]. rewrite !fold_provisioning. cbn [tb_provisioning].
  rewrite elem_of_empty. naive_solver.
Qed.

Lemma sync_registered s : sv_registeredMACs (syncDHCPReservations l s) = normalizeMACSet (tb_registered (build_tables l)).
Proof. unfold syncDHCPReservations. rewrite Hms, Hvs. reflexivity. Qed.

(** Who may boot.  After the tables are rebuilt from the stored nodes, the DHCP
    server serves boot information to a hardware address exactly when some stored
    machine or virtual machine has an interface with it, in whatever notation and
    letter case its MAC was entered; in particular the interface of every machine
    that passes validation is registered. *)
Lemma registered_exactly_stored (s : Server) (hw : HardwareAddr) (Hhw : mac_length_ok (length hw) = true) :
  (containsMAC hw (sv_registeredMACs (syncDHCPReservations l s)) = true ↔
     some_node ms vs (has_address hw) (has_address hw))
  ∧ (∀ m, m ∈ ms → ValidateMachine m = Ok tt → ParseMAC (m_MAC m) = Some hw →
       containsMAC hw (sv_registeredMACs (syncDHCPReservations l s)) = true).
Proof.
  assert (Hmain : containsMAC hw (sv_registeredMACs (syncDHCPReservations l s)) = true ↔
     some_node ms vs (has_address hw) (has_address hw)).
  { rewrite sync_registered, containsMAC_spec. split.
    - intros (Hne & raw & (hw' & -> & Hn)%tables_registered & E). rewrite mac_String_normal in E.
      assert (Hok : mac_length_ok (length hw') = true).
      { destruct Hn as [(m & _ & raw & _ & Hp)|(v & _ & raw & _ & Hp)]; by eapply ParseMAC_length. }
      by rewrite (mac_String_inj hw hw').
    - intros Hn. split; [by apply mac_String_ne|]. exists (mac_String hw).
      rewrite mac_String_normal, tables_registered. eauto. }
  split; [exact Hmain|]. intros m Hm _ Hp. apply Hmain. left. exists m. split; [done|].
  destruct (ParseMAC_normal _ _ Hp) as (Hp' & _ & Ht & _). unfold has_address.
  change (AllMACs m) with (machine_AllMACs m). unfold machine_AllMACs, primary_mac.
  exists (ToLower (TrimSpace (m_MAC m))). rewrite Ht. split; [|done]. cbv zeta.
  rewrite bool_decide_eq_false_2; [by apply list_elem_of_singleton|]. intros E. by rewrite E in Hp'.
Qed.

(** Who boots from its own disk.  The server directs a hardware address to local
    boot exactly when some node that reports it boots locally (it is not being
    provisioned, or its image is already applied) and no node that reports it is
    still being provisioned: an installation in progress always wins, whatever other
    records share the address. *)
Lemma provisioning_beats_local_boot (s : Server) (hw : HardwareAddr) (Hhw : mac_length_ok (length hw) = true)
  (Hm : Forall macs_parse ms) (Hv : Forall macs_parse vs) :
  isLocalBootMAC hw (sv_localBootMACs (syncDHCPReservations l s)) = true ↔
  some_node ms vs (boots_locally hw) (boots_locally hw) ∧ ¬ some_node ms vs (provisions hw) (provisions hw).
Proof.
  rewrite Forall_forall in Hm. rewrite Forall_forall in Hv. pose proof (mac_String_ne hw Hhw) as Hne.
  assert (sv_localBootMACs (syncDHCPReservations l s)
    = normalizeMACSet (removeProvisioningLocalBootMACs (tb_localBoot (build_tables l)) (tb_provisioning (build_tables l)))) as ->.
  { unfold syncDHCPReservations. rewrite Hms, Hvs. reflexivity. }
  unfold isLocalBootMAC. rewrite containsMAC_spec. unfold removeProvisioningLocalBootMACs.
  assert (Hin : (∃ raw, raw ∈ tb_localBoot (build_tables l) ∖ tb_provisioning (build_tables l) ∧ mac_String hw = ToLower (TrimSpace raw))
    ↔ mac_String hw ∈ tb_localBoot (build_tables l) ∧ mac_String hw ∉ tb_provisioning (build_tables l)).
  { split.
    - intros (raw & [Hl Hp]%elem_of_difference & E).
      assert (ToLower (TrimSpace raw) = raw) as Hfix.
      { apply tables_localBoot in Hl as [(m & Hin & _ & Hx)|(v & Hin & _ & Hx)].
        - by apply (node_mac_fixed raw m (Hm m Hin)).
        - by apply (node_mac_fixed raw v (Hv v Hin)). }
      by rewrite E, Hfix.
    - intros [Hl Hp]. exists (mac_String hw). rewrite mac_String_normal. set_solver. }
  rewrite Hin, tables_localBoot, tables_provisioning. unfold some_node, boots_locally, provisions.
  setoid_rewrite (canonical_node_mac hw); [|done..]. naive_solver.
Qed.
End server_tables.

(** ** The runtime *)

(** The configuration the host, the settings and the first subnet call for. *)
Definition serves (cfg : Config) (h : Host) (first : result (list Subnet)) (st : pxeRuntimeState) (spec : SubnetSpec) : Prop :=
  ∃ sub rest ip, first = Ok (sub :: rest) ∧ spec = sn_Spec sub
  ∧ (effective_mode cfg = "proxy" ∨ effective_mode cfg = "full" ∧ ss_PXEAddressRange spec ≠ None)
  ∧ pxe_iface cfg h spec ≠ "" ∧ ho_ifaceIP h (pxe_iface cfg h spec) = Some ip
  ∧ st = mkPxeRuntimeState (effective_mode cfg) (pxe_iface cfg h spec) (ip4_String ip) (cf_TFTPAddr cfg) (cf_TFTPRoot cfg).

Definition runtime_ok (r : Runtime) : Prop :=
  match rt_dhcpServer r with
  | None => rt_pxeState r = zero_state
  | Some (id, s) => (id < rt_next r)%nat ∧ server_ok s ∧ sv_mode s = pr_mode (rt_pxeState r)
  end.

Inductive runtime_step (reply_error : DHCPv4 → list Modifier → option error) (r : Runtime) : Runtime → Prop :=
| rstep_reconcile cfg h first l : runtime_step reply_error r (reconcilePXE cfg h first l r).1
| rstep_stop : runtime_step reply_error r (stopPXE r)
| rstep_clear id : runtime_step reply_error r (clearPXEIfCurrent id r)
| rstep_server id s s' : rt_dhcpServer r = Some (id, s) → server_step reply_error s s' →
    runtime_step reply_error r (mkRuntime (Some (id, s')) (rt_pxeState r) (rt_next r)).

Definition fresh_runtime : Runtime := mkRuntime None zero_state 0.

Lemma sync_server_ok l s : server_ok s → server_ok (syncDHCPReservations l s)
  ∧ sv_mode (syncDHCPReservations l s) = sv_mode s ∧ sv_subnet (syncDHCPReservations l s) = sv_subnet s
  ∧ (lp_leases <$> sv_leases (syncDHCPReservations l s)) = (lp_leases <$> sv_leases s).
Proof.
  intros Hok. pose proof (server_step_ok (fun _ _ => None) s _ Hok (sstep_reservations _ _ (tb_reservations (build_tables l)))) as H1.
  assert (H2 : sv_mode (Server_UpdateReservations s (tb_reservations (build_tables l))) = sv_mode s
    ∧ sv_subnet (Server_UpdateReservations s (tb_reservations (build_tables l))) = sv_subnet s
    ∧ (lp_leases <$> sv_leases (Server_UpdateReservations s (tb_reservations (build_tables l)))) = (lp_leases <$> sv_leases s)).
  { unfold Server_UpdateReservations. destruct (sv_leases s) eqn:E; simpl; by rewrite ?E. }
  unfold syncDHCPReservations. destruct (ls_machines l), (ls_vms l); split_and!; (exact H1 || apply H2).
Qed.

(** A new server, and a reconfigured one. *)
Lemma new_server_fields now listed mode iface ip spec boot (s := (NewServer now listed mode iface ip spec boot).1) :
  sv_mode s = mode ∧ sv_subnet s = spec.
Proof.
  unfold s, NewServer. destruct (ss_PXEAddressRange spec) as [rg|]; [|done]. destruct (_ ==? _); [|done].
  by destruct (newLeasePool _ _ _ _ _).
Qed.

Lemma reconfigured_fields now listed s spec (s' := (Reconfigure now listed s spec).1) : server_ok s →
  sv_mode s' = sv_mode s ∧ sv_subnet s' = spec
  ∧ (ss_PXEAddressRange spec = ss_PXEAddressRange (sv_subnet s) → (lp_leases <$> sv_leases s') = (lp_leases <$> sv_leases s)).
Proof.
  intros Hok. unfold s', Reconfigure. cbn [sv_mode assign].
  change (sv_mode (s <| sv_subnet := spec |>)) with (sv_mode s).
  change (sv_leases (s <| sv_subnet := spec |>)) with (sv_leases s).
  case_bool_decide as Hm; cbn [negb]; [|done].
  assert (Hkeep : ∀ k : Server, k = match sv_leases s with
      | Some pool => if leaseTTL spec =? leaseTTL (sv_subnet s) then s <| sv_subnet := spec |>
                     else s <| sv_subnet := spec |> <| sv_leases := Some (SetTTL pool (leaseTTL spec)) |>
      | None => s <| sv_subnet := spec |> end →
    sv_mode k = sv_mode s ∧ sv_subnet k = spec ∧ (lp_leases <$> sv_leases k) = (lp_leases <$> sv_leases s)).
  { intros k ->. destruct (sv_leases s) as [pool|] eqn:El; [destruct (_ =? _)|]; split_and!; try reflexivity;
      by rewrite <- ?El. }
  destruct (ss_PXEAddressRange (sv_subnet s)) as [o|] eqn:Eo, (ss_PXEAddressRange spec) as [rg|] eqn:Er.
  - destruct (_ || _) eqn:Hne.
    + destruct (newLeasePool _ _ _ _ _) as [pool calls]. split_and!; try reflexivity. intros [= ->].
      by rewrite !bool_decide_eq_true_2 in Hne.
    + destruct (Hkeep _ eq_refl) as (? & ? & ?). split_and!; try done.
  - split_and!; try reflexivity. done.
  - destruct (newLeasePool _ _ _ _ _) as [pool calls]. split_and!; try reflexivity. done.
  - destruct (Hkeep _ eq_refl) as (? & ? & ?). split_and!; done.
Qed.

(** What a reconciliation leaves, on every branch. *)
Inductive reconciled (cfg : Config) (h : Host) (first : result (list Subnet)) (r : Runtime) : Runtime → Prop :=
| rec_stopped : (∀ st spec, serves cfg h first st spec → ho_tftp_ready h = false ∧ (rt_dhcpServer r ≠ None → rt_pxeState r ≠ st)) →
    reconciled cfg h first r (stopPXE r)
| rec_kept id s s' st spec : serves cfg h first st spec → rt_dhcpServer r = Some (id, s) → rt_pxeState r = st →
    server_ok s' → sv_mode s' = sv_mode s → sv_subnet s' = spec →
    (ss_PXEAddressRange spec = ss_PXEAddressRange (sv_subnet s) → (lp_leases <$> sv_leases s') = (lp_leases <$> sv_leases s)) →
    reconciled cfg h first r (mkRuntime (Some (id, s')) st (rt_next r))
| rec_started s' st spec : serves cfg h first st spec → (rt_dhcpServer r ≠ None → rt_pxeState r ≠ st) →
    server_ok s' → sv_mode s' = pr_mode st → sv_subnet s' = spec →
    reconciled cfg h first r (mkRuntime (Some (rt_next r, s')) st (S (rt_next r))).

Lemma pxeSubnetReady_spec mode spec : pxeSubnetReady mode spec = true ↔
  mode = "proxy" ∨ mode = "full" ∧ ss_PXEAddressRange spec ≠ None.
Proof. unfold pxeSubnetReady. repeat case_bool_decide; naive_solver. Qed.

Lemma reconcile_reconciled cfg h first l r : runtime_ok r → reconciled cfg h first r (reconcilePXE cfg h first l r).1.
Proof.
  intros Hr. unfold reconcilePXE.
  assert (Hstop : (∀ st spec, ¬ serves cfg h first st spec) → reconciled cfg h first r (stopPXE r)).
  { intros Hno. apply rec_stopped. intros st spec Hs. by destruct (Hno st spec). }
  case_bool_decide as Hoff; [apply Hstop; intros st spec (sub & rest & ip & _ & _ & [?|[? _]] & _); congruence|].
  destruct ((effective_mode cfg !=? "full") && (effective_mode cfg !=? "proxy")) eqn:Hmode.
  { apply andb_true_iff in Hmode as [H1%negb_true_iff%bool_decide_eq_false H2%negb_true_iff%bool_decide_eq_false].
    apply Hstop. intros st spec (sub & rest & ip & _ & _ & [?|[? _]] & _); congruence. }
  destruct first as [[|sub rest]|e]; [apply Hstop; by intros ?? (? & ? & ? & ? & _)| |apply Hstop; by intros ?? (? & ? & ? & ? & _)].
  set (spec := sn_Spec sub).
  pose proof (pxeSubnetReady_spec (effective_mode cfg) spec) as Hready.
  destruct (pxeSubnetReady (effective_mode cfg) spec) eqn:Hrd; cbn [negb]; cycle 1.
  { apply Hstop. intros st spec' (sub' & rest' & ip & [= <- <-] & -> & Hmd & _). by apply Hready in Hmd. }
  apply proj1 in Hready. specialize (Hready eq_refl). clear Hmode. cbv zeta.
  case_bool_decide as Hif.
  { apply Hstop. intros st spec' (sub' & rest' & ip & [= <- <-] & -> & _ & Hne & _). done. }
  destruct (ho_ifaceIP h (pxe_iface cfg h spec)) as [ip|] eqn:Hip; cycle 1.
  { apply Hstop. intros st spec' (sub' & rest' & ip & [= <- <-] & -> & _ & _ & He & _). fold spec in He. congruence. }
  set (state := mkPxeRuntimeState _ _ _ _ _). set (boot := mkBootConfig _ _ _ _).
  assert (Hserves : serves cfg h (Ok (sub :: rest)) state spec) by (exists sub, rest, ip; by split_and!).
  assert (Huniq : ∀ st spec', serves cfg h (Ok (sub :: rest)) st spec' → st = state).
  { intros st spec' (sub' & rest' & ip' & [= <- <-] & -> & _ & _ & Hip' & ->). fold spec in Hip' |- *.
    rewrite Hip in Hip'. by injection Hip' as <-. }
  assert (Hstart : (rt_dhcpServer r ≠ None → rt_pxeState r ≠ state) →
    reconciled cfg h (Ok (sub :: rest)) r (startPXE h l state spec boot (stopPXE r)).1).
  { intros Hnew. unfold startPXE. destruct (ho_tftp_ready h) eqn:Htf; cbn [negb]; cycle 1.
    { apply rec_stopped. intros st spec' Hs. apply Huniq in Hs as ->. done. }
    destruct (new_server_fields (ho_now h) (ho_leases h) (pr_mode state) (pr_iface state) (parse4 (pr_serverIP state)) spec boot) as [N1 N2].
    pose proof (NewServer_ok (ho_now h) (ho_leases h) (pr_mode state) (pr_iface state) (parse4 (pr_serverIP state)) spec boot) as Hok.
    destruct (NewServer (ho_now h) (ho_leases h) _ _ _ spec boot) as [s calls]. simpl in N1, N2, Hok |- *.
    destruct (sync_server_ok l s Hok) as (S1 & S2 & S3 & _). eapply rec_started; [exact Hserves|done|done|by rewrite S2, N1|by rewrite S3]. }
  unfold runtime_ok in Hr. destruct (rt_dhcpServer r) as [[id s]|] eqn:Es; [|by apply Hstart].
  case_bool_decide as Hst; [|by apply Hstart]. destruct Hr as (_ & Hok & _).
  destruct (reconfigured_fields (ho_now h) (ho_leases h) s spec Hok) as (R1 & R2 & R3).
  pose proof (Reconfigure_ok (ho_now h) (ho_leases h) s spec Hok) as Hok'.
  destruct (Reconfigure (ho_now h) (ho_leases h) s spec) as [s1 calls]. simpl in R1, R2, R3, Hok' |- *.
  destruct (sync_server_ok l s1 Hok') as (S1 & S2 & S3 & S4).
  eapply (rec_kept _ _ _ _ id s); [exact Hserves|done|done|done|by rewrite S2|by rewrite S3|]. intros Hrange. rewrite S4. by apply R3.
Qed.

Lemma reconciled_ok cfg h first r r' : runtime_ok r → reconciled cfg h first r r' → runtime_ok r'.
Proof.
  intros Hr Hrec. unfold runtime_ok in *.
  destruct Hrec as [_|id s s' st spec _ Es Est Hok Hmode _ _|s' st spec _ _ Hok Hmode _]; simpl; [done| |].
  - rewrite Es in Hr. destruct Hr as (? & _ & Hm). split_and!; [done|done|congruence].
  - split_and!; [lia|done|done].
Qed.

Lemma runtime_step_ok reply_error r r' : runtime_ok r → runtime_step reply_error r r' → runtime_ok r'.
Proof.
  intros Hr Hstep. destruct Hstep as [cfg h first l| |id|id s s' Es Hs].
  - eapply reconciled_ok; [exact Hr|]. by apply reconcile_reconciled.
  - done.
  - unfold clearPXEIfCurrent. destruct (rt_dhcpServer r) as [[id' s]|] eqn:Es; [|done]. by case_bool_decide.
  - unfold runtime_ok in *. rewrite Es in Hr. simpl. destruct Hr as (? & Hok & Hm).
    split_and!; [done|by eapply server_step_ok|]. rewrite <- Hm.
    destruct Hs as [now req out s' calls Hh|now listed spec|mac deleted|rs|macs|macs]; try done.
    + by apply handler_leases in Hh as [->|(_ & pool & pool' & o & _ & -> & _)].
    + by apply reconfigured_fields.
    + unfold ReleaseLease. destruct (ParseMAC _); [|done]. destruct (sv_leases s) as [pool|]; [|by destruct (sv_store s)].
      by destruct (Release pool h).
    + unfold Server_UpdateReservations. by destruct (sv_leases s).
Qed.

Lemma runtime_reachable_ok reply_error r0 r : runtime_ok r0 → rtc (runtime_step reply_error) r0 r → runtime_ok r.
Proof. intros H. induction 1; eauto using runtime_step_ok. Qed.

(** A server in full mode with the subnet it was called for has a matching pool. *)
Lemma serving_pool cfg h first st spec s : serves cfg h first st spec → server_ok s → sv_mode s = pr_mode st →
  sv_subnet s = spec → effective_mode cfg = "full" → ∃ pool, sv_leases s = Some pool ∧ pool_matches spec pool.
Proof.
  intros (sub & rest & ip & _ & -> & Hmd & _ & _ & ->) Hok Hmode Hsub Hfull. simpl in Hmode.
  unfold server_ok in Hok. rewrite Hsub in Hok. destruct (sv_leases s) as [pool|]; [naive_solver|].
  destruct Hok as [?|?]; [congruence|]. destruct Hmd as [?|[_ ?]]; [congruence|done].
Qed.

(** C35: reconciling the PXE services.  In every state the runtime reaches, a
    reconciliation leaves a server running exactly when the settings, the first
    subnet and the host call for one (or it was running with that configuration
    already) and its files can be put in place; it serves the current subnet, with a
    lease pool that matches it in full mode.  An unchanged configuration keeps the
    server, and an unchanged address range keeps every lease. *)
Theorem pxe_reconcile_spec (reply_error : DHCPv4 → list Modifier → option error) (r : Runtime) (cfg : Config) (h : Host)
  (first : result (list Subnet)) (l : Listings) (Hreach : rtc (runtime_step reply_error) fresh_runtime r) :
  let r' := (reconcilePXE cfg h first l r).1 in
  runtime_ok r'
  ∧ (∀ id s, rt_dhcpServer r' = Some (id, s) →
       ∃ spec, serves cfg h first (rt_pxeState r') spec ∧ sv_subnet s = spec
       ∧ (effective_mode cfg = "full" → ∃ pool, sv_leases s = Some pool ∧ pool_matches spec pool))
  ∧ (∀ st spec, serves cfg h first st spec →
       ho_tftp_ready h = true ∨ (rt_dhcpServer r ≠ None ∧ rt_pxeState r = st) → rt_dhcpServer r' ≠ None)
  ∧ (∀ id s id' s', rt_dhcpServer r = Some (id, s) → rt_dhcpServer r' = Some (id', s') →
       (id' = id ↔ rt_pxeState r' = rt_pxeState r)
       ∧ (id' = id → ss_PXEAddressRange (sv_subnet s') = ss_PXEAddressRange (sv_subnet s) →
          (lp_leases <$> sv_leases s') = (lp_leases <$> sv_leases s))).
Proof.
  assert (Hr : runtime_ok r) by (by apply (runtime_reachable_ok reply_error fresh_runtime)).
  cbv zeta. pose proof (reconcile_reconciled cfg h first l r Hr) as Hrec.
  pose proof (reconciled_ok _ _ _ _ _ Hr Hrec) as Hr'. generalize dependent (reconcilePXE cfg h first l r).1.
  intros r' Hrec Hr'. split; [done|]. unfold runtime_ok in Hr.
  destruct Hrec as [Hno|id s s' st spec Hs Es Est Hok Hmode Hsub Hkeep|s' st spec Hs Hnew Hok Hmode Hsub]; simpl.
  - split_and!; [done| |done]. intros st spec Hs. destruct (Hno st spec Hs) as [Htf Hne]. naive_solver congruence.
  - rewrite Es in Hr. split_and!; [|done|].
    + intros id' x [= <- <-]. exists spec. split_and!; [done|done|]. destruct Hr' as (_ & _ & Hm'). by apply (serving_pool cfg h first st).
    + intros id' x id'' x' Hx [= <- <-]. rewrite Es in Hx. injection Hx as <- <-. split; [done|]. intros _. rewrite Hsub. apply Hkeep.
  - split_and!; [|done|].
    + intros id' x [= <- <-]. exists spec. split_and!; [done|done|]. by apply (serving_pool cfg h first st).
    + intros id' x id'' x' Hx [= <- <-]. rewrite Hx in Hr, Hnew. destruct Hr as (Hlt & _). split; [|lia].
      split; [lia|]. intros Est. by destruct (Hnew ltac:(done)).
Qed.

(** ** Examples *)

Definition static_machine (mac ip : string) : Machine :=
  windows_machine <| m_Name := "srv-1" |> <| m_MAC := mac |> <| m_OSPreset := mkOSPreset "ubuntu" "" "img" ∅ |>
    <| m_IPAssignment := IPAssignmentStatic |> <| m_IP := ip |>.

Definition listing (ms : list Machine) : Listings := mkListings (Ok []) (Ok ms) (Ok []).

Definition plain_server : Server := (NewServer 0 None "full" "eth0" None sample_spec (mkBootConfig "" "" "" "")).1.

Definition hw_12 : HardwareAddr := byte_of <$> [82; 84; 0; 18; 52; 86].

Lemma registered_exactly_stored_witness :
  containsMAC hw_12 (sv_registeredMACs (syncDHCPReservations (listing [static_machine "52-54-00-12-34-56" "10.0.0.5"]) plain_server)) = true.
Proof.
  pose (m := static_machine "52-54-00-12-34-56" "10.0.0.5").
  destruct (registered_exactly_stored (listing [m]) [m] [] eq_refl eq_refl plain_server hw_12 eq_refl) as [_ H].
  apply (H m); [left|vm_compute; reflexivity|vm_compute; reflexivity].
Defined.

Lemma provisioning_beats_local_boot_witness :
  isLocalBootMAC hw_12 (sv_localBootMACs (syncDHCPReservations (listing [static_machine "52:54:00:12:34:56" "10.0.0.5"]) plain_server)) = true.
Proof.
  pose (m := static_machine "52:54:00:12:34:56" "10.0.0.5").
  apply (provisioning_beats_local_boot (listing [m]) [m] [] eq_refl eq_refl plain_server hw_12 eq_refl).
  - apply Forall_singleton. intros raw Hraw%list_elem_of_singleton. subst raw. vm_compute. eauto.
  - constructor.
  - split.
    + left. exists m. split; [left|]. split; [vm_compute; reflexivity|].
      exists "52:54:00:12:34:56". split; [left|vm_compute; reflexivity].
    + intros [(x & Hx%list_elem_of_singleton & Ha & _)|(x & Hx%not_elem_of_nil & _)]; [|exact Hx].
      subst x. vm_compute in Ha. discriminate Ha.
Defined.

Definition sample_cfg : Config := mkConfig "" "eth0" ":69" "/srv/tftp" "" "" "" ":5392".
Definition sample_host : Host := mkHost "eth0" (fun _ => Some 167772161) true 0 None.

Lemma pxe_reconcile_spec_witness :
  let r' := (reconcilePXE sample_cfg sample_host (Ok [mkSubnet "lan" sample_spec 0 0]) (listing []) fresh_runtime).1 in
  runtime_ok r' ∧ rt_dhcpServer r' ≠ None.
Proof.
  destruct (pxe_reconcile_spec (fun _ _ => None) fresh_runtime sample_cfg sample_host
    (Ok [mkSubnet "lan" sample_spec 0 0]) (listing []) (rtc_refl _ _)) as (H1 & _ & H3 & _).
  split; [exact H1|]. refine (H3 _ sample_spec _ (or_introl eq_refl)).
  exists (mkSubnet "lan" sample_spec 0 0), [], 167772161. split_and!; try reflexivity.
  - right. split; [vm_compute; reflexivity|discriminate].
  - vm_compute. discriminate.
Defined.

(** A valid machine whose MAC is written with hyphens is registered, but its static
    reservation is filed under a key no client presents. *)
Lemma hyphenated_static_reservation_unused :
  let m := static_machine "52-54-00-12-34-56" "10.0.0.5" in
  ValidateMachine m = Ok tt ∧ ParseMAC (m_MAC m) = Some hw_12
  ∧ (pool ← sv_leases (syncDHCPReservations (listing [m]) plain_server); lp_reservations pool !! mac_String hw_12) = None
  ∧ (pool ← sv_leases (syncDHCPReservations (listing [m]) plain_server); lp_reservations pool !! "52-54-00-12-34-56")
    = Some (Some 167772165).
Proof. split_and!; vm_compute; reflexivity. Qed.

(** A valid machine with a static IPv6 address makes the allocation of every other
    client panic. *)
Lemma static_ipv6_machine_panics :
  let m := static_machine "52:54:00:12:34:56" "fd00::5" in
  ValidateMachine m = Ok tt
  ∧ (match sv_leases (syncDHCPReservations (listing [m]) plain_server) with
     | Some pool => Allocate pool 10 (replicate 6 (byte_of 170)) "" false = Panics
     | None => False
     end).
Proof. split; vm_compute; reflexivity. Qed.

(** A failed listing of machines keeps the registered MACs but drops the static
    reservations: until the next successful round a static address can be leased. *)
Lemma listing_failure_drops_reservations :
  let m := static_machine "52:54:00:12:34:56" "10.0.0.15" in
  let s := syncDHCPReservations (listing [m]) plain_server in
  let s' := syncDHCPReservations (mkListings (Ok []) (Err (ErrNew "database is locked")) (Ok [])) s in
  containsMAC hw_12 (sv_registeredMACs s') = true
  ∧ (lp_reservations <$> sv_leases s) = Some {[ "52:54:00:12:34:56" := Some 167772175 ]}
  ∧ (lp_reservations <$> sv_leases s') = Some ∅.
Proof. split_and!; vm_compute; reflexivity. Qed.
