(* ===== verification/Tftp.v ===== *)
(** * internal/pxe/tftp.go: the TFTP server

    Parsing of read requests, the check of the requested path, option negotiation
    and the lock-step transfer of a file with retransmission.  The network is a
    list of events, what each read of the data socket returns, and a log of the
    datagrams written; a write may fail.  The file is its contents: a read returns
    the next block, and nothing with io.EOF at the end. *)
From S2P Require Import Prelude GoStrings GoNet GoPath GoCrypto.

Definition tftpOpRRQ : Z := 1.
Definition tftpOpData : Z := 3.
Definition tftpOpAck : Z := 4.
Definition tftpOpError : Z := 5.
Definition tftpOpOACK : Z := 6.
Definition tftpErrNotFound : Z := 1.
Definition tftpErrAccess : Z := 2.
Definition tftpErrIllegalOp : Z := 4.
Definition tftpErrUnknownTID : Z := 5.
Definition tftpBlockSize : Z := 512.
Definition tftpMinBlockSize : Z := 8.
Definition tftpMaxBlockSize : Z := 65464.
Definition tftpMaxRetries : nat := 5.

(** ** Requests *)

Record tftpRRQ := mkTftpRRQ { rrq_filename : string; rrq_mode : string; rrq_options : gmap string string }.

(** The loop over the bytes after the opcode: the zero-terminated parts, and what
    follows the last zero. *)
Fixpoint zero_parts (part : bytes) (l : bytes) : list bytes * bytes :=
  match l with
  | [] => ([], reverse part)
  | c :: l => if byte_val c =? 0 then let '(ps, rest) := zero_parts [] l in (reverse part :: ps, rest)
              else zero_parts (c :: part) l
  end.

Fixpoint parse_options (parts : list string) (options : gmap string string) : gmap string string :=
  match parts with
  | k :: v :: parts =>
      let key := ToLower (TrimSpace k) in
      parse_options parts (if key ==? "" then options else <[key := TrimSpace v]> options)
  | _ => options
  end.

Definition parseRRQ (pkt : bytes) : result tftpRRQ :=
  if (length pkt <? 4)%nat then Err (ErrNew "packet too short")
  else if negb (be_decode (take 2 pkt) =? tftpOpRRQ) then Err (ErrNew "not rrq")
  else let '(parts, rest) := zero_parts [] (drop 2 pkt) in
  if rest !=? [] then Err (ErrNew "malformed rrq")
  else match of_bytes <$> parts with
  | filename :: mode :: options =>
      let filename := TrimSpace filename in
      let mode := ToLower (TrimSpace mode) in
      if filename ==? "" then Err (ErrNew "empty filename")
      else if mode ==? "" then Err (ErrNew "empty mode")
      else if negb (Nat.even (length options)) then Err (ErrNew "malformed options")
      else Ok (mkTftpRRQ filename mode (parse_options options ∅))
  | _ => Err (ErrNew "rrq missing filename/mode")
  end.

(** ** Paths *)

Definition slashes (c : ascii) : ascii := if byte_val c =? 92 then "/"%char else c.

Definition sanitizeTFTPPath (name : string) : result string :=
  let n := TrimSpace name in
  if n ==? "" then Err (ErrNew "empty filename") else
  let l := slashes <$> to_bytes n in
  let l := match l with c :: l' => if c ==? "/"%char then l' else l | [] => [] end in
  let n := path_Clean (of_bytes l) in
  if (n ==? ".") || HasPrefix n "../" || Contains n "/../" then Err (ErrNew "path traversal")
  else if negb (ValidPath n) then Err (ErrNew "invalid path")
  else Ok n.

(** ** Options *)

Definition negotiateRRQOptions (options : gmap string string) (fileSize : Z) : gmap string string * Z :=
  let accepted := match options !! "tsize" with Some _ => {[ "tsize" := Itoa fileSize ]} | None => ∅ end in
  match options !! "blksize" with
  | None => (accepted, tftpBlockSize)
  | Some raw =>
      match Atoi raw with
      | Some requested =>
          if (tftpMinBlockSize <=? requested) && (requested <=? tftpMaxBlockSize)
          then (<[ "blksize" := Itoa requested ]> accepted, requested) else (accepted, tftpBlockSize)
      | None => (accepted, tftpBlockSize)
      end
  end.

(** ** Datagrams *)

Definition Addr : Type := Z * Z.

Definition data_packet (block : Z) (payload : bytes) : bytes := be_encode 2 tftpOpData ++ be_encode 2 block ++ payload.

Definition zero_byte : ascii := byte_of 0.

Definition oack_packet (options : gmap string string) : bytes :=
  be_encode 2 tftpOpOACK ++
  (sorted_set (dom options) ≫= fun k => to_bytes k ++ zero_byte :: to_bytes (default "" (options !! k)) ++ [zero_byte]).

Definition error_packet (code : Z) (msg : string) : bytes :=
  be_encode 2 tftpOpError ++ be_encode 2 code ++ to_bytes msg ++ [zero_byte].

(** What a read of the data socket returns: a datagram, or an error such as the
    expired deadline.  When the list is exhausted every read times out. *)
Inductive event : Type :=
| Datagram (from : Addr) (data : bytes)
| NoDatagram (e : error).

Record Net := mkNet { nt_events : list event; nt_sent : list (Addr * bytes) }.

Section transfer.
(** Whether the write made after [k] successful ones fails. *)
Context (write_fails : nat → bool).

Definition write (to : Addr) (pkt : bytes) (n : Net) : Net * bool :=
  if write_fails (length (nt_sent n)) then (n, false)
  else (mkNet (nt_events n) (nt_sent n ++ [(to, pkt)]), true).

Definition ErrTimeout : error := ErrNew "i/o timeout".

(** [waitForAck]; the buffer holds eight bytes. *)
Fixpoint wait_events (peer : Addr) (block : Z) (evs : list event) (sent : list (Addr * bytes)) : Net * result bool :=
  match evs with
  | [] => (mkNet [] sent, Err ErrTimeout)
  | NoDatagram e :: evs => (mkNet evs sent, Err e)
  | Datagram from data :: evs =>
      let data := take 8 data in
      if from !=? peer then
        wait_events peer block evs (nt_sent (write from (error_packet tftpErrUnknownTID "unknown transfer id") (mkNet evs sent)).1)
      else if (length data <? 4)%nat then wait_events peer block evs sent
      else if be_decode (take 2 data) =? tftpOpAck then
        (mkNet evs sent, Ok (be_decode (take 2 (drop 2 data)) =? block))
      else if be_decode (take 2 data) =? tftpOpError then (mkNet evs sent, Err (ErrNew "peer reported tftp error"))
      else wait_events peer block evs sent
  end.

Definition waitForAck (peer : Addr) (block : Z) (n : Net) : Net * result bool :=
  wait_events peer block (nt_events n) (nt_sent n).

Inductive sending : Type := Acked | NotAcked | WriteFailed.

(** The retransmission loop. *)
Fixpoint send_acked (retries : nat) (peer : Addr) (block : Z) (pkt : bytes) (n : Net) : Net * sending :=
  match retries with
  | O => (n, NotAcked)
  | S retries =>
      match write peer pkt n with
      | (n, false) => (n, WriteFailed)
      | (n, true) =>
          match waitForAck peer block n with
          | (n, Ok true) => (n, Acked)
          | (n, _) => send_acked retries peer block pkt n
          end
      end
  end.

Inductive finish : Type := Completed | AckTimeout | SendFailed | ReadFailed | Rejected | OutOfFuel.

(** The loop over the blocks; [read_fails k] is whether the read of the k-th block
    fails. *)
Fixpoint send_blocks (fuel : nat) (read_fails : nat → bool) (peer : Addr) (bs : nat) (k : nat) (block : Z)
  (content : bytes) (n : Net) : Net * finish :=
  match fuel with
  | O => (n, OutOfFuel)
  | S fuel =>
      if read_fails k then ((write peer (error_packet tftpErrAccess "read error") n).1, ReadFailed) else
      let chunk := take bs content in
      match send_acked tftpMaxRetries peer block (data_packet block chunk) n with
      | (n, NotAcked) => (n, AckTimeout)
      | (n, WriteFailed) => (n, SendFailed)
      | (n, Acked) =>
          if (length chunk <? bs)%nat || bool_decide (chunk = []) then (n, Completed)
          else send_blocks fuel read_fails peer bs (S k) ((block + 1) `mod` 2 ^ 16) (drop bs content) n
      end
  end.

(** [open] is what opening the sanitized path gives: the contents, or whether the
    file does not exist. *)
Definition serveRRQ (open : string → bytes + bool) (read_fails : nat → bool) (peer : Addr) (rrq : tftpRRQ) (n : Net)
  : Net * finish :=
  let reject code msg := ((write peer (error_packet code msg) n).1, Rejected) in
  match sanitizeTFTPPath (rrq_filename rrq) with
  | Err _ => reject tftpErrAccess "access denied"
  | Ok rel =>
      match open rel with
      | inr true => reject tftpErrNotFound "file not found"
      | inr false => reject tftpErrAccess "access denied"
      | inl content =>
          let '(accepted, bs) := negotiateRRQOptions (rrq_options rrq) (Z.of_nat (length content)) in
          let start bs n := send_blocks (S (length content)) read_fails peer (Z.to_nat bs) 0 1 content n in
          if accepted ==? ∅ then start tftpBlockSize n
          else match send_acked tftpMaxRetries peer 0 (oack_packet accepted) n with
               | (n, Acked) => start bs n
               | (n, NotAcked) => (n, AckTimeout)
               | (n, WriteFailed) => (n, SendFailed)
               end
      end
  end.
End transfer.

(** ** Retransmission *)

(** The datagrams sent to a peer. *)
Definition to_peer (peer : Addr) (sent : list (Addr * bytes)) : list bytes :=
  (filter (fun p : Addr * bytes => p.1 = peer) sent).*2.

Lemma to_peer_app peer s1 s2 : to_peer peer (s1 ++ s2) = to_peer peer s1 ++ to_peer peer s2.
Proof. unfold to_peer. by rewrite filter_app, fmap_app. Qed.

(** The event is the peer's acknowledgement of a block. *)
Definition is_ack (peer : Addr) (block : Z) (e : event) : Prop :=
  ∃ data, e = Datagram peer data ∧ (4 <= length (take 8 data))%nat
    ∧ be_decode (take 2 (take 8 data)) = tftpOpAck ∧ be_decode (take 2 (drop 2 (take 8 data))) = block.

(** [acked peer blocks evs rest]: the events contain acknowledgements of the blocks,
    in this order, and [rest] is what follows the last one. *)
Inductive acked (peer : Addr) : list Z → list event → list event → Prop :=
| acked_nil evs : acked peer [] evs evs
| acked_cons b bs pre e mid rest :
    is_ack peer b e → acked peer bs mid rest → acked peer (b :: bs) (pre ++ e :: mid) rest.

(** Events consumed before an acknowledgement do not matter. *)
Lemma acked_skip peer bs pre evs rest : bs ≠ [] → acked peer bs evs rest → acked peer bs (pre ++ evs) rest.
Proof.
  intros Hne Ha. destruct Ha as [|b bs pre' e mid rest He Ha]; [done|]. rewrite app_assoc. by constructor.
Qed.

Section transfer_lemmas.
Context (write_fails : nat → bool) (peer : Addr).

Lemma wait_events_spec block evs : ∀ sent,
  let '(n, r) := wait_events write_fails peer block evs sent in
  to_peer peer (nt_sent n) = to_peer peer sent
  ∧ (∃ pre, evs = pre ++ nt_events n)
  ∧ (r = Ok true → ∃ pre e, evs = pre ++ e :: nt_events n ∧ is_ack peer block e).
Proof.
  induction evs as [|ev evs IH]; intros sent; cbn [wait_events].
  { split_and!; [done|by exists []|done]. }
  assert (Hskip : ∀ sent', to_peer peer sent' = to_peer peer sent →
    let '(n, r) := wait_events write_fails peer block evs sent' in
    to_peer peer (nt_sent n) = to_peer peer sent ∧ (∃ pre, ev :: evs = pre ++ nt_events n)
    ∧ (r = Ok true → ∃ pre e, ev :: evs = pre ++ e :: nt_events n ∧ is_ack peer block e)).
  { intros sent' Hs. specialize (IH sent'). destruct (wait_events write_fails peer block evs sent') as [n r].
    destruct IH as (H1 & (pre & H2) & H3). split_and!; [congruence|exists (ev :: pre); by rewrite H2 at 1|].
    intros Hr. destruct (H3 Hr) as (pre' & e & Hev & He). exists (ev :: pre'), e. by rewrite Hev at 1. }
  destruct ev as [from data|e]; [|split_and!; [done|by exists [NoDatagram e]|done]].
  case_bool_decide as Hfrom; cbn [negb]; cycle 1.
  { apply Hskip. unfold write. destruct (write_fails _); [done|]. simpl. rewrite to_peer_app.
    unfold to_peer at 2. rewrite filter_cons_False by done. by rewrite app_nil_r. }
  destruct (length (take 8 data) <? 4)%nat eqn:Hlen; [by apply Hskip|].
  destruct (be_decode (take 2 (take 8 data)) =? tftpOpAck) eqn:Hop.
  - split_and!; [done|by exists [Datagram from data]|]. simpl. intros [= Hb]. exists [], (Datagram from data).
    split; [done|]. subst from. exists data. apply Nat.ltb_ge in Hlen. apply Z.eqb_eq in Hop, Hb. done.
  - destruct (_ =? tftpOpError); [split_and!; [done|by exists [Datagram from data]|done]|by apply Hskip].
Qed.

Lemma send_acked_spec block pkt retries : ∀ n,
  let '(n', r) := send_acked write_fails retries peer block pkt n in
  ∃ k, (k <= retries)%nat ∧ to_peer peer (nt_sent n') = to_peer peer (nt_sent n) ++ replicate k pkt
  ∧ (∃ pre, nt_events n = pre ++ nt_events n')
  ∧ (r = Acked → (1 <= k)%nat ∧ ∃ pre e, nt_events n = pre ++ e :: nt_events n' ∧ is_ack peer block e).
Proof.
  induction retries as [|retries IH]; intros n; cbn [send_acked].
  { exists 0%nat. rewrite app_nil_r. split_and!; [lia|done|by exists []|done]. }
  unfold write at 1. destruct (write_fails _).
  { exists 0%nat. rewrite app_nil_r. split_and!; [lia|done|by exists []|done]. }
  set (n1 := mkNet (nt_events n) (nt_sent n ++ [(peer, pkt)])).
  assert (Hn1 : to_peer peer (nt_sent n1) = to_peer peer (nt_sent n) ++ [pkt]).
  { unfold n1. cbn [nt_sent]. rewrite to_peer_app. unfold to_peer at 2. by rewrite filter_cons_True. }
  unfold waitForAck. pose proof (wait_events_spec block (nt_events n1) (nt_sent n1)) as Hw.
  destruct (wait_events write_fails peer block (nt_events n1) (nt_sent n1)) as [n2 r2].
  destruct Hw as (W1 & (pre & W2) & W3).
  assert (Hagain : let '(n', r) := send_acked write_fails retries peer block pkt n2 in
    ∃ k, (k <= S retries)%nat ∧ to_peer peer (nt_sent n') = to_peer peer (nt_sent n) ++ replicate k pkt
    ∧ (∃ pre, nt_events n = pre ++ nt_events n')
    ∧ (r = Acked → (1 <= k)%nat ∧ ∃ pre e, nt_events n = pre ++ e :: nt_events n' ∧ is_ack peer block e)).
  { specialize (IH n2). destruct (send_acked write_fails retries peer block pkt n2) as [n' r].
    destruct IH as (k & Hk & Hs & (pre' & He) & Ha). exists (S k). cbn [nt_events] in W2. split_and!; [lia|..].
    - rewrite Hs, W1, Hn1, <- app_assoc. done.
    - exists (pre ++ pre'). rewrite <- app_assoc, <- He. exact W2.
    - intros Hr. split; [lia|]. destruct (Ha Hr) as (_ & p & e & He' & Hack). exists (pre ++ p), e.
      rewrite <- app_assoc, <- He'. split; [exact W2|done]. }
  destruct r2 as [[]|]; [|exact Hagain|exact Hagain].
  exists 1%nat. split_and!; [lia|by rewrite W1, Hn1|by exists pre|]. intros _. split; [lia|]. apply W3. done.
Qed.
End transfer_lemmas.

(** ** Blocks *)

(** The blocks of a file: full ones, then one shorter than a block, possibly
    empty. *)
Fixpoint chunks (fuel : nat) (bs : nat) (content : bytes) : list bytes :=
  match fuel with
  | O => []
  | S fuel =>
      let c := take bs content in
      if (length c <? bs)%nat || bool_decide (c = []) then [c] else c :: chunks fuel bs (drop bs content)
  end.

Definition file_blocks (bs : nat) (content : bytes) : list bytes := chunks (S (length content)) bs content.

(** The block numbers from [b] on, which wrap around after 65535. *)
Definition numbers (b : Z) (n : nat) : list Z := (fun i => (b + Z.of_nat i) `mod` 2 ^ 16) <$> seq 0 n.

Lemma numbers_S b n : 0 <= b < 2 ^ 16 → numbers b (S n) = b :: numbers ((b + 1) `mod` 2 ^ 16) n.
Proof.
  intros Hb. unfold numbers. cbn [seq fmap list_fmap]. rewrite Z.add_0_r, Z.mod_small by done. f_equal.
  rewrite <- seq_shift. rewrite <- list_fmap_compose. apply list_fmap_ext. intros _ i _. unfold compose.
  rewrite Zplus_mod_idemp_l. f_equal. lia.
Qed.

(** The data packets of a file. *)
Definition numbered (b : Z) (cs : list bytes) : list bytes := zip_with data_packet (numbers b (length cs)) cs.

Lemma length_numbered b cs : length (numbered b cs) = length cs.
Proof. unfold numbered, numbers. rewrite length_zip_with, length_fmap, length_seq. lia. Qed.

Lemma numbered_cons b c cs : 0 <= b < 2 ^ 16 →
  numbered b (c :: cs) = data_packet b c :: numbered ((b + 1) `mod` 2 ^ 16) cs.
Proof. intros Hb. unfold numbered. cbn [length]. by rewrite numbers_S. Qed.

Lemma chunks_spec bs fuel : (0 < bs)%nat → ∀ content, (length content < fuel)%nat →
  mjoin (chunks fuel bs content) = content
  ∧ ∃ full last, chunks fuel bs content = full ++ [last] ∧ Forall (fun c => length c = bs) full ∧ (length last < bs)%nat.
Proof.
  intros Hbs. induction fuel as [|fuel IH]; intros content Hlen; [lia|]. cbn [chunks].
  destruct ((length (take bs content) <? bs)%nat || bool_decide (take bs content = [])) eqn:Hlast.
  - assert (Hshort : (length content < bs)%nat).
    { rewrite orb_true_iff, Nat.ltb_lt, bool_decide_eq_true in Hlast. destruct Hlast as [Hl|Hnil].
      - rewrite length_take in Hl. lia.
      - assert (length (take bs content) = 0%nat) as H0 by (by rewrite Hnil). rewrite length_take in H0. lia. }
    rewrite take_ge by lia. split; [simpl; apply app_nil_r|]. exists [], content. done.
  - rewrite orb_false_iff, Nat.ltb_ge in Hlast. destruct Hlast as [Hl _]. rewrite length_take in Hl.
    destruct (IH (drop bs content)) as (Hj & full & last & Heq & Hf & Hlt); [rewrite length_drop; lia|].
    split; [simpl; rewrite Hj; apply take_drop|]. rewrite Heq. exists (take bs content :: full), last.
    split_and!; [done| |done]. constructor; [rewrite length_take; lia|done].
Qed.

Lemma send_acked_at_once (write_fails : nat → bool) (peer : Addr) block pkt n e evs retries : (∀ k, write_fails k = false) → nt_events n = e :: evs →
  is_ack peer block e → send_acked write_fails (S retries) peer block pkt n = (mkNet evs (nt_sent n ++ [(peer, pkt)]), Acked).
Proof.
  intros Hw Hev (data & -> & Hlen & Hop & Hb). cbn [send_acked]. unfold write at 1. rewrite Hw, Hev.
  unfold waitForAck. cbn [nt_events nt_sent wait_events]. rewrite bool_decide_eq_true_2 by done. cbn [negb].
  replace (length (take 8 data) <? 4)%nat with false by (symmetry; apply Nat.ltb_ge; lia).
  rewrite Hop, Hb, !Z.eqb_refl. done.
Qed.

Section blocks.
Context (write_fails read_fails : nat → bool) (peer : Addr) (bs : nat) (Hbs : (0 < bs)%nat).

Lemma send_blocks_spec fuel : ∀ k block content n, 0 <= block < 2 ^ 16 → (length content < fuel)%nat →
  let '(n', fin) := send_blocks write_fails fuel read_fails peer bs k block content n in
  let cs := chunks fuel bs content in
  fin ≠ OutOfFuel ∧ fin ≠ Rejected
  ∧ (fin = Completed → ∃ ks, length ks = length cs ∧ Forall (fun k => 1 <= k <= tftpMaxRetries)%nat ks
       ∧ to_peer peer (nt_sent n') = to_peer peer (nt_sent n) ++ mjoin (zip_with replicate ks (numbered block cs))
       ∧ acked peer (numbers block (length cs)) (nt_events n) (nt_events n')).
Proof.
  induction fuel as [|fuel IH]; intros k block content n Hb Hlen; [lia|]. cbn [send_blocks chunks].
  destruct (read_fails k); [done|].
  pose proof (send_acked_spec write_fails peer block (data_packet block (take bs content)) tftpMaxRetries n) as Hs.
  destruct (send_acked write_fails tftpMaxRetries peer block (data_packet block (take bs content)) n) as [n1 r].
  destruct Hs as (j & Hj & Hsent & _ & Hack). destruct r; [|done|done].
  destruct (Hack eq_refl) as (Hj1 & pre & e & Hev & He). clear Hack.
  destruct ((length (take bs content) <? bs)%nat || bool_decide (take bs content = [])) eqn:Hlast.
  - split_and!; [done|done|]. intros _. exists [j]. split_and!; [done|by apply Forall_singleton| |].
    + rewrite numbered_cons by done. simpl. by rewrite app_nil_r.
    + cbn [length]. rewrite numbers_S by done. rewrite Hev. constructor; [done|]. constructor.
  - rewrite orb_false_iff, Nat.ltb_ge in Hlast. destruct Hlast as [Hl _]. rewrite length_take in Hl.
    assert (Hb' : 0 <= (block + 1) `mod` 2 ^ 16 < 2 ^ 16) by (apply Z.mod_pos_bound; lia).
    specialize (IH (S k) ((block + 1) `mod` 2 ^ 16) (drop bs content) n1 Hb' ltac:(rewrite length_drop; lia)).
    destruct (send_blocks write_fails fuel read_fails peer bs (S k) _ (drop bs content) n1) as [n' fin].
    cbv zeta in IH |- *. destruct IH as (F1 & F2 & F3). split_and!; [done|done|]. intros Hc.
    destruct (F3 Hc) as (ks & L1 & L2 & L3 & L4). exists (j :: ks). split_and!.
    + simpl. by rewrite L1.
    + by constructor.
    + rewrite L3, Hsent, numbered_cons by done. simpl. by rewrite app_assoc.
    + cbn [length]. rewrite numbers_S by done. rewrite Hev. by constructor.
Qed.

(** A peer that acknowledges every block at once, over a network and a disk that do
    not fail, gets the whole file. *)
Lemma send_blocks_complete fuel : (∀ k, write_fails k = false) → (∀ k, read_fails k = false) →
  ∀ k block content n evs, 0 <= block < 2 ^ 16 → (length content < fuel)%nat →
  Forall2 (is_ack peer) (numbers block (length (chunks fuel bs content))) evs → nt_events n = evs →
  (send_blocks write_fails fuel read_fails peer bs k block content n).2 = Completed.
Proof.
  intros Hw Hr. induction fuel as [|fuel IH]; intros k block content n evs Hb Hlen Hack Hev; [lia|].
  cbn [send_blocks]. rewrite Hr. cbn [chunks] in Hack. change tftpMaxRetries with 5%nat.
  destruct ((length (take bs content) <? bs)%nat || bool_decide (take bs content = [])) eqn:Hlast;
    cbn [length] in Hack; rewrite numbers_S in Hack by done; apply Forall2_cons_inv_l in Hack as (e & evs' & He & Hack & ->);
    rewrite (send_acked_at_once write_fails peer block _ n e evs' 4) by done; rewrite ?Hlast; [done|].
  rewrite orb_false_iff, Nat.ltb_ge in Hlast. destruct Hlast as [Hl _]. rewrite length_take in Hl.
  eapply IH; [apply Z.mod_pos_bound; lia|rewrite length_drop; lia|exact Hack|done].
Qed.
End blocks.

(** ** The whole transfer *)

Lemma negotiate_spec options size :
  let '(accepted, bs) := negotiateRRQOptions options size in
  tftpMinBlockSize <= bs <= tftpMaxBlockSize ∧ (accepted = ∅ → bs = tftpBlockSize)
  ∧ (∀ v, accepted !! "blksize" = Some v → v = Itoa bs) ∧ (∀ v, accepted !! "tsize" = Some v → v = Itoa size).
Proof.
  unfold negotiateRRQOptions.
  set (accepted := match options !! "tsize" with Some _ => {[ "tsize" := Itoa size ]} | None => ∅ end : gmap string string).
  assert (Ht : ∀ v, accepted !! "tsize" = Some v → v = Itoa size).
  { intros v. unfold accepted. destruct (options !! "tsize"); [rewrite lookup_singleton_eq; by intros [= <-]|by rewrite lookup_empty]. }
  assert (Hb : ∀ v, accepted !! "blksize" = Some v → v = Itoa tftpBlockSize).
  { intros v. unfold accepted. destruct (options !! "tsize"); [by rewrite lookup_singleton_ne|by rewrite lookup_empty]. }
  clearbody accepted.
  destruct (options !! "blksize") as [raw|]; [|by split_and!].
  destruct (Atoi raw) as [req|]; [|by split_and!].
  destruct (_ && _) eqn:Hr; [|by split_and!]. split_and!; [lia|lia|..].
  - intros H. by apply insert_non_empty in H.
  - intros v. rewrite lookup_insert_eq. by intros [= <-].
  - intros v. rewrite lookup_insert_ne by done. apply Ht.
Qed.

(** C34: a TFTP transfer delivers the file.  For a request that is accepted, with the
    negotiated block size between 8 and 65464: the blocks of the file concatenate to
    its contents, all but the last are full and the last is shorter.  Whatever
    datagrams arrive or fail to arrive, the transfer ends; if it ends successfully,
    the peer was sent the option acknowledgement (if options were agreed) and then
    exactly the blocks in order, numbered from 1 with wrap-around, each one to five
    times, and the peer acknowledged each before the next was sent.  A peer that
    acknowledges everything over a network and a disk without failures gets the
    whole file. *)
Theorem tftp_transfer_exact (write_fails read_fails : nat → bool) (open : string → bytes + bool) (peer : Addr)
  (rrq : tftpRRQ) (evs : list event) (content : bytes) (rel : string)
  (Hpath : sanitizeTFTPPath (rrq_filename rrq) = Ok rel) (Hopen : open rel = inl content) :
  let '(accepted, bs) := negotiateRRQOptions (rrq_options rrq) (Z.of_nat (length content)) in
  let '(n', fin) := serveRRQ write_fails open read_fails peer rrq (mkNet evs []) in
  let cs := file_blocks (Z.to_nat bs) content in
  let acks := (if accepted ==? ∅ then [] else [0]) ++ numbers 1 (length cs) in
  (tftpMinBlockSize <= bs <= tftpMaxBlockSize ∧ mjoin cs = content
   ∧ ∃ full last, cs = full ++ [last] ∧ Forall (fun c => Z.of_nat (length c) = bs) full ∧ Z.of_nat (length last) < bs)
  ∧ fin ≠ OutOfFuel
  ∧ (fin = Completed → ∃ k0 ks, (k0 <= tftpMaxRetries)%nat ∧ (k0 = 0%nat ↔ accepted = ∅)
       ∧ length ks = length cs ∧ Forall (fun k => 1 <= k <= tftpMaxRetries)%nat ks
       ∧ to_peer peer (nt_sent n') = replicate k0 (oack_packet accepted) ++ mjoin (zip_with replicate ks (numbered 1 cs))
       ∧ acked peer acks evs (nt_events n'))
  ∧ ((∀ k, write_fails k = false) → (∀ k, read_fails k = false) → Forall2 (is_ack peer) acks evs → fin = Completed).
Proof.
  pose proof (negotiate_spec (rrq_options rrq) (Z.of_nat (length content))) as Hneg.
  unfold serveRRQ. rewrite Hpath, Hopen.
  destruct (negotiateRRQOptions (rrq_options rrq) (Z.of_nat (length content))) as [accepted bs].
  destruct Hneg as (Hbs & Hdef & _). pose proof Hbs as Hrange. cbv zeta. unfold tftpMinBlockSize, tftpMaxBlockSize in Hbs.
  assert (Hpos : (0 < Z.to_nat bs)%nat) by lia.
  assert (Hsizes : mjoin (file_blocks (Z.to_nat bs) content) = content
    ∧ ∃ full last, file_blocks (Z.to_nat bs) content = full ++ [last] ∧ Forall (fun c => Z.of_nat (length c) = bs) full ∧ Z.of_nat (length last) < bs).
  { destruct (chunks_spec (Z.to_nat bs) (S (length content)) Hpos content ltac:(lia)) as (Hj & full & last & He & Hf & Hl).
    split; [done|]. exists full, last. split_and!; [done| |lia]. eapply Forall_impl; [exact Hf|]. simpl. intros; lia. }
  pose proof (send_blocks_spec write_fails read_fails peer (Z.to_nat bs) Hpos (S (length content)) 0 1 content) as Hspec.
  case_bool_decide as Hacc.
  - rewrite (Hdef Hacc) in *. specialize (Hspec (mkNet evs []) ltac:(lia) ltac:(lia)).
    pose proof (send_blocks_complete write_fails read_fails peer (Z.to_nat tftpBlockSize) Hpos (S (length content))) as Hcomp.
    destruct (send_blocks _ _ _ _ _ _ _ _ (mkNet evs [])) as [n' fin] eqn:Es. destruct Hspec as (F1 & F2 & F3).
    split; [split; [exact Hrange|exact Hsizes]|]. split; [exact F1|]. split.
    + intros Hc. destruct (F3 Hc) as (ks & ? & ? & Hsent & ?). exists 0%nat, ks. split_and!; try done. lia.
    + intros Hw Hr Hack. specialize (Hcomp Hw Hr 0%nat 1 content (mkNet evs []) evs ltac:(lia) ltac:(lia) Hack eq_refl).
      by rewrite Es in Hcomp.
  - pose proof (send_acked_spec write_fails peer 0 (oack_packet accepted) tftpMaxRetries (mkNet evs [])) as Hs.
    assert (Hone : (∀ k, write_fails k = false) → ∀ rest, Forall2 (is_ack peer) (0 :: rest) evs → ∃ evs', Forall2 (is_ack peer) rest evs' ∧
      send_acked write_fails tftpMaxRetries peer 0 (oack_packet accepted) (mkNet evs []) = (mkNet evs' [(peer, oack_packet accepted)], Acked)).
    { intros Hw rest (e & evs' & He & Hrest & ->)%Forall2_cons_inv_l. exists evs'. split; [done|].
      by apply (send_acked_at_once write_fails peer 0 (oack_packet accepted) (mkNet (e :: evs') []) e evs' 4). }
    destruct (send_acked write_fails tftpMaxRetries peer 0 (oack_packet accepted) (mkNet evs [])) as [n1 r].
    destruct Hs as (k0 & Hk0 & Hsent0 & _ & Hack0). destruct r.
    2-3: split; [split; [exact Hrange|exact Hsizes]|]; split; [done|]; split; [done|]; intros Hw _ Ha; destruct (Hone Hw _ Ha) as (? & _ & ?); done.
    destruct (Hack0 eq_refl) as (Hk1 & pre & e & Hev & He). specialize (Hspec n1 ltac:(lia) ltac:(lia)).
    pose proof (send_blocks_complete write_fails read_fails peer (Z.to_nat bs) Hpos (S (length content))) as Hcomp.
    destruct (send_blocks _ _ _ _ _ _ _ _ n1) as [n' fin] eqn:Es. destruct Hspec as (F1 & F2 & F3).
    split; [split; [exact Hrange|exact Hsizes]|]. split; [exact F1|]. split.
    + intros Hc. destruct (F3 Hc) as (ks & ? & ? & Hsent & Hacked). exists k0, ks. cbn [nt_events] in Hev. split_and!; try done.
      * split; [lia|done].
      * rewrite Hsent, Hsent0. done.
      * rewrite Hev. by constructor.
    + intros Hw Hr Ha. destruct (Hone Hw _ Ha) as (evs' & Hrest & [= ->]).
      specialize (Hcomp Hw Hr 0%nat 1 content (mkNet evs' [(peer, oack_packet accepted)]) evs' ltac:(lia) ltac:(lia) Hrest eq_refl).
      by rewrite Es in Hcomp.
Qed.

Definition sample_rrq : tftpRRQ := mkTftpRRQ "/boot/ipxe.efi" "octet" {[ "blksize" := "8" ]}.
Definition ack_of (peer : Addr) (b : Z) : event := Datagram peer (be_encode 2 tftpOpAck ++ be_encode 2 b).

Lemma tftp_transfer_exact_witness :
  (serveRRQ (fun _ => false) (fun _ => inl (to_bytes "0123456789")) (fun _ => false) (1, 2) sample_rrq
     (mkNet (ack_of (1, 2) <$> [0; 1; 2]) [])).2 = Completed.
Proof.
  pose proof (tftp_transfer_exact (fun _ => false) (fun _ => false) (fun _ => inl (to_bytes "0123456789")) (1, 2) sample_rrq
    (ack_of (1, 2) <$> [0; 1; 2]) (to_bytes "0123456789") "boot/ipxe.efi" ltac:(vm_compute; reflexivity) eq_refl) as H.
  assert (Hneg : negotiateRRQOptions (rrq_options sample_rrq) (Z.of_nat (length (to_bytes "0123456789")))
    = ({[ "blksize" := "8" ]}, 8)) by (vm_compute; reflexivity).
  rewrite Hneg in H.
  destruct (serveRRQ (fun _ => false) (fun _ => inl (to_bytes "0123456789")) (fun _ => false) (1, 2) sample_rrq
     (mkNet (ack_of (1, 2) <$> [0; 1; 2]) [])) as [n' fin].
  destruct H as (_ & _ & _ & H). apply H; [reflexivity|reflexivity|].
  repeat constructor; (eexists; split; [reflexivity|]; split_and!; [vm_compute; lia|vm_compute; reflexivity..]).
Defined.

(** ** Paths stay below the root *)

(** A request cannot leave the TFTP directory.  Every path the server accepts is
    valid UTF-8 made of elements that are neither empty, nor [.], nor [..], whatever
    the request contained; so the file opened for it is the root directory, as
    configured, followed by that path. *)
Lemma tftp_path_contained (root name n : string) (r : bytes)
  (Hroot : to_bytes root = "/"%char :: r) (Hproper : Forall proper (split_path r))
  (Hok : sanitizeTFTPPath name = Ok n) :
  utf8_valid (to_bytes n) = true ∧ Forall proper (split_path (to_bytes n))
  ∧ filepath_Join root n = root +:+ "/" +:+ n.
Proof.
  assert (Hn : utf8_valid (to_bytes n) = true ∧ Forall proper (split_path (to_bytes n))).
  { revert Hok. unfold sanitizeTFTPPath. cbv zeta. destruct (_ ==? ""); [done|].
    set (m := path_Clean _). destruct (m ==? ".") eqn:Hdot; [done|]. cbn [orb].
    destruct (HasPrefix m "../" || Contains m "/../"); [done|].
    destruct (ValidPath m) eqn:Hv; [|done]. cbn [negb]. intros <-%Ok_inj. unfold ValidPath in Hv.
    rewrite Hdot in Hv. apply andb_true_iff in Hv as [Hu Hall]. split; [done|].
    cbn [orb] in Hall. apply Forall_forall. intros e He. rewrite forallb_forall in Hall.
    specialize (Hall e ltac:(by apply list_elem_of_In)).
    rewrite !andb_true_iff, !negb_true_iff, !bool_decide_eq_false in Hall. destruct Hall as [[? ?] ?]. done. }
  destruct Hn as [Hu Hp]. split_and!; [done..|]. unfold filepath_Join, path_Clean.
  rewrite !to_bytes_app, Hroot. change (to_bytes "/") with ["/"%char]. cbn [app]. cbv zeta iota.
  rewrite (bool_decide_eq_true_2 ("/"%char = "/"%char)) by done.
  assert (split_path ("/"%char :: r ++ "/"%char :: to_bytes n) = [] :: split_path (r ++ "/"%char :: to_bytes n)) as -> by done.
  cbn [fold_left].
  change (clean_step true [] []) with ([] : list bytes).
  assert (Hall : Forall proper (split_path (r ++ "/"%char :: to_bytes n))).
  { unfold split_path. rewrite split_bytes_app_sep. by apply Forall_app. }
  rewrite clean_proper by done. rewrite app_nil_r, reverse_involutive, join_split, bool_decide_eq_false_2 by done.
  apply (inj to_bytes). rewrite to_of_bytes, !to_bytes_app, Hroot. done.
Qed.

Lemma tftp_path_contained_witness :
  filepath_Join "/srv/tftp" "boot/ipxe.efi" = "/srv/tftp/boot/ipxe.efi".
Proof.
  refine (proj2 (proj2 (tftp_path_contained "/srv/tftp" "\x/..//boot/./ipxe.efi " "boot/ipxe.efi" (to_bytes "srv/tftp") eq_refl _ _))).
  - repeat constructor; vm_compute; discriminate.
  - vm_compute. reflexivity.
Defined.
