(* ===== verification/Auth.v ===== *)
(** * internal/auth, internal/setupadmin, infra/memory/auth_store.go, infra/api/auth.go and middleware.go: who may do what

    Users, sessions and service accounts; the middleware that decides who a request
    comes from and whether the role suffices; the handlers that change accounts; and
    the table of routes with the group each belongs to.  A handler runs over the
    accounts in the style of Handler.v, with the other requests in between.  From
    package bcrypt: making and comparing hashes. *)
From S2P Require Import Prelude GoStrings GoPath GoCrypto Handler Store Hypervisor.

(** ** auth/types.go *)

Definition Role : Type := string.
Definition RoleAdmin : Role := "admin".
Definition RoleOperator : Role := "operator".
Definition RoleViewer : Role := "viewer".
Definition CanWrite (r : Role) : bool := (r ==? RoleAdmin) || (r ==? RoleOperator).
Definition IsAdmin (r : Role) : bool := r ==? RoleAdmin.

Record User := mkUser { us_Username : string; us_PasswordHash : string; us_Role : Role; us_CreatedAt : Time }.
Record Session := mkSession { se_Token : string; se_Username : string; se_CreatedAt : Time; se_ExpiresAt : Time }.
Record ServiceAccount := mkServiceAccount {
  sa_Name : string; sa_TokenHash : string; sa_Role : Role; sa_CreatedAt : Time; sa_LastUsedAt : option Time; sa_LastUsedToken : string }.
Global Instance ServiceAccount_fields : Fields ServiceAccount :=
  fpure mkServiceAccount <*> sa_Name <*> sa_TokenHash <*> sa_Role <*> sa_CreatedAt <*> sa_LastUsedAt <*> sa_LastUsedToken.

(** ** memory/auth_store.go *)

(** The accounts, and the agent tokens of hypervisors the middleware also accepts. *)
Record AuthDb := mkAuthDb {
  au_users : gmap string User; au_sessions : gmap string Session; au_accounts : gmap string ServiceAccount; au_agents : gmap string AgentToken }.
Global Instance AuthDb_fields : Fields AuthDb := fpure mkAuthDb <*> au_users <*> au_sessions <*> au_accounts <*> au_agents.

Definition UpsertUser (db : AuthDb) (u : User) : AuthDb := db <| au_users := <[us_Username u := u]> (au_users db) |>.
Definition GetUser (db : AuthDb) (username : string) : result User := match au_users db !! username with Some u => Ok u | None => Err ErrNotFound end.
Definition CountUsers (db : AuthDb) : Z := Z.of_nat (size (au_users db)).
Definition CreateSession (db : AuthDb) (s : Session) : AuthDb := db <| au_sessions := <[se_Token s := s]> (au_sessions db) |>.
Definition DeleteSession (db : AuthDb) (token : string) : AuthDb := db <| au_sessions := delete token (au_sessions db) |>.
Definition UpsertServiceAccount (db : AuthDb) (a : ServiceAccount) : AuthDb := db <| au_accounts := <[sa_Name a := a]> (au_accounts db) |>.

(** The iteration over the map may be in any order. *)
Definition GetServiceAccountByTokenHash (order : list (string * ServiceAccount) → list (string * ServiceAccount)) (db : AuthDb) (tokenHash : string)
  : result ServiceAccount :=
  match List.find (fun na : string * ServiceAccount => sa_TokenHash na.2 ==? tokenHash) (order (map_to_list (au_accounts db))) with
  | Some (_, a) => Ok a
  | None => Err ErrNotFound
  end.

Definition ListServiceAccounts (db : AuthDb) : list ServiceAccount := omap (fun n => au_accounts db !! n) (sorted_set (dom (au_accounts db))).
Definition DeleteServiceAccount_store (db : AuthDb) (name : string) : result AuthDb :=
  match au_accounts db !! name with Some _ => Ok (db <| au_accounts := delete name (au_accounts db) |>) | None => Err ErrNotFound end.
Definition MarkServiceAccountUsed (db : AuthDb) (name tokenHash : string) (usedAt : Time) : result AuthDb :=
  match au_accounts db !! name with
  | Some a =>
      if sa_TokenHash a !=? tokenHash then Err ErrNotFound
      else Ok (db <| au_accounts := <[name := a <| sa_LastUsedAt := Some usedAt |> <| sa_LastUsedToken := tokenHash |>]> (au_accounts db) |>)
  | None => Err ErrNotFound
  end.

(** ** auth/service_account.go *)

Definition GenerateServiceAccountToken (read : nat → result bytes) : result string := v ← read 32%nat; Ok ("gomi_sa_" +:+ hex_encode v).
(** api/middleware.go, which trims what it hashes. *)
Definition serviceAccountTokenHash (token : string) : string := hex_encode (sha256 (to_bytes (TrimSpace token))).

(** ** The surroundings of a request *)

Inductive auth_body : Type :=
| AError (msg : string) | AStatus (status : string) | ALogin (token : string) (expires : Time) (username : string) (role : Role)
| AUser (username : string) (role : Role) | AAccounts (l : list ServiceAccount) | AToken (a : ServiceAccount) (token : string)
| ASetup (required : bool) | ANone.
Record AuthReply := mkAuthReply { ar_Status : Z; ar_Body : auth_body }.
Definition auth_error (status : Z) (msg : string) : AuthReply := mkAuthReply status (AError msg).

(** The audit entries, which go to a table nothing here reads. *)
Record AuthAudit := mkAuthAudit { aa_actor : string; aa_action : string; aa_message : string; aa_details : gmap string string }.

Record AuthEnv := mkAuthEnv {
  ae_others : nat → AuthDb → AuthDb; ae_clock : nat → Time; ae_uuid : nat → string; ae_read : nat → nat → result bytes;
  ae_order : list (string * ServiceAccount) → list (string * ServiceAccount);
  ae_compare : string → string → bool; ae_generate : nat → string → result string }.
Record AuthServer := mkAuthServer { as_sessionTTL : Duration; as_agentTokens : bool }.

Definition AuthMethodSession : string := "session".
Definition AuthMethodAgent : string := "agent".
Definition AuthMethodServiceAccount : string := "service_account".

(** [strings.SplitN(s, " ", 2)], when it has two parts. *)
Definition two_parts (s : string) : option (string * string) :=
  (fun i => (of_bytes (take i (to_bytes s)), of_bytes (drop (S i) (to_bytes s)))) <$> index_byte " "%char (to_bytes s).

Section auth.
Context (env : AuthEnv) (sv : AuthServer).
Local Abbreviation H := (Hd AuthDb AuthAudit AuthReply).

Definition auth_op {A} (f : AuthDb → AuthDb * A) : H A := op (ae_others env) f.
Definition auth_read {A} (f : AuthDb → A) : H A := op (ae_others env) (fun s => (s, f s)).
Definition auth_write (f : AuthDb → AuthDb) : H unit := auth_op (fun s => (f s, tt)).
Definition auth_clock : H Time := k ← tick; mret (ae_clock env k).

(** The expiry test and the removal of an expired session are two steps. *)
Definition GetSession (token : string) : H (result Session) :=
  found ← auth_read (fun db => au_sessions db !! token);
  match found with
  | None => mret (Err ErrNotFound)
  | Some sess =>
      now ← auth_clock;
      if now >? se_ExpiresAt sess then _ ← auth_write (fun db => DeleteSession db token); mret (Err ErrNotFound) else mret (Ok sess)
  end.

(** ** api/middleware.go *)

Definition authenticate (token : string) : H (result User) :=
  session ← GetSession token;
  match session with
  | Err e => mret (Err e)
  | Ok session =>
      now ← auth_clock;
      if now >? se_ExpiresAt session then _ ← auth_write (fun db => DeleteSession db token); mret (Err ErrNotFound)
      else auth_read (fun db => GetUser db (se_Username session))
  end.

Definition login (username password : string) : H (result (Session * User)) :=
  user ← auth_read (fun db => GetUser db username);
  match user with
  | Err e => mret (Err (if errors_Is e ErrNotFound then ErrNew "invalid credentials" else e))
  | Ok user =>
      if negb (ae_compare env (us_PasswordHash user) password) then mret (Err (ErrNew "invalid credentials")) else
      k ← tick;
      now ← auth_clock;
      let session := mkSession (ae_uuid env k) (us_Username user) now (time_Add now (as_sessionTTL sv)) in
      _ ← auth_write (fun db => CreateSession db session);
      mret (Ok (session, user))
  end.

(** Who a request comes from, by the header, and by which kind of credential. *)
Definition AuthMiddleware (authz : string) : H (User * string) :=
  match two_parts authz with
  | None => answer_with (auth_error 401 "missing bearer token")
  | Some (scheme, rest) =>
      _ ← must (EqualFold scheme "Bearer") (auth_error 401 "missing bearer token");
      let tokenValue := TrimSpace rest in
      user ← authenticate tokenValue;
      match user with
      | Ok user => mret (user, AuthMethodSession)
      | Err _ =>
          agent ← (if as_agentTokens sv then auth_read (fun db => AgentTokenStore_GetByToken (au_agents db) tokenValue) else mret (Err ErrNotFound));
          match agent with
          | Ok t => mret (mkUser ("agent:" +:+ at_HypervisorName t) "" RoleViewer 0, AuthMethodAgent)
          | Err _ =>
              let tokenHash := serviceAccountTokenHash tokenValue in
              account ← auth_read (fun db => GetServiceAccountByTokenHash (ae_order env) db tokenHash);
              match account with
              | Ok a =>
                  usedAt ← auth_clock;
                  _ ← auth_write (fun db => match MarkServiceAccountUsed db (sa_Name a) tokenHash usedAt with Ok db' => db' | Err _ => db end);
                  mret (mkUser ("serviceaccount:" +:+ sa_Name a) "" (sa_Role a) 0, AuthMethodServiceAccount)
              | Err _ => answer_with (auth_error 401 "invalid session")
              end
          end
      end
  end.

Definition RequireAdmin (u : User) : H unit := must (IsAdmin (us_Role u)) (auth_error 403 "admin access required").
Definition RequireWriter (u : User) : H unit := must (CanWrite (us_Role u)) (auth_error 403 "write access required").

(** ** setupadmin.go *)

Definition ErrAlreadyConfigured : error := ErrNew "setup already completed".
Definition CreateFirstAdmin (username password : string) : H (result unit) :=
  let username := TrimSpace username in
  if (username ==? "") || (password ==? "") then mret (Err (ErrNew "username/password required")) else
  if len password <? 8 then mret (Err (ErrNew "password must be at least 8 characters")) else
  count ← auth_read CountUsers;
  if 0 <? count then mret (Err ErrAlreadyConfigured) else
  k ← tick;
  match ae_generate env k password with
  | Err e => mret (Err e)
  | Ok hash => now ← auth_clock; _ ← auth_write (fun db => UpsertUser db (mkUser username hash RoleAdmin now)); mret (Ok tt)
  end.

(** ** api/auth.go *)

Record loginRequest := mkLoginRequest { lr_Username : string; lr_Password : string }.
Record createUserRequest := mkCreateUserRequest { cq_Username : string; cq_Password : string; cq_Role : Role }.
Record createServiceAccountRequest := mkCreateServiceAccountRequest { cs_Name : string; cs_Role : Role }.
Record changePasswordRequest := mkChangePasswordRequest { cp_CurrentPassword : string; cp_NewPassword : string }.

Definition bound {A} (body : option A) : H A := match body with Some b => mret b | None => answer_with (auth_error 400 "invalid body") end.
Definition audit (actor action msg : string) (details : gmap string string) : H unit := emit (mkAuthAudit actor action msg details).

Definition Login (body : option loginRequest) : H AuthReply :=
  req ← bound body;
  r ← login (TrimSpace (lr_Username req)) (lr_Password req);
  match r with
  | Err _ => answer_with (auth_error 401 "invalid credential")
  | Ok (session, user) => mret (mkAuthReply 200 (ALogin (se_Token session) (se_ExpiresAt session) (us_Username user) (us_Role user)))
  end.

Definition Logout (authz : string) : H AuthReply :=
  match two_parts authz with
  | None => mret (mkAuthReply 204 ANone)
  | Some (_, rest) => _ ← auth_write (fun db => DeleteSession db (TrimSpace rest)); mret (mkAuthReply 204 ANone)
  end.

Definition Me (user : User) : H AuthReply := mret (mkAuthReply 200 (AUser (us_Username user) (us_Role user))).

Definition validateUserRole (role : Role) : result Role :=
  if (role ==? RoleAdmin) || (role ==? RoleOperator) || (role ==? RoleViewer) then Ok role
  else Err (ErrNew "role must be admin, operator, or viewer").

Definition createUser (username password : string) (role : Role) : H (result unit) :=
  let username := TrimSpace username in
  k ← tick;
  match ae_generate env k password with
  | Err e => mret (Err e)
  | Ok hash => now ← auth_clock; _ ← auth_write (fun db => UpsertUser db (mkUser username hash role now)); mret (Ok tt)
  end.

Definition CreateUser (body : option createUserRequest) : H AuthReply :=
  req ← bound body;
  let username := TrimSpace (cq_Username req) in
  _ ← must ((username !=? "") && (cq_Password req !=? "")) (auth_error 400 "username/password required");
  role ← unless (validateUserRole (cq_Role req)) (fun e => auth_error 400 (Error e));
  r ← createUser username (cq_Password req) role;
  _ ← unless r (fun e => auth_error 500 (Error e));
  mret (mkAuthReply 201 (AStatus "created")).

Definition ListServiceAccounts_handler : H AuthReply := l ← auth_read ListServiceAccounts; mret (mkAuthReply 200 (AAccounts l)).

Definition CreateServiceAccount (user : User) (body : option createServiceAccountRequest) : H AuthReply :=
  req ← bound body;
  let name := TrimSpace (cs_Name req) in
  _ ← must (name !=? "") (auth_error 400 "name is required");
  role ← unless (validateUserRole (cs_Role req)) (fun e => auth_error 400 (Error e));
  k ← tick;
  token ← unless (GenerateServiceAccountToken (ae_read env k)) (fun e => auth_error 500 (Error e));
  now ← auth_clock;
  let account := mkServiceAccount name (serviceAccountTokenHash token) role now None "" in
  _ ← auth_write (fun db => UpsertServiceAccount db account);
  _ ← audit (us_Username user) "create-service-account" "service account token issued" {["name" := name; "role" := role]};
  mret (mkAuthReply 201 (AToken account token)).

Definition DeleteServiceAccount (user : User) (param : string) : H AuthReply :=
  let name := TrimSpace param in
  _ ← must (name !=? "") (auth_error 400 "name is required");
  r ← auth_op (fun db => match DeleteServiceAccount_store db name with Ok db' => (db', Ok tt) | Err e => (db, Err e) end);
  _ ← unless r (fun e => if errors_Is e ErrNotFound then auth_error 404 "service account not found" else auth_error 500 (Error e));
  _ ← audit (us_Username user) "delete-service-account" "service account deleted" {["name" := name]};
  mret (mkAuthReply 204 ANone).

Definition ChangeMyPassword (user : User) (method : string) (body : option changePasswordRequest) : H AuthReply :=
  _ ← must (method ==? AuthMethodSession) (auth_error 403 "session user required");
  req ← bound body;
  _ ← must ((cp_CurrentPassword req !=? "") && (cp_NewPassword req !=? "")) (auth_error 400 "currentPassword/newPassword required");
  _ ← must (negb (len (cp_NewPassword req) <? 8)) (auth_error 400 "new password must be at least 8 characters");
  stored ← auth_read (fun db => GetUser db (us_Username user));
  stored ← unless stored (fun _ => auth_error 401 "invalid session user");
  _ ← must (ae_compare env (us_PasswordHash stored) (cp_CurrentPassword req)) (auth_error 400 "invalid current password");
  r ← createUser (us_Username stored) (cp_NewPassword req) (us_Role stored);
  _ ← unless r (fun e => auth_error 500 (Error e));
  _ ← audit (us_Username user) "change-password" "password changed" ∅;
  mret (mkAuthReply 204 ANone).

Definition setupRequired : H bool := count ← auth_read CountUsers; mret (count =? 0).
Definition SetupStatus : H AuthReply := b ← setupRequired; mret (mkAuthReply 200 (ASetup b)).
Definition SetupAdmin (body : option loginRequest) : H AuthReply :=
  req ← bound body;
  r ← CreateFirstAdmin (lr_Username req) (lr_Password req);
  _ ← unless r (fun e => if errors_Is e ErrAlreadyConfigured then auth_error 409 "setup already completed" else auth_error 400 (Error e));
  mret (mkAuthReply 201 (AStatus "created")).
End auth.

(** ** api/server.go: the routes *)

Inductive group := Public | Authed | Writer | Admin.
Global Instance group_eq_dec : EqDecision group.
Proof. solve_decision. Defined.

(** Method, path, group, a further middleware and the handler. *)
Record Route := mkRoute { rt_Method : string; rt_Path : string; rt_Group : group; rt_Middleware : string; rt_Handler : string }.
Global Instance Route_eq_dec : EqDecision Route.
Proof. solve_decision. Defined.

Definition registerDebugRoutes : list Route :=
  (fun p => mkRoute "GET" ("/debug" +:+ p) Public "" "pprof")
    <$> ["/pprof"; "/pprof/"; "/pprof/cmdline"; "/pprof/profile"; "/pprof/symbol"; "/pprof/trace"; "/pprof/:profile"; "/fgprof"].

Definition routes : list Route :=
  registerDebugRoutes ++
  [mkRoute "GET" "/healthz" Public "" "healthz";
   mkRoute "POST" "/api/v1/auth/login" Public "" "Login";
   mkRoute "GET" "/api/v1/setup/status" Public "" "SetupStatus";
   mkRoute "POST" "/api/v1/setup/admin" Public "" "SetupAdmin";
   mkRoute "POST" "/api/v1/machines/:name/hardware" Public "" "ReportHardwareInfo";
   mkRoute "POST" "/api/v1/machines/:name/power-events" Public "" "ReportMachinePowerEvent";
   mkRoute "POST" "/api/v1/hypervisors/register" Public "" "RegisterHypervisor";
   mkRoute "GET" "/api/v1/hypervisors/setup-and-register.sh" Public "" "SetupAndRegisterScript";
   mkRoute "GET" "/files/*" Public "" "ServeFile";
   mkRoute "GET" "/pxe/boot.ipxe" Public "PublicBootData" "PXEBootScript";
   mkRoute "GET" "/pxe/preseed.cfg" Public "PublicBootData" "PXEPreseed";
   mkRoute "GET" "/pxe/nocloud/:mac/user-data" Public "PublicBootData" "PXENocloudUserData";
   mkRoute "GET" "/pxe/nocloud/:mac/meta-data" Public "PublicBootData" "PXENocloudMetaData";
   mkRoute "GET" "/pxe/nocloud/:mac/vendor-data" Public "PublicBootData" "PXENocloudVendorData";
   mkRoute "GET" "/pxe/nocloud/:mac/network-config" Public "PublicBootData" "PXENocloudNetworkConfig";
   mkRoute "POST" "/pxe/inventory" Public "" "PXEInventory";
   mkRoute "GET" "/pxe/curtin-config" Public "PublicBootData" "PXECurtinConfig";
   mkRoute "POST" "/pxe/deploy-events" Public "" "PXEDeployEvents";
   mkRoute "GET" "/pxe/windows/startnet.cmd" Public "" "PXEWindowsStartnet";
   mkRoute "GET" "/pxe/windows/install.ps1" Public "" "PXEWindowsInstall";
   mkRoute "POST" "/pxe/windows/state" Public "" "PXEWindowsState";
   mkRoute "POST" "/pxe/install-complete" Public "" "PXEInstallComplete";
   mkRoute "GET" "/pxe/install-complete" Public "" "PXEInstallComplete";
   mkRoute "GET" "/pxe/artifacts/os-images/:name/*" Public "" "PXEArtifact";
   mkRoute "HEAD" "/pxe/artifacts/os-images/:name/*" Public "" "PXEArtifact";
   mkRoute "GET" "/pxe/files/*" Public "" "PXEFile";
   mkRoute "GET" "/api/v1/capabilities" Authed "" "capabilities";
   mkRoute "POST" "/api/v1/auth/logout" Authed "" "Logout";
   mkRoute "GET" "/api/v1/me" Authed "" "Me";
   mkRoute "POST" "/api/v1/me/password" Authed "" "ChangeMyPassword";
   mkRoute "GET" "/api/v1/system-info" Authed "" "SystemInfo";
   mkRoute "GET" "/api/v1/cluster-api" Authed "" "ListClusterAPI";
   mkRoute "PATCH" "/api/v1/cluster-api/:namespace/:resource/:name" Writer "" "ChangeClusterAPI";
   mkRoute "GET" "/api/v1/machines" Authed "" "ListMachines";
   mkRoute "GET" "/api/v1/machines/:name" Authed "" "GetMachine";
   mkRoute "GET" "/api/v1/machines/:name/hardware" Authed "" "GetHardwareInfo";
   mkRoute "GET" "/api/v1/machines/:name/vnc" Authed "" "VNCProxy";
   mkRoute "POST" "/api/v1/machines" Writer "" "CreateMachine";
   mkRoute "POST" "/api/v1/machines/discover" Writer "" "DiscoverMachine";
   mkRoute "DELETE" "/api/v1/machines/:name" Writer "protectAllocatedMachine" "DeleteMachine";
   mkRoute "POST" "/api/v1/machines/*" Writer "protectAllocatedMachine" "DispatchMachineCustomMethod";
   mkRoute "PATCH" "/api/v1/machines/:name/settings" Writer "protectAllocatedMachine" "UpdateMachineSettings";
   mkRoute "PATCH" "/api/v1/machines/:name/network" Writer "protectAllocatedMachine" "UpdateMachineNetwork";
   mkRoute "GET" "/api/v1/audit-events" Authed "" "ListAuditEvents";
   mkRoute "GET" "/api/v1/subnets" Authed "" "ListSubnets";
   mkRoute "GET" "/api/v1/subnets/:name" Authed "" "GetSubnet";
   mkRoute "POST" "/api/v1/subnets" Writer "" "CreateSubnet";
   mkRoute "PUT" "/api/v1/subnets/:name" Writer "" "UpdateSubnet";
   mkRoute "DELETE" "/api/v1/subnets/:name" Writer "" "DeleteSubnet";
   mkRoute "GET" "/api/v1/ssh-keys" Authed "" "ListSSHKeys";
   mkRoute "GET" "/api/v1/ssh-keys/:name" Authed "" "GetSSHKey";
   mkRoute "POST" "/api/v1/ssh-keys" Admin "" "CreateSSHKey";
   mkRoute "DELETE" "/api/v1/ssh-keys/:name" Admin "" "DeleteSSHKey";
   mkRoute "PUT" "/api/v1/bare-metal-hosts/:name" Admin "" "RegisterBareMetalHost";
   mkRoute "PATCH" "/api/v1/bare-metal-hosts/:name" Admin "" "UpdateBareMetalHostPool";
   mkRoute "DELETE" "/api/v1/bare-metal-hosts/:name" Admin "" "UnregisterBareMetalHost";
   mkRoute "GET" "/api/v1/bare-metal-hosts/:name" Authed "" "GetBareMetalHost";
   mkRoute "POST" "/api/v1/bare-metal-claims" Writer "" "AcquireBareMetalHost";
   mkRoute "GET" "/api/v1/bare-metal-claims/:owner" Authed "" "GetBareMetalClaim";
   mkRoute "POST" "/api/v1/bare-metal-claims/:owner/deploy" Writer "" "DeployBareMetalClaim";
   mkRoute "POST" "/api/v1/bare-metal-claims/:owner/retry" Admin "" "RetryBareMetalClaim";
   mkRoute "DELETE" "/api/v1/bare-metal-claims/:owner" Writer "" "DeleteBareMetalClaim";
   mkRoute "POST" "/api/v1/users" Admin "" "CreateUser";
   mkRoute "GET" "/api/v1/service-accounts" Admin "" "ListServiceAccounts";
   mkRoute "POST" "/api/v1/service-accounts" Admin "" "CreateServiceAccount";
   mkRoute "DELETE" "/api/v1/service-accounts/:name" Admin "" "DeleteServiceAccount";
   mkRoute "GET" "/api/v1/hypervisors" Authed "" "ListHypervisors";
   mkRoute "GET" "/api/v1/hypervisors/:name" Authed "" "GetHypervisor";
   mkRoute "POST" "/api/v1/hypervisors" Admin "" "CreateHypervisor";
   mkRoute "POST" "/api/v1/hypervisors/registration-tokens" Admin "" "CreateRegistrationToken";
   mkRoute "POST" "/api/v1/hypervisors/:name/agent-token" Admin "" "CreateAgentToken";
   mkRoute "DELETE" "/api/v1/hypervisors/:name" Admin "" "DeleteHypervisor";
   mkRoute "GET" "/api/v1/virtual-machines" Authed "" "ListVirtualMachines";
   mkRoute "GET" "/api/v1/virtual-machines/:name" Authed "" "GetVirtualMachine";
   mkRoute "POST" "/api/v1/virtual-machines" Writer "" "CreateVirtualMachine";
   mkRoute "DELETE" "/api/v1/virtual-machines/:name" Writer "" "DeleteVirtualMachine";
   mkRoute "GET" "/api/v1/virtual-machines/:name/vnc" Authed "" "VMVNCProxy";
   mkRoute "POST" "/api/v1/virtual-machines/*" Writer "" "DispatchVirtualMachineCustomMethod";
   mkRoute "GET" "/api/v1/cloud-init-templates" Authed "" "ListCloudInitTemplates";
   mkRoute "GET" "/api/v1/cloud-init-templates/:name" Authed "" "GetCloudInitTemplate";
   mkRoute "POST" "/api/v1/cloud-init-templates" Writer "" "CreateCloudInitTemplate";
   mkRoute "PUT" "/api/v1/cloud-init-templates/:name" Writer "" "UpdateCloudInitTemplate";
   mkRoute "DELETE" "/api/v1/cloud-init-templates/:name" Writer "" "DeleteCloudInitTemplate";
   mkRoute "GET" "/api/v1/boot-environments" Authed "" "ListBootEnvironments";
   mkRoute "GET" "/api/v1/boot-environments/:name/logs" Authed "" "GetBootEnvironmentLogs";
   mkRoute "POST" "/api/v1/boot-environments/:name/rebuild" Writer "" "RebuildBootEnvironment";
   mkRoute "GET" "/api/v1/os-images" Authed "" "ListOSImages";
   mkRoute "GET" "/api/v1/os-images/:name" Authed "" "GetOSImage";
   mkRoute "POST" "/api/v1/os-images" Writer "" "CreateOSImage";
   mkRoute "POST" "/api/v1/os-images/:name/upload" Writer "" "UploadOSImage";
   mkRoute "POST" "/api/v1/os-images/:name/upload-artifact" Writer "" "UploadOSImageArtifact";
   mkRoute "PATCH" "/api/v1/os-images/:name/status" Writer "" "UpdateOSImageStatus";
   mkRoute "DELETE" "/api/v1/os-images/:name" Writer "" "DeleteOSImage";
   mkRoute "GET" "/api/v1/os-images/:name/download" Authed "" "DownloadOSImage";
   mkRoute "GET" "/api/v1/dhcp-leases" Authed "" "ListDHCPLeases";
   mkRoute "GET" "/api/v1/dns-records" Authed "" "ListDNSRecords";
   mkRoute "POST" "/api/v1/dns-records" Writer "" "CreateDNSRecord";
   mkRoute "PUT" "/api/v1/dns-records/:name/:type" Writer "" "UpdateDNSRecord";
   mkRoute "DELETE" "/api/v1/dns-records/:name/:type" Writer "" "DeleteDNSRecord";
   mkRoute "GET" "/*" Public "" "frontend"].

(** A request, with what the handlers here bind from its body. *)
Record AuthRequest := mkAuthRequest {
  rq_Authorization : string; rq_Name : string; rq_login : option loginRequest; rq_user : option createUserRequest;
  rq_account : option createServiceAccountRequest; rq_password : option changePasswordRequest }.

(** A request is answered, or reaches a handler outside this file as a user. *)
Inductive served : Type := Answered (r : AuthReply) | Reached (handler : string) (user : option User).

Section serve.
Context (env : AuthEnv) (sv : AuthServer).
Local Abbreviation H := (Hd AuthDb AuthAudit AuthReply).

(** The middlewares of the groups. *)
Definition guard (g : group) (authz : string) : H (option (User * string)) :=
  match g with
  | Public => mret None
  | Authed => um ← AuthMiddleware env sv authz; mret (Some um)
  | Writer => um ← AuthMiddleware env sv authz; _ ← RequireWriter um.1; mret (Some um)
  | Admin => um ← AuthMiddleware env sv authz; _ ← RequireAdmin um.1; mret (Some um)
  end.

Definition nobody : User := mkUser "" "" "" 0.
(** The handlers of auth.go. *)
Definition auth_handler (handler : string) (user : User) (method : string) (rq : AuthRequest) : option (H AuthReply) :=
  if handler ==? "Login" then Some (Login env sv (rq_login rq))
  else if handler ==? "Logout" then Some (Logout env (rq_Authorization rq))
  else if handler ==? "Me" then Some (Me user)
  else if handler ==? "ChangeMyPassword" then Some (ChangeMyPassword env user method (rq_password rq))
  else if handler ==? "CreateUser" then Some (CreateUser env (rq_user rq))
  else if handler ==? "ListServiceAccounts" then Some (ListServiceAccounts_handler env)
  else if handler ==? "CreateServiceAccount" then Some (CreateServiceAccount env user (rq_account rq))
  else if handler ==? "DeleteServiceAccount" then Some (DeleteServiceAccount env user (rq_Name rq))
  else if handler ==? "SetupStatus" then Some (SetupStatus env)
  else if handler ==? "SetupAdmin" then Some (SetupAdmin env (rq_login rq))
  else None.

Definition serve (rt : Route) (rq : AuthRequest) : H served :=
  ctx ← guard (rt_Group rt) (rq_Authorization rq);
  let '(user, method) := default (nobody, "") ctx in
  match auth_handler (rt_Handler rt) user method rq with
  | Some h => r ← h; mret (Answered r)
  | None => mret (Reached (rt_Handler rt) (fst <$> ctx))
  end.
End serve.
