(* ===== verification/AuthSafe.v ===== *)
(** * Authority: who can write, and that nobody can raise himself

    The guarantees of the middleware and of the handlers of accounts. *)
From S2P Require Import Prelude GoStrings GoPath Handler Store Hypervisor Auth.

Section safe.
Context (env : AuthEnv) (sv : AuthServer).
Local Abbreviation H := (Hd AuthDb AuthAudit AuthReply).
Implicit Types st : HState AuthDb AuthAudit.

(** ** What the check of a credential does *)

(** Between the steps of the other requests it only drops sessions and dates the use
    of a service account. *)
Definition check_step (db db' : AuthDb) : Prop :=
  (∃ token, db' = DeleteSession db token) ∨ (∃ name hash at_, MarkServiceAccountUsed db name hash at_ = Ok db') ∨ db' = db.
Definition seen st (db : AuthDb) : Prop := steps (ae_others env) check_step (hst_store st) db.

(** The credentials: a session that has not expired and its user, an agent token, a
    service account's token by its hash. *)
Inductive credential st (token : string) : User → string → Prop :=
| by_session db db' k s u : seen st db → au_sessions db !! token = Some s → ae_clock env k <= se_ExpiresAt s →
    seen st db' → au_users db' !! se_Username s = Some u → credential st token u AuthMethodSession
| by_agent db t : seen st db → au_agents db !! token = Some t → credential st token (mkUser ("agent:" +:+ at_HypervisorName t) "" RoleViewer 0) AuthMethodAgent
| by_account db n a : seen st db → au_accounts db !! n = Some a → sa_TokenHash a = serviceAccountTokenHash token →
    credential st token (mkUser ("serviceaccount:" +:+ sa_Name a) "" (sa_Role a) 0) AuthMethodServiceAccount.

Definition bearer (authz token : string) : Prop := ∃ scheme rest, two_parts authz = Some (scheme, rest) ∧ EqualFold scheme "Bearer" = true ∧ token = TrimSpace rest.

Lemma seen_others st k db : seen st db → seen st (ae_others env k db).
Proof. intros H. eapply steps_trans; [exact H|]. apply (steps_others _ _ k), steps_refl. Qed.
Lemma seen_own st db db' : seen st db → check_step db db' → seen st db'.
Proof. intros H Hs. eapply steps_trans; [exact H|]. eapply steps_own; [exact Hs|apply steps_refl]. Qed.

Lemma authenticate_spec token st0 st st' r : seen st0 (hst_store st) → authenticate env token st = (st', r) →
  seen st0 (hst_store st') ∧ ∃ x, r = inl x ∧ ∀ u, x = Ok u → credential st0 token u AuthMethodSession.
Proof.
  intros Hs Hrun. unfold authenticate, GetSession, auth_read, auth_clock, auth_write, auth_op in Hrun.
  apply hd_bind_inv in Hrun as [(s1 & sess & H1 & H)|(r0 & H1 & _)].
  - apply op_bind_inv in H1 as (s & found & [= <- <-] & H1). set (s1' := ae_others env (hst_tick st) (hst_store st)) in *.
    assert (Hs1 : seen st0 s1') by by apply seen_others.
    destruct (au_sessions s1' !! token) as [ss|] eqn:Es; [|injection H1 as <- <-; injection H as <- <-; split; [done|]; by eexists].
    apply hd_bind_inv in H1 as [(s2 & now & [= <- <-] & H1)|(r0 & ? & _)]; [|discriminate].
    destruct (_ >? _) eqn:Ex.
    + apply op_bind_inv in H1 as (s3 & [] & [= <-] & [= <- <-]). injection H as <- <-. split; [|by eexists].
      eapply seen_own; [by apply seen_others|left; by eexists].
    + injection H1 as <- <-. apply hd_bind_inv in H as [(s2 & now & [= <- <-] & H)|(r0 & ? & _)]; [|discriminate]. rewrite Ex in H.
      unfold op in H. injection H as <- <-. cbn [hst_store hst_tick]. split; [by apply seen_others|]. eexists. split; [done|].
      intros u Hu. unfold GetUser in Hu. destruct (au_users _ !! _) as [u'|] eqn:Eu; [|done]. injection Hu as ->.
      eapply (by_session _ _ s1' _ _ ss); [done|exact Es| |apply seen_others; exact Hs1|exact Eu]. cbn. rewrite Z.gtb_ltb, Z.ltb_ge in Ex. exact Ex.
  - exfalso. apply op_bind_inv in H1 as (s & found & [= <- <-] & H1). case_match; [|discriminate].
    apply hd_bind_inv in H1 as [(s2 & now & [= <- <-] & H1)|(r1 & ? & _)]; [|discriminate]. case_match; [|discriminate].
    apply op_bind_inv in H1 as (s3 & [] & [= <-] & ?). discriminate.
Qed.

Context (Horder : ∀ l, ae_order env l ≡ₚ l).

Lemma account_of_hash db hash a : GetServiceAccountByTokenHash (ae_order env) db hash = Ok a → ∃ n, au_accounts db !! n = Some a ∧ sa_TokenHash a = hash.
Proof.
  unfold GetServiceAccountByTokenHash. destruct (List.find _ _) as [[n a']|] eqn:E; [|done]. intros [= <-]. apply find_some in E as [Hin Hh].
  exists n. split; [|by apply bool_decide_eq_true in Hh]. apply list_elem_of_In in Hin. rewrite Horder in Hin. by apply elem_of_map_to_list in Hin.
Qed.

(** Every read of the tables is of a state seen. *)
Lemma AuthMiddleware_spec authz st st' u m : AuthMiddleware env sv authz st = (st', inl (u, m)) →
  seen st (hst_store st') ∧ ∃ token, bearer authz token ∧ credential st token u m.
Proof.
  unfold AuthMiddleware. destruct (two_parts authz) as [[scheme rest]|] eqn:Ep; [|done]. intros H.
  apply must_inv in H as [(_ & _ & ?)|[Hb H]]; [discriminate|]. cbv zeta in H. set (token := TrimSpace rest) in *.
  assert (Ht : bearer authz token) by (by exists scheme, rest).
  apply hd_bind_inv in H as [(s1 & user & H1 & H)|(r0 & ? & ?)]; [|discriminate].
  apply (authenticate_spec _ st) in H1 as (Hs & x & [= ->] & Hx); [|apply steps_refl].
  destruct x as [user|e]; [injection H as <- <- <-; split; [done|]; exists token; split; [done|by apply Hx]|].
  apply hd_bind_inv in H as [(s2 & agent & H2 & H)|(r0 & ? & ?)]; [|discriminate].
  assert (seen st (hst_store s2) ∧ ∀ t, agent = Ok t → au_agents (hst_store s2) !! token = Some t) as [Hs2 Ha].
  { destruct (as_agentTokens sv); [|by injection H2 as <- <-]. unfold auth_read, op in H2. injection H2 as <- <-. cbn. split; [by apply seen_others|].
    unfold AgentTokenStore_GetByToken. intros t. destruct (_ !! _); [|done]. by intros [= <-]. }
  destruct agent as [t|e2]; [injection H as <- <- <-; split; [done|]; exists token; split; [done|]; by eapply by_agent; [|apply Ha]|].
  unfold auth_read in H. apply op_bind_inv in H as (s3 & found & [= <- <-] & H). destruct (GetServiceAccountByTokenHash _ _ _) as [a|] eqn:Ea; [|discriminate].
  apply account_of_hash in Ea as (n & En & Eh).
  unfold auth_clock, auth_write, auth_op in H. apply hd_bind_inv in H as [(s4 & now & [= <- <-] & H)|(r0 & ? & _)]; [|discriminate].
  apply op_bind_inv in H as (s5 & [] & [= <-] & [= <- <- <-]). cbn [hst_store hst_tick]. split.
  - eapply seen_own; [apply seen_others, seen_others; exact Hs2|]. right. destruct (MarkServiceAccountUsed _ _ _ _) eqn:E; [left; by eexists _, _, _|by right].
  - exists token. split; [done|]. eapply by_account; [apply seen_others; exact Hs2|exact En|exact Eh].
Qed.

(** ** The routes *)

(** Requests by GET that change something all the same: the documents and artifacts of an
    installation, which note how far it is; a claim that is read, whose deployment or
    release is settled when the installer has ended; and consoles. *)
Definition writing_reads : list string :=
  ["PXEBootScript"; "PXENocloudUserData"; "PXECurtinConfig"; "PXEArtifact"; "PXEInstallComplete"; "GetBareMetalClaim";
   "VNCProxy"; "VMVNCProxy"].
Definition changes_state (rt : Route) : bool :=
  negb ((rt_Method rt ==? "GET") || (rt_Method rt ==? "HEAD")) || bool_decide (rt_Handler rt ∈ writing_reads).
(** What anyone may ask for: first-time setup, logging in, and the callbacks of machines
    and installers, which carry a credential of their own or none. *)
Definition open_handlers : list string :=
  ["Login"; "SetupAdmin"; "ReportHardwareInfo"; "ReportMachinePowerEvent"; "RegisterHypervisor"; "PXEInventory"; "PXEDeployEvents"; "PXEWindowsState";
   "PXEInstallComplete"; "PXEBootScript"; "PXENocloudUserData"; "PXECurtinConfig"; "PXEArtifact"].
(** What every account may ask for, viewers and agents included: to log itself out, to
    change its own password, to read a claim, and to use a console. *)
Definition own_handlers : list string := ["Logout"; "ChangeMyPassword"; "GetBareMetalClaim"; "VNCProxy"; "VMVNCProxy"].
(** The writes that are the administrators'. *)
Definition admin_handlers : list string :=
  ["CreateUser"; "CreateServiceAccount"; "DeleteServiceAccount"; "CreateSSHKey"; "DeleteSSHKey"; "RegisterBareMetalHost"; "UpdateBareMetalHostPool";
   "UnregisterBareMetalHost"; "RetryBareMetalClaim"; "CreateHypervisor"; "CreateRegistrationToken"; "CreateAgentToken"; "DeleteHypervisor"].

Definition route_ok (rt : Route) : bool :=
  negb (changes_state rt)
  || (if bool_decide (rt_Handler rt ∈ open_handlers) then true
      else if bool_decide (rt_Handler rt ∈ own_handlers) then rt_Group rt ==? Authed
      else if bool_decide (rt_Handler rt ∈ admin_handlers) then rt_Group rt ==? Admin
      else (rt_Group rt ==? Writer) || (rt_Group rt ==? Admin)).
Lemma routes_ok rt : rt ∈ routes → route_ok rt = true.
Proof.
  assert (H : forallb route_ok routes = true) by (vm_compute; reflexivity). rewrite forallb_forall in H. intros Hin. apply H, list_elem_of_In, Hin.
Qed.

Lemma own_not_admin h : h ∈ own_handlers → h ∉ admin_handlers.
Proof.
  assert (H : forallb (fun h => negb (bool_decide (h ∈ admin_handlers))) own_handlers = true) by (vm_compute; reflexivity).
  rewrite forallb_forall in H. intros Hin%list_elem_of_In%H. by apply negb_true_iff, bool_decide_eq_false in Hin.
Qed.

Definition suffices (g : group) (role : Role) : Prop :=
  match g with Public | Authed => True | Writer => CanWrite role = true | Admin => IsAdmin role = true end.

Lemma guard_spec g authz st st' ctx : g ≠ Public → guard env sv g authz st = (st', inl ctx) →
  seen st (hst_store st') ∧ ∃ token u m, ctx = Some (u, m) ∧ bearer authz token ∧ credential st token u m ∧ suffices g (us_Role u).
Proof.
  intros Hg H. destruct g; [done|..]; cbn [guard] in H; apply hd_bind_inv in H as [(s1 & [u m] & H1 & H)|(r0 & ? & ?)]; try discriminate;
    apply AuthMiddleware_spec in H1 as (Hs & token & Hb & Hc); unfold RequireWriter, RequireAdmin in H;
    try (apply must_inv in H as [(_ & _ & ?)|[Hr H]]; [discriminate|]); injection H as <- <-; (split; [done|]); exists token, u, m; split_and!; done.
Qed.

(** ** What the handlers do to the accounts *)

Lemma does_write own (f : AuthDb → AuthDb) : (∀ db, own db (f db)) → does (ae_others env) own (auth_write env f : H unit).
Proof. intros Hf. apply does_op. intros db. apply Hf. Qed.
Lemma does_auth_read {A} own (f : AuthDb → A) : does (ae_others env) own (auth_read env f : H A).
Proof. apply does_read. Qed.
Lemma does_clock own : does (ae_others env) own (auth_clock env : H Time).
Proof. unfold auth_clock. eauto with handler. Qed.

Ltac walk :=
  repeat lazymatch goal with
  | |- does _ _ (mbind _ _) => apply does_bind; [|intros ?]
  | |- does _ _ (mret _) => apply does_ret
  | |- does _ _ (answer_with _) => apply does_answer
  | |- does _ _ (unless _ _) => apply does_unless
  | |- does _ _ (must _ _) => apply does_must
  | |- does _ _ (emit _) => apply does_emit
  | |- does _ _ tick => apply does_tick
  | |- does _ _ (auth_read _ _) => apply does_auth_read
  | |- does _ _ (auth_clock _) => apply does_clock
  | |- does _ _ (auth_write _ _) => apply does_write; intros ?
  | |- does _ _ _ => case_match
  end.

Lemma middleware_does authz : does (ae_others env) check_step (AuthMiddleware env sv authz).
Proof.
  unfold AuthMiddleware, authenticate, GetSession. walk.
  all: try (left; by eexists).
  all: right; case_match; [left; by eexists _, _, _|by right].
Qed.
Lemma guard_does g authz : does (ae_others env) check_step (guard env sv g authz).
Proof. unfold guard, RequireWriter, RequireAdmin. destruct g; walk; apply middleware_does. Qed.

Lemma middleware_refuses authz st st' rep : AuthMiddleware env sv authz st = (st', inr rep) → ar_Status rep = 401.
Proof.
  unfold AuthMiddleware. destruct (two_parts authz) as [[scheme rest]|]; [|by intros [= <- <-]]. intros H.
  apply must_inv in H as [(_ & _ & [= ->])|[Hb H]]; [done|]. cbv zeta in H.
  apply hd_bind_inv in H as [(s1 & user & _ & H)|(r0 & H1 & _)];
    [|apply (authenticate_spec _ st) in H1 as (_ & x & ? & _); [discriminate|apply steps_refl]].
  destruct user; [discriminate|]. apply hd_bind_inv in H as [(s2 & agent & _ & H)|(r0 & H1 & _)]; [|by destruct (as_agentTokens sv)].
  destruct agent; [discriminate|]. unfold auth_read in H. apply op_bind_inv in H as (s3 & found & [= <- <-] & H).
  destruct (GetServiceAccountByTokenHash _ _ _); [discriminate|]. by injection H as <- <-.
Qed.
Lemma guard_refuses g authz st st' rep : guard env sv g authz st = (st', inr rep) → ar_Status rep = 401 ∨ ar_Status rep = 403.
Proof.
  intros H. destruct g; [discriminate|..]; cbn [guard] in H; apply hd_bind_inv in H as [(s1 & [u m] & _ & H)|(r0 & H1 & E)];
    try (left; injection E as ->; exact (middleware_refuses _ _ _ _ H1)); unfold RequireWriter, RequireAdmin in H.
  - discriminate.
  - apply must_inv in H as [(_ & _ & [= ->])|[_ ?]]; [by right|discriminate].
  - apply must_inv in H as [(_ & _ & [= ->])|[_ ?]]; [by right|discriminate].
Qed.


(** ** Nobody raises himself *)

(** Users are filed under their trimmed names. *)
Definition users_ok (db : AuthDb) : Prop := ∀ n u, au_users db !! n = Some u → us_Username u = n ∧ TrimSpace n = n.
(** The users and their roles, the service accounts with their roles and tokens. *)
Definition same_roles (db db' : AuthDb) : Prop :=
  (∀ n, us_Role <$> au_users db' !! n = us_Role <$> au_users db !! n)
  ∧ ∀ n, (fun a => (sa_TokenHash a, sa_Role a)) <$> au_accounts db' !! n = (fun a => (sa_TokenHash a, sa_Role a)) <$> au_accounts db !! n.
Definition keeps (db db' : AuthDb) : Prop := users_ok db → users_ok db' ∧ same_roles db db'.

Global Instance keeps_preorder : PreOrder keeps.
Proof.
  split; [intros db Hok; split; [done|by split]|]. intros a b c Hab Hbc Ha. destruct (Hab Ha) as [Hb [H1 H2]]. destruct (Hbc Hb) as [Hc [H3 H4]].
  split; [done|]. split; intros n; etrans; eauto.
Qed.

Lemma keeps_same_tables db db' : au_users db' = au_users db → au_accounts db' = au_accounts db → keeps db db'.
Proof. intros Hu Ha Hok. unfold users_ok, same_roles. by rewrite Hu, Ha. Qed.
Lemma keeps_session db s : keeps db (CreateSession db s).
Proof. by apply keeps_same_tables. Qed.
Lemma keeps_drop db t : keeps db (DeleteSession db t).
Proof. by apply keeps_same_tables. Qed.
Lemma put_accounts db m : au_accounts (db <| au_accounts := m |>) = m.
Proof. done. Qed.
Lemma put_users db m : au_users (db <| au_users := m |>) = m.
Proof. done. Qed.
Lemma keeps_used db n h t db' : MarkServiceAccountUsed db n h t = Ok db' → keeps db db'.
Proof.
  unfold MarkServiceAccountUsed. destruct (au_accounts db !! n) as [a|] eqn:E; [|done]. case_match; [done|]. intros [= <-] Hok.
  split; [done|]. split; [done|]. intros k. rewrite put_accounts. destruct (decide (k = n)) as [->|]; [by rewrite lookup_insert_eq, E|by rewrite lookup_insert_ne].
Qed.
Lemma check_keeps db db' : check_step db db' → keeps db db'.
Proof. intros [[t ->]|[(n & h & t & E)| ->]]; [apply keeps_drop|by eapply keeps_used|reflexivity]. Qed.

(** Writing a user anew with the role he has. *)
Lemma keeps_rewrite db u u' : au_users db !! us_Username u = Some u' → us_Role u' = us_Role u → keeps db (UpsertUser db u).
Proof.
  intros Hu Hr Hok. unfold UpsertUser. split.
  - intros n v Hv. rewrite put_users in Hv. destruct (decide (n = us_Username u)) as [->|Hne].
    + rewrite lookup_insert_eq in Hv. injection Hv as <-. split; [done|]. by destruct (Hok _ _ Hu).
    + rewrite lookup_insert_ne in Hv by done. by apply Hok.
  - split; [|done]. intros n. rewrite put_users. destruct (decide (n = us_Username u)) as [->|Hne]; [rewrite lookup_insert_eq, Hu; cbn; by rewrite Hr|by rewrite lookup_insert_ne].
Qed.

Section others.
Context (Hothers : ∀ k db, keeps db (ae_others env k db)).

Lemma steps_keep own a b : (∀ x y, own x y → keeps x y) → steps (ae_others env) own a b → keeps a b.
Proof. intros Ho. induction 1 as [s|k s s' _ IH|s s1 s' Hs _ IH]; [reflexivity|etrans; [apply Hothers|exact IH]|etrans; [by apply Ho|exact IH]]. Qed.
Lemma does_keep {A} (m : H A) st : does (ae_others env) keeps m → keeps (hst_store st) (hst_store (m st).1).
Proof. intros Hd. eapply steps_keep; [|apply Hd]. done. Qed.

Lemma login_does u p : does (ae_others env) keeps (login env sv u p).
Proof. unfold login. walk. apply keeps_session. Qed.

Lemma password_keeps u m body st : users_ok (hst_store st) → keeps (hst_store st) (hst_store (ChangeMyPassword env u m body st).1).
Proof.
  intros Hok. destruct (ChangeMyPassword env u m body st) as [st' r] eqn:E. cbn [fst]. unfold ChangeMyPassword, bound in E.
  apply must_inv in E as [(_ & -> & _)|[_ E]]; [reflexivity|]. destruct body as [req|]; [|by injection E as <- <-].
  apply hd_bind_inv in E as [(s1 & req' & [= <- <-] & E)|(r0 & ? & _)]; [|discriminate].
  apply must_inv in E as [(_ & -> & _)|[_ E]]; [reflexivity|]. apply must_inv in E as [(_ & -> & _)|[_ E]]; [reflexivity|].
  unfold auth_read in E. apply op_bind_inv in E as (s1 & stored & [= <- <-] & E). set (db1 := ae_others env (hst_tick st) (hst_store st)) in *.
  assert (H1 : keeps (hst_store st) db1) by apply Hothers. destruct (H1 Hok) as [Hok1 _].
  apply unless_inv in E as [(e & _ & -> & _)|(v & Hv & E)]; [exact H1|]. apply must_inv in E as [(_ & -> & _)|[_ E]]; [exact H1|].
  unfold GetUser in Hv. destruct (au_users db1 !! us_Username u) as [v'|] eqn:Eu; [|done]. injection Hv as ->. destruct (Hok1 _ _ Eu) as [Hn Ht].
  unfold createUser, auth_clock, auth_write, auth_op in E. cbv zeta in E. rewrite Hn, Ht in E.
  assert (Hpost : ∀ (x : result unit) s s2 r2, (_ ← unless x (fun e => auth_error 500 (Error e)); _ ← audit (us_Username u) "change-password" "password changed" ∅;
    mret (mkAuthReply 204 ANone)) s = (s2, r2) → hst_store s2 = hst_store s).
  { intros [[]|e] s s2 r2; intros Hx; [|by injection Hx as <- <-]. by injection Hx as <- <-. }
  apply hd_bind_inv in E as [(s2 & x & E1 & E)|(r0 & E1 & _)].
  - apply Hpost in E. rewrite E. apply hd_bind_inv in E1 as [(s3 & k & [= <- <-] & E1)|(r0 & ? & _)]; [|discriminate].
    destruct (ae_generate env _ _) as [hash|e]; [|injection E1 as <- <-; exact H1].
    apply hd_bind_inv in E1 as [(s3 & now & [= <- <-] & E1)|(r0 & ? & _)]; [|discriminate].
    apply op_bind_inv in E1 as (s4 & [] & [= <-] & [= <- <-]). cbn [hst_store hst_tick]. etrans; [exact H1|]. etrans; [apply Hothers|].
    destruct (Hothers (S (hst_tick st)) db1 Hok1) as [_ [Hr _]]. specialize (Hr (us_Username u)). rewrite Eu in Hr.
    destruct (au_users (ae_others env (S (hst_tick st)) db1) !! us_Username u) as [w|] eqn:Ew; [|done]. injection Hr as Hr.
    eapply keeps_rewrite; [exact Ew|exact Hr].
  - exfalso. apply hd_bind_inv in E1 as [(s3 & k & [= <- <-] & E1)|(r1 & ? & _)]; [|discriminate].
    destruct (ae_generate env _ _); [|discriminate]. apply hd_bind_inv in E1 as [(s3 & now & [= <- <-] & E1)|(r1 & ? & _)]; [|discriminate].
    apply op_bind_inv in E1 as (s4 & [] & [= <-] & ?). discriminate.
Qed.

(** Setup is refused once there is a user. *)
Lemma users_stay db db' : same_roles db db' → au_users db ≠ ∅ → 0 < CountUsers db'.
Proof.
  intros [Hr _] Hne. unfold CountUsers. destruct (decide (au_users db' = ∅)) as [E|E].
  - exfalso. apply Hne, map_eq. intros n. specialize (Hr n). rewrite E, lookup_empty in Hr. rewrite lookup_empty. by destruct (au_users db !! n).
  - assert (size (au_users db') ≠ 0)%nat by (by intros ?%map_size_empty_inv). lia.
Qed.
Lemma first_admin_keeps name pw st : users_ok (hst_store st) → au_users (hst_store st) ≠ ∅ → ∃ st' e,
  CreateFirstAdmin env name pw st = (st', inl (Err e)) ∧ keeps (hst_store st) (hst_store st').
Proof.
  intros Hok Hne. unfold CreateFirstAdmin. cbv zeta. case_match; [eexists _, _; split; [done|reflexivity]|]. case_match; [eexists _, _; split; [done|reflexivity]|].
  unfold auth_read, mbind, Hd_bind, op. cbn [hst_tick hst_store]. destruct (Hothers (hst_tick st) (hst_store st) Hok) as [_ Hr].
  rewrite (proj2 (Z.ltb_lt _ _) (users_stay _ _ Hr Hne)). eexists _, _. split; [done|]. apply Hothers.
Qed.
Lemma setup_keeps body st : users_ok (hst_store st) → au_users (hst_store st) ≠ ∅ → keeps (hst_store st) (hst_store (SetupAdmin env body st).1).
Proof.
  intros Hok Hne. unfold SetupAdmin, bound. destruct body as [req|]; [|reflexivity].
  destruct (first_admin_keeps (lr_Username req) (lr_Password req) st Hok Hne) as (st' & e & E & Hk). unfold mbind, Hd_bind, mret, Hd_ret. rewrite E. exact Hk.
Qed.

(** Apart from the three handlers that are the administrators', no handler changes who
    may do what. *)
Definition changes_accounts : list string := ["CreateUser"; "CreateServiceAccount"; "DeleteServiceAccount"].
Lemma handler_keeps name u m rq h st : auth_handler env sv name u m rq = Some h → name ∉ changes_accounts →
  users_ok (hst_store st) → au_users (hst_store st) ≠ ∅ → keeps (hst_store st) (hst_store (h st).1).
Proof.
  intros H Hn Hok Hne. unfold auth_handler in H.
  unfold changes_accounts in Hn. rewrite !not_elem_of_cons in Hn. destruct Hn as (N1 & N2 & N3 & _).
  repeat (case_bool_decide; [first [contradiction|injection H as <-]|]); [..|discriminate H].
  - apply does_keep. unfold Login, bound. walk. apply login_does.
  - apply does_keep. unfold Logout. walk. apply keeps_drop.
  - reflexivity.
  - by apply password_keeps.
  - apply does_keep. unfold ListServiceAccounts_handler. walk.
  - apply does_keep. unfold SetupStatus, setupRequired. walk.
  - by apply setup_keeps.
Qed.

(** Every route to one of those handlers is the administrators'. *)
Lemma changes_are_admin rt : rt ∈ routes → rt_Handler rt ∈ changes_accounts → rt_Group rt = Admin.
Proof.
  intros Hin Hc. assert (H : forallb (fun rt => negb (bool_decide (rt_Handler rt ∈ changes_accounts)) || (rt_Group rt ==? Admin)) routes = true)
    by (vm_compute; reflexivity).
  rewrite forallb_forall in H. apply list_elem_of_In, H in Hin. rewrite (bool_decide_eq_true_2 _ Hc) in Hin. by apply bool_decide_eq_true in Hin.
Qed.

(** C7: nobody raises himself.  Once there is a user, a request to any route that does
    not carry the credential of an administrator leaves the accounts as they are: no
    user or service account appears or goes, none changes its role, and no service
    account gets another token; whatever the request asks for, first-time setup and
    changes of the own password included, and while any number of such requests run
    beside it. *)
Theorem no_escalation (rt : Route) (rq : AuthRequest) (st st' : HState AuthDb AuthAudit) (r : served + AuthReply)
    (Hrt : rt ∈ routes) (Hok : users_ok (hst_store st)) (Huser : au_users (hst_store st) ≠ ∅)
    (Hlow : ∀ token u m, bearer (rq_Authorization rq) token → credential st token u m → IsAdmin (us_Role u) = false)
    (Hrun : serve env sv rt rq st = (st', r)) :
  users_ok (hst_store st') ∧ same_roles (hst_store st) (hst_store st') ∧ au_users (hst_store st') ≠ ∅.
Proof.
  assert (Hk : keeps (hst_store st) (hst_store st')).
  { pose proof (guard_does (rt_Group rt) (rq_Authorization rq) st) as Hg. apply (steps_keep _ _ _ check_keeps) in Hg.
    unfold serve in Hrun. apply hd_bind_inv in Hrun as [(s1 & ctx & Hgd & Hrun)|(rep & Hgd & ->)]; rewrite Hgd in Hg; cbn in Hg; [|exact Hg].
    assert (Hn : rt_Handler rt ∉ changes_accounts).
    { intros Hc. apply changes_are_admin in Hc; [|done]. rewrite Hc in Hgd. apply guard_spec in Hgd as (_ & token & u & m & _ & Hb & Hcr & Hs); [|done].
      cbn in Hs. rewrite (Hlow _ _ _ Hb Hcr) in Hs. discriminate. }
    destruct (Hg Hok) as [Hok1 Hr1]. pose proof (users_stay _ _ Hr1 Huser) as Hc1.
    assert (Hne1 : au_users (hst_store s1) ≠ ∅) by (intros E; unfold CountUsers in Hc1; rewrite E, map_size_empty in Hc1; lia).
    destruct (default _ ctx) as [u m]. destruct (auth_handler _ _ _ _ _ _) as [h|] eqn:Eh; [|injection Hrun as <- <-; exact Hg].
    etrans; [exact Hg|]. pose proof (handler_keeps _ _ _ _ _ s1 Eh Hn Hok1 Hne1) as Hh.
    apply hd_bind_inv in Hrun as [(s2 & rep & E & [= <- <-])|(rep & E & ->)]; rewrite E in Hh; exact Hh. }
  destruct (Hk Hok) as [Hok' Hr]. split_and!; [done|done|]. intros E. pose proof (users_stay _ _ Hr Huser) as Hc. unfold CountUsers in Hc. rewrite E, map_size_empty in Hc. lia.
Qed.
End others.
End safe.

(** ** A login is good until it expires *)

Section login.
Context (env : AuthEnv) (sv : AuthServer).
(** A fresh token has no space in it. *)
Context (Huuid : ∀ k, trimmed (ae_uuid env k)).

Lemma bearer_header token : two_parts ("Bearer " +:+ token) = Some ("Bearer", token).
Proof.
  unfold two_parts. rewrite to_bytes_app. transitivity (Some ("Bearer", of_bytes (to_bytes token))); [|by rewrite of_to_bytes].
  generalize (to_bytes token). intros l. vm_compute. reflexivity.
Qed.

(** The session that is found, in time, and its user. *)
Definition session_good (k : nat) (db : AuthDb) (token : string) (u : User) : Prop :=
  ∃ s, au_sessions (ae_others env k db) !! token = Some s ∧ ae_clock env (S k) <= se_ExpiresAt s
       ∧ au_users (ae_others env (S k) (ae_others env k db)) !! se_Username s = Some u.

Lemma authenticate_good token k db log u :
  (∃ st2, authenticate env token (mkHState k db log) = (st2, inl (Ok u))) ↔ session_good k db token u.
Proof.
  unfold session_good. cbv beta iota zeta delta [authenticate GetSession auth_read auth_write auth_op auth_clock mbind Hd_bind mret Hd_ret op tick hst_tick hst_store hst_log].
  destruct (au_sessions (ae_others env k db) !! token) as [s|]; [|split; [by intros (? & ?)|by intros (? & ? & _)]].
  rewrite Z.gtb_ltb. destruct (_ <? _) eqn:E.
  - split; [by intros (? & ?)|]. intros (? & [= <-] & Hle & _). lia.
  - cbv beta iota. rewrite Z.gtb_ltb, E. cbv beta iota. unfold GetUser.
    destruct (au_users _ !! _) as [u'|] eqn:Eu; split.
    + intros (? & [= _ <-]). exists s. split_and!; [done|lia|done].
    + intros (? & [= <-] & _ & Hu). rewrite Eu in Hu. injection Hu as ->. by eexists.
    + by intros (? & ?).
    + intros (? & [= <-] & _ & Hu). by rewrite Eu in Hu.
Qed.

Lemma session_admits token k db log u : trimmed token →
  (∃ st2, AuthMiddleware env sv ("Bearer " +:+ token) (mkHState k db log) = (st2, inl (u, AuthMethodSession))) ↔ session_good k db token u.
Proof.
  intros Ht. rewrite <- (authenticate_good token k db log u). unfold AuthMiddleware. rewrite bearer_header. change (EqualFold "Bearer" "Bearer") with true. cbv zeta.
  rewrite TrimSpace_id by done. cbv beta iota delta [mbind Hd_bind must mret Hd_ret].
  destruct (authenticate env token (mkHState k db log)) as [st1 [[u'|e]|r]]; [by split; intros (? & [= -> ->]); eexists| |by split; intros (? & ?)].
  split; [|by intros (? & ?)]. intros (st2 & H). exfalso. destruct (as_agentTokens sv); cbn in H; repeat (case_match; try discriminate).
Qed.

(** C9: a login admits, for as long as its session is kept.  With the right password a
    login is answered 200 with a token, under which a session of that user is stored
    that ends after the configured time.  From then on, whatever has happened to the
    accounts, a request that carries the token is taken as the session of a user exactly
    if a session is stored under the token when it is looked up, its end has not passed,
    and that user exists when it is read.  Logging out removes the session. *)
Theorem login_admits (name password : string) (user : User) (st : HState AuthDb AuthAudit)
    (Hname : TrimSpace name = name) (Hstored : au_users (ae_others env (hst_tick st) (hst_store st)) !! name = Some user) (Hself : us_Username user = name)
    (Hpassword : ae_compare env (us_PasswordHash user) password = true) :
  ∃ st1 session k1, let token := se_Token session in
    Login env sv (Some (mkLoginRequest name password)) st = (st1, inl (mkAuthReply 200 (ALogin token (se_ExpiresAt session) name (us_Role user))))
  ∧ au_sessions (hst_store st1) !! token = Some session ∧ se_Username session = name
  ∧ se_ExpiresAt session = time_Add (ae_clock env k1) (as_sessionTTL sv)
  ∧ (∀ k db log u, (∃ st2, AuthMiddleware env sv ("Bearer " +:+ token) (mkHState k db log) = (st2, inl (u, AuthMethodSession))) ↔ session_good k db token u)
  ∧ ∀ st2, ∃ st3, Logout env ("Bearer " +:+ token) st2 = (st3, inl (mkAuthReply 204 ANone)) ∧ au_sessions (hst_store st3) !! token = None.
Proof.
  set (db := ae_others env (hst_tick st) (hst_store st)) in *. set (k1 := S (hst_tick st)).
  set (session := mkSession (ae_uuid env k1) name (ae_clock env k1) (time_Add (ae_clock env k1) (as_sessionTTL sv))).
  exists (mkHState (S k1) (CreateSession (ae_others env k1 db) session) (hst_log st)), session, k1. cbv zeta. split_and!.
  - unfold Login, bound, login, auth_read, auth_write, auth_op, auth_clock, mbind, Hd_bind, mret, Hd_ret, op, tick. cbn [lr_Username lr_Password hst_tick hst_store hst_log].
    rewrite Hname. unfold GetUser at 1. fold db. rewrite Hstored, Hpassword. cbn [negb]. by rewrite Hself.
  - apply lookup_insert_eq.
  - done.
  - done.
  - intros k db' log u. apply session_admits, Huuid.
  - intros st2. unfold Logout. rewrite bearer_header, TrimSpace_id by apply Huuid. eexists. split; [done|]. apply lookup_delete_eq.
Qed.
End login.

(** ** Runs *)

Definition plain_hash (hash password : string) : bool := hash ==? password.
Definition auth_quiet (others : nat → AuthDb → AuthDb) : AuthEnv :=
  mkAuthEnv others (fun _ => 1) (fun _ => "uuid") (fun _ _ => Ok []) (fun l => l) plain_hash (fun _ p => Ok p).
Definition auth_alone : AuthEnv := auth_quiet (fun _ db => db).
Definition auth_server : AuthServer := mkAuthServer 3600 true.
Definition user_root : User := mkUser "root" "correct horse" RoleAdmin 0.
Definition user_vera : User := mkUser "vera" "battery staple" RoleViewer 0.
Definition accounts0 : AuthDb := mkAuthDb {["root" := user_root; "vera" := user_vera]} {["s-vera" := mkSession "s-vera" "vera" 0 100]} ∅ ∅.
Definition on_accounts (db : AuthDb) : HState AuthDb AuthAudit := mkHState 0 db [].
Definition create_user_route : Route := mkRoute "POST" "/api/v1/users" Admin "" "CreateUser".
Definition setup_route : Route := mkRoute "POST" "/api/v1/setup/admin" Public "" "SetupAdmin".
(** The viewer asks for an administrator of her own. *)
Definition vera_request : AuthRequest :=
  mkAuthRequest "Bearer s-vera" "" (Some (mkLoginRequest "mallory" "password1")) (Some (mkCreateUserRequest "mallory" "password1" RoleAdmin)) None None.

Lemma is_route rt : bool_decide (rt ∈ routes) = true → rt ∈ routes.
Proof. by rewrite bool_decide_eq_true. Qed.
Lemma accounts0_ok : users_ok accounts0.
Proof.
  intros n u Hu. change (au_users accounts0) with ({["root" := user_root; "vera" := user_vera]} : gmap string User) in Hu.
  apply lookup_insert_Some in Hu as [[<- <-]|[_ Hu]]; [split; vm_compute; reflexivity|].
  apply lookup_singleton_Some in Hu as [<- <-]. split; vm_compute; reflexivity.
Qed.
Lemma alone_seen st db : seen auth_alone st db → au_users db = au_users (hst_store st) ∧ au_sessions db ⊆ au_sessions (hst_store st)
  ∧ au_agents db = au_agents (hst_store st) ∧ dom (au_accounts db) = dom (au_accounts (hst_store st)).
Proof.
  unfold seen. generalize (hst_store st). clear st. intros s. induction 1 as [s|k s s' _ IH|s s1 s' Hs _ IH]; [done|exact IH|].
  destruct IH as (-> & Hsub & -> & ->). destruct Hs as [[t ->]|[(n & h & t & E)| ->]]; [|unfold MarkServiceAccountUsed in E|done].
  - split_and!; [done| |done|done]. etrans; [exact Hsub|]. unfold DeleteSession. cbn [au_sessions]. apply delete_subseteq.
  - destruct (au_accounts s !! n) as [a|] eqn:Ea; [|done]. case_match; [done|]. injection E as <-. split_and!; [done|exact Hsub|done|].
    rewrite put_accounts, dom_insert_L. apply elem_of_dom_2 in Ea. set_solver.
Qed.


(** The viewer asks to set the server up again. *)
Lemma no_escalation_witness : ∃ st' r, serve auth_alone auth_server setup_route vera_request (on_accounts accounts0) = (st', r)
  ∧ same_roles accounts0 (hst_store st').
Proof.
  destruct (serve auth_alone auth_server setup_route vera_request (on_accounts accounts0)) as [st' r] eqn:E. exists st', r. split; [reflexivity|].
  refine (proj1 (proj2 (no_escalation auth_alone auth_server (fun l => Permutation_refl l) (fun k db => reflexivity db) setup_route vera_request
    (on_accounts accounts0) st' r (is_route setup_route eq_refl) accounts0_ok _ _ E))).
  - intros H. apply (f_equal (lookup "root")) in H. vm_compute in H. discriminate H.
  - intros token u m (scheme & rest & Hp & _ & ->) Hc. change (two_parts (rq_Authorization vera_request)) with (Some ("Bearer", "s-vera")) in Hp.
    injection Hp as <- <-. destruct Hc as [db db' k s u Hs Hl _ Hs' Hu|db t Hs Hl|db n a Hs Hl _].
    + apply alone_seen in Hs as (_ & Hsub & _), Hs' as (Hu' & _). rewrite Hu' in Hu. eapply lookup_weaken in Hl; [|exact Hsub].
      vm_compute in Hl. injection Hl as <-. vm_compute in Hu. injection Hu as <-. reflexivity.
    + reflexivity.
    + apply alone_seen in Hs as (_ & _ & _ & Hd). apply elem_of_dom_2 in Hl. rewrite Hd in Hl. exfalso. revert Hl. change (au_accounts _) with (∅ : gmap string ServiceAccount).
      rewrite dom_empty_L. apply not_elem_of_empty.
Defined.

(** She is let in until the clock is past the end of her session, and not after it. *)
Definition clock_at (t : Time) : AuthEnv := mkAuthEnv (fun _ db => db) (fun k => if (k <? 5)%nat then 1 else t) (fun _ => "uuid") (fun _ _ => Ok []) (fun l => l) plain_hash (fun _ p => Ok p).
Lemma login_admits_witness : ∃ st1 token expires,
  Login (clock_at 3601) auth_server (Some (mkLoginRequest "vera" "battery staple")) (on_accounts accounts0) = (st1, inl (mkAuthReply 200 (ALogin token expires "vera" RoleViewer)))
  ∧ ∃ st2, AuthMiddleware (clock_at 3601) auth_server ("Bearer " +:+ token) (mkHState 7 (hst_store st1) []) = (st2, inl (user_vera, AuthMethodSession)).
Proof.
  destruct (login_admits (clock_at 3601) auth_server (fun k => graphic_trimmed "uuid" ltac:(repeat constructor)) "vera" "battery staple" user_vera (on_accounts accounts0)
    eq_refl eq_refl eq_refl eq_refl) as (st1 & session & k1 & Hl & Hs & Hn & He & Hm & _).
  exists st1, (se_Token session), (se_ExpiresAt session). split; [exact Hl|]. apply Hm. exists session. split; [exact Hs|]. split.
  - assert (match Login (clock_at 3601) auth_server (Some (mkLoginRequest "vera" "battery staple")) (on_accounts accounts0) with
            | (_, inl (mkAuthReply _ (ALogin _ e _ _))) => e = 3601 | _ => False end) as H by (vm_compute; reflexivity).
    rewrite Hl in H. rewrite H. vm_compute. discriminate.
  - rewrite Hn. assert (au_users (hst_store (Login (clock_at 3601) auth_server (Some (mkLoginRequest "vera" "battery staple")) (on_accounts accounts0)).1) !! "vera" = Some user_vera)
      as H by (vm_compute; reflexivity). rewrite Hl in H. exact H.
Defined.

(** *** First-time setup is not exclusive *)

(** Another setup runs between the count of the users and the write of the first. *)
Definition setup_between (k : nat) (db : AuthDb) : AuthDb :=
  if bool_decide (k = 1%nat) then hst_store (SetupAdmin auth_alone (Some (mkLoginRequest "mallory" "password1")) (on_accounts db)).1 else db.
Lemma two_first_admins :
  let '(st', r) := SetupAdmin (auth_quiet setup_between) (Some (mkLoginRequest "root" "password2")) (on_accounts (mkAuthDb ∅ ∅ ∅ ∅)) in
  us_Role <$> au_users (hst_store st') = {["root" := RoleAdmin; "mallory" := RoleAdmin]} ∧ r = inl (mkAuthReply 201 (AStatus "created")).
Proof. vm_compute. done. Qed.

(** *** A change of password can undo the change of a role *)

Definition demoted_between (k : nat) (db : AuthDb) : AuthDb :=
  if bool_decide (k = 1%nat) then UpsertUser db (mkUser "root" "correct horse" RoleViewer 0) else db.
Lemma password_change_undoes_demotion :
  let '(st', r) := ChangeMyPassword (auth_quiet demoted_between) user_root AuthMethodSession (Some (mkChangePasswordRequest "correct horse" "new password"))
                     (on_accounts accounts0) in
  us_Role <$> au_users (hst_store st') !! "root" = Some RoleAdmin ∧ r = inl (mkAuthReply 204 ANone).
Proof. vm_compute. done. Qed.
