(* ===== verification/CloudInit.v ===== *)
(** * internal/cloudinit, its stores and api/cloudinit.go

    The templates of cloud-init data.  A template of mode [vm-seed] holds data that only
    the renderer of VM seeds may read: it keeps its mode, and the API shows what it says
    to writers only. *)
From S2P Require Import Prelude GoStrings GoPath Handler Store ApiResource Auth.

(** ** types.go, validate.go *)

Definition DeliveryVMSeed : string := "vm-seed".
Record CloudInitTemplate := mkCloudInitTemplate {
  ct_Name : string; ct_DeliveryMode : string; ct_UserData : string; ct_NetworkConfig : string; ct_MetadataTemplate : string;
  ct_Description : string; ct_CreatedAt : Time; ct_UpdatedAt : Time }.
Global Instance CloudInitTemplate_fields : Fields CloudInitTemplate :=
  fpure mkCloudInitTemplate <*> ct_Name <*> ct_DeliveryMode <*> ct_UserData <*> ct_NetworkConfig <*> ct_MetadataTemplate <*> ct_Description
    <*> ct_CreatedAt <*> ct_UpdatedAt.
Global Instance CloudInitTemplate_keyed : Keyed CloudInitTemplate := ct_Name.
Global Instance CloudInitTemplate_eq_dec : EqDecision CloudInitTemplate.
Proof. solve_decision. Defined.

Definition template_ErrInvalidName : error := ErrNew "name is required".
Definition ErrInvalidUserData : error := ErrNew "userData is required".
Definition ValidateCloudInitTemplate (t : CloudInitTemplate) : option error :=
  if (ct_DeliveryMode t !=? "") && (ct_DeliveryMode t !=? DeliveryVMSeed) then Some (ErrNew "unsupported cloud-init deliveryMode")
  else if TrimSpace (ct_Name t) ==? "" then Some template_ErrInvalidName
  else if TrimSpace (ct_UserData t) ==? "" then Some ErrInvalidUserData
  else None.

Definition is_seed (t : CloudInitTemplate) : bool := ct_DeliveryMode t ==? DeliveryVMSeed.
Definition seed_of (existing t : CloudInitTemplate) : CloudInitTemplate := if is_seed existing then t <| ct_DeliveryMode := DeliveryVMSeed |> else t.

(** ** The stores *)

Abbreviation templates := (gmap string CloudInitTemplate).

(** memory/cloudinit_osimage_store.go *)
Definition CloudInitStore_Upsert (m : templates) (t : CloudInitTemplate) : templates :=
  <[ct_Name t := match m !! ct_Name t with Some old => seed_of old t | None => t end]> m.

(** sql/cloudinit_store.go: the row keeps its date of creation. *)
Definition sql_template_Upsert (m : templates) (t : CloudInitTemplate) : templates :=
  <[ct_Name t := match m !! ct_Name t with Some old => (seed_of old t) <| ct_CreatedAt := ct_CreatedAt old |> | None => t end]> m.

(** What both promise: the template is written under its name, and one of mode
    [vm-seed] stays one. *)
Class TemplateUpsert (upsert : templates → CloudInitTemplate → templates) : Prop := {
  upsert_insert m t : ∃ t', upsert m t = <[ct_Name t := t']> m ∧ ct_Name t' = ct_Name t
    ∧ (is_seed t' = is_seed t ∨ is_seed t' = true)
    ∧ (∀ old, m !! ct_Name t = Some old → is_seed old = true → is_seed t' = true);
  upsert_reads m1 m2 t : (∀ old, m1 !! ct_Name t = Some old → ∃ old', m2 !! ct_Name t = Some old' ∧ is_seed old' = is_seed old ∧ ct_CreatedAt old' = ct_CreatedAt old) →
    (m1 !! ct_Name t = None → m2 !! ct_Name t = None) → upsert m2 t !! ct_Name t = upsert m1 t !! ct_Name t }.

Lemma seed_of_name old t : ct_Name (seed_of old t) = ct_Name t.
Proof. unfold seed_of. by destruct (is_seed old). Qed.
Lemma is_seed_of old t : is_seed (seed_of old t) = is_seed old || is_seed t.
Proof. unfold seed_of. by destruct (is_seed old). Qed.

Global Instance memory_upsert : TemplateUpsert CloudInitStore_Upsert.
Proof.
  split.
  - intros m t. unfold CloudInitStore_Upsert. destruct (m !! ct_Name t) as [old|]; eexists; (split_and!; [done|..]); rewrite ?seed_of_name, ?is_seed_of; try done.
    + destruct (is_seed old); auto.
    + intros ? [= <-] ->. done.
    + by left.
  - intros m1 m2 t Hs Hn. unfold CloudInitStore_Upsert. rewrite !lookup_insert_eq. destruct (m1 !! ct_Name t) as [old|].
    + destruct (Hs old eq_refl) as (old' & -> & E & _). unfold seed_of. by rewrite E.
    + by rewrite Hn.
Qed.

Global Instance sql_upsert : TemplateUpsert sql_template_Upsert.
Proof.
  assert (Hdate : ∀ t d, is_seed (t <| ct_CreatedAt := d |>) = is_seed t ∧ ct_Name (t <| ct_CreatedAt := d |>) = ct_Name t) by done.
  split.
  - intros m t. unfold sql_template_Upsert. destruct (m !! ct_Name t) as [old|]; eexists; (split_and!; [done|..]); rewrite ?(proj1 (Hdate _ _)), ?(proj2 (Hdate _ _)), ?seed_of_name, ?is_seed_of; try done.
    + destruct (is_seed old); auto.
    + intros ? [= <-] ->. done.
    + by left.
  - intros m1 m2 t Hs Hn. unfold sql_template_Upsert. rewrite !lookup_insert_eq. destruct (m1 !! ct_Name t) as [old|].
    + destruct (Hs old eq_refl) as (old' & -> & E & D). unfold seed_of. by rewrite E, D.
    + by rewrite Hn.
Qed.

(** ** service.go *)

Section service.
Context (upsert : templates → CloudInitTemplate → templates).

Definition template_write (t : CloudInitTemplate) (m : templates) : result (templates * CloudInitTemplate) :=
  match ValidateCloudInitTemplate t with Some e => Err e | None => Ok (upsert m t, t) end.
End service.

(** ** api/cloudinit.go *)

Record CloudInitTemplateResponse := mkCloudInitTemplateResponse {
  tr_DeliveryMode : string; tr_Name : string; tr_CloudInitTemplateID : string; tr_UserData : string; tr_NetworkConfig : string;
  tr_MetadataTemplate : string; tr_Description : string; tr_CreatedAt : Time; tr_UpdatedAt : Time }.
Definition cloudInitTemplateResponse (t : CloudInitTemplate) : CloudInitTemplateResponse :=
  mkCloudInitTemplateResponse (ct_DeliveryMode t) (resourceName "cloudInitTemplates" (ct_Name t)) (ct_Name t) (ct_UserData t) (ct_NetworkConfig t)
    (ct_MetadataTemplate t) (ct_Description t) (ct_CreatedAt t) (ct_UpdatedAt t).
Definition cloudInitTemplateResponses (l : list CloudInitTemplate) : list CloudInitTemplateResponse := cloudInitTemplateResponse <$> l.

Inductive template_body : Type :=
| TError (msg : string) | TTemplate (t : CloudInitTemplateResponse)
| TList (ts : list CloudInitTemplateResponse) (nextPageToken : string) (totalSize : Z) | TNone.
Record TemplateReply := mkTemplateReply { tp_Status : Z; tp_Body : template_body }.
Definition template_error (status : Z) (e : error) : TemplateReply := mkTemplateReply status (TError (Error e)).
Definition template_missing (e : error) (otherwise : Z) : TemplateReply :=
  if e ==? ErrNotFound then mkTemplateReply 404 (TError "not found") else template_error otherwise e.

(** An audit entry: the template and what was done. *)
Definition template_event : Type := string * string.

Section api.
Context (upsert : templates → CloudInitTemplate → templates) (others : nat → templates → templates) (clock : nat → Time).
Local Abbreviation H := (Hd templates template_event TemplateReply).

Definition template_Get (name : string) : H (result CloudInitTemplate) := op others (fun m => (m, mem_get m name)).
Definition template_store (t : CloudInitTemplate) : H (result CloudInitTemplate) :=
  op others (fun m => match template_write upsert t m with Ok (m', t') => (m', Ok t') | Err e => (m, Err e) end).

Definition template_Create (t : CloudInitTemplate) : H (result CloudInitTemplate) :=
  existing ← template_Get (ct_Name t);
  match existing with
  | Err e => if e !=? ErrNotFound then mret (Err e)
             else k ← tick; template_store (t <| ct_CreatedAt := clock k |> <| ct_UpdatedAt := clock k |>)
  | Ok existing => k ← tick; template_store ((seed_of existing t) <| ct_CreatedAt := clock k |> <| ct_UpdatedAt := clock k |>)
  end.

Definition template_Update (t : CloudInitTemplate) : H (result CloudInitTemplate) :=
  existing ← template_Get (ct_Name t);
  match existing with
  | Err e => mret (Err e)
  | Ok existing => k ← tick; template_store ((seed_of existing t) <| ct_CreatedAt := ct_CreatedAt existing |> <| ct_UpdatedAt := clock k |>)
  end.

Definition template_Delete (name : string) : H (result unit) :=
  op others (fun m => match mem_delete m name with Ok m' => (m', Ok tt) | Err e => (m, Err e) end).

(** A body that does not decode is [None]. *)
Definition CreateCloudInitTemplate (body : option CloudInitTemplate) : H TemplateReply :=
  match body with
  | None => mret (mkTemplateReply 400 (TError "invalid body"))
  | Some t =>
      created ← template_Create (t <| ct_Name := resourceID "cloudInitTemplates" (ct_Name t) |>);
      match created with
      | Err e => mret (template_error 400 e)
      | Ok t => _ ← emit (ct_Name t, "create-cloud-init-template"); mret (mkTemplateReply 201 (TTemplate (cloudInitTemplateResponse t)))
      end
  end.

Definition may_read (user : option Role) : bool := match user with Some r => CanWrite r | None => false end.
Definition redact (t : CloudInitTemplate) : CloudInitTemplate :=
  if is_seed t then t <| ct_UserData := "" |> <| ct_NetworkConfig := "" |> <| ct_MetadataTemplate := "" |> else t.

Definition ListCloudInitTemplates (user : option Role) (q : Query) : H TemplateReply :=
  items ← op others (fun m => (m, mem_list m));
  mret match items with
       | Err e => template_error 500 e
       | Ok items =>
           let items := if may_read user then items else redact <$> items in
           match parsePagination q (Z.of_nat (length items)) with
           | Err e => template_error 400 e
           | Ok p => mkTemplateReply 200 (TList (cloudInitTemplateResponses (paginate items p)) (pg_nextPageToken p) (pg_totalSize p))
           end
       end.

Definition GetCloudInitTemplate (user : option Role) (name : string) : H TemplateReply :=
  t ← template_Get name;
  mret match t with
       | Err e => template_missing e 500
       | Ok t => if is_seed t && negb (may_read user) then mkTemplateReply 403 TNone else mkTemplateReply 200 (TTemplate (cloudInitTemplateResponse t))
       end.

Definition UpdateCloudInitTemplate (name : string) (body : option CloudInitTemplate) : H TemplateReply :=
  match body with
  | None => mret (mkTemplateReply 400 (TError "invalid body"))
  | Some t =>
      updated ← template_Update (t <| ct_Name := name |>);
      match updated with
      | Err e => mret (template_missing e 400)
      | Ok t => _ ← emit (name, "update-cloud-init-template"); mret (mkTemplateReply 200 (TTemplate (cloudInitTemplateResponse t)))
      end
  end.

Definition DeleteCloudInitTemplate (name : string) : H TemplateReply :=
  r ← template_Delete name;
  match r with
  | Err e => mret (template_missing e 500)
  | Ok _ => _ ← emit (name, "delete-cloud-init-template"); mret (mkTemplateReply 204 TNone)
  end.
End api.

(** ** Who can read a seed *)

(** Two stores that differ at most in what seeds say. *)
Definition low (m1 m2 : templates) : Prop := mem_ok m1 ∧ mem_ok m2 ∧ redact <$> m1 = redact <$> m2.
Definition low_template (t1 t2 : CloudInitTemplate) : Prop := redact t1 = redact t2.
Definition low_result (r1 r2 : result CloudInitTemplate) : Prop :=
  match r1, r2 with Ok t1, Ok t2 => low_template t1 t2 | Err e1, Err e2 => e1 = e2 | _, _ => False end.

Global Instance low_per : RelationClasses.PER low.
Proof.
  split; [intros m1 m2 (H1 & H2 & E); by split_and!|]. intros m1 m2 m3 (H1 & _ & E) (_ & H3 & E'). split_and!; [done|done|by rewrite E].
Qed.
Global Instance low_template_equiv : Equivalence low_template.
Proof. split; [done|by intros ???|intros ??? H1 H2; unfold low_template in *; congruence]. Qed.

Lemma redact_name t : ct_Name (redact t) = ct_Name t.
Proof. unfold redact. by destruct (is_seed t). Qed.
Lemma redact_seed t : is_seed (redact t) = is_seed t.
Proof. unfold redact. destruct (is_seed t) eqn:E; [exact E|done]. Qed.
Lemma redact_created t : ct_CreatedAt (redact t) = ct_CreatedAt t.
Proof. unfold redact. by destruct (is_seed t). Qed.
Lemma redact_plain t : is_seed t = false → redact t = t.
Proof. unfold redact. by intros ->. Qed.
Global Instance is_seed_proper : Proper (low_template ==> eq) is_seed.
Proof. intros t1 t2 H. by rewrite <- redact_seed, H, redact_seed. Qed.
Global Instance created_proper : Proper (low_template ==> eq) ct_CreatedAt.
Proof. intros t1 t2 H. by rewrite <- redact_created, H, redact_created. Qed.
Global Instance seed_of_proper : Proper (low_template ==> eq ==> eq) seed_of.
Proof. intros t1 t2 H t ? <-. unfold seed_of. by rewrite H. Qed.

Lemma low_lookup m1 m2 n : low m1 m2 → redact <$> (m1 !! n) = redact <$> (m2 !! n).
Proof. intros (_ & _ & E). by rewrite <- !lookup_fmap, E. Qed.
Lemma low_get m1 m2 n : low m1 m2 → low_result (mem_get m1 n) (mem_get m2 n).
Proof. intros H%(low_lookup _ _ n). unfold mem_get. destruct (m1 !! n), (m2 !! n); try done. by injection H. Qed.

Lemma low_insert m1 m2 n t : low m1 m2 → ct_Name t = n → low (<[n := t]> m1) (<[n := t]> m2).
Proof.
  intros (H1 & H2 & E) Hn. split_and!; [..|by rewrite !fmap_insert, E];
    intros n' x; (destruct (decide (n = n')) as [<-|]; [rewrite lookup_insert_eq; by intros [= <-]|rewrite lookup_insert_ne by done; auto]).
Qed.
Lemma low_delete m1 m2 n : low m1 m2 → low (delete n m1) (delete n m2).
Proof.
  intros (H1 & H2 & E). split_and!; [..|by rewrite !fmap_delete, E]; intros n' x [_ ?]%lookup_delete_Some; auto.
Qed.

(** The list, redacted, is that of the redacted store. *)
Lemma redact_list m : mem_ok m → redact <$> merge_sort key_le (mem_values m) = merge_sort key_le (mem_values (redact <$> m)).
Proof. apply mem_list_view. apply redact_name. Qed.
Lemma low_list m1 m2 : low m1 m2 → redact <$> merge_sort key_le (mem_values m1) = redact <$> merge_sort key_le (mem_values m2).
Proof. intros (H1 & H2 & E). by rewrite !redact_list, E. Qed.

Section private.
Context (upsert : templates → CloudInitTemplate → templates) `{!TemplateUpsert upsert} (others : nat → templates → templates) (clock : nat → Time).
Context (Hothers : ∀ k, Proper (low ==> low) (others k)).
Local Abbreviation H := (Hd templates template_event TemplateReply).

(** Two runs that cannot be told apart: the same number of steps, the same entries in
    the log, stores that differ at most in what seeds say. *)
Definition same_run (st1 st2 : HState templates template_event) : Prop :=
  hst_tick st1 = hst_tick st2 ∧ hst_log st1 = hst_log st2 ∧ low (hst_store st1) (hst_store st2).
Definition related {A} (RA : A → A → Prop) (c1 c2 : H A) : Prop :=
  ∀ st1 st2, same_run st1 st2 → same_run (c1 st1).1 (c2 st2).1
    ∧ match (c1 st1).2, (c2 st2).2 with inl a, inl b => RA a b | inr r, inr r' => r = r' | _, _ => False end.

Lemma related_ret {A} (RA : A → A → Prop) a b : RA a b → related RA (mret a) (mret b).
Proof. by intros Hab st1 st2 Hs. Qed.
Lemma related_bind {A B} (RA : A → A → Prop) (RB : B → B → Prop) c1 c2 f1 f2 :
  related RA c1 c2 → (∀ a b, RA a b → related RB (f1 a) (f2 b)) → related RB (c1 ≫= f1) (c2 ≫= f2).
Proof.
  intros Hc Hf st1 st2 Hs. specialize (Hc st1 st2 Hs). unfold mbind, Hd_bind. destruct (c1 st1) as [s1 [a|r]], (c2 st2) as [s2 [b|r']]; destruct Hc as [Hs' Hr]; try done.
  by apply Hf.
Qed.
Lemma related_op {A} (RA : A → A → Prop) (f1 f2 : templates → templates * A) :
  (∀ m1 m2, low m1 m2 → low (f1 m1).1 (f2 m2).1 ∧ RA (f1 m1).2 (f2 m2).2) → related RA (op others f1) (op others f2).
Proof.
  intros Hf st1 st2 (Ht & Hl & Hm). unfold op. rewrite <- Ht. destruct (Hf _ _ (Hothers (hst_tick st1) _ _ Hm)) as [Hs Ha].
  destruct (f1 _) as [s1 a], (f2 _) as [s2 b]. split; [|done]. by split_and!; cbn; rewrite ?Hl.
Qed.
Lemma related_tick : related eq tick tick.
Proof. intros st1 st2 Hs. split; [done|]. apply Hs. Qed.
Lemma related_emit e : related eq (emit e) (emit e).
Proof. intros st1 st2 (Ht & Hl & Hm). split; [|done]. by split_and!; cbn; rewrite ?Ht, ?Hl. Qed.

Lemma related_get n : related low_result (template_Get others n) (template_Get others n).
Proof. apply related_op. intros m1 m2 Hm. split; [done|by apply low_get]. Qed.

Lemma low_upsert m1 m2 t : low m1 m2 → low (upsert m1 t) (upsert m2 t).
Proof.
  intros Hm. pose proof (low_lookup _ _ (ct_Name t) Hm) as Hl.
  assert (E : upsert m2 t !! ct_Name t = upsert m1 t !! ct_Name t).
  { apply upsert_reads.
    - intros old Ho. rewrite Ho in Hl. symmetry in Hl. apply fmap_Some in Hl as (old' & Ho' & E). exists old'. fold (low_template old old') in E. by rewrite E.
    - intros Ho. rewrite Ho in Hl. symmetry in Hl. by apply fmap_None in Hl. }
  destruct (upsert_insert m1 t) as (t1 & E1 & N1 & _). destruct (upsert_insert m2 t) as (t2 & E2 & N2 & _). rewrite E1, E2 in *.
  rewrite !lookup_insert_eq in E. injection E as ->. by apply low_insert.
Qed.
Lemma related_store t : related eq (template_store upsert others t) (template_store upsert others t).
Proof.
  apply related_op. intros m1 m2 Hm. unfold template_write. destruct (ValidateCloudInitTemplate t); [done|]. split; [by apply low_upsert|done].
Qed.
Lemma related_create t : related eq (template_Create upsert others clock t) (template_Create upsert others clock t).
Proof.
  unfold template_Create. eapply related_bind; [apply related_get|]. intros [t1|e1] [t2|e2] Ht; try done; cbn in Ht.
  - eapply related_bind; [apply related_tick|]. intros k ? <-. rewrite (seed_of_proper _ _ Ht t t eq_refl). apply related_store.
  - rewrite Ht. case_match; [by apply related_ret|]. eapply related_bind; [apply related_tick|]. intros k ? <-. apply related_store.
Qed.
Lemma related_update t : related eq (template_Update upsert others clock t) (template_Update upsert others clock t).
Proof.
  unfold template_Update. eapply related_bind; [apply related_get|]. intros [t1|e1] [t2|e2] Ht; try done; cbn in Ht.
  - eapply related_bind; [apply related_tick|]. intros k ? <-. rewrite (seed_of_proper _ _ Ht t t eq_refl), (created_proper _ _ Ht). apply related_store.
  - apply related_ret. by rewrite Ht.
Qed.

(** The requests a caller without authority to write can make with effect, and those
    of writers that store something. *)
Inductive reader_request (user : option Role) : H TemplateReply → Prop :=
| rq_list q : may_read user = false → reader_request user (ListCloudInitTemplates others user q)
| rq_get name : may_read user = false → reader_request user (GetCloudInitTemplate others user name)
| rq_create body : reader_request user (CreateCloudInitTemplate upsert others clock body)
| rq_update name body : reader_request user (UpdateCloudInitTemplate upsert others clock name body)
| rq_delete name : reader_request user (DeleteCloudInitTemplate others name).

(** C23: what a seed template says stays with those who may write.  Run from two stores
    that differ at most in what templates of mode vm-seed say, a request of a caller
    without authority to write, or any request that writes, gives the same answer and
    the same audit entries and leaves stores that differ at most so: the answer depends
    on no secret, whatever other requests do in between. *)
Theorem seeds_private (user : option Role) (c : H TemplateReply) (st1 st2 : HState templates template_event)
  (Hc : reader_request user c) (Hst : same_run st1 st2) :
  (c st1).2 = (c st2).2 ∧ same_run (c st1).1 (c st2).1.
Proof.
  assert (Hr : related eq c c).
  { destruct Hc as [q Hu|name Hu|body|name body|name].
    - unfold ListCloudInitTemplates. eapply (related_bind (fun r1 r2 => match r1, r2 with Ok l1, Ok l2 => redact <$> l1 = redact <$> l2 | _, _ => False end)).
      { apply related_op. intros m1 m2 Hm. split; [done|]. by apply low_list. }
      intros [l1|] [l2|] Hl; try done. apply related_ret. rewrite Hu, Hl. done.
    - unfold GetCloudInitTemplate. eapply related_bind; [apply related_get|]. intros [t1|e1] [t2|e2] Ht; try done; apply related_ret; cbn in Ht; [|by rewrite Ht].
      rewrite Hu, andb_true_r, (is_seed_proper _ _ Ht). destruct (is_seed t2) eqn:E2; [done|].
      pose proof (is_seed_proper _ _ Ht) as E1. rewrite E2 in E1. unfold low_template in Ht. rewrite !redact_plain in Ht by done. by rewrite Ht.
    - destruct body as [t|]; [|by apply related_ret]. unfold CreateCloudInitTemplate. eapply related_bind; [apply related_create|]. intros [t1|e] ? <-; [|by apply related_ret].
      eapply related_bind; [apply related_emit|]. intros; by apply related_ret.
    - destruct body as [t|]; [|by apply related_ret]. unfold UpdateCloudInitTemplate. eapply related_bind; [apply related_update|]. intros [t1|e] ? <-; [|by apply related_ret].
      eapply related_bind; [apply related_emit|]. intros; by apply related_ret.
    - unfold DeleteCloudInitTemplate. eapply (related_bind eq).
      { apply related_op. intros m1 m2 Hm. unfold mem_delete. pose proof (low_lookup _ _ name Hm) as Hl. destruct (m1 !! name), (m2 !! name); try done. split; [by apply low_delete|done]. }
      intros [[]|e] ? <-; [|by apply related_ret]. eapply related_bind; [apply related_emit|]. intros; by apply related_ret. }
  destruct (Hr st1 st2 Hst) as [Hs Hv]. split; [|done]. destruct (c st1).2, (c st2).2; by rewrite ?Hv.
Qed.
End private.

(** Seeds stay seeds: in every step of a request but the deletion of the template. *)
Section sticky.
Context (upsert : templates → CloudInitTemplate → templates) `{!TemplateUpsert upsert} (others : nat → templates → templates) (clock : nat → Time).
Local Abbreviation H := (Hd templates template_event TemplateReply).

Inductive template_request : option string → H TemplateReply → Prop :=
| tq_list user q : template_request None (ListCloudInitTemplates others user q)
| tq_get user name : template_request None (GetCloudInitTemplate others user name)
| tq_create body : template_request None (CreateCloudInitTemplate upsert others clock body)
| tq_update name body : template_request None (UpdateCloudInitTemplate upsert others clock name body)
| tq_delete name : template_request (Some name) (DeleteCloudInitTemplate others name).

Definition seed_at (m : templates) (n : string) : bool := match m !! n with Some t => is_seed t | None => false end.
Definition keeps_seeds (deleted : option string) (m m' : templates) : Prop := ∀ n, seed_at m n = true → seed_at m' n = true ∨ deleted = Some n.

Lemma store_keeps d t : does others (keeps_seeds d) (template_store upsert others t).
Proof.
  apply does_op. intros m n Hn. left. unfold template_write. destruct (ValidateCloudInitTemplate t); [done|]. cbn.
  destruct (upsert_insert m t) as (t' & -> & _ & _ & Hs). unfold seed_at in *. destruct (decide (ct_Name t = n)) as [<-|]; [|by rewrite lookup_insert_ne].
  rewrite lookup_insert_eq. destruct (m !! ct_Name t) as [old|]; [|done]. by eapply Hs.
Qed.

Lemma seed_mode_sticky d c : template_request d c → does others (keeps_seeds d) c.
Proof.
  intros Hc.
  assert (Hget : ∀ d n, does others (keeps_seeds d) (template_Get others n)) by (intros; apply does_read).
  destruct Hc as [user q|user name|[t|]|name [t|]|name]; try apply does_ret.
  - apply does_bind; [apply does_read|]. intros. apply does_ret.
  - apply does_bind; [apply Hget|]. intros. apply does_ret.
  - apply does_bind.
    + apply does_bind; [apply Hget|]. intros [t'|e]; [|case_match; [apply does_ret|]]; (apply does_bind; [apply does_tick|]; intros; apply store_keeps).
    + intros [t'|e]; [|apply does_ret]. apply does_bind; [apply does_emit|]. intros. apply does_ret.
  - apply does_bind.
    + apply does_bind; [apply Hget|]. intros [t'|e]; [|apply does_ret]. apply does_bind; [apply does_tick|]. intros. apply store_keeps.
    + intros [t'|e]; [|apply does_ret]. apply does_bind; [apply does_emit|]. intros. apply does_ret.
  - apply does_bind.
    + apply does_op. intros m n Hn. unfold mem_delete. destruct (m !! name) eqn:E; [|by left]. cbn. destruct (decide (name = n)) as [<-|]; [by right|left].
      unfold seed_at in *. by rewrite lookup_delete_ne.
    + intros [[]|e]; [|apply does_ret]. apply does_bind; [apply does_emit|]. intros. apply does_ret.
Qed.
End sticky.

(** ** A run: a viewer asks for a seed *)

Definition demo_seed (data : string) : templates :=
  {["s" := mkCloudInitTemplate "s" DeliveryVMSeed data "" "" "" 0 0; "p" := mkCloudInitTemplate "p" "" "plain" "" "" "" 0 0]}.
Definition get_seed : Hd templates template_event TemplateReply TemplateReply := GetCloudInitTemplate (fun _ m => m) (Some RoleViewer) "s".
Definition template_start (m : templates) : HState templates template_event := mkHState 0 m [].

Lemma demo_seed_low a b : low (demo_seed a) (demo_seed b).
Proof.
  assert (Hok : ∀ d, mem_ok (demo_seed d)).
  { intros d n t. unfold demo_seed. rewrite lookup_insert_Some, lookup_singleton_Some. by intros [[<- <-]|[_ [<- <-]]]. }
  split_and!; [apply Hok..|]. unfold demo_seed. by rewrite !fmap_insert, !map_fmap_singleton.
Qed.

Lemma seeds_private_witness :
  (get_seed (template_start (demo_seed "secret"))).2 = (get_seed (template_start (demo_seed "other"))).2.
Proof.
  apply (seeds_private CloudInitStore_Upsert (fun _ m => m) (fun _ => 0) ltac:(by intros k m1 m2) (Some RoleViewer) get_seed).
  - by apply rq_get.
  - split_and!; [done..|apply demo_seed_low].
Defined.
