(* ===== verification/PxeFiles.v ===== *)
(** * Files: pxehttp/pxe_file.go, deploy_artifacts.go and api/files.go

    The three handlers that send files by a path of the request: the assets of network
    boot, the artifacts of an OS image, and the files directory. *)
From S2P Require Import Prelude GoStrings GoNet GoPath GoTime Handler Resource Store OsImage Machine BareMetal PxeCallback Curtin PxeInventory.

(** ** Cleaned paths *)

(** A cleaned path: whether it is rooted, and its elements. *)
Definition path_rooted (s : string) : bool := match to_bytes s with c :: _ => c ==? "/"%char | [] => false end.
Definition path_elems (s : string) : list bytes := reverse (fold_left (clean_step (path_rooted s)) (split_path (to_bytes s)) []).
Definition render (rooted : bool) (es : list bytes) : string :=
  let out := if rooted then "/"%char :: join_path es else join_path es in
  if out ==? [] then "." else of_bytes out.

Lemma path_Clean_render s : path_Clean s = render (path_rooted s) (path_elems s).
Proof. reflexivity. Qed.

(** The name of an entry: neither empty, [.] nor [..], and without a slash. *)
Definition entry (e : bytes) : Prop := proper e ∧ "/"%char ∉ e.

Lemma split_no_sep l : Forall (fun e => "/"%char ∉ e) (split_path l).
Proof.
  unfold split_path. induction l as [|c l IH]; simpl; [by repeat constructor; apply not_elem_of_nil|].
  case_bool_decide as Hc; [constructor; [apply not_elem_of_nil|done]|]. destruct (split_bytes "/" l) as [|e es]; [by repeat constructor; set_solver|].
  inversion IH as [|? ? He Hes]; subst. constructor; [|done]. rewrite not_elem_of_cons. by split; [apply not_eq_sym|].
Qed.

Lemma split_one e : "/"%char ∉ e → split_path e = [e].
Proof.
  unfold split_path. induction e as [|c e IH]; [done|]. rewrite not_elem_of_cons. intros [Hc He]. simpl.
  rewrite bool_decide_eq_false_2 by (by apply not_eq_sym). by rewrite IH.
Qed.

Lemma split_join es : es ≠ [] → Forall (fun e => "/"%char ∉ e) es → split_path (join_path es) = es.
Proof.
  intros Hne. induction 1 as [|e es He Hes IH]; [done|]. destruct es as [|e' es]; [by apply split_one|].
  change (join_path (e :: e' :: es)) with (e ++ "/"%char :: join_path (e' :: es)).
  unfold split_path. rewrite split_bytes_app_sep. fold (split_path e) (split_path (join_path (e' :: es))). by rewrite IH, (split_one e He).
Qed.

(** The stack while a path is cleaned: entries over the [..]s at the front of a relative
    path. *)
Definition stack_ok (rooted : bool) (stack : list bytes) : Prop :=
  ∃ es k, stack = es ++ replicate k dotdot ∧ Forall entry es ∧ (rooted = true → k = 0%nat).

Lemma clean_step_ok rooted stack e : "/"%char ∉ e → stack_ok rooted stack → stack_ok rooted (clean_step rooted stack e).
Proof.
  intros He (es & k & -> & Hes & Hk). unfold clean_step.
  destruct (decide (e = [])) as [->|N1]; [by exists es, k|]. rewrite (bool_decide_eq_false_2 (e = [])) by done.
  destruct (decide (e = dot)) as [->|N2]; [by exists es, k|]. rewrite (bool_decide_eq_false_2 (e = dot)) by done. cbn [orb].
  destruct (decide (e = dotdot)) as [->|N3].
  - rewrite bool_decide_eq_true_2 by done. destruct es as [|t es].
    + destruct k as [|k]; cbn [app replicate].
      * destruct rooted; [by exists [], 0%nat|]. exists [], 1%nat. by split_and!.
      * rewrite bool_decide_eq_true_2 by done. exists [], (S (S k)). split_and!; [done|done|intros Hr; discriminate (Hk Hr)].
    + inversion Hes as [|? ? [(_ & _ & Ht) _] Hes']; subst. cbn [app]. rewrite bool_decide_eq_false_2 by done. by exists es, k.
  - rewrite bool_decide_eq_false_2 by done. exists (e :: es), k. split_and!; [done| |done]. by constructor.
Qed.

Lemma clean_ok rooted l stack : Forall (fun e => "/"%char ∉ e) l → stack_ok rooted stack → stack_ok rooted (fold_left (clean_step rooted) l stack).
Proof. intros Hl. revert stack. induction Hl as [|e l He _ IH]; intros stack Hs; [done|]. apply IH. by apply clean_step_ok. Qed.

Lemma path_elems_ok s : ∃ k es, path_elems s = replicate k dotdot ++ es ∧ Forall entry es ∧ (path_rooted s = true → k = 0%nat).
Proof.
  destruct (clean_ok (path_rooted s) (split_path (to_bytes s)) []) as (es & k & E & Hes & Hk); [apply split_no_sep|by exists [], 0%nat|].
  exists k, (reverse es). unfold path_elems. rewrite E, reverse_app. split_and!; [f_equal; apply reverse_replicate|by apply Forall_reverse|done].
Qed.

(** Entries after a path stay below it. *)
Lemma clean_entries rooted es stack : Forall entry es → fold_left (clean_step rooted) es stack = reverse es ++ stack.
Proof. intros H. apply clean_proper. eapply Forall_impl; [exact H|]. by intros e [? _]. Qed.

(** A path that is [..]-free when cleaned. *)
Definition below (p : string) (es : list bytes) : Prop :=
  Forall entry es ∧ (p = of_bytes (join_path es) ∧ es ≠ [] ∨ p = of_bytes ("/"%char :: join_path es)).
(** A path below a directory, or the directory: its elements and then entries. *)
Definition inside (root full : string) : Prop := ∃ es, Forall entry es ∧ full = render (path_rooted root) (path_elems root ++ es).

Lemma below_split p es : below p es → ∀ rooted stack, fold_left (clean_step rooted) (split_path (to_bytes p)) stack = reverse es ++ stack.
Proof.
  intros [Hes Hp] rooted stack. assert (Hns : Forall (fun e : bytes => "/"%char ∉ e) es) by (eapply Forall_impl; [exact Hes|]; by intros e [_ ?]).
  destruct Hp as [[-> Hne]| ->]; rewrite to_of_bytes.
  - rewrite split_join by done. by apply clean_entries.
  - unfold split_path. change ("/"%char :: join_path es) with ([] ++ "/"%char :: join_path es). rewrite split_bytes_app_sep, fold_left_app.
    change (fold_left (clean_step rooted) (split_bytes "/" []) stack) with stack.
    destruct es as [|e es]; [done|]. fold (split_path (join_path (e :: es))). rewrite split_join by done. by apply clean_entries.
Qed.

Lemma join_render root p es : root ≠ "" → below p es → filepath_Join root p = render (path_rooted root) (path_elems root ++ es).
Proof.
  intros Hr Hp. unfold filepath_Join. rewrite path_Clean_render.
  assert (Er : path_rooted (root +:+ "/" +:+ p) = path_rooted root) by (by destruct root).
  unfold path_elems. rewrite Er, !to_bytes_app. change (to_bytes "/") with ["/"%char]. cbn [app]. unfold split_path.
  rewrite split_bytes_app_sep, fold_left_app. fold (split_path (to_bytes p)). rewrite (below_split p es Hp), reverse_app, reverse_involutive. done.
Qed.
Lemma join_inside root p es : root ≠ "" → below p es → inside root (filepath_Join root p).
Proof. intros Hr Hp. exists es. split; [apply Hp|by apply join_render]. Qed.

(** What the sanitisers leave: [..]s can only be at the front of a cleaned path. *)
Lemma clean_below s : path_Clean s ≠ "." → path_Clean s ≠ ".." → HasPrefix (path_Clean s) "../" = false → ∃ es, below (path_Clean s) es.
Proof.
  destruct (path_elems_ok s) as (k & es & E & Hes & Hk). rewrite path_Clean_render, E. unfold render. intros H1 H2 H3.
  destruct (path_rooted s).
  - rewrite (Hk eq_refl). exists es. split; [done|]. right. by rewrite bool_decide_eq_false_2.
  - destruct k as [|k]; [|exfalso].
    + destruct es as [|e es]; [done|]. exists (e :: es). split; [done|]. left. split; [|done].
      inversion Hes as [|? ? [(He & _ & _) _] _]; subst. rewrite bool_decide_eq_false_2; [done|]. by destruct e, es.
    + destruct (replicate k dotdot ++ es) as [|e l] eqn:El; cbn [replicate app] in *; rewrite El in *; [done|].
      rewrite bool_decide_eq_false_2 in H3 by done. cbn in H3. by destruct (String.string_of_list_ascii _).
Qed.

(** ** The handlers *)

(** [os.Stat]: what is there, or why not. *)
Inductive stat_outcome : Type := Found (dir : bool) (size : Z) | NotExist | StatFails (e : error).

(** The file system, by the number of the step: [os.Stat], [filepath.EvalSymlinks], and
    echo's [c.File], which sends a file or returns an error. *)
Record FileSystem := mkFileSystem {
  fs_stat : nat → string → stat_outcome; fs_evalSymlinks : nat → string → result string; fs_send : nat → string → option error }.

(** What the handlers read of a request, next to its path. *)
Record FileRequest := mkFileRequest { fr_token : string; fr_attemptID : string; fr_method : string; fr_range : string }.

Definition artifactPathAllowed (manifest : option Manifest) (rel : string) : bool :=
  match manifest with
  | None => false
  | Some mf =>
      match sanitizePXEPath rel with
      | Err _ => false
      | Ok clean => bool_decide (clean ∈ WindowsArtifacts (Some mf)) || (clean ==? TrimSpace (ra_Path (mf_Root mf)))
                    || existsb (fun b => clean ==? TrimSpace (bd_Path b)) (mf_Bundles mf)
      end
  end.

Definition sanitizeFilePath (raw : string) : result string :=
  let p := of_bytes (backslash_to_slash <$> to_bytes (TrimSpace raw)) in
  let p := path_Clean (TrimPrefix p "/") in
  if (p ==? ".") || HasPrefix p "../" || Contains p "/../" then Err (ErrNew "invalid path") else Ok p.

Section files.
Context (env : PxeEnv) (h : PxeHandler) (fs : FileSystem).
Local Abbreviation H := (Hd PxeStores pxe_event PxeReply).

(** A call of the file system takes a step. *)
Definition sys {A} (f : nat → A) : H A := k ← tick; _ ← pread env (fun _ => tt); mret (f k).
Definition stat (p : string) : H stat_outcome := sys (fun k => fs_stat fs k p).
Definition evalSymlinks (p : string) : H (result string) := sys (fun k => fs_evalSymlinks fs k p).
Definition send (full : string) : H (option error) := _ ← emit (PSend full); sys (fun k => fs_send fs k full).

(** A handler returns an answer, or an error to the framework. *)
Definition sent (full : string) (e : option error) : result PxeReply := match e with Some e => Err e | None => Ok (mkPxeReply 200 (PFile full)) end.
Definition stat_then (full missing : string) (k : H (result PxeReply)) : H (result PxeReply) :=
  s ← stat full;
  match s with
  | Found _ _ => k
  | NotExist => mret (Ok (pxe_error 404 missing))
  | StatFails e => mret (Ok (pxe_error_of 500 e))
  end.

Definition serveProvisionedPXEFile (req : FileRequest) (full name message : string) : H (result PxeReply) :=
  let token := TrimSpace (fr_token req) in
  let attemptID := TrimSpace (fr_attemptID req) in
  if (token ==? "") || (attemptID ==? "") then e ← send full; mret (sent full e)
  else if fr_method req ==? "HEAD" then e ← send full; mret (sent full e)
  else if TrimSpace (fr_range req) !=? "" then e ← send full; mret (sent full e)
  else
  s ← stat full;
  let sizeBytes := match s with Found _ n => n | _ => 0 end in
  startedAt ← clock env;
  e ← send full;
  finishedAt ← clock env;
  let result := match e with Some _ => "failure" | None => "success" end in
  _ ← appendProvisionTimingByToken env token attemptID (serverTiming name message result startedAt finishedAt sizeBytes);
  mret (sent full e).

Definition PXEFile (pxeFilesDir pxeTFTPRoot param : string) (req : FileRequest) : H (result PxeReply) :=
  let root := if TrimSpace pxeFilesDir ==? "" then TrimSpace pxeTFTPRoot else TrimSpace pxeFilesDir in
  if root ==? "" then mret (Ok (pxe_error 404 "pxe file root is not configured")) else
  match sanitizePXEPath (TrimPrefix param "/") with
  | Err _ => mret (Ok (pxe_error 400 "invalid pxe asset path"))
  | Ok rel => let full := filepath_Join root rel in
              stat_then full "pxe asset not found" (serveProvisionedPXEFile req full "server.file_transfer" ("serve PXE file " +:+ rel))
  end.

Definition artifactBaseDir (img : OSImage) : H (result string) :=
  let local := TrimSpace (oi_LocalPath img) in
  if local ==? "" then mret (Err (ErrNew "os image has no local artifact path")) else
  s ← stat local;
  mret match s with
       | Found true _ => Ok local
       | Found false _ => Err (ErrNew "os image local artifact path is not an artifact directory")
       | _ => Err (ErrNew "os image local artifact path is not available")
       end.

Definition safeArtifactFilePath (base rel : string) : H (result string) :=
  baseReal ← evalSymlinks base;
  match baseReal with
  | Err e => mret (Err e)
  | Ok baseReal =>
      fullReal ← evalSymlinks (filepath_Join baseReal rel);
      mret match fullReal with
           | Err e => Err e
           | Ok fullReal => if (fullReal !=? baseReal) && negb (HasPrefix fullReal (baseReal +:+ "/")) then Err (ErrNew "artifact path escapes base directory")
                            else Ok fullReal
           end
  end.

Definition PXEArtifact (name param : string) (req : FileRequest) : H (result PxeReply) :=
  match ph_osimages h with
  | None => mret (Ok (pxe_error 500 "os image service not available"))
  | Some images =>
      match sanitizePXEPath (TrimPrefix param "/") with
      | Err _ => mret (Ok (pxe_error 400 "invalid artifact path"))
      | Ok rel =>
          match images !! name with
          | None => mret (Ok (pxe_error 404 "os image not found"))
          | Some img =>
              if negb (artifactPathAllowed (oi_Manifest img) rel) then mret (Ok (pxe_error 404 "artifact not found")) else
              base ← artifactBaseDir img;
              match base with
              | Err e => mret (Ok (pxe_error_of 404 e))
              | Ok base =>
                  full ← safeArtifactFilePath base rel;
                  match full with
                  | Err _ => mret (Ok (pxe_error 404 "artifact not found"))
                  | Ok full => stat_then full "artifact not found" (serveProvisionedPXEFile req full "server.artifact_transfer" ("serve OS artifact " +:+ rel))
                  end
              end
          end
      end
  end.

Definition ServeFile (filesDir param : string) : H (result PxeReply) :=
  if TrimSpace filesDir ==? "" then mret (Ok (pxe_error 404 "files directory is not configured")) else
  match sanitizeFilePath (TrimPrefix param "/") with
  | Err _ => mret (Ok (pxe_error 400 "invalid file path"))
  | Ok rel => let full := filepath_Join filesDir rel in
              stat_then full "file not found" (e ← send full; mret (sent full e))
  end.

(** ** What is sent *)

(** Every file a handler sends satisfies [P], and every answer with a file is of one it
    sent. *)
Definition sends {A} (P : string → Prop) (m : H A) : Prop :=
  ∀ st, ∃ l, hst_log (m st).1 = hst_log st ++ l ∧ ∀ full, PSend full ∈ l → P full.

Lemma sends_same {A} P (m : H A) : (∀ st, hst_log (m st).1 = hst_log st) → sends P m.
Proof. intros Hm st. exists []. rewrite Hm, app_nil_r. split; [done|]. by intros full ?%not_elem_of_nil. Qed.
Lemma sends_ret {A} P (a : A) : sends P (mret a).
Proof. by apply sends_same. Qed.
Lemma sends_pop {A} P (f : PxeStores → PxeStores * A) : sends P (pop env f).
Proof. apply sends_same. intros st. unfold pop, op. by destruct (f _). Qed.
Lemma sends_bind {A B} P (m : H A) (f : A → H B) : sends P m → (∀ a, sends P (f a)) → sends P (m ≫= f).
Proof.
  intros Hm Hf st. unfold mbind, Hd_bind. destruct (Hm st) as (l & El & Hl). destruct (m st) as [st1 [a|r]]; [|by exists l].
  cbn in El. destruct (Hf a st1) as (l' & El' & Hl'). exists (l ++ l'). rewrite El', El, app_assoc. split; [done|].
  intros full [?|?]%elem_of_app; auto.
Qed.
Lemma sends_bind_dep {A B} P (m : H A) (f : A → H B) (Q : A → Prop) :
  (∀ st st' r, m st = (st', r) → hst_log st' = hst_log st ∧ ∃ x, r = inl x ∧ Q x) → (∀ a, Q a → sends P (f a)) → sends P (m ≫= f).
Proof.
  intros Hm Hf st. unfold mbind, Hd_bind. destruct (m st) as [st1 r] eqn:E. destruct (Hm _ _ _ E) as [El (x & -> & Hx)].
  destruct (Hf x Hx st1) as (l & El' & Hl). exists l. by rewrite El', El.
Qed.
Lemma sends_sys {A} P (f : nat → A) : sends P (sys f).
Proof. by apply sends_same. Qed.
Lemma sends_clock P : sends P (clock env).
Proof. by apply sends_same. Qed.
Lemma sends_send (P : string → Prop) full : P full → sends P (send full).
Proof. intros Hp st. exists [PSend full]. split; [done|]. intros f. rewrite list_elem_of_singleton. by intros [= ->]. Qed.

Ltac sending :=
  repeat lazymatch goal with
  | |- sends _ (mbind _ _) => apply sends_bind; [|intros ?]
  | |- sends _ (mret _) => apply sends_ret
  | |- sends _ (pop _ _) => apply sends_pop
  | |- sends _ (pread _ _) => apply sends_pop
  | |- sends _ (sys _) => apply sends_sys
  | |- sends _ (clock _) => apply sends_clock
  | |- sends _ (send _) => apply sends_send; assumption
  | |- sends _ (stat _) => apply sends_sys
  | |- _ => case_match
  end.

Lemma sends_timing P token attempt t : sends P (appendProvisionTimingByToken env token attempt t).
Proof.
  unfold appendProvisionTimingByToken, requireProvisioningMachine, findMachineByProvisionToken, updateProvisionProgress, machines_Get, machines_Upsert.
  cbv zeta. sending.
Qed.
Lemma sends_serve (P : string → Prop) req full name message : P full → sends P (serveProvisionedPXEFile req full name message).
Proof. intros Hp. unfold serveProvisionedPXEFile. cbv zeta. sending; apply sends_timing. Qed.
Lemma sends_stat_then P full missing k : sends P k → sends P (stat_then full missing k).
Proof. intros Hk. unfold stat_then. by sending. Qed.

Lemma sanitizePXEPath_below raw rel : sanitizePXEPath raw = Ok rel → ∃ es, below rel es.
Proof.
  unfold sanitizePXEPath. destruct (_ || _) eqn:E; [done|]. intros [= <-]. rewrite !orb_false_iff, !bool_decide_eq_false in E.
  destruct E as [[[? ?] ?] _]. by apply clean_below.
Qed.
Lemma sanitizeFilePath_below raw rel : sanitizeFilePath raw = Ok rel → rel = ".." ∨ ∃ es, below rel es.
Proof.
  unfold sanitizeFilePath. destruct (_ || _) eqn:E; [done|]. intros [= <-]. rewrite !orb_false_iff, bool_decide_eq_false in E.
  destruct E as [[? ?] _]. destruct (decide (path_Clean (TrimPrefix (of_bytes (backslash_to_slash <$> to_bytes (TrimSpace raw))) "/") = "..")); [by left|].
  right. by apply clean_below.
Qed.

(** The directory of boot assets. *)
Definition pxe_root (pxeFilesDir pxeTFTPRoot : string) : string := if TrimSpace pxeFilesDir ==? "" then TrimSpace pxeTFTPRoot else TrimSpace pxeFilesDir.

(** A file an image's artifact request may be answered with: the image is of the
    catalogue, its manifest names the path, and the file, all links followed, lies in
    the directory of the image, all links followed. *)
Definition artifact_of (name param full : string) : Prop :=
  ∃ images img rel k baseReal, ph_osimages h = Some images ∧ images !! name = Some img
  ∧ sanitizePXEPath (TrimPrefix param "/") = Ok rel ∧ artifactPathAllowed (oi_Manifest img) rel = true
  ∧ fs_evalSymlinks fs k (TrimSpace (oi_LocalPath img)) = Ok baseReal
  ∧ (∃ k', fs_evalSymlinks fs k' (filepath_Join baseReal rel) = Ok full)
  ∧ (full = baseReal ∨ HasPrefix full (baseReal +:+ "/") = true).

Lemma base_dir_spec img st st' r : artifactBaseDir img st = (st', r) →
  hst_log st' = hst_log st ∧ ∃ x, r = inl x ∧ ∀ b, x = Ok b → b = TrimSpace (oi_LocalPath img).
Proof.
  unfold artifactBaseDir, stat, sys. cbv zeta. case_match; [intros [= <- <-]; naive_solver|]. cbv [mbind Hd_bind mret Hd_ret pread op tick].
  intros [= <- <-]. split; [done|]. eexists. split; [done|]. intros b. repeat case_match; congruence.
Qed.

Lemma safe_path_spec base rel st st' r : safeArtifactFilePath base rel st = (st', r) →
  hst_log st' = hst_log st ∧ ∃ x, r = inl x ∧ ∀ full, x = Ok full → ∃ k k' baseReal,
    fs_evalSymlinks fs k base = Ok baseReal ∧ fs_evalSymlinks fs k' (filepath_Join baseReal rel) = Ok full
    ∧ (full = baseReal ∨ HasPrefix full (baseReal +:+ "/") = true).
Proof.
  unfold safeArtifactFilePath, evalSymlinks, sys. cbv [mbind Hd_bind mret Hd_ret pread op tick].
  destruct (fs_evalSymlinks fs _ base) as [baseReal|] eqn:Eb; [|intros [= <- <-]; naive_solver].
  destruct (fs_evalSymlinks fs _ (filepath_Join _ _)) as [full|] eqn:Ef; [|intros [= <- <-]; naive_solver].
  intros [= <- <-]. split; [done|]. eexists. split; [done|]. intros f. destruct (_ && _) eqn:Ec; [done|]. intros [= <-].
  eexists _, _, baseReal. split_and!; [exact Eb|exact Ef|].
  apply andb_false_iff in Ec as [Ec|Ec]; [left|right; by destruct (HasPrefix _ _)]. by apply negb_false_iff, bool_decide_eq_true in Ec.
Qed.

Lemma artifact_sends name param req : sends (artifact_of name param) (PXEArtifact name param req).
Proof.
  unfold PXEArtifact. destruct (ph_osimages h) as [images|] eqn:Ei; [|apply sends_ret].
  destruct (sanitizePXEPath _) as [rel|] eqn:Er; [|apply sends_ret]. destruct (images !! name) as [img|] eqn:Em; [|apply sends_ret].
  destruct (artifactPathAllowed _ _) eqn:Ea; [|apply sends_ret]. cbn [negb].
  eapply sends_bind_dep; [intros st st' x; apply base_dir_spec|]. intros [b|e] Hb; [|apply sends_ret]. specialize (Hb b eq_refl) as ->.
  eapply sends_bind_dep; [intros st st' x; apply safe_path_spec|]. intros [full|e] Hf; [|apply sends_ret]. apply sends_stat_then, sends_serve.
  destruct (Hf full eq_refl) as (k & k' & baseReal & H1 & H2 & H3). by exists images, img, rel, k, baseReal; eauto 10.
Qed.

(** C31: what is sent over HTTP as a file lies where it may.  Whatever path a request
    names: a boot asset is sent from the configured directory, its path being that of
    the directory followed by names of entries, never [..]; an artifact of an OS image
    is one its manifest names, and with all links followed lies in the directory of the
    image; and from the files directory likewise, but for its parent, which is sent for
    the path [..]. *)
Theorem served_files_confined (pxeFilesDir pxeTFTPRoot filesDir name param : string) (req : FileRequest) :
  sends (inside (pxe_root pxeFilesDir pxeTFTPRoot)) (PXEFile pxeFilesDir pxeTFTPRoot param req)
  ∧ sends (artifact_of name param) (PXEArtifact name param req)
  ∧ sends (fun full => inside filesDir full ∨ full = filepath_Join filesDir "..") (ServeFile filesDir param).
Proof.
  split_and!; [|apply artifact_sends|].
  - unfold PXEFile. cbv zeta. fold (pxe_root pxeFilesDir pxeTFTPRoot). case_bool_decide as Hr; [apply sends_ret|].
    destruct (sanitizePXEPath _) as [rel|] eqn:Er; [|apply sends_ret]. apply sanitizePXEPath_below in Er as [es Hes].
    apply sends_stat_then, sends_serve. by eapply join_inside.
  - unfold ServeFile. cbv zeta. case_bool_decide as Hr; [apply sends_ret|]. destruct (sanitizeFilePath _) as [rel|] eqn:Er; [|apply sends_ret].
    apply sends_stat_then, sends_bind; [|intros; apply sends_ret]. apply sends_send.
    apply sanitizeFilePath_below in Er as [->|[es Hes]]; [by right|left]. eapply join_inside; [|done]. by intros ->.
Qed.
End files.

(** ** Runs *)

Definition plain_files : FileSystem := mkFileSystem (fun _ _ => Found false 7) (fun _ p => Ok p) (fun _ _ => None).
Definition plain_get : FileRequest := mkFileRequest "" "" "GET" "".

(** An asset below the root is sent; [..] is refused for boot assets and taken for the
    files directory, whose parent is then sent. *)
Lemma boot_asset_served (env : PxeEnv) (st : HState PxeStores pxe_event) :
  (PXEFile env plain_files "/srv/pxe" "" "grub//./grub.cfg" plain_get st).2 = inl (Ok (mkPxeReply 200 (PFile "/srv/pxe/grub/grub.cfg")))
  ∧ (PXEFile env plain_files "/srv/pxe" "" "grub/../.." plain_get st).2 = inl (Ok (pxe_error 400 "invalid pxe asset path")).
Proof. done. Qed.

Lemma files_parent_served (env : PxeEnv) (st : HState PxeStores pxe_event) :
  (ServeFile env plain_files "/srv/files" ".." st).2 = inl (Ok (mkPxeReply 200 (PFile "/srv"))) ∧ ¬ inside "/srv/files" "/srv".
Proof. split; [done|]. intros (es & _ & H). by destruct es. Qed.
