(* ===== verification/PxeTarget.v ===== *)
(** * pxehttp: the node behind an address, and the scripts it boots

    inventory_lookup.go (nodes by MAC address), pxe_target_resolution.go (what a node is
    to be given), pxe_boot_profile.go and pxe_boot_selection.go (the scripts). *)
From S2P Require Import Prelude GoStrings GoPath GoTime Handler Resource Store OsImage Machine Vm VmStore BareMetal PxeCallback Curtin PxeInventory.

(** ** inventory_lookup.go *)

(** [strings.Count] of a byte. *)
Definition CountByte (s : string) (c : ascii) : nat := length (filter (fun d => d = c) (to_bytes s)).

(** [token[i:i+2]] for every even [i]. *)
Fixpoint pairs (l : bytes) : list string :=
  match l with
  | a :: b :: l => of_bytes [a; b] :: pairs l
  | _ => []
  end.

Definition normalizeMAC (raw : string) : string :=
  let m := ToLower (TrimSpace raw) in
  if m ==? "" then "" else
  let m := ReplaceByte m "-"%char ":" in
  if bool_decide (CountByte m ":"%char = 5%nat) then m else
  let token := macToken m in
  if negb (len token =? 12) then "" else Join (pairs (to_bytes token)) ":".

(** The test of [vmHasMAC] and of [machineHasMAC]. *)
Definition mac_matches (normalized token raw : string) : bool :=
  let candidate := normalizeMAC raw in
  ((normalized !=? "") && (candidate ==? normalized)) || ((token !=? "") && (macToken candidate ==? token)).
Definition vmHasMAC (v : VirtualMachine) (normalized token : string) : bool :=
  existsb (mac_matches normalized token) (ni_MAC <$> v_Network v) || existsb (mac_matches normalized token) (nis_MAC <$> v_NetworkInterfaces v).
Definition machineHasMAC (m : Machine) (normalized token : string) : bool := mac_matches normalized token (m_MAC m).

(** A request that names no address. *)
Definition no_mac (raw : string) : bool := (normalizeMAC raw ==? "") && (macToken raw ==? "").

(** ** A node of either kind *)

Inductive pxe_node : Type := NVm (v : VirtualMachine) | NMachine (m : Machine).
Global Instance pxe_node_Node : Node pxe_node := {|
  ResourceName n := match n with NVm v => ResourceName v | NMachine m => ResourceName m end;
  NodeDisplayName n := match n with NVm v => NodeDisplayName v | NMachine m => NodeDisplayName m end;
  PrimaryMAC n := match n with NVm v => PrimaryMAC v | NMachine m => PrimaryMAC m end;
  AllMACs n := match n with NVm v => AllMACs v | NMachine m => AllMACs m end;
  PXEInstallType n := match n with NVm v => PXEInstallType v | NMachine m => PXEInstallType m end;
  IsProvisioningActive n := match n with NVm v => IsProvisioningActive v | NMachine m => IsProvisioningActive m end;
  ProvisionToken n := match n with NVm v => ProvisionToken v | NMachine m => ProvisionToken m end;
  MarkProvisionComplete n src now := match n with NVm v => NVm (MarkProvisionComplete v src now) | NMachine m => NMachine (MarkProvisionComplete m src now) end;
  CloudInitRefForDeploy n := match n with NVm v => CloudInitRefForDeploy v | NMachine m => CloudInitRefForDeploy m end;
  CloudInitInline n ty := match n with NVm v => CloudInitInline v ty | NMachine m => CloudInitInline m ty end;
  OSImageVariantRef n := match n with NVm v => OSImageVariantRef v | NMachine m => OSImageVariantRef m end;
  GetIPAssignment n := match n with NVm v => GetIPAssignment v | NMachine m => GetIPAssignment m end;
  StaticIP n := match n with NVm v => StaticIP v | NMachine m => StaticIP m end;
  GetSubnetRef n := match n with NVm v => GetSubnetRef v | NMachine m => GetSubnetRef m end;
  ApplyInstallCompleteReport n r := match n with NVm v => NVm (ApplyInstallCompleteReport v r) | NMachine m => NMachine (ApplyInstallCompleteReport m r) end |}.
Global Instance pxe_node_laws : NodeLaws pxe_node.
Proof.
  split; intros [v|m]; intros.
  1: apply (complete_inactive v). 1: apply (complete_inactive m).
  1: apply (complete_token v). 1: apply (complete_token m).
  1: apply (complete_name v). 1: apply (complete_name m).
  1: apply (complete_macs v). 1: apply (complete_macs m).
  1: by eapply (macs_nonempty v). 1: by eapply (macs_nonempty m).
  1: apply (macs_NoDup v). 1: apply (macs_NoDup m).
  1: apply (Resource.primary_mac v). 1: apply (Resource.primary_mac m).
  1: by apply (report_static v). by apply (report_static m).
Qed.

(** ** pxe_target_resolution.go *)

Record pxeTarget := mkPxeTarget {
  tg_node : option pxe_node; tg_installType : string; tg_variant : string; tg_osFamily : string; tg_completedRootFS : bool; tg_diskImageDeploy : bool }.
Definition bare_target (n : option pxe_node) (installType : string) : pxeTarget := mkPxeTarget n installType "" "" false false.

(** The image a reference names. *)
Definition image_of (h : PxeHandler) (ref : string) : option OSImage :=
  match ph_osimages h with
  | None => None
  | Some images => if TrimSpace ref ==? "" then None else images !! TrimSpace ref
  end.

Section targets.
Context (env : PxeEnv) (h : PxeHandler).
Local Abbreviation H := (Hd PxeStores pxe_event PxeReply).

Definition findVirtualMachineByMAC (rawMAC : string) : H (option VirtualMachine * bool) :=
  if no_mac rawMAC then mret (None, false)
  else v ← pread env (fun s => find_in (fun v => vmHasMAC v (normalizeMAC rawMAC) (macToken rawMAC)) (px_vms s)); mret (v, true).
Definition findMachineByMAC (rawMAC : string) : H (option Machine * bool) :=
  if no_mac rawMAC then mret (None, false)
  else m ← pread env (fun s => find_in (fun m => machineHasMAC m (normalizeMAC rawMAC) (macToken rawMAC)) (db_machines (px_db s))); mret (m, true).

Definition machineUsesDiskImage (m : Machine) : bool :=
  match image_of h (os_ImageRef (m_OSPreset m)) with
  | Some img => (EffectiveImageFormat img ==? FormatQCOW2) && SupportsDeploymentTarget img DeploymentTargetBareMetal
  | None => false
  end.
Definition machineUsesCompletedRootFS (m : Machine) : bool :=
  machineImageApplied m ||
  match image_of h (os_ImageRef (m_OSPreset m)) with
  | Some img => match oi_Manifest img with
                | Some mf => if ra_Format (mf_Root mf) !=? "" then ra_Format (mf_Root mf) ==? FormatSquashFS else oi_Format img ==? FormatSquashFS
                | None => oi_Format img ==? FormatSquashFS
                end
  | None => false
  end.
Definition resolveOSImageVariant (ref : string) : string := match image_of h ref with Some img => oi_Variant img | None => "" end.
Definition resolveOSImageFamily (ref : string) : string := match image_of h ref with Some img => oi_OSFamily img | None => "" end.

(** An attempt of Windows whose disk was taken or written: it boots from the disk. *)
Definition windowsInstallStarted (m : Machine) : bool :=
  match m_Provision m with Some p => default "" (pp_Artifacts p !! "windowsInstallStarted") ==? "true" | None => false end.
Definition vm_windows_taken (v : VirtualMachine) : bool :=
  (PXEInstallType v ==? InstallWindows) && (ps_ImageApplied (v_Provisioning v) || ps_WindowsInstallStarted (v_Provisioning v)).
Definition machine_windows_taken (m : Machine) : bool :=
  (PXEInstallType m ==? InstallWindows) && (machineImageApplied m || windowsInstallStarted m).

(** The target of a virtual machine, and of a machine, that is being provisioned. *)
Definition vm_target (v : VirtualMachine) : pxeTarget * bool :=
  if vm_windows_taken v then (bare_target (Some (NVm v)) InstallConfigWindows, false)
  else (mkPxeTarget (Some (NVm v)) (PXEInstallType v) (resolveOSImageVariant (OSImageVariantRef v)) (resolveOSImageFamily (OSImageVariantRef v)) false false, true).
Definition machine_target (m : Machine) : pxeTarget * bool :=
  if machine_windows_taken m then (bare_target (Some (NMachine m)) InstallConfigWindows, false)
  else
  let variant := resolveOSImageVariant (OSImageVariantRef m) in
  let target ty := mkPxeTarget (Some (NMachine m)) ty variant (os_Family (m_OSPreset m)) (machineUsesCompletedRootFS m) (machineUsesDiskImage m) in
  if machineImageApplied m then (target InstallConfigCurtin, false) else (target (PXEInstallType m), true).

Definition machine_or_none (rawMAC : string) : H (pxeTarget * bool) :=
  '(targetMachine, _) ← findMachineByMAC rawMAC;
  mret match targetMachine with
       | Some m => if IsProvisioningActive m then machine_target m else (bare_target None InstallConfigPreseed, false)
       | None => (bare_target None InstallConfigPreseed, false)
       end.
Definition resolvePXETarget (rawMAC : string) : H (pxeTarget * bool) :=
  if no_mac rawMAC then mret (bare_target None InstallConfigPreseed, true) else
  '(targetVM, _) ← findVirtualMachineByMAC rawMAC;
  match targetVM with
  | Some v => if IsProvisioningActive v then mret (vm_target v) else machine_or_none rawMAC
  | None => machine_or_none rawMAC
  end.

Definition findHostByMAC (rawMAC : string) : H (option pxe_node) :=
  '(v, foundMAC) ← findVirtualMachineByMAC rawMAC;
  match v, foundMAC : bool with
  | Some v, true => mret (Some (NVm v))
  | _, _ => '(m, foundMAC) ← findMachineByMAC rawMAC; mret (if foundMAC : bool then NMachine <$> m else None)
  end.
End targets.

Definition pxeTargetToken (t : pxeTarget) : string := match tg_node t with Some n => ProvisionToken n | None => "" end.
Definition pxeTargetHostname (t : pxeTarget) : string := match tg_node t with Some n => NodeDisplayName n | None => "" end.

(** [q.Encode()] of a token and, unless it is empty, a type. *)
Definition buildPXEInstallCompleteURL (base token source : string) : string :=
  if TrimSpace token ==? "" then "" else
  TrimRight_slash base +:+ "/install-complete?token=" +:+ QueryEscape (TrimSpace token) +:+ (if source ==? "" then "" else "&type=" +:+ QueryEscape source).

(** ** pxe_boot_profile.go *)

Record pxeBootScriptContext := mkPxeBootScriptContext {
  bc_baseURL : string; bc_mac : string; bc_bootIF : string; bc_installCompleteURL : string; bc_variant : string; bc_serialConsole : bool }.

(** Lines, each ended by a newline. *)
Definition script (lines : list string) : string := foldr (fun l s => l +:+ newline +:+ s) "" lines.

Definition renderPXELocalBootScript : string :=
  script ["#!ipxe"; "iseq ${platform} efi && goto local_efi || goto local_bios"; ":local_efi"; "exit 1"; ":local_bios";
          "sanboot --no-describe --drive 0x80 || exit"].

(** The profiles, by the types that implement them. *)
Inductive pxeBootScriptProfile : Type :=
| ubuntuCurtinPXEBootProfile | debianPreseedPXEBootProfile | debianDesktopPreseedPXEBootProfile | ubuntuDesktopCurtinPXEBootProfile
| linuxMachineCurtinPXEBootProfile | ubuntuDesktopAutoinstallPXEBootProfile.

Definition bootIFParam (mac : string) : string :=
  let normalized := normalizeMAC mac in if normalized ==? "" then "" else "01-" +:+ ReplaceByte normalized ":"%char "-".

Definition preseed_url (mac : string) : string :=
  "${base}/preseed.cfg" +:+ (let normalized := normalizeMAC mac in if normalized !=? "" then "?mac=" +:+ QueryEscape normalized else "").

Definition preseed_script (ctx : pxeBootScriptContext) (console : string) : string :=
  script ["#!ipxe"; "dhcp"; "set base " +:+ bc_baseURL ctx;
          "kernel ${base}/files/debian/linux initrd=initrd.gz auto=true priority=critical url=" +:+ preseed_url (bc_mac ctx) +:+ console +:+ " ---";
          "initrd --name initrd.gz ${base}/files/debian/initrd.gz"; "boot || shell"].

Section scripts.
(** From package net/url: the token in the query of a URL, empty when there is none or
    the URL does not parse. *)
Context (urlToken : string → string).

Definition linux_script (ctx : pxeBootScriptContext) : string :=
  let bootMAC := normalizeMAC (bc_mac ctx) in
  let bootParams := (if bc_bootIF ctx !=? "" then " BOOTIF=" +:+ bc_bootIF ctx else "") +:+ (if bootMAC !=? "" then " gomi.boot_mac=" +:+ bootMAC else "") in
  let consoleParams := "console=tty0" +:+ (if bc_serialConsole ctx then " console=ttyS0,115200n8" else "") in
  script ["#!ipxe"; "echo GOMI: before dhcp"; "dhcp"; "set base " +:+ bc_baseURL ctx; "echo GOMI: before kernel";
          "kernel ${base}/files/linux/boot-kernel initrd=boot-initrd ip=dhcp overlayroot=tmpfs:recurse=0 rw root=squash:${base}/files/linux/rootfs.squashfs gomi.base=${base} gomi.token="
            +:+ urlToken (bc_installCompleteURL ctx) +:+ bootParams +:+ " " +:+ consoleParams +:+ " ---";
          "echo GOMI: before initrd"; "initrd --name boot-initrd ${base}/files/linux/boot-initrd"; "echo GOMI: after initrd"; "imgstat";
          "echo GOMI: booting"; "boot || shell"].

Definition autoinstall_script (ctx : pxeBootScriptContext) : string :=
  script ["#!ipxe"; "dhcp"; "set base " +:+ bc_baseURL ctx;
          "kernel ${base}/files/ubuntu/vmlinuz initrd=initrd ip=dhcp url=${base}/files/ubuntu/ubuntu.iso autoinstall ds=nocloud;s=${base}/nocloud/"
            +:+ macToken (bc_mac ctx) +:+ "/ ---";
          "initrd ${base}/files/ubuntu/initrd"; "boot || shell"].

Definition profile_Script (p : pxeBootScriptProfile) (ctx : pxeBootScriptContext) : string :=
  match p with
  | ubuntuCurtinPXEBootProfile | ubuntuDesktopCurtinPXEBootProfile => renderPXELocalBootScript
  | debianPreseedPXEBootProfile => preseed_script ctx " netcfg/get_nameservers=8.8.8.8 console=ttyS0,115200n8"
  | debianDesktopPreseedPXEBootProfile => preseed_script ctx ""
  | linuxMachineCurtinPXEBootProfile => linux_script ctx
  | ubuntuDesktopAutoinstallPXEBootProfile => autoinstall_script ctx
  end.

Definition profile_NoCloudLineConfig (p : pxeBootScriptProfile) (ctx : pxeBootScriptContext) : string :=
  match p with
  | ubuntuCurtinPXEBootProfile | ubuntuDesktopCurtinPXEBootProfile | ubuntuDesktopAutoinstallPXEBootProfile =>
      let token := macToken (bc_mac ctx) in
      if token ==? "" then "" else "ds=nocloud;s=" +:+ bc_baseURL ctx +:+ "/nocloud/" +:+ token +:+ "/"
  | _ => ""
  end.

Record pxeBootScriptProfiles := mkPxeBootScriptProfiles {
  bp_defaultProfile : pxeBootScriptProfile; bp_byType : gmap string pxeBootScriptProfile; bp_byKey : gmap (string * string) pxeBootScriptProfile }.

Definition resolve (p : pxeBootScriptProfiles) (installType variant : string) : pxeBootScriptProfile :=
  let by_type := default (bp_defaultProfile p) (bp_byType p !! installType) in
  if variant !=? "" then default by_type (bp_byKey p !! (installType, variant)) else by_type.

Definition defaultPXEBootScriptProfiles : pxeBootScriptProfiles :=
  mkPxeBootScriptProfiles debianPreseedPXEBootProfile
    {[InstallConfigCurtin := ubuntuCurtinPXEBootProfile; InstallConfigPreseed := debianPreseedPXEBootProfile]}
    {[(InstallConfigPreseed, "desktop") := debianDesktopPreseedPXEBootProfile; (InstallConfigCurtin, "desktop") := ubuntuDesktopCurtinPXEBootProfile]}.
Definition defaultBareMetalPXEBootScriptProfiles : pxeBootScriptProfiles :=
  mkPxeBootScriptProfiles linuxMachineCurtinPXEBootProfile
    {[InstallConfigCurtin := linuxMachineCurtinPXEBootProfile; InstallConfigPreseed := debianPreseedPXEBootProfile]}
    {[(InstallConfigPreseed, "desktop") := debianDesktopPreseedPXEBootProfile]}.

(** ** pxe_boot_selection.go *)

Definition osImageVariantIsDesktop (variant : string) : bool := ToLower (TrimSpace variant) ==? VariantDesktop.
(** [envBool] of the value of an environment variable. *)
Definition envBool (value : string) : bool := bool_decide (ToLower (TrimSpace value) ∈ ["1"; "true"; "yes"; "on"]).

Definition renderPXEInstallScriptWithVariant (serialEnv base installType mac completeURL variant : string) (n : option pxe_node) : string :=
  let profiles := match n with Some (NMachine _) => defaultBareMetalPXEBootScriptProfiles | _ => defaultPXEBootScriptProfiles end in
  let serialConsole := if osImageVariantIsDesktop variant then false else envBool serialEnv in
  profile_Script (resolve profiles installType variant) (mkPxeBootScriptContext base mac (bootIFParam mac) completeURL variant serialConsole).

Definition RenderNoCloudLineConfig (base installType mac : string) : string :=
  profile_NoCloudLineConfig (resolve defaultPXEBootScriptProfiles installType "") (mkPxeBootScriptContext base mac "" "" "" false).
End scripts.
