(* ===== verification/Windows.v ===== *)
(** * pxehttp/windows.go, windows_script.go, windows_state.go: deployments of Windows

    An attempt boots WinPE over the network, fetches a startup command and the script
    that writes the disk, and reports its stages.  The disk of an attempt is claimed
    once: after that, nothing that would write it again is served. *)
From S2P Require Import Prelude GoStrings GoNet GoPath GoTime Handler Resource Store OsImage Machine Vm VmStore BareMetal Hypervisor PxeCallback ApiResource Curtin PxeInventory PxeTarget.

(** ** Text *)

(** [[]rune(s)]: a byte that starts no well-formed sequence is U+FFFD. *)
Fixpoint runes (l : bytes) : list Z :=
  match l with
  | [] => []
  | a :: l1 =>
      if byte_val a <? 0x80 then byte_val a :: runes l1 else
      match l1 with
      | b :: l2 =>
          if between 0xC2 0xDF a && cont b then ((byte_val a - 0xC0) * 64 + (byte_val b - 0x80)) :: runes l2 else
          match l2 with
          | c :: l3 =>
              let three := (between 0xE0 0xE0 a && between 0xA0 0xBF b) || (between 0xE1 0xEC a && cont b)
                           || (between 0xED 0xED a && between 0x80 0x9F b) || (between 0xEE 0xEF a && cont b) in
              if three && cont c then ((byte_val a - 0xE0) * 4096 + (byte_val b - 0x80) * 64 + (byte_val c - 0x80)) :: runes l3 else
              match l3 with
              | d :: l4 =>
                  let four := (between 0xF0 0xF0 a && between 0x90 0xBF b) || (between 0xF1 0xF3 a && cont b)
                              || (between 0xF4 0xF4 a && between 0x80 0x8F b) in
                  if four && cont c && cont d
                  then ((byte_val a - 0xF0) * 262144 + (byte_val b - 0x80) * 4096 + (byte_val c - 0x80) * 64 + (byte_val d - 0x80)) :: runes l4
                  else 0xFFFD :: runes l1
              | [] => 0xFFFD :: runes l1
              end
          | [] => 0xFFFD :: runes l1
          end
      | [] => [0xFFFD]
      end
  end.

(** [utf16.Encode], and the units as bytes, the low one first. *)
Definition utf16_units (r : Z) : list Z :=
  if r <? 0x10000 then [r] else [0xD800 + Z.shiftr (r - 0x10000) 10; 0xDC00 + Z.land (r - 0x10000) 0x3FF].
Definition utf16_bytes (u : Z) : bytes := [byte_of (u mod 256); byte_of (u / 256)].
Definition powershellEncoded (command : string) : string := b64_std (flat_map utf16_bytes (flat_map utf16_units (runes (to_bytes command)))).

Definition psQuote (value : string) : string := "'" +:+ ReplaceByte value "'"%char "''" +:+ "'".

(** [strings.NewReplacer(...).Replace]: in one pass, the first pair that applies. *)
Definition starts_with (p l : bytes) : bool := bool_decide (take (length p) l = p).
Fixpoint replace_from (skip : nat) (pairs : list (string * string)) (l : bytes) : bytes :=
  match l with
  | [] => []
  | c :: l' =>
      match skip with
      | S n => replace_from n pairs l'
      | O => match List.find (fun p => starts_with (to_bytes (fst p)) l) pairs with
             | Some (old, new) => to_bytes new ++ replace_from (String.length old - 1) pairs l'
             | None => c :: replace_from 0 pairs l'
             end
      end
  end.

(** The embedded scripts: windows/install.ps1, complete.ps1 and register.ps1. *)
Record WindowsScripts := mkWindowsScripts { ws_install : string; ws_complete : string; ws_register : string }.
Definition renderWindowsInstall (scripts : WindowsScripts) (config : bytes) : string :=
  of_bytes (replace_from 0 [("__GOMI_CONFIG__", b64_std config); ("__GOMI_REGISTER__", b64_std (to_bytes (ws_register scripts)));
                            ("__GOMI_COMPLETE__", b64_std (to_bytes (ws_complete scripts)))] (to_bytes (ws_install scripts))).

(** The configuration of the script that writes the disk. *)
Record windowsConfig := mkWindowsConfig {
  wc_imageURL : string; wc_imageIndex : Z; wc_sha256 : string; wc_mac : string; wc_hostname : string; wc_stateURL : string; wc_deadline : option string }.

(** ** The target of a request *)

Record windowsTarget := mkWindowsTarget {
  wt_host : pxe_node; wt_image : OSImage; wt_windows : Manifest * WindowsImage;
  wt_attempt : string; wt_active : bool; wt_started : bool; wt_applied : bool; wt_completed : bool; wt_deadline : option Time }.

Definition http_error (status : Z) (msg : string) : PxeReply := mkPxeReply status (PHttpError msg).
Definition unhandled (e : error) : PxeReply := mkPxeReply 500 (PUnhandled e).

(** What the progress of a node says: its attempt, whether it is active, whether the
    disk is claimed and written, whether it is completed, until when, and its image. *)
Definition node_progress (n : pxe_node) : string * bool * bool * bool * bool * option Time * string :=
  match n with
  | NVm v => let p := v_Provisioning v in
      (ps_AttemptID p, ps_Active p, ps_WindowsInstallStarted p, ps_ImageApplied p, bool_decide (is_Some (ps_CompletedAt p)), ps_DeadlineAt p, v_OSImageRef v)
  | NMachine m => let p := progress m in
      (pp_AttemptID p, pp_Active p, windowsInstallStarted m, machineImageApplied m, bool_decide (is_Some (pp_CompletedAt p)), pp_DeadlineAt p, os_ImageRef (m_OSPreset m))
  end.

Section windows.
Context (env : PxeEnv) (h : PxeHandler).
Context (pathEscape : string → string) (appendProvisionQuery : string → string → string → string).
Local Abbreviation H := (Hd PxeStores pxe_event PxeReply).

(** The node a token belongs to, if it deploys Windows. *)
Definition token_not_found : PxeReply := http_error 404 "Windows provisioning token not found".
Definition windows_machine (token : string) : H pxe_node :=
  m ← findMachineByProvisionToken env token;
  match m with
  | Some m => if (m_Provision m ==? None) || (PXEInstallType m !=? InstallWindows) then answer_with token_not_found else mret (NMachine m)
  | None => answer_with token_not_found
  end.
Definition windows_node (token : string) : H pxe_node :=
  v ← findVirtualMachineByProvisionToken env token;
  match v with
  | Some v => if PXEInstallType v ==? InstallWindows then mret (NVm v) else windows_machine token
  | None => windows_machine token
  end.

Definition windows_target (token attempt : string) : H windowsTarget :=
  if (token ==? "") || (attempt ==? "") then answer_with (http_error 400 "token and attempt_id are required") else
  n ← windows_node token;
  let '(current, active, started, applied, completed, deadline, imageRef) := node_progress n in
  if current !=? attempt then answer_with (http_error 409 "provisioning attempt mismatch") else
  now ← clock env;
  if negb completed && match deadline with Some d => d <? now | None => false end then answer_with (http_error 410 "Windows provisioning attempt expired") else
  match ph_osimages h with
  | None => answer_with (unhandled (ErrNew "OS image service unavailable"))
  | Some images =>
      match images !! imageRef with
      | None => answer_with (unhandled ErrNotFound)
      | Some img =>
          match oi_Manifest img with
          | Some mf => match mf_Windows mf with
                       | Some w => if EqualFold (oi_OSFamily img) "windows" then mret (mkWindowsTarget n img (mf, w) current active started applied completed deadline)
                                   else answer_with (http_error 409 "Windows image metadata unavailable")
                       | None => answer_with (http_error 409 "Windows image metadata unavailable")
                       end
          | None => answer_with (http_error 409 "Windows image metadata unavailable")
          end
      end
  end.

(** Nothing is served to an attempt that is over, or whose disk is claimed or written. *)
Definition windows_spent (t : windowsTarget) : bool := negb (wt_active t) || wt_started t || wt_applied t.

Definition windowsAttempt (n : option pxe_node) : string :=
  match n with
  | Some (NVm v) => ps_AttemptID (v_Provisioning v)
  | Some (NMachine m) => match m_Provision m with Some p => pp_AttemptID p | None => "" end
  | None => ""
  end.

Definition winpe_script (urls : list string) (startup : string) : string :=
  script ["#!ipxe"; "iseq ${platform} efi || goto unsupported"; "dhcp"; "kernel " +:+ nth 0 urls ""; "initrd --name BCD " +:+ nth 1 urls "" +:+ " BCD";
          "initrd --name boot.sdi " +:+ nth 2 urls "" +:+ " boot.sdi"; "initrd --name boot.wim " +:+ nth 3 urls "" +:+ " boot.wim";
          "initrd --name startnet.cmd " +:+ startup +:+ " startnet.cmd"; "boot || goto failed"; ":unsupported";
          "echo GOMI Windows deployment requires x86_64 UEFI"; "exit 1"; ":failed"; "echo GOMI Windows boot failed"; "exit 1"].

Definition renderWindowsBoot (base : string) (target : pxeTarget) : H string :=
  let token := pxeTargetToken target in
  let attempt := windowsAttempt (tg_node target) in
  t ← windows_target token attempt;
  if windows_spent t then mret renderPXELocalBootScript else
  let pe := wi_WinPE (snd (wt_windows t)) in
  urls ← unless (mapM (artifactURL pathEscape base (wt_image t)) [wp_Wimboot pe; wp_BCD pe; wp_BootSDI pe; wp_BootWIM pe]) unhandled;
  mret (winpe_script urls (appendProvisionQuery (TrimRight_slash base +:+ "/windows/startnet.cmd") token attempt)).

Definition inactive_or_applied : PxeReply := http_error 409 "Windows installer is inactive or already applied".

Definition crlf : string := String (ascii_of_N 13) newline.
Definition PXEWindowsStartnet (base token attempt : string) : H PxeReply :=
  t ← windows_target token attempt;
  _ ← must (negb (windows_spent t)) inactive_or_applied;
  let u := appendProvisionQuery (base +:+ "/windows/install.ps1") token attempt in
  let command := "$ErrorActionPreference='Stop'; try { Invoke-WebRequest -UseBasicParsing -Uri " +:+ psQuote u
                 +:+ " -OutFile X:\gomi-install.ps1; & X:\gomi-install.ps1 } catch { Write-Host 'GOMI bootstrap failed'; exit 1 }" in
  mret (mkPxeReply 200 (PText ("@echo off" +:+ crlf +:+ "wpeinit" +:+ crlf +:+ "powershell.exe -NoProfile -ExecutionPolicy Bypass -EncodedCommand "
          +:+ powershellEncoded command +:+ crlf +:+ "if errorlevel 1 echo GOMI deployment stopped. See WinPE console for diagnostics." +:+ crlf))).

(** From package encoding/json: the text of the configuration. *)
Context (jsonMarshal : windowsConfig → result bytes) (scripts : WindowsScripts).

Definition PXEWindowsInstall (base token attempt : string) : H PxeReply :=
  t ← windows_target token attempt;
  _ ← must (negb (windows_spent t)) inactive_or_applied;
  let '(mf, w) := wt_windows t in
  wimURL ← unless (artifactURL pathEscape base (wt_image t) (ra_Path (mf_Root mf))) unhandled;
  body ← unless (jsonMarshal (mkWindowsConfig wimURL (wi_ImageIndex w) (ra_SHA256 (mf_Root mf)) (PrimaryMAC (wt_host t)) (NodeDisplayName (wt_host t))
                   (appendProvisionQuery (base +:+ "/windows/state") token attempt) (RFC3339 <$> wt_deadline t))) unhandled;
  mret (mkPxeReply 200 (PText (renderWindowsInstall scripts body))).

(** ** windows_state.go *)

Record windowsStateRequest := mkWindowsStateRequest { wr_Stage : string; wr_IP : string; wr_MAC : string; wr_Hostname : string }.

(** [ip.To4() != nil] and not a loopback, link-local, unspecified or multicast address. *)
Definition deployment_address (s : string) : bool :=
  match parse4 (TrimSpace s) with
  | Some n => (GoNet.octet n 3 !=? 127) && negb ((GoNet.octet n 3 ==? 169) && (GoNet.octet n 2 ==? 254)) && (n !=? 0) && negb (bool_decide (224 <= GoNet.octet n 3 < 240))
  | None => false
  end.

(** The requests that are refused, with the answer. *)
Definition state_refused (t : windowsTarget) (req : windowsStateRequest) : option PxeReply :=
  let stage := wr_Stage req in
  if (stage ==? "install_started") && wt_started t
  then Some (http_error 409 "Windows installation was already claimed; start a new deployment attempt")
  else if (stage ==? "complete") && negb (wt_applied t) then Some (http_error 409 "Windows image has not been applied")
  else if (stage ==? "complete") && negb (deployment_address (wr_IP req) && (normalizeMAC (wr_MAC req) ==? normalizeMAC (PrimaryMAC (wt_host t))))
  then Some (http_error 400 "completion requires deployment NIC IPv4 address and matching MAC")
  else if (stage ==? "complete") && (TrimSpace (wr_Hostname req) ==? "") then Some (http_error 400 "completion requires Windows hostname")
  else if (stage ==? "image_applied") && negb (wt_started t) then Some (http_error 409 "Windows disk installation has not started")
  else None.

Definition state_report (req : windowsStateRequest) : InstallCompleteReport :=
  mkInstallCompleteReport (TrimSpace (wr_IP req)) (normalizeMAC (wr_MAC req)) (TrimSpace (wr_Hostname req)).
Definition windows_failed : string := "Windows deployment failed; inspect the WinPE console".

Definition vm_stage (req : windowsStateRequest) (now : Time) (v : VirtualMachine) : VirtualMachine :=
  let stage := wr_Stage req in
  let p := (v_Provisioning v) <| ps_LastSignalAt := Some now |> in
  let v := v <| v_UpdatedAt := now |> <| v_Provisioning := p |> in
  if stage ==? "install_started" then v <| v_Provisioning := p <| ps_WindowsInstallStarted := true |> |>
  else if stage ==? "image_applied" then v <| v_Provisioning := p <| ps_ImageApplied := true |> |>
  else if stage ==? "failed" then v <| v_Provisioning := p <| ps_Active := false |> |> <| v_Phase := Vm.PhaseError |> <| v_LastError := windows_failed |>
  else if stage ==? "complete" then
    ApplyInstallCompleteReport
      (v <| v_Provisioning := p <| ps_Active := false |> <| ps_CompletedAt := Some now |> <| ps_CompletionSource := "windows" |> |>
         <| v_Phase := Vm.PhaseRunning |> <| v_LastError := "" |>)
      (state_report req)
  else v.

Definition machine_stage (req : windowsStateRequest) (now : Time) (m : Machine) : Machine :=
  let stage := wr_Stage req in
  let p := (progress m) <| pp_LastSignalAt := Some now |> in
  let m := m <| m_UpdatedAt := now |> <| m_Provision := Some p |> in
  if stage ==? "install_started" then
    m <| m_Provision := Some (p <| pp_Artifacts := <["windowsInstallStarted" := "true"]> (pp_Artifacts p) |>
           <| pp_Message := "Windows installation started; interrupted deployment requires an explicit new attempt" |>) |>
  else if stage ==? "image_applied" then
    m <| m_Provision := Some (p <| pp_Artifacts := <[provisionArtifactImageApplied := "true"]> (<[provisionArtifactImageAppliedAt := RFC3339 now]> (pp_Artifacts p)) |>
           <| pp_Message := "Windows image applied; waiting for reboot and interactive Windows initial setup" |>) |>
  else if stage ==? "failed" then
    m <| m_Provision := Some (p <| pp_Active := false |> <| pp_FinishedAt := Some now |> <| pp_FailureReason := windows_failed |> <| pp_Message := windows_failed |>) |>
      <| m_Phase := Machine.PhaseError |> <| m_LastError := windows_failed |>
  else if stage ==? "complete" then
    ApplyInstallCompleteReport
      (m <| m_Provision := Some (p <| pp_Active := false |> <| pp_CompletedAt := Some now |> <| pp_FinishedAt := Some now |> <| pp_CompletionSource := "windows" |>
              <| pp_Message := "Windows initial setup completed; activation is managed manually in Windows" |>) |>
         <| m_Phase := Machine.PhaseReady |> <| m_LastError := "" |>)
      (state_report req)
  else m.

(** The write, compared with the record the request was computed from. *)
Definition write_stage (t : windowsTarget) (req : windowsStateRequest) (now : Time) : H (result bool) :=
  match wt_host t with
  | NVm v => pop env (fun s => match VMStore_UpdateProvisioningAttempt (px_vms s) v (vm_stage req now v) with
                               | Ok (m, written) => (s <| px_vms := m |>, Ok written)
                               | Err e => (s, Err e)
                               end)
  | NMachine m => pop env (fun s => let '(db, written) := machine_callback (px_db s) m (machine_stage req now m) in (s <| px_db := db |>, Ok written))
  end.

Definition attempt_changed (n : pxe_node) : PxeReply :=
  http_error 409 match n with NVm _ => "Windows VM attempt changed; retry the callback" | NMachine _ => "Windows Machine attempt changed; retry the callback" end.

Definition PXEWindowsState (token attempt : string) (body : option windowsStateRequest) : H PxeReply :=
  t ← windows_target token attempt;
  match body with
  | None => answer_with (http_error 400 "invalid Windows state body")
  | Some req =>
      _ ← must (bool_decide (wr_Stage req ∈ ["install_started"; "image_applied"; "complete"; "failed"])) (http_error 400 "unsupported Windows stage");
      if negb (wt_active t) then
        if wt_completed t && (wr_Stage req ==? "complete") then mret (mkPxeReply 200 (PStatus "already-finalized"))
        else answer_with (http_error 409 "Windows provisioning is inactive")
      else match state_refused t req with
      | Some r => answer_with r
      | None =>
          now ← clock env;
          written ← write_stage t req now;
          written ← unless written unhandled;
          _ ← must written (attempt_changed (wt_host t));
          mret (mkPxeReply 200 (PStatus "ok"))
      end
  end.
End windows.

(** ** A disk is claimed once *)

Definition node_in (s : PxeStores) (n : pxe_node) : Prop :=
  match n with NVm v => ∃ k, px_vms s !! k = Some v | NMachine m => ∃ k, db_machines (px_db s) !! k = Some m end.
Definition carries (token : string) (n : pxe_node) : Prop :=
  match n with NVm v => vm_has_token (TrimSpace token) v = true | NMachine m => machine_has_token (TrimSpace token) m = true end.
Definition disk_claimed (n : pxe_node) : bool :=
  match n with NVm v => ps_WindowsInstallStarted (v_Provisioning v) | NMachine m => windowsInstallStarted m end.

(** Every record of the attempt says that its disk is claimed. *)
Definition claimed (token attempt : string) (s : PxeStores) : Prop :=
  ∀ n, node_in s n → carries token n → PXEInstallType n = InstallWindows → windowsAttempt (Some n) = attempt → disk_claimed n = true.
(** No two records carry the token: it is drawn at random for one attempt. *)
Definition unique_token (token : string) (s : PxeStores) : Prop :=
  ∀ n1 n2, node_in s n1 → node_in s n2 → carries token n1 → carries token n2 → n1 = n2.

Section claims.
Context (env : PxeEnv) (h : PxeHandler) (pathEscape : string → string) (appendProvisionQuery : string → string → string → string).
Context (jsonMarshal : windowsConfig → result bytes) (scripts : WindowsScripts).
Local Abbreviation H := (Hd PxeStores pxe_event PxeReply).
Implicit Types st : HState PxeStores pxe_event.

Definition stable (P : PxeStores → Prop) : Prop := ∀ k s, P s → P (pe_others env k s).
(** What the stores may become while a request only looks at them. *)
Definition others_step (s s' : PxeStores) : Prop := ∃ k, s' = pe_others env k s.
Lemma reached_stable s0 : stable (rtc others_step s0).
Proof. intros k s Hs. eapply rtc_r; [exact Hs|by exists k]. Qed.
(** The claim is stored whenever a request that starts now looks for it. *)
Definition stays_claimed (token attempt : string) (s0 : PxeStores) : Prop := ∀ s, rtc others_step s0 s → claimed token attempt s.

(** A computation that only reads, with what its result says of a store that [P] holds of. *)
Definition reading {A} (P : PxeStores → Prop) (Q : A → Prop) (c : H A) : Prop :=
  ∀ st st' r, c st = (st', r) → P (hst_store st) → P (hst_store st') ∧ ∀ a, r = inl a → Q a.

Lemma reading_ret {A} P (Q : A → Prop) a : Q a → reading P Q (mret a).
Proof. intros Ha st st' r [= <- <-] Hp. split; [done|]. by intros ? [= <-]. Qed.
Lemma reading_answer {A} P (Q : A → Prop) r : reading P Q (answer_with r).
Proof. intros st st' x [= <- <-] Hp. by split. Qed.
Lemma reading_bind {A B} P (Q : A → Prop) (R : B → Prop) (c : H A) (f : A → H B) :
  reading P Q c → (∀ a, Q a → reading P R (f a)) → reading P R (c ≫= f).
Proof.
  intros Hc Hf st st' r Hrun Hp. apply hd_bind_inv in Hrun as [(st1 & a & H1 & H2)|(r0 & H1 & ->)].
  - destruct (Hc _ _ _ H1 Hp) as [Hp1 Ha]. by eapply (Hf a (Ha a eq_refl)).
  - destruct (Hc _ _ _ H1 Hp) as [Hp1 _]. by split.
Qed.
Lemma reading_pread {A} P (Q : A → Prop) (f : PxeStores → A) : stable P → (∀ s, P s → Q (f s)) → reading P Q (pread env f).
Proof.
  intros Hk Hq st st' r. unfold pread, op. intros [= <- <-] Hp. split; [by apply Hk|]. intros ? [= <-]. by apply Hq, Hk.
Qed.
Lemma reading_clock P : reading P (fun _ => True) (clock env).
Proof. intros st st' r [= <- <-] Hp. by split. Qed.

Lemma found_in {T} `{Keyed T} (f : T → bool) (m : gmap string T) x : find_in f m = Some x → f x = true ∧ ∃ k, m !! k = Some x.
Proof.
  unfold find_in. intros [Hin Hf]%find_some. split; [done|]. apply list_elem_of_In in Hin. rewrite merge_sort_Permutation in Hin.
  unfold mem_values in Hin. apply list_elem_of_fmap in Hin as ([k y] & -> & Hy%elem_of_map_to_list). by exists k.
Qed.

(** A node found by its token is in the store it was read from. *)
Definition found_node (P : PxeStores → Prop) (token : string) (n : pxe_node) : Prop :=
  (∃ s, P s ∧ node_in s n) ∧ carries token n ∧ PXEInstallType n = InstallWindows.

Lemma windows_machine_reads P token : stable P → reading P (found_node P token) (windows_machine env token).
Proof.
  intros Hk. unfold windows_machine, findMachineByProvisionToken. cbv zeta. case_bool_decide as Ht; [by apply reading_answer|].
  eapply (reading_bind _ (fun o => ∀ m, o = Some m → (∃ s, P s ∧ node_in s (NMachine m)) ∧ carries token (NMachine m))).
  - apply reading_pread; [done|]. intros s Hs m E. apply found_in in E as [Hm Hin]. split; [by exists s|done].
  - intros [m|] Hm; [|by apply reading_answer]. destruct (Hm m eq_refl) as [Hin Hc]. destruct (_ || _) eqn:E; [by apply reading_answer|].
    apply reading_ret. apply orb_false_iff in E as [_ E]. apply negb_false_iff, bool_decide_eq_true in E. done.
Qed.
Lemma windows_node_reads P token : stable P → reading P (found_node P token) (windows_node env token).
Proof.
  intros Hk. unfold windows_node, findVirtualMachineByProvisionToken. cbv zeta.
  case_bool_decide as Ht; [by apply windows_machine_reads|].
  eapply (reading_bind _ (fun o => ∀ v, o = Some v → (∃ s, P s ∧ node_in s (NVm v)) ∧ carries token (NVm v))).
  - apply reading_pread; [done|]. intros s Hs v E. apply found_in in E as [Hv Hin]. split; [by exists s|done].
  - intros [v|] Hv; [|by apply windows_machine_reads]. destruct (Hv v eq_refl) as [Hin Hc]. case_bool_decide as E; [by apply reading_ret|by apply windows_machine_reads].
Qed.

Definition target_of (P : PxeStores → Prop) (token attempt : string) (t : windowsTarget) : Prop :=
  found_node P token (wt_host t) ∧ windowsAttempt (Some (wt_host t)) = attempt ∧ wt_started t = disk_claimed (wt_host t).

Lemma windows_target_reads P token attempt : stable P → reading P (target_of P token attempt) (windows_target env h token attempt).
Proof.
  intros Hk. unfold windows_target. case_match; [by apply reading_answer|]. eapply reading_bind; [by apply windows_node_reads|]. intros n Hn.
  destruct (node_progress n) as [[[[[[current active] started] applied] completed] deadline] imageRef] eqn:Ep.
  destruct (decide (current = attempt)) as [->|]; [|rewrite (bool_decide_eq_false_2 (current = attempt)) by done; by apply reading_answer].
  rewrite (bool_decide_eq_true_2 (attempt = attempt)) by done. cbn [negb]. eapply reading_bind; [apply reading_clock|]. intros now _. destruct (_ && _); [by apply reading_answer|].
  repeat (case_match; try by apply reading_answer). apply reading_ret. split_and!; [done|..]; cbn [wt_host wt_started].
  - destruct n as [v|mm]; cbn [node_progress] in Ep; injection Ep; intros; subst; [done|]. cbn. unfold progress. by destruct (m_Provision mm).
  - destruct n as [v|mm]; cbn [node_progress] in Ep; injection Ep; intros; by subst.
Qed.

(** While the attempt is claimed, what a request finds is claimed. *)
Lemma claimed_target P token attempt t : (∀ s, P s → claimed token attempt s) → target_of P token attempt t → wt_started t = true.
Proof. intros HP (((s & Hs & Hin) & Hc & Ht) & Ha & ->). by apply (HP s Hs (wt_host t)). Qed.

Lemma vm_stage_keeps req now v :
  let v' := vm_stage req now v in
  v_Name v' = v_Name v ∧ PXEInstallType v' = PXEInstallType v ∧ ps_CompletionToken (v_Provisioning v') = ps_CompletionToken (v_Provisioning v)
  ∧ ps_AttemptID (v_Provisioning v') = ps_AttemptID (v_Provisioning v)
  ∧ (disk_claimed (NVm v) = true ∨ wr_Stage req = "install_started" → disk_claimed (NVm v') = true).
Proof.
  cbv zeta. unfold vm_stage. cbv zeta. cbn [ApplyInstallCompleteReport VirtualMachine_node]. unfold vm_ApplyInstallCompleteReport.
  repeat case_bool_decide; split_and!; try done; intros [?|?]; try done; congruence.
Qed.

Lemma started_of m p : m_Provision m = Some p → default "" (pp_Artifacts p !! "windowsInstallStarted") = "true" → disk_claimed (NMachine m) = true.
Proof. intros Hp Ha. cbn. unfold windowsInstallStarted. rewrite Hp. by apply bool_decide_eq_true_2. Qed.
Lemma machine_stage_keeps req now m :
  let m' := machine_stage req now m in
  m_OSPreset m' = m_OSPreset m ∧ (∃ p, m_Provision m' = Some p ∧ pp_CompletionToken p = pp_CompletionToken (progress m) ∧ pp_AttemptID p = pp_AttemptID (progress m))
  ∧ (disk_claimed (NMachine m) = true ∨ wr_Stage req = "install_started" → disk_claimed (NMachine m') = true).
Proof.
  cbv zeta. unfold machine_stage. cbv zeta. cbn [ApplyInstallCompleteReport Machine_node]. unfold machine_ApplyInstallCompleteReport.
  assert (Hd : disk_claimed (NMachine m) = true → default "" (pp_Artifacts (progress m) !! "windowsInstallStarted") = "true").
  { cbn. unfold windowsInstallStarted, progress. destruct (m_Provision m); [|done]. cbn. by intros ?%bool_decide_eq_true. }
  split_and!.
  - by repeat case_match.
  - repeat case_match; by eexists.
  - assert (Hst : default "" (<["windowsInstallStarted" := "true"]> (pp_Artifacts (progress m)) !! "windowsInstallStarted") = "true") by by rewrite lookup_insert_eq.
    intros [Hc|Hs]; [|rewrite bool_decide_eq_true_2 by done; by eapply started_of; [reflexivity|exact Hst]]. specialize (Hd Hc).
    assert (Hat : default "" (<[provisionArtifactImageApplied := "true"]> (<[provisionArtifactImageAppliedAt := RFC3339 now]> (pp_Artifacts (progress m)))
              !! "windowsInstallStarted") = "true") by by rewrite !lookup_insert_ne.
    repeat case_match; (eapply started_of; [reflexivity|]); first [exact Hd|exact Hst|exact Hat].
Qed.

Definition same_attempt (n n' : pxe_node) : Prop :=
  (∀ token, carries token n ↔ carries token n') ∧ PXEInstallType n = PXEInstallType n' ∧ windowsAttempt (Some n) = windowsAttempt (Some n').
(** A record of the store was replaced by one of the same attempt; a claimed disk stays
    claimed, and is claimed by the stage that claims it. *)
Definition replaced (req : windowsStateRequest) (host : pxe_node) (s s' : PxeStores) : Prop :=
  ∃ old new, node_in s old ∧ node_in s' new ∧ (∀ n, node_in s' n → n = new ∨ node_in s n) ∧ same_attempt old host ∧ same_attempt new host
    ∧ (disk_claimed old = true ∨ wr_Stage req = "install_started" → disk_claimed new = true).

Lemma write_stage_spec t req now st st' r : write_stage env t req now st = (st', r) →
  let s := pe_others env (hst_tick st) (hst_store st) in
  ∃ written, r = inl (Ok written) ∧ if written : bool then replaced req (wt_host t) s (hst_store st') else hst_store st' = s.
Proof.
  unfold write_stage. destruct (wt_host t) as [v|m]; unfold pop, op; cbv zeta; set (s := pe_others _ _ _).
  - destruct (vm_stage_keeps req now v) as (Kn & Kt & Ktok & Ka & Kd).
    destruct (VMStore_UpdateProvisioningAttempt _ _ _) as [[m' w]|e] eqn:E; [|by unfold VMStore_UpdateProvisioningAttempt in E; repeat case_match].
    intros [= <- <-]. exists w. split; [done|]. apply UpdateProvisioningAttempt_spec in E. destruct w; [|subst m'; by destruct s].
    destruct E as (Hrow & Hn & _ & _ & ->). exists (NVm v), (NVm (vm_stage req now v)). split_and!.
    + by exists (v_Name v).
    + exists (v_Name v). rewrite Hn. apply lookup_insert_eq.
    + intros [v'|m'] [k Hk]; [|right; by exists k]. change (<[v_Name (vm_stage req now v) := vm_stage req now v]> (px_vms s) !! k = Some v') in Hk. apply lookup_insert_Some in Hk as [[_ <-]|[_ Hk]]; [by left|right; by exists k].
    + done.
    + split_and!; [|done|done]. intros token. cbn. unfold vm_has_token. by rewrite Ktok.
    + exact Kd.
  - destruct (machine_stage_keeps req now m) as (Ko & (q & Kq & Ktok & Ka) & Kd).
    unfold machine_callback. rewrite Kq. destruct (m_Provision m) as [p|] eqn:Ep; [|intros [= <- <-]; exists false; by destruct s].
    destruct (_ || _); [intros [= <- <-]; exists false; by destruct s|]. destruct (db_machines (px_db s) !! m_Name m) as [row|] eqn:Hrow; [|intros [= <- <-]; exists false; by destruct s].
    case_bool_decide as Hsame; [|intros [= <- <-]; exists false; by destruct s]. intros [= <- <-]. exists true. split; [done|].
    destruct Hsame as (Hspec & Hstat & _). assert (Hp : m_Provision row = Some p) by (unfold status_columns in Hstat; congruence).
    assert (Ho : m_OSPreset row = m_OSPreset m) by (unfold spec_columns in Hspec; congruence). match goal with |- context [put_machine _ _ ?x] => set (new := x) end.
    assert (Hnp : m_Provision new = Some q) by done. assert (Hno : m_OSPreset new = m_OSPreset m) by exact Ho.
    exists (NMachine row), (NMachine new). unfold progress in *. rewrite Ep in *. split_and!.
    + by exists (m_Name m).
    + exists (m_Name m). apply lookup_insert_eq.
    + intros [v'|m'] [k Hk]; [right; by exists k|]. change (<[m_Name m := new]> (db_machines (px_db s)) !! k = Some m') in Hk. apply lookup_insert_Some in Hk as [[_ <-]|[_ Hk]]; [by left|right; by exists k].
    + split_and!; cbn; unfold machine_has_token, machine_PXEInstallType, isWindows; by rewrite ?Hp, ?Ep, ?Ho.
    + split_and!; cbn [carries]; [intros token| |]; unfold machine_has_token; rewrite ?Hnp, ?Ep; [by rewrite Ktok| |].
      * cbn. unfold machine_PXEInstallType, isWindows. by rewrite Hno.
      * cbn [windowsAttempt]. by rewrite Hnp, Ep.
    + intros Hd. cbn [disk_claimed] in *. unfold windowsInstallStarted in *. rewrite Hnp. rewrite Kq in Kd. apply Kd. rewrite Hp in Hd. by rewrite Ep.
Qed.

Lemma replaced_keeps token attempt req host s s' : claimed token attempt s → replaced req host s s' → claimed token attempt s'.
Proof.
  intros Hs (old & new & Hold & Hnew & Hall & (Oc & Ot & Oa) & (Nc & Nt & Na) & Hd) n Hn Hc Ht Ha. destruct (Hall n Hn) as [->|Hn']; [|by apply Hs].
  apply Hd. left. apply Hs; [done| |congruence|congruence]. by apply Oc, Nc.
Qed.
Lemma replaced_claims token attempt req host s s' : wr_Stage req = "install_started" → carries token host → unique_token token s' →
  replaced req host s s' → claimed token attempt s'.
Proof.
  intros Hst Hh Hu (old & new & _ & Hnew & _ & _ & (Nc & _) & Hd) n Hn Hc _ _. rewrite (Hu n new Hn Hnew Hc); [by apply Hd; right|]. by apply Nc.
Qed.

Definition state_ok : PxeReply := mkPxeReply 200 (PStatus "ok").

(** What a report of a stage does: it reads, and writes at most one record. *)
Lemma state_run P token attempt body st st' r : stable P → PXEWindowsState env h token attempt body st = (st', r) → P (hst_store st) →
  P (hst_store st') ∧ r ≠ inl state_ok
  ∨ ∃ t req s, body = Some req ∧ P s ∧ target_of P token attempt t ∧ state_refused t req = None ∧ replaced req (wt_host t) s (hst_store st').
Proof.
  intros Hk Hrun Hp. unfold PXEWindowsState in Hrun. apply hd_bind_inv in Hrun as [(st1 & t & H1 & H)|(r0 & H1 & ->)].
  2: { left. split; [|done]. by destruct (windows_target_reads P token attempt Hk _ _ _ H1 Hp). }
  destruct (windows_target_reads P token attempt Hk _ _ _ H1 Hp) as [Hp1 Ht]. specialize (Ht t eq_refl). clear H1.
  destruct body as [req|]; [|injection H as <- <-; by left]. apply must_inv in H as [(_ & -> & ->)|[_ H]]; [by left|].
  destruct (negb _); [destruct (_ && _); injection H as <- <-; by left|]. destruct (state_refused t req) as [r0|] eqn:Er; [injection H as <- <-; by left|].
  apply hd_bind_inv in H as [(st2 & now & [= <- <-] & H)|(r0 & ? & _)]; [|discriminate].
  apply hd_bind_inv in H as [(st3 & x & H3 & H)|(r0 & H3 & _)].
  2: { apply write_stage_spec in H3 as (w & ? & _). discriminate. }
  apply write_stage_spec in H3 as (w & [= ->] & Hw). cbn [hst_tick hst_store] in Hw. set (s := pe_others _ _ _) in Hw. assert (Hs : P s) by by apply Hk.
  apply unless_inv in H as [(e & ? & _)|(w' & [= ->] & H)]; [discriminate|]. apply must_inv in H as [(-> & -> & ->)|[-> H]].
  - left. rewrite Hw. by split.
  - right. injection H as <- <-. by exists t, req, s.
Qed.

Lemma not_spent P token attempt t : (∀ s, P s → claimed token attempt s) → target_of P token attempt t → windows_spent t = true.
Proof. intros HP Ht%claimed_target; [|done]. unfold windows_spent. rewrite Ht. by rewrite orb_true_r. Qed.

(** What a request finds while the claim stays. *)
Lemma found_spent token attempt st st1 t : stays_claimed token attempt (hst_store st) →
  windows_target env h token attempt st = (st1, inl t) → windows_spent t = true.
Proof.
  intros Hs H1. destruct (windows_target_reads _ token attempt (reached_stable (hst_store st)) _ _ _ H1 (rtc_refl _ _)) as [_ Ht].
  by apply (not_spent _ _ _ _ Hs (Ht t eq_refl)).
Qed.
Lemma startnet_refused base token attempt st r : stays_claimed token attempt (hst_store st) →
  (PXEWindowsStartnet env h appendProvisionQuery base token attempt st).2 ≠ inl r.
Proof.
  intros Hc. destruct (PXEWindowsStartnet _ _ _ _ _ _ _) as [st' x] eqn:E. apply hd_bind_inv in E as [(st1 & t & H1 & H)|(r0 & H1 & ->)]; [|done].
  rewrite (found_spent _ _ _ _ _ Hc H1) in H. by injection H as <- <-.
Qed.
Lemma install_refused base token attempt st r : stays_claimed token attempt (hst_store st) →
  (PXEWindowsInstall env h pathEscape appendProvisionQuery jsonMarshal scripts base token attempt st).2 ≠ inl r.
Proof.
  intros Hc. destruct (PXEWindowsInstall _ _ _ _ _ _ _ _ _ _) as [st' x] eqn:E. apply hd_bind_inv in E as [(st1 & t & H1 & H)|(r0 & H1 & ->)]; [|done].
  rewrite (found_spent _ _ _ _ _ Hc H1) in H. by injection H as <- <-.
Qed.
Lemma winpe_refused base target st text : stays_claimed (pxeTargetToken target) (windowsAttempt (tg_node target)) (hst_store st) →
  (renderWindowsBoot env h pathEscape appendProvisionQuery base target st).2 = inl text → text = renderPXELocalBootScript.
Proof.
  intros Hc. destruct (renderWindowsBoot _ _ _ _ _ _ _) as [st' x] eqn:E. cbn. intros ->.
  apply hd_bind_inv in E as [(st1 & t & H1 & H)|(r0 & H1 & ?)]; [|done].
  rewrite (found_spent _ _ _ _ _ Hc H1) in H. by injection H as _ <-.
Qed.

(** C30: the disk of a Windows deployment is claimed once.  When a report that the
    installation starts is accepted, with a token that one record carries, the attempt
    is claimed.  A further request of the attempt, at any later time, that finds the
    claim stored whenever it looks leaves it stored; no second claim is accepted,
    neither the startup command nor the script that writes the disk is handed out, and
    the boot script is the one that boots from the disk.  (A request for something else
    that writes back a record it read before the claim does remove it:
    [settings_take_claim_back].) *)
Theorem windows_disk_claimed_once (token attempt : string) (req : windowsStateRequest) (st st' : HState PxeStores pxe_event)
  (Hstage : wr_Stage req = "install_started")
  (Hrun : PXEWindowsState env h token attempt (Some req) st = (st', inl state_ok))
  (Huniq : unique_token token (hst_store st')) :
  claimed token attempt (hst_store st')
  ∧ ∀ st2, stays_claimed token attempt (hst_store st2) →
      (∀ body, claimed token attempt (hst_store (PXEWindowsState env h token attempt body st2).1))
      ∧ (∀ req', wr_Stage req' = "install_started" → (PXEWindowsState env h token attempt (Some req') st2).2 ≠ inl state_ok)
      ∧ (∀ base r, (PXEWindowsStartnet env h appendProvisionQuery base token attempt st2).2 ≠ inl r)
      ∧ (∀ base r, (PXEWindowsInstall env h pathEscape appendProvisionQuery jsonMarshal scripts base token attempt st2).2 ≠ inl r)
      ∧ (∀ base target text, pxeTargetToken target = token → windowsAttempt (tg_node target) = attempt →
           (renderWindowsBoot env h pathEscape appendProvisionQuery base target st2).2 = inl text → text = renderPXELocalBootScript).
Proof.
  split.
  - destruct (state_run (fun _ => True) _ _ _ _ _ _ ltac:(done) Hrun I) as [[_ ?]|(t & ? & s & [= <-] & _ & ((_ & Hc & _) & _) & _ & Hr)]; [done|].
    by eapply replaced_claims.
  - intros st2 H2. pose proof (reached_stable (hst_store st2)) as Hk. split_and!.
    + intros body. destruct (PXEWindowsState env h token attempt body st2) as [st3 r] eqn:E.
      destruct (state_run _ _ _ _ _ _ _ Hk E (rtc_refl _ _)) as [[Hp _]|(t & ? & s & _ & Hs & _ & _ & Hr)]; [by apply H2|]. eapply replaced_keeps; [by apply H2|exact Hr].
    + intros req' Hs' Hok. destruct (PXEWindowsState env h token attempt (Some req') st2) as [st3 r] eqn:E.
      destruct (state_run _ _ _ _ _ _ _ Hk E (rtc_refl _ _)) as [[_ ?]|(t & ? & s & [= <-] & _ & Ht & Hr & _)]; [done|].
      apply (claimed_target _ _ _ _ H2) in Ht. unfold state_refused in Hr. rewrite Ht, Hs' in Hr. done.
    + intros. by apply startnet_refused.
    + intros. by apply install_refused.
    + intros base target text <- <-. by apply winpe_refused.
Qed.
End claims.

(** ** Runs *)

(** A value in PowerShell's single quotes is read back as it is: a quote is doubled. *)
Fixpoint ps_literal (l : bytes) : option (bytes * bytes) :=
  match l with
  | [] => None
  | c :: l' =>
      if c ==? "'"%char then
        match l' with
        | d :: l'' => if d ==? "'"%char then '(v, rest) ← ps_literal l''; Some ("'"%char :: v, rest) else Some ([], l')
        | [] => Some ([], [])
        end
      else '(v, rest) ← ps_literal l'; Some (c :: v, rest)
  end.

Lemma psQuote_literal (v : string) (rest : bytes) : head rest ≠ Some "'"%char →
  ps_literal (drop 1 (to_bytes (psQuote v) ++ rest)) = Some (to_bytes v, rest).
Proof.
  intros Hr. unfold psQuote, ReplaceByte. rewrite !to_bytes_app, to_of_bytes. change (to_bytes "'") with ["'"%char]. rewrite <- !app_assoc. cbn [app drop]. rewrite drop_0.
  induction (to_bytes v) as [|c l IH].
  - cbn. rewrite bool_decide_eq_true_2 by done. destruct rest as [|d rest]; [done|]. rewrite bool_decide_eq_false_2; [done|]. intros ->. done.
  - change (ps_literal (((if c ==? "'"%char then to_bytes "''" else [c]) ++ (l ≫= (fun c => if c ==? "'"%char then to_bytes "''" else [c]))) ++ ["'"%char] ++ rest)
      = Some (c :: l, rest)).
    destruct (decide (c = "'"%char)) as [->|Hc].
    + rewrite bool_decide_eq_true_2 by done. rewrite <- app_assoc. change (to_bytes "''") with ["'"%char; "'"%char]. cbn [app ps_literal].
      rewrite bool_decide_eq_true_2 by done.
      exact (f_equal (fun o => '(v, rest) ← o; Some ("'"%char :: v, rest)) IH).
    + rewrite bool_decide_eq_false_2 by done. rewrite <- app_assoc. cbn [app ps_literal]. rewrite bool_decide_eq_false_2 by done.
      exact (f_equal (fun o => '(v, rest) ← o; Some (c :: v, rest)) IH).
Qed.

Definition win_manifest : Manifest :=
  mkManifest (Some (mkWindowsImage 1 (mkWindowsPE "wimboot" "BCD" "boot.sdi" "boot.wim"))) "win" "windows" "2025" "amd64" ["uefi"] (mkCapabilities []) (mkCloudInit "" "" "")
    (mkRootArtifact "wim" "" "install.wim" "" 0 "" (mkPartition 0 "" "") None None None)
    (mkTargetKernel "" "" "") [] (mkBuildMetadata "" "" "" "" "" "" "" [] [] []).
Definition win_image : OSImage :=
  mkOSImage "img" "windows" "2025" "amd64" "wim" "upload" "" "" "" 0 "" (Some win_manifest) true "" "" 0 0.
Definition win_handler : PxeHandler := mkPxeHandler (Some {["img" := win_image]}) false false false false.
Definition win_vm : VirtualMachine :=
  let v := sample_vm "vm-1" "tok" in
  v <| v_InstallCfg := Some (mkInstallConfig InstallConfigWindows "") |> <| v_Provisioning := (v_Provisioning v) <| ps_AttemptID := "a1" |> |>.
Definition win_env : PxeEnv :=
  mkPxeEnv (fun _ s => s) (fun _ => 20) (fun _ _ _ => None) (fun _ _ => None) (fun _ => true) (fun _ => None) (fun _ => None).
Definition win_start : HState PxeStores pxe_event := mkHState 0 (mkPxeStores {["vm-1" := win_vm]} (mkDb ∅ ∅) (Hypervisor.mkHvState ∅ ∅ ∅) ∅) [].
Definition claim_request : windowsStateRequest := mkWindowsStateRequest "install_started" "" "" "".
Definition win_claim (st : HState PxeStores pxe_event) := PXEWindowsState win_env win_handler "tok" "a1" (Some claim_request) st.

(** The first claim of a disk is granted. *)
Lemma first_claim_granted : (win_claim win_start).2 = inl state_ok
  ∧ px_vms (hst_store (win_claim win_start).1) = {["vm-1" := vm_stage claim_request 20 win_vm]} ∧ db_machines (px_db (hst_store (win_claim win_start).1)) = ∅.
Proof. split_and!; vm_compute; reflexivity. Qed.

Lemma windows_disk_claimed_once_witness :
  (win_claim (win_claim win_start).1).2 ≠ inl state_ok.
Proof.
  destruct first_claim_granted as (Hok & Hvms & Hms). destruct (win_claim win_start) as [st' r] eqn:E. cbn in Hok, Hvms, Hms. subst r.
  assert (Hu : unique_token "tok" (hst_store st')).
  { assert (Hone : ∀ n, node_in (hst_store st') n → n = NVm (vm_stage claim_request 20 win_vm)).
    { intros [v|m] [k Hk]; [rewrite Hvms in Hk; by apply lookup_singleton_Some in Hk as [_ <-]|by rewrite Hms in Hk]. }
    intros n1 n2 H1 H2 _ _. by rewrite (Hone _ H1), (Hone _ H2). }
  destruct (windows_disk_claimed_once win_env win_handler (fun p => p) (fun u _ _ => u) (fun _ => Ok []) (mkWindowsScripts "" "" "")
              "tok" "a1" claim_request win_start st' eq_refl E Hu) as [Hc Hall].
  apply (Hall st'); [|reflexivity]. intros s Hs. cut (s = hst_store st'); [intros ->; exact Hc|]. clear -Hs.
  induction Hs as [s|s1 s2 s3 [k Hk] _ IH]; [reflexivity|]. rewrite IH. exact Hk.
Defined.
