(* ===== verification/PxeBoot.v ===== *)
(** * pxehttp/pxe.go: the boot script of a node

    The script a node that boots over the network is given: from its own disk, unless
    it is to be installed. *)
From S2P Require Import Prelude GoStrings GoPath GoTime Handler Resource Store OsImage Machine Vm VmStore BareMetal PxeCallback Curtin PxeInventory PxeTarget Windows.

(** request_helpers.go *)
Definition resolvePXEBaseURL (pxeHTTPBaseURL host : string) : string :=
  if TrimSpace pxeHTTPBaseURL !=? "" then TrimRight_slash pxeHTTPBaseURL
  else "http://" +:+ (if TrimSpace host ==? "" then "127.0.0.1:5392" else TrimSpace host) +:+ "/pxe".

Section boot.
Context (env : PxeEnv) (h : PxeHandler).
Context (pathEscape : string → string) (appendProvisionQuery : string → string → string → string) (urlToken : string → string).
(** The value of GOMI_PXE_SERIAL_CONSOLE. *)
Context (serialEnv : string).
Local Abbreviation H := (Hd PxeStores pxe_event PxeReply).

Definition record_marker (target : pxeTarget) (installScript : bool) : H unit :=
  match tg_node target with Some (NMachine m) => recordPXEBootScriptMarker env m installScript | _ => mret tt end.

Definition text_reply (text : string) : PxeReply := mkPxeReply 200 (PText text).

(** The script of an installation that is not one of Windows. *)
Definition install_script (base rawMAC : string) (target : pxeTarget) : string :=
  renderPXEInstallScriptWithVariant urlToken serialEnv base (tg_installType target) (normalizeMAC rawMAC)
    (buildPXEInstallCompleteURL base (pxeTargetToken target) (tg_installType target)) (tg_variant target) (tg_node target).

Definition PXEBootScript (base rawMAC : string) : H PxeReply :=
  '(target, provisioning) ← resolvePXETarget env h rawMAC;
  if negb provisioning then _ ← record_marker target false; mret (text_reply renderPXELocalBootScript)
  else if tg_installType target ==? InstallConfigWindows then
    text ← renderWindowsBoot env h pathEscape appendProvisionQuery base target;
    _ ← record_marker target true;
    mret (text_reply text)
  else
    let text := install_script base rawMAC target in
    _ ← record_marker target true;
    mret (text_reply text).

(** ** What is installed *)

Definition has_mac (rawMAC : string) (n : pxe_node) : bool :=
  match n with
  | NVm v => vmHasMAC v (normalizeMAC rawMAC) (macToken rawMAC)
  | NMachine m => machineHasMAC m (normalizeMAC rawMAC) (macToken rawMAC)
  end.
(** The disk of the node is not to be written again in this attempt. *)
Definition disk_written (n : pxe_node) : bool :=
  match n with NVm v => vm_windows_taken v | NMachine m => machine_windows_taken m || machineImageApplied m end.

(** A store the request saw: that of its start, after other requests. *)
Definition seen_from (s0 s : PxeStores) : Prop := steps (pe_others env) (fun _ _ => False) s0 s.
Lemma seen_stable s0 : stable env (seen_from s0).
Proof. intros k s Hs. eapply steps_trans; [exact Hs|]. apply (steps_others _ _ k), steps_refl. Qed.

(** A node to install: registered with the address, being provisioned, its disk not
    written yet. *)
Definition to_install (s0 : PxeStores) (rawMAC : string) (n : pxe_node) : Prop :=
  (∃ s, seen_from s0 s ∧ node_in s n) ∧ has_mac rawMAC n = true ∧ IsProvisioningActive n = true ∧ disk_written n = false.

Lemma machine_or_none_spec s0 rawMAC : reading (seen_from s0) (fun r => ∀ target, r = (target, true) → ∃ n, tg_node target = Some n ∧ to_install s0 rawMAC n)
  (machine_or_none env h rawMAC).
Proof.
  unfold machine_or_none, findMachineByMAC. destruct (no_mac rawMAC); [apply reading_ret; by intros ? [=]|].
  eapply (reading_bind _ (fun x => ∀ m, fst x = Some m → (∃ s, seen_from s0 s ∧ node_in s (NMachine m)) ∧ has_mac rawMAC (NMachine m) = true)).
  { eapply (reading_bind _ (fun x => ∀ m, x = Some m → (∃ s, seen_from s0 s ∧ node_in s (NMachine m)) ∧ has_mac rawMAC (NMachine m) = true));
      [|intros x Hx; by apply reading_ret]. apply reading_pread; [apply seen_stable|]. intros s Hs m E. apply found_in in E as [? ?]. split; [by exists s|done]. }
  intros [[m|] b] Hm; apply reading_ret; [|by intros ? [=]]. destruct (Hm m eq_refl) as [Hin Hmac]. destruct (IsProvisioningActive m) eqn:Ea; [|by intros ? [=]].
  unfold machine_target. cbv zeta. destruct (machine_windows_taken m) eqn:Ew; [by intros ? [=]|]. destruct (machineImageApplied m) eqn:Ei; [by intros ? [=]|].
  intros target [= <-]. exists (NMachine m). split; [done|]. split_and!; [done|done|done|]. cbn. by rewrite Ew, Ei.
Qed.

Lemma resolve_spec s0 rawMAC : reading (seen_from s0)
  (fun r => ∀ target, r = (target, true) → no_mac rawMAC = true ∧ target = bare_target None InstallConfigPreseed ∨ ∃ n, tg_node target = Some n ∧ to_install s0 rawMAC n)
  (resolvePXETarget env h rawMAC).
Proof.
  unfold resolvePXETarget, findVirtualMachineByMAC. destruct (no_mac rawMAC); [apply reading_ret; intros ? [= <-]; by left|].
  assert (Hmach : reading (seen_from s0) (fun r => ∀ target, r = (target, true) → false = true ∧ target = bare_target None InstallConfigPreseed
            ∨ ∃ n, tg_node target = Some n ∧ to_install s0 rawMAC n) (machine_or_none env h rawMAC)).
  { intros st st' r Hrun Hs. destruct (machine_or_none_spec _ _ _ _ _ Hrun Hs) as [? Hr]. split; [done|]. intros a Ha target Ht. right. by eapply Hr. }
  eapply (reading_bind _ (fun x => ∀ v, fst x = Some v → (∃ s, seen_from s0 s ∧ node_in s (NVm v)) ∧ has_mac rawMAC (NVm v) = true)).
  { eapply (reading_bind _ (fun x => ∀ v, x = Some v → (∃ s, seen_from s0 s ∧ node_in s (NVm v)) ∧ has_mac rawMAC (NVm v) = true));
      [|intros x Hx; by apply reading_ret]. apply reading_pread; [apply seen_stable|]. intros s Hs v E. apply found_in in E as [? ?]. split; [by exists s|done]. }
  intros [[v|] b] Hv; [|exact Hmach]. destruct (IsProvisioningActive v) eqn:Ea; [|exact Hmach]. destruct (Hv v eq_refl) as [Hin Hmac]. apply reading_ret.
  unfold vm_target. destruct (vm_windows_taken v) eqn:Ew; [by intros ? [=]|]. intros target [= <-]. right. exists (NVm v). split; [done|]. by split_and!.
Qed.

(** Over the network only a node that is to be installed is installed.  The boot
    script served for an address boots from the disk, unless a node of the inventory
    has the address, is being provisioned, and its disk was not written in this attempt
    yet; a request that names no address at all is given the installer of Debian. *)
Lemma installer_only_for_provisioning (base rawMAC text : string) (st st' : HState PxeStores pxe_event)
  (Hrun : PXEBootScript base rawMAC st = (st', inl (text_reply text))) :
  text = renderPXELocalBootScript
  ∨ no_mac rawMAC = true ∧ text = install_script base rawMAC (bare_target None InstallConfigPreseed)
  ∨ ∃ n, to_install (hst_store st) rawMAC n.
Proof.
  unfold PXEBootScript in Hrun. apply hd_bind_inv in Hrun as [(st1 & [target provisioning] & H1 & H)|(r0 & H1 & ?)]; [|done].
  destruct (resolve_spec (hst_store st) rawMAC _ _ _ H1 (steps_refl (pe_others env) _ _)) as [_ Ht]. specialize (Ht _ eq_refl).
  assert (Hmarker : ∀ b x st2, (_ ← record_marker target b; mret (text_reply x)) st2 = (st', inl (text_reply text)) → text = x).
  { intros b x st2 Hm. apply hd_bind_inv in Hm as [(st3 & u & _ & Hm)|(r0 & _ & ?)]; [|done]. by injection Hm as _ <-. }
  destruct provisioning; cbn [negb] in H; [|left; exact (Hmarker _ _ _ H)]. destruct (Ht _ eq_refl) as [[Hno ->]|(n & Hn & Hi)]; [|right; right; by exists n].
  right; left. split; [done|]. exact (Hmarker _ _ _ H).
Qed.
End boot.

(** ** Runs *)

Definition boot_vm (active : bool) : VirtualMachine :=
  let v := sample_vm "vm-1" "tok" in
  v <| v_Network := [mkNetworkInterface "eth0" "52-54-00-AA-BB-01" "br0" "" ""] |> <| v_Provisioning := (v_Provisioning v) <| ps_Active := active |> |>.
Definition boot_start (active : bool) : HState PxeStores pxe_event :=
  mkHState 0 (mkPxeStores {["vm-1" := boot_vm active]} (mkDb ∅ ∅) (Hypervisor.mkHvState ∅ ∅ ∅) ∅) [].
Definition boot_run (mac : string) (active : bool) :=
  PXEBootScript win_env win_handler (fun p => p) (fun u _ _ => u) (fun u => u) "" "http://gomi/pxe" mac (boot_start active).
Definition boot_text (mac : string) (active : bool) : string :=
  match (boot_run mac active).2 with inl r => match pr_Body r with PText t => t | _ => "" end | inr _ => "" end.

(** A node being provisioned is installed, found by its address in another notation;
    when it is provisioned no more, and for an address nobody has, the disk boots. *)
Lemma boot_texts : (boot_run "525400aabb01" true).2 = inl (text_reply (boot_text "525400aabb01" true))
  ∧ boot_text "525400aabb01" true ≠ renderPXELocalBootScript
  ∧ boot_text "525400aabb01" false = renderPXELocalBootScript ∧ boot_text "525400aabb02" true = renderPXELocalBootScript.
Proof. split_and!; vm_compute; try reflexivity. discriminate. Qed.

Lemma installer_only_for_provisioning_witness : ∃ n, to_install win_env (hst_store (boot_start true)) "525400aabb01" n.
Proof.
  destruct boot_texts as (Hr & Hne & _). destruct (boot_run "525400aabb01" true) as [st' r] eqn:E. cbn in Hr. subst r.
  destruct (installer_only_for_provisioning win_env win_handler (fun p => p) (fun u _ _ => u) (fun u => u) "" "http://gomi/pxe" "525400aabb01"
              (boot_text "525400aabb01" true) (boot_start true) st' E) as [H|[[H _]|H]].
  - by destruct (Hne H).
  - discriminate H.
  - exact H.
Defined.
