(* ===== verification/MachineApi.v ===== *)
(** * infra/api: the ordinary requests for machines

    machine.go, machine_redeploy.go, machine_power.go, custom_methods.go and cascade.go,
    and the guard that keeps them away from hosts of bare-metal management
    (baremetal.go).  Machines are the rows of BareMetal.v; every read and every write of
    a store is a step of its own, between which other requests run. *)
From S2P Require Import Prelude GoStrings GoPath GoTime Handler Resource Power Store OsImage Machine Hypervisor Vm VmStore BareMetal BareMetalApi PxeCallback ApiResource Auth.

(** ** machine_response.go *)

Record OSPresetResponse := mkOSPresetResponse { opr_Family : string; opr_Version : string; opr_ImageRef : string; opr_InstallConfig : gmap string string }.
Record LoginUserResponse := mkLoginUserResponse { lur_Username : string; lur_PasswordConfigured : bool }.
Record IPMIConfigResponse := mkIPMIConfigResponse { ir_Host : string; ir_Username : string; ir_Interface : string; ir_PasswordConfigured : bool }.
Record WebhookConfigResponse := mkWebhookConfigResponse {
  wr_PowerOnURL : string; wr_PowerOffURL : string; wr_StatusURL : string; wr_BootOrderURL : string; wr_HeadersConfigured : bool; wr_BodyExtrasConfigured : bool }.
Record WoLConfigResponse := mkWoLConfigResponse {
  lr_WakeMAC : string; lr_BroadcastIP : string; lr_Port : Z; lr_ShutdownTarget : string; lr_ShutdownUDPPort : Z; lr_TokenTTLSeconds : Z;
  lr_HMACSecretConfigured : bool; lr_TokenConfigured : bool }.
Record PowerConfigResponse := mkPowerConfigResponse {
  pr_Type : PowerType; pr_IPMI : option IPMIConfigResponse; pr_Webhook : option WebhookConfigResponse; pr_WoL : option WoLConfigResponse; pr_Manual : option unit }.
Record ProvisionProgressResponse := mkProvisionProgressResponse {
  ppr_Active : bool; ppr_AttemptID : string; ppr_InventoryID : string; ppr_StartedAt : option Time; ppr_DeadlineAt : option Time; ppr_FinishedAt : option Time;
  ppr_CompletedAt : option Time; ppr_Trigger : string; ppr_RequestedBy : string; ppr_Message : string; ppr_Artifacts : gmap string string;
  ppr_CompletionSource : string; ppr_LastSignalAt : option Time; ppr_CurtinConfig : bytes; ppr_FailureReason : string; ppr_LogURL : string;
  ppr_Timings : list ProvisionTiming }.
Record MachineResponse := mkMachineResponse {
  mr_Name : string; mr_MachineID : string; mr_Hostname : string; mr_MAC : string; mr_IP : string; mr_Arch : string; mr_Firmware : Firmware;
  mr_Power : PowerConfigResponse; mr_Network : NetworkConfig; mr_OSPreset : OSPresetResponse; mr_TargetDisk : string; mr_CloudInitRef : string;
  mr_CloudInitRefs : list string; mr_IPAssignment : IPAssignmentMode; mr_SubnetRef : string; mr_Role : string; mr_BridgeName : string; mr_SSHKeyRefs : list string;
  mr_LoginUser : option LoginUserResponse; mr_Phase : string; mr_Provision : option ProvisionProgressResponse; mr_LastPowerAction : string;
  mr_LastDeployedCloudInitRef : string; mr_LastError : string; mr_PowerState : PowerState; mr_PowerStateAt : option Time; mr_CreatedAt : Time; mr_UpdatedAt : Time }.

Definition configured (s : string) : bool := TrimSpace s !=? "".
Definition osPresetResponse (p : OSPreset) : OSPresetResponse :=
  mkOSPresetResponse (os_Family p) (os_Version p) (resourceName "osImages" (os_ImageRef p)) (os_InstallConfig p).
Definition loginUserResponse (u : option Machine.LoginUserSpec) : option LoginUserResponse :=
  match u with
  | Some u => if configured (lu_Username u) then Some (mkLoginUserResponse (lu_Username u) (configured (lu_Password u))) else None
  | None => None
  end.

Definition ProvisionArtifactHypervisorRegistrationToken : string := "hypervisorRegistrationToken".
Definition ProvisionArtifactHypervisorRegistrationTokenExpiresAt : string := "hypervisorRegistrationTokenExpiresAt".
Definition provisionArtifactsResponse (artifacts : gmap string string) : gmap string string :=
  delete ProvisionArtifactHypervisorRegistrationToken (delete ProvisionArtifactHypervisorRegistrationTokenExpiresAt artifacts).
Definition provisionProgressResponse (p : ProvisionProgress) : ProvisionProgressResponse :=
  mkProvisionProgressResponse (pp_Active p) (pp_AttemptID p) (pp_InventoryID p) (pp_StartedAt p) (pp_DeadlineAt p) (pp_FinishedAt p) (pp_CompletedAt p)
    (pp_Trigger p) (pp_RequestedBy p) (pp_Message p) (provisionArtifactsResponse (pp_Artifacts p)) (pp_CompletionSource p) (pp_LastSignalAt p)
    (pp_CurtinConfig p) (pp_FailureReason p) (pp_LogURL p) (pp_Timings p).
Definition powerConfigResponse (cfg : PowerConfig) : PowerConfigResponse :=
  mkPowerConfigResponse (pc_Type cfg)
    ((fun i => mkIPMIConfigResponse (ipmi_Host i) (ipmi_Username i) (ipmi_Interface i) (configured (ipmi_Password i))) <$> pc_IPMI cfg)
    ((fun w => mkWebhookConfigResponse (wh_PowerOnURL w) (wh_PowerOffURL w) (wh_StatusURL w) (wh_BootOrderURL w)
                 (bool_decide (wh_Headers w ≠ ∅)) (bool_decide (wh_BodyExtras w ≠ ∅))) <$> pc_Webhook cfg)
    ((fun w => mkWoLConfigResponse (wol_WakeMAC w) (wol_BroadcastIP w) (wol_Port w) (wol_ShutdownTarget w) (wol_ShutdownUDPPort w) (wol_TokenTTLSeconds w)
                 (configured (wol_HMACSecret w)) (configured (wol_Token w))) <$> pc_WoL cfg)
    (pc_Manual cfg).
Definition machineResponse (m : Machine) : MachineResponse :=
  mkMachineResponse (resourceName "machines" (m_Name m)) (m_Name m) (m_Hostname m) (m_MAC m) (m_IP m) (m_Arch m) (m_Firmware m)
    (powerConfigResponse (m_Power m)) (m_Network m) (osPresetResponse (m_OSPreset m)) (m_TargetDisk m) (resourceName "cloudInitTemplates" (m_CloudInitRef m))
    (resourceNames "cloudInitTemplates" (m_CloudInitRefs m)) (m_IPAssignment m) (resourceName "subnets" (m_SubnetRef m)) (m_Role m) (m_BridgeName m)
    (resourceNames "sshKeys" (m_SSHKeyRefs m)) (loginUserResponse (m_LoginUser m)) (m_Phase m) (provisionProgressResponse <$> m_Provision m)
    (m_LastPowerAction m) (resourceName "cloudInitTemplates" (m_LastDeployedCloudInitRef m)) (m_LastError m) (m_PowerState m) (m_PowerStateAt m)
    (m_CreatedAt m) (m_UpdatedAt m).

(** ** Requests *)

Record machineSpecRequest := mkMachineSpecRequest {
  sr_Hostname : string; sr_MAC : string; sr_IP : string; sr_Arch : string; sr_Firmware : Firmware; sr_Power : PowerConfig; sr_Network : NetworkConfig;
  sr_OSPreset : OSPreset; sr_TargetDisk : string; sr_CloudInitRef : string; sr_CloudInitRefs : list string; sr_IPAssignment : IPAssignmentMode;
  sr_SubnetRef : string; sr_Role : string; sr_BridgeName : string; sr_SSHKeyRefs : list string; sr_LoginUser : option Machine.LoginUserSpec }.

Definition normalizeMachineRequestRefs (m : Machine) : Machine :=
  m <| m_Name := resourceID "machines" (m_Name m) |>
    <| m_OSPreset := mkOSPreset (os_Family (m_OSPreset m)) (os_Version (m_OSPreset m)) (resourceID "osImages" (os_ImageRef (m_OSPreset m))) (os_InstallConfig (m_OSPreset m)) |>
    <| m_CloudInitRef := resourceID "cloudInitTemplates" (m_CloudInitRef m) |> <| m_CloudInitRefs := resourceIDs "cloudInitTemplates" (m_CloudInitRefs m) |>
    <| m_SubnetRef := resourceID "subnets" (m_SubnetRef m) |> <| m_SSHKeyRefs := resourceIDs "sshKeys" (m_SSHKeyRefs m) |>.

Definition toMachine (r : machineSpecRequest) (id : string) : Machine :=
  normalizeMachineRequestRefs
    (mkMachine None id (sr_Hostname r) (sr_MAC r) (sr_IP r) (sr_Arch r) (sr_Firmware r) (sr_Power r) (sr_Network r) (sr_OSPreset r) (sr_TargetDisk r)
       (sr_CloudInitRef r) (sr_CloudInitRefs r) (sr_IPAssignment r) (sr_SubnetRef r) (sr_Role r) (sr_BridgeName r) (sr_SSHKeyRefs r) (sr_LoginUser r)
       "" None "" "" "" "" None 0 0).

(** A body: the form with an identifier and a specification, a machine itself, or
    something that decodes as neither. *)
Inductive create_body : Type := WithSpec (machineID : string) (spec : machineSpecRequest) | WholeMachine (m : Machine) | BadBody.
Definition bindCreateMachine (param : string) (body : create_body) : result Machine :=
  match body with
  | WithSpec machineID spec =>
      let id := if TrimSpace param ==? "" then TrimSpace machineID else TrimSpace param in
      if id ==? "" then Err (ErrNew "machineId is required") else Ok (toMachine spec (resourceID "machines" id))
  | WholeMachine m => Ok (normalizeMachineRequestRefs m)
  | BadBody => Err (ErrNew "invalid body")
  end.

(** [or_else v d]: [d] when [v] is blank, or the port or time is 0. *)
Definition or_blank (v d : string) : string := if TrimSpace v ==? "" then d else v.
Definition or_zero (v d : Z) : Z := if v =? 0 then d else v.

(** Whether the maps of a webhook were absent from the request. *)
Record nil_maps := mkNilMaps { nm_Headers : bool; nm_BodyExtras : bool }.

Definition mergePowerConfigDefaults (nils : nil_maps) (current next : PowerConfig) : PowerConfig :=
  if pc_Type current !=? pc_Type next then next
  else if pc_Type next ==? PowerTypeWoL then
    match pc_WoL current, pc_WoL next with
    | Some c, Some w =>
        next <| pc_WoL := Some (mkWoLConfig (or_blank (wol_WakeMAC w) (wol_WakeMAC c)) (or_blank (wol_BroadcastIP w) (wol_BroadcastIP c)) (or_zero (wol_Port w) (wol_Port c))
                  (or_blank (wol_ShutdownTarget w) (wol_ShutdownTarget c)) (or_zero (wol_ShutdownUDPPort w) (wol_ShutdownUDPPort c))
                  (or_blank (wol_HMACSecret w) (wol_HMACSecret c)) (or_blank (wol_Token w) (wol_Token c)) (or_zero (wol_TokenTTLSeconds w) (wol_TokenTTLSeconds c))) |>
    | _, _ => next
    end
  else if pc_Type next ==? PowerTypeIPMI then
    match pc_IPMI current, pc_IPMI next with
    | Some c, Some i => next <| pc_IPMI := Some (mkIPMIConfig (ipmi_Host i) (ipmi_Username i) (or_blank (ipmi_Password i) (ipmi_Password c)) (ipmi_Interface i)) |>
    | _, _ => next
    end
  else if pc_Type next ==? PowerTypeWebhook then
    match pc_Webhook current, pc_Webhook next with
    | Some c, Some w =>
        next <| pc_Webhook := Some (mkWebhookConfig (wh_PowerOnURL w) (wh_PowerOffURL w) (wh_StatusURL w) (wh_BootOrderURL w)
                  (if nm_Headers nils then wh_Headers c else wh_Headers w) (if nm_BodyExtras nils then wh_BodyExtras c else wh_BodyExtras w)) |>
    | _, _ => next
    end
  else next.

(** The fields of a redeploy request; a blank body leaves them all out. *)
Record redeployReq := mkRedeployReq {
  rd_Confirm : string; rd_Hostname : option string; rd_MAC : option string; rd_Arch : option string; rd_Firmware : option string;
  rd_Power : option (PowerConfig * nil_maps); rd_OSPreset : option string; rd_TargetDisk : option string; rd_Network : option string;
  rd_CloudInitRef : option string; rd_CloudInitRefs : option (list string); rd_SubnetRef : option string; rd_IPAssignment : option string; rd_IP : option string;
  rd_Role : option string; rd_BridgeName : option string; rd_SSHKeyRefs : option (list string); rd_LoginUser : option Machine.LoginUserSpec }.
Definition no_redeployReq : redeployReq :=
  mkRedeployReq "" None None None None None None None None None None None None None None None None None.
Definition normalizeMachineRedeployRequestRefs (r : redeployReq) : redeployReq :=
  mkRedeployReq (rd_Confirm r) (rd_Hostname r) (rd_MAC r) (rd_Arch r) (rd_Firmware r) (rd_Power r) (resourceID "osImages" <$> rd_OSPreset r) (rd_TargetDisk r)
    (rd_Network r) (resourceID "cloudInitTemplates" <$> rd_CloudInitRef r) (resourceIDs "cloudInitTemplates" <$> rd_CloudInitRefs r)
    (resourceID "subnets" <$> rd_SubnetRef r) (rd_IPAssignment r) (rd_IP r) (rd_Role r) (rd_BridgeName r) (resourceIDs "sshKeys" <$> rd_SSHKeyRefs r) (rd_LoginUser r).
(** Whether the request changes anything. *)
Definition changes_any (r : redeployReq) : bool :=
  bool_decide (is_Some (rd_Hostname r) ∨ is_Some (rd_MAC r) ∨ is_Some (rd_Arch r) ∨ is_Some (rd_Firmware r) ∨ is_Some (rd_Power r) ∨ is_Some (rd_OSPreset r)
    ∨ is_Some (rd_TargetDisk r) ∨ is_Some (rd_Network r) ∨ is_Some (rd_CloudInitRef r) ∨ is_Some (rd_CloudInitRefs r) ∨ is_Some (rd_SubnetRef r)
    ∨ is_Some (rd_IPAssignment r) ∨ is_Some (rd_IP r) ∨ is_Some (rd_Role r) ∨ is_Some (rd_BridgeName r) ∨ is_Some (rd_SSHKeyRefs r) ∨ is_Some (rd_LoginUser r)).

(** ** The server *)

(** The services that are there, the images, the timeout of an attempt. *)
Record MachineServer := mkMachineServer {
  ms_bareMetal : bool; ms_osimages : option (gmap string OSImage); ms_hypervisors : bool; ms_vms : bool; ms_provisionTimeout : Duration }.

(** The surroundings, by the number of the step: the other requests, the clock, the
    random source, which subnets there are, and what the power executor answers. *)
Record MachineEnv := mkMachineEnv {
  me_others : nat → PxeStores → PxeStores; me_clock : nat → Time; me_read : nat → nat → nat → result bytes; me_subnet : nat → string → bool;
  me_power : nat → MachineInfo → Action → result string }.

Inductive machine_body : Type :=
| BError (msg : string) | BMachine (m : MachineResponse) | BMachines (l : list MachineResponse) (nextPageToken : string) (totalSize : Z)
| BStatus (status requestID : string) | BBare (r : Reply) | BNone.
Record MachineReply := mkMachineReply { my_Status : Z; my_Body : machine_body }.
Definition m_error (status : Z) (msg : string) : MachineReply := mkMachineReply status (BError msg).
Definition m_errorErr (status : Z) (e : error) : MachineReply := m_error status (Error e).
Definition m_missing (e : error) : MachineReply := if errors_Is e ErrNotFound then m_error 404 "not found" else m_errorErr 500 e.

(** What a handler does outside the stores: audit entries, a power cycle it starts, an
    action of the power executor. *)
Inductive machine_event : Type := MAudit (a : AuditCall) | MCycle (c : PowerCycle) | MPower (mi : MachineInfo) (action : Action).

(** sql/machine_store.go: Insert and Delete.  The row of a host refers to its machine. *)
Definition machine_insert (db : Db) (m : Machine) : result Db :=
  match db_machines db !! m_Name m with Some _ => Err ErrAlreadyExists | None => Ok (put_machine db (m_Name m) m) end.
Definition machine_delete (db : Db) (name : string) : result Db :=
  match db_machines db !! name with
  | None => Err ErrNotFound
  | Some _ => match db_hosts db !! name with
              | Some _ => Err (ErrNew "FOREIGN KEY constraint failed")
              | None => Ok (mkDb (db_hosts db) (delete name (db_machines db)))
              end
  end.

(** The filters of a list request. *)
Record MachineFilter := mkMachineFilter { mf_phase : string; mf_role : string; mf_subnetRef : string; mf_ipAssignment : string }.
Definition machineFilterActive (f : MachineFilter) : bool :=
  (stringFilter (mf_phase f) !=? "") || (stringFilter (mf_role f) !=? "") || (stringFilter (mf_subnetRef f) !=? "") || (stringFilter (mf_ipAssignment f) !=? "").
Definition filterMachines (f : MachineFilter) (l : list Machine) : list Machine :=
  let phase := stringFilter (mf_phase f) in
  let role := stringFilter (mf_role f) in
  let subnetRef := resourceID "subnets" (stringFilter (mf_subnetRef f)) in
  let ipAssignment := stringFilter (mf_ipAssignment f) in
  if (phase ==? "") && (role ==? "") && (subnetRef ==? "") && (ipAssignment ==? "") then l
  else List.filter (fun m => matchFilter (m_Phase m) phase && matchFilter (m_Role m) role && matchFilter (m_SubnetRef m) subnetRef
                             && matchFilter (m_IPAssignment m) ipAssignment) l.

Definition validateWindowsMachineImage (img : OSImage) : result unit :=
  _ ← ValidateOSImage img; ensure (oi_Ready img) (ErrNew "Windows OS image assets are not ready").

Section handlers.
Context (env : MachineEnv) (sv : MachineServer).
Local Abbreviation H := (Hd PxeStores machine_event MachineReply).

Definition mop {A} (f : PxeStores → PxeStores * A) : H A := op (me_others env) f.
Definition mread {A} (f : PxeStores → A) : H A := op (me_others env) (fun s => (s, f s)).
Definition now : H Time := k ← tick; mret (me_clock env k).
Definition audit (name action result msg : string) (details : gmap string string) : H unit := emit (MAudit (mkAuditCall name action result msg details)).
Definition audited (name action msg : string) : H unit := audit name action "success" msg ∅.

Definition get_machine (name : string) : H (result Machine) := mread (fun s => mem_get (db_machines (px_db s)) name).
Definition db_write (f : Db → result Db) : H (result unit) :=
  mop (fun s => match f (px_db s) with Ok db => (s <| px_db := db |>, Ok tt) | Err e => (s, Err e) end).
Definition written (m : Machine) (r : result unit) : result Machine := match r with Ok _ => Ok m | Err e => Err e end.
Definition get_hypervisor (name : string) : H (result Hypervisor) := mread (fun s => mem_get (hs_store (px_hypervisors s)) name).

(** *** machine/service.go, statement by statement *)

Definition svc_CreateExclusive (m : Machine) : H (result Machine) :=
  k ← tick;
  match Machine.prepareForCreate (me_read env k 0) (me_read env k 1) (me_clock env k) m with
  | Err e => mret (Err e)
  | Ok m => r ← db_write (fun db => machine_insert db m); mret (written m r)
  end.
Definition svc_UpdateSettings (name : string) (cfg : PowerConfig) : H (result Machine) :=
  m ← get_machine name;
  match m with
  | Err e => mret (Err e)
  | Ok m => k ← tick;
            match FillWoLDefaults (me_read env k 0) (me_read env k 1) cfg with
            | Err e => mret (Err e)
            | Ok cfg => let m := m <| m_Power := cfg |> <| m_UpdatedAt := me_clock env k |> in
                        r ← db_write (fun db => machine_upsert db m); mret (written m r)
            end
  end.
Definition svc_UpdateNetwork (name ip : string) (ipAssignment : IPAssignmentMode) (subnetRef : string) (network : NetworkConfig) : H (result Machine) :=
  m ← get_machine name;
  match m with
  | Err e => mret (Err e)
  | Ok m => if (ipAssignment !=? "") && (ipAssignment !=? m_IPAssignment m)
            then mret (Err (ErrNew "ipAssignment cannot be changed via network update; use redeploy instead"))
            else t ← now;
                 let m := m <| m_IP := ip |> <| m_SubnetRef := subnetRef |> <| m_Network := network |> <| m_UpdatedAt := t |> in
                 r ← db_write (fun db => machine_upsert db m); mret (written m r)
  end.
Definition svc_Reinstall (name actor : string) (opts : option ReinstallOptions) : H (result Machine) :=
  m ← get_machine name;
  match m with
  | Err e => mret (Err e)
  | Ok m => k ← tick;
            match PrepareReinstall (me_read env k 0) (me_read env k 1) (me_read env k 2) (me_read env k 3) (me_clock env k) m actor opts (ms_provisionTimeout sv) with
            | Err e => mret (Err e)
            | Ok m => r ← db_write (fun db => machine_upsert db m); mret (written m r)
            end
  end.

(** *** machine_redeploy.go: helpers *)

Definition resolveOSPreset (m : Machine) : result Machine :=
  let ref := TrimSpace (os_ImageRef (m_OSPreset m)) in
  if ref ==? "" then Ok m else
  match ms_osimages sv with
  | None => Err (ErrNew "os image service not available")
  | Some images =>
      match images !! ref with
      | None => Err (ErrNew ("referenced os image not found: " +:+ ref))
      | Some img =>
          _ ← (if EqualFold (oi_OSFamily img) "windows" then validateWindowsMachineImage img else Ok tt);
          if negb (SupportsDeploymentTarget img DeploymentTargetBareMetal)
          then Err (ErrNew ("referenced os image " +:+ ref +:+ " does not support bare-metal deployment"))
          else Ok (m <| m_OSPreset := mkOSPreset (oi_OSFamily img) (oi_OSVersion img) (os_ImageRef (m_OSPreset m)) (os_InstallConfig (m_OSPreset m)) |>)
      end
  end.

(** The machine and whether it was given a token. *)
Definition attachHypervisorRegistrationToken (m : Machine) : H (result (Machine * bool)) :=
  match m_Provision m with
  | Some p =>
      if (m_Role m !=? Machine.RoleHypervisor) || negb (ms_hypervisors sv) then mret (Ok (m, false)) else
      k ← tick;
      r ← mop (fun s => match CreateToken (me_read env k 4) (px_hypervisors s) (me_clock env k) with
                        | Ok (st, t) => (s <| px_hypervisors := st |>, Ok t)
                        | Err e => (s, Err e)
                        end);
      mret match r with
           | Err e => Err (ErrWrap "create hypervisor registration token: " e "")
           | Ok t => Ok (m <| m_Provision := Some (p <| pp_Artifacts :=
                           <[ProvisionArtifactHypervisorRegistrationToken := rt_Token t]>
                             (<[ProvisionArtifactHypervisorRegistrationTokenExpiresAt := RFC3339 (rt_ExpiresAt t)]> (pp_Artifacts p)) |>) |>, true)
           end
  | None => mret (Ok (m, false))
  end.

Definition invalidateHypervisorRegistrationToken (m : Machine) : H unit :=
  match m_Provision m with
  | Some p =>
      let token := default "" (pp_Artifacts p !! ProvisionArtifactHypervisorRegistrationToken) in
      if negb (ms_hypervisors sv) || (token ==? "") then mret tt else
      k ← tick;
      mop (fun s => match MarkTokenUsed (px_hypervisors s) (me_clock env k) token ("rejected-duplicate:" +:+ m_Name m) with
                    | Ok (st, _) => (s <| px_hypervisors := st |>, tt)
                    | Err _ => (s, tt)
                    end)
  | None => mret tt
  end.

(** *** machine.go *)

Definition filled_power (k : nat) (cfg : PowerConfig) : H PowerConfig :=
  cfg ← unless (FillWoLDefaults (me_read env k 0) (me_read env k 1) cfg) (m_errorErr 500);
  _ ← match ValidatePowerConfig cfg with Some e => answer_with (m_errorErr 400 e) | None => mret tt end;
  mret cfg.

Definition CreateMachine (param : string) (body : create_body) : H MachineReply :=
  m ← unless (bindCreateMachine param body) (fun _ => m_error 400 "invalid body");
  m ← unless (resolveOSPreset m) (m_errorErr 400);
  m ← (if m_Role m !=? Machine.RoleHypervisor then mret m else
       let m := if m_BridgeName m ==? "" then m <| m_BridgeName := "br0" |> else m in
       hv ← get_hypervisor (m_Name m);
       match hv with Ok _ => answer_with (m_error 409 ("hypervisor " +:+ Quote (m_Name m) +:+ " already exists")) | Err _ => mret m end);
  k ← tick;
  cfg ← filled_power k (m_Power m);
  let m := m <| m_Power := cfg |> in
  token ← unless (GenerateProvisioningToken (me_read env k 2)) (fun _ => m_error 500 "failed to issue provisioning token");
  attemptID ← unless (GenerateProvisioningAttemptID (me_read env k 3)) (fun _ => m_error 500 "failed to issue provisioning attempt id");
  let t := me_clock env k in
  let m := m <| m_Phase := Machine.PhaseProvisioning |>
             <| m_Provision := Some (zero_progress <| pp_Active := true |> <| pp_AttemptID := attemptID |> <| pp_StartedAt := Some t |>
                  <| pp_DeadlineAt := Some (time_Add t (ms_provisionTimeout sv)) |> <| pp_Trigger := "create" |> <| pp_CompletionToken := token |>) |> in
  attached ← attachHypervisorRegistrationToken m;
  '(m, _) ← unless attached (m_errorErr 500);
  created ← svc_CreateExclusive m;
  match created with
  | Err e =>
      if errors_Is e ErrAlreadyExists then
        _ ← invalidateHypervisorRegistrationToken m;
        mret (m_error 409 ("machine already exists: " +:+ m_Name m))
      else mret (m_errorErr 400 e)
  | Ok created => _ ← audited (m_Name created) "create-machine" "machine created"; mret (mkMachineReply 201 (BMachine (machineResponse created)))
  end.

Definition machines_reply (l : list Machine) (p : page) : MachineReply := mkMachineReply 200 (BMachines (machineResponse <$> l) (pg_nextPageToken p) (pg_totalSize p)).
(** The page from the store is counted and read by two queries. *)
Definition ListMachines (f : MachineFilter) (q : Query) : H MachineReply :=
  if negb (machineFilterActive f) then
    '(start, size) ← unless (parsePageRequest q) (m_errorErr 400);
    total ← mread (fun s => Z.of_nat (length (mem_values (db_machines (px_db s)))));
    items ← (if (size <=? 0) || (total <=? start) then mret [] else
             mread (fun s => take (Z.to_nat size) (drop (Z.to_nat start) (merge_sort key_le (mem_values (db_machines (px_db s)))))));
    mret (machines_reply items match parsePagination q total with Ok p => p | Err _ => mkPage 0 0 "" 0 end)
  else
    items ← mread (fun s => filterMachines f (merge_sort key_le (mem_values (db_machines (px_db s)))));
    p ← unless (parsePagination q (Z.of_nat (length items))) (m_errorErr 400);
    mret (machines_reply (paginate items p) p).

Definition GetMachine (name : string) : H MachineReply :=
  m ← get_machine name; m ← unless m m_missing; mret (mkMachineReply 200 (BMachine (machineResponse m))).

(** *** cascade.go *)

Fixpoint delete_owned (hv reason : string) (l : list VirtualMachine) : H (result unit) :=
  match l with
  | [] => mret (Ok tt)
  | v :: l =>
      r ← mop (fun s => match VMStore_DeleteOwned (px_vms s) (v_Name v) hv with Ok (m, b) => (s <| px_vms := m |>, Ok b) | Err e => (s, Err e) end);
      match r with
      | Err e => mret (Err (ErrWrap ("delete virtual machine record " +:+ v_Name v +:+ ": ") e ""))
      | Ok deleted => _ ← (if deleted : bool then audited (v_Name v) "delete-vm" ("record removed: " +:+ reason) else mret tt); delete_owned hv reason l
      end
  end.
Definition deleteHypervisorVMRecords (hv reason : string) : H (result unit) :=
  if negb (ms_vms sv) then mret (Ok tt) else
  l ← mread (fun s => VMStore_ListByHypervisor (px_vms s) hv);
  match l with
  | Err e => mret (Err (ErrWrap ("list virtual machines of hypervisor " +:+ hv +:+ ": ") e ""))
  | Ok l => delete_owned hv reason l
  end.
Definition cascadeDeleteHypervisorRecords (hv reason : string) : H (result unit) :=
  r ← deleteHypervisorVMRecords hv reason;
  match r with
  | Err e => mret (Err e)
  | Ok _ =>
      d ← mop (fun s => match Hypervisor.Delete (px_hypervisors s) hv with Ok st => (s <| px_hypervisors := st |>, Ok tt) | Err e => (s, Err e) end);
      match d with
      | Err e => if negb (errors_Is e ErrNotFound) then mret (Err (ErrWrap ("delete hypervisor record " +:+ hv +:+ ": ") e ""))
                 else _ ← deleteHypervisorVMRecords hv reason; mret (Ok tt)
      | Ok _ => _ ← audited hv "delete-hypervisor" ("record removed: " +:+ reason); _ ← deleteHypervisorVMRecords hv reason; mret (Ok tt)
      end
  end.
Fixpoint cascadeDeleteMachineRecords (machineName : string) (linked : list Hypervisor) : H (result unit) :=
  match linked with
  | [] => mret (Ok tt)
  | hv :: linked =>
      r ← cascadeDeleteHypervisorRecords (hv_Name hv) ("cascade from machine " +:+ machineName);
      match r with Err e => mret (Err e) | Ok _ => cascadeDeleteMachineRecords machineName linked end
  end.

Definition is_admin (user : option User) : bool := match user with Some u => IsAdmin (us_Role u) | None => false end.

Definition DeleteMachine (user : option User) (name : string) : H MachineReply :=
  m ← get_machine name;
  _ ← unless m m_missing;
  linked ← (if ms_hypervisors sv then
              l ← mread (fun s => ListByMachineRef (px_hypervisors s) name);
              l ← unless l (m_errorErr 500);
              _ ← must (bool_decide (l = []) || is_admin user) (m_error 403 "machine has linked hypervisor records; admin access required for cascading delete");
              mret l
            else mret []);
  r ← cascadeDeleteMachineRecords name linked;
  match r with
  | Err e => _ ← audit name "delete-machine" "failure" (Error e) ∅; mret (m_errorErr 500 e)
  | Ok _ =>
      d ← db_write (fun db => machine_delete db name);
      _ ← unless d m_missing;
      _ ← audited name "delete-machine" "machine deleted";
      mret (mkMachineReply 204 BNone)
  end.

Definition UpdateMachineSettings (name : string) (body : option (PowerConfig * nil_maps)) : H MachineReply :=
  match body with
  | None => mret (m_error 400 "invalid body")
  | Some (next, nils) =>
      current ← get_machine name;
      current ← unless current m_missing;
      k ← tick;
      cfg ← filled_power k (mergePowerConfigDefaults nils (m_Power current) next);
      m ← svc_UpdateSettings name cfg;
      m ← unless m m_missing;
      _ ← audit name "update-machine-settings" "success" "machine settings updated" {["powerType" := pc_Type next]};
      mret (mkMachineReply 200 (BMachine (machineResponse m)))
  end.

Record updateNetworkReq := mkUpdateNetworkReq { un_IP : string; un_IPAssignment : string; un_SubnetRef : string; un_Domain : string }.
Definition assignment_ok (mode : string) : bool := bool_decide (mode ∈ [""; IPAssignmentDHCP; IPAssignmentStatic]).
Definition bad_assignment : MachineReply := m_error 400 "ipAssignment must be 'dhcp' or 'static'".
Definition check_subnet (ref : string) : H unit :=
  if ref ==? "" then mret tt else k ← tick; must (me_subnet env k ref) (m_error 400 "referenced subnetRef not found").

Definition UpdateMachineNetwork (name : string) (body : option updateNetworkReq) : H MachineReply :=
  match body with
  | None => mret (m_error 400 "invalid body")
  | Some req =>
      _ ← must (assignment_ok (un_IPAssignment req)) bad_assignment;
      let subnetRef := resourceID "subnets" (un_SubnetRef req) in
      _ ← check_subnet subnetRef;
      m ← svc_UpdateNetwork name (un_IP req) (un_IPAssignment req) subnetRef (mkNetworkConfig (un_Domain req));
      m ← unless m m_missing;
      _ ← audited name "update-machine-network" "machine network settings updated";
      mret (mkMachineReply 200 (BMachine (machineResponse m)))
  end.

(** *** machine_redeploy.go *)

Definition redeploy_power (req : redeployReq) (current : Machine) : H (option PowerConfig) :=
  match rd_Power req with
  | None => mret None
  | Some (next, nils) => k ← tick; cfg ← filled_power k (mergePowerConfigDefaults nils (m_Power current) next); mret (Some cfg)
  end.
Definition redeploy_preset (req : redeployReq) (current : Machine) : H OSPreset :=
  let preset := m_OSPreset current in
  let ref := TrimSpace (default "" (rd_OSPreset req)) in
  if ref ==? "" then mret preset else
  draft ← unless (resolveOSPreset (current <| m_OSPreset := mkOSPreset (os_Family preset) (os_Version preset) ref (os_InstallConfig preset) |>)) (m_errorErr 400);
  mret (m_OSPreset draft).
Definition redeploy_role (name : string) (req : redeployReq) (current : Machine) : H (option string) :=
  match rd_Role req with
  | None => mret None
  | Some raw =>
      let value := TrimSpace raw in
      _ ← must ((value ==? "") || (value ==? Machine.RoleHypervisor)) (m_error 400 "role must be '' or 'hypervisor'");
      _ ← (if (value ==? Machine.RoleHypervisor) && (m_Role current !=? Machine.RoleHypervisor) then
             hv ← get_hypervisor name;
             match hv with
             | Ok _ => answer_with (m_error 409 ("hypervisor " +:+ Quote name +:+ " already exists"))
             | Err e => must (errors_Is e ErrNotFound) (m_errorErr 500 e)
             end
           else mret tt);
      mret (Some value)
  end.
Definition redeploy_bridge (req : redeployReq) (role : option string) : option string :=
  let to_hypervisor := role ==? Some Machine.RoleHypervisor in
  if bool_decide (is_Some (rd_BridgeName req)) || to_hypervisor then
    let trimmed := TrimSpace (default "" (rd_BridgeName req)) in
    Some (if to_hypervisor && (trimmed ==? "") then "br0" else trimmed)
  else None.

Definition redeploy_options (name : string) (req : redeployReq) (current : Machine) : H ReinstallOptions :=
  powerCfg ← redeploy_power req current;
  nextPreset ← redeploy_preset req current;
  let subnetRef := TrimSpace <$> rd_SubnetRef req in
  _ ← check_subnet (default "" subnetRef);
  let ipAssignment := TrimSpace <$> rd_IPAssignment req in
  _ ← must (assignment_ok (default "" ipAssignment)) bad_assignment;
  role ← redeploy_role name req current;
  mret (mkReinstallOptions (rd_Hostname req) (rd_MAC req) (rd_Arch req) (TrimSpace <$> rd_Firmware req) powerCfg (Some nextPreset) (rd_TargetDisk req)
          (mkNetworkConfig <$> rd_Network req) (rd_CloudInitRef req) (rd_CloudInitRefs req) ipAssignment (rd_IP req) subnetRef role
          (redeploy_bridge req role) (rd_SSHKeyRefs req) (rd_LoginUser req)).

Definition redeploy_failed (name : string) (e : error) : H unit := audit name "redeploy" "failure" (Error e) ∅.

(** A body that does not decode is [None]; a request without one is [no_redeployReq]. *)
Definition RedeployMachine (user : option User) (name : string) (body : option redeployReq) : H MachineReply :=
  match body with
  | None => mret (m_error 400 "invalid body")
  | Some req =>
      let req := normalizeMachineRedeployRequestRefs req in
      _ ← must ((TrimSpace (rd_Confirm req) ==? "") || (TrimSpace (rd_Confirm req) ==? name)) (m_error 400 "confirm must match machine name");
      current ← get_machine name;
      current ← unless current m_missing;
      opts ← (if changes_any req then o ← redeploy_options name req current; mret (Some o) else mret None);
      m ← svc_Reinstall name (match user with Some u => us_Username u | None => "" end) opts;
      match m with
      | Err e => if errors_Is e ErrNotFound then mret (m_error 404 "not found") else _ ← redeploy_failed name e; mret (m_errorErr 400 e)
      | Ok m =>
          attached ← attachHypervisorRegistrationToken m;
          match attached with
          | Err e => _ ← redeploy_failed name e; mret (m_errorErr 500 e)
          | Ok (m, changed) =>
              r ← (if changed : bool then db_write (fun db => machine_upsert db m) else mret (Ok tt));
              match r with
              | Err e => _ ← redeploy_failed name e; mret (m_errorErr 500 e)
              | Ok _ =>
                  _ ← audited name "redeploy" "redeploy started";
                  _ ← emit (MCycle (mkPowerCycle current m (m_IP current)));
                  mret (mkMachineReply 202 (BMachine (machineResponse m)))
              end
          end
      end
  end.
Definition ReinstallMachine := RedeployMachine.

(** *** machine_power.go *)

Definition recordMachinePowerAction (name : string) (action : Action) (lastError : option string) : H unit :=
  t ← now; _ ← db_write (fun db => UpdatePowerActionStatus db name action lastError t); mret tt.

Definition runPowerAction (name : string) (action : Action) : H MachineReply :=
  m ← get_machine name;
  m ← unless m m_missing;
  k ← tick;
  cfg ← filled_power k (m_Power m);
  let mi := mkMachineInfo (m_Name m) (m_Hostname m) (m_MAC m) (m_IP m) cfg in
  _ ← emit (MPower mi action);
  match me_power env k mi action with
  | Err e =>
      _ ← recordMachinePowerAction name action (Some (Error e));
      _ ← audit name action "failure" (Error e) ∅;
      mret (m_errorErr 502 e)
  | Ok requestID =>
      _ ← recordMachinePowerAction name action (Some "");
      _ ← audit name action "success" "power action complete" (if requestID ==? "" then ∅ else {["requestID" := requestID]});
      mret (mkMachineReply 200 (BStatus "ok" requestID))
  end.

(** *** custom_methods.go, baremetal.go *)

Definition no_method : MachineReply := m_error 404 "custom method not found".
Definition DispatchMachineCustomMethod (user : option User) (path : string) (body : option redeployReq) : H MachineReply :=
  match splitCustomMethod path with
  | None => mret no_method
  | Some (name, method) =>
      if method ==? "redeploy" then RedeployMachine user name body
      else if method ==? "reinstall" then ReinstallMachine user name body
      else if method ==? "powerOn" then runPowerAction name ActionPowerOn
      else if method ==? "powerOff" then runPowerAction name ActionPowerOff
      else mret no_method
  end.

Definition enrolled : MachineReply := m_error 409 "machine is enrolled in bare-metal management; use its ownership workflow".

(** The name and the method the guard takes a request for: the parameter of the route,
    or what is before and after the first colon of the rest of the path. *)
Definition guarded_name (param path : string) : string * string := if param ==? "" then Cut path ":"%char else (param, "").
Definition protectAllocatedMachine (param path : string) (next : H MachineReply) : H MachineReply :=
  if negb (ms_bareMetal sv) then next else
  let '(name, method) := guarded_name param path in
  if (param ==? "") && ((method ==? "powerOn") || (method ==? "powerOff")) then next else
  h ← mread (fun s => Get (px_db s) name);
  match h with
  | Err e => if errors_Is e ErrHostNotFound then next else mret (mkMachineReply (rl_Status (bareMetalError e)) (BBare (bareMetalError e)))
  | Ok _ => mret enrolled
  end.
End handlers.
