(* ===== verification/MachineSafe.v ===== *)
(** * infra/api: what the ordinary requests for machines promise

    Hosts of bare-metal management are out of their reach; what they write are
    statements the claims of BareMetalApi.v are safe against; only an administrator
    takes hypervisors along; and secrets do not leave. *)
From S2P Require Import Prelude GoStrings Handler Resource Power Store OsImage Machine Hypervisor Vm VmStore BareMetal BareMetalApi PxeCallback PxeEvidence ApiResource Auth MachineApi PxeTarget Windows.

(** ** Where a path is cut *)

Lemma last_colon_none l : last_colon l = None → ":"%char ∉ l.
Proof.
  induction l as [|c l IH]; cbn; [set_solver|]. destruct (last_colon l); [done|]. destruct (bool_decide (c = ":"%char)) eqn:E; [done|]. intros _.
  apply bool_decide_eq_false in E. specialize (IH eq_refl). set_solver.
Qed.

(** The first colon is the last one when what is before the last has none. *)
Lemma cut_last l i : last_colon l = Some i → ":"%char ∉ take i l → cut_bytes l ":"%char = (take i l, drop (S i) l).
Proof.
  revert i. induction l as [|c l IH]; intros i; cbn; [done|]. destruct (last_colon l) as [j|] eqn:El.
  - intros [= <-]. cbn. intros Hn. rewrite bool_decide_eq_false_2 by set_solver. rewrite (IH j eq_refl) by set_solver. done.
  - destruct (bool_decide (c = ":"%char)) eqn:E; [|done]. intros [= <-] _. done.
Qed.

Definition plain_name (name : string) : Prop := name ≠ "" ∧ ":"%char ∉ to_bytes name.

Lemma split_as_cut path name method : splitCustomMethod path = Some (name, method) → plain_name name → Cut path ":"%char = (name, method).
Proof.
  unfold splitCustomMethod, Cut. cbv zeta. destruct (last_colon (to_bytes path)) as [[|i]|] eqn:E; try done. destruct (_ =? _)%nat; [done|].
  intros [= <- <-] [_ Hn]. rewrite to_of_bytes in Hn. by rewrite (cut_last _ _ E Hn).
Qed.

Section safe.
Context (env : MachineEnv) (sv : MachineServer).
Local Abbreviation H := (Hd PxeStores machine_event MachineReply).

(** ** Enrolled hosts *)

(** The routes behind the guard, by the machine they are for; those that switch the
    power are let through. *)
Inductive ordinary (name : string) : H MachineReply → Prop :=
| ord_delete user : ordinary name (protectAllocatedMachine env sv name "" (DeleteMachine env sv user name))
| ord_settings body : ordinary name (protectAllocatedMachine env sv name "" (UpdateMachineSettings env name body))
| ord_network body : ordinary name (protectAllocatedMachine env sv name "" (UpdateMachineNetwork env name body))
| ord_method user path method body : splitCustomMethod path = Some (name, method) → method ∉ ["powerOn"; "powerOff"] →
    ordinary name (protectAllocatedMachine env sv "" path (DispatchMachineCustomMethod env sv user path body)).

Lemma guard_stops param path next name method st hst : ms_bareMetal sv = true → guarded_name param path = (name, method) →
  (param = "" → method ∉ ["powerOn"; "powerOff"]) → db_hosts (px_db (me_others env (hst_tick st) (hst_store st))) !! name = Some hst →
  protectAllocatedMachine env sv param path next st = (mkHState (S (hst_tick st)) (me_others env (hst_tick st) (hst_store st)) (hst_log st), inl enrolled).
Proof.
  intros Hb Hg Hm Hh. unfold protectAllocatedMachine. rewrite Hb, Hg. cbn [negb].
  assert (Hp : ((param ==? "") && ((method ==? "powerOn") || (method ==? "powerOff"))) = false).
  { apply not_true_is_false. rewrite andb_true_iff, orb_true_iff, !bool_decide_eq_true. intros [E1 E2]. specialize (Hm E1). set_solver. }
  rewrite Hp. unfold mbind, Hd_bind, mread, op, BareMetal.Get. cbn. by rewrite Hh.
Qed.

(** C15: hosts of bare-metal management are out of the reach of the ordinary requests.
    Whatever request to delete, reconfigure or redeploy a machine is sent, by whomever,
    if the machine is registered as a host when the guard looks, the answer is that the
    claims must be used: the stores are left to the other requests, nothing is audited
    and no power is switched.  The guard takes the machine's name up to the first colon
    of the path and the dispatcher up to the last; this is the same machine for every
    name without a colon. *)
Theorem enrolled_hosts_protected (name : string) (req : H MachineReply) (st : HState PxeStores machine_event) (hst : Host)
    (Hreq : ordinary name req) (Hname : plain_name name) (Hbm : ms_bareMetal sv = true)
    (Hhost : db_hosts (px_db (me_others env (hst_tick st) (hst_store st))) !! name = Some hst) :
  req st = (mkHState (S (hst_tick st)) (me_others env (hst_tick st) (hst_store st)) (hst_log st), inl enrolled).
Proof.
  destruct Hreq as [user|body|body|user path method body Hs Hm].
  1-3: eapply guard_stops; [done|unfold guarded_name; rewrite bool_decide_eq_false_2 by apply Hname; reflexivity|by destruct Hname|exact Hhost].
  eapply guard_stops; [done|unfold guarded_name; rewrite bool_decide_eq_true_2 by done; by apply split_as_cut|done|exact Hhost].
Qed.

(** ** Ordinary requests are statements *)

Context (pemDecode : string → option (string * bytes * string)) (parsePKIX : bytes → result (option Z)).
Local Abbreviation on_db := (on_tables pemDecode parsePKIX).
Local Abbreviation tabled := (does (me_others env) on_db).

Lemma tabled_mread {A} (f : PxeStores → A) : tabled (mread env f).
Proof. apply does_read. Qed.
Lemma tabled_mop {A} (f : PxeStores → PxeStores * A) : (∀ s, px_db (f s).1 = px_db s) → tabled (mop env f).
Proof. intros Hf. apply does_op. intros s. unfold on_tables. rewrite Hf. apply rtc_refl. Qed.
Lemma tabled_write (f : Db → result Db) : (∀ db db', f db = Ok db' → keep_step pemDecode parsePKIX db db') → tabled (db_write env f).
Proof. intros Hf. apply does_op. intros s. unfold on_tables. destruct (f (px_db s)) as [db|e] eqn:E; [|apply rtc_refl]. apply rtc_once. by apply Hf. Qed.

Lemma upsert_statement m db db' : machine_upsert db m = Ok db' → keep_step pemDecode parsePKIX db db'.
Proof.
  intros E. split; [by eapply st_machine|]. intros n Hn. revert E. unfold machine_upsert. repeat case_match; intros [= <-]; exact Hn.
Qed.
Lemma insert_statement m db db' : machine_insert db m = Ok db' → keep_step pemDecode parsePKIX db db'.
Proof.
  unfold machine_insert. destruct (db_machines db !! m_Name m) eqn:E; [done|]. intros [= <-]. apply (upsert_statement m). unfold machine_upsert. by rewrite E.
Qed.
Lemma delete_statement name db db' : machine_delete db name = Ok db' → keep_step pemDecode parsePKIX db db'.
Proof.
  unfold machine_delete. destruct (db_machines db !! name); [|done]. destruct (db_hosts db !! name) eqn:E; [done|]. intros [= <-]. split; [by apply st_forget|done].
Qed.
Lemma action_statement name a e t db db' : UpdatePowerActionStatus db name a e t = Ok db' → keep_step pemDecode parsePKIX db db'.
Proof.
  unfold UpdatePowerActionStatus. destruct (db_machines db !! name) as [m|] eqn:E; [|done]. intros [= <-]. split; [by eapply st_status|done].
Qed.

Ltac tabled :=
  repeat lazymatch goal with
  | |- does _ _ (mbind _ _) => apply does_bind; [|intros ?]
  | |- does _ _ (mret _) => apply does_ret
  | |- does _ _ (answer_with _) => apply does_answer
  | |- does _ _ (unless _ _) => apply does_unless
  | |- does _ _ (must _ _) => apply does_must
  | |- does _ _ (emit _) => apply does_emit
  | |- does _ _ tick => apply does_tick
  | |- does _ _ (mread _ _) => apply tabled_mread
  | |- does _ _ (get_machine _ _) => apply tabled_mread
  | |- does _ _ (mop _ _) => apply tabled_mop; intros ?; by repeat case_match
  | |- does _ _ (db_write _ _) =>
      apply tabled_write; intros ? ?; first [apply upsert_statement|apply insert_statement|apply delete_statement|apply action_statement]
  | |- _ => case_match
  end.

Lemma tabled_owned hv reason l : tabled (delete_owned env hv reason l).
Proof. induction l as [|v l IH]; cbn [delete_owned]; unfold audited, audit; tabled; apply IH. Qed.
Lemma tabled_vm_records hv reason : tabled (deleteHypervisorVMRecords env sv hv reason).
Proof. unfold deleteHypervisorVMRecords. tabled. apply tabled_owned. Qed.
Lemma tabled_hypervisor hv reason : tabled (cascadeDeleteHypervisorRecords env sv hv reason).
Proof. unfold cascadeDeleteHypervisorRecords, audited, audit. tabled; apply tabled_vm_records. Qed.
Lemma tabled_cascade name l : tabled (cascadeDeleteMachineRecords env sv name l).
Proof. induction l as [|hv l IH]; cbn [cascadeDeleteMachineRecords]; tabled; [apply tabled_hypervisor|apply IH]. Qed.
Lemma tabled_attach m : tabled (attachHypervisorRegistrationToken env sv m).
Proof. unfold attachHypervisorRegistrationToken. tabled. Qed.
Lemma tabled_invalidate m : tabled (invalidateHypervisorRegistrationToken env sv m).
Proof. unfold invalidateHypervisorRegistrationToken. cbv zeta. tabled. Qed.
Lemma tabled_options name req current : tabled (redeploy_options env sv name req current).
Proof.
  unfold redeploy_options, redeploy_power, redeploy_preset, check_subnet, redeploy_role, get_hypervisor, filled_power. cbv zeta. tabled.
Qed.
Lemma tabled_power name action : tabled (runPowerAction env name action).
Proof. unfold runPowerAction, get_machine, filled_power, recordMachinePowerAction, now, audit. cbv zeta. tabled. Qed.
Lemma tabled_redeploy user name body : tabled (RedeployMachine env sv user name body).
Proof.
  unfold RedeployMachine, get_machine, svc_Reinstall, redeploy_failed, audited, audit. cbv zeta. tabled; first [apply tabled_options|apply tabled_attach].
Qed.

(** Every request for machines. *)
Inductive machine_request : H MachineReply → Prop :=
| rq_create param body : machine_request (CreateMachine env sv param body)
| rq_list f q : machine_request (ListMachines env f q)
| rq_get name : machine_request (GetMachine env name)
| rq_guarded name req : ordinary name req → machine_request req
| rq_power param path user body : machine_request (protectAllocatedMachine env sv param path (DispatchMachineCustomMethod env sv user path body)).

Lemma tabled_dispatch user path body : tabled (DispatchMachineCustomMethod env sv user path body).
Proof. unfold DispatchMachineCustomMethod, ReinstallMachine. tabled; first [apply tabled_redeploy|apply tabled_power]. Qed.
Lemma tabled_guard param path next : tabled next → tabled (protectAllocatedMachine env sv param path next).
Proof. intros Hn. unfold protectAllocatedMachine. tabled; exact Hn. Qed.
Lemma tabled_delete user name : tabled (DeleteMachine env sv user name).
Proof. unfold DeleteMachine, get_machine, audited, audit. tabled. apply tabled_cascade. Qed.

(** The ordinary requests are among the statements the claims are safe against.
    Whatever request for machines is served, however it fails and whatever runs
    meanwhile, all it does to the tables of machines and hosts is a sequence of the
    statements of BareMetal.v that removes no host.  So the tables stay consistent, and
    a redeployment that read a machine before its host was claimed cannot write over
    the claimed attempt. *)
Lemma ordinary_requests_are_statements (req : H MachineReply) (st : HState PxeStores machine_event) (Hreq : machine_request req)
    (Henv : ∀ k s, rtc (keep_step pemDecode parsePKIX) (px_db s) (px_db (me_others env k s))) :
  rtc (keep_step pemDecode parsePKIX) (px_db (hst_store st)) (px_db (hst_store (req st).1)).
Proof.
  apply (steps_tables _ _ (me_others env) _ _ Henv). revert st. change (tabled req). destruct Hreq as [param body|f q|name|name req [user|body|body|user path method body _ _]|].
  - unfold CreateMachine, get_hypervisor, filled_power, svc_CreateExclusive, audited, audit. cbv zeta. tabled; first [apply tabled_attach|apply tabled_invalidate].
  - unfold ListMachines. tabled.
  - unfold GetMachine, get_machine. tabled.
  - apply tabled_guard, tabled_delete.
  - apply tabled_guard. unfold UpdateMachineSettings, get_machine, filled_power, svc_UpdateSettings, audit. cbv zeta. tabled.
  - apply tabled_guard. unfold UpdateMachineNetwork, check_subnet, svc_UpdateNetwork, get_machine, now, audited, audit. cbv zeta. tabled.
  - apply tabled_guard, tabled_dispatch.
  - apply tabled_guard, tabled_dispatch.
Qed.

(** ** Only an administrator takes hypervisors along *)

Definition keeps_fleet (s s' : PxeStores) : Prop := px_hypervisors s' = px_hypervisors s ∧ px_vms s' = px_vms s.
Local Abbreviation sparing := (does (me_others env) keeps_fleet).

Lemma sparing_write (f : Db → result Db) : sparing (db_write env f).
Proof. apply does_op. intros s. destruct (f (px_db s)); done. Qed.

Lemma does_bind_post {A B} own (m : H A) (f : A → H B) (Q : A → Prop) :
  does (me_others env) own m → (∀ st st' a, m st = (st', inl a) → Q a) → (∀ a, Q a → does (me_others env) own (f a)) → does (me_others env) own (m ≫= f).
Proof.
  intros Hm HQ Hf st. unfold mbind, Hd_bind. specialize (Hm st). destruct (m st) as [st1 [a|r]] eqn:E; [|exact Hm].
  cbn in Hm. eapply steps_trans; [exact Hm|]. exact (Hf a (HQ _ _ _ E) st1).
Qed.

(** Deleting a machine takes the records of its hypervisors, and the virtual
    machines on them, along only for an administrator.  For everybody else, whatever
    the other requests do, the deletion's own steps leave the stores of hypervisors,
    their tokens and virtual machines as they are: with a linked hypervisor the request
    is refused before anything is written. *)
Lemma cascade_needs_admin (user : option User) (name : string) (st : HState PxeStores machine_event) (Huser : is_admin user = false) :
  steps (me_others env) keeps_fleet (hst_store st) (hst_store (DeleteMachine env sv user name st).1).
Proof.
  revert st. change (sparing (DeleteMachine env sv user name)). unfold DeleteMachine. apply does_bind; [apply does_read|intros m].
  apply does_bind; [apply does_unless|intros _]. eapply (does_bind_post _ _ _ (fun l => l = [])).
  - case_match; [|apply does_ret]. apply does_bind; [apply does_read|intros l]. apply does_bind; [apply does_unless|intros l']. apply does_bind; [apply does_must|intros _]. apply does_ret.
  - intros st st' l. destruct (ms_hypervisors sv); [|by intros [= _ <-]]. intros Hl. unfold mread in Hl. apply op_bind_inv in Hl as (s & r & _ & Hl).
    apply unless_inv in Hl as [(e & _ & _ & [=])|(l' & _ & Hl)]. rewrite Huser, orb_false_r in Hl.
    apply must_inv in Hl as [(_ & _ & [=])|[E Hl]]. apply bool_decide_eq_true in E. by injection Hl as _ <-.
  - intros l ->. cbn [cascadeDeleteMachineRecords]. apply does_bind; [apply does_ret|intros [[]|e]].
    + apply does_bind; [apply sparing_write|intros d]. apply does_bind; [apply does_unless|intros _]. apply does_bind; [apply does_emit|intros _]. apply does_ret.
    + apply does_bind; [apply does_emit|intros _]. apply does_ret.
Qed.
End safe.

(** ** Secrets stay inside *)

(** What a machine's record knows and an answer must not tell. *)
Record Secrets := mkSecrets {
  se_ipmi : string; se_headers : gmap string string; se_extras : gmap string string; se_hmac : string; se_token : string; se_login : string; se_completion : string;
  se_registration : option string; se_registration_expiry : option string }.

Definition with_artifact (k : string) (v : option string) (m : gmap string string) : gmap string string := match v with Some v => <[k := v]> m | None => delete k m end.
Definition with_secret_progress (x : Secrets) (p : ProvisionProgress) : ProvisionProgress :=
  p <| pp_CompletionToken := se_completion x |>
    <| pp_Artifacts := with_artifact ProvisionArtifactHypervisorRegistrationToken (se_registration x)
         (with_artifact ProvisionArtifactHypervisorRegistrationTokenExpiresAt (se_registration_expiry x) (pp_Artifacts p)) |>.
Definition with_secrets (x : Secrets) (m : Machine) : Machine :=
  let cfg := m_Power m in
  m <| m_Power := mkPowerConfig (pc_Type cfg)
         ((fun i => mkIPMIConfig (ipmi_Host i) (ipmi_Username i) (se_ipmi x) (ipmi_Interface i)) <$> pc_IPMI cfg)
         ((fun w => mkWebhookConfig (wh_PowerOnURL w) (wh_PowerOffURL w) (wh_StatusURL w) (wh_BootOrderURL w) (se_headers x) (se_extras x)) <$> pc_Webhook cfg)
         ((fun w => mkWoLConfig (wol_WakeMAC w) (wol_BroadcastIP w) (wol_Port w) (wol_ShutdownTarget w) (wol_ShutdownUDPPort w) (se_hmac x) (se_token x) (wol_TokenTTLSeconds w)) <$> pc_WoL cfg)
         (pc_Manual cfg) |>
    <| m_LoginUser := (fun u => Machine.mkLoginUserSpec (Machine.lu_Username u) (se_login x)) <$> m_LoginUser m |>
    <| m_Provision := with_secret_progress x <$> m_Provision m |>.

(** What the answer does tell: which of them are set. *)
Definition shown (x : Secrets) : bool * bool * bool * bool * bool * bool :=
  (configured (se_ipmi x), bool_decide (se_headers x ≠ ∅), bool_decide (se_extras x ≠ ∅), configured (se_hmac x), configured (se_token x), configured (se_login x)).

Lemma artifacts_hidden a b c d (m : gmap string string) :
  provisionArtifactsResponse (with_artifact ProvisionArtifactHypervisorRegistrationToken a (with_artifact ProvisionArtifactHypervisorRegistrationTokenExpiresAt b m))
  = provisionArtifactsResponse (with_artifact ProvisionArtifactHypervisorRegistrationToken c (with_artifact ProvisionArtifactHypervisorRegistrationTokenExpiresAt d m)).
Proof.
  unfold provisionArtifactsResponse. apply map_eq. intros k. destruct (decide (k = ProvisionArtifactHypervisorRegistrationToken)) as [->|Hk]; [by rewrite !lookup_delete_eq|].
  rewrite !(lookup_delete_ne _ ProvisionArtifactHypervisorRegistrationToken) by done.
  destruct (decide (k = ProvisionArtifactHypervisorRegistrationTokenExpiresAt)) as [->|Hk']; [by rewrite !lookup_delete_eq|]. rewrite !lookup_delete_ne by done.
  destruct a, b, c, d; cbn [with_artifact]; by rewrite ?lookup_insert_ne, ?lookup_delete_ne, ?lookup_insert_ne, ?lookup_delete_ne by done.
Qed.

Lemma progress_hidden x y p : provisionProgressResponse (with_secret_progress x p) = provisionProgressResponse (with_secret_progress y p).
Proof. unfold provisionProgressResponse. f_equal. apply artifacts_hidden. Qed.

(** The answers about a machine do not depend on its secrets.  Of the passwords of
    its power controller and its login user, the headers and extras of its webhook, the
    keys of its wake-on-LAN daemon, the completion token of its installation and the
    registration token of its hypervisor, an answer tells at most whether they are
    set: two machines that differ only in them are shown alike. *)
Lemma machine_secrets_hidden (m : Machine) (x y : Secrets) (Hset : shown x = shown y) :
  machineResponse (with_secrets x m) = machineResponse (with_secrets y m).
Proof.
  injection Hset as E1 E2 E3 E4 E5 E6.
  assert (Hp : powerConfigResponse (m_Power (with_secrets x m)) = powerConfigResponse (m_Power (with_secrets y m))).
  { destruct m as [? ? ? ? ? ? ? [ty [i|] [w|] [l|] man]]; unfold powerConfigResponse; cbn; rewrite ?E1, ?E2, ?E3, ?E4, ?E5; reflexivity. }
  assert (Hl : loginUserResponse (m_LoginUser (with_secrets x m)) = loginUserResponse (m_LoginUser (with_secrets y m))).
  { change (m_LoginUser (with_secrets ?z m)) with ((fun u => Machine.mkLoginUserSpec (Machine.lu_Username u) (se_login z)) <$> m_LoginUser m).
    destruct (m_LoginUser m) as [u|]; [|done]. cbn. by rewrite E6. }
  assert (Hv : provisionProgressResponse <$> m_Provision (with_secrets x m) = provisionProgressResponse <$> m_Provision (with_secrets y m)).
  { change (m_Provision (with_secrets ?z m)) with (with_secret_progress z <$> m_Provision m).
    destruct (m_Provision m) as [p|]; [|done]. exact (f_equal Some (progress_hidden x y p)). }
  unfold machineResponse. rewrite Hp, Hl, Hv. reflexivity.
Qed.

(** ** Runs *)

Definition quiet_machines (others : nat → PxeStores → PxeStores) : MachineEnv :=
  mkMachineEnv others (fun _ => 1) (fun _ _ n => Ok (repeat "a"%char n)) (fun _ _ => true) (fun _ _ _ => Ok "").
Definition machines_alone : MachineEnv := quiet_machines (fun _ s => s).
Definition demo_api : MachineServer := mkMachineServer true None true true 3600.
Definition demo_admin : User := mkUser "admin" "" Auth.RoleAdmin 0.
Definition demo_operator : User := mkUser "op" "" Auth.RoleOperator 0.
Definition fleet_stores (hv : gmap string Hypervisor) (db : Db) : PxeStores := mkPxeStores ∅ db (Hypervisor.mkHvState hv ∅ ∅) ∅.
Definition demo_machine_request (s : PxeStores) : HState PxeStores machine_event := mkHState 0 s [].
Definition redeploy_path (path : string) : Hd PxeStores machine_event MachineReply MachineReply :=
  protectAllocatedMachine machines_alone demo_api "" path (DispatchMachineCustomMethod machines_alone demo_api (Some demo_admin) path (Some no_redeployReq)).

Lemma demo_path : splitCustomMethod "m1:redeploy" = Some ("m1", "redeploy").
Proof. reflexivity. Qed.
Lemma demo_plain : plain_name "m1".
Proof. split; [done|]. cbn. set_solver. Qed.
Lemma demo_enrolled : db_hosts demo2 !! "m1" = Some (host_of (Register demo_pem demo_key demo1 "m1" "pool" "key" "/dev/sda")).
Proof. by vm_compute. Qed.

Lemma enrolled_hosts_protected_witness : redeploy_path "m1:redeploy" (demo_machine_request (fleet_stores ∅ demo2))
  = (mkHState 1 (fleet_stores ∅ demo2) [], inl enrolled).
Proof.
  apply (enrolled_hosts_protected machines_alone demo_api "m1" (redeploy_path "m1:redeploy") (demo_machine_request (fleet_stores ∅ demo2))
    (host_of (Register demo_pem demo_key demo1 "m1" "pool" "key" "/dev/sda"))).
  - apply (ord_method machines_alone demo_api "m1" (Some demo_admin) "m1:redeploy" "redeploy" (Some no_redeployReq) demo_path). set_solver.
  - exact demo_plain.
  - reflexivity.
  - exact demo_enrolled.
Defined.

(** The machine of no host is redeployed: it is written, and a power cycle starts. *)
Definition free_request : HState PxeStores machine_event := demo_machine_request (fleet_stores ∅ demo1).
Definition attempt_after (st : HState PxeStores machine_event) : option string := attempt_of <$> db_machines (px_db (hst_store st)) !! "m1".
Lemma redeployed_shown : attempt_after (redeploy_path "m1:redeploy" free_request).1 ≠ Some "" ∧ length (hst_log (redeploy_path "m1:redeploy" free_request).1) = 2%nat.
Proof. vm_compute. split; [discriminate|reflexivity]. Qed.

Lemma ordinary_requests_are_statements_witness : attempt_after (redeploy_path "m1:redeploy" free_request).1 ≠ Some ""
  ∧ rtc (keep_step demo_pem demo_key) (px_db (hst_store free_request)) (px_db (hst_store (redeploy_path "m1:redeploy" free_request).1)).
Proof.
  split; [exact (proj1 redeployed_shown)|].
  apply (ordinary_requests_are_statements machines_alone demo_api demo_pem demo_key (redeploy_path "m1:redeploy") free_request).
  - apply rq_power.
  - intros k s. apply rtc_refl.
Defined.

(** An operator's request for a machine with a linked hypervisor: refused, while an
    administrator's takes it along. *)
Definition linked_hypervisor : Hypervisor := mkHypervisor "m1" (mkConnectionSpec "tcp" "10.0.0.1" 0 "" "" "") ∅ "m1" "" "Ready" None None 0 "" None "" 0 0.
Definition delete_as (u : User) := DeleteMachine machines_alone demo_api (Some u) "m1" (demo_machine_request (fleet_stores {["m1" := linked_hypervisor]} demo1)).
Lemma delete_answers : (delete_as demo_operator).2 = inr (m_error 403 "machine has linked hypervisor records; admin access required for cascading delete")
  ∧ (delete_as demo_admin).2 = inl (mkMachineReply 204 BNone) ∧ hs_store (px_hypervisors (hst_store (delete_as demo_admin).1)) = ∅.
Proof. vm_compute. done. Qed.

Lemma cascade_needs_admin_witness : is_admin (Some demo_operator) = false
  ∧ steps (fun _ s => s) keeps_fleet (fleet_stores {["m1" := linked_hypervisor]} demo1) (hst_store (delete_as demo_operator).1).
Proof.
  split; [reflexivity|].
  exact (cascade_needs_admin machines_alone demo_api (Some demo_operator) "m1" (demo_machine_request (fleet_stores {["m1" := linked_hypervisor]} demo1)) eq_refl).
Defined.

(** Two records that differ in their secrets only. *)
Definition secret_one : Secrets := mkSecrets "p" {["X-Key" := "one"]} ∅ "h" "t" "pw" "c1" (Some "reg-1") None.
Definition secret_two : Secrets := mkSecrets "q" {["X-Key" := "two"]} ∅ "i" "u" "qw" "c2" (Some "reg-2") (Some "later").
Definition secret_machine : Machine :=
  (installing ∅) <| m_Power := mkPowerConfig PowerTypeWebhook None (Some (mkWebhookConfig "http://a" "http://b" "" "" ∅ ∅)) None None |>.

Lemma secrets_differ : with_secrets secret_one secret_machine ≠ with_secrets secret_two secret_machine.
Proof. vm_compute. discriminate. Qed.
Lemma machine_secrets_hidden_witness : shown secret_one = shown secret_two
  ∧ machineResponse (with_secrets secret_one secret_machine) = machineResponse (with_secrets secret_two secret_machine).
Proof.
  assert (E : shown secret_one = shown secret_two) by (vm_compute; reflexivity). split; [exact E|]. exact (machine_secrets_hidden secret_machine _ _ E).
Defined.

(** *** A name with a colon *)

(** Nothing keeps a colon out of a machine's name.  The host ["a:b"] is enrolled; the
    guard of ["a:b:redeploy"] looks for a host ["a"], and the dispatcher redeploys
    ["a:b"]: a host nobody has claimed is rewritten and power-cycled. *)
Definition colon_db : Db :=
  let db := mkDb ∅ {["a:b" := demo_machine <| m_Name := "a:b" |>]} in after_ok (Register demo_pem demo_key db "a:b" "pool" "key" "/dev/sda") db.
Lemma colon_name_unprotected :
  let '(st, r) := redeploy_path "a:b:redeploy" (demo_machine_request (fleet_stores ∅ colon_db)) in
  is_Some (db_hosts colon_db !! "a:b") ∧ match r with inl a => my_Status a = 202 | inr _ => False end
  ∧ match hst_log st with [MAudit _; MCycle c] => True | _ => False end.
Proof. vm_compute. eauto. Qed.

(** *** A request that writes back what it read *)

(** After the record was read for an update of its settings, and before it is written, the
    installer of Windows claims the disk.  The update writes back the record as it was:
    the claim is gone, and the installer is answered once more. *)
Definition installing_windows : Machine :=
  demo_machine <| m_Provision := Some (zero_progress <| pp_Active := true |> <| pp_AttemptID := "attempt-1" |> <| pp_CompletionToken := "t" |>) |>.
Definition claim_report : windowsStateRequest := mkWindowsStateRequest "install_started" "" "" "".
Definition claimed_machine : Machine := machine_stage claim_report 2 installing_windows.
Definition claimed_at (tick k : nat) (s : PxeStores) : PxeStores :=
  if bool_decide (k = tick) then s <| px_db := mkDb (db_hosts (px_db s)) {["m1" := claimed_machine]} |> else s.
Lemma settings_take_claim_back :
  let start := demo_machine_request (fleet_stores ∅ (mkDb ∅ {["m1" := installing_windows]})) in
  let update tick := UpdateMachineSettings (quiet_machines (claimed_at tick)) "m1" (Some (m_Power demo_machine, mkNilMaps false false)) start in
  windowsInstallStarted claimed_machine = true
  ∧ (windowsInstallStarted <$> db_machines (px_db (hst_store (update 1%nat).1)) !! "m1") = Some true
  ∧ (windowsInstallStarted <$> db_machines (px_db (hst_store (update 2%nat).1)) !! "m1") = Some false.
Proof. vm_compute. split_and!; reflexivity. Qed.
