(* ===== verification/PowerCycle.v ===== *)
(** * infra/api: the power cycle of a redeployment

    machine_power.go (startRedeployPowerCycle and its helpers) and windows_wol.go.  The
    handlers of BareMetalApi.v and MachineApi.v start it and do not wait: it runs beside
    every other request, for at most three minutes.  Each call of the power executor and
    each statement is a step; before it, the others may have changed the tables.  The
    loops take a number of rounds; [power_cycle_ends] says how many are enough. *)
From S2P Require Import Prelude GoStrings GoTime Handler Resource Power Store Machine BareMetal BareMetalApi.

(** What the goroutine asks: the executor with its answers, and its reads of the
    machine. *)
Inductive cycle_event : Type :=
| CExec (mi : MachineInfo) (action : Action) (r : result unit)
| CStatus (mi : MachineInfo) (r : result PowerState)
| CRead (r : result Machine).

(** How it stops early: by a return, or since the rounds of the model are spent. *)
Inductive cycle_stop : Type := Returned | OutOfRounds.

(** The surroundings, by the number of the step: the other requests, failures of a
    read (a context that has expired among them), the clock, the executor, whether the
    wait after the power went off was cut short, whether a [select] finds its context
    done rather than its ticker, and the state of the two contexts. *)
Record CycleEnv := mkCycleEnv {
  ce_others : nat → Db → Db; ce_fault : nat → option error; ce_clock : nat → Time;
  ce_exec : nat → MachineInfo → Action → result unit; ce_status : nat → MachineInfo → result PowerState;
  ce_sleep : nat → option error; ce_done : nat → bool; ce_wait_expired : nat → bool; ce_ctx : nat → option error }.

Definition redeployPowerOffSettleTimeout : string := "30s".

(** ** machine_power.go, windows_wol.go: what is compared *)

Definition machinePowerInfo (m : Machine) (fallbackIP : string) : MachineInfo :=
  let ip := TrimSpace (m_IP m) in
  let ip := if ip ==? "" then TrimSpace fallbackIP else ip in
  let ip := match pc_WoL (m_Power m) with
            | Some w => if (ip ==? "") && (pc_Type (m_Power m) ==? PowerTypeWoL) then TrimSpace (wol_ShutdownTarget w) else ip
            | None => ip
            end in
  mkMachineInfo (m_Name m) (m_Hostname m) (m_MAC m) ip (m_Power m).

Definition artifact_true (p : ProvisionProgress) (k : string) : bool := default "" (pp_Artifacts p !! k) ==? "true".
Definition wake_progressed (p : ProvisionProgress) : bool :=
  artifact_true p "windowsInstallStarted" || artifact_true p "imageApplied"
  || (bool_decide (is_Some (pp_CompletedAt p)) && (pp_CompletionSource p ==? "windows")).
Definition wake_attempt_changed : error := ErrNew "Windows deployment attempt changed during power-on".
Definition windowsWakeProgress (current expected : Machine) : result bool :=
  match m_Provision expected, m_Provision current with
  | Some e, Some p =>
      if (pp_AttemptID e ==? "") || (pp_AttemptID p !=? pp_AttemptID e) || (m_Name current !=? m_Name expected)
         || negb (EqualFold (m_MAC current) (m_MAC expected)) || (machine_PXEInstallType current !=? InstallWindows)
      then Err wake_attempt_changed else Ok (wake_progressed p)
  | _, _ => Err wake_attempt_changed
  end.

Definition is_active (m : Machine) : bool := match m_Provision m with Some p => pp_Active p | None => false end.
Definition unpowered (m : Machine) : bool := (pc_Type (m_Power m) ==? "") || (pc_Type (m_Power m) ==? PowerTypeManual).

Section cycle.
Context (env : CycleEnv) (rounds : nat).
Local Abbreviation H := (Hd Db cycle_event cycle_stop).

Definition cstep : H nat := k ← tick; _ ← op (ce_others env) (fun s => (s, tt)); mret k.
Definition out_of_rounds {A} : H A := answer_with OutOfRounds.
Definition execute (mi : MachineInfo) (action : Action) : H (result unit) :=
  k ← cstep; let r := ce_exec env k mi action in _ ← emit (CExec mi action r); mret r.
Definition check_status (mi : MachineInfo) : H (result PowerState) :=
  k ← cstep; let r := ce_status env k mi in _ ← emit (CStatus mi r); mret r.
(** machines.Get *)
Definition cget (name : string) : H (result Machine) :=
  k ← tick;
  r ← op (ce_others env) (fun s => (s, match ce_fault env k with Some e => Err e | None => mem_get (db_machines s) name end));
  _ ← emit (CRead r);
  mret r.
Definition cwrite (f : Db → result (Db * bool)) : H (result bool) :=
  k ← tick;
  op (ce_others env) (fun s => match ce_fault env k with
                               | Some e => (s, Err e)
                               | None => match f s with Ok (db, b) => (db, Ok b) | Err e => (s, Err e) end
                               end).

(** ** machine_power.go *)

Definition recordMachinePowerAction (name : string) (action : Action) (lastError : option string) : H unit :=
  k ← tick;
  _ ← cwrite (fun db => db' ← UpdatePowerActionStatus db name action lastError (ce_clock env k); Ok (db', true));
  mret tt.

Fixpoint wait_rounds (n : nat) (mi : MachineInfo) (want : PowerState) : H bool :=
  match n with
  | O => out_of_rounds
  | S n =>
      state ← check_status mi;
      if bool_decide (state = Ok want) then mret true
      else k ← cstep; if ce_done env k then mret false else wait_rounds n mi want
  end.
Definition waitForMachinePowerState (mi : MachineInfo) (want : PowerState) : H bool := wait_rounds rounds mi want.

Fixpoint power_on_rounds (n : nat) (info : MachineInfo) : H (result unit) :=
  match n with
  | O => out_of_rounds
  | S n =>
      r ← execute info ActionPowerOn;
      match r with
      | Err e => mret (Err e)
      | Ok _ =>
          if pc_Type (mi_Power info) !=? PowerTypeWoL then mret (Ok tt) else
          seen ← waitForMachinePowerState info PowerStateRunning;
          if seen : bool then mret (Ok tt) else
          k ← cstep;
          match ce_ctx env k with
          | Some e => mret (Err (ErrWrap "machine did not report running after Wake-on-LAN retries: " e ""))
          | None => power_on_rounds n info
          end
      end
  end.
Definition powerOnRedeployMachine (info : MachineInfo) : H (result unit) := power_on_rounds rounds info.

(** ** windows_wol.go *)

Definition windowsWakeObserved (expected : Machine) : H (result bool) :=
  r ← cget (m_Name expected);
  mret match r with
       | Err e => Err e
       | Ok current => match windowsWakeProgress current expected with
                       | Ok false => if negb (is_active current) then Err (ErrNew "Windows deployment is no longer active") else Ok false
                       | r => r
                       end
       end.

Fixpoint wake_rounds (n : nat) (info : MachineInfo) (expected : Machine) : H (result bool) :=
  match n with
  | O => out_of_rounds
  | S n =>
      seen ← windowsWakeObserved expected;
      match seen with
      | Err e => mret (Err e)
      | Ok true => mret (Ok true)
      | Ok false =>
          current ← cget (m_Name expected);
          match current with
          | Err e => mret (Err e)
          | Ok current =>
              match windowsWakeProgress current expected with
              | Err e => mret (Err e)
              | Ok true => mret (Ok true)
              | Ok false =>
                  let info := if TrimSpace (m_IP current) !=? "" then mkMachineInfo (mi_Name info) (mi_Hostname info) (mi_MAC info) (m_IP current) (mi_Power info) else info in
                  state ← check_status info;
                  if bool_decide (state = Ok PowerStateRunning) then
                    again ← windowsWakeObserved expected;
                    mret match again with Ok _ => Ok true | Err e => Err e end
                  else k ← cstep; if ce_done env k then mret (Ok false) else wake_rounds n info expected
              end
          end
      end
  end.
Definition waitWindowsWake (info : MachineInfo) (expected : Machine) : H (result bool) := wake_rounds rounds info expected.

Fixpoint windows_on_rounds (n : nat) (info : MachineInfo) (expected : Machine) : H (result unit) :=
  match n with
  | O => out_of_rounds
  | S n =>
      seen ← windowsWakeObserved expected;
      match seen with
      | Err e => mret (Err e)
      | Ok true => mret (Ok tt)
      | Ok false =>
          r ← execute info ActionPowerOn;
          match r with
          | Err e => mret (Err e)
          | Ok _ =>
              woken ← waitWindowsWake info expected;
              k ← cstep;
              match woken with
              | Ok true => mret (Ok tt)
              | Err e => if negb (ce_wait_expired env k) then mret (Err e) else
                         match ce_ctx env k with
                         | Some e => mret (Err (ErrWrap "machine did not report running after Wake-on-LAN retries: " e ""))
                         | None => windows_on_rounds n info expected
                         end
              | Ok false => match ce_ctx env k with
                            | Some e => mret (Err (ErrWrap "machine did not report running after Wake-on-LAN retries: " e ""))
                            | None => windows_on_rounds n info expected
                            end
              end
          end
      end
  end.
Definition powerOnWindowsRedeployMachine (info : MachineInfo) (expected : Machine) : H (result unit) := windows_on_rounds rounds info expected.

(** Three tries of a compare-and-set. *)
Fixpoint record_tries (n : nat) (expected : Machine) (action : Action) (lastError : option string) : H unit :=
  match n with
  | O => mret tt
  | S n =>
      current ← cget (m_Name expected);
      match current with
      | Err _ => mret tt
      | Ok current =>
          match windowsWakeProgress current expected with
          | Err _ => mret tt
          | Ok progressed =>
              if negb (is_active current) then mret tt else
              if bool_decide (is_Some lastError) && (progressed || (m_LastError current !=? "")) then mret tt else
              k ← tick;
              let next := current <| m_LastPowerAction := action |> <| m_LastError := default (m_LastError current) lastError |> <| m_UpdatedAt := ce_clock env k |> in
              w ← cwrite (fun db => Ok (machine_callback db current next));
              match w with Ok false => record_tries n expected action lastError | _ => mret tt end
          end
      end
  end.
Definition recordWindowsRedeployPowerAction (expected : Machine) (action : Action) (lastError : option string) : H unit := record_tries 3 expected action lastError.

(** ** startRedeployPowerCycle: the goroutine *)

Definition return_now {A} : H A := answer_with Returned.
Definition not_stopped : string := "machine did not report stopped within " +:+ redeployPowerOffSettleTimeout +:+ " after power-off".

(** What is switched off, what is switched on, and whether it is Windows that is woken. *)
Definition powerOffInfo (c : PowerCycle) : MachineInfo := machinePowerInfo (cy_original c) (cy_fallbackIP c).
Definition powerOnInfo (c : PowerCycle) : MachineInfo :=
  machinePowerInfo (if unpowered (cy_machine c) then cy_original c else cy_machine c) (cy_fallbackIP c).
Definition windowsWoL (c : PowerCycle) : bool :=
  (machine_PXEInstallType (cy_machine c) ==? InstallWindows) && (pc_Type (mi_Power (powerOnInfo c)) ==? PowerTypeWoL).

Definition record (c : PowerCycle) (action : Action) (lastError : option string) : H unit :=
  if windowsWoL c then recordWindowsRedeployPowerAction (cy_machine c) action lastError else recordMachinePowerAction (m_Name (cy_machine c)) action lastError.

Definition power_cycle (c : PowerCycle) : H unit :=
  let before := cy_original c in
  let after := cy_machine c in
  let off := powerOffInfo c in
  _ ← (if windowsWoL c then
         ready ← windowsWakeObserved after;
         match ready with Ok false => mret tt | _ => return_now end
       else mret tt);
  r ← execute off ActionPowerOff;
  _ ← match r with Err e => _ ← record c ActionPowerOff (Some (Error e)); return_now | Ok _ => mret tt end;
  _ ← record c ActionPowerOff None;
  _ ← (if pc_Type (m_Power before) ==? PowerTypeWoL then
         k ← cstep;
         match ce_sleep env k with Some e => _ ← record c ActionPowerOff (Some (Error e)); return_now | None => mret tt end
       else mret tt);
  stopped ← waitForMachinePowerState off PowerStateStopped;
  _ ← (if stopped : bool then mret tt else _ ← record c ActionPowerOff (Some not_stopped); return_now);
  r ← (if windowsWoL c then powerOnWindowsRedeployMachine (powerOnInfo c) after else powerOnRedeployMachine (powerOnInfo c));
  match r with
  | Err e => record c ActionPowerOn (Some (Error e))
  | Ok _ => record c ActionPowerOn None
  end.

(** Nothing is started without an executor or for a machine whose power is switched by
    hand. *)
Definition startRedeployPowerCycle (executor : bool) (c : PowerCycle) : H unit :=
  if negb executor || unpowered (cy_original c) then mret tt else power_cycle c.
End cycle.

(** ** What is asked, in which order *)

Section logs.
Context (env : CycleEnv) (rounds : nat).
Local Abbreviation H := (Hd Db cycle_event cycle_stop).

Lemma logs_execute mi a : logs (execute env mi a) (fun evs r => ∃ x, evs = [CExec mi a x] ∧ r = Some x).
Proof. intros st. eexists. split; [reflexivity|]. by eexists. Qed.
Lemma logs_status mi : logs (check_status env mi) (fun evs r => ∃ x, evs = [CStatus mi x] ∧ r = Some x).
Proof. intros st. eexists. split; [reflexivity|]. by eexists. Qed.
Lemma logs_get name : logs (cget env name) (fun evs r => ∃ x, evs = [CRead x] ∧ r = Some x).
Proof. intros st. eexists. split; [reflexivity|]. by eexists. Qed.

(** *** Parts that switch nothing on *)

Definition not_on (e : cycle_event) : Prop := match e with CExec _ a _ => a ≠ ActionPowerOn | _ => True end.
Definition quiet {A} (m : H A) : Prop := logs m (fun evs _ => Forall not_on evs).

Lemma quiet_none {A} (m : H A) : (∀ st, hst_log (m st).1 = hst_log st) → quiet m.
Proof. intros Hm. eapply logs_impl; [by apply logs_none|]. intros e r ->. done. Qed.
Lemma silent_bind {A B} (m : H A) (f : A → H B) : quiet m → (∀ a, quiet (f a)) → quiet (m ≫= f).
Proof. intros Hm Hf. apply (logs_bind _ _ _ (fun _ evs _ => Forall not_on evs) _ Hm Hf); [done|]. intros. by apply Forall_app. Qed.
Lemma quiet_get name : quiet (cget env name).
Proof. eapply logs_impl; [apply logs_get|]. intros e r (x & -> & _). by constructor. Qed.
Lemma quiet_write f : quiet (cwrite env f).
Proof. apply quiet_none. intros st. unfold cwrite, op, mbind, Hd_bind, tick. cbn. by repeat case_match. Qed.
Lemma quiet_step : quiet (cstep env).
Proof. by apply quiet_none. Qed.
Lemma quiet_status mi : quiet (check_status env mi).
Proof. eapply logs_impl; [apply logs_status|]. intros e r (x & -> & _). by constructor. Qed.

(** What follows a return is not run. *)
Lemma quiet_return {A B C} (m : H A) (f : B → H C) : quiet m → quiet ((_ ← m; return_now) ≫= f).
Proof. intros Hm st. destruct (Hm st) as (e & E & He). unfold mbind, Hd_bind. destruct (m st) as [st1 [a|x]]; by exists e. Qed.

Ltac quiet :=
  repeat lazymatch goal with
  | |- quiet (mbind _ _) => apply silent_bind; [|intros ?]
  | |- quiet (mret _) => by apply quiet_none
  | |- quiet return_now => by apply quiet_none
  | |- quiet out_of_rounds => by apply quiet_none
  | |- quiet tick => by apply quiet_none
  | |- quiet (cget _ _) => apply quiet_get
  | |- quiet (cwrite _ _) => apply quiet_write
  | |- quiet (cstep _) => apply quiet_step
  | |- quiet (check_status _ _) => apply quiet_status
  | |- _ => case_match
  end.

Lemma quiet_observed m : quiet (windowsWakeObserved env m).
Proof. unfold windowsWakeObserved. quiet. Qed.
Lemma quiet_wake n info m : quiet (wake_rounds env n info m).
Proof. revert info. induction n as [|n IH]; intros info; cbn [wake_rounds]; cbv zeta; quiet; first [apply quiet_observed|apply IH]. Qed.
Lemma quiet_tries n m a e : quiet (record_tries env n m a e).
Proof. induction n as [|n IH]; cbn [record_tries]; cbv zeta; quiet; apply IH. Qed.
Lemma quiet_record c a e : quiet (record env c a e).
Proof. unfold record, recordWindowsRedeployPowerAction, recordMachinePowerAction. destruct (windowsWoL c); [apply quiet_tries|quiet]. Qed.

Lemma logs_wait n mi want : logs (wait_rounds env n mi want) (fun evs r => Forall not_on evs ∧ (r = Some true → CStatus mi (Ok want) ∈ evs)).
Proof.
  induction n as [|n IH]; cbn [wait_rounds]; [intros st; exists []; by rewrite app_nil_r|].
  eapply (logs_bind _ _ _ (fun x evs r => Forall not_on evs ∧ (r = Some true → x = Ok want ∨ CStatus mi (Ok want) ∈ evs))).
  - apply logs_status.
  - intros x. destruct (bool_decide (x = Ok want)) eqn:E.
    + eapply logs_impl; [apply logs_ret|]. intros e r [-> ->]. split; [done|]. left. by apply bool_decide_eq_true in E.
    + eapply logs_bind; [apply quiet_step|intros k|done|].
      * instantiate (1 := fun _ evs r => Forall not_on evs ∧ (r = Some true → CStatus mi (Ok want) ∈ evs)). cbn beta.
        destruct (ce_done env k); [eapply logs_impl; [apply logs_ret|]; intros e r [-> ->]; by split|exact IH].
      * intros e1 k e2 r H1 [H2 H3]. split; [by apply Forall_app|]. intros Hr. right. apply elem_of_app. right. by apply H3.
  - intros e (x & -> & ?). by split; [constructor|].
  - intros e1 x e2 r (y & -> & [= <-]) [H2 H3]. split; [by constructor|]. intros Hr. destruct (H3 Hr) as [->|Hin]; [left|right]; done.
Qed.

(** *** Each time the power is switched on *)

(** [G] holds of what was asked before each power-on, and of its machine. *)
Definition every_on (G : list cycle_event → MachineInfo → Prop) (evs : list cycle_event) : Prop :=
  ∀ pre mi r post, evs = pre ++ CExec mi ActionPowerOn r :: post → G pre mi.
Definition left_stable (G : list cycle_event → MachineInfo → Prop) : Prop := ∀ x pre mi, G pre mi → G (x ++ pre) mi.

Lemma every_on_app G e1 e2 : left_stable G → every_on G e1 → every_on G e2 → every_on G (e1 ++ e2).
Proof.
  intros HG H1 H2 pre mi r post E. apply app_eq_app in E as (l & [[-> E]|[-> E]]); [|by apply HG, (H2 _ _ r post)].
  destruct l as [|x l]; [|injection E as <- _; by apply (H1 _ _ r l)]. rewrite <- (app_nil_r pre). by apply HG, (H2 _ _ r post).
Qed.
Lemma quiet_every G evs : Forall not_on evs → every_on G evs.
Proof. intros Hq pre mi r post ->. apply Forall_app in Hq as [_ Hq]. by apply Forall_cons in Hq as [[] _]. Qed.
(** What comes after a part that switches nothing on. *)
Lemma every_on_after (G G' : list cycle_event → MachineInfo → Prop) e1 e2 : Forall not_on e1 → every_on G e2 → (∀ pre mi, G pre mi → G' (e1 ++ pre) mi) →
  every_on G' (e1 ++ e2).
Proof.
  intros H1 H2 HG pre mi r post E. apply app_eq_app in E as (l & [[-> E]|[-> E]]); [|by apply HG, (H2 _ _ r post)].
  destruct l as [|x l]; [|injection E as <- _; apply Forall_app in H1 as [_ H1]; by apply Forall_cons in H1 as [[] _]].
  rewrite app_nil_r in HG. rewrite <- (app_nil_r pre). by apply HG, (H2 _ _ r post).
Qed.

Definition switches (G : list cycle_event → MachineInfo → Prop) {A} (m : H A) : Prop := logs m (fun evs _ => every_on G evs).
Lemma switches_quiet G {A} (m : H A) : quiet m → switches G m.
Proof. intros Hm. eapply logs_impl; [exact Hm|]. intros e r He. by apply quiet_every. Qed.
Lemma switches_bind G {A B} (m : H A) (f : A → H B) : left_stable G → switches G m → (∀ a, switches G (f a)) → switches G (m ≫= f).
Proof. intros HG Hm Hf. apply (logs_bind _ _ _ (fun _ evs _ => every_on G evs) _ Hm Hf); [done|]. intros. by apply every_on_app. Qed.

(** The reports of an attempt that still is to be woken. *)
Definition still_due (expected : Machine) (pre : list cycle_event) : Prop :=
  ∃ pre' m, pre = pre' ++ [CRead (Ok m)] ∧ windowsWakeProgress m expected = Ok false ∧ is_active m = true.

Lemma logs_observed expected : logs (windowsWakeObserved env expected) (fun evs r => Forall not_on evs ∧ (r = Some (Ok false) → still_due expected evs)).
Proof.
  eapply (logs_bind _ _ _ (fun x evs r => evs = [] ∧ (r = Some (Ok false) → still_due expected [CRead x]))); [apply logs_get|intros x|by intros e (x & -> & ?)|].
  - eapply logs_impl; [apply logs_ret|]. intros e r [-> ->]. split; [done|]. destruct x as [m|e]; [|done]. destruct (windowsWakeProgress m expected) as [[]|] eqn:E; [done| |done].
    destruct (is_active m) eqn:Ea; [|done]. intros _. by exists [], m.
  - intros e1 a e2 r (x & -> & [= <-]) [-> Hr]. split; [by constructor|done].
Qed.

Lemma windows_on_fenced n info expected : switches (fun pre mi => mi = info ∧ still_due expected pre) (windows_on_rounds env rounds n info expected).
Proof.
  assert (HG : left_stable (fun pre mi => mi = info ∧ still_due expected pre)).
  { intros x pre mi [-> (p & m & -> & Hm)]. split; [done|]. exists (x ++ p), m. split; [by rewrite app_assoc|done]. }
  induction n as [|n IH]; cbn [windows_on_rounds]; [by apply switches_quiet, quiet_none|].
  eapply (logs_bind _ _ _ (fun x evs _ => match x with Ok false => every_on (fun pre mi => mi = info ∧ (pre = [] ∨ still_due expected pre)) evs | _ => evs = [] end));
    [apply logs_observed| |by intros e [He _]; apply quiet_every|].
  - intros x. destruct x as [[]|]; try (eapply logs_impl; [apply logs_ret|]; by intros ? ? [-> _]).
    eapply (logs_bind _ _ _ (fun _ evs _ => every_on (fun pre mi => mi = info ∧ still_due expected pre) evs)); [apply logs_execute|intros r|by intros e (x & -> & ?)|].
    + destruct r as [[]|e]; [|by apply switches_quiet, quiet_none]. apply (switches_bind _ _ _ HG); [apply switches_quiet, quiet_wake|intros w].
      apply (switches_bind _ _ _ HG); [apply switches_quiet, quiet_step|intros k].
      destruct w as [[]|e]; repeat case_match; first [apply IH|by apply switches_quiet, quiet_none].
    + intros e1 r e2 o (x & -> & _) H2 pre mi r' post E. destruct pre as [|y pre]; injection E as <-; [split; [done|by left]|].
      destruct (H2 pre mi r' post) as [-> (p & m & -> & Hm)]; [done|]. split; [done|]. right. exists (CExec info ActionPowerOn x :: p), m. done.
  - intros e1 x e2 r [H1 Hdue] H2. destruct x as [[]|]; try (subst e2; rewrite app_nil_r; by apply quiet_every).
    eapply every_on_after; [exact H1|exact H2|]. intros pre mi [-> [->|Hp]]; (split; [done|]); [rewrite app_nil_r; by apply Hdue|].
    destruct Hp as (p & m & -> & Hm). exists (e1 ++ p), m. split; [by rewrite app_assoc|done].
Qed.

Lemma power_on_switches n info : switches (fun _ mi => mi = info) (power_on_rounds env rounds n info).
Proof.
  assert (HG : left_stable (fun _ mi => mi = info)) by (by intros ? ? ?). induction n as [|n IH]; cbn [power_on_rounds]; [by apply switches_quiet, quiet_none|].
  apply (switches_bind _ _ _ HG).
  - eapply logs_impl; [apply logs_execute|]. intros e r (x & -> & _) pre mi r' post E. destruct pre as [|y [|]]; by injection E.
  - intros r. destruct r as [[]|e]; [|by apply switches_quiet, quiet_none]. case_match; [by apply switches_quiet, quiet_none|].
    apply (switches_bind _ _ _ HG); [apply switches_quiet; eapply logs_impl; [apply logs_wait|]; by intros e r [He _]|intros seen].
    destruct seen; [by apply switches_quiet, quiet_none|]. apply (switches_bind _ _ _ HG); [apply switches_quiet, quiet_step|intros k].
    case_match; [by apply switches_quiet, quiet_none|apply IH].
Qed.

(** The machine has been switched off, and has then been seen stopped. *)
Definition stopped_seen (off : MachineInfo) (pre : list cycle_event) : Prop :=
  ∃ a b, pre = a ++ CExec off ActionPowerOff (Ok tt) :: b ∧ CStatus off (Ok PowerStateStopped) ∈ b.
Definition due (c : PowerCycle) (pre : list cycle_event) (mi : MachineInfo) : Prop :=
  mi = powerOnInfo c ∧ (windowsWoL c = true → still_due (cy_machine c) pre).

Lemma due_stable c : left_stable (due c).
Proof. intros x pre mi [-> Hd]. split; [done|]. intros Hw. destruct (Hd Hw) as (p & m & -> & Hm). exists (x ++ p), m. split; [by rewrite app_assoc|done]. Qed.

Lemma power_on_due c : switches (due c) (if windowsWoL c then powerOnWindowsRedeployMachine env rounds (powerOnInfo c) (cy_machine c) else powerOnRedeployMachine env rounds (powerOnInfo c)).
Proof.
  unfold due. destruct (windowsWoL c).
  - eapply logs_impl; [apply windows_on_fenced|]. intros e r He pre mi r' post E. destruct (He pre mi r' post E) as [-> Hd]. done.
  - eapply logs_impl; [apply power_on_switches|]. intros e r He pre mi r' post E. split; [exact (He pre mi r' post E)|done].
Qed.

Lemma wait_then_on c want {A} (k : bool → H A) : quiet (k false) → switches (due c) (k true) →
  switches (fun pre mi => due c pre mi ∧ CStatus (powerOffInfo c) (Ok want) ∈ pre) (waitForMachinePowerState env rounds (powerOffInfo c) want ≫= k).
Proof.
  intros Hf Ht. eapply (logs_bind _ _ _ (fun b evs _ => if b : bool then every_on (due c) evs else Forall not_on evs)); [apply logs_wait| |by intros e [He _]; apply quiet_every|].
  - intros []; [exact Ht|exact Hf].
  - intros e1 [] e2 r [H1 Hs] H2; [|by apply quiet_every, Forall_app].
    eapply every_on_after; [exact H1|exact H2|]. intros pre mi Hd. split; [by apply due_stable|]. apply elem_of_app. left. by apply Hs.
Qed.

(** C16: a machine is switched on only once it has been seen off.  Whatever the executor
    answers, whatever the other requests do and however long it takes: each time the
    power cycle of a redeployment switches a machine on, it is the machine committed
    (or the one it was, when its new power is switched by hand), the machine as it was
    has been switched off successfully before, and has been seen stopped since.  When
    it is Windows that is woken over the network, the very last thing before was to
    read that the same attempt is still active and has not begun to install: an
    installation under way is not interrupted, nor a later attempt. *)
Theorem power_on_after_stopped (executor : bool) (c : PowerCycle) (st : HState Db cycle_event) :
  ∃ evs, hst_log (startRedeployPowerCycle env rounds executor c st).1 = hst_log st ++ evs
  ∧ every_on (fun pre mi => due c pre mi ∧ stopped_seen (powerOffInfo c) pre) evs.
Proof.
  cut (switches (fun pre mi => due c pre mi ∧ stopped_seen (powerOffInfo c) pre) (startRedeployPowerCycle env rounds executor c)); [intros Hm; apply Hm|].
  assert (HG : left_stable (fun pre mi => due c pre mi ∧ stopped_seen (powerOffInfo c) pre)).
  { intros x pre mi [Hd (a & b & -> & Hb)]. split; [by apply due_stable|]. exists (x ++ a), b. by rewrite app_assoc. }
  assert (HG2 : left_stable (fun pre mi => due c pre mi ∧ CStatus (powerOffInfo c) (Ok PowerStateStopped) ∈ pre)).
  { intros x pre mi [Hd Hs]. split; [by apply due_stable|]. apply elem_of_app. by right. }
  unfold startRedeployPowerCycle. case_match; [by apply switches_quiet, quiet_none|]. unfold power_cycle. cbv zeta.
  apply (switches_bind _ _ _ HG); [apply switches_quiet; quiet; apply quiet_observed|intros _].
  eapply (logs_bind _ _ _ (fun r evs _ => match r with Err _ => Forall not_on evs | Ok _ => every_on (fun pre mi => due c pre mi ∧ CStatus (powerOffInfo c) (Ok PowerStateStopped) ∈ pre) evs end)).
  - apply logs_execute.
  - intros [[]|e]; [|apply quiet_return, quiet_record]. apply (switches_bind _ _ _ HG2); [by apply switches_quiet, quiet_none|intros _].
    apply (switches_bind _ _ _ HG2); [apply switches_quiet, quiet_record|intros _]. apply (switches_bind _ _ _ HG2).
    + apply switches_quiet. case_match; quiet; apply quiet_record.
    + intros _. apply wait_then_on; [apply quiet_return, quiet_record|]. apply (switches_bind _ _ _ (due_stable c)); [by apply switches_quiet, quiet_none|intros _].
      apply (switches_bind _ _ _ (due_stable c)); [apply power_on_due|intros r]. apply switches_quiet. destruct r; apply quiet_record.
  - by intros e (x & -> & ?).
  - intros e1 x e2 r (y & -> & [= <-]) H2. destruct x as [[]|e].
    + eapply every_on_after; [by constructor|exact H2|]. intros pre mi [Hd Hs]. split; [by apply (due_stable c [_])|]. by exists [], pre.
    + by apply quiet_every; constructor.
Qed.
End logs.

(** ** The cycle ends *)

Section ends.
Context (env : CycleEnv) (rounds K : nat).
Local Abbreviation H := (Hd Db cycle_event cycle_stop).

(** From step [K] on the contexts have expired, and no [select] prefers its ticker. *)
Definition expires : Prop := ∀ k, (K <= k)%nat → ce_done env k = true ∧ is_Some (ce_ctx env k).
Context (Hexp : expires) (Hrounds : (K < rounds)%nat).

Definition over {A} (r : A + cycle_stop) : Prop := match r with inr OutOfRounds => False | _ => True end.
Definition ends {A} (m : H A) : Prop := ∀ st, over (m st).2.
Definition mono {A} (m : H A) : Prop := ∀ st, (hst_tick st <= hst_tick (m st).1)%nat.

(** A run that ends from [st] on, when what follows does from where it got to. *)
Lemma over_then {A B} (m : H A) (f : A → H B) st : over (m st).2 → (∀ st1 a, m st = (st1, inl a) → over (f a st1).2) → over ((m ≫= f) st).2.
Proof. intros Hm Hf. unfold mbind, Hd_bind. destruct (m st) as [st1 [a|x]]; [by apply Hf|exact Hm]. Qed.
Lemma ends_bind {A B} (m : H A) (f : A → H B) : ends m → (∀ a, ends (f a)) → ends (m ≫= f).
Proof. intros Hm Hf st. apply over_then; [apply Hm|]. intros st1 a _. apply Hf. Qed.
Lemma mono_bind {A B} (m : H A) (f : A → H B) : mono m → (∀ a, mono (f a)) → mono (m ≫= f).
Proof.
  intros Hm Hf st. unfold mbind, Hd_bind. specialize (Hm st). destruct (m st) as [st1 [a|x]]; [|exact Hm]. cbn in Hm. specialize (Hf a st1). lia.
Qed.
Lemma mono_plain {A} (m : H A) : (∀ st, hst_tick (m st).1 = hst_tick st ∨ hst_tick (m st).1 = S (hst_tick st)) → mono m.
Proof. intros Hm st. destruct (Hm st); lia. Qed.

(** One more round before step [K], or the [select] after it. *)
Lemma select_ends {A} st (yes no : H A) : over (yes (mkHState (S (hst_tick st)) (ce_others env (hst_tick st) (hst_store st)) (hst_log st))).2 →
  ((hst_tick st < K)%nat → over (no (mkHState (S (hst_tick st)) (ce_others env (hst_tick st) (hst_store st)) (hst_log st))).2) →
  over ((k ← cstep env; if ce_done env k then yes else no) st).2.
Proof.
  intros Hy Hn. change (over ((if ce_done env (hst_tick st) then yes else no) (mkHState (S (hst_tick st)) (ce_others env (hst_tick st) (hst_store st)) (hst_log st))).2).
  destruct (decide (K <= hst_tick st)%nat) as [Hk|Hk]; [by rewrite (proj1 (Hexp _ Hk))|].
  destruct (ce_done env (hst_tick st)); [exact Hy|apply Hn; lia].
Qed.

Lemma wait_ends n mi want st : (1 <= n)%nat → (K < n + hst_tick st)%nat → over (wait_rounds env n mi want st).2.
Proof.
  revert st. induction n as [|n IH]; intros st Hn HK; [lia|]. cbn [wait_rounds]. apply over_then; [done|]. intros st1 a [= <- <-].
  case_match; [done|]. apply select_ends; [done|]. cbn [hst_tick]. intros Hk. apply IH; cbn [hst_tick]; lia.
Qed.
Lemma waiting_ends mi want : ends (waitForMachinePowerState env rounds mi want).
Proof. intros st. apply wait_ends; lia. Qed.
Lemma wait_mono n mi want : mono (wait_rounds env n mi want).
Proof.
  induction n as [|n IH]; cbn [wait_rounds]; [apply mono_plain; by left|]. apply mono_bind; [apply mono_plain; by right|intros x]. case_match; [apply mono_plain; by left|].
  apply mono_bind; [apply mono_plain; by right|intros k]. case_match; [apply mono_plain; by left|apply IH].
Qed.

Lemma wake_ends n info m st : (1 <= n)%nat → (K < n + hst_tick st)%nat → over (wake_rounds env n info m st).2.
Proof.
  revert st info. induction n as [|n IH]; intros st info Hn HK; [lia|]. cbn [wake_rounds]. apply over_then; [done|]. intros st1 a H1.
  destruct a as [[]|]; [done| |done]. apply over_then; [done|]. intros st2 cur H2. destruct cur as [cur|]; [|done]. destruct (windowsWakeProgress cur m) as [[]|]; [done| |done].
  cbv zeta. match goal with |- context [check_status _ ?i] => generalize i; intros info' end. apply over_then; [done|]. intros st3 x H3.
  case_match; [done|]. apply select_ends; [done|]. intros Hk.
  assert (hst_tick st1 = S (hst_tick st) ∧ hst_tick st2 = S (hst_tick st1) ∧ hst_tick st3 = S (hst_tick st2)) as (E1 & E2 & E3).
  { clear -H1 H2 H3. split_and!; [by injection H1 as <- _|by injection H2 as <- _|by injection H3 as <- _]. }
  apply IH; cbn [hst_tick]; lia.
Qed.
Lemma wake_mono n info m : mono (wake_rounds env n info m).
Proof.
  revert info. induction n as [|n IH]; intros info; cbn [wake_rounds]; cbv zeta; [apply mono_plain; by left|].
  repeat lazymatch goal with
  | |- mono (mbind _ _) => apply mono_bind; [try (apply mono_plain; by right)|intros ?]
  | |- mono (mret _) => apply mono_plain; by left
  | |- mono (wake_rounds _ _ _ _) => apply IH
  | |- _ => case_match
  end.
Qed.

Lemma power_on_ends n info st : (1 <= n)%nat → (K < n + hst_tick st)%nat → over (power_on_rounds env rounds n info st).2.
Proof.
  revert st. induction n as [|n IH]; intros st Hn HK; [lia|]. cbn [power_on_rounds]. apply over_then; [done|]. intros st1 a H1.
  assert (E1 : hst_tick st1 = S (hst_tick st)) by (by injection H1 as <- _). destruct a as [[]|]; [|done]. case_match; [done|].
  apply over_then; [apply waiting_ends|]. intros st2 seen H2. pose proof (wait_mono rounds info PowerStateRunning st1) as E2.
  unfold waitForMachinePowerState in H2. rewrite H2 in E2. cbn in E2. destruct seen; [done|]. apply over_then; [done|]. intros st3 k H3.
  assert (k = hst_tick st2 ∧ hst_tick st3 = S (hst_tick st2)) as [-> E3] by (by injection H3 as <- <-).
  destruct (decide (K <= hst_tick st2)%nat) as [Hk|Hk]; [by destruct (Hexp _ Hk) as [_ [e ->]]|]. case_match; [done|]. apply IH; lia.
Qed.
Lemma windows_on_ends n info m st : (1 <= n)%nat → (K < n + hst_tick st)%nat → over (windows_on_rounds env rounds n info m st).2.
Proof.
  revert st. induction n as [|n IH]; intros st Hn HK; [lia|]. cbn [windows_on_rounds]. apply over_then; [done|]. intros st1 a H1.
  assert (E1 : hst_tick st1 = S (hst_tick st)) by (by injection H1 as <- _). clear H1. destruct a as [[]|]; [done| |done]. apply over_then; [done|]. intros st2 r H2.
  assert (E2 : hst_tick st2 = S (hst_tick st1)) by (by injection H2 as <- _). destruct r as [[]|]; [|done].
  apply over_then; [apply wake_ends; lia|]. intros st3 w H3. pose proof (wake_mono rounds info m st2) as E3. unfold waitWindowsWake in H3. rewrite H3 in E3. cbn in E3.
  apply over_then; [done|]. intros st4 k H4. assert (k = hst_tick st3 ∧ hst_tick st4 = S (hst_tick st3)) as [-> E4] by (by injection H4 as <- <-).
  destruct (decide (K <= hst_tick st3)%nat) as [Hk|Hk]; [destruct (Hexp _ Hk) as [_ [e ->]]; by repeat case_match|]. repeat case_match; try done; apply IH; lia.
Qed.

Lemma plain_ends {A} (m : H A) : (∀ st, ∃ a, (m st).2 = inl a) → ends m.
Proof. intros Hm st. destruct (Hm st) as [a ->]. done. Qed.
Lemma tries_end n m a e : ends (record_tries env n m a e).
Proof.
  induction n as [|n IH]; cbn [record_tries]; [done|]. apply ends_bind; [done|intros cur]. destruct cur; [|done]. destruct (windowsWakeProgress _ _); [|done].
  case_match; [done|]. case_match; [done|]. apply ends_bind; [done|intros k]. cbv zeta. apply ends_bind; [|intros w; repeat case_match; first [done|apply IH]].
  apply plain_ends. intros st. unfold cwrite, op, mbind, Hd_bind, tick. cbn. repeat case_match; by eexists.
Qed.
Lemma record_ends c a e : ends (record env c a e).
Proof.
  unfold record. case_match; [apply tries_end|]. apply plain_ends. intros st. exists tt. unfold recordMachinePowerAction, cwrite, op, mbind, Hd_bind, tick. cbn. by repeat case_match.
Qed.

(** C39: the power cycle of a redeployment ends.  If there is a step from which its
    contexts have expired and its [select]s take notice, then, whatever the executor and
    the tables answer, the goroutine returns: more rounds than that step are enough for
    each of its loops, so that the number of rounds bounds nothing. *)
Theorem power_cycle_ends (executor : bool) (c : PowerCycle) (st : HState Db cycle_event) :
  (startRedeployPowerCycle env rounds executor c st).2 ≠ inr OutOfRounds.
Proof.
  cut (ends (startRedeployPowerCycle env rounds executor c)); [intros He E; specialize (He st); by rewrite E in He|].
  unfold startRedeployPowerCycle, power_cycle. case_match; [done|]. cbv zeta.
  repeat lazymatch goal with
  | |- ends (mbind _ _) => apply ends_bind; [|intros ?]
  | |- ends (record _ _ _ _) => apply record_ends
  | |- ends (waitForMachinePowerState _ _ _ _) => apply waiting_ends
  | |- ends (powerOnWindowsRedeployMachine _ _ _ _) => intros s; apply windows_on_ends; lia
  | |- ends (powerOnRedeployMachine _ _ _) => intros s; apply power_on_ends; lia
  | |- ends (if _ then _ else _) => case_match
  | |- ends (match _ with _ => _ end) => case_match
  | |- _ => done
  end.
Qed.
End ends.

(** ** What it writes *)

Section writes.
Context (pemDecode : string → option (string * bytes * string)) (parsePKIX : bytes → result (option Z)) (env : CycleEnv) (rounds : nat).
Local Abbreviation keeps := (keep_step pemDecode parsePKIX).
Local Abbreviation tabled := (does (ce_others env) (rtc keeps)).

Lemma tabled_cwrite f : (∀ db db' b, f db = Ok (db', b) → keeps db db') → tabled (cwrite env f).
Proof.
  intros Hf. unfold cwrite. apply does_bind; [apply does_tick|intros k]. apply does_op. intros s. destruct (ce_fault env k); [apply rtc_refl|].
  destruct (f s) as [[db b]|e] eqn:E; [|apply rtc_refl]. apply rtc_once. by eapply Hf.
Qed.
Lemma callback_keeps db a b db' w : machine_callback db a b = (db', w) → keeps db db'.
Proof. intros E. split; [by eapply st_callback|]. intros n Hn. revert E. unfold machine_callback. repeat case_match; intros [= <- _]; exact Hn. Qed.
Lemma action_keeps db name a e t db' : UpdatePowerActionStatus db name a e t = Ok db' → keeps db db'.
Proof. unfold UpdatePowerActionStatus. destruct (db_machines db !! name) eqn:E; [|done]. intros [= <-]. split; [by eapply st_status|done]. Qed.

Ltac tabled :=
  repeat lazymatch goal with
  | |- does _ _ (mbind _ _) => apply does_bind; [|intros ?]
  | |- does _ _ (mret _) => apply does_ret
  | |- does _ _ (answer_with _) => apply does_answer
  | |- does _ _ return_now => apply does_answer
  | |- does _ _ out_of_rounds => apply does_answer
  | |- does _ _ (emit _) => apply does_emit
  | |- does _ _ tick => apply does_tick
  | |- does _ _ (op _ _) => apply does_read
  | |- _ => case_match
  end.

Lemma tabled_observed m : tabled (windowsWakeObserved env m).
Proof. unfold windowsWakeObserved, cget. tabled. Qed.
Lemma tabled_wait n mi want : tabled (wait_rounds env n mi want).
Proof. induction n as [|n IH]; cbn [wait_rounds]; unfold check_status, cstep; cbv zeta; tabled; apply IH. Qed.
Lemma tabled_on n info : tabled (power_on_rounds env rounds n info).
Proof. induction n as [|n IH]; cbn [power_on_rounds]; unfold execute, cstep, waitForMachinePowerState; cbv zeta; tabled; first [apply tabled_wait|apply IH]. Qed.
Lemma tabled_wake n info m : tabled (wake_rounds env n info m).
Proof. revert info. induction n as [|n IH]; intros info; cbn [wake_rounds]; unfold check_status, cget, cstep; cbv zeta; tabled; first [apply tabled_observed|apply IH]. Qed.
Lemma tabled_windows n info m : tabled (windows_on_rounds env rounds n info m).
Proof.
  induction n as [|n IH]; cbn [windows_on_rounds]; unfold execute, cstep, waitWindowsWake; cbv zeta; tabled; first [apply tabled_observed|apply tabled_wake|apply IH].
Qed.
Lemma tabled_record c a e : tabled (record env c a e).
Proof.
  unfold record, recordWindowsRedeployPowerAction, recordMachinePowerAction. case_match.
  - generalize 3%nat. intros n. induction n as [|n IH]; cbn [record_tries]; unfold cget; cbv zeta; tabled; try apply IH; apply tabled_cwrite; intros ? ? ? [= E]; by eapply callback_keeps.
  - tabled. apply tabled_cwrite. intros db db' b. destruct (UpdatePowerActionStatus _ _ _ _ _) eqn:E; [|done]. intros [= <- _]. by eapply action_keeps.
Qed.

(** Like the handlers that start it, a power cycle only executes statements the claims
    are safe against. *)
Lemma power_cycle_statements executor c st : (∀ k db, rtc keeps db (ce_others env k db)) → rtc keeps (hst_store st) (hst_store (startRedeployPowerCycle env rounds executor c st).1).
Proof.
  intros Henv. assert (Hd : tabled (startRedeployPowerCycle env rounds executor c)).
  { unfold startRedeployPowerCycle, power_cycle, execute, cstep, waitForMachinePowerState, powerOnWindowsRedeployMachine, powerOnRedeployMachine. cbv zeta.
    tabled; first [apply tabled_observed|apply tabled_record|apply tabled_wait|apply tabled_windows|apply tabled_on]. }
  specialize (Hd st). revert Hd. generalize (hst_store st) (hst_store (startRedeployPowerCycle env rounds executor c st).1). intros s s'.
  induction 1 as [s|k s s' _ IH|s s1 s' Hs _ IH]; [apply rtc_refl|..]; etrans; eauto.
Qed.
End writes.

(** ** A run *)

(** A machine that stops at the third look, switched off and on again. *)
Definition demo_cycle_env : CycleEnv :=
  mkCycleEnv (fun _ db => db) (fun _ => None) (fun _ => 1) (fun _ _ _ => Ok tt) (fun k _ => Ok (if (5 <=? k)%nat then PowerStateStopped else PowerStateRunning))
    (fun _ => None) (fun k => (8 <=? k)%nat) (fun k => (8 <=? k)%nat) (fun k => if (8 <=? k)%nat then Some ErrDeadlineExceeded else None).
Definition ipmi_machine : Machine :=
  demo_machine <| m_Power := mkPowerConfig PowerTypeIPMI (Some (mkIPMIConfig "10.0.0.9" "u" "p" "lanplus")) None None None |>.
Definition ipmi_cycle : PowerCycle := mkPowerCycle ipmi_machine ipmi_machine "".
Definition ipmi_run := startRedeployPowerCycle demo_cycle_env 9 true ipmi_cycle (mkHState 0 demo1 []).

Lemma ipmi_run_log : hst_log ipmi_run.1 =
  let i := powerOffInfo ipmi_cycle in
  [CExec i ActionPowerOff (Ok tt); CStatus i (Ok PowerStateRunning); CStatus i (Ok PowerStateRunning); CStatus i (Ok PowerStateStopped); CExec i ActionPowerOn (Ok tt)].
Proof. vm_compute. reflexivity. Qed.

Lemma demo_expires : expires demo_cycle_env 8.
Proof.
  intros k Hk. change ((8 <=? k)%nat = true ∧ is_Some (if (8 <=? k)%nat then Some ErrDeadlineExceeded else None)).
  rewrite (proj2 (Nat.leb_le 8 k) Hk). split; [done|by eexists].
Qed.
Lemma power_cycle_ends_witness : ipmi_run.2 ≠ inr OutOfRounds.
Proof. apply (power_cycle_ends demo_cycle_env 9 8 demo_expires). lia. Defined.
