(* ===== verification/Dns.v ===== *)
(** * infra/dns: the embedded name server

    embedded.go, embedded_records.go, embedded_dynamic.go, embedded_update.go,
    embedded_axfr.go, embedded_persistence.go and embedded_util.go: the zones and
    addresses taken from the inventory, the records added by hand or by update messages,
    and the answers.  The order in which Go goes through a map is a parameter.  Names
    are canonicalised by the DNS library, a parameter too. *)
From S2P Require Import Prelude GoStrings GoNet GoPath Resource Power Store Subnet Machine Vm.

(** ** Messages *)

Definition TypeA : Z := 1.
Definition TypeNS : Z := 2.
Definition TypeCNAME : Z := 5.
Definition TypeSOA : Z := 6.
Definition TypeTXT : Z := 16.
Definition TypeAXFR : Z := 252.
Definition TypeANY : Z := 255.
Definition ClassINET : Z := 1.
Definition ClassNONE : Z := 254.
Definition ClassANY : Z := 255.
Definition RcodeSuccess : Z := 0.
Definition RcodeFormatError : Z := 1.
Definition RcodeServerFailure : Z := 2.
Definition RcodeNameError : Z := 3.
Definition RcodeNotImplemented : Z := 4.
Definition RcodeRefused : Z := 5.
Definition RcodeNotZone : Z := 10.

(** The data of a record; an address is [None] when it is not of IPv4. *)
Inductive rdata : Type :=
| DA (addr : option Z) | DTXT (txt : list string) | DCNAME (target : string) | DNS (ns : string)
| DSOA (ns mbox : string) (serial refresh retry expire minttl : Z) | DOther (rrType : Z).
Record RR := mkRR { rr_Name : string; rr_Class : Z; rr_TTL : Z; rr_Data : rdata }.
Definition RRToType (rr : RR) : Z :=
  match rr_Data rr with DA _ => TypeA | DTXT _ => TypeTXT | DCNAME _ => TypeCNAME | DNS _ => TypeNS | DSOA _ _ _ _ _ _ _ => TypeSOA | DOther t => t end.
Record Question := mkQuestion { q_Name : string; q_Type : Z; q_Class : Z }.
(** [m_Ns] are the records of the update section, [None] when they do not unpack. *)
Record Msg := mkMsg { m_Update : bool; m_Question : list Question; m_Ns : option (list RR) }.
Inductive DnsReply : Type := DReply (rcode : Z) (answer : list RR) | DTransfer (rrs : list RR).

Global Instance rdata_eq_dec : EqDecision rdata.
Proof. solve_decision. Defined.
Global Instance RR_eq_dec : EqDecision RR.
Proof. solve_decision. Defined.

(** ** Records *)

Record dynamicRecordSet := mkDynamicRecordSet { ds_TTL : Z; ds_Values : list string; ds_CreatedAt : Time; ds_UpdatedAt : Time }.
Global Instance dynamicRecordSet_fields : Fields dynamicRecordSet := fpure mkDynamicRecordSet <*> ds_TTL <*> ds_Values <*> ds_CreatedAt <*> ds_UpdatedAt.
Record DynamicRecord := mkDynamicRecord {
  dr_Name : string; dr_Type : string; dr_TTL : Z; dr_Values : list string; dr_CreatedAt : Time; dr_UpdatedAt : Time }.
(** The entries of the file have the fields of a record. *)
Definition dynamicRecordEntry : Type := DynamicRecord.
Abbreviation dynamicRecords := (gmap string (gmap Z dynamicRecordSet)).

Record EmbeddedServer := mkEmbeddedServer {
  es_ttl : Z; es_dynamicRecordsPath : string; es_zones : gset string; es_records : gmap string (list Z); es_dynamicRecords : dynamicRecords;
  es_dynamicLoaded : bool; es_serialAt : Time }.
Global Instance EmbeddedServer_fields : Fields EmbeddedServer :=
  fpure mkEmbeddedServer <*> es_ttl <*> es_dynamicRecordsPath <*> es_zones <*> es_records <*> es_dynamicRecords <*> es_dynamicLoaded <*> es_serialAt.

(** A duration of whole seconds below 2^32, or the default of five minutes. *)
Definition NewEmbeddedServer (ttl : Duration) (path : string) : EmbeddedServer :=
  mkEmbeddedServer (if 0 <? ttl then (ttl `div` Second) `mod` 2 ^ 32 else 300) (TrimSpace path) ∅ ∅ ∅ false 0.

Definition errDynamicFormat : error := ErrNew "dynamic dns update format error".
Definition errDynamicNotZone : error := ErrNew "dynamic dns update outside zone".
Definition errDynamicUnsupported : error := ErrNew "dynamic dns record type unsupported".
Definition errDynamicCNAMEConflict : error := ErrNew "dynamic dns cname conflicts with existing records".

(** [netip.ParseAddr] of an address [Is4]: the mapped form of IPv6 is not. *)
Definition ParseAddr4 (s : string) : option Z := if is_ipv4_syntax (to_bytes s) then parse_ipv4 (to_bytes s) ≫= be32 else None.

(** [strings.ToUpper], as far as it yields the letters of the record types. *)
Definition upper_ascii (c : ascii) : ascii := if is_lower c then byte_of (byte_val c - 32) else c.
Definition ToUpper (s : string) : string := of_bytes (upper_ascii <$> to_bytes s).

Definition dynamicTypeName (rrType : Z) : string :=
  if rrType =? TypeA then "A" else if rrType =? TypeTXT then "TXT" else if rrType =? TypeCNAME then "CNAME" else "TYPE" +:+ Itoa rrType.
Definition dynamicTypeFromName (name : string) : option Z :=
  let n := ToUpper (TrimSpace name) in
  if n ==? "A" then Some TypeA else if n ==? "TXT" then Some TypeTXT else if n ==? "CNAME" then Some TypeCNAME else None.

Definition nameInZone (name zone : string) : bool := (name ==? zone) || HasSuffix name ("." +:+ zone).
Definition inZone (name : string) (zones : gset string) : bool := existsb (nameInZone name) (elements zones).
Definition hasDNSNameUnsafeChars (value : string) : bool := ContainsAny (TrimSpace value) (of_bytes (byte_of <$> [32; 9; 13; 10; 47])).

(** By type. *)
Definition type_le (x y : Z * dynamicRecordSet) : Prop := x.1 <= y.1.
Global Instance type_le_dec x y : Decision (type_le x y).
Proof. unfold type_le. apply _. Defined.

(** The records of the JSON file on disk, with the time of its last change, and what may
    go wrong with it.  JSON holds strings that are valid UTF-8. *)
Record Disk := mkDisk { dk_file : option (list dynamicRecordEntry); dk_modTime : Time }.
Record DiskFaults := mkDiskFaults { df_read : option error; df_stat : bool; df_write : option error }.

Section dns.
Context (Canonical : string → string) (IsName : string → bool).
Context (zone_order : gset string → list string) (type_order : gmap Z dynamicRecordSet → list (Z * dynamicRecordSet)).

(** ** embedded.go: names *)

Definition canonicalFQDN (raw : string) : option string :=
  let raw := TrimSpace raw in
  if raw ==? "" then None else
  let out := Canonical raw in
  if (out ==? ".") || negb (IsName out) then None else Some out.

Definition hostFQDN (hostname fallback domain : string) : option string :=
  let host := Trim (TrimSpace hostname) "." in
  let host := if host ==? "" then Trim (TrimSpace fallback) "." else host in
  if host ==? "" then None else
  let candidate := Canonical host in
  if (candidate ==? domain) || HasSuffix candidate ("." +:+ domain) then if IsName candidate then Some candidate else None
  else canonicalFQDN (host +:+ "." +:+ TrimSuffix domain ".").

(** ** embedded.go: the inventory *)

(** An address is recorded once. *)
Definition addRecord (records : gmap string (list Z)) (name rawIP : string) : gmap string (list Z) :=
  match ParseAddr4 (TrimSpace rawIP) with
  | None => records
  | Some addr => let ips := default [] (records !! name) in if bool_decide (addr ∈ ips) then records else <[name := ips ++ [addr]]> records
  end.
Definition vmIPv4Candidates (v : VirtualMachine) : list string :=
  (ni_IPAddress <$> v_Network v) ++ v_IPAddresses v ++ flat_map nis_IPAddresses (v_NetworkInterfaces v).

Definition subnet_domains (l : list Subnet) : gset string * gmap string string :=
  fold_left (fun '(zones, doms) sub => match canonicalFQDN (ss_DomainName (sn_Spec sub)) with
                                       | Some zone => ({[zone]} ∪ zones, <[sn_Name sub := zone]> doms)
                                       | None => (zones, doms)
                                       end) l (∅, ∅).
(** The domain of a host: its own, or that of its subnet. *)
Definition domain_of (doms : gmap string string) (own subnetRef : string) : option string :=
  match canonicalFQDN own with
  | Some d => Some d
  | None => let d := default "" (doms !! subnetRef) in if d ==? "" then None else Some d
  end.
(** What a host contributes: its domain, its name there, its addresses. *)
Definition host_entry (doms : gmap string string) (domain subnetRef hostname name : string) (ips : list string) : option (string * option string * list string) :=
  d ← domain_of doms domain subnetRef; Some (d, hostFQDN hostname name d, ips).
Definition machine_entry (doms : gmap string string) (m : Machine) := host_entry doms (nc_Domain (m_Network m)) (m_SubnetRef m) (m_Hostname m) (m_Name m) [m_IP m].
Definition vm_entry (doms : gmap string string) (v : VirtualMachine) := host_entry doms (v_Domain v) (v_SubnetRef v) (v_Name v) (v_Name v) (vmIPv4Candidates v).
Definition add_entry (acc : gset string * gmap string (list Z)) (e : option (string * option string * list string)) : gset string * gmap string (list Z) :=
  match e with
  | None => acc
  | Some (domain, name, ips) =>
      ({[domain]} ∪ acc.1, match name with Some name => fold_left (fun r ip => addRecord r name ip) ips acc.2 | None => acc.2 end)
  end.
Definition collect (subnets : list Subnet) (machines : list Machine) (vms : list VirtualMachine) : gset string * gmap string (list Z) :=
  let '(zones, doms) := subnet_domains subnets in
  fold_left add_entry ((machine_entry doms <$> machines) ++ (vm_entry doms <$> vms)) (zones, ∅).

(** ** embedded_records.go *)

Definition sorted_types (sets : gmap Z dynamicRecordSet) : list (Z * dynamicRecordSet) := merge_sort type_le (map_to_list sets).
Definition dynamicRecordFromSet (name : string) (rrType : Z) (set : dynamicRecordSet) : DynamicRecord :=
  mkDynamicRecord name (dynamicTypeName rrType) (ds_TTL set) (sort_Strings (ds_Values set)) (ds_CreatedAt set) (ds_UpdatedAt set).
Definition dynamicRecordEntries (records : dynamicRecords) : list dynamicRecordEntry :=
  flat_map (fun name => (fun '(t, set) => dynamicRecordFromSet name t set) <$> sorted_types (default ∅ (records !! name))) (sorted_set (dom records)).
Definition dynamicRecordsFromMap (records : dynamicRecords) : list DynamicRecord :=
  flat_map (fun e => match dynamicTypeFromName (dr_Type e) with
                     | Some t => [mkDynamicRecord (dr_Name e) (dynamicTypeName t) (dr_TTL e) (dr_Values e) (dr_CreatedAt e) (dr_UpdatedAt e)]
                     | None => []
                     end) (dynamicRecordEntries records).

Definition dynamicRRs (name : string) (rrType : Z) (set : dynamicRecordSet) : list RR :=
  let rr d := mkRR name ClassINET (ds_TTL set) d in
  flat_map (fun value =>
    if rrType =? TypeA then match ParseAddr4 value with Some addr => [rr (DA (Some addr))] | None => [] end
    else if rrType =? TypeTXT then [rr (DTXT [value])]
    else if rrType =? TypeCNAME then match canonicalFQDN value with Some target => [rr (DCNAME target)] | None => [] end
    else []) (ds_Values set).

Definition dynamicRecordValue (rr : RR) : option string :=
  match rr_Data rr with
  | DA (Some addr) => Some (ip4_String addr)
  | DTXT txt => Some (String.concat "" txt)
  | DCNAME target => canonicalFQDN target
  | _ => None
  end.

Definition addDynamicRecordValue (records : dynamicRecords) (name : string) (rrType ttl : Z) (value : string) (now : Time) : dynamicRecords :=
  let sets := default ∅ (records !! name) in
  let set := default (mkDynamicRecordSet 0 [] 0 0) (sets !! rrType) in
  let values := if rrType =? TypeCNAME then [value] else if bool_decide (value ∈ ds_Values set) then ds_Values set else ds_Values set ++ [value] in
  <[name := <[rrType := mkDynamicRecordSet (if ds_TTL set =? 0 then ttl else ds_TTL set) values
                          (if time_IsZero (ds_CreatedAt set) then now else ds_CreatedAt set) now]> sets]> records.
Definition deleteDynamicRecordSet (records : dynamicRecords) (name : string) (rrType : Z) : dynamicRecords :=
  match records !! name with
  | None => records
  | Some sets => let sets := delete rrType sets in if bool_decide (sets = ∅) then delete name records else <[name := sets]> records
  end.
Definition deleteDynamicRecordValue (records : dynamicRecords) (name : string) (rrType : Z) (value : string) (now : Time) : dynamicRecords :=
  match records !! name with
  | None => records
  | Some sets =>
      match sets !! rrType with
      | None => records
      | Some set =>
          let values := filter (fun v => v ≠ value) (ds_Values set) in
          if bool_decide (values = []) then deleteDynamicRecordSet records name rrType
          else <[name := <[rrType := set <| ds_Values := values |> <| ds_UpdatedAt := now |>]> sets]> records
      end
  end.

(** Each value once, sorted; the target of an alias in its canonical form. *)
Definition normal_value (rrType : Z) (value : string) : string :=
  let value := TrimSpace value in if rrType =? TypeCNAME then default value (canonicalFQDN value) else value.
Definition normalizeDynamicRecordValues (rrType : Z) (raw : list string) : list string :=
  sort_Strings (fold_left (fun values v => if (TrimSpace v ==? "") || bool_decide (normal_value rrType v ∈ values) then values else values ++ [normal_value rrType v]) raw []).
Definition validDynamicRecordValue (rrType : Z) (value : string) : bool :=
  if rrType =? TypeA then bool_decide (is_Some (ParseAddr4 value))
  else if rrType =? TypeTXT then TrimSpace value !=? ""
  else if rrType =? TypeCNAME then negb (hasDNSNameUnsafeChars value) && bool_decide (is_Some (canonicalFQDN value))
  else false.

(** ** embedded_persistence.go *)

Definition load_entry (ttl : Z) (loadedAt : Time) (records : dynamicRecords) (e : dynamicRecordEntry) : dynamicRecords :=
  match canonicalFQDN (dr_Name e), dynamicTypeFromName (dr_Type e) with
  | Some name, Some rrType =>
      let values := normalizeDynamicRecordValues rrType (dr_Values e) in
      if bool_decide (values = []) then records else
      let or_loaded t := if time_IsZero t then loadedAt else t in
      <[name := <[rrType := mkDynamicRecordSet (if dr_TTL e =? 0 then ttl else dr_TTL e) values (or_loaded (dr_CreatedAt e)) (or_loaded (dr_UpdatedAt e))]>
                  (default ∅ (records !! name))]> records
  | _, _ => records
  end.
Definition loadDynamicRecordsLocked (s : EmbeddedServer) (disk : Disk) (f : DiskFaults) (now : Time) : result EmbeddedServer :=
  if es_dynamicRecordsPath s ==? "" then Ok s else
  match df_read f, dk_file disk with
  | Some e, _ => Err (ErrWrap "read dynamic dns records: " e "")
  | None, None => Ok s
  | None, Some entries =>
      let loadedAt := if df_stat f then dk_modTime disk else now in
      Ok (s <| es_dynamicRecords := fold_left (load_entry (es_ttl s) loadedAt) entries ∅ |>)
  end.
(** The file is replaced whole, by a rename. *)
Definition persistDynamicRecordsLocked (s : EmbeddedServer) (disk : Disk) (f : DiskFaults) (now : Time) : result Disk :=
  if es_dynamicRecordsPath s ==? "" then Ok disk else
  match df_write f with Some e => Err e | None => Ok (mkDisk (Some (dynamicRecordEntries (es_dynamicRecords s))) now) end.
Definition ensureDynamicRecordsLoadedLocked (s : EmbeddedServer) (disk : Disk) (f : DiskFaults) (now : Time) : result EmbeddedServer :=
  if es_dynamicLoaded s then Ok s else s ← loadDynamicRecordsLocked s disk f now; Ok (s <| es_dynamicLoaded := true |>).

(** ** embedded.go: Sync *)

(** What was listed; the first failure ends it, and nothing has changed. *)
Definition Sync (s : EmbeddedServer) (subnets : result (list Subnet)) (machines : result (list Machine)) (vms : result (list VirtualMachine))
    (disk : Disk) (f : DiskFaults) (now : Time) : EmbeddedServer * result unit :=
  match subnets, machines, vms with
  | Err e, _, _ => (s, Err (ErrWrap "dns embedded list subnets: " e ""))
  | Ok _, Err e, _ => (s, Err (ErrWrap "dns embedded list machines: " e ""))
  | Ok _, Ok _, Err e => (s, Err (ErrWrap "dns embedded list virtual machines: " e ""))
  | Ok subnets, Ok machines, Ok vms =>
      let '(zones, records) := collect subnets machines vms in
      match ensureDynamicRecordsLoadedLocked s disk f now with
      | Err e => (s, Err e)
      | Ok s => (s <| es_zones := zones |> <| es_records := records |> <| es_serialAt := now |>, Ok tt)
      end
  end.

(** ** embedded_axfr.go *)

Definition zoneForNameLocked (s : EmbeddedServer) (name : string) : option string := List.find (nameInZone name) (zone_order (es_zones s)).
(** [uint32(t.Unix())] *)
Definition serial_of (t : Time) : Z := time_unix_seconds t `mod` 2 ^ 32.
Definition soaRR (s : EmbeddedServer) (now : Time) (zone : string) : RR :=
  let serial := if serial_of (es_serialAt s) =? 0 then serial_of now else serial_of (es_serialAt s) in
  mkRR zone ClassINET (es_ttl s) (DSOA ("ns1." +:+ zone) ("hostmaster." +:+ zone) serial 3600 600 86400 (es_ttl s)).
Definition nsRR (s : EmbeddedServer) (zone : string) : RR := mkRR zone ClassINET (es_ttl s) (DNS ("ns1." +:+ zone)).
Definition static_RRs (s : EmbeddedServer) (name : string) : list RR :=
  (fun ip => mkRR name ClassINET (es_ttl s) (DA (Some ip))) <$> default [] (es_records s !! name).

Definition zoneRecordsLocked (s : EmbeddedServer) (now : Time) (zone : string) : list RR :=
  let names := sorted_set (filter (fun n => nameInZone n zone = true) (dom (es_records s) ∪ dom (es_dynamicRecords s))) in
  [soaRR s now zone; nsRR s zone]
  ++ flat_map (fun name => static_RRs s name ++ flat_map (fun '(t, set) => dynamicRRs name t set) (sorted_types (default ∅ (es_dynamicRecords s !! name)))) names
  ++ [soaRR s now zone].
Definition serveAXFR (s : EmbeddedServer) (now : Time) (zone : string) : DnsReply :=
  if bool_decide (zone ∈ es_zones s) then DTransfer (zoneRecordsLocked s now zone) else DReply RcodeRefused [].

(** ** embedded_dynamic.go: queries *)

Definition apex_RRs (s : EmbeddedServer) (now : Time) (name : string) (qType : Z) : option (list RR) :=
  match zoneForNameLocked s name with
  | Some zone =>
      if name ==? zone then
        Some (if qType =? TypeSOA then [soaRR s now zone] else if qType =? TypeNS then [nsRR s zone]
              else if qType =? TypeANY then [soaRR s now zone; nsRR s zone] else [])
      else None
  | None => None
  end.
Definition queryRecordsLocked (s : EmbeddedServer) (now : Time) (name : string) (qType : Z) : list RR * bool :=
  let asked t := (qType =? TypeANY) || (qType =? t) in
  let dyn := es_dynamicRecords s !! name in
  ((if asked TypeA then static_RRs s name else [])
     ++ default [] (apex_RRs s now name qType)
     ++ flat_map (fun '(t, set) => if asked t then dynamicRRs name t set else []) (type_order (default ∅ dyn)),
   bool_decide (is_Some (es_records s !! name)) || bool_decide (is_Some (apex_RRs s now name qType)) || bool_decide (is_Some dyn)).

(** ** embedded_update.go *)

Definition updateZone (req : Msg) : option string := match m_Question req with [q] => canonicalFQDN (q_Name q) | _ => None end.
Definition updateErrorCode (e : error) : Z :=
  if errors_Is e errDynamicNotZone then RcodeNotZone else if errors_Is e errDynamicUnsupported then RcodeNotImplemented else RcodeFormatError.

Definition applyDynamicUpdateLocked (ttl : Z) (now : Time) (zone : string) (rr : RR) (records : dynamicRecords) : result dynamicRecords :=
  match canonicalFQDN (rr_Name rr) with
  | None => Err errDynamicFormat
  | Some name =>
      if negb (nameInZone name zone) then Err errDynamicNotZone else
      if rr_Class rr =? ClassANY then
        Ok (if RRToType rr =? TypeANY then delete name records else deleteDynamicRecordSet records name (RRToType rr))
      else if rr_Class rr =? ClassNONE then
        match dynamicRecordValue rr with None => Err errDynamicUnsupported | Some value => Ok (deleteDynamicRecordValue records name (RRToType rr) value now) end
      else if rr_Class rr =? ClassINET then
        match dynamicRecordValue rr with
        | None => Err errDynamicUnsupported
        | Some value => Ok (addDynamicRecordValue records name (RRToType rr) (if rr_TTL rr =? 0 then ttl else rr_TTL rr) value now)
        end
      else Err errDynamicFormat
  end.
(** The records of a message, in order, up to the first that fails; what was done
    before stays done. *)
Fixpoint apply_updates (ttl : Z) (now : Time) (zone : string) (rrs : list RR) (records : dynamicRecords) : dynamicRecords * option error :=
  match rrs with
  | [] => (records, None)
  | rr :: rrs => match applyDynamicUpdateLocked ttl now zone rr records with
                 | Err e => (records, Some e)
                 | Ok records => apply_updates ttl now zone rrs records
                 end
  end.

Definition serveDynamicUpdate (s : EmbeddedServer) (disk : Disk) (f : DiskFaults) (now : Time) (req : Msg) : EmbeddedServer * Disk * DnsReply :=
  match m_Ns req, updateZone req with
  | None, _ | _, None => (s, disk, DReply RcodeFormatError [])
  | Some rrs, Some zone =>
      if negb (bool_decide (zone ∈ es_zones s)) then (s, disk, DReply RcodeNotZone []) else
      match ensureDynamicRecordsLoadedLocked s disk f now with
      | Err _ => (s, disk, DReply RcodeServerFailure [])
      | Ok s =>
          let '(records, failed) := apply_updates (es_ttl s) now zone rrs (es_dynamicRecords s) in
          let s := s <| es_dynamicRecords := records |> in
          match failed with
          | Some e => (s, disk, DReply (updateErrorCode e) [])
          | None =>
              match persistDynamicRecordsLocked s disk f now with
              | Err _ => (s, disk, DReply RcodeServerFailure [])
              | Ok disk => (s <| es_serialAt := now |>, disk, DReply RcodeSuccess [])
              end
          end
      end
  end.

(** ** embedded.go: ServeDNS *)

Definition ServeDNS (s : EmbeddedServer) (disk : Disk) (f : DiskFaults) (now : Time) (req : Msg) : EmbeddedServer * Disk * DnsReply :=
  if m_Update req then serveDynamicUpdate s disk f now req else
  let reply r := (s, disk, r) in
  match m_Question req with
  | [q] =>
      let qName := Canonical (q_Name q) in
      if negb ((q_Class q =? ClassINET) || (q_Class q =? ClassANY)) then reply (DReply RcodeRefused [])
      else if q_Type q =? TypeAXFR then reply (serveAXFR s now qName)
      else if negb (inZone qName (es_zones s)) then reply (DReply RcodeRefused [])
      else let '(answers, known) := queryRecordsLocked s now qName (q_Type q) in
           if negb known then reply (DReply RcodeNameError []) else reply (DReply RcodeSuccess answers)
  | _ => reply (DReply RcodeFormatError [])
  end.

(** ** embedded_dynamic.go: records kept by hand *)

Definition ListDynamicRecords (s : EmbeddedServer) (disk : Disk) (f : DiskFaults) (now : Time) : result (EmbeddedServer * list DynamicRecord) :=
  s ← ensureDynamicRecordsLoadedLocked s disk f now; Ok (s, dynamicRecordsFromMap (es_dynamicRecords s)).

Definition validateDynamicRecordShape (s : EmbeddedServer) (r : DynamicRecord) : result (string * Z * Z * list string) :=
  if hasDNSNameUnsafeChars (dr_Name r) then Err errDynamicFormat else
  match canonicalFQDN (dr_Name r) with
  | None => Err errDynamicFormat
  | Some name =>
      match dynamicTypeFromName (dr_Type r) with
      | None => Err errDynamicUnsupported
      | Some rrType =>
          let ttl := if dr_TTL r =? 0 then es_ttl s else dr_TTL r in
          if ttl =? 0 then Err errDynamicFormat else
          let values := normalizeDynamicRecordValues rrType (dr_Values r) in
          if bool_decide (values = []) then Err errDynamicFormat
          else if (rrType =? TypeCNAME) && negb (length values =? 1)%nat then Err errDynamicFormat
          else if negb (forallb (validDynamicRecordValue rrType) values) then Err errDynamicUnsupported
          else Ok (name, rrType, ttl, values)
      end
  end.
Definition validateDynamicRecordPlacementLocked (s : EmbeddedServer) (name : string) (rrType : Z) : result unit :=
  match zoneForNameLocked s name with
  | None => Err errDynamicNotZone
  | Some zone =>
      if negb (nameInZone name zone) then Err errDynamicNotZone else
      let sets := default ∅ (es_dynamicRecords s !! name) in
      if rrType =? TypeCNAME then
        if (0 <? length (default [] (es_records s !! name)))%nat then Err errDynamicCNAMEConflict
        else if existsb (fun '(t, _) => negb (t =? TypeCNAME)) (map_to_list sets) then Err errDynamicCNAMEConflict else Ok tt
      else match sets !! TypeCNAME with Some _ => Err errDynamicCNAMEConflict | None => Ok tt end
  end.

Definition UpsertDynamicRecord (s : EmbeddedServer) (disk : Disk) (f : DiskFaults) (now : Time) (r : DynamicRecord) : EmbeddedServer * Disk * result DynamicRecord :=
  match validateDynamicRecordShape s r with
  | Err e => (s, disk, Err e)
  | Ok (name, rrType, ttl, values) =>
      match ensureDynamicRecordsLoadedLocked s disk f now with
      | Err e => (s, disk, Err e)
      | Ok s =>
          match validateDynamicRecordPlacementLocked s name rrType with
          | Err e => (s, disk, Err e)
          | Ok _ =>
              let sets := default ∅ (es_dynamicRecords s !! name) in
              let createdAt := match sets !! rrType with Some old => if time_IsZero (ds_CreatedAt old) then now else ds_CreatedAt old | None => now end in
              let set := mkDynamicRecordSet ttl values createdAt now in
              let s := s <| es_dynamicRecords := <[name := <[rrType := set]> sets]> (es_dynamicRecords s) |> in
              match persistDynamicRecordsLocked s disk f now with
              | Err e => (s, disk, Err e)
              | Ok disk => (s <| es_serialAt := now |>, disk, Ok (dynamicRecordFromSet name rrType set))
              end
          end
      end
  end.

Definition DeleteDynamicRecord (s : EmbeddedServer) (disk : Disk) (f : DiskFaults) (now : Time) (rawName rawType : string) : EmbeddedServer * Disk * result unit :=
  match canonicalFQDN rawName, dynamicTypeFromName rawType with
  | None, _ => (s, disk, Err errDynamicFormat)
  | Some _, None => (s, disk, Err errDynamicUnsupported)
  | Some name, Some rrType =>
      match ensureDynamicRecordsLoadedLocked s disk f now with
      | Err e => (s, disk, Err e)
      | Ok s =>
          let s := s <| es_dynamicRecords := deleteDynamicRecordSet (es_dynamicRecords s) name rrType |> in
          match persistDynamicRecordsLocked s disk f now with
          | Err e => (s, disk, Err e)
          | Ok disk => (s <| es_serialAt := now |>, disk, Ok tt)
          end
      end
  end.
Definition IsDynamicRecordValidationError (e : error) : bool :=
  errors_Is e errDynamicFormat || errors_Is e errDynamicNotZone || errors_Is e errDynamicUnsupported || errors_Is e errDynamicCNAMEConflict.
End dns.
