(* ===== verification/DnsSafe.v ===== *)
(** * infra/dns: what the embedded name server promises

    Its addresses are those of the inventory; a zone transfer holds what queries
    answer; records survive a restart, texts without the space around them; an update
    message changes nothing outside its zone. *)
From S2P Require Import Prelude GoStrings GoNet GoPath Resource Power Store Subnet Machine Vm Dns.

Section safe.
Context (Canonical : string → string) (IsName : string → bool).
Context (zone_order : gset string → list string) (type_order : gmap Z dynamicRecordSet → list (Z * dynamicRecordSet)).
Local Abbreviation canonical := (canonicalFQDN Canonical IsName).
Local Abbreviation serve := (ServeDNS Canonical IsName zone_order type_order).

(** ** Addresses *)

Definition addrs (r : gmap string (list Z)) (n : string) : list Z := default [] (r !! n).

Lemma addRecord_addrs r name ip n a : a ∈ addrs (addRecord r name ip) n ↔ a ∈ addrs r n ∨ (n = name ∧ ParseAddr4 (TrimSpace ip) = Some a).
Proof.
  unfold addRecord. destruct (ParseAddr4 (TrimSpace ip)) as [b|]; [|naive_solver]. case_bool_decide as Hb; [naive_solver|].
  unfold addrs. destruct (decide (n = name)) as [->|Hn]; [|rewrite lookup_insert_ne by done; naive_solver].
  rewrite lookup_insert_eq. cbn. rewrite elem_of_app, list_elem_of_singleton. naive_solver.
Qed.
Lemma addRecord_NoDup r name ip : (∀ n, NoDup (addrs r n)) → ∀ n, NoDup (addrs (addRecord r name ip) n).
Proof.
  intros Hr n. unfold addRecord. destruct (ParseAddr4 (TrimSpace ip)) as [b|]; [|apply Hr]. case_bool_decide as Hb; [apply Hr|].
  unfold addrs in *. destruct (decide (n = name)) as [->|Hn]; [|rewrite lookup_insert_ne by done; apply Hr].
  rewrite lookup_insert_eq. cbn. apply NoDup_app. split_and!; [apply Hr|set_solver|apply NoDup_singleton].
Qed.
Lemma addRecords_addrs ips name r n a : a ∈ addrs (fold_left (fun r ip => addRecord r name ip) ips r) n
  ↔ a ∈ addrs r n ∨ (n = name ∧ ∃ ip, ip ∈ ips ∧ ParseAddr4 (TrimSpace ip) = Some a).
Proof. revert r. induction ips as [|ip ips IH]; intros r; cbn; [set_solver|]. rewrite IH, addRecord_addrs. set_solver. Qed.
Lemma addRecords_NoDup ips name r : (∀ n, NoDup (addrs r n)) → ∀ n, NoDup (addrs (fold_left (fun r ip => addRecord r name ip) ips r) n).
Proof. revert r. induction ips as [|ip ips IH]; intros r Hr; cbn; [done|]. by apply IH, addRecord_NoDup. Qed.

Definition entry_address (e : option (string * option string * list string)) (n : string) (a : Z) : Prop :=
  ∃ d ips ip, e = Some (d, Some n, ips) ∧ ip ∈ ips ∧ ParseAddr4 (TrimSpace ip) = Some a.

Lemma add_entry_addrs acc e n a : a ∈ addrs (add_entry acc e).2 n ↔ a ∈ addrs acc.2 n ∨ entry_address e n a.
Proof.
  unfold entry_address, add_entry. destruct e as [[[d [name|]] ips]|]; cbn; [rewrite addRecords_addrs|..]; naive_solver.
Qed.
Lemma entries_addrs es acc n a : a ∈ addrs (fold_left add_entry es acc).2 n ↔ a ∈ addrs acc.2 n ∨ ∃ e, e ∈ es ∧ entry_address e n a.
Proof. revert acc. induction es as [|e es IH]; intros acc; cbn; [set_solver|]. rewrite IH, add_entry_addrs. set_solver. Qed.
Lemma entries_NoDup es acc : (∀ n, NoDup (addrs acc.2 n)) → ∀ n, NoDup (addrs (fold_left add_entry es acc).2 n).
Proof.
  revert acc. induction es as [|e es IH]; intros acc Hacc; cbn; [done|]. apply IH. destruct e as [[[d [name|]] ips]|]; cbn; [by apply addRecords_NoDup|done|done].
Qed.
Lemma entries_zones es acc z : z ∈ (fold_left add_entry es acc).1 ↔ z ∈ acc.1 ∨ ∃ n ips, Some (z, n, ips) ∈ es.
Proof.
  revert acc. induction es as [|e es IH]; intros acc; cbn; [set_solver|]. rewrite IH. destruct e as [[[d name] ips]|]; cbn [add_entry fst]; set_solver.
Qed.

(** The hosts of the inventory, with the names and addresses they have. *)
Definition inventory (subnets : list Subnet) (machines : list Machine) (vms : list VirtualMachine) : list (option (string * option string * list string)) :=
  let doms := (subnet_domains Canonical IsName subnets).2 in
  (machine_entry Canonical IsName doms <$> machines) ++ (vm_entry Canonical IsName doms <$> vms).
Definition has_address (subnets : list Subnet) (machines : list Machine) (vms : list VirtualMachine) (n : string) (a : Z) : Prop :=
  ∃ e, e ∈ inventory subnets machines vms ∧ entry_address e n a.

Definition a_rr (s : EmbeddedServer) (n : string) (a : Z) : RR := mkRR n ClassINET (es_ttl s) (DA (Some a)).
Definition a_question (n : string) : Msg := mkMsg false [mkQuestion n TypeA ClassINET] (Some []).

Lemma collect_spec subnets machines vms : let '(zones, records) := collect Canonical IsName subnets machines vms in
  (∀ n a, a ∈ addrs records n ↔ has_address subnets machines vms n a) ∧ (∀ n, NoDup (addrs records n))
  ∧ ∀ z, z ∈ zones ↔ z ∈ (subnet_domains Canonical IsName subnets).1 ∨ ∃ n ips, Some (z, n, ips) ∈ inventory subnets machines vms.
Proof.
  unfold collect, has_address, inventory. destruct (subnet_domains _ _ subnets) as [zones doms]. cbn [fst snd]. set (es := (_ <$> _) ++ _).
  destruct (fold_left add_entry es (zones, ∅)) as [zs records] eqn:E. split_and!.
  - intros n a. change records with (zs, records).2. rewrite <- E, entries_addrs. unfold addrs at 1. cbn. rewrite lookup_empty. set_solver.
  - change records with (zs, records).2. rewrite <- E. apply entries_NoDup. intros n. unfold addrs. cbn. rewrite lookup_empty. apply NoDup_nil_2.
  - intros z. change zs with (zs, records).1. by rewrite <- E, entries_zones.
Qed.

Lemma ensure_keeps s disk f now s1 : ensureDynamicRecordsLoadedLocked Canonical IsName s disk f now = Ok s1 →
  es_ttl s1 = es_ttl s ∧ es_zones s1 = es_zones s ∧ es_records s1 = es_records s ∧ es_dynamicRecordsPath s1 = es_dynamicRecordsPath s
  ∧ es_serialAt s1 = es_serialAt s ∧ (es_dynamicLoaded s = true → s1 = s).
Proof.
  unfold ensureDynamicRecordsLoadedLocked, loadDynamicRecordsLocked. destruct (es_dynamicLoaded s); [by intros [= <-]|].
  repeat case_match; try done; intros [= <-]; done.
Qed.

Lemma query_A s now n : (queryRecordsLocked Canonical IsName zone_order type_order s now n TypeA).1
  = static_RRs s n ++ flat_map (fun '(t, set) => if (TypeA =? TypeANY) || (TypeA =? t) then dynamicRRs Canonical IsName n t set else [])
      (type_order (default ∅ (es_dynamicRecords s !! n))).
Proof.
  unfold queryRecordsLocked. cbv zeta. cbn [fst].
  assert (Hapex : default [] (apex_RRs zone_order s now n TypeA) = []) by (unfold apex_RRs; by repeat case_match). by rewrite Hapex.
Qed.
Lemma serve_query s disk f now q ty : ty ≠ TypeAXFR → inZone (Canonical q) (es_zones s) = true →
  serve s disk f now (mkMsg false [mkQuestion q ty ClassINET] (Some []))
  = let '(answers, known) := queryRecordsLocked Canonical IsName zone_order type_order s now (Canonical q) ty in
    (s, disk, if known then DReply RcodeSuccess answers else DReply RcodeNameError []).
Proof.
  intros Hty Hz. unfold ServeDNS. cbn [m_Update m_Question q_Name q_Class q_Type]. rewrite Hz. destruct (Z.eqb_spec ty TypeAXFR); [done|].
  destruct (queryRecordsLocked _ _ _ _ _ _ _ _) as [a []]; done.
Qed.

(** No name is kept without an address. *)
Lemma addRecord_nonempty r name ip : (∀ n, r !! n ≠ Some []) → ∀ n, addRecord r name ip !! n ≠ Some [].
Proof.
  intros Hr n. unfold addRecord. destruct (ParseAddr4 (TrimSpace ip)) as [b|]; [|apply Hr]. case_bool_decide; [apply Hr|].
  destruct (decide (n = name)) as [->|Hn]; [rewrite lookup_insert_eq; by destruct (default [] (r !! name))|by rewrite lookup_insert_ne].
Qed.
Lemma entries_nonempty es acc : (∀ n, acc.2 !! n ≠ Some []) → ∀ n, (fold_left add_entry es acc).2 !! n ≠ Some [].
Proof.
  revert acc. induction es as [|e es IH]; intros acc Hacc; cbn; [done|]. apply IH. destruct e as [[[d [name|]] ips]|]; cbn; [|done|done].
  revert Hacc. generalize acc.2. clear. induction ips as [|ip ips IH]; intros r Hr; cbn; [done|]. by apply IH, addRecord_nonempty.
Qed.
Lemma collect_nonempty subnets machines vms n : (collect Canonical IsName subnets machines vms).2 !! n ≠ Some [].
Proof. unfold collect. destruct (subnet_domains _ _ subnets). apply entries_nonempty. intros n'. change ((∅ : gmap string (list Z)) !! n' ≠ Some []). by rewrite lookup_empty. Qed.

(** The set of one type among those of a name. *)
Definition set_at (rs : dynamicRecords) (n : string) (t : Z) : option dynamicRecordSet := rs !! n ≫= fun sets => sets !! t.
Lemma one_type {A} (g : Z → dynamicRecordSet → list A) (ty : Z) l : NoDup l.*1 →
  flat_map (fun '(t, set) => if (ty =? TypeANY) || (ty =? t) then g t set else []) l
  = if ty =? TypeANY then flat_map (fun '(t, set) => g t set) l else match (list_to_map l : gmap Z dynamicRecordSet) !! ty with Some set => g ty set | None => [] end.
Proof.
  destruct (ty =? TypeANY); cbn [orb]; [done|]. induction l as [|[t set] l IH]; csimpl; [by rewrite lookup_empty|]. intros [Hn Hd]%NoDup_cons. rewrite IH by done.
  destruct (Z.eqb_spec ty t) as [->|Ht]; [rewrite lookup_insert_eq, not_elem_of_list_to_map_1 by done; apply app_nil_r|by rewrite lookup_insert_ne].
Qed.
(** The addresses added to a name by hand. *)
Definition hand_addresses (s : EmbeddedServer) (n : string) : list RR :=
  match set_at (es_dynamicRecords s) n TypeA with Some set => dynamicRRs Canonical IsName n TypeA set | None => [] end.
Lemma query_A_hand s now n : (∀ m, type_order m ≡ₚ map_to_list m) →
  (queryRecordsLocked Canonical IsName zone_order type_order s now n TypeA).1 = static_RRs s n ++ hand_addresses s n.
Proof.
  intros Ho. rewrite query_A. f_equal. rewrite (one_type (dynamicRRs Canonical IsName n) TypeA) by (rewrite Ho; apply NoDup_fst_map_to_list). change (TypeA =? TypeANY) with false. cbv iota.
  assert ((list_to_map (type_order (default ∅ (es_dynamicRecords s !! n))) : gmap Z dynamicRecordSet) = default ∅ (es_dynamicRecords s !! n)) as ->.
  { rewrite (list_to_map_proper _ (map_to_list (default ∅ (es_dynamicRecords s !! n)))); [apply list_to_map_to_list|rewrite Ho; apply NoDup_fst_map_to_list|apply Ho]. }
  unfold hand_addresses, set_at. by destruct (es_dynamicRecords s !! n).
Qed.

(** C18: the embedded name server answers with the addresses of the inventory.  After a
    successful synchronisation the zones served are the domains of the subnets and of
    the hosts, and the addresses kept under a name are exactly the IPv4 addresses of the
    machines and virtual machines that carry it, each once.  A query for the addresses
    of a name in a served zone is answered with these, each once, and then with the
    addresses that were added to the name by hand; when it has neither of them, no other
    records added by hand, and is not the name of a zone, the answer is that there is no
    such name. *)
Theorem answers_from_inventory (s s' : EmbeddedServer) (subnets : list Subnet) (machines : list Machine) (vms : list VirtualMachine)
    (disk : Disk) (f : DiskFaults) (now : Time) (Horder : ∀ m, type_order m ≡ₚ map_to_list m) (Hzones : ∀ z, zone_order z ≡ₚ elements z)
    (Hsync : Sync Canonical IsName s (Ok subnets) (Ok machines) (Ok vms) disk f now = (s', Ok tt)) :
  (∀ z, z ∈ es_zones s' ↔ z ∈ (subnet_domains Canonical IsName subnets).1 ∨ ∃ n ips, Some (z, n, ips) ∈ inventory subnets machines vms)
  ∧ (∀ n a, a ∈ addrs (es_records s') n ↔ has_address subnets machines vms n a) ∧ (∀ n, NoDup (addrs (es_records s') n))
  ∧ ∀ q n, Canonical q = n → inZone n (es_zones s') = true →
      ((∃ a, has_address subnets machines vms n a) ∨ is_Some (es_dynamicRecords s' !! n) →
         ∃ l, serve s' disk f now (a_question q) = (s', disk, DReply RcodeSuccess (l ++ hand_addresses s' n))
              ∧ NoDup l ∧ ∀ rr, rr ∈ l ↔ ∃ a, rr = a_rr s' n a ∧ has_address subnets machines vms n a)
      ∧ (n ∉ es_zones s' → (∀ a, ¬ has_address subnets machines vms n a) → es_dynamicRecords s' !! n = None →
           serve s' disk f now (a_question q) = (s', disk, DReply RcodeNameError [])).
Proof.
  unfold Sync in Hsync. pose proof (collect_spec subnets machines vms) as Hc. pose proof (collect_nonempty subnets machines vms) as Hne.
  destruct (collect _ _ subnets machines vms) as [zones records].
  destruct (ensureDynamicRecordsLoadedLocked _ _ s disk f now) as [s1|] eqn:E1; [|done]. destruct Hc as (C1 & C2 & C3). cbn [snd] in Hne.
  assert (es_zones s' = zones ∧ es_records s' = records) as [Ez Er] by (by injection Hsync as <-). clear Hsync E1. rewrite Ez, Er.
  split_and!; [exact C3|exact C1|exact C2|]. intros q n Hq Hz.
  assert (Hserve : serve s' disk f now (a_question q) = (s', disk,
    if (queryRecordsLocked Canonical IsName zone_order type_order s' now n TypeA).2 then DReply RcodeSuccess (static_RRs s' n ++ hand_addresses s' n) else DReply RcodeNameError [])).
  { unfold a_question. rewrite serve_query by (try done; by rewrite Hq, Ez). rewrite Hq. pose proof (query_A_hand s' now n Horder) as Hl.
    destruct (queryRecordsLocked _ _ _ _ s' now n TypeA) as [l known]. cbn [fst snd] in *. by subst l. }
  assert (Hhas : is_Some (records !! n) ↔ ∃ a, has_address subnets machines vms n a).
  { setoid_rewrite <- C1. unfold addrs. split; [|intros [a Ha]; destruct (records !! n); [by eexists|cbn in Ha; set_solver]].
    intros [l El]. rewrite El. destruct l as [|a l]; [by destruct (Hne n)|]. exists a. left. }
  rewrite Hserve. unfold queryRecordsLocked. cbv zeta. cbn [snd]. rewrite Er. split.
  - intros Hk. assert (bool_decide (is_Some (records !! n)) || bool_decide (is_Some (apex_RRs zone_order s' now n TypeA)) || bool_decide (is_Some (es_dynamicRecords s' !! n)) = true) as ->.
    { destruct Hk as [Hk|Hk]; [apply Hhas in Hk; by rewrite (bool_decide_eq_true_2 _ Hk)|rewrite (bool_decide_eq_true_2 _ Hk); apply orb_true_r]. }
    exists (static_RRs s' n). split; [done|]. unfold static_RRs. rewrite Er. split; [|intros rr; rewrite list_elem_of_fmap; unfold a_rr; setoid_rewrite <- C1; unfold addrs; naive_solver].
    apply NoDup_fmap_2; [|apply C2]. by intros x y [=].
  - intros Hnz Hna Hnd. assert (¬ is_Some (records !! n)) as Hr by (rewrite Hhas; naive_solver). rewrite (bool_decide_eq_false_2 _ Hr), Hnd.
    assert (apex_RRs zone_order s' now n TypeA = None) as ->; [|done]. unfold apex_RRs, zoneForNameLocked. destruct (List.find _ _) as [z|] eqn:Ef; [|done].
    case_bool_decide as Enz; [|done]. destruct Hnz. apply find_some in Ef as [Hin _]. apply list_elem_of_In in Hin. rewrite Hzones, elem_of_elements, Ez in Hin. by subst.
Qed.

(** ** Transfers *)

Lemma dynamicRRs_shape n t set rr : rr ∈ dynamicRRs Canonical IsName n t set → rr_Name rr = n ∧ RRToType rr = t ∧ t ∈ [TypeA; TypeTXT; TypeCNAME].
Proof.
  unfold dynamicRRs. cbv zeta. rewrite list_elem_of_In, in_flat_map. intros (v & _ & Hv). revert Hv.
  destruct (Z.eqb_spec t TypeA) as [->|]; [|destruct (Z.eqb_spec t TypeTXT) as [->|]; [|destruct (Z.eqb_spec t TypeCNAME) as [->|]; [|done]]]; repeat case_match; cbn; try done;
    intros [<-|[]]; split_and!; try done; set_solver.
Qed.
Lemma static_shape s n rr : rr ∈ static_RRs s n → rr_Name rr = n ∧ RRToType rr = TypeA.
Proof. unfold static_RRs. rewrite list_elem_of_fmap. by intros (b & -> & _). Qed.

(** What is kept under a name. *)
Definition kept_RRs (s : EmbeddedServer) (n : string) : list RR :=
  static_RRs s n ++ flat_map (fun '(t, set) => dynamicRRs Canonical IsName n t set) (map_to_list (default ∅ (es_dynamicRecords s !! n))).

Lemma flat_map_perm {A B} (f : A → list B) l1 l2 x : l1 ≡ₚ l2 → x ∈ flat_map f l1 ↔ x ∈ flat_map f l2.
Proof. intros Hp. rewrite !list_elem_of_In, !in_flat_map. setoid_rewrite <- list_elem_of_In. by setoid_rewrite Hp. Qed.

Lemma kept_shape s n rr : rr ∈ kept_RRs s n → rr_Name rr = n ∧ RRToType rr ∈ [TypeA; TypeTXT; TypeCNAME].
Proof.
  unfold kept_RRs. rewrite elem_of_app. intros [[-> ->]%static_shape|H]; [set_solver|]. rewrite list_elem_of_In, in_flat_map in H.
  destruct H as ([t set] & _ & H). apply list_elem_of_In, dynamicRRs_shape in H as (-> & -> & ?). done.
Qed.
Lemma kept_known s n rr : rr ∈ kept_RRs s n → n ∈ dom (es_records s) ∪ dom (es_dynamicRecords s).
Proof.
  unfold kept_RRs, static_RRs. rewrite elem_of_union, !elem_of_dom. destruct (es_records s !! n); [by left; eexists|]. destruct (es_dynamicRecords s !! n); [by right; eexists|].
  cbn. rewrite map_to_list_empty. cbn. set_solver.
Qed.

Lemma any_is_kept s now n rr : (∀ m, type_order m ≡ₚ map_to_list m) → RRToType rr ∈ [TypeA; TypeTXT; TypeCNAME] →
  rr ∈ (queryRecordsLocked Canonical IsName zone_order type_order s now n TypeANY).1 ↔ rr ∈ kept_RRs s n.
Proof.
  intros Ho Ht. unfold queryRecordsLocked, kept_RRs. cbv zeta. cbn [fst]. change (TypeANY =? TypeANY) with true. cbn [orb].
  rewrite !elem_of_app, (flat_map_perm _ _ _ _ (Ho _)).
  assert (Hapex : rr ∉ default [] (apex_RRs zone_order s now n TypeANY)).
  { unfold apex_RRs. destruct (zoneForNameLocked _ s n) as [z|]; [|set_solver]. destruct (bool_decide _); [|set_solver]. cbn.
    intros [->|[->|[]%not_elem_of_nil]%elem_of_cons]%elem_of_cons; vm_compute in Ht; set_solver. }
  naive_solver.
Qed.

(** C19: a zone transfer holds the addresses, texts and aliases that queries answer.
    Between the two copies of the zone's SOA record and after its NS record, a transfer
    has only records of these three types, and such a record exactly if its name lies in
    the zone and a query for everything under that name answers it.  What zones within
    the zone have of SOA and NS records is answered to queries and not transferred.  A
    zone that is not served is refused. *)
Theorem transfer_is_the_queries (s : EmbeddedServer) (now : Time) (zone : string) (Horder : ∀ m, type_order m ≡ₚ map_to_list m) :
  if bool_decide (zone ∈ es_zones s) then
    ∃ body, serveAXFR Canonical IsName s now zone = DTransfer (soaRR s now zone :: nsRR s zone :: body ++ [soaRR s now zone])
    ∧ ∀ rr, rr ∈ body ↔ nameInZone (rr_Name rr) zone = true ∧ RRToType rr ∈ [TypeA; TypeTXT; TypeCNAME]
        ∧ rr ∈ (queryRecordsLocked Canonical IsName zone_order type_order s now (rr_Name rr) TypeANY).1
  else serveAXFR Canonical IsName s now zone = DReply RcodeRefused [].
Proof.
  unfold serveAXFR. destruct (bool_decide (zone ∈ es_zones s)); [|done]. unfold zoneRecordsLocked. cbv zeta. eexists. split; [reflexivity|]. intros rr.
  assert (Hname : ∀ n, rr ∈ static_RRs s n ++ flat_map (fun '(t, set) => dynamicRRs Canonical IsName n t set) (sorted_types (default ∅ (es_dynamicRecords s !! n))) ↔ rr ∈ kept_RRs s n).
  { intros n. unfold kept_RRs. rewrite !elem_of_app. by rewrite (flat_map_perm _ (sorted_types _) _ _ (merge_sort_Permutation type_le _)). }
  rewrite list_elem_of_In, in_flat_map. setoid_rewrite <- list_elem_of_In. setoid_rewrite Hname. setoid_rewrite elem_of_sorted_set. setoid_rewrite elem_of_filter. split.
  - intros (n & [Hz _] & Hrr). destruct (kept_shape _ _ _ Hrr) as [<- Ht]. split_and!; [done|done|]. by apply any_is_kept.
  - intros (Hz & Ht & Hrr). apply (any_is_kept _ _ _ _ Horder Ht) in Hrr. exists (rr_Name rr). split_and!; [done|by eapply kept_known|done].
Qed.

(** ** Updates *)

Lemma delete_set_other rs name t n : n ≠ name → deleteDynamicRecordSet rs name t !! n = rs !! n.
Proof. intros Hn. unfold deleteDynamicRecordSet. repeat case_match; by rewrite ?lookup_delete_ne, ?lookup_insert_ne. Qed.
Lemma apply_other ttl now zone rr rs rs' n : nameInZone n zone = false → applyDynamicUpdateLocked Canonical IsName ttl now zone rr rs = Ok rs' → rs' !! n = rs !! n.
Proof.
  intros Hn. unfold applyDynamicUpdateLocked. destruct (canonical (rr_Name rr)) as [name|]; [|done]. destruct (nameInZone name zone) eqn:Hz; [|done].
  assert (n ≠ name) by congruence. cbn [negb]. destruct (rr_Class rr =? ClassANY).
  { intros [= <-]. destruct (_ =? TypeANY); [by rewrite lookup_delete_ne|by apply delete_set_other]. }
  destruct (rr_Class rr =? ClassNONE).
  { destruct (dynamicRecordValue _ _ rr); [|done]. intros [= <-]. unfold deleteDynamicRecordValue. repeat case_match; try done; [by apply delete_set_other|by rewrite lookup_insert_ne]. }
  destruct (rr_Class rr =? ClassINET); [|done]. destruct (dynamicRecordValue _ _ rr); [|done]. intros [= <-]. unfold addDynamicRecordValue. by rewrite lookup_insert_ne.
Qed.
Lemma updates_other ttl now zone rrs rs n : nameInZone n zone = false → (apply_updates Canonical IsName ttl now zone rrs rs).1 !! n = rs !! n.
Proof.
  intros Hn. revert rs. induction rrs as [|rr rrs IH]; intros rs; cbn [apply_updates]; [done|].
  destruct (applyDynamicUpdateLocked _ _ ttl now zone rr rs) as [rs'|] eqn:E; [|done]. rewrite IH. by eapply apply_other.
Qed.

(** An update message is confined to its zone.  Whatever it asks for, the served
    zones and the addresses of the inventory stay as they are; only names in the zone it
    names, which must be served, can change; and unless it is answered with success, the
    file is not touched and the serial number stays. *)
Lemma update_confined (s s' : EmbeddedServer) (disk disk' : Disk) (f : DiskFaults) (now : Time) (req : Msg) (r : DnsReply)
    (Hloaded : es_dynamicLoaded s = true) (Hupd : m_Update req = true) (Hrun : serve s disk f now req = (s', disk', r)) :
  es_zones s' = es_zones s ∧ es_records s' = es_records s ∧ (r ≠ DReply RcodeSuccess [] → disk' = disk ∧ es_serialAt s' = es_serialAt s)
  ∧ ∀ n, es_dynamicRecords s' !! n ≠ es_dynamicRecords s !! n → ∃ zone, updateZone Canonical IsName req = Some zone ∧ zone ∈ es_zones s ∧ nameInZone n zone = true.
Proof.
  unfold ServeDNS in Hrun. rewrite Hupd in Hrun. unfold serveDynamicUpdate in Hrun. destruct (m_Ns req) as [rrs|]; [|by injection Hrun as <- <- <-].
  destruct (updateZone _ _ req) as [zone|]; [|by injection Hrun as <- <- <-]. destruct (bool_decide (zone ∈ es_zones s)) eqn:Hz; [|by injection Hrun as <- <- <-].
  apply bool_decide_eq_true in Hz. cbn [negb] in Hrun. unfold ensureDynamicRecordsLoadedLocked in Hrun. rewrite Hloaded in Hrun.
  pose proof (fun n => updates_other (es_ttl s) now zone rrs (es_dynamicRecords s) n) as Ho.
  destruct (apply_updates _ _ (es_ttl s) now zone rrs (es_dynamicRecords s)) as [rs failed]. cbn [fst] in Ho.
  assert (Hs : es_zones s' = es_zones s ∧ es_records s' = es_records s ∧ es_dynamicRecords s' = rs ∧ (r ≠ DReply RcodeSuccess [] → disk' = disk ∧ es_serialAt s' = es_serialAt s)).
  { destruct failed as [e|]; [by injection Hrun as <- <- <-|]. destruct (persistDynamicRecordsLocked _ _ _ _); by injection Hrun as <- <- <-. }
  destruct Hs as (E1 & E2 & E3 & E4). split_and!; [done|done|done|]. intros n Hn. rewrite E3 in Hn. exists zone. split_and!; [done|done|].
  destruct (nameInZone n zone) eqn:En; [done|]. by rewrite Ho in Hn.
Qed.
End safe.

(** ** Restarts *)

Section restart.
Context (Canonical : string → string) (IsName : string → bool).
Context (zone_order : gset string → list string) (type_order : gmap Z dynamicRecordSet → list (Z * dynamicRecordSet)).
Local Abbreviation serve := (ServeDNS Canonical IsName zone_order type_order).
Local Abbreviation canonical := (canonicalFQDN Canonical IsName).

(** The canonical form of a name is its own, and starts and ends in no space. *)
Definition canonical_laws : Prop := ∀ s, Canonical (Canonical s) = Canonical s ∧ (TrimSpace s = s → s ≠ "" → TrimSpace (Canonical s) = Canonical s ∧ Canonical s ≠ "").
Context (Hcan : canonical_laws).

Lemma canonical_stable raw out : canonical raw = Some out → canonical out = Some out ∧ TrimSpace out = out ∧ out ≠ "".
Proof.
  unfold canonicalFQDN. cbv zeta. destruct (bool_decide (TrimSpace raw = "")) eqn:E; [done|]. apply bool_decide_eq_false in E.
  destruct (_ || _) eqn:Eb; [done|]. intros [= <-]. destruct (proj2 (Hcan (TrimSpace raw)) (TrimSpace_idemp raw) E) as [Ht Hne].
  rewrite Ht, (bool_decide_eq_false_2 _ Hne), (proj1 (Hcan _)), Eb. done.
Qed.

(** *** Values read back *)

Definition value_ok (t : Z) (v : string) : Prop := TrimSpace v = v ∧ v ≠ "" ∧ (t = TypeCNAME → canonical v = Some v ∨ canonical v = None).
Lemma value_ok_normal t v : value_ok t v → normal_value Canonical IsName t v = v ∧ TrimSpace v ≠ "".
Proof.
  intros (Ht & Hne & Hc). unfold normal_value. rewrite Ht. split; [|done]. destruct (Z.eqb_spec t TypeCNAME); [|done]. destruct (Hc e) as [->| ->]; done.
Qed.
Lemma normal_value_ok t v : TrimSpace v ≠ "" → value_ok t (normal_value Canonical IsName t v).
Proof.
  intros Hne. unfold normal_value, value_ok. pose proof (TrimSpace_idemp v) as Hi. destruct (Z.eqb_spec t TypeCNAME) as [->|Ht]; [|by split_and!].
  destruct (canonical (TrimSpace v)) as [out|] eqn:E; cbn; [|split_and!; [done|done|by right]].
  destruct (canonical_stable _ _ E) as (H1 & H2 & H3). split_and!; [done|done|by left].
Qed.

Local Abbreviation normalize t raw := (normalizeDynamicRecordValues Canonical IsName t raw).
Local Abbreviation dedup t := (fun values v => if (TrimSpace v ==? "") || bool_decide (normal_value Canonical IsName t v ∈ values) then values
                                               else values ++ [normal_value Canonical IsName t v]).
Lemma dedup_spec t raw acc : NoDup acc → NoDup (fold_left (dedup t) raw acc)
  ∧ ∀ v, v ∈ fold_left (dedup t) raw acc ↔ v ∈ acc ∨ ∃ u, u ∈ raw ∧ TrimSpace u ≠ "" ∧ v = normal_value Canonical IsName t u.
Proof.
  revert acc. induction raw as [|w raw IH]; intros acc Hn; cbn [fold_left]; [split; [done|set_solver]|].
  destruct ((_ ==? _) || _) eqn:E.
  - destruct (IH acc Hn) as [I1 I2]. split; [done|]. intros v. rewrite I2. apply orb_true_iff in E as [E%bool_decide_eq_true|E%bool_decide_eq_true].
    + split; [set_solver|]. intros [?|(u & [->|Hu]%elem_of_cons & Hne & Hv)]; [by left|done|right; eauto].
    + split; [set_solver|]. intros [?|(u & [->|Hu]%elem_of_cons & Hne & ->)]; [by left|by left|right; eauto].
  - apply orb_false_iff in E as [E1%bool_decide_eq_false E2%bool_decide_eq_false].
    destruct (IH (acc ++ [normal_value Canonical IsName t w])) as [I1 I2].
    { apply NoDup_app. split_and!; [done|set_solver|apply NoDup_singleton]. }
    split; [done|]. intros v. rewrite I2, elem_of_app, list_elem_of_singleton. split.
    + intros [[?| ->]|(u & Hu & Hne & Hv)]; [by left|right; exists w; set_solver|right; exists u; set_solver].
    + intros [?|(u & [->|Hu]%elem_of_cons & Hne & Hv)]; [by left; left|left; by right|right; eauto].
Qed.
Lemma normalize_NoDup t raw : NoDup (normalize t raw).
Proof. unfold normalizeDynamicRecordValues, sort_Strings. rewrite merge_sort_Permutation. apply dedup_spec, NoDup_nil_2. Qed.
Lemma elem_of_normalize t raw v : v ∈ normalize t raw ↔ ∃ u, u ∈ raw ∧ TrimSpace u ≠ "" ∧ v = normal_value Canonical IsName t u.
Proof. unfold normalizeDynamicRecordValues, sort_Strings. rewrite merge_sort_Permutation, (proj2 (dedup_spec t raw [] NoDup_nil_2)). set_solver. Qed.
Lemma normalize_values_ok t raw : Forall (value_ok t) (normalize t raw).
Proof. apply Forall_forall. intros v (u & _ & Hne & ->)%elem_of_normalize. by apply normal_value_ok. Qed.
Lemma normalize_id t l : Forall (value_ok t) l → NoDup l → normalize t (sort_Strings l) ≡ₚ l.
Proof.
  intros Hf Hn. apply NoDup_Permutation; [apply normalize_NoDup|done|]. intros v. rewrite elem_of_normalize. unfold sort_Strings. setoid_rewrite merge_sort_Permutation.
  rewrite Forall_forall in Hf. split; [intros (u & Hu & _ & ->)|intros Hv; exists v]; destruct (value_ok_normal t _ (Hf _ ltac:(eassumption))) as [-> ?]; done.
Qed.

(** What of a set is read back: alias targets and addresses as they are, texts without
    the space around them, each once, and none that is blank. *)
Definition reread_values (t : Z) (l : list string) : list string :=
  if t =? TypeTXT then remove_dups (filter (fun v => v ≠ "") (TrimSpace <$> l)) else l.
Definition read_back (ttl t : Z) (set : dynamicRecordSet) (kept : option dynamicRecordSet) : Prop :=
  let values := reread_values t (ds_Values set) in
  match kept with
  | None => values = []
  | Some k => values ≠ [] ∧ ds_Values k ≡ₚ values ∧ ds_TTL k = (if ds_TTL set =? 0 then ttl else ds_TTL set)
              ∧ ds_CreatedAt k = ds_CreatedAt set ∧ ds_UpdatedAt k = ds_UpdatedAt set
  end.

(** *** Sound records *)

Record set_ok (n : string) (t : Z) (set : dynamicRecordSet) : Prop := {
  so_name : canonical n = Some n; so_type : t ∈ [TypeA; TypeTXT; TypeCNAME]; so_created : ds_CreatedAt set ≠ 0; so_updated : ds_UpdatedAt set ≠ 0;
  so_once : NoDup (ds_Values set); so_some : ds_Values set ≠ []; so_values : t ≠ TypeTXT → Forall (value_ok t) (ds_Values set) }.
Definition records_ok (rs : dynamicRecords) : Prop := ∀ n t set, set_at rs n t = Some set → set_ok n t set.

Lemma records_ok_empty : records_ok ∅.
Proof. intros n t set. unfold set_at. by rewrite lookup_empty. Qed.
Lemma set_at_insert rs n t set n' t' : set_at (<[n := <[t := set]> (default ∅ (rs !! n))]> rs) n' t' = if bool_decide (n = n' ∧ t = t') then Some set else set_at rs n' t'.
Proof.
  unfold set_at. destruct (decide (n = n')) as [<-|Hn]; [|rewrite lookup_insert_ne by done; by rewrite bool_decide_eq_false_2 by naive_solver].
  rewrite lookup_insert_eq. cbn. destruct (decide (t = t')) as [<-|Ht]; [by rewrite lookup_insert_eq, bool_decide_eq_true_2|].
  rewrite lookup_insert_ne, bool_decide_eq_false_2 by naive_solver. destruct (rs !! n); [done|]. cbn. by rewrite lookup_empty.
Qed.
Lemma insert_set_ok rs n t set : records_ok rs → set_ok n t set → records_ok (<[n := <[t := set]> (default ∅ (rs !! n))]> rs).
Proof. intros Hok Hs n' t' set'. rewrite set_at_insert. case_bool_decide as E; [|apply Hok]. destruct E as [<- <-]. by intros [= <-]. Qed.
Lemma delete_name_ok rs n : records_ok rs → records_ok (delete n rs).
Proof.
  intros Hok n' t set. unfold set_at. destruct (decide (n = n')) as [<-|Hn]; [by rewrite lookup_delete_eq|rewrite lookup_delete_ne by done; apply Hok].
Qed.
Lemma delete_set_ok rs n t : records_ok rs → records_ok (deleteDynamicRecordSet rs n t).
Proof.
  intros Hok. unfold deleteDynamicRecordSet. destruct (rs !! n) as [sets|] eqn:E; [|done]. cbv zeta. case_bool_decide as Ed; [by apply delete_name_ok|].
  intros n' t' set Hs. apply Hok. unfold set_at in *. destruct (decide (n = n')) as [<-|Hn]; [|by rewrite lookup_insert_ne in Hs].
  rewrite lookup_insert_eq in Hs. cbn in Hs. rewrite E. cbn. by apply lookup_delete_Some in Hs as [_ Hs].
Qed.
Lemma delete_value_ok rs n t v now : now ≠ 0 → records_ok rs → records_ok (deleteDynamicRecordValue rs n t v now).
Proof.
  intros Hnow Hok. unfold deleteDynamicRecordValue. destruct (rs !! n) as [sets|] eqn:E; [|done]. destruct (sets !! t) as [set|] eqn:Et; [|done]. cbv zeta.
  case_bool_decide as Ev; [by apply delete_set_ok|]. assert (Hs : set_ok n t set) by (apply Hok; unfold set_at; by rewrite E). destruct Hs as [H1 H2 H3 H4 H5 H6 H7].
  assert (Hd : sets = default ∅ (rs !! n)) by (by rewrite E). rewrite Hd. apply insert_set_ok; [done|]. split; [done|done|done|done| |done|].
  - change (NoDup (filter (fun u => u ≠ v) (ds_Values set))). by apply NoDup_filter.
  - intros Ht. change (Forall (value_ok t) (filter (fun u => u ≠ v) (ds_Values set))). specialize (H7 Ht). rewrite Forall_forall in *. intros u [_ Hu]%list_elem_of_filter. by apply H7.
Qed.

(** What a message puts into the records. *)
Lemma ip4_String_trimmed a : TrimSpace (ip4_String a) = ip4_String a ∧ ip4_String a ≠ "".
Proof.
  assert (Hg : Forall (fun c => graphic c = true) (to_bytes (ip4_String a))).
  { assert (Hd : ∀ i, Forall (fun c => graphic c = true) (to_bytes (Itoa (octet a i)))).
    { intros i. eapply Forall_impl; [apply Itoa_digits, octet_range|]. unfold is_digit, graphic. cbv beta. lia. }
    rewrite to_bytes_ip4. repeat (apply Forall_app; split; [apply Hd|]; apply Forall_cons; split; [done|]). apply Hd. }
  split; [by apply TrimSpace_id, graphic_trimmed|]. intros E. apply (f_equal to_bytes) in E. rewrite to_bytes_ip4 in E. by apply app_eq_nil in E as [_ E].
Qed.
Lemma rr_value_ok rr v : dynamicRecordValue Canonical IsName rr = Some v → RRToType rr ∈ [TypeA; TypeTXT; TypeCNAME] ∧ (RRToType rr ≠ TypeTXT → value_ok (RRToType rr) v).
Proof.
  unfold dynamicRecordValue, RRToType. destruct (rr_Data rr) as [[a|]|txt|target| | |]; try done.
  - intros [= <-]. split; [set_solver|]. intros _. destruct (ip4_String_trimmed a). by split_and!.
  - intros [= <-]. split; [set_solver|done].
  - intros Hc. destruct (canonical_stable _ _ Hc) as (H1 & H2 & H3). split; [set_solver|]. intros _. split_and!; [done|done|by left].
Qed.
Lemma add_value_ok rs n t ttl v now : now ≠ 0 → canonical n = Some n → t ∈ [TypeA; TypeTXT; TypeCNAME] → (t ≠ TypeTXT → value_ok t v) → records_ok rs →
  records_ok (addDynamicRecordValue rs n t ttl v now).
Proof.
  intros Hnow Hn Ht Hv Hok. unfold addDynamicRecordValue. cbv zeta. apply insert_set_ok; [done|]. set (old := default _ (default ∅ (rs !! n) !! t)).
  assert (Hold : NoDup (ds_Values old) ∧ (t ≠ TypeTXT → Forall (value_ok t) (ds_Values old)) ∧ (ds_Values old = [] ∨ ds_CreatedAt old ≠ 0)).
  { unfold old. destruct (rs !! n) as [sets|] eqn:E; cbn; [|rewrite lookup_empty; cbn; split_and!; [apply NoDup_nil_2|done|by left]].
    destruct (sets !! t) as [set|] eqn:Et; cbn; [|split_and!; [apply NoDup_nil_2|done|by left]].
    destruct (Hok n t set) as [? ? ? ? ? ? ?]; [unfold set_at; by rewrite E|]. split_and!; [done|done|by right]. }
  destruct Hold as (O1 & O2 & O3). split; [done|done| |done|..]; cbn [ds_CreatedAt ds_Values].
  - unfold time_IsZero. by destruct (Z.eqb_spec (ds_CreatedAt old) 0).
  - destruct (_ =? _); [apply NoDup_singleton|]. case_bool_decide as Hin; [done|]. apply NoDup_app. split_and!; [done|set_solver|apply NoDup_singleton].
  - destruct (_ =? _); [done|]. case_bool_decide as Hin; [intros E; rewrite E in Hin; set_solver|by destruct (ds_Values old)].
  - intros Htt. destruct (_ =? _); [by apply Forall_singleton, Hv|]. case_bool_decide; [by apply O2|]. apply Forall_app. split; [by apply O2|by apply Forall_singleton, Hv].
Qed.
Lemma apply_ok ttl now zone rr rs rs' : now ≠ 0 → records_ok rs → applyDynamicUpdateLocked Canonical IsName ttl now zone rr rs = Ok rs' → records_ok rs'.
Proof.
  intros Hnow Hok. unfold applyDynamicUpdateLocked. destruct (canonical (rr_Name rr)) as [name|] eqn:En; [|done]. destruct (negb _); [done|].
  destruct (_ =? ClassANY); [intros [= <-]; destruct (_ =? _); [by apply delete_name_ok|by apply delete_set_ok]|].
  destruct (_ =? ClassNONE); [destruct (dynamicRecordValue _ _ rr); [|done]; intros [= <-]; by apply delete_value_ok|].
  destruct (_ =? ClassINET); [|done]. destruct (dynamicRecordValue _ _ rr) as [v|] eqn:Ev; [|done]. intros [= <-]. destruct (rr_value_ok _ _ Ev).
  apply add_value_ok; [done|by apply (canonical_stable _ _ En)|done..].
Qed.
Lemma applies_ok ttl now zone rrs rs : now ≠ 0 → records_ok rs → records_ok (apply_updates Canonical IsName ttl now zone rrs rs).1.
Proof.
  intros Hnow. revert rs. induction rrs as [|rr rrs IH]; intros rs Hok; cbn [apply_updates]; [done|].
  destruct (applyDynamicUpdateLocked _ _ ttl now zone rr rs) as [rs'|] eqn:E; [|done]. apply IH. by eapply apply_ok.
Qed.

(** *** The file *)

Lemma type_name_back t : t ∈ [TypeA; TypeTXT; TypeCNAME] → dynamicTypeFromName (dynamicTypeName t) = Some t.
Proof. rewrite !elem_of_cons, elem_of_nil. intros [->|[->|[->|[]]]]; by vm_compute. Qed.

Lemma type_named raw t : dynamicTypeFromName raw = Some t → t ∈ [TypeA; TypeTXT; TypeCNAME].
Proof. unfold dynamicTypeFromName. cbv zeta. repeat case_match; try done; intros [= <-]; set_solver. Qed.

Definition reloaded (ttl t : Z) (set : dynamicRecordSet) : option dynamicRecordSet :=
  let values := normalize t (sort_Strings (ds_Values set)) in
  if bool_decide (values = []) then None
  else Some (mkDynamicRecordSet (if ds_TTL set =? 0 then ttl else ds_TTL set) values (ds_CreatedAt set) (ds_UpdatedAt set)).

Lemma reloaded_read_back ttl n t set : set_ok n t set → read_back ttl t set (reloaded ttl t set).
Proof.
  intros [_ _ _ _ H5 _ H7]. unfold read_back, reloaded. cbv zeta.
  assert (Hp : normalize t (sort_Strings (ds_Values set)) ≡ₚ reread_values t (ds_Values set)).
  { unfold reread_values. destruct (Z.eqb_spec t TypeTXT) as [->|Ht]; [|by apply normalize_id, H5; apply H7].
    apply NoDup_Permutation; [apply normalize_NoDup|apply NoDup_remove_dups|]. intros v. rewrite elem_of_normalize, elem_of_remove_dups, list_elem_of_filter, list_elem_of_fmap.
    unfold sort_Strings. setoid_rewrite merge_sort_Permutation. unfold normal_value. change (TypeTXT =? TypeCNAME) with false. cbv zeta iota. naive_solver. }
  case_bool_decide as E; [by apply Permutation_nil; rewrite <- Hp, E|]. split_and!; [|done..]. intros E2. apply E, Permutation_nil. by rewrite <- E2, Hp.
Qed.

Lemma load_own ttl at_ rs n t set : set_ok n t set → load_entry Canonical IsName ttl at_ rs (dynamicRecordFromSet n t set)
  = match reloaded ttl t set with Some k => <[n := <[t := k]> (default ∅ (rs !! n))]> rs | None => rs end.
Proof.
  intros [H1 H2 H3 H4 _ _ _]. unfold load_entry, dynamicRecordFromSet, reloaded. cbn [dr_Name dr_Type dr_Values dr_TTL dr_CreatedAt dr_UpdatedAt].
  rewrite H1, type_name_back by done. cbv zeta. unfold time_IsZero. rewrite (proj2 (Z.eqb_neq _ _) H3), (proj2 (Z.eqb_neq _ _) H4). by case_bool_decide.
Qed.

Definition entry_triples (rs : dynamicRecords) : list (string * Z * dynamicRecordSet) :=
  flat_map (fun n => (fun '(t, set) => (n, t, set)) <$> sorted_types (default ∅ (rs !! n))) (sorted_set (dom rs)).
Lemma entries_of_triples rs : dynamicRecordEntries rs = (fun '(n, t, set) => dynamicRecordFromSet n t set) <$> entry_triples rs.
Proof.
  unfold dynamicRecordEntries, entry_triples. induction (sorted_set (dom rs)) as [|n l IH]; [done|]. cbn [flat_map]. rewrite fmap_app, IH. f_equal.
  rewrite <- list_fmap_compose. apply list_fmap_ext. by intros ? [t set] _.
Qed.
Lemma elem_of_triples rs n t set : (n, t, set) ∈ entry_triples rs ↔ set_at rs n t = Some set.
Proof.
  unfold entry_triples, set_at. rewrite list_elem_of_In, in_flat_map. setoid_rewrite <- list_elem_of_In. setoid_rewrite list_elem_of_fmap. setoid_rewrite elem_of_sorted_set. split.
  - intros (n' & Hn & [t' set'] & [= -> -> ->] & Hin). unfold sorted_types in Hin. rewrite merge_sort_Permutation, elem_of_map_to_list in Hin.
    apply elem_of_dom in Hn as [sets Hs]. rewrite Hs in *. exact Hin.
  - destruct (rs !! n) as [sets|] eqn:E; [|done]. cbn. intros Hs. exists n. split; [apply elem_of_dom; by eexists|]. exists (t, set). split; [done|].
    unfold sorted_types. rewrite E. cbn. by rewrite merge_sort_Permutation, elem_of_map_to_list.
Qed.
Lemma load_triples ttl at_ l rs n t : Forall (fun '(n, t, set) => set_ok n t set) l →
  let res := fold_left (load_entry Canonical IsName ttl at_) ((fun '(n, t, set) => dynamicRecordFromSet n t set) <$> l) rs in
  (∀ k, set_at res n t = Some k → (∃ set, (n, t, set) ∈ l ∧ reloaded ttl t set = Some k) ∨ set_at rs n t = Some k)
  ∧ ((∃ set, (n, t, set) ∈ l ∧ is_Some (reloaded ttl t set)) ∨ is_Some (set_at rs n t) → is_Some (set_at res n t)).
Proof.
  cbv zeta. revert rs. induction l as [|[[n1 t1] set1] l IH]; intros rs Hl; [cbn; set_solver|]. apply Forall_cons in Hl as [Hs Hl].
  rewrite fmap_cons. cbn [fold_left]. rewrite load_own by done. destruct (reloaded ttl t1 set1) as [k1|] eqn:E1; [destruct (IH (<[n1 := <[t1 := k1]> (default ∅ (rs !! n1))]> rs) Hl) as [I1 I2]|destruct (IH rs Hl) as [I1 I2]; split; [set_solver|]].
  - rewrite set_at_insert in I1, I2. split.
    + intros k Hk. destruct (I1 k Hk) as [(set & Hin & Hr)|Hat]; [left; set_solver|]. case_bool_decide as E; [|by right]. destruct E as [-> ->]. injection Hat as ->. left. set_solver.
    + intros [(set & [E|Hin]%elem_of_cons & Hr)|Hat]; apply I2; [|left; by exists set|]; [|right; case_bool_decide; [by eexists|done]].
      injection E as -> -> ->. right. rewrite bool_decide_eq_true_2 by done. by eexists.
  - intros [(set & [E|Hin]%elem_of_cons & Hr)|Hat]; apply I2; [|left; by exists set|by right]. injection E as -> -> ->. rewrite E1 in Hr. by destruct Hr.
Qed.
Lemma load_persisted ttl at_ rs n t : records_ok rs →
  set_at (fold_left (load_entry Canonical IsName ttl at_) (dynamicRecordEntries rs) ∅) n t = set_at rs n t ≫= reloaded ttl t.
Proof.
  intros Hok. rewrite entries_of_triples. destruct (load_triples ttl at_ (entry_triples rs) ∅ n t) as [I1 I2].
  { apply Forall_forall. intros [[n' t'] set] Hin. apply Hok. by apply elem_of_triples. }
  set (res := fold_left _ _ _) in *. assert (H0 : set_at ∅ n t = None) by (unfold set_at; by rewrite lookup_empty). rewrite H0 in I1, I2.
  destruct (set_at res n t) as [k|] eqn:E.
  - destruct (I1 k eq_refl) as [(set & Hin%elem_of_triples & Hr)|]; [by rewrite Hin|done].
  - destruct (set_at rs n t) as [set|] eqn:E2; [|done]. cbn. destruct (reloaded ttl t set) eqn:Er; [|done]. apply elem_of_triples in E2.
    destruct I2 as [? ?]; [left; exists set; by rewrite Er|done].
Qed.
Lemma load_ok ttl at_ l rs : at_ ≠ 0 → records_ok rs → records_ok (fold_left (load_entry Canonical IsName ttl at_) l rs).
Proof.
  intros Hat. revert rs. induction l as [|e l IH]; intros rs Hok; cbn [fold_left]; [done|]. apply IH. unfold load_entry.
  destruct (canonical (dr_Name e)) as [n|] eqn:En; [|done]. destruct (dynamicTypeFromName (dr_Type e)) as [t|] eqn:Et; [|done]. cbv zeta.
  case_bool_decide as Ev; [done|]. apply insert_set_ok; [done|]. split; cbn [ds_CreatedAt ds_UpdatedAt ds_Values];
    [by apply (canonical_stable _ _ En)|by eapply type_named|unfold time_IsZero; by destruct (Z.eqb_spec (dr_CreatedAt e) 0)|unfold time_IsZero; by destruct (Z.eqb_spec (dr_UpdatedAt e) 0)|apply normalize_NoDup|done|intros _; apply normalize_values_ok].
Qed.

(** *** Steps *)

(** Whatever is asked of the server: changes on the console, listings, synchronisations,
    queries, transfers and update messages, with any failure of the file; and a restart,
    whatever the configured time to live. *)
Inductive dns_step (path : string) : EmbeddedServer * Disk → EmbeddedServer * Disk → Prop :=
| ds_upsert s disk f now r s' disk' res : now ≠ 0 → UpsertDynamicRecord Canonical IsName zone_order s disk f now r = (s', disk', res) → dns_step path (s, disk) (s', disk')
| ds_delete s disk f now n t s' disk' res : now ≠ 0 → DeleteDynamicRecord Canonical IsName s disk f now n t = (s', disk', res) → dns_step path (s, disk) (s', disk')
| ds_list s disk f now s' l : now ≠ 0 → ListDynamicRecords Canonical IsName s disk f now = Ok (s', l) → dns_step path (s, disk) (s', disk)
| ds_sync s disk f now subs ms vs s' res : now ≠ 0 → Sync Canonical IsName s subs ms vs disk f now = (s', res) → dns_step path (s, disk) (s', disk)
| ds_serve s disk f now req s' disk' res : now ≠ 0 → serve s disk f now req = (s', disk', res) → dns_step path (s, disk) (s', disk')
| ds_restart s disk ttl : dns_step path (s, disk) (NewEmbeddedServer ttl path, disk).

(** A change that was answered with success. *)
Inductive dns_write : EmbeddedServer * Disk → EmbeddedServer * Disk → Prop :=
| dw_upsert s disk f now r s' disk' out : now ≠ 0 → UpsertDynamicRecord Canonical IsName zone_order s disk f now r = (s', disk', Ok out) → dns_write (s, disk) (s', disk')
| dw_delete s disk f now n t s' disk' : now ≠ 0 → DeleteDynamicRecord Canonical IsName s disk f now n t = (s', disk', Ok tt) → dns_write (s, disk) (s', disk')
| dw_update s disk f now req s' disk' : now ≠ 0 → m_Update req = true → serve s disk f now req = (s', disk', DReply RcodeSuccess []) → dns_write (s, disk) (s', disk').

(** The file is JSON, which holds strings that are valid UTF-8. *)
Definition json_texts (rs : dynamicRecords) : Prop :=
  map_Forall (fun n sets => utf8_valid (to_bytes n) = true ∧ map_Forall (fun _ set => Forall (fun v => utf8_valid (to_bytes v) = true) (ds_Values set)) sets) rs.
Definition texts_step (path : string) (a b : EmbeddedServer * Disk) : Prop := dns_step path a b ∧ json_texts (es_dynamicRecords b.1).
(** One that leaves the records as they are. *)
Definition quiet_step (path : string) (a b : EmbeddedServer * Disk) : Prop := dns_step path a b ∧ es_dynamicRecords b.1 = es_dynamicRecords a.1.

Record dns_inv (path : string) (st : EmbeddedServer * Disk) : Prop := {
  di_path : es_dynamicRecordsPath st.1 = TrimSpace path; di_ok : records_ok (es_dynamicRecords st.1); di_time : dk_modTime st.2 ≠ 0 }.
Definition in_file (st : EmbeddedServer * Disk) : Prop := dk_file st.2 = Some (dynamicRecordEntries (es_dynamicRecords st.1)).

Lemma ensure_inv path s disk f now s1 : now ≠ 0 → dns_inv path (s, disk) → ensureDynamicRecordsLoadedLocked Canonical IsName s disk f now = Ok s1 → dns_inv path (s1, disk).
Proof.
  intros Hn [H1 H2 H3]. cbn in *. unfold ensureDynamicRecordsLoadedLocked, loadDynamicRecordsLocked. destruct (es_dynamicLoaded s); [by intros [= <-]|].
  destruct (bool_decide _); [intros [= <-]; by split|]. destruct (df_read f); [done|]. destruct (dk_file disk) as [l|]; intros [= <-]; [|by split].
  split; [done| |done]. apply load_ok; [|apply records_ok_empty]. by destruct (df_stat f).
Qed.
(** Records that are sound are written as they are. *)
Lemma commit_inv path s disk f now disk' : TrimSpace path ≠ "" → now ≠ 0 → dns_inv path (s, disk) → persistDynamicRecordsLocked s disk f now = Ok disk' →
  dns_inv path (s <| es_serialAt := now |>, disk') ∧ in_file (s <| es_serialAt := now |>, disk').
Proof.
  intros Hp Hn [H1 H2 H3]. cbn in *. unfold persistDynamicRecordsLocked. rewrite H1, (bool_decide_eq_false_2 _ Hp). destruct (df_write f); [done|].
  intros [= <-]. split; [by split|done].
Qed.

Lemma shape_ok s r name t ttl values now created : validateDynamicRecordShape Canonical IsName s r = Ok (name, t, ttl, values) → now ≠ 0 → created ≠ 0 →
  set_ok name t (mkDynamicRecordSet ttl values created now).
Proof.
  unfold validateDynamicRecordShape. destruct (hasDNSNameUnsafeChars _); [done|]. destruct (canonical (dr_Name r)) as [n|] eqn:En; [|done].
  destruct (dynamicTypeFromName (dr_Type r)) as [t1|] eqn:Et; [|done]. cbv zeta. destruct (_ =? 0); [done|]. case_bool_decide as Ev; [done|].
  destruct (_ && _); [done|]. destruct (negb _); [done|]. intros [= <- <- <- <-] Hn Hc. destruct (canonical_stable _ _ En) as [Hs _].
  split; [done|by eapply type_named|done|done|apply normalize_NoDup|done|intros _; apply normalize_values_ok].
Qed.

(** A call keeps the server sound, and leaves the file as it was or puts the records into
    it, which it does whenever it reports a change. *)
Definition kept (path : string) (a b : EmbeddedServer * Disk) (changed : Prop) : Prop := dns_inv path b ∧ (b.2 = a.2 ∨ in_file b) ∧ (changed → in_file b).

Lemma upsert_kept path s disk f now r s' disk' res : TrimSpace path ≠ "" → now ≠ 0 → dns_inv path (s, disk) →
  UpsertDynamicRecord Canonical IsName zone_order s disk f now r = (s', disk', res) → kept path (s, disk) (s', disk') (∃ out, res = Ok out).
Proof.
  intros Hp Hn Hi. unfold UpsertDynamicRecord, kept. destruct (validateDynamicRecordShape _ _ s r) as [[[[name t] ttl] values]|e] eqn:Es; [|intros [= <- <- <-]; naive_solver].
  destruct (ensureDynamicRecordsLoadedLocked _ _ s disk f now) as [s1|e] eqn:E1; [|intros [= <- <- <-]; naive_solver]. pose proof (ensure_inv _ _ _ _ _ _ Hn Hi E1) as I1.
  destruct (validateDynamicRecordPlacementLocked _ s1 name t); [|intros [= <- <- <-]; naive_solver]. cbv zeta. set (created := match _ !! t with Some _ => _ | None => _ end).
  assert (Hc : created ≠ 0). { unfold created, time_IsZero. case_match; [|done]. by destruct (Z.eqb_spec (ds_CreatedAt d) 0). }
  set (rs := <[name := _]> (es_dynamicRecords s1)).
  assert (I2 : dns_inv path (s1 <| es_dynamicRecords := rs |>, disk)) by (split; [apply I1|apply insert_set_ok; [apply I1|by eapply shape_ok]|apply I1]).
  destruct (persistDynamicRecordsLocked _ disk f now) as [d|] eqn:Ed; intros [= <- <- <-]; [destruct (commit_inv _ _ _ _ _ _ Hp Hn I2 Ed); naive_solver|naive_solver].
Qed.
Lemma delete_kept path s disk f now n t s' disk' res : TrimSpace path ≠ "" → now ≠ 0 → dns_inv path (s, disk) →
  DeleteDynamicRecord Canonical IsName s disk f now n t = (s', disk', res) → kept path (s, disk) (s', disk') (res = Ok tt).
Proof.
  intros Hp Hn Hi. unfold DeleteDynamicRecord, kept. destruct (canonical n) as [name|]; [|intros [= <- <- <-]; naive_solver].
  destruct (dynamicTypeFromName t) as [ty|]; [|intros [= <- <- <-]; naive_solver].
  destruct (ensureDynamicRecordsLoadedLocked _ _ s disk f now) as [s1|e] eqn:E1; [|intros [= <- <- <-]; naive_solver]. pose proof (ensure_inv _ _ _ _ _ _ Hn Hi E1) as I1. cbv zeta.
  set (rs := deleteDynamicRecordSet _ _ _).
  assert (I2 : dns_inv path (s1 <| es_dynamicRecords := rs |>, disk)) by (split; [apply I1|apply delete_set_ok, I1|apply I1]).
  destruct (persistDynamicRecordsLocked _ disk f now) as [d|] eqn:Ed; intros [= <- <- <-]; [destruct (commit_inv _ _ _ _ _ _ Hp Hn I2 Ed); naive_solver|naive_solver].
Qed.
Lemma update_kept path s disk f now req s' disk' res : TrimSpace path ≠ "" → now ≠ 0 → dns_inv path (s, disk) →
  serveDynamicUpdate Canonical IsName s disk f now req = (s', disk', res) → kept path (s, disk) (s', disk') (res = DReply RcodeSuccess []).
Proof.
  intros Hp Hn Hi. unfold serveDynamicUpdate, kept. destruct (m_Ns req) as [rrs|]; [|intros [= <- <- <-]; naive_solver].
  destruct (updateZone _ _ req) as [zone|]; [|intros [= <- <- <-]; naive_solver]. destruct (negb _); [intros [= <- <- <-]; naive_solver|].
  destruct (ensureDynamicRecordsLoadedLocked _ _ s disk f now) as [s1|e] eqn:E1; [|intros [= <- <- <-]; naive_solver]. pose proof (ensure_inv _ _ _ _ _ _ Hn Hi E1) as I1.
  pose proof (applies_ok (es_ttl s1) now zone rrs _ Hn (di_ok _ _ I1)) as Hrs. cbn [fst] in Hrs. destruct (apply_updates _ _ _ now zone rrs _) as [rs failed]. cbn [fst] in Hrs.
  assert (I2 : dns_inv path (s1 <| es_dynamicRecords := rs |>, disk)) by (split; [apply I1|done|apply I1]).
  destruct failed as [e|].
  - intros [= <- <- <-]. split; [done|]. split; [by left|]. unfold updateErrorCode. intros E. by repeat case_match.
  - destruct (persistDynamicRecordsLocked _ disk f now) as [d|] eqn:Ed; intros [= <- <- <-]; [destruct (commit_inv _ _ _ _ _ _ Hp Hn I2 Ed); naive_solver|naive_solver].
Qed.
Lemma query_keeps s disk f now req s' disk' res : m_Update req = false → serve s disk f now req = (s', disk', res) → s' = s ∧ disk' = disk.
Proof. unfold ServeDNS. intros ->. repeat case_match; by intros [= <- <- <-]. Qed.

Lemma step_kept path a b : TrimSpace path ≠ "" → dns_step path a b → dns_inv path a → dns_inv path b ∧ (b.2 = a.2 ∨ in_file b).
Proof.
  intros Hp [s disk f now r s' disk' res Hn E|s disk f now n t s' disk' res Hn E|s disk f now s' l Hn E|s disk f now subs ms vs s' res Hn E|s disk f now req s' disk' res Hn E|s disk ttl] Hi.
  - destruct (upsert_kept _ _ _ _ _ _ _ _ _ Hp Hn Hi E) as (? & ? & _). done.
  - destruct (delete_kept _ _ _ _ _ _ _ _ _ _ Hp Hn Hi E) as (? & ? & _). done.
  - revert E. unfold ListDynamicRecords. destruct (ensureDynamicRecordsLoadedLocked _ _ s disk f now) as [s1|e] eqn:E1; [|done]. intros [= <- _]. split; [by eapply ensure_inv|by left].
  - split; [|by left]. revert E. unfold Sync. destruct subs as [subs|], ms as [ms|], vs as [vs|]; try by intros [= <- <-]. destruct (collect _ _ subs ms vs) as [zones records].
    destruct (ensureDynamicRecordsLoadedLocked _ _ s disk f now) as [s1|e] eqn:E1; [|by intros [= <- <-]]. destruct (ensure_inv _ _ _ _ _ _ Hn Hi E1). intros [= <- <-]. by split.
  - destruct (m_Update req) eqn:Eu; [|destruct (query_keeps _ _ _ _ _ _ _ _ Eu E) as [-> ->]; split; [done|by left]].
    unfold ServeDNS in E. rewrite Eu in E. destruct (update_kept _ _ _ _ _ _ _ _ _ Hp Hn Hi E) as (? & ? & _). done.
  - split; [|by left]. split; [done|apply records_ok_empty|apply Hi].
Qed.
Lemma write_kept path a b : TrimSpace path ≠ "" → dns_write a b → dns_inv path a → dns_inv path b ∧ in_file b.
Proof.
  intros Hp [s disk f now r s' disk' out Hn E|s disk f now n t s' disk' Hn E|s disk f now req s' disk' Hn Eu E] Hi.
  - destruct (upsert_kept _ _ _ _ _ _ _ _ _ Hp Hn Hi E) as (? & _ & H). eauto.
  - destruct (delete_kept _ _ _ _ _ _ _ _ _ _ Hp Hn Hi E) as (? & _ & H). eauto.
  - unfold ServeDNS in E. rewrite Eu in E. destruct (update_kept _ _ _ _ _ _ _ _ _ Hp Hn Hi E) as (? & _ & H). eauto.
Qed.

(** C20: records survive a restart.  Whatever a name server has been asked, on the console,
    by synchronisations and by update messages, with failures of its file and restarts in
    between: once a change was answered with success, and as long as its records stay as
    they are, a server started on its file has the same records.  Types, times to live
    and times are the same, addresses and alias targets are those held, and of texts each
    one is there without the space around it, if it is not blank.  The names and texts
    held are valid UTF-8 throughout, which JSON requires. *)
Theorem records_survive_restart (ttl ttl' : Duration) (path : string) (disk0 disk : Disk) (now : Time) (a b : EmbeddedServer * Disk) (s : EmbeddedServer) (f : DiskFaults)
    (Hpath : TrimSpace path ≠ "") (Hstart : dk_modTime disk0 ≠ 0) (Hrun : rtc (texts_step path) (NewEmbeddedServer ttl path, disk0) a)
    (Hwrite : dns_write a b) (Htexts : json_texts (es_dynamicRecords b.1)) (Hquiet : rtc (quiet_step path) b (s, disk)) (Hread : df_read f = None) :
  ∃ s', ensureDynamicRecordsLoadedLocked Canonical IsName (NewEmbeddedServer ttl' path) disk f now = Ok s'
    ∧ ∀ n t, match set_at (es_dynamicRecords s) n t with
             | Some set => read_back (es_ttl s') t set (set_at (es_dynamicRecords s') n t)
             | None => set_at (es_dynamicRecords s') n t = None
             end.
Proof.
  assert (Ha : dns_inv path a).
  { assert (H0 : dns_inv path (NewEmbeddedServer ttl path, disk0)) by (split; [done|apply records_ok_empty|done]).
    revert H0. induction Hrun as [|x y z [Hs _] _ IH]; [done|]. intros H0. apply (IH Hwrite). by destruct (step_kept _ _ _ Hpath Hs H0). }
  destruct (write_kept _ _ _ Hpath Hwrite Ha) as [Hb Hf].
  assert (Hs : dns_inv path (s, disk) ∧ in_file (s, disk)).
  { clear -Hpath Hquiet Hb Hf Hcan. revert Hb Hf. induction Hquiet as [|x y z [Hs Hsame] _ IH]; [done|]. intros Hb Hf. destruct (step_kept _ _ _ Hpath Hs Hb) as [Hy Hfile].
    apply IH; [done|]. destruct Hfile as [E|]; [|done]. unfold in_file in *. by rewrite E, Hsame. }
  destruct Hs as [[_ H2 _] H3]. unfold in_file in H3. cbn [fst snd] in H2, H3. unfold ensureDynamicRecordsLoadedLocked, loadDynamicRecordsLocked.
  change (es_dynamicLoaded (NewEmbeddedServer ttl' path)) with false. change (es_dynamicRecordsPath (NewEmbeddedServer ttl' path)) with (TrimSpace path).
  rewrite (bool_decide_eq_false_2 _ Hpath), Hread, H3. eexists. split; [reflexivity|]. intros n t. cbv zeta.
  pose proof (load_persisted (es_ttl (NewEmbeddedServer ttl' path)) (if df_stat f then dk_modTime disk else now) _ n t H2) as Hl.
  destruct (set_at (es_dynamicRecords s) n t) as [set|] eqn:E; [|exact Hl]. pose proof (reloaded_read_back (es_ttl (NewEmbeddedServer ttl' path)) n t set (H2 _ _ _ E)) as Hb'.
  cbn [mbind option_bind] in Hl. rewrite <- Hl in Hb'. exact Hb'.
Qed.
End restart.

(** ** Runs *)

(** Names end in a dot. *)
Definition demo_canonical (s : string) : string := if HasSuffix s "." then s else s +:+ ".".
Definition demo_IsName (s : string) : bool := s !=? "".
Definition in_order (z : gset string) : list string := sorted_set z.
Definition by_type (m : gmap Z dynamicRecordSet) : list (Z * dynamicRecordSet) := map_to_list m.

Lemma strip_left_dot l : l ≠ [] → strip_left l = None → strip_left (l ++ to_bytes ".") = None.
Proof.
  intros Hne. destruct l as [|a [|b [|c l]]]; [done|..]; cbn [app]; unfold strip_left; cbn [to_bytes String.list_ascii_of_string].
  - destruct (space1 a); [done|]. intros _. by replace (space2 a _) with false by (unfold space2; change (byte_val "."%char) with 46; lia).
  - destruct (space1 a); [done|]. destruct (space2 a b); [done|]. intros _. by replace (space3 a b _) with false by (unfold space3; change (byte_val "."%char) with 46; lia).
  - by repeat case_match.
Qed.
Lemma demo_canonical_laws : canonical_laws demo_canonical.
Proof.
  intros s. split.
  - assert (E : HasSuffix (demo_canonical s) "." = true) by (unfold demo_canonical; case_match; [done|apply HasSuffix_app]). unfold demo_canonical at 1. by rewrite E.
  - intros Ht Hne. unfold demo_canonical. destruct (HasSuffix s "."); [done|]. split.
    + apply TrimSpace_id. pose proof (TrimSpace_trimmed s) as [Hl _]. rewrite Ht in Hl. split; rewrite to_bytes_app; [|rewrite reverse_app; by apply strip_right_graphic].
      apply strip_left_dot; [|done]. intros E. apply Hne. rewrite <- (of_to_bytes s), E. done.
    + intros E. apply (f_equal to_bytes) in E. rewrite to_bytes_app in E. by destruct (to_bytes s).
Qed.

Definition demo_zone (name domain : string) : Subnet := mkSubnet name (mkSubnetSpec "10.0.0.0/24" "" None "" [] [] 0 [] [] 0 domain []) 0 0.
Definition demo_host : Machine :=
  mkMachine None "m1" "node1" "52:54:00:00:00:01" "10.0.0.7" "amd64" "uefi" (mkPowerConfig PowerTypeManual None None None None) (mkNetworkConfig "")
    (mkOSPreset "ubuntu" "24.04" "img" ∅) "/dev/sda" "" [] "dhcp" "lab" "" "" [] None "Ready" None "" "" "" "" None 0 0.
Definition no_faults : DiskFaults := mkDiskFaults None false None.
Definition no_file : Disk := mkDisk None 0.
Definition noon : Time := time_Unix 1700000000.

Local Abbreviation demo_serve := (ServeDNS demo_canonical demo_IsName in_order by_type).
Local Abbreviation demo_sync s subs ms := (Sync demo_canonical demo_IsName s (Ok subs) (Ok ms) (Ok []) no_file no_faults noon).
Definition demo_synced : EmbeddedServer := (demo_sync (NewEmbeddedServer 0 "/var/lib/dns.json") [demo_zone "lab" "lab.test"] [demo_host]).1.

Lemma demo_synced_ok : demo_sync (NewEmbeddedServer 0 "/var/lib/dns.json") [demo_zone "lab" "lab.test"] [demo_host] = (demo_synced, Ok tt).
Proof. vm_compute. reflexivity. Qed.
Lemma demo_has : has_address demo_canonical demo_IsName [demo_zone "lab" "lab.test"] [demo_host] [] "node1.lab.test." 167772167.
Proof. eexists. split; [left|]. exists "lab.test.", ["10.0.0.7"], "10.0.0.7". split_and!; [vm_compute; reflexivity|left|vm_compute; reflexivity]. Qed.
Lemma demo_in_zone : inZone "node1.lab.test." (es_zones demo_synced) = true.
Proof. vm_compute. reflexivity. Qed.

Lemma by_type_perm m : by_type m ≡ₚ map_to_list m.
Proof. done. Qed.
Lemma in_order_perm z : in_order z ≡ₚ elements z.
Proof. apply merge_sort_Permutation. Qed.
Lemma answers_from_inventory_witness : ∃ l, demo_serve demo_synced no_file no_faults noon (a_question "node1.lab.test")
  = (demo_synced, no_file, DReply RcodeSuccess (l ++ hand_addresses demo_canonical demo_IsName demo_synced "node1.lab.test."))
  ∧ a_rr demo_synced "node1.lab.test." 167772167 ∈ l.
Proof.
  destruct (answers_from_inventory demo_canonical demo_IsName in_order by_type (NewEmbeddedServer 0 "/var/lib/dns.json") demo_synced
    [demo_zone "lab" "lab.test"] [demo_host] [] no_file no_faults noon by_type_perm in_order_perm demo_synced_ok) as (_ & _ & _ & H).
  destruct (H "node1.lab.test" "node1.lab.test." eq_refl demo_in_zone) as [H1 _]. destruct H1 as (l & Hl & _ & Hin); [left; exists 167772167; exact demo_has|].
  exists l. split; [exact Hl|]. apply Hin. exists 167772167. split; [reflexivity|exact demo_has].
Defined.

Lemma demo_zone_served : "lab.test." ∈ es_zones demo_synced.
Proof. apply (bool_decide_unpack _). vm_compute. exact I. Qed.
(** The host's address and an added text are in the transfer, as they are in the
    answers to queries. *)
Definition with_text : EmbeddedServer :=
  demo_synced <| es_dynamicRecords := {["a.lab.test." := {[TypeTXT := mkDynamicRecordSet 60 ["hi"] noon noon]}]} |>.
Lemma with_text_zone : "lab.test." ∈ es_zones with_text.
Proof. apply (bool_decide_unpack _). vm_compute. exact I. Qed.
Lemma with_text_answers :
  a_rr with_text "node1.lab.test." 167772167 ∈ (queryRecordsLocked demo_canonical demo_IsName in_order by_type with_text noon "node1.lab.test." TypeANY).1
  ∧ mkRR "a.lab.test." ClassINET 60 (DTXT ["hi"]) ∈ (queryRecordsLocked demo_canonical demo_IsName in_order by_type with_text noon "a.lab.test." TypeANY).1.
Proof. split; apply (bool_decide_unpack _); vm_compute; exact I. Qed.
Lemma transfer_is_the_queries_witness : ∃ body, serveAXFR demo_canonical demo_IsName with_text noon "lab.test."
  = DTransfer (soaRR with_text noon "lab.test." :: nsRR with_text "lab.test." :: body ++ [soaRR with_text noon "lab.test."])
  ∧ a_rr with_text "node1.lab.test." 167772167 ∈ body ∧ mkRR "a.lab.test." ClassINET 60 (DTXT ["hi"]) ∈ body.
Proof.
  pose proof (transfer_is_the_queries demo_canonical demo_IsName in_order by_type with_text noon "lab.test." by_type_perm) as H.
  rewrite (bool_decide_eq_true_2 _ with_text_zone) in H. destruct H as (body & H & Hb). exists body. destruct with_text_answers as [W1 W2].
  split; [exact H|]. split.
  - apply Hb. split; [vm_compute; reflexivity|]. split; [left|exact W1].
  - apply Hb. split; [vm_compute; reflexivity|]. split; [right; left|exact W2].
Defined.

(** A text record is added to the zone by a message. *)
Definition txt_rr (name value : string) : RR := mkRR name ClassINET 60 (DTXT [value]).
Definition update_of (zone : string) (rrs : list RR) : Msg := mkMsg true [mkQuestion zone TypeSOA ClassINET] (Some rrs).
Definition after_update (s : EmbeddedServer) (disk : Disk) (rrs : list RR) := demo_serve s disk no_faults noon (update_of "lab.test." rrs).
Lemma update_confined_witness : (after_update demo_synced no_file [txt_rr "a.lab.test." "hi"]).2 = DReply RcodeSuccess []
  ∧ es_records (after_update demo_synced no_file [txt_rr "a.lab.test." "hi"]).1.1 = es_records demo_synced.
Proof.
  split; [vm_compute; reflexivity|].
  destruct (update_confined demo_canonical demo_IsName in_order by_type demo_synced (after_update demo_synced no_file [txt_rr "a.lab.test." "hi"]).1.1 no_file
    (after_update demo_synced no_file [txt_rr "a.lab.test." "hi"]).1.2 no_faults noon (update_of "lab.test." [txt_rr "a.lab.test." "hi"])
    (after_update demo_synced no_file [txt_rr "a.lab.test." "hi"]).2) as (_ & H & _); [reflexivity|reflexivity|reflexivity|exact H].
Defined.

(** A record added on the console of a synchronised server, and texts added by a
    message. *)
Definition console_record (type : string) (values : list string) : DynamicRecord := mkDynamicRecord "www.lab.test" type 0 values 0 0.
Definition start_disk : Disk := mkDisk None noon.
Definition upserted := UpsertDynamicRecord demo_canonical demo_IsName in_order demo_synced start_disk no_faults noon (console_record "a" ["10.0.0.9"; "10.0.0.8"]).
Definition messaged := after_update upserted.1.1 upserted.1.2 [txt_rr "a.lab.test." " hi"; txt_rr "a.lab.test." " "].
Local Abbreviation demo_run := (texts_step demo_canonical demo_IsName in_order by_type "/var/lib/dns.json").

Lemma upserted_run : rtc demo_run (NewEmbeddedServer 0 "/var/lib/dns.json", start_disk) (upserted.1.1, upserted.1.2).
Proof.
  apply (rtc_l _ _ (demo_synced, start_disk)).
  - split; [|apply (bool_decide_unpack _); by vm_compute].
    apply (ds_sync _ _ _ _ _ _ _ no_faults noon (Ok [demo_zone "lab" "lab.test"]) (Ok [demo_host]) (Ok []) _ (Ok tt)); [done|]. vm_compute. reflexivity.
  - apply rtc_once. split; [|apply (bool_decide_unpack _); by vm_compute].
    apply (ds_upsert _ _ _ _ _ _ _ no_faults noon (console_record "a" ["10.0.0.9"; "10.0.0.8"]) _ _ upserted.2); [done|].
    unfold upserted. by destruct (UpsertDynamicRecord _ _ _ _ _ _ _ _) as [[? ?] ?].
Qed.
Lemma messaged_written : dns_write demo_canonical demo_IsName in_order by_type (upserted.1.1, upserted.1.2) (messaged.1.1, messaged.1.2).
Proof.
  apply (dw_update _ _ _ _ _ _ no_faults noon (update_of "lab.test." [txt_rr "a.lab.test." " hi"; txt_rr "a.lab.test." " "])); [done|done|].
  assert (E : messaged.2 = DReply RcodeSuccess []) by (vm_compute; reflexivity). revert E. unfold messaged, after_update.
  destruct (ServeDNS _ _ _ _ _ _ _ _ _) as [[? ?] r]. by intros E; cbn in E; rewrite E.
Qed.
Lemma messaged_texts : json_texts (es_dynamicRecords messaged.1.1).
Proof. apply (bool_decide_unpack _). by vm_compute. Qed.
Lemma messaged_holds :
  set_at (es_dynamicRecords messaged.1.1) "www.lab.test." TypeA = Some (mkDynamicRecordSet 300 ["10.0.0.8"; "10.0.0.9"] noon noon)
  ∧ set_at (es_dynamicRecords messaged.1.1) "a.lab.test." TypeTXT = Some (mkDynamicRecordSet 60 [" hi"; " "] noon noon).
Proof. vm_compute. done. Qed.
Lemma demo_path_set : TrimSpace "/var/lib/dns.json" ≠ "".
Proof. by vm_compute. Qed.
Lemma noon_set : dk_modTime start_disk ≠ 0.
Proof. by vm_compute. Qed.

Lemma records_survive_restart_witness : ∃ s', ensureDynamicRecordsLoadedLocked demo_canonical demo_IsName (NewEmbeddedServer 0 "/var/lib/dns.json") messaged.1.2 no_faults noon = Ok s'
  ∧ (∃ k, set_at (es_dynamicRecords s') "www.lab.test." TypeA = Some k ∧ ds_Values k ≡ₚ ["10.0.0.8"; "10.0.0.9"] ∧ ds_TTL k = 300)
  ∧ ∃ k, set_at (es_dynamicRecords s') "a.lab.test." TypeTXT = Some k ∧ ds_Values k ≡ₚ ["hi"] ∧ ds_TTL k = 60.
Proof.
  destruct (records_survive_restart demo_canonical demo_IsName in_order by_type demo_canonical_laws 0 0 "/var/lib/dns.json" start_disk messaged.1.2 noon
    (upserted.1.1, upserted.1.2) (messaged.1.1, messaged.1.2) messaged.1.1 no_faults demo_path_set noon_set upserted_run messaged_written messaged_texts
    (rtc_refl _ _) eq_refl) as (s' & E & H).
  exists s'. split; [exact E|]. destruct messaged_holds as [M1 M2]. pose proof (H "www.lab.test." TypeA) as H1. pose proof (H "a.lab.test." TypeTXT) as H2.
  rewrite M1 in H1. rewrite M2 in H2. clear H E. unfold read_back in H1, H2. split.
  - destruct (set_at (es_dynamicRecords s') "www.lab.test." TypeA) as [k|]; [|vm_compute in H1; discriminate H1]. exists k. split; [reflexivity|]. destruct H1 as (_ & V & T & _). split; [exact V|exact T].
  - destruct (set_at (es_dynamicRecords s') "a.lab.test." TypeTXT) as [k|]; [|vm_compute in H2; discriminate H2]. exists k. split; [reflexivity|]. destruct H2 as (_ & V & T & _).
    split; [|exact T]. replace ["hi"] with (reread_values TypeTXT [" hi"; " "]) by (vm_compute; reflexivity). exact V.
Defined.

(** *** What update messages leave behind *)

(** The second record is refused and the message with it; the first is in force all the
    same, in memory and not in the file. *)
Lemma refused_update_half_done :
  let '(s, disk, r) := after_update demo_synced no_file [txt_rr "a.lab.test." "hi"; txt_rr "a.other." "no"] in
  r = DReply RcodeNotZone [] ∧ disk = no_file
  ∧ (demo_serve s disk no_faults noon (mkMsg false [mkQuestion "a.lab.test." TypeTXT ClassINET] (Some []))).2 = DReply RcodeSuccess [txt_rr "a.lab.test." "hi"].
Proof. vm_compute. done. Qed.

(** A text value is not what it was after a restart: its surrounding space is gone. *)
Lemma text_value_trimmed :
  let '(s, disk, r) := after_update demo_synced no_file [txt_rr "a.lab.test." " hi"] in
  r = DReply RcodeSuccess [] ∧ ds_Values <$> set_at (es_dynamicRecords s) "a.lab.test." TypeTXT = Some [" hi"]
  ∧ match ensureDynamicRecordsLoadedLocked demo_canonical demo_IsName (NewEmbeddedServer 0 "/var/lib/dns.json") disk no_faults noon with
    | Ok s' => ds_Values <$> set_at (es_dynamicRecords s') "a.lab.test." TypeTXT = Some ["hi"]
    | Err _ => False
    end.
Proof. vm_compute. done. Qed.

(** A message puts an address next to an alias, which the console refuses. *)
Lemma update_beside_alias :
  let '(s, disk, r) := after_update demo_synced no_file [mkRR "w.lab.test." ClassINET 60 (DCNAME "node1.lab.test."); mkRR "w.lab.test." ClassINET 60 (DA (Some 167772169))] in
  r = DReply RcodeSuccess [] ∧ is_Some (set_at (es_dynamicRecords s) "w.lab.test." TypeCNAME) ∧ is_Some (set_at (es_dynamicRecords s) "w.lab.test." TypeA)
  ∧ validateDynamicRecordPlacementLocked in_order s "w.lab.test." TypeA = Err errDynamicCNAMEConflict.
Proof. vm_compute. split_and!; by try eexists. Qed.

(** *** Zones within zones *)

(** With the zones ["test."] and ["lab.test."], whether the second one's own SOA record
    is answered depends on which of the two Go's map yields first. *)
Definition nested : EmbeddedServer := (demo_sync (NewEmbeddedServer 0 "") [demo_zone "top" "test"; demo_zone "lab" "lab.test"] []).1.
Definition other_order (z : gset string) : list string := reverse (in_order z).
Definition soa_question : Msg := mkMsg false [mkQuestion "lab.test." TypeSOA ClassINET] (Some []).
Lemma nested_zone_by_chance :
  (ServeDNS demo_canonical demo_IsName in_order by_type nested no_file no_faults noon soa_question).2 = DReply RcodeSuccess [soaRR nested noon "lab.test."]
  ∧ (ServeDNS demo_canonical demo_IsName other_order by_type nested no_file no_faults noon soa_question).2 = DReply RcodeNameError [].
Proof. vm_compute. done. Qed.
