(* ===== verification/Rfc2136.v ===== *)
(** * infra/dns: name servers kept up to date from outside

    rfc2136.go, which tells a name server of the addresses of the inventory by update
    messages, and powerdns.go with powerdns_controller.go, which does so over HTTP.  The
    library that signs, sends and verifies a message is a parameter: for each message, by
    its number, what comes back and whether the name server carried it out. *)
From S2P Require Import Prelude GoStrings GoNet GoPath Resource Power Store Subnet Machine Vm Dns.

(** ** rfc2136.go *)

Record recordSet := mkRecordSet { rs_Zone : string; rs_Name : string; rs_IPs : list Z }.
Global Instance recordSet_eq_dec : EqDecision recordSet.
Proof. solve_decision. Defined.

Record RFC2136Controller := mkRFC2136Controller {
  rc_server : string; rc_zone : string; rc_ttl : Z; rc_tsigName : string; rc_tsigSecret : string; rc_transport : string; rc_stores : bool; rc_last : gmap string recordSet }.
Global Instance RFC2136Controller_fields : Fields RFC2136Controller :=
  fpure mkRFC2136Controller <*> rc_server <*> rc_zone <*> rc_ttl <*> rc_tsigName <*> rc_tsigSecret <*> rc_transport <*> rc_stores <*> rc_last.

(** An update message: its zone and its records. *)
Record Update := mkUpdate { up_Zone : string; up_Ns : list RR }.

Definition Enabled (c : RFC2136Controller) : bool := (rc_server c !=? "") && rc_stores c.

Definition dnsServerAddress (raw : string) : string :=
  let raw := TrimSpace raw in
  if raw ==? "" then "" else
  match SplitHostPort raw with
  | Ok _ => raw
  | Err _ => if negb (Contains raw ":") then JoinHostPort raw "53" else raw
  end.

(** The zero value stands for what is not in a map. *)
Definition no_set : recordSet := mkRecordSet "" "" [].
Definition equalRecordSet (a b : recordSet) : bool := (rs_Name a ==? rs_Name b) && (rs_Zone a ==? rs_Zone b) && bool_decide (rs_IPs a = rs_IPs b).

Definition deleteARRSet (name : string) : RR := mkRR name ClassANY 0 (DA None).
Definition replace_update (c : RFC2136Controller) (rec : recordSet) : Update :=
  mkUpdate (rs_Zone rec) (deleteARRSet (rs_Name rec) :: ((fun ip => mkRR (rs_Name rec) ClassINET (rc_ttl c) (DA (Some ip))) <$> rs_IPs rec)).
Definition delete_update (rec : recordSet) : Update := mkUpdate (rs_Zone rec) [deleteARRSet (rs_Name rec)].

(** The addresses the name server has, by zone and name. *)
Abbreviation Remote := (gmap (string * string) (list Z)).

Section rfc2136.
Context (Canonical : string → string) (IsName : string → bool).

Definition canonicalOrEmpty (raw : string) : string := default "" (canonicalFQDN Canonical IsName raw).
Definition NewRFC2136Controller (server zone : string) (ttl : Duration) (tsigName tsigSecret transport : string) (stores : bool) : RFC2136Controller :=
  let transport := ToLower (TrimSpace transport) in
  mkRFC2136Controller (dnsServerAddress server) (canonicalOrEmpty zone) (if 0 <? ttl then (ttl `div` Second) `mod` 2 ^ 32 else 300)
    (canonicalOrEmpty tsigName) (TrimSpace tsigSecret) (if transport ==? "" then "udp" else transport) stores ∅.

Definition addRecordSet (c : RFC2136Controller) (domain name : string) (records : gmap string recordSet) (rawIP : string) : gmap string recordSet :=
  match ParseAddr4 (TrimSpace rawIP) with
  | None => records
  | Some addr =>
      if (rc_zone c !=? "") && negb (nameInZone name (rc_zone c)) then records else
      let zone := if rc_zone c !=? "" then rc_zone c else domain in
      let rec := default no_set (records !! name) in
      if bool_decide (addr ∈ rs_IPs rec) then records else
      let rec := if rs_Name rec ==? "" then mkRecordSet zone name [] else rec in
      <[name := mkRecordSet (rs_Zone rec) (rs_Name rec) (rs_IPs rec ++ [addr])]> records
  end.
Definition add_host (c : RFC2136Controller) (records : gmap string recordSet) (e : option (string * option string * list string)) : gmap string recordSet :=
  match e with Some (domain, Some name, ips) => fold_left (addRecordSet c domain name) ips records | _ => records end.
Definition collectRecords (c : RFC2136Controller) (subnets : result (list Subnet)) (machines : result (list Machine)) (vms : result (list VirtualMachine)) : result (gmap string recordSet) :=
  match subnets, machines, vms with
  | Err e, _, _ => Err (ErrWrap "rfc2136 list subnets: " e "")
  | Ok _, Err e, _ => Err (ErrWrap "rfc2136 list machines: " e "")
  | Ok _, Ok _, Err e => Err (ErrWrap "rfc2136 list virtual machines: " e "")
  | Ok subnets, Ok machines, Ok vms =>
      let doms := (subnet_domains Canonical IsName subnets).2 in
      Ok (fold_left (add_host c) ((machine_entry Canonical IsName doms <$> machines) ++ (vm_entry Canonical IsName doms <$> vms)) ∅)
  end.

(** *** Talking to the name server *)

(** What it does with a message: a set of addresses deleted, an address added. *)
Definition remote_rr (zone : string) (r : Remote) (rr : RR) : Remote :=
  match rr_Data rr with
  | DA None => if rr_Class rr =? ClassANY then delete (zone, rr_Name rr) r else r
  | DA (Some a) => if rr_Class rr =? ClassINET then <[(zone, rr_Name rr) := default [] (r !! (zone, rr_Name rr)) ++ [a]]> r else r
  | _ => r
  end.
Definition remote_apply (u : Update) (r : Remote) : Remote := fold_left (remote_rr (up_Zone u)) (up_Ns u) r.

(** The library: decoding a secret; and for the message of a step, whether it was carried
    out, and the code of the answer or a failure. *)
Context (base64_Decode : string → result bytes) (exchange : nat → Update → bool * result Z) (RcodeToString : Z → string).
(** The order in which Go goes through a map. *)
Context (order : gmap string recordSet → list (string * recordSet)).

Record SyncState := mkSyncState { sy_tick : nat; sy_remote : Remote; sy_last : gmap string recordSet }.

Definition exchangeUpdate (c : RFC2136Controller) (st : SyncState) (u : Update) (name : string) : SyncState * result unit :=
  let send :=
    let '(carried, r) := exchange (sy_tick st) u in
    (mkSyncState (S (sy_tick st)) (if carried then remote_apply u (sy_remote st) else sy_remote st) (sy_last st),
     match r with
     | Err e => Err (ErrWrap ("rfc2136 update " +:+ name +:+ ": ") e "")
     | Ok rcode => if rcode =? RcodeSuccess then Ok tt else Err (ErrNew ("rfc2136 update " +:+ name +:+ " returned " +:+ RcodeToString rcode))
     end) in
  if (rc_tsigName c !=? "") || (rc_tsigSecret c !=? "") then
    if (rc_tsigName c ==? "") || (rc_tsigSecret c ==? "") then (st, Err (ErrNew "rfc2136 tsig_name and tsig_secret must be configured together"))
    else match base64_Decode (rc_tsigSecret c) with
         | Err e => (st, Err (ErrWrap "rfc2136 tsig_secret must be base64: " e ""))
         | Ok _ => send
         end
  else send.
Definition replaceA (c : RFC2136Controller) (st : SyncState) (rec : recordSet) : SyncState * result unit := exchangeUpdate c st (replace_update c rec) (rs_Name rec).
Definition deleteA (c : RFC2136Controller) (st : SyncState) (rec : recordSet) : SyncState * result unit := exchangeUpdate c st (delete_update rec) (rs_Name rec).

Fixpoint replace_all (c : RFC2136Controller) (st : SyncState) (l : list (string * recordSet)) : SyncState * result unit :=
  match l with
  | [] => (st, Ok tt)
  | (key, rec) :: l =>
      if equalRecordSet (default no_set (sy_last st !! key)) rec then replace_all c st l else
      match replaceA c st rec with
      | (st, Err e) => (st, Err e)
      | (st, Ok _) => replace_all c (mkSyncState (sy_tick st) (sy_remote st) (<[key := rec]> (sy_last st))) l
      end
  end.
Fixpoint delete_all (c : RFC2136Controller) (st : SyncState) (desired : gmap string recordSet) (l : list (string * recordSet)) : SyncState * result unit :=
  match l with
  | [] => (st, Ok tt)
  | (key, rec) :: l =>
      match desired !! key with
      | Some _ => delete_all c st desired l
      | None => match deleteA c st rec with
                | (st, Err e) => (st, Err e)
                | (st, Ok _) => delete_all c (mkSyncState (sy_tick st) (sy_remote st) (delete key (sy_last st))) desired l
                end
      end
  end.
(** The state starts with the controller's [last]. *)
Definition sync_records (c : RFC2136Controller) (st : SyncState) (desired : gmap string recordSet) : SyncState * result unit :=
  match replace_all c st (order desired) with
  | (st, Err e) => (st, Err e)
  | (st, Ok _) => delete_all c st desired (order (sy_last st))
  end.
Definition RFC2136_Sync (c : RFC2136Controller) (k : nat) (remote : Remote) (subnets : result (list Subnet)) (machines : result (list Machine)) (vms : result (list VirtualMachine))
    : RFC2136Controller * Remote * result unit :=
  if negb (Enabled c) then (c, remote, Ok tt) else
  if (rc_transport c !=? "udp") && (rc_transport c !=? "tcp") then (c, remote, Err (ErrNew ("rfc2136 transport must be udp or tcp, got " +:+ Quote (rc_transport c)))) else
  match collectRecords c subnets machines vms with
  | Err e => (c, remote, Err e)
  | Ok desired => let '(st, r) := sync_records c (mkSyncState k remote (rc_last c)) desired in (c <| rc_last := sy_last st |>, sy_remote st, r)
  end.
End rfc2136.

(** ** powerdns.go, powerdns_controller.go *)

Record PowerDNSClient := mkPowerDNSClient { pd_baseURL : string; pd_apiToken : string; pd_serverID : string }.
Definition NewPowerDNSClient (baseURL apiToken serverID : string) : PowerDNSClient := mkPowerDNSClient (TrimRight_slash baseURL) apiToken serverID.
Definition PowerDNS_Enabled (p : PowerDNSClient) : bool := (pd_baseURL p !=? "") && (pd_apiToken p !=? "") && (pd_serverID p !=? "").
Definition ensureFQDN (name : string) : string := if HasSuffix name "." then name else name +:+ ".".

(** The request: its address, and the one set of records it replaces. *)
Record PatchZone := mkPatchZone { pz_URL : string; pz_APIKey : string; pz_Name : string; pz_TTL : Z; pz_Content : string }.
Definition machine_patch (p : PowerDNSClient) (m : Machine) : option PatchZone :=
  if negb (PowerDNS_Enabled p) then None else
  if (TrimSpace (m_IP m) ==? "") || (TrimSpace (nc_Domain (m_Network m)) ==? "") then None else
  Some (mkPatchZone (pd_baseURL p +:+ "/api/v1/servers/" +:+ pd_serverID p +:+ "/zones/" +:+ ensureFQDN (nc_Domain (m_Network m))) (pd_apiToken p)
          (ensureFQDN (m_Hostname m +:+ "." +:+ nc_Domain (m_Network m))) 300 (m_IP m)).
(** [post]: the status of the answer, or that none came. *)
Definition UpsertMachineRecord (post : PatchZone → result Z) (p : PowerDNSClient) (m : Machine) : list PatchZone * result unit :=
  match machine_patch p m with
  | None => ([], Ok tt)
  | Some q => ([q], match post q with
                    | Err e => Err e
                    | Ok status => if (status <? 200) || (300 <=? status) then Err (ErrNew ("powerdns returned " +:+ Itoa status)) else Ok tt
                    end)
  end.
Fixpoint upsert_all (post : PatchZone → result Z) (p : PowerDNSClient) (l : list Machine) : list PatchZone * result unit :=
  match l with
  | [] => ([], Ok tt)
  | m :: l =>
      match UpsertMachineRecord post p m with
      | (qs, Err e) => (qs, Err (ErrWrap ("powerdns upsert machine " +:+ m_Name m +:+ ": ") e ""))
      | (qs, Ok _) => let '(qs', r) := upsert_all post p l in (qs ++ qs', r)
      end
  end.
Definition PowerDNS_Sync (post : PatchZone → result Z) (client : option PowerDNSClient) (machines : result (list Machine)) : list PatchZone * result unit :=
  match client with
  | None => ([], Ok tt)
  | Some p => if negb (PowerDNS_Enabled p) then ([], Ok tt) else
              match machines with Err e => ([], Err (ErrWrap "powerdns list machines: " e "")) | Ok l => upsert_all post p l end
  end.
