(* ===== verification/DnsSync.v ===== *)
(** * infra/dns: a name server kept up to date converges

    When every message is either carried out and answered with success or neither, what
    the controller remembers is on the name server, after failures too; and a
    synchronisation that succeeds has made it the inventory. *)
From S2P Require Import Prelude GoStrings GoNet GoPath Resource Power Store Subnet Machine Vm Dns DnsSafe Rfc2136.

Section converge.
Context (Canonical : string → string) (IsName : string → bool).
Context (base64_Decode : string → result bytes) (exchange : nat → Update → bool * result Z) (RcodeToString : Z → string).
Context (order : gmap string recordSet → list (string * recordSet)).

Definition faithful : Prop := ∀ k u, (exchange k u).1 = true ↔ (exchange k u).2 = Ok RcodeSuccess.
Context (Hex : faithful) (Horder : ∀ m, order m ≡ₚ map_to_list m).
Local Abbreviation update_ := (exchangeUpdate base64_Decode exchange RcodeToString).
Local Abbreviation replace_all_ := (replace_all base64_Decode exchange RcodeToString).
Local Abbreviation delete_all_ := (delete_all base64_Decode exchange RcodeToString).

(** ** What a message does *)

Lemma remote_adds (zone name : string) (ttl : Z) (ips acc : list Z) (r : Remote) :
  fold_left (remote_rr zone) ((fun ip => mkRR name ClassINET ttl (DA (Some ip))) <$> ips) (<[(zone, name) := acc]> r) = <[(zone, name) := acc ++ ips]> r.
Proof.
  revert acc. induction ips as [|ip ips IH]; intros acc; [by rewrite app_nil_r|]. rewrite fmap_cons. cbn [fold_left]. unfold remote_rr at 2. cbn [rr_Data rr_Class rr_Name].
  change (ClassINET =? ClassINET) with true. cbn iota. rewrite lookup_insert_eq. cbn [default from_option id]. rewrite insert_insert_eq, IH, <- app_assoc. done.
Qed.
Lemma remote_replace (c : RFC2136Controller) (rec : recordSet) (r : Remote) : rs_IPs rec ≠ [] → remote_apply (replace_update c rec) r = <[(rs_Zone rec, rs_Name rec) := rs_IPs rec]> r.
Proof.
  intros Hne. unfold remote_apply, replace_update. cbn [up_Zone up_Ns fold_left]. unfold remote_rr at 2. cbn [rr_Data rr_Class rr_Name deleteARRSet].
  change (ClassANY =? ClassANY) with true. cbn iota. destruct (rs_IPs rec) as [|ip ips]; [done|]. rewrite fmap_cons. cbn [fold_left]. unfold remote_rr at 2. cbn [rr_Data rr_Class rr_Name].
  change (ClassINET =? ClassINET) with true. cbn iota. rewrite lookup_delete_eq. cbn [default from_option id app]. by rewrite remote_adds, insert_delete_eq.
Qed.
Lemma remote_delete (rec : recordSet) (r : Remote) : remote_apply (delete_update rec) r = delete (rs_Zone rec, rs_Name rec) r.
Proof. done. Qed.

Lemma update_spec c st u name st' r : update_ c st u name = (st', r) →
  sy_last st' = sy_last st ∧ sy_remote st' = (match r with Ok _ => remote_apply u (sy_remote st) | Err _ => sy_remote st end).
Proof.
  unfold exchangeUpdate. specialize (Hex (sy_tick st) u). destruct (exchange (sy_tick st) u) as [carried x]. cbn [fst snd] in Hex. cbv zeta.
  assert (Hsend : (mkSyncState (S (sy_tick st)) (if carried then remote_apply u (sy_remote st) else sy_remote st) (sy_last st),
     match x with Err e => Err (ErrWrap ("rfc2136 update " +:+ name +:+ ": ") e "") | Ok rcode => if rcode =? RcodeSuccess then Ok tt else Err (ErrNew ("rfc2136 update " +:+ name +:+ " returned " +:+ RcodeToString rcode)) end) = (st', r) →
     sy_last st' = sy_last st ∧ sy_remote st' = (match r with Ok _ => remote_apply u (sy_remote st) | Err _ => sy_remote st end)).
  { destruct x as [rcode|e]; [destruct (Z.eqb_spec rcode RcodeSuccess) as [->|Hne]|]; intros [= <- <-]; (split; [done|]); cbn [sy_remote].
    - by rewrite (proj2 Hex eq_refl).
    - destruct carried; [|done]. specialize (proj1 Hex eq_refl). congruence.
    - destruct carried; [|done]. specialize (proj1 Hex eq_refl). congruence. }
  destruct (_ || _); [|exact Hsend]. destruct (_ || _); [by intros [= <- <-]|]. destruct (base64_Decode _); [exact Hsend|by intros [= <- <-]].
Qed.

(** ** What is remembered *)

Definition sets_ok (m : gmap string recordSet) : Prop := ∀ key rec, m !! key = Some rec → rs_Name rec = key ∧ rs_IPs rec ≠ [].
Definition agrees (last : gmap string recordSet) (remote : Remote) : Prop :=
  sets_ok last ∧ ∀ key rec, last !! key = Some rec → remote !! (rs_Zone rec, key) = Some (rs_IPs rec).

Lemma equal_is_known (last : gmap string recordSet) (key : string) (rec : recordSet) : rs_IPs rec ≠ [] → equalRecordSet (default no_set (last !! key)) rec = true → last !! key = Some rec.
Proof.
  intros Hne. unfold equalRecordSet. rewrite !andb_true_iff, !bool_decide_eq_true. destruct (last !! key) as [old|]; cbn; [|intros [_ E]; by rewrite <- E in Hne].
  intros [[E1 E2] E3]. destruct old, rec. cbn in *. by subst.
Qed.

Lemma agrees_insert (last : gmap string recordSet) (remote : Remote) (key : string) (rec : recordSet) : agrees last remote → rs_Name rec = key → rs_IPs rec ≠ [] → agrees (<[key := rec]> last) (<[(rs_Zone rec, key) := rs_IPs rec]> remote).
Proof.
  intros [Hok Ha] Hn Hne. split.
  - intros k r [[<- <-]|[_ Hr]]%lookup_insert_Some; [done|by apply Hok].
  - intros k r [[<- <-]|[Hk Hr]]%lookup_insert_Some; [by rewrite lookup_insert_eq|]. rewrite lookup_insert_ne by congruence. by apply Ha.
Qed.
Lemma agrees_delete (last : gmap string recordSet) (remote : Remote) (key zone : string) : agrees last remote → agrees (delete key last) (delete (zone, key) remote).
Proof.
  intros [Hok Ha]. split.
  - intros k r [_ Hr]%lookup_delete_Some. by apply Hok.
  - intros k r [Hk Hr]%lookup_delete_Some. rewrite lookup_delete_ne by congruence. by apply Ha.
Qed.

Lemma replace_all_spec c l : ∀ st st' r, replace_all_ c st l = (st', r) → NoDup l.*1 → (∀ key rec, (key, rec) ∈ l → rs_Name rec = key ∧ rs_IPs rec ≠ []) →
  agrees (sy_last st) (sy_remote st) →
  agrees (sy_last st') (sy_remote st')
  ∧ (∀ key, key ∉ l.*1 → sy_last st' !! key = sy_last st !! key)
  ∧ (r = Ok tt → ∀ key rec, (key, rec) ∈ l → sy_last st' !! key = Some rec).
Proof.
  induction l as [|[key rec] l IH]; intros st st' r; cbn [replace_all]; [intros [= <- <-] _ _ Ha; split_and!; [done|done|set_solver]|].
  rewrite fmap_cons. cbn [fst]. intros E [Hnk Hnd]%NoDup_cons Hl Ha. destruct (Hl key rec) as [Hn Hne]; [left|]. assert (Hl' : ∀ k x, (k, x) ∈ l → rs_Name x = k ∧ rs_IPs x ≠ []) by set_solver.
  destruct (equalRecordSet (default no_set (sy_last st !! key)) rec) eqn:Eq.
  - apply equal_is_known in Eq; [|done]. destruct (IH _ _ _ E Hnd Hl' Ha) as (I1 & I2 & I3). split_and!; [done|set_solver|].
    intros Hr k x [[= -> ->]|Hin]%elem_of_cons; [by rewrite I2|by apply I3].
  - unfold replaceA in E. destruct (update_ c st (replace_update c rec) (rs_Name rec)) as [st1 [u|e]] eqn:Ex; apply update_spec in Ex as [El Er].
    + rewrite remote_replace, Hn in Er by done. destruct (IH _ _ _ E Hnd Hl') as (I1 & I2 & I3); [cbn [sy_last sy_remote]; rewrite El, Er; by apply agrees_insert|].
      cbn [sy_last] in I2. split_and!; [done| |].
      * intros k Hk. rewrite I2 by set_solver. rewrite lookup_insert_ne by set_solver. by rewrite El.
      * intros Hr k x [[= -> ->]|Hin]%elem_of_cons; [by rewrite I2, lookup_insert_eq|by apply I3].
    + injection E as <- <-. rewrite El, Er. split_and!; [done|done|done].
Qed.

Lemma delete_all_spec c desired l : ∀ st st' r, delete_all_ c st desired l = (st', r) → (∀ key rec, (key, rec) ∈ l → rs_Name rec = key) → agrees (sy_last st) (sy_remote st) →
  agrees (sy_last st') (sy_remote st')
  ∧ (∀ key, is_Some (desired !! key) → sy_last st' !! key = sy_last st !! key)
  ∧ (∀ zk, sy_remote st !! zk = None → sy_remote st' !! zk = None)
  ∧ (∀ key, sy_last st !! key = None → sy_last st' !! key = None)
  ∧ (r = Ok tt → ∀ key rec, (key, rec) ∈ l → desired !! key = None → sy_last st' !! key = None ∧ sy_remote st' !! (rs_Zone rec, key) = None).
Proof.
  induction l as [|[key rec] l IH]; intros st st' r; cbn [delete_all]; [intros [= <- <-] _ Ha; split_and!; try done; set_solver|].
  intros E Hl Ha. assert (Hl' : ∀ k x, (k, x) ∈ l → rs_Name x = k) by set_solver. destruct (desired !! key) as [d|] eqn:Ed.
  - destruct (IH _ _ _ E Hl' Ha) as (I1 & I2 & I3 & I4 & I5). split_and!; try done. intros Hr k x [[= -> ->]|Hin]%elem_of_cons Hk; [congruence|by apply I5].
  - unfold deleteA in E. pose proof (Hl key rec ltac:(left)) as Hn. destruct (update_ c st (delete_update rec) (rs_Name rec)) as [st1 [u|e]] eqn:Ex; apply update_spec in Ex as [El Er].
    + rewrite remote_delete, Hn in Er. destruct (IH _ _ _ E Hl') as (I1 & I2 & I3 & I4 & I5); [cbn [sy_last sy_remote]; rewrite El, Er; by apply agrees_delete|].
      cbn [sy_last sy_remote] in *. rewrite El in *. rewrite Er in I3. split_and!; [done|..].
      * intros k Hk. rewrite I2 by done. rewrite lookup_delete_ne; [done|]. intros ->. rewrite Ed in Hk. by destruct Hk.
      * intros zk Hz. apply I3. apply lookup_delete_None. by right.
      * intros k Hk. apply I4. apply lookup_delete_None. by right.
      * intros Hr k x [[= -> ->]|Hin]%elem_of_cons Hk; [split; [apply I4; by rewrite lookup_delete_eq|apply I3; by rewrite lookup_delete_eq]|by apply I5].
    + injection E as <- <-. rewrite El, Er. split_and!; try done.
Qed.

Lemma order_keys m : NoDup (order m).*1.
Proof. rewrite Horder. apply NoDup_fst_map_to_list. Qed.

Lemma sync_records_spec c st desired st' r : sync_records base64_Decode exchange RcodeToString order c st desired = (st', r) → agrees (sy_last st) (sy_remote st) → sets_ok desired →
  agrees (sy_last st') (sy_remote st')
  ∧ (r = Ok tt → sy_last st' = desired ∧ ∀ key rec, sy_last st !! key = Some rec → desired !! key = None → sy_remote st' !! (rs_Zone rec, key) = None).
Proof.
  unfold sync_records. intros E Ha Hd. destruct (replace_all_ c st (order desired)) as [st1 [[]|e]] eqn:E1.
  - apply replace_all_spec in E1 as (A1 & A2 & A3); [|apply order_keys|intros key rec; rewrite Horder, elem_of_map_to_list; apply Hd|done]. specialize (A3 eq_refl).
    apply delete_all_spec in E as (B1 & B2 & B3 & B4 & B5); [|intros key rec; rewrite Horder, elem_of_map_to_list; apply A1|done]. split; [done|]. intros ->. specialize (B5 eq_refl).
    assert (Hin : ∀ key rec, desired !! key = Some rec → sy_last st1 !! key = Some rec) by (intros key rec Hk; apply A3; by rewrite Horder, elem_of_map_to_list).
    split.
    + apply map_eq. intros key. destruct (desired !! key) as [rec|] eqn:Ek; [rewrite B2 by (by eexists); by apply Hin|].
      destruct (sy_last st1 !! key) as [rec|] eqn:El; [|by apply B4]. apply (B5 key rec); [by rewrite Horder, elem_of_map_to_list|done].
    + intros key rec Hk Hn. assert (Hnl : key ∉ (order desired).*1).
      { rewrite Horder, list_elem_of_fmap. intros ([k x] & -> & Hkx). cbn in Hn. apply elem_of_map_to_list in Hkx. congruence. }
      apply (B5 key rec); [|done]. rewrite Horder, elem_of_map_to_list. by rewrite A2.
  - injection E as <- <-. apply replace_all_spec in E1 as (A1 & _ & _); [done|apply order_keys|intros key rec; rewrite Horder, elem_of_map_to_list; apply Hd|done].
Qed.

(** ** What is there beside it *)

(** The name server has what is remembered and nothing else. *)
Definition exact (last : gmap string recordSet) (remote : Remote) : Prop :=
  ∀ zone key ips, remote !! (zone, key) = Some ips ↔ ∃ rec, last !! key = Some rec ∧ rs_Zone rec = zone ∧ rs_IPs rec = ips.
(** The names wanted are remembered, if at all, in the zone they are wanted in. *)
Definition same_zones (last : gmap string recordSet) (l : list (string * recordSet)) : Prop :=
  ∀ key rec old, (key, rec) ∈ l → last !! key = Some old → rs_Zone old = rs_Zone rec.

Lemma exact_insert (last : gmap string recordSet) (remote : Remote) (key : string) (rec : recordSet) :
  exact last remote → (∀ old, last !! key = Some old → rs_Zone old = rs_Zone rec) → exact (<[key := rec]> last) (<[(rs_Zone rec, key) := rs_IPs rec]> remote).
Proof.
  intros He Hz zone k ips. destruct (decide (k = key)) as [->|Hk].
  - rewrite lookup_insert_eq. destruct (decide (zone = rs_Zone rec)) as [->|Hzone]; [rewrite lookup_insert_eq; naive_solver|].
    rewrite lookup_insert_ne by congruence. rewrite (He zone key ips). split; [|naive_solver]. intros (old & Ho & <- & _). by destruct Hzone; apply Hz.
  - rewrite !lookup_insert_ne by congruence. apply He.
Qed.
Lemma exact_delete (last : gmap string recordSet) (remote : Remote) (key : string) (rec : recordSet) :
  exact last remote → last !! key = Some rec → exact (delete key last) (delete (rs_Zone rec, key) remote).
Proof.
  intros He Hr zone k ips. destruct (decide (k = key)) as [->|Hk].
  - rewrite lookup_delete_eq. split; [|by intros (? & ? & _)]. intros [Hne Hl]%lookup_delete_Some. apply He in Hl as (old & Ho & <- & _). congruence.
  - rewrite !lookup_delete_ne by congruence. apply He.
Qed.

Lemma replace_all_exact c l : ∀ st st' r, replace_all_ c st l = (st', r) → NoDup l.*1 → (∀ key rec, (key, rec) ∈ l → rs_Name rec = key ∧ rs_IPs rec ≠ []) →
  same_zones (sy_last st) l → exact (sy_last st) (sy_remote st) → exact (sy_last st') (sy_remote st').
Proof.
  induction l as [|[key rec] l IH]; intros st st' r; cbn [replace_all]; [by intros [= <- <-]|].
  rewrite fmap_cons. cbn [fst]. intros E [Hnk Hnd]%NoDup_cons Hl Hz He. destruct (Hl key rec) as [Hn Hne]; [left|]. assert (Hl' : ∀ k x, (k, x) ∈ l → rs_Name x = k ∧ rs_IPs x ≠ []) by set_solver.
  destruct (equalRecordSet (default no_set (sy_last st !! key)) rec) eqn:Eq; [eapply IH; try eassumption; intros k x old Hx; apply Hz; by right|].
  unfold replaceA in E. destruct (update_ c st (replace_update c rec) (rs_Name rec)) as [st1 [u|e]] eqn:Ex; apply update_spec in Ex as [El Er]; [|injection E as <- <-; by rewrite El, Er].
  rewrite remote_replace, Hn in Er by done. eapply IH; [exact E|done|done| |]; cbn [sy_last sy_remote]; rewrite El, ?Er.
  - intros k x old Hx. destruct (decide (k = key)) as [->|Hk]; [destruct Hnk; apply list_elem_of_fmap; by exists (key, x)|]. rewrite lookup_insert_ne by done. apply Hz. by right.
  - apply exact_insert; [done|]. intros old. apply Hz. left.
Qed.
Lemma delete_all_exact c desired l : ∀ st st' r, delete_all_ c st desired l = (st', r) → NoDup l.*1 → (∀ key rec, (key, rec) ∈ l → rs_Name rec = key ∧ sy_last st !! key = Some rec) →
  exact (sy_last st) (sy_remote st) → exact (sy_last st') (sy_remote st').
Proof.
  induction l as [|[key rec] l IH]; intros st st' r; cbn [delete_all]; [by intros [= <- <-]|].
  rewrite fmap_cons. cbn [fst]. intros E [Hnk Hnd]%NoDup_cons Hl He. destruct (Hl key rec) as [Hn Hk]; [left|].
  destruct (desired !! key) as [d|] eqn:Ed; [eapply IH; [exact E|done| |done]; intros k x Hx; apply Hl; by right|].
  unfold deleteA in E. destruct (update_ c st (delete_update rec) (rs_Name rec)) as [st1 [u|e]] eqn:Ex; apply update_spec in Ex as [El Er]; [|injection E as <- <-; by rewrite El, Er].
  rewrite remote_delete, Hn in Er. eapply IH; [exact E|done| |]; cbn [sy_last sy_remote]; rewrite El, ?Er; [|by apply exact_delete].
  intros k x Hx. split; [by eapply Hl; right|]. rewrite lookup_delete_ne; [by eapply Hl; right|]. intros ->. destruct Hnk. apply list_elem_of_fmap. by exists (k, x).
Qed.
Lemma sync_records_exact c st desired st' r : sync_records base64_Decode exchange RcodeToString order c st desired = (st', r) → agrees (sy_last st) (sy_remote st) → sets_ok desired →
  same_zones (sy_last st) (map_to_list desired) → exact (sy_last st) (sy_remote st) → exact (sy_last st') (sy_remote st').
Proof.
  unfold sync_records. intros E Ha Hd Hz He. destruct (replace_all_ c st (order desired)) as [st1 [[]|e]] eqn:E1.
  - pose proof E1 as E2. apply replace_all_spec in E2 as ([A1 _] & _); [|apply order_keys|intros key rec; rewrite Horder, elem_of_map_to_list; apply Hd|done].
    eapply delete_all_exact; [exact E|apply order_keys|intros key rec; rewrite Horder, elem_of_map_to_list; intros Hk; split; [by eapply A1|done]|].
    eapply replace_all_exact; [exact E1|apply order_keys|intros key rec; rewrite Horder, elem_of_map_to_list; apply Hd| |done].
    intros key rec old. rewrite Horder. apply Hz.
  - injection E as <- <-. eapply replace_all_exact; [exact E1|apply order_keys|intros key rec; rewrite Horder, elem_of_map_to_list; apply Hd| |done].
    intros key rec old. rewrite Horder. apply Hz.
Qed.

(** ** What is wanted *)

Lemma addRecordSet_ok c domain name records ip : name ≠ "" → sets_ok records → sets_ok (addRecordSet c domain name records ip).
Proof.
  intros Hne Hr. unfold addRecordSet. destruct (ParseAddr4 _) as [a|]; [|done]. destruct (_ && _); [done|]. cbv zeta. case_bool_decide; [done|].
  intros key rec [[<- <-]|[_ Hk]]%lookup_insert_Some; [|by apply Hr]. cbn. split; [|by intros [_ ?]%app_eq_nil]. destruct (records !! name) as [old|] eqn:E; cbn.
  - destruct (Hr _ _ E) as [Hn _]. rewrite bool_decide_eq_false_2 by congruence. done.
  - done.
Qed.
Definition ips_of (records : gmap string recordSet) (n : string) : list Z := rs_IPs (default no_set (records !! n)).
Definition managed (c : RFC2136Controller) (n : string) : bool := (rc_zone c ==? "") || nameInZone n (rc_zone c).
Lemma not_managed c n : (rc_zone c !=? "") && negb (nameInZone n (rc_zone c)) = negb (managed c n).
Proof. unfold managed. by destruct (bool_decide _), (nameInZone _ _). Qed.
Lemma addRecordSet_ips c domain name records ip n a : name ≠ "" → sets_ok records → a ∈ ips_of (addRecordSet c domain name records ip) n
  ↔ a ∈ ips_of records n ∨ (n = name ∧ managed c n = true ∧ ParseAddr4 (TrimSpace ip) = Some a).
Proof.
  intros Hne Hok. unfold addRecordSet. destruct (ParseAddr4 (TrimSpace ip)) as [b|]; [|naive_solver]. rewrite not_managed.
  destruct (managed c name) eqn:Em; cbn [negb]; [|split; [by left|intros [?|(-> & ? & ?)]; [done|congruence]]].
  cbv zeta. case_bool_decide as Hb; [unfold ips_of; split; [by left|intros [?|(-> & ? & [= <-])]; done]|].
  unfold ips_of. destruct (decide (n = name)) as [->|Hn]; [|rewrite lookup_insert_ne by done; naive_solver].
  rewrite lookup_insert_eq. cbn [default from_option id rs_IPs]. destruct (records !! name) as [old|] eqn:E; cbn.
  - destruct (Hok _ _ E) as [Hn _]. rewrite (bool_decide_eq_false_2 (rs_Name old = "")) by congruence. rewrite elem_of_app, list_elem_of_singleton. naive_solver.
  - assert (Hb' : ∀ l : list Z, l = [] → a ∈ l ++ [b] ↔ a = b) by (intros l ->; apply list_elem_of_singleton). rewrite Hb' by (by case_match).
    split; [intros ->; by right|intros [?%not_elem_of_nil|(_ & _ & [= ->])]; done].
Qed.

Lemma addRecordSets_spec c domain name ips records : name ≠ "" → sets_ok records → sets_ok (fold_left (addRecordSet c domain name) ips records)
  ∧ ∀ n a, a ∈ ips_of (fold_left (addRecordSet c domain name) ips records) n
      ↔ a ∈ ips_of records n ∨ (n = name ∧ managed c n = true ∧ ∃ ip, ip ∈ ips ∧ ParseAddr4 (TrimSpace ip) = Some a).
Proof.
  intros Hne. revert records. induction ips as [|ip ips IH]; intros records Hok; cbn [fold_left]; [split; [done|set_solver]|].
  destruct (IH _ (addRecordSet_ok c domain name records ip Hne Hok)) as [I1 I2]. split; [done|]. intros n a. rewrite I2, addRecordSet_ips by done. set_solver.
Qed.

Definition named (e : option (string * option string * list string)) : Prop := match e with Some (_, Some n, _) => n ≠ "" | _ => True end.
Lemma hosts_spec c es records : Forall named es → sets_ok records → sets_ok (fold_left (add_host c) es records)
  ∧ ∀ n a, a ∈ ips_of (fold_left (add_host c) es records) n ↔ a ∈ ips_of records n ∨ (managed c n = true ∧ ∃ e, e ∈ es ∧ entry_address e n a).
Proof.
  revert records. induction es as [|e es IH]; intros records Hn Hok; cbn [fold_left]; [split; [done|set_solver]|]. apply Forall_cons in Hn as [Hne Hn].
  assert (He : sets_ok (add_host c records e) ∧ ∀ n a, a ∈ ips_of (add_host c records e) n ↔ a ∈ ips_of records n ∨ (managed c n = true ∧ entry_address e n a)).
  { unfold add_host, entry_address. destruct e as [[[d [name|]] ips]|]; [|split; [done|naive_solver]..].
    destruct (addRecordSets_spec c d name ips records Hne Hok) as [I1 I2]. split; [done|]. intros n a. rewrite I2. naive_solver. }
  destruct He as [He1 He2]. destruct (IH _ Hn He1) as [I1 I2]. split; [done|]. intros n a. rewrite I2, He2. set_solver.
Qed.

Context (Hempty : IsName "" = false).
Lemma entry_named doms domain subnetRef hostname name ips : named (host_entry Canonical IsName doms domain subnetRef hostname name ips).
Proof.
  unfold host_entry. destruct (domain_of _ _ doms domain subnetRef) as [d|]; [|done]. cbn. destruct (hostFQDN _ _ hostname name d) as [n|] eqn:E; [|done]. intros ->. revert E.
  unfold hostFQDN, canonicalFQDN. cbv zeta. repeat case_match; try done; intros [= E]; rewrite E in *; by rewrite Hempty, ?orb_true_r in *.
Qed.

(** What is wanted for an inventory. *)
Definition wanted (c : RFC2136Controller) (subnets : list Subnet) (machines : list Machine) (vms : list VirtualMachine) : gmap string recordSet :=
  fold_left (add_host c) (inventory Canonical IsName subnets machines vms) ∅.

(** C21: a synchronisation that succeeds has made the name server's addresses those of
    the inventory.  Let every message be either carried out and answered with success,
    or neither.  If what the controller remembers is on the name server before a
    synchronisation, it is afterwards, also when the synchronisation failed half way.
    When it succeeded, for each name with an IPv4 address, and in the configured zone if
    there is one, the controller remembers exactly the addresses of the machines and
    virtual machines of that name and the name server has exactly these in the zone
    remembered for it; and for the names that are gone it has none where they were.  If
    moreover the name server had nothing but what was remembered, and no name is wanted
    in another zone than the one it is remembered in, then it has nothing else
    afterwards. *)
Theorem name_server_converges (c c' : RFC2136Controller) (k : nat) (remote remote' : Remote) (subnets : list Subnet) (machines : list Machine) (vms : list VirtualMachine)
    (r : result unit) (Hen : Enabled c = true) (Htr : rc_transport c ∈ ["udp"; "tcp"]) (Hmem : agrees (rc_last c) remote)
    (Hrun : RFC2136_Sync Canonical IsName base64_Decode exchange RcodeToString order c k remote (Ok subnets) (Ok machines) (Ok vms) = (c', remote', r)) :
  agrees (rc_last c') remote'
  ∧ (r = Ok tt → ∀ n,
      (∀ a, a ∈ ips_of (rc_last c') n ↔ managed c n = true ∧ has_address Canonical IsName subnets machines vms n a)
      ∧ (∀ rec, rc_last c' !! n = Some rec → remote' !! (rs_Zone rec, n) = Some (rs_IPs rec))
      ∧ (∀ rec, rc_last c !! n = Some rec → rc_last c' !! n = None → remote' !! (rs_Zone rec, n) = None))
  ∧ (exact (rc_last c) remote → same_zones (rc_last c) (map_to_list (wanted c subnets machines vms)) →
       exact (rc_last c') remote').
Proof.
  unfold RFC2136_Sync in Hrun. rewrite Hen in Hrun. cbn [negb] in Hrun.
  assert (Et : (rc_transport c !=? "udp") && (rc_transport c !=? "tcp") = false).
  { apply not_true_is_false. rewrite andb_true_iff, !negb_true_iff, !bool_decide_eq_false. set_solver. }
  rewrite Et in Hrun. unfold collectRecords in Hrun. cbv zeta in Hrun.
  change ((_ <$> machines) ++ (_ <$> vms)) with (inventory Canonical IsName subnets machines vms) in Hrun.
  destruct (hosts_spec c (inventory Canonical IsName subnets machines vms) ∅) as [Hok Hips].
  { unfold inventory. cbv zeta. apply Forall_app. split; apply Forall_fmap, Forall_forall; intros ? _; apply entry_named. }
  { intros key rec. by rewrite lookup_empty. }
  set (desired := fold_left (add_host c) (inventory Canonical IsName subnets machines vms) ∅) in *. change (wanted c subnets machines vms) with desired.
  destruct (sync_records base64_Decode exchange RcodeToString order c (mkSyncState k remote (rc_last c)) desired) as [st res] eqn:Es.
  destruct (sync_records_spec _ _ _ _ _ Es Hmem Hok) as [A1 A2]. injection Hrun as <- <- <-.
  change (rc_last (c <| rc_last := sy_last st |>)) with (sy_last st). split; [exact A1|]. split; [|intros He Hz; exact (sync_records_exact _ _ _ _ _ Es Hmem Hok Hz He)].
  intros Hr. destruct (A2 Hr) as [E1 E2]. intros n. split_and!.
  - intros a. rewrite E1, Hips. unfold ips_of at 1. rewrite lookup_empty. cbn. unfold has_address. set_solver.
  - intros rec Hrec. by apply A1.
  - intros rec Hrec Hn. apply (E2 n rec Hrec). by rewrite <- E1.
Qed.
End converge.

(** ** Runs *)

Definition no_base64 (s : string) : result bytes := Ok [].
Definition always_done (k : nat) (u : Update) : bool * result Z := (true, Ok RcodeSuccess).
Definition by_key (m : gmap string recordSet) : list (string * recordSet) := map_to_list m.
Definition demo_controller : RFC2136Controller := NewRFC2136Controller demo_canonical demo_IsName "10.0.0.53" "" 0 "" "" "" true.
Definition demo_name_sync (exchange : nat → Update → bool * result Z) (c : RFC2136Controller) (k : nat) (remote : Remote) (subs : list Subnet) (ms : list Machine) :=
  RFC2136_Sync demo_canonical demo_IsName no_base64 exchange Itoa by_key c k remote (Ok subs) (Ok ms) (Ok []).
Definition first_sync := demo_name_sync always_done demo_controller 0 ∅ [demo_zone "lab" "lab.test"] [demo_host].

Lemma always_faithful : faithful always_done.
Proof. intros k u. done. Qed.
Lemma by_key_perm m : by_key m ≡ₚ map_to_list m.
Proof. done. Qed.
Lemma nothing_agrees : agrees (rc_last demo_controller) ∅.
Proof. split; intros key rec; change (rc_last demo_controller) with (∅ : gmap string recordSet); by rewrite lookup_empty. Qed.
Lemma first_sync_remote : first_sync.2 = Ok tt ∧ first_sync.1.2 !! ("lab.test.", "node1.lab.test.") = Some [167772167].
Proof. vm_compute. done. Qed.

Lemma nothing_exact : exact (rc_last demo_controller) ∅.
Proof. intros zone key ips. change (rc_last demo_controller) with (∅ : gmap string recordSet). rewrite !lookup_empty. naive_solver. Qed.
Lemma nothing_elsewhere l : same_zones (rc_last demo_controller) l.
Proof. intros key rec old _. change (rc_last demo_controller) with (∅ : gmap string recordSet). by rewrite lookup_empty. Qed.
Lemma name_server_converges_witness : first_sync.2 = Ok tt ∧ agrees (rc_last first_sync.1.1) first_sync.1.2 ∧ exact (rc_last first_sync.1.1) first_sync.1.2.
Proof.
  split; [exact (proj1 first_sync_remote)|].
  destruct (name_server_converges demo_canonical demo_IsName no_base64 always_done Itoa by_key always_faithful by_key_perm eq_refl demo_controller first_sync.1.1 0 ∅ first_sync.1.2
    [demo_zone "lab" "lab.test"] [demo_host] [] first_sync.2) as (H1 & _ & H2).
  - reflexivity.
  - left.
  - exact nothing_agrees.
  - unfold first_sync, demo_name_sync. destruct (RFC2136_Sync _ _ _ _ _ _ _ _ _ _ _ _) as [[? ?] ?]. reflexivity.
  - split; [exact H1|]. apply H2; [exact nothing_exact|apply nothing_elsewhere].
Defined.

(** *** An answer that is lost *)

(** The second message is carried out, but its answer does not arrive.  When the machine
    has its old address again, the controller believes it need not say so: the name
    server keeps the other one. *)
Definition loses_second (k : nat) (u : Update) : bool * result Z := if (k =? 1)%nat then (true, Err ErrDeadlineExceeded) else (true, Ok RcodeSuccess).
Definition moved_host : Machine := demo_host <| m_IP := "10.0.0.8" |>.
Lemma lost_answer_leaves_stale :
  let subs := [demo_zone "lab" "lab.test"] in
  let '(c1, r1, e1) := demo_name_sync loses_second demo_controller 0 ∅ subs [demo_host] in
  let '(c2, r2, e2) := demo_name_sync loses_second c1 1 r1 subs [moved_host] in
  let '(c3, r3, e3) := demo_name_sync loses_second c2 2 r2 subs [demo_host] in
  e1 = Ok tt ∧ e2 ≠ Ok tt ∧ e3 = Ok tt ∧ r3 !! ("lab.test.", "node1.lab.test.") = Some [167772168].
Proof. vm_compute. split_and!; done. Qed.

(** *** A name that changes zones *)

(** The same name, first of the host ["node1.lab"] in ["test."], then of ["node1"] in
    ["lab.test."]: the record in the first zone stays. *)
Definition host_in (hostname domain ip : string) : Machine :=
  demo_host <| m_Hostname := hostname |> <| m_Network := mkNetworkConfig domain |> <| m_IP := ip |>.
Lemma left_in_old_zone :
  let '(c1, r1, e1) := demo_name_sync always_done demo_controller 0 ∅ [] [host_in "node1.lab" "test" "10.0.0.7"] in
  let '(c2, r2, e2) := demo_name_sync always_done c1 1 r1 [] [host_in "node1" "lab.test" "10.0.0.8"] in
  e2 = Ok tt ∧ r2 !! ("test.", "node1.lab.test.") = Some [167772167] ∧ r2 !! ("lab.test.", "node1.lab.test.") = Some [167772168].
Proof. vm_compute. split_and!; done. Qed.
