(* ===== verification/Provider.v ===== *)
(** * providers/cluster-api: the reconciler of machines

    internal/controllers (machine.go, baremetal.go, lifecycle.go, cluster.go, common.go)
    and internal/gomi (client.go, baremetal.go): one reconciliation is a sequence of
    calls of the Kubernetes API server and of the GOMI server.  What each call answers is
    given by its number; the calls are a log.  YAML and the sealing of a bootstrap are
    parameters. *)
From S2P Require Import Prelude GoStrings GoPath GoTime Handler.

(** ** api/v1alpha1/types.go *)

Record Resources := mkResources { re_CPUCores : Z; re_MemoryMB : Z; re_DiskGB : Z }.
Record NetworkInterface := mkNetworkInterface { pn_Name : string; pn_Bridge : string; pn_IPAddress : string }.
Record VirtualMachineSpec := mkVirtualMachineSpec {
  pv_HypervisorRef : string; pv_OSImageRef : string; pv_Resources : Resources; pv_Network : list NetworkInterface; pv_IPAssignment : string; pv_SubnetRef : string; pv_SSHKeyRefs : list string }.
Record ConfigMapKeyReference := mkConfigMapKeyReference { cr_Name : string; cr_Key : string }.
Record BareMetalSpec := mkBareMetalSpec { pb_Pool : string; pb_OSImageRef : string; pb_CloudInitConfigRef : option ConfigMapKeyReference }.
Record OwnerReference := mkOwnerReference { or_Kind : string; or_APIVersion : string; or_Name : string }.
(** The condition [Ready]: its status, reason and message. *)
Record GomiMachine := mkGomiMachine {
  gm_UID : string; gm_Annotations : gset string; gm_Owners : list OwnerReference; gm_Deleting : bool; gm_Finalizers : list string;
  gm_Kind : string; gm_VirtualMachine : option VirtualMachineSpec; gm_BareMetal : option BareMetalSpec; gm_InstanceID : string; gm_ProviderID : option string;
  gm_Provisioned : option bool; gm_Addresses : list string; gm_Ready : option (bool * string * string) }.
Global Instance GomiMachine_fields : Fields GomiMachine :=
  fpure mkGomiMachine <*> gm_UID <*> gm_Annotations <*> gm_Owners <*> gm_Deleting <*> gm_Finalizers <*> gm_Kind <*> gm_VirtualMachine <*> gm_BareMetal <*> gm_InstanceID
    <*> gm_ProviderID <*> gm_Provisioned <*> gm_Addresses <*> gm_Ready.
Record GomiCluster := mkGomiCluster {
  gc_Annotations : gset string; gc_Owners : list OwnerReference; gc_Deleting : bool; gc_Server : string; gc_CredentialsRef : string; gc_Host : string; gc_Port : Z;
  gc_Provisioned : option bool; gc_Ready : option (bool * string * string) }.
Global Instance GomiCluster_fields : Fields GomiCluster :=
  fpure mkGomiCluster <*> gc_Annotations <*> gc_Owners <*> gc_Deleting <*> gc_Server <*> gc_CredentialsRef <*> gc_Host <*> gc_Port <*> gc_Provisioned <*> gc_Ready.
(** The objects of Cluster API it reads. *)
Record ClMachine := mkClMachine { cm_Annotations : gset string; cm_ClusterName : string; cm_DataSecretName : option string }.
Record ClCluster := mkClCluster { cc_Annotations : gset string; cc_Paused : bool; cc_InfraKind : string; cc_InfraGroup : string; cc_InfraName : string }.
Record Secret := mkSecret { sc_Value : string; sc_Format : string; sc_Token : string }.
Record ConfigMap := mkConfigMap { cf_Immutable : bool; cf_Data : gmap string string }.

(** ** internal/gomi *)

Record Template := mkTemplate { tp_DeliveryMode : string; tp_Name : string; tp_UserData : string; tp_Description : string }.
Record VM := mkVM { vm_CloudInitRefs : list string; vm_CloudInitRef : string; vm_Phase : string; vm_IPAddresses : list string; vm_Active : bool; vm_CompletedAt : option Time }.
Record BareMetalHost := mkBareMetalHost { bh_Name : string; bh_Pool : string; bh_Owner : string; bh_State : string; bh_PublicKey : string; bh_IPAddress : string }.

(** An answer of the GOMI server: a status outside 2xx is an [APIError]. *)
Inductive api_error : Type := APIError (status : Z) | APIFailure (msg : string).
Inductive reply (A : Type) : Type := Got (a : A) | Not (e : api_error).
Arguments Got {A} a.
Arguments Not {A} e.
Definition IsStatus (e : api_error) (status : Z) : bool := match e with APIError s => s =? status | APIFailure _ => false end.
Definition error_of (e : api_error) : error := match e with APIError s => ErrNew ("GOMI API returned HTTP " +:+ Itoa s) | APIFailure m => ErrNew m end.

Definition OwnedBy (v : VM) (id : string) : bool :=
  match vm_CloudInitRefs v with
  | [] => TrimPrefix (vm_CloudInitRef v) "cloudInitTemplates/" ==? id
  | [r] => TrimPrefix r "cloudInitTemplates/" ==? id
  | _ => false
  end.

(** [url.Parse]. *)
Record ServerURL := mkServerURL { su_Scheme : string; su_Host : string; su_User : bool; su_RawQuery : string; su_Fragment : string; su_Path : string }.
Definition New (parse : string → option ServerURL) (server token : string) : option error :=
  let origin u := bool_decide (su_Scheme u ∈ ["http"; "https"]) && (su_Host u !=? "") && negb (su_User u) && (su_RawQuery u ==? "") && (su_Fragment u ==? "")
                  && bool_decide (su_Path u ∈ [""; "/"]) in
  if negb match parse server with Some u => origin u | None => false end then Some (ErrNew "server must be an HTTP(S) origin URL")
  else if TrimSpace token ==? "" then Some (ErrNew "credentials Secret token is empty") else None.

(** What the Kubernetes API server answers. *)
Inductive kube (A : Type) : Type := KFound (a : A) | KNotFound | KFailed (e : error).
Arguments KFound {A} a.
Arguments KNotFound {A}.
Arguments KFailed {A} e.

(** ** The log *)

Inductive call : Type :=
| EGetVM (id : string) (r : reply VM) | ECreateVM (id : string) (spec : VirtualMachineSpec) (cloudInitRef powerControlMethod : string) | EDeleteVM (id : string)
| EGetTemplate (id : string) (r : reply Template) | ECreateTemplate (t : Template) | EDeleteTemplate (id : string)
| EGetClaim (id : string) (r : reply BareMetalHost) | EAcquire (id pool : string) | EDeploy (id image cloudInitRef : string) (envelope : bytes) | ERelease (id : string)
| EPatch (before after : GomiMachine) | EStatus (before after : GomiMachine).

Record ProviderEnv := mkProviderEnv {
  p_infra : nat → kube GomiMachine; p_machine : nat → string → kube ClMachine; p_cluster : nat → string → kube ClCluster; p_gomiCluster : nat → string → kube GomiCluster;
  p_secret : nat → string → kube Secret; p_configMap : nat → string → kube ConfigMap; p_patch : nat → option error; p_url : string → option ServerURL;
  p_capability : nat → string → reply bool; p_getVM : nat → string → reply VM; p_getTemplate : nat → string → reply Template; p_getClaim : nat → string → reply BareMetalHost;
  p_write : nat → option api_error }.

(** Requeue, and the error that was returned. *)
Record Result := mkResult { rz_retry : bool; rz_error : option error }.
Definition retry (e : option error) : Result := mkResult true e.
Definition done_ (e : option error) : Result := mkResult false e.

Definition finalizer : string := "gomimachine.infrastructure.cluster.x-k8s.io".
Definition has_finalizer (m : GomiMachine) : bool := bool_decide (finalizer ∈ gm_Finalizers m).
Definition AddFinalizer (m : GomiMachine) : GomiMachine := if has_finalizer m then m else m <| gm_Finalizers := gm_Finalizers m ++ [finalizer] |>.
Definition RemoveFinalizer (m : GomiMachine) : GomiMachine := m <| gm_Finalizers := filter (fun f => f ≠ finalizer) (gm_Finalizers m) |>.

Definition paused (annotations : gset string) : bool := bool_decide ("cluster.x-k8s.io/paused" ∈ annotations).
Definition clusterPaused (c : ClCluster) : bool := paused (cc_Annotations c) || cc_Paused c.
Definition ownerName (owners : list OwnerReference) (kind : string) : string :=
  match List.find (fun r => (or_Kind r ==? kind) && ((or_APIVersion r ==? "cluster.x-k8s.io/v1beta1") || (or_APIVersion r ==? "cluster.x-k8s.io/v1beta2"))) owners with
  | Some r => or_Name r
  | None => ""
  end.
Definition ownership (id : string) : string := "cluster-api GomiMachine " +:+ id.
Definition providerID_of (id : string) : string := "gomi:///" +:+ id.

(** ** What is accepted as configuration *)

(** A value of YAML: a string, a list, or anything else. *)
Inductive yval : Type := YString (s : string) | YList (l : list yval) | YOther.

Section reconciler.
(** [yaml s] is the mapping in [s]; [Ok None] when there is none. *)
Context (yaml : string → result (option (gmap string yval))) (Seal : string → string → string → string → result bytes).

Definition without_jinja (data : string) : string :=
  let s := TrimSpace data in
  if HasPrefix s "## template: jinja" then TrimSpace (TrimPrefix s "## template: jinja") else s.
Definition newline : string := of_bytes [byte_of 10].
Definition validateBootstrap (data format : string) : result unit :=
  if (format !=? "") && (format !=? "cloud-config") then Err (ErrNew ("unsupported bootstrap format " +:+ Quote format +:+ "; cloud-config is required")) else
  let s := without_jinja data in
  if negb (HasPrefix s ("#cloud-config" +:+ newline)) then Err (ErrNew "bootstrap value must contain cloud-config; Ignition and scripts are unsupported") else
  match yaml s with
  | Ok (Some _) => Ok tt
  | _ => Err (ErrNew "bootstrap value must be valid cloud-config YAML with quoted Jinja expressions")
  end.

Definition allowedNodePreparationCommands : list (list string) :=
  [["modprobe"; "overlay"]; ["modprobe"; "br_netfilter"]; ["sysctl"; "-w"; "net.ipv4.ip_forward=1"]; ["sysctl"; "-w"; "net.bridge.bridge-nf-call-iptables=1"];
   ["sysctl"; "-w"; "net.bridge.bridge-nf-call-ip6tables=1"]].
Definition nul : string := of_bytes [byte_of 0].
Definition entry_error (i : Z) (rest : string) : error := ErrNew ("entry " +:+ Itoa i +:+ rest).
(** The arguments from number [j]. *)
Fixpoint argv_of (i j : Z) (items : list yval) : result (list string) :=
  let bad := Err (entry_error i (" argument " +:+ Itoa j +:+ " must be a non-empty string")) in
  match items with
  | [] => Ok []
  | YString a :: items => if a ==? "" then bad else l ← argv_of i (j + 1) items; Ok (a :: l)
  | _ => bad
  end.
Definition command_ok (i : Z) (raw : yval) : result unit :=
  match raw with
  | YList ((_ :: _) as items) =>
      argv ← argv_of i 0 items;
      if bool_decide (Join argv nul ∈ (fun c => Join c nul) <$> allowedNodePreparationCommands) then Ok tt
      else Err (entry_error i " is not an allowed Kubernetes node preparation command")
  | _ => Err (entry_error i " must be an argv list")
  end.
Fixpoint commands_ok (i : Z) (l : list yval) : result unit := match l with [] => Ok tt | raw :: l => _ ← command_ok i raw; commands_ok (i + 1) l end.
Definition validateNodePreparationCommands (value : yval) : result unit :=
  match value with YList ((_ :: _) as l) => commands_ok 0 l | _ => Err (ErrNew "must be a non-empty list of argv lists") end.
Definition validateDeclarativeCloudInit (data : string) : result unit :=
  match validateBootstrap data "cloud-config" with
  | Err e => Err (ErrWrap "provisioning config " e "")
  | Ok _ =>
      match yaml (without_jinja data) with
      | Ok (Some config) =>
          if bool_decide (is_Some (config !! "runcmd")) then Err (ErrNew "provisioning config must be declarative; runcmd is not allowed") else
          match config !! "bootcmd" with
          | Some commands => match validateNodePreparationCommands commands with Err e => Err (ErrWrap "provisioning config bootcmd " e "") | Ok _ => Ok tt end
          | None => Ok tt
          end
      | _ => Err (ErrNew "provisioning config must be valid cloud-config YAML")
      end
  end.

(** ** Calls *)

Context (env : ProviderEnv).
Local Abbreviation P := (Hd unit call Result).

Definition pstep : P nat := k ← tick; _ ← op (fun _ s => s) (fun s => (s, tt)); mret k.
Definition getVM (id : string) : P (reply VM) := k ← pstep; let r := p_getVM env k id in _ ← emit (EGetVM id r); mret r.
Definition getTemplate (id : string) : P (reply Template) := k ← pstep; let r := p_getTemplate env k id in _ ← emit (EGetTemplate id r); mret r.
Definition getClaim (id : string) : P (reply BareMetalHost) := k ← pstep; let r := p_getClaim env k id in _ ← emit (EGetClaim id r); mret r.
Definition write (c : call) : P (option api_error) := k ← pstep; _ ← emit c; mret (p_write env k).
(** A deletion of what is not there succeeds. *)
Definition remove_call (c : call) : P (option api_error) := r ← write c; mret match r with Some e => if IsStatus e 404 then None else Some e | None => None end.
Definition capability (name missing : string) : P (option error) :=
  k ← pstep; mret match p_capability env k name with Not e => Some (error_of e) | Got true => None | Got false => Some (ErrNew missing) end.
Definition patch (before after : GomiMachine) : P (option error) := k ← pstep; _ ← emit (EPatch before after); mret (p_patch env k).
Definition patch_status (before after : GomiMachine) : P (option error) := k ← pstep; _ ← emit (EStatus before after); mret (p_patch env k).

(** ** lifecycle.go *)

Definition ensure_template (cap missing mode conflict : string) (id data : string) : P (option error) :=
  c ← capability cap missing;
  match c with
  | Some e => mret (Some e)
  | None =>
      existing ← getTemplate id;
      match existing with
      | Got t => mret (if (tp_Description t !=? ownership id) || (tp_UserData t !=? data) || (tp_DeliveryMode t !=? mode) then Some (ErrNew conflict) else None)
      | Not e => if negb (IsStatus e 404) then mret (Some (error_of e))
                 else w ← write (ECreateTemplate (mkTemplate mode id data (ownership id))); mret (error_of <$> w)
      end
  end.
Definition ensureTemplate : string → string → P (option error) :=
  ensure_template "vmSeedTemplates" "GOMI server does not support protected VM seed templates" "vm-seed" "bootstrap template ownership or content conflict".
Definition ensureProvisioningTemplate : string → string → P (option error) :=
  ensure_template "bareMetalProvisioningTemplates" "GOMI lacks bare-metal provisioning templates" "" "provisioning template ownership or content conflict".
Definition removeOwnedTemplate (id purpose : string) : P (option error) :=
  t ← getTemplate id;
  match t with
  | Not e => mret (if IsStatus e 404 then None else Some (error_of e))
  | Got t => if tp_Description t !=? ownership id then mret (Some (ErrNew ("refusing to delete " +:+ purpose +:+ " template with conflicting ownership")))
             else w ← remove_call (EDeleteTemplate id); mret (error_of <$> w)
  end.

(** ** machine.go: reports *)

Definition latched (m : GomiMachine) : bool := match gm_ProviderID m with Some p => (gm_InstanceID m !=? "") && (p ==? providerID_of (gm_InstanceID m)) | None => false end.
Definition report (m : GomiMachine) (ready : bool) (reason message : string) (cause : option error) : P Result :=
  let after := (if ready || latched m then m <| gm_Provisioned := Some true |> else m) <| gm_Ready := Some (ready, reason, message) |> in
  e ← patch_status m after;
  mret (retry match e with Some e => Some e | None => cause end).

(** The provider's identity, committed once. *)
Definition set_providerID (m : GomiMachine) (k : GomiMachine → P Result) : P Result :=
  let id := providerID_of (gm_InstanceID m) in
  if bool_decide (gm_ProviderID m = Some id) then k m else
  e ← patch m (m <| gm_ProviderID := Some id |>);
  match e with Some e => mret (retry (Some e)) | None => k (m <| gm_ProviderID := Some id |>) end.
Definition set_addresses (m : GomiMachine) (addresses : list string) (k : GomiMachine → P Result) : P Result :=
  let after := m <| gm_Addresses := addresses |> in
  e ← patch_status m after;
  match e with Some e => mret (retry (Some e)) | None => k after end.

Definition observe (m : GomiMachine) (v : VM) : P Result :=
  if negb (OwnedBy v (gm_InstanceID m)) then report m false "OwnershipConflict" "VM does not reference this Machine's bootstrap template" None
  else if (vm_Phase v ==? "Error") || (vm_Phase v ==? "Missing") then report m false "ProvisioningFailed" ("GOMI reports VM " +:+ vm_Phase v) None
  else if negb (negb (vm_Active v) && bool_decide (is_Some (vm_CompletedAt v))) then report m false "Provisioning" "Waiting for VM provisioning completion" None
  else set_providerID m (fun m =>
       set_addresses m (vm_IPAddresses v) (fun m =>
       if vm_Phase v !=? "Running" then report m false "InstanceNotRunning" "Provisioned VM is not running" None
       else report m true "Provisioned" "GOMI VM provisioning completed" None)).

(** ** baremetal.go *)

Definition bareMetalCloudInit (ref : option ConfigMapKeyReference) : P (result string) :=
  match ref with
  | None => mret (Ok "")
  | Some ref =>
      k ← pstep;
      mret match p_configMap env k (cr_Name ref) with
           | KFound config =>
               if negb (cf_Immutable config) then Err (ErrNew ("cloud-init ConfigMap " +:+ Quote (cr_Name ref) +:+ " must be immutable")) else
               match cf_Data config !! cr_Key ref with
               | Some data =>
                   if TrimSpace data ==? "" then Err (ErrNew ("cloud-init ConfigMap " +:+ Quote (cr_Name ref) +:+ " lacks non-empty key " +:+ Quote (cr_Key ref))) else
                   match validateDeclarativeCloudInit data with Err e => Err e | Ok _ => Ok data end
               | None => Err (ErrNew ("cloud-init ConfigMap " +:+ Quote (cr_Name ref) +:+ " lacks non-empty key " +:+ Quote (cr_Key ref)))
               end
           | KNotFound => Err (ErrNew "cannot read cloud-init ConfigMap: not found")
           | KFailed e => Err (ErrWrap "cannot read cloud-init ConfigMap: " e "")
           end
  end.

Definition with_template (m : GomiMachine) (id cloudInit failure : string) (next : P Result) : P Result :=
  if cloudInit ==? "" then next else
  e ← ensureProvisioningTemplate id cloudInit;
  match e with Some e => report m false "ProvisioningConfigFailed" failure (Some e) | None => next end.

(** Reading the bootstrap of a machine. *)
Definition with_bootstrap (m : GomiMachine) (secretName : string) (next : string → P Result) : P Result :=
  k ← pstep;
  match p_secret env k secretName with
  | KFailed e => report m false "WaitingForBootstrap" "Cannot read bootstrap data Secret" (Some e)
  | KNotFound => report m false "WaitingForBootstrap" "Cannot read bootstrap data Secret" (Some (ErrNew "not found"))
  | KFound secret =>
      match validateBootstrap (sc_Value secret) (sc_Format secret) with
      | Err e => report m false "UnsupportedBootstrap" (Error e) None
      | Ok _ => next (sc_Value secret)
      end
  end.

Definition claim_missing (m : GomiMachine) (cl : ClMachine) (spec : BareMetalSpec) (cloudInit : string) : P Result :=
  if bool_decide (is_Some (gm_ProviderID m)) then report m false "InstanceMissing" "Previously provisioned claim disappeared; replace the Machine" None else
  match cm_DataSecretName cl with
  | None => report m false "WaitingForBootstrap" "Waiting for bootstrap data Secret" None
  | Some _ =>
      with_template m (gm_InstanceID m) cloudInit "Cannot persist owned provisioning template"
        (e ← write (EAcquire (gm_InstanceID m) (pb_Pool spec));
         match e with
         | Some e => report m false "WaitingForCapacity" "Cannot acquire a host from the enrolled pool" (Some (error_of e))
         | None => mret (retry None)
         end)
  end.
Definition waiting_for_bootstrap (m : GomiMachine) : P Result := report m false "Provisioning" "Waiting for sealed physical-host bootstrap" None.
Definition claim_claimed (m : GomiMachine) (cl : ClMachine) (spec : BareMetalSpec) (cloudInit : string) (host : BareMetalHost) : P Result :=
  let id := gm_InstanceID m in
  match cm_DataSecretName cl with
  | None => report m false "WaitingForBootstrap" "Waiting for bootstrap data Secret" None
  | Some secretName =>
      with_template m id cloudInit "Cannot verify owned provisioning template"
        (with_bootstrap m secretName (fun data =>
           match Seal (bh_PublicKey host) (bh_Name host) id data with
           | Err e => report m false "InvalidEnrollment" "Host lacks a valid enrolled bootstrap key" (Some e)
           | Ok envelope =>
               e ← write (EDeploy id (pb_OSImageRef spec) (if cloudInit ==? "" then "" else id) envelope);
               match e with
               | Some e => report m false "ProvisioningFailed" "Cannot start sealed OS deployment; retry will observe the same claim" (Some (error_of e))
               | None => waiting_for_bootstrap m
               end
           end))
  end.
Definition claim_state (m : GomiMachine) (cl : ClMachine) (spec : BareMetalSpec) (cloudInit : string) (host : BareMetalHost) : P Result :=
  if (bh_Owner host !=? gm_InstanceID m) || (bh_Pool host !=? pb_Pool spec) then report m false "OwnershipConflict" "Bare-metal claim identity does not match" None
  else if bh_State host ==? "Claimed" then claim_claimed m cl spec cloudInit host
  else if bh_State host ==? "Ready" then
    set_providerID m (fun m =>
    set_addresses m (if bh_IPAddress host ==? "" then [] else [bh_IPAddress host]) (fun m =>
    report m true "Provisioned" "Bare-metal OS and kubeadm bootstrap completed" None))
  else if bh_State host ==? "Failed" then report m false "ProvisioningFailed" "Physical deployment failed; inspect GOMI before replacement" None
  else if bh_State host ==? "Releasing" then report m false "OwnershipConflict" "Claim is being released" None
  else if bh_State host ==? "Deploying" then waiting_for_bootstrap m
  else report m false "InvalidState" "GOMI returned an unknown claim state" None.

Definition reconcileBareMetal (m : GomiMachine) (cl : ClMachine) : P Result :=
  let invalid := report m false "InvalidSpec" "BareMetal requires pool and prepared OS image" None in
  match gm_BareMetal m with
  | None => invalid
  | Some spec =>
      if (pb_Pool spec ==? "") || (pb_OSImageRef spec ==? "") || bool_decide (is_Some (gm_VirtualMachine m)) then invalid else
      c ← capability "bareMetalSealedBootstrap" "GOMI lacks sealed bare-metal provisioning";
      match c with
      | Some e => report m false "UnsupportedServer" "Server must support sealed bare-metal bootstrap" (Some e)
      | None =>
          cloudInit ← bareMetalCloudInit (pb_CloudInitConfigRef spec);
          match cloudInit with
          | Err e => report m false "InvalidProvisioningConfig" (Error e) None
          | Ok cloudInit =>
              host ← getClaim (gm_InstanceID m);
              match host with
              | Not e => if IsStatus e 404 then claim_missing m cl spec cloudInit
                         else report m false "GomiUnavailable" "Cannot read bare-metal claim" (Some (error_of e))
              | Got host => claim_state m cl spec cloudInit host
              end
          end
      end
  end.

Definition drop_finalizer (m : GomiMachine) : P Result := e ← patch m (RemoveFinalizer m); mret (done_ e).
Definition removeBareMetal (m : GomiMachine) : P Result :=
  if negb (has_finalizer m) then mret (done_ None) else
  let id := gm_InstanceID m in
  if id ==? "" then drop_finalizer m else
  host ← getClaim id;
  match host with
  | Got host =>
      if (bh_Owner host !=? id) || negb match gm_BareMetal m with Some spec => bh_Pool host ==? pb_Pool spec | None => false end
      then mret (retry (Some (ErrNew "refusing to release claim with conflicting ownership")))
      else e ← remove_call (ERelease id); mret (retry (error_of <$> e))
  | Not e =>
      if negb (IsStatus e 404) then mret (retry (Some (error_of e))) else
      t ← (if match gm_BareMetal m with Some spec => bool_decide (is_Some (pb_CloudInitConfigRef spec)) | None => false end then removeOwnedTemplate id "provisioning" else mret None);
      match t with Some e => mret (retry (Some e)) | None => drop_finalizer m end
  end.

(** ** lifecycle.go: remove *)

Definition remove_rest (m : GomiMachine) : P Result :=
  t ← removeOwnedTemplate (gm_InstanceID m) "bootstrap";
  match t with Some e => mret (retry (Some e)) | None => drop_finalizer m end.
Definition remove (m : GomiMachine) : P Result :=
  if gm_Kind m ==? "BareMetal" then removeBareMetal m else
  if negb (has_finalizer m) then mret (done_ None) else
  let id := gm_InstanceID m in
  if id ==? "" then drop_finalizer m else
  v ← getVM id;
  match v with
  | Not e => if negb (IsStatus e 404) then mret (retry (Some (error_of e))) else remove_rest m
  | Got v =>
      if negb (OwnedBy v id) then mret (retry (Some (ErrNew "refusing to delete VM with conflicting ownership"))) else
      e ← remove_call (EDeleteVM id);
      match e with
      | Some e => mret (retry (Some (error_of e)))
      | None =>
          again ← getVM id;
          match again with
          | Got _ => mret (retry None)
          | Not e => if IsStatus e 404 then remove_rest m else mret (retry (Some (error_of e)))
          end
      end
  end.

(** ** machine.go: Reconcile *)

Definition create_vm (m : GomiMachine) (cl : ClMachine) (spec : VirtualMachineSpec) : P Result :=
  let id := gm_InstanceID m in
  if bool_decide (is_Some (gm_ProviderID m)) then report m false "InstanceMissing" "Previously provisioned VM is missing; replace the Machine" None else
  match cm_DataSecretName cl with
  | None => report m false "WaitingForBootstrap" "Waiting for bootstrap data Secret" None
  | Some secretName =>
      with_bootstrap m secretName (fun data =>
        e ← ensureTemplate id data;
        match e with
        | Some e => report m false "BootstrapFailed" "Cannot persist owned bootstrap template" (Some e)
        | None =>
            e ← write (ECreateVM id spec id "libvirt");
            match e with
            | Some e => if IsStatus e 409 then report m false "Provisioning" "Waiting for GOMI provisioning to complete" None
                        else report m false "ProvisioningFailed" "GOMI VM creation failed; retry will read the stable instance ID" (Some (error_of e))
            | None => report m false "Provisioning" "Waiting for GOMI provisioning to complete" None
            end
        end)
  end.
Definition reconcile_vm (m : GomiMachine) (cl : ClMachine) : P Result :=
  match gm_VirtualMachine m, gm_BareMetal m with
  | Some spec, None =>
      existing ← getVM (gm_InstanceID m);
      match existing with
      | Got v => observe m v
      | Not e => if IsStatus e 404 then create_vm m cl spec else report m false "GomiUnavailable" "Cannot read GOMI VM" (Some (error_of e))
      end
  | _, _ => report m false "InvalidSpec" "VirtualMachine configuration is required" None
  end.
(** Identity and finalizer first. *)
Definition reconcile_live (m : GomiMachine) (cl : ClMachine) : P Result :=
  if negb (bool_decide (gm_Kind m ∈ [""; "VirtualMachine"; "BareMetal"])) then report m false "UnsupportedKind" "Unsupported machine kind" None else
  if (gm_InstanceID m ==? "") || negb (has_finalizer m) then
    e ← patch m (AddFinalizer (if gm_InstanceID m ==? "" then m <| gm_InstanceID := "capi-" +:+ gm_UID m |> else m));
    mret (retry e)
  else if gm_Kind m ==? "BareMetal" then reconcileBareMetal m cl else reconcile_vm m cl.

Definition kube_get {A} (f : nat → kube A) (missing : Result) (next : A → P Result) : P Result :=
  k ← pstep;
  match f k with KFound a => next a | KNotFound => mret missing | KFailed e => mret (mkResult (rz_retry missing) (Some e)) end.

Definition connected (ci : GomiCluster) : P (option error) :=
  k ← pstep;
  mret match p_secret env k (gc_CredentialsRef ci) with
       | KFound s => New (p_url env) (gc_Server ci) (sc_Token s)
       | KNotFound => Some (ErrNew "read credentials: not found")
       | KFailed e => Some (ErrWrap "read credentials: " e "")
       end.

(** What follows the read of the machine. *)
Definition reconcile_read (m : GomiMachine) : P Result :=
  let owner := ownerName (gm_Owners m) "Machine" in
  if owner ==? "" then mret (retry None) else
  kube_get (fun k => p_machine env k owner) (retry None) (fun cl =>
  kube_get (fun k => p_cluster env k (cm_ClusterName cl)) (retry None) (fun cluster =>
  if clusterPaused cluster || paused (cm_Annotations cl) then mret (retry None) else
  if (cc_InfraKind cluster !=? "GomiCluster") || (cc_InfraGroup cluster !=? "infrastructure.cluster.x-k8s.io")
  then report m false "InvalidCluster" "Cluster must reference a GomiCluster" None else
  kube_get (fun k => p_gomiCluster env k (cc_InfraName cluster)) (retry (Some (ErrNew "not found"))) (fun ci =>
  if paused (gc_Annotations ci) then mret (retry None) else
  e ← connected ci;
  match e with
  | Some e => report m false "CredentialsUnavailable" "Cannot read GOMI credentials" (Some e)
  | None => if gm_Deleting m then remove m else reconcile_live m cl
  end))).
Definition Reconcile : P Result := kube_get (p_infra env) (done_ None) (fun m => if paused (gm_Annotations m) then mret (retry None) else reconcile_read m).

(** ** cluster.go *)

(** [Some] is the status that is patched. *)
Definition cluster_status (infra : GomiCluster) (connection : option error) : GomiCluster :=
  let ready := bool_decide (connection = None) && (gc_Host infra !=? "") && (0 <? gc_Port infra) in
  (if ready then infra <| gc_Provisioned := Some true |> else infra)
    <| gc_Ready := Some (if ready then (true, "Provisioned", "External control plane endpoint configured")
                         else (false, "ConfigurationInvalid", "Configure endpoint and credentials Secret")) |>.
Definition ClusterReconcile (infra : GomiCluster) : P (Result * option GomiCluster) :=
  let none r := mret (r, None) in
  if paused (gc_Annotations infra) || gc_Deleting infra then none (done_ None) else
  let owner := ownerName (gc_Owners infra) "Cluster" in
  if owner ==? "" then none (retry None) else
  k ← pstep;
  match p_cluster env k owner with
  | KNotFound => none (retry None)
  | KFailed e => none (retry (Some e))
  | KFound cluster =>
      if clusterPaused cluster then none (retry None) else
      e ← connected infra;
      k ← pstep;
      mret (retry match p_patch env k with Some p => Some p | None => e end, Some (cluster_status infra e))
  end.
End reconciler.
