(* ===== verification/SealedSeed.v ===== *)
(** * providers/cluster-api/internal/sealedseed

    seal.go: the bootstrap of a physical machine, encrypted for the key of the host that
    was enrolled.  The control plane forwards it without reading it; BareMetal.v has the
    checks it makes.  Keys, encryption and JSON are parameters, with their documented
    sizes and round trips as hypotheses. *)
From S2P Require Import Prelude GoStrings GoNet GoPath GoCrypto ApiResource BareMetal Curtin.

(** ** encoding/base64: [StdEncoding.Strict()] *)

(** The decoder skips line ends and accepts what the encoder writes, and nothing else. *)
Definition b64_raw_char (c : ascii) : ascii := if c ==? "+"%char then "-"%char else if c ==? "/"%char then "_"%char else c.
Definition b64_strict (s : string) : option bytes :=
  let t := List.filter (fun c => negb (line_end c)) (to_bytes s) in
  b ← b64_decode (b64_raw_char <$> List.filter (fun c => c !=? "="%char) t);
  if to_bytes (b64_std b) ==? t then Some b else None.

(** JSON writes such bytes as they are. *)
Definition json_plain (c : ascii) : bool := graphic c && negb (bool_decide (c ∈ [byte_of 34; byte_of 38; byte_of 60; byte_of 62; byte_of 92])).
Definition plain_text (s : string) : Prop := Forall (fun c => json_plain c = true) (to_bytes s).
Definition text_size (s : string) : Z := Z.of_nat (String.length s).

Lemma std_char n : 0 <= n < 64 → let c := b64_std_char (b64_char n) in
  b64_raw_char c = b64_char n ∧ json_plain c = true ∧ (c !=? "="%char) = true ∧ negb (line_end c) = true.
Proof.
  intros Hn c. assert (H : forallb (fun k => let c := b64_std_char (b64_char (Z.of_nat k)) in
    (b64_raw_char c ==? b64_char (Z.of_nat k)) && json_plain c && (c !=? "="%char) && negb (line_end c)) (seq 0 64) = true) by (vm_compute; reflexivity).
  rewrite forallb_forall in H. specialize (H (Z.to_nat n)). rewrite in_seq, Z2Nat.id in H by lia. cbv zeta in H. rewrite !andb_true_iff, bool_decide_eq_true in H.
  destruct H as [[[? ?] ?] ?]; [lia|done].
Qed.
Lemma filter_true {A} (f : A → bool) l : Forall (fun x => f x = true) l → List.filter f l = l.
Proof. induction 1 as [|x l Hx _ IH]; [done|]. cbn. by rewrite Hx, IH. Qed.
Lemma filter_false {A} (f : A → bool) l : Forall (fun x => f x = false) l → List.filter f l = [].
Proof. induction 1 as [|x l Hx _ IH]; [done|]. cbn. by rewrite Hx, IH. Qed.

(** The letters before the padding. *)
Lemma std_letters (p : ascii → Prop) l : (∀ n, 0 <= n < 64 → p (b64_std_char (b64_char n))) → Forall p (b64_std_char <$> b64_encode l).
Proof. intros Hp. rewrite b64_encode_sextets, !Forall_fmap. eapply Forall_impl; [apply b64_sextets_range|]. intros n Hn. by apply Hp. Qed.
Lemma b64_strict_roundtrip l : b64_strict (b64_std l) = Some l.
Proof.
  unfold b64_strict. set (t := List.filter _ _). assert (t = to_bytes (b64_std l)) as ->.
  { apply filter_true. unfold b64_std. rewrite to_of_bytes. apply Forall_app. split; [apply std_letters; apply std_char|]. by apply Forall_replicate. }
  assert (b64_raw_char <$> List.filter (fun c => c !=? "="%char) (to_bytes (b64_std l)) = b64_encode l) as ->.
  { unfold b64_std. rewrite to_of_bytes, List.filter_app, (filter_true _ (_ <$> _)), (filter_false _ (replicate _ _)), app_nil_r;
      [|by apply Forall_replicate|apply std_letters; apply std_char].
    rewrite b64_encode_sextets. pose proof (b64_sextets_range l) as Hr. induction Hr as [|n ns Hn _ IH]; [done|]. rewrite !fmap_cons, IH. f_equal. by apply std_char. }
  rewrite b64_roundtrip. cbn [mbind option_bind]. by rewrite bool_decide_true.
Qed.
Lemma b64_std_plain l : plain_text (b64_std l).
Proof. unfold plain_text, b64_std. rewrite to_of_bytes. apply Forall_app. split; [apply std_letters; apply std_char|]. by apply Forall_replicate. Qed.
Lemma b64_encode_length l : length (b64_encode l) = (length l + (length l + 2) / 3)%nat.
Proof.
  induction l as [| | |a b c l IH] using bytes_by_three; [done..|]. cbn [b64_encode length]. rewrite IH.
  replace (S (S (S (length l))) + 2)%nat with (length l + 2 + 1 * 3)%nat by lia. rewrite Nat.div_add by done. lia.
Qed.
Lemma b64_std_size l : text_size (b64_std l) = 4 * ((Z.of_nat (length l) + 2) `div` 3).
Proof.
  unfold text_size, b64_std. rewrite <- length_to_bytes, to_of_bytes, length_app, length_replicate, length_fmap, b64_encode_length.
  generalize (length l) as n. intros n. rewrite !Nat2Z.inj_add, Nat2Z.inj_mod, Nat2Z.inj_sub, Nat2Z.inj_mod, Nat2Z.inj_add, !Nat2Z.inj_div, Nat2Z.inj_add
    by (pose proof (Nat.mod_upper_bound (n + (n + 2) / 3) 4); lia).
  change (Z.of_nat 4) with 4. change (Z.of_nat 3) with 3. change (Z.of_nat 2) with 2. Z.to_euclidean_division_equations. lia.
Qed.

Section seal.
(** From encoding/pem and crypto/x509, as in BareMetal.v; from crypto/rand, [n] bytes;
    from crypto/aes and crypto/cipher, the cipher of a key and the sealed text; from
    crypto/rsa, the key wrapped for the public key in a PKIX block; from encoding/json,
    the encoding. *)
Context (pemDecode : string → option (string * bytes * string)) (parsePKIX : bytes → result (option Z)).
Context (random : nat → nat → result bytes) (newCipher : bytes → option error) (gcm_Seal : bytes → bytes → bytes → bytes → bytes)
        (EncryptOAEP : bytes → bytes → bytes → result bytes) (marshal : Envelope → bytes).

Definition Algorithm : string := "RSA-OAEP-SHA256+A256GCM".
Definition MaxPlaintext : Z := Z.shiftl 4 20.
Definition NUL : ascii := byte_of 0.
Definition contextData (host owner : string) : bytes := to_bytes "gomi-capi-bootstrap/v1" ++ NUL :: to_bytes host ++ NUL :: to_bytes owner.
Definition forbidden : string := of_bytes [NUL; byte_of 13; byte_of 10].

(** The block of the enrolled key. *)
Definition enrolled_key (publicKeyPEM : string) : result bytes :=
  match pemDecode publicKeyPEM with
  | None => Err (ErrNew "expected one PEM public key")
  | Some (ty, contents, rest) =>
      if (ty !=? "PUBLIC KEY") || (TrimSpace rest !=? "") then Err (ErrNew "expected one PEM public key") else
      match parsePKIX contents with
      | Err _ => Err (ErrNew "invalid enrollment public key")
      | Ok (Some bits) => if bits <? 2048 then Err (ErrNew "enrollment requires RSA with at least 2048 bits") else Ok contents
      | Ok None => Err (ErrNew "enrollment requires RSA with at least 2048 bits")
      end
  end.

Definition Seal (publicKeyPEM host owner : string) (plaintext : bytes) : result bytes :=
  if (host ==? "") || negb (HasPrefix owner "capi-") || ContainsAny (host +:+ owner) forbidden then Err (ErrNew "host and claim owner are required") else
  if (Z.of_nat (length plaintext) =? 0) || (MaxPlaintext <? Z.of_nat (length plaintext)) then Err (ErrNew "invalid bootstrap size") else
  contents ← enrolled_key publicKeyPEM;
  symmetric ← random 0 32;
  match newCipher symmetric with
  | Some e => Err e
  | None =>
      nonce ← random 1 12;
      let label := contextData host owner in
      wrapped ← EncryptOAEP contents symmetric label;
      Ok (marshal (mkEnvelope 1 Algorithm host owner (hex_encode (sha256 contents)) (b64_std wrapped) (b64_std nonce) (b64_std (gcm_Seal symmetric nonce plaintext label))))
  end.

(** ** What a host accepts *)

Definition plain_envelope (e : Envelope) : Prop :=
  plain_text (ev_Algorithm e) ∧ plain_text (ev_Host e) ∧ plain_text (ev_Owner e) ∧ plain_text (ev_KeyFingerprint e)
  ∧ plain_text (ev_WrappedKey e) ∧ plain_text (ev_Nonce e) ∧ plain_text (ev_Ciphertext e).

Context (decodeEnvelope : bytes → option (Envelope * bool)).
Context (json_round_trip : ∀ e, plain_envelope e → ev_Version e = 1 → decodeEnvelope (marshal e) = Some (e, false))
        (json_size : ∀ e, plain_envelope e → ev_Version e = 1 →
           0 < Z.of_nat (length (marshal e)) <= 128 + text_size (ev_Algorithm e) + text_size (ev_Host e) + text_size (ev_Owner e) + text_size (ev_KeyFingerprint e)
                                 + text_size (ev_WrappedKey e) + text_size (ev_Nonce e) + text_size (ev_Ciphertext e))
        (random_size : ∀ k n b, random k n = Ok b → length b = n)
        (gcm_overhead : ∀ key nonce text label, length (gcm_Seal key nonce text label) = (length text + 16)%nat)
        (oaep_size : ∀ contents bits key label w, parsePKIX contents = Ok (Some bits) → EncryptOAEP contents key label = Ok w → Z.of_nat (length w) = (bits + 7) `div` 8).

Lemma enrolled_key_inv pem contents : enrolled_key pem = Ok contents →
  ∃ bits, parsePKIX contents = Ok (Some bits) ∧ 2048 <= bits ∧ EnrollmentFingerprint pemDecode parsePKIX pem = Ok (hex_encode (sha256 contents)).
Proof.
  unfold enrolled_key, EnrollmentFingerprint. destruct (pemDecode pem) as [[[ty c] rest]|]; [|done]. case_match; [done|].
  destruct (parsePKIX c) as [[bits|]|] eqn:E; [|done..]. destruct (bits <? 2048) eqn:Eb; [done|]. intros [= <-]. exists bits. split; [done|]. split; [lia|done].
Qed.
Lemma plain_hex_digit n : 0 <= n < 16 → json_plain (hex_digit n) = true.
Proof.
  intros Hn. unfold json_plain. rewrite graphic_hex_digit by done. rewrite bool_decide_false; [done|].
  intros Hin. assert (byte_val (hex_digit n) ∈ [34; 38; 60; 62; 92]) as Hv by (rewrite !elem_of_cons in *; destruct Hin as [->|[->|[->|[->|[->|Hin]]]]]; [auto 10..|by apply elem_of_nil in Hin]).
  rewrite hex_digit_val in Hv by done. rewrite !elem_of_cons, elem_of_nil in Hv. destruct (n <? 10) eqn:E; lia.
Qed.
Lemma plain_hex l : plain_text (hex_encode l).
Proof.
  unfold plain_text, hex_encode. rewrite to_of_bytes. induction l as [|c l IH]; [constructor|]. csimpl. pose proof (byte_val_range c).
  repeat constructor; [apply plain_hex_digit..|exact IH]; [split; [apply Z.div_pos; lia|apply Z.div_lt_upper_bound; lia]|apply Z.mod_pos_bound; lia].
Qed.
Lemma sealed_envelope_accepted pem host owner plaintext raw h :
  Seal pem host owner plaintext = Ok raw → plain_text host → plain_text owner → text_size host + text_size owner <= 600000 →
  (∀ contents bits, enrolled_key pem = Ok contents → parsePKIX contents = Ok (Some bits) → bits <= 16384) →
  h_Name h = host → h_Owner h = owner → h_PublicKey h = pem →
  ValidateEnvelope pemDecode parsePKIX decodeEnvelope b64_strict raw h = Ok tt.
Proof.
  intros HS Hh Ho Hsize Hbits <- <- <-. unfold Seal in HS. case_match; [done|]. destruct ((_ =? 0) || _) eqn:El; [done|].
  destruct (enrolled_key (h_PublicKey h)) as [contents|] eqn:Ek; [|done]. cbn in HS.
  destruct (random 0 32) as [symmetric|] eqn:E0; [|done]. cbn in HS. destruct (newCipher symmetric); [done|].
  destruct (random 1 12) as [nonce|] eqn:E1; [|done]. cbn in HS. destruct (EncryptOAEP _ _ _) as [wrapped|] eqn:Ew; [|done]. injection HS as <-.
  destruct (enrolled_key_inv _ _ Ek) as (bits & Hp & Hb & Hf). pose proof (Hbits _ _ eq_refl Hp) as Hb'. pose proof (oaep_size _ _ _ _ _ Hp Ew) as Hw.
  set (ct := gcm_Seal _ _ _ _). assert (length ct = (length plaintext + 16)%nat) as Hct by apply gcm_overhead. clearbody ct. apply random_size in E1.
  set (e := mkEnvelope _ _ _ _ _ _ _ _). assert (plain_envelope e) as He.
  { split; [apply (bool_decide_unpack _); by vm_compute|]. split; [exact Hh|]. split; [exact Ho|]. split; [apply plain_hex|]. repeat split; apply b64_std_plain. }
  assert (0 < Z.of_nat (length (marshal e)) <= 128 + 23 + text_size (h_Name h) + text_size (h_Owner h) + text_size (hex_encode (sha256 contents))
          + text_size (b64_std wrapped) + text_size (b64_std nonce) + text_size (b64_std ct)) as Hj by exact (json_size e He eq_refl).
  rewrite !b64_std_size in Hj. assert (text_size (hex_encode (sha256 contents)) = 64) as Hfp by (unfold text_size; by rewrite hex_encode_length, length_sha256).
  apply orb_false_iff in El as [El1 El2]. unfold MaxPlaintext in El2. change (Z.shiftl 4 20) with 4194304 in El2.
  unfold ValidateEnvelope. change (Z.shiftl 6 20) with 6291456. change (Z.shiftl 4 20) with 4194304.
  assert ((Z.of_nat (length (marshal e)) =? 0) = false ∧ (6291456 <? Z.of_nat (length (marshal e))) = false) as [-> ->] by (Z.to_euclidean_division_equations; lia).
  cbn [orb]. rewrite (json_round_trip e He eq_refl), Hf. cbn -[hex_encode sha256 b64_strict b64_std size_between]. rewrite !bool_decide_true by done. cbn -[hex_encode sha256 b64_strict b64_std size_between].
  rewrite !b64_strict_roundtrip. unfold size_between. rewrite Hct, Hw, E1.
  assert (256 <= (bits + 7) `div` 8 < 2049) as Hk by (split; [apply Z.div_le_lower_bound|apply Z.div_lt_upper_bound]; lia).
  assert ((256 <=? (bits + 7) `div` 8) = true ∧ ((bits + 7) `div` 8 <=? 2048) = true) as [-> ->] by (split; apply Z.leb_le; lia).
  assert ((17 <=? Z.of_nat (length plaintext + 16)) = true ∧ (Z.of_nat (length plaintext + 16) <=? 4194304 + 16) = true) as [-> ->] by (apply Z.eqb_neq in El1; apply Z.ltb_ge in El2; clear - El1 El2; split; apply Z.leb_le; lia). done.
Qed.
End seal.

(** ** Functions that have the documented sizes and round trips *)

Definition space : ascii := byte_of 32.
Definition spaced (e : Envelope) : list bytes :=
  to_bytes <$> [ev_Algorithm e; ev_Host e; ev_Owner e; ev_KeyFingerprint e; ev_WrappedKey e; ev_Nonce e; ev_Ciphertext e].
Fixpoint spread (l : list bytes) : bytes := match l with [] => [] | [a] => a | a :: l => a ++ space :: spread l end.
Definition demo_marshal (e : Envelope) : bytes := spread (spaced e).
Definition demo_decode (raw : bytes) : option (Envelope * bool) :=
  match of_bytes <$> split_bytes space raw with
  | [a; h; o; f; w; n; c] => Some (mkEnvelope 1 a h o f w n c, false)
  | _ => None
  end.

Lemma plain_no_space s : plain_text s → space ∉ to_bytes s.
Proof. intros Hs Hin. unfold plain_text in Hs. rewrite Forall_forall in Hs. by specialize (Hs _ Hin). Qed.
Lemma spread_split l : l ≠ [] → Forall (fun a => space ∉ a) l → split_bytes space (spread l) = l.
Proof.
  intros Hl Ha. induction Ha as [|a [|b l] Ha Hb IH]; [done|by apply split_bytes_single|].
  change (spread (a :: b :: l)) with (a ++ space :: spread (b :: l)). by rewrite split_bytes_app, IH.
Qed.
Lemma demo_round_trip e : plain_envelope e → ev_Version e = 1 → demo_decode (demo_marshal e) = Some (e, false).
Proof.
  intros (H1 & H2 & H3 & H4 & H5 & H6 & H7) Hv. unfold demo_decode, demo_marshal. rewrite spread_split;
    [|done|repeat (constructor; [by apply plain_no_space|]); constructor].
  unfold spaced. cbn [fmap list_fmap]. rewrite !of_to_bytes. destruct e. cbn in *. by rewrite Hv.
Qed.
Lemma demo_size e : plain_envelope e → ev_Version e = 1 →
  0 < Z.of_nat (length (demo_marshal e)) <= 128 + text_size (ev_Algorithm e) + text_size (ev_Host e) + text_size (ev_Owner e) + text_size (ev_KeyFingerprint e)
    + text_size (ev_WrappedKey e) + text_size (ev_Nonce e) + text_size (ev_Ciphertext e).
Proof.
  intros _ _. unfold demo_marshal, spaced, text_size. cbn [fmap list_fmap spread]. rewrite <- !length_to_bytes.
  repeat (rewrite length_app; cbn [length]). lia.
Qed.
Definition demo_pem (s : string) : option (string * bytes * string) := Some ("PUBLIC KEY", to_bytes s, "").
Definition demo_PKIX (contents : bytes) : result (option Z) := Ok (Some 2048).
Definition demo_random (k n : nat) : result bytes := Ok (replicate n space).
Definition demo_gcm (key nonce text label : bytes) : bytes := text ++ replicate 16 space.
Definition demo_OAEP (contents key label : bytes) : result bytes := Ok (replicate 256 space).
Definition demo_Seal : string → string → string → bytes → result bytes := Seal demo_pem demo_PKIX demo_random (fun _ => None) demo_gcm demo_OAEP demo_marshal.
