(* ===== verification/ProviderSafe.v ===== *)
(** * providers/cluster-api: what a reconciliation may do

    Every call of Provider.v is justified by the object that was read and by the calls
    before it; what is accepted as node preparation; what is sealed is accepted. *)
From S2P Require Import Prelude GoStrings GoNet GoPath GoCrypto GoTime Handler Curtin BareMetal Provider SealedSeed.

(** ** The protocol *)

Section protocol.
Context (yaml : string → result (option (gmap string yval))) (Seal : string → string → string → string → result bytes) (env : ProviderEnv).
Local Abbreviation P := (Hd unit call Result).
Implicit Types (m : GomiMachine) (l : list call) (id : string).

(** The identity and the finalizer are stored. *)
Definition committed m : Prop := gm_InstanceID m ≠ "" ∧ has_finalizer m = true.
Definition vm_absent id l : Prop := ∃ e, EGetVM id (Not e) ∈ l ∧ IsStatus e 404 = true.
Definition claim_absent id l : Prop := ∃ e, EGetClaim id (Not e) ∈ l ∧ IsStatus e 404 = true.
Definition pool_of m : option string := pb_Pool <$> gm_BareMetal m.
(** The claim of the machine was read, in a state. *)
Definition claim_seen m (state : string → Prop) l : Prop :=
  ∃ h, EGetClaim (gm_InstanceID m) (Got h) ∈ l ∧ bh_Owner h = gm_InstanceID m ∧ pool_of m = Some (bh_Pool h) ∧ state (bh_State h).
(** GOMI has completed the installation of what the machine owns. *)
Definition completed_seen m l : Prop :=
  (∃ v, EGetVM (gm_InstanceID m) (Got v) ∈ l ∧ OwnedBy v (gm_InstanceID m) = true ∧ vm_Active v = false ∧ is_Some (vm_CompletedAt v))
  ∨ claim_seen m (.= "Ready") l.
(** A template of the machine with data that was validated. *)
Definition template_of id mode (valid : string → Prop) (t : Template) : Prop := tp_Description t = ownership id ∧ tp_DeliveryMode t = mode ∧ valid (tp_UserData t).
Definition template_seen id mode valid l : Prop := ∃ t, (EGetTemplate id (Got t) ∈ l ∨ ECreateTemplate t ∈ l ∧ tp_Name t = id) ∧ template_of id mode valid t.
Definition bootstrap_valid (data : string) : Prop := ∃ format, validateBootstrap yaml data format = Ok tt.
Definition declarative (data : string) : Prop := validateDeclarativeCloudInit yaml data = Ok tt.

(** Only the status differs. *)
Definition same_spec (a b : GomiMachine) : Prop :=
  gm_Finalizers a = gm_Finalizers b ∧ gm_Kind a = gm_Kind b ∧ gm_VirtualMachine a = gm_VirtualMachine b ∧ gm_BareMetal a = gm_BareMetal b
  ∧ gm_InstanceID a = gm_InstanceID b ∧ gm_Deleting a = gm_Deleting b.

Definition allowed m l (c : call) : Prop :=
  let id := gm_InstanceID m in
  paused (gm_Annotations m) = false ∧
  match c with
  | EGetVM i _ | EGetTemplate i _ | EGetClaim i _ => i = id ∧ committed m
  | ECreateTemplate t =>
      committed m ∧ gm_Deleting m = false ∧ tp_Name t = id ∧ (∃ e, EGetTemplate id (Not e) ∈ l ∧ IsStatus e 404 = true)
      ∧ (template_of id "vm-seed" bootstrap_valid t ∨ template_of id "" declarative t)
  | ECreateVM i spec ref power =>
      committed m ∧ gm_Deleting m = false ∧ i = id ∧ ref = id ∧ power = "libvirt" ∧ gm_VirtualMachine m = Some spec ∧ gm_ProviderID m = None
      ∧ vm_absent id l ∧ template_seen id "vm-seed" bootstrap_valid l
  | EDeleteVM i => committed m ∧ gm_Deleting m = true ∧ i = id ∧ ∃ v, EGetVM id (Got v) ∈ l ∧ OwnedBy v id = true
  | EDeleteTemplate i =>
      committed m ∧ gm_Deleting m = true ∧ i = id ∧ (vm_absent id l ∨ claim_absent id l) ∧ ∃ t, EGetTemplate id (Got t) ∈ l ∧ tp_Description t = ownership id
  | EAcquire i pool => committed m ∧ gm_Deleting m = false ∧ i = id ∧ pool_of m = Some pool ∧ gm_ProviderID m = None ∧ claim_absent id l
  | EDeploy i image ref envelope =>
      committed m ∧ gm_Deleting m = false ∧ i = id ∧ pb_OSImageRef <$> gm_BareMetal m = Some image
      ∧ (ref = "" ∨ ref = id ∧ template_seen id "" declarative l)
      ∧ ∃ h data, EGetClaim id (Got h) ∈ l ∧ bh_Owner h = id ∧ pool_of m = Some (bh_Pool h) ∧ bh_State h = "Claimed"
                  ∧ bootstrap_valid data ∧ Seal (bh_PublicKey h) (bh_Name h) id data = Ok envelope
  | ERelease i => committed m ∧ gm_Deleting m = true ∧ i = id ∧ claim_seen m (fun _ => True) l
  | EPatch before after =>
      before = m ∧
      ((gm_Deleting m = false ∧ ¬ committed m ∧ committed after ∧ (id ≠ "" → gm_InstanceID after = id) ∧ gm_ProviderID after = gm_ProviderID m)
       ∨ (committed m ∧ gm_Deleting m = false ∧ completed_seen m l ∧ after = m <| gm_ProviderID := Some (providerID_of id) |>)
       ∨ (gm_Deleting m = true ∧ after = RemoveFinalizer m ∧ (id = "" ∨ committed m ∧ (vm_absent id l ∨ claim_absent id l))))
  | EStatus before after =>
      same_spec before m ∧ same_spec after m ∧ gm_ProviderID after = gm_ProviderID before
      ∧ (gm_ProviderID before = gm_ProviderID m ∨ completed_seen m l)
      ∧ (gm_Provisioned after = gm_Provisioned before ∨ gm_Provisioned after = Some true ∧ (latched m = true ∨ completed_seen m l))
      ∧ (gm_Ready after = gm_Ready m ∨ ∃ ready reason msg, gm_Ready after = Some (ready, reason, msg) ∧ (ready = true → completed_seen m l))
  end.

(** ** Each call *)

Context (m : GomiMachine).
Local Abbreviation G := (allowed m).
Local Abbreviation fol := (abides G).

Hint Resolve lasting_in lasting_and lasting_const : core.

Ltac logged := intros ?; eexists; split; reflexivity.
Lemma fol_getVM id Q : lasting Q → (∀ l r, Q l → G l (EGetVM id r)) → fol Q (getVM env id) (fun r l => Q l ∧ EGetVM id r ∈ l).
Proof. apply abides_logged. logged. Qed.
Lemma fol_getTemplate id Q : lasting Q → (∀ l r, Q l → G l (EGetTemplate id r)) → fol Q (getTemplate env id) (fun r l => Q l ∧ EGetTemplate id r ∈ l).
Proof. apply abides_logged. logged. Qed.
Lemma fol_getClaim id Q : lasting Q → (∀ l r, Q l → G l (EGetClaim id r)) → fol Q (getClaim env id) (fun r l => Q l ∧ EGetClaim id r ∈ l).
Proof. apply abides_logged. logged. Qed.
Lemma fol_write c Q : lasting Q → (∀ l, Q l → G l c) → fol Q (write env c) (fun _ l => Q l ∧ c ∈ l).
Proof. intros HQ HG. apply (abides_logged _ _ (fun _ => c)); [logged|done|]. intros l _. apply HG. Qed.
Lemma fol_patch b a Q : lasting Q → (∀ l, Q l → G l (EPatch b a)) → fol Q (patch env b a) (fun _ => Q).
Proof.
  intros HQ HG. eapply abides_impl; [apply (abides_logged _ _ (fun _ => EPatch b a)); [logged|exact HQ|intros l _; apply HG]|done|by intros ? ? []].
Qed.
Lemma fol_status b a Q : lasting Q → (∀ l, Q l → G l (EStatus b a)) → fol Q (patch_status env b a) (fun _ => Q).
Proof.
  intros HQ HG. eapply abides_impl; [apply (abides_logged _ _ (fun _ => EStatus b a)); [logged|exact HQ|intros l _; apply HG]|done|by intros ? ? []].
Qed.
(** What is not logged. *)
Lemma fol_pstep Q : fol Q pstep (fun _ => Q).
Proof. apply abides_silent. intros st. split; [done|by eexists]. Qed.
Lemma fol_capability n e Q : fol Q (capability env n e) (fun _ => Q).
Proof. apply abides_silent. intros st. split; [done|by eexists]. Qed.
Lemma fol_remove_call c Q : lasting Q → (∀ l, Q l → G l c) → fol Q (remove_call env c) (fun _ => Q).
Proof. intros HQ HG. eapply abides_bind; [by apply fol_write|]. intros r. apply abides_ret. by intros l []. Qed.

(** ** Reports *)

Context (Hlive : paused (gm_Annotations m) = false).

(** The object as it is in memory: its status apart, only the provider's identity may
    be new. *)
Definition near (m' : GomiMachine) l : Prop := same_spec m' m ∧ gm_Ready m' = gm_Ready m ∧ (gm_ProviderID m' = gm_ProviderID m ∨ completed_seen m l).

Lemma fol_report m' ready reason msg cause Q : lasting Q → (∀ l, Q l → near m' l ∧ (ready = true → completed_seen m l)) →
  fol Q (report env m' ready reason msg cause) (fun _ _ => True).
Proof.
  intros HQ Hn. eapply abides_bind; [apply (fol_status _ _ _ HQ)|intros e; by apply abides_ret]. intros l Hl.
  destruct (Hn l Hl) as ((Hs & Hr & Hp) & Hready). split; [exact Hlive|]. destruct (ready || latched m') eqn:El.
  - split; [exact Hs|]. split; [exact Hs|]. split; [done|]. split; [exact Hp|]. split; [|right; by exists ready, reason, msg].
    right. split; [done|]. apply orb_true_iff in El as [->|El]; [right; by apply Hready|]. destruct Hp as [Hp|Hp]; [|by right]. left.
    unfold latched in *. rewrite <- Hp. by destruct Hs as (_ & _ & _ & _ & <- & _).
  - split; [exact Hs|]. split; [exact Hs|]. split; [done|]. split; [exact Hp|]. split; [by left|right; by exists ready, reason, msg].
Qed.

Lemma near_self l : near m l.
Proof. repeat split; by left. Qed.
Lemma fol_wait reason msg cause Q : lasting Q → fol Q (report env m false reason msg cause) (fun _ _ => True).
Proof. intros HQ. apply fol_report; [done|]. intros l _. by split; [apply near_self|]. Qed.
Lemma fol_stop (r : Result) (Q : list call → Prop) : fol Q (mret r : P Result) (fun _ _ => True).
Proof. by apply abides_ret. Qed.

(** The identity, the addresses, then the last report. *)
Lemma fol_ready_end ready reason msg cause addresses m' Q : lasting Q → (∀ l, Q l → completed_seen m l) → same_spec m' m → gm_Ready m' = gm_Ready m →
  fol Q (set_addresses env m' addresses (fun m' => report env m' ready reason msg cause)) (fun _ _ => True).
Proof.
  intros HQ Hc Hs Hr. eapply abides_bind; [apply (fol_status _ _ _ HQ)|intros [e|]; [apply fol_stop|apply (fol_report _ _ _ _ _ _ HQ)]].
  - intros l Hl. split; [exact Hlive|]. split; [exact Hs|]. split; [exact Hs|]. split; [done|]. split; [right; by apply Hc|]. split; by left.
  - intros l Hl. split; [|by intros _; apply Hc]. split; [exact Hs|]. split; [exact Hr|right; by apply Hc].
Qed.
Lemma fol_provided (k : GomiMachine → P Result) Q : lasting Q → committed m → gm_Deleting m = false → (∀ l, Q l → completed_seen m l) →
  (∀ m', same_spec m' m → gm_Ready m' = gm_Ready m → fol Q (k m') (fun _ _ => True)) → fol Q (set_providerID env m k) (fun _ _ => True).
Proof.
  intros HQ Hm Hd Hc Hk. unfold set_providerID. case_bool_decide; [apply Hk; [repeat split|done]|].
  eapply abides_bind; [apply (fol_patch _ _ _ HQ)|intros [e|]; [apply fol_stop|apply Hk; [repeat split|done]]].
  intros l Hl. split; [exact Hlive|]. split; [done|]. right. left. split; [exact Hm|]. split; [exact Hd|]. by split; [apply Hc|].
Qed.

Lemma fol_observe v Q : lasting Q → committed m → gm_Deleting m = false → (∀ l, Q l → EGetVM (gm_InstanceID m) (Got v) ∈ l) → fol Q (observe env m v) (fun _ _ => True).
Proof.
  intros HQ Hm Hd Hv. unfold observe. destruct (OwnedBy v (gm_InstanceID m)) eqn:Ho; cbn [negb]; [|by apply fol_wait].
  destruct ((vm_Phase v ==? "Error") || (vm_Phase v ==? "Missing")); [by apply fol_wait|].
  destruct (negb (vm_Active v) && bool_decide (is_Some (vm_CompletedAt v))) eqn:Ec; cbn [negb]; [|by apply fol_wait].
  apply andb_true_iff in Ec as [Ea Ec]. apply negb_true_iff in Ea. apply bool_decide_eq_true in Ec.
  assert (∀ l, Q l → completed_seen m l) as Hc. { intros l Hl. left. exists v. by split; [apply Hv|]. }
  apply fol_provided; [done..|]. intros m' Hs Hr. destruct (vm_Phase v !=? "Running"); by apply fol_ready_end.
Qed.

(** ** Templates *)

Lemma fol_ensure cap missing mode conflict valid data Q : lasting Q → committed m → gm_Deleting m = false → valid data →
  (mode = "vm-seed" ∧ valid = bootstrap_valid ∨ mode = "" ∧ valid = declarative) →
  fol Q (ensure_template env cap missing mode conflict (gm_InstanceID m) data) (fun r l => Q l ∧ (r = None → template_seen (gm_InstanceID m) mode valid l)).
Proof.
  intros HQ Hm Hd Hv Hmode. eapply abides_bind; [apply fol_capability|]. intros [e|]; [by apply abides_ret|].
  eapply abides_bind; [apply (fol_getTemplate _ _ HQ); by intros|]. intros [t|e].
  - apply abides_ret. intros l [Hl Ht]. split; [done|]. case_match eqn:Ec; [done|]. intros _. exists t. split; [by left|].
    apply orb_false_iff in Ec as [Ec E3]. apply orb_false_iff in Ec as [E1 E2]. apply negb_false_iff, bool_decide_eq_true in E1, E2, E3. split; [done|]. split; [done|]. by rewrite E2.
  - destruct (IsStatus e 404) eqn:Es; cbn [negb]; [|apply abides_ret; by intros l []].
    set (t := mkTemplate mode (gm_InstanceID m) data (ownership (gm_InstanceID m))). assert (template_of (gm_InstanceID m) mode valid t) as Ht by (repeat split; done).
    eapply abides_bind; [apply fol_write; [by apply lasting_and|]|].
    + intros l [Hl Hg]. split; [exact Hlive|]. split; [exact Hm|]. split; [exact Hd|]. split; [done|]. split; [by exists e|].
      destruct Hmode as [[-> ->]|[-> ->]]; [by left|by right].
    + intros r. apply abides_ret. intros l [[Hl Hg] Hc]. split; [done|]. intros _. exists t. split; [by right|done].
Qed.

Lemma fol_unused_template purpose Q : lasting Q → committed m → gm_Deleting m = true → (∀ l, Q l → vm_absent (gm_InstanceID m) l ∨ claim_absent (gm_InstanceID m) l) →
  fol Q (removeOwnedTemplate env (gm_InstanceID m) purpose) (fun _ => Q).
Proof.
  intros HQ Hm Hd Ha. eapply abides_bind; [apply (fol_getTemplate _ _ HQ); by intros|]. intros [t|e]; [|apply abides_ret; by intros l []].
  destruct (tp_Description t !=? ownership (gm_InstanceID m)) eqn:Et; [apply abides_ret; by intros l []|]. apply negb_false_iff, bool_decide_eq_true in Et.
  eapply abides_bind; [apply fol_remove_call; [by apply lasting_and|]|intros r; apply abides_ret; by intros l []].
  intros l [Hl Ht]. split; [exact Hlive|]. split; [exact Hm|]. split; [exact Hd|]. split; [done|]. split; [by apply Ha|by exists t].
Qed.

(** ** A machine that lives *)

Section live.
Context (Hm : committed m) (Hd : gm_Deleting m = false).
Local Abbreviation id := (gm_InstanceID m).

Lemma fol_bootstrap secretName (next : string → P Result) Q : lasting Q → (∀ data, bootstrap_valid data → fol Q (next data) (fun _ _ => True)) →
  fol Q (with_bootstrap yaml env m secretName next) (fun _ _ => True).
Proof.
  intros HQ Hn. eapply abides_bind; [apply fol_pstep|]. intros k. destruct (p_secret env k secretName) as [s| |e]; [|by apply fol_wait..].
  destruct (validateBootstrap yaml (sc_Value s) (sc_Format s)) as [[]|e] eqn:Ev; [|by apply fol_wait]. apply Hn. by exists (sc_Format s).
Qed.
Lemma fol_with_template cloudInit failure next Q : lasting Q → (cloudInit ≠ "" → declarative cloudInit) →
  (∀ T, lasting T → (∀ l, T l → Q l ∧ (cloudInit = "" ∨ template_seen id "" declarative l)) → fol T next (fun _ _ => True)) →
  fol Q (with_template env m id cloudInit failure next) (fun _ _ => True).
Proof.
  intros HQ Hv Hn. unfold with_template. case_bool_decide as Ec; [apply Hn; [done|]; by split; [|left]|].
  eapply abides_bind; [apply (fol_ensure _ _ _ _ declarative); [done..|by apply Hv|by right]|]. intros [e|].
  - eapply abides_impl; [by apply (fol_wait _ _ _ Q)|by intros l []|done].
  - eapply abides_impl; [apply (Hn (fun l => Q l ∧ template_seen id "" declarative l))| |done].
    + apply lasting_and; [done|]. intros l x (t & Ht & Hof). exists t. split; [|done].
      destruct Ht as [Ht|[Ht ?]]; [left|right; split; [|done]]; apply elem_of_app; by left.
    + intros l []. split; [done|by right].
    + intros l [Hl Ht]. split; [done|by apply Ht].
Qed.

Lemma fol_create_vm cl spec Q : lasting Q → gm_VirtualMachine m = Some spec → (∀ l, Q l → vm_absent id l) → fol Q (create_vm yaml env m cl spec) (fun _ _ => True).
Proof.
  intros HQ Hs Ha. unfold create_vm. case_bool_decide as Ep; [by apply fol_wait|]. apply eq_None_not_Some in Ep.
  destruct (cm_DataSecretName cl) as [secretName|]; [|by apply fol_wait]. apply (fol_bootstrap _ _ _ HQ). intros data Hv.
  eapply abides_bind; [apply (fol_ensure _ _ _ _ bootstrap_valid); [done..|by left]|]. intros [e|].
  - eapply abides_impl; [by apply (fol_wait _ _ _ Q)|by intros l []|done].
  - eapply (abides_bind _ _ _ _ (fun _ => Q)).
    + intros st [Hl Ht] HG. split; [|by apply HQ]. apply each_snoc; [done|]. split; [exact Hlive|].
      split; [exact Hm|]. split; [exact Hd|]. repeat (split; [done|]). split; [by apply Ha|by apply Ht].
    + intros [e|]; [destruct (IsStatus e 409)|]; by apply fol_wait.
Qed.
Lemma fol_reconcile_vm cl : fol (fun _ => True) (reconcile_vm yaml env m cl) (fun _ _ => True).
Proof.
  unfold reconcile_vm. destruct (gm_VirtualMachine m) as [spec|] eqn:Es; [destruct (gm_BareMetal m)|]; try by apply fol_wait.
  eapply abides_bind; [apply fol_getVM; [done|]; by intros|]. intros [v|e].
  - apply fol_observe; [auto|done..|]. by intros l [].
  - destruct (IsStatus e 404) eqn:E; [|by apply fol_wait; auto]. apply fol_create_vm; [auto|done|]. intros l [_ Hl]. by exists e.
Qed.

Lemma fol_cloudInit ref Q : fol Q (bareMetalCloudInit yaml env ref) (fun r l => Q l ∧ ∀ data, r = Ok data → data ≠ "" → declarative data).
Proof.
  unfold bareMetalCloudInit. destruct ref as [ref|]; [|apply abides_ret; intros l Hl; split; [done|by intros ? [= <-]]].
  eapply abides_bind; [apply fol_pstep|]. intros k. apply abides_ret. intros l Hl. split; [done|]. intros data.
  destruct (p_configMap env k (cr_Name ref)) as [c| |e]; [|done..]. destruct (negb (cf_Immutable c)); [done|]. destruct (cf_Data c !! cr_Key ref) as [d|]; [|done].
  case_match; [done|]. destruct (validateDeclarativeCloudInit yaml d) as [[]|] eqn:E; [|done]. by intros [= <-].
Qed.
Lemma fol_claim_missing cl spec cloudInit Q : lasting Q → gm_BareMetal m = Some spec → (cloudInit ≠ "" → declarative cloudInit) → (∀ l, Q l → claim_absent id l) →
  fol Q (claim_missing env m cl spec cloudInit) (fun _ _ => True).
Proof.
  intros HQ Hs Hv Ha. unfold claim_missing. case_bool_decide as Ep; [by apply fol_wait|]. apply eq_None_not_Some in Ep.
  destruct (cm_DataSecretName cl); [|by apply fol_wait]. apply fol_with_template; [done..|]. intros T HT Hl.
  eapply abides_bind; [apply (fol_write _ _ HT)|].
  - intros l Hl'. split; [exact Hlive|]. split; [exact Hm|]. split; [exact Hd|]. split; [done|]. split; [unfold pool_of; by rewrite Hs|]. split; [done|]. by apply Ha, Hl.
  - intros [e|]; [apply fol_wait; auto|apply fol_stop].
Qed.
Lemma fol_claim_claimed cl spec cloudInit host Q : lasting Q → gm_BareMetal m = Some spec → (cloudInit ≠ "" → declarative cloudInit) →
  (∀ l, Q l → EGetClaim id (Got host) ∈ l) → bh_Owner host = id → bh_Pool host = pb_Pool spec → bh_State host = "Claimed" →
  fol Q (claim_claimed yaml Seal env m cl spec cloudInit host) (fun _ _ => True).
Proof.
  intros HQ Hs Hv Hg Ho Hp Hst. unfold claim_claimed. destruct (cm_DataSecretName cl) as [secretName|]; [|by apply fol_wait].
  apply fol_with_template; [done..|]. intros T HT Hl. apply (fol_bootstrap _ _ _ HT). intros data Hb.
  destruct (Seal (bh_PublicKey host) (bh_Name host) id data) as [envelope|e] eqn:Es; [|by apply fol_wait].
  eapply abides_bind; [apply (fol_write _ _ HT)|intros [e|]; apply fol_wait; auto].
  intros l Hl'. destruct (Hl l Hl') as [HQl Ht]. split; [exact Hlive|]. split; [exact Hm|]. split; [exact Hd|]. split; [done|]. split; [by rewrite Hs|].
  split; [case_bool_decide; [by left|right; split; [done|by destruct Ht]]|]. exists host, data. split; [by apply Hg|].
  unfold pool_of. rewrite Hs, Hp. by repeat split.
Qed.
Lemma fol_claim_state cl spec cloudInit host Q : lasting Q → gm_BareMetal m = Some spec → (cloudInit ≠ "" → declarative cloudInit) →
  (∀ l, Q l → EGetClaim id (Got host) ∈ l) → fol Q (claim_state yaml Seal env m cl spec cloudInit host) (fun _ _ => True).
Proof.
  intros HQ Hs Hv Hg. unfold claim_state. case_match eqn:Ei; [by apply fol_wait|].
  apply orb_false_iff in Ei as [Eo Ep]. apply negb_false_iff, bool_decide_eq_true in Eo, Ep.
  case_bool_decide; [by apply fol_claim_claimed|]. case_bool_decide as Er; [|repeat case_bool_decide; by apply fol_wait].
  assert (∀ l, Q l → completed_seen m l) as Hc. { intros l Hl. right. exists host. split; [by apply Hg|]. unfold pool_of. rewrite Hs, Ep. by repeat split. }
  apply fol_provided; [done..|]. intros m' Hs' Hr. by apply fol_ready_end.
Qed.
Lemma fol_reconcileBareMetal cl : fol (fun _ => True) (reconcileBareMetal yaml Seal env m cl) (fun _ _ => True).
Proof.
  unfold reconcileBareMetal. destruct (gm_BareMetal m) as [spec|] eqn:Es; [|by apply fol_wait]. case_match; [by apply fol_wait|].
  eapply abides_bind; [apply fol_capability|]. intros [e|]; [by apply fol_wait|].
  eapply abides_bind; [apply fol_cloudInit|]. intros [cloudInit|e]; [|by apply fol_wait; auto].
  eapply abides_bind; [apply fol_getClaim; [auto|by intros]|]. intros [host|e].
  - apply (abides_pure (cloudInit ≠ "" → declarative cloudInit)); [intros l [[_ Hv] _]; by apply Hv|intros Hv].
    apply fol_claim_state; [auto|done..|by intros l []].
  - destruct (IsStatus e 404) eqn:E; [|by apply fol_wait; auto].
    apply (abides_pure (cloudInit ≠ "" → declarative cloudInit)); [intros l [[_ Hv] _]; by apply Hv|intros Hv].
    apply fol_claim_missing; [auto|done..|]. intros l [_ Hl]. by exists e.
Qed.
End live.

(** ** A machine that is deleted *)

Lemma fol_drop Q : lasting Q → gm_Deleting m = true →
  (∀ l, Q l → gm_InstanceID m = "" ∨ committed m ∧ (vm_absent (gm_InstanceID m) l ∨ claim_absent (gm_InstanceID m) l)) →
  fol Q (drop_finalizer env m) (fun _ _ => True).
Proof.
  intros HQ Hd Ha. eapply abides_bind; [apply (fol_patch _ _ _ HQ)|intros e; apply fol_stop].
  intros l Hl. split; [exact Hlive|]. split; [done|]. right. right. split; [done|]. split; [done|by apply Ha].
Qed.
Lemma fol_removeBareMetal : gm_Deleting m = true → fol (fun _ => True) (removeBareMetal env m) (fun _ _ => True).
Proof.
  intros Hd. unfold removeBareMetal. destruct (has_finalizer m) eqn:Hf; cbn [negb]; [|apply fol_stop].
  case_bool_decide as Ei; [apply fol_drop; [done..|by left]|]. assert (committed m) as Hm by done.
  eapply abides_bind; [apply fol_getClaim; [auto|by intros]|]. intros [host|e].
  - case_match eqn:Ec; [apply fol_stop|]. apply orb_false_iff in Ec as [Eo Ep]. apply negb_false_iff in Eo, Ep. apply bool_decide_eq_true in Eo.
    eapply abides_bind; [apply fol_remove_call; [auto|]|intros r; apply fol_stop].
    intros l [_ Hg]. split; [exact Hlive|]. split; [exact Hm|]. split; [exact Hd|]. split; [done|]. exists host. split; [exact Hg|]. split; [done|]. split; [|done].
    unfold pool_of. destruct (gm_BareMetal m); [|done]. apply bool_decide_eq_true in Ep. by rewrite Ep.
  - destruct (IsStatus e 404) eqn:E; cbn [negb]; [|apply fol_stop].
    eapply (abides_bind _ _ _ _ (fun _ => claim_absent (gm_InstanceID m))).
    + eapply abides_impl; [|by intros l [_ Hl]; exact Hl|intros a l Hl; exists e; by split; [exact Hl|]]. case_match; [|by apply abides_ret].
      apply fol_unused_template; [auto|done..|]. intros l Hl. right. by exists e.
    + intros [x|]; [apply fol_stop|]. apply fol_drop; [|done|intros l Hl; right; by split; [|right]].
      intros l x (e' & He' & ?). exists e'. split; [apply elem_of_app; by left|done].
Qed.
Lemma fol_remove_rest Q : lasting Q → committed m → gm_Deleting m = true → (∀ l, Q l → vm_absent (gm_InstanceID m) l) → fol Q (remove_rest env m) (fun _ _ => True).
Proof.
  intros HQ Hm Hd Ha. eapply abides_bind; [apply fol_unused_template; [done..|]; left; by apply Ha|].
  intros [x|]; [apply fol_stop|]. apply fol_drop; [done..|]. intros l Hl. right. split; [done|]. left. by apply Ha.
Qed.
Lemma fol_remove : gm_Deleting m = true → fol (fun _ => True) (remove env m) (fun _ _ => True).
Proof.
  intros Hd. unfold remove. case_bool_decide; [by apply fol_removeBareMetal|]. destruct (has_finalizer m) eqn:Hf; cbn [negb]; [|apply fol_stop].
  case_bool_decide as Ei; [apply fol_drop; [done..|by left]|]. assert (committed m) as Hm by done.
  eapply abides_bind; [apply fol_getVM; [auto|by intros]|]. intros [v|e].
  - destruct (OwnedBy v (gm_InstanceID m)) eqn:Eo; cbn [negb]; [|apply fol_stop].
    eapply abides_bind; [apply fol_remove_call; [auto|]|].
    { intros l [_ Hg]. split; [exact Hlive|]. split; [exact Hm|]. split; [exact Hd|]. split; [done|]. by exists v. }
    intros [x|]; [apply fol_stop|]. eapply abides_bind; [apply fol_getVM; [auto|by intros]|]. intros [v'|e]; [apply fol_stop|].
    destruct (IsStatus e 404) eqn:E; [|apply fol_stop]. apply fol_remove_rest; [auto|done..|]. intros l [_ Hl]. by exists e.
  - destruct (IsStatus e 404) eqn:E; cbn [negb]; [|apply fol_stop]. apply fol_remove_rest; [auto|done..|]. intros l [_ Hl]. by exists e.
Qed.

(** ** The whole of it *)

Lemma AddFinalizer_has m' : has_finalizer (AddFinalizer m') = true.
Proof. unfold AddFinalizer. destruct (has_finalizer m') eqn:E; [exact E|]. apply bool_decide_eq_true, elem_of_app. right. by left. Qed.
Lemma AddFinalizer_fields m' : gm_InstanceID (AddFinalizer m') = gm_InstanceID m' ∧ gm_ProviderID (AddFinalizer m') = gm_ProviderID m'.
Proof. unfold AddFinalizer. by destruct (has_finalizer m'). Qed.

Lemma fol_live cl : gm_Deleting m = false → fol (fun _ => True) (reconcile_live yaml Seal env m cl) (fun _ _ => True).
Proof.
  intros Hd. unfold reconcile_live. case_match; [by apply fol_wait|]. destruct ((gm_InstanceID m ==? "") || negb (has_finalizer m)) eqn:Ec.
  - eapply abides_bind; [apply fol_patch; [done|]|intros e; apply fol_stop]. intros l _. split; [exact Hlive|]. split; [done|]. left. split; [exact Hd|].
    set (m1 := if gm_InstanceID m ==? "" then _ else m). destruct (AddFinalizer_fields m1) as [E1 E2]. unfold committed. rewrite E1, E2, AddFinalizer_has. split.
    { intros [Hn Hf]. by rewrite Hf, bool_decide_false in Ec. }
    subst m1. case_bool_decide as Ei; [|by repeat split]. repeat split; [done|by rewrite Ei].
  - apply orb_false_iff in Ec as [Ei Ef]. apply bool_decide_eq_false in Ei. apply negb_false_iff in Ef.
    destruct (gm_Kind m ==? "BareMetal"); [by apply fol_reconcileBareMetal|by apply fol_reconcile_vm].
Qed.
Lemma fol_kube {A} (f : nat → kube A) missing (next : A → P Result) : (∀ a, fol (fun _ => True) (next a) (fun _ _ => True)) →
  fol (fun _ => True) (kube_get f missing next) (fun _ _ => True).
Proof. intros Hn. eapply abides_bind; [apply fol_pstep|]. intros k. destruct (f k); [apply Hn|apply fol_stop..]. Qed.
Lemma fol_connected ci : fol (fun _ => True) (connected env ci) (fun _ _ => True).
Proof. apply abides_silent. intros st. split; [done|by eexists]. Qed.

Lemma fol_read : fol (fun _ => True) (reconcile_read yaml Seal env m) (fun _ _ => True).
Proof.
  unfold reconcile_read. cbv zeta. case_bool_decide; [apply fol_stop|]. apply fol_kube. intros cl. apply fol_kube. intros cluster.
  destruct (clusterPaused cluster || _); [apply fol_stop|]. destruct ((cc_InfraKind cluster !=? _) || _); [by apply fol_wait|].
  apply fol_kube. intros ci. destruct (paused (gc_Annotations ci)); [apply fol_stop|]. eapply abides_bind; [apply fol_connected|].
  intros [e|]; [by apply fol_wait|]. destruct (gm_Deleting m) eqn:Hd; [by apply fol_remove|by apply fol_live].
Qed.

End protocol.

Lemma kube_get_found {A} (f : nat → kube A) missing (next : A → Hd unit call Result Result) (st : HState unit call) a : f (hst_tick st) = KFound a →
  kube_get f missing next st = next a (mkHState (S (hst_tick st)) (hst_store st) (hst_log st)).
Proof. intros Hf. unfold kube_get, pstep, mbind, Hd_bind. cbn. by rewrite Hf. Qed.

Lemma calls_justified yaml Seal (env : ProviderEnv) (m : GomiMachine) (st : HState unit call) :
  hst_log st = [] → p_infra env (hst_tick st) = KFound m → each (allowed yaml Seal m) (hst_log (Reconcile yaml Seal env st).1).
Proof.
  intros Hl Hm. unfold Reconcile. rewrite (kube_get_found _ _ _ _ _ Hm). destruct (paused (gm_Annotations m)) eqn:Hp; [cbn; rewrite Hl; apply each_nil|].
  apply fol_read; [done..|]. cbn. rewrite Hl. apply each_nil.
Qed.

(** C10: a reconciliation of the Cluster API provider is justified call by call, whatever
    the two servers answer.  Of a machine that was read it touches only the objects
    that bear the machine's stored identity, and not while the machine is paused.
    It creates a virtual machine or acquires a host only for a machine that lives, has
    never had a provider's identity, and whose object GOMI has just reported absent; the
    virtual machine refers to a template of the machine that holds validated bootstrap
    data.  It seals a validated bootstrap for a host that was read as claimed by the
    machine.  It deletes a virtual machine, a template or a claim only after it has read
    that the machine owns it, and a template only after what used it is reported absent;
    the finalizer is given up only then.  The identity, and a status that says
    ready, are written only after GOMI reported a completed installation of what the
    machine owns. *)
Theorem provider_calls_justified yaml Seal (env : ProviderEnv) (m : GomiMachine) (st : HState unit call) :
  hst_log st = [] → p_infra env (hst_tick st) = KFound m → each (allowed yaml Seal m) (hst_log (Reconcile yaml Seal env st).1).
Proof. apply calls_justified. Qed.

(** ** Node preparation *)

Lemma split_join_nul (l : list string) : l ≠ [] → Forall (fun a => NUL ∉ to_bytes a) l → split_bytes NUL (to_bytes (Join l nul)) = to_bytes <$> l.
Proof.
  intros Hl Ha. induction Ha as [|a [|b l] Ha Hb IH]; [done|cbn; by apply split_bytes_single|].
  change (Join (a :: b :: l) nul) with (a +:+ (nul +:+ Join (b :: l) nul)). rewrite !to_bytes_app. change (to_bytes nul) with [NUL].
  cbn [app]. rewrite split_bytes_app, IH by done. done.
Qed.
Lemma join_nul_inj (l k : list string) : l ≠ [] → k ≠ [] → Forall (fun a => NUL ∉ to_bytes a) l → Forall (fun a => NUL ∉ to_bytes a) k → Join l nul = Join k nul → l = k.
Proof.
  intros Hl Hk Fl Fk E. apply (f_equal (fun s => split_bytes NUL (to_bytes s))) in E. rewrite !split_join_nul in E by done.
  exact (inj (fmap to_bytes) _ _ E).
Qed.

Lemma allowed_plain : Forall (fun k => k ≠ [] ∧ Forall (fun a => NUL ∉ to_bytes a) k) allowedNodePreparationCommands.
Proof. apply (bool_decide_unpack _). by vm_compute. Qed.

Lemma argv_of_inv i j items argv : argv_of i j items = Ok argv → items = YString <$> argv ∧ Forall (fun a => a ≠ "") argv.
Proof.
  revert j argv. induction items as [|[a| |] items IH]; intros j argv; cbn [argv_of]; [by intros [= <-]| |done..].
  case_bool_decide; [done|]. destruct (argv_of i (j + 1) items) as [l|] eqn:E; [|done]. intros [= <-]. destruct (IH _ _ E) as [-> Hl]. split; [done|by constructor].
Qed.
(** A command is one of the five: as a list when no argument has a NUL byte. *)
Definition listed (raw : yval) : Prop :=
  ∃ argv, raw = YList (YString <$> argv) ∧ argv ≠ [] ∧ Forall (fun a => a ≠ "") argv ∧ (Forall (fun a => NUL ∉ to_bytes a) argv → argv ∈ allowedNodePreparationCommands).
Lemma command_listed i raw : command_ok i raw = Ok tt → listed raw.
Proof.
  unfold command_ok. destruct raw as [s|[|x items]|]; try done. destruct (argv_of i 0 (x :: items)) as [argv|] eqn:E; cbn [mbind result_bind]; [|intros [=]].
  destruct (argv_of_inv _ _ _ _ E) as [Ei Ha]. case_bool_decide as Hin; [|done]. intros _. exists argv. rewrite Ei.
  assert (argv ≠ []) as Hne by (intros ->; discriminate). split; [done|]. split; [done|]. split; [done|]. intros Hnul.
  apply list_elem_of_fmap in Hin as (k & Hk & Hin). enough (argv = k) as -> by done.
  pose proof allowed_plain as Hp. rewrite Forall_forall in Hp. destruct (Hp k Hin). by apply join_nul_inj.
Qed.
Lemma commands_listed l i : commands_ok i l = Ok tt → Forall listed l.
Proof.
  revert i. induction l as [|raw l IH]; intros i; cbn [commands_ok]; [constructor|]. destruct (command_ok i raw) as [[]|] eqn:E; [|done].
  intros Hl. constructor; [by eapply command_listed|by eapply IH].
Qed.

(** The configuration a machine's ConfigMap may add is declarative.  What is
    accepted is a cloud-config mapping without [runcmd]; if it has [bootcmd], that is a
    non-empty list of argument lists of non-empty strings, and each of them whose
    arguments have no NUL byte is one of the five commands that load the kernel
    modules and set the kernel parameters of a Kubernetes node.  No shell is named. *)
Lemma node_preparation_only yaml (data : string) : validateDeclarativeCloudInit yaml data = Ok tt →
  ∃ config, yaml (without_jinja data) = Ok (Some config) ∧ config !! "runcmd" = None
    ∧ ∀ v, config !! "bootcmd" = Some v → ∃ cmds, v = YList cmds ∧ cmds ≠ [] ∧ Forall listed cmds.
Proof.
  unfold validateDeclarativeCloudInit. destruct (validateBootstrap yaml data "cloud-config"); [|done]. destruct (yaml (without_jinja data)) as [[config|]|]; [|done..].
  case_bool_decide as Er; [done|]. apply eq_None_not_Some in Er. intros H. exists config. split; [done|]. split; [done|]. intros v Hv. rewrite Hv in H.
  destruct v as [s|[|c cmds]|]; try done. change (validateNodePreparationCommands _) with (commands_ok 0 (c :: cmds)) in H. destruct (commands_ok 0 (c :: cmds)) as [[]|] eqn:E; [|done].
  exists (c :: cmds). split; [done|]. split; [done|]. by eapply commands_listed.
Qed.

(** Arguments are joined with NUL bytes before they are compared, so that an argument
    may hold one. *)
Lemma nul_argument_accepted : command_ok 0 (YList [YString ("modprobe" +:+ nul +:+ "overlay")]) = Ok tt.
Proof. by vm_compute. Qed.

(** ** What is sent is accepted *)

Section delivery.
Context (pemDecode : string → option (string * bytes * string)) (parsePKIX : bytes → result (option Z)).
Context (random : nat → nat → result bytes) (newCipher : bytes → option error) (gcm_Seal : bytes → bytes → bytes → bytes → bytes)
        (EncryptOAEP : bytes → bytes → bytes → result bytes) (marshal : Envelope → bytes) (decodeEnvelope : bytes → option (Envelope * bool)).
Context (yaml : string → result (option (gmap string yval))).
Definition seal_data (pem host owner data : string) : result bytes :=
  SealedSeed.Seal pemDecode parsePKIX random newCipher gcm_Seal EncryptOAEP marshal pem host owner (to_bytes data).

End delivery.

(** ** A reconciliation of a claimed host *)

Definition demo_yaml (s : string) : result (option (gmap string yval)) :=
  Ok (Some {[ "bootcmd" := YList [YList [YString "modprobe"; YString "overlay"]; YList [YString "sysctl"; YString "-w"; YString "net.ipv4.ip_forward=1"]] ]}).
Definition demo_cloud : string := "#cloud-config" +:+ newline +:+ "{}".
Definition demo_machine : GomiMachine :=
  mkGomiMachine "1" ∅ [mkOwnerReference "Machine" "cluster.x-k8s.io/v1beta2" "m"] false [finalizer] "BareMetal" None (Some (mkBareMetalSpec "pool" "ubuntu" None)) "capi-1"
    None None [] None.
Definition demo_env : ProviderEnv :=
  mkProviderEnv (fun _ => KFound demo_machine) (fun _ _ => KFound (mkClMachine ∅ "c" (Some "bootstrap"))) (fun _ _ => KFound (mkClCluster ∅ false "GomiCluster" "infrastructure.cluster.x-k8s.io" "g"))
    (fun _ _ => KFound (mkGomiCluster ∅ [] false "http://gomi" "token" "api" 6443 None None)) (fun _ _ => KFound (mkSecret demo_cloud "" "t")) (fun _ _ => KNotFound) (fun _ => None)
    (fun _ => Some (mkServerURL "http" "gomi" false "" "" "")) (fun _ _ => Got true) (fun _ _ => Not (APIError 404)) (fun _ _ => Not (APIError 404))
    (fun _ _ => Got (mkBareMetalHost "host-1" "pool" "capi-1" "Claimed" "key" "")) (fun _ => None).
Definition demo_state : HState unit call := mkHState 0 tt [].
Definition demo_seal_data : string → string → string → string → result bytes := seal_data demo_pem demo_PKIX demo_random (fun _ => None) demo_gcm demo_OAEP demo_marshal.
Definition demo_log : list call := hst_log (Reconcile demo_yaml demo_seal_data demo_env demo_state).1.
Definition is_deploy (c : call) : bool := match c with EDeploy i image ref _ => (i ==? "capi-1") && (image ==? "ubuntu") && (ref ==? "") | _ => false end.

Lemma demo_deploys : ∃ pre envelope post, demo_log = pre ++ EDeploy "capi-1" "ubuntu" "" envelope :: post.
Proof.
  assert (is_deploy <$> demo_log = [false; true; false]) as H by (vm_compute; reflexivity). destruct demo_log as [|a [|b l]]; try done.
  injection H as _ H _. destruct b as [| | | | | | | |i image ref envelope| | |]; try done. cbn in H. rewrite !andb_true_iff, !bool_decide_eq_true in H.
  destruct H as [[-> ->] ->]. by exists [a], envelope, l.
Qed.
Lemma provider_calls_justified_witness : each (allowed demo_yaml demo_seal_data demo_machine) (hst_log (Reconcile demo_yaml demo_seal_data demo_env demo_state).1).
Proof. by apply (provider_calls_justified demo_yaml demo_seal_data demo_env demo_machine demo_state). Defined.
Lemma node_preparation_example : ∃ config, demo_yaml (without_jinja demo_cloud) = Ok (Some config) ∧ config !! "runcmd" = None
    ∧ ∀ v, config !! "bootcmd" = Some v → ∃ cmds, v = YList cmds ∧ cmds ≠ [] ∧ Forall listed cmds.
Proof. apply (node_preparation_only demo_yaml demo_cloud). vm_compute. reflexivity. Defined.
