(* ===== verification/OsImageApi.v ===== *)
(** * infra/api: OS images

    osimage.go, osimage_artifact.go, osimage_response.go, over the service of OsImage.v
    and sql/osimage_store.go.  A handler's calls of the file system and its writes of
    the table are a log; what they answer is given by their number.  Other requests may
    change the table before each statement. *)
From S2P Require Import Prelude GoStrings GoPath GoCrypto GoTime Handler Resource Store OsImage ApiResource Machine PxeFiles.

(** ** path/filepath *)

Fixpoint ext_rev (acc l : bytes) : bytes :=
  match l with
  | [] => []
  | c :: l => if c ==? "/"%char then [] else if c ==? "."%char then c :: acc else ext_rev (c :: acc) l
  end.
Definition filepath_Ext (p : string) : string := of_bytes (ext_rev [] (reverse (to_bytes p))).
(** [filepath.Dir]: what precedes the last slash, cleaned. *)
Definition filepath_Dir (p : string) : string :=
  path_Clean (of_bytes (reverse (drop (length (until_slash (reverse (to_bytes p)))) (reverse (to_bytes p))))).
(** [filepath.Rel] of two paths. *)
Fixpoint strip_common (b t : list bytes) : list bytes * list bytes :=
  match b, t with x :: b', y :: t' => if x ==? y then strip_common b' t' else (b, t) | _, _ => (b, t) end.
Definition filepath_Rel (base target : string) : result string :=
  if negb (Bool.eqb (path_rooted base) (path_rooted target)) then Err (ErrNew "Rel: can't make target relative to base") else
  let '(b, t) := strip_common (path_elems base) (path_elems target) in
  if bool_decide (dotdot ∈ b) then Err (ErrNew "Rel: can't make target relative to base") else
  match replicate (length b) dotdot ++ t with [] => Ok "." | es => Ok (of_bytes (join_path es)) end.

(** ** The surroundings *)

Inductive image_event : Type :=
| IMkdir (p : string) | ICreate (p : string) | IWrite (p : string) (data : bytes) (r : option error) | IRename (src dst : string) (r : option error)
| IRemove (p : string) | ISymlink (src dst : string) | IFetch (url : string) | IRead (img : OSImage) | IUpsert (img : OSImage) | IDelete (name : string) | ISend (p : string)
| IAudit (name action : string).

Abbreviation image_table := (gmap string OSImage).
(** What [lstat] says: a directory, a regular file with its size, or another file. *)
Inductive file_kind : Type := IsDirectory | IsRegular (size : Z) | IsOther.
Record image_url := mkImageURL { iu_Scheme : string; iu_Host : string; iu_Path : string }.
Record ImageEnv := mkImageEnv {
  ie_others : nat → image_table → image_table; ie_fault : nat → option error; ie_clock : nat → Time; ie_call : nat → option error;
  ie_stat : nat → string → result file_kind; ie_lstat : nat → string → option file_kind; ie_data : nat → bytes * option error; ie_fetch : nat → string → result Z;
  ie_url : string → option image_url; ie_abs : nat → string → result string; ie_temp : nat → string }.
Record ImageServer := mkImageServer { im_storageDir : string; im_filesDir : string }.

Record OSImageResponse := mkOSImageResponse {
  ir_Name : string; ir_OSImageID : string; ir_OSFamily : string; ir_OSVersion : string; ir_Arch : string; ir_Format : ImageFormat; ir_Source : SourceType; ir_Variant : Variant;
  ir_URL : string; ir_Checksum : string; ir_SizeBytes : Z; ir_Description : string; ir_Manifest : option Manifest; ir_Ready : bool; ir_Error : string;
  ir_CreatedAt : Time; ir_UpdatedAt : Time }.
Definition osImageResponse (img : OSImage) : OSImageResponse :=
  mkOSImageResponse (resourceName "osImages" (oi_Name img)) (oi_Name img) (oi_OSFamily img) (oi_OSVersion img) (oi_Arch img) (oi_Format img) (oi_Source img) (oi_Variant img)
    (oi_URL img) (oi_Checksum img) (oi_SizeBytes img) (oi_Description img) (oi_Manifest img) (oi_Ready img) (oi_Error img) (oi_CreatedAt img) (oi_UpdatedAt img).
Definition osImageResponses (l : list OSImage) : list OSImageResponse := osImageResponse <$> l.

Inductive image_body : Type :=
| JError (msg : string) | JImage (i : OSImageResponse) | JList (l : list OSImageResponse) (nextPageToken : string) (totalSize : Z) | JFile (p : string) | JNone.
Record ImageReply := mkImageReply { ia_Status : Z; ia_Body : image_body }.
Definition image_error (status : Z) (e : error) : ImageReply := mkImageReply status (JError (Error e)).
Definition image_says (status : Z) (msg : string) : ImageReply := mkImageReply status (JError msg).
Definition image_missing (e : error) : ImageReply := if e ==? ErrNotFound then image_says 404 "not found" else image_error 500 e.

(** ** Paths *)

(** [Ok None] when the manifest names no root. *)
Definition manifestRootPath (img : OSImage) : result (option string) :=
  match oi_Manifest img with
  | None => Ok None
  | Some mf =>
      let raw := TrimSpace (ra_Path (mf_Root mf)) in
      if raw ==? "" then Ok None else
      let clean := path_Clean raw in
      if Contains raw (of_bytes [byte_of 92]) || path_rooted raw || (clean ==? ".") || (clean ==? "..") || HasPrefix clean "../"
      then Err (ErrNew ("invalid manifest root path: " +:+ raw)) else Ok (Some clean)
  end.
Definition storage_dir (srv : ImageServer) : string := if im_storageDir srv ==? "" then "data/images" else im_storageDir srv.
(** The path of the image and of the file that is written. *)
Definition imageWritePaths (srv : ImageServer) (img : OSImage) (ext : string) : result (string * string) :=
  rel ← manifestRootPath img;
  match rel with
  | Some rel => let local := filepath_Join (storage_dir srv) (oi_Name img) in Ok (local, filepath_Join local rel)
  | None => let local := filepath_Join (storage_dir srv) (oi_Name img +:+ ext) in Ok (local, local)
  end.
Definition imageExtension (rawPath : string) : string :=
  let ext := ToLower (filepath_Ext rawPath) in if bool_decide (ext ∈ [".qcow2"; ".img"]) then ext else ".qcow2".
Definition normalizeSHA256 (value : string) : string := TrimSpace (TrimPrefix (TrimSpace value) "sha256:").

(** ** Lists *)

Record image_filters := mkImageFilters { if_osFamily : string; if_format : string; if_variant : string; if_ready : string }.
Definition FormatBool (b : bool) : string := if b then "true" else "false".
Definition filterOSImages (f : image_filters) (items : list OSImage) : list OSImage :=
  let family := stringFilter (if_osFamily f) in
  let format := stringFilter (if_format f) in
  let variant := stringFilter (if_variant f) in
  let ready := stringFilter (if_ready f) in
  if (family ==? "") && (format ==? "") && (variant ==? "") && (ready ==? "") then items else
  List.filter (fun i => matchFilter (oi_OSFamily i) family && matchFilter (oi_Format i) format && matchFilter (oi_Variant i) variant
                        && ((ready ==? "") || matchFilter (FormatBool (oi_Ready i)) ready)) items.

(** What a new record gets that the request left open. *)
Definition create_defaults (now : Time) (img : OSImage) : OSImage :=
  let img := img <| oi_CreatedAt := now |> <| oi_UpdatedAt := now |> in
  let img := if oi_Format img ==? "" then img <| oi_Format := FormatQCOW2 |> else img in
  if oi_Source img ==? "" then img <| oi_Source := SourceUpload |> else img.
(** The status is the server's, never the request's. *)
Definition request_image (img : OSImage) : OSImage :=
  img <| oi_Name := resourceID "osImages" (oi_Name img) |> <| oi_Ready := false |> <| oi_LocalPath := "" |> <| oi_Error := "" |>.

(** ** Calls *)

Section api.
Context (env : ImageEnv) (srv : ImageServer).
Local Abbreviation H := (Hd image_table image_event ImageReply).

Definition istep : H nat := k ← tick; _ ← op (ie_others env) (fun m => (m, tt)); mret k.
(** A call of the file system that may fail. *)
Definition fs_call (c : image_event) : H (option error) := k ← istep; _ ← emit c; mret (ie_call env k).
Definition rename (src dst : string) : H (option error) := k ← istep; _ ← emit (IRename src dst (ie_call env k)); mret (ie_call env k).
(** [io.Copy] into an open file: what arrived, and whether it broke off. *)
Definition copy_into (p : string) : H (bytes * option error) :=
  k ← istep; let '(data, e) := ie_data env k in _ ← emit (IWrite p data e); mret (data, e).
Definition stat (p : string) : H (result file_kind) := k ← istep; mret (ie_stat env k p).
Definition lstat (p : string) : H (option file_kind) := k ← istep; mret (ie_lstat env k p).
Definition abs_path (p : string) : H (result string) := k ← istep; mret (ie_abs env k p).

Definition image_Get (name : string) : H (result OSImage) :=
  k ← tick;
  r ← op (ie_others env) (fun m => (m, match ie_fault env k with Some e => Err e | None => mem_get m name end));
  _ ← match r with Ok img => emit (IRead img) | Err _ => mret tt end;
  mret r.
(** The row keeps its date of creation. *)
Definition image_put (m : image_table) (img : OSImage) : image_table :=
  <[oi_Name img := match m !! oi_Name img with Some old => img <| oi_CreatedAt := oi_CreatedAt old |> | None => img end]> m.
Definition image_Upsert (img : OSImage) : H (option error) :=
  k ← tick;
  match ie_fault env k with
  | Some e => _ ← istep; mret (Some e)
  | None => _ ← op (ie_others env) (fun m => (image_put m img, tt)); _ ← emit (IUpsert img); mret None
  end.
Definition image_Delete (name : string) : H (result unit) :=
  k ← tick;
  match ie_fault env k with
  | Some e => _ ← istep; mret (Err e)
  | None => r ← op (ie_others env) (fun m => match mem_delete m name with Ok m' => (m', Ok tt) | Err e => (m, Err e) end);
            _ ← (if r ==? Ok tt then emit (IDelete name) else mret tt); mret r
  end.

(** ** osimage/service.go *)

Definition service_Create (img : OSImage) : H (result OSImage) :=
  k ← tick;
  let img := create_defaults (ie_clock env k) img in
  match ValidateOSImage img with
  | Err e => mret (Err e)
  | Ok _ => e ← image_Upsert img; mret match e with Some e => Err e | None => Ok img end
  end.
Definition service_UpdateStatus (name : string) (ready : bool) (localPath errMsg : string) : H (result OSImage) :=
  img ← image_Get name;
  match img with
  | Err e => mret (Err e)
  | Ok img =>
      k ← tick;
      let img := img <| oi_Ready := ready |> <| oi_LocalPath := localPath |> <| oi_Error := errMsg |> <| oi_UpdatedAt := ie_clock env k |> in
      e ← image_Upsert img; mret match e with Some e => Err e | None => Ok img end
  end.

(** ** Files *)

(** osimage/windows.go: each artifact is there and not empty. *)
Fixpoint artifacts_there (directory : string) (rels : list string) : H (option error) :=
  match rels with
  | [] => mret None
  | rel :: rels =>
      st ← lstat (filepath_Join directory rel);
      match st with
      | Some (IsRegular size) => if size =? 0 then mret (Some (ErrNew ("Windows artifact is missing or not a nonempty regular file: " +:+ rel))) else artifacts_there directory rels
      | _ => mret (Some (ErrNew ("Windows artifact is missing or not a nonempty regular file: " +:+ rel)))
      end
  end.
Definition has_windows (img : OSImage) : bool := match oi_Manifest img with Some mf => bool_decide (is_Some (mf_Windows mf)) | None => false end.
Definition artifacts_ready (img : OSImage) (directory : string) : H (option error) :=
  if has_windows img then artifacts_there directory (WindowsArtifacts (oi_Manifest img)) else mret None.
Definition windowsImageReady (img : OSImage) (localPath : string) : H bool := e ← artifacts_ready img localPath; mret (e ==? None).

Definition publishOSImageFile (localPath : string) : H (option error) :=
  if TrimSpace (im_filesDir srv) ==? "" then mret None else
  st ← stat localPath;
  match st with
  | Err e => mret (Some (ErrWrap "stat image file: " e ""))
  | Ok IsDirectory => mret None
  | Ok _ =>
      let imagesDir := filepath_Join (im_filesDir srv) "images" in
      e ← fs_call (IMkdir imagesDir);
      match e with
      | Some e => mret (Some (ErrWrap "create pxe image directory: " e ""))
      | None =>
          src ← abs_path localPath;
          match src with
          | Err e => mret (Some e)
          | Ok src =>
              let dst := filepath_Join imagesDir (filepath_Base localPath) in
              dstAbs ← abs_path dst;
              match dstAbs with
              | Err e => mret (Some e)
              | Ok dstAbs =>
                  if src ==? dstAbs then mret None else
                  let tmp := dst +:+ ".tmp" in
                  _ ← fs_call (IRemove tmp);
                  e ← fs_call (ISymlink src tmp);
                  match e with
                  | Some e => mret (Some (ErrWrap "publish image symlink: " e ""))
                  | None =>
                      e ← rename tmp dst;
                      _ ← fs_call (IRemove tmp);
                      mret match e with Some e => Some (ErrWrap "publish image symlink: " e "") | None => None end
                  end
              end
          end
      end
  end.

Definition writeImageFileWithChecksum (p expected : string) : H (option error) :=
  e ← fs_call (ICreate p);
  match e with
  | Some e => mret (Some (ErrWrap "create image file: " e ""))
  | None =>
      '(data, e) ← copy_into p;
      match e with
      | Some e => mret (Some (ErrWrap "write image file: " e ""))
      | None =>
          k ← istep;
          match ie_call env k with
          | Some e => mret (Some (ErrWrap "close image file: " e ""))
          | None =>
              let expected := normalizeSHA256 expected in
              let actual := hex_encode (sha256 data) in
              mret (if (expected ==? "") || EqualFold actual expected then None
                    else Some (ErrNew ("checksum mismatch: expected " +:+ expected +:+ " got " +:+ actual)))
          end
      end
  end.

(** What follows the answer of the server: the file is written beside its place, checked,
    put in place and published. *)
Definition store_download (img : OSImage) (localPath payloadPath : string) : H (result string) :=
  let tmpPath := payloadPath +:+ ".download" in
  w ← writeImageFileWithChecksum tmpPath (oi_Checksum img);
  r ← match w with
      | Some e => mret (Err e)
      | None =>
          e ← rename tmpPath payloadPath;
          match e with
          | Some e => mret (Err (ErrWrap "publish image file: " e ""))
          | None => e ← publishOSImageFile localPath; mret match e with Some e => Err e | None => Ok localPath end
          end
      end;
  _ ← fs_call (IRemove tmpPath);
  mret r.
Definition downloadURLImageFile (img : OSImage) : H (result string) :=
  let rawURL := TrimSpace (oi_URL img) in
  if rawURL ==? "" then mret (Err (ErrNew "image URL is required")) else
  match ie_url env rawURL with
  | None => mret (Err (ErrNew "invalid image URL"))
  | Some u =>
      if (iu_Scheme u ==? "") || (iu_Host u ==? "") then mret (Err (ErrNew "invalid image URL")) else
      if (iu_Scheme u !=? "http") && (iu_Scheme u !=? "https") then mret (Err (ErrNew ("unsupported image URL scheme: " +:+ iu_Scheme u))) else
      match imageWritePaths srv img (imageExtension (iu_Path u)) with
      | Err e => mret (Err e)
      | Ok (localPath, payloadPath) =>
          e ← fs_call (IMkdir (filepath_Dir payloadPath));
          match e with
          | Some e => mret (Err (ErrWrap "create image storage directory: " e ""))
          | None =>
              k ← istep;
              _ ← emit (IFetch rawURL);
              match ie_fetch env k rawURL with
              | Err e => mret (Err (ErrWrap "download image: " e ""))
              | Ok status => if status !=? 200 then mret (Err (ErrNew ("download image: status " +:+ Itoa status))) else store_download img localPath payloadPath
              end
          end
      end
  end.
Definition downloadURLImage (img : OSImage) : H OSImage :=
  let failed e := img <| oi_Ready := false |> <| oi_Error := Error e |> in
  r ← downloadURLImageFile img;
  match r with
  | Err e => u ← service_UpdateStatus (oi_Name img) false "" (Error e); mret match u with Ok img => img | Err _ => failed e end
  | Ok localPath =>
      ready ← windowsImageReady img localPath;
      u ← service_UpdateStatus (oi_Name img) ready localPath "";
      mret match u with Ok img => img | Err e => failed e end
  end.

(** ** Handlers *)

Definition CreateOSImage (body : option OSImage) : H ImageReply :=
  match body with
  | None => mret (image_says 400 "invalid body")
  | Some img =>
      created ← service_Create (request_image img);
      match created with
      | Err e => mret (image_error 400 e)
      | Ok created =>
          created ← (if oi_Source created ==? SourceURL then downloadURLImage created else mret created);
          _ ← emit (IAudit (oi_Name created) "create-os-image");
          mret (mkImageReply 201 (JImage (osImageResponse created)))
      end
  end.

Definition ListOSImages (f : image_filters) (q : Query) : H ImageReply :=
  k ← tick;
  items ← op (ie_others env) (fun m => (m, match ie_fault env k with Some e => Err e | None => mem_list m end));
  mret match items with
       | Err e => image_error 500 e
       | Ok items =>
           let items := filterOSImages f items in
           match parsePagination q (Z.of_nat (length items)) with
           | Err e => image_error 400 e
           | Ok p => mkImageReply 200 (JList (osImageResponses (paginate items p)) (pg_nextPageToken p) (pg_totalSize p))
           end
       end.
Definition GetOSImage (name : string) : H ImageReply :=
  img ← image_Get name; mret match img with Err e => image_missing e | Ok img => mkImageReply 200 (JImage (osImageResponse img)) end.

(** The upload: [None] when there is no file, else its name and whether it opens. *)
Definition store_upload (img : OSImage) (name localPath payloadPath : string) (opens : bool) : H ImageReply :=
  e ← fs_call (ICreate payloadPath);
  match e with
  | Some _ => mret (image_says 500 "failed to create file")
  | None =>
      if negb opens then mret (image_says 500 "failed to open upload") else
      '(_, e) ← copy_into payloadPath;
      match e with
      | Some _ => mret (image_says 500 "failed to save file")
      | None =>
          e ← publishOSImageFile localPath;
          match e with
          | Some _ => mret (image_says 500 "failed to publish image file")
          | None =>
              ready ← windowsImageReady img localPath;
              u ← service_UpdateStatus name ready localPath "";
              match u with
              | Err e => mret (image_error 500 e)
              | Ok u => _ ← emit (IAudit name "upload-os-image"); mret (mkImageReply 200 (JImage (osImageResponse u)))
              end
          end
      end
  end.
Definition UploadOSImage (name : string) (file : option (string * bool)) : H ImageReply :=
  img ← image_Get name;
  match img with
  | Err e => mret (image_missing e)
  | Ok img =>
      if oi_Source img !=? SourceUpload then mret (image_says 400 "image source is not 'upload'") else
      match file with
      | None => mret (image_says 400 "file is required")
      | Some (filename, opens) =>
          let ext := filepath_Ext filename in
          match imageWritePaths srv img (if ext ==? "" then ".qcow2" else ext) with
          | Err e => mret (image_error 400 e)
          | Ok (localPath, payloadPath) =>
              e ← fs_call (IMkdir (filepath_Dir payloadPath));
              match e with
              | Some _ => mret (image_says 500 "failed to create storage directory")
              | None => store_upload img name localPath payloadPath opens
              end
          end
      end
  end.

Record status_body := mkStatusBody { sb_ready : option bool; sb_localPath : string; sb_error : string }.
Definition UpdateOSImageStatus (name : string) (body : option status_body) : H ImageReply :=
  match body with
  | None => mret (image_says 400 "invalid body")
  | Some body =>
      img ← image_Get name;
      match img with
      | Err e => mret (image_missing e)
      | Ok img =>
          let ready := default (oi_Ready img) (sb_ready body) in
          let localPath := if sb_localPath body ==? "" then oi_LocalPath img else sb_localPath body in
          bad ← (if ready && has_windows img then artifacts_ready img localPath else mret None);
          match bad with
          | Some e => mret (image_error 400 e)
          | None =>
              u ← service_UpdateStatus name ready localPath (sb_error body);
              match u with
              | Err e => mret (image_error 500 e)
              | Ok u => _ ← emit (IAudit name "update-os-image-status"); mret (mkImageReply 200 (JImage (osImageResponse u)))
              end
          end
      end
  end.

Definition DownloadOSImage (name : string) : H ImageReply :=
  img ← image_Get name;
  match img with
  | Err e => mret (image_missing e)
  | Ok img =>
      if negb (oi_Ready img) || (oi_LocalPath img ==? "") then mret (image_says 404 "image not ready or no local file") else
      let gone := image_says 404 ("image file not found on disk: " +:+ oi_LocalPath img) in
      st ← stat (oi_LocalPath img);
      match st with
      | Err _ => mret gone
      | Ok kind =>
          let root := match oi_Manifest img with Some mf => TrimSpace (ra_Path (mf_Root mf)) | None => "" end in
          let localPath := match kind with IsDirectory => if root ==? "" then oi_LocalPath img else filepath_Join (oi_LocalPath img) root | _ => oi_LocalPath img end in
          st ← stat localPath;
          match st with
          | Err _ => mret gone
          | Ok _ => _ ← emit (ISend localPath); mret (mkImageReply 200 (JFile localPath))
          end
      end
  end.

Definition DeleteOSImage (name : string) : H ImageReply :=
  r ← image_Delete name;
  match r with
  | Err e => mret (image_missing e)
  | Ok _ => _ ← emit (IAudit name "delete-os-image"); mret (mkImageReply 204 JNone)
  end.

(** ** osimage_artifact.go *)

(** The directories on the way are made one by one; none may be a link. *)
Fixpoint make_directories (current : string) (parts : list string) : H (option error) :=
  match parts with
  | [] => mret None
  | part :: parts =>
      let current := filepath_Join current part in
      e ← fs_call (IMkdir current);
      match e with
      | Some e => mret (Some e)
      | None =>
          st ← lstat current;
          match st with
          | Some IsDirectory => make_directories current parts
          | _ => mret (Some (ErrNew "artifact directory must not contain symlinks"))
          end
      end
  end.
Definition ensureArtifactDirectory (root directory : string) : H (option error) :=
  match filepath_Rel root directory with
  | Err _ => mret (Some (ErrNew "invalid artifact directory"))
  | Ok relative =>
      if (relative ==? "..") || HasPrefix relative "../" then mret (Some (ErrNew "invalid artifact directory")) else
      make_directories root ("" :: if relative ==? "." then [] else Split relative "/"%char)
  end.

(** Beside its place, then in place; the name of the temporary file is the system's. *)
Definition store_artifact (img : OSImage) (directory destination : string) : H (result ImageReply) :=
  k ← istep;
  match ie_call env k with
  | Some e => mret (Err e)
  | None =>
      let tmp := filepath_Join (filepath_Dir destination) (".gomi-artifact-" +:+ ie_temp env k) in
      _ ← emit (ICreate tmp);
      '(data, e) ← copy_into tmp;
      k ← istep;
      let closeErr := ie_call env k in
      r ← match e, closeErr with
          | Some e, _ => mret (Err e)
          | None, Some e => mret (Err e)
          | None, None =>
              if data ==? [] then mret (Ok (image_says 400 "artifact cannot be empty")) else
              e ← rename tmp destination;
              match e with
              | Some e => mret (Err e)
              | None =>
                  ready ← windowsImageReady img directory;
                  u ← service_UpdateStatus (oi_Name img) ready directory "";
                  mret match u with Err e => Err e | Ok u => Ok (mkImageReply 200 (JImage (osImageResponse u))) end
              end
          end;
      _ ← fs_call (IRemove tmp);
      mret r
  end.
(** [file] as in the upload of an image; an upload that does not open is an error. *)
Definition UploadOSImageArtifact (name rel : string) (file : option (option error)) : H (result ImageReply) :=
  let bad msg := mret (Ok (image_says 400 msg)) in
  img ← image_Get name;
  match img with
  | Err _ => mret (Ok (image_says 404 "OS image not found"))
  | Ok img =>
      if negb (has_windows img) || (oi_Source img !=? SourceUpload) then bad "artifact upload requires an uploaded Windows WIM image" else
      if negb (bool_decide (rel ∈ tail (WindowsArtifacts (oi_Manifest img)))) then bad "path is not a declared Windows boot artifact" else
      match imageWritePaths srv img ".wim" with
      | Err e => mret (Ok (image_error 400 e))
      | Ok (directory, _) =>
          let destination := filepath_Join directory rel in
          e ← ensureArtifactDirectory directory (filepath_Dir destination);
          match e with
          | Some e => mret (Ok (image_error 400 e))
          | None =>
              match file with
              | None => bad "file is required"
              | Some (Some e) => mret (Err e)
              | Some None => store_artifact img directory destination
              end
          end
      end
  end.
End api.
