(* ===== verification/OsImageSafe.v ===== *)
(** * infra/api: what the requests for OS images do to files

    Every file a handler of OsImageApi.v makes, writes, renames or removes is below the
    directory of images or that of published images, and an image from a URL is
    ready only after its checksum was verified. *)
From S2P Require Import Prelude GoStrings GoNet GoPath GoCrypto GoTime Handler Resource Store OsImage ApiResource Machine PxeFiles OsImageApi.

(** ** Cleaned paths *)

(** The elements of a cleaned path. *)
Definition canon (r : bool) (l : list bytes) : Prop := ∃ k es, l = replicate k dotdot ++ es ∧ Forall entry es ∧ (r = true → k = 0%nat).

Lemma canon_elems s : canon (path_rooted s) (path_elems s).
Proof. apply path_elems_ok. Qed.
Lemma canon_app r l es : canon r l → Forall entry es → canon r (l ++ es).
Proof. intros (k & es0 & -> & H0 & Hk) Hes. exists k, (es0 ++ es). rewrite app_assoc. split; [done|]. split; [by apply Forall_app|done]. Qed.
Lemma canon_slash r l : canon r l → Forall (fun e => "/"%char ∉ e) l.
Proof.
  intros (k & es & -> & Hes & _). apply Forall_app. split; [apply Forall_replicate; unfold dotdot; set_solver|]. eapply Forall_impl; [exact Hes|]. by intros e [].
Qed.
Lemma canon_ne r l : canon r l → Forall (fun e => e ≠ []) l.
Proof. intros (k & es & -> & Hes & _). apply Forall_app. split; [by apply Forall_replicate|]. eapply Forall_impl; [exact Hes|]. by intros e [(? & _) _]. Qed.

Lemma clean_dots k stack : (∀ t rest, stack = t :: rest → t = dotdot) → fold_left (clean_step false) (replicate k dotdot) stack = replicate k dotdot ++ stack.
Proof.
  revert stack. induction k as [|k IH]; intros stack Hs; [done|]. cbn [replicate fold_left]. unfold clean_step at 2.
  change (bool_decide (dotdot = [])) with false. change (bool_decide (dotdot = dot)) with false. change (bool_decide (dotdot = dotdot)) with true. cbn [orb].
  assert ((match stack with top :: rest => if top ==? dotdot then dotdot :: stack else rest | [] => [dotdot] end) = dotdot :: stack) as ->.
  { destruct stack as [|t rest]; [done|]. by rewrite (Hs t rest), bool_decide_true. }
  rewrite IH by (by intros ? ? [= <- <-]). by rewrite (replicate_cons_app k dotdot), <- app_assoc.
Qed.
Lemma clean_canon r l : canon r l → fold_left (clean_step r) l [] = reverse l.
Proof.
  intros (k & es & -> & Hes & Hk). rewrite fold_left_app, reverse_app, reverse_replicate. destruct r; [rewrite (Hk eq_refl)|rewrite clean_dots, app_nil_r by done];
    by rewrite clean_entries.
Qed.
Lemma join_path_ne l : l ≠ [] → Forall (fun e => e ≠ []) l → join_path l ≠ [].
Proof. intros Hl Hne. destruct Hne as [|e l He _]; [done|]. by destruct e, l. Qed.
Lemma to_bytes_render r l : canon r l → (l ≠ [] ∨ r = true) → to_bytes (render r l) = (if r then "/"%char :: join_path l else join_path l).
Proof.
  intros Hc Hl. unfold render. rewrite bool_decide_false; [by rewrite to_of_bytes|]. destruct r; [done|]. destruct Hl as [Hl|]; [|done].
  apply join_path_ne; [done|by eapply canon_ne].
Qed.
Lemma rooted_render r l : canon r l → path_rooted (render r l) = r.
Proof.
  intros Hc. destruct (decide (l = [] ∧ r = false)) as [[-> ->]|Hn]; [done|]. unfold path_rooted. rewrite to_bytes_render by (try done; destruct l, r; auto; naive_solver).
  destruct r; [done|]. destruct l as [|e l]; [naive_solver|]. pose proof (canon_slash _ _ Hc) as Hs. pose proof (canon_ne _ _ Hc) as Hne.
  inversion Hs as [|? ? He]; inversion Hne; subst. destruct e as [|c e]; [done|]. destruct l; cbn; apply bool_decide_eq_false; set_solver.
Qed.
Lemma elems_render r l : canon r l → path_elems (render r l) = l.
Proof.
  intros Hc. unfold path_elems. rewrite rooted_render by done. destruct (decide (l = [] ∧ r = false)) as [[-> ->]|Hn]; [done|].
  rewrite to_bytes_render by (try done; destruct l, r; auto; naive_solver).
  assert (fold_left (clean_step r) (split_path (if r then "/"%char :: join_path l else join_path l)) [] = reverse l) as ->; [|apply reverse_involutive].
  rewrite <- (clean_canon r l Hc). pose proof (canon_slash _ _ Hc) as Hs. destruct l as [|e l]; [by destruct r|]. destruct r; [|by rewrite split_join].
  unfold split_path. change ("/"%char :: join_path (e :: l)) with ([] ++ "/"%char :: join_path (e :: l)). rewrite split_bytes_app_sep.
  fold (split_path (join_path (e :: l))). by rewrite split_join.
Qed.

(** [p] is [root] followed by the entries [es]. *)
Definition at_path (root : string) (es : list bytes) (p : string) : Prop := Forall entry es ∧ p = render (path_rooted root) (path_elems root ++ es).

Lemma at_inside root es p : at_path root es p → inside root p.
Proof. intros [Hes ->]. by exists es. Qed.
Lemma join_at root es p : root ≠ "" → below p es → at_path root es (filepath_Join root p).
Proof. intros Hr Hp. split; [apply Hp|by apply join_render]. Qed.
Lemma at_elems root es p : at_path root es p → path_rooted p = path_rooted root ∧ path_elems p = path_elems root ++ es ∧ p ≠ "".
Proof.
  intros [Hes ->]. assert (canon (path_rooted root) (path_elems root ++ es)) as Hc by (apply canon_app; [apply canon_elems|done]).
  split; [by apply rooted_render|]. split; [by apply elems_render|]. unfold render. case_bool_decide as E; [done|]. intros E'. apply E. apply (f_equal to_bytes) in E'. by rewrite to_of_bytes in E'.
Qed.
Lemma at_trans root es p es' q : at_path root es p → at_path p es' q → at_path root (es ++ es') q.
Proof. intros Hp [Hes' ->]. destruct (at_elems _ _ _ Hp) as (-> & -> & _). split; [apply Forall_app; by destruct Hp|by rewrite app_assoc]. Qed.
(** A name is one entry. *)
Lemma below_name e : entry e → below (of_bytes e) [e].
Proof. intros He. split; [by constructor|]. left. by split. Qed.

Lemma join_path_snoc l e : join_path (l ++ [e]) = if l ==? [] then e else join_path l ++ "/"%char :: e.
Proof.
  induction l as [|x l IH]; [done|]. change ((x :: l) ++ [e]) with (x :: (l ++ [e])). rewrite (bool_decide_eq_false_2 (x :: l = [])) by done.
  destruct l as [|y l]; [done|]. change (join_path (x :: (y :: l) ++ [e])) with (x ++ "/"%char :: join_path ((y :: l) ++ [e])). rewrite IH, bool_decide_eq_false_2 by done.
  change (join_path (x :: y :: l)) with (x ++ "/"%char :: join_path (y :: l)). by rewrite <- app_assoc.
Qed.
(** What precedes the last element, up to its slash. *)
Definition before_last (r : bool) (l : list bytes) : bytes := (if r then ["/"%char] else []) ++ if l ==? [] then [] else join_path l ++ ["/"%char].
Lemma bytes_snoc r l e : canon r l → entry e → to_bytes (render r (l ++ [e])) = before_last r l ++ e.
Proof.
  intros Hc He. rewrite to_bytes_render; [|apply canon_app; [done|by constructor]|left; by destruct l]. unfold before_last. rewrite join_path_snoc.
  destruct r; case_bool_decide; cbn [app]; rewrite <- ?app_assoc; done.
Qed.
Lemma until_slash_app e l : "/"%char ∉ e → (l = [] ∨ ∃ l', l = "/"%char :: l') → until_slash (e ++ l) = e.
Proof.
  intros He Hl. induction e as [|c e IH]; [destruct Hl as [->|[l' ->]]; done|]. rewrite not_elem_of_cons in He. destruct He as [Hc He]. cbn.
  rewrite bool_decide_eq_false_2 by (by apply not_eq_sym). by rewrite IH.
Qed.
Lemma before_last_slash r l : reverse (before_last r l) = [] ∨ ∃ l', reverse (before_last r l) = "/"%char :: l'.
Proof.
  unfold before_last. case_bool_decide; [destruct r; [right; by exists []|by left]|]. right. rewrite app_assoc, reverse_snoc. by eexists.
Qed.
Lemma clean_before_last r l : canon r l → path_Clean (of_bytes (before_last r l)) = render r l.
Proof.
  intros Hc. rewrite path_Clean_render. destruct (decide (l = [])) as [->|Hl]; [by destruct r|].
  assert (path_rooted (of_bytes (before_last r l)) = r) as Er.
  { unfold path_rooted, before_last. rewrite to_of_bytes, (bool_decide_eq_false_2 (l = [])) by done. pose proof (rooted_render r l Hc) as E.
    unfold path_rooted in E. rewrite to_bytes_render in E by auto. destruct r; [done|]. cbn [app]. pose proof (join_path_ne l Hl (canon_ne _ _ Hc)). by destruct (join_path l). }
  rewrite Er. f_equal. unfold path_elems. rewrite Er, to_of_bytes. rewrite <- (reverse_involutive l) at 2. f_equal. rewrite <- (clean_canon r l Hc).
  unfold before_last. rewrite (bool_decide_eq_false_2 (l = [])) by done. pose proof (split_join l Hl (canon_slash _ _ Hc)) as Es. unfold split_path in *.
  assert (fold_left (clean_step r) (split_bytes "/" (join_path l ++ ["/"%char])) [] = fold_left (clean_step r) l []) as E.
  { rewrite split_bytes_app_sep, Es, fold_left_app. done. }
  destruct r; [|exact E]. change (["/"%char] ++ join_path l ++ ["/"%char]) with ([] ++ "/"%char :: (join_path l ++ ["/"%char])). rewrite split_bytes_app_sep. exact E.
Qed.

Lemma entry_reverse e : entry e → "/"%char ∉ reverse e.
Proof. intros [_ Hs]. by rewrite elem_of_reverse. Qed.
Lemma at_dir root es e p : at_path root (es ++ [e]) p → at_path root es (filepath_Dir p).
Proof.
  intros [Hes ->]. apply Forall_app in Hes as [Hes He]. inversion He; subst. split; [done|]. unfold filepath_Dir. rewrite app_assoc.
  assert (canon (path_rooted root) (path_elems root ++ es)) as Hc by (apply canon_app; [apply canon_elems|done]).
  rewrite bytes_snoc, reverse_app by done. rewrite until_slash_app; [|by apply entry_reverse|apply before_last_slash].
  rewrite drop_app_length, reverse_involutive. by apply clean_before_last.
Qed.
Lemma drop_slashes_id l : (∀ c l', l = c :: l' → c ≠ "/"%char) → drop_slashes l = l.
Proof. destruct l as [|c l]; [done|]. intros Hc. cbn. by rewrite bool_decide_eq_false_2 by (by eapply Hc). Qed.
Lemma at_base root es e p : at_path root (es ++ [e]) p → filepath_Base p = of_bytes e.
Proof.
  intros [Hes ->]. apply Forall_app in Hes as [Hes He]. inversion He as [|? ? Hent _]; subst. unfold filepath_Base. rewrite app_assoc.
  assert (canon (path_rooted root) (path_elems root ++ es)) as Hc by (apply canon_app; [apply canon_elems|done]).
  rewrite bytes_snoc by done. destruct Hent as ((Hne & _ & _) & Hs). destruct (before_last _ _ ++ e) as [|c l] eqn:E; [by apply app_eq_nil in E as [_ ->]|].
  rewrite <- E, reverse_app, drop_slashes_id.
  - rewrite until_slash_app; [|by rewrite elem_of_reverse|apply before_last_slash]. destruct (reverse e) as [|x l'] eqn:Er; [by rewrite <- (reverse_involutive e), Er in Hne|].
    by rewrite <- Er, reverse_involutive.
  - intros x l'. destruct (reverse e) as [|y r] eqn:Er; [by rewrite <- (reverse_involutive e), Er in Hne|]. intros [= <- _] ->. apply Hs. rewrite <- elem_of_reverse, Er. by left.
Qed.
(** A suffix on the last entry. *)
Lemma at_suffix root es e p s : at_path root (es ++ [e]) p → entry (e ++ to_bytes s) → at_path root (es ++ [e ++ to_bytes s]) (p +:+ s).
Proof.
  intros [Hes ->] He'. apply Forall_app in Hes as [Hes He]. inversion He; subst. split; [apply Forall_app; split; [done|by constructor]|].
  assert (canon (path_rooted root) (path_elems root ++ es)) as Hc by (apply canon_app; [apply canon_elems|done]).
  apply (inj to_bytes). rewrite to_bytes_app, !app_assoc, !bytes_snoc by done. by rewrite app_assoc.
Qed.

(** ** Where files are written *)

Section files.
Context (env : ImageEnv) (srv : ImageServer).
Local Abbreviation H := (Hd image_table image_event ImageReply).

Definition published_dir : string := filepath_Join (im_filesDir srv) "images".
Definition within (p : string) : Prop := inside (storage_dir srv) p ∨ inside published_dir p.
Definition seen (l : list image_event) (img : OSImage) : Prop := IRead img ∈ l ∨ IUpsert img ∈ l.
(** Images are named by one path element, and were validated. *)
Definition well_named (img : OSImage) : Prop := entry (to_bytes (oi_Name img)) ∧ validateWindowsImage img = Ok tt.
Definition confined (c : image_event) : Prop :=
  match c with
  | IMkdir p | ICreate p | IWrite p _ _ | IRemove p | ISymlink _ p => within p
  | IRename p q _ => within p ∧ within q
  | _ => True
  end.
Definition good (l : list image_event) : Prop := ∀ img, seen l img → well_named img.
(** What may follow a log: [U] says which records may be written. *)
Definition allowed_io (U : list image_event → OSImage → Prop) (l : list image_event) (c : image_event) : Prop :=
  match c with IUpsert img => U l img | _ => good l → confined c end.

(** *** The calls, under any protocol *)

Section rules.
Context (T : list image_event → image_event → Prop) (Q : list image_event → Prop) (HQ : lasting Q).
Ltac silent := apply abides_silent; intros st; split; [reflexivity|by eexists].
Lemma ab_istep : abides T Q (istep env : H nat) (fun _ => Q).
Proof. silent. Qed.
Lemma ab_tick : abides T Q (tick : H nat) (fun _ => Q).
Proof. silent. Qed.
Lemma ab_stat p : abides T Q (stat env p) (fun _ => Q).
Proof. silent. Qed.
Lemma ab_lstat p : abides T Q (lstat env p) (fun _ => Q).
Proof. silent. Qed.
Lemma ab_abs p : abides T Q (abs_path env p) (fun _ => Q).
Proof. silent. Qed.
Lemma ab_emit c : (∀ l, Q l → T l c) → abides T Q (emit c : H unit) (fun _ l => Q l ∧ c ∈ l).
Proof. intros HT. apply (abides_logged _ _ (fun _ => c)); [intros st; by eexists|done|]. intros l _. apply HT. Qed.
Lemma ab_call c : (∀ l, Q l → T l c) → abides T Q (fs_call env c) (fun _ => Q).
Proof.
  intros HT. eapply abides_impl; [apply (abides_logged _ _ (fun _ => c)); [intros st; eexists; by split|exact HQ|intros l _; apply HT]|done|by intros ? ? []].
Qed.
Lemma ab_rename p q : (∀ l r, Q l → T l (IRename p q r)) → abides T Q (rename env p q) (fun r l => Q l ∧ IRename p q r ∈ l).
Proof. intros HT. apply abides_logged; [intros st; eexists; by split|done|exact HT]. Qed.
Lemma ab_copy p : (∀ l data r, Q l → T l (IWrite p data r)) → abides T Q (copy_into env p) (fun x l => Q l ∧ IWrite p x.1 x.2 ∈ l).
Proof.
  intros HT. apply (abides_logged _ _ (fun x => IWrite p x.1 x.2)); [|done|intros l a; apply HT]. intros st. unfold copy_into, istep, mbind, Hd_bind. cbn.
  destruct (ie_data env (hst_tick st)) as [data e]. by exists (data, e).
Qed.
Lemma ab_get name : (∀ l img, Q l → T l (IRead img)) → abides T Q (image_Get env name) (fun r l => Q l ∧ match r with Ok img => IRead img ∈ l | Err _ => True end).
Proof.
  intros HT. unfold image_Get. eapply abides_bind; [apply ab_tick|]. intros k.
  eapply abides_bind; [apply abides_silent; intros st; split; [reflexivity|by eexists]|]. intros [img|e].
  - eapply abides_bind; [apply ab_emit; intros l Hl; by apply HT|]. intros ?. by apply abides_ret.
  - eapply abides_bind; [apply (abides_ret _ _ tt (fun _ => Q)); done|]. intros ?. apply abides_ret. by split.
Qed.
Lemma ab_upsert img : (∀ l, Q l → T l (IUpsert img)) → abides T Q (image_Upsert env img) (fun r l => Q l ∧ (r = None → IUpsert img ∈ l)).
Proof.
  intros HT. unfold image_Upsert. eapply abides_bind; [apply ab_tick|]. intros k. destruct (ie_fault env k) as [e|].
  - eapply abides_bind; [apply ab_istep|]. intros ?. apply abides_ret. by split.
  - eapply abides_bind; [apply abides_silent; intros st; split; [reflexivity|by eexists]|]. intros ?.
    eapply abides_bind; [by apply ab_emit|]. intros ?. apply abides_ret. by intros l [].
Qed.
Lemma ab_artifacts dir rels : abides T Q (artifacts_there env dir rels) (fun _ => Q).
Proof.
  induction rels as [|rel rels IH]; cbn [artifacts_there]; [by apply abides_ret|]. eapply abides_bind; [apply ab_lstat|].
  intros [[|size|]|]; try (by apply abides_ret). destruct (size =? 0); [by apply abides_ret|exact IH].
Qed.
Lemma ab_ready img dir : abides T Q (artifacts_ready env img dir) (fun _ => Q).
Proof. unfold artifacts_ready. destruct (has_windows img); [apply ab_artifacts|by apply abides_ret]. Qed.
Lemma ab_windows img dir : abides T Q (windowsImageReady env img dir) (fun _ => Q).
Proof. eapply abides_bind; [apply ab_ready|]. intros e. by apply abides_ret. Qed.
Lemma ab_status name ready localPath msg : (∀ l img, Q l → T l (IRead img)) →
  (∀ l img now, Q l → T l (IUpsert (img <| oi_Ready := ready |> <| oi_LocalPath := localPath |> <| oi_Error := msg |> <| oi_UpdatedAt := now |>))) →
  abides T Q (service_UpdateStatus env name ready localPath msg) (fun _ => Q).
Proof.
  intros HR HU. eapply abides_bind; [by apply ab_get|]. intros [img|e]; [|apply abides_ret; by intros l []].
  eapply abides_bind; [apply abides_silent; intros st; split; [reflexivity|by eexists]|]. intros k. cbv zeta.
  eapply (abides_bind _ _ _ _ (fun _ => Q)); [|intros [e|]; by apply abides_ret].
  eapply abides_impl; [apply ab_upsert; intros l Hl; by apply HU|by intros l []|by intros ? ? []].
Qed.
End rules.

(** *** The paths *)

Lemma storage_ne : storage_dir srv ≠ "".
Proof. unfold storage_dir. by case_bool_decide. Qed.
Lemma entry_suffix e (t : bytes) : entry e → "/"%char ∉ t → entry (e ++ t).
Proof.
  intros ((H1 & H2 & H3) & Hs) Ht. split; [|rewrite elem_of_app; naive_solver]. split; [by destruct e|]. unfold dot, dotdot in *.
  split; intros E; destruct e as [|a [|b e]]; try done; cbn in E; injection E; clear E; intros; subst; try done. by destruct e.
Qed.
Lemma ext_rev_slash acc l : "/"%char ∉ acc → "/"%char ∉ ext_rev acc l.
Proof.
  revert acc. induction l as [|c l IH]; intros acc Ha; cbn; [apply not_elem_of_nil|]. case_bool_decide as Ec; [apply not_elem_of_nil|].
  assert ("/"%char ∉ c :: acc) as Hc by (apply not_elem_of_cons; by split; [apply not_eq_sym|]). case_bool_decide; [done|by apply IH].
Qed.
Lemma ext_slash p : "/"%char ∉ to_bytes (filepath_Ext p).
Proof. unfold filepath_Ext. rewrite to_of_bytes. apply ext_rev_slash, not_elem_of_nil. Qed.

(** The image's path is one entry of the directory of images; the file is that, or
    below it. *)
Lemma write_paths img ext localPath payloadPath : entry (to_bytes (oi_Name img)) → "/"%char ∉ to_bytes ext →
  imageWritePaths srv img ext = Ok (localPath, payloadPath) →
  ∃ e es e', at_path (storage_dir srv) [e] localPath ∧ at_path (storage_dir srv) (es ++ [e']) payloadPath.
Proof.
  intros Hn Hx. unfold imageWritePaths. destruct (manifestRootPath img) as [[rel|]|] eqn:Em; cbn; [| |done]; intros [= <- <-].
  - assert (at_path (storage_dir srv) [to_bytes (oi_Name img)] (filepath_Join (storage_dir srv) (oi_Name img))) as Hl.
    { rewrite <- (of_to_bytes (oi_Name img)) at 2. apply join_at; [apply storage_ne|by apply below_name]. }
    unfold manifestRootPath in Em. destruct (oi_Manifest img) as [mf|]; [|done]. cbv zeta in Em. case_bool_decide; [done|]. case_match eqn:Eb; [done|]. injection Em as <-.
    rewrite !orb_false_iff, !bool_decide_eq_false in Eb. destruct Eb as ((((_ & Hr) & H1) & H2) & H3).
    destruct (clean_below _ H1 H2 H3) as (es & Hes). assert (es ≠ []) as Hne.
    { intros ->. destruct Hes as [_ [[_ ?]|E]]; [done|]. pose proof (rooted_render _ _ (canon_elems (TrimSpace (ra_Path (mf_Root mf))))) as E2.
      rewrite <- path_Clean_render, E in E2. by rewrite Hr in E2. }
    destruct (exists_last Hne) as (es' & e' & ->). exists (to_bytes (oi_Name img)), ([to_bytes (oi_Name img)] ++ es'), e'. split; [done|]. rewrite <- app_assoc.
    eapply at_trans; [exact Hl|]. apply join_at; [|done]. by destruct (at_elems _ _ _ Hl) as (_ & _ & ?).
  - assert (at_path (storage_dir srv) [to_bytes (oi_Name img) ++ to_bytes ext] (filepath_Join (storage_dir srv) (oi_Name img +:+ ext))) as Hl.
    { rewrite <- (of_to_bytes (oi_Name img +:+ ext)), to_bytes_app. apply join_at; [apply storage_ne|]. apply below_name. by apply entry_suffix. }
    exists (to_bytes (oi_Name img) ++ to_bytes ext), [], (to_bytes (oi_Name img) ++ to_bytes ext). by split.
Qed.
Lemma at_within es p : at_path (storage_dir srv) es p → within p.
Proof. intros Hp. left. by eapply at_inside. Qed.
Lemma suffix_within es e p t : at_path (storage_dir srv) (es ++ [e]) p → "/"%char ∉ to_bytes t → within (p +:+ t).
Proof.
  intros Hp Ht. eapply at_within, at_suffix; [exact Hp|]. apply entry_suffix; [|done]. destruct Hp as [Hes _]. apply Forall_app in Hes as [_ He]. by inversion He.
Qed.
Lemma published_at : im_filesDir srv ≠ "" → at_path (im_filesDir srv) [to_bytes "images"] published_dir.
Proof. intros Hd. apply join_at; [done|]. apply (below_name (to_bytes "images")). split; [repeat split; done|]. by apply (bool_decide_unpack _); vm_compute. Qed.
Lemma published_self : im_filesDir srv ≠ "" → at_path published_dir [] published_dir.
Proof. intros Hd. split; [done|]. rewrite app_nil_r. destruct (at_elems _ _ _ (published_at Hd)) as (-> & -> & _). by destruct (published_at Hd). Qed.
Lemma published_file es e p t : im_filesDir srv ≠ "" → at_path (storage_dir srv) (es ++ [e]) p → "/"%char ∉ to_bytes t →
  inside published_dir (filepath_Join published_dir (filepath_Base p) +:+ t).
Proof.
  intros Hd Hp Ht. rewrite (at_base _ _ _ _ Hp). destruct Hp as [Hes _]. apply Forall_app in Hes as [_ He]. inversion He as [|? ? He' _]; subst.
  eapply (at_inside _ ([] ++ [e ++ to_bytes t])). apply at_suffix; [|by apply entry_suffix]. apply join_at; [by destruct (at_elems _ _ _ (published_at Hd)) as (_ & _ & ?)|].
  by apply below_name.
Qed.

(** *** The handlers *)

Context (U : list image_event → OSImage → Prop).
Local Abbreviation G := (allowed_io U).
Definition placed (Q : list image_event → Prop) (p : string) : Prop := ∀ l, Q l → good l → ∃ es e, at_path (storage_dir srv) (es ++ [e]) p.
Ltac any := by apply abides_ret.

Lemma append_nothing (s : string) : s +:+ "" = s.
Proof. apply (inj to_bytes). by rewrite to_bytes_app, app_nil_r. Qed.
Lemma filesDir_ne : TrimSpace (im_filesDir srv) ≠ "" → im_filesDir srv ≠ "".
Proof. intros Hd E. apply Hd. by rewrite E. Qed.
Lemma ab_publish localPath Q : lasting Q → placed Q localPath → abides G Q (publishOSImageFile env srv localPath) (fun _ => Q).
Proof.
  intros HQ Hp. unfold publishOSImageFile. case_bool_decide as Ed; [any|]. apply filesDir_ne in Ed. fold published_dir.
  set (dst := filepath_Join published_dir (filepath_Base localPath)). assert (∀ l, Q l → good l → within dst ∧ within (dst +:+ ".tmp")) as Hw.
  { intros l Hl Hg. destruct (Hp l Hl Hg) as (es & e & He). split; right; [rewrite <- (append_nothing dst); eapply published_file; [done..|apply not_elem_of_nil]|].
    eapply published_file; [done..|]. by apply (bool_decide_unpack _); vm_compute. }
  clearbody dst. eapply abides_bind; [apply ab_stat|]. intros [[|size|]|e]; try any.
  all: eapply abides_bind; [apply (ab_call _ _ HQ); intros l _ _; right; eapply at_inside, published_self, Ed|]; intros [e|]; [any|].
  all: eapply abides_bind; [apply ab_abs|]; intros [src|e]; [|any]; eapply abides_bind; [apply ab_abs|]; intros [dstAbs|e]; [|any].
  all: case_bool_decide; [any|]; eapply abides_bind; [apply (ab_call _ _ HQ); intros l Hl Hg; by apply (Hw l)|]; intros ?.
  all: eapply abides_bind; [apply (ab_call _ _ HQ); intros l Hl Hg; by apply (Hw l)|]; intros [e|]; [any|].
  all: eapply abides_bind; [apply (ab_rename _ _ HQ); intros l r Hl Hg; split; by apply (Hw l)|].
  all: intros r; eapply abides_bind; [apply ab_call; [by apply lasting_and; [|apply lasting_in]|]; intros l [Hl _] Hg; by apply (Hw l)|].
  all: intros ?; apply abides_ret; by intros l [].
Qed.

(** The data has the checksum that is expected, if one is. *)
Definition checked (expected : string) (data : bytes) : Prop := normalizeSHA256 expected = "" ∨ EqualFold (hex_encode (sha256 data)) (normalizeSHA256 expected) = true.
(** It was written beside [p], and then put there. *)
Definition stored (expected p : string) (l : list image_event) : Prop :=
  ∃ data, IWrite (p +:+ ".download") data None ∈ l ∧ IRename (p +:+ ".download") p None ∈ l ∧ checked expected data.

Lemma ab_write p expected Q : lasting Q → (∀ l, Q l → good l → within p) →
  abides G Q (writeImageFileWithChecksum env p expected) (fun r l => Q l ∧ (r = None → ∃ data, IWrite p data None ∈ l ∧ checked expected data)).
Proof.
  intros HQ Hp. eapply abides_bind; [by apply (ab_call _ _ HQ)|]. intros [e|]; [apply abides_ret; by split|].
  eapply abides_bind; [apply (ab_copy _ _ HQ); intros l data r HQl Hg; exact (Hp l HQl Hg)|]. intros [data [e|]]; [apply abides_ret; by intros l []|].
  eapply abides_bind; [apply ab_istep|]. intros k. destruct (ie_call env k); apply abides_ret; intros l [Hl Hw]; (split; [done|]); [done|].
  case_match eqn:Ec; [|done]. intros _. exists data. split; [done|]. apply orb_true_iff in Ec as [Ec|Ec]; [left; by apply bool_decide_eq_true in Ec|by right].
Qed.
Lemma ab_store_download img localPath payloadPath Q : lasting Q → placed Q localPath → placed Q payloadPath →
  abides G Q (store_download env srv img localPath payloadPath) (fun r l => Q l ∧ ∀ p, r = Ok p → p = localPath ∧ stored (oi_Checksum img) payloadPath l).
Proof.
  intros HQ Hl Hp. unfold store_download. set (tmp := payloadPath +:+ ".download"). assert (∀ l, Q l → good l → within payloadPath ∧ within tmp) as Hw.
  { intros l HQl Hg. destruct (Hp l HQl Hg) as (es & e & He). split; [by eapply at_within|]. eapply suffix_within; [done|]. by apply (bool_decide_unpack _); vm_compute. }
  eapply abides_bind; [apply ab_write; [done|]; intros l HQl Hg; by apply (Hw l)|]. intros w.
  set (Q' := fun (r : result string) l => Q l ∧ ∀ p, r = Ok p → p = localPath ∧ stored (oi_Checksum img) payloadPath l).
  assert (∀ r, lasting (Q' r)) as HQ'.
  { intros r. apply lasting_and; [done|]. intros l x Hx p E. destruct (Hx p E) as (-> & data & H1 & H2 & H3). split; [done|]. exists data. split_and!; [by apply lasting_in..|done]. }
  apply (abides_bind _ _ _ _ Q').
  - destruct w as [e|]; [apply abides_ret; by intros l []|]. eapply (abides_impl _ _ (fun l => Q l ∧ ∃ data, IWrite tmp data None ∈ l ∧ checked (oi_Checksum img) data)).
    2: intros l [HQl Hd]; split; [done|by apply Hd]. 2: intros a l Ha; exact Ha.
    assert (lasting (fun l => Q l ∧ ∃ data, IWrite tmp data None ∈ l ∧ checked (oi_Checksum img) data)) as HL.
    { apply lasting_and; [done|]. intros l x (data & ? & ?). exists data. split; [by apply lasting_in|done]. }
    eapply abides_bind; [apply (ab_rename _ _ HL); intros l r [HQl _] Hg; split; by apply (Hw l)|]. intros [e|]; [apply abides_ret; by intros l [[] _]|].
    eapply abides_bind; [apply ab_publish; [by apply lasting_and; [|apply lasting_in]|]; intros l [[HQl _] _]; by apply Hl|].
    intros [e|]; apply abides_ret; intros l [[HQl (data & H1 & H2)] H3]; (split; [done|]); [done|]. intros p [= <-]. split; [done|]. by exists data.
  - intros r. eapply abides_bind; [apply (ab_call _ _ (HQ' r)); intros l [HQl _] Hg; by apply (Hw l)|]. intros ?. by apply abides_ret.
Qed.

Lemma placed_paths img ext localPath payloadPath (Q : list image_event → Prop) : (∀ l, Q l → seen l img) → "/"%char ∉ to_bytes ext →
  imageWritePaths srv img ext = Ok (localPath, payloadPath) → placed Q localPath ∧ placed Q payloadPath ∧ ∀ l, Q l → good l → within (filepath_Dir payloadPath).
Proof.
  intros Hs Hx E. assert (∀ l, Q l → good l → _) as Hp by (intros l Hl Hg; exact (write_paths _ _ _ _ (proj1 (Hg _ (Hs l Hl))) Hx E)).
  split_and!; intros l Hl Hg; destruct (Hp l Hl Hg) as (e & es & e' & H1 & H2); [by exists [], e|by exists es, e'|]. eapply at_within, at_dir, H2.
Qed.
Lemma image_ext_slash p : "/"%char ∉ to_bytes (imageExtension p).
Proof. unfold imageExtension. case_bool_decide as E; [rewrite !elem_of_cons, elem_of_nil in E; destruct E as [->|[->|[]]]|]; by apply (bool_decide_unpack _); vm_compute. Qed.

Lemma ab_download img Q : lasting Q → (∀ l, Q l → seen l img) →
  abides G Q (downloadURLImageFile env srv img)
    (fun r l => Q l ∧ ∀ p, r = Ok p → ∃ ext payloadPath, imageWritePaths srv img ext = Ok (p, payloadPath) ∧ stored (oi_Checksum img) payloadPath l).
Proof.
  intros HQ Hs. unfold downloadURLImageFile. case_bool_decide; [apply abides_ret; by split|]. destruct (ie_url env _) as [u|]; [|apply abides_ret; by split].
  do 2 (case_match; [apply abides_ret; by split|]). destruct (imageWritePaths srv img _) as [[localPath payloadPath]|e] eqn:Ew; [|apply abides_ret; by split].
  destruct (placed_paths _ _ _ _ Q Hs (image_ext_slash _) Ew) as (Hl & Hp & Hd).
  eapply abides_bind; [apply (ab_call _ _ HQ); intros l HQl Hg; exact (Hd l HQl Hg)|]. intros [e|]; [apply abides_ret; by split|].
  eapply abides_bind; [apply ab_istep|]. intros k. eapply abides_bind; [by apply (ab_emit _ _ HQ)|]. intros ?.
  destruct (ie_fetch env k _) as [status|e]; [|apply abides_ret; by intros l []]. case_match; [apply abides_ret; by intros l []|].
  eapply abides_impl; [apply (ab_store_download _ _ _ _ HQ Hl Hp)|by intros l []|]. intros r l [HQl Hr]. split; [done|]. intros p E. destruct (Hr p E) as [-> Hst]. by exists (imageExtension (iu_Path u)), payloadPath.
Qed.
End files.

(** *** An image from a URL *)

Section create.
Context (env : ImageEnv) (srv : ImageServer).

(** A record that says ready is one of an image created before from a URL; its data was
    received as a whole, has the checksum of the creation, and is in place. *)
Definition ready_verified (l : list image_event) (img : OSImage) : Prop :=
  oi_Ready img = true → ∃ created ext payloadPath, IUpsert created ∈ l ∧ oi_Source created = SourceURL
    ∧ imageWritePaths srv created ext = Ok (oi_LocalPath img, payloadPath) ∧ stored (oi_Checksum created) payloadPath l.
Local Abbreviation G := (allowed_io srv ready_verified).

Lemma ab_download_status img Q : lasting Q → (∀ l, Q l → IUpsert img ∈ l) → oi_Source img = SourceURL →
  abides G Q (downloadURLImage env srv img) (fun _ _ => True).
Proof.
  intros HQ Hs Hu. eapply abides_bind; [apply (ab_download _ _ _ _ _ HQ); intros l Hl; right; by apply Hs|]. intros [p|e].
  - set (Q' := fun l => Q l ∧ ∃ ext payloadPath, imageWritePaths srv img ext = Ok (p, payloadPath) ∧ stored (oi_Checksum img) payloadPath l).
    assert (lasting Q') as HQ'.
    { apply lasting_and; [done|]. intros l x (ext & pp & ? & data & H1 & H2 & H3). exists ext, pp. split; [done|]. exists data. split_and!; [by apply lasting_in..|done]. }
    eapply abides_impl; [|intros l [Hl Hp]; exact (conj Hl (Hp p eq_refl) : Q' l)|intros a l Ha; exact Ha].
    eapply abides_bind; [apply ab_windows|]. intros ready. eapply abides_bind; [apply (ab_status _ _ _ HQ')|intros u; by apply abides_ret].
    + done.
    + intros l img' now [Hl (ext & pp & Hw & Hst)] _. exists img, ext, pp. split; [by apply Hs|]. by split.
  - eapply abides_bind; [apply ab_status|intros u; by apply abides_ret].
    + apply lasting_and; [done|]. intros l x _ p [=].
    + done.
    + by intros l img' now _.
Qed.

Lemma ab_create_record img Q : lasting Q → oi_Ready img = false →
  abides G Q (service_Create env img) (fun r l => Q l ∧ match r with Ok created => IUpsert created ∈ l | Err _ => True end).
Proof.
  intros HQ Hr. unfold service_Create. eapply abides_bind; [apply ab_tick|]. intros k. cbv zeta. set (i := create_defaults _ img).
  assert (oi_Ready i = false) as Hi by (subst i; unfold create_defaults; by repeat case_bool_decide). clearbody i.
  destruct (ValidateOSImage i); [|apply abides_ret; by split]. eapply abides_bind; [apply (ab_upsert _ _ _ HQ); intros l _ E; by rewrite Hi in E|].
  intros [e|]; apply abides_ret; intros l [Hl Hu]; (split; [done|]); [done|by apply Hu].
Qed.

Lemma create_follows body : abides G (fun _ => True) (CreateOSImage env srv body) (fun _ _ => True).
Proof.
  unfold CreateOSImage. destruct body as [img|]; [|by apply abides_ret].
  eapply abides_bind; [by apply ab_create_record; [apply lasting_const|]|]. intros [created|e]; [|by apply abides_ret].
  eapply (abides_bind _ _ _ _ (fun _ _ => True)).
  - case_bool_decide as Es; [|by apply abides_ret]. apply ab_download_status; [apply lasting_and; [apply lasting_const|apply lasting_in]|by intros l []|done].
  - intros c. eapply abides_bind; [apply ab_emit; [apply lasting_const|done]|]. intros ?. by apply abides_ret.
Qed.
End create.

(** *** Uploads *)

Section uploads.
Context (env : ImageEnv) (srv : ImageServer).
Local Abbreviation G := (allowed_io srv (fun _ _ => True)).
Local Abbreviation S := (storage_dir srv).

Lemma upload_follows name file : abides G (fun _ => True) (UploadOSImage env srv name file) (fun _ _ => True).
Proof.
  unfold UploadOSImage. eapply abides_bind; [apply ab_get; [apply lasting_const|done]|]. intros [img|e]; [|by apply abides_ret].
  set (Q := fun l => True ∧ IRead img ∈ l). assert (lasting Q) as HQ by (apply lasting_and; [apply lasting_const|apply lasting_in]).
  destruct (oi_Source img !=? SourceUpload); [by apply abides_ret|]. destruct file as [[filename opens]|]; [|by apply abides_ret]. cbv zeta. set (ext := if _ ==? _ then _ else _).
  assert ("/"%char ∉ to_bytes ext) as Hx by (subst ext; case_bool_decide; [by apply (bool_decide_unpack _); vm_compute|apply ext_slash]). clearbody ext.
  destruct (imageWritePaths srv img ext) as [[localPath payloadPath]|e] eqn:Ew; [|by apply abides_ret].
  destruct (placed_paths srv _ _ _ _ Q (fun l Hl => or_introl (proj2 Hl)) Hx Ew) as (Hl & Hp & Hd).
  eapply abides_bind; [apply (ab_call _ _ _ HQ); intros l HQl Hg; exact (Hd l HQl Hg)|]. intros [e|]; [by apply abides_ret|]. unfold store_upload.
  assert (∀ l, Q l → good l → within srv payloadPath) as Hw by (intros l HQl Hg; destruct (Hp l HQl Hg) as (es & e & He); by eapply at_within).
  eapply abides_bind; [by apply (ab_call _ _ _ HQ)|]. intros [e|]; [by apply abides_ret|]. destruct opens; cbn [negb]; [|by apply abides_ret].
  eapply abides_bind; [apply (ab_copy _ _ _ HQ); intros l data r HQl Hg; exact (Hw l HQl Hg)|]. intros [data [e|]]; [by apply abides_ret|].
  eapply abides_bind; [apply (ab_publish env srv _ _ _ (lasting_and _ _ HQ (lasting_in _))); intros l [HQl _]; by apply Hl|]. intros [e|]; [by apply abides_ret|].
  eapply abides_bind; [apply ab_windows|]. intros ready. eapply abides_bind; [apply ab_status; [by apply lasting_and; [|apply lasting_in]|done..]|].
  intros [u|e]; [|by apply abides_ret]. eapply abides_bind; [apply ab_emit; [by apply lasting_and; [|apply lasting_in]|done]|]. intros ?. by apply abides_ret.
Qed.

(** **** Artifacts of Windows *)

Lemma artifact_below raw : bad_artifact raw = false → ∃ es e, below raw (es ++ [e]).
Proof.
  unfold bad_artifact. rewrite !orb_false_iff. intros ((((((_ & _) & Hr) & Hc) & H1) & H2) & H3). apply negb_false_iff, bool_decide_eq_true in Hc.
  apply bool_decide_eq_false in H1, H2.
  rewrite <- Hc in H1, H2, H3. destruct (clean_below raw H1 H2 H3) as (es & Hes). rewrite Hc in Hes. destruct (decide (es = [])) as [->|Hne].
  - destruct Hes as [_ [[_ ?]| ->]]; done.
  - destruct (exists_last Hne) as (es' & e & ->). by exists es', e.
Qed.
Lemma check_artifacts_all paths s raw : check_artifacts s paths = Ok tt → raw ∈ paths → bad_artifact raw = false.
Proof.
  revert s. induction paths as [|p paths IH]; intros s; cbn [check_artifacts]; [by intros _ ?%elem_of_nil|]. destruct (bad_artifact p) eqn:E; [done|].
  case_bool_decide; [done|]. intros Hc [->|Hin]%elem_of_cons; [done|by eapply IH].
Qed.
Lemma windows_artifacts_checked img raw : validateWindowsImage img = Ok tt → has_windows img = true → raw ∈ WindowsArtifacts (oi_Manifest img) → bad_artifact raw = false.
Proof.
  intros Hv Hw Hin. unfold has_windows in Hw. unfold validateWindowsImage in Hv. destruct (oi_Manifest img) as [mf|]; [|done]. apply bool_decide_eq_true in Hw as [mw Hw].
  cbn [mbind option_bind] in Hv. rewrite Hw in Hv. cbn [mbind option_bind] in Hv. rewrite (bool_decide_eq_true_2 (is_Some _)), andb_false_r in Hv by done.
  repeat match type of Hv with (ensure ?b ?e ≫= _) = _ => destruct b; cbn [ensure mbind result_bind] in Hv; [|done] end. by eapply check_artifacts_all.
Qed.

Lemma strip_common_prefix l t : strip_common l (l ++ t) = ([], t).
Proof. induction l as [|x l IH]; [by destruct t|]. cbn. by rewrite bool_decide_true. Qed.
Lemma rel_at dir es p : at_path dir es p → filepath_Rel dir p = Ok match es with [] => "." | _ => of_bytes (join_path es) end.
Proof.
  intros Hp. destruct (at_elems _ _ _ Hp) as (Hr & He & _). unfold filepath_Rel. rewrite Hr, eqb_reflx, He, strip_common_prefix. cbn. by destruct es.
Qed.
Lemma split_entries es : es ≠ [] → Forall entry es → Split (of_bytes (join_path es)) "/"%char = of_bytes <$> es.
Proof.
  intros Hne Hes. unfold Split. rewrite to_of_bytes. f_equal. apply (split_join es Hne). eapply Forall_impl; [exact Hes|]. by intros e [].
Qed.
Definition part_ok (part : string) : Prop := part = "" ∨ entry (to_bytes part).
Lemma join_part root es p part : root ≠ "" → at_path root es p → part_ok part → ∃ es', at_path root es' (filepath_Join p part).
Proof.
  intros Hr Hp Hpart. assert (p ≠ "") as Hne by (by destruct (at_elems _ _ _ Hp) as (_ & _ & ?)). destruct Hpart as [->|He].
  - exists es. destruct (at_elems _ _ _ Hp) as (E1 & E2 & _). split; [by destruct Hp|]. unfold filepath_Join. rewrite path_Clean_render, <- E1, <- E2.
    assert (path_rooted (p +:+ "/" +:+ "") = path_rooted p) as Er by (by destruct p). rewrite Er. f_equal. unfold path_elems. rewrite Er, to_bytes_app.
    change (to_bytes ("/" +:+ "")) with ["/"%char]. unfold split_path. by rewrite split_bytes_app_sep, fold_left_app.
  - exists (es ++ [to_bytes part]). eapply at_trans; [exact Hp|]. rewrite <- (of_to_bytes part) at 2. apply join_at; [done|by apply below_name].
Qed.

Lemma ab_dirs parts current Q : lasting Q → (∀ l, Q l → good l → (∃ es, at_path S es current) ∧ Forall part_ok parts) →
  abides G Q (make_directories env current parts) (fun _ => Q).
Proof.
  intros HQ. revert current. induction parts as [|part parts IH]; intros current Hc; cbn [make_directories]; [by apply abides_ret|].
  assert (∀ l, Q l → good l → (∃ es, at_path S es (filepath_Join current part)) ∧ Forall part_ok parts) as Hc'.
  { intros l Hl Hg. destruct (Hc l Hl Hg) as [[es He] Hp]. inversion Hp; subst. split; [eapply join_part; [apply storage_ne|done..]|done]. }
  eapply abides_bind; [apply (ab_call _ _ _ HQ); intros l Hl Hg; destruct (Hc' l Hl Hg) as [[es He] _]; by eapply at_within|].
  intros [e|]; [by apply abides_ret|]. eapply abides_bind; [apply ab_lstat|]. intros [[|size|]|]; try (by apply abides_ret). by apply IH.
Qed.
Lemma ab_ensure root dir Q : lasting Q → (∀ l, Q l → good l → ∃ es es', at_path S es root ∧ at_path root es' dir) →
  abides G Q (ensureArtifactDirectory env root dir) (fun _ => Q).
Proof.
  intros HQ Hp. unfold ensureArtifactDirectory. destruct (filepath_Rel root dir) as [relative|] eqn:Er; [|by apply abides_ret]. destruct ((relative ==? "..") || _); [by apply abides_ret|].
  apply (ab_dirs _ _ _ HQ). intros l Hl Hg. destruct (Hp l Hl Hg) as (es & es' & H1 & H2). split; [by exists es|]. constructor; [by left|].
  rewrite (rel_at _ _ _ H2) in Er. injection Er as <-. case_bool_decide as Ed; [constructor|]. destruct es' as [|e es']; [done|].
  rewrite split_entries; [|done|by destruct H2]. rewrite Forall_fmap. destruct H2 as [He _]. eapply Forall_impl; [exact He|]. intros x Hx. right. by rewrite to_of_bytes.
Qed.

Lemma temp_entry t : "/"%char ∉ to_bytes t → entry (to_bytes (".gomi-artifact-" +:+ t)).
Proof. intros Ht. rewrite to_bytes_app. apply entry_suffix; [|done]. split; [repeat split; done|]. by apply (bool_decide_unpack _); vm_compute. Qed.
Lemma ab_store_artifact img directory destination Q : lasting Q → (∀ k, "/"%char ∉ to_bytes (ie_temp env k)) → placed srv Q destination →
  abides G Q (store_artifact env img directory destination) (fun _ _ => True).
Proof.
  intros HQ Ht Hp. unfold store_artifact. eapply abides_bind; [apply ab_istep|]. intros k. destruct (ie_call env k) as [e|]; [by apply abides_ret|].
  set (tmp := filepath_Join _ _). assert (∀ l, Q l → good l → within srv destination ∧ within srv tmp) as Hw.
  { intros l Hl Hg. destruct (Hp l Hl Hg) as (es & e & He). split; [by eapply at_within|]. apply at_dir in He.
    destruct (join_part _ _ _ (".gomi-artifact-" +:+ ie_temp env k) (storage_ne srv) He) as (es' & He'); [right; by apply temp_entry|]. by eapply at_within. }
  eapply abides_bind; [apply (ab_emit _ _ HQ); intros l Hl Hg; by apply (Hw l)|]. intros ?.
  set (Q1 := fun l => Q l ∧ ICreate tmp ∈ l). assert (lasting Q1) as HQ1 by (apply lasting_and; [done|apply lasting_in]).
  eapply abides_bind; [apply (ab_copy _ _ _ HQ1); intros l d r [Hl _] Hg; by apply (Hw l)|]. intros [data e]. 
  eapply (abides_impl _ _ Q1); [|by intros l []|intros ? ? Hx; exact Hx]. eapply abides_bind; [apply ab_istep|]. intros k'. cbv zeta.
  eapply (abides_bind _ _ _ _ (fun _ => Q1)).
  - destruct e as [e|], (ie_call env k') as [e'|]; try (by apply abides_ret). case_bool_decide; [by apply abides_ret|].
    eapply abides_bind; [apply (ab_rename _ _ _ HQ1); intros l r [Hl _] Hg; split; by apply (Hw l)|]. intros [e|]; [apply abides_ret; by intros l []|].
    eapply (abides_impl _ _ Q1); [|by intros l []|intros ? ? Hx; exact Hx].
    eapply abides_bind; [apply ab_windows|]. intros ready. eapply abides_bind; [by apply (ab_status _ _ _ HQ1)|]. intros u. by apply abides_ret.
  - intros r. eapply abides_bind; [apply (ab_call _ _ _ HQ1); intros l [Hl _] Hg; by apply (Hw l)|]. intros ?. by apply abides_ret.
Qed.
Lemma artifact_follows name rel file : (∀ k, "/"%char ∉ to_bytes (ie_temp env k)) →
  abides G (fun _ => True) (UploadOSImageArtifact env srv name rel file) (fun _ _ => True).
Proof.
  intros Ht. unfold UploadOSImageArtifact. cbv zeta. eapply abides_bind; [apply ab_get; [apply lasting_const|done]|]. intros [img|e]; [|by apply abides_ret].
  set (Q := fun l => True ∧ IRead img ∈ l). assert (lasting Q) as HQ by (apply lasting_and; [apply lasting_const|apply lasting_in]).
  destruct (negb (has_windows img) || _) eqn:Ew; [by apply abides_ret|]. apply orb_false_iff in Ew as [Ew _]. apply negb_false_iff in Ew.
  destruct (bool_decide (rel ∈ tail _)) eqn:Ein; cbn [negb]; [|by apply abides_ret]. apply bool_decide_eq_true in Ein.
  destruct (imageWritePaths srv img ".wim") as [[directory payloadPath]|e] eqn:Ep; [|by apply abides_ret].
  assert ("/"%char ∉ to_bytes ".wim") as Hx by (by apply (bool_decide_unpack _); vm_compute).
  destruct (placed_paths srv _ _ _ _ Q (fun l Hl => or_introl (proj2 Hl)) Hx Ep) as (Hl & _ & _).
  assert (∀ l, Q l → good l → ∃ es es' e, at_path S es directory ∧ at_path directory (es' ++ [e]) (filepath_Join directory rel)) as Hd.
  { intros l HQl Hg. destruct (Hl l HQl Hg) as (es & e & He). destruct (Hg img (or_introl (proj2 HQl))) as [_ Hv].
    destruct (artifact_below rel) as (es' & e' & Hb).
    { eapply windows_artifacts_checked; [done..|]. destruct (WindowsArtifacts (oi_Manifest img)); [by apply elem_of_nil in Ein|by right]. }
    exists (es ++ [e]), es', e'. split; [done|]. apply join_at; [|done]. by destruct (at_elems _ _ _ He) as (_ & _ & ?). }
  eapply abides_bind; [apply (ab_ensure _ _ _ HQ)|].
  { intros l HQl Hg. destruct (Hd l HQl Hg) as (es & es' & e & H1 & H2). exists es, es'. split; [done|by eapply at_dir]. }
  intros [e|]; [by apply abides_ret|]. destruct file as [[e|]|]; [by apply abides_ret| |by apply abides_ret]. apply (ab_store_artifact _ _ _ _ HQ Ht).
  intros l HQl Hg. destruct (Hd l HQl Hg) as (es & es' & e & H1 & H2). exists (es ++ es'), e. rewrite <- app_assoc. by eapply at_trans.
Qed.
Lemma status_follows name body : abides G (fun _ => True) (UpdateOSImageStatus env name body) (fun _ _ => True).
Proof.
  unfold UpdateOSImageStatus. destruct body as [body|]; [|by apply abides_ret]. eapply abides_bind; [apply ab_get; [apply lasting_const|done]|].
  intros [img|e]; [|by apply abides_ret]. cbv zeta. set (Q := fun l => True ∧ IRead img ∈ l). assert (lasting Q) as HQ by (apply lasting_and; [apply lasting_const|apply lasting_in]).
  eapply (abides_bind _ _ _ _ (fun _ => Q)).
  - destruct (_ && _); [apply ab_ready|by apply abides_ret].
  - intros [e|]; [by apply abides_ret|]. eapply abides_bind; [by apply (ab_status _ _ _ HQ)|]. intros [u|e]; [|by apply abides_ret].
    eapply abides_bind; [by apply (ab_emit _ _ HQ)|]. intros ?. by apply abides_ret.
Qed.
End uploads.

(** ** The requests *)

Inductive image_request : Type :=
| RCreate (body : option OSImage) | RUpload (name : string) (file : option (string * bool)) | RArtifact (name rel : string) (file : option (option error))
| RStatus (name : string) (body : option status_body) | RDelete (name : string) | RGet (name : string) | RDownload (name : string)
| RList (f : image_filters) (q : Query).
Definition serve_image (env : ImageEnv) (srv : ImageServer) (r : image_request) : Hd image_table image_event ImageReply (result ImageReply) :=
  let plain m := a ← m; mret (Ok a) in
  match r with
  | RCreate body => plain (CreateOSImage env srv body) | RUpload name file => plain (UploadOSImage env srv name file)
  | RArtifact name rel file => UploadOSImageArtifact env srv name rel file | RStatus name body => plain (UpdateOSImageStatus env name body)
  | RDelete name => plain (DeleteOSImage env name) | RGet name => plain (GetOSImage env name) | RDownload name => plain (DownloadOSImage env name)
  | RList f q => plain (ListOSImages env f q)
  end.

Section requests.
Context (env : ImageEnv) (srv : ImageServer).
Local Abbreviation H := (Hd image_table image_event ImageReply).

Lemma allowed_weaken (U : list image_event → OSImage → Prop) l c : allowed_io srv U l c → allowed_io srv (fun _ _ => True) l c.
Proof. by destruct c. Qed.
Lemma abides_weaken {A} U P (m : H A) Q : abides (allowed_io srv U) P m Q → (∀ l, P l → l = []) → abides (allowed_io srv (fun _ _ => True)) P m (fun _ _ => True).
Proof.
  intros Hm HP st Hl _. destruct (Hm st Hl) as [H1 _]; [rewrite (HP _ Hl); apply each_nil|]. split; [|by destruct (m st).2].
  intros pre e post E. eapply allowed_weaken, H1, E.
Qed.
Lemma reads_follow name : abides (allowed_io srv (fun _ _ => True)) (fun _ => True) (DownloadOSImage env name) (fun _ _ => True)
  ∧ abides (allowed_io srv (fun _ _ => True)) (fun _ => True) (GetOSImage env name) (fun _ _ => True)
  ∧ abides (allowed_io srv (fun _ _ => True)) (fun _ => True) (DeleteOSImage env name) (fun _ _ => True).
Proof.
  split_and!.
  - eapply abides_bind; [apply ab_get; [apply lasting_const|done]|]. intros [img|e]; [|by apply abides_ret]. case_match; [by apply abides_ret|]. cbv zeta.
    set (Q := fun l => True ∧ IRead img ∈ l). assert (lasting Q) as HQ by (apply lasting_and; [apply lasting_const|apply lasting_in]).
    eapply abides_bind; [apply ab_stat|]. intros [kind|e]; [|by apply abides_ret]. eapply abides_bind; [apply ab_stat|]. intros [k|e]; [|by apply abides_ret].
    eapply abides_bind; [by apply (ab_emit _ _ HQ)|]. intros ?. by apply abides_ret.
  - eapply abides_bind; [apply ab_get; [apply lasting_const|done]|]. intros img. by apply abides_ret.
  - unfold DeleteOSImage, image_Delete. eapply (abides_bind _ _ _ _ (fun _ _ => True)).
    + eapply abides_bind; [apply ab_tick|]. intros k. destruct (ie_fault env k); [eapply abides_bind; [apply ab_istep|]; intros ?; by apply abides_ret|].
      eapply abides_bind; [apply abides_silent; intros st; unfold op; destruct (mem_delete _ name); (split; [reflexivity|by eexists])|]. intros r.
      eapply (abides_bind _ _ _ _ (fun _ _ => True)); [|intros ?; by apply abides_ret].
      case_bool_decide; [|by apply abides_ret]. eapply abides_impl; [apply (ab_emit _ (fun _ => True)); [apply lasting_const|done]|done|done].
    + intros [u|e]; [|by apply abides_ret]. eapply abides_bind; [apply ab_emit; [apply lasting_const|done]|]. intros ?. by apply abides_ret.
Qed.
Lemma plain_follows P (m : H ImageReply) : abides (allowed_io srv (fun _ _ => True)) P m (fun _ _ => True) →
  abides (allowed_io srv (fun _ _ => True)) P (a ← m; mret (Ok a) : H (result ImageReply)) (fun _ _ => True).
Proof. intros Hm. eapply abides_bind; [exact Hm|]. intros a. by apply abides_ret. Qed.
Lemma serve_follows r : (∀ k, "/"%char ∉ to_bytes (ie_temp env k)) → abides (allowed_io srv (fun _ _ => True)) (fun l => l = []) (serve_image env srv r) (fun _ _ => True).
Proof.
  intros Ht. assert (∀ (m : H ImageReply), abides (allowed_io srv (fun _ _ => True)) (fun _ => True) m (fun _ _ => True) →
    abides (allowed_io srv (fun _ _ => True)) (fun l => l = []) (a ← m; mret (Ok a) : H (result ImageReply)) (fun _ _ => True)) as Hp.
  { intros m Hm. apply plain_follows. by eapply abides_impl. }
  destruct r; cbn [serve_image].
  - apply plain_follows. apply (abides_weaken (ready_verified srv) _ _ (fun _ _ => True)); [|done]. eapply abides_impl; [apply create_follows|done|done].
  - apply Hp, upload_follows.
  - eapply abides_impl; [by apply artifact_follows|done|done].
  - apply Hp, status_follows.
  - apply Hp, reads_follow.
  - apply Hp, reads_follow.
  - apply Hp, reads_follow.
  - apply Hp. eapply abides_bind; [apply ab_tick|]. intros k. eapply abides_bind; [apply abides_silent; intros st; split; [reflexivity|by eexists]|]. intros items. by apply abides_ret.
Qed.
End requests.

(** C24: the requests for OS images touch files only where images belong.  As long as
    the images a request reads or writes are named by one path element and were
    validated as the creation does, each directory it makes, file it creates, writes,
    renames or removes and link it places is below the directory of images or below
    the published images, whatever the manifest says and whatever file name a client
    sends. *)
Theorem image_files_confined (env : ImageEnv) (srv : ImageServer) (r : image_request) (st : HState image_table image_event) :
  (∀ k, "/"%char ∉ to_bytes (ie_temp env k)) → hst_log st = [] → let l := hst_log (serve_image env srv r st).1 in
  (∀ img, seen l img → well_named img) → Forall (confined srv) l.
Proof.
  intros Ht Hl l Hg. destruct (serve_follows env srv r Ht st Hl) as [He _]; [rewrite Hl; apply each_nil|]. fold l in He.
  apply Forall_forall. intros c (pre & post & E)%list_elem_of_split. specialize (He pre c post E). destruct c; try exact I; apply He.
  all: intros img [Hi|Hi]; apply Hg; [left|right]; rewrite E; apply elem_of_app; by left.
Qed.

(** C25: creating an image says that it is ready only after its data was verified.  A
    record that says so and is written by [CreateOSImage] is one of an image with a URL
    whose data was received as a whole, written beside its place and then put there, and
    has the SHA-256 sum the creation gave, if it gave one; the path in the record is the
    one that was written.  The status of a record can also be set by hand
    ([UpdateOSImageStatus]), which verifies nothing. *)
Theorem url_image_verified (env : ImageEnv) (srv : ImageServer) (body : option OSImage) (st : HState image_table image_event) (pre post : list image_event) (img : OSImage) :
  hst_log st = [] → hst_log (CreateOSImage env srv body st).1 = pre ++ IUpsert img :: post → oi_Ready img = true →
  ∃ created ext payloadPath data, IUpsert created ∈ pre ∧ oi_Source created = SourceURL ∧ imageWritePaths srv created ext = Ok (oi_LocalPath img, payloadPath)
    ∧ IWrite (payloadPath +:+ ".download") data None ∈ pre ∧ IRename (payloadPath +:+ ".download") payloadPath None ∈ pre
    ∧ (normalizeSHA256 (oi_Checksum created) = "" ∨ EqualFold (hex_encode (sha256 data)) (normalizeSHA256 (oi_Checksum created)) = true).
Proof.
  intros Hl E Hr. destruct (create_follows env srv body st I) as [He _]; [rewrite Hl; apply each_nil|].
  destruct (He _ _ _ E Hr) as (created & ext & pp & H1 & H2 & H3 & data & H4 & H5 & H6). by exists created, ext, pp, data.
Qed.

(** ** Runs *)

Definition abc : bytes := to_bytes "abc".
Definition abc_sum : string := "sha256:ba7816bf8f01cfea414140de5dae2223b00361a396177a9cb410ff61f20015ad".
Definition image_at (name checksum : string) (source : SourceType) (ready : bool) : OSImage :=
  mkOSImage name "debian" "13" "amd64" FormatQCOW2 source VariantCloud "http://mirror/debian.img" checksum 0 "" None ready (if ready then "/srv/images/debian.qcow2" else "") "" 0 0.
Definition image_env (data : bytes * option error) : ImageEnv :=
  mkImageEnv (fun _ m => m) (fun _ => None) (fun _ => 0) (fun _ => None) (fun _ _ => Ok (IsRegular 3)) (fun _ _ => None) (fun _ => data) (fun _ _ => Ok 200)
    (fun _ => Some (mkImageURL "http" "mirror" "/debian.img")) (fun _ p => Ok p) (fun _ => "1").
Definition image_server : ImageServer := mkImageServer "/srv/images" "/srv/files".
Definition image_start (m : image_table) : HState image_table image_event := mkHState 0 m [].
Definition create_url : option OSImage := Some (image_at "debian" abc_sum SourceURL false).
Local Abbreviation create_log := (hst_log (CreateOSImage (image_env (abc, None)) image_server create_url (image_start ∅)).1).

Definition ready_image : OSImage := (image_at "debian" abc_sum SourceURL true) <| oi_LocalPath := "/srv/images/debian.img" |>.

Lemma create_log_ready : ∃ pre post, create_log = pre ++ IUpsert ready_image :: post.
Proof.
  assert (create_log !! 13%nat = Some (IUpsert ready_image)) as Hi by (vm_compute; reflexivity).
  apply list_elem_of_lookup_2 in Hi. by apply list_elem_of_split in Hi.
Qed.
Definition debian_only (c : image_event) : bool :=
  match c with IRead i | IUpsert i => (oi_Name i ==? "debian") && (validateWindowsImage i ==? Ok tt) | _ => true end.
Local Abbreviation serve_create := (hst_log (serve_image (image_env (abc, None)) image_server (RCreate create_url) (image_start ∅)).1).
Lemma serve_create_debian : forallb debian_only serve_create = true.
Proof. vm_compute. reflexivity. Qed.
Lemma serve_create_named img : seen serve_create img → well_named img.
Proof.
  pose proof serve_create_debian as Hd. rewrite forallb_forall in Hd. intros Hs. assert ((oi_Name img ==? "debian") && (validateWindowsImage img ==? Ok tt) = true) as Hi.
  { destruct Hs as [Hi|Hi]; apply list_elem_of_In in Hi; exact (Hd _ Hi). }
  apply andb_true_iff in Hi as [Hn%bool_decide_eq_true Hv%bool_decide_eq_true]. split; [|done]. rewrite Hn.
  split; [repeat split; done|]. by apply (bool_decide_unpack _); vm_compute.
Qed.
Lemma image_files_confined_witness : Forall (confined image_server) (hst_log (serve_image (image_env (abc, None)) image_server (RCreate create_url) (image_start ∅)).1).
Proof.
  apply (image_files_confined (image_env (abc, None)) image_server (RCreate create_url) (image_start ∅)); [|reflexivity|exact serve_create_named].
  intros k. apply (bool_decide_unpack _). vm_compute. exact I.
Defined.
Lemma url_image_verified_witness : ∃ (pre : list image_event) created data, IUpsert created ∈ pre ∧ oi_Source created = SourceURL
  ∧ (normalizeSHA256 (oi_Checksum created) = "" ∨ EqualFold (hex_encode (sha256 data)) (normalizeSHA256 (oi_Checksum created)) = true).
Proof.
  destruct create_log_ready as (pre & post & E).
  destruct (url_image_verified (image_env (abc, None)) image_server create_url (image_start ∅) pre post ready_image eq_refl E eq_refl)
    as (created & ext & pp & data & H1 & H2 & _ & _ & _ & H3).
  exists pre, created, data. split; [exact H1|]. split; [exact H2|exact H3].
Defined.

(** A name is not checked: one with [..] leaves the directory of images. *)
Lemma image_name_escapes :
  IRename "/etc/cron.d/job.img.download" "/etc/cron.d/job.img" None ∈
    hst_log (CreateOSImage (image_env (abc, None)) image_server (Some (image_at "../../etc/cron.d/job" "" SourceURL false)) (image_start ∅)).1.
Proof. apply (list_elem_of_lookup_2 _ 5). vm_compute. reflexivity. Qed.

Definition uploaded : OSImage := image_at "debian" abc_sum SourceUpload true.
(** An upload that breaks off has overwritten the file, and the image is still ready. *)
Lemma broken_upload_stays_ready :
  let r := UploadOSImage (image_env (take 1 abc, Some (ErrNew "unexpected EOF"))) image_server "debian" (Some ("debian.qcow2", true)) (image_start {[ "debian" := uploaded ]}) in
  r.2 = inl (image_says 500 "failed to save file") ∧ hst_store r.1 !! "debian" = Some uploaded ∧ ICreate (oi_LocalPath uploaded) ∈ hst_log r.1.
Proof. split_and!; [vm_compute; reflexivity..|]. apply (list_elem_of_lookup_2 _ 2). vm_compute. reflexivity. Qed.
(** The checksum of an image is not compared with what is uploaded. *)
Lemma upload_checksum_ignored :
  (λ i : OSImage, (oi_Ready i, oi_Checksum i)) <$>
    hst_store (UploadOSImage (image_env (take 1 abc, None)) image_server "debian" (Some ("debian.qcow2", true)) (image_start {[ "debian" := image_at "debian" abc_sum SourceUpload false ]})).1
      !! "debian" = Some (true, abc_sum).
Proof. vm_compute. reflexivity. Qed.
