(* ===== verification/BootEnv.v ===== *)
(** * internal/bootenv and api/bootenv.go: boot environments

    The manager keeps a status per environment, the set of running builds and a channel
    per build that is closed when it ends; each of its critical sections is a function
    of that state.  A build is a handler over it: its calls of the file system and of
    the network are a log, and what they answer is given by their number; other
    goroutines may take critical sections before each call.  What is written into the log
    file, the manifest and the status file is not modelled. *)
From S2P Require Import Prelude GoStrings GoPath GoCrypto GoTime Handler Resource Store ApiResource Machine OsImageApi.

Definition Phase : Type := string.
Definition PhaseMissing : Phase := "missing".
Definition PhaseBuilding : Phase := "building".
Definition PhaseReady : Phase := "ready".
Definition PhaseError : Phase := "error".

Record Status := mkStatus {
  be_Name : string; be_Phase : Phase; be_Message : string; be_ArtifactDir : string; be_LogPath : string; be_KernelPath : string; be_InitrdPath : string;
  be_RootFSPath : string; be_UpdatedAt : Time }.
Global Instance Status_fields : Fields Status :=
  fpure mkStatus <*> be_Name <*> be_Phase <*> be_Message <*> be_ArtifactDir <*> be_LogPath <*> be_KernelPath <*> be_InitrdPath <*> be_RootFSPath <*> be_UpdatedAt.
(** [Status{Name, Phase, Message, UpdatedAt}] *)
Definition brief (name : string) (phase : Phase) (message : string) (now : Time) : Status := mkStatus name phase message "" "" "" "" "" now.
Definition ready_status (name artifactDir logPath : string) (now : Time) : Status :=
  mkStatus name PhaseReady "" artifactDir logPath (filepath_Join artifactDir "boot-kernel") (filepath_Join artifactDir "boot-initrd")
    (filepath_Join artifactDir "rootfs.squashfs") now.

Record prebuiltArtifact := mkPrebuiltArtifact { pa_Path : string; pa_URL : string; pa_SHA256 : string; pa_Size : Z }.
Record prebuiltManifest := mkPrebuiltManifest { pm_Name : string; pm_Artifacts : gmap string prebuiltArtifact }.

Record Config := mkConfig { bc_DataDir : string; bc_FilesDir : string; bc_SourceURL : string }.
(** [NewManager] *)
Definition data_dir (cfg : Config) : string := filepath_Join (bc_DataDir cfg) "bootenv".
Definition source_url (cfg : Config) : string := TrimSpace (bc_SourceURL cfg).
Definition defaultDefinitions : gset string := {[ "ubuntu-minimal-cloud-amd64" ]}.
Definition boot_files : list string := ["boot-kernel"; "boot-initrd"; "rootfs.squashfs"].
Definition artifactMap : list (string * string) := [("kernel", "boot-kernel"); ("initrd", "boot-initrd"); ("rootfs", "rootfs.squashfs")].

(** ** transfer.go and prebuilt.go: locations *)

Definition isHTTPLocation (raw : string) : bool := HasPrefix raw "http://" || HasPrefix raw "https://".
Section locations.
(** [url.Parse]: the path, when it parses. *)
Context (urlPath : string → option string).
Definition localPathFromLocation (raw : string) : string :=
  if HasPrefix raw "file://" then match urlPath raw with Some p => p | None => raw end else raw.
Definition resolvePrebuiltManifestLocation (raw : string) : string * string :=
  let raw := TrimSpace raw in
  if isHTTPLocation raw then
    let trimmed := TrimRight raw "/" in
    if HasSuffix trimmed ".json" then (trimmed, match last_index_byte "/"%char (to_bytes trimmed) with Some i => of_bytes (take i (to_bytes trimmed)) | None => "" end)
    else (trimmed +:+ "/manifest.json", trimmed)
  else
    let path := localPathFromLocation raw in
    if HasSuffix path ".json" then (path, filepath_Dir path) else (filepath_Join path "manifest.json", path).
Definition resolvePrebuiltArtifactLocation (base : string) (artifact : prebuiltArtifact) : string :=
  if TrimSpace (pa_URL artifact) !=? "" then TrimSpace (pa_URL artifact) else
  let path := TrimSpace (pa_Path artifact) in
  if isHTTPLocation base then TrimRight base "/" +:+ "/" +:+ TrimLeft path "/" else filepath_Join base path.
End locations.

Fixpoint check_keys (artifacts : gmap string prebuiltArtifact) (keys : list string) : option error :=
  match keys with
  | [] => None
  | key :: keys =>
      match artifacts !! key with
      | None => Some (ErrNew ("boot environment manifest missing artifact " +:+ Quote key))
      | Some a =>
          if (TrimSpace (pa_Path a) ==? "") && (TrimSpace (pa_URL a) ==? "") then Some (ErrNew ("boot environment artifact " +:+ Quote key +:+ " requires path or url"))
          else if TrimSpace (pa_SHA256 a) ==? "" then Some (ErrNew ("boot environment artifact " +:+ Quote key +:+ " requires sha256"))
          else check_keys artifacts keys
      end
  end.
Definition validatePrebuiltManifest (name : string) (m : prebuiltManifest) : option error :=
  if TrimSpace (pm_Name m) !=? name then Some (ErrNew ("boot environment manifest name mismatch: expected " +:+ name +:+ " got " +:+ pm_Name m))
  else check_keys (pm_Artifacts m) ["kernel"; "initrd"; "rootfs"].

(** ** The state of the manager *)

(** A channel is a number; [mg_closed] are those that were closed, [mg_panic] tells whether
    one was closed twice. *)
Record MState := mkMState { mg_statuses : gmap string Status; mg_running : gset string; mg_done : gmap string nat; mg_next : nat; mg_closed : gset nat; mg_panic : bool }.
Global Instance MState_fields : Fields MState :=
  fpure mkMState <*> mg_statuses <*> mg_running <*> mg_done <*> mg_next <*> mg_closed <*> mg_panic.

Definition set_status (st : Status) (m : MState) : MState := m <| mg_statuses := <[be_Name st := st]> (mg_statuses m) |>.
(** A build is registered, with a new channel. *)
Definition register (name message : string) (now : Time) (m : MState) : MState :=
  mkMState (<[name := brief name PhaseBuilding message now]> (mg_statuses m)) ({[ name ]} ∪ mg_running m) (<[name := mg_next m]> (mg_done m)) (S (mg_next m))
    (mg_closed m) (mg_panic m).
(** The critical section of [start]: [inl] the status of the build that runs. *)
Definition start_section (name : string) (now : Time) (m : MState) : MState * (Status + nat) :=
  if bool_decide (name ∈ mg_running m) then (m, inl (default (brief "" "" "" 0) (mg_statuses m !! name)))
  else (register name "queued" now m, inr (mg_next m)).
(** The critical section of [Ensure]: [inl] the channel to wait for. *)
Definition ensure_section (name : string) (now : Time) (m : MState) : MState * (nat + nat) :=
  match mg_done m !! name with
  | Some ch => (m, inl ch)
  | None => (register name "fetching" now m, inr (mg_next m))
  end.
Definition finishBuild (name : string) (st : Status) (err : option error) (now : Time) (m : MState) : MState :=
  let ch := mg_done m !! name in
  let st := match err with Some e => st <| be_Phase := PhaseError |> <| be_Message := Error e |> <| be_UpdatedAt := now |> | None => st end in
  mkMState (<[name := st]> (mg_statuses m)) (mg_running m ∖ {[ name ]}) (delete name (mg_done m)) (mg_next m)
    (match ch with Some ch => {[ ch ]} ∪ mg_closed m | None => mg_closed m end)
    (mg_panic m || match ch with Some ch => bool_decide (ch ∈ mg_closed m) | None => false end).
(** What [Status] takes from memory. *)
Definition remembered (name : string) (m : MState) : option Status :=
  match mg_statuses m !! name with
  | Some st => if bool_decide (name ∈ mg_running m) || (be_Phase st ==? PhaseError) then Some st else None
  | None => None
  end.

(** ** A build *)

Inductive boot_event : Type :=
| BMkdir (p : string) | BCreate (p : string) | BWrite (p : string) (data : bytes) (r : option error) | BRename (src dst : string) (r : option error) | BRemove (p : string)
| BRemoveAll (p : string) | BSymlink (target p : string) (r : option error) | BRead (p : string) (data : bytes) | BSize (p : string) (size : Z) | BFetch (location : string)
| BStatus (st : Status) | BFinish (name : string) (err : option error).

Record BootEnvironment := mkBootEnvironment {
  bv_others : nat → MState → MState; bv_now : nat → Time; bv_call : nat → option error; bv_read : nat → string → result bytes; bv_stat : nat → string → option (bool * Z);
  bv_resolve : nat → string → option string; bv_saved : nat → string → option Status; bv_http : nat → string → result Z; bv_data : nat → bytes * option error;
  bv_expired : nat → bool; bv_urlPath : string → option string; bv_manifest : bytes → result prebuiltManifest; bv_order : list (string * string) }.

Section builds.
Context (env : BootEnvironment) (cfg : Config).
Local Abbreviation H := (Hd MState boot_event unit).

Definition bstep : H nat := k ← tick; _ ← op (bv_others env) (fun m => (m, tt)); mret k.
Definition bnow : H Time := k ← tick; mret (bv_now env k).
Definition bcall (c : boot_event) : H (option error) := k ← bstep; _ ← emit c; mret (bv_call env k).
Definition brename (src dst : string) : H (option error) := k ← bstep; _ ← emit (BRename src dst (bv_call env k)); mret (bv_call env k).
Definition bsymlink (target p : string) : H (option error) := k ← bstep; _ ← emit (BSymlink target p (bv_call env k)); mret (bv_call env k).
Definition bcopy (p : string) : H (option error) := k ← bstep; let '(data, e) := bv_data env k in _ ← emit (BWrite p data e); mret e.
Definition bread (p : string) : H (result bytes) :=
  k ← bstep; _ ← match bv_read env k p with Ok data => emit (BRead p data) | Err _ => mret tt end; mret (bv_read env k p).
Definition bsize (p : string) : H (option Z) :=
  k ← bstep;
  match bv_stat env k p with Some (_, size) => _ ← emit (BSize p size); mret (Some size) | None => mret None end.
Definition setStatus (st : Status) : H unit := _ ← op (bv_others env) (fun m => (set_status st m, tt)); emit (BStatus st).

(** *** publish.go *)

Definition current_link (name : string) : string := filepath_Join (filepath_Join (filepath_Join (data_dir cfg) "artifacts") name) "current".
Definition currentArtifactDir (name : string) : H (option string) :=
  k ← bstep;
  match bv_resolve env k (current_link name) with
  | None => mret None
  | Some resolved =>
      (fix files (fs : list string) : H (option string) :=
         match fs with
         | [] => mret (Some resolved)
         | f :: fs =>
             k ← bstep;
             match bv_stat env k (filepath_Join resolved f) with
             | Some (dir, size) => if dir || (size =? 0) then mret None else files fs
             | None => mret None
             end
         end) boot_files
  end.
Definition readSavedStatus (path expectedName : string) : H (option Status) :=
  k ← bstep;
  mret match bv_saved env k path with Some st => if be_Name st ==? expectedName then Some st else None | None => None end.

(** *** manager.go: Status *)

Definition with_log (name dir : string) (st : Status) : H Status :=
  if be_LogPath st !=? "" then mret st else
  let logPath := filepath_Join (filepath_Join (data_dir cfg) "logs") (name +:+ "-" +:+ filepath_Base dir +:+ ".log") in
  k ← bstep;
  mret match bv_stat env k logPath with Some _ => st <| be_LogPath := logPath |> | None => st end.
Definition GetStatus (name : string) : H Status :=
  let name := TrimSpace name in
  saved ← op (bv_others env) (fun m => (m, remembered name m));
  match saved with
  | Some st => mret st
  | None =>
      if negb (bool_decide (name ∈ defaultDefinitions)) then now ← bnow; mret (brief name PhaseError "unknown boot environment" now) else
      dir ← currentArtifactDir name;
      match dir with
      | None => now ← bnow; mret (brief name PhaseMissing "" now)
      | Some dir =>
          now ← bnow;
          saved ← readSavedStatus (filepath_Join dir "status.json") name;
          let fresh := ready_status name dir "" now in
          with_log name dir
            match saved with
            | None => fresh
            | Some st => st <| be_Phase := PhaseReady |> <| be_ArtifactDir := dir |> <| be_KernelPath := be_KernelPath fresh |> <| be_InitrdPath := be_InitrdPath fresh |>
                            <| be_RootFSPath := be_RootFSPath fresh |> <| be_UpdatedAt := if be_UpdatedAt st =? 0 then now else be_UpdatedAt st |>
            end
      end
  end.
(** There is one definition, so that there is nothing to sort. *)
Definition ListStatuses : H (list Status) := st ← GetStatus "ubuntu-minimal-cloud-amd64"; mret [st].

(** *** transfer.go *)

Definition fetchBytes (rawURL : string) : H (result bytes) :=
  k ← bstep;
  _ ← emit (BFetch rawURL);
  match bv_http env k rawURL with
  | Err e => mret (Err (ErrWrap ("fetch " +:+ rawURL +:+ ": ") e ""))
  | Ok status =>
      if status !=? 200 then mret (Err (ErrNew ("fetch " +:+ rawURL +:+ ": status " +:+ Itoa status))) else
      k ← bstep; mret (let '(data, e) := bv_data env k in match e with Some e => Err e | None => Ok data end)
  end.
Definition readLocation (raw : string) : H (result bytes) :=
  if isHTTPLocation raw then fetchBytes raw else bread (localPathFromLocation (bv_urlPath env) raw).

(** The file is written beside its place and put there when it is whole. *)
Definition put_file (tmp dst : string) (finish : H (option error)) : H (option error) :=
  e ← bcall (BCreate tmp);
  match e with
  | Some e => mret (Some e)
  | None =>
      e ← bcopy tmp;
      k ← bstep;
      let close := bv_call env k in
      r ← match e, close with
          | Some e, _ => mret (Some e)
          | None, Some e => mret (Some e)
          | None, None => e ← finish; match e with Some e => mret (Some e) | None => brename tmp dst end
          end;
      _ ← bcall (BRemove tmp);
      mret r
  end.
Definition downloadFileOnce (rawURL dst : string) : H (option error) :=
  e ← bcall (BMkdir (filepath_Dir dst));
  match e with
  | Some e => mret (Some e)
  | None =>
      k ← bstep;
      _ ← emit (BFetch rawURL);
      match bv_http env k rawURL with
      | Err e => mret (Some (ErrWrap ("download " +:+ rawURL +:+ ": ") e ""))
      | Ok status => if status !=? 200 then mret (Some (ErrNew ("download " +:+ rawURL +:+ ": status " +:+ Itoa status)))
                     else put_file (dst +:+ ".download") dst (mret None)
      end
  end.
Fixpoint download_tries (n : nat) (rawURL dst : string) (last : option error) : H (option error) :=
  match n with
  | O => mret last
  | Datatypes.S n =>
      e ← downloadFileOnce rawURL dst;
      match e with
      | None => mret None
      | Some e => k ← bstep; if bv_expired env k then mret (Some e) else download_tries n rawURL dst (Some e)
      end
  end.
Definition downloadFile (rawURL dst : string) : H (option error) := download_tries 3 rawURL dst None.
Definition copyFile (src dst : string) : H (option error) :=
  k ← bstep;
  match bv_call env k with
  | Some e => mret (Some e)
  | None =>
      e ← bcall (BMkdir (filepath_Dir dst));
      match e with
      | Some e => mret (Some e)
      | None => put_file (dst +:+ ".tmp") dst (k ← bstep; mret (bv_call env k))
      end
  end.
Definition copyLocation (src dst : string) : H (option error) :=
  if isHTTPLocation src then
    e ← downloadFile src dst;
    match e with Some e => mret (Some e) | None => k ← bstep; mret (bv_call env k) end
  else copyFile (localPathFromLocation (bv_urlPath env) src) dst.
Definition expected_sum (expected : string) : string := TrimSpace (TrimPrefix expected "sha256:").
Definition verifySHA256 (path expected : string) : H (option error) :=
  let expected := expected_sum expected in
  if expected ==? "" then mret None else
  data ← bread path;
  mret match data with
       | Err e => Some e
       | Ok data => let actual := hex_encode (sha256 data) in
                    if EqualFold actual expected then None
                    else Some (ErrNew ("checksum mismatch for " +:+ path +:+ ": expected " +:+ expected +:+ " got " +:+ actual))
       end.

(** *** publish.go *)

(** A link is made beside its place and put there; then what follows. *)
Definition put_link (target dst : string) (next : H (option error)) : H (option error) :=
  let tmp := dst +:+ ".tmp" in
  _ ← bcall (BRemove tmp);
  e ← bsymlink target tmp;
  match e with
  | Some e => mret (Some e)
  | None =>
      e ← brename tmp dst;
      r ← match e with Some e => mret (Some e) | None => next end;
      _ ← bcall (BRemove tmp);
      mret r
  end.
Definition writeStatusFile (artifactDir : string) : H (option error) := bcall (BCreate (filepath_Join artifactDir "status.json")).
Definition publishCurrent (name buildID artifactDir : string) : H (option error) := put_link buildID (current_link name) (writeStatusFile artifactDir).
Fixpoint put_links (artifactDir linuxDir : string) (names : list string) : H (option error) :=
  match names with
  | [] => mret None
  | name :: names => put_link (filepath_Join artifactDir name) (filepath_Join linuxDir name) (put_links artifactDir linuxDir names)
  end.
Definition publishPXECompatibilityFiles (artifactDir : string) : H (option error) :=
  let linuxDir := filepath_Join (bc_FilesDir cfg) "linux" in
  e ← bcall (BMkdir linuxDir);
  match e with Some e => mret (Some e) | None => put_links artifactDir linuxDir boot_files end.

(** *** prebuilt.go *)

(** One artifact: fetched into its place, its sum and its size compared. *)
Definition fetch_artifact (artifact : prebuiltArtifact) (src artifactDir dstName : string) : H (option error) :=
  let dst := filepath_Join artifactDir dstName in
  e ← copyLocation src dst;
  match e with
  | Some e => mret (Some e)
  | None =>
      e ← verifySHA256 dst (pa_SHA256 artifact);
      match e with
      | Some e => mret (Some e)
      | None =>
          if negb (0 <? pa_Size artifact) then mret None else
          size ← bsize dst;
          mret match size with
               | None => Some (ErrNew "stat")
               | Some size => if size =? pa_Size artifact then None
                              else Some (ErrNew ("size mismatch for " +:+ dstName +:+ ": expected " +:+ Itoa (pa_Size artifact) +:+ " got " +:+ Itoa size))
               end
      end
  end.
(** The artifacts, in the order the map is walked. *)
Fixpoint fetch_artifacts (artifacts : gmap string prebuiltArtifact) (base artifactDir : string) (st : Status) (l : list (string * string)) : H (Status * option error) :=
  match l with
  | [] => mret (st, None)
  | (key, dstName) :: l =>
      let artifact := default (mkPrebuiltArtifact "" "" "" 0) (artifacts !! key) in
      now ← bnow;
      let st := st <| be_Message := "downloading boot environment artifact: " +:+ key |> <| be_UpdatedAt := now |> in
      _ ← setStatus st;
      e ← fetch_artifact artifact (resolvePrebuiltArtifactLocation base artifact) artifactDir dstName;
      match e with Some e => mret (st, Some e) | None => fetch_artifacts artifacts base artifactDir st l end
  end.
(** What ends in a published environment, or in an error after which the directory is
    removed. *)
Definition publish_build (name buildID artifactDir logPath : string) (base : string) (manifest : prebuiltManifest) (st : Status) : H (Status * option error) :=
  e ← bcall (BMkdir artifactDir);
  match e with
  | Some e => mret (st, Some e)
  | None =>
      '(st, e) ← fetch_artifacts (pm_Artifacts manifest) base artifactDir st (bv_order env);
      match e with
      | Some e => mret (st, Some e)
      | None =>
          e ← bcall (BCreate (filepath_Join artifactDir "manifest.json"));
          match e with
          | Some e => mret (st, Some e)
          | None =>
              e ← publishPXECompatibilityFiles artifactDir;
              match e with
              | Some e => mret (st, Some e)
              | None =>
                  e ← publishCurrent name buildID artifactDir;
                  match e with Some e => mret (st, Some e) | None => now ← bnow; mret (ready_status name artifactDir logPath now, None) end
              end
          end
      end
  end.
Definition fetchPrebuilt (name buildID buildDir logPath : string) (st : Status) : H (Status * option error) :=
  let '(manifestLocation, base) := resolvePrebuiltManifestLocation (bv_urlPath env) (source_url cfg) in
  now ← bnow;
  let st := st <| be_Message := "downloading boot environment manifest" |> <| be_UpdatedAt := now |> in
  _ ← setStatus st;
  raw ← readLocation manifestLocation;
  match raw with
  | Err e => mret (st, Some e)
  | Ok raw =>
      match bv_manifest env raw with
      | Err e => mret (st, Some (ErrWrap "parse boot environment manifest: " e ""))
      | Ok manifest =>
          match validatePrebuiltManifest name manifest with
          | Some e => mret (st, Some e)
          | None =>
              let artifactDir := filepath_Join (filepath_Join (filepath_Join (data_dir cfg) "artifacts") name) buildID in
              '(st, e) ← publish_build name buildID artifactDir logPath base manifest st;
              _ ← match e with
                  | Some _ => bcall (BRemoveAll artifactDir)
                  | None => bcall (BCreate (filepath_Join buildDir ".prebuilt"))
                  end;
              mret (st, e)
          end
      end
  end.

(** *** manager.go: builds *)

(** [Format("20060102T150405Z")] *)
Definition build_id (t : Time) : string :=
  let '(y, m, d) := civil (t `div` nanos_per_day) in
  let s := (t `mod` nanos_per_day) `div` Second in
  pad 4 y +:+ pad 2 m +:+ pad 2 d +:+ "T" +:+ pad 2 (s `div` 3600) +:+ pad 2 ((s `mod` 3600) `div` 60) +:+ pad 2 (s `mod` 60) +:+ "Z".
Definition build_fresh (name : string) : H (Status * option error) :=
  t ← bnow;
  let buildID := build_id t in
  let buildDir := filepath_Join (filepath_Join (data_dir cfg) "builds") (name +:+ "-" +:+ buildID) in
  let failed e := now ← bnow; mret (brief name PhaseError "" now, Some e) in
  e ← bcall (BMkdir buildDir);
  match e with
  | Some e => failed e
  | None =>
      let logDir := filepath_Join (data_dir cfg) "logs" in
      e ← bcall (BMkdir logDir);
      r ← match e with
          | Some e => failed e
          | None =>
              let logPath := filepath_Join logDir (name +:+ "-" +:+ buildID +:+ ".log") in
              e ← bcall (BCreate logPath);
              match e with
              | Some e => failed e
              | None =>
                  now ← bnow;
                  let st := (brief name PhaseBuilding "fetching boot environment" now) <| be_LogPath := logPath |> in
                  _ ← setStatus st;
                  if source_url cfg ==? "" then mret (st, Some (ErrNew "boot environment source URL is required"))
                  else fetchPrebuilt name buildID buildDir logPath st
              end
          end;
      _ ← bcall (BRemoveAll buildDir);
      mret r
  end.
Definition build (name : string) (force : bool) : H (Status * option error) :=
  if force then build_fresh name else
  st ← GetStatus name;
  if be_Phase st ==? PhaseReady then mret (st, None) else build_fresh name.
(** [runBuild], and the end of [Ensure]. *)
Definition runBuild (name : string) (force : bool) : H (option error) :=
  '(st, e) ← build name force;
  now ← bnow;
  _ ← op (bv_others env) (fun m => (finishBuild name st e now m, tt));
  _ ← emit (BFinish name e);
  mret e.

(** The status that is answered, and whether a build was started. *)
Definition start (name : string) (force : bool) : H (Status * bool) :=
  let name := TrimSpace name in
  if negb (bool_decide (name ∈ defaultDefinitions)) then now ← bnow; mret (brief name PhaseError "unknown boot environment" now, false) else
  current ← (if force then mret None else st ← GetStatus name; mret (if be_Phase st ==? PhaseReady then Some st else None));
  match current with
  | Some st => mret (st, false)
  | None =>
      now ← bnow;
      r ← op (bv_others env) (start_section name now);
      mret match r with inl st => (st, false) | inr _ => (brief name PhaseBuilding "queued" now, true) end
  end.
Definition StartEnsure (name : string) : H (Status * bool) := start name false.
Definition StartRebuild (name : string) : H (Status * bool) := start name true.

(** The rounds of [Ensure]: each waits for the build that runs, until it ends or the
    context does. *)
Fixpoint ensure_rounds (n : nat) (name : string) : H (option (Status * option error)) :=
  match n with
  | O => mret None
  | Datatypes.S n =>
      now ← bnow;
      r ← op (bv_others env) (ensure_section name now);
      match r with
      | inl ch =>
          k ← bstep;
          st ← GetStatus name;
          if bv_expired env k then mret (Some (st, Some (ErrNew "context done")))
          else if be_Phase st ==? PhaseReady then mret (Some (st, None))
          else if be_Phase st ==? PhaseError then mret (Some (st, Some (ErrNew (be_Message st))))
          else ensure_rounds n name
      | inr _ => e ← runBuild name false; st ← GetStatus name; mret (Some (st, e))
      end
  end.
Definition Ensure (rounds : nat) (name : string) : H (option (Status * option error)) :=
  let name := TrimSpace name in
  if negb (bool_decide (name ∈ defaultDefinitions))
  then now ← bnow; mret (Some (brief name PhaseError "unknown boot environment" now, Some (ErrNew ("unknown boot environment: " +:+ name)))) else
  current ← GetStatus name;
  if be_Phase current ==? PhaseReady then mret (Some (current, None)) else ensure_rounds rounds name.
End builds.

(** ** api/bootenv.go *)

Record BootEnvironmentResponse := mkBootEnvironmentResponse {
  br_Name : string; br_BootEnvironmentID : string; br_Phase : Phase; br_Message : string; br_ArtifactDir : string; br_LogPath : string; br_KernelPath : string;
  br_InitrdPath : string; br_RootfsPath : string; br_UpdatedAt : Time }.
Definition bootEnvironmentResponse (i : Status) : BootEnvironmentResponse :=
  mkBootEnvironmentResponse (resourceName "bootEnvironments" (be_Name i)) (be_Name i) (be_Phase i) (be_Message i) (be_ArtifactDir i) (be_LogPath i) (be_KernelPath i)
    (be_InitrdPath i) (be_RootFSPath i) (be_UpdatedAt i).
Definition bootEnvironmentResponses (l : list Status) : list BootEnvironmentResponse := bootEnvironmentResponse <$> l.
Inductive boot_body : Type :=
| YError (msg : string) | YStatus (r : BootEnvironmentResponse) | YList (l : list BootEnvironmentResponse) (nextPageToken : string) (totalSize : Z) | YFile (p : string).
Record BootReply := mkBootReply { bq_Status : Z; bq_Body : boot_body }.

Section boot_api.
Context (env : BootEnvironment) (manager : option Config).
Local Abbreviation H := (Hd MState boot_event unit).
Definition ListBootEnvironments (q : Query) : H BootReply :=
  items ← match manager with None => mret [] | Some cfg => l ← ListStatuses env cfg; mret (bootEnvironmentResponses l) end;
  mret match parsePagination q (Z.of_nat (length items)) with
       | Err e => mkBootReply 400 (YError (Error e))
       | Ok p => mkBootReply 200 (YList (paginate items p) (pg_nextPageToken p) (pg_totalSize p))
       end.
Definition RebuildBootEnvironment (name : string) : H BootReply :=
  match manager with
  | None => mret (mkBootReply 503 (YError "boot environment manager is not configured"))
  | Some cfg => '(st, _) ← StartRebuild env cfg name; mret (mkBootReply 202 (YStatus (bootEnvironmentResponse st)))
  end.
(** [stat]'s answer: [Some None] is a file that is not there. *)
Definition GetBootEnvironmentLogs (logStat : nat → string → option (option error)) (name : string) : H BootReply :=
  match manager with
  | None => mret (mkBootReply 404 (YError "boot environment manager is not configured"))
  | Some cfg =>
      st ← GetStatus env cfg name;
      if be_LogPath st ==? "" then mret (mkBootReply 404 (YError "build log not found")) else
      k ← bstep env;
      mret match logStat k (be_LogPath st) with
           | None => mkBootReply 200 (YFile (be_LogPath st))
           | Some None => mkBootReply 404 (YError "build log not found")
           | Some (Some e) => mkBootReply 500 (YError (Error e))
           end
  end.
End boot_api.
