(* ===== verification/BootEnvSafe.v ===== *)
(** * internal/bootenv: what is published, and who builds

    The link to the current environment is switched only to files that were verified; at
    most one build of an environment runs, and every channel is closed once. *)
From S2P Require Import Prelude GoStrings GoPath GoCrypto GoTime Handler Resource Store ApiResource Machine PxeFiles OsImageApi OsImageSafe BootEnv.

(** ** Paths *)

Lemma join_ne x p : filepath_Join x p ≠ "".
Proof.
  unfold filepath_Join. rewrite path_Clean_render. unfold render. case_bool_decide as E; [done|]. intros E'. apply E. apply (f_equal to_bytes) in E'. by rewrite to_of_bytes in E'.
Qed.
Lemma join_base x (s : string) : x ≠ "" → entry (to_bytes s) → filepath_Base (filepath_Join x s) = s.
Proof.
  intros Hx Hs. rewrite <- (of_to_bytes s) at 2. apply (at_base x [] (to_bytes s)). rewrite <- (of_to_bytes s) at 2. apply join_at; [done|]. by apply below_name.
Qed.
Lemma is_entry (s : string) : bool_decide (to_bytes s ≠ [] ∧ to_bytes s ≠ dot ∧ to_bytes s ≠ dotdot ∧ "/"%char ∉ to_bytes s) = true → entry (to_bytes s).
Proof. intros (H1 & H2 & H3 & H4)%bool_decide_eq_true. by repeat split. Qed.

(** The artifacts of a manifest that is accepted. *)
Lemma check_keys_some arts keys key : check_keys arts keys = None → key ∈ keys → is_Some (arts !! key).
Proof.
  induction keys as [|k keys IH]; cbn [check_keys]; [by intros _ ?%elem_of_nil|]. destruct (arts !! k) as [a|] eqn:E; [|done]. case_match; [done|]. case_match; [done|].
  intros Hc [->|Hk]%elem_of_cons; [by rewrite E|by apply IH].
Qed.
Lemma validate_keys name manifest key dst : validatePrebuiltManifest name manifest = None → (key, dst) ∈ artifactMap → is_Some (pm_Artifacts manifest !! key).
Proof.
  unfold validatePrebuiltManifest. case_match; [done|]. intros Hc Hk. eapply check_keys_some; [exact Hc|]. unfold artifactMap in Hk. rewrite !elem_of_cons, elem_of_nil in Hk.
  rewrite !elem_of_cons. naive_solver.
Qed.

Section verified.
Context (env : BootEnvironment) (cfg : Config) (name : string).
Local Abbreviation H := (Hd MState boot_event unit).

(** The file is in place, and has the sum and the size of the manifest. *)
Definition verified_at (p : string) (a : prebuiltArtifact) (l : list boot_event) : Prop :=
  (∃ src, BRename src p None ∈ l) ∧ (expected_sum (pa_SHA256 a) = "" ∨ ∃ data, BRead p data ∈ l ∧ EqualFold (hex_encode (sha256 data)) (expected_sum (pa_SHA256 a)) = true)
  ∧ (0 < pa_Size a → BSize p (pa_Size a) ∈ l).
Definition artifact_dir (buildID : string) : string := filepath_Join (filepath_Join (filepath_Join (data_dir cfg) "artifacts") name) buildID.
(** Every artifact of a manifest of the environment is. *)
Definition all_verified (buildID : string) (l : list boot_event) : Prop :=
  ∃ manifest, validatePrebuiltManifest name manifest = None
    ∧ ∀ key dst, (key, dst) ∈ artifactMap → ∃ a, pm_Artifacts manifest !! key = Some a ∧ verified_at (filepath_Join (artifact_dir buildID) dst) a l.
(** The link is switched to a directory with verified files; a build reports about its own
    environment. *)
Definition switch_ok (l : list boot_event) (c : boot_event) : Prop :=
  match c with
  | BStatus st => be_Name st = name
  | BFinish n _ => n = name
  | BRename src dst _ => dst = current_link cfg name → ∃ buildID, BSymlink buildID src None ∈ l ∧ all_verified buildID l
  | _ => True
  end.
Local Abbreviation G := switch_ok.
(** The calls that need no reason. *)
Definition plain (c : boot_event) : Prop := match c with BRename _ _ _ | BStatus _ | BFinish _ _ => False | _ => True end.

Lemma lasting_verified p a : lasting (verified_at p a).
Proof.
  intros l x ((src & H1) & H2 & H3). split_and!; [exists src; by apply lasting_in| |intros Hs; by apply lasting_in, H3].
  destruct H2 as [H2|(data & H2 & ?)]; [by left|right; exists data; split; [by apply lasting_in|done]].
Qed.
Lemma other_base dst : filepath_Base dst ≠ "current" → dst ≠ current_link cfg name.
Proof. intros Hb ->. apply Hb. apply join_base; [apply join_ne|by apply is_entry]. Qed.

Section rules.
Context (Q : list boot_event → Prop) (HQ : lasting Q).
Ltac silent := apply abides_silent; intros st; split; [reflexivity|by eexists].
Lemma bo_step : abides G Q (bstep env : H nat) (fun _ => Q).
Proof. silent. Qed.
Lemma bo_now : abides G Q (bnow env : H Time) (fun _ => Q).
Proof. silent. Qed.
Lemma bo_call c : plain c → abides G Q (bcall env c) (fun _ => Q).
Proof.
  intros Hc. eapply abides_impl; [apply (abides_logged _ _ (fun _ => c)); [intros st; eexists; by split|exact HQ|]|done|by intros ? ? []].
  intros l _ _. by destruct c.
Qed.
Lemma bo_rename src dst : (∀ l, Q l → dst = current_link cfg name → ∃ buildID, BSymlink buildID src None ∈ l ∧ all_verified buildID l) →
  abides G Q (brename env src dst) (fun r l => Q l ∧ BRename src dst r ∈ l).
Proof. intros HT. apply abides_logged; [intros st; eexists; by split|done|]. intros l r Hl. exact (HT l Hl). Qed.
Lemma bo_symlink target p : abides G Q (bsymlink env target p) (fun r l => Q l ∧ BSymlink target p r ∈ l).
Proof. by apply abides_logged; [intros st; eexists; by split| |]. Qed.
Lemma bo_emit c : (∀ l, switch_ok l c) → abides G Q (emit c : H unit) (fun _ l => Q l ∧ c ∈ l).
Proof. intros Hc. apply (abides_logged _ _ (fun _ => c)); [intros st; by eexists|done|]. intros l _ _. apply Hc. Qed.
Lemma bo_copy p : abides G Q (bcopy env p) (fun _ => Q).
Proof.
  eapply abides_bind; [apply bo_step|]. intros k. destruct (bv_data env k) as [data e]. eapply abides_bind; [by apply bo_emit|]. intros ?. apply abides_ret. by intros l [].
Qed.
Lemma bo_read p : abides G Q (bread env p) (fun r l => Q l ∧ ∀ data, r = Ok data → BRead p data ∈ l).
Proof.
  eapply abides_bind; [apply bo_step|]. intros k. destruct (bv_read env k p) as [data|e].
  - eapply abides_bind; [by apply bo_emit|]. intros ?. apply abides_ret. intros l [? ?]. split; [done|]. by intros ? [= <-].
  - eapply abides_bind; [by apply (abides_ret _ _ tt (fun _ => Q))|]. intros ?. apply abides_ret. by split.
Qed.
Lemma bo_size p : abides G Q (bsize env p) (fun r l => Q l ∧ ∀ size, r = Some size → BSize p size ∈ l).
Proof.
  eapply abides_bind; [apply bo_step|]. intros k. destruct (bv_stat env k p) as [[d size]|]; [|apply abides_ret; by split].
  eapply abides_bind; [by apply bo_emit|]. intros ?. apply abides_ret. intros l []. split; [done|]. by intros ? [= <-].
Qed.
Lemma bo_status s : be_Name s = name → abides G Q (setStatus env s) (fun _ => Q).
Proof.
  intros Hs. eapply abides_bind; [silent|]. intros ?. eapply abides_impl; [by apply bo_emit|done|by intros ? ? []].
Qed.
End rules.

(** *** A file in its place *)

Definition in_place (Q : list boot_event → Prop) (dst : string) (r : option error) (l : list boot_event) : Prop := Q l ∧ (r = None → ∃ src, BRename src dst None ∈ l).
Lemma lasting_place Q dst r : lasting Q → lasting (in_place Q dst r).
Proof. intros HQ l x [Hl Hr]. split; [by apply HQ|]. intros E. destruct (Hr E) as [src Hs]. exists src. by apply lasting_in. Qed.

Lemma bo_put_file tmp dst finish Q : lasting Q → filepath_Base dst ≠ "current" → abides G Q finish (fun _ => Q) → abides G Q (put_file env tmp dst finish) (in_place Q dst).
Proof.
  intros HQ Hb Hf. apply other_base in Hb. unfold put_file. eapply abides_bind; [by apply (bo_call _ HQ)|]. intros [e|]; [by apply abides_ret|].
  eapply abides_bind; [by apply bo_copy|]. intros e. eapply abides_bind; [apply bo_step|]. intros k. cbv zeta. eapply (abides_bind _ _ _ _ (in_place Q dst)).
  - destruct e as [e|], (bv_call env k) as [e'|]; try (by apply abides_ret). eapply abides_bind; [exact Hf|]. intros [e|]; [by apply abides_ret|].
    eapply abides_impl; [by apply (bo_rename _ HQ)|done|]. intros [e|] l []; by split; [|eauto].
  - intros r. eapply abides_bind; [by apply bo_call; [by apply lasting_place|]|]. intros ?. by apply abides_ret.
Qed.
Lemma bo_once url dst Q : lasting Q → filepath_Base dst ≠ "current" → abides G Q (downloadFileOnce env url dst) (in_place Q dst).
Proof.
  intros HQ Hb. eapply abides_bind; [by apply (bo_call _ HQ)|]. intros [e|]; [by apply abides_ret|]. eapply abides_bind; [apply bo_step|]. intros k.
  eapply abides_bind; [by apply (bo_emit _ HQ)|]. intros ?. eapply (abides_impl _ _ Q); [|by intros l []|intros ? ? Hx; exact Hx].
  destruct (bv_http env k url) as [status|e]; [|by apply abides_ret]. case_bool_decide; [|by apply abides_ret]. apply bo_put_file; [done..|by apply abides_ret].
Qed.
Lemma bo_tries n url dst e Q : lasting Q → filepath_Base dst ≠ "current" → (n = 0%nat → e ≠ None) → abides G Q (download_tries env n url dst e) (in_place Q dst).
Proof.
  intros HQ Hb. revert e. induction n as [|n IH]; intros e He; cbn [download_tries]; [apply abides_ret; intros l Hl; split; [done|by intros ->; edestruct He]|].
  eapply abides_bind; [by apply bo_once|]. intros [e'|]; [|by apply abides_ret]. eapply abides_bind; [apply bo_step|]. intros k.
  eapply (abides_impl _ _ Q); [|by intros l []|intros ? ? Hx; exact Hx]. destruct (bv_expired env k); [by apply abides_ret|]. by apply IH.
Qed.
Lemma bo_copyLocation src dst Q : lasting Q → filepath_Base dst ≠ "current" → abides G Q (copyLocation env src dst) (in_place Q dst).
Proof.
  intros HQ Hb. unfold copyLocation. destruct (isHTTPLocation src).
  - eapply abides_bind; [by apply bo_tries|]. intros [e|]; [by apply abides_ret|]. eapply abides_bind; [apply bo_step|]. intros k. apply abides_ret. intros l [Hl Hp]. split; [done|]. intros _. by apply Hp.
  - eapply abides_bind; [apply bo_step|]. intros k. destruct (bv_call env k); [by apply abides_ret|]. eapply abides_bind; [by apply (bo_call _ HQ)|]. intros [e|]; [by apply abides_ret|].
    apply bo_put_file; [done..|]. eapply abides_bind; [apply bo_step|]. intros ?. by apply abides_ret.
Qed.

(** *** An artifact *)

Lemma bo_verify p expected Q : lasting Q → abides G Q (verifySHA256 env p expected)
  (fun r l => Q l ∧ (r = None → expected_sum expected = "" ∨ ∃ data, BRead p data ∈ l ∧ EqualFold (hex_encode (sha256 data)) (expected_sum expected) = true)).
Proof.
  intros HQ. unfold verifySHA256. cbv zeta. case_bool_decide as E; [apply abides_ret; by split; [|left]|]. eapply abides_bind; [by apply bo_read|]. intros [data|e]; apply abides_ret.
  - intros l [Hl Hr]. split; [done|]. destruct (EqualFold _ _) eqn:Ef; [|done]. intros _. right. exists data. split; [by apply Hr|done].
  - by intros l [].
Qed.
Lemma bo_artifact a src dir dst Q : lasting Q → entry (to_bytes dst) → dst ≠ "current" → dir ≠ "" →
  abides G Q (fetch_artifact env a src dir dst) (fun r l => Q l ∧ (r = None → verified_at (filepath_Join dir dst) a l)).
Proof.
  intros HQ He Hd Hdir. unfold fetch_artifact. cbv zeta. set (p := filepath_Join dir dst).
  assert (filepath_Base p ≠ "current") as Hb by (unfold p; by rewrite join_base).
  eapply abides_bind; [by apply bo_copyLocation|]. intros [e|]; [apply abides_ret; by intros l []|].
  eapply abides_bind; [apply bo_verify; by apply lasting_place|]. intros [e|]; [apply abides_ret; by intros l [[] _]|].
  set (Q2 := fun l => in_place Q p None l ∧ (expected_sum (pa_SHA256 a) = "" ∨ ∃ data, BRead p data ∈ l ∧ EqualFold (hex_encode (sha256 data)) (expected_sum (pa_SHA256 a)) = true)).
  assert (lasting Q2) as HQ2.
  { apply lasting_and; [by apply lasting_place|]. intros l x [?|(data & ? & ?)]; [by left|right]. exists data. split; [by apply lasting_in|done]. }
  eapply (abides_impl _ _ Q2); [|by intros l [? H]; split; [|apply H]|intros ? ? Hx; exact Hx]. destruct (0 <? pa_Size a) eqn:Es; cbn [negb].
  - eapply abides_bind; [by apply bo_size|]. intros [size|]; apply abides_ret; [|by intros l [[[] _] _]]. intros l [[[Hl Hp] Hv] Hz]. split; [done|].
    destruct (size =? pa_Size a) eqn:Ez; [|done]. intros _. apply Z.eqb_eq in Ez as ->. split_and!; [by apply Hp|done|intros _; by apply Hz].
  - apply abides_ret. intros l [[Hl Hp] Hv]. split; [done|]. intros _. split_and!; [by apply Hp|done|]. apply Z.ltb_ge in Es. lia.
Qed.
Lemma bo_artifacts arts base dir todo st Q : lasting Q → dir ≠ "" → be_Name st = name → (∀ key dst, (key, dst) ∈ todo → (key, dst) ∈ artifactMap) →
  abides G Q (fetch_artifacts env arts base dir st todo)
    (fun r l => Q l ∧ (r.2 = None → ∀ key dst, (key, dst) ∈ todo → verified_at (filepath_Join dir dst) (default (mkPrebuiltArtifact "" "" "" 0) (arts !! key)) l)).
Proof.
  intros HQ Hdir. revert st Q HQ. induction todo as [|[key dst] todo IH]; intros st Q HQ Hst Hin; cbn [fetch_artifacts].
  { apply abides_ret. intros l Hl. split; [done|]. by intros _ ? ? ?%elem_of_nil. }
  eapply abides_bind; [apply bo_now|]. intros now. cbv zeta. eapply abides_bind; [by apply bo_status|]. intros ?.
  assert (entry (to_bytes dst) ∧ dst ≠ "current") as [He Hd].
  { pose proof (Hin key dst (list_elem_of_here _ _)) as Hk. unfold artifactMap in Hk. rewrite !elem_of_cons, elem_of_nil in Hk.
    destruct Hk as [[= -> ->]|[[= -> ->]|[[= -> ->]|[]]]]; (split; [by apply is_entry|done]). }
  eapply abides_bind; [by apply bo_artifact|]. intros [e|]; [apply abides_ret; by intros l []|].
  set (art := default _ _). set (Q' := fun l => Q l ∧ verified_at (filepath_Join dir dst) art l).
  eapply (abides_impl _ _ Q'); [|by intros l [? H]; split; [|apply H]|intros ? ? Hx; exact Hx].
  eapply abides_impl; [apply (IH _ Q'); [apply lasting_and; [done|apply lasting_verified]|exact Hst|intros k d Hk; apply Hin; by right]|done|].
  intros [st' e] l [[Hl Hv] Hr]. split; [done|]. intros Ee k d [[= -> ->]|Hk]%elem_of_cons; [done|by apply Hr].
Qed.

(** *** Links *)

Lemma bo_link target dst next Q : lasting Q → (dst = current_link cfg name → ∀ l, Q l → all_verified target l) → lasting (all_verified target) →
  abides G Q next (fun _ => Q) → abides G Q (put_link env target dst next) (fun _ => Q).
Proof.
  intros HQ Hv HL Hn. unfold put_link. cbv zeta. eapply abides_bind; [by apply (bo_call _ HQ)|]. intros ?. eapply abides_bind; [by apply (bo_symlink _ HQ)|].
  intros [e|]; [apply abides_ret; by intros l []|]. eapply abides_bind; [apply bo_rename; [apply lasting_and; [done|apply lasting_in]|]|].
  { intros l [Hl Hs] E. exists target. split; [done|by apply Hv]. }
  intros r. eapply (abides_impl _ _ Q); [|by intros l [[] _]|intros ? ? Hx; exact Hx]. eapply (abides_bind _ _ _ _ (fun _ => Q)); [destruct r; [by apply abides_ret|done]|].
  intros r'. eapply abides_bind; [by apply (bo_call _ HQ)|]. intros ?. by apply abides_ret.
Qed.
Lemma lasting_all buildID : lasting (all_verified buildID).
Proof.
  intros l x (manifest & Hm & Hv). exists manifest. split; [done|]. intros key dst Hk. destruct (Hv key dst Hk) as (a & ? & ?). exists a. split; [done|by apply lasting_verified].
Qed.
Lemma bo_links dir linuxDir names Q : lasting Q → linuxDir ≠ "" → (∀ n, n ∈ names → entry (to_bytes n) ∧ n ≠ "current") →
  abides G Q (put_links env dir linuxDir names) (fun _ => Q).
Proof.
  intros HQ Hd. induction names as [|n names IH]; intros Hn; cbn [put_links]; [by apply abides_ret|]. destruct (Hn n (list_elem_of_here _ _)) as [He Hc].
  apply bo_link; [done| |apply lasting_all|]; [|apply IH; intros x Hx; apply Hn; by right]. intros E. exfalso. revert E. apply other_base. by rewrite join_base.
Qed.
Lemma bo_compat dir Q : lasting Q → abides G Q (publishPXECompatibilityFiles env cfg dir) (fun _ => Q).
Proof.
  intros HQ. eapply abides_bind; [by apply (bo_call _ HQ)|]. intros [e|]; [by apply abides_ret|]. apply bo_links; [done|apply join_ne|].
  unfold boot_files. intros n. rewrite !elem_of_cons, elem_of_nil. intros [->|[->|[->|[]]]]; (split; [by apply is_entry|done]).
Qed.

(** *** The build *)

Lemma bo_publish buildID base manifest logPath s Q : lasting Q → be_Name s = name → Permutation (bv_order env) artifactMap → validatePrebuiltManifest name manifest = None →
  abides G Q (publish_build env cfg name buildID (artifact_dir buildID) logPath base manifest s) (fun _ => Q).
Proof.
  intros HQ Hs Hperm Hm. unfold publish_build. eapply abides_bind; [by apply (bo_call _ HQ)|]. intros [e|]; [by apply abides_ret|].
  eapply abides_bind; [apply bo_artifacts; [done|apply join_ne|done|intros key dst; by rewrite Hperm]|]. intros [st' [e|]]; [apply abides_ret; by intros l []|].
  set (Q' := fun l => Q l ∧ all_verified buildID l). assert (lasting Q') as HQ' by (apply lasting_and; [done|apply lasting_all]).
  apply (abides_impl _ _ Q' _ (fun _ => Q) (fun _ => Q')); [| |by intros a l []].
  2: { intros l [Hl Hv]. split; [done|]. exists manifest. split; [done|]. intros key dst Hk. specialize (Hv eq_refl key dst). rewrite Hperm in Hv. specialize (Hv Hk).
       destruct (validate_keys _ _ _ _ Hm Hk) as [a Ha]. exists a. split; [done|]. by rewrite Ha in Hv. }
  eapply abides_bind; [by apply (bo_call _ HQ')|]. intros [e|]; [by apply abides_ret|]. eapply abides_bind; [by apply bo_compat|]. intros [e|]; [by apply abides_ret|].
  eapply abides_bind; [apply bo_link; [done|by intros _ l []|apply lasting_all|by apply (bo_call _ HQ')]|]. intros [e|]; [by apply abides_ret|].
  eapply abides_bind; [apply bo_now|]. intros now. by apply abides_ret.
Qed.
Lemma bo_location loc Q : lasting Q → abides G Q (readLocation env loc) (fun _ => Q).
Proof.
  intros HQ. unfold readLocation. destruct (isHTTPLocation loc).
  - eapply abides_bind; [apply bo_step|]. intros k. eapply abides_bind; [by apply (bo_emit _ HQ)|]. intros ?. eapply (abides_impl _ _ Q); [|by intros l []|intros ? ? Hx; exact Hx].
    destruct (bv_http env k loc) as [status|e]; [|by apply abides_ret]. case_bool_decide; [|by apply abides_ret]. eapply abides_bind; [apply bo_step|]. intros k'.
    by apply abides_ret.
  - eapply abides_impl; [by apply bo_read|done|by intros a l []].
Qed.
Lemma bo_prebuilt buildID buildDir logPath s Q : lasting Q → be_Name s = name → Permutation (bv_order env) artifactMap →
  abides G Q (fetchPrebuilt env cfg name buildID buildDir logPath s) (fun _ => Q).
Proof.
  intros HQ Hs Hperm. unfold fetchPrebuilt. destruct (resolvePrebuiltManifestLocation _ _) as [loc base]. eapply abides_bind; [apply bo_now|]. intros now. cbv zeta.
  eapply abides_bind; [by apply bo_status|]. intros ?. eapply abides_bind; [by apply bo_location|]. intros [raw|e]; [|by apply abides_ret].
  destruct (bv_manifest env raw) as [manifest|e]; [|by apply abides_ret]. destruct (validatePrebuiltManifest name manifest) eqn:Hm; [by apply abides_ret|].
  eapply abides_bind; [by apply bo_publish|]. intros [st' e]. eapply (abides_bind _ _ _ _ (fun _ => Q)); [|intros ?; by apply abides_ret]. destruct e; by apply (bo_call _ HQ).
Qed.
Lemma bo_fresh Q : lasting Q → Permutation (bv_order env) artifactMap → abides G Q (build_fresh env cfg name) (fun _ => Q).
Proof.
  intros HQ Hperm. unfold build_fresh. eapply abides_bind; [apply bo_now|]. intros t. cbv zeta.
  assert (∀ e : error, abides G Q (now ← bnow env; mret (brief name PhaseError "" now, Some e) : H _) (fun _ => Q)) as Hfail.
  { intros e. eapply abides_bind; [apply bo_now|]. intros ?. by apply abides_ret. }
  eapply abides_bind; [by apply (bo_call _ HQ)|]. intros [e|]; [apply Hfail|]. eapply abides_bind; [by apply (bo_call _ HQ)|]. intros e.
  eapply (abides_bind _ _ _ _ (fun _ => Q)); [|intros r; eapply abides_bind; [by apply (bo_call _ HQ)|]; intros ?; by apply abides_ret].
  destruct e as [e|]; [apply Hfail|]. eapply abides_bind; [by apply (bo_call _ HQ)|]. intros [e|]; [apply Hfail|]. eapply abides_bind; [apply bo_now|]. intros now.
  eapply abides_bind; [by apply bo_status|]. intros ?. case_bool_decide; [by apply abides_ret|by apply bo_prebuilt].
Qed.

Lemma bo_files resolved fs Q : abides G Q
  ((fix files (fs : list string) : H (option string) :=
      match fs with
      | [] => mret (Some resolved)
      | f :: fs => k ← bstep env; match bv_stat env k (filepath_Join resolved f) with
                                  | Some (dir, size) => if dir || (size =? 0) then mret None else files fs
                                  | None => mret None
                                  end
      end) fs) (fun _ => Q).
Proof.
  induction fs as [|f fs IH]; [by apply abides_ret|]. eapply abides_bind; [apply bo_step|]. intros k. destruct (bv_stat env k _) as [[dir size]|]; [|by apply abides_ret].
  destruct (dir || (size =? 0)); [by apply abides_ret|exact IH].
Qed.
Lemma bo_getstatus n Q : abides G Q (GetStatus env cfg n) (fun _ => Q).
Proof.
  unfold GetStatus. cbv zeta. eapply abides_bind; [apply abides_silent; intros st; split; [reflexivity|by eexists]|]. intros [st|]; [by apply abides_ret|].
  case_match; [eapply abides_bind; [apply bo_now|]; intros ?; by apply abides_ret|]. eapply (abides_bind _ _ _ _ (fun _ => Q)).
  { eapply abides_bind; [apply bo_step|]. intros k. destruct (bv_resolve env k _); [apply bo_files|by apply abides_ret]. }
  intros [dir|]; [|eapply abides_bind; [apply bo_now|]; intros ?; by apply abides_ret]. eapply abides_bind; [apply bo_now|]. intros now.
  eapply (abides_bind _ _ _ _ (fun _ => Q)); [eapply abides_bind; [apply bo_step|]; intros ?; by apply abides_ret|]. intros saved. unfold with_log.
  case_match; [by apply abides_ret|]. eapply abides_bind; [apply bo_step|]. intros k. by apply abides_ret.
Qed.
Lemma bo_run force : Permutation (bv_order env) artifactMap → abides G (fun _ => True) (runBuild env cfg name force) (fun _ _ => True).
Proof.
  intros Hperm. assert (lasting (fun _ : list boot_event => True)) as HQ by apply lasting_const. unfold runBuild, build. eapply (abides_bind _ _ _ _ (fun _ _ => True)).
  - destruct force; [by apply (bo_fresh _ HQ)|]. eapply abides_bind; [apply bo_getstatus|]. intros st. case_bool_decide; [by apply abides_ret|by apply (bo_fresh _ HQ)].
  - intros [st e]. eapply abides_bind; [apply bo_now|]. intros now. eapply abides_bind; [apply abides_silent; intros st'; split; [reflexivity|by eexists]|]. intros ?.
    eapply abides_bind; [by apply (bo_emit _ HQ)|]. intros ?. by apply abides_ret.
Qed.
End verified.


(** ** The goroutines of the manager *)

(** The shared state, and the goroutines that run a build: its environment and the
    channel it was registered with. *)
Record World := mkWorld { w_state : MState; w_builds : list (string * nat) }.
Definition initial : World := mkWorld (mkMState ∅ ∅ ∅ 0 ∅ false) [].

Inductive world_step : World → World → Prop :=
| step_start m bs name now m' ch : start_section name now m = (m', inr ch) → world_step (mkWorld m bs) (mkWorld m' ((name, ch) :: bs))
| step_started m bs name now m' st : start_section name now m = (m', inl st) → world_step (mkWorld m bs) (mkWorld m' bs)
| step_ensure m bs name now m' ch : ensure_section name now m = (m', inr ch) → world_step (mkWorld m bs) (mkWorld m' ((name, ch) :: bs))
| step_wait m bs name now m' ch : ensure_section name now m = (m', inl ch) → world_step (mkWorld m bs) (mkWorld m' bs)
| step_report m bs name ch st : (name, ch) ∈ bs → be_Name st = name → world_step (mkWorld m bs) (mkWorld (set_status st m) bs)
| step_finish m bs bs' name ch st e now : Permutation bs ((name, ch) :: bs') → world_step (mkWorld m bs) (mkWorld (finishBuild name st e now m) bs').
Inductive world_reachable : World → Prop :=
| world_init : world_reachable initial
| world_next w w' : world_reachable w → world_step w w' → world_reachable w'.

(** Builds, running set and channels agree; a channel is open exactly while its build
    runs. *)
Record world_ok (w : World) : Prop := {
  ok_names : NoDup (w_builds w).*1;
  ok_done : ∀ name ch, mg_done (w_state w) !! name = Some ch ↔ (name, ch) ∈ w_builds w;
  ok_running : ∀ name, name ∈ mg_running (w_state w) ↔ name ∈ (w_builds w).*1;
  ok_channels : NoDup (w_builds w).*2;
  ok_open : ∀ ch, (ch < mg_next (w_state w))%nat ↔ ch ∈ mg_closed (w_state w) ∨ ch ∈ (w_builds w).*2;
  ok_closed : ∀ ch, ch ∈ (w_builds w).*2 → ch ∉ mg_closed (w_state w);
  ok_panic : mg_panic (w_state w) = false }.

Lemma registered_ok m bs name msg now : world_ok (mkWorld m bs) → name ∉ bs.*1 → world_ok (mkWorld (register name msg now m) ((name, mg_next m) :: bs)).
Proof.
  intros Hw Hn. assert (mg_next m ∉ bs.*2) as Hnew. { intros Hin. pose proof (proj2 (ok_open _ Hw (mg_next m)) (or_intror Hin)). cbn in *. lia. }
  destruct Hw as [H1 H2 H3 H4 H5 H6 H7]; cbn in *. split; cbn.
  - by constructor.
  - intros n c. rewrite elem_of_cons. destruct (decide (n = name)) as [->|Hne].
    + rewrite lookup_insert_eq. split; [intros [= <-]; by left|]. intros [[= ->]|Hin]; [done|]. apply list_elem_of_fmap_2 with (f := fst) in Hin. done.
    + rewrite lookup_insert_ne by done. rewrite H2. naive_solver.
  - intros n. rewrite elem_of_union, elem_of_singleton, elem_of_cons, H3. done.
  - by constructor.
  - intros c. rewrite elem_of_cons. specialize (H5 c). split; [intros Hc; destruct (decide (c = mg_next m)); [auto|]; assert (c < mg_next m)%nat by lia; naive_solver|].
    intros [Hc|[->|Hc]]; [|lia|]; assert (c < mg_next m)%nat by naive_solver; lia.
  - intros c. rewrite elem_of_cons. intros [->|Hc]; [|by apply H6]. intros Hin. assert (mg_next m < mg_next m)%nat by (apply H5; by left). lia.
  - done.
Qed.
Lemma world_ok_perm m bs bs' : Permutation bs bs' → world_ok (mkWorld m bs) → world_ok (mkWorld m bs').
Proof.
  intros Hp [H1 H2 H3 H4 H5 H6 H7]; cbn in *. assert (Permutation bs.*1 bs'.*1) as P1 by (by apply fmap_Permutation). assert (Permutation bs.*2 bs'.*2) as P2 by (by apply fmap_Permutation).
  split; cbn; [by rewrite <- P1|intros; by rewrite <- Hp|intros; by rewrite <- P1|by rewrite <- P2|intros; by rewrite <- P2|intros ?; rewrite <- P2; apply H6|done].
Qed.
Lemma finish_ok m bs name ch st e now : world_ok (mkWorld m ((name, ch) :: bs)) → world_ok (mkWorld (finishBuild name st e now m) bs).
Proof.
  intros [H1 H2 H3 H4 H5 H6 H7]; cbn in *. apply NoDup_cons in H1 as [N1 H1]. apply NoDup_cons in H4 as [N4 H4].
  assert (mg_done m !! name = Some ch) as Hd by (apply H2; by left). split; cbn; rewrite ?Hd; cbn.
  - done.
  - intros n c. rewrite lookup_delete_Some, H2, elem_of_cons. split; [intros (Hne & [[= -> ->]|Hin]); done|]. intros Hin. split; [|by right].
    intros ->. apply N1. by apply (list_elem_of_fmap_2 fst) in Hin.
  - intros n. rewrite elem_of_difference, elem_of_singleton, H3, elem_of_cons. split; [naive_solver|]. intros Hin. split; [by right|]. by intros ->.
  - done.
  - intros c. rewrite H5, elem_of_union, elem_of_singleton, elem_of_cons. naive_solver.
  - intros c Hc. rewrite elem_of_union, elem_of_singleton. intros [->|Hin]; [done|]. apply (H6 c); [by right|done].
  - rewrite H7, bool_decide_false; [done|]. apply H6. by left.
Qed.

Lemma reachable_ok w : world_reachable w → world_ok w.
Proof.
  induction 1 as [|w w' _ IH Hs].
  - split; cbn; [constructor|intros; by rewrite lookup_empty, elem_of_nil|intros; by rewrite elem_of_nil, elem_of_empty|constructor| |intros ? ?%elem_of_nil; done|done].
    intros ch. rewrite elem_of_nil, elem_of_empty. split; [lia|tauto].
  - destruct Hs as [m bs name now m' ch E|m bs name now m' st E|m bs name now m' ch E|m bs name now m' ch E|m bs name ch st Hin Hn|m bs bs' name ch st e now Hp].
    + unfold start_section in E. case_bool_decide as Hr; [done|]. injection E as <- <-. apply registered_ok; [done|]. by rewrite <- (ok_running _ IH name).
    + unfold start_section in E. case_bool_decide as Hr; [by injection E as <- _|done].
    + unfold ensure_section in E. destruct (mg_done m !! name) as [c|] eqn:Ed; [done|]. injection E as <- <-. apply registered_ok; [done|].
      intros Hin. apply list_elem_of_fmap in Hin as ([n c] & -> & Hin). apply (ok_done _ IH) in Hin. cbn in Ed, Hin. congruence.
    + unfold ensure_section in E. destruct (mg_done m !! name) as [c|] eqn:Ed; [by injection E as <- _|done].
    + destruct IH. by split.
    + eapply finish_ok. by eapply world_ok_perm.
Qed.

(** A build reports about the environment it was started for only, as [step_report]
    has it. *)
Lemma build_reports_itself env cfg name force st pre post s : Permutation (bv_order env) artifactMap → hst_log st = [] →
  hst_log (runBuild env cfg name force st).1 = pre ++ BStatus s :: post → be_Name s = name.
Proof. intros Hperm Hl E. destruct (bo_run env cfg name force Hperm st I) as [He _]; [rewrite Hl; apply each_nil|]. exact (He _ _ _ E). Qed.

(** C27: at most one build of an environment runs.  However requests to ensure and to
    rebuild environments, reports and ends of builds interleave, no two builds of
    an environment run at once, the builds that run are those the manager lists, each
    under its own channel, no channel is closed twice, and a channel that was handed
    out is open exactly while its build runs: one that waits for it is released
    when that build ends. *)
Theorem one_build_at_a_time (w : World) : world_reachable w →
  NoDup (w_builds w).*1 ∧ (∀ name, name ∈ mg_running (w_state w) ↔ name ∈ (w_builds w).*1)
  ∧ (∀ name ch, mg_done (w_state w) !! name = Some ch ↔ (name, ch) ∈ w_builds w) ∧ mg_panic (w_state w) = false
  ∧ ∀ ch, (ch < mg_next (w_state w))%nat → (ch ∈ mg_closed (w_state w) ↔ ch ∉ (w_builds w).*2).
Proof.
  intros Hr%reachable_ok. destruct Hr as [H1 H2 H3 H4 H5 H6 H7]. split_and!; [done..|]. intros ch Hc. apply H5 in Hc as [Hc|Hc]; split; try done.
  - intros _ Hin. by apply (H6 ch).
  - intros Hin. by edestruct H6.
Qed.

(** ** Witnesses *)

Definition ubuntu : string := "ubuntu-minimal-cloud-amd64".
Definition x_sum : string := "2d711642b726b04401627ca9fbac32f5c8530fb1903cc4db02258717921a4881".
Definition manifest_of (sum : string) : prebuiltManifest :=
  mkPrebuiltManifest ubuntu {[ "kernel" := mkPrebuiltArtifact "boot-kernel" "" sum 1; "initrd" := mkPrebuiltArtifact "boot-initrd" "" sum 0;
                               "rootfs" := mkPrebuiltArtifact "" "https://mirror/rootfs.squashfs" sum 1 ]}.
(** Everything is answered with the byte [x]; the calls [bad] fail. *)
Definition boot_env (sum : string) (bad : nat → bool) : BootEnvironment :=
  mkBootEnvironment (fun _ m => m) (fun _ => 63902822400 * Second) (fun k => if bad k then Some (ErrNew "no space left on device") else None) (fun _ _ => Ok (to_bytes "x"))
    (fun _ _ => Some (false, 1)) (fun _ _ => None) (fun _ _ => None) (fun _ _ => Ok 200) (fun _ => (to_bytes "x", None)) (fun _ => false) (fun _ => None)
    (fun _ => Ok (manifest_of sum)) artifactMap.
Definition boot_cfg : Config := mkConfig "/var/lib/gomi" "/srv/files" "https://mirror/boot".
Definition boot_start (m : MState) : HState MState boot_event := mkHState 0 m [].
Local Abbreviation boot_run sum bad := (runBuild (boot_env sum bad) boot_cfg ubuntu true (boot_start (w_state initial))).
Local Abbreviation current := "/var/lib/gomi/bootenv/artifacts/ubuntu-minimal-cloud-amd64/current".
Local Abbreviation built := "/var/lib/gomi/bootenv/artifacts/ubuntu-minimal-cloud-amd64/20260101T000000Z".

Definition switches (c : boot_event) : bool := match c with BRename _ dst _ => dst ==? current | _ => false end.
Definition reads (p : string) (c : boot_event) : bool := match c with BRead q _ => q ==? p | _ => false end.

Lemma boot_run_switches : ∃ pre post, hst_log (boot_run x_sum (fun _ => false)).1 = pre ++ BRename (current +:+ ".tmp") (current_link boot_cfg ubuntu) None :: post.
Proof.
  assert (hst_log (boot_run x_sum (fun _ => false)).1 !! 49%nat = Some (BRename (current +:+ ".tmp") (current_link boot_cfg ubuntu) None)) as Hi by (vm_compute; reflexivity).
  apply list_elem_of_lookup_2 in Hi. by apply list_elem_of_split in Hi.
Qed.

(** One request starts a build, a second one finds it, the build reports and ends. *)
Definition queued : MState := (start_section ubuntu 1 (w_state initial)).1.
Definition reported : MState := set_status (brief ubuntu PhaseBuilding "fetching boot environment" 2) queued.
Definition ended : MState := finishBuild ubuntu (brief ubuntu PhaseReady "" 3) None 3 reported.
Lemma ended_reachable : world_reachable (mkWorld ended []).
Proof.
  eapply world_next; [|by apply (step_finish reported [(ubuntu, 0%nat)] [] ubuntu 0 (brief ubuntu PhaseReady "" 3) None 3)].
  eapply world_next; [|by apply (step_report queued [(ubuntu, 0%nat)] ubuntu 0 (brief ubuntu PhaseBuilding "fetching boot environment" 2)); [apply list_elem_of_here|]].
  eapply world_next; [|by apply (step_started queued [(ubuntu, 0%nat)] ubuntu 1 queued (brief ubuntu PhaseBuilding "queued" 1))].
  eapply world_next; [apply world_init|]. by apply (step_start (w_state initial) [] ubuntu 1 queued 0).
Qed.
Lemma one_build_at_a_time_witness : mg_closed ended = {[ 0%nat ]} ∧ mg_panic ended = false ∧ ∀ name, name ∈ mg_running ended ↔ name ∈ ([] : list (string * nat)).*1.
Proof.
  split; [vm_compute; reflexivity|]. destruct (one_build_at_a_time (mkWorld ended []) ended_reachable) as (_ & Hr & _ & Hp & _). split; [exact Hp|exact Hr].
Defined.

(** A sum that is the bare prefix passes, and nothing is read to be compared. *)
Lemma bare_prefix_unverified :
  let r := boot_run "sha256:" (fun _ => false) in
  r.2 = inl None ∧ existsb switches (hst_log r.1) = true ∧ existsb (reads (built +:+ "/rootfs.squashfs")) (hst_log r.1) = false.
Proof. vm_compute. split_and!; reflexivity. Qed.
(** When the status file cannot be written, the directory the link was switched to is
    removed; the link, and the links for booting, stay. *)
Lemma switched_then_removed :
  let r := boot_run x_sum (Nat.eqb 57) in
  r.2 = inl (Some (ErrNew "no space left on device")) ∧ take 4 (drop 49 (hst_log r.1)) =
    [BRename (current +:+ ".tmp") current None; BCreate (built +:+ "/status.json"); BRemove (current +:+ ".tmp"); BRemoveAll built].
Proof. vm_compute. split; reflexivity. Qed.
(** A build is named after the second it starts in: one that fails in the same second
    removes the directory that was just published. *)
Lemma same_second_removes_current :
  hst_log (boot_run x_sum (fun _ => false)).1 !! 48%nat = Some (BSymlink "20260101T000000Z" (current +:+ ".tmp") None) ∧
  let r := boot_run "00" (fun _ => false) in
  existsb switches (hst_log r.1) = false ∧ existsb (fun c => match c with BRemoveAll p => p ==? built | _ => false end) (hst_log r.1) = true.
Proof. vm_compute. split_and!; reflexivity. Qed.
