(* ===== verification/SshKey.v ===== *)
(** * internal/sshkey, its stores and api/sshkey.go

    The registered public keys.  A key may be stored with its private half, which no
    answer shows. *)
From S2P Require Import Prelude GoStrings GoPath Handler Store ApiResource.

(** ** types.go, validate.go *)

Record SSHKey := mkSSHKey {
  sk_Name : string; sk_PublicKey : string; sk_PrivateKey : string; sk_Comment : string; sk_KeyType : string; sk_CreatedAt : Time; sk_UpdatedAt : Time }.
Global Instance SSHKey_fields : Fields SSHKey :=
  fpure mkSSHKey <*> sk_Name <*> sk_PublicKey <*> sk_PrivateKey <*> sk_Comment <*> sk_KeyType <*> sk_CreatedAt <*> sk_UpdatedAt.
Global Instance SSHKey_keyed : Keyed SSHKey := sk_Name.

Definition key_ErrInvalidName : error := ErrNew "name is required".
Definition ErrInvalidPublicKey : error := ErrNew "publicKey is required".
Definition ErrMalformedKey : error := ErrNew "publicKey: malformed SSH public key".
Definition knownKeyPrefixes : list string :=
  ["ssh-rsa "; "ssh-ed25519 "; "ecdsa-sha2-nistp256 "; "ecdsa-sha2-nistp384 "; "ecdsa-sha2-nistp521 "; "ssh-dss "; "sk-ssh-ed25519@openssh.com ";
   "sk-ecdsa-sha2-nistp256@openssh.com "].
Definition ValidateSSHKey (k : SSHKey) : option error :=
  if TrimSpace (sk_Name k) ==? "" then Some key_ErrInvalidName
  else if TrimSpace (sk_PublicKey k) ==? "" then Some ErrInvalidPublicKey
  else if existsb (HasPrefix (TrimSpace (sk_PublicKey k))) knownKeyPrefixes then None
  else Some ErrMalformedKey.

(** ** The stores *)

Abbreviation ssh_keys := (gmap string SSHKey).
(** memory/metadata_store.go *)
Definition SSHKeyStore_Upsert (m : ssh_keys) (k : SSHKey) : ssh_keys := <[sk_Name k := k]> m.
(** sql/sshkey_store.go: the row keeps its date of creation. *)
Definition sql_key_Upsert (m : ssh_keys) (k : SSHKey) : ssh_keys :=
  <[sk_Name k := match m !! sk_Name k with Some old => k <| sk_CreatedAt := sk_CreatedAt old |> | None => k end]> m.

(** ** service.go *)

Definition detectKeyType (pubKey : string) : string :=
  match index_byte " "%char (to_bytes (TrimSpace pubKey)) with
  | Some (S i) => of_bytes (take (S i) (to_bytes (TrimSpace pubKey)))
  | _ => ""
  end.
(** The record that [Create] writes. *)
Definition created_key (now : Time) (k : SSHKey) : SSHKey :=
  let k := k <| sk_CreatedAt := now |> <| sk_UpdatedAt := now |> in
  if sk_KeyType k ==? "" then k <| sk_KeyType := detectKeyType (sk_PublicKey k) |> else k.

(** ** api/sshkey.go *)

Record SSHKeyResponse := mkSSHKeyResponse {
  kr_Name : string; kr_SSHKeyID : string; kr_PublicKey : string; kr_Comment : string; kr_KeyType : string; kr_CreatedAt : Time; kr_UpdatedAt : Time }.
Definition sshKeyResponse (k : SSHKey) : SSHKeyResponse :=
  mkSSHKeyResponse (resourceName "sshKeys" (sk_Name k)) (sk_Name k) (sk_PublicKey k) (sk_Comment k) (sk_KeyType k) (sk_CreatedAt k) (sk_UpdatedAt k).
Definition sshKeyResponses (l : list SSHKey) : list SSHKeyResponse := sshKeyResponse <$> l.
Inductive key_body : Type := KError (msg : string) | KKey (k : SSHKeyResponse) | KList (l : list SSHKeyResponse) (nextPageToken : string) (totalSize : Z) | KNone.
Record KeyReply := mkKeyReply { kq_Status : Z; kq_Body : key_body }.
Definition key_error (status : Z) (e : error) : KeyReply := mkKeyReply status (KError (Error e)).
Definition key_missing (e : error) : KeyReply := if e ==? ErrNotFound then mkKeyReply 404 (KError "not found") else key_error 500 e.

Section api.
Context (upsert : ssh_keys → SSHKey → ssh_keys) (others : nat → ssh_keys → ssh_keys) (clock : nat → Time).
Local Abbreviation H := (Hd ssh_keys (string * string) KeyReply).

Definition key_Create (k : SSHKey) : H (result SSHKey) :=
  t ← tick;
  let k := created_key (clock t) k in
  match ValidateSSHKey k with
  | Some e => mret (Err e)
  | None => _ ← op others (fun m => (upsert m k, tt)); mret (Ok k)
  end.
Definition key_Get (name : string) : H (result SSHKey) := op others (fun m => (m, mem_get m name)).
Definition key_Delete (name : string) : H (result unit) :=
  op others (fun m => match mem_delete m name with Ok m' => (m', Ok tt) | Err e => (m, Err e) end).

Definition ListSSHKeys (q : Query) : H KeyReply :=
  keys ← op others (fun m => (m, mem_list m));
  mret match keys with
       | Err e => key_error 500 e
       | Ok keys =>
           match parsePagination q (Z.of_nat (length keys)) with
           | Err e => key_error 400 e
           | Ok p => mkKeyReply 200 (KList (sshKeyResponses (paginate keys p)) (pg_nextPageToken p) (pg_totalSize p))
           end
       end.
Definition GetSSHKey (name : string) : H KeyReply :=
  k ← key_Get name;
  mret match k with Err e => key_missing e | Ok k => mkKeyReply 200 (KKey (sshKeyResponse k)) end.
Definition CreateSSHKey (body : option SSHKey) : H KeyReply :=
  match body with
  | None => mret (mkKeyReply 400 (KError "invalid body"))
  | Some k =>
      created ← key_Create (k <| sk_Name := resourceID "sshKeys" (sk_Name k) |>);
      match created with
      | Err e => mret (key_error 400 e)
      | Ok k => _ ← emit ("create-ssh-key", "ssh key created: " +:+ sk_Name k); mret (mkKeyReply 201 (KKey (sshKeyResponse k)))
      end
  end.
Definition DeleteSSHKey (name : string) : H KeyReply :=
  d ← key_Delete name;
  match d with
  | Err e => mret (key_missing e)
  | Ok _ => _ ← emit ("delete-ssh-key", "ssh key deleted: " +:+ name); mret (mkKeyReply 204 KNone)
  end.
End api.

(** ** Keys *)

(** A key that was validated is one of the known kinds. *)
Lemma valid_key_known k : ValidateSSHKey k = None → ∃ prefix, prefix ∈ knownKeyPrefixes ∧ HasPrefix (TrimSpace (sk_PublicKey k)) prefix = true.
Proof.
  unfold ValidateSSHKey. case_match; [done|]. case_match; [done|]. destruct (existsb _ _) eqn:E; [|done]. intros _.
  apply existsb_exists in E as (p & Hp & E). exists p. by rewrite list_elem_of_In.
Qed.

(** Answers about a key do not depend on its private half. *)
Lemma private_key_hidden k p : sshKeyResponse (k <| sk_PrivateKey := p |>) = sshKeyResponse k.
Proof. done. Qed.

Definition alice : SSHKey := mkSSHKey "laptop" "ssh-ed25519 AAAA alice" "" "" "" 0 0.
Definition mallory : SSHKey := mkSSHKey "laptop" "ssh-ed25519 BBBB mallory" "" "" "" 0 0.
(** A key created under a name that is taken replaces the key of that name, and the
    answer says that it was created. *)
Lemma key_replaced_silently :
  let r := CreateSSHKey sql_key_Upsert (fun _ m => m) (fun _ => 2) (Some mallory) (mkHState 0 {[ "laptop" := created_key 1 alice ]} []) in
  kq_Status <$> (match r.2 with inl y => Some y | inr _ => None end) = Some 201
  ∧ sk_PublicKey <$> hst_store r.1 !! "laptop" = Some "ssh-ed25519 BBBB mallory" ∧ sk_KeyType <$> hst_store r.1 !! "laptop" = Some "ssh-ed25519".
Proof. vm_compute. split_and!; reflexivity. Qed.
