(* ===== verification/Yaml.v ===== *)
(** * Values of YAML

    What package yaml decodes into [any], and what it encodes.  The package itself is a
    parameter of the definitions that read or write documents; what is assumed of it is
    stated in UserDataSafe.v. *)
From S2P Require Import Prelude GoStrings.

#[local] Set Warnings "-register-all".

(** What a document reads as: maps have no order; scalars that are not one of these are
    their text. *)
Inductive yaml_value : Type :=
| VStr (s : string) | VBool (b : bool) | VInt (n : Z) | VList (l : list yaml_value) | VMap (m : gmap string yaml_value) | VOther (text : string).

(** A [map[string]any], and one in a list. *)
Abbreviation config := (gmap string yaml_value).
Definition entries (l : list (string * yaml_value)) : yaml_value := VMap (list_to_map l).

(** What is written of a value of a Go type: the fields of a struct keep their order. *)
Inductive yaml_doc : Type :=
| DStr (s : string) | DBool (b : bool) | DInt (n : Z) | DList (l : list yaml_doc) | DMap (m : gmap string yaml_doc) | DStruct (fields : list (string * yaml_doc)).

Definition as_list (v : option yaml_value) : option (list yaml_value) := match v with Some (VList l) => Some l | _ => None end.
(** [[]any{}], or what the map has under the key when that is a list. *)
Definition list_at (cfg : config) (key : string) : list yaml_value := default [] (as_list (cfg !! key)).
(** The strings among the values. *)
Fixpoint strings_of (l : list yaml_value) : list string :=
  match l with
  | [] => []
  | VStr s :: l => s :: strings_of l
  | _ :: l => strings_of l
  end.

Lemma strings_of_app l k : strings_of (l ++ k) = strings_of l ++ strings_of k.
Proof. induction l as [|[] l IH]; cbn; by rewrite ?IH. Qed.
Lemma strings_of_strs l : strings_of (VStr <$> l) = l.
Proof. induction l as [|s l IH]; [done|]. csimpl. by rewrite IH. Qed.
