(* ===== verification/Provision.v ===== *)
(** * internal/provision/build.go: the artifacts of an attempt

    What an attempt of a Linux machine is booted and configured with. *)
From S2P Require Import Prelude GoStrings GoPath Resource Machine Curtin SshKey Yaml.

(** The keys with one of the names. *)
Definition SelectKeysForRefs (allKeys : list SSHKey) (refs : list string) : list SSHKey :=
  let wanted := list_to_set (C := gset string) (List.filter (fun r => r !=? "") (TrimSpace <$> refs)) in
  if bool_decide (refs = []) then [] else List.filter (fun k => bool_decide (sk_Name k ∈ wanted)) allKeys.
Definition collectPublicKeys (keys : list SSHKey) : list string := List.filter (fun pk => pk !=? "") ((fun k => TrimSpace (sk_PublicKey k)) <$> keys).

Definition LoginUserPasswordConfigured (u : option LoginUserSpec) : bool := match u with Some u => TrimSpace (lu_Password u) !=? "" | None => false end.
Definition LoginUserConfigured (u : option LoginUserSpec) : bool := match u with Some u => TrimSpace (lu_Username u) !=? "" | None => false end.
Definition strs (l : list string) : yaml_value := VList (VStr <$> l).

(** The account of the login user. *)
Definition login_entry (pubKeys : list string) (u : LoginUserSpec) : yaml_value :=
  entries ([("name", VStr (TrimSpace (lu_Username u))); ("groups", strs ["adm"; "sudo"]); ("shell", VStr "/bin/bash"); ("sudo", VStr "ALL=(ALL) NOPASSWD:ALL")]
        ++ (if TrimSpace (lu_Password u) !=? "" then [("lock_passwd", VBool false); ("plain_text_passwd", VStr (TrimSpace (lu_Password u)))] else [("lock_passwd", VBool true)])
        ++ (if bool_decide (pubKeys = []) then [] else [("ssh_authorized_keys", strs pubKeys)])).
Definition BuildCloudInitUsers (pubKeys : list string) (u : option LoginUserSpec) : list yaml_value :=
  VStr "default" :: match u with Some u => if TrimSpace (lu_Username u) !=? "" then [login_entry pubKeys u] else [] | None => [] end.

Definition linux_config (m : Machine) (pubKeys : list string) : config :=
  let cfg : config :=
    {[ "hostname" := VStr (m_Hostname m); "locale" := VBool false; "manage_etc_hosts" := VBool true; "resize_rootfs" := VBool false;
       "ssh_pwauth" := VBool (LoginUserPasswordConfigured (m_LoginUser m)); "users" := VList (BuildCloudInitUsers pubKeys (m_LoginUser m));
       "runcmd" := strs ["systemctl enable ssh || true"; "systemctl enable serial-getty@ttyS0.service || true"] ]} in
  if negb (bool_decide (pubKeys = [])) && negb (LoginUserConfigured (m_LoginUser m)) then <["ssh_authorized_keys" := strs pubKeys]> cfg else cfg.

Section build.
Context (yamlMarshal : config → result string).

Definition buildLinuxCloudInit (m : Machine) (sshKeys : list SSHKey) : string :=
  match yamlMarshal (linux_config m (collectPublicKeys (SelectKeysForRefs sshKeys (m_SSHKeyRefs m)))) with
  | Err _ => "# failed to render cloud-config"
  | Ok raw => "#cloud-config" +:+ newline +:+ raw
  end.

(** [%s\n] for each line. *)
Definition text_lines (l : list string) : string := foldr (fun s r => s +:+ newline +:+ r) "" l.
Definition artifact (artifacts : gmap string string) (key : string) : string := default "" (artifacts !! key).
Definition buildPXEEntry (m : Machine) (artifacts : gmap string string) : string :=
  let a := artifact artifacts in
  if m_Firmware m ==? FirmwareUEFI
  then text_lines ["set default=install"; "menuentry 'Install " +:+ m_Name m +:+ "' {";
                   "  linux " +:+ a "kernel" +:+ " initrd=boot-initrd ip=dhcp overlayroot=tmpfs:recurse=0 rw root=squash:" +:+ a "rootfs" +:+ " ds=nocloud;s=" +:+ a "configURL";
                   "  initrd " +:+ a "initrd"; "}"]
  else text_lines ["DEFAULT install"; "LABEL install"; "  KERNEL " +:+ a "kernel"; "  INITRD " +:+ a "initrd";
                   "  APPEND initrd=boot-initrd ip=dhcp overlayroot=tmpfs:recurse=0 rw root=squash:" +:+ a "rootfs" +:+ " ds=nocloud;s=" +:+ a "configURL"].
Definition buildCoreDHCPSnippet (m : Machine) (tftpServer : string) : string :=
  let uefi := m_Firmware m ==? FirmwareUEFI in
  text_lines ["# " +:+ m_Name m; "if option arch == 00:0" +:+ (if uefi then "7" else "0") +:+ " {"; sh ("  filename ~" +:+ (if uefi then "ipxe.efi" else "undionly.kpxe") +:+ "~");
              "  next-server " +:+ tftpServer; "}"].
Definition boot_artifacts (m : Machine) (bootBaseURL : string) : gmap string string :=
  let prefix := TrimRight bootBaseURL "/" +:+ "/assets/" +:+ m_Name m in
  {[ "kernel" := prefix +:+ "/linux/boot-kernel"; "initrd" := prefix +:+ "/linux/boot-initrd"; "rootfs" := prefix +:+ "/linux/rootfs.squashfs";
     "configURL" := prefix +:+ "/nocloud/" ]}.
Definition BuildArtifacts (m : Machine) (bootBaseURL : string) (sshKeys : list SSHKey) : result (gmap string string * string) :=
  if EqualFold (TrimSpace (os_Family (m_OSPreset m))) "windows" then Err (ErrNew "Windows deployment uses the dedicated WinPE path; Linux provisioning artifacts are unsupported") else
  let artifacts := boot_artifacts m bootBaseURL in
  Ok (<["coreDHCP" := buildCoreDHCPSnippet m "10.0.0.2"]> (<["pxeConfig" := buildPXEEntry m artifacts]> artifacts), buildLinuxCloudInit m sshKeys).
End build.

(** Keys are given to the accounts of a target only if it names them. *)
Lemma only_named_keys allKeys refs k : k ∈ SelectKeysForRefs allKeys refs → k ∈ allKeys ∧ ∃ r, r ∈ refs ∧ sk_Name k = TrimSpace r.
Proof.
  unfold SelectKeysForRefs. case_bool_decide; [by intros ?%elem_of_nil|]. rewrite !list_elem_of_In, List.filter_In. intros [Hk Hn%bool_decide_eq_true].
  split; [done|]. rewrite elem_of_list_to_set, list_elem_of_In, List.filter_In in Hn. destruct Hn as [Hn _]. rewrite <- list_elem_of_In in Hn.
  apply list_elem_of_fmap in Hn as (r & E & Hr). by exists r.
Qed.
