(* ===== verification/Scripts.v ===== *)
(** * pxehttp: the texts that are given to a target

    The scripts, units and default documents of netplan_inject.go, debian_ifupdown.go,
    target_boot_cleanup.go, pxe_defaults.go, wol_shutdown.go and hypervisor_userdata.go,
    word by word; a tilde in a text [sh] is applied to stands for a double quote. *)
From S2P Require Import Prelude GoStrings GoPath Curtin.

Definition debianNetplanNetworkdSwitchScript : string := sh "#!/bin/sh
set -eu

if ! command -v netplan >/dev/null 2>&1; then
	echo ~netplan command is missing; install netplan.io before switching Debian networking~ >&2
	exit 1
fi

netplan generate

cat >/usr/local/sbin/gomi-rollback-networking <<'EOF'
#!/bin/sh
set -eu
systemctl unmask networking.service 2>/dev/null || true
systemctl enable networking.service 2>/dev/null || true
systemctl disable systemd-networkd.service systemd-networkd.socket 2>/dev/null || true
systemctl stop systemd-networkd.service systemd-networkd.socket 2>/dev/null || true
if [ -f /etc/network/interfaces.gomi-netplan-save ]; then
	mv -f /etc/network/interfaces.gomi-netplan-save /etc/network/interfaces
fi
if [ -f /etc/default/netplan.gomi-save ]; then
	mv -f /etc/default/netplan.gomi-save /etc/default/netplan
else
	rm -f /etc/default/netplan
fi
systemctl restart networking.service 2>/dev/null || true
EOF
chmod 0755 /usr/local/sbin/gomi-rollback-networking

cat >/etc/systemd/system/gomi-network-rollback.service <<'EOF'
[Unit]
Description=Rollback GOMI netplan networkd switch

[Service]
Type=oneshot
ExecStart=/usr/local/sbin/gomi-rollback-networking
EOF

cat >/etc/systemd/system/gomi-network-rollback.timer <<'EOF'
[Unit]
Description=Rollback GOMI netplan networkd switch unless cancelled

[Timer]
OnActiveSec=10min
AccuracySec=5s
Unit=gomi-network-rollback.service

[Install]
WantedBy=timers.target
EOF

systemctl daemon-reload
systemctl enable --now gomi-network-rollback.timer
if [ -f /etc/network/interfaces ]; then
	mv -f /etc/network/interfaces /etc/network/interfaces.gomi-netplan-save
fi
if [ -e /etc/default/netplan ]; then
	cp -a /etc/default/netplan /etc/default/netplan.gomi-save
fi
printf '%s\n' 'ENABLED=1' > /etc/default/netplan
systemctl enable systemd-networkd.service
systemctl restart systemd-networkd.service
systemctl disable --now networking.service 2>/dev/null || true
systemctl mask networking.service 2>/dev/null || true

if command -v networkctl >/dev/null 2>&1; then
	networkctl status --no-pager || true
	timeout 30 networkctl is-online || true
fi
ip addr show
ip route show
".

(** The URL of the health check, as a word of the shell. *)
Definition debianNetplanNetworkdConfirmScript (pxeBaseURL : string) : string :=
  let healthURL := TrimSuffix (TrimRight (TrimSpace pxeBaseURL) "/") "/pxe" +:+ "/healthz" in
  "#!/bin/sh
set -eu

if ! systemctl is-active --quiet systemd-networkd.service; then
	exit 0
fi
if command -v networkctl >/dev/null 2>&1; then
	timeout 30 networkctl is-online || true
fi
if curl -fsS --connect-timeout 5 --max-time 15 " +:+ shellQuote healthURL +:+ " >/dev/null; then
	systemctl disable --now gomi-network-rollback.timer >/dev/null 2>&1 || true
	rm -f /etc/systemd/system/gomi-network-rollback.timer /etc/systemd/system/gomi-network-rollback.service /usr/local/sbin/gomi-rollback-networking /usr/local/sbin/gomi-confirm-netplan-networkd /etc/network/interfaces.gomi-netplan-save /etc/default/netplan.gomi-save
	systemctl daemon-reload >/dev/null 2>&1 || true
fi
exit 0
".

Definition targetUEFIBootOrderCleanupScript : string := sh ("#!/bin/sh
set -eu

[ -d /sys/firmware/efi ] || exit 0
command -v efibootmgr >/dev/null 2>&1 || exit 0

tmpdir=$(mktemp -d)
trap 'rm -rf ~$tmpdir~' EXIT

efibootmgr -v > ~$tmpdir/before~ 2>/dev/null || exit 0
boot_current=$(sed -n 's/^BootCurrent:[[:space:]]*//p' ~$tmpdir/before~ | sed -n '1p' | tr -d ' ' | tr '[:lower:]' '[:upper:]')
boot_next=$(sed -n 's/^BootNext:[[:space:]]*//p' ~$tmpdir/before~ | sed -n '1p' | tr -d ' ' | tr '[:lower:]' '[:upper:]')
boot_order=$(sed -n 's/^BootOrder:[[:space:]]*//p' ~$tmpdir/before~ | sed -n '1p' | tr -d ' ' | tr '[:lower:]' '[:upper:]')
[ -n ~$boot_order~ ] || exit 0

if [ -n ~$boot_next~ ]; then
	logger -t gomi-bootorder ~clearing BootNext $boot_next~
	efibootmgr -N >/dev/null 2>&1 || true
fi

: > ~$tmpdir/pxe4~
: > ~$tmpdir/pxe6~
while IFS= read -r line; do
	case ~$line~ in
		Boot[0-9A-Fa-f][0-9A-Fa-f][0-9A-Fa-f][0-9A-Fa-f]*" +:+ ")
			id=${line#Boot}
			id=${id%%[!0-9A-Fa-f]*}
			id=$(printf '%s' ~$id~ | tr '[:lower:]' '[:upper:]')
			printf '%s\n' ~$line~ | grep -Eiq 'PXE.*IPv4|IPv4\(' && printf '%s\n' ~$id~ >> ~$tmpdir/pxe4~
			printf '%s\n' ~$line~ | grep -Eiq 'PXE.*IPv6|IPv6\(' && printf '%s\n' ~$id~ >> ~$tmpdir/pxe6~
			;;
	esac
done < ~$tmpdir/before~

while IFS= read -r id; do
	[ -n ~$id~ ] || continue
	logger -t gomi-bootorder ~deleting PXE IPv6 boot entry $id~
	efibootmgr -b ~$id~ -B >/dev/null 2>&1 || true
done < ~$tmpdir/pxe6~

new_order=~~
append_order() {
	id=$(printf '%s' ~$1~ | tr '[:lower:]' '[:upper:]')
	[ -n ~$id~ ] || return 0
	case ~,$new_order,~ in
		*,~$id~,*" +:+ ") return 0 ;;
	esac
	if [ -z ~$new_order~ ]; then
		new_order=~$id~
	else
		new_order=~$new_order,$id~
	fi
}

for raw_id in $(printf '%s' ~$boot_order~ | tr ',' ' '); do
	id=$(printf '%s' ~$raw_id~ | tr '[:lower:]' '[:upper:]')
	grep -qi ~^$id$~ ~$tmpdir/pxe4~ && append_order ~$id~
done
append_order ~$boot_current~
for raw_id in $(printf '%s' ~$boot_order~ | tr ',' ' '); do
	id=$(printf '%s' ~$raw_id~ | tr '[:lower:]' '[:upper:]')
	grep -qi ~^$id$~ ~$tmpdir/pxe4~ && continue
	grep -qi ~^$id$~ ~$tmpdir/pxe6~ && continue
	[ ~$id~ = ~$boot_current~ ] && continue
	append_order ~$id~
done

[ -n ~$new_order~ ] || exit 0
logger -t gomi-bootorder ~setting BootOrder $new_order~
efibootmgr -o ~$new_order~ >/dev/null 2>&1 || true
").

Definition targetUEFIBootOrderCleanupService : string := "[Unit]
Description=GOMI UEFI BootOrder cleanup
After=sysinit.target
ConditionPathExists=/sys/firmware/efi

[Service]
Type=oneshot
ExecStart=/usr/local/sbin/gomi-fix-uefi-bootorder

[Install]
WantedBy=multi-user.target
".

Definition defaultDebianPreseed : string := "# Locale and keyboard
d-i debian-installer/locale string en_US.UTF-8
d-i console-setup/ask_detect boolean false
d-i keyboard-configuration/xkb-keymap select us

# Networking
d-i netcfg/choose_interface select auto
d-i netcfg/get_hostname string gomi-pxe
d-i netcfg/get_domain string local

# Mirror
d-i mirror/country string manual
d-i mirror/http/hostname string deb.debian.org
d-i mirror/http/directory string /debian
d-i mirror/http/proxy string

# Users (root locked, no default user; supply via inline preseed)
d-i passwd/root-login boolean false
d-i passwd/make-user boolean false

# Time
d-i clock-setup/utc boolean true
d-i time/zone string UTC

# Partitioning
d-i partman-auto/disk string /dev/vda
d-i partman-auto/method string regular
d-i partman-lvm/device_remove_lvm boolean true
d-i partman-md/device_remove_md boolean true
d-i partman-auto/choose_recipe select atomic
d-i partman-partitioning/confirm_write_new_label boolean true
d-i partman/choose_partition select finish
d-i partman/confirm boolean true
d-i partman/confirm_nooverwrite boolean true

# Package selection
tasksel tasksel/first multiselect standard, ssh-server
d-i pkgsel/include string qemu-guest-agent sudo curl wget ca-certificates vim less net-tools iproute2 git tmux htop dnsutils
d-i popularity-contest popularity-contest/participate boolean false

# Bootloader and serial console
d-i grub-installer/only_debian boolean true
d-i grub-installer/bootdev string /dev/vda
d-i debian-installer/add-kernel-opts string console=ttyS0,115200n8

d-i preseed/late_command string in-target systemctl enable serial-getty@ttyS0.service

# Finish
d-i finish-install/reboot_in_progress note
d-i debian-installer/exit/poweroff boolean true
".

Definition defaultLinuxCurtinUserData : string := "#cloud-config
hostname: gomi-pxe
manage_etc_hosts: true
users:
  - default
ssh_pwauth: false
runcmd:
  - systemctl enable serial-getty@ttyS0.service || true
".

Definition defaultAutoinstallUserData : string := sh "#cloud-config
autoinstall:
  version: 1
  locale: en_US.UTF-8
  keyboard:
    layout: us
  identity:
    hostname: gomi-pxe
    username: ubuntu
    password: ~!~
  ssh:
    install-server: true
    allow-pw: false
  storage:
    layout:
      name: direct
".

Definition defaultNoCloudVendorData : string := "#cloud-config
{}
".

Definition targetWoLShutdownService : string := "[Unit]
Description=GOMI WoL shutdown daemon
Wants=network-online.target
After=network-online.target

[Service]
Type=simple
ExecStart=/usr/local/bin/gomi-wol-daemon --env-file /etc/gomi/wol-daemon.env
Restart=always
RestartSec=5s

[Install]
WantedBy=multi-user.target
".

Definition targetWoLLink (wakeMAC : string) : string :=
  "[Match]
PermanentMACAddress=" +:+ ToLower (TrimSpace wakeMAC) +:+ "

[Link]
WakeOnLan=magic
".

Definition buildWoLShutdownInstallerScript (filesBase wakeMAC : string) : string :=
  sh "#!/bin/sh
set -eu

arch=$(dpkg --print-architecture 2>/dev/null || uname -m)
case ~$arch~ in
    x86_64) arch=amd64 ;;
    aarch64) arch=arm64 ;;
esac

url=~" +:+ TrimRight filesBase "/" +:+ sh "/gomi-wol-daemon-linux-${arch}~
tmp=$(mktemp)
cleanup() { rm -f ~$tmp~; }
trap cleanup EXIT

if command -v curl >/dev/null 2>&1; then
    curl -fsSL -o ~$tmp~ ~$url~
elif command -v wget >/dev/null 2>&1; then
    wget -qO ~$tmp~ ~$url~
elif command -v python3 >/dev/null 2>&1; then
    python3 - ~$url~ ~$tmp~ <<'PY'
import sys
import urllib.request

urllib.request.urlretrieve(sys.argv[1], sys.argv[2])
PY
else
    echo ~no downloader found for $url~ >&2
    exit 1
fi

install -m 0755 ~$tmp~ /usr/local/bin/gomi-wol-daemon
if command -v ethtool >/dev/null 2>&1; then
    for iface_path in /sys/class/net/*; do
        [ ~$(cat ~$iface_path/address~)~ = ~" +:+ ToLower (TrimSpace wakeMAC) +:+ sh "~ ] || continue
        ethtool -s ~${iface_path##*/}~ wol g
        break
    done
fi
systemctl daemon-reload
systemctl enable --now gomi-wol-daemon.service
	".

Definition ifupdown_script (mac ip prefix gateway nameservers : string) : string :=
  "#!/bin/sh
set -eu

target_mac=" +:+ shellQuote mac +:+ "
target_ip=" +:+ shellQuote ip +:+ "
prefix_len=" +:+ shellQuote prefix +:+ "
gateway=" +:+ shellQuote gateway +:+ "
nameservers=" +:+ shellQuote nameservers +:+ sh "

iface=~~
for path in /sys/class/net/*; do
	[ -e ~$path/address~ ] || continue
	if [ ~$(tr '[:upper:]' '[:lower:]' < ~$path/address~)~ = ~$target_mac~ ]; then
		iface=${path##*/}
		break
	fi
done
[ -n ~$iface~ ] || exit 1

mkdir -p /etc/network/interfaces.d
if [ -n ~$target_ip~ ]; then
	cat >/etc/network/interfaces.d/99-gomi.cfg <<EOF
auto $iface
allow-hotplug $iface
iface $iface inet static
    address $target_ip/$prefix_len
EOF
	if [ -n ~$gateway~ ]; then
		printf '    gateway %s\n' ~$gateway~ >>/etc/network/interfaces.d/99-gomi.cfg
	fi
	if [ -n ~$nameservers~ ]; then
		printf '    dns-nameservers %s\n' ~$nameservers~ >>/etc/network/interfaces.d/99-gomi.cfg
		: >/etc/resolv.conf
		for ns in $nameservers; do
			printf 'nameserver %s\n' ~$ns~ >>/etc/resolv.conf
		done
	fi
	ip link set ~$iface~ up
	ip addr flush dev ~$iface~ || true
	ip addr add ~$target_ip/$prefix_len~ dev ~$iface~
	if [ -n ~$gateway~ ]; then
		ip route replace default via ~$gateway~ dev ~$iface~
	fi
else
	cat >/etc/network/interfaces.d/99-gomi.cfg <<EOF
auto $iface
allow-hotplug $iface
iface $iface inet dhcp
EOF
	if command -v dhclient >/dev/null 2>&1; then
		dhclient -v ~$iface~ || true
	fi
fi

systemctl unmask networking.service 2>/dev/null || true
systemctl enable networking.service 2>/dev/null || true
systemctl restart networking.service 2>/dev/null || true
ip addr show ~$iface~ || true
ip route show || true
".

Definition gomiArchShellSnippet : string := sh ("ARCH=$(uname -m); case ~${ARCH}~ in x86_64|amd64) ARCH=~amd64~ ;; aarch64|arm64) ARCH=~arm64~ ;; *" +:+ ") echo ~Unsupported architecture: ${ARCH}~; exit 1 ;; esac").

Definition libvirtTCPAuthNoneCommand : string := sh "sh -c 'conf=/etc/libvirt/libvirtd.conf; if grep -qE '\''^[[:space:]]*#?[[:space:]]*auth_tcp[[:space:]]*='\'' ~$conf~; then sed -i -E '\''s|^[[:space:]]*#?[[:space:]]*auth_tcp[[:space:]]*=.*|auth_tcp = ~none~|'\'' ~$conf~; else printf '\''\nauth_tcp = ~none~\n'\'' >> ~$conf~; fi'".

Definition configureLibvirtBridgeNetfilterCommand : string := "sh -c 'modprobe br_netfilter 2>/dev/null || true; cat > /etc/sysctl.d/99-gomi-libvirt-bridge.conf <<EOF
net.bridge.bridge-nf-call-iptables = 0
net.bridge.bridge-nf-call-ip6tables = 0
net.bridge.bridge-nf-call-arptables = 0
EOF
sysctl -p /etc/sysctl.d/99-gomi-libvirt-bridge.conf >/dev/null 2>&1 || true'".

(** The commands that report the end of an installation. *)
Definition preseed_callback (token type url : string) : string :=
  sh "in-target /bin/sh -c 'IP=$(hostname -I 2>/dev/null | awk ~{print \$1}~); DEV=$(ip -o route get 1 2>/dev/null | awk ~{for(i=1;i<=NF;i++){if(\$i==\~dev\~){print \$(i+1);exit}}}~); MAC=$(cat /sys/class/net/${DEV}/address 2>/dev/null); curl -fsS --connect-timeout 5 --max-time 15 -X POST -H ~Content-Type: application/json~ -d ~{\~token\~:\~" +:+ token +:+ sh "\~,\~type\~:\~" +:+ type +:+ sh "\~,\~ip\~:\~${IP}\~,\~mac\~:\~${MAC}\~}~ ~" +:+ url +:+ sh "~ || curl -fsS --connect-timeout 5 --max-time 15 -X POST ~" +:+ url +:+ sh "~ || true'".

Definition cloud_callback (retries token type url : string) : string :=
  "sh -c 'for i in $(seq 1 " +:+ retries +:+ sh "); do IP=$(hostname -I 2>/dev/null | awk ~{print \$1}~); DEV=$(ip -o route get 1 2>/dev/null | awk ~{for(i=1;i<=NF;i++){if(\$i==\~dev\~){print \$(i+1);exit}}}~); MAC=$(cat /sys/class/net/${DEV}/address 2>/dev/null); curl -fsS --connect-timeout 5 --max-time 15 -X POST -H ~Content-Type: application/json~ -d ~{\~token\~:\~" +:+ token +:+ sh "\~,\~type\~:\~" +:+ type +:+ sh "\~,\~ip\~:\~${IP}\~,\~mac\~:\~${MAC}\~}~ ~" +:+ url +:+ sh "~ && exit 0; curl -fsS --connect-timeout 5 --max-time 15 -X POST ~" +:+ url +:+ sh "~ && exit 0; sleep 2; done; true'".

(** The commands that make a machine a hypervisor. *)
Definition hypervisor_download (arch filesBase : string) : string :=
  "sh -c '" +:+ arch +:+ sh "; curl -sfL -o /usr/bin/gomi-hypervisor ~" +:+ filesBase +:+ sh "/gomi-hypervisor-linux-${ARCH}~ && chmod +x /usr/bin/gomi-hypervisor || true'".

Definition hypervisor_register (setupURL server token hostname : string) : string :=
  sh "set -euo pipefail; tmp=$(mktemp); trap 'rm -f ~$tmp~' EXIT; for i in $(seq 1 60); do if curl -sfL -o ~$tmp~ " +:+ setupURL +:+ "; then GOMI_SERVER=" +:+ server +:+ " GOMI_TOKEN=" +:+ token +:+ " GOMI_HOSTNAME=" +:+ hostname +:+ sh " bash ~$tmp~; exit $?; fi; sleep 2; done; curl -sfL -o ~$tmp~ " +:+ setupURL +:+ "; GOMI_SERVER=" +:+ server +:+ " GOMI_TOKEN=" +:+ token +:+ " GOMI_HOSTNAME=" +:+ hostname +:+ sh " bash ~$tmp~".
