(* ===== verification/CloudConfig.v ===== *)
(** * pxehttp: the cloud-config of a target

    user_data_render.go, inject_users.go, hypervisor_userdata.go, wol_shutdown.go,
    sealed_bootstrap.go and target_boot_cleanup.go: what is added to the user data of a
    target.  Most of it reads the document, changes the map it decodes to and writes it
    again. *)
From S2P Require Import Prelude GoStrings GoNet GoPath Resource Power Machine Vm Curtin SshKey Yaml Provision Scripts PxeTarget.

(** [strings.ReplaceAll] for a text that is not empty; [skip] bytes belong to the last
    replacement. *)
Fixpoint replace_go (old new l : bytes) (skip : nat) : bytes :=
  match l with
  | [] => []
  | c :: l' =>
      match skip with
      | S k => replace_go old new l' k
      | O => if bool_decide (old `prefix_of` l) then new ++ replace_go old new l' (length old - 1) else c :: replace_go old new l' 0
      end
  end.
Definition ReplaceAll (s old new : string) : string := of_bytes (replace_go (to_bytes old) (to_bytes new) (to_bytes s) 0).

(** ** user_data_render.go *)

Definition jinjaTemplateHeader : string := "## template: jinja".
Definition splitCloudConfigHeader (trimmed : string) : string * string :=
  if HasPrefix (TrimSpace trimmed) jinjaTemplateHeader
  then (jinjaTemplateHeader +:+ newline +:+ "#cloud-config", TrimSpace (TrimPrefix (TrimSpace trimmed) jinjaTemplateHeader))
  else ("#cloud-config", trimmed).
Definition unparseableUserDataHint (body : string) : string :=
  if negb (Contains body "{{") then "" else
  sh "; an unquoted Jinja expression such as ~key: {{ v1.local_hostname }}~ is not valid YAML - quote it as ~key: \~{{ v1.local_hostname }}\~~".

Definition host_char (c : ascii) : bytes :=
  if is_lower c || is_digit c then [c] else if bool_decide (c ∈ ["-"; "_"; "."]%char) then ["-"%char] else [].
Definition sanitizeHostnameForLinux (raw : string) : string :=
  let out := Trim (of_bytes (to_bytes (ToLower (TrimSpace raw)) ≫= host_char)) "-" in
  if 63 <? len out then Trim (of_bytes (take 63 (to_bytes out))) "-" else out.

(** *** Preseeds *)

Definition content_lines (content : string) : list string :=
  Split (ReplaceAll (TrimSpace content) (of_bytes [ascii_of_N 13; ascii_of_N 10]) newline) (ascii_of_N 10).
Definition latePrefix : string := "d-i preseed/late_command string".
(** The commands of a late-command line; the lines that stay. *)
Definition late_of (line : string) : list string :=
  let trimmed := TrimSpace line in
  if HasPrefix trimmed latePrefix then List.filter (fun s => s !=? "") [TrimSpace (TrimPrefix trimmed latePrefix)] else [].
Definition preseed_stays (line : string) : bool :=
  negb (HasPrefix (TrimSpace line) latePrefix) && negb (HasPrefix (TrimSpace line) "d-i debian-installer/exit/poweroff").
Section urls.
(** From package net/url: the token and the type in the query of a URL. *)
Context (parseTokenAndTypeFromURL : string → string * string).
Definition escape_quotes (s : string) : string := ReplaceByte s (ascii_of_N 34) (sh "\~").
Definition preseedInstallCompleteCommand (completeURL : string) : string :=
  let '(token, ty) := parseTokenAndTypeFromURL completeURL in preseed_callback token ty (escape_quotes completeURL).
Definition injectPreseedCompletion (content completeURL hostname : string) : string :=
  let lines := content_lines content in
  let lines := if bool_decide (lines = [""]) then [] else lines in
  let sanitized := sanitizeHostnameForLinux hostname in
  let commands := (lines ≫= late_of) ++ ["in-target apt-get update"; "in-target systemctl enable serial-getty@ttyS0.service"]
    ++ (if sanitized !=? "" then ["in-target /bin/sh -c 'echo " +:+ sanitized +:+ " >/etc/hostname'";
          sh "in-target /bin/sh -c 'sed -i ~s/^127.0.1.1.*/127.0.1.1 " +:+ sanitized +:+ sh "/~ /etc/hosts'"] else [])
    ++ (if completeURL !=? "" then [preseedInstallCompleteCommand completeURL] else []) in
  let filtered := List.filter preseed_stays lines
    ++ [latePrefix +:+ " " +:+ Join commands "; "; "d-i finish-install/reboot_in_progress note"; "d-i debian-installer/exit/reboot boolean true"] in
  TrimSpace (Join filtered newline) +:+ newline.
Definition injectPreseedHostname (content hostname : string) : string :=
  let sanitized := sanitizeHostnameForLinux hostname in
  if sanitized ==? "" then TrimSpace content +:+ newline else
  let stays line := negb (HasPrefix (TrimSpace line) "d-i netcfg/get_hostname string") && negb (HasPrefix (TrimSpace line) "d-i netcfg/hostname string") in
  let filtered := List.filter stays (content_lines content)
    ++ ["d-i netcfg/get_hostname string " +:+ sanitized; "d-i netcfg/hostname string " +:+ sanitized; "d-i netcfg/override_dhcp boolean true"] in
  TrimSpace (Join filtered newline) +:+ newline.

(** *** Documents *)

(** From package yaml: a document read into [map[string]any{}], and a map written. *)
Context (yamlUnmarshal : string → result config) (yamlMarshal : config → result string).

Definition renderCloudConfig (source : string) (cfg : config) : result string :=
  raw ← yamlMarshal cfg; Ok ((splitCloudConfigHeader (TrimSpace source)).1 +:+ newline +:+ raw).

(** A document is read, changed and written; it is left as it is when one of these
    fails. *)
Definition edit_config (cloudConfig : string) (f : config → config) : string :=
  let trimmed := TrimSpace cloudConfig in
  match yamlUnmarshal (if trimmed ==? "" then "#cloud-config" +:+ newline +:+ "{}" else trimmed) with
  | Err _ => cloudConfig
  | Ok cfg => match renderCloudConfig cloudConfig (f cfg) with Ok s => s | Err _ => cloudConfig end
  end.
Definition file_entry (path permissions content : string) : yaml_value :=
  entries [("path", VStr path); ("permissions", VStr permissions); ("content", VStr content)].
(** [write_files] with more files at its end, [runcmd] with commands before and after. *)
Definition add_files (files : list yaml_value) (cfg : config) : config := <["write_files" := VList (list_at cfg "write_files" ++ files)]> cfg.
Definition add_commands (before after : list string) (cfg : config) : config :=
  <["runcmd" := VList ((VStr <$> before) ++ list_at cfg "runcmd" ++ (VStr <$> after))]> cfg.

Definition set_default (key : string) (v : yaml_value) (cfg : config) : config := match cfg !! key with Some _ => cfg | None => <[key := v]> cfg end.
Definition withDeployCloudInitDefaults (userData : string) (disableResizeRootfs : bool) : string :=
  let trimmed := TrimSpace userData in
  if trimmed ==? "" then "" else
  let '(header, trimmed) := splitCloudConfigHeader trimmed in
  let as_is := TrimRight userData newline +:+ newline in
  match yamlUnmarshal trimmed with
  | Err _ => as_is
  | Ok cfg =>
      let cfg := set_default "locale" (VBool false) cfg in
      let cfg := if disableResizeRootfs then set_default "resize_rootfs" (VBool false) cfg else cfg in
      match yamlMarshal cfg with Err _ => as_is | Ok raw => header +:+ newline +:+ raw end
  end.

(** target_boot_cleanup.go *)
Definition injectTargetUEFIBootOrderCleanup (cfg : config) (runCmd : list string) : config * list string :=
  (add_files [file_entry "/usr/local/sbin/gomi-fix-uefi-bootorder" "0755" targetUEFIBootOrderCleanupScript;
              file_entry "/etc/systemd/system/gomi-bootorder-cleanup.service" "0644" targetUEFIBootOrderCleanupService] cfg,
   runCmd ++ ["systemctl enable --now gomi-bootorder-cleanup.service || /usr/local/sbin/gomi-fix-uefi-bootorder || true"]).

(** The command that reports the end of the installation. *)
Definition completion_command (completeURL : string) (completeRetries : Z) : string :=
  let retries := if completeRetries <=? 0 then 60 else completeRetries in
  let escaped := escape_quotes completeURL in
  let callback := cloud_callback (Itoa retries) "__TOKEN__" "__TYPE__" escaped in
  let '(token, ty) := parseTokenAndTypeFromURL completeURL in
  ReplaceAll (ReplaceAll callback "__TOKEN__" token) "__TYPE__" ty.
(** The commands of the document that are kept: those that are strings, and not blank. *)
Definition kept_commands (cfg : config) : list string := List.filter (fun s => TrimSpace s !=? "") (strings_of (list_at cfg "runcmd")).
Definition with_completion (completeURL hostname : string) (completeRetries : Z) (cfg : config) : config :=
  let cfg := if sanitizeHostnameForLinux hostname !=? "" then <["hostname" := VStr (sanitizeHostnameForLinux hostname)]> cfg else cfg in
  let runCmd := kept_commands cfg ++ ["systemctl enable serial-getty@ttyS0.service || true"] in
  let '(cfg, runCmd) := injectTargetUEFIBootOrderCleanup cfg runCmd in
  let runCmd := if completeURL !=? "" then runCmd ++ [completion_command completeURL completeRetries] else runCmd in
  <["runcmd" := VList (VStr <$> runCmd)]> cfg.
Definition injectCloudConfigCompletion (content completeURL hostname : string) (completeRetries : Z) : result string :=
  let trimmed := if TrimSpace content ==? "" then defaultLinuxCurtinUserData else TrimSpace content in
  let '(header, body) := splitCloudConfigHeader trimmed in
  match yamlUnmarshal body with
  | Err e => Err (ErrWrap "cloud-init user-data is not valid YAML: " e (unparseableUserDataHint body))
  | Ok cfg =>
      match yamlMarshal (with_completion completeURL hostname completeRetries cfg) with
      | Err e => Err (ErrWrap "re-marshalling cloud-init user-data: " e "")
      | Ok raw => Ok (header +:+ newline +:+ raw)
      end
  end.

(** ** inject_users.go *)

Definition targetUserSpec (n : option pxe_node) : list string * option Machine.LoginUserSpec :=
  match n with
  | None => ([], None)
  | Some (NMachine m) => (m_SSHKeyRefs m, m_LoginUser m)
  | Some (NVm v) => (v_SSHKeyRefs v, (fun u => Machine.mkLoginUserSpec (vlu_Username u) (vlu_Password u)) <$> v_LoginUser v)
  end.
Definition with_users (pubKeys : list string) (loginUser : option Machine.LoginUserSpec) (cfg : config) : config :=
  let cfg := <["ssh_pwauth" := VBool (LoginUserPasswordConfigured loginUser)]> cfg in
  let cfg := match loginUser with
             | Some u => if LoginUserPasswordConfigured loginUser
                         then <["chpasswd" := entries [("expire", VBool false);
                                 ("users", VList [entries [("name", VStr (TrimSpace (lu_Username u))); ("password", VStr (TrimSpace (lu_Password u))); ("type", VStr "text")]])]]> cfg
                         else cfg
             | None => cfg
             end in
  let cfg := if negb (bool_decide (pubKeys = [])) && negb (LoginUserConfigured loginUser) then <["ssh_authorized_keys" := strs pubKeys]> cfg
             else if LoginUserConfigured loginUser then delete "ssh_authorized_keys" cfg else cfg in
  if negb (bool_decide (pubKeys = [])) || bool_decide (is_Some loginUser) then <["users" := VList (BuildCloudInitUsers pubKeys loginUser)]> cfg else cfg.
(** [allKeys] is empty when there is no service of keys, or it fails. *)
Definition injectSSHKeysAndLoginUser (allKeys : list SSHKey) (cloudConfig : string) (n : option pxe_node) : string :=
  if TrimSpace cloudConfig ==? "" then cloudConfig else
  let '(refs, loginUser) := targetUserSpec n in
  edit_config cloudConfig (with_users (collectPublicKeys (SelectKeysForRefs allKeys refs)) loginUser).

(** ** wol_shutdown.go *)

(** One pass over the value: backslashes and quotes are escaped, line ends dropped. *)
Definition env_byte (c : ascii) : bytes :=
  if c ==? "\"%char then ["\"; "\"]%char else if c ==? ascii_of_N 34 then ["\"%char; ascii_of_N 34]
  else if (c ==? ascii_of_N 10) || (c ==? ascii_of_N 13) then [] else [c].
Definition systemdEnvLine (key value : string) : string :=
  key +:+ "=" +:+ dq +:+ of_bytes (to_bytes (TrimSpace value) ≫= env_byte) +:+ dq +:+ newline.
Definition server_base (pxeBaseURL : string) : string := TrimSuffix (TrimRight (TrimSpace pxeBaseURL) "/") "/pxe".
(** The environment of the agent. *)
Definition wol_environment (wol : WoLConfig) (serverBase name : string) : string :=
  let port := if wol_ShutdownUDPPort wol =? 0 then DefaultWoLShutdownUDPPort else wol_ShutdownUDPPort wol in
  let ttl := if wol_TokenTTLSeconds wol =? 0 then DefaultWoLShutdownTTLSeconds else wol_TokenTTLSeconds wol in
  systemdEnvLine "GOMI_WOL_LISTEN" (":" +:+ Itoa port) +:+ systemdEnvLine "GOMI_WOL_SECRET" (wol_HMACSecret wol)
  +:+ systemdEnvLine "GOMI_WOL_TOKEN" (wol_Token wol) +:+ systemdEnvLine "GOMI_WOL_TTL" (Itoa ttl +:+ "s")
  +:+ systemdEnvLine "GOMI_SERVER_URL" serverBase +:+ systemdEnvLine "GOMI_MACHINE_NAME" name.
Definition injectWoLShutdownAgent (cloudConfig pxeBaseURL : string) (m : Machine) : string :=
  match pc_WoL (m_Power m) with
  | None => cloudConfig
  | Some wol =>
      if pc_Type (m_Power m) !=? PowerTypeWoL then cloudConfig else
      if (TrimSpace (wol_HMACSecret wol) ==? "") || (TrimSpace (wol_Token wol) ==? "") then cloudConfig else
      match ParseMAC (wol_WakeMAC wol) with
      | None => cloudConfig
      | Some hw =>
          let serverBase := server_base pxeBaseURL in
          if TrimSpace serverBase ==? "" then cloudConfig else
          edit_config cloudConfig (fun cfg =>
            add_commands [] ["/usr/local/sbin/gomi-install-wol-daemon"]
              (add_files [file_entry "/etc/gomi/wol-daemon.env" "0600" (wol_environment wol serverBase (m_Name m));
                          file_entry "/etc/systemd/network/10-gomi-wol.link" "0644" (targetWoLLink (mac_String hw));
                          file_entry "/etc/systemd/system/gomi-wol-daemon.service" "0644" targetWoLShutdownService;
                          file_entry "/usr/local/sbin/gomi-install-wol-daemon" "0755" (buildWoLShutdownInstallerScript (serverBase +:+ "/files") (mac_String hw))] cfg))
      end
  end.

(** ** hypervisor_userdata.go *)

Definition rpm_family (osFamily : string) : bool := bool_decide (ToLower (TrimSpace osFamily) ∈ ["fedora"; "rhel"; "redhat"; "centos"; "rocky"; "almalinux"]).
Definition hypervisorSetupPackages (osFamily : string) : list string :=
  if rpm_family osFamily then []
  else ["libvirt-daemon-system"; "libvirt-clients"; "qemu-system"; "virtinst"; "cloud-image-utils"; "curl"; "jq"; "zstd"; "xz-utils"].
Definition hypervisorSetupRuncmds (osFamily : string) : list string :=
  if rpm_family osFamily then ["mkdir -p /var/lib/gomi/data/images"]
  else [configureLibvirtBridgeNetfilterCommand; libvirtTCPAuthNoneCommand; "systemctl enable libvirtd-tcp.socket || true"; "systemctl stop libvirtd.service || true";
        "systemctl start libvirtd-tcp.socket || true";
        "sh -c 'virsh pool-define-as default dir --target /var/lib/libvirt/images && virsh pool-build default && virsh pool-start default && virsh pool-autostart default || true'";
        "mkdir -p /var/lib/gomi/data/images"].
Definition hypervisor_commands (pxeBaseURL hypervisorName registrationToken osFamily : string) : list string :=
  let base := TrimRight (TrimSpace pxeBaseURL) "/" in
  let serverBase := if base ==? "" then "" else TrimSuffix base "/pxe" in
  let token := TrimSpace registrationToken in
  hypervisorSetupRuncmds osFamily
  ++ (if base ==? "" then [] else [hypervisor_download gomiArchShellSnippet (serverBase +:+ "/files")])
  ++ (if (serverBase !=? "") && (token !=? "")
      then ["bash -c " +:+ shellQuote (hypervisor_register (shellQuote (serverBase +:+ "/api/v1/hypervisors/setup-and-register.sh")) (shellQuote serverBase) (shellQuote token)
                                         (shellQuote (TrimSpace hypervisorName)))]
      else []).
Definition add_packages (packages : list string) (cfg : config) : config :=
  let l := list_at cfg "packages" ++ (VStr <$> packages) in
  if bool_decide (0 < length l)%nat then <["packages" := VList l]> cfg else delete "packages" cfg.
Definition injectHypervisorSetup (cloudConfig pxeBaseURL hypervisorName registrationToken osFamily : string) : string :=
  edit_config cloudConfig (fun cfg =>
    add_commands [] (hypervisor_commands pxeBaseURL hypervisorName registrationToken osFamily) (add_packages (hypervisorSetupPackages osFamily) cfg)).
Definition hypervisorRegistrationToken (m : Machine) : string :=
  match m_Provision m with
  | Some p => TrimSpace (default "" (pp_Artifacts p !! "hypervisorRegistrationToken"))
  | None => ""
  end.

(** ** sealed_bootstrap.go *)

Definition is_completion (command : string) : bool := HasPrefix command "sh -c 'for i in " && Contains command "/install-complete?".
Definition sealed_mark : string := "# gomi-capi-completion" +:+ newline +:+ "test -f /run/cluster-api/bootstrap-success.complete || exit 1" +:+ newline.
Definition mark_command (command : string) : string := if is_completion command then sealed_mark +:+ command else command.
Definition mark_completion (entry : yaml_value) : yaml_value := match entry with VStr command => VStr (mark_command command) | _ => entry end.
Definition markSealedCompletion (body : string) : result string :=
  cfg ← yamlUnmarshal body;
  match as_list (cfg !! "runcmd") with
  | None => Err (ErrNew "missing deployment commands")
  | Some commands =>
      if bool_decide (length (List.filter is_completion (strings_of commands)) = 1%nat)
      then renderCloudConfig body (<["runcmd" := VList (mark_completion <$> commands)]> cfg)
      else Err (ErrNew "missing unique deployment completion callback")
  end.
End urls.
