(* ===== verification/NetConfig.v ===== *)
(** * pxehttp: the network configuration of a target

    network_primitives.go, netplan_inject.go, network_manager.go, debian_ifupdown.go,
    host_network_inject.go and nocloud_network_config.go: netplan, NetworkManager and
    ifupdown configurations, served by themselves or injected into the user data. *)
From S2P Require Import Prelude GoStrings GoNet GoPath Resource Subnet Machine Vm Curtin Yaml Provision Scripts PxeTarget CloudConfig.

(** ** Addresses and masks *)

(** [ones, _ := mask.Size()] of the mask of a network. *)
Fixpoint mask_ones (mask : bytes) : Z :=
  match mask with
  | [] => 0
  | c :: mask => if byte_val c =? 255 then 8 + mask_ones mask else 8 - Z.log2 (256 - byte_val c)
  end.

(** [net.IP.String]: the longest run of two or more zero groups is left out. *)
Fixpoint groups16 (l : bytes) : list Z := match l with a :: b :: l => byte_val a * 256 + byte_val b :: groups16 l | _ => [] end.
Fixpoint zeros (l : list Z) : nat := match l with 0 :: l => S (zeros l) | _ => 0 end.
Fixpoint longest_zeros (i : nat) (l : list Z) (best : nat * nat) : nat * nat :=
  match l with
  | [] => best
  | _ :: l' => longest_zeros (S i) l' (if bool_decide (best.2 < zeros l)%nat then (i, zeros l) else best)
  end.
Definition hex_group (n : Z) : string :=
  let l := hex_digit <$> [n `div` 4096; (n `div` 256) `mod` 16; (n `div` 16) `mod` 16; n `mod` 16] in
  of_bytes (match drop_while (fun c => c ==? "0"%char) l with [] => ["0"%char] | l => l end).
Definition ip6_String (ip : bytes) : string :=
  let g := groups16 ip in
  let '(i, n) := longest_zeros 0 g (0, 1)%nat in
  if bool_decide (n < 2)%nat then Join (hex_group <$> g) ":"
  else Join (hex_group <$> take i g) ":" +:+ "::" +:+ Join (hex_group <$> drop (i + n) g) ":".
Definition IP_String (ip : IP) : string := match To4 ip with Some v => ip4_String v | None => ip6_String ip end.
Example IP_String_ex :
  IP_String <$> ParseIP "10.0.0.7" = Some "10.0.0.7" ∧ IP_String <$> ParseIP "2001:DB8:0:0:1:0:0:1" = Some "2001:db8::1:0:0:1"
  ∧ IP_String <$> ParseIP "::" = Some "::" ∧ IP_String <$> ParseIP "fe80::1" = Some "fe80::1" ∧ mask_ones <$> ParseCIDR "10.0.0.0/22" = Some 22.
Proof. vm_compute. split_and!; reflexivity. Qed.

(** ** network_primitives.go *)

Record netplanRoute := mkNetplanRoute { nr_To : string; nr_Via : string }.
Record netplanNIC := mkNetplanNIC {
  nn_Match : option string; nn_SetName : string; nn_WakeOnLAN : bool; nn_DHCP4 : bool; nn_DHCP6 : bool; nn_Addresses : list string; nn_Routes : list netplanRoute;
  nn_NameServers : option (list string) }.
Record netplanBridge := mkNetplanBridge {
  nb_Interfaces : list string; nb_MACAddress : string; nb_DHCP4 : bool; nb_DHCP6 : bool; nb_Addresses : list string; nb_Routes : list netplanRoute;
  nb_NameServers : option (list string) }.
Record netplanConfig := mkNetplanConfig {
  np_Version : Z; np_Renderer : string; np_Ethernets : gmap string netplanNIC; np_Bridges : gmap string netplanBridge }.
(** A map with one entry. *)
Definition single {A} (key : string) (a : A) : gmap string A := {[key := a]}.
Definition networkConfigRendererNetworkd : string := "networkd".

Definition subnetPrefixLen (spec : option SubnetSpec) : Z :=
  match spec with
  | Some s => if ss_CIDR s ==? "" then 24 else match ParseCIDR (ss_CIDR s) with Some mask => mask_ones mask | None => 24 end
  | None => 24
  end.
Definition subnetGateway (spec : option SubnetSpec) : string := match spec with Some s => TrimSpace (ss_DefaultGateway s) | None => "" end.
Definition not_blank (l : list string) : list string := List.filter (fun s => s !=? "") (TrimSpace <$> l).
Definition subnetNameServers (spec : option SubnetSpec) : list string := match spec with Some s => not_blank (ss_DNSServers s) | None => [] end.
Definition macMatch (mac : string) : option string := let mac := ToLower (TrimSpace mac) in if mac ==? "" then None else Some mac.
Definition nameserverBlock (values : list string) : option (list string) := if bool_decide (values = []) then None else Some values.
Definition defaultRoute (gateway : string) : list netplanRoute := if TrimSpace gateway ==? "" then [] else [mkNetplanRoute "default" (TrimSpace gateway)].
Definition with_prefix (ip : string) (prefixLen : Z) : string := ip +:+ "/" +:+ Itoa prefixLen.

Definition buildNamedDirectNetplanConfig (mac ip : string) (prefixLen : Z) (gateway : string) (nameservers : list string) (dhcp : bool) (renderer interfaceName : string) : netplanConfig :=
  mkNetplanConfig 2 renderer
    (single "gomi-nic" (mkNetplanNIC (macMatch mac) (TrimSpace interfaceName) (TrimSpace mac !=? "") dhcp false (if dhcp then [] else [with_prefix ip prefixLen])
                    (if dhcp then [] else defaultRoute gateway) (if dhcp then None else nameserverBlock nameservers))) ∅.
Definition buildDirectNetplanConfig (mac ip : string) (prefixLen : Z) (gateway : string) (nameservers : list string) (dhcp : bool) (renderer : string) : netplanConfig :=
  buildNamedDirectNetplanConfig mac ip prefixLen gateway nameservers dhcp renderer "".
Definition bridge_name (bridgeName : string) : string := if TrimSpace bridgeName ==? "" then "br0" else TrimSpace bridgeName.
Definition buildBridgedNetplanConfig (mac bridgeName ip : string) (prefixLen : Z) (gateway : string) (nameservers : list string) (dhcp : bool) (renderer : string) : netplanConfig :=
  let mac := ToLower (TrimSpace mac) in
  mkNetplanConfig 2 renderer
    (single "gomi-nic" (mkNetplanNIC (macMatch mac) "" (mac !=? "") false false [] [] None))
    (single (bridge_name bridgeName) (mkNetplanBridge ["gomi-nic"] mac dhcp false (if dhcp then [] else [with_prefix ip prefixLen])
                                (if dhcp then [] else defaultRoute gateway) (if dhcp then None else nameserverBlock nameservers))).

(** The documents, with the fields package yaml leaves out when they are empty. *)
Definition text_field (key s : string) : list (string * yaml_doc) := if s ==? "" then [] else [(key, DStr s)].
Definition flag_field (key : string) (b : bool) : list (string * yaml_doc) := if b then [(key, DBool true)] else [].
Definition list_field (key : string) (l : list yaml_doc) : list (string * yaml_doc) := if bool_decide (0 < length l)%nat then [(key, DList l)] else [].
Definition map_field (key : string) (m : gmap string yaml_doc) : list (string * yaml_doc) := if bool_decide (map_to_list m = []) then [] else [(key, DMap m)].
Definition route_value (r : netplanRoute) : yaml_doc := DStruct [("to", DStr (nr_To r)); ("via", DStr (nr_Via r))].
Definition addressing (addresses : list string) (routes : list netplanRoute) (ns : option (list string)) : list (string * yaml_doc) :=
  list_field "addresses" (DStr <$> addresses) ++ list_field "routes" (route_value <$> routes)
  ++ match ns with Some l => [("nameservers", DStruct (list_field "addresses" (DStr <$> l)))] | None => [] end.
Definition nic_value (n : netplanNIC) : yaml_doc :=
  DStruct (match nn_Match n with Some mac => [("match", DStruct (text_field "macaddress" mac))] | None => [] end ++ text_field "set-name" (nn_SetName n)
        ++ flag_field "wakeonlan" (nn_WakeOnLAN n) ++ [("dhcp4", DBool (nn_DHCP4 n))] ++ flag_field "dhcp6" (nn_DHCP6 n)
        ++ addressing (nn_Addresses n) (nn_Routes n) (nn_NameServers n)).
Definition bridge_value (b : netplanBridge) : yaml_doc :=
  DStruct (list_field "interfaces" (DStr <$> nb_Interfaces b) ++ text_field "macaddress" (nb_MACAddress b) ++ [("dhcp4", DBool (nb_DHCP4 b))] ++ flag_field "dhcp6" (nb_DHCP6 b)
        ++ addressing (nb_Addresses b) (nb_Routes b) (nb_NameServers b)).
Definition netplan_value (c : netplanConfig) : yaml_doc :=
  DStruct ([("version", DInt (np_Version c))] ++ text_field "renderer" (np_Renderer c) ++ map_field "ethernets" (nic_value <$> np_Ethernets c)
        ++ map_field "bridges" (bridge_value <$> np_Bridges c)).

(** ** host_network_inject.go: families *)

Definition isDebianOSFamily (osFamily : string) : bool := EqualFold (TrimSpace osFamily) "debian".
Definition isUbuntuOSFamily (osFamily : string) : bool := EqualFold (TrimSpace osFamily) "ubuntu".
Definition isNetworkManagerOSFamily (osFamily : string) : bool :=
  bool_decide (ToLower (TrimSpace osFamily) ∈ ["fedora"; "rhel"; "redhat"; "centos"; "rocky"; "alma"; "almalinux"]).
Definition supportsNetplanOSFamily (osFamily : string) : bool := negb (isNetworkManagerOSFamily osFamily).

(** The static address of a node, if it has one. *)
Definition static_ip {A} `{Node A} (n : A) : string := if GetIPAssignment n ==? IPAssignmentStatic then StaticIP n else "".

(** ** network_manager.go *)

Record networkManagerConnectionFile := mkConnectionFile { nf_path : string; nf_content : string }.
Definition writeNetworkManagerIPv4Config (ip : string) (spec : option SubnetSpec) : string :=
  if TrimSpace ip ==? "" then text_lines ["[ipv4]"; "method=auto"; ""] else
  text_lines (["[ipv4]"; "method=manual";
               "address1=" +:+ with_prefix (TrimSpace ip) (subnetPrefixLen spec) +:+ (if subnetGateway spec ==? "" then "" else "," +:+ subnetGateway spec)]
              ++ (if bool_decide (subnetNameServers spec = []) then [] else ["dns=" +:+ Join (subnetNameServers spec) ";" +:+ ";"]) ++ [""]).
Definition mac_line (mac : string) : list string := let mac := ToLower (TrimSpace mac) in if mac ==? "" then [] else ["mac-address=" +:+ mac].
Definition ipv6_lines : string := text_lines ["[ipv6]"; "method=ignore"].
Definition buildNetworkManagerEthernetConnection (mac ip : string) (spec : option SubnetSpec) : string :=
  text_lines (["[connection]"; "id=gomi-nic"; "type=ethernet"; "autoconnect=true"; ""; "[ethernet]"] ++ mac_line mac ++ ["wake-on-lan=64"; ""])
  +:+ writeNetworkManagerIPv4Config ip spec +:+ ipv6_lines.
Definition buildNetworkManagerBridgeConnection (bridgeName ip : string) (spec : option SubnetSpec) : string :=
  text_lines ["[connection]"; "id=" +:+ bridge_name bridgeName; "type=bridge"; "interface-name=" +:+ bridge_name bridgeName; "autoconnect=true"; ""; "[bridge]"; "stp=false"; ""]
  +:+ writeNetworkManagerIPv4Config ip spec +:+ ipv6_lines.
Definition buildNetworkManagerBridgePortConnection (mac bridgeName : string) : string :=
  text_lines (["[connection]"; "id=gomi-nic"; "type=ethernet"; "autoconnect=true"; "master=" +:+ bridge_name bridgeName; "slave-type=bridge"; ""; "[ethernet]"]
              ++ mac_line mac ++ ["wake-on-lan=64"; ""; "[ipv4]"; "method=disabled"; ""]) +:+ ipv6_lines.

Section documents.
(** From package yaml: a document read into [map[string]any{}], and a map and a value
    written. *)
Context (yamlUnmarshal : string → result config) (yamlMarshal : config → result string) (yamlValue : yaml_doc → result string).
Definition marshalYAMLString (v : yaml_doc) : string := match yamlValue v with Ok s => s | Err _ => "" end.
Local Abbreviation edit := (edit_config yamlUnmarshal yamlMarshal).

Definition injectNetworkManagerConnections (cloudConfig : string) (files : list networkManagerConnectionFile) (upConnections : list string) : string :=
  if bool_decide (length files = 0%nat) then cloudConfig else
  edit cloudConfig (fun cfg =>
    add_commands (["chmod 600 /etc/NetworkManager/system-connections/gomi-*.nmconnection"; "nmcli connection reload || systemctl reload NetworkManager || true"]
                  ++ ((fun name => "nmcli connection up " +:+ shellQuote name +:+ " || true") <$> not_blank upConnections)) []
      (add_files ((fun f => file_entry (nf_path f) "0600" (nf_content f)) <$> files) cfg)).
Definition connection_path (name : string) : string := "/etc/NetworkManager/system-connections/" +:+ name +:+ ".nmconnection".
Definition injectNetworkManagerConfigForHost (cloudConfig : string) (n : pxe_node) (osFamily : string) (spec : option SubnetSpec) : string :=
  if negb (isNetworkManagerOSFamily osFamily) then cloudConfig else
  let mac := TrimSpace (PrimaryMAC n) in
  if (static_ip n ==? "") && (mac ==? "") then cloudConfig else
  let content := buildNetworkManagerEthernetConnection mac (static_ip n) spec in
  if content ==? "" then cloudConfig
  else injectNetworkManagerConnections cloudConfig [mkConnectionFile (connection_path "gomi-nic") content] ["gomi-nic"].
Definition injectBridgedNetworkManagerConfig (cloudConfig : string) (m : Machine) (osFamily : string) (spec : option SubnetSpec) : string :=
  if negb (isNetworkManagerOSFamily osFamily) then cloudConfig else
  let mac := TrimSpace (PrimaryMAC m) in
  if (static_ip m ==? "") && (mac ==? "") then cloudConfig else
  let bridgeName := bridge_name (m_BridgeName m) in
  let bridgeContent := buildNetworkManagerBridgeConnection bridgeName (static_ip m) spec in
  let portContent := buildNetworkManagerBridgePortConnection mac bridgeName in
  if (bridgeContent ==? "") || (portContent ==? "") then cloudConfig
  else injectNetworkManagerConnections cloudConfig
         [mkConnectionFile (connection_path "gomi-bridge") bridgeContent; mkConnectionFile (connection_path "gomi-nic") portContent] [bridgeName; "gomi-nic"].

(** ** netplan_inject.go *)

Definition netplanFilePath : string := "/etc/netplan/50-gomi-network.yaml".
Record netplanParams := mkNetplanParams { nps_IP : string; nps_MAC : string; nps_Gateway : string; nps_NameServers : list string; nps_OSFamily : string; nps_PXEBaseURL : string }.
Definition netplanActivationCommands (osFamily : string) : list string :=
  ["rm -f /etc/cloud/cloud.cfg.d/50-curtin-networking.cfg /etc/netplan/50-cloud-init.yaml /etc/netplan/01-netcfg.yaml /etc/netplan/00-installer-config.yaml /etc/netplan/99-gomi-network.yaml"]
  ++ if isDebianOSFamily osFamily then ["/usr/local/sbin/gomi-apply-netplan-networkd"]
     else (if isUbuntuOSFamily osFamily then ["systemctl enable --now systemd-networkd.service systemd-networkd.socket"; "netplan apply"] else ["netplan apply"])
          ++ ["systemctl disable --now systemd-networkd-wait-online.service 2>/dev/null || true; systemctl reset-failed systemd-networkd-wait-online.service 2>/dev/null || true"].
(** The document, what activates it, and on Debian what confirms it. *)
Definition inject_netplan (cloudConfig netplanYAML osFamily pxeBaseURL : string) : string :=
  edit cloudConfig (fun cfg =>
    add_commands (netplanActivationCommands osFamily) (if isDebianOSFamily osFamily then ["/usr/local/sbin/gomi-confirm-netplan-networkd"] else [])
      (add_files (file_entry netplanFilePath "0600" netplanYAML ::
                  (if isDebianOSFamily osFamily
                   then [file_entry "/usr/local/sbin/gomi-apply-netplan-networkd" "0755" debianNetplanNetworkdSwitchScript;
                         file_entry "/usr/local/sbin/gomi-confirm-netplan-networkd" "0755" (debianNetplanNetworkdConfirmScript pxeBaseURL)]
                   else [])) cfg)).
(** The interface that is configured. *)
Definition host_nic (params : netplanParams) (spec : option SubnetSpec) : netplanNIC :=
  let ip := ParseIP (TrimSpace (nps_IP params)) in
  let mac := TrimSpace (nps_MAC params) in
  let gateway := TrimSpace (nps_Gateway params) in
  let gateway := if gateway ==? "" then subnetGateway spec else gateway in
  let nameServers := not_blank (nps_NameServers params) in
  let nameServers := if bool_decide (nameServers = []) then subnetNameServers spec else nameServers in
  match ip with
  | Some ip => mkNetplanNIC (macMatch mac) "" (mac !=? "") false false [with_prefix (IP_String ip) (subnetPrefixLen spec)] (defaultRoute gateway) (nameserverBlock nameServers)
  | None => mkNetplanNIC (macMatch mac) "" (mac !=? "") true false [] [] None
  end.
Definition injectNetplanConfigFromParams (cloudConfig : string) (params : netplanParams) (spec : option SubnetSpec) : string :=
  if negb (supportsNetplanOSFamily (nps_OSFamily params)) then cloudConfig else
  if bool_decide (ParseIP (TrimSpace (nps_IP params)) = None) && (TrimSpace (nps_MAC params) ==? "") then cloudConfig else
  let netplanYAML := marshalYAMLString (DStruct [("network", netplan_value (mkNetplanConfig 2 "networkd" (single "id0" (host_nic params spec)) ∅))]) in
  if netplanYAML ==? "" then cloudConfig else inject_netplan cloudConfig netplanYAML (nps_OSFamily params) (nps_PXEBaseURL params).
Definition injectBridgedNetplanConfig (cloudConfig : string) (m : Machine) (osFamily pxeBaseURL : string) (spec : option SubnetSpec) : string :=
  if negb (supportsNetplanOSFamily osFamily) then cloudConfig else
  let ip := static_ip m in
  if (ip ==? "") && (TrimSpace (PrimaryMAC m) ==? "") then cloudConfig else
  let netplanYAML := marshalYAMLString (DStruct [("network", netplan_value
    (buildBridgedNetplanConfig (PrimaryMAC m) (m_BridgeName m) ip (subnetPrefixLen spec) (subnetGateway spec) (subnetNameServers spec) (ip ==? "") networkConfigRendererNetworkd))]) in
  if netplanYAML ==? "" then cloudConfig else inject_netplan cloudConfig netplanYAML osFamily pxeBaseURL.
Definition injectNetplanConfigForHost (cloudConfig : string) (n : pxe_node) (osFamily pxeBaseURL : string) (spec : option SubnetSpec) : string :=
  if (static_ip n ==? "") && (TrimSpace (PrimaryMAC n) ==? "") then cloudConfig
  else injectNetplanConfigFromParams cloudConfig (mkNetplanParams (static_ip n) (PrimaryMAC n) "" [] osFamily pxeBaseURL) spec.

(** ** debian_ifupdown.go *)

Definition debianIfupdownApplyScript (mac ip : string) (spec : option SubnetSpec) : string :=
  ifupdown_script (ToLower (TrimSpace mac)) (TrimSpace ip) (Itoa (subnetPrefixLen spec)) (subnetGateway spec) (Join (subnetNameServers spec) " ").
Definition injectDebianIfupdownConfigForHost (cloudConfig : string) (n : pxe_node) (spec : option SubnetSpec) : string :=
  let mac := TrimSpace (PrimaryMAC n) in
  if (static_ip n ==? "") && (mac ==? "") then cloudConfig else
  edit cloudConfig (fun cfg =>
    add_commands ["/usr/local/sbin/gomi-apply-debian-ifupdown"] []
      (add_files [file_entry "/usr/local/sbin/gomi-apply-debian-ifupdown" "0755" (debianIfupdownApplyScript mac (static_ip n) spec)] cfg)).

(** ** host_network_inject.go *)

Definition injectHostNetworkConfig (cloudConfig : string) (n : pxe_node) (osFamily pxeBaseURL : string) (spec : option SubnetSpec) : string :=
  if isNetworkManagerOSFamily osFamily then injectNetworkManagerConfigForHost cloudConfig n osFamily spec else
  match n with
  | NVm _ => if isDebianOSFamily osFamily then injectDebianIfupdownConfigForHost cloudConfig n spec
             else injectNetplanConfigForHost cloudConfig n osFamily pxeBaseURL spec
  | NMachine _ => injectNetplanConfigForHost cloudConfig n osFamily pxeBaseURL spec
  end.
Definition injectBridgedHostNetworkConfig (cloudConfig : string) (m : Machine) (osFamily pxeBaseURL : string) (spec : option SubnetSpec) : string :=
  if isNetworkManagerOSFamily osFamily then injectBridgedNetworkManagerConfig cloudConfig m osFamily spec
  else injectBridgedNetplanConfig cloudConfig m osFamily pxeBaseURL spec.

(** ** nocloud_network_config.go: the documents *)

Definition capiUplinkName : string := "gomi-uplink".
Definition isCAPIProvisioning (m : Machine) : bool :=
  match m_SealedBootstrap m with Some sb => negb (sb_Cleanup sb) && HasPrefix (sb_Owner sb) "capi-" | None => false end.
Definition buildNamedNetworkConfigWithRenderer (mac ip : string) (spec : option SubnetSpec) (renderer interfaceName : string) : string :=
  marshalYAMLString (netplan_value
    (buildNamedDirectNetplanConfig mac ip (subnetPrefixLen spec) (subnetGateway spec) (subnetNameServers spec) (ip ==? "") renderer interfaceName)).
Definition buildNetworkConfigWithRenderer (mac ip : string) (spec : option SubnetSpec) (renderer : string) : string :=
  buildNamedNetworkConfigWithRenderer mac ip spec renderer "".
Definition buildBridgedNetworkConfigWithRenderer (mac bridgeName ip : string) (spec : option SubnetSpec) (renderer : string) : string :=
  marshalYAMLString (netplan_value
    (buildBridgedNetplanConfig mac bridgeName ip (subnetPrefixLen spec) (subnetGateway spec) (subnetNameServers spec) (ip ==? "") renderer)).
Definition v1_subnet (ip : string) (spec : option SubnetSpec) : yaml_doc :=
  if TrimSpace ip ==? "" then DStruct [("type", DStr "dhcp")]
  else DStruct ([("type", DStr "static"); ("address", DStr (with_prefix (TrimSpace ip) (subnetPrefixLen spec)))] ++ text_field "gateway" (subnetGateway spec)
             ++ list_field "dns_nameservers" (DStr <$> subnetNameServers spec)).
Definition buildCloudInitV1NetworkConfig (mac ip : string) (spec : option SubnetSpec) : string :=
  marshalYAMLString (DStruct [("version", DInt 1);
    ("config", DList [DStruct ([("type", DStr "physical"); ("name", DStr "eth0")] ++ text_field "mac_address" (ToLower (TrimSpace mac)) ++ [("subnets", DList [v1_subnet ip spec])])])]).
End documents.
