(* ===== verification/UserData.v ===== *)
(** * pxehttp: the seed of a target

    pxe.go, nocloud_network_config.go and vm_seed.go: the user data, meta data and network
    configuration a target is given over HTTP or on a seed medium, and which of them
    need the capability of the renderer of seeds. *)
From S2P Require Import Prelude GoStrings GoNet GoPath GoTime Handler Resource Store Subnet OsImage Machine Hypervisor Vm VmStore BareMetal PxeCallback Curtin PxeInventory PxeTarget CloudInit SshKey Yaml Provision Scripts CloudConfig NetConfig.

(** The services that are asked, by the number of the step: the templates if there is a
    service for them, the keys (none when listing them fails), the subnets, and random
    bytes. *)
Record SeedEnv := mkSeedEnv {
  se_templates : option (nat → string → result CloudInitTemplate); se_keys : nat → list SSHKey; se_subnet : nat → string → option SubnetSpec;
  se_subnets : nat → list SubnetSpec; se_random : nat → nat → result bytes }.

Section seed.
Context (env : PxeEnv) (h : PxeHandler) (sv : SeedEnv) (parseTokenAndTypeFromURL : string → string * string).
Context (yamlUnmarshal : string → result config) (yamlMarshal : config → result string) (yamlValue : yaml_doc → result string).
(** Whether the context carries the capability of the renderer of seeds. *)
Context (seed : bool).
Local Abbreviation H := (Hd PxeStores pxe_event PxeReply).

Definition step : H nat := k ← tick; _ ← pop env (fun s => (s, tt)); mret k.

(** *** user_data_render.go, pxe_target_resolution.go *)

Definition get_template (ref : string) : H (option (result CloudInitTemplate)) :=
  match se_templates sv with None => mret None | Some get => k ← step; mret (Some (get k ref)) end.
Definition resolveCloudInitUserData (ref : string) : H (result (option string)) :=
  t ← get_template ref;
  mret match t with
       | None => Ok None
       | Some (Err e) => if errors_Is e ErrNotFound then Ok None else Err e
       | Some (Ok t) =>
           if is_seed t && negb seed then Err (ErrNew "template requires VM seed delivery")
           else if TrimSpace (ct_UserData t) ==? "" then Ok None else Ok (Some (TrimSpace (ct_UserData t) +:+ newline))
       end.
Definition normalizePXEUserDataInstallType (installType : string) : string := InstallConfigCurtin.
Definition supportsCloudInitFallbackInstallType (installType : string) : bool := installType ==? InstallConfigCurtin.
Definition resolvePXEInstallInline (rawMAC expectedType : string) : H (result (option string)) :=
  n ← findHostByMAC env rawMAC;
  match n with
  | None => mret (Ok None)
  | Some n =>
      if CloudInitInline n expectedType !=? "" then mret (Ok (Some (CloudInitInline n expectedType)))
      else if negb (supportsCloudInitFallbackInstallType expectedType) || (CloudInitRefForDeploy n ==? "") then mret (Ok None)
      else resolveCloudInitUserData (CloudInitRefForDeploy n)
  end.

(** *** host_network_inject.go, hypervisor_userdata.go *)

Definition resolveSubnetSpec (n : pxe_node) : H (option SubnetSpec) :=
  sub ← (if GetSubnetRef n ==? "" then mret None else k ← step; mret (se_subnet sv k (GetSubnetRef n)));
  match sub with Some spec => mret (Some spec) | None => k ← step; mret (head (se_subnets sv k)) end.
Definition ensureHypervisorRegistrationToken (m : Machine) : H (result string) :=
  if hypervisorRegistrationToken m !=? "" then mret (Ok (hypervisorRegistrationToken m))
  else if negb (ph_hypervisors h) || (m_Role m !=? RoleHypervisor) then mret (Ok "") else
  k ← tick;
  token ← pop env (fun s => match CreateToken (se_random sv k) (px_hypervisors s) (pe_clock env k) with
                            | Ok (hs, t) => (s <| px_hypervisors := hs |>, Ok t)
                            | Err e => (s, Err e)
                            end);
  match token with
  | Err e => mret (Err (ErrWrap "create hypervisor registration token: " e ""))
  | Ok token =>
      now ← clock env;
      let m := with_progress (fun p => p <| pp_Artifacts := <["hypervisorRegistrationTokenExpiresAt" := RFC3339 (rt_ExpiresAt token)]>
                 (<["hypervisorRegistrationToken" := rt_Token token]> (pp_Artifacts p)) |>) m in
      stored ← machines_Upsert env (m <| m_UpdatedAt := now |>);
      mret match stored with Err e => Err (ErrWrap "store hypervisor registration token: " e "") | Ok _ => Ok (rt_Token token) end
  end.

(** *** pxe.go *)

Definition PXEPreseed (base rawMAC : string) : H PxeReply :=
  '(target, _) ← resolvePXETarget env h rawMAC;
  if tg_installType target ==? InstallConfigWindows then mret (pxe_error 400 "Windows deployment does not support preseed") else
  let completeURL := buildPXEInstallCompleteURL base (pxeTargetToken target) InstallConfigPreseed in
  inline ← resolvePXEInstallInline rawMAC InstallConfigPreseed;
  mret match inline with
       | Err e => pxe_error_of 500 e
       | Ok inline =>
           let hostname := pxeTargetHostname target in
           mkPxeReply 200 (PText (injectPreseedCompletion parseTokenAndTypeFromURL (injectPreseedHostname (default defaultDebianPreseed inline) hostname) completeURL hostname))
       end.

(** The injections of a hypervisor, and of the network. *)
Definition with_hypervisor (result base : string) (target : pxeTarget) : H (Prelude.result string) :=
  match tg_node target with
  | Some (NMachine m) =>
      if m_Role m ==? RoleHypervisor then
        token ← ensureHypervisorRegistrationToken m;
        mret match token with Err e => Err e | Ok token => Ok (injectHypervisorSetup yamlUnmarshal yamlMarshal result base (m_Name m) token (tg_osFamily target)) end
      else mret (Ok result)
  | _ => mret (Ok result)
  end.
Definition with_network (result base : string) (target : pxeTarget) : H string :=
  match tg_node target with
  | None => mret result
  | Some n =>
      if (TrimSpace (PrimaryMAC n) ==? "") || tg_diskImageDeploy target then mret result else
      spec ← resolveSubnetSpec n;
      mret match n with
           | NMachine m => if m_Role m ==? RoleHypervisor
                           then injectBridgedHostNetworkConfig yamlUnmarshal yamlMarshal yamlValue result m (tg_osFamily target) base spec
                           else injectHostNetworkConfig yamlUnmarshal yamlMarshal yamlValue result n (tg_osFamily target) base spec
           | NVm _ => injectHostNetworkConfig yamlUnmarshal yamlMarshal yamlValue result n (tg_osFamily target) base spec
           end
  end.
Definition with_agent (result base : string) (target : pxeTarget) : string :=
  match tg_node target with Some (NMachine m) => injectWoLShutdownAgent yamlUnmarshal yamlMarshal result base m | _ => result end.
Definition seal (result : string) (target : pxeTarget) : Prelude.result string :=
  match tg_node target with
  | Some (NMachine m) =>
      match m_SealedBootstrap m with
      | Some sb => if sb_Cleanup sb then Ok result else markSealedCompletion yamlUnmarshal yamlMarshal result
      | None => Ok result
      end
  | _ => Ok result
  end.
Definition complete_url (base : string) (target : pxeTarget) : string :=
  buildPXEInstallCompleteURL base (pxeTargetToken target) (normalizePXEUserDataInstallType (tg_installType target)).
Definition complete_retries (target : pxeTarget) : Z := if isDebianOSFamily (tg_osFamily target) then 600 else 60.
(** What is made of the document of a target. *)
Definition render_target (body base : string) (target : pxeTarget) : H (Prelude.result string) :=
  match injectCloudConfigCompletion parseTokenAndTypeFromURL yamlUnmarshal yamlMarshal body (complete_url base target) (pxeTargetHostname target) (complete_retries target) with
  | Err e => mret (Err e)
  | Ok result =>
      k ← step;
      let result := injectSSHKeysAndLoginUser yamlUnmarshal yamlMarshal (se_keys sv k) result (tg_node target) in
      result ← with_hypervisor (with_agent result base target) base target;
      match result with
      | Err e => mret (Err e)
      | Ok result =>
          result ← with_network result base target;
          mret (seal (withDeployCloudInitDefaults yamlUnmarshal yamlMarshal result (tg_completedRootFS target)) target)
      end
  end.
Definition defaultPXEUserDataByInstallType (installType : string) : string := defaultLinuxCurtinUserData.
Definition renderNoCloudUserData (rawMAC base : string) : H (Prelude.result string) :=
  '(target, _) ← resolvePXETarget env h rawMAC;
  if tg_installType target ==? InstallConfigWindows then mret (Err (ErrNew "Windows deployment does not support cloud-init")) else
  let sourceType := normalizePXEUserDataInstallType (tg_installType target) in
  inline ← resolvePXEInstallInline rawMAC sourceType;
  match inline with
  | Err e => mret (Err e)
  | Ok inline => render_target (default (defaultPXEUserDataByInstallType sourceType) inline) base target
  end.
Definition PXENocloudUserData (rawMAC base : string) : H PxeReply :=
  body ← renderNoCloudUserData rawMAC base;
  mret match body with Err e => pxe_error_of 500 e | Ok body => mkPxeReply 200 (PText body) end.

Definition PXENocloudMetaData (rawMAC : string) : H PxeReply :=
  target ← findHostByMAC env rawMAC;
  let name := match target with Some n => sanitizeHostnameForLinux (NodeDisplayName n) | None => "" end in
  let hostname := if name ==? "" then "gomi-pxe" else name in
  let uplink := match target with
                | Some (NMachine m) =>
                    if isCAPIProvisioning m then
                      match ParseIP (TrimSpace (m_IP m)) with
                      | Some ip => match To4 ip with Some v => text_lines ["gomi_ipv4: " +:+ ip4_String v; "gomi_uplink: " +:+ capiUplinkName] | None => "" end
                      | None => ""
                      end
                    else ""
                | _ => ""
                end in
  mret (mkPxeReply 200 (PText (text_lines ["instance-id: gomi-" +:+ macToken rawMAC; "local-hostname: " +:+ hostname] +:+ uplink))).
Definition PXENocloudVendorData : H PxeReply := mret (mkPxeReply 200 (PText defaultNoCloudVendorData)).

(** *** nocloud_network_config.go *)

Definition static_spec (n : pxe_node) (static : bool) : H (option SubnetSpec) := if static then resolveSubnetSpec n else mret None.
Definition renderNoCloudNetworkConfig (rawMAC : string) : H string :=
  let mac := normalizeMAC rawMAC in
  let renderer := networkConfigRendererNetworkd in
  n ← findHostByMAC env rawMAC;
  let ordinary (n : pxe_node) : H string :=
    if (GetIPAssignment n ==? IPAssignmentStatic) && (StaticIP n !=? "") then
      spec ← resolveSubnetSpec n;
      mret (buildNamedNetworkConfigWithRenderer yamlValue mac (StaticIP n) spec renderer
              (match n with NMachine m => if isCAPIProvisioning m then capiUplinkName else "" | NVm _ => "" end))
    else mret (buildNamedNetworkConfigWithRenderer yamlValue mac "" None renderer
                 (match n with NMachine m => if isCAPIProvisioning m then capiUplinkName else "" | NVm _ => "" end)) in
  match n with
  | None => mret (buildNetworkConfigWithRenderer yamlValue mac "" None renderer)
  | Some (NVm v) =>
      if isDebianOSFamily (resolveOSImageFamily h (OSImageVariantRef v)) then
        spec ← static_spec (NVm v) (GetIPAssignment v ==? IPAssignmentStatic);
        mret (buildCloudInitV1NetworkConfig yamlValue mac (static_ip v) spec)
      else ordinary (NVm v)
  | Some (NMachine m) =>
      if m_Role m ==? RoleHypervisor then
        let static := m_IPAssignment m ==? IPAssignmentStatic in
        spec ← static_spec (NMachine m) static;
        mret (buildBridgedNetworkConfigWithRenderer yamlValue mac (if m_BridgeName m ==? "" then "br0" else m_BridgeName m) (if static then m_IP m else "") spec renderer)
      else ordinary (NMachine m)
  end.
Definition PXENocloudNetworkConfig (rawMAC : string) : H PxeReply :=
  text ← renderNoCloudNetworkConfig rawMAC; mret (mkPxeReply 200 (PText text)).

(** *** vm_seed.go *)

Definition isProtectedSeed (mac : string) : H (result bool) :=
  n ← findHostByMAC env mac;
  match n, se_templates sv with
  | Some n, Some get =>
      if CloudInitRefForDeploy n ==? "" then mret (Ok false) else
      k ← step;
      mret match get k (CloudInitRefForDeploy n) with
           | Err e => if errors_Is e ErrNotFound then Ok false else Err e
           | Ok t => Ok (is_seed t)
           end
  | _, _ => mret (Ok false)
  end.
Definition PublicBootData (mac : string) (next : H PxeReply) : H PxeReply :=
  protected ← isProtectedSeed mac;
  match protected with
  | Err _ => mret (mkPxeReply 503 PNoContent)
  | Ok true => mret (mkPxeReply 403 PNoContent)
  | Ok false => next
  end.
End seed.

Section vm_seed.
Context (env : PxeEnv) (h : PxeHandler) (sv : SeedEnv) (parseTokenAndTypeFromURL : string → string * string).
Context (yamlUnmarshal : string → result config) (yamlMarshal : config → result string) (yamlValue : yaml_doc → result string).
Local Abbreviation H := (Hd PxeStores pxe_event PxeReply).
Definition RenderVMSeed (v : VirtualMachine) (base : string) : H (result (list (string * string))) :=
  let mac := PrimaryMAC v in
  n ← findHostByMAC env mac;
  match n with
  | Some (NVm stored) =>
      if v_Name stored !=? v_Name v then mret (Err (ErrNew "VM seed target not found")) else
      protected ← isProtectedSeed env sv mac;
      match protected with
      | Err e => mret (Err e)
      | Ok protected =>
          if protected && negb (IsProvisioningActive stored) then mret (Err (ErrNew "VM seed provisioning is not active")) else
          body ← renderNoCloudUserData env h sv parseTokenAndTypeFromURL yamlUnmarshal yamlMarshal yamlValue true mac base;
          match body with
          | Err e => mret (Err e)
          | Ok body =>
              let name := sanitizeHostnameForLinux (NodeDisplayName stored) in
              network ← renderNoCloudNetworkConfig env h sv yamlValue mac;
              mret (Ok [("user-data", body);
                        ("meta-data", text_lines ["instance-id: gomi-" +:+ macToken mac; "local-hostname: " +:+ (if name ==? "" then "gomi-pxe" else name)]);
                        ("vendor-data", defaultNoCloudVendorData); ("network-config", network)])
          end
      end
  | _ => mret (Err (ErrNew "VM seed target not found"))
  end.
End vm_seed.
