(* ===== verification/UserDataSafe.v ===== *)
(** * pxehttp: what the seed of a target says

    The user data that is served has the commands of its template in their order and
    the command that reports the end of the installation; what is served publicly does
    not depend on what templates for seed media say. *)
From S2P Require Import Prelude GoStrings GoNet GoPath GoTime Handler Resource Store Subnet OsImage Machine Hypervisor Vm VmStore BareMetal PxeCallback Curtin PxeInventory PxeTarget CloudInit SshKey Yaml Provision Scripts CloudConfig NetConfig UserData Windows PxeBoot BareMetalApi.

(** ** White space around a document *)

Lemma strip_right_app x g y : graphic g = true →
  strip_right (x ++ g :: y) = match strip_right x with Some x' => Some (x' ++ g :: y) | None => None end.
Proof.
  intros Hg. unfold graphic in Hg. assert (space1 g = false) as H1 by (unfold space1; lia). assert (∀ c, space2 g c = false) as H2 by (intros c; unfold space2; lia).
  assert (∀ c d, space3 g c d = false) as H3 by (intros c d; unfold space3; lia).
  assert (∀ a b c, a = g → space3 c g b = false) as H4 by (intros ? b c _; unfold space3; lia).
  destruct x as [|a [|b [|c x]]]; cbn.
  - rewrite H1. destruct y as [|b [|c y]]; [done|..]; replace (space2 b g) with false by (unfold space2; lia); [done|].
    by replace (space3 c b g) with false by (unfold space3; lia).
  - destruct (space1 a); [done|]. rewrite H2. destruct y as [|c y]; [done|]. by rewrite (H4 g a c eq_refl).
  - destruct (space1 a); [done|]. destruct (space2 b a); [done|]. by rewrite H3.
  - destruct (space1 a); [done|]. destruct (space2 b a); [done|]. by destruct (space3 c b a).
Qed.
Lemma strip_fuel_app g y : graphic g = true → ∀ m n x, (length x <= m)%nat → (length x <= n)%nat →
  strip_fuel strip_right n (x ++ g :: y) = strip_fuel strip_right m x ++ g :: y.
Proof.
  intros Hg. induction m as [|m IH]; intros n x Hm Hn.
  - destruct x; [|cbn in Hm; lia]. cbn [strip_fuel app]. destruct n; [done|]. cbn [strip_fuel]. assert (strip_right (g :: y) = None) as -> by exact (strip_right_app [] g y Hg). done.
  - destruct n as [|n]; [destruct x; [|cbn in Hn; lia]; done|]. cbn [strip_fuel]. rewrite strip_right_app by done.
    destruct (strip_right x) as [x'|] eqn:E; [|done]. apply strip_right_shorter in E. apply IH; lia.
Qed.
(** Nothing is cut before a printable character. *)
Lemma trim_right_app a g b : graphic g = true → trim_right ((a ++ [g]) ++ b) = (a ++ [g]) ++ trim_right b.
Proof.
  intros Hg. unfold trim_right, strip_all. rewrite !reverse_app. cbn [reverse]. change (reverse [g] ++ reverse a) with (g :: reverse a).
  rewrite (strip_fuel_app g (reverse a) Hg (length (reverse b))); [|lia|rewrite length_app; lia].
  rewrite reverse_app, reverse_cons, reverse_involutive. done.
Qed.
Lemma trim_right_idemp l : trim_right (trim_right l) = trim_right l.
Proof. apply trim_right_id, trim_right_fixed. Qed.

(** ** Documents *)

Definition cloud_header : string := "#cloud-config".
Definition jinja_header : string := jinjaTemplateHeader +:+ newline +:+ cloud_header.
Definition headers : list string := [cloud_header; jinja_header].
Definition document (header s : string) : string := header +:+ newline +:+ s.
(** A line end and a text, without the white space at the end. *)
Definition cut (s : string) : string := of_bytes (trim_right (to_bytes (newline +:+ s))).

Lemma header_ends header : header ∈ headers → ∃ a g, to_bytes header = a ++ [g] ∧ graphic g = true ∧ match to_bytes header with c :: _ => graphic c = true | [] => True end.
Proof.
  intros [->|[->|[]%elem_of_nil]%elem_of_cons]%elem_of_cons; [exists (to_bytes "#cloud-confi"), "g"%char|exists (to_bytes (jinjaTemplateHeader +:+ newline +:+ "#cloud-confi")), "g"%char];
    split_and!; reflexivity.
Qed.
Lemma cut_document header s : header ∈ headers → TrimSpace (document header s) = header +:+ cut s.
Proof.
  intros (a & g & E & Hg & Hf)%header_ends. unfold TrimSpace, document, cut. rewrite to_bytes_app. apply (f_equal of_bytes) in E as E'. rewrite of_to_bytes in E'.
  unfold trim_left. rewrite strip_all_id; [|apply strip_left_graphic; rewrite E in *; by destruct a]. rewrite E, trim_right_app by done. by rewrite of_bytes_app, <- E'.
Qed.
Lemma cut_body header s : header ∈ headers → splitCloudConfigHeader (header +:+ cut s) = (header, cloud_header +:+ cut s).
Proof.
  intros Hh. assert (TrimSpace (header +:+ cut s) = header +:+ cut s) as Ht by (rewrite <- cut_document by done; apply TrimSpace_idemp).
  unfold splitCloudConfigHeader. rewrite Ht. apply elem_of_cons in Hh as [->|[->|[]%elem_of_nil]%elem_of_cons]; [done|].
  replace (HasPrefix (jinja_header +:+ cut s) jinjaTemplateHeader) with true by reflexivity. f_equal.
  change (jinja_header +:+ cut s) with (jinjaTemplateHeader +:+ (newline +:+ cloud_header +:+ cut s)). rewrite TrimPrefix_app.
  unfold TrimSpace. rewrite !to_bytes_app. set (l := to_bytes cloud_header ++ to_bytes (cut s)).
  assert (trim_left (to_bytes newline ++ l) = l) as ->.
  { unfold trim_left, strip_all. change (to_bytes newline ++ l) with (ascii_of_N 10 :: l). cbn [length strip_fuel].
    change (strip_left (ascii_of_N 10 :: l)) with (Some l). cbv iota beta. apply (strip_all_id strip_left). by apply strip_left_graphic. }
  unfold l. change (to_bytes cloud_header) with (to_bytes "#cloud-confi" ++ ["g"%char]). rewrite trim_right_app by done. unfold cut. rewrite to_of_bytes, trim_right_idemp.
  by rewrite of_bytes_app.
Qed.

(** What is kept of a map that is written and read: its keys, which of their values are
    lists, and of a list its length and the entries that are strings.  Other values may
    read otherwise than they were written, as the number 1.0 does. *)
Definition reads_as (v w : yaml_value) : Prop := ∀ s, v = VStr s ↔ w = VStr s.
Definition entry_reads (v w : option yaml_value) : Prop :=
  match v with
  | Some (VList l) => ∃ k, w = Some (VList k) ∧ Forall2 reads_as l k
  | Some _ => is_Some w
  | None => w = None
  end.
Lemma reads_strings l k : Forall2 reads_as l k → strings_of l = strings_of k.
Proof.
  induction 1 as [|v w l k Hv _ IH]; [done|]. destruct v as [s| | | | |]; [rewrite (proj1 (Hv s) eq_refl); cbn; by f_equal|..];
    (destruct w as [s| | | | |]; [by pose proof (proj2 (Hv s) eq_refl)|exact IH..]).
Qed.

(** What the documents of package yaml promise: a comment before a document changes
    nothing, a map reads back but for what is said above, and cutting the white space at
    the end of the text can only change its last entry.  Entries are sorted by their
    keys, so that the commands are not the last when there are files to write.  Writing
    plain values does not fail. *)
Class YamlLaws (yamlUnmarshal : string → result config) (yamlMarshal : config → result string) : Prop := {
  yaml_whole header cfg s : header ∈ headers → yamlMarshal cfg = Ok s →
    ∃ cfg', yamlUnmarshal (document header s) = Ok cfg' ∧ ∀ key, entry_reads (cfg !! key) (cfg' !! key);
  yaml_cut header cfg s : header ∈ headers → yamlMarshal cfg = Ok s → is_Some (cfg !! "write_files") →
    ∃ cfg', yamlUnmarshal (header +:+ cut s) = Ok cfg' ∧ entry_reads (cfg !! "runcmd") (cfg' !! "runcmd") ∧ is_Some (cfg' !! "write_files");
  yaml_total cfg : ∃ s, yamlMarshal cfg = Ok s }.

Section pipeline.
Context (parseTokenAndTypeFromURL : string → string * string).
Context (yamlUnmarshal : string → result config) (yamlMarshal : config → result string) (yamlValue : yaml_doc → result string).
Context (Hyaml : YamlLaws yamlUnmarshal yamlMarshal).

(** The text is a document with files to write and, in this order among others, the
    commands, which are strings. *)
Definition carries (l : list string) (text : string) : Prop :=
  ∃ header cfg s all, header ∈ headers ∧ yamlMarshal cfg = Ok s ∧ text = document header s ∧ is_Some (cfg !! "write_files")
    ∧ cfg !! "runcmd" = Some (VList all) ∧ l `sublist_of` strings_of all.

Lemma header_in source : (splitCloudConfigHeader source).1 ∈ headers.
Proof. unfold splitCloudConfigHeader. destruct (HasPrefix _ _); set_solver. Qed.

(** A change that keeps files and commands. *)
Definition keeps_commands (f : config → config) : Prop :=
  ∀ cfg all, cfg !! "runcmd" = Some (VList all) → is_Some (cfg !! "write_files") →
    is_Some (f cfg !! "write_files") ∧ ∃ all', f cfg !! "runcmd" = Some (VList all') ∧ all `sublist_of` all'.
Lemma strings_sublist l k : l `sublist_of` k → strings_of l `sublist_of` strings_of k.
Proof. induction 1 as [|v l k _ IH|v l k _ IH]; [done| |]; destruct v; cbn; first [exact IH | by constructor]. Qed.
Lemma edit_carries l text f : carries l text → keeps_commands f → carries l (edit_config yamlUnmarshal yamlMarshal text f).
Proof.
  intros (header & cfg & s & all & Hh & Hs & -> & Hw & Hr & Hl) Hf. unfold edit_config. cbv zeta. rewrite cut_document by done.
  assert ((header +:+ cut s ==? "") = false) as -> by (apply bool_decide_eq_false; destruct (header_ends header Hh) as (a & g & E & _); destruct header; [by destruct a|done]).
  destruct (yaml_cut header cfg s Hh Hs Hw) as (cfg' & -> & Er & Hw'). rewrite Hr in Er. destruct Er as (all1 & Er & Hall).
  pose proof Hl as Hl1. rewrite (reads_strings _ _ Hall) in Hl1. destruct (Hf cfg' all1 Er Hw') as (Hw2 & all' & Hr2 & Hs2).
  unfold renderCloudConfig. destruct (yamlMarshal (f cfg')) as [raw|e] eqn:Em; cbn; [|by exists header, cfg, s, all].
  exists (splitCloudConfigHeader (TrimSpace (document header s))).1, (f cfg'), raw, all'. split_and!; [apply header_in|done|done|done|done|].
  transitivity (strings_of all1); [done|by apply strings_sublist].
Qed.
Lemma list_at_list cfg key all : cfg !! key = Some (VList all) → list_at cfg key = all.
Proof. unfold list_at. by intros ->. Qed.
Lemma keep_files files f : keeps_commands f → keeps_commands (fun cfg => add_files files (f cfg)).
Proof.
  intros Hf cfg all Hr Hw. destruct (Hf cfg all Hr Hw) as (Hw1 & all' & Hr1 & Hs). unfold add_files. rewrite lookup_insert_eq. split; [done|].
  exists all'. by rewrite lookup_insert_ne.
Qed.
Lemma keep_commands before after f : keeps_commands f → keeps_commands (fun cfg => add_commands before after (f cfg)).
Proof.
  intros Hf cfg all Hr Hw. destruct (Hf cfg all Hr Hw) as (Hw1 & all' & Hr1 & Hs). unfold add_commands. rewrite lookup_insert_ne by done. split; [done|].
  rewrite lookup_insert_eq. eexists. split; [done|]. rewrite (list_at_list _ _ _ Hr1). by apply sublist_inserts_l, sublist_inserts_r.
Qed.
Lemma keep_id : keeps_commands id.
Proof. intros cfg all Hr Hw. split; [done|]. by exists all. Qed.
Lemma keep_other f : (∀ cfg, f cfg !! "runcmd" = cfg !! "runcmd" ∧ f cfg !! "write_files" = cfg !! "write_files") → keeps_commands f.
Proof. intros Hf cfg all Hr Hw. destruct (Hf cfg) as [E1 E2]. rewrite E1, E2. split; [done|]. by exists all. Qed.

Ltac other := intros cfg; repeat first [rewrite lookup_insert_ne by done | rewrite lookup_delete_ne by done]; done.
Lemma keep_users keys u : keeps_commands (with_users keys u).
Proof.
  apply keep_other. unfold with_users. intros cfg. cbv zeta. destruct u as [u|]; repeat case_match; split; repeat first [rewrite lookup_insert_ne by done | rewrite lookup_delete_ne by done]; done.
Qed.
Lemma keep_packages l : keeps_commands (add_packages l).
Proof. apply keep_other. unfold add_packages. intros cfg. cbv zeta. case_bool_decide; split; by rewrite ?lookup_insert_ne, ?lookup_delete_ne. Qed.

(** *** The injections *)

Lemma users_carry l text keys n : carries l text → carries l (injectSSHKeysAndLoginUser yamlUnmarshal yamlMarshal keys text n).
Proof.
  intros Hc. unfold injectSSHKeysAndLoginUser. case_bool_decide; [done|]. destruct (targetUserSpec n) as [refs u]. apply edit_carries; [done|apply keep_users].
Qed.
Lemma agent_carries l text base m : carries l text → carries l (injectWoLShutdownAgent yamlUnmarshal yamlMarshal text base m).
Proof.
  intros Hc. unfold injectWoLShutdownAgent. repeat first [case_match; [done|] | case_match]; try done. apply edit_carries; [done|].
  apply (keep_commands [] _ (add_files _)). apply (keep_files _ id), keep_id.
Qed.
Lemma hypervisor_carries l text base name token family : carries l text → carries l (injectHypervisorSetup yamlUnmarshal yamlMarshal text base name token family).
Proof. intros Hc. apply edit_carries; [done|]. apply (keep_commands [] _ (add_packages _)), keep_packages. Qed.
Lemma netplan_carries l text doc family base : carries l text → carries l (inject_netplan yamlUnmarshal yamlMarshal text doc family base).
Proof. intros Hc. apply edit_carries; [done|]. apply (keep_commands _ _ (add_files _)), (keep_files _ id), keep_id. Qed.
Lemma connections_carry l text files up : carries l text → carries l (injectNetworkManagerConnections yamlUnmarshal yamlMarshal text files up).
Proof.
  intros Hc. unfold injectNetworkManagerConnections. case_bool_decide; [done|]. apply edit_carries; [done|].
  apply (keep_commands _ [] (add_files _)), (keep_files _ id), keep_id.
Qed.
Lemma host_carries l text n family base spec : carries l text → carries l (injectHostNetworkConfig yamlUnmarshal yamlMarshal yamlValue text n family base spec).
Proof.
  intros Hc. assert (carries l (injectNetplanConfigForHost yamlUnmarshal yamlMarshal yamlValue text n family base spec)) as Hn.
  { unfold injectNetplanConfigForHost, injectNetplanConfigFromParams. repeat (case_match; [done|]). by apply netplan_carries. }
  unfold injectHostNetworkConfig. destruct (isNetworkManagerOSFamily family) eqn:Ef.
  - unfold injectNetworkManagerConfigForHost. repeat (case_match; [done|]). by apply connections_carry.
  - destruct n; [|done]. destruct (isDebianOSFamily family); [|done]. unfold injectDebianIfupdownConfigForHost. cbv zeta. case_match; [done|].
    apply edit_carries; [done|]. apply (keep_commands _ [] (add_files _)), (keep_files _ id), keep_id.
Qed.
Lemma bridged_carries l text m family base spec : carries l text → carries l (injectBridgedHostNetworkConfig yamlUnmarshal yamlMarshal yamlValue text m family base spec).
Proof.
  intros Hc. unfold injectBridgedHostNetworkConfig, injectBridgedNetworkManagerConfig, injectBridgedNetplanConfig. destruct (isNetworkManagerOSFamily family) eqn:Ef.
  - repeat (case_match; [done|]). by apply connections_carry.
  - repeat (case_match; [done|]). by apply netplan_carries.
Qed.
Lemma keep_default key v : key ≠ "runcmd" → key ≠ "write_files" → keeps_commands (set_default key v).
Proof. intros H1 H2. apply keep_other. unfold set_default. intros cfg. destruct (cfg !! key); [done|]. by rewrite !lookup_insert_ne. Qed.
Lemma keep_both f g : keeps_commands f → keeps_commands g → keeps_commands (fun cfg => g (f cfg)).
Proof.
  intros Hf Hg cfg all Hr Hw. destruct (Hf cfg all Hr Hw) as (Hw1 & all1 & Hr1 & Hs1). destruct (Hg _ all1 Hr1 Hw1) as (Hw2 & all2 & Hr2 & Hs2).
  split; [done|]. exists all2. split; [done|]. by transitivity all1.
Qed.
Lemma header_nonempty header s : header ∈ headers → (header +:+ s ==? "") = false.
Proof. intros (a & g & E & _)%header_ends. apply bool_decide_eq_false. destruct header; [by destruct a|done]. Qed.
Lemma defaults_carry l text b : carries l text → carries l (withDeployCloudInitDefaults yamlUnmarshal yamlMarshal text b).
Proof.
  intros (header & cfg & s & all & Hh & Hs & -> & Hw & Hr & Hl). unfold withDeployCloudInitDefaults. cbv zeta.
  rewrite cut_document, header_nonempty, cut_body by done. destruct (yaml_cut cloud_header cfg s) as (cfg' & -> & Er & Hw'); [set_solver|done|done|]. rewrite Hr in Er.
  set (f := fun cfg => let cfg := set_default "locale" (VBool false) cfg in if b then set_default "resize_rootfs" (VBool false) cfg else cfg).
  change (if b then _ else _) with (f cfg'). assert (keeps_commands f) as Hf.
  { unfold f. destruct b; [apply keep_both|]; by apply keep_default. }
  destruct Er as (all1 & Er & Hall). rewrite (reads_strings _ _ Hall) in Hl.
  destruct (Hf cfg' all1 Er Hw') as (Hw2 & all2 & Hr2 & Hs2). destruct (yaml_total (f cfg')) as [raw Em]. rewrite Em.
  exists header, (f cfg'), raw, all2. split_and!; try done. transitivity (strings_of all1); [done|by apply strings_sublist].
Qed.

(** *** The commands of the document, and the end of the installation *)

Lemma completion_runcmd url hostname retries cfg :
  with_completion parseTokenAndTypeFromURL url hostname retries cfg !! "runcmd"
  = Some (VList (VStr <$> (kept_commands cfg ++ ["systemctl enable serial-getty@ttyS0.service || true"])
      ++ ["systemctl enable --now gomi-bootorder-cleanup.service || /usr/local/sbin/gomi-fix-uefi-bootorder || true"]
      ++ if url !=? "" then [completion_command parseTokenAndTypeFromURL url retries] else [])).
Proof.
  unfold with_completion. cbv zeta. set (cfg1 := if sanitizeHostnameForLinux hostname !=? "" then _ else cfg).
  assert (kept_commands cfg1 = kept_commands cfg) as -> by (unfold cfg1, kept_commands, list_at; destruct (sanitizeHostnameForLinux hostname !=? ""); by rewrite ?lookup_insert_ne).
  unfold injectTargetUEFIBootOrderCleanup. rewrite lookup_insert_eq. destruct (url !=? ""); rewrite ?app_nil_r, <- ?app_assoc; done.
Qed.
Lemma completion_files url hostname retries cfg : is_Some (with_completion parseTokenAndTypeFromURL url hostname retries cfg !! "write_files").
Proof. unfold with_completion, injectTargetUEFIBootOrderCleanup. cbv zeta. rewrite lookup_insert_ne by done. unfold add_files. by rewrite lookup_insert_eq. Qed.

(** The commands that are to be served for a document. *)
Definition wanted_commands (cfg : config) (url : string) (retries : Z) : list string :=
  kept_commands cfg ++ (if url !=? "" then [completion_command parseTokenAndTypeFromURL url retries] else []).
(** What is read of the document of a template; the default document stands for a blank
    one. *)
Definition document_body (content : string) : string :=
  (splitCloudConfigHeader (if TrimSpace content ==? "" then defaultLinuxCurtinUserData else TrimSpace content)).2.
Lemma completion_carries content url hostname retries text :
  injectCloudConfigCompletion parseTokenAndTypeFromURL yamlUnmarshal yamlMarshal content url hostname retries = Ok text →
  ∃ cfg, yamlUnmarshal (document_body content) = Ok cfg ∧ carries (wanted_commands cfg url retries) text.
Proof.
  unfold injectCloudConfigCompletion, document_body. cbv zeta. set (trimmed := if TrimSpace content ==? "" then _ else _). pose proof (header_in trimmed) as Hh.
  destruct (splitCloudConfigHeader trimmed) as [header body]. cbn [fst snd] in *. destruct (yamlUnmarshal body) as [cfg|]; [|done].
  destruct (yamlMarshal _) as [raw|] eqn:Em; intros [= <-]. exists cfg. split; [done|].
  eexists header, _, raw, _. split_and!; [done|exact Em|done|apply completion_files|apply completion_runcmd|].
  rewrite strings_of_strs, <- app_assoc. apply sublist_app; [done|]. by apply sublist_inserts_l, sublist_inserts_l.
Qed.

(** A machine that waits for its sealed bootstrap. *)
Definition sealed (target : pxeTarget) : bool :=
  match tg_node target with Some (NMachine m) => match m_SealedBootstrap m with Some sb => negb (sb_Cleanup sb) | None => false end | _ => false end.
(** The document has the commands, in this order among others; no command of a machine
    that waits reports the end of the installation without the mark. *)
Definition serves (target : pxeTarget) (l : list string) (text : string) : Prop :=
  ∃ cfg all, yamlUnmarshal text = Ok cfg ∧ cfg !! "runcmd" = Some (VList all) ∧ (if sealed target then mark_command <$> l else l) `sublist_of` strings_of all
    ∧ (sealed target = true → ∀ s, s ∈ strings_of all → is_completion s = false).
Lemma marked_no_completion c : is_completion (mark_command c) = false.
Proof. unfold mark_command. by destruct (is_completion c) eqn:E. Qed.
Lemma marked_strings l : strings_of (mark_completion <$> l) = mark_command <$> strings_of l.
Proof. induction l as [|[] l IH]; csimpl; by rewrite ?IH. Qed.
Lemma seal_serves target l text text' : carries l text → seal yamlUnmarshal yamlMarshal text target = Ok text' → serves target l text'.
Proof.
  intros (header & cfg & s & all & Hh & Hs & -> & _ & Hr & Hl). destruct (yaml_whole header cfg s Hh Hs) as (cfg1 & Hu & Hk).
  specialize (Hk "runcmd"). rewrite Hr in Hk. destruct Hk as (all1 & Hr1 & Hall). rewrite (reads_strings _ _ Hall) in Hl. clear Hr Hall all.
  assert (sealed target = false → Ok (document header s) = Ok text' → serves target l text') as Hplain.
  { intros E [= <-]. exists cfg1, all1. rewrite E. by split_and!. }
  unfold seal. destruct (tg_node target) as [[v|m]|] eqn:En; [apply Hplain; unfold sealed; by rewrite En| |apply Hplain; unfold sealed; by rewrite En].
  destruct (m_SealedBootstrap m) as [sb|] eqn:Es; [|apply Hplain; unfold sealed; by rewrite En, Es].
  assert (sealed target = negb (sb_Cleanup sb)) as Esb by (unfold sealed; by rewrite En, Es). destruct (sb_Cleanup sb); [by apply Hplain|].
  unfold markSealedCompletion. rewrite Hu. cbn [mbind result_bind]. rewrite Hr1. cbn [as_list]. case_bool_decide; [|done].
  unfold renderCloudConfig. destruct (yamlMarshal (<[_ := _]> _)) as [raw|] eqn:Em; [|done]. intros [= <-].
  destruct (yaml_whole _ _ raw (header_in (TrimSpace (document header s))) Em) as (cfg2 & Hu2 & Hk). specialize (Hk "runcmd"). rewrite lookup_insert_eq in Hk. destruct Hk as (all2 & Hr2 & Hall).
  exists cfg2, all2. rewrite Esb, <- (reads_strings _ _ Hall), marked_strings. split_and!; [done..|by apply fmap_sublist|].
  intros _ x (e & -> & _)%list_elem_of_fmap. apply marked_no_completion.
Qed.
End pipeline.

(** *** What a target is served *)

Section serving.
Context (env : PxeEnv) (h : PxeHandler) (sv : SeedEnv) (parseTokenAndTypeFromURL : string → string * string).
Context (yamlUnmarshal : string → result config) (yamlMarshal : config → result string) (yamlValue : yaml_doc → result string).
Context (Hyaml : YamlLaws yamlUnmarshal yamlMarshal) (mode : bool).
Local Abbreviation carries := (carries yamlMarshal).
Local Abbreviation serves := (serves yamlUnmarshal).

Lemma hypervisor_run l result base target st st' r : carries l result →
  with_hypervisor env h sv yamlUnmarshal yamlMarshal result base target st = (st', inl (Ok r)) → carries l r.
Proof.
  intros Hc. unfold with_hypervisor. destruct (tg_node target) as [[v|m]|]; [by intros [= _ <-]| |by intros [= _ <-]]. destruct (m_Role m ==? RoleHypervisor); [|by intros [= _ <-]].
  intros [(st1 & token & _ & E)|(? & _ & [=])]%hd_bind_inv. destruct token as [token|e]; [|done]. injection E as _ <-. by apply hypervisor_carries.
Qed.
Lemma network_run l result base target st st' r : carries l result →
  with_network env sv yamlUnmarshal yamlMarshal yamlValue result base target st = (st', inl r) → carries l r.
Proof.
  intros Hc. unfold with_network. destruct (tg_node target) as [n|]; [|by intros [= _ <-]]. destruct (_ || _); [by intros [= _ <-]|].
  intros [(st1 & spec & _ & E)|(? & _ & [=])]%hd_bind_inv. injection E as _ <-.
  destruct n as [v|m]; [by apply host_carries|]. destruct (m_Role m ==? RoleHypervisor); [by apply bridged_carries|by apply host_carries].
Qed.
Lemma with_agent_carries l result base target : carries l result → carries l (with_agent yamlUnmarshal yamlMarshal result base target).
Proof. intros Hc. unfold with_agent. destruct (tg_node target) as [[v|m]|]; [done|by apply agent_carries|done]. Qed.
Lemma render_serves body base target st st' text :
  render_target env h sv parseTokenAndTypeFromURL yamlUnmarshal yamlMarshal yamlValue body base target st = (st', inl (Ok text)) →
  ∃ cfg, yamlUnmarshal (document_body body) = Ok cfg
    ∧ serves target (wanted_commands parseTokenAndTypeFromURL cfg (complete_url base target) (complete_retries target)) text.
Proof.
  unfold render_target. destruct (injectCloudConfigCompletion _ _ _ _ _ _ _) as [result|] eqn:Ec; [|done].
  apply completion_carries in Ec as (cfg & Hu & Hc); [|done]. intros E. exists cfg. split; [done|].
  apply hd_bind_inv in E as [(st1 & k & _ & E)|(? & _ & [=])]. apply hd_bind_inv in E as [(st2 & r2 & E2 & E)|(? & _ & [=])].
  destruct r2 as [r2|]; [|done]. eapply hypervisor_run in E2; [|by apply with_agent_carries, users_carry].
  apply hd_bind_inv in E as [(st3 & r3 & E3 & E)|(? & _ & [=])]. eapply network_run in E3; [|done].
  injection E as _ E. refine (seal_serves parseTokenAndTypeFromURL _ _ Hyaml _ _ _ _ _ E). by apply defaults_carry.
Qed.

(** C28: the user data a target is served, when it is served, is a document that has the
    string commands of the target's own document, in their order, and then the command
    that reports the end of the installation (when the attempt has a token): whatever is
    added for keys and users, the agent, a hypervisor and the network neither removes nor
    reorders them.  A machine that waits for its sealed bootstrap is given no command
    that reports the end without first testing for the bootstrap's success. *)
Theorem completion_callback_served (rawMAC base : string) (st st' : HState PxeStores pxe_event) (text : string) :
  renderNoCloudUserData env h sv parseTokenAndTypeFromURL yamlUnmarshal yamlMarshal yamlValue mode rawMAC base st = (st', inl (Ok text)) →
  ∃ st1 target provisioning st2 inline cfg, resolvePXETarget env h rawMAC st = (st1, inl (target, provisioning)) ∧ tg_installType target ≠ InstallConfigWindows
    ∧ resolvePXEInstallInline env sv mode rawMAC InstallConfigCurtin st1 = (st2, inl (Ok inline))
    ∧ yamlUnmarshal (document_body (default defaultLinuxCurtinUserData inline)) = Ok cfg
    ∧ serves target (wanted_commands parseTokenAndTypeFromURL cfg (complete_url base target) (complete_retries target)) text.
Proof.
  unfold renderNoCloudUserData. intros [(st1 & [target provisioning] & E1 & E)|(? & _ & [=])]%hd_bind_inv. case_bool_decide as Hw; [done|].
  apply hd_bind_inv in E as [(st2 & inline & E2 & E)|(? & _ & [=])]. destruct inline as [inline|]; [|done].
  apply render_serves in E as (cfg & Hu & Hs). by exists st1, target, provisioning, st2, inline, cfg.
Qed.
End serving.

(** ** What is served publicly *)

(** Templates that differ only in what is delivered on seed media. *)
Definition same_template (r1 r2 : result CloudInitTemplate) : Prop :=
  match r1, r2 with
  | Ok t1, Ok t2 => is_seed t1 = is_seed t2 ∧ (is_seed t1 = false → t1 = t2)
  | Err e1, Err e2 => e1 = e2
  | _, _ => False
  end.
Definition same_templates (g1 g2 : option (nat → string → result CloudInitTemplate)) : Prop :=
  match g1, g2 with
  | Some g1, Some g2 => ∀ k ref, same_template (g1 k ref) (g2 k ref)
  | None, None => True
  | _, _ => False
  end.

Section public.
Context (env : PxeEnv) (h : PxeHandler) (sv : SeedEnv) (parseTokenAndTypeFromURL : string → string * string).
Context (yamlUnmarshal : string → result config) (yamlMarshal : config → result string) (yamlValue : yaml_doc → result string).
Context (g1 g2 : option (nat → string → result CloudInitTemplate)) (Hg : same_templates g1 g2).
(** The same services, with other templates. *)
Definition with_templates g : SeedEnv := mkSeedEnv g (se_keys sv) (se_subnet sv) (se_subnets sv) (se_random sv).

Lemma bind_same {A B} (m1 m2 : Hd PxeStores pxe_event PxeReply A) (f1 f2 : A → Hd PxeStores pxe_event PxeReply B) st :
  m1 st = m2 st → (∀ a st, f1 a st = f2 a st) → (m1 ≫= f1) st = (m2 ≫= f2) st.
Proof. intros Hm Hf. unfold mbind, Hd_bind. rewrite Hm. destruct (m2 st) as [st1 [a|r]]; [apply Hf|done]. Qed.

Lemma template_same ref st : resolveCloudInitUserData env (with_templates g1) false ref st = resolveCloudInitUserData env (with_templates g2) false ref st.
Proof.
  unfold resolveCloudInitUserData, get_template. cbn [se_templates with_templates]. destruct g1 as [f1|], g2 as [f2|]; try done.
  unfold mbind at 1 3, Hd_bind. unfold mbind, Hd_bind, mret, Hd_ret. destruct (step env st) as [st1 [k|r]]; [|done]. specialize (Hg k ref). unfold same_template in Hg.
  destruct (f1 k ref) as [t1|e1], (f2 k ref) as [t2|e2]; try done; [|by subst].
  destruct Hg as [Hs Heq]. rewrite <- Hs. destruct (is_seed t1); [done|]. by rewrite Heq.
Qed.
Lemma inline_same mac ty st : resolvePXEInstallInline env (with_templates g1) false mac ty st = resolvePXEInstallInline env (with_templates g2) false mac ty st.
Proof. apply bind_same; [done|]. intros [n|] st1; [|done]. destruct (_ !=? _); [done|]. destruct (_ || _); [done|]. apply template_same. Qed.
Lemma protected_same mac st : isProtectedSeed env (with_templates g1) mac st = isProtectedSeed env (with_templates g2) mac st.
Proof.
  apply bind_same; [done|]. cbn [se_templates with_templates]. intros [n|] st1; [|done]. destruct g1 as [f1|], g2 as [f2|]; try done. destruct (_ ==? _); [done|].
  apply bind_same; [done|]. intros k st2. specialize (Hg k (CloudInitRefForDeploy n)). unfold same_template in Hg. unfold mret, Hd_ret.
  destruct (f1 k _) as [t1|e1], (f2 k _) as [t2|e2]; try done; [|by subst]. by destruct Hg as [-> _].
Qed.

(** C29: what is served over the network without credentials does not depend on what the
    templates for seed media say: two systems that differ only in the documents of such
    templates answer every request for user data, a preseed file or a network
    configuration alike, whatever the stores hold and however other requests are
    interleaved, with the same effects on the stores, and they refuse the same
    requests. *)
Theorem public_data_hides_seeds (mac base : string) (st : HState PxeStores pxe_event) :
  PXENocloudUserData env h (with_templates g1) parseTokenAndTypeFromURL yamlUnmarshal yamlMarshal yamlValue false mac base st
    = PXENocloudUserData env h (with_templates g2) parseTokenAndTypeFromURL yamlUnmarshal yamlMarshal yamlValue false mac base st
  ∧ PXEPreseed env h (with_templates g1) parseTokenAndTypeFromURL false base mac st = PXEPreseed env h (with_templates g2) parseTokenAndTypeFromURL false base mac st
  ∧ PXENocloudNetworkConfig env h (with_templates g1) yamlValue mac st = PXENocloudNetworkConfig env h (with_templates g2) yamlValue mac st
  ∧ (∀ next, PublicBootData env (with_templates g1) mac next st = PublicBootData env (with_templates g2) mac next st).
Proof.
  split_and!.
  - apply bind_same; [|done]. apply bind_same; [done|]. intros [target b] st1. destruct (_ ==? _); [done|]. apply bind_same; [apply inline_same|]. by intros [inline|e].
  - apply bind_same; [done|]. intros [target b] st1. destruct (_ ==? _); [done|]. apply bind_same; [apply inline_same|done].
  - done.
  - intros next. apply bind_same; [apply protected_same|done].
Qed.
End public.

(** ** Runs *)

(** A way to write and read maps that has the laws: the binary digits of the number of
    what is kept. *)
Definition kept_scalar (v : yaml_value) : option string := match v with VStr s => Some s | _ => None end.
Definition kept_entry (v : yaml_value) : option (list (option string)) := match v with VList l => Some (kept_scalar <$> l) | _ => None end.
Definition of_scalar (o : option string) : yaml_value := match o with Some s => VStr s | None => VOther "null" end.
Definition of_entry (o : option (list (option string))) : yaml_value := match o with Some l => VList (of_scalar <$> l) | None => VOther "null" end.
Definition shape (cfg : config) : list (string * option (list (option string))) := map_to_list (kept_entry <$> cfg).
Definition of_shape (l : list (string * option (list (option string)))) : config := of_entry <$> list_to_map l.
Lemma shape_reads cfg key : entry_reads (cfg !! key) (of_shape (shape cfg) !! key).
Proof.
  unfold of_shape, shape. rewrite list_to_map_to_list, !lookup_fmap. destruct (cfg !! key) as [[| | |l| |]|]; cbn; try by eexists.
  eexists. split; [done|]. apply Forall2_fmap_r, Forall2_fmap_r, Forall_Forall2_diag, Forall_true. intros v s. by destruct v.
Qed.

Fixpoint digits (p : positive) : bytes := match p with xH => ["."%char] | xO p => "0"%char :: digits p | xI p => "1"%char :: digits p end.
Fixpoint number (l : bytes) : option positive :=
  match l with
  | [] => None
  | c :: l => if c ==? "."%char then Some xH else p ← number l; if c ==? "0"%char then Some (xO p) else Some (xI p)
  end.
Lemma number_digits p : number (digits p) = Some p.
Proof. induction p as [p IH|p IH|]; cbn; by rewrite ?IH. Qed.
Lemma digits_end p : ∃ a, digits p = a ++ ["."%char].
Proof. induction p as [p [a IH]|p [a IH]|]; cbn; [exists ("1"%char :: a); by rewrite IH|exists ("0"%char :: a); by rewrite IH|by exists []]. Qed.
Definition digit_marshal (cfg : config) : result string := Ok (of_bytes (digits (encode (shape cfg)))).
Definition digit_unmarshal (text : string) : result config :=
  let after h := if HasPrefix text (h +:+ newline) then p ← number (to_bytes (TrimPrefix text (h +:+ newline))); l ← decode p; Some (of_shape l) else None in
  match (after cloud_header ∪ after jinja_header) with Some cfg => Ok cfg | None => Err (ErrNew "yaml: cannot unmarshal") end.
Lemma digit_whole header (cfg : config) : header ∈ headers → digit_unmarshal (document header (of_bytes (digits (encode (shape cfg))))) = Ok (of_shape (shape cfg)).
Proof.
  set (s := of_bytes _). assert (∀ h, (if HasPrefix (document h s) (h +:+ newline) then
      p ← number (to_bytes (TrimPrefix (document h s) (h +:+ newline))); l ← decode p; Some (of_shape l) else None) = Some (of_shape (shape cfg))) as Hd.
  { intros h. assert (document h s = (h +:+ newline) +:+ s) as -> by (unfold document; apply to_bytes_inj; by rewrite !to_bytes_app, app_assoc). rewrite HasPrefix_app, TrimPrefix_app.
    unfold s. rewrite to_of_bytes, number_digits. cbn [mbind option_bind]. by rewrite decode_encode. }
  unfold digit_unmarshal. intros Hh. apply elem_of_cons in Hh as [->|[->|[]%elem_of_nil]%elem_of_cons]; cbv zeta beta; [by rewrite Hd|].
  rewrite Hd. by replace (HasPrefix (document jinja_header s) (cloud_header +:+ newline)) with false by reflexivity.
Qed.
#[local] Instance digit_laws : YamlLaws digit_unmarshal digit_marshal.
Proof.
  split.
  - intros header cfg s Hh [= <-]. exists (of_shape (shape cfg)). split; [by apply digit_whole|]. apply shape_reads.
  - intros header cfg s Hh [= <-] Hw. exists (of_shape (shape cfg)). split_and!; [|apply shape_reads|].
    2:{ pose proof (shape_reads cfg "write_files") as Hk. destruct Hw as [v E]. rewrite E in Hk. destruct v; cbn in Hk; [done..| |done|done]. destruct Hk as (? & -> & _). by eexists. }
    rewrite <- (digit_whole header cfg Hh). unfold cut, document. do 2 f_equal.
    rewrite to_bytes_app, to_of_bytes. destruct (digits_end (encode (shape cfg))) as [a ->]. rewrite <- (app_nil_r (to_bytes newline ++ _)), app_assoc, trim_right_app by done.
    change (trim_right []) with (@nil ascii). by rewrite app_nil_r, <- app_assoc, of_bytes_app.
  - intros cfg. by eexists.
Qed.

Definition seed_config : config := {["runcmd" := VList [VStr "echo one"; VInt 7; VStr "echo two"]]}.
Definition seed_document : string := document cloud_header (of_bytes (digits (encode (shape seed_config)))).
Definition seed_vm : VirtualMachine := (boot_vm true) <| v_InstallCfg := Some (mkInstallConfig InstallConfigCurtin seed_document) |>.
Definition seed_services g : SeedEnv := mkSeedEnv g (fun _ => []) (fun _ _ => None) (fun _ => []) (fun _ n => Ok (repeat "a"%char n)).
Definition seed_start (v : VirtualMachine) : HState PxeStores pxe_event := mkHState 0 (mkPxeStores {["vm-1" := v]} (mkDb ∅ ∅) (Hypervisor.mkHvState ∅ ∅ ∅) ∅) [].
Definition demo_query (url : string) : string * string := ("tok", "curtin").
Definition seed_run :=
  renderNoCloudUserData win_env win_handler (seed_services None) demo_query digit_unmarshal digit_marshal (fun _ => Ok "") false "525400aabb01" "http://gomi/pxe" (seed_start seed_vm).
Definition is_ok {A} (r : result A + PxeReply) : bool := match r with inl (Ok _) => true | _ => false end.
Lemma seed_runs : is_ok seed_run.2 = true.
Proof. vm_compute. reflexivity. Qed.
Lemma completion_callback_served_witness : ∃ text target cfg, seed_run.2 = inl (Ok text)
  ∧ serves digit_unmarshal target (wanted_commands demo_query cfg (complete_url "http://gomi/pxe" target) (complete_retries target)) text.
Proof.
  pose proof seed_runs as Hok. destruct seed_run as [st' r] eqn:E. destruct r as [[text|e]|r]; [|discriminate Hok|discriminate Hok].
  destruct (completion_callback_served win_env win_handler (seed_services None) demo_query digit_unmarshal digit_marshal (fun _ => Ok "") digit_laws false
              "525400aabb01" "http://gomi/pxe" (seed_start seed_vm) st' text E) as (st1 & target & b & st2 & inline & cfg & _ & _ & _ & _ & H).
  exists text, target, cfg. by split.
Defined.

(** A machine whose template is for seed media. *)
Definition secret_template (document : string) : option (nat → string → result CloudInitTemplate) :=
  Some (fun _ _ => Ok (mkCloudInitTemplate "join" DeliveryVMSeed document "" "" "" 0 0)).
Definition secret_vm : VirtualMachine := (boot_vm true) <| v_CloudInitRef := "join" |>.
Definition secret_run (mode : bool) :=
  renderNoCloudUserData win_env win_handler (seed_services (secret_template seed_document)) demo_query digit_unmarshal digit_marshal (fun _ => Ok "") mode "525400aabb01" "http://gomi/pxe" (seed_start secret_vm).
Lemma seed_needs_capability : is_ok (secret_run true).2 = true ∧ is_ok (secret_run false).2 = false.
Proof. split; vm_compute; reflexivity. Qed.

Lemma public_data_hides_seeds_witness :
  PXENocloudUserData win_env win_handler (seed_services (secret_template "token: a")) demo_query digit_unmarshal digit_marshal (fun _ => Ok "") false "525400aabb01" "http://gomi/pxe" (seed_start secret_vm)
  = PXENocloudUserData win_env win_handler (seed_services (secret_template "token: b")) demo_query digit_unmarshal digit_marshal (fun _ => Ok "") false "525400aabb01" "http://gomi/pxe" (seed_start secret_vm).
Proof.
  apply (public_data_hides_seeds win_env win_handler (seed_services None) demo_query digit_unmarshal digit_marshal (fun _ => Ok "") (secret_template "token: a") (secret_template "token: b")).
  intros k ref. by split.
Defined.

(** ** What the modelling showed *)

(** Commands that are lists of words, as cloud-init allows them, are dropped. *)
Lemma list_commands_dropped : kept_commands {["runcmd" := VList [VList [VStr "mkfs.ext4"; VStr "/dev/sdb"]; VStr "mount /data"]]} = ["mount /data"].
Proof. reflexivity. Qed.

(** AlmaLinux under its short name is configured like Fedora's family and given the
    packages of Debian. *)
Lemma alma_given_debian_packages : isNetworkManagerOSFamily "alma" = true ∧ "libvirt-daemon-system" ∈ hypervisorSetupPackages "alma"
  ∧ isNetworkManagerOSFamily "almalinux" = true ∧ hypervisorSetupPackages "almalinux" = [].
Proof. split_and!; [reflexivity|vm_compute; by left|reflexivity|reflexivity]. Qed.

(** A machine that became ready after its user data were asked for is written back as it
    was when a registration token is stored. *)
Definition joining : Machine := (installing ∅) <| m_SealedBootstrap := None |> <| m_Role := RoleHypervisor |> <| m_Phase := PhaseProvisioning |>.
Definition joined : Machine := joining <| m_Phase := PhaseReady |>.
Definition token_handler : PxeHandler := mkPxeHandler None false true false false.
Definition joined_start : HState PxeStores pxe_event := mkHState 0 (mkPxeStores ∅ (mkDb ∅ {[m_Name joined := joined]}) (Hypervisor.mkHvState ∅ ∅ ∅) ∅) [].
Lemma token_store_undoes_completion :
  (m_Phase <$> db_machines (px_db (hst_store (ensureHypervisorRegistrationToken win_env token_handler (seed_services None) joining joined_start).1)) !! m_Name joined) = Some (m_Phase joining)
  ∧ m_Phase joining ≠ m_Phase joined.
Proof. split; [vm_compute; reflexivity|vm_compute; discriminate]. Qed.
