(* ===== verification/WolAgent.v ===== *)
(** * cmd/wol-daemon/main.go and api/machine_power_events.go: the agent of a machine

    How the agent that powers a machine off is configured by the file the control plane
    installs with it, and how its reports are signed and checked.  The loop that receives
    datagrams is in Power.v, the text of the file in CloudConfig.v. *)
From S2P Require Import Prelude GoStrings GoNet GoPath GoCrypto GoTime Resource Power Machine BareMetal BareMetalApi Curtin CloudConfig.

(** ** strconv.Unquote *)

Definition newline_byte : ascii := ascii_of_N 10.
Definition quote_mark : ascii := ascii_of_N 34.
Definition apostrophe : ascii := ascii_of_N 39.

(** The character at the head of a text, [None] for a byte that starts no well-formed
    sequence. *)
Definition first_rune (l : bytes) : option (bytes * bytes) :=
  match l with
  | [] => None
  | a :: l1 =>
      if byte_val a <? 0x80 then Some ([a], l1) else
      match l1 with
      | [] => None
      | b :: l2 =>
          if between 0xC2 0xDF a then if cont b then Some ([a; b], l2) else None else
          match l2 with
          | [] => None
          | c :: l3 =>
              let three := (between 0xE0 0xE0 a && between 0xA0 0xBF b) || (between 0xE1 0xEC a && cont b)
                           || (between 0xED 0xED a && between 0x80 0x9F b) || (between 0xEE 0xEF a && cont b) in
              if between 0xE0 0xEF a then if three && cont c then Some ([a; b; c], l3) else None else
              match l3 with
              | [] => None
              | d :: l4 =>
                  let four := (between 0xF0 0xF0 a && between 0x90 0xBF b) || (between 0xF1 0xF3 a && cont b)
                              || (between 0xF4 0xF4 a && between 0x80 0x8F b) in
                  if four && cont c && cont d then Some ([a; b; c; d], l4) else None
              end
          end
      end
  end.
(** [utf8.AppendRune] of a valid rune. *)
Definition rune_bytes (v : Z) : bytes :=
  if v <? 0x80 then [byte_of v]
  else if v <? 0x800 then [byte_of (0xC0 + v `div` 64); byte_of (0x80 + v `mod` 64)]
  else if v <? 0x10000 then [byte_of (0xE0 + v `div` 4096); byte_of (0x80 + (v `div` 64) `mod` 64); byte_of (0x80 + v `mod` 64)]
  else [byte_of (0xF0 + v `div` 262144); byte_of (0x80 + (v `div` 4096) `mod` 64); byte_of (0x80 + (v `div` 64) `mod` 64); byte_of (0x80 + v `mod` 64)].
Definition ValidRune (v : Z) : bool := (v <? 0xD800) || ((0xDFFF <? v) && (v <=? 0x10FFFF)).
Fixpoint hex_number (acc : Z) (l : bytes) : option Z := match l with [] => Some acc | c :: l => d ← hex_val c; hex_number (acc * 16 + d) l end.
Definition hex_escape (n : nat) (l : bytes) : option Z := if bool_decide (n <= length l)%nat then hex_number 0 (take n l) else None.
Definition octal_val (c : ascii) : option Z := if (48 <=? byte_val c) && (byte_val c <=? 55) then Some (byte_val c - 48) else None.

(** What follows a backslash. *)
Definition escaped_char (quote c : ascii) (l : bytes) : option (bytes * bytes) :=
  if c ==? "a"%char then Some ([byte_of 7], l) else if c ==? "b"%char then Some ([byte_of 8], l) else if c ==? "f"%char then Some ([byte_of 12], l)
  else if c ==? "n"%char then Some ([byte_of 10], l) else if c ==? "r"%char then Some ([byte_of 13], l) else if c ==? "t"%char then Some ([byte_of 9], l)
  else if c ==? "v"%char then Some ([byte_of 11], l)
  else if c ==? "x"%char then v ← hex_escape 2 l; Some ([byte_of v], drop 2 l)
  else if c ==? "u"%char then v ← hex_escape 4 l; if ValidRune v then Some (rune_bytes v, drop 4 l) else None
  else if c ==? "U"%char then v ← hex_escape 8 l; if ValidRune v then Some (rune_bytes v, drop 8 l) else None
  else match octal_val c, l with
       | Some v, a :: b :: l =>
           x ← octal_val a; y ← octal_val b;
           if 255 <? v * 64 + x * 8 + y then None else Some ([byte_of (v * 64 + x * 8 + y)], l)
       | Some _, _ => None
       | None, _ => if c ==? "\"%char then Some (["\"%char], l)
                    else if ((c ==? apostrophe) || (c ==? quote_mark)) && (c ==? quote) then Some ([c], l) else None
       end.
(** [UnquoteChar]: the bytes of a character and what follows it. *)
Definition UnquoteChar (l : bytes) (quote : ascii) : option (bytes * bytes) :=
  match l with
  | [] => None
  | c :: l' =>
      if c ==? quote then None
      else if 0x80 <=? byte_val c then Some (default ([byte_of 0xEF; byte_of 0xBF; byte_of 0xBD], l') (first_rune l))
      else if c !=? "\"%char then Some ([c], l')
      else match l' with [] => None | c :: l' => escaped_char quote c l' end
  end.
(** Characters up to the closing quote; what follows it. *)
Fixpoint unquote_chars (quote : ascii) (n : nat) (l : bytes) : option (bytes * bytes) :=
  match n, l with
  | S n, c :: l' =>
      if c ==? quote then Some ([], l') else if c ==? newline_byte then None else
      '(out, rest) ← UnquoteChar l quote; '(more, rest) ← unquote_chars quote n rest; Some (out ++ more, rest)
  | _, _ => None
  end.
(** A text in double quotes, or one character in single quotes.  The shorter way for texts
    without escapes has the same results, and texts in back quotes are not passed. *)
Definition Unquote (s : string) : option string :=
  match to_bytes s with
  | q :: l =>
      if q ==? quote_mark then
        '(out, rest) ← unquote_chars quote_mark (length l) l; if bool_decide (rest = []) then Some (of_bytes out) else None
      else if q ==? apostrophe then
        '(out, rest) ← (match l with
                        | c :: l' => if c ==? apostrophe then Some ([], l) else if c ==? newline_byte then None else UnquoteChar l apostrophe
                        | [] => None
                        end);
        if bool_decide (rest = [apostrophe]) then Some (of_bytes out) else None
      else None
  | [] => None
  end.

(** ** The environment file *)

(** [strings.Index(value, sub)] with what comes before it. *)
Fixpoint before_go (sub : string) (s : string) : option string :=
  if HasPrefix s sub then Some "" else match s with EmptyString => None | String c s => String c <$> before_go sub s end.
Definition parseEnvValue (raw : string) : string :=
  let value := TrimSpace raw in
  if value ==? "" then "" else
  if (HasPrefix value dq && HasSuffix value dq) || (HasPrefix value "'" && HasSuffix value "'")
  then match Unquote value with Some unquoted => unquoted | None => Trim value (dq +:+ "'") end
  else TrimSpace (default value (before_go " #" value)).
Definition env_line (env : gmap string string) (text : string) : gmap string string :=
  let line := TrimSpace text in
  if (line ==? "") || HasPrefix line "#" then env else
  if negb (Contains line "=") then env else
  let '(key, value) := Cut line "="%char in
  if TrimSpace key ==? "" then env else <[TrimSpace key := parseEnvValue value]> env.
(** The longest line a [bufio.Scanner] returns. *)
Definition MaxScanLine : Z := 65535.
Definition ErrTooLong : error := ErrNew "bufio.Scanner: token too long".
(** The file as it was read. *)
Definition readEnvFile (file : result string) : result (gmap string string) :=
  content ← file;
  let lines := Split content newline_byte in
  if existsb (fun l => MaxScanLine <? len l) lines then Err ErrTooLong else Ok (fold_left env_line lines ∅).

(** ** The configuration *)

Record daemonConfig := mkAgentConfig {
  ac_ListenAddr : string; ac_HMACSecret : string; ac_ExpectedToken : string; ac_TTL : Duration; ac_Command : string; ac_EnvFile : string;
  ac_ServerURL : string; ac_MachineName : string }.
Global Instance daemonConfig_fields : Fields daemonConfig :=
  fpure mkAgentConfig <*> ac_ListenAddr <*> ac_HMACSecret <*> ac_ExpectedToken <*> ac_TTL <*> ac_Command <*> ac_EnvFile <*> ac_ServerURL <*> ac_MachineName.
Definition default_agent : daemonConfig := mkAgentConfig ":40000" "" "" (60 * Second) "poweroff" "" "" "".

Section agent.
(** From package time: [ParseDuration]. *)
Context (parseDuration : string → result Duration).

(** Package flag, for flags with a value: a flag is given as [-name value],
    [-name=value] or with two dashes; the first argument that is none ends them. *)
Definition undefined_flag (name : string) : error :=
  if (name ==? "help") || (name ==? "h") then ErrNew "flag: help requested" else ErrNew ("flag provided but not defined: -" +:+ name).
Definition known_flags : list string := ["listen"; "secret"; "token"; "ttl"; "command"; "env-file"; "server-url"; "machine-name"].
Definition set_flag (cfg : daemonConfig) (name value : string) : result daemonConfig :=
  if name ==? "listen" then Ok (cfg <| ac_ListenAddr := value |>) else if name ==? "secret" then Ok (cfg <| ac_HMACSecret := value |>)
  else if name ==? "token" then Ok (cfg <| ac_ExpectedToken := value |>)
  else if name ==? "ttl" then match parseDuration value with Ok d => Ok (cfg <| ac_TTL := d |>) | Err _ => Err (ErrNew ("invalid value " +:+ Quote value +:+ " for flag -ttl: parse error")) end
  else if name ==? "command" then Ok (cfg <| ac_Command := value |>) else if name ==? "env-file" then Ok (cfg <| ac_EnvFile := value |>)
  else if name ==? "server-url" then Ok (cfg <| ac_ServerURL := value |>) else if name ==? "machine-name" then Ok (cfg <| ac_MachineName := value |>)
  else Err (undefined_flag name).
Definition bad_flag (s : string) : error := ErrNew ("bad flag syntax: " +:+ s).
(** The name of a flag, and its value after an equals sign that is not its first byte. *)
Definition flag_name (name : string) : string * option string :=
  match to_bytes name with
  | c :: l => if bool_decide ("="%char ∈ l) then let '(x, y) := cut_bytes l "="%char in (of_bytes (c :: x), Some (of_bytes y)) else (name, None)
  | [] => (name, None)
  end.
Definition dashed (s : string) : option string :=
  match s with
  | String a (String b s') =>
      if a ==? "-"%char then Some (if b ==? "-"%char then s' else String b s') else None
  | _ => None
  end.
(** The flags that were set are collected in [seen]. *)
Fixpoint parse_flags (n : nat) (args : list string) (cfg : daemonConfig) (seen : gset string) : result (daemonConfig * gset string) :=
  match n, args with
  | S n, s :: args =>
      match dashed s with
      | None => Ok (cfg, seen)
      | Some name =>
          if s ==? "--" then Ok (cfg, seen) else
          if (name ==? "") || HasPrefix name "-" || HasPrefix name "=" then Err (bad_flag s) else
          match flag_name name, args with
          | (name, Some value), _ => cfg ← set_flag cfg name value; parse_flags n args cfg ({[name]} ∪ seen)
          | (name, None), value :: args => cfg ← set_flag cfg name value; parse_flags n args cfg ({[name]} ∪ seen)
          | (name, None), [] => Err (if bool_decide (name ∈ known_flags) then ErrNew ("flag needs an argument: -" +:+ name) else undefined_flag name)
          end
      end
  | _, _ => Ok (cfg, seen)
  end.

(** A variable of the file counts if its flag was not given and it is not blank. *)
Definition from_env (seen : gset string) (env : gmap string string) (flag key : string) : option string :=
  let v := TrimSpace (default "" (env !! key)) in
  if negb (bool_decide (flag ∈ seen)) && (v !=? "") then Some v else None.
Definition apply_env (seen : gset string) (env : gmap string string) (cfg : daemonConfig) : result daemonConfig :=
  let from := from_env seen env in
  let text flag key (f : string → daemonConfig → daemonConfig) cfg := match from flag key with Some v => f v cfg | None => cfg end in
  let cfg := text "listen" "GOMI_WOL_LISTEN" (fun v cfg => cfg <| ac_ListenAddr := v |>) cfg in
  let cfg := text "secret" "GOMI_WOL_SECRET" (fun v cfg => cfg <| ac_HMACSecret := v |>) cfg in
  let cfg := text "token" "GOMI_WOL_TOKEN" (fun v cfg => cfg <| ac_ExpectedToken := v |>) cfg in
  cfg ← (match from "ttl" "GOMI_WOL_TTL" with
         | Some v => match parseDuration v with Ok d => Ok (cfg <| ac_TTL := d |>) | Err e => Err (ErrWrap "invalid GOMI_WOL_TTL: " e "") end
         | None => Ok cfg
         end);
  let cfg := text "server-url" "GOMI_SERVER_URL" (fun v cfg => cfg <| ac_ServerURL := v |>) cfg in
  Ok (text "machine-name" "GOMI_MACHINE_NAME" (fun v cfg => cfg <| ac_MachineName := v |>) cfg).
(** [files] is what is read at a path. *)
Definition resolveDaemonConfig (files : string → result string) (args : list string) : result daemonConfig :=
  '(cfg, seen) ← parse_flags (length args) args default_agent ∅;
  cfg ← (if ac_EnvFile cfg !=? "" then env ← readEnvFile (files (ac_EnvFile cfg)); apply_env seen env cfg else Ok cfg);
  if TrimSpace (ac_HMACSecret cfg) ==? "" then Err (ErrNew "--secret or GOMI_WOL_SECRET is required") else Ok cfg.
(** What the loop of the agent is given. *)
Definition loop_config (cfg : daemonConfig) : DaemonConfig := mkDaemonConfig (ac_HMACSecret cfg) (ac_ExpectedToken cfg) (ac_TTL cfg).
End agent.

(** ** Reports *)

Record powerEventCallback := mkPowerEvent {
  pv_RequestID : string; pv_Stage : string; pv_Message : string; pv_DaemonVersion : string; pv_CreatedAt : string }.
Definition signPowerEvent (body : bytes) (secret : string) : string := hex_encode (hmac_sha256 (to_bytes secret) body).
(** A request the agent makes: the path, the body and its signature. *)
Record power_request := mkPowerRequest { pq_URL : string; pq_Body : bytes; pq_Signature : string }.

Section reports.
(** From packages encoding/json and net/url: the body of a report, and an escaped path
    element. *)
Context (marshal : powerEventCallback → result bytes) (pathEscape : string → string).
Definition postPowerEvent (cfg : daemonConfig) (version createdAt : string) (packet : ShutdownPacket) (stage message : string) : result (option power_request) :=
  let serverURL := TrimRight (TrimSpace (ac_ServerURL cfg)) "/" in
  if serverURL ==? "" then Ok None else
  let machineName := if TrimSpace (ac_MachineName cfg) ==? "" then TrimSpace (sp_MachineName packet) else TrimSpace (ac_MachineName cfg) in
  if machineName ==? "" then Ok None else
  body ← marshal (mkPowerEvent (RequestID packet) stage message version createdAt);
  Ok (Some (mkPowerRequest (serverURL +:+ "/api/v1/machines/" +:+ pathEscape machineName +:+ "/power-events") body (signPowerEvent body (ac_HMACSecret cfg)))).
End reports.

(** [hex.DecodeString]. *)
Fixpoint hex_bytes (l : bytes) : option bytes :=
  match l with
  | [] => Some []
  | a :: b :: l => x ← hex_val a; y ← hex_val b; r ← hex_bytes l; Some (byte_of (x * 16 + y) :: r)
  | _ => None
  end.
Definition verifyPowerEventSignature (body : bytes) (secret signature : string) : bool :=
  let signature := TrimSpace signature in
  if signature ==? "" then false else
  match hex_bytes (to_bytes (TrimPrefix signature "sha256=")) with
  | None => false
  | Some got => bool_decide (got = hmac_sha256 (to_bytes secret) body)
  end.

(** The audit event of a report; its identifier and time, and the action and actor, which
    are the same for all, are left out. *)
Record power_audit := mkPowerAudit { pa_Machine : string; pa_Result : string; pa_Message : string; pa_Details : gmap string string }.
Record EventReply := mkEventReply { er_Status : Z; er_Text : string }.
Definition event_limit : Z := 1048576.
Definition event_result (stage : string) : string := if stage ==? "command_failed" then "failure" else "success".
Definition event_details (requestID stage : string) (req : powerEventCallback) : gmap string string :=
  let d : gmap string string := {["requestID" := requestID; "stage" := stage]} in
  let d := if TrimSpace (pv_DaemonVersion req) !=? "" then <["daemonVersion" := TrimSpace (pv_DaemonVersion req)]> d else d in
  if TrimSpace (pv_CreatedAt req) !=? "" then <["daemonCreatedAt" := TrimSpace (pv_CreatedAt req)]> d else d.

Section server.
Context (unmarshal : bytes → option powerEventCallback) (authStore : bool).
(** [got] is the machine the store has; [raw] the body, if it can be read. *)
Definition ReportMachinePowerEvent (name : string) (got : result Machine) (raw : option bytes) (signature : string) : EventReply * list power_audit :=
  let says status msg := (mkEventReply status msg, []) in
  match raw with
  | None => says 400 "invalid body"
  | Some raw =>
      let raw := take (Z.to_nat event_limit) raw in
      match got with
      | Err e => if errors_Is e ErrNotFound then says 404 "not found" else says 500 (Error e)
      | Ok m =>
          match pc_WoL (m_Power m) with
          | Some wol =>
              if (pc_Type (m_Power m) !=? PowerTypeWoL) || (TrimSpace (wol_HMACSecret wol) ==? "")
              then says 400 "machine does not have WoL callback signing configured" else
              if negb (verifyPowerEventSignature raw (wol_HMACSecret wol) signature) then says 401 "invalid signature" else
              match unmarshal raw with
              | None => says 400 "invalid body"
              | Some req =>
                  let requestID := TrimSpace (pv_RequestID req) in
                  let stage := TrimSpace (pv_Stage req) in
                  if (requestID ==? "") || (stage ==? "") then says 400 "requestID and stage are required" else
                  let message := if TrimSpace (pv_Message req) ==? "" then stage else TrimSpace (pv_Message req) in
                  (mkEventReply 200 "ok", if authStore then [mkPowerAudit name (event_result stage) message (event_details requestID stage req)] else [])
              end
          | None => says 400 "machine does not have WoL callback signing configured"
          end
      end
  end.
End server.

(** ** Characters *)

(** Which character a text begins with depends on its bytes alone. *)
Lemma first_rune_local l r rest k : first_rune l = Some (r, rest) → first_rune (r ++ k) = Some (r, k).
Proof.
  unfold first_rune. destruct l as [|a l1]; [done|]. destruct (byte_val a <? 0x80) eqn:Ea; [intros [= <- _]; cbn [app]; by rewrite Ea|].
  destruct l1 as [|b l2]; [done|]. destruct (between 0xC2 0xDF a) eqn:Eb.
  { destruct (cont b) eqn:Ec; [|done]. intros [= <- _]. cbn [app]. by rewrite Ea, Eb, Ec. }
  destruct l2 as [|c l3]; [done|]. cbv zeta. destruct (between 0xE0 0xEF a) eqn:Ed.
  { destruct (_ && cont c) eqn:Ec; [|done]. intros [= <- _]. cbn [app]. by rewrite Ea, Eb, Ed, Ec. }
  destruct l3 as [|d l4]; [done|]. destruct (_ && cont d) eqn:Ec; [|done]. intros [= <- _]. cbn [app]. by rewrite Ea, Eb, Ed, Ec.
Qed.
Lemma cont_high c : cont c = true → 0x80 <= byte_val c.
Proof. unfold cont. lia. Qed.
(** A well-formed text is empty or begins with a character, which is one ASCII byte or
    consists of bytes above. *)
Lemma utf8_first l : utf8_valid l = true → l = [] ∨ ∃ r rest, first_rune l = Some (r, rest) ∧ l = r ++ rest ∧ utf8_valid rest = true
  ∧ ((∃ c, r = [c] ∧ byte_val c < 0x80) ∨ Forall (fun c => 0x80 <= byte_val c) r ∧ r ≠ []).
Proof.
  destruct l as [|a l1]; [by left|]. intros H. right. cbn [utf8_valid] in H. cbn [first_rune].
  destruct (byte_val a <? 0x80) eqn:Ea; [exists [a], l1; split_and!; try done; left; exists a; split; [done|lia]|].
  assert (0x80 <= byte_val a) as Ha by lia. destruct l1 as [|b l2]; [discriminate|]. destruct (between 0xC2 0xDF a).
  { apply andb_prop in H as [Hb H]. rewrite Hb. exists [a; b], l2. split_and!; try done. right. split; [|done]. repeat constructor; [done|by apply cont_high]. }
  destruct l2 as [|c l3]; [discriminate|]. cbv zeta in *. set (three := _ || _ || _ || _) in *. destruct (between 0xE0 0xEF a).
  { apply andb_prop in H as [[H3 Hc]%andb_prop H]. rewrite H3, Hc. exists [a; b; c], l3. split_and!; try done. right. split; [|done].
    repeat constructor; [done| |by apply cont_high]. unfold three, between, cont in H3. clear -H3. lia. }
  destruct l3 as [|d l4]; [discriminate|]. set (four := _ || _ || _) in *.
  apply andb_prop in H as [[[H4 Hc]%andb_prop Hd]%andb_prop H]. rewrite H4, Hc, Hd. exists [a; b; c; d], l4. split_and!; try done. right. split; [|done].
  repeat constructor; [done| |by apply cont_high|by apply cont_high]. unfold four, between, cont in H4. clear -H4. lia.
Qed.

(** ** What the control plane wrote is what the agent reads *)

(** The value of a variable the file can hold. *)
Definition line_end (c : ascii) : bool := (c ==? ascii_of_N 10) || (c ==? ascii_of_N 13).
Definition env_text (v : string) : Prop := TrimSpace v = v ∧ Forall (fun c => line_end c = false) (to_bytes v) ∧ utf8_valid (to_bytes v) = true.

Lemma env_byte_high c : 0x80 <= byte_val c → env_byte c = [c].
Proof.
  intros Hc. unfold env_byte. assert (∀ n, byte_val (ascii_of_N n) < 0x80 → c <> ascii_of_N n) as Hne by (intros n Hn ->; lia).
  rewrite !bool_decide_eq_false_2; [done|..]; first [apply (Hne 13%N)|apply (Hne 10%N)|apply (Hne 34%N)|apply (Hne 92%N)]; done.
Qed.
Lemma env_bytes_high r : Forall (fun c => 0x80 <= byte_val c) r → r ≫= env_byte = r.
Proof. induction 1 as [|c r Hc _ IH]; [done|]. csimpl. by rewrite env_byte_high, IH. Qed.
Lemma env_byte_plain c : line_end c = false → c ≠ "\"%char → c ≠ quote_mark → env_byte c = [c].
Proof. intros He H1 H2. unfold env_byte. rewrite !bool_decide_eq_false_2 by done. unfold line_end in He. by rewrite He. Qed.
Lemma unquote_step n c l out rest :
  c ≠ quote_mark → c ≠ newline_byte → UnquoteChar (c :: l) quote_mark = Some (out, rest) →
  unquote_chars quote_mark (S n) (c :: l) = ('(more, rest) ← unquote_chars quote_mark n rest; Some (out ++ more, rest)).
Proof. intros H1 H2 E. cbn [unquote_chars]. rewrite !bool_decide_eq_false_2 by done. by rewrite E. Qed.
Lemma unquote_escaped n : ∀ l rest, Forall (fun c => line_end c = false) l → utf8_valid l = true → (length (l ≫= env_byte) < n)%nat →
  unquote_chars quote_mark n ((l ≫= env_byte) ++ quote_mark :: rest) = Some (l, rest).
Proof.
  induction n as [|n IH]; intros l rest Hl Hu Hn; [lia|]. destruct (utf8_first l Hu) as [->|(r & l' & Er & -> & Hu' & Hr)]; [done|].
  apply Forall_app in Hl as [Hlr Hl']. rewrite bind_app, <- app_assoc in *. rewrite length_app in Hn. destruct Hr as [(c & -> & Hc)|[Hr Hne]].
  - assert (line_end c = false) as He by (by inversion Hlr). cbn [mbind list_bind] in *. rewrite app_nil_r in *.
    destruct (decide (c = "\"%char)) as [->|H1]; [|destruct (decide (c = quote_mark)) as [->|H2]].
    + change (env_byte "\") with ["\"; "\"]%char in *. cbn [app length] in *. rewrite (unquote_step n _ _ ["\"%char] ((l' ≫= env_byte) ++ quote_mark :: rest)) by done.
      by rewrite IH by (done || lia).
    + change (env_byte quote_mark) with ["\"%char; quote_mark] in *. cbn [app length] in *.
      rewrite (unquote_step n _ _ [quote_mark] ((l' ≫= env_byte) ++ quote_mark :: rest)) by done. by rewrite IH by (done || lia).
    + rewrite (env_byte_plain c) in * by done. cbn [app length] in *. rewrite (unquote_step n _ _ [c] ((l' ≫= env_byte) ++ quote_mark :: rest)).
      * by rewrite IH by (done || lia).
      * done.
      * intros ->. done.
      * unfold UnquoteChar. rewrite bool_decide_eq_false_2 by done. replace (0x80 <=? byte_val c) with false by lia. by rewrite (bool_decide_eq_false_2 (c = "\"%char)).
  - rewrite (env_bytes_high r Hr) in *. destruct r as [|a r]; [done|]. assert (0x80 <= byte_val a) as Ha by (by inversion Hr).
    rewrite <- app_comm_cons. rewrite (unquote_step n _ _ (a :: r) ((l' ≫= env_byte) ++ quote_mark :: rest)).
    + by rewrite IH by (done || cbn [length] in Hn; lia).
    + intros ->. done.
    + intros ->. done.
    + unfold UnquoteChar. rewrite bool_decide_eq_false_2 by (intros ->; done). replace (0x80 <=? byte_val a) with true by lia.
      replace (first_rune (a :: r ++ (l' ≫= env_byte) ++ quote_mark :: rest)) with (Some (a :: r, (l' ≫= env_byte) ++ quote_mark :: rest)); [done|].
      symmetry. exact (first_rune_local _ _ _ _ Er).
Qed.

(** A line of the file, read back. *)
Lemma env_text_kept v : env_text v → Forall (fun c => line_end c = false) (to_bytes v) ∧ utf8_valid (to_bytes v) = true.
Proof. intros (_ & H1 & H2). done. Qed.
Definition env_keys : list string := ["GOMI_WOL_LISTEN"; "GOMI_WOL_SECRET"; "GOMI_WOL_TOKEN"; "GOMI_WOL_TTL"; "GOMI_SERVER_URL"; "GOMI_MACHINE_NAME"].
Lemma quoted_bytes (e : bytes) : dq +:+ of_bytes e +:+ dq = of_bytes (quote_mark :: e ++ [quote_mark]).
Proof. apply to_bytes_inj. by rewrite !to_bytes_app, !to_of_bytes. Qed.
Lemma parse_written v : env_text v → parseEnvValue (dq +:+ of_bytes (to_bytes v ≫= env_byte) +:+ dq) = v.
Proof.
  intros (_ & Hl & Hu). set (e := to_bytes v ≫= env_byte). unfold parseEnvValue.
  assert (TrimSpace (dq +:+ of_bytes e +:+ dq) = dq +:+ of_bytes e +:+ dq) as -> by (rewrite quoted_bytes; by apply graphic_ends).
  rewrite bool_decide_eq_false_2 by done. rewrite HasPrefix_app. replace (HasSuffix (dq +:+ of_bytes e +:+ dq) dq) with true by (symmetry; apply (HasSuffix_app (dq +:+ of_bytes e))).
  cbn [andb orb]. rewrite quoted_bytes. unfold Unquote. rewrite to_of_bytes. rewrite bool_decide_eq_true_2 by done.
  rewrite (unquote_escaped _ (to_bytes v) []); [|done|done|fold e; rewrite length_app; cbn; lia]. cbn. by rewrite of_to_bytes.
Qed.
Ltac each_key H := set_unfold in H; destruct_or! H; subst.
Definition written (key v : string) : string := key +:+ "=" +:+ dq +:+ of_bytes (to_bytes v ≫= env_byte) +:+ dq.
Lemma written_line key v : env_text v → systemdEnvLine key v = written key v +:+ newline.
Proof. intros (Ht & _). unfold systemdEnvLine, written. rewrite Ht. apply to_bytes_inj. by rewrite !to_bytes_app, <- !app_assoc. Qed.
Lemma written_trimmed key v : key ∈ env_keys → TrimSpace (written key v) = written key v.
Proof.
  intros Hk. set (e := to_bytes v ≫= env_byte). assert (∃ a l, graphic a = true ∧ to_bytes key = a :: l) as (a & l & Ha & E) by (each_key Hk; do 2 eexists; (split; [|reflexivity]); reflexivity).
  assert (written key v = of_bytes (a :: (l ++ to_bytes ("=" +:+ dq +:+ of_bytes e)) ++ [quote_mark])) as ->; [|by apply graphic_ends].
  apply to_bytes_inj. unfold written. fold e. rewrite !to_bytes_app, !to_of_bytes, E, <- !app_assoc. done.
Qed.
Lemma env_line_written env key v : key ∈ env_keys → env_text v → env_line env (written key v) = <[key := v]> env.
Proof.
  intros Hk Hv. unfold env_line. rewrite written_trimmed by done. cbv zeta.
  replace (Contains (written key v) "=") with true by (each_key Hk; reflexivity).
  replace (HasPrefix (written key v) "#") with false by (each_key Hk; reflexivity).
  set (value := dq +:+ of_bytes (to_bytes v ≫= env_byte) +:+ dq).
  assert (Cut (written key v) "="%char = (of_bytes (to_bytes key), of_bytes (to_bytes value))) as -> by (each_key Hk; reflexivity). rewrite !of_to_bytes.
  replace (TrimSpace key) with key by (each_key Hk; reflexivity).
  rewrite (bool_decide_eq_false_2 (written key v = "")), (bool_decide_eq_false_2 (key = "")) by (each_key Hk; done).
  cbn [negb orb]. unfold value. by rewrite parse_written.
Qed.

Lemma no_newline l : Forall (fun c => line_end c = false) l → newline_byte ∉ l ≫= env_byte.
Proof.
  intros Hl (c & Hc & Hin)%list_elem_of_bind. rewrite Forall_forall in Hl. specialize (Hl c Hin). unfold env_byte in Hc.
  repeat case_bool_decide; unfold line_end in Hl; cbn in Hc; set_solver.
Qed.
Lemma written_one_line key v : key ∈ env_keys → env_text v → newline_byte ∉ to_bytes (written key v).
Proof.
  intros Hk (_ & Hl & _). pose proof (no_newline _ Hl) as Hn. unfold written. rewrite !to_bytes_app, to_of_bytes.
  rewrite !not_elem_of_app. split_and!; try done; each_key Hk; vm_compute; set_solver.
Qed.
(** The file as its lines. *)
Definition env_file (entries : list (string * string)) : string := foldr (fun e s => systemdEnvLine e.1 e.2 +:+ s) "" entries.
Definition entry_ok (e : string * string) : Prop := e.1 ∈ env_keys ∧ env_text e.2.
Lemma file_lines entries : Forall entry_ok entries → Split (env_file entries) newline_byte = ((fun e => written e.1 e.2) <$> entries) ++ [""].
Proof.
  induction 1 as [|[key v] entries [Hk Hv] _ IH]; [done|]. cbn [env_file foldr fst snd fmap list_fmap app]. fold (env_file entries). rewrite <- IH, written_line by done.
  unfold Split. rewrite !to_bytes_app. change (to_bytes newline) with [newline_byte]. rewrite <- app_assoc. cbn [app].
  rewrite split_bytes_app by (by apply written_one_line). cbn [fmap list_fmap]. by rewrite of_to_bytes.
Qed.
Lemma split_shorter sep l : Forall (fun f => (length f <= length l)%nat) (split_bytes sep l).
Proof.
  induction l as [|c l IH]; [by repeat constructor|]. cbn [split_bytes length]. assert (Forall (fun f : bytes => (length f <= S (length l))%nat) (split_bytes sep l)) as IH' by (eapply Forall_impl; [exact IH|]; cbn; lia).
  case_bool_decide; [constructor; [cbn; lia|done]|]. destruct (split_bytes sep l) as [|f fs]; [apply Forall_singleton; cbn; lia|].
  inversion IH as [|? ? Hf _]; inversion IH'; subst. constructor; [cbn; lia|done].
Qed.
Lemma short_lines content : len content <= MaxScanLine → existsb (fun l => MaxScanLine <? len l) (Split content newline_byte) = false.
Proof.
  intros Hlen. apply not_true_is_false. intros (l & Hin & Hl)%existsb_exists. rewrite <- list_elem_of_In in Hin. apply list_elem_of_fmap in Hin as (f & -> & Hf).
  pose proof (split_shorter newline_byte (to_bytes content)) as Hs. rewrite Forall_forall in Hs. specialize (Hs f Hf).
  rewrite len_length, to_of_bytes in Hl. rewrite len_length in Hlen. lia.
Qed.
Lemma file_read entries : Forall entry_ok entries → len (env_file entries) <= MaxScanLine →
  readEnvFile (Ok (env_file entries)) = Ok (fold_left (fun env e => <[e.1 := e.2]> env) entries ∅).
Proof.
  intros He Hlen. unfold readEnvFile. cbn [mbind result_bind]. cbv zeta. rewrite short_lines, file_lines by done. cbv iota. f_equal. rewrite fold_left_app. cbn [fold_left].
  change (env_line ?m "") with m. clear Hlen. generalize (∅ : gmap string string). induction He as [|[key v] entries [Hk Hv] _ IH]; intros m; [done|].
  cbn [fmap list_fmap fold_left fst snd]. rewrite env_line_written by done. apply IH.
Qed.

(** *** The agent of a machine *)

Section configured.
Context (parseDuration : string → result Duration).
(** [ParseDuration] of whole seconds. *)
Context (Hseconds : ∀ n, 0 <= n → n * Second <= max_int64 → parseDuration (Itoa n +:+ "s") = Ok (n * Second)).

(** What the file needs to hold. *)
Record agent_settings (wol : WoLConfig) (serverBase name : string) : Prop := {
  as_secret : env_text (wol_HMACSecret wol) ∧ wol_HMACSecret wol ≠ ""; as_token : env_text (wol_Token wol) ∧ wol_Token wol ≠ "";
  as_server : env_text serverBase ∧ TrimRight serverBase "/" ≠ ""; as_name : env_text name ∧ name ≠ "";
  as_port : 0 <= wol_ShutdownUDPPort wol; as_ttl : 0 <= wol_TokenTTLSeconds wol /\ wol_TokenTTLSeconds wol * Second <= max_int64;
  as_length : len (wol_environment wol serverBase name) <= MaxScanLine }.
Definition or_default (n d : Z) : Z := if n =? 0 then d else n.
Definition agent_entries (wol : WoLConfig) (serverBase name : string) : list (string * string) :=
  [("GOMI_WOL_LISTEN", ":" +:+ Itoa (or_default (wol_ShutdownUDPPort wol) DefaultWoLShutdownUDPPort)); ("GOMI_WOL_SECRET", wol_HMACSecret wol);
   ("GOMI_WOL_TOKEN", wol_Token wol); ("GOMI_WOL_TTL", Itoa (or_default (wol_TokenTTLSeconds wol) DefaultWoLShutdownTTLSeconds) +:+ "s");
   ("GOMI_SERVER_URL", serverBase); ("GOMI_MACHINE_NAME", name)].
(** The agent as the control plane means it. *)
Definition agent_of (path : string) (wol : WoLConfig) (serverBase name : string) : daemonConfig :=
  mkAgentConfig (":" +:+ Itoa (or_default (wol_ShutdownUDPPort wol) DefaultWoLShutdownUDPPort)) (wol_HMACSecret wol) (wol_Token wol)
    (or_default (wol_TokenTTLSeconds wol) DefaultWoLShutdownTTLSeconds * Second) "poweroff" path serverBase name.

Lemma digit_text pre n post : Forall (fun c => graphic c = true) (to_bytes pre) → Forall (fun c => graphic c = true) (to_bytes post) → 0 <= n → env_text (pre +:+ Itoa n +:+ post).
Proof.
  intros Hpre Hpost Hn. destruct (Itoa_nonneg n Hn) as (Hd & _ & _).
  assert (Forall (fun c => graphic c = true) (to_bytes (pre +:+ Itoa n +:+ post))) as Hg.
  { rewrite !to_bytes_app. repeat (apply Forall_app; split); [done| |done]. eapply Forall_impl; [exact Hd|]. unfold is_digit, graphic. intros c. lia. }
  split_and!.
  - by apply TrimSpace_id, graphic_trimmed.
  - eapply Forall_impl; [exact Hg|]. intros c Hc. unfold line_end. rewrite !bool_decide_eq_false_2; [done|intros ->; done..].
  - induction Hg as [|c l Hc _ IH]; [done|]. cbn [utf8_valid]. unfold graphic in Hc. by replace (byte_val c <? 0x80) with true by lia.
Qed.
Lemma or_default_nonneg n d : 0 <= n → 0 <= d → 0 <= or_default n d.
Proof. unfold or_default. destruct (n =? 0); lia. Qed.
Lemma entries_ok wol serverBase name : agent_settings wol serverBase name → Forall entry_ok (agent_entries wol serverBase name).
Proof.
  intros [[Hs _] [Ht _] [Hb _] [Hn _] Hp [Htt _] _].
  pose proof (digit_text ":" _ "" ltac:(by repeat constructor) ltac:(constructor) (or_default_nonneg _ DefaultWoLShutdownUDPPort Hp ltac:(done))) as Hport.
  pose proof (digit_text "" _ "s" ltac:(constructor) ltac:(by repeat constructor) (or_default_nonneg _ DefaultWoLShutdownTTLSeconds Htt ltac:(done))) as Httl.
  assert (∀ s : string, s +:+ "" = s) as Hnil by (intros s; apply to_bytes_inj; by rewrite to_bytes_app, app_nil_r). rewrite Hnil in Hport. change ("" +:+ ?x) with x in Httl.
  assert (∀ i e, agent_entries wol serverBase name !! i = Some e → e.1 ∈ env_keys) as Hkeys.
  { intros i e He. apply (list_elem_of_fmap_2' fst _ _ e.1 (list_elem_of_lookup_2 _ _ _ He) eq_refl). }
  apply Forall_lookup. intros i e He. split; [by eapply Hkeys|]. unfold agent_entries in He.
  do 6 (destruct i as [|i]; [by injection He as <-|]). discriminate He.
Qed.

Lemma file_is_entries wol serverBase name : wol_environment wol serverBase name = env_file (agent_entries wol serverBase name).
Proof.
  unfold wol_environment, env_file, agent_entries, or_default. cbn [foldr fst snd]. cbv zeta. do 5 f_equal. apply to_bytes_inj. by rewrite to_bytes_app, app_nil_r.
Qed.
Lemma from_env_found seen env flag key v : flag ∉ seen → env !! key = Some v → env_text v → v ≠ "" → from_env seen env flag key = Some v.
Proof. intros Hf E (Ht & _) Hne. unfold from_env. rewrite E. change (default "" (Some v)) with v. rewrite Ht, !bool_decide_eq_false_2 by done. done. Qed.
Lemma agent_reads files path wol serverBase name : path ≠ "" → files path = Ok (wol_environment wol serverBase name) → agent_settings wol serverBase name →
  resolveDaemonConfig parseDuration files ["--env-file"; path] = Ok (agent_of path wol serverBase name).
Proof.
  intros Hpath Hfile Hset. pose proof (entries_ok _ _ _ Hset) as Hok. destruct Hset as [[[Hst _] Hs] [_ Ht] [_ Hb'] [_ Hn] Hp Htt Hlen]. assert (serverBase ≠ "") as Hb by (by intros ->).
  unfold resolveDaemonConfig. change (parse_flags _ _ _ _ _) with (Ok (default_agent <| ac_EnvFile := path |>, ({["env-file"]} ∪ ∅ : gset string))). cbn [mbind result_bind].
  change (ac_EnvFile (default_agent <| ac_EnvFile := path |>)) with path. rewrite (bool_decide_eq_false_2 (path = "")) by done. cbn [negb].
  rewrite Hfile, file_is_entries in *. rewrite file_read by done. cbn [mbind result_bind]. set (env := fold_left _ _ _).
  assert (∀ i key v flag, agent_entries wol serverBase name !! i = Some (key, v) → flag ≠ "env-file" → v ≠ "" → from_env ({["env-file"]} ∪ ∅) env flag key = Some v) as Hfrom.
  { intros i key v flag Hi Hf Hne. pose proof Hok as Hv. rewrite Forall_lookup in Hv. destruct (Hv i _ Hi) as [_ Hv'].
    apply from_env_found; [set_solver| |exact Hv'|done]. unfold env, agent_entries. cbn [fold_left fst snd]. unfold agent_entries in Hi.
    do 6 (destruct i as [|i]; [injection Hi as <- <-; repeat first [rewrite lookup_insert_eq | rewrite lookup_insert_ne by done]; done|]). discriminate Hi. }
  assert (Itoa (or_default (wol_TokenTTLSeconds wol) DefaultWoLShutdownTTLSeconds) +:+ "s" ≠ "") as Httl by (by destruct (Itoa _)).
  unfold apply_env. cbv zeta.
  rewrite (Hfrom 0%nat _ _ "listen" eq_refl), (Hfrom 1%nat _ _ "secret" eq_refl), (Hfrom 2%nat _ _ "token" eq_refl), (Hfrom 3%nat _ _ "ttl" eq_refl),
    (Hfrom 4%nat _ _ "server-url" eq_refl), (Hfrom 5%nat _ _ "machine-name" eq_refl) by done.
  rewrite Hseconds; [|apply or_default_nonneg; [apply Htt|done]|unfold or_default; destruct (_ =? 0); [vm_compute; discriminate|apply Htt]].
  cbn [mbind result_bind]. set (secret := ac_HMACSecret _). change secret with (wol_HMACSecret wol). rewrite Hst, (bool_decide_eq_false_2 (wol_HMACSecret wol = "")) by done. reflexivity.
Qed.
End configured.

(** *** Signatures *)

Lemma hex_bytes_encode l : hex_bytes (to_bytes (hex_encode l)) = Some l.
Proof.
  unfold hex_encode. rewrite to_of_bytes. induction l as [|c l IH]; [done|]. csimpl. destruct (hex_digits_octet (byte_val c) (byte_val_range c)) as [-> ->]. cbn. rewrite IH. cbn.
  assert (byte_val c `div` 16 * 16 + byte_val c `mod` 16 = byte_val c) as -> by (pose proof (Z.div_mod (byte_val c) 16); lia). by rewrite byte_of_val.
Qed.
Lemma hex_no_prefix l : HasPrefix (hex_encode l) "sha256=" = false.
Proof.
  destruct l as [|c l]; [done|]. unfold hex_encode. csimpl. set (d := hex_digit (byte_val c `div` 16)). assert (d ≠ "s"%char) as Hd.
  { intros E%(f_equal byte_val). pose proof (byte_val_range c). unfold d in E. rewrite hex_digit_val in E by (split; [apply Z.div_pos; lia|apply Z.div_lt_upper_bound; lia]).
    change (byte_val "s"%char) with 115 in E. pose proof (Z.div_lt_upper_bound (byte_val c) 16 16 ltac:(lia) ltac:(lia)). destruct (_ <? 10); lia. }
  apply not_true_is_false. intros E. apply Hd. unfold HasPrefix in E. clearbody d. clear Hd. by destruct d as [[] [] [] [] [] [] [] []].
Qed.
Lemma hex_nonempty l : l ≠ [] → hex_encode l ≠ "".
Proof. intros Hl E. apply (f_equal String.length) in E. rewrite hex_encode_length in E. destruct l; [done|cbn in E; lia]. Qed.
(** A signature made with the secret is accepted. *)
Lemma verify_signed body secret : verifyPowerEventSignature body secret (signPowerEvent body secret) = true.
Proof.
  unfold verifyPowerEventSignature, signPowerEvent. cbv zeta. rewrite TrimSpace_hex. rewrite bool_decide_eq_false_2; [|apply hex_nonempty; intros E%(f_equal length); by rewrite length_hmac_sha256 in E].
  unfold TrimPrefix. rewrite hex_no_prefix, hex_bytes_encode. by apply bool_decide_eq_true_2.
Qed.
(** And an event is recorded only for a body that carries the keyed sum of the secret of
    the machine it names. *)
Lemma recorded_is_signed unmarshal authStore name got raw signature reply events a :
  ReportMachinePowerEvent unmarshal authStore name got raw signature = (reply, events) → a ∈ events →
  ∃ m wol body, got = Ok m ∧ pc_WoL (m_Power m) = Some wol ∧ raw = Some body ∧ pa_Machine a = name
    ∧ hex_bytes (to_bytes (TrimPrefix (TrimSpace signature) "sha256=")) = Some (hmac_sha256 (to_bytes (wol_HMACSecret wol)) (take (Z.to_nat event_limit) body)).
Proof.
  unfold ReportMachinePowerEvent. cbv zeta. destruct raw as [body|]; [|by intros [= <- <-] ?%elem_of_nil]. destruct got as [m|e]; [|by destruct (errors_Is e ErrNotFound); intros [= <- <-] ?%elem_of_nil].
  destruct (pc_WoL (m_Power m)) as [wol|] eqn:Ew; [|by intros [= <- <-] ?%elem_of_nil]. destruct (_ || _); [by intros [= <- <-] ?%elem_of_nil|].
  destruct (verifyPowerEventSignature _ _ _) eqn:Ev; cbn [negb]; [|by intros [= <- <-] ?%elem_of_nil]. destruct (unmarshal _) as [req|]; [|by intros [= <- <-] ?%elem_of_nil].
  destruct (_ || _); [by intros [= <- <-] ?%elem_of_nil|]. intros [= <- <-]. destruct authStore; [|by intros ?%elem_of_nil]. intros ->%list_elem_of_singleton.
  exists m, wol, body. split_and!; try done. unfold verifyPowerEventSignature in Ev. cbv zeta in Ev. destruct (TrimSpace signature ==? ""); [done|].
  destruct (hex_bytes _) as [got|]; [|done]. by apply bool_decide_eq_true in Ev as ->.
Qed.

(** *** From the control plane to the agent and back *)

Section agent.
Context (parseDuration : string → result Duration) (files : string → result string).
Context (Hseconds : ∀ n, 0 <= n → n * Second <= max_int64 → parseDuration (Itoa n +:+ "s") = Ok (n * Second)).
Context (path serverBase : string) (m : Machine) (wol : WoLConfig).
Context (Htype : pc_Type (m_Power m) = PowerTypeWoL) (Hwol : pc_WoL (m_Power m) = Some wol) (Hset : agent_settings wol serverBase (m_Name m)).
Local Abbreviation cfg := (agent_of path wol serverBase (m_Name m)).
Local Abbreviation ttl := (or_default (wol_TokenTTLSeconds wol) DefaultWoLShutdownTTLSeconds * Second).

Lemma agent_ttl : 0 < ttl <= max_int64 ∧ daemon_ttl (loop_config cfg) = ttl.
Proof.
  assert (0 < ttl <= max_int64) as H by (destruct (as_ttl _ _ _ Hset); unfold or_default; case_match; [by vm_compute|unfold Second in *; lia]).
  split; [done|]. unfold daemon_ttl. change (dc_TTL (loop_config cfg)) with ttl. by replace (ttl <=? 0) with false by lia.
Qed.
Lemma agent_accepts read sent now seen_at cache packet reqid :
  (∀ n b, read n = Ok b → length b = n) → min_int64 <= time_unix_seconds sent <= max_int64 → ttl < max_int64 → - ttl <= now - time_Unix (time_unix_seconds sent) <= ttl →
  buildShutdownPacketWithRequestID read (m_Name m) (wol_Token wol) (wol_HMACSecret wol) sent = Ok (packet, reqid) →
  (∀ n, hex_encode n = reqid → rc_seen cache !! n = None) →
  ∃ p cache', daemon_step (loop_config cfg) cache packet now seen_at = Returns (Some p, cache') ∧ RequestID p = reqid.
Proof.
  intros Hread Hsent Hmax Hnow Hb Hunseen. destruct agent_ttl as [Hpos Ettl].
  destruct (build_parse read _ _ _ sent now ttl packet reqid Hread Hsent ltac:(lia) Hnow Hb) as (p & Hp & _ & Ht & Hr & _).
  unfold daemon_step. rewrite Ettl. change (dc_HMACSecret (loop_config cfg)) with (wol_HMACSecret wol). change (dc_ExpectedToken (loop_config cfg)) with (wol_Token wol).
  rewrite Hp. step_return. cbv beta iota. rewrite Ht, (bool_decide_eq_true_2 (wol_Token wol = wol_Token wol)) by done. cbn [negb]. rewrite andb_false_r.
  destruct (Seen cache (sp_Nonce p) seen_at) as [b cache'] eqn:ES. assert (b = false) as -> by (unfold Seen in ES;
    rewrite (proj2 (map_lookup_filter_None _ _ _)) in ES by (left; by apply Hunseen); congruence).
  by exists p, cache'.
Qed.
Lemma agent_reports marshal pathEscape unmarshal version createdAt packet stage message body :
  sp_Nonce packet ≠ [] → TrimSpace stage ≠ "" → Z.of_nat (length body) <= event_limit →
  marshal (mkPowerEvent (RequestID packet) stage message version createdAt) = Ok body → unmarshal body = Some (mkPowerEvent (RequestID packet) stage message version createdAt) →
  ∃ request, postPowerEvent marshal pathEscape cfg version createdAt packet stage message = Ok (Some request)
    ∧ pq_URL request = TrimRight serverBase "/" +:+ "/api/v1/machines/" +:+ pathEscape (m_Name m) +:+ "/power-events"
    ∧ er_Status (ReportMachinePowerEvent unmarshal true (m_Name m) (Ok m) (Some (pq_Body request)) (pq_Signature request)).1 = 200.
Proof.
  intros Hnonce Hstage Hlen Hm Hu. destruct Hset as [[[Es _] Hs] _ [[Eb _] Hb] [[En _] Hn] _ _ _].
  unfold postPowerEvent. cbv zeta. change (ac_ServerURL cfg) with serverBase. change (ac_MachineName cfg) with (m_Name m). change (ac_HMACSecret cfg) with (wol_HMACSecret wol).
  rewrite Eb, En, (bool_decide_eq_false_2 (TrimRight serverBase "/" = "")), (bool_decide_eq_false_2 (m_Name m = "")) by done. cbv iota. rewrite (bool_decide_eq_false_2 (m_Name m = "")) by done.
  rewrite Hm. cbn [mbind result_bind]. eexists. split_and!; [done|done|]. cbn [pq_Body pq_Signature].
  unfold ReportMachinePowerEvent. cbv zeta. rewrite take_ge by lia. rewrite Hwol, Htype, Es, (bool_decide_eq_false_2 (wol_HMACSecret wol = "")) by done.
  change (negb (PowerTypeWoL ==? PowerTypeWoL) || false) with false. cbv iota. rewrite verify_signed. cbn [negb]. rewrite Hu. cbn [pv_RequestID pv_Stage].
  unfold RequestID. rewrite TrimSpace_hex. rewrite (bool_decide_eq_false_2 (hex_encode _ = "")), (bool_decide_eq_false_2 (TrimSpace stage = "")) by (done || by apply hex_nonempty). done.
Qed.

(** C22: the agent that is started with the environment file the control plane installs has
    the port, secret, token, time to live, server and name the control plane means, when
    these survive the file ([agent_settings]: secret, token, server and name are not
    blank, are valid UTF-8 without line ends and without white space around them, port
    and time to live are not negative, and the file is short enough for the scanner; a
    padded secret does not survive it, see [padded_secret_disconnects]).  It then accepts
    each power-off packet the control plane builds for the machine that arrives within
    the time to live of the moment it carries and has a nonce the agent has not seen;
    and what it reports about a packet, with a stage and in a body of at most the
    accepted length, is addressed to the machine and accepted there. *)
Theorem agent_obeys_and_reports (Hpath : path ≠ "") (Hfile : files path = Ok (wol_environment wol serverBase (m_Name m))) (Hmax : ttl < max_int64) :
  resolveDaemonConfig parseDuration files ["--env-file"; path] = Ok cfg
  ∧ (∀ read sent now seen_at cache packet reqid, (∀ n b, read n = Ok b → length b = n) → min_int64 <= time_unix_seconds sent <= max_int64 →
       - ttl <= now - time_Unix (time_unix_seconds sent) <= ttl →
       buildShutdownPacketWithRequestID read (m_Name m) (wol_Token wol) (wol_HMACSecret wol) sent = Ok (packet, reqid) →
       (∀ n, hex_encode n = reqid → rc_seen cache !! n = None) →
       ∃ p cache', daemon_step (loop_config cfg) cache packet now seen_at = Returns (Some p, cache') ∧ RequestID p = reqid)
  ∧ (∀ marshal pathEscape unmarshal version createdAt packet stage message body, sp_Nonce packet ≠ [] → TrimSpace stage ≠ "" → Z.of_nat (length body) <= event_limit →
       marshal (mkPowerEvent (RequestID packet) stage message version createdAt) = Ok body → unmarshal body = Some (mkPowerEvent (RequestID packet) stage message version createdAt) →
       ∃ request, postPowerEvent marshal pathEscape cfg version createdAt packet stage message = Ok (Some request)
         ∧ pq_URL request = TrimRight serverBase "/" +:+ "/api/v1/machines/" +:+ pathEscape (m_Name m) +:+ "/power-events"
         ∧ er_Status (ReportMachinePowerEvent unmarshal true (m_Name m) (Ok m) (Some (pq_Body request)) (pq_Signature request)).1 = 200).
Proof.
  split_and!; [by apply agent_reads|intros; by eapply agent_accepts|intros; by eapply agent_reports].
Qed.
End agent.

(** ** Runs *)

Definition demo_duration (s : string) : result Duration := match Atoi (TrimSuffix s "s") with Some n => Ok (n * Second) | None => Err (ErrNew "time: invalid duration") end.
Lemma demo_seconds n : 0 <= n → n * Second <= max_int64 → demo_duration (Itoa n +:+ "s") = Ok (n * Second).
Proof.
  intros H0 H1. unfold demo_duration, TrimSuffix. rewrite HasSuffix_app. replace (String.length (Itoa n +:+ "s") - String.length "s")%nat with (length (to_bytes (Itoa n))).
  2: { rewrite <- !length_to_bytes, to_bytes_app, length_app. cbn [length to_bytes String.list_ascii_of_string]. lia. }
  rewrite to_bytes_app, take_app_length, of_to_bytes, Atoi_Itoa; [done|]. unfold Second in H1. lia.
Qed.
Definition demo_wol (secret : string) : WoLConfig := mkWoLConfig "52:54:00:aa:bb:01" "" 9 "10.0.0.7" 0 secret "token" 0.
Definition wol_machine (secret : string) : Machine := demo_machine <| m_Power := (m_Power demo_machine) <| pc_Type := PowerTypeWoL |> <| pc_WoL := Some (demo_wol secret) |> |>.
Definition wol_file (secret path : string) : result string :=
  if path ==? "/etc/gomi/wol-daemon.env" then Ok (wol_environment (demo_wol secret) "http://gomi" (m_Name (wol_machine secret))) else Err (ErrNew "no such file").
Definition demo_secret : string := sh "k~e\\y".
Lemma demo_settings : agent_settings (demo_wol demo_secret) "http://gomi" (m_Name (wol_machine demo_secret)).
Proof. split; try (split; [|vm_compute; discriminate]); try split_and!; try reflexivity; try (vm_compute; discriminate); try (repeat constructor). Qed.
Definition demo_reads (n : nat) : result bytes := Ok (repeat (byte_of 7) n).
Definition demo_packet : bytes * string :=
  match buildShutdownPacketWithRequestID demo_reads (m_Name (wol_machine demo_secret)) "token" demo_secret (time_Unix 1000) with Ok x => x | Err _ => ([], "") end.
Lemma demo_packet_built : buildShutdownPacketWithRequestID demo_reads (m_Name (wol_machine demo_secret)) "token" demo_secret (time_Unix 1000) = Ok (demo_packet.1, demo_packet.2).
Proof. vm_compute. reflexivity. Qed.
Lemma agent_obeys_and_reports_witness :
  resolveDaemonConfig demo_duration (wol_file demo_secret) ["--env-file"; "/etc/gomi/wol-daemon.env"] = Ok (agent_of "/etc/gomi/wol-daemon.env" (demo_wol demo_secret) "http://gomi" (m_Name (wol_machine demo_secret)))
  ∧ ∃ p cache', daemon_step (loop_config (agent_of "/etc/gomi/wol-daemon.env" (demo_wol demo_secret) "http://gomi" (m_Name (wol_machine demo_secret))))
      (NewShutdownReplayCache (60 * Second)) demo_packet.1 (time_Unix 1003) (time_Unix 1003) = Returns (Some p, cache') ∧ RequestID p = demo_packet.2.
Proof.
  destruct (agent_obeys_and_reports demo_duration (wol_file demo_secret) demo_seconds "/etc/gomi/wol-daemon.env" "http://gomi" (wol_machine demo_secret) (demo_wol demo_secret)
              eq_refl eq_refl demo_settings ltac:(discriminate) eq_refl ltac:(reflexivity)) as (H1 & H2 & _).
  split; [exact H1|]. refine (H2 demo_reads (time_Unix 1000) (time_Unix 1003) (time_Unix 1003) (NewShutdownReplayCache (60 * Second)) demo_packet.1 demo_packet.2 _ _ _ demo_packet_built _).
  - intros n b E. injection E as <-. apply repeat_length.
  - split; vm_compute; discriminate.
  - split; vm_compute; discriminate.
  - intros n _. reflexivity.
Defined.

(** A secret with white space at its end is cut by the agent, not by the control plane:
    the machine can then not be powered off, and its reports are refused. *)
Lemma padded_secret_disconnects : let secret := "key "%string in
  (ac_HMACSecret <$> match resolveDaemonConfig demo_duration (wol_file secret) ["--env-file"; "/etc/gomi/wol-daemon.env"] with Ok c => Some c | Err _ => None end) = Some "key"
  ∧ verifyPowerEventSignature (to_bytes "{}") secret (signPowerEvent (to_bytes "{}") "key") = false
  ∧ match FillWoLDefaults demo_reads demo_reads (m_Power (wol_machine secret)) with
    | Ok p => ValidatePowerConfig p = None ∧ wol_HMACSecret <$> pc_WoL p = Some secret
    | Err _ => False
    end.
Proof. vm_compute. split_and!; reflexivity. Qed.
