(* ===== verification/Loops.v ===== *)
(** * internal/app: the loops beside the server, and the bootstrap

    sync.go, windows_sync.go and bootstrap.go.  Each tick of a loop runs one round; the
    rounds run beside every request and beside each other.  A round lists the machines
    and then works through what it has listed, one statement at a time, while the others
    change the tables.  The synchronisation of virtual machines is RuntimeSync.v, that of
    names Dns.v and Rfc2136.v: here it is a call. *)
From S2P Require Import Prelude GoStrings GoNet GoPath Handler Resource Power Subnet Lease Store Hypervisor VmStore RuntimeSync Machine BareMetal BareMetalApi Auth SshKey Yaml Provision MachineSafe PowerCycle.

(** What a round asks for: the power state of a machine, and a synchronisation of names. *)
Inductive loop_event : Type :=
| LStatus (mi : MachineInfo) (r : result PowerState)
| LDns.

(** The surroundings, by the number of the step: the others, failures of a statement, the
    clock, the tables of leases and of keys, the answers of the executor, and the base
    of boot URLs. *)
Record LoopEnv := mkLoopEnv {
  lo_others : nat → Db → Db; lo_fault : nat → option error; lo_clock : nat → Time; lo_leases : nat → result (list DHCPLease);
  lo_keys : nat → result (list SSHKey); lo_status : nat → MachineInfo → result PowerState; lo_base : nat → string }.

(** machine_store.go: one [UPDATE], for the row with this name, this MAC address and an
    address that is not static; when there is none, only a missing machine is an error. *)
Definition UpdateDynamicIPAddress (db : Db) (name expectedMAC ip : string) (updatedAt : Time) : result Db :=
  match db_machines db !! name with
  | None => Err ErrNotFound
  | Some m => Ok (if (ToLower (m_MAC m) ==? ToLower expectedMAC) && (m_IPAssignment m !=? IPAssignmentStatic)
                  then put_machine db name (m <| m_IP := ip |> <| m_UpdatedAt := updatedAt |>) else db)
  end.

(** ** What a round decides for a machine *)

Definition is_windows (m : Machine) : bool := EqualFold (TrimSpace (os_Family (m_OSPreset m))) "windows".
Definition overdue (m : Machine) (now : Time) : bool :=
  match m_Provision m with
  | Some p => pp_Active p && match pp_DeadlineAt p with Some d => time_After now d | None => false end
  | None => false
  end.
Definition timed_out (m : Machine) (now : Time) : Machine :=
  on_provision (fun p => p <| pp_Active := false |>) m <| m_Phase := PhaseError |> <| m_LastError := "provisioning timed out" |> <| m_UpdatedAt := now |>.
(** Its artifacts have still to be made. *)
Definition unprepared (m : Machine) : bool :=
  (m_Phase m ==? PhaseProvisioning) && match m_Provision m with Some p => bool_decide (pp_FinishedAt p = None) | None => true end.
(** What is known of the leases, by the MAC address in small letters: the last one listed. *)
Definition leases_by_mac (leases : list DHCPLease) : gmap string DHCPLease :=
  fold_left (fun known l => <[ToLower (dl_MAC l) := l]> known) leases ∅.
(** The address a machine should have. *)
Definition leased_address (known : gmap string DHCPLease) (m : Machine) : option string :=
  if m_IPAssignment m ==? IPAssignmentStatic then None else
  match known !! ToLower (m_MAC m) with
  | Some lease => if (dl_IP lease ==? "") || (m_IP m ==? dl_IP lease) then None else Some (dl_IP lease)
  | None => None
  end.
(** The addresses given to the synchronisation of virtual machines. *)
Definition lease_ips (leases : list DHCPLease) : gmap string string :=
  fold_left (fun known l => let mac := ToLower (TrimSpace (dl_MAC l)) in let ip := TrimSpace (dl_IP l) in
                            if (mac ==? "") || (ip ==? "") then known else <[mac := ip]> known) leases ∅.
Definition poll_info (m : Machine) : MachineInfo := mkMachineInfo (m_Name m) (m_Hostname m) (m_MAC m) (m_IP m) (m_Power m).

Section loops.
Context (yamlMarshal : config → result string) (env : LoopEnv).
Local Abbreviation H := (Hd Db loop_event Empty_set).

Definition lread {A} (f : nat → Db → A) : H A := k ← tick; op (lo_others env) (fun s => (s, f k s)).
Definition lnow : H Time := lread (fun k _ => lo_clock env k).
Definition lwrite {A} (z : A) (f : Db → result (Db * A)) : H (result A) :=
  k ← tick;
  op (lo_others env) (fun s => match lo_fault env k with
                               | Some e => (s, Err e)
                               | None => match f s with Ok (db, a) => (db, Ok a) | Err e => (s, Err e) end
                               end).
Definition list_machines : H (result (list Machine)) :=
  lread (fun k s => match lo_fault env k with Some e => Err e | None => mem_list (db_machines s) end).
Definition save (m : Machine) : H unit := _ ← lwrite tt (fun db => db' ← machine_upsert db m; Ok (db', tt)); mret tt.
Definition syncDNS : H unit := emit LDns.

Fixpoint for_each {A} (f : A → H unit) (l : list A) : H unit :=
  match l with [] => mret tt | x :: l => _ ← f x; for_each f l end.

(** ** sync.go, windows_sync.go *)

Definition syncWindowsProvisioningState (before : Machine) (now : Time) : H unit :=
  if overdue before now
  then _ ← lwrite false (fun db => Ok (machine_callback db before (timed_out before now))); mret tt
  else mret tt.

Definition sync_machine (m : Machine) : H unit :=
  now ← lnow;
  if is_windows m then syncWindowsProvisioningState m now else
  if overdue m now then at_ ← lnow; save (timed_out m at_) else
  if negb (unprepared m) then mret tt else
  keys ← lread (fun k _ => match lo_keys env k with Ok l => l | Err _ => [] end);
  base ← lread (fun k _ => lo_base env k);
  now ← lnow;
  let r := match BuildArtifacts yamlMarshal m base keys with
           | Ok (artifacts, cfg) => SyncState m artifacts cfg None now
           | Err e => SyncState m ∅ "" (Some e) now
           end in
  _ ← (if sr_NeedsSave r then save (sr_Machine r) else mret tt);
  if sr_NeedsDNS r then syncDNS else mret tt.

Definition syncProvisioningStates : H unit :=
  machines ← list_machines;
  match machines with Err _ => mret tt | Ok l => for_each sync_machine l end.

Definition update_address (known : gmap string DHCPLease) (m : Machine) : H unit :=
  match leased_address known m with
  | None => mret tt
  | Some ip => now ← lnow; _ ← lwrite tt (fun db => db' ← UpdateDynamicIPAddress db (m_Name m) (m_MAC m) ip now; Ok (db', tt)); mret tt
  end.
Definition syncLeaseIPs : H unit :=
  machines ← list_machines;
  match machines with
  | Err _ => mret tt
  | Ok l => leases ← lread (fun k _ => lo_leases env k);
            match leases with Err _ => mret tt | Ok leases => for_each (update_address (leases_by_mac leases)) l end
  end.

Definition poll_machine (m : Machine) : H unit :=
  r ← lread (fun k _ => lo_status env k (poll_info m));
  _ ← emit (LStatus (poll_info m) r);
  match r with
  | Err _ => mret tt
  | Ok state =>
      if state ==? m_PowerState m then mret tt else
      now ← lnow; _ ← lwrite tt (fun db => db' ← UpdatePowerStateStatus db (m_Name m) state now now; Ok (db', tt)); mret tt
  end.
Definition pollPowerStates : H unit :=
  machines ← list_machines;
  match machines with Err _ => mret tt | Ok l => for_each poll_machine l end.

(** bootstrap.go: machines of before the inline configuration of power. *)
Definition migratePowerPolicyRefToInline : H unit :=
  machines ← list_machines;
  match machines with
  | Err _ => mret tt
  | Ok l => for_each (fun m => if pc_Type (m_Power m) !=? "" then mret tt else
                               now ← lnow; save (m <| m_Power := mkPowerConfig PowerTypeManual None None None None |> <| m_UpdatedAt := now |>)) l
  end.

(** ** The loops, as the rounds their tickers start *)

Inductive round : Type := ProvisioningRound | LeaseRound | PowerRound.
Definition run_round (r : round) : H unit :=
  match r with ProvisioningRound => syncProvisioningStates | LeaseRound => syncLeaseIPs | PowerRound => pollPowerStates end.
Definition run_rounds (l : list round) : H unit := for_each run_round l.
End loops.

(** The loop of virtual machines: a round of RuntimeSync.v with the addresses of the
    leases, or without any when these cannot be listed. *)
Definition vmLeaseIPsByMAC (leases : option (result (list DHCPLease))) : gmap string string :=
  match leases with Some (Ok l) => lease_ips l | _ => ∅ end.
Definition syncVMRuntimeStates {S : Type} (store : VMStore S) (lim : Limits) (w : World) (leases : option (result (list DHCPLease))) (s : S) (st : HvState) : (S * HvState) * option error :=
  SyncAll store lim w s st (vmLeaseIPsByMAC leases).

(** The address of the embedded name server: the one configured, or that of the interface
    of DHCP, or that of the first interface that is up. *)
Definition resolveDNSEmbeddedAddr (addr dhcpIface defaultIface : string) (ifaceIP : string → option Z) : string :=
  if TrimSpace addr !=? "" then TrimSpace addr else
  let of_iface (iface : string) : option string := if iface ==? "" then None else (fun ip => JoinHostPort (ip4_String ip) "53") <$> ifaceIP iface in
  match of_iface (TrimSpace dhcpIface) with
  | Some a => a
  | None => default ":53" (of_iface defaultIface)
  end.

(** Two leases of one MAC address: the last of the list counts.  Leases without an
    address or MAC address do not. *)
Lemma lease_ips_last leases l : ToLower (TrimSpace (dl_MAC l)) ≠ "" → TrimSpace (dl_IP l) ≠ "" →
  lease_ips (leases ++ [l]) !! ToLower (TrimSpace (dl_MAC l)) = Some (TrimSpace (dl_IP l)).
Proof.
  intros Hm Hi. unfold lease_ips. rewrite fold_left_app. cbn. rewrite !bool_decide_eq_false_2 by done. cbn. apply lookup_insert_eq.
Qed.

(** ** A round nothing interferes with *)

Section quiet.
Context (yamlMarshal : config → result string) (now : Time) (keys : list SSHKey) (base : string) (leases : nat → result (list DHCPLease))
  (status : nat → MachineInfo → result PowerState).

Definition quiet_env : LoopEnv := mkLoopEnv (fun _ db => db) (fun _ => None) (fun _ => now) leases (fun _ => Ok keys) status (fun _ => base).

(** What a round makes of a record. *)
Definition prepared (m : Machine) : Machine :=
  sr_Machine (match BuildArtifacts yamlMarshal m base keys with
              | Ok (artifacts, cfg) => SyncState m artifacts cfg None now
              | Err e => SyncState m ∅ "" (Some e) now
              end).
Definition reconciled (m : Machine) : Machine :=
  if overdue m now then timed_out m now else if is_windows m then m else if unprepared m then prepared m else m.
(** The record of a host claimed under another attempt is not written by [Upsert]. *)
Definition guarded (db : Db) (m : Machine) : bool :=
  match db_hosts db !! m_Name m with Some h => (h_Owner h !=? "") && (h_AttemptID h !=? attempt_of m) | None => false end.
Definition round_row (db : Db) (m : Machine) : Machine := if negb (is_windows m) && guarded db m then m else reconciled m.
Definition with_row (db : Db) (m : Machine) : Db := mkDb (db_hosts db) (<[m_Name m := round_row db m]> (db_machines db)).

Lemma eta_machine m : m <| m_CreatedAt := m_CreatedAt m |> = m.
Proof. by destruct m. Qed.
Lemma put_same db m : db_machines db !! m_Name m = Some m → put_machine db (m_Name m) m = db.
Proof. intros H. unfold put_machine. rewrite insert_id by done. by destruct db. Qed.

Lemma prepared_frame m : m_Name (prepared m) = m_Name m ∧ attempt_of (prepared m) = attempt_of m ∧ m_CreatedAt (prepared m) = m_CreatedAt m ∧ m_OSPreset (prepared m) = m_OSPreset m.
Proof.
  unfold prepared, SyncState, attempt_of. destruct (BuildArtifacts _ _ _ _) as [[a c]|e]; destruct (m_Phase m !=? PhaseProvisioning); destruct m as [? ? ? ? ? ? ? ? ? ? ? ? ? ? ? ? ? ? ? ? p]; by destruct p.
Qed.
Lemma timed_out_frame m t : m_Name (timed_out m t) = m_Name m ∧ attempt_of (timed_out m t) = attempt_of m ∧ m_CreatedAt (timed_out m t) = m_CreatedAt m ∧ m_OSPreset (timed_out m t) = m_OSPreset m.
Proof. unfold timed_out, attempt_of. destruct m as [? ? ? ? ? ? ? ? ? ? ? ? ? ? ? ? ? ? ? ? p]; by destruct p. Qed.

Lemma upsert_row db m m' : db_machines db !! m_Name m = Some m → m_Name m' = m_Name m → attempt_of m' = attempt_of m → m_CreatedAt m' = m_CreatedAt m →
  machine_upsert db m' = if guarded db m then Err ErrConflict else Ok (put_machine db (m_Name m) m').
Proof.
  intros H Hn Ha Hc. unfold machine_upsert, guarded. rewrite Hn, H, Ha, <- Hc, eta_machine. done.
Qed.
Lemma callback_row db m : db_machines db !! m_Name m = Some m → overdue m now = true → machine_callback db m (timed_out m now) = (put_machine db (m_Name m) (timed_out m now), true).
Proof.
  intros H Ho. unfold machine_callback. assert (Hp : ∃ p, m_Provision m = Some p) by (unfold overdue in Ho; destruct (m_Provision m) as [p|]; [by exists p|done]). destruct Hp as [p Hp].
  assert (Hq : m_Provision (timed_out m now) = Some (p <| pp_Active := false |>)).
  { unfold timed_out. destruct m; cbn in Hp. by rewrite Hp. }
  rewrite Hp, Hq, H. do 3 (rewrite bool_decide_eq_true_2 by reflexivity). cbn [negb orb].
  rewrite bool_decide_eq_true_2 by done. destruct m. cbn in Hp. by subst.
Qed.

Lemma save_quiet k db log m m' : db_machines db !! m_Name m = Some m → m_Name m' = m_Name m → attempt_of m' = attempt_of m → m_CreatedAt m' = m_CreatedAt m →
  save quiet_env m' (mkHState k db log) = (mkHState (Datatypes.S k) (if guarded db m then db else put_machine db (m_Name m) m') log, inl tt).
Proof.
  intros H Hn Ha Hc. unfold save, lwrite, mbind, Hd_bind, tick, op. cbn. rewrite (upsert_row db m) by done. by destruct (guarded db m).
Qed.
Lemma overdue_kept db m : with_row db m = if negb (is_windows m) && guarded db m then mkDb (db_hosts db) (<[m_Name m := m]> (db_machines db)) else put_machine db (m_Name m) (reconciled m).
Proof. unfold with_row, round_row. by destruct (_ && _). Qed.

Lemma lread_quiet {A B} (f : nat → Db → A) (g : A → Hd Db loop_event Empty_set B) k db log :
  (a ← lread quiet_env f; g a) (mkHState k db log) = g (f k db) (mkHState (Datatypes.S k) db log).
Proof. done. Qed.
Lemma then_quiet {A B} (x : Hd Db loop_event Empty_set A) (g : A → Hd Db loop_event Empty_set B) st st' a :
  x st = (st', inl a) → (a ← x; g a) st = g a st'.
Proof. intros H. unfold mbind, Hd_bind. by rewrite H. Qed.

Lemma sync_quiet k db log m : db_machines db !! m_Name m = Some m →
  ∃ k' log', sync_machine yamlMarshal quiet_env m (mkHState k db log) = (mkHState k' (with_row db m) log', inl tt).
Proof.
  intros H. pose proof (put_same _ _ H) as Hsame. unfold put_machine in Hsame. rewrite overdue_kept.
  pose proof (timed_out_frame m now) as (N1 & A1 & C1 & _). pose proof (prepared_frame m) as (N2 & A2 & C2 & _).
  unfold sync_machine, lnow. rewrite lread_quiet. cbn [lo_clock quiet_env].
  unfold reconciled, put_machine. destruct (is_windows m) eqn:Ew; cbn [negb andb].
  - unfold syncWindowsProvisioningState. destruct (overdue m now) eqn:Eo; [|rewrite Hsame; by do 2 eexists].
    unfold lwrite, mbind, Hd_bind, tick, op. cbn. rewrite callback_row by done. by do 2 eexists.
  - destruct (overdue m now) eqn:Eo.
    + rewrite lread_quiet. rewrite (save_quiet _ _ _ m) by done. rewrite Hsame. by destruct (guarded db m); do 2 eexists.
    + destruct (unprepared m) eqn:Eu; cbn [negb]; [|rewrite Hsame; by destruct (guarded db m); do 2 eexists].
      rewrite !lread_quiet. cbn [lo_keys lo_base lo_clock quiet_env].
      set (r := match BuildArtifacts _ _ _ _ with Ok _ => _ | Err _ => _ end).
      assert (Hs : sr_NeedsSave r = true).
      { unfold unprepared in Eu. apply andb_true_iff in Eu as [Ep%bool_decide_eq_true _]. unfold r, SyncState. rewrite Ep. by destruct (BuildArtifacts _ _ _ _) as [[a c]|e]. }
      rewrite Hs. change (sr_Machine r) with (prepared m). erewrite then_quiet by (by apply (save_quiet _ _ _ m)). rewrite Hsame. unfold syncDNS.
      by destruct (sr_NeedsDNS r), (guarded db m); do 2 eexists.
Qed.

Lemma rows_quiet l k db log : NoDup (m_Name <$> l) → (∀ m, m ∈ l → db_machines db !! m_Name m = Some m) →
  ∃ k' log' rows, for_each (sync_machine yamlMarshal quiet_env) l (mkHState k db log) = (mkHState k' (mkDb (db_hosts db) rows) log', inl tt)
    ∧ (∀ m, m ∈ l → rows !! m_Name m = Some (round_row db m)) ∧ (∀ n, n ∉ m_Name <$> l → rows !! n = db_machines db !! n).
Proof.
  revert k db log. induction l as [|m l IH]; intros k db log Hnd Hl.
  - exists k, log, (db_machines db). split; [by destruct db|]. split; [by intros m Hm%not_elem_of_nil|done].
  - apply NoDup_cons in Hnd as [Hm Hnd]. destruct (sync_quiet k db log m) as (k1 & log1 & E1); [apply Hl; left|].
    destruct (IH k1 (with_row db m) log1 Hnd) as (k2 & log2 & rows & E2 & Hin & Hout).
    { intros x Hx. cbn. rewrite lookup_insert_ne; [apply Hl; by right|]. intros E. apply Hm. rewrite E. by apply list_elem_of_fmap_2. }
    exists k2, log2, rows. split; [cbn [for_each]; by erewrite then_quiet by exact E1|]. split.
    + intros x [->|Hx]%elem_of_cons; [|by apply Hin]. rewrite Hout by done. cbn. by rewrite lookup_insert_eq.
    + intros n [Hn Hn']%not_elem_of_cons. rewrite Hout by done. cbn. by rewrite lookup_insert_ne.
Qed.

(** The tables after a round. *)
Definition after_round (db : Db) : Db := mkDb (db_hosts db) (round_row db <$> db_machines db).

Lemma round_quiet k db log : mem_ok (db_machines db) → ∃ k' log', syncProvisioningStates yamlMarshal quiet_env (mkHState k db log) = (mkHState k' (after_round db) log', inl tt).
Proof.
  intros Hok. unfold syncProvisioningStates, list_machines. rewrite lread_quiet. cbn [lo_fault quiet_env].
  destruct (mem_list_perm (db_machines db)) as (-> & Hp & _). set (l := merge_sort _ _) in *.
  assert (Hnd : NoDup (m_Name <$> l)) by (rewrite Hp; by apply mem_values_NoDup).
  assert (Hl : ∀ m, m ∈ l ↔ db_machines db !! m_Name m = Some m) by (intros m; rewrite Hp; by apply elem_of_mem_values).
  destruct (rows_quiet l (Datatypes.S k) db log Hnd) as (k' & log' & rows & -> & Hin & Hout); [by intros m Hm%Hl|].
  exists k', log'. do 3 f_equal. unfold after_round. f_equal. apply map_eq. intros n. rewrite lookup_fmap. destruct (db_machines db !! n) as [m|] eqn:E.
  - pose proof (Hok _ _ E) as Hn. cbn in Hn. subst n. apply Hin. by apply Hl.
  - rewrite Hout; [done|]. intros (m & -> & Hm)%list_elem_of_fmap. apply Hl in Hm. congruence.
Qed.

(** A second look at what a round has made. *)
Lemma overdue_timed_out m t u : overdue (timed_out m t) u = false.
Proof. unfold overdue, timed_out. destruct m as [? ? ? ? ? ? ? ? ? ? ? ? ? ? ? ? ? ? ? ? p]. by destruct p. Qed.
Lemma unprepared_timed_out m t : unprepared (timed_out m t) = false.
Proof. done. Qed.
Lemma overdue_prepared m t : overdue m t = false → overdue (prepared m) t = false.
Proof.
  unfold overdue, prepared, SyncState. destruct (BuildArtifacts _ _ _ _) as [[a c]|e]; destruct (m_Phase m !=? PhaseProvisioning); try done;
    destruct m as [? ? ? ? ? ? ? ? ? ? ? ? ? ? ? ? ? ? ? ? p]; by destruct p.
Qed.
Lemma prepared_unprepared m p : unprepared m = true → m_Provision m = Some p → unprepared (prepared m) = false.
Proof.
  unfold unprepared. intros [Ep%bool_decide_eq_true _]%andb_true_iff Hp. unfold prepared, SyncState. rewrite Ep.
  destruct (BuildArtifacts _ _ _ _) as [[a c]|e]; [|done]. destruct m; cbn in *. rewrite Hp. cbn. by rewrite andb_false_r.
Qed.
Lemma artifacts_of m m' : (m_Name m, m_Hostname m, m_Firmware m, m_OSPreset m, m_SSHKeyRefs m, m_LoginUser m) = (m_Name m', m_Hostname m', m_Firmware m', m_OSPreset m', m_SSHKeyRefs m', m_LoginUser m') →
  BuildArtifacts yamlMarshal m base keys = BuildArtifacts yamlMarshal m' base keys.
Proof.
  intros [= H1 H2 H3 H4 H5 H6]. unfold BuildArtifacts, boot_artifacts, buildPXEEntry, buildCoreDHCPSnippet, buildLinuxCloudInit, linux_config. by rewrite H1, H2, H3, H4, H5, H6.
Qed.
Lemma prepared_again m : unprepared m = true → m_Provision m = None → prepared (prepared m) = prepared m.
Proof.
  unfold unprepared. intros [Ep _]%andb_true_iff Hp. assert (Hn : (m_Phase m !=? PhaseProvisioning) = false) by by rewrite Ep.
  destruct (BuildArtifacts yamlMarshal m base keys) as [[a c]|e] eqn:E.
  - assert (Hm : prepared m = on_provision (fun p => p) m <| m_LastError := "" |> <| m_UpdatedAt := now |>) by (unfold prepared, SyncState; rewrite E, Hn; clear E; destruct m; cbn in *; by subst).
    rewrite Hm. unfold prepared. rewrite (artifacts_of _ m) by (clear E; by destruct m). rewrite E. clear E Hm. unfold SyncState. destruct m; cbn in Hp, Hn |- *. by rewrite Hn, Hp.
  - assert (Hm : m_Phase (prepared m) = PhaseError) by (unfold prepared, SyncState; rewrite E, Hn; by destruct m).
    unfold prepared at 1. destruct (BuildArtifacts _ (prepared m) _ _) as [[a c]|e']; unfold SyncState; by rewrite Hm.
Qed.

Lemma reconciled_attempt m : m_Name (reconciled m) = m_Name m ∧ attempt_of (reconciled m) = attempt_of m ∧ is_windows (reconciled m) = is_windows m.
Proof.
  pose proof (timed_out_frame m now) as (N1 & A1 & _ & O1). pose proof (prepared_frame m) as (N2 & A2 & _ & O2).
  unfold reconciled, is_windows. repeat case_match; split_and!; congruence.
Qed.
Lemma reconciled_settled m : overdue (reconciled m) now = false ∧ (is_windows m = false → m_Provision m ≠ None → unprepared (reconciled m) = false).
Proof.
  unfold reconciled. destruct (overdue m now) eqn:Eo; [by rewrite overdue_timed_out|]. destruct (is_windows m) eqn:Ew; [done|].
  destruct (unprepared m) eqn:Eu; [|done]. split; [by apply overdue_prepared|]. intros _ Hp. destruct (m_Provision m) as [p|] eqn:E; [|done]. by eapply prepared_unprepared.
Qed.
Lemma reconciled_again m : reconciled (reconciled m) = reconciled m.
Proof.
  pose proof (reconciled_attempt m) as (_ & _ & Ew). pose proof (reconciled_settled m) as [Eo Hu].
  unfold reconciled at 1. rewrite Eo, Ew. destruct (is_windows m) eqn:Hw; [done|]. destruct (m_Provision m) as [p|] eqn:Hp.
  - by rewrite Hu.
  - destruct (unprepared (reconciled m)) eqn:E2; [|done]. revert E2. unfold reconciled. destruct (overdue m now); [done|]. rewrite Hw. destruct (unprepared m) eqn:Hu'; [|by rewrite Hu'].
    intros _. by apply prepared_again.
Qed.
Lemma round_row_again db m : round_row (after_round db) (round_row db m) = round_row db m.
Proof.
  unfold round_row, guarded. cbn [db_hosts after_round]. destruct (negb (is_windows m) && _) eqn:E; [by rewrite E|].
  pose proof (reconciled_attempt m) as (-> & -> & ->). rewrite E. apply reconciled_again.
Qed.
Lemma reconciled_none m : m_Provision m = None → m_Provision (reconciled m) = None.
Proof.
  intros Hp. unfold reconciled, overdue. rewrite Hp. destruct (is_windows m); [done|]. destruct (unprepared m); [|done].
  unfold prepared, SyncState. destruct (BuildArtifacts _ _ _ _) as [[a c]|e]; destruct (_ !=? _); destruct m; cbn in *; by subst.
Qed.
Lemma row_frame db m : m_Name (round_row db m) = m_Name m ∧ attempt_of (round_row db m) = attempt_of m ∧ is_windows (round_row db m) = is_windows m
  ∧ (is_windows m = true ∨ guarded db m = false →
     overdue (round_row db m) now = false ∧ (is_windows (round_row db m) = false → m_Provision (round_row db m) ≠ None → unprepared (round_row db m) = false)).
Proof.
  pose proof (reconciled_attempt m) as (Hn & Ha & Hw). pose proof (reconciled_settled m) as [Ho Hu]. unfold round_row.
  destruct (negb (is_windows m) && guarded db m) eqn:E.
  - split_and!; [done..|]. apply andb_true_iff in E as [E1%negb_true_iff E2]. intros []; congruence.
  - split_and!; [done..|]. intros _. split; [done|]. rewrite Hw. intros Hl Hp. apply Hu; [done|]. intros Hn'. apply Hp. by apply reconciled_none.
Qed.
Lemma after_round_again db : after_round (after_round db) = after_round db.
Proof.
  change (mkDb (db_hosts db) (round_row (after_round db) <$> (round_row db <$> db_machines db)) = mkDb (db_hosts db) (round_row db <$> db_machines db)). f_equal. rewrite <- map_fmap_compose. apply map_fmap_ext. intros n m _. apply round_row_again.
Qed.
End quiet.

(** A round of the provisioning loop that nothing interferes with ends, and leaves
    every machine's record as one pure function says: a deployment past its deadline is
    ended with the phase Error, a Linux machine whose artifacts have not been made gets
    them or the error of making them, everything else stays, and so does the record of a
    host claimed under another attempt, which the database protects.  After it no
    deployment the loop may write is overdue and no attempt is without its artifacts, and
    a second round at the same time changes nothing. *)
Theorem provisioning_round_reconciles yamlMarshal now keys base leases status db (Hok : mem_ok (db_machines db)) :
  let round := fun db => syncProvisioningStates yamlMarshal (quiet_env now keys base leases status) (mkHState 0 db []) in
  let rows := round_row yamlMarshal now keys base db <$> db_machines db in
  (round db).2 = inl tt ∧ hst_store (round db).1 = mkDb (db_hosts db) rows
  ∧ (∀ n m, rows !! n = Some m → is_windows m = true ∨ guarded db m = false →
       overdue m now = false ∧ (is_windows m = false → m_Provision m ≠ None → unprepared m = false))
  ∧ hst_store (round (mkDb (db_hosts db) rows)).1 = mkDb (db_hosts db) rows.
Proof.
  intros round rows. pose proof (round_quiet yamlMarshal now keys base leases status 0 db [] Hok) as (k & log & E).
  assert (Hok' : mem_ok rows).
  { intros n m. unfold rows. rewrite lookup_fmap. destruct (db_machines db !! n) as [m0|] eqn:E0; [|done]. intros [= <-]. unfold key_of, Machine_keyed.
    destruct (row_frame yamlMarshal now keys base db m0) as (-> & _). by apply (Hok n m0). }
  split; [unfold round; by rewrite E|]. split; [unfold round; by rewrite E|]. split.
  - intros n m. unfold rows. rewrite lookup_fmap. destruct (db_machines db !! n) as [m0|] eqn:E0; [|done]. intros [= <-] Hfree.
    destruct (row_frame yamlMarshal now keys base db m0) as (Hn & Ha & Hw & Hs). apply Hs. destruct Hfree as [Hf|Hf]; [left; congruence|right].
    revert Hf. unfold guarded. by rewrite Hn, Ha.
  - destruct (round_quiet yamlMarshal now keys base leases status 0 (after_round yamlMarshal now keys base db) [] Hok') as (k' & log' & E').
    unfold round. change (mkDb (db_hosts db) rows) with (after_round yamlMarshal now keys base db). rewrite E'. cbn. apply after_round_again.
Qed.

(** ** What the loops write while others write too *)

Section writes.
Context (yamlMarshal : config → result string) (env : LoopEnv).

(** An answer of the executor for the machine, and a lease listed for a MAC address. *)
Definition reported (n : string) (state : PowerState) : Prop := ∃ k mi, mi_Name mi = n ∧ lo_status env k mi = Ok state.
Definition leased_to (mac ip : string) : Prop := ∃ k l lease, lo_leases env k = Ok l ∧ lease ∈ l ∧ ToLower (dl_MAC lease) = ToLower mac ∧ dl_IP lease = ip.

(** A row of the machines' table changes in its power state, or in its address. *)
Inductive polled (db : Db) : Db → Prop :=
| polled_none : polled db db
| polled_power n m state t : db_machines db !! n = Some m → reported n state →
    polled db (put_machine db n (m <| m_PowerState := state |> <| m_PowerStateAt := Some t |> <| m_UpdatedAt := t |>))
| polled_address n m ip t : db_machines db !! n = Some m → m_IPAssignment m ≠ IPAssignmentStatic → ip ≠ "" → leased_to (m_MAC m) ip →
    polled db (put_machine db n (m <| m_IP := ip |> <| m_UpdatedAt := t |>)).

Lemma does_lwrite {A} own (z : A) f : (∀ db, own db db) → (∀ db db' a, f db = Ok (db', a) → own db db') → does (lo_others env) own (lwrite env z f).
Proof.
  intros Hr Hf. unfold lwrite. apply does_bind; [apply does_tick|intros k]. apply does_op. intros db. destruct (lo_fault env k); [apply Hr|].
  destruct (f db) as [[db' a]|e] eqn:E; [by eapply Hf|apply Hr].
Qed.
Lemma does_lread {A} own (f : nat → Db → A) : does (lo_others env) own (lread env f).
Proof. apply does_bind; [apply does_tick|intros k; apply does_read]. Qed.
Lemma does_each {A} own (f : A → Hd Db loop_event Empty_set unit) l : (∀ x, x ∈ l → does (lo_others env) own (f x)) → does (lo_others env) own (for_each f l).
Proof.
  induction l as [|x l IH]; intros H; [apply does_ret|]. apply does_bind; [apply H; left|intros _]. apply IH. intros y Hy. apply H. by right.
Qed.

(** What is read is what some step's surroundings gave. *)
Lemma does_read_bind {A B} own (f : nat → Db → A) (g : A → Hd Db loop_event Empty_set B) : (∀ k db, does (lo_others env) own (g (f k db))) → does (lo_others env) own (a ← lread env f; g a).
Proof.
  intros Hg st. change ((a ← lread env f; g a) st) with (g (f (hst_tick st) (lo_others env (hst_tick st) (hst_store st))) (mkHState (Datatypes.S (hst_tick st)) (lo_others env (hst_tick st) (hst_store st)) (hst_log st))).
  apply (steps_others _ _ (hst_tick st)). apply (Hg (hst_tick st) (lo_others env (hst_tick st) (hst_store st)) (mkHState _ _ _)).
Qed.

Lemma leases_by_mac_from leases mac lease : leases_by_mac leases !! mac = Some lease → lease ∈ leases ∧ ToLower (dl_MAC lease) = mac.
Proof.
  assert (H : ∀ known : gmap string DHCPLease, fold_left (fun known l => <[ToLower (dl_MAC l) := l]> known) leases known !! mac = Some lease →
    known !! mac = Some lease ∨ (lease ∈ leases ∧ ToLower (dl_MAC lease) = mac)).
  { induction leases as [|l ls IH]; intros known H; [by left|]. destruct (IH _ H) as [[[<- <-]|[_ Hk]]%lookup_insert_Some|[Hin Hm]]; [right; by split; [left|]|by left|right; by split; [right|]]. }
  intros [Hl|Hl]%H; [by rewrite lookup_empty in Hl|done].
Qed.

Lemma does_address known m : (∀ mac lease, known !! mac = Some lease → ∃ k l, lo_leases env k = Ok l ∧ lease ∈ l ∧ ToLower (dl_MAC lease) = mac) → does (lo_others env) polled (update_address env known m).
Proof.
  intros Hk. unfold update_address, leased_address. destruct (m_IPAssignment m ==? IPAssignmentStatic); [apply does_ret|].
  destruct (known !! ToLower (m_MAC m)) as [lease|] eqn:El; [|apply does_ret]. destruct ((dl_IP lease ==? "") || _) eqn:Ee; [apply does_ret|].
  apply orb_false_iff in Ee as [Ee%bool_decide_eq_false _]. destruct (Hk _ _ El) as (k & l & H1 & H2 & H3).
  apply does_bind; [apply does_lread|intros t]. apply does_bind; [|intros; apply does_ret]. apply does_lwrite; [apply polled_none|]. intros db db' [] H.
  unfold UpdateDynamicIPAddress in H. destruct (db_machines db !! m_Name m) as [row|] eqn:Er; [|done]. cbn in H. injection H as <-.
  destruct (_ && _) eqn:Ew; [|apply polled_none]. apply andb_true_iff in Ew as [Em%bool_decide_eq_true Es%negb_true_iff%bool_decide_eq_false].
  apply polled_address; try done. exists k, l, lease. split_and!; [done..| |done]. by rewrite H3.
Qed.
Lemma does_poll m : does (lo_others env) polled (poll_machine env m).
Proof.
  unfold poll_machine. apply does_read_bind. intros k db0. apply does_bind; [apply does_emit|intros _]. destruct (lo_status env k (poll_info m)) as [state|e] eqn:E; [|apply does_ret].
  destruct (state ==? m_PowerState m); [apply does_ret|]. apply does_bind; [apply does_lread|intros t]. apply does_bind; [|intros; apply does_ret].
  apply does_lwrite; [apply polled_none|]. intros db db' [] H. unfold UpdatePowerStateStatus in H. destruct (db_machines db !! m_Name m) as [row|] eqn:Er; [|done].
  cbn in H. injection H as <-. apply polled_power; [done|]. by exists k, (poll_info m).
Qed.

Lemma does_polls r : r ≠ ProvisioningRound → does (lo_others env) polled (run_round yamlMarshal env r).
Proof.
  intros Hr. destruct r; [done|..]; cbn [run_round]; unfold syncLeaseIPs, pollPowerStates, list_machines.
  - apply does_bind; [apply does_lread|intros [ms|e]; [|apply does_ret]]. apply does_read_bind. intros k db. destruct (lo_leases env k) as [leases|e] eqn:E; [|apply does_ret].
    apply does_each. intros m _. apply does_address. intros mac lease [Hin Hm]%leases_by_mac_from. by exists k, leases.
  - apply does_bind; [apply does_lread|intros [ms|e]; [|apply does_ret]]. apply does_each. intros m _. apply does_poll.
Qed.

(** However the loops of leases and of power states interleave with other requests,
    each change they make is of one existing machine's record: either its power state
    becomes what the executor reported for a machine of that name, or its address,
    unless it is static now, becomes a non-empty one leased to the MAC address the record
    has now.  Nothing else of the record, no other record and no host is written, so no
    deployment, claim or name is touched. *)
Theorem polls_keep_to_their_columns (l : list round) (Hl : ∀ r, r ∈ l → r ≠ ProvisioningRound) : does (lo_others env) polled (run_rounds yamlMarshal env l).
Proof.
  apply does_each. intros r Hr. apply does_polls. by apply Hl.
Qed.
End writes.

(** Everything the loops do is among the statements the claims of BareMetal.v are safe
    against. *)
Section statements.
Context (pemDecode : string → option (string * bytes * string)) (parsePKIX : bytes → result (option Z)) (yamlMarshal : config → result string) (env : LoopEnv).
Local Abbreviation keeps := (keep_step pemDecode parsePKIX).

Lemma keeps_save m : does (lo_others env) (rtc keeps) (save env m).
Proof.
  apply does_bind; [|intros; apply does_ret]. apply does_lwrite; [intros; apply rtc_refl|]. intros db db' []. destruct (machine_upsert db m) eqn:E; [|done].
  cbn. intros [= <-]. apply rtc_once. by eapply upsert_statement.
Qed.
Lemma keeps_sync m : does (lo_others env) (rtc keeps) (sync_machine yamlMarshal env m).
Proof.
  unfold sync_machine. apply does_bind; [apply does_lread|intros now]. destruct (is_windows m).
  - unfold syncWindowsProvisioningState. destruct (overdue m now); [|apply does_ret]. apply does_bind; [|intros; apply does_ret].
    apply does_lwrite; [intros; apply rtc_refl|]. intros db db' b [= E]. apply rtc_once. by eapply callback_keeps.
  - destruct (overdue m now); [apply does_bind; [apply does_lread|intros; apply keeps_save]|]. destruct (negb (unprepared m)); [apply does_ret|].
    do 3 (apply does_bind; [apply does_lread|intros ?]). cbv zeta. apply does_bind; [destruct (sr_NeedsSave _); [apply keeps_save|apply does_ret]|intros _].
    destruct (sr_NeedsDNS _); [apply does_emit|apply does_ret].
Qed.
Lemma polled_keeps db db' : polled env db db' → rtc keeps db db'.
Proof. intros []; [apply rtc_refl|..]; apply rtc_once; (split; [by eapply st_status|done]). Qed.
Lemma does_weaken {A} (own own' : Db → Db → Prop) (m : Hd Db loop_event Empty_set A) : (∀ a b, own a b → own' a b) → does (lo_others env) own m → does (lo_others env) own' m.
Proof. intros H Hm st. induction (Hm st) as [s|k s s' _ IH|s s1 s' Hs _ IH]; [apply steps_refl|by eapply steps_others|eapply steps_own; [by apply H|done]]. Qed.
Lemma keeps_round r : does (lo_others env) (rtc keeps) (run_round yamlMarshal env r).
Proof.
  destruct r; [|apply (does_weaken _ _ _ polled_keeps), does_polls; done..]. cbn [run_round]. unfold syncProvisioningStates, list_machines.
  apply does_bind; [apply does_lread|intros [ms|e]; [|apply does_ret]]. apply does_each. intros m _. apply keeps_sync.
Qed.
Lemma background_statements l st : (∀ k db, rtc keeps db (lo_others env k db)) → rtc keeps (hst_store st) (hst_store (run_rounds yamlMarshal env l st).1).
Proof.
  intros Henv. assert (Hd : does (lo_others env) (rtc keeps) (run_rounds yamlMarshal env l)) by (apply does_each; intros; apply keeps_round).
  specialize (Hd st). revert Hd. generalize (hst_store st) (hst_store (run_rounds yamlMarshal env l st).1). intros s s'.
  induction 1 as [s|k s s' _ IH|s s1 s' Hs _ IH]; [apply rtc_refl|..]; etrans; eauto.
Qed.
End statements.

(** ** bootstrap.go *)

(** Everything is created once: what is there already is not touched. *)
Section bootstrap.
Context (env : AuthEnv).

Definition ensureBootstrapAdmin (username password : string) : Hd AuthDb AuthAudit AuthReply (result unit) :=
  let username := TrimSpace username in
  if (username ==? "") && (password ==? "") then mret (Ok tt) else
  if (username ==? "") || (password ==? "") then mret (Err (ErrNew "admin bootstrap requires both username and password")) else
  user ← auth_read env (fun db => GetUser db username);
  match user with
  | Ok _ => mret (Ok tt)
  | Err e => if negb (errors_Is e ErrNotFound) then mret (Err e) else
      k ← tick;
      match ae_generate env k password with
      | Err e => mret (Err e)
      | Ok hash => now ← auth_clock env; _ ← auth_write env (fun db => UpsertUser db (mkUser username hash RoleAdmin now)); mret (Ok tt)
      end
  end.

(** With nothing else running, as at the start of the process. *)
Definition alone : Prop := ∀ k db, ae_others env k db = db.

Lemma users_after db u : au_users (UpsertUser db u) = <[us_Username u := u]> (au_users db).
Proof. done. Qed.
Lemma bootstrap_admin_once username password st : alone → TrimSpace username ≠ "" →
  let r := ensureBootstrapAdmin username password st in
  (∀ u, u ≠ TrimSpace username → au_users (hst_store r.1) !! u = au_users (hst_store st) !! u)
  ∧ (is_Some (au_users (hst_store st) !! TrimSpace username) → au_users (hst_store r.1) = au_users (hst_store st))
  ∧ (r.2 = inl (Ok tt) → ∃ u, au_users (hst_store r.1) !! TrimSpace username = Some u ∧ (au_users (hst_store st) !! TrimSpace username = None → IsAdmin (us_Role u) = true)).
Proof.
  intros Ha Hu r. unfold r, ensureBootstrapAdmin. cbv zeta. rewrite (bool_decide_eq_false_2 (TrimSpace username = "")) by done. cbn [andb orb].
  destruct (password ==? "") eqn:Ep; [by split_and!|]. unfold mbind, Hd_bind, auth_read, auth_write, auth_op, auth_clock, tick, op. unfold mbind, Hd_bind. cbn. rewrite Ha.
  unfold GetUser. destruct (au_users (hst_store st) !! TrimSpace username) as [u|] eqn:E; cbn.
  - split_and!; [done..|]. intros _. by exists u.
  - rewrite bool_decide_eq_true_2 by done. cbn. destruct (ae_generate _ _ _) as [hash|e]; cbn; rewrite ?Ha.
    + rewrite !users_after. split_and!; [|by intros []|]; intros; [by rewrite lookup_insert_ne|]. eexists. by rewrite lookup_insert_eq.
    + by split_and!; [|intros []|].
Qed.
End bootstrap.

(** What the host's network looks like. *)
Record DetectedNetwork := mkDetectedNetwork {
  ni_InterfaceName : string; ni_IPAddress : string; ni_CIDR : string; ni_Gateway : string; ni_DNSServers : list string; ni_SearchDomains : list string }.

(** The description of the first subnet: that of the file, if it can be read and has a
    network, else that of the host's network, else a constant. *)
Definition empty_spec : SubnetSpec := mkSubnetSpec "" "" None "" [] [] 0 [] [] 0 "" [].
Definition loadSubnetSpec (file : result SubnetSpec) (detected : result DetectedNetwork) : SubnetSpec :=
  let fallback :=
    match detected with
    | Ok d => if ni_CIDR d ==? "" then mkSubnetSpec "10.0.0.0/24" "" None "" ["8.8.8.8"] [] 0 [] [] 0 "" []
              else mkSubnetSpec (ni_CIDR d) (ni_InterfaceName d) None (ni_Gateway d) (ni_DNSServers d) (ni_SearchDomains d) 0 [] [] 0 "" []
    | Err _ => mkSubnetSpec "10.0.0.0/24" "" None "" ["8.8.8.8"] [] 0 [] [] 0 "" []
    end in
  match file with Ok spec => if ss_CIDR spec !=? "" then spec else fallback | Err _ => fallback end.

(** The statements may fail; [spec] is what [loadSubnetSpec] gives. *)
Definition ensureDefaultResources (get_fault upsert_fault : option error) (spec : SubnetSpec) (now : Time) (subnets : gmap string Subnet) : gmap string Subnet * result unit :=
  match (match get_fault with Some e => Err e | None => match subnets !! "default" with Some s => Ok s | None => Err ErrNotFound end end) with
  | Ok _ => (subnets, Ok tt)
  | Err e => if negb (errors_Is e ErrNotFound) then (subnets, Err e) else
             match upsert_fault with
             | Some e => (subnets, Err e)
             | None => (<["default" := mkSubnet "default" spec now now]> subnets, Ok tt)
             end
  end.

Lemma default_subnet_once spec now subnets : let '(s, r) := ensureDefaultResources None None spec now subnets in
  r = Ok tt ∧ is_Some (s !! "default") ∧ (is_Some (subnets !! "default") → s = subnets) ∧ delete "default" s = delete "default" subnets.
Proof.
  unfold ensureDefaultResources. destruct (subnets !! "default") eqn:E; cbn.
  - rewrite E. by split_and!; [|eexists|..].
  - rewrite bool_decide_eq_true_2 by done. cbn. rewrite lookup_insert_eq, delete_insert_eq. by split_and!; [|eexists|intros []|].
Qed.

(** ** Runs *)

Definition loop_env (others : nat → Db → Db) : LoopEnv :=
  mkLoopEnv others (fun _ => None) (fun _ => 100) (fun _ => Ok [mkDHCPLease "52:54:00:00:00:01" "10.0.0.7" "" false 0]) (fun _ => Ok []) (fun _ _ => Ok PowerStateRunning) (fun _ => "http://gomi").
Definition blank_yaml (c : config) : result string := Ok "".
Definition late (os : OSPreset) : Machine :=
  demo_machine <| m_OSPreset := os |> <| m_Phase := PhaseProvisioning |>
    <| m_Provision := Some (zero_progress <| pp_Active := true |> <| pp_DeadlineAt := Some 50 |> <| pp_AttemptID := "a1" |> <| pp_CompletionToken := "t1" |>) |>.
Definition completed (m : Machine) : Machine := on_provision (fun p => p <| pp_Active := false |> <| pp_CompletedAt := Some 99 |>) m <| m_Phase := PhaseReady |>.

(** Between the listing and the write, the deployment of a Linux machine completes: the
    round, which writes what it has listed, makes it an error.  The Windows machine's
    completion stays. *)
Definition completes (m : Machine) : nat → Db → Db := fun k db => if (k =? 1)%nat then put_machine db "m1" (completed m) else db.
Definition late_round (os : OSPreset) : Db :=
  hst_store (syncProvisioningStates blank_yaml (loop_env (completes (late os))) (mkHState 0 (mkDb ∅ {["m1" := late os]}) [])).1.
Definition windows_preset : OSPreset := mkOSPreset "windows" "11" "img" ∅.
Lemma stale_timeout_undoes_completion :
  m_Phase <$> db_machines (late_round (m_OSPreset demo_machine)) !! "m1" = Some PhaseError
  ∧ m_Phase <$> db_machines (late_round windows_preset) !! "m1" = Some PhaseReady.
Proof. vm_compute. done. Qed.
(** A machine deleted in between is stored again. *)
Lemma timeout_resurrects_deleted :
  m_Phase <$> db_machines (hst_store (syncProvisioningStates blank_yaml (loop_env (fun k db => if (k =? 1)%nat then mkDb ∅ ∅ else db))
    (mkHState 0 (mkDb ∅ {["m1" := late (m_OSPreset demo_machine)]}) [])).1) !! "m1" = Some PhaseError.
Proof. vm_compute. done. Qed.

(** A DHCP machine gets the leased address and the reported state. *)
Lemma polls_run : (fun m => (m_IP m, m_PowerState m)) <$> db_machines (hst_store (run_rounds blank_yaml (loop_env (fun _ db => db)) [LeaseRound; PowerRound] (mkHState 0 demo1 [])).1) !! "m1"
  = Some ("10.0.0.7", PowerStateRunning).
Proof. vm_compute. done. Qed.

Lemma provisioning_round_reconciles_witness :
  hst_store (syncProvisioningStates blank_yaml (quiet_env 100 [] "http://gomi" (fun _ => Ok []) (fun _ _ => Ok PowerStateRunning)) (mkHState 0 (mkDb ∅ {["m1" := late (m_OSPreset demo_machine)]}) [])).1
  = mkDb ∅ {["m1" := timed_out (late (m_OSPreset demo_machine)) 100]}.
Proof.
  destruct (provisioning_round_reconciles blank_yaml 100 [] "http://gomi" (fun _ => Ok []) (fun _ _ => Ok PowerStateRunning) (mkDb ∅ {["m1" := late (m_OSPreset demo_machine)]})) as (_ & H & _).
  - intros n m. cbn [db_machines]. intros [<- <-]%lookup_singleton_Some. reflexivity.
  - etransitivity; [exact H|]. vm_compute. reflexivity.
Defined.
Lemma polls_keep_to_their_columns_witness :
  steps (fun _ db => db) (polled (loop_env (fun _ db => db))) demo1 (hst_store (run_rounds blank_yaml (loop_env (fun _ db => db)) [LeaseRound; PowerRound] (mkHState 0 demo1 [])).1).
Proof.
  refine (polls_keep_to_their_columns blank_yaml (loop_env (fun _ db => db)) [LeaseRound; PowerRound] _ (mkHState 0 demo1 [])).
  intros r Hr. apply elem_of_cons in Hr as [->|Hr]; [done|]. apply list_elem_of_singleton in Hr as ->. done.
Defined.
