(* ===== verification/ClusterApi.v ===== *)
(** * infra/clusterapi and api/cluster_api.go: the management cluster

    The console shows the Cluster API objects of a Kubernetes management cluster and lets
    an administrator pause a cluster or scale a group of workers.  A change names the
    version of the object its author has seen.  Objects, their fields and the API server
    are the client library's: an object is of any type, with its accessors
    ([Unstructured]), and what the server answers is given by the number of the call. *)
From S2P Require Import Prelude GoStrings GoRegexp Handler.

(** ** Errors *)

Definition ErrConflict : error := ErrNew "resource changed; refresh before retrying".
Definition ErrInvalid : error := ErrNew "invalid Cluster API operation".
(** An error of the service, or the answer of the API server with its reason. *)
Inductive StatusReason : Type := RConflict | RInvalid | RBadRequest | RNotFound | RForbidden | RUnauthorized | ROther.
Global Instance StatusReason_eq_dec : EqDecision StatusReason.
Proof. solve_decision. Defined.
Inductive capi_error : Type := CPlain (e : error) | CStatus (reason : StatusReason) (msg : string).
Definition invalid (msg : string) : capi_error := CPlain (ErrWrap "" ErrInvalid (": " +:+ msg)).
Definition is_reason (r : StatusReason) (e : capi_error) : bool := match e with CStatus r' _ => r' ==? r | CPlain _ => false end.
Definition is_error (target : error) (e : capi_error) : bool := match e with CPlain e => errors_Is e target | CStatus _ _ => false end.
Definition capi_text (e : capi_error) : string := match e with CPlain e => Error e | CStatus _ m => m end.

(** ** What is asked of the API server *)

Record GVR := mkGVR { gvr_Group : string; gvr_Version : string; gvr_Resource : string }.
Global Instance GVR_eq_dec : EqDecision GVR.
Proof. solve_decision. Defined.
Definition gvr (resource version : string) : GVR :=
  mkGVR (if resource ==? "kubeadmcontrolplanes" then "controlplane.cluster.x-k8s.io" else "cluster.x-k8s.io") version resource.
(** One object: its kind, namespace and name. *)
Record Endpoint := mkEndpoint { ep_GVR : GVR; ep_Namespace : string; ep_Name : string }.
Global Instance Endpoint_eq_dec : EqDecision Endpoint.
Proof. solve_decision. Defined.

Inductive patch_value : Type := PText (s : string) | PNumber (n : Z) | PBool (b : bool) | PNone.
Record patchOp := mkPatchOp { po_Op : string; po_Path : string; po_Value : patch_value }.

Record Change := mkChange { ch_APIVersion : string; ch_UID : string; ch_ResourceVersion : string; ch_Replicas : option Z; ch_Paused : option bool }.

Record Condition := mkCondition { co_ObservedGeneration : option Z; co_Type : string; co_Status : string; co_Reason : string; co_Message : string }.
Record Resource := mkResource {
  rs_Generation : Z; rs_Resource : string; rs_APIVersion : string; rs_Namespace : string; rs_Name : string; rs_UID : string; rs_ResourceVersion : string;
  rs_ClusterName : string; rs_Phase : string; rs_Version : string; rs_Replicas : option Z; rs_ReadyReplicas : option Z; rs_Paused : bool; rs_Deleting : bool;
  rs_Topology : bool; rs_Autoscaled : bool; rs_NodeName : string; rs_ProviderID : string; rs_InfrastructureName : string; rs_Conditions : list Condition }.

(** The accessors of an object; the nested ones give nothing for a field that is absent
    or of another type.  The elements of a nested list are the maps among them. *)
Class Unstructured (Obj : Type) := mkUnstructured {
  NestedString : Obj → list string → option string; NestedBool : Obj → list string → option bool; NestedInt64 : Obj → list string → option Z;
  NestedMap : Obj → list string → bool; NestedSlice : Obj → list string → option (list Obj);
  GetGeneration : Obj → Z; GetAPIVersion : Obj → string; SetAPIVersion : Obj → string → Obj; GetNamespace : Obj → string; GetName : Obj → string; GetUID : Obj → string;
  GetResourceVersion : Obj → string; GetDeleting : Obj → bool; GetAnnotations : Obj → gmap string string; GetLabels : Obj → gmap string string }.

Definition clusterLabel : string := "cluster.x-k8s.io/cluster-name".
Definition pausedAnnotation : string := "cluster.x-k8s.io/paused".

Section objects.
Context {Obj : Type} `{U : Unstructured Obj}.

Definition textAt (u : Obj) (fields : list string) : string := default "" (NestedString u fields).
Definition boolAt (u : Obj) (fields : list string) : bool := default false (NestedBool u fields).
Definition numberAt (u : Obj) (fields : list string) : option Z := NestedInt64 u fields.
Definition hasTopology (u : Obj) : bool := NestedMap u ["spec"; "topology"].
Definition annotated (u : Obj) (key : string) : bool := bool_decide (is_Some (GetAnnotations u !! key)).
Definition autoscaled (u : Obj) : bool :=
  existsb (annotated u) ["cluster.x-k8s.io/cluster-api-autoscaler-node-group-min-size"; "cluster.x-k8s.io/cluster-api-autoscaler-node-group-max-size"].
Definition paused (u : Obj) : bool := annotated u pausedAnnotation || boolAt u ["spec"; "paused"].

Definition condition (c : Obj) : Condition :=
  mkCondition (numberAt c ["observedGeneration"]) (textAt c ["type"]) (textAt c ["status"]) (textAt c ["reason"]) (textAt c ["message"]).
Definition summarize (resource : string) (u : Obj) : Resource :=
  let clusterName := textAt u ["spec"; "clusterName"] in
  let clusterName := if clusterName ==? "" then default "" (GetLabels u !! clusterLabel) else clusterName in
  let ready := match numberAt u ["status"; "v1beta2"; "readyReplicas"] with Some n => Some n | None => numberAt u ["status"; "readyReplicas"] end in
  let conditions := match NestedSlice u ["status"; "v1beta2"; "conditions"] with Some l => l | None => default [] (NestedSlice u ["status"; "conditions"]) end in
  mkResource (GetGeneration u) resource (GetAPIVersion u) (GetNamespace u) (GetName u) (GetUID u) (GetResourceVersion u)
    (if resource ==? "clusters" then GetName u else clusterName) (textAt u ["status"; "phase"])
    (if resource ==? "machinedeployments" then textAt u ["spec"; "template"; "spec"; "version"] else textAt u ["spec"; "version"])
    (numberAt u ["spec"; "replicas"]) ready (paused u) (GetDeleting u) (hasTopology u) (autoscaled u) (textAt u ["status"; "nodeRef"; "name"])
    (textAt u ["spec"; "providerID"]) (textAt u ["spec"; "infrastructureRef"; "name"]) (condition <$> conditions).

(** ** client.go: the lists *)

(** The server's answers: an object read, a patch, and a page of a list with the token of
    the next. *)
Record CapiEnv := mkCapiEnv {
  ca_get : nat → Endpoint → Obj + capi_error; ca_patch : nat → Endpoint → list patchOp → Obj + capi_error;
  ca_list : nat → GVR → string → string → (list Obj * string) + capi_error; ca_parseGroupVersion : string → result (string * string); ca_clock : Time }.
Record Service := mkService { sv_namespace : string; sv_context : string }.
Inductive capi_event : Type :=
| EGet (e : Endpoint) (r : Obj + capi_error)
| EPatch (e : Endpoint) (ops : list patchOp) (r : Obj + capi_error)
| EList (g : GVR) (token : string)
| EAudit (name result message : string) (resource : string) (c : Change).

Context (env : CapiEnv) (s : Service).
Local Abbreviation H := (Hd nat capi_event capi_error).

(** The number of the call. *)
Definition next_call : H nat := op (fun _ n => n) (fun n => (S n, n)).
Definition get (e : Endpoint) : H (Obj + capi_error) := k ← next_call; let r := ca_get env k e in _ ← emit (EGet e r); mret r.
Definition patch (e : Endpoint) (ops : list patchOp) : H (Obj + capi_error) := k ← next_call; let r := ca_patch env k e ops in _ ← emit (EPatch e ops r); mret r.
Definition list_page (g : GVR) (token : string) : H ((list Obj * string) + capi_error) :=
  k ← next_call; _ ← emit (EList g token); mret (ca_list env k g (sv_namespace s) token).
Definition or_fail {A} (x : A + capi_error) : H A := match x with inl a => mret a | inr e => answer_with e end.
Definition demand (b : bool) (e : capi_error) : H unit := must b e.

Definition group_version (g : GVR) : string := gvr_Group g +:+ "/" +:+ gvr_Version g.
Definition with_version (g : GVR) (o : Obj) : Obj := if GetAPIVersion o ==? "" then SetAPIVersion o (group_version g) else o.

(** One version: pages until a token is empty; [None] when the version is not served.
    The rounds bound the number of pages. *)
Fixpoint pages (rounds : nat) (g : GVR) (token : string) (acc : list Obj) : H (option (list Obj)) :=
  match rounds with
  | O => answer_with (CPlain ErrDeadlineExceeded)
  | S n =>
      r ← list_page g token;
      match r with
      | inr e => match e with
                 | CStatus RNotFound _ => mret None
                 | CStatus r m => answer_with (CStatus r ("list " +:+ gvr_Resource g +:+ ": " +:+ m))
                 | CPlain e => answer_with (CPlain (ErrWrap ("list " +:+ gvr_Resource g +:+ ": ") e ""))
                 end
      | inl (items, token) =>
          let acc := acc ++ (with_version g <$> items) in
          if token ==? "" then mret (Some acc) else pages n g token acc
      end
  end.
Fixpoint list_versions (rounds : nat) (resource : string) (versions : list string) : H (list Obj) :=
  match versions with
  | [] => answer_with (CStatus RNotFound "not found")
  | v :: versions =>
      r ← pages rounds (gvr resource v) "" [];
      match r with Some l => mret l | None => list_versions rounds resource versions end
  end.
Definition list_ (rounds : nat) (resource : string) : H (list Obj) := list_versions rounds resource ["v1beta2"; "v1beta1"].

Record Snapshot := mkSnapshot { ss_Configured : bool; ss_Context : string; ss_Namespace : string; ss_ObservedAt : Time; ss_Resources : list Resource }.
Fixpoint snapshot_kinds (rounds : nat) (kinds : list string) (acc : list Resource) : H (list Resource) :=
  match kinds with
  | [] => mret acc
  | kind :: kinds =>
      items ← (fun st => match list_ rounds kind st with
                         | (st', inl l) => (st', inl l)
                         | (st', inr e) => if (kind ==? "kubeadmcontrolplanes") && is_reason RNotFound e then (st', inl []) else (st', inr e)
                         end) : H (list Obj);
      snapshot_kinds rounds kinds (acc ++ (summarize kind <$> items))
  end.
Definition Service_Snapshot (rounds : nat) : H Snapshot :=
  resources ← snapshot_kinds rounds ["clusters"; "machinedeployments"; "machines"; "kubeadmcontrolplanes"] [];
  mret (mkSnapshot true (sv_context s) (sv_namespace s) (ca_clock env) resources).

(** ** operations.go *)

Definition name_end (c : ascii) : bool := let n := N_of_ascii c in ((97 <=? n) && (n <=? 122) || (48 <=? n) && (n <=? 57))%N.
Definition name_middle (c : ascii) : bool := name_end c || (c ==? "-"%char) || (c ==? "."%char).
Definition validName : regexp := Cat (Cls name_end) (Opt (Cat (Star (Cls name_middle)) (Cls name_end))).

(** What is refused before the server is asked; else the version of the kind. *)
Definition validate_change (namespace resource name : string) (c : Change) : string + capi_error :=
  if negb (MatchString validName namespace) || negb (MatchString validName name) || (63 <? Z.of_nat (String.length namespace))
     || (253 <? Z.of_nat (String.length name)) || ((sv_namespace s !=? "") && (sv_namespace s !=? namespace))
  then inr (invalid "invalid namespace or name") else
  if (resource !=? "clusters") && (resource !=? "machinedeployments") then inr (invalid "unsupported resource") else
  match ca_parseGroupVersion env (ch_APIVersion c) with
  | Ok (group, version) =>
      if (group !=? "cluster.x-k8s.io") || ((version !=? "v1beta2") && (version !=? "v1beta1")) || (ch_UID c ==? "") || (ch_ResourceVersion c ==? "")
      then inr (invalid "API version, UID and resourceVersion are required") else
      if bool_decide (ch_Paused c = None) ==? bool_decide (ch_Replicas c = None) then inr (invalid "supply exactly one of paused or replicas") else
      if bool_decide (is_Some (ch_Paused c)) && (resource !=? "clusters") then inr (invalid "pause and resume are supported on Clusters") else
      match ch_Replicas c with
      | Some n => if (resource !=? "machinedeployments") || (n <? 0) || (2147483647 <? n)
                  then inr (invalid "replicas must be a non-negative int32 on a MachineDeployment") else inl version
      | None => inl version
      end
  | Err _ => inr (invalid "API version, UID and resourceVersion are required")
  end.

Definition allowScale (md : Obj) (version : string) : H unit :=
  _ ← must (negb (paused md || autoscaled md)) (invalid "worker group is paused or managed by an autoscaler");
  let clusterName := textAt md ["spec"; "clusterName"] in
  _ ← must (clusterName !=? "") (invalid "missing clusterName");
  r ← get (mkEndpoint (gvr "clusters" version) (GetNamespace md) clusterName);
  cluster ← or_fail r;
  _ ← must (negb (paused cluster || GetDeleting cluster)) (invalid "cluster is paused or deleting");
  must (negb (hasTopology cluster)) (invalid "scale this worker group through Cluster topology").

(** The JSON patch: two tests, then what is changed. *)
Definition guards (c : Change) : list patchOp :=
  [mkPatchOp "test" "/metadata/uid" (PText (ch_UID c)); mkPatchOp "test" "/metadata/resourceVersion" (PText (ch_ResourceVersion c))].
Definition changes (c : Change) (current : Obj) : list patchOp :=
  match ch_Replicas c with Some n => [mkPatchOp "add" "/spec/replicas" (PNumber n)] | None => [] end
  ++ match ch_Paused c with
     | Some b => mkPatchOp "add" "/spec/paused" (PBool b)
                   :: (if negb b && annotated current pausedAnnotation then [mkPatchOp "remove" "/metadata/annotations/cluster.x-k8s.io~1paused" PNone] else [])
     | None => []
     end.
Definition same_version (c : Change) (o : Obj) : bool := (GetUID o ==? ch_UID c) && (GetResourceVersion o ==? ch_ResourceVersion c).

Definition Service_Change (namespace resource name : string) (c : Change) : H Resource :=
  version ← or_fail (validate_change namespace resource name c);
  let e := mkEndpoint (gvr resource version) namespace name in
  r ← get e;
  current ← or_fail r;
  _ ← must (same_version c current) (CPlain ErrConflict);
  _ ← must (negb (GetDeleting current)) (invalid "resource is deleting");
  _ ← match ch_Replicas c with Some _ => allowScale current version | None => mret tt end;
  r ← patch e (guards c ++ changes c current);
  match r with
  | inl updated => mret (summarize resource updated)
  | inr err =>
      if is_reason RInvalid err then
        again ← get e;
        match again with
        | inl latest => answer_with (if negb (same_version c latest) then CPlain ErrConflict else err)
        | inr _ => answer_with err
        end
      else answer_with err
  end.

(** ** api/cluster_api.go *)

Definition clusterAPIError (e : capi_error) : Z * string :=
  if is_error ErrConflict e || is_reason RConflict e then (409, "Resource changed. Refresh and review the change again.")
  else if is_error ErrInvalid e then (400, capi_text e)
  else if is_reason RInvalid e || is_reason RBadRequest e then (400, "Management cluster rejected the change. Refresh and review the resource before retrying.")
  else if is_reason RNotFound e then (404, "Cluster API resource or CRD was not found")
  else if is_reason RForbidden e || is_reason RUnauthorized e then (403, "Management-cluster credentials do not permit this operation")
  else (502, "Cluster API management request failed; check connectivity, installed CRDs and Kubernetes RBAC").

Inductive capi_body : Type := BSnapshot (x : Snapshot) | BResource (r : Resource) | BError (msg : string).
Record CapiReply := mkCapiReply { cr_Status : Z; cr_Body : capi_body }.
Definition failed (e : capi_error) : CapiReply := let '(status, msg) := clusterAPIError e in mkCapiReply status (BError msg).
(** A handler without early answers. *)
Local Abbreviation R := (Hd nat capi_event Empty_set).
Definition attempt {A} (m : H A) : R (A + capi_error) := fun st => let '(st, r) := m st in (st, inl r).

Definition ListClusterAPI (configured : bool) (rounds : nat) : R CapiReply :=
  if negb configured then mret (mkCapiReply 200 (BSnapshot (mkSnapshot false "" "" 0 []))) else
  r ← attempt (Service_Snapshot rounds);
  mret match r with inl x => mkCapiReply 200 (BSnapshot x) | inr e => failed e end.

(** The body: what the decoder makes of it, and whether nothing follows. *)
Definition ChangeClusterAPI (configured : bool) (body : option (Change * bool)) (namespace resource name : string) : R CapiReply :=
  if negb configured then mret (mkCapiReply 503 (BError "Cluster API management connection is not configured")) else
  match body with
  | None => mret (mkCapiReply 400 (BError "invalid Cluster API change"))
  | Some (_, false) => mret (mkCapiReply 400 (BError "expected a single change"))
  | Some (c, true) =>
      let target := "cluster-api/" +:+ namespace +:+ "/" +:+ name in
      r ← attempt (Service_Change namespace resource name c);
      match r with
      | inr e => _ ← emit (EAudit target "failure" (capi_text e) resource c); mret (failed e)
      | inl x => _ ← emit (EAudit target "success" "Desired state updated; reconciliation is asynchronous" resource c); mret (mkCapiReply 200 (BResource x))
      end
  end.

(** ** Lists are complete *)

(** What a server with pages lists from a token on, and in how many pages. *)
Inductive served (g : GVR) : string → list Obj → nat → Prop :=
| served_last t items : (∀ k, ca_list env k g (sv_namespace s) t = inl (items, "")) → served g t (with_version g <$> items) 1
| served_more t items t' rest n : t' ≠ "" → (∀ k, ca_list env k g (sv_namespace s) t = inl (items, t')) → served g t' rest n →
    served g t ((with_version g <$> items) ++ rest) (S n).

(** As many rounds as there are pages are enough, and every object is in the list. *)
Lemma pages_complete g t l n : served g t l n → ∀ rounds acc st, (n <= rounds)%nat → ∃ st', pages rounds g t acc st = (st', inl (Some (acc ++ l))).
Proof.
  induction 1 as [t items Hk|t items t' rest n Ht Hk Hs IH]; intros [|rounds] acc st Hr; [lia| |lia|]; cbn [pages];
    unfold list_page, next_call, mbind, Hd_bind, op, emit, mret, Hd_ret; cbn; rewrite Hk.
  - rewrite bool_decide_eq_true_2 by done. by eexists.
  - rewrite bool_decide_eq_false_2 by done. rewrite app_assoc. apply IH. lia.
Qed.

(** ** What is patched *)

Definition patches (l : list capi_event) : list (Endpoint * list patchOp * (Obj + capi_error)) :=
  omap (fun ev => match ev with EPatch e ops r => Some (e, ops, r) | _ => None end) l.
Lemma patches_app a b : patches (a ++ b) = patches a ++ patches b.
Proof. apply omap_app. Qed.
Lemma patches_cons e ops r l : patches (EPatch e ops r :: l) = (e, ops, r) :: patches l.
Proof. done. Qed.

(** A worker group may be scaled, as what was read says. *)
Definition scalable (seen : list capi_event) (version : string) (md : Obj) : Prop :=
  paused md = false ∧ autoscaled md = false ∧ ∃ cluster, EGet (mkEndpoint (gvr "clusters" version) (GetNamespace md) (textAt md ["spec"; "clusterName"])) (inl cluster) ∈ seen
    ∧ paused cluster = false ∧ GetDeleting cluster = false ∧ hasTopology cluster = false.
(** The object a change was computed for. *)
Definition reviewed (seen : list capi_event) (e : Endpoint) (c : Change) (o : Obj) : Prop :=
  EGet e (inl o) ∈ seen ∧ same_version c o = true ∧ GetDeleting o = false ∧ (ch_Replicas c ≠ None → scalable seen (gvr_Version (ep_GVR e)) o).

Lemma logs_get_object e : logs (get e) (fun evs r => ∃ x, evs = [EGet e x] ∧ r = Some x).
Proof. intros st. eexists. split; [reflexivity|]. by eexists. Qed.
Lemma logs_patch e ops : logs (patch e ops) (fun evs r => ∃ x, evs = [EPatch e ops x] ∧ r = Some x).
Proof. intros st. eexists. split; [reflexivity|]. by eexists. Qed.
Lemma logs_must b e : logs (must b e : H unit) (fun evs r => evs = [] ∧ (r = Some tt → b = true)).
Proof. intros st. exists []. rewrite app_nil_r. by destruct b. Qed.
Lemma logs_or_fail {A} (x : A + capi_error) : logs (or_fail x) (fun evs r => evs = [] ∧ (∀ a, r = Some a → x = inl a)).
Proof. intros st. exists []. rewrite app_nil_r. destruct x; split_and!; try done. by intros ? [= <-]. Qed.

Lemma logs_scale md version : logs (allowScale md version) (fun evs r => patches evs = [] ∧ (r = Some tt → scalable evs version md)).
Proof.
  intros st. unfold allowScale, get, next_call, or_fail. unfold mbind, Hd_bind, must, mret, Hd_ret, answer_with, op, emit. 
  destruct (paused md || autoscaled md) eqn:E1; cbn; [by exists []; rewrite app_nil_r|].
  destruct (_ ==? "") eqn:E2; cbn; [by exists []; rewrite app_nil_r|].
  set (e := mkEndpoint _ _ _). destruct (ca_get env (hst_store st) e) as [cluster|err] eqn:E3; cbn; [|by exists [EGet e (inr err)]].
  exists [EGet e (inl cluster)]. apply orb_false_iff in E1 as [P1 P2].
  destruct (paused cluster || GetDeleting cluster) eqn:E4; cbn; [by split_and!|]. apply orb_false_iff in E4 as [P3 P4].
  destruct (hasTopology cluster) eqn:E5; cbn; [by split_and!|]. split_and!; [done..|]. intros _. split_and!; [done..|]. exists cluster. split_and!; [by left|done..].
Qed.

(** One patch at most, sent after the reads that allow it; what the request answers is
    the object the patch gave. *)
Definition guarded_change (namespace resource name : string) (c : Change) (evs : list capi_event) (r : option Resource) : Prop :=
  (patches evs = [] ∧ r = None) ∨
  ∃ pre version o ans post, evs = pre ++ EPatch (mkEndpoint (gvr resource version) namespace name) (guards c ++ changes c o) ans :: post
    ∧ patches pre = [] ∧ patches post = [] ∧ validate_change namespace resource name c = inl version ∧ reviewed pre (mkEndpoint (gvr resource version) namespace name) c o
    ∧ r = match ans with inl updated => Some (summarize resource updated) | inr _ => None end.

Lemma logs_patched namespace resource name c version o pre : validate_change namespace resource name c = inl version → patches pre = [] →
  reviewed pre (mkEndpoint (gvr resource version) namespace name) c o → let e := mkEndpoint (gvr resource version) namespace name in
  logs (r ← patch e (guards c ++ changes c o);
        match r with
        | inl updated => mret (summarize resource updated)
        | inr err => if is_reason RInvalid err then again ← get e;
                        match again with
                        | inl latest => answer_with (if negb (same_version c latest) then CPlain ErrConflict else err)
                        | inr _ => answer_with err
                        end
                     else answer_with err
        end) (fun evs r => guarded_change namespace resource name c (pre ++ evs) r).
Proof.
  intros Hv Hp Hr e. eapply (logs_bind _ _ _ (fun ans evs r => patches evs = [] ∧ r = match ans with inl updated => Some (summarize resource updated) | inr _ => None end)).
  - apply logs_patch.
  - intros [u|err]; [eapply logs_impl; [apply logs_ret|]; by intros ? ? [-> ->]|]. destruct (is_reason RInvalid err).
    + eapply (logs_bind _ _ _ (fun _ evs r => evs = [] ∧ r = None)); [apply logs_get_object|..].
      * intros [latest|e']; intros st; exists []; by rewrite app_nil_r.
      * by intros ? (x & _ & ?).
      * by intros ? a ? ? (x & -> & _) [-> ->].
    + intros st. exists []. by rewrite app_nil_r.
  - by intros ? (x & _ & ?).
  - intros ? ans evs r (x & -> & [= ->]) [Hpost ->]. right. exists pre, version, o, x, evs. by split_and!.
Qed.

(** What has been logged before goes into what is shown of the rest. *)
Lemma logs_after {A B} (G : list capi_event → option B → Prop) pre (m : H A) (f : A → H B) P : logs m P → (∀ e, P e None → G (pre ++ e) None) →
  (∀ e a, P e (Some a) → logs (f a) (fun evs r => G ((pre ++ e) ++ evs) r)) → logs (m ≫= f) (fun evs r => G (pre ++ evs) r).
Proof.
  intros Hm HN HS st. unfold mbind, Hd_bind. destruct (Hm st) as (e1 & E1 & P1). destruct (m st) as [st1 [a|x]]; cbn in *; [|exists e1; split; [done|by apply HN]].
  destruct (HS e1 a P1 st1) as (e2 & E2 & P2). exists (e1 ++ e2). split; [by rewrite E2, E1, app_assoc|by rewrite app_assoc].
Qed.

Lemma change_guarded namespace resource name c : logs (Service_Change namespace resource name c) (guarded_change namespace resource name c).
Proof.
  unfold Service_Change. set (G := guarded_change namespace resource name c).
  apply (logs_after G [] _ _ _ (logs_or_fail _)); [by intros e [-> _]; left|]. intros e0 version [-> Hv]. specialize (Hv _ eq_refl). cbv zeta.
  set (e := mkEndpoint (gvr resource version) namespace name).
  eapply (logs_after G _ _ _ _ (logs_get_object e)); [by intros x (a & _ & ?)|]. intros e1 r (a & -> & [= <-]).
  eapply (logs_after G _ _ _ _ (logs_or_fail _)); [by intros x [-> _]; left|]. intros e2 current [-> Hc]. specialize (Hc _ eq_refl). subst r.
  eapply (logs_after G _ _ _ _ (logs_must _ _)); [by intros x [-> _]; left|]. intros e3 [] [-> Hs]. specialize (Hs eq_refl).
  eapply (logs_after G _ _ _ _ (logs_must _ _)); [by intros x [-> _]; left|]. intros e4 [] [-> Hd]. specialize (Hd eq_refl). apply negb_true_iff in Hd.
  eapply (logs_after G _ _ _ (fun evs r => patches evs = [] ∧ (r = Some tt → ch_Replicas c ≠ None → scalable evs version current))).
  - destruct (ch_Replicas c); [eapply logs_impl; [apply logs_scale|]; intros x r [? Hx]; split; [done|intros Hr _; by apply Hx]|].
    eapply logs_impl; [apply logs_ret|]. by intros x r [-> _].
  - intros x [Hx _]. left. by rewrite !patches_app, Hx.
  - intros e5 [] [Hx Hscale]. apply (logs_patched namespace resource name c version current); [done|by rewrite !patches_app, Hx|].
    split; [by left|]. split; [done|]. split; [done|]. intros Hr. destruct (Hscale eq_refl Hr) as (H1 & H2 & cl & H3 & H4). split; [done|]. split; [done|].
    exists cl. split; [|done]. cbn. right. exact H3.
Qed.
End objects.

(** What passes the tests: exactly one kind of change, on the kind of object it is for. *)
Lemma validated {Obj} `{U : Unstructured Obj} env s namespace resource name c version : validate_change (Obj := Obj) env s namespace resource name c = inl version →
  version ∈ ["v1beta2"; "v1beta1"] ∧ ch_UID c ≠ "" ∧ ch_ResourceVersion c ≠ "" ∧ (sv_namespace s = "" ∨ sv_namespace s = namespace)
  ∧ ((resource = "clusters" ∧ ch_Replicas c = None ∧ is_Some (ch_Paused c))
     ∨ (resource = "machinedeployments" ∧ ch_Paused c = None ∧ ∃ n, ch_Replicas c = Some n ∧ 0 <= n <= 2147483647)).
Proof.
  unfold validate_change. intros H.
  repeat match type of H with
  | (if ?b then inr _ else _) = _ => let E := fresh "E" in destruct b eqn:E; [done|]
  | match ca_parseGroupVersion env ?x with _ => _ end = _ => destruct (ca_parseGroupVersion env x) as [[group v]|e]; [|done]
  end.
  destruct (ch_Replicas c) as [n|] eqn:Er; [destruct (_ || _) eqn:E4 in H; [done|]|]; injection H as ->;
    rewrite ?orb_false_iff, ?andb_false_iff, ?negb_false_iff, ?bool_decide_eq_true, ?bool_decide_eq_false in *.
  - destruct E as [_ Hns], E1 as [[[_ Hver] Hu] Hv], E4 as [[Hr H1%Z.ltb_ge] H2%Z.ltb_ge]. split_and!; [destruct Hver as [-> | ->]; set_solver|done..|].
    right. split; [done|]. split; [by apply dec_stable|]. exists n. by split.
  - destruct E as [_ Hns], E1 as [[[_ Hver] Hu] Hv]. assert (Hp : is_Some (ch_Paused c)) by (destruct (ch_Paused c); [by eexists|done]).
    split_and!; [destruct Hver as [-> | ->]; set_solver|done..|]. left. by destruct E3 as [?|?].
Qed.

Lemma reviewed_app {Obj} `{U : Unstructured Obj} pre post e c o : reviewed (Obj := Obj) pre e c o → reviewed (pre ++ post) e c o.
Proof.
  intros (H1 & H2 & H3 & H4). split; [apply elem_of_app; by left|]. split; [done|]. split; [done|]. intros Hr. destruct (H4 Hr) as (H5 & H6 & cl & H7 & H8).
  split; [done|]. split; [done|]. exists cl. split; [apply elem_of_app; by left|done].
Qed.

(** ** The change and the state it meets *)

Section semantics.
(** How the server applies a JSON patch: as a whole, and only when its tests hold. *)
Context {Obj : Type} `{U : Unstructured Obj} (apply_patch : list patchOp → Obj → option Obj).
Hypothesis tests_uid : ∀ ops o o' v, apply_patch ops o = Some o' → mkPatchOp "test" "/metadata/uid" (PText v) ∈ ops → GetUID o = v.
Hypothesis tests_version : ∀ ops o o' v, apply_patch ops o = Some o' → mkPatchOp "test" "/metadata/resourceVersion" (PText v) ∈ ops → GetResourceVersion o = v.

(** Whatever the API server answers, a request to change an object of the management
    cluster sends at most one patch.  It sends one only for a request that names one
    supported change of the right kind of object, after reading the object in exactly
    the version its author reviewed, finding it is not being deleted and, for a change of
    the number of workers, that neither the group nor its cluster is paused, managed by
    an autoscaler or a topology.  The patch sets the one field asked for, removing a
    legacy pause mark on resume, and since the server applies it only to an object that
    passes its tests, it meets no other version than the reviewed one.  The answer is the
    object the patch gave; without a patch the request fails. *)
Theorem change_meets_reviewed_version (env : CapiEnv (Obj := Obj)) (s : Service) namespace resource name (c : Change) (st : HState nat capi_event) :
  let run := Service_Change env s namespace resource name c st in
  ∃ evs, hst_log run.1 = hst_log st ++ evs ∧
  ((patches evs = [] ∧ ∀ x, run.2 ≠ inl x) ∨
   ∃ version o ans, let e := mkEndpoint (gvr resource version) namespace name in
     patches evs = [(e, guards c ++ changes c o, ans)] ∧ validate_change env s namespace resource name c = inl version ∧ reviewed evs e c o
     ∧ (∀ x, run.2 = inl x ↔ ∃ updated, ans = inl updated ∧ x = summarize resource updated)
     ∧ ∀ live live', apply_patch (guards c ++ changes c o) live = Some live' → GetUID live = GetUID o ∧ GetResourceVersion live = GetResourceVersion o).
Proof.
  intros run. destruct (change_guarded env s namespace resource name c st) as (evs & Hlog & Hg). exists evs. split; [exact Hlog|].
  change (Service_Change env s namespace resource name c st) with run in Hg. destruct Hg as [[Hp Hr]|(pre & version & o & ans & post & -> & Hpre & Hpost & Hv & Hrev & Hr)].
  - left. split; [done|]. intros x Hx. by rewrite Hx in Hr.
  - right. exists version, o, ans. cbv zeta. split_and!; [|done|by apply reviewed_app| |].
    + by rewrite patches_app, Hpre, patches_cons, Hpost.
    + intros x. revert Hr. destruct run.2 as [y|e], ans as [u|err]; intros Hr; try discriminate Hr.
      * injection Hr as ->. split; [intros [= <-]; by exists u|by intros (? & [= <-] & ->)].
      * split; [discriminate|intros (? & Hx & _); discriminate Hx].
    + intros live live' Ha. destruct Hrev as (_ & Hs & _). unfold same_version in Hs. apply andb_true_iff in Hs as [->%bool_decide_eq_true ->%bool_decide_eq_true].
      split; [eapply tests_uid|eapply tests_version]; [exact Ha| |exact Ha|]; apply elem_of_app; left; unfold guards; [left|right; left].
Qed.
End semantics.

(** ** A run *)

(** A group of workers is scaled; the server applies the two operations it knows. *)
Record DemoObject := mkDemoObject { do_UID : string; do_Version : string; do_Replicas : Z; do_Annotations : gmap string string }.
Definition Demo : Unstructured DemoObject :=
  mkUnstructured _ (fun _ p => if bool_decide (p = ["spec"; "clusterName"]) then Some "prod" else None) (fun _ _ => None)
    (fun o p => if bool_decide (p = ["spec"; "replicas"]) then Some (do_Replicas o) else None) (fun _ _ => false) (fun _ _ => None) (fun _ => 1) (fun _ => "v1") (fun o _ => o)
    (fun _ => "lab") (fun _ => "workers") do_UID do_Version (fun _ => false) do_Annotations (fun _ => ∅).
Definition demo_test (o : DemoObject) (p : patchOp) : bool :=
  match po_Op p, po_Path p, po_Value p with
  | "test", "/metadata/uid", PText v => do_UID o ==? v
  | "test", "/metadata/resourceVersion", PText v => do_Version o ==? v
  | _, _, _ => true
  end.
Definition demo_effect (o : DemoObject) (p : patchOp) : DemoObject :=
  match po_Path p, po_Value p with
  | "/spec/replicas", PNumber n => mkDemoObject (do_UID o) (do_Version o) n (do_Annotations o)
  | _, _ => o
  end.
Definition demo_apply (ops : list patchOp) (o : DemoObject) : option DemoObject := if forallb (demo_test o) ops then Some (foldl demo_effect o ops) else None.
Lemma demo_tests ops o o' p : demo_apply ops o = Some o' → p ∈ ops → demo_test o p = true.
Proof. unfold demo_apply. destruct (forallb _ ops) eqn:E; [|done]. intros _ Hp. rewrite forallb_forall in E. apply E. by apply list_elem_of_In. Qed.
Definition workers : DemoObject := mkDemoObject "u1" "7" 2 ∅.
Definition demo_server : CapiEnv (Obj := DemoObject) :=
  mkCapiEnv (fun _ _ => inl workers) (fun _ _ ops => match demo_apply ops workers with Some o => inl o | None => inr (CStatus RInvalid "test failed") end)
    (fun _ _ _ _ => inl ([], "")) (fun s => if s ==? "cluster.x-k8s.io/v1beta1" then Ok ("cluster.x-k8s.io", "v1beta1") else Err (ErrNew "unexpected GroupVersion string")) 0.
Definition demo_change : Change := mkChange "cluster.x-k8s.io/v1beta1" "u1" "7" (Some 5) None.
Definition demo_scale := @Service_Change DemoObject Demo demo_server (mkService "" "") "lab" "machinedeployments" "workers" demo_change (mkHState 0%nat 0%nat []).

Lemma demo_scaled : rs_Replicas <$> (match demo_scale.2 with inl x => Some x | inr _ => None end) = Some (Some 5).
Proof. vm_compute. reflexivity. Qed.


Lemma change_meets_reviewed_version_witness : ∃ o ans,
  patches (hst_log demo_scale.1) = [(mkEndpoint (gvr "machinedeployments" "v1beta1") "lab" "workers", guards demo_change ++ @changes DemoObject Demo demo_change o, ans)]
  ∧ ∀ live live', demo_apply (guards demo_change ++ @changes DemoObject Demo demo_change o) live = Some live' → do_Version live = do_Version o.
Proof.
  destruct (@change_meets_reviewed_version DemoObject Demo demo_apply) with (env := demo_server) (s := mkService "" "") (namespace := "lab") (resource := "machinedeployments") (name := "workers")
    (c := demo_change) (st := mkHState (S := nat) (E := @capi_event DemoObject) 0%nat 0%nat []) as (evs & Hlog & H).
  - intros ops o o' v Ha Hin. apply (demo_tests _ _ _ _ Ha), bool_decide_eq_true in Hin. exact Hin.
  - intros ops o o' v Ha Hin. apply (demo_tests _ _ _ _ Ha), bool_decide_eq_true in Hin. exact Hin.
  - cbn [hst_log app] in Hlog. destruct H as [[_ H]|(version & o & ans & Hp & Hv & _ & _ & Ha)].
    + exfalso. destruct demo_scale.2 as [x|e] eqn:E; [by apply (H x)|]. pose proof demo_scaled as Hs. rewrite E in Hs. discriminate.
    + exists o, ans. assert (version = "v1beta1") as -> by (vm_compute in Hv; congruence). split; [unfold demo_scale; rewrite Hlog; exact Hp|].
      intros live live' Hl. exact (proj2 (Ha live live' Hl)).
Defined.
