(* ===== verification/VmSql.v ===== *)
(** * infra/sql: the table of virtual machines

    vm_store.go and the virtual machines' half of provisioning_attempt.go: the store the
    server runs with.  A row has columns for the name, the hypervisor and two dates, and
    two JSON documents.  Documents and their encoding are package json's, a parameter
    with the laws [JsonColumns]; a query is what its text says of the rows.  The theorems
    of VmStore.v and of its clients are about the in-memory store; here the service is
    shown to answer the same over the table. *)
From S2P Require Import Prelude GoStrings Resource Store Hypervisor Vm VmStore.

(** ** The two documents *)

Record vmSpecJSON := mkVmSpecJSON {
  sj_Resources : ResourceSpec; sj_OSImageRef : string; sj_CloudInitRef : string; sj_CloudInitRefs : list string; sj_Network : list NetworkInterface;
  sj_IPAssignment : IPAssignmentMode; sj_SubnetRef : string; sj_Domain : string; sj_InstallCfg : option InstallConfig; sj_PowerControlMethod : string;
  sj_AdvancedOptions : option AdvancedOptions; sj_SSHKeyRefs : list string; sj_LoginUser : option LoginUserSpec }.
Record vmStatusJSON := mkVmStatusJSON {
  tj_Phase : Phase; tj_LibvirtDomain : string; tj_HypervisorName : string; tj_IPAddresses : list string; tj_NetworkInterfaces : list NetworkInterfaceStatus;
  tj_Provisioning : ProvisioningStatus; tj_LastPowerAction : string; tj_LastDeployedCloudInitRef : string; tj_LastError : string; tj_MissingSince : option Time;
  tj_CreatedOnHost : string }.

Definition spec_of (v : VirtualMachine) : vmSpecJSON :=
  mkVmSpecJSON (v_Resources v) (v_OSImageRef v) (v_CloudInitRef v) (v_CloudInitRefs v) (v_Network v) (v_IPAssignment v) (v_SubnetRef v) (v_Domain v) (v_InstallCfg v)
    (v_PowerControlMethod v) (v_AdvancedOptions v) (v_SSHKeyRefs v) (v_LoginUser v).
Definition status_of (v : VirtualMachine) : vmStatusJSON :=
  mkVmStatusJSON (v_Phase v) (v_LibvirtDomain v) (v_HypervisorName v) (v_IPAddresses v) (v_NetworkInterfaces v) (v_Provisioning v) (v_LastPowerAction v)
    (v_LastDeployedCloudInitRef v) (v_LastError v) (v_MissingSince v) (v_CreatedOnHost v).
Definition vm_of (name hypervisorRef : string) (x : vmSpecJSON) (y : vmStatusJSON) (created updated : Time) : VirtualMachine :=
  mkVirtualMachine name hypervisorRef (sj_Resources x) (sj_OSImageRef x) (sj_CloudInitRef x) (sj_CloudInitRefs x) (sj_Network x) (sj_IPAssignment x) (sj_SubnetRef x)
    (sj_Domain x) (sj_InstallCfg x) (sj_PowerControlMethod x) (sj_AdvancedOptions x) (sj_SSHKeyRefs x) (sj_LoginUser x) (tj_Phase y) (tj_LibvirtDomain y) (tj_HypervisorName y)
    (tj_IPAddresses y) (tj_NetworkInterfaces y) (tj_Provisioning y) (tj_LastPowerAction y) (tj_LastDeployedCloudInitRef y) (tj_LastError y) (tj_MissingSince y)
    (tj_CreatedOnHost y) created updated.
Lemma vm_of_columns v : vm_of (v_Name v) (v_HypervisorRef v) (spec_of v) (status_of v) (v_CreatedAt v) (v_UpdatedAt v) = v.
Proof. by destruct v. Qed.

(** Package json: encoding may fail; what was encoded is read back, and the database finds
    the token of the window in it. *)
Record Json (J : Type) := mkJson {
  marshalSpec : vmSpecJSON → result J; unmarshalSpec : J → result vmSpecJSON;
  marshalStatus : vmStatusJSON → result J; unmarshalStatus : J → result vmStatusJSON; completionToken : J → option string }.
Arguments marshalSpec {J}. Arguments unmarshalSpec {J}. Arguments marshalStatus {J}. Arguments unmarshalStatus {J}. Arguments completionToken {J}.
Class JsonColumns {J : Type} (j : Json J) : Prop := {
  json_spec x d : marshalSpec j x = Ok d → unmarshalSpec j d = Ok x;
  json_status y d : marshalStatus j y = Ok d → unmarshalStatus j d = Ok y;
  json_token y d : marshalStatus j y = Ok d → default "" (completionToken j d) = ps_CompletionToken (tj_Provisioning y) }.

Section sql.
Context {J : Type} `{EqDecision J} (j : Json J).

Record vm_row := mkVmRow { vr_name : string; vr_hypervisor_ref : string; vr_spec : J; vr_status : J; vr_created_at : Time; vr_updated_at : Time }.
Global Instance vm_row_keyed : Keyed vm_row := vr_name.
Local Abbreviation table := (gmap string vm_row).

Definition marshalVMColumns (v : VirtualMachine) : result (J * J) := sp ← marshalSpec j (spec_of v); st ← marshalStatus j (status_of v); Ok (sp, st).
Definition scanVMRow (r : vm_row) : result VirtualMachine :=
  x ← unmarshalSpec j (vr_spec r); y ← unmarshalStatus j (vr_status r);
  Ok (vm_of (vr_name r) (vr_hypervisor_ref r) x y (vr_created_at r) (vr_updated_at r)).
Definition new_row (v : VirtualMachine) (c : J * J) : vm_row := mkVmRow (v_Name v) (v_HypervisorRef v) c.1 c.2 (v_CreatedAt v) (v_UpdatedAt v).
(** [SET hypervisor_ref, spec, status, updated_at] of a row. *)
Definition updated_row (old : vm_row) (v : VirtualMachine) (c : J * J) : vm_row := mkVmRow (vr_name old) (v_HypervisorRef v) c.1 c.2 (vr_created_at old) (v_UpdatedAt v).

Fixpoint scan_rows (l : list vm_row) : result (list VirtualMachine) :=
  match l with [] => Ok [] | r :: l => v ← scanVMRow r; vs ← scan_rows l; Ok (v :: vs) end.

Definition sql_Upsert (t : table) (v : VirtualMachine) : result table :=
  c ← marshalVMColumns v;
  Ok (<[v_Name v := match t !! v_Name v with Some old => updated_row old v c | None => new_row v c end]> t).
Definition sql_Insert (t : table) (v : VirtualMachine) : result table :=
  c ← marshalVMColumns v;
  match t !! v_Name v with Some _ => Err ErrAlreadyExists | None => Ok (<[v_Name v := new_row v c]> t) end.
Definition sql_UpdateExisting (t : table) (v : VirtualMachine) : result (table * bool) :=
  c ← marshalVMColumns v;
  match t !! v_Name v with Some old => Ok (<[v_Name v := updated_row old v c]> t, true) | None => Ok (t, false) end.
Definition sql_Get (t : table) (name : string) : result VirtualMachine := match t !! name with Some r => scanVMRow r | None => Err ErrNotFound end.
(** [ORDER BY name] *)
Definition sql_List (t : table) : result (list VirtualMachine) := l ← mem_list t; scan_rows l.
Definition sql_ListByHypervisor (t : table) (hypervisorName : string) : result (list VirtualMachine) :=
  l ← mem_list_where (fun r => vr_hypervisor_ref r ==? hypervisorName) t; scan_rows l.
(** [LIMIT ? OFFSET ?], for an offset that is not negative. *)
Definition sql_ListPage (t : table) (offset limit : Z) : result (list VirtualMachine * Z) :=
  let total := Z.of_nat (size t) in
  if (limit <=? 0) || (total <=? offset) then Ok ([], total) else
  l ← mem_list t; vs ← scan_rows (take (Z.to_nat limit) (drop (Z.to_nat offset) l)); Ok (vs, total).
(** [DELETE … WHERE name = ? AND …] and the number of rows. *)
Definition delete_where (test : vm_row → bool) (t : table) (name : string) : table * bool :=
  match t !! name with Some r => if test r then (delete name t, true) else (t, false) | None => (t, false) end.
Definition sql_DeleteCreatedToken (t : table) (name token : string) : result (table * bool) :=
  Ok (delete_where (fun r => default "" (completionToken j (vr_status r)) ==? token) t name).
Definition sql_DeleteOwned (t : table) (name hypervisorRef : string) : result (table * bool) := Ok (delete_where (fun r => vr_hypervisor_ref r ==? hypervisorRef) t name).
Definition sql_Delete (t : table) (name : string) : result table :=
  let '(t, gone) := delete_where (fun _ => true) t name in if gone : bool then Ok t else Err ErrNotFound.
Definition sql_UpdateProvisioningAttempt (t : table) (before after : VirtualMachine) : result (table * bool) :=
  if (v_Name before !=? v_Name after) || (ps_CompletionToken (v_Provisioning before) !=? ps_CompletionToken (v_Provisioning after))
     || (ps_AttemptID (v_Provisioning before) !=? ps_AttemptID (v_Provisioning after)) then Ok (t, false) else
  '(spec, oldStatus) ← marshalVMColumns before;
  '(_, nextStatus) ← marshalVMColumns after;
  match t !! v_Name before with
  | Some r => if (vr_spec r ==? spec) && (vr_status r ==? oldStatus) && (vr_hypervisor_ref r ==? v_HypervisorRef before)
              then Ok (<[v_Name before := mkVmRow (vr_name r) (vr_hypervisor_ref r) (vr_spec r) nextStatus (vr_created_at r) (v_UpdatedAt after)]> t, true)
              else Ok (t, false)
  | None => Ok (t, false)
  end.

Definition sql_vms : VMStore table := {|
  vs_Upsert := sql_Upsert; vs_Get := sql_Get; vs_List := sql_List; vs_ListByHypervisor := sql_ListByHypervisor; vs_Delete := sql_Delete;
  vs_Insert := Some sql_Insert; vs_UpdateExisting := Some sql_UpdateExisting; vs_UpdateProvisioningAttempt := Some sql_UpdateProvisioningAttempt;
  vs_DeleteOwned := Some sql_DeleteOwned; vs_DeleteCreatedToken := Some sql_DeleteCreatedToken |}.
End sql.

(** ** The table stands for the map *)

Section refinement.
Context {J : Type} `{EqDecision J} (j : Json J) `{!JsonColumns j}.
Local Abbreviation table := (gmap string (@vm_row J)).

Definition row_shows (r : @vm_row J) (v : VirtualMachine) : Prop :=
  vr_name r = v_Name v ∧ vr_hypervisor_ref r = v_HypervisorRef v ∧ marshalSpec j (spec_of v) = Ok (vr_spec r) ∧ marshalStatus j (status_of v) = Ok (vr_status r)
  ∧ vr_created_at r = v_CreatedAt v ∧ vr_updated_at r = v_UpdatedAt v.
Definition stands_for (t : table) (m : vms) : Prop := mem_ok m ∧ ∀ n, option_Forall2 row_shows (t !! n) (m !! n).
Definition encodable (m : vms) : Prop := ∀ n v, m !! n = Some v → ∃ c, marshalVMColumns j v = Ok c.

Lemma marshal_columns v c : marshalVMColumns j v = Ok c ↔ marshalSpec j (spec_of v) = Ok c.1 ∧ marshalStatus j (status_of v) = Ok c.2.
Proof.
  unfold marshalVMColumns. destruct (marshalSpec j (spec_of v)) as [sp|e]; cbn; [|naive_solver]. destruct (marshalStatus j (status_of v)) as [st|e]; cbn; [|naive_solver].
  destruct c. naive_solver.
Qed.
Lemma scan_shows r v : row_shows r v → scanVMRow j r = Ok v.
Proof.
  intros (Hn & Hh & Hs & Ht & Hc & Hu). unfold scanVMRow. rewrite (json_spec _ _ Hs). cbn. rewrite (json_status _ _ Ht). cbn.
  by rewrite Hn, Hh, Hc, Hu, vm_of_columns.
Qed.
Lemma shows_columns r v : row_shows r v → marshalVMColumns j v = Ok (vr_spec r, vr_status r).
Proof. intros (_ & _ & Hs & Ht & _). by apply marshal_columns. Qed.
Lemma shows_token r v : row_shows r v → default "" (completionToken j (vr_status r)) = ps_CompletionToken (v_Provisioning v).
Proof. intros (_ & _ & _ & Ht & _). by rewrite (json_token _ _ Ht). Qed.
Lemma shows_new v c : marshalVMColumns j v = Ok c → row_shows (new_row v c) v.
Proof. intros [Hs Ht]%marshal_columns. by split_and!. Qed.
Lemma shows_updated old before v c : row_shows old before → v_Name v = v_Name before → v_CreatedAt v = v_CreatedAt before → marshalVMColumns j v = Ok c → row_shows (updated_row old v c) v.
Proof. intros (Hn & _ & _ & _ & Hc & _) En Ec [Hs Ht]%marshal_columns. split_and!; cbn; congruence. Qed.

Lemma stands_insert t m r v : stands_for t m → row_shows r v → stands_for (<[v_Name v := r]> t) (<[v_Name v := v]> m).
Proof.
  intros [Hok H] Hr. split.
  - intros n x [[<- <-]|[_ Hx]]%lookup_insert_Some; [done|by apply Hok].
  - intros n. destruct (decide (v_Name v = n)) as [<-|Hn]; [rewrite !lookup_insert_eq; by constructor|rewrite !lookup_insert_ne by done; apply H].
Qed.
Lemma stands_delete t m n : stands_for t m → stands_for (delete n t) (delete n m).
Proof.
  intros [Hok H]. split; [by intros n' x [_ Hx]%lookup_delete_Some; apply Hok|]. intros n'.
  destruct (decide (n = n')) as [<-|Hn]; [rewrite !lookup_delete_eq; constructor|rewrite !lookup_delete_ne by done; apply H].
Qed.
Lemma stands_lookup t m n : stands_for t m → (t !! n = None ∧ m !! n = None) ∨ ∃ r v, t !! n = Some r ∧ m !! n = Some v ∧ row_shows r v ∧ v_Name v = n.
Proof.
  intros [Hok H]. specialize (H n). destruct (t !! n) as [r|], (m !! n) as [v|] eqn:E; inversion H; subst; [right|by left]. exists r, v. split_and!; [done..|]. by apply Hok.
Qed.

(** *** The operations *)

Lemma sql_get t m n : stands_for t m → sql_Get j t n = VMStore_Get m n.
Proof.
  intros H. unfold sql_Get, VMStore_Get, mem_get. destruct (stands_lookup t m n H) as [[-> ->]|(r & v & -> & -> & Hr & _)]; [done|]. by apply scan_shows.
Qed.
(** A record that was read and is written back with another content. *)
Lemma sql_update t m old v : stands_for t m → m !! v_Name v = Some old → v_CreatedAt v = v_CreatedAt old → encodable (<[v_Name v := v]> m) →
  ∃ t', sql_UpdateExisting j t v = Ok (t', true) ∧ stands_for t' (<[v_Name v := v]> m).
Proof.
  intros H Hm Hc He. destruct (He (v_Name v) v) as [c Ec]; [apply lookup_insert_eq|]. unfold sql_UpdateExisting. rewrite Ec. cbn.
  destruct (stands_lookup t m (v_Name v) H) as [[_ E]|(r & v0 & -> & E & Hr & Hn)]; [congruence|]. eexists. split; [done|].
  apply stands_insert; [done|]. rewrite Hm in E. injection E as <-. by eapply shows_updated.
Qed.
Lemma sql_insert t m v : stands_for t m → (∀ m', VMStore_Insert m v = Ok m' → encodable m') →
  match VMStore_Insert m v with
  | Ok m' => ∃ t', sql_Insert j t v = Ok t' ∧ stands_for t' m'
  | Err e => sql_Insert j t v = Err e ∨ ∃ e', sql_Insert j t v = Err e' ∧ marshalVMColumns j v = Err e'
  end.
Proof.
  intros H He. unfold VMStore_Insert, mem_insert, sql_Insert in *. change (key_of v) with (v_Name v) in *.
  destruct (stands_lookup t m (v_Name v) H) as [[-> E]|(r & v0 & -> & E & Hr & Hn)]; rewrite E in He |- *.
  - destruct (He _ eq_refl (v_Name v) v) as [c Ec]; [apply lookup_insert_eq|]. rewrite Ec. cbn. eexists. split; [done|]. apply stands_insert; [done|]. by apply shows_new.
  - destruct (marshalVMColumns j v); [by left|right; by eexists].
Qed.
Lemma delete_where_sim t m n (test : @vm_row J → bool) (test' : VirtualMachine → bool) : stands_for t m → (∀ r v, row_shows r v → test r = test' v) →
  let '(t', b) := delete_where test t n in
  stands_for t' (if b then delete n m else m) ∧ b = match m !! n with Some v => test' v | None => false end.
Proof.
  intros H Ht. unfold delete_where. destruct (stands_lookup t m n H) as [[-> ->]|(r & v & -> & -> & Hr & _)]; [done|]. rewrite (Ht _ _ Hr).
  destruct (test' v); [split; [by apply stands_delete|done]|done].
Qed.

(** A window changed as the service does it: the specification stays. *)
Lemma sql_attempt t m before after : stands_for t m → m !! v_Name before = Some before → v_Name after = v_Name before → v_HypervisorRef after = v_HypervisorRef before →
  v_CreatedAt after = v_CreatedAt before → spec_of after = spec_of before →
  (∀ m' b, VMStore_UpdateProvisioningAttempt m before after = Ok (m', b) → encodable m') →
  match VMStore_UpdateProvisioningAttempt m before after with
  | Ok (m', b) => ∃ t', sql_UpdateProvisioningAttempt j t before after = Ok (t', b) ∧ stands_for t' m' ∧ m' = (if b then <[v_Name after := after]> m else m)
  | Err _ => False
  end.
Proof.
  intros H Hm Hn Hh Hc Hs. unfold VMStore_UpdateProvisioningAttempt, sql_UpdateProvisioningAttempt. rewrite Hm.
  rewrite (bool_decide_eq_true_2 (before = before)) by done. rewrite orb_false_r. destruct (_ || _) eqn:Eg; [by exists t|]. intros He. specialize (He _ _ eq_refl).
  destruct (stands_lookup t m (v_Name before) H) as [[_ E]|(r & v0 & Er & E & Hr & _)]; [congruence|]. rewrite Hm in E. injection E as <-.
  destruct (He (v_Name after) after) as [[sp st] Ec]; [apply lookup_insert_eq|]. rewrite (shows_columns _ _ Hr), Ec. cbn. rewrite Er.
  pose proof Hr as (R1 & R2 & R3 & R4 & R5 & R6). rewrite !bool_decide_eq_true_2 by done. cbn. eexists. split; [done|]. rewrite <- Hn. split; [|done].
  apply stands_insert; [done|]. apply marshal_columns in Ec as [E1 E2]. cbn in E1, E2. split_and!; cbn; try congruence.
Qed.

(** Lists in the order of names, of the same length. *)
Definition zero_vm (name : string) : VirtualMachine :=
  vm_of name "" (mkVmSpecJSON (mkResourceSpec 0 0 0) "" "" [] [] "" "" "" None "" None [] None)
    (mkVmStatusJSON "" "" "" [] [] (mkProvisioningStatus false "" false false None None None "" "" None None) "" "" "" None "") 0 0.
Definition decode (r : @vm_row J) : VirtualMachine := match scanVMRow j r with Ok v => v | Err _ => zero_vm (vr_name r) end.
Lemma decode_key r : key_of (decode r) = key_of r.
Proof.
  unfold decode, scanVMRow. destruct (unmarshalSpec j (vr_spec r)); cbn; [|done]. by destruct (unmarshalStatus j (vr_status r)).
Qed.
Lemma decode_table t m : stands_for t m → decode <$> t = m ∧ mem_ok t.
Proof.
  intros H. split.
  - apply map_eq. intros n. rewrite lookup_fmap. destruct (stands_lookup t m n H) as [[-> ->]|(r & v & -> & -> & Hr & _)]; [done|]. cbn. unfold decode. by rewrite (scan_shows _ _ Hr).
  - intros n r Hr. destruct (stands_lookup t m n H) as [[E _]|(r' & v & E & _ & (Hn & _) & Hv)]; [congruence|]. rewrite Hr in E. injection E as <-. unfold key_of, vm_row_keyed. congruence.
Qed.
Lemma scan_decoded t m l : stands_for t m → (∀ r, r ∈ l → r ∈ mem_values t) → scan_rows j l = Ok (decode <$> l).
Proof.
  intros H Hl. pose proof (decode_table t m H) as [_ Hok]. induction l as [|r l IH]; [done|]. cbn [scan_rows]. rewrite IH by (intros; apply Hl; by right).
  assert (Hr : r ∈ mem_values t) by (apply Hl; left). apply elem_of_mem_values in Hr; [|done].
  destruct (stands_lookup t m (key_of r) H) as [[E _]|(r' & v & E & _ & Hs & _)]; [rewrite Hr in E; discriminate|]. rewrite Hr in E. injection E as <-.
  assert (Hd : decode r = v) by (unfold decode; by rewrite (scan_shows _ _ Hs)). rewrite fmap_cons, Hd, (scan_shows _ _ Hs). done.
Qed.
Lemma sql_list t m : stands_for t m → sql_List j t = VMStore_List m.
Proof.
  intros H. pose proof (decode_table t m H) as [<- Hok]. unfold sql_List, VMStore_List, mem_list. cbn. rewrite (scan_decoded t (decode <$> t)) by (try done; intros r; by rewrite merge_sort_Permutation).
  f_equal. apply mem_list_view; [apply decode_key|done].
Qed.
Lemma sql_page t m offset limit : stands_for t m → 0 <= offset → offset + limit <= max_int64 →
  match sql_ListPage j t offset limit with Ok page => VMStore_ListPage m offset limit = Returns page | Err _ => False end.
Proof.
  intros H Ho Hmax. pose proof (decode_table t m H) as [Em Hok]. unfold sql_ListPage, VMStore_ListPage.
  assert (Hsize : size t = size m) by (rewrite <- Em; by rewrite map_size_fmap).
  destruct (Z_le_gt_dec limit 0) as [Hl|Hl].
  - unfold mem_page. rewrite (proj2 (Z.leb_le limit 0)) by done. cbn. rewrite merge_sort_Permutation. unfold mem_values. by rewrite length_fmap, length_map_to_list, Hsize.
  - rewrite mem_page_spec by lia. rewrite (proj2 (Z.leb_gt limit 0)) by lia. cbn [orb]. rewrite Hsize. destruct (Z.of_nat (size m) <=? offset) eqn:Et.
    + rewrite drop_ge; [by rewrite take_nil|]. rewrite merge_sort_Permutation. unfold mem_values. rewrite length_fmap, length_map_to_list. lia.
    + cbn. rewrite (scan_decoded t m _ H). 
      * cbn. rewrite fmap_take, fmap_drop, mem_list_view by (try apply decode_key; done). by rewrite Em.
      * intros r Hr. apply elem_of_take in Hr as (k & Hk & _). rewrite lookup_drop in Hk. apply list_elem_of_lookup_2 in Hk. by rewrite merge_sort_Permutation in Hk.
Qed.
Lemma sql_list_by_hypervisor t m hv : stands_for t m → sql_ListByHypervisor j t hv = VMStore_ListByHypervisor m hv.
Proof.
  intros H. pose proof (decode_table t m H) as [Em Hok]. unfold sql_ListByHypervisor, VMStore_ListByHypervisor, mem_list_where. cbn.
  rewrite (scan_decoded t m _ H) by (intros r; rewrite merge_sort_Permutation; by intros [_ Hr]%list_elem_of_filter).
  f_equal. rewrite (mem_list_where_view decode decode_key _ (fun v => v_HypervisorRef v ==? hv)); [by rewrite Em|done|].
  intros r Hr. apply elem_of_mem_values in Hr; [|done]. destruct (stands_lookup t m (key_of r) H) as [[E _]|(r' & v & E & _ & Hs & _)]; [rewrite Hr in E; discriminate|].
  rewrite Hr in E. injection E as <-. assert (Hd : decode r = v) by (unfold decode; by rewrite (scan_shows _ _ Hs)). destruct Hs as (_ & Hh & _). by rewrite Hd, Hh.
Qed.
End refinement.

(** ** The service over a store *)

(** The calls of the service, with their readings of the clock. *)
Inductive vm_request : Type :=
| QGet (name : string) | QList | QListByHypervisor (name : string)
| QCreate (now : Time) (v : VirtualMachine) | QStatus (now : Time) (name : string) (phase : Phase) (lastAction lastErr : string)
| QDeployed (now : Time) (name : string) (phase : Phase) (lastAction : string) (provisioning : ProvisioningStatus)
| QMissing (t_flight t_missing t_update : Time) (name lastAction lastErr : string) | QFailed (now : Time) (name lastAction lastErr token : string)
| QDefined (now : Time) (deployed : VirtualMachine) | QDeleteOwned (name hypervisorRef : string) | QDeleteCreated (name token : string) | QDelete (name : string).
Inductive vm_answer : Type := AVm (v : VirtualMachine) | AList (l : list VirtualMachine) | ADone (b : bool).

Section serve.
Context {S : Type} (store : VMStore S).

Definition reading {A} (f : A → vm_answer) (s : S) (r : result A) : S * result vm_answer := (s, match r with Ok a => Ok (f a) | Err e => Err e end).
Definition writing {A} (f : A → vm_answer) (s : S) (r : result (S * A)) : S * result vm_answer := match r with Ok (s', a) => (s', Ok (f a)) | Err e => (s, Err e) end.
Definition serve (s : S) (q : vm_request) : S * result vm_answer :=
  match q with
  | QGet name => reading AVm s (vs_Get store s name)
  | QList => reading AList s (vs_List store s)
  | QListByHypervisor name => reading AList s (vs_ListByHypervisor store s name)
  | QCreate now v => writing AVm s (CreateExclusive store s now v)
  | QStatus now name phase act err => writing AVm s (UpdateStatus store s now name phase act err)
  | QDeployed now name phase act p => writing AVm s (UpdateDeployStatus store s now name phase act p)
  | QMissing t1 t2 t3 name act err => writing AVm s (MarkMissing store s t1 t2 t3 name act err)
  | QFailed now name act err tok => writing AVm s (FailDeploy store s now name act err tok)
  | QDefined now v => let '(s', v) := markDomainDefined store s now v in (s', Ok (AVm v))
  | QDeleteOwned name ref => writing ADone s (DeleteOwned store s name ref)
  | QDeleteCreated name tok => writing ADone s (DeleteCreated store s name tok)
  | QDelete name => writing ADone s (s' ← vs_Delete store s name; Ok (s', true))
  end.
Fixpoint serve_all (s : S) (qs : list vm_request) : S * list (result vm_answer) :=
  match qs with [] => (s, []) | q :: qs => let '(s, a) := serve s q in let '(s, l) := serve_all s qs in (s, a :: l) end.
End serve.

(** *** Each call answers alike *)

Section alike.
Context {J : Type} `{EqDecision J} (j : Json J) `{!JsonColumns j}.
Local Abbreviation table := (gmap string (@vm_row J)).

(** The record of a creation can be encoded. *)
Definition fits (q : vm_request) : Prop := match q with QCreate now v => ∀ p, prepareForCreate now v = Ok p → ∃ c, marshalVMColumns j p = Ok c | _ => True end.
Definition alike (rt : table * result vm_answer) (rm : vms * result vm_answer) : Prop := rt.2 = rm.2 ∧ stands_for j rt.1 rm.1.

Lemma write_alike t m old v : stands_for j t m → m !! v_Name v = Some old → v_CreatedAt v = v_CreatedAt old →
  encodable j (writing AVm m (write_or_not_found memory_vms m v)).1 → alike (writing AVm t (write_or_not_found (sql_vms j) t v)) (writing AVm m (write_or_not_found memory_vms m v)).
Proof.
  intros H Hm Hc. rewrite write_or_not_found_memory, Hm. cbn. intros He. destruct (sql_update j t m old v H Hm Hc He) as (t' & E & H').
  unfold write_or_not_found, writeExisting. cbn [vs_UpdateExisting sql_vms]. rewrite E. by split.
Qed.
Lemma got (m : vms) name v : mem_ok m → VMStore_Get m name = Ok v → m !! v_Name v = Some v ∧ v_Name v = name.
Proof. intros Hok Hg. apply mem_get_Ok in Hg. pose proof (Hok _ _ Hg) as Hn. cbn in Hn. subst name. done. Qed.

Lemma status_alike t m now name phase act err : stands_for j t m → encodable j (serve memory_vms m (QStatus now name phase act err)).1 →
  alike (serve (sql_vms j) t (QStatus now name phase act err)) (serve memory_vms m (QStatus now name phase act err)).
Proof.
  intros H. cbn [serve]. unfold UpdateStatus. cbn [vs_Get sql_vms memory_vms]. rewrite (sql_get j t m) by done.
  destruct (VMStore_Get m name) as [v|e] eqn:Eg; [|by split]. apply got in Eg as [Eg <-]; [|apply H]. by apply (write_alike t m v).
Qed.
Lemma missing_alike t m t1 t2 t3 name act err : stands_for j t m → encodable j (serve memory_vms m (QMissing t1 t2 t3 name act err)).1 →
  alike (serve (sql_vms j) t (QMissing t1 t2 t3 name act err)) (serve memory_vms m (QMissing t1 t2 t3 name act err)).
Proof.
  intros H. cbn [serve]. unfold MarkMissing. cbn [vs_Get sql_vms memory_vms]. rewrite (sql_get j t m) by done.
  destruct (VMStore_Get m name) as [v|e] eqn:Eg; [|by split]. apply got in Eg as [Eg <-]; [|apply H]. cbn. destruct (vmDeployInFlight v t1); [by split|].
  apply (write_alike t m v); [done|..]; unfold mark_missing; by destruct (_ || _).
Qed.
Lemma failed_alike t m now name act err tok : stands_for j t m → encodable j (serve memory_vms m (QFailed now name act err tok)).1 →
  alike (serve (sql_vms j) t (QFailed now name act err tok)) (serve memory_vms m (QFailed now name act err tok)).
Proof.
  intros H. cbn [serve]. unfold FailDeploy. cbn [vs_Get sql_vms memory_vms]. rewrite (sql_get j t m) by done.
  destruct (VMStore_Get m name) as [v|e] eqn:Eg; [|by split]. apply got in Eg as [Eg <-]; [|apply H]. cbn. destruct (negb _); [by split|].
  apply (write_alike t m v); [done|..]; unfold fail_deploy; cbv zeta; by destruct (ps_CompletedAt _).
Qed.
Lemma attempt_kept (m : vms) before after m' : VMStore_UpdateProvisioningAttempt m before after = Ok (m', false) → m' = m.
Proof. unfold VMStore_UpdateProvisioningAttempt. destruct (m !! v_Name before); [destruct (_ || _)|]; congruence. Qed.
Lemma deployed_alike t m now name phase act prov : stands_for j t m → encodable j (serve memory_vms m (QDeployed now name phase act prov)).1 →
  alike (serve (sql_vms j) t (QDeployed now name phase act prov)) (serve memory_vms m (QDeployed now name phase act prov)).
Proof.
  intros H. cbn [serve]. unfold UpdateDeployStatus. cbn [vs_Get sql_vms memory_vms vs_UpdateProvisioningAttempt]. rewrite (sql_get j t m) by done.
  destruct (VMStore_Get m name) as [v|e] eqn:Eg; [|by split]. pose proof (got m name v (proj1 H) Eg) as [Ev Hn].
  change (mbind ?f (Ok v)) with (f v). cbv beta. destruct (deploy_update v now phase act prov) as [v'|] eqn:Ed; [|by split].
  apply deploy_update_Some in Ed as (-> & _ & _ & _). set (v' := v <| _ := _ |> <| _ := _ |> <| _ := _ |> <| _ := _ |> <| _ := _ |> <| _ := _ |>).
  assert (Hf : v_Name v' = v_Name v ∧ v_HypervisorRef v' = v_HypervisorRef v ∧ v_CreatedAt v' = v_CreatedAt v ∧ spec_of v' = spec_of v) by (split_and!; by destruct v). clearbody v'. destruct Hf as (Fn & Fh & Fc & Fs).
  destruct (is_windows_vm v') eqn:Ew; [|by apply (write_alike t m v); [|rewrite Fn|]].
  pose proof (sql_attempt j t m v v' H Ev Fn Fh Fc Fs) as Ha. destruct (VMStore_UpdateProvisioningAttempt m v v') as [[m' b]|e] eqn:Ea; [|destruct Ha; by intros ? ?].
  cbn. intros He. destruct Ha as (t' & -> & H' & _).
  - intros ? ? [= <- <-]. destruct b; [exact He|]. apply attempt_kept in Ea as ->. by rewrite Eg in He.
  - cbn. destruct b; [by split|]. rewrite (sql_get j t' m') by done. by destruct (VMStore_Get m' name).
Qed.
Lemma create_alike t m now v : stands_for j t m → fits (QCreate now v) → encodable j (serve memory_vms m (QCreate now v)).1 →
  alike (serve (sql_vms j) t (QCreate now v)) (serve memory_vms m (QCreate now v)).
Proof.
  intros H Hf. cbn [serve]. unfold CreateExclusive. cbn [vs_Insert sql_vms memory_vms]. destruct (prepareForCreate now v) as [p|e] eqn:Ep; [|by split]. cbn. intros He.
  destruct (Hf _ Ep) as [c Ec]. pose proof (sql_insert j t m p H) as Hi. destruct (VMStore_Insert m p) as [m'|e] eqn:Em.
  - destruct Hi as (t' & -> & H'); [by intros ? [= <-]|]. by split.
  - destruct Hi as [->|(e' & _ & E)]; [done|by split|congruence].
Qed.
Lemma delete_alike t m n b (test : @vm_row J → bool) (test' : VirtualMachine → bool) : stands_for j t m → (∀ r v, row_shows j r v → test r = test' v) →
  m !! n = b → alike (writing ADone t (Ok (delete_where test t n)))
    (writing ADone m (match b with Some v => if test' v then Ok (delete n m, true) else Ok (m, false) | None => Ok (m, false) end)).
Proof.
  intros H Ht <-. pose proof (delete_where_sim j t m n test test' H Ht) as Hd. destruct (delete_where test t n) as [t' d]. destruct Hd as [Hs ->].
  destruct (m !! n) as [v|]; [destruct (test' v)|]; by split.
Qed.
Lemma defined_alike t m now v : stands_for j t m → encodable j (serve memory_vms m (QDefined now v)).1 → alike (serve (sql_vms j) t (QDefined now v)) (serve memory_vms m (QDefined now v)).
Proof.
  intros H. cbn [serve]. unfold markDomainDefined. cbn [vs_Get sql_vms memory_vms]. rewrite (sql_get j t m) by done.
  destruct (VMStore_Get m (v_Name v)) as [old|e] eqn:Eg; [|by split]. apply got in Eg as [Eg Hn]; [|apply H].
  destruct (negb _); [by split|]. destruct (_ && _); [|by split]. set (old' := old <| _ := _ |> <| _ := _ |>).
  assert (Hf : v_Name old' = v_Name old ∧ v_CreatedAt old' = v_CreatedAt old) by by destruct old. clearbody old'. destruct Hf as [Fn Fc].
  unfold writeExisting. cbn [vs_UpdateExisting sql_vms memory_vms]. unfold VMStore_UpdateExisting. rewrite Fn, Eg. cbn. intros He.
  destruct (sql_update j t m old old' H) as (t' & -> & H'); [by rewrite Fn|done|by rewrite Fn|]. cbn. split; [done|]. by rewrite <- Fn.
Qed.

Lemma serve_alike t m q : stands_for j t m → fits q → encodable j (serve memory_vms m q).1 → alike (serve (sql_vms j) t q) (serve memory_vms m q).
Proof.
  intros H Hf He. destruct q.
  - split; [|done]. cbn [serve reading snd vs_Get sql_vms memory_vms]. by rewrite (sql_get j t m name H).
  - split; [|done]. cbn [serve reading snd vs_List sql_vms memory_vms]. by rewrite (sql_list j t m H).
  - split; [|done]. cbn [serve reading snd vs_ListByHypervisor sql_vms memory_vms]. by rewrite (sql_list_by_hypervisor j t m name H).
  - by apply create_alike.
  - by apply status_alike.
  - by apply deployed_alike.
  - by apply missing_alike.
  - by apply failed_alike.
  - by apply defined_alike.
  - apply (delete_alike t m name _ _ (fun v => v_HypervisorRef v ==? hypervisorRef) H); [|done]. by intros r v (_ & -> & _).
  - apply (delete_alike t m name _ _ (fun v => ps_CompletionToken (v_Provisioning v) ==? token) H); [|done]. intros r v Hr. by rewrite (shows_token j r v Hr).
  - pose proof (delete_where_sim j t m name (fun _ => true) (fun _ => true) H (fun _ _ _ => eq_refl)) as Hd. cbn [serve vs_Delete sql_vms memory_vms]. unfold sql_Delete, VMStore_Delete, mem_delete.
    destruct (delete_where (fun _ => true) t name) as [t' d]. destruct Hd as [Hs ->]. destruct (m !! name) as [v|]; by split.
Qed.
End alike.

Section histories.
Context {J : Type} `{EqDecision J} (j : Json J) `{!JsonColumns j}.

(** The table of the database behind the service of virtual machines is the in-memory
    store: from corresponding contents every sequence of calls of the service, with
    their reads and lists, creations, status writes, completed, failed and missing
    deployments, compare-and-set writes of Windows windows and conditional deletions,
    gets the same answers, errors included, and leaves corresponding contents, as long
    as what is written can be encoded.  So what is proved of the service over the
    in-memory store holds of the server as it is run. *)
Theorem sql_store_serves_alike qs t m (Hstart : stands_for j t m) (Hfits : Forall (fits j) qs) (Henc : ∀ k, encodable j (serve_all memory_vms m (take k qs)).1) :
  (serve_all (sql_vms j) t qs).2 = (serve_all memory_vms m qs).2 ∧ stands_for j (serve_all (sql_vms j) t qs).1 (serve_all memory_vms m qs).1.
Proof.
  revert t m Hstart Henc. induction Hfits as [|q qs Hq _ IH]; intros t m Hstart Henc; [done|].
  assert (He : encodable j (serve memory_vms m q).1).
  { specialize (Henc 1%nat). cbn [take serve_all] in Henc. by destruct (serve memory_vms m q). }
  pose proof (serve_alike j t m q Hstart Hq He) as [Ha Hs]. cbn [serve_all]. destruct (serve (sql_vms j) t q) as [t1 a], (serve memory_vms m q) as [m1 b] eqn:Em. cbn in Ha, Hs. subst b.
  destruct (IH t1 m1 Hs) as [H1 H2].
  { intros k. specialize (Henc (Datatypes.S k)). cbn [take serve_all] in Henc. rewrite Em in Henc. by destruct (serve_all memory_vms m1 (take k qs)). }
  destruct (serve_all (sql_vms j) t1 qs), (serve_all memory_vms m1 qs). cbn in *. split; [by f_equal|done].
Qed.

(** The one difference: the row of a name that is written again keeps its date of
    creation, whatever the record says. *)
Lemma upsert_keeps_creation t m v old : stands_for j t m → m !! v_Name v = Some old → (∃ c, marshalVMColumns j v = Ok c) →
  ∃ t', sql_Upsert j t v = Ok t' ∧ stands_for j t' (<[v_Name v := v <| v_CreatedAt := v_CreatedAt old |>]> m).
Proof.
  intros H Hm [c Ec]. unfold sql_Upsert. rewrite Ec. cbn. destruct (stands_lookup j t m (v_Name v) H) as [[_ E]|(r & v0 & -> & E & Hr & Hn)]; [congruence|].
  rewrite Hm in E. injection E as <-. eexists. split; [done|]. pose proof (stands_insert j t m (updated_row r v c) (v <| v_CreatedAt := v_CreatedAt old |>) H) as Hi.
  change (v_Name (v <| v_CreatedAt := v_CreatedAt old |>)) with (v_Name v) in Hi. apply Hi.
  apply marshal_columns in Ec as [E1 E2]. destruct Hr as (Rn & _ & _ & _ & Rc & _). split_and!; [exact (eq_trans Rn Hn)|done|exact E1|exact E2|exact Rc|done].
Qed.
End histories.

(** ** A run *)

Definition Document : Type := vmSpecJSON + vmStatusJSON.
Global Instance vmSpecJSON_eq_dec : EqDecision vmSpecJSON.
Proof. solve_decision. Defined.
Global Instance vmStatusJSON_eq_dec : EqDecision vmStatusJSON.
Proof. solve_decision. Defined.
Definition documents : Json Document :=
  mkJson _ (fun x => Ok (inl x)) (fun d => match d with inl x => Ok x | inr _ => Err (ErrNew "unexpected document") end)
    (fun y => Ok (inr y)) (fun d => match d with inr y => Ok y | inl _ => Err (ErrNew "unexpected document") end)
    (fun d => match d with inr y => Some (ps_CompletionToken (tj_Provisioning y)) | inl _ => None end).
Global Instance documents_laws : JsonColumns documents.
Proof. split; intros x d [= <-]; reflexivity. Qed.

Definition new_vm : VirtualMachine :=
  (zero_vm "web") <| v_HypervisorRef := "hv1" |> <| v_Resources := mkResourceSpec 2 2048 20 |> <| v_OSImageRef := "debian" |>
    <| v_Provisioning := (v_Provisioning (zero_vm "")) <| ps_CompletionToken := "t" |> |>.
Definition calls : list vm_request :=
  [QCreate 1 new_vm; QCreate 2 new_vm; QDeployed 3 "web" "Running" "create" (v_Provisioning new_vm); QList; QDeleteOwned "web" "hv2"; QDeleteCreated "web" "t"; QGet "web"].
Lemma calls_answered : List.map (fun a : result vm_answer => match a with Ok (AVm v) => v_Phase v | Ok (AList l) => pretty (N.of_nat (length l)) | Ok (ADone b) => if b then "yes" else "no" | Err e => Error e end)
    (serve_all (sql_vms documents) ∅ calls).2 = ["Pending"; "already exists"; "Running"; "1"; "no"; "yes"; "not found"].
Proof. vm_compute. reflexivity. Qed.

Lemma sql_store_serves_alike_witness : (serve_all (sql_vms documents) ∅ calls).2 = (serve_all memory_vms ∅ calls).2.
Proof.
  apply (sql_store_serves_alike documents calls ∅ ∅).
  - split; [by intros n v|]. intros n. rewrite !lookup_empty. constructor.
  - repeat constructor. all: intros p _; by eexists.
  - intros k n v _. by eexists.
Defined.
