(* ===== verification/HvApi.v ===== *)
(** * Hypervisors: their tables and the requests for them

    infra/sql/hypervisor_store.go and api/hypervisor.go, with the calls of
    internal/hypervisor/service.go taken apart: Hypervisor.v treats each as one step,
    here each statement is one, and between two of them the other requests may have
    changed the tables.  The deletion of a hypervisor with its virtual machines is
    VmApi.v. *)
From S2P Require Import Prelude GoStrings Handler Store Hypervisor ApiResource.

(** ** hypervisor_store.go: the statements *)

(** [ON CONFLICT (name) DO UPDATE]: the row keeps its date of creation. *)
Definition sql_hv_Upsert (st : HvState) (h : Hypervisor) : HvState :=
  st <| hs_store := <[hv_Name h := match hs_store st !! hv_Name h with Some old => h <| hv_CreatedAt := hv_CreatedAt old |> | None => h end]> (hs_store st) |>.
Definition sql_hv_Delete (st : HvState) (name : string) : result HvState :=
  match hs_store st !! name with Some _ => Ok (st <| hs_store := delete name (hs_store st) |>) | None => Err ErrNotFound end.
Definition errUnique : error := ErrNew "UNIQUE constraint failed".
Definition sql_token_Create (st : HvState) (t : RegistrationToken) : result HvState :=
  match hs_tokens st !! rt_Token t with Some _ => Err errUnique | None => Ok (st <| hs_tokens := <[rt_Token t := t]> (hs_tokens st) |>) end.
Definition sql_token_Get (st : HvState) (token : string) : result RegistrationToken := match hs_tokens st !! token with Some t => Ok t | None => Err ErrNotFound end.
(** [SET used = 1 … WHERE token = ? AND used = 0 AND expires_at > ?], and whether there was
    such a row. *)
Definition marked (t : RegistrationToken) (usedBy : string) : RegistrationToken := t <| rt_Used := true |> <| rt_UsedBy := usedBy |>.
Definition sql_token_mark (st : HvState) (now : Time) (token usedBy : string) : HvState * bool :=
  match hs_tokens st !! token with
  | Some t => if negb (rt_Used t) && (now <? rt_ExpiresAt t) then (st <| hs_tokens := <[token := marked t usedBy]> (hs_tokens st) |>, true) else (st, false)
  | None => (st, false)
  end.
Definition sql_agent_Create (st : HvState) (t : AgentToken) : result HvState :=
  match hs_agents st !! at_Token t with Some _ => Err errUnique | None => Ok (st <| hs_agents := <[at_Token t := t]> (hs_agents st) |>) end.
Definition sql_agent_DeleteByHypervisor (st : HvState) (name : string) : HvState := st <| hs_agents := AgentTokenStore_DeleteByHypervisor (hs_agents st) name |>.

(** ** The surroundings and the answers *)

(** By the number of the step: the others, failures of a statement, the clock, the random
    bytes. *)
Record HvEnv := mkHvEnv { he_others : nat → HvState → HvState; he_fault : nat → option error; he_clock : nat → Time; he_read : nat → nat → result bytes; he_lookupHost : string → bool }.

Record HypervisorResponse := mkHypervisorResponse {
  hr_Name : string; hr_HypervisorID : string; hr_Connection : ConnectionSpec; hr_Labels : gmap string string; hr_MachineRef : string; hr_BridgeName : string;
  hr_Phase : Phase; hr_Capacity : option ResourceInfo; hr_Used : option ResourceUsage; hr_VMCount : Z; hr_LibvirtURI : string; hr_LastHeartbeat : option Time;
  hr_LastError : string; hr_CreatedAt : Time; hr_UpdatedAt : Time }.
Definition hypervisorResponse (h : Hypervisor) : HypervisorResponse :=
  let c := hv_Connection h in
  mkHypervisorResponse (resourceName "hypervisors" (hv_Name h)) (hv_Name h) (c <| cn_KeyRef := resourceName "sshKeys" (cn_KeyRef c) |>) (hv_Labels h)
    (resourceName "machines" (hv_MachineRef h)) (hv_BridgeName h) (hv_Phase h) (hv_Capacity h) (hv_Used h) (hv_VMCount h) (hv_LibvirtURI h) (hv_LastHeartbeat h)
    (hv_LastError h) (hv_CreatedAt h) (hv_UpdatedAt h).
Inductive hv_body : Type :=
| HError (msg : string) | HHypervisor (h : HypervisorResponse) | HList (l : list HypervisorResponse) (nextPageToken : string) (totalSize : Z)
| HRegistration (t : RegistrationToken) | HRegistered (h : HypervisorResponse) (agentToken : string) | HToken (token : string).
Record HvReply := mkHvReply { hq_Status : Z; hq_Body : hv_body }.
Definition hv_error (status : Z) (e : error) : HvReply := mkHvReply status (HError (Error e)).
Definition hv_missing (e : error) : HvReply := if errors_Is e ErrNotFound then mkHvReply 404 (HError "not found") else hv_error 500 e.

Section requests.
Context (env : HvEnv).
Local Abbreviation H := (Hd HvState (string * string * string) Empty_set).

Definition hv_read {A} (f : HvState → result A) : H (result A) :=
  k ← tick; op (he_others env) (fun s => (s, match he_fault env k with Some e => Err e | None => f s end)).
Definition hv_write {A} (f : HvState → result (HvState * A)) : H (result A) :=
  k ← tick;
  op (he_others env) (fun s => match he_fault env k with
                               | Some e => (s, Err e)
                               | None => match f s with Ok (s', a) => (s', Ok a) | Err e => (s, Err e) end
                               end).
Definition hv_put (f : HvState → result HvState) : H (result unit) := hv_write (fun s => s' ← f s; Ok (s', tt)).
Definition hv_now : H Time := k ← tick; _ ← op (he_others env) (fun s => (s, tt)); mret (he_clock env k).
Definition hv_random (n : nat) : H (result bytes) := k ← tick; _ ← op (he_others env) (fun s => (s, tt)); mret (he_read env k n).
Definition audit (name action message : string) : H unit := emit (name, action, message).
(** [if err != nil { return err }] *)
Definition and_then {A B} (m : H (result A)) (f : A → H (result B)) : H (result B) := r ← m; match r with Ok a => f a | Err e => mret (Err e) end.
Definition wrapping {A} (pre : string) (m : H (result A)) : H (result A) := r ← m; mret match r with Ok a => Ok a | Err e => Err (ErrWrap pre e "") end.

(** *** The tables and the service *)

Definition svc_Get (name : string) : H (result Hypervisor) := hv_read (fun s => mem_get (hs_store s) name).
Definition svc_MarkUsed (token usedBy : string) : H (result RegistrationToken) :=
  now ← hv_now;
  and_then (hv_write (fun s => Ok (sql_token_mark s now token usedBy))) (fun changed =>
  if changed : bool then hv_read (fun s => sql_token_Get s token) else
  got ← hv_read (fun s => sql_token_Get s token);
  mret (Err match got with
            | Err _ => ErrNotFound
            | Ok t => if rt_Used t then ErrNew "token already used" else ErrNew "token expired"
            end)).
Definition svc_CreateAgentToken (name : string) : H (result string) :=
  and_then (svc_Get name) (fun _ =>
  _ ← hv_put (fun s => Ok (sql_agent_DeleteByHypervisor s name));
  and_then (hv_random 32) (fun b =>
  now ← hv_now;
  and_then (hv_put (fun s => sql_agent_Create s (mkAgentToken (hex_encode b) name now))) (fun _ => mret (Ok (hex_encode b))))).
Definition svc_CreateToken : H (result RegistrationToken) :=
  and_then (hv_random 32) (fun b =>
  now ← hv_now;
  let t := mkRegistrationToken (hex_encode b) now (time_Add now defaultTokenTTL) false "" in
  and_then (hv_put (fun s => sql_token_Create s t)) (fun _ => mret (Ok t))).
Definition svc_Create (h : Hypervisor) : H (result Hypervisor) :=
  now ← hv_now;
  let h := prepareHypervisor now h in
  match ValidateHypervisor (he_lookupHost env) h with
  | Err e => mret (Err e)
  | Ok _ => and_then (hv_put (fun s => Ok (sql_hv_Upsert s h))) (fun _ => mret (Ok h))
  end.
Definition svc_Register (req : RegisterRequest) : H (result (Hypervisor * string)) :=
  match ValidateRegisterRequest req with
  | Err e => mret (Err e)
  | Ok _ =>
      and_then (wrapping "token validation: " (svc_MarkUsed (rr_Token req) (rr_Hostname req))) (fun _ =>
      now ← hv_now;
      existing ← svc_Get (rr_Hostname req);
      let h := registered_hypervisor now req existing in
      and_then (hv_put (fun s => Ok (sql_hv_Upsert s h))) (fun _ =>
      and_then (wrapping "create agent token: " (svc_CreateAgentToken (hv_Name h))) (fun v => mret (Ok (h, v)))))
  end.

(** *** api/hypervisor.go *)

Definition CreateHypervisor (body : option Hypervisor) : H HvReply :=
  match body with
  | None => mret (mkHvReply 400 (HError "invalid body"))
  | Some h =>
      let c := hv_Connection h in
      r ← svc_Create (h <| hv_Name := resourceID "hypervisors" (hv_Name h) |> <| hv_MachineRef := resourceID "machines" (hv_MachineRef h) |>
                        <| hv_Connection := c <| cn_KeyRef := resourceID "sshKeys" (cn_KeyRef c) |> |>);
      match r with
      | Err e => mret (hv_error 400 e)
      | Ok h => _ ← audit (hv_Name h) "create-hypervisor" "hypervisor created"; mret (mkHvReply 201 (HHypervisor (hypervisorResponse h)))
      end
  end.
Definition ListHypervisors (q : Query) : H HvReply :=
  items ← hv_read (fun s => mem_list (hs_store s));
  mret match items with
       | Err e => hv_error 500 e
       | Ok items => match parsePagination q (Z.of_nat (length items)) with
                     | Err e => hv_error 400 e
                     | Ok p => mkHvReply 200 (HList (hypervisorResponse <$> paginate items p) (pg_nextPageToken p) (pg_totalSize p))
                     end
       end.
Definition GetHypervisor (name : string) : H HvReply :=
  r ← svc_Get name; mret match r with Err e => hv_missing e | Ok h => mkHvReply 200 (HHypervisor (hypervisorResponse h)) end.
Definition CreateRegistrationToken : H HvReply :=
  r ← svc_CreateToken;
  match r with
  | Err e => mret (hv_error 500 e)
  | Ok t => _ ← audit "" "create-registration-token" "registration token created"; mret (mkHvReply 201 (HRegistration t))
  end.
Definition RegisterHypervisor (body : option RegisterRequest) : H HvReply :=
  match body with
  | None => mret (mkHvReply 400 (HError "invalid body"))
  | Some req => r ← svc_Register req;
                mret match r with Err e => hv_error 400 e | Ok (h, v) => mkHvReply 201 (HRegistered (hypervisorResponse h) v) end
  end.
Definition Server_CreateAgentToken (name : string) : H HvReply :=
  r ← svc_CreateAgentToken name;
  match r with
  | Err e => mret (hv_missing e)
  | Ok v => _ ← audit name "create-agent-token" "agent token created"; mret (mkHvReply 201 (HToken v))
  end.
End requests.

(** ** What the requests do to the tables *)

(** The statements of the requests; a registration token is stored unused. *)
Inductive hv_stmt (s : HvState) : HvState → Prop :=
| stm_put h : hv_stmt s (sql_hv_Upsert s h)
| stm_remove name s' : sql_hv_Delete s name = Ok s' → hv_stmt s s'
| stm_token t s' : rt_Used t = false → sql_token_Create s t = Ok s' → hv_stmt s s'
| stm_mark now token by_ : hv_stmt s (sql_token_mark s now token by_).1
| stm_agent t s' : sql_agent_Create s t = Ok s' → hv_stmt s s'
| stm_agents name : hv_stmt s (sql_agent_DeleteByHypervisor s name).

(** The token was used, by that host. *)
Definition used_by (s : HvState) (token usedBy : string) : Prop := ∃ t, hs_tokens s !! token = Some t ∧ rt_Used t = true ∧ rt_UsedBy t = usedBy.

Lemma tokens_set (s : HvState) m : hs_tokens (s <| hs_tokens := m |>) = m.
Proof. done. Qed.
Lemma stmt_used s s' token by_ : hv_stmt s s' → used_by s token by_ → used_by s' token by_.
Proof.
  intros Hs (t & Ht & Hu & Hb). destruct Hs as [h|name s' H|t' s' Hf H|now v by'|t' s' H|name].
  - by exists t.
  - unfold sql_hv_Delete in H. destruct (hs_store s !! name); [|done]. injection H as <-. by exists t.
  - unfold sql_token_Create in H. destruct (hs_tokens s !! rt_Token t') eqn:E; [done|]. injection H as <-. exists t. split; [|done]. rewrite tokens_set, lookup_insert_ne; [done|congruence].
  - unfold sql_token_mark. destruct (hs_tokens s !! v) as [t0|] eqn:E; [|by exists t]. destruct (_ && _) eqn:Eu; [|by exists t]. exists t. split; [|done]. cbn [fst]. rewrite tokens_set.
    rewrite lookup_insert_ne; [done|]. intros ->. rewrite Ht in E. injection E as <-. by rewrite Hu in Eu.
  - unfold sql_agent_Create in H. destruct (hs_agents s !! at_Token t'); [done|]. injection H as <-. by exists t.
  - by exists t.
Qed.
Lemma stmts_used s s' token by_ : rtc hv_stmt s s' → used_by s token by_ → used_by s' token by_.
Proof. induction 1; [done|]. intros. eauto using stmt_used. Qed.

Section runs.
Context (env : HvEnv) (Hothers : ∀ k s, rtc hv_stmt s (he_others env k s)).
Local Abbreviation H := (Hd HvState (string * string * string) Empty_set).
Definition stays {A} (m : H A) : Prop := ∀ st, rtc hv_stmt (hst_store st) (hst_store (m st).1).

Lemma stays_bind {A B} (m : H A) (f : A → H B) : stays m → (∀ a, stays (f a)) → stays (m ≫= f).
Proof. intros Hm Hf st. unfold mbind, Hd_bind. specialize (Hm st). destruct (m st) as [st1 [a|[]]]. cbn in Hm. etrans; [exact Hm|apply Hf]. Qed.
Lemma stays_ret {A} (a : A) : stays (mret a).
Proof. intros st. apply rtc_refl. Qed.
Lemma stays_read {A} (f : HvState → result A) : stays (hv_read env f).
Proof. intros st. cbn. apply Hothers. Qed.
Lemma stays_now : stays (hv_now env).
Proof. intros st. cbn. apply Hothers. Qed.
Lemma stays_random n : stays (hv_random env n).
Proof. intros st. cbn. apply Hothers. Qed.
Lemma stays_write {A} (f : HvState → result (HvState * A)) : (∀ s s' a, f s = Ok (s', a) → rtc hv_stmt s s') → stays (hv_write env f).
Proof.
  intros Hf st. unfold hv_write, mbind, Hd_bind, tick, op. cbn. destruct (he_fault env (hst_tick st)); cbn; [apply Hothers|].
  destruct (f _) as [[s' a]|e] eqn:E; cbn; [etrans; [apply Hothers|by eapply Hf]|apply Hothers].
Qed.
Lemma stays_put (f : HvState → result HvState) : (∀ s s', f s = Ok s' → hv_stmt s s') → stays (hv_put env f).
Proof. intros Hf. apply stays_write. intros s s' []. destruct (f s) eqn:E; [|done]. cbn. intros [= <-]. apply rtc_once. by apply Hf. Qed.
Lemma stays_then {A B} (m : H (result A)) (f : A → H (result B)) : stays m → (∀ a, stays (f a)) → stays (and_then m f).
Proof. intros Hm Hf. apply stays_bind; [done|]. intros [a|e]; [apply Hf|apply stays_ret]. Qed.
Lemma stays_wrapping {A} pre (m : H (result A)) : stays m → stays (wrapping pre m).
Proof. intros Hm. apply stays_bind; [done|intros; apply stays_ret]. Qed.
Lemma stays_agent name : stays (svc_CreateAgentToken env name).
Proof.
  apply stays_then; [apply stays_read|intros _]. apply stays_bind; [apply stays_put; intros s s' [= <-]; constructor|intros _].
  apply stays_then; [apply stays_random|intros b]. apply stays_bind; [apply stays_now|intros now]. apply stays_then; [|intros; apply stays_ret].
  apply stays_put. intros s s'. apply stm_agent.
Qed.

Lemma then_Ok {A B} (m : H (result A)) (f : A → H (result B)) st st' b : and_then m f st = (st', inl (Ok b)) → ∃ st1 a, m st = (st1, inl (Ok a)) ∧ f a st1 = (st', inl (Ok b)).
Proof. unfold and_then, mbind, Hd_bind. destruct (m st) as [st1 [[a|e]|[]]]; [|done]. intros Hf. by exists st1, a. Qed.
Lemma stays_run {A} (m : H A) st st' r : stays m → m st = (st', r) → rtc hv_stmt (hst_store st) (hst_store st').
Proof. intros Hm E. specialize (Hm st). by rewrite E in Hm. Qed.

(** The statement that used the token. *)
Lemma mark_used token by_ st st' t : svc_MarkUsed env token by_ st = (st', inl (Ok t)) →
  ∃ s0 t0 now, rtc hv_stmt (hst_store st) s0 ∧ hs_tokens s0 !! token = Some t0 ∧ rt_Used t0 = false ∧ now < rt_ExpiresAt t0
    ∧ rtc hv_stmt (sql_token_mark s0 now token by_).1 (hst_store st').
Proof.
  unfold svc_MarkUsed. intros E. unfold mbind, Hd_bind in E. destruct (hv_now env st) as [st1 [now|[]]] eqn:En.
  assert (Hn : rtc hv_stmt (hst_store st) (hst_store st1)) by (eapply stays_run; [apply stays_now|exact En]).
  apply then_Ok in E as (st2 & changed & Ew & E). unfold hv_write, mbind, Hd_bind, tick, op in Ew. cbn in Ew.
  destruct (he_fault env (hst_tick st1)); [discriminate|]. set (s0 := he_others env (hst_tick st1) (hst_store st1)) in *.
  destruct (sql_token_mark s0 now token by_) as [s1 b] eqn:Em. injection Ew as <- <-.
  destruct b; [|unfold hv_read, mbind, Hd_bind, tick, op in E; cbn in E; discriminate].
  assert (Hs : rtc hv_stmt s1 (hst_store st')) by (pose proof (stays_run _ _ _ _ (stays_read _) E) as Hs; exact Hs).
  revert Em. unfold sql_token_mark at 1. destruct (hs_tokens s0 !! token) as [t0|] eqn:Et; [|done]. destruct (negb (rt_Used t0) && (now <? rt_ExpiresAt t0)) eqn:Eu; [|done]. intros [= <-].
  exists s0, t0, now. apply andb_true_iff in Eu as [Eu%negb_true_iff El%Z.ltb_lt]. split; [etrans; [exact Hn|apply Hothers]|]. split_and!; [done..|].
  unfold sql_token_mark. rewrite Et, Eu, (proj2 (Z.ltb_lt _ _) El). exact Hs.
Qed.
End runs.

(** A registration that is answered with 201 has used its token. *)
Lemma registered_used env req st st' r : (∀ k s, rtc hv_stmt s (he_others env k s)) → RegisterHypervisor env (Some req) st = (st', inl r) → hq_Status r = 201 →
  ∃ s0 t now, rtc hv_stmt (hst_store st) s0 ∧ hs_tokens s0 !! rr_Token req = Some t ∧ rt_Used t = false ∧ now < rt_ExpiresAt t
    ∧ rtc hv_stmt (sql_token_mark s0 now (rr_Token req) (rr_Hostname req)).1 (hst_store st').
Proof.
  intros Ho E Hr. unfold RegisterHypervisor in E. unfold mbind at 1, Hd_bind at 1 in E.
  destruct (svc_Register env req st) as [st1 [res|[]]] eqn:Es. injection E as <- <-. destruct res as [[h v]|e]; [|done].
  unfold svc_Register in Es. destruct (ValidateRegisterRequest req); [|done].
  apply then_Ok in Es as (st2 & t & Em & Es). unfold wrapping, mbind, Hd_bind in Em. destruct (svc_MarkUsed env _ _ st) as [st3 [[t'|e]|[]]] eqn:Ek; [|done]. injection Em as <- <-.
  destruct (mark_used env Ho _ _ _ _ _ Ek) as (s0 & t0 & now & H1 & H2 & H3 & H4 & H5). exists s0, t0, now. split_and!; [done..|]. etrans; [exact H5|].
  eapply stays_run; [|exact Es]. apply stays_bind; [by apply stays_now|intros t2]. apply stays_bind; [by apply stays_read|intros existing].
  apply stays_then; [apply stays_put; [done|]; intros s s' [= <-]; constructor|intros _]. apply stays_then; [apply stays_wrapping; by apply stays_agent|intros; apply stays_ret].
Qed.

Lemma marked_used s now token by_ t : hs_tokens s !! token = Some t → rt_Used t = false → now < rt_ExpiresAt t → used_by (sql_token_mark s now token by_).1 token by_.
Proof.
  intros Ht Hu Hn. unfold sql_token_mark. rewrite Ht, Hu, (proj2 (Z.ltb_lt _ _) Hn). cbn [negb andb fst]. exists (marked t by_). split; [|done]. by rewrite tokens_set, lookup_insert_eq.
Qed.

(** However requests for hypervisors interleave, statement by statement, a
    registration token registers at most one hypervisor: a registration is answered with
    201 only if at one moment of the request its token was stored, unused and unexpired,
    and the request marked it then as used by its host; from that moment on the token
    stays used by that host, and every other registration with it that ends later is
    answered with an error. *)
Theorem registration_token_redeemed_once (env : HvEnv) (Hothers : ∀ k s, rtc hv_stmt s (he_others env k s)) req st st' r
  (Hrun : RegisterHypervisor env (Some req) st = (st', inl r)) (H201 : hq_Status r = 201) :
  ∃ s0 now, let s1 := (sql_token_mark s0 now (rr_Token req) (rr_Hostname req)).1 in
    rtc hv_stmt (hst_store st) s0 ∧ rtc hv_stmt s1 (hst_store st')
    ∧ (∃ t, hs_tokens s0 !! rr_Token req = Some t ∧ rt_Used t = false ∧ now < rt_ExpiresAt t)
    ∧ (∀ s, rtc hv_stmt s1 s → used_by s (rr_Token req) (rr_Hostname req))
    ∧ ∀ env2 req2 st2 st2' r2, (∀ k s, rtc hv_stmt s (he_others env2 k s)) → rr_Token req2 = rr_Token req → rtc hv_stmt s1 (hst_store st2) →
        RegisterHypervisor env2 (Some req2) st2 = (st2', inl r2) → hq_Status r2 ≠ 201.
Proof.
  destruct (registered_used env req st st' r Hothers Hrun H201) as (s0 & t & now & H1 & H2 & H3 & H4 & H5). exists s0, now. cbv zeta.
  assert (Hu : ∀ s, rtc hv_stmt (sql_token_mark s0 now (rr_Token req) (rr_Hostname req)).1 s → used_by s (rr_Token req) (rr_Hostname req)).
  { intros s Hs. eapply stmts_used; [exact Hs|]. by eapply marked_used. }
  split_and!; [done|done|by exists t|done|]. intros env2 req2 st2 st2' r2 Ho2 Ht Hs Hr2 H2'.
  destruct (registered_used env2 req2 st2 st2' r2 Ho2 Hr2 H2') as (s2 & t2 & now2 & R1 & R2 & R3 & _).
  destruct (Hu s2) as (t3 & E & Hused & _); [by etrans|]. rewrite Ht in R2. congruence.
Qed.

(** ** Runs *)

Definition hv_env (others : nat → HvState → HvState) : HvEnv := mkHvEnv others (fun _ => None) (fun _ => 5) (fun k n => Ok (replicate n (byte_of (Z.of_nat k)))) (fun _ => false).
Definition hv_start : HvState := mkHvState ∅ {[ "tok" := mkRegistrationToken "tok" 0 10 false "" ]} ∅.
Definition kvm1 : RegisterRequest := mkRegisterRequest "tok" "kvm1" (mkConnectionSpec "" "10.0.0.2" 16509 "" "" "") (mkResourceInfo 4 8192 100).
Definition first_registration := RegisterHypervisor (hv_env (fun _ s => s)) (Some kvm1) (mkHState 0%nat hv_start []).

Lemma registration_token_redeemed_once_witness : hq_Status <$> (match first_registration.2 with inl r => Some r | inr _ => None end) = Some 201
  ∧ ∃ s1, used_by s1 "tok" "kvm1" ∧ rtc hv_stmt s1 (hst_store first_registration.1).
Proof.
  split; [vm_compute; reflexivity|].
  destruct (registration_token_redeemed_once (hv_env (fun _ s => s)) (fun _ s => rtc_refl _ s) kvm1 (mkHState 0%nat hv_start []) first_registration.1
    (match first_registration.2 with inl r => r | inr _ => mkHvReply 0 (HError "") end)) as (s0 & now & _ & H2 & _ & H4 & _).
  - vm_compute. reflexivity.
  - vm_compute. reflexivity.
  - eexists. split; [apply H4, rtc_refl|exact H2].
Defined.

(** Issuing an agent token removes the ones before it; two that are issued at once leave
    both: the second removes between the removal and the insertion of the first. *)
Definition kvm1_db : HvState := mkHvState {[ "kvm1" := registered_hypervisor 0 kvm1 (Err ErrNotFound) ]} ∅ {[ "old" := mkAgentToken "old" "kvm1" 0 ]}.
Definition issues (s : HvState) : HvState := hst_store (Server_CreateAgentToken (hv_env (fun _ s => s)) "kvm1" (mkHState 10%nat s [])).1.
Lemma two_agent_tokens :
  size (hs_agents (hst_store (Server_CreateAgentToken (hv_env (fun k s => if (k =? 2)%nat then issues s else s)) "kvm1" (mkHState 0%nat kvm1_db [])).1)) = 2%nat.
Proof. vm_compute. reflexivity. Qed.
(** A hypervisor removed in between leaves a valid token behind. *)
Definition removes (s : HvState) : HvState := match sql_hv_Delete s "kvm1" with Ok s => sql_agent_DeleteByHypervisor s "kvm1" | Err _ => s end.
Lemma token_outlives_hypervisor :
  let s := hst_store (Server_CreateAgentToken (hv_env (fun k s => if (k =? 2)%nat then removes s else s)) "kvm1" (mkHState 0%nat kvm1_db [])).1 in
  hs_store s !! "kvm1" = None ∧ List.map (fun p : string * AgentToken => at_HypervisorName p.2) (map_to_list (hs_agents s)) = ["kvm1"].
Proof. vm_compute. done. Qed.
(** At the very moment of its expiry a token is refused by the database and accepted by
    the in-memory store. *)
Lemma expiry_instant : snd (sql_token_mark hv_start 10 "tok" "kvm1") = false ∧ match RegTokenStore_MarkUsed (hs_tokens hv_start) 10 "tok" "kvm1" with Ok _ => true | Err _ => false end = true.
Proof. vm_compute. done. Qed.
