(* ===== verification/Config.v ===== *)
(** * infra/config: the settings of the server

    config.go: the defaults, the file, the environment, and what is filled in at the
    end.  The environment is a function from names to values; the YAML decoder and the
    parser of durations are parameters. *)
From S2P Require Import Prelude GoStrings.

Record Config := mkConfig {
  ClusterAPIKubeconfig : string; ClusterAPIContext : string; ClusterAPINamespace : string; DBDriver : string; DBDsn : string; ListenAddr : string;
  DataDir : string; SessionTTL : Duration; AdminUsername : string; AdminPassword : string; DNSMode : string; DNSEmbeddedAddr : string; DNSTTL : Duration;
  PowerDNSBaseURL : string; PowerDNSAPIToken : string; PowerDNSServerID : string; RFC2136Server : string; RFC2136Zone : string; RFC2136TSIGName : string;
  RFC2136TSIGSecret : string; RFC2136TSIGAlgorithm : string; RFC2136Transport : string; BootHTTPBaseURL : string; DHCPMode : string; DHCPIface : string;
  TFTPAddr : string; TFTPRoot : string; PXEHTTPBaseURL : string; PXEBootFileBIOS : string; PXEBootFileUEFI : string; BootenvSourceURL : string;
  ProvisionTimeout : Duration }.
Global Instance Config_fields : Fields Config :=
  fpure mkConfig <*> ClusterAPIKubeconfig <*> ClusterAPIContext <*> ClusterAPINamespace <*> DBDriver <*> DBDsn <*> ListenAddr <*> DataDir <*> SessionTTL
    <*> AdminUsername <*> AdminPassword <*> DNSMode <*> DNSEmbeddedAddr <*> DNSTTL <*> PowerDNSBaseURL <*> PowerDNSAPIToken <*> PowerDNSServerID
    <*> RFC2136Server <*> RFC2136Zone <*> RFC2136TSIGName <*> RFC2136TSIGSecret <*> RFC2136TSIGAlgorithm <*> RFC2136Transport <*> BootHTTPBaseURL
    <*> DHCPMode <*> DHCPIface <*> TFTPAddr <*> TFTPRoot <*> PXEHTTPBaseURL <*> PXEBootFileBIOS <*> PXEBootFileUEFI <*> BootenvSourceURL <*> ProvisionTimeout.

Definition DNSModeOff : string := "off".
Definition DNSModeEmbedded : string := "embedded".
Definition defaultBootenvSourceURL : string := "https://github.com/sugaf1204/gomi/releases/latest/download".
Definition defaultDataDir : string := "/var/lib/gomi/data".

(** What a file may set. *)
Record fileConfig := mkFileConfig {
  fc_Kubeconfig : option string; fc_Context : option string; fc_Namespace : option string; fc_ListenAddr : option string; fc_DataDir : option string;
  fc_SessionTTL : option string; fc_AdminUsername : option string; fc_AdminPassword : option string; fc_DBDriver : option string; fc_DSN : option string;
  fc_DNSMode : option string; fc_EmbeddedAddr : option string; fc_DNSTTL : option string; fc_PdnsBaseURL : option string; fc_PdnsAPIToken : option string;
  fc_PdnsServerID : option string; fc_Server : option string; fc_Zone : option string; fc_TSIGName : option string; fc_TSIGSecret : option string;
  fc_TSIGAlgorithm : option string; fc_Transport : option string; fc_BootHTTPBaseURL : option string; fc_DHCPMode : option string; fc_DHCPIface : option string;
  fc_TFTPAddr : option string; fc_TFTPRoot : option string; fc_PXEHTTPBaseURL : option string; fc_BootFileBIOS : option string; fc_BootFileUEFI : option string;
  fc_SourceURL : option string; fc_ProvisionTimeout : option string }.

Definition NormalizeDNSMode (mode : string) : string := let mode := ToLower (TrimSpace mode) in if mode ==? "" then DNSModeOff else mode.

Definition Defaults : Config :=
  mkConfig "" "" "" "sqlite" "" ":5392" defaultDataDir (12 * 3600 * Second) "" "" DNSModeEmbedded "" (300 * Second) "" "" "localhost" "" "" "" ""
    "hmac-sha256." "udp" "" "full" "" ":69" "" "" "undionly.kpxe" "ipxe.efi" defaultBootenvSourceURL (30 * 60 * Second).

Definition Finalize (cfg : Config) : Config :=
  let cfg := if TrimSpace (DataDir cfg) ==? "" then cfg <| DataDir := defaultDataDir |> else cfg in
  let cfg := if TrimSpace (DBDriver cfg) ==? "" then cfg <| DBDriver := "sqlite" |> else cfg in
  let cfg := cfg <| DNSMode := NormalizeDNSMode (DNSMode cfg) |> in
  let cfg := if (DBDsn cfg ==? "") && (DBDriver cfg ==? "sqlite") then cfg <| DBDsn := DataDir cfg +:+ "/gomi.db" |> else cfg in
  if TFTPRoot cfg ==? "" then cfg <| TFTPRoot := DataDir cfg +:+ "/tftp" |> else cfg.

Section config.
Context (ParseDuration : string → result Duration).

(** ** The environment *)

Section environment.
Context (LookupEnv : string → option string).
Definition Getenv (key : string) : string := default "" (LookupEnv key).
Definition readPresentString (key def : string) : string := match LookupEnv key with Some value => TrimSpace value | None => def end.
Definition readString (key def : string) : string := let v := TrimSpace (Getenv key) in if v ==? "" then def else v.
Definition readDuration (key : string) (def : Duration) : Duration :=
  let v := TrimSpace (Getenv key) in if v ==? "" then def else match ParseDuration v with Ok d => d | Err _ => def end.

Definition ApplyEnv (c : Config) : Config :=
  mkConfig (readPresentString "GOMI_CLUSTER_API_KUBECONFIG" (ClusterAPIKubeconfig c)) (readPresentString "GOMI_CLUSTER_API_CONTEXT" (ClusterAPIContext c))
    (readPresentString "GOMI_CLUSTER_API_NAMESPACE" (ClusterAPINamespace c)) (readString "GOMI_DB_DRIVER" (DBDriver c)) (readString "GOMI_DB_DSN" (DBDsn c))
    (readString "GOMI_LISTEN_ADDR" (ListenAddr c)) (readString "GOMI_DATA_DIR" (DataDir c)) (readDuration "GOMI_SESSION_TTL" (SessionTTL c))
    (readString "GOMI_ADMIN_USERNAME" (AdminUsername c)) (readString "GOMI_ADMIN_PASSWORD" (AdminPassword c))
    (NormalizeDNSMode (readString "GOMI_DNS_MODE" (DNSMode c))) (readString "GOMI_DNS_EMBEDDED_ADDR" (DNSEmbeddedAddr c)) (readDuration "GOMI_DNS_TTL" (DNSTTL c))
    (readString "GOMI_POWERDNS_BASE_URL" (PowerDNSBaseURL c)) (readString "GOMI_POWERDNS_API_TOKEN" (PowerDNSAPIToken c))
    (readString "GOMI_POWERDNS_SERVER_ID" (PowerDNSServerID c)) (readString "GOMI_RFC2136_SERVER" (RFC2136Server c))
    (readString "GOMI_RFC2136_ZONE" (RFC2136Zone c)) (readString "GOMI_RFC2136_TSIG_NAME" (RFC2136TSIGName c))
    (readString "GOMI_RFC2136_TSIG_SECRET" (RFC2136TSIGSecret c)) (readString "GOMI_RFC2136_TSIG_ALGORITHM" (RFC2136TSIGAlgorithm c))
    (readString "GOMI_RFC2136_TRANSPORT" (RFC2136Transport c)) (readString "GOMI_BOOT_HTTP_BASE_URL" (BootHTTPBaseURL c))
    (readString "GOMI_DHCP_MODE" (DHCPMode c)) (readString "GOMI_DHCP_IFACE" (DHCPIface c)) (readString "GOMI_TFTP_ADDR" (TFTPAddr c))
    (readString "GOMI_TFTP_ROOT" (TFTPRoot c)) (readString "GOMI_PXE_HTTP_BASE_URL" (PXEHTTPBaseURL c)) (readString "GOMI_PXE_BOOTFILE_BIOS" (PXEBootFileBIOS c))
    (readString "GOMI_PXE_BOOTFILE_UEFI" (PXEBootFileUEFI c)) (readString "GOMI_BOOTENV_SOURCE_URL" (BootenvSourceURL c))
    (readDuration "GOMI_VM_PROVISION_TIMEOUT" (ProvisionTimeout c)).
End environment.

(** ** The file *)

Definition applyString (dst : string) (src : option string) : string := match src with Some s => TrimSpace s | None => dst end.
Definition applyDuration (dst : Duration) (src : option string) (field : string) : result Duration :=
  match src with
  | None => Ok dst
  | Some s =>
      let raw := TrimSpace s in
      if raw ==? "" then Err (ErrNew (field +:+ " must not be empty")) else
      match ParseDuration raw with Ok d => Ok d | Err e => Err (ErrWrap ("invalid " +:+ field +:+ ": ") e "") end
  end.
Definition apply (fc : fileConfig) (c : Config) : result Config :=
  sessionTTL ← applyDuration (SessionTTL c) (fc_SessionTTL fc) "session_ttl";
  dnsTTL ← applyDuration (DNSTTL c) (fc_DNSTTL fc) "dns.ttl";
  timeout ← applyDuration (ProvisionTimeout c) (fc_ProvisionTimeout fc) "vm.provision_timeout";
  Ok (mkConfig (applyString (ClusterAPIKubeconfig c) (fc_Kubeconfig fc)) (applyString (ClusterAPIContext c) (fc_Context fc))
        (applyString (ClusterAPINamespace c) (fc_Namespace fc)) (applyString (DBDriver c) (fc_DBDriver fc)) (applyString (DBDsn c) (fc_DSN fc))
        (applyString (ListenAddr c) (fc_ListenAddr fc)) (applyString (DataDir c) (fc_DataDir fc)) sessionTTL
        (applyString (AdminUsername c) (fc_AdminUsername fc)) (applyString (AdminPassword c) (fc_AdminPassword fc)) (applyString (DNSMode c) (fc_DNSMode fc))
        (applyString (DNSEmbeddedAddr c) (fc_EmbeddedAddr fc)) dnsTTL (applyString (PowerDNSBaseURL c) (fc_PdnsBaseURL fc))
        (applyString (PowerDNSAPIToken c) (fc_PdnsAPIToken fc)) (applyString (PowerDNSServerID c) (fc_PdnsServerID fc)) (applyString (RFC2136Server c) (fc_Server fc))
        (applyString (RFC2136Zone c) (fc_Zone fc)) (applyString (RFC2136TSIGName c) (fc_TSIGName fc)) (applyString (RFC2136TSIGSecret c) (fc_TSIGSecret fc))
        (applyString (RFC2136TSIGAlgorithm c) (fc_TSIGAlgorithm fc)) (applyString (RFC2136Transport c) (fc_Transport fc))
        (applyString (BootHTTPBaseURL c) (fc_BootHTTPBaseURL fc)) (applyString (DHCPMode c) (fc_DHCPMode fc)) (applyString (DHCPIface c) (fc_DHCPIface fc))
        (applyString (TFTPAddr c) (fc_TFTPAddr fc)) (applyString (TFTPRoot c) (fc_TFTPRoot fc)) (applyString (PXEHTTPBaseURL c) (fc_PXEHTTPBaseURL fc))
        (applyString (PXEBootFileBIOS c) (fc_BootFileBIOS fc)) (applyString (PXEBootFileUEFI c) (fc_BootFileUEFI fc))
        (applyString (BootenvSourceURL c) (fc_SourceURL fc)) timeout).

(** [Decode] reads strictly; an empty document, [io.EOF], sets nothing. *)
Context (ReadFile : string → result bytes) (Decode : bytes → result (option fileConfig)).
Definition no_file_config : fileConfig :=
  mkFileConfig None None None None None None None None None None None None None None None None None None None None None None None None None None None None None
    None None None.
Definition ApplyYAML (c : Config) (data : bytes) : result Config :=
  match Decode data with
  | Err e => Err (ErrWrap "parse config yaml: " e "")
  | Ok fc => apply (default no_file_config fc) c
  end.
Definition applyYAMLFile (c : Config) (path : string) : result Config :=
  match ReadFile path with
  | Err e => Err (ErrWrap ("read config file " +:+ path +:+ ": ") e "")
  | Ok data => ApplyYAML c data
  end.
Definition Load (LookupEnv : string → option string) (path : string) : result Config :=
  cfg ← (if TrimSpace path !=? "" then applyYAMLFile Defaults path else Ok Defaults);
  Ok (Finalize (ApplyEnv LookupEnv cfg)).
Definition FromEnv (LookupEnv : string → option string) : Config := Finalize (ApplyEnv LookupEnv Defaults).

(** ** Where a setting comes from *)

(** The settings that are taken as they are, with their variable and their place in the
    file. *)
Definition plain_settings : list (string * (Config → string) * (fileConfig → option string)) :=
  [("GOMI_LISTEN_ADDR", ListenAddr, fc_ListenAddr); ("GOMI_ADMIN_USERNAME", AdminUsername, fc_AdminUsername);
   ("GOMI_ADMIN_PASSWORD", AdminPassword, fc_AdminPassword); ("GOMI_DNS_EMBEDDED_ADDR", DNSEmbeddedAddr, fc_EmbeddedAddr);
   ("GOMI_POWERDNS_BASE_URL", PowerDNSBaseURL, fc_PdnsBaseURL); ("GOMI_POWERDNS_API_TOKEN", PowerDNSAPIToken, fc_PdnsAPIToken);
   ("GOMI_POWERDNS_SERVER_ID", PowerDNSServerID, fc_PdnsServerID); ("GOMI_RFC2136_SERVER", RFC2136Server, fc_Server);
   ("GOMI_RFC2136_ZONE", RFC2136Zone, fc_Zone); ("GOMI_RFC2136_TSIG_NAME", RFC2136TSIGName, fc_TSIGName);
   ("GOMI_RFC2136_TSIG_SECRET", RFC2136TSIGSecret, fc_TSIGSecret); ("GOMI_RFC2136_TSIG_ALGORITHM", RFC2136TSIGAlgorithm, fc_TSIGAlgorithm);
   ("GOMI_RFC2136_TRANSPORT", RFC2136Transport, fc_Transport); ("GOMI_BOOT_HTTP_BASE_URL", BootHTTPBaseURL, fc_BootHTTPBaseURL);
   ("GOMI_DHCP_MODE", DHCPMode, fc_DHCPMode); ("GOMI_DHCP_IFACE", DHCPIface, fc_DHCPIface); ("GOMI_TFTP_ADDR", TFTPAddr, fc_TFTPAddr);
   ("GOMI_PXE_HTTP_BASE_URL", PXEHTTPBaseURL, fc_PXEHTTPBaseURL); ("GOMI_PXE_BOOTFILE_BIOS", PXEBootFileBIOS, fc_BootFileBIOS);
   ("GOMI_PXE_BOOTFILE_UEFI", PXEBootFileUEFI, fc_BootFileUEFI); ("GOMI_BOOTENV_SOURCE_URL", BootenvSourceURL, fc_SourceURL)].

(** What the file at the path says; no path is an empty file. *)
Definition file_says (path : string) (fc : fileConfig) : Prop :=
  if TrimSpace path ==? "" then fc = no_file_config else ∃ data d, ReadFile path = Ok data ∧ Decode data = Ok d ∧ fc = default no_file_config d.

Lemma when_DataDir (b : bool) v c : (if b then c <| DataDir := v |> else c) = c <| DataDir := if b then v else DataDir c |>.
Proof. by destruct b, c. Qed.
Lemma when_DBDriver (b : bool) v c : (if b then c <| DBDriver := v |> else c) = c <| DBDriver := if b then v else DBDriver c |>.
Proof. by destruct b, c. Qed.
Lemma when_DBDsn (b : bool) v c : (if b then c <| DBDsn := v |> else c) = c <| DBDsn := if b then v else DBDsn c |>.
Proof. by destruct b, c. Qed.
Lemma when_TFTPRoot (b : bool) v c : (if b then c <| TFTPRoot := v |> else c) = c <| TFTPRoot := if b then v else TFTPRoot c |>.
Proof. by destruct b, c. Qed.
(** The five settings that are filled in. *)
Definition or_else (v def : string) : string := if TrimSpace v ==? "" then def else v.
Lemma Finalize_eq c : let d := or_else (DataDir c) defaultDataDir in let b := or_else (DBDriver c) "sqlite" in
  Finalize c = c <| DataDir := d |> <| DBDriver := b |> <| DNSMode := NormalizeDNSMode (DNSMode c) |>
    <| DBDsn := if (DBDsn c ==? "") && (b ==? "sqlite") then d +:+ "/gomi.db" else DBDsn c |>
    <| TFTPRoot := if TFTPRoot c ==? "" then d +:+ "/tftp" else TFTPRoot c |>.
Proof.
  unfold Finalize. cbv zeta. rewrite when_DataDir, when_DBDriver, when_DBDsn, when_TFTPRoot. reflexivity.
Qed.
Ltac each_setting H := unfold plain_settings in H; rewrite ?elem_of_cons, ?elem_of_nil in H; repeat destruct H as [[= -> -> ->]|H]; try done.
Lemma Finalize_keeps cfg k get file : (k, get, file) ∈ plain_settings → get (Finalize cfg) = get cfg.
Proof. rewrite Finalize_eq. cbv zeta. intros Hk. each_setting Hk. Qed.
Lemma ApplyEnv_reads env cfg k get file : (k, get, file) ∈ plain_settings → get (ApplyEnv env cfg) = readString env k (get cfg).
Proof. intros Hk. each_setting Hk. Qed.
Lemma apply_reads fc c c' k get file : apply fc c = Ok c' → (k, get, file) ∈ plain_settings → get c' = applyString (get c) (file fc).
Proof.
  unfold apply. intros H. inv_binds. intros Hk. each_setting Hk.
Qed.
Lemma apply_nothing c : apply no_file_config c = Ok c.
Proof. by destruct c. Qed.
Lemma from_settings {A} (m : result A) (f : A → Config) cfg : (c ← m; Ok (f c)) = Ok cfg → ∃ c, m = Ok c ∧ cfg = f c.
Proof. destruct m as [c|e]; [|done]. intros [= <-]. by exists c. Qed.
Lemma Load_inv env path cfg : Load env path = Ok cfg → ∃ fc c, file_says path fc ∧ apply fc Defaults = Ok c ∧ cfg = Finalize (ApplyEnv env c).
Proof.
  intros (c & Hc & ->)%from_settings. unfold file_says. destruct (TrimSpace path ==? "") eqn:E; cbn in Hc.
  - exists no_file_config, c. rewrite apply_nothing. by split_and!.
  - unfold applyYAMLFile in Hc. destruct (ReadFile path) as [data|e] eqn:Er; [|done]. unfold ApplyYAML in Hc. destruct (Decode data) as [d|e] eqn:Ed; [|done].
    exists (default no_file_config d), c. split_and!; [by exists data, d|done..].
Qed.

(** A plain setting is what its variable says, if that is not blank; else what the file
    says, blank or not; else the default. *)
Lemma settings_precedence env path cfg k get file : Load env path = Ok cfg → (k, get, file) ∈ plain_settings →
  ∃ fc, file_says path fc ∧ get cfg = let v := TrimSpace (default "" (env k)) in
    if v ==? "" then match file fc with Some s => TrimSpace s | None => get Defaults end else v.
Proof.
  intros (fc & c & Hf & Ha & ->)%Load_inv Hk. exists fc. split; [done|].
  by rewrite (Finalize_keeps _ _ _ _ Hk), (ApplyEnv_reads _ _ _ _ _ Hk), (apply_reads _ _ _ _ _ _ Ha Hk).
Qed.

(** The settings the others depend on are never blank. *)
Definition complete (c : Config) : Prop :=
  TrimSpace (DataDir c) ≠ "" ∧ TrimSpace (DBDriver c) ≠ "" ∧ DNSMode c ≠ "" ∧ (DBDriver c = "sqlite" → DBDsn c ≠ "") ∧ TFTPRoot c ≠ "".
Lemma NormalizeDNSMode_set m : NormalizeDNSMode m ≠ "".
Proof. unfold NormalizeDNSMode. destruct (_ ==? "") eqn:E; [done|]. by apply bool_decide_eq_false in E. Qed.
Lemma or_else_set v def : TrimSpace def ≠ "" → TrimSpace (or_else v def) ≠ "".
Proof. intros Hd. unfold or_else. destruct (_ ==? "") eqn:E; [done|]. by apply bool_decide_eq_false in E. Qed.
Lemma Finalize_complete c : complete (Finalize c).
Proof.
  rewrite Finalize_eq. cbv zeta. split_and!; [by apply or_else_set|by apply or_else_set|apply NormalizeDNSMode_set|..].
  - set (b := or_else (DBDriver c) "sqlite"). set (d := or_else (DataDir c) defaultDataDir). intros Hb. change (b = "sqlite") in Hb.
    change ((if (DBDsn c ==? "") && (b ==? "sqlite") then d +:+ "/gomi.db" else DBDsn c) ≠ ""). rewrite Hb.
    destruct (DBDsn c ==? "") eqn:E; cbn; [by destruct d|by apply bool_decide_eq_false in E].
  - set (d := or_else (DataDir c) defaultDataDir). change ((if TFTPRoot c ==? "" then d +:+ "/tftp" else TFTPRoot c) ≠ "").
    destruct (TFTPRoot c ==? "") eqn:E; [by destruct d|by apply bool_decide_eq_false in E].
Qed.
Lemma Load_complete env path cfg : Load env path = Ok cfg → complete cfg.
Proof. intros (fc & c & _ & _ & ->)%Load_inv. apply Finalize_complete. Qed.
End config.

(** A variable of an access lifetime that is no duration is passed over, the file's is an
    error; a negative one is taken. *)
Definition two_durations (s : string) : result Duration := if s ==? "-1h" then Ok (-3600 * Second) else Err (ErrNew "time: invalid duration").
Lemma durations_unchecked :
  SessionTTL (FromEnv two_durations (fun k => if k ==? "GOMI_SESSION_TTL" then Some "12 hours" else None)) = 12 * 3600 * Second
  ∧ SessionTTL (FromEnv two_durations (fun k => if k ==? "GOMI_SESSION_TTL" then Some "-1h" else None)) = -3600 * Second.
Proof. split; vm_compute; reflexivity. Qed.
